(* ===== verification/_CoqProject ===== *)
-Q . S2P
Prelude.v
DispQueue.v
Os.v
RemoteQueue.v
RemoteQueueFacts.v
CString.v
CList.v
Nvlist.v
Expr.v
ExprFacts.v
ExprPrint.v
ExprEval.v
Lru.v
LruFacts.v
DataBuf.v
HitList.v
HitListFacts.v
StrSplit.v
Fgets.v
SearchTime.v
Avc.v
Llist.v
Lol.v
LolFacts.v
Config.v
ConfigFacts.v
AuditdConf.v
AuditdConfFacts.v
RemoteConf.v
RemoteConfFacts.v
Pconfig.v
ZosConf.v
AupConf.v
PluginConfFacts.v
Match.v
MatchFacts.v
Escape.v
EscapeFacts.v
Ellist.v
EllistFacts.v
Auparse.v
AuparseFacts.v
AuparseFeed.v
Interpret.v
InterpretFacts.v
AuSearch.v
AuSearchFacts.v
Lookup.v
Rule.v
RuleFacts.v
RuleList.v
Getopt.v
Auditctl.v
AuditctlFacts.v
RuleText.v
RuleCalls.v
RuleFields.v
RulePrint.v
RuleReload.v
RuleLines.v
RuleSamples.v
AuditdEvent.v
AuditdEventFacts.v
AuditdLogs.v
AuditdSamples.v
Rmw.v
Listen.v
ListenFacts.v
Remote.v
RemoteLink.v
RemoteSamples.v
SearchParse.v
SearchParseFacts.v
SearchSyscall.v
SearchMatch.v
SearchSafe.v
SearchSamples.v
