(* ===== verification/Prelude.v ===== *)
(** * Verification of the audit user space programs

    The repository holds the notes of a study group on the Linux kernel and,
    under src/kernel_dev/libaudit/src, the sources of the audit user space: the
    library, the daemon with its event dispatcher, the remote plugin, auditctl,
    the parser library and the search tools.  This development models these
    programs as functions and proves their properties.  Paths below are relative
    to src/kernel_dev/libaudit/src; the headings of the other files write them
    from src/kernel_dev/libaudit.

    ** The programs

    auditd writes events to log files, rotates them and watches the space that
    is left (src/auditd-event.c).  Events come from the kernel and, over TCP,
    from other machines (src/auditd-listen.c).  auditd gives them to the
    dispatcher, whose threads pass them through a bounded queue (audisp/queue.c)
    to plugins.  Plugins read lines with common/audit-fgets.c.  audisp-remote
    (audisp/plugins/remote/audisp-remote.c) keeps the events in a queue on disk
    (queue.c beside it) and sends them, behind the header of lib/private.h, to
    the auditd of a server, which logs and answers them.  Each of these programs
    reads a configuration of the same form.

    auditctl (src/auditctl.c) makes rules from options or the lines of a file
    with the functions of lib/libaudit.c, sends them to the kernel, and lists
    the rules of the kernel as options again (src/auditctl-listing.c).

    The parser library takes the lines of logs from files or pieces of a buffer
    (auparse/data_buf.c), assembles events (auparse/auparse.c), cuts records into
    fields (auparse/ellist.c, nvlist.c), interprets values (auparse/interpret.c)
    with a cache of the names of users (auparse/lru.c), and searches for events
    by expressions (auparse/expression.c).

    ausearch and aureport split lines into words (common/strsplit.c), collect
    records in events (src/ausearch-lol.c, ausearch-llist.c, ausearch-avc.c)
    within a time window (src/ausearch-time.c), take what is asked for from the
    records by their types (src/ausearch-parse.c), match it with the options
    (src/ausearch-match.c) and count what they report (src/ausearch-int.c,
    ausearch-string.c).

    ** The files

    Shared:
    - Prelude: machine integers (Z reduced modulo 2^32 or 2^64), tactics, hints
      and the theory of rings: an array used as a queue.
    - Os: files, a directory and system calls that a script makes fail or fall
      short.  CString, CList: the string functions of C, and lists with a cursor.
    - StrSplit, Fgets: common/strsplit.c and common/audit-fgets.c.

    Events on their way:
    - DispQueue: audisp/queue.c.  The static variables are the record [state];
      [enqueue] and [dequeue] are cut where they let go of the lock or wait, so
      that a list of [move]s is an interleaving of the two threads with the
      signals and spurious wake-ups they may get.
    - AuditdEvent, AuditdEventFacts, AuditdLogs, AuditdSamples:
      src/auditd-event.c above Os; the log files as a list of texts.
    - Rmw, Listen, ListenFacts: the header of lib/private.h; clients and their
      messages in src/auditd-listen.c, with [distribute_event] of src/auditd.c.
    - RemoteQueue, RemoteQueueFacts: audisp/plugins/remote/queue.c above Os.
      [rep] relates [struct queue] to the strings it holds, [stored] its file.
    - Remote, RemoteLink, RemoteSamples: audisp-remote.c above the class [Net] of
      network calls; RemoteLink makes an instance of it from the daemon of
      Listen and AuditdEvent, with faults of the connection from a script.

    Configurations:
    - Config, ConfigFacts: what the five readers share; [load_config] as a fold
      over the lines of the file, for either word splitter (class of what a
      splitter promises).
    - AuditdConf, AuditdConfFacts: src/auditd-config.c.  RemoteConf,
      RemoteConfFacts: remote-config.c, with the queue that the plugin opens.
      Pconfig, ZosConf, AupConf, PluginConfFacts: audisp/audispd-pconfig.c,
      zos-remote-config.c and auparse/auditd-config.c.

    Rules:
    - Lookup: lib/lookup_table.c and its tables.  Rule, RuleFacts: the rules of
      lib/libaudit.c.  RuleList: src/auditctl-listing.c and auditctl-llist.c.
      Getopt, Auditctl, AuditctlFacts: getopt_long() and src/auditctl.c above a
      class [Kernel] of answers.
    - RuleCalls: what the calls of the library ask for, stated without it, and
      that any sequence of them builds that rule.
    - RuleText, RuleFields, RulePrint, RuleReload, RuleLines, RuleSamples: that
      what is listed can be loaded again, from the numbers to whole lines.

    The parser library:
    - DataBuf, Nvlist, Ellist, EllistFacts: auparse/data_buf.c, nvlist.c and
      ellist.c.  Auparse, AuparseFacts, AuparseFeed: sources, lines and the
      assembling of events in auparse.c; AuSearch, AuSearchFacts: its searches
      and accessors.
    - Expr, ExprFacts, ExprPrint, ExprEval: auparse/expression.c, the lexer, the
      parser with its messages, the constructors and the evaluator; a printer
      for source expressions.
    - Lru, LruFacts: auparse/lru.c on a heap of nodes, and its use in
      interpret.c.  Escape, EscapeFacts: encoding and escaping of values.
      Interpret, InterpretFacts: interpretations that came with a record, and
      the choice of a printer.

    The search tools:
    - HitList, HitListFacts: src/ausearch-int.c and ausearch-string.c, linked
      lists on a heap.  SearchTime: src/ausearch-time.c.  Avc, Llist:
      src/ausearch-avc.c and ausearch-llist.c.  Lol, LolFacts:
      src/ausearch-lol.c.  Match, MatchFacts: src/ausearch-match.c, above a class
      [Parse] of what extracts the search items.
    - SearchParse: src/ausearch-parse.c, with the interpretations of
      ausearch-nvpair.c and ausearch-report.c; the parsers run in a monad over the
      text of the record, in which they make their cuts, and the search items.
      SearchParseFacts: what their steps do on records of words.  SearchSyscall:
      SYSCALL records as the kernel writes them.  SearchMatch: the instance of
      [Parse], and the search by what a record says.  SearchSafe: the parsers on
      any text.  SearchSamples: records of both, and records read wrong.

    ** The theorems

    - Remote logging from end to end: whatever the connection does, an event
      leaves the queue of the plugin only when its line is in the logs of the
      server ([dropped_is_logged]).  However the bytes of a connection are cut,
      the server sees the messages that were sent ([client_stream]).  Both are
      for messages that fit the buffer of the server with their header.  The
      server keeps its limits of connections.
    - The logs: with actions that leave the log open every event that is not a
      request is answered once, with rotation the numbered files are a
      bounded list of texts, and with keep_logs nothing is lost
      ([no_event_lost], [rotation_refines]).
    - The dispatcher queue is a FIFO under every interleaving while it does not
      grow at a bad time, neither side waits for nothing, overflow is reported.
    - The queue on disk appends, peeks and drops as a FIFO whatever the system
      calls do, survives a crash in the middle of an append and a restart, and is
      resized atomically unless it shrinks with copies in memory; a restart with
      a configuration of no smaller depth keeps the records.
    - Rules: a rule holds the fields and system calls that were accepted, in
      order and with the values that the texts denote ([rule_holds_accepted]); a
      rule line is handled without a bad access; a listed rule that is not shown
      as a watch is loaded again as itself.
    - Configurations: a configuration that loads is in its ranges, loading is a
      fold over the lines and ends, what is written is read back, and the two
      readers of auditd.conf agree on a log file that is there.
    - The parser library: the events handed out do not depend on how the input
      was cut and all come out, from a buffer if its last line is ended; a search
      finds the events that match; a record is cut by its words and printed
      records are read back; values that were encoded are shown, and escaping
      stays within its buffer and is exact but for keys behind whose last
      separator nothing comes.
    - Expressions: printed ones are parsed back, parsing ends, evaluation
      computes the truth of the expression.  The name cache refines a
      move-to-front list and is transparent.
    - The search tools: lines come back whole, records are neither lost nor mixed
      up, events come out by time and all of them do, matching is the conjunction
      of the options (but for a subject with an object), and a system call is found
      exactly by the values that the kernel wrote ([syscall_matched]).  The parsers of kernel and daemon records,
      without those of addresses and AVC messages, stay inside of any text and
      put back what they cut ([extraction_safe]).
    - Defects of the programs are theorems or examples beside the theorems that
      exclude them by a hypothesis.

    ** Conventions

    Functions that can access memory they must not return an option, [None] for
    the access; the theorems show that it does not happen.  Code outside of the
    repository is a parameter: regular expressions, the user database, the
    calendar, the generated tables of names, the kernel, the network.  Memory
    allocation succeeds unless the code is written to survive its failure (the
    remote queue, the array of events, rules).

    Loops that are not structural take fuel: [full_pread] and [full_pwrite] the
    number of bytes, as every transfer moves at least one; [copy_loop] the length
    of the queue, which every turn shortens; the lexer and parser the length of
    the text; the bubble sort of the lists [sort_fuel], since each swap removes
    an inversion; [load_config] and [file_loop] of a rules file the length of the
    file, from which every line takes a character; the options of a command line
    [option_fuel], the characters of the arguments; the parser library [budget],
    the bytes and lines that are left; a client's handler the bytes that wait on
    its socket; a relay the tries of the configuration; opening and rotating logs
    [open_fuel] and [rotate_fuel], from the number of logs.  Theorems that a result is
    given are theorems that the fuel is enough.

    ** Not modelled

    Kerberos and libwrap, which are options of the build; signals, select() and
    the set-up of sockets and processes; the netlink messages of lib/ (the
    answers of the kernel are a class); the thread that flushes the log and the
    enrichment of events; text of messages; the printers of the field types in
    auparse/interpret.c, which are parameters; the normalizer, the reports and
    the output of the front ends, the bindings and tools; floating point
    arithmetic; the vendored libev; the exercises of the study group, which call
    the kernel and have no logic of their own. *)
From stdpp Require Export base tactics option list numbers strings gmap sorting.
From Stdlib Require Export Lia.

Global Set Default Goal Selector "!".
Global Open Scope Z_scope.

(** ** Machine integers *)

(** Unsigned 32-bit and 64-bit arithmetic of C: results are reduced modulo
    the width. *)
Definition two32 : Z := 2 ^ 32.
Definition two64 : Z := 2 ^ 64.
Definition u32 (x : Z) : Z := x mod two32.
Definition u64 (x : Z) : Z := x mod two64.
Definition UINT32_MAX : Z := two32 - 1.
Definition SIZE_MAX : Z := two64 - 1.

Declare Scope audit_scope.
Delimit Scope audit_scope with audit.
Notation "x +u y" := (u32 (x + y)) (at level 50, left associativity) : audit_scope.
Notation "x -u y" := (u32 (x - y)) (at level 50, left associativity) : audit_scope.

Create HintDb audit.

Lemma two32_pos : 0 < two32.
Proof. reflexivity. Qed.

Lemma two64_pos : 0 < two64.
Proof. reflexivity. Qed.

Lemma u32_range x : 0 <= u32 x < two32.
Proof. apply Z.mod_pos_bound, two32_pos. Qed.

Lemma u64_range x : 0 <= u64 x < two64.
Proof. apply Z.mod_pos_bound, two64_pos. Qed.

Lemma u32_small x : 0 <= x < two32 -> u32 x = x.
Proof. apply Z.mod_small. Qed.

Lemma u64_small x : 0 <= x < two64 -> u64 x = x.
Proof. apply Z.mod_small. Qed.

#[export] Hint Resolve two32_pos two64_pos u32_range u64_range : audit.

(** ** Tactics *)

(** Case analysis on every boolean comparison of the goal and the
    hypotheses, leaving the propositions [lia] understands. *)
Ltac zb :=
  repeat match goal with
  | H : context [ (?a =? ?b)%Z ] |- _ => destruct (Z.eqb_spec a b)
  | H : context [ (?a <? ?b)%Z ] |- _ => destruct (Z.ltb_spec a b)
  | H : context [ (?a <=? ?b)%Z ] |- _ => destruct (Z.leb_spec a b)
  | |- context [ (?a =? ?b)%Z ] => destruct (Z.eqb_spec a b)
  | |- context [ (?a <? ?b)%Z ] => destruct (Z.ltb_spec a b)
  | |- context [ (?a <=? ?b)%Z ] => destruct (Z.leb_spec a b)
  end.

(** Split the next [match] of the goal on its scrutinee. *)
Ltac case_goal :=
  match goal with
  | |- context [ match ?x with _ => _ end ] => destruct x eqn:?
  end.

(** Split the next [match] of hypothesis [H] on its scrutinee. *)
Ltac case_hyp H :=
  match type of H with
  | context [ match ?x with _ => _ end ] => destruct x eqn:?
  end.

(** Decide the goal by computation. *)
Ltac by_decision :=
  match goal with |- ?P => apply (bool_decide_eq_true_1 P); vm_compute; reflexivity end.

(** ** Lists *)

Lemma filter_none {A} (P : A -> Prop) `{forall x, Decision (P x)} xs :
  Forall (fun x => ~ P x) xs -> filter P xs = [].
Proof. induction 1; [done|]. by rewrite filter_cons_False. Qed.

(** ** Rings

    Two queues of the program store a FIFO in an array used as a ring.  Read
    from its first occupied slot, such an array is the FIFO followed by free
    slots. *)

Section ring.
Context {A : Type}.
Implicit Types (r : list (option A)) (xs : list A).

(** [ring_rep r first xs]: the ring [r] read from slot [first] holds [xs]
    and free slots after it. *)
Definition ring_rep (r : list (option A)) (first : nat) (xs : list A) : Prop :=
  rotate first r = (Some <$> xs) ++ replicate (length r - length xs) None.

(** The slot [k] places after [first]. *)
Definition ring_slot (r : list (option A)) (first k : nat) : nat :=
  rotate_nat_add first k (length r).

(** What a ring holds, read from slot [first]. *)
Definition ring_contents (r : list (option A)) (first : nat) : list A :=
  omap id (rotate first r).

Lemma omap_id_fmap_Some xs : omap id (Some <$> xs) = xs.
Proof. induction xs as [|x xs IH]; cbn; [done|]. by f_equal. Qed.

Lemma omap_id_replicate_None n : omap id (replicate n (@None A)) = [].
Proof. by induction n. Qed.

Lemma ring_rep_contents r first xs :
  ring_rep r first xs -> ring_contents r first = xs.
Proof.
  unfold ring_rep, ring_contents. intros ->.
  by rewrite omap_app, omap_id_fmap_Some, omap_id_replicate_None, app_nil_r.
Qed.

Lemma ring_rep_length r first xs :
  ring_rep r first xs -> (length xs <= length r)%nat.
Proof.
  intros H. apply (f_equal length) in H.
  rewrite length_rotate, length_app, length_fmap, length_replicate in H. lia.
Qed.

Lemma ring_rep_empty n first : ring_rep (replicate n None) first [].
Proof.
  unfold ring_rep. cbn. rewrite length_replicate, Nat.sub_0_r.
  unfold rotate. rewrite drop_replicate, take_replicate, <-replicate_add.
  f_equal. rewrite length_replicate.
  destruct n as [|n]; [lia|].
  pose proof (Nat.mod_upper_bound first (S n)). lia.
Qed.

Lemma ring_lookup r first k :
  (k < length r)%nat -> r !! ring_slot r first k = rotate first r !! k.
Proof. intros Hk. unfold ring_slot. by rewrite lookup_rotate_r. Qed.

(** The slot after the last occupied one is free, exactly when there is
    room. *)
Lemma ring_free_slot r first xs :
  ring_rep r first xs -> (length xs < length r)%nat ->
  r !! ring_slot r first (length xs) = Some None.
Proof.
  intros H Hlt. rewrite ring_lookup by done. rewrite H.
  rewrite lookup_app_r by (rewrite length_fmap; lia).
  rewrite length_fmap, Nat.sub_diag, lookup_replicate_2; [done|lia].
Qed.

Lemma ring_occupied_slot r first xs k x :
  ring_rep r first xs -> xs !! k = Some x ->
  r !! ring_slot r first k = Some (Some x).
Proof.
  intros H Hk. pose proof (lookup_lt_Some _ _ _ Hk) as Hlt.
  pose proof (ring_rep_length _ _ _ H).
  rewrite ring_lookup by lia. rewrite H.
  rewrite lookup_app_l by (rewrite length_fmap; lia).
  by rewrite list_lookup_fmap, Hk.
Qed.

Lemma ring_rep_push r first xs x :
  ring_rep r first xs -> (length xs < length r)%nat ->
  ring_rep (<[ring_slot r first (length xs) := Some x]> r) first (xs ++ [x]).
Proof.
  intros H Hlt. unfold ring_rep, ring_slot. rewrite rotate_insert_l by done.
  rewrite H, length_insert, length_app. cbn.
  rewrite insert_app_r_alt by (rewrite length_fmap; lia).
  rewrite length_fmap, Nat.sub_diag.
  destruct (length r - length xs)%nat as [|m] eqn:E; [lia|].
  replace (length r - (length xs + 1))%nat with m by lia.
  cbn. by rewrite fmap_app, <-app_assoc.
Qed.

Lemma rotate_lt r first :
  (first < length r)%nat -> rotate first r = drop first r ++ take first r.
Proof. intros H. unfold rotate. by rewrite Nat.mod_small. Qed.

(** Moving the first slot by one moves the head of the reading to its
    end. *)
Lemma rotate_step r first x rest :
  (first < length r)%nat -> rotate first r = x :: rest ->
  rotate (ring_slot r first 1) r = rest ++ [x].
Proof.
  intros Hlt. rewrite rotate_lt by done.
  destruct (lookup_lt_is_Some_2 r first Hlt) as [y Hy].
  rewrite (drop_S _ _ _ Hy). cbn. intros [= -> <-].
  assert (Z.of_nat (ring_slot r first 1) = (Z.of_nat first + 1) mod Z.of_nat (length r)) as E.
  { unfold ring_slot, rotate_nat_add. rewrite Z2Nat.id; [done|].
    apply Z.mod_pos_bound. lia. }
  destruct (decide (S first = length r)) as [Hl|Hl].
  - rewrite <-Hl, Nat2Z.inj_succ, <-Z.add_1_r, Z_mod_same_full in E.
    assert (ring_slot r first 1 = 0%nat) as -> by lia.
    rewrite rotate_lt by lia. rewrite Hl, drop_all, drop_0, app_nil_r. cbn.
    rewrite <-(take_S_r _ _ _ Hy), Hl. by rewrite take_ge.
  - rewrite Z.mod_small in E by lia.
    assert (ring_slot r first 1 = S first) as -> by lia.
    rewrite rotate_lt by lia. by rewrite (take_S_r _ _ _ Hy), app_assoc.
Qed.

Lemma ring_rep_pop r first x xs :
  ring_rep r first (x :: xs) -> (first < length r)%nat ->
  ring_rep (<[first := None]> r) (ring_slot r first 1) xs.
Proof.
  intros H Hlt. unfold ring_rep.
  assert (rotate first (<[first := None]> r)
          = None :: (Some <$> xs) ++ replicate (length r - S (length xs)) None) as E.
  { rewrite rotate_lt by (rewrite length_insert; done).
    rewrite take_insert_ge by lia.
    unfold ring_rep in H. rewrite rotate_lt in H by done.
    destruct (lookup_lt_is_Some_2 r first Hlt) as [y Hy].
    rewrite (drop_S _ _ _ Hy) in H. cbn in H. injection H as _ H.
    rewrite (drop_S _ None first) by (by rewrite list_lookup_insert_eq).
    rewrite drop_insert_lt by lia. cbn. by rewrite H. }
  replace (ring_slot r first 1) with (ring_slot (<[first := None]> r) first 1)
    by (unfold ring_slot; by rewrite length_insert).
  rewrite (rotate_step _ _ _ _ ltac:(by rewrite length_insert) E).
  rewrite length_insert, <-app_assoc. f_equal.
  apply ring_rep_length in H as Hle. cbn in Hle.
  replace (length r - length xs)%nat with (length r - S (length xs) + 1)%nat by lia.
  by rewrite replicate_add.
Qed.
End ring.

(** Slot numbers: C computes them with unsigned [%]. *)
Lemma ring_slot_Z {A} (r : list (option A)) first k :
  Z.of_nat (ring_slot r first k) = (Z.of_nat first + Z.of_nat k) mod Z.of_nat (length r).
Proof.
  unfold ring_slot, rotate_nat_add. rewrite Z2Nat.id; [done|].
  destruct (decide (length r = 0%nat)) as [->|].
  - rewrite Z.mod_0_r. lia.
  - apply Z.mod_pos_bound. lia.
Qed.

Lemma ring_slot_lt {A} (r : list (option A)) first k :
  (0 < length r)%nat -> (ring_slot r first k < length r)%nat.
Proof.
  intros H. pose proof (ring_slot_Z r first k) as E.
  pose proof (Z.mod_pos_bound (Z.of_nat first + Z.of_nat k) (Z.of_nat (length r))). lia.
Qed.
