(* ===== verification/DispQueue.v ===== *)
(** * The event queue of the dispatcher (src/audisp/queue.c)

    The daemon thread hands events to the outbound thread through a ring of
    pointers guarded by one mutex and one condition variable.  The
    module translates the operations; a critical section is one definition, so a run
    of the two threads is a sequence of critical sections ([move]). *)
From S2P Require Import Prelude.

Local Open Scope audit_scope.

Module DispQueue.

(** The overflow actions of the configuration ([overflow_action_t]). *)
Inductive overflow_action_t :=
  O_IGNORE | O_SYSLOG | O_SUSPEND | O_SINGLE | O_HALT | O_OTHER.

(** What an operation does outside the queue. *)
Inductive effect :=
  | LogQueueFull
  | LogLimitReached
  | LogSuspending
  | LogSingle
  | LogHalt
  | LogUnknownAction
  | ChangeRunlevel (level : string).

Definition QUEUE_FULL_LIMIT : Z := 5.
Definition SINGLE : string := "1".
Definition HALT : string := "0".

Section queue.
Context {event_t : Type}.

(** The file-static state. *)
Record state := State {
  q : list (option event_t);
  q_next : Z;
  q_last : Z;
  q_depth : Z;
  processing_suspended : bool;
  currently_used : Z;
  max_used : Z;
  overflowed : bool;
  queue_full_warning : Z;
}.

Definition set_suspended (b : bool) (s : state) : state :=
  State (q s) (q_next s) (q_last s) (q_depth s) b (currently_used s)
    (max_used s) (overflowed s) (queue_full_warning s).
Definition set_warning (n : Z) (s : state) : state :=
  State (q s) (q_next s) (q_last s) (q_depth s) (processing_suspended s)
    (currently_used s) (max_used s) (overflowed s) n.
Definition set_overflowed (b : bool) (s : state) : state :=
  State (q s) (q_next s) (q_last s) (q_depth s) (processing_suspended s)
    (currently_used s) (max_used s) b (queue_full_warning s).

Definition reset_suspended (s : state) : state :=
  set_warning 0 (set_suspended false s).

Definition resume_queue (s : state) : state := set_suspended false s.

(** [malloc_ok] says whether the allocation of the ring succeeds;
    [queue_full_warning] keeps its value. *)
Definition init_queue (malloc_ok : bool) (size : Z) (s : state) : Z * state :=
  let q' := if malloc_ok then replicate (Z.to_nat size) None else [] in
  (if malloc_ok then 0 else -1,
   State q' 0 0 size false 0 0 false (queue_full_warning s)).

Definition do_overflow_action (action : overflow_action_t) (s : state)
    : list effect * state :=
  let s := set_overflowed true s in
  match action with
  | O_IGNORE => ([], s)
  | O_SYSLOG =>
      if queue_full_warning s <? QUEUE_FULL_LIMIT then
        let s := set_warning (queue_full_warning s + 1) s in
        if queue_full_warning s =? QUEUE_FULL_LIMIT
        then ([LogQueueFull; LogLimitReached], s)
        else ([LogQueueFull], s)
      else ([], s)
  | O_SUSPEND => ([LogSuspending], set_suspended true s)
  | O_SINGLE => ([LogSingle; ChangeRunlevel SINGLE], s)
  | O_HALT => ([LogHalt; ChangeRunlevel HALT], s)
  | O_OTHER => ([LogUnknownAction], s)
  end.

(** Slot [n] of the ring, [None] when the access is out of bounds. *)
Definition slot (s : state) (n : Z) : option (option event_t) :=
  q s !! Z.to_nat n.

(** The critical section of [enqueue]: [Some (true, s')] when the event was
    stored, [Some (false, s)] when the slot was taken, [None] for an access
    outside the ring or a division by zero. *)
Definition enqueue_try (e : event_t) (s : state) : option (bool * state) :=
  if q_depth s =? 0 then None else
  let n := q_next s mod q_depth s in
  match slot s n with
  | None => None
  | Some None =>
      let used := currently_used s +u 1 in
      Some (true,
        State (<[Z.to_nat n := Some e]> (q s)) ((n +u 1) mod q_depth s)
          (q_last s) (q_depth s) (processing_suspended s) used
          (if max_used s <? used then used else max_used s)
          (overflowed s) (queue_full_warning s))
  | Some (Some _) => Some (false, s)
  end.

(** What the two locked regions of [dequeue] end in. *)
Inductive deq_result :=
  | DeqReturn (e : option event_t)   (* unlock and return *)
  | DeqWait.                         (* pthread_cond_wait *)

(** "OK, grab the next event": take slot [n]. *)
Definition dequeue_take (n : Z) (s : state) : option (deq_result * state) :=
  match slot s n with
  | None => None
  | Some (Some e) =>
      Some (DeqReturn (Some e),
        State (<[Z.to_nat n := None]> (q s)) (q_next s)
          ((n +u 1) mod q_depth s) (q_depth s) (processing_suspended s)
          (currently_used s -u 1) (max_used s) (overflowed s)
          (queue_full_warning s))
  | Some None =>
      Some (DeqReturn None,
        State (q s) (q_next s) (q_last s) (q_depth s)
          (processing_suspended s) (currently_used s -u 1) (max_used s)
          (overflowed s) (queue_full_warning s))
  end.

(** [dequeue] from its start to its return or its wait. *)
Definition dequeue_enter (disp_hup : bool) (s : state)
    : option (deq_result * state) :=
  if disp_hup then Some (DeqReturn None, s) else
  if q_depth s =? 0 then None else
  let n := q_last s mod q_depth s in
  match slot s n with
  | None => None
  | Some None => Some (DeqWait, s)
  | Some (Some _) => dequeue_take n s
  end.

(** [dequeue] from the return of the wait to its return. *)
Definition dequeue_wake (disp_hup : bool) (s : state)
    : option (deq_result * state) :=
  if disp_hup then Some (DeqReturn None, s) else
  if q_depth s =? 0 then None else
  dequeue_take (q_last s mod q_depth s) s.

(** The result of [realloc] is not tested, so a failure is [None]: the loop
    writes through a null pointer. *)
Definition increase_queue_depth (realloc_ok : bool) (size : Z) (s : state)
    : option state :=
  if q_depth s <? size then
    if realloc_ok then
      Some (State (q s ++ replicate (Z.to_nat (size - q_depth s)) None)
              (q_next s) (q_last s) size (processing_suspended s)
              (currently_used s) (max_used s) (overflowed s)
              (queue_full_warning s))
    else None
  else Some s.

(** ** The two threads *)

(** Where a thread is: the producer between two attempts of [enqueue] holds
    its event and [retry_cnt]; the consumer may be inside the wait. *)
Inductive producer := PIdle | PTrying (e : event_t) (retry_cnt : Z).
Inductive consumer := CIdle | CWaiting.

Record sys := Sys {
  st : state;
  prod : producer;
  cons_ : consumer;
  disp_hup : bool;
  accepted : list event_t;     (* events enqueue stored, oldest first *)
  delivered : list event_t;    (* events dequeue returned, oldest first *)
  dropped : list event_t;      (* events enqueue freed *)
  effects : list effect;
}.

(** The atomic moves.  [Wake] is the return of [pthread_cond_wait], which
    POSIX allows without a signal; [Hup b] is a write to [disp_hup]. *)
Inductive move :=
  | Enqueue (e : event_t)
  | Attempt
  | Dequeue
  | Wake
  | Hup (b : bool)
  | Grow (size : Z)
  | ResetSuspended
  | Resume.

(** [enqueue] up to its first attempt. *)
Definition do_enqueue (e : event_t) (y : sys) : option sys :=
  match prod y with
  | PIdle =>
      if processing_suspended (st y)
      then Some (Sys (st y) PIdle (cons_ y) (disp_hup y) (accepted y)
                   (delivered y) (dropped y ++ [e]) (effects y))
      else Some (Sys (st y) (PTrying e 0) (cons_ y) (disp_hup y) (accepted y)
                   (delivered y) (dropped y) (effects y))
  | PTrying _ _ => None
  end.

(** From the label [retry] of [enqueue] to its return or the next
    [goto retry]. *)
Definition do_attempt (action : overflow_action_t) (y : sys) : option sys :=
  match prod y with
  | PIdle => None
  | PTrying e retry_cnt =>
      if 3 <? retry_cnt then
        let (fx, s) := do_overflow_action action (st y) in
        Some (Sys s PIdle (cons_ y) (disp_hup y) (accepted y) (delivered y)
                (dropped y ++ [e]) (effects y ++ fx))
      else
        match enqueue_try e (st y) with
        | None => None
        | Some (true, s) =>
            Some (Sys s PIdle (cons_ y) (disp_hup y) (accepted y ++ [e])
                    (delivered y) (dropped y) (effects y))
        | Some (false, s) =>
            Some (Sys s (PTrying e (retry_cnt +u 1)) (cons_ y) (disp_hup y)
                    (accepted y) (delivered y) (dropped y) (effects y))
        end
  end.

(** Record what a locked region of [dequeue] ends in. *)
Definition consume (r : option (deq_result * state)) (y : sys) : option sys :=
  match r with
  | None => None
  | Some (DeqReturn eo, s) =>
      Some (Sys s (prod y) CIdle (disp_hup y) (accepted y)
              (delivered y ++ option_list eo) (dropped y) (effects y))
  | Some (DeqWait, s) =>
      Some (Sys s (prod y) CWaiting (disp_hup y) (accepted y) (delivered y)
              (dropped y) (effects y))
  end.

Definition set_st (s : state) (y : sys) : sys :=
  Sys s (prod y) (cons_ y) (disp_hup y) (accepted y) (delivered y)
    (dropped y) (effects y).

(** One atomic move; [None] when it is not enabled or goes wrong. *)
Definition step (action : overflow_action_t) (m : move) (y : sys) : option sys :=
  match m with
  | Enqueue e => do_enqueue e y
  | Attempt => do_attempt action y
  | Dequeue =>
      match cons_ y with
      | CIdle => consume (dequeue_enter (disp_hup y) (st y)) y
      | CWaiting => None
      end
  | Wake =>
      match cons_ y with
      | CIdle => None
      | CWaiting => consume (dequeue_wake (disp_hup y) (st y)) y
      end
  | Hup b =>
      Some (Sys (st y) (prod y) (cons_ y) b (accepted y) (delivered y)
              (dropped y) (effects y))
  | Grow size =>
      match increase_queue_depth true size (st y) with
      | Some s => Some (set_st s y)
      | None => None
      end
  | ResetSuspended => Some (set_st (reset_suspended (st y)) y)
  | Resume => Some (set_st (resume_queue (st y)) y)
  end.

Fixpoint run (action : overflow_action_t) (ms : list move) (y : sys) : option sys :=
  match ms with
  | [] => Some y
  | m :: ms => match step action m y with
               | Some y => run action ms y
               | None => None
               end
  end.

(** The system after [init_queue]. *)
Definition start (depth : Z) : sys :=
  Sys (snd (init_queue true depth (State [] 0 0 0 false 0 0 false 0)))
    PIdle CIdle false [] [] [] [].

(** ** The abstract queue

    [rep s xs]: the ring holds the FIFO [xs], and the cursors agree. *)
Record rep (s : state) (xs : list event_t) : Prop := Rep {
  rep_depth : 0 < q_depth s < two32;
  rep_size : length (q s) = Z.to_nat (q_depth s);
  rep_last : 0 <= q_last s < q_depth s;
  rep_ring : ring_rep (q s) (Z.to_nat (q_last s)) xs;
  rep_next : q_next s = (q_last s + Z.of_nat (length xs)) mod q_depth s;
}.

(** The events the ring holds, oldest first. *)
Definition contents (s : state) : list event_t :=
  ring_contents (q s) (Z.to_nat (q_last s)).

(** The ring does not wrap around: the free slots that [realloc] adds extend
    its free part. *)
Definition grow_safe (s : state) : Prop :=
  q_last s < q_next s \/ q_last s = q_next s /\ slot s (q_next s) = Some None.

(** The states the threads reach when every move satisfies [allowed]. *)
Inductive reach (allowed : sys -> move -> Prop) (action : overflow_action_t)
    (depth : Z) : sys -> Prop :=
  | reach_start : reach allowed action depth (start depth)
  | reach_step y m y' :
      reach allowed action depth y -> allowed y m ->
      step action m y = Some y' -> reach allowed action depth y'.

(** Growth happens only while the ring does not wrap around. *)
Definition safe_growth (y : sys) (m : move) : Prop :=
  match m with
  | Grow size => size < two32 /\ (q_depth (st y) < size -> grow_safe (st y))
  | _ => True
  end.

(** Moreover the wait of the consumer only ends when there is an event or a
    reconfiguration. *)
Definition signalled (y : sys) (m : move) : Prop :=
  safe_growth y m /\
  match m with
  | Wake => disp_hup y = true \/ contents (st y) <> []
  | _ => True
  end.

Lemma rep_contents s xs : rep s xs -> contents s = xs.
Proof. intros H. apply ring_rep_contents, H. Qed.

Lemma rep_length s xs : rep s xs -> Z.of_nat (length xs) <= q_depth s.
Proof.
  intros H. pose proof (ring_rep_length _ _ _ (rep_ring _ _ H)).
  pose proof (rep_size _ _ H). pose proof (rep_depth _ _ H). lia.
Qed.

(** The slot [k] places after the first one, in C's arithmetic. *)
Lemma rep_slot s xs (k : Z) :
  rep s xs -> 0 <= k ->
  ring_slot (q s) (Z.to_nat (q_last s)) (Z.to_nat k)
    = Z.to_nat ((q_last s + k) mod q_depth s).
Proof.
  intros H Hk. pose proof (rep_depth _ _ H). pose proof (rep_last _ _ H).
  apply Nat2Z.inj. rewrite ring_slot_Z, (rep_size _ _ H).
  rewrite (Z2Nat.id (_ mod _)) by (apply Z.mod_pos_bound; lia).
  by rewrite !Z2Nat.id by lia.
Qed.

Lemma rep_next_mod s xs : rep s xs -> q_next s mod q_depth s = q_next s.
Proof.
  intros H. rewrite (rep_next _ _ H). apply Zmod_mod.
Qed.

Lemma rep_last_mod s xs : rep s xs -> q_last s mod q_depth s = q_last s.
Proof. intros H. apply Z.mod_small, H. Qed.

(** The slot [enqueue] looks at is free exactly when there is room. *)
Lemma rep_next_slot s xs :
  rep s xs ->
  (Z.of_nat (length xs) < q_depth s /\ slot s (q_next s) = Some None) \/
  (Z.of_nat (length xs) = q_depth s /\ exists e, slot s (q_next s) = Some (Some e)).
Proof.
  intros H. pose proof (rep_length _ _ H). pose proof (rep_depth _ _ H).
  pose proof (rep_size _ _ H). pose proof (rep_last _ _ H).
  assert (Z.to_nat (q_next s)
          = ring_slot (q s) (Z.to_nat (q_last s)) (length xs)) as E.
  { rewrite <-(Nat2Z.id (length xs)), rep_slot with (xs := xs) by (done || lia).
    by rewrite (rep_next _ _ H). }
  destruct (decide (Z.of_nat (length xs) < q_depth s)) as [Hlt|Hge].
  - left. split; [done|]. unfold slot. rewrite E.
    apply (ring_free_slot _ _ _ (rep_ring _ _ H)). lia.
  - right. split; [lia|].
    assert (q_next s = q_last s) as En.
    { rewrite (rep_next _ _ H). replace (Z.of_nat (length xs)) with (q_depth s) by lia.
      rewrite <-Z.add_mod_idemp_r, Z_mod_same_full, Z.add_0_r by lia.
      apply Z.mod_small. lia. }
    destruct xs as [|x xs]; [cbn in *; lia|].
    exists x. unfold slot. rewrite En.
    pose proof (ring_occupied_slot _ _ _ 0 x (rep_ring _ _ H) eq_refl) as Ho.
    rewrite <-Ho. f_equal. change 0%nat with (Z.to_nat 0).
    erewrite rep_slot by (done || lia).
    by rewrite Z.add_0_r, Z.mod_small by lia.
Qed.

(** The first slot holds the oldest event. *)
Lemma rep_last_slot s xs :
  rep s xs -> slot s (q_last s) = Some (head xs).
Proof.
  intros H. pose proof (rep_length _ _ H). pose proof (rep_depth _ _ H).
  pose proof (rep_size _ _ H). pose proof (rep_last _ _ H).
  assert (Z.to_nat (q_last s) = ring_slot (q s) (Z.to_nat (q_last s)) 0) as E.
  { change 0%nat with (Z.to_nat 0).
    erewrite rep_slot by (done || lia). by rewrite Z.add_0_r, Z.mod_small by lia. }
  unfold slot. rewrite E. destruct xs as [|x xs]; cbn.
  - change 0%nat with (length (@nil event_t)).
    apply (ring_free_slot _ _ _ (rep_ring _ _ H)). cbn. lia.
  - by apply (ring_occupied_slot _ _ _ 0 x (rep_ring _ _ H)).
Qed.

(** ** The operations on a ring that holds [xs] *)

Lemma u32_succ_mod n d : 0 <= n < d -> d < two32 -> (n +u 1) mod d = (n + 1) mod d.
Proof. intros ??. by rewrite u32_small by lia. Qed.

Lemma mod_succ_add a b d : 0 < d -> ((a + b) mod d + 1) mod d = (a + (b + 1)) mod d.
Proof. intros. rewrite Zplus_mod_idemp_l. f_equal. lia. Qed.

Lemma enqueue_try_room e s xs :
  rep s xs -> Z.of_nat (length xs) < q_depth s ->
  exists s', enqueue_try e s = Some (true, s') /\ rep s' (xs ++ [e]) /\
    currently_used s' = currently_used s +u 1 /\ q_depth s' = q_depth s /\
    max_used s' = Z.max (max_used s) (currently_used s') /\
    processing_suspended s' = processing_suspended s.
Proof.
  intros H Hlt. pose proof (rep_depth _ _ H) as Hd. pose proof (rep_last _ _ H).
  destruct (rep_next_slot _ _ H) as [[_ Hs]|[? _]]; [|lia].
  unfold enqueue_try. rewrite (rep_next_mod _ _ H), Hs.
  destruct (Z.eqb_spec (q_depth s) 0); [lia|].
  eexists; split; [done|]. cbn [currently_used q_depth max_used processing_suspended].
  split; [|by repeat split; zb; lia].
  split; cbn; try apply H.
  - rewrite length_insert. apply H.
  - replace (Z.to_nat (q_next s))
      with (ring_slot (q s) (Z.to_nat (q_last s)) (length xs)).
    + apply ring_rep_push; [apply H|]. rewrite (rep_size _ _ H). lia.
    + rewrite <-(Nat2Z.id (length xs)), rep_slot with (xs := xs) by (done || lia).
      by rewrite (rep_next _ _ H).
  - rewrite (rep_next _ _ H) at 1. rewrite u32_succ_mod
      by (try (apply Z.mod_pos_bound); lia).
    rewrite mod_succ_add by lia. rewrite length_app. cbn. f_equal. lia.
Qed.

Lemma enqueue_try_full e s xs :
  rep s xs -> Z.of_nat (length xs) = q_depth s -> enqueue_try e s = Some (false, s).
Proof.
  intros H Heq. pose proof (rep_depth _ _ H) as Hd.
  destruct (rep_next_slot _ _ H) as [[? _]|[_ [e' Hs]]]; [lia|].
  unfold enqueue_try. rewrite (rep_next_mod _ _ H), Hs.
  by destruct (Z.eqb_spec (q_depth s) 0); [lia|].
Qed.

Lemma dequeue_take_cons s x xs :
  rep s (x :: xs) ->
  exists s', dequeue_take (q_last s) s = Some (DeqReturn (Some x), s') /\ rep s' xs /\
    currently_used s' = currently_used s -u 1.
Proof.
  intros H. pose proof (rep_depth _ _ H) as Hd. pose proof (rep_last _ _ H).
  unfold dequeue_take. rewrite (rep_last_slot _ _ H). cbn [head].
  eexists; split; [done|]. split; [|done].
  assert ((q_last s +u 1) mod q_depth s = (q_last s + 1) mod q_depth s) as E
    by (apply u32_succ_mod; lia).
  split; cbn; rewrite ?E; try apply H.
  - rewrite length_insert. apply H.
  - apply Z.mod_pos_bound. lia.
  - rewrite <-rep_slot with (xs := x :: xs) by (done || lia).
    apply ring_rep_pop with (x := x); [apply H|]. rewrite (rep_size _ _ H). lia.
  - rewrite (rep_next _ _ H). cbn [length]. rewrite Zplus_mod_idemp_l. f_equal. lia.
Qed.

Lemma dequeue_take_nil s :
  rep s [] ->
  exists s', dequeue_take (q_last s) s = Some (DeqReturn None, s') /\ rep s' [] /\
    currently_used s' = currently_used s -u 1.
Proof.
  intros H. unfold dequeue_take. rewrite (rep_last_slot _ _ H). cbn.
  eexists; split; [done|]. split; [|done]. split; apply H.
Qed.

(** A ring that is not wrapped is a run of events between two runs of free
    slots. *)
Lemma grow_safe_rep s xs :
  rep s xs -> grow_safe s -> q_last s + Z.of_nat (length xs) < q_depth s.
Proof.
  intros H Hg. pose proof (rep_length _ _ H). pose proof (rep_depth _ _ H).
  pose proof (rep_last _ _ H). pose proof (rep_next _ _ H) as En.
  destruct (rep_next_slot _ _ H) as [[? _]|[? [e Hs]]].
  - destruct (decide (q_last s + Z.of_nat (length xs) < q_depth s)) as [|Hge]; [done|].
    assert (q_next s = q_last s + Z.of_nat (length xs) - q_depth s) as E.
    { rewrite En. symmetry. apply (Z.mod_unique_pos _ _ 1); lia. }
    destruct Hg as [?|[? _]]; lia.
  - assert (q_next s = q_last s) as E.
    { rewrite En. symmetry. apply (Z.mod_unique_pos _ _ 1); lia. }
    destruct Hg as [?|[_ Hn]]; [lia|congruence].
Qed.

Lemma increase_queue_depth_safe s xs size :
  rep s xs -> size < two32 -> (q_depth s < size -> grow_safe s) ->
  exists s', increase_queue_depth true size s = Some s' /\ rep s' xs /\
    currently_used s' = currently_used s.
Proof.
  intros H Hsz Hg. unfold increase_queue_depth.
  destruct (Z.ltb_spec (q_depth s) size) as [Hlt|]; [|by eauto].
  pose proof (grow_safe_rep _ _ H (Hg Hlt)) as Hfit. clear Hg.
  pose proof (rep_depth _ _ H). pose proof (rep_last _ _ H). pose proof (rep_size _ _ H) as Hs.
  eexists; split; [done|]. split; [|done]. split; cbn.
  - lia.
  - rewrite length_app, length_replicate. lia.
  - lia.
  - pose proof (rep_ring _ _ H) as Hr. unfold ring_rep in *.
    rewrite rotate_lt in Hr by lia.
    rewrite rotate_lt by (rewrite length_app, length_replicate; lia).
    rewrite drop_app_le, take_app_le by lia. rewrite length_app, length_replicate, Hs.
    set (n := Z.to_nat (q_last s)) in *.
    assert (take n (q s) = replicate n None) as Et.
    { apply (f_equal (drop (length (q s) - n))) in Hr.
      rewrite drop_app_ge in Hr by (rewrite length_drop; lia).
      rewrite length_drop, Nat.sub_diag, drop_0 in Hr. rewrite Hr.
      rewrite drop_app_ge by (rewrite length_fmap; lia).
      rewrite drop_replicate, length_fmap. f_equal. lia. }
    assert (drop n (q s) = (Some <$> xs) ++ replicate (length (q s) - n - length xs) None) as Ed.
    { apply (f_equal (take (length (q s) - n))) in Hr.
      rewrite take_app_le in Hr by (rewrite length_drop; lia).
      rewrite (take_ge (drop n (q s))) in Hr by (rewrite length_drop; lia). rewrite Hr.
      rewrite take_app, take_ge by (rewrite length_fmap; lia).
      rewrite take_replicate, length_fmap. do 2 f_equal. lia. }
    rewrite Ed, Et, <-!app_assoc. f_equal. rewrite <-!replicate_add. f_equal. lia.
  - rewrite (rep_next _ _ H). rewrite !Z.mod_small by lia. done.
Qed.

(** ** The threads *)

(** The ring holds what was accepted and not yet delivered. *)
Definition good (y : sys) (xs : list event_t) : Prop :=
  rep (st y) xs /\ accepted y = delivered y ++ xs.

(** The count of used slots is the number of events in the ring. *)
Definition counted (y : sys) (xs : list event_t) : Prop :=
  currently_used (st y) = Z.of_nat (length xs).

(** A move leads from a ring that holds [xs] to a good state, and keeps the
    count when it is signalled. *)
Definition advances (y : sys) (m : move) (xs : list event_t) (y' : sys) : Prop :=
  exists ys, good y' ys /\ (signalled y m -> counted y xs -> counted y' ys).

Lemma rep_set_suspended b s xs : rep s xs -> rep (set_suspended b s) xs.
Proof. intros []; by split. Qed.

Lemma rep_set_warning n s xs : rep s xs -> rep (set_warning n s) xs.
Proof. intros []; by split. Qed.

Lemma rep_overflow action s xs :
  rep s xs -> rep (snd (do_overflow_action action s)) xs.
Proof.
  intros H. assert (rep (set_overflowed true s) xs) by (destruct H; by split).
  destruct action; cbn; repeat case_match; cbn;
    eauto using rep_set_suspended, rep_set_warning.
Qed.

Lemma used_overflow action s :
  currently_used (snd (do_overflow_action action s)) = currently_used s.
Proof. destruct action; cbn; by repeat case_match. Qed.

Lemma start_ok depth : 0 < depth < two32 -> rep (st (start depth)) [].
Proof.
  intros H. split; cbn; try lia.
  - by rewrite length_replicate.
  - apply ring_rep_empty.
  - by rewrite Z.mod_0_l by lia.
Qed.

(** What a consumer step leaves: the head of the FIFO is delivered, if there
    is one. *)
Lemma consume_take s xs y :
  rep s xs ->
  exists s', consume (dequeue_take (q_last s) s) y
      = Some (Sys s' (prod y) CIdle (disp_hup y) (accepted y)
                (delivered y ++ take 1 xs) (dropped y) (effects y)) /\
    rep s' (drop 1 xs) /\ currently_used s' = currently_used s -u 1.
Proof.
  intros H. destruct xs as [|x xs].
  - destruct (dequeue_take_nil _ H) as (s' & -> & H' & U). by exists s'.
  - destruct (dequeue_take_cons _ _ _ H) as (s' & -> & H' & U). by exists s'.
Qed.

(** Both forms of [dequeue] return at once, wait on an empty ring, or take
    the head. *)
Lemma dequeue_cases hup s xs :
  rep s xs ->
  dequeue_enter hup s = (if hup then Some (DeqReturn None, s) else
    match xs with [] => Some (DeqWait, s) | _ => dequeue_take (q_last s) s end) /\
  dequeue_wake hup s = (if hup then Some (DeqReturn None, s) else
    dequeue_take (q_last s) s).
Proof.
  intros H. unfold dequeue_enter, dequeue_wake. rewrite (rep_last_mod _ _ H).
  pose proof (rep_depth _ _ H). destruct (Z.eqb_spec (q_depth s) 0); [lia|].
  rewrite (rep_last_slot _ _ H). by destruct hup, xs.
Qed.

Lemma advances_same y m xs y' :
  good y xs -> rep (st y') xs -> accepted y' = accepted y ->
  delivered y' = delivered y -> currently_used (st y') = currently_used (st y) ->
  advances y m xs y'.
Proof.
  intros [_ E] H Ha Hd Hu. exists xs. unfold good, counted. by rewrite Ha, Hd, Hu.
Qed.

Lemma advances_attempt action y xs y' :
  good y xs -> do_attempt action y = Some y' -> advances y Attempt xs y'.
Proof.
  intros G Hs. pose proof G as [H E]. pose proof (rep_length _ _ H).
  pose proof (rep_depth _ _ H).
  unfold do_attempt in Hs. destruct (prod y) as [|e cnt]; [done|].
  destruct (Z.ltb_spec 3 cnt).
  - pose proof (rep_overflow action _ _ H) as H'. pose proof (used_overflow action (st y)) as U'.
    destruct (do_overflow_action action (st y)) as [fx s]. injection Hs as <-.
    by apply advances_same.
  - destruct (decide (Z.of_nat (length xs) < q_depth (st y))) as [Hr|Hf].
    + destruct (enqueue_try_room e _ _ H Hr) as (s' & Es & H' & U' & _).
      rewrite Es in Hs. injection Hs as <-. exists (xs ++ [e]). unfold good, counted; cbn.
      rewrite E, app_assoc. split; [done|]. intros _ U.
      rewrite U', U, u32_small, length_app by lia. cbn. lia.
    + rewrite (enqueue_try_full e _ _ H) in Hs by lia. injection Hs as <-.
      by apply advances_same.
Qed.

Lemma advances_take y m xs y' :
  good y xs -> consume (dequeue_take (q_last (st y)) (st y)) y = Some y' ->
  (signalled y m -> xs <> []) -> advances y m xs y'.
Proof.
  intros [H E] Hs Hw. pose proof (rep_length _ _ H). pose proof (rep_depth _ _ H).
  destruct (consume_take _ _ y H) as (s' & Ec & H' & U'). rewrite Ec in Hs.
  injection Hs as <-. exists (drop 1 xs). unfold good, counted; cbn.
  rewrite <-app_assoc, take_drop. split; [done|]. intros Sg U. specialize (Hw Sg).
  destruct xs as [|x xs]; [done|]. change (drop 1 (x :: xs)) with xs. cbn [length] in *.
  rewrite U', U, u32_small by lia. lia.
Qed.

Lemma advances_hup y m xs y' :
  good y xs -> consume (Some (DeqReturn None, st y)) y = Some y' -> advances y m xs y'.
Proof.
  intros G [= <-]. pose proof G as [H E]. apply advances_same; cbn; by rewrite ?app_nil_r.
Qed.

(** Every move keeps the invariant. *)
Lemma step_advances action y m y' xs :
  good y xs -> safe_growth y m -> step action m y = Some y' -> advances y m xs y'.
Proof.
  intros G Hg Hs. pose proof G as [H E].
  destruct m as [e| | | |b|size| |]; cbn in Hs.
  - unfold do_enqueue in Hs. destruct (prod y); [|done].
    destruct (processing_suspended (st y)); injection Hs as <-; by apply advances_same.
  - by eapply advances_attempt.
  - destruct (cons_ y); [|done].
    destruct (dequeue_cases (disp_hup y) _ _ H) as [Ed _]. rewrite Ed in Hs.
    destruct (disp_hup y); [by eapply advances_hup|].
    destruct xs as [|x xs]; [injection Hs as <-; by apply advances_same|].
    by eapply advances_take.
  - destruct (cons_ y); [done|].
    destruct (dequeue_cases (disp_hup y) _ _ H) as [_ Ed]. rewrite Ed in Hs.
    destruct (disp_hup y) eqn:Eh; [by eapply advances_hup|].
    eapply advances_take; [done..|]. intros [_ [?|Hw]]; [congruence|].
    by rewrite (rep_contents _ _ H) in Hw.
  - injection Hs as <-. by apply advances_same.
  - destruct Hg as [Hsz Hg].
    destruct (increase_queue_depth_safe _ _ _ H Hsz Hg) as (s' & Es & H' & U').
    rewrite Es in Hs. injection Hs as <-. by apply advances_same.
  - injection Hs as <-. apply advances_same; [done| |done..].
    by apply rep_set_warning, rep_set_suspended.
  - injection Hs as <-. apply advances_same; [done| |done..]. by apply rep_set_suspended.
Qed.

Lemma start_good depth : 0 < depth < two32 -> good (start depth) [] /\ counted (start depth) [].
Proof. intros H. repeat split; try done; by apply start_ok. Qed.

Lemma reach_good action depth y :
  0 < depth < two32 -> reach safe_growth action depth y -> exists xs, good y xs.
Proof.
  intros Hd Hr. induction Hr as [|y m y' _ [xs G] Ha Hs].
  - exists []. by apply start_good.
  - destruct (step_advances _ _ _ _ _ G Ha Hs) as (ys & G' & _). by exists ys.
Qed.

Lemma reach_counted action depth y :
  0 < depth < two32 -> reach signalled action depth y ->
  exists xs, good y xs /\ counted y xs.
Proof.
  intros Hd Hr. induction Hr as [|y m y' _ (xs & G & U) Ha Hs].
  - exists []. by apply start_good.
  - destruct (step_advances _ _ _ _ _ G (proj1 Ha) Hs) as (ys & G' & Hc). eauto.
Qed.


Lemma attempt_full action s xs e cnt c h acc del drp fx :
  rep s xs -> Z.of_nat (length xs) = q_depth s -> (3 <? cnt) = false ->
  do_attempt action (Sys s (PTrying e cnt) c h acc del drp fx)
    = Some (Sys s (PTrying e (cnt +u 1)) c h acc del drp fx).
Proof.
  intros H Hf Hc. unfold do_attempt. cbn [prod st].
  by rewrite Hc, (enqueue_try_full e _ _ H Hf).
Qed.

(** ** Theorems *)

(** C4: In every state the two threads reach from [init_queue], with any
    interleaving, spurious wake-ups, reconfigurations and suspensions, as long
    as the ring only grows while it does not wrap: the events [dequeue] has
    returned, followed by the events in the ring, are exactly the events
    [enqueue] accepted, in the order it accepted them; and the ring never
    holds more than its depth. *)
Theorem dispatcher_fifo action depth y :
  0 < depth < two32 -> reach safe_growth action depth y ->
  accepted y = delivered y ++ contents (st y) /\
  Z.of_nat (length (contents (st y))) <= q_depth (st y).
Proof.
  intros Hd Hr. destruct (reach_good _ _ _ Hd Hr) as (xs & H & E).
  rewrite (rep_contents _ _ H). split; [done|]. by apply rep_length.
Qed.


(** When the wait of the consumer ends only for an event or a
    reconfiguration, [currently_used] is the number of events in the ring: the
    unsigned counter never wraps. *)
Theorem dispatcher_used_exact action depth y :
  0 < depth < two32 -> reach signalled action depth y ->
  currently_used (st y) = Z.of_nat (length (contents (st y))).
Proof.
  intros Hd Hr. destruct (reach_counted _ _ _ Hd Hr) as (xs & [H _] & U).
  by rewrite (rep_contents _ _ H).
Qed.

(** C6: On a full ring [enqueue] makes four attempts, then runs the overflow
    action once, drops the event and leaves the ring as it was. *)
Theorem enqueue_overflows action depth y e :
  0 < depth < two32 -> reach safe_growth action depth y ->
  prod y = PIdle -> processing_suspended (st y) = false ->
  Z.of_nat (length (contents (st y))) = q_depth (st y) ->
  run action (Enqueue e :: replicate 5 Attempt) y
    = Some (Sys (snd (do_overflow_action action (st y))) PIdle (cons_ y)
              (disp_hup y) (accepted y) (delivered y) (dropped y ++ [e])
              (effects y ++ fst (do_overflow_action action (st y)))) /\
  contents (snd (do_overflow_action action (st y))) = contents (st y) /\
  overflowed (snd (do_overflow_action action (st y))) = true.
Proof.
  intros Hd Hr Hp Hns Hfull. destruct (reach_good _ _ _ Hd Hr) as (xs & H & E).
  rewrite (rep_contents _ _ H) in Hfull |- *.
  pose proof (rep_overflow action _ _ H) as H'. split; [|split].
  - cbn [run replicate step]. unfold do_enqueue. rewrite Hp, Hns.
    do 4 rewrite (attempt_full _ _ _ _ _ _ _ _ _ _ _ H Hfull) by done.
    cbn [run]. unfold do_attempt. cbn -[do_overflow_action].
    by destruct (do_overflow_action action (st y)).
  - by apply rep_contents.
  - destruct action; cbn; by repeat case_match.
Qed.

End queue.

Arguments state : clear implicits.
Arguments sys : clear implicits.
Arguments move : clear implicits.
Arguments deq_result : clear implicits.

(** *** Witnesses and the two ways the ring goes wrong *)

(** A run of the two threads on a ring of two slots. *)
Definition demo_moves : list (move nat) :=
  [Enqueue 1%nat; Attempt; Dequeue; Dequeue; Enqueue 2%nat; Attempt; Wake].

Definition demo_sys : sys nat := default (start 2) (run O_SYSLOG demo_moves (start 2)).

(** A ring of two slots that is full. *)
Definition full_moves : list (move nat) :=
  [Enqueue 1%nat; Attempt; Enqueue 2%nat; Attempt].

Definition full_sys : sys nat := default (start 2) (run O_SYSLOG full_moves (start 2)).

Lemma reach_run {E} allowed action depth (ms : list (move E)) y y' :
  reach allowed action depth y -> (forall y m, m ∈ ms -> allowed y m) ->
  run action ms y = Some y' -> reach allowed action depth y'.
Proof.
  revert y. induction ms as [|m ms IH]; intros y Hr Ha Hrun; cbn in Hrun.
  - by injection Hrun as <-.
  - destruct (step action m y) as [z|] eqn:Es; [|done].
    apply (IH z); [|intros; apply Ha; set_solver|done].
    eapply reach_step; [done| |done]. apply Ha. set_solver.
Qed.

Lemma demo_reach : reach safe_growth O_SYSLOG 2 demo_sys.
Proof.
  eapply (reach_run _ _ _ demo_moves); [apply reach_start| |vm_compute; reflexivity].
  intros y m Hm. repeat (apply elem_of_cons in Hm as [->|Hm]; [done|]).
  by apply not_elem_of_nil in Hm.
Qed.

Lemma full_reach : reach safe_growth O_SYSLOG 2 full_sys.
Proof.
  eapply (reach_run _ _ _ full_moves); [apply reach_start| |vm_compute; reflexivity].
  intros y m Hm. repeat (apply elem_of_cons in Hm as [->|Hm]; [done|]).
  by apply not_elem_of_nil in Hm.
Qed.

Lemma demo_signalled : reach signalled O_SYSLOG 2 demo_sys.
Proof.
  set (y6 := default (start 2) (run O_SYSLOG (take 6 demo_moves) (start 2))).
  apply (reach_step _ _ _ y6 Wake); [|split; [done|right; vm_compute; discriminate]|reflexivity].
  eapply (reach_run _ _ _ (take 6 demo_moves)); [apply reach_start| |reflexivity].
  intros y m Hm. repeat (apply elem_of_cons in Hm as [->|Hm]; [done|]).
  by apply not_elem_of_nil in Hm.
Qed.

Lemma dispatcher_fifo_witness :
  accepted demo_sys = [1; 2]%nat /\ accepted demo_sys = delivered demo_sys ++ contents (st demo_sys).
Proof.
  split; [reflexivity|]. apply (dispatcher_fifo O_SYSLOG 2 demo_sys); [done|exact demo_reach].
Defined.


Lemma dispatcher_used_exact_witness : currently_used (st demo_sys) = 0.
Proof.
  exact (dispatcher_used_exact O_SYSLOG 2 demo_sys ltac:(done) demo_signalled).
Defined.

Lemma enqueue_overflows_witness :
  exists y, run O_SYSLOG (Enqueue 3%nat :: replicate 5 Attempt) full_sys = Some y /\
    dropped y = [3%nat] /\ effects y = [LogQueueFull].
Proof.
  eexists. split.
  - exact (proj1 (enqueue_overflows O_SYSLOG 2 full_sys 3%nat ltac:(done) full_reach
             eq_refl eq_refl eq_refl)).
  - split; vm_compute; reflexivity.
Defined.

(** [dequeue] tests its slot again only once after the wait and decrements
    the counter even when it takes nothing: a wake-up without an event
    (libdisp_shutdown nudges the queue, and POSIX allows spurious ones) makes
    the unsigned [currently_used] wrap to 2^32 - 1. *)
Theorem spurious_wake_wraps_counter :
  exists y : sys nat, run O_IGNORE [Dequeue; Wake] (start 4) = Some y /\
    contents (st y) = [] /\ currently_used (st y) = UINT32_MAX.
Proof. eexists. split; [vm_compute; reflexivity|]. split; vm_compute; reflexivity. Qed.

(** [increase_queue_depth] appends free slots without unwrapping the ring.
    Growing a full ring of two slots to four strands events: [dequeue] waits
    although two events are in the ring, and then returns the event accepted
    last before them. *)
Theorem grow_breaks_fifo :
  exists y1 y2 : sys nat,
    run O_IGNORE [Enqueue 1; Attempt; Enqueue 2; Attempt; Grow 4; Dequeue;
                  Enqueue 3; Attempt; Dequeue; Enqueue 4; Attempt; Dequeue]%nat
      (start 2) = Some y1 /\
    cons_ y1 = CWaiting /\ q (st y1) = [Some 3; Some 4; None; None]%nat /\
    run O_IGNORE [Enqueue 5; Attempt; Wake]%nat y1 = Some y2 /\
    accepted y2 = [1; 2; 3; 4; 5]%nat /\ delivered y2 = [1; 2; 5]%nat.
Proof.
  eexists _, _. split; [vm_compute; reflexivity|].
  do 2 (split; [reflexivity|]). split; [vm_compute; reflexivity|]. by split.
Qed.

End DispQueue.
