(* ===== verification/Os.v ===== *)
(** * The operating system below the remote queue

    The calls of src/audisp/plugins/remote/queue.c to the C library and the
    kernel: files as byte lists named by inodes, a directory, and a script that
    makes any call fail or any transfer fall short. *)
From S2P Require Import Prelude.

Abbreviation bytes := (list Z).

(** ** Errors *)

Definition ENXIO : Z := 6.
Definition ENOENT : Z := 2.
Definition EAGAIN : Z := 11.
Definition ENOMEM : Z := 12.
Definition EACCES : Z := 13.
Definition EBUSY : Z := 16.
Definition EEXIST : Z := 17.
Definition EINVAL : Z := 22.
Definition ENOSPC : Z := 28.
Definition ERANGE : Z := 34.
Definition EIO : Z := 5.
Definition EBADMSG : Z := 74.

(** A call succeeds with a value or fails with [errno]. *)
Inductive result (A : Type) := Ok (a : A) | Error (errno : Z).
Arguments Ok {A} _.
Arguments Error {A} _.

Module Os.

(** How the next system call behaves: normally, by failing, or, for a
    transfer, by moving at most [n] bytes. *)
Inductive outcome := Good | Err (errno : Z) | Short (n : Z).

(** Inodes hold bytes, a directory names inodes; [script] is consumed one
    outcome per call and is [Good] when it is used up. *)
Record os := OS {
  inodes : gmap Z bytes;
  dir : gmap string Z;
  script : list outcome;
}.

Definition pop (w : os) : outcome * os :=
  match script w with
  | [] => (Good, w)
  | o :: rest => (o, OS (inodes w) (dir w) rest)
  end.

(** A call that succeeds or fails and has no other effect: fcntl, lockf,
    fdatasync, malloc, close. *)
Definition plain_call (w : os) : result unit * os :=
  match pop w with
  | (Err e, w) => (Error e, w)
  | (_, w) => (Ok tt, w)
  end.

(** The bytes of a file; a descriptor names its inode. *)
Definition contents (fd : Z) (w : os) : bytes := default [] (inodes w !! fd).

Definition set_contents (fd : Z) (f : bytes) (w : os) : os :=
  OS (<[fd := f]> (inodes w)) (dir w) (script w).

(** The file with [buf] stored at [off]; a gap is filled with zeros, and
    writing nothing changes nothing. *)
Definition write_at (f : bytes) (off : nat) (buf : bytes) : bytes :=
  match buf with
  | [] => f
  | _ => take off (f ++ replicate (off - length f) 0) ++ buf
           ++ drop (off + length buf) f
  end.

(** At most [n] bytes of the file from [off]. *)
Definition slice (f : bytes) (off n : nat) : bytes := take n (drop off f).

(** How many of [n] bytes a transfer moves. *)
Definition moved (o : outcome) (n : nat) : nat :=
  match o with Short k => Nat.min (Z.to_nat k) n | _ => n end.

Definition pwrite (fd : Z) (buf : bytes) (off : Z) (w : os) : result nat * os :=
  match pop w with
  | (Err e, w) => (Error e, w)
  | (o, w) =>
      let n := moved o (length buf) in
      (Ok n, set_contents fd
               (write_at (contents fd w) (Z.to_nat off) (take n buf)) w)
  end.

Definition pread (fd : Z) (n : nat) (off : Z) (w : os) : result bytes * os :=
  match pop w with
  | (Err e, w) => (Error e, w)
  | (o, w) => (Ok (slice (contents fd w) (Z.to_nat off) (moved o n)), w)
  end.

(** [open] with O_RDWR: [creat] and [excl] are O_CREAT and O_EXCL. *)
Definition open (path : string) (creat excl : bool) (w : os) : result Z * os :=
  match pop w with
  | (Err e, w) => (Error e, w)
  | (_, w) =>
      match dir w !! path with
      | Some ino => if creat && excl then (Error EEXIST, w) else (Ok ino, w)
      | None =>
          if creat then
            let ino := fresh (dom (inodes w) : gset Z) in
            (Ok ino, OS (<[ino := []]> (inodes w)) (<[path := ino]> (dir w)) (script w))
          else (Error ENOENT, w)
      end
  end.

(** The size [fstat] reports. *)
Definition fstat (fd : Z) (w : os) : result Z * os :=
  match pop w with
  | (Err e, w) => (Error e, w)
  | (_, w) => (Ok (Z.of_nat (length (contents fd w))), w)
  end.

(** [posix_fallocate] from offset 0: the file has at least [len] bytes. *)
Definition posix_fallocate (fd : Z) (len : Z) (w : os) : result unit * os :=
  match pop w with
  | (Err e, w) => (Error e, w)
  | (_, w) =>
      let f := contents fd w in
      (Ok tt, set_contents fd (f ++ replicate (Z.to_nat len - length f) 0) w)
  end.

Definition unlink (path : string) (w : os) : result unit * os :=
  match pop w with
  | (Err e, w) => (Error e, w)
  | (_, w) =>
      match dir w !! path with
      | Some _ => (Ok tt, OS (inodes w) (delete path (dir w)) (script w))
      | None => (Error ENOENT, w)
      end
  end.

Definition rename (old new : string) (w : os) : result unit * os :=
  match pop w with
  | (Err e, w) => (Error e, w)
  | (_, w) =>
      match dir w !! old with
      | Some ino => (Ok tt, OS (inodes w) (<[new := ino]> (delete old (dir w))) (script w))
      | None => (Error ENOENT, w)
      end
  end.

(** [mkstemp] replaces the six X by characters that make a new name; the
    names it tries are [suffixes]. *)
Definition mkstemp (prefix : string) (suffixes : list string) (w : os)
    : result string * os :=
  match pop w with
  | (Err e, w) => (Error e, w)
  | (_, w) =>
      match list_find (fun s => dir w !! String.append prefix s = None) suffixes with
      | Some (_, s) =>
          let ino := fresh (dom (inodes w) : gset Z) in
          (Ok (String.append prefix s),
           OS (<[ino := []]> (inodes w))
              (<[String.append prefix s := ino]> (dir w)) (script w))
      | None => (Error EEXIST, w)
      end
  end.

(** ** The bytes of a file *)

Section bytes.
Implicit Types f buf : bytes.

Lemma write_at_lookup f off buf i :
  buf <> [] ->
  write_at f off buf !! i =
    if decide (i < off)%nat then (if decide (i < length f)%nat then f !! i else Some 0)
    else if decide (i < off + length buf)%nat then buf !! (i - off)%nat
    else f !! i.
Proof.
  intros Hb. unfold write_at. destruct buf as [|b0 buf']; [done|].
  set (buf := b0 :: buf') in *. clearbody buf.
  assert (length (take off (f ++ replicate (off - length f) 0)) = off) as Hl.
  { rewrite length_take, length_app, length_replicate. lia. }
  repeat case_decide.
  - rewrite lookup_app_l by lia. rewrite lookup_take_lt by lia. by rewrite lookup_app_l.
  - rewrite lookup_app_l by lia. rewrite lookup_take_lt by lia.
    rewrite lookup_app_r by lia. apply lookup_replicate. lia.
  - rewrite lookup_app_r by lia. rewrite Hl, lookup_app_l by lia. done.
  - rewrite lookup_app_r by lia. rewrite Hl, lookup_app_r by lia.
    rewrite lookup_drop. f_equal. lia.
Qed.

Lemma write_at_length f off buf :
  buf <> [] -> length (write_at f off buf) = Nat.max (length f) (off + length buf).
Proof.
  intros Hb. unfold write_at. destruct buf as [|b0 buf']; [done|].
  rewrite !length_app, length_take, length_drop, length_app, length_replicate. lia.
Qed.

Lemma write_at_length_inside f off buf :
  (off + length buf <= length f)%nat -> length (write_at f off buf) = length f.
Proof.
  intros H. destruct buf as [|b buf]; [done|]. rewrite write_at_length by done. lia.
Qed.

Lemma slice_lookup f off n i :
  slice f off n !! i = if decide (i < n)%nat then f !! (off + i)%nat else None.
Proof.
  unfold slice. case_decide.
  - by rewrite lookup_take_lt, lookup_drop.
  - by rewrite lookup_take_ge by lia.
Qed.

Lemma slice_length f off n : length (slice f off n) = Nat.min n (length f - off).
Proof. unfold slice. by rewrite length_take, length_drop. Qed.

(** What was written is read back. *)
Lemma slice_write_same f off buf : slice (write_at f off buf) off (length buf) = buf.
Proof.
  destruct (decide (buf = [])) as [->|Hb]; [done|].
  apply list_eq. intros i. rewrite slice_lookup, write_at_lookup by done.
  repeat case_decide; try lia.
  - f_equal. lia.
  - symmetry. apply lookup_ge_None_2. lia.
Qed.

(** Bytes of the file outside the written range do not change. *)
Lemma slice_write_disjoint f off buf off' n :
  (off' + n <= off \/ off + length buf <= off')%nat -> (off' + n <= length f)%nat ->
  slice (write_at f off buf) off' n = slice f off' n.
Proof.
  intros Hd Hl. destruct (decide (buf = [])) as [->|Hb]; [done|].
  apply list_eq. intros i. rewrite !slice_lookup, write_at_lookup by done.
  repeat case_decide; try lia; done.
Qed.

Lemma write_at_app f off b1 b2 :
  write_at (write_at f off b1) (off + length b1) b2 = write_at f off (b1 ++ b2).
Proof.
  destruct (decide (b2 = [])) as [->|H2]; [by rewrite app_nil_r|].
  destruct (decide (b1 = [])) as [->|H1]; [cbn; by rewrite Nat.add_0_r|].
  assert (b1 ++ b2 <> []) as H12 by (destruct b1; done).
  apply list_eq. intros i. rewrite !write_at_lookup by done.
  rewrite length_app, write_at_length by done.
  repeat case_decide; try lia; try done.
  - by rewrite lookup_app_l by lia.
  - rewrite lookup_app_r by lia. f_equal. lia.
Qed.

Lemma slice_app f off n m :
  (off + n <= length f)%nat ->
  slice f off n ++ slice f (off + n) m = slice f off (n + m).
Proof.
  intros H. unfold slice. rewrite <-drop_drop.
  symmetry.
  rewrite <-(take_drop n (take (n + m) (drop off f))).
  rewrite take_take, skipn_firstn_comm. repeat f_equal; lia.
Qed.

Lemma slice_slice f off n off' m :
  (off' + m <= n)%nat -> slice (slice f off n) off' m = slice f (off + off') m.
Proof.
  intros H. apply list_eq. intros i. rewrite !slice_lookup.
  repeat case_decide; try lia; try done. f_equal. lia.
Qed.

Lemma slice_app_l b1 b2 n : (n <= length b1)%nat -> slice (b1 ++ b2) 0 n = slice b1 0 n.
Proof. intros H. unfold slice. rewrite !drop_0. by rewrite take_app_le. Qed.

End bytes.

Lemma pop_cases w o w' :
  pop w = (o, w') -> inodes w' = inodes w /\ dir w' = dir w.
Proof. unfold pop. destruct (script w); by intros [= <- <-]. Qed.

(** A call without effect leaves the files. *)
Lemma plain_call_same w r w' :
  plain_call w = (r, w') -> inodes w' = inodes w /\ dir w' = dir w.
Proof.
  unfold plain_call. destruct (pop w) as [o w1] eqn:E. apply pop_cases in E.
  destruct o; by intros [= <- <-].
Qed.

(** [w'] differs from [w] at most in the bytes of [fd], which are [f]. *)
Definition only (fd : Z) (f : bytes) (w w' : os) : Prop :=
  contents fd w' = f /\ dir w' = dir w /\
  (forall i, i <> fd -> inodes w' !! i = inodes w !! i).

Lemma only_same fd w w' :
  inodes w' = inodes w -> dir w' = dir w -> only fd (contents fd w) w w'.
Proof. intros Hi Hd. unfold only, contents. by rewrite Hi, Hd. Qed.

Lemma only_trans fd f1 f2 w1 w2 w3 :
  only fd f1 w1 w2 -> only fd f2 w2 w3 -> only fd f2 w1 w3.
Proof.
  intros (_ & D1 & I1) (C2 & D2 & I2). split; [done|]. split; [congruence|].
  intros i Hi. by rewrite I2, I1.
Qed.

Lemma pwrite_spec fd buf off w r w' :
  pwrite fd buf off w = (r, w') ->
  exists k, (k <= length buf)%nat /\
    only fd (write_at (contents fd w) (Z.to_nat off) (take k buf)) w w' /\
    match r with Ok n => n = k | Error _ => k = O end.
Proof.
  unfold pwrite. destruct (pop w) as [o w1] eqn:E. apply pop_cases in E as [Ei Ed].
  assert (contents fd w1 = contents fd w) as Ec by (unfold contents; by rewrite Ei).
  destruct o as [|e|k]; intros [= <- <-].
  - exists (length buf). split; [done|]. rewrite Ec. split; [|done]. unfold only, set_contents, contents. cbn.
    rewrite lookup_insert_eq, Ed. split; [done|]. split; [done|].
    intros i Hi. by rewrite lookup_insert_ne, Ei.
  - exists O. split; [lia|]. split; [|done]. cbn. by apply only_same.
  - exists (moved (Short k) (length buf)). split; [cbn; lia|]. rewrite Ec. split; [|done].
    unfold only, set_contents, contents. cbn.
    rewrite lookup_insert_eq, Ed. split; [done|]. split; [done|].
    intros i Hi. by rewrite lookup_insert_ne, Ei.
Qed.

Lemma pread_spec fd n off w r w' :
  pread fd n off w = (r, w') ->
  inodes w' = inodes w /\ dir w' = dir w /\
  match r with
  | Ok b => exists k, (k <= n)%nat /\ b = slice (contents fd w) (Z.to_nat off) k
  | Error _ => True
  end.
Proof.
  unfold pread. destruct (pop w) as [o w1] eqn:E. apply pop_cases in E as [Ei Ed].
  assert (contents fd w1 = contents fd w) as Ec by (unfold contents; by rewrite Ei).
  destruct o as [|e|k]; intros [= <- <-]; rewrite ?Ec; do 2 (split; [done|]); [|done|].
  - by exists n.
  - exists (moved (Short k) n). cbn. split; [lia|done].
Qed.

End Os.
