(* ===== verification/RemoteQueue.v ===== *)
(** * The queue of audisp-remote (src/audisp/plugins/remote/queue.c)

    A bounded FIFO of strings kept in memory, in a file, or in both, so that
    events survive a restart of the plugin.  Module [RQ] translates the queue
    over the file system calls of [Os]. *)
From S2P Require Import Prelude Os.

Module RQ.
Import Os.

(** ** Data *)

Definition Q_IN_MEMORY : Z := 1.
Definition Q_IN_FILE : Z := 2.
Definition Q_CREAT : Z := 4.
Definition Q_EXCL : Z := 8.
Definition Q_SYNC : Z := 16.
Definition Q_RESIZE : Z := 32.

(** [struct queue]; [fd] is [None] for -1, [memory] is [None] for NULL. *)
Record queue := Queue {
  flags : Z;
  fd : option Z;
  memory : option (list (option bytes));
  num_entries : Z;
  entry_size : Z;
  queue_head : Z;
  queue_length : Z;
}.

Definition SSIZE_MAX : Z := 2 ^ 63 - 1.
(** Sizes of the structures on an LP64 system. *)
Definition sizeof_queue : Z := 48.
Definition sizeof_file_header : Z := 32.
Definition sizeof_pointer : Z := 8.
(** Offset of the mutable part in [struct file_header]. *)
Definition offsetof_s : Z := 24.

Definition fh_magic : bytes :=
  [0; 97; 117; 100; 105; 115; 112; 45; 114; 101; 109; 111; 116; 101].
Definition FH_VERSION_0 : Z := 0.

(** [htonl] followed by a copy to memory, and back: four bytes, the most
    significant first. *)
Definition be32 (x : Z) : bytes :=
  [Z.land (Z.shiftr x 24) 255; Z.land (Z.shiftr x 16) 255;
   Z.land (Z.shiftr x 8) 255; Z.land x 255].
Definition of_be32 (b : bytes) : Z :=
  fold_left (fun acc x => Z.lor (Z.shiftl acc 8) x) b 0.

(** [struct fh_state] and [struct file_header] as bytes. *)
Definition fh_state_bytes (head len : Z) : bytes := be32 (u32 head) ++ be32 (u32 len).
Definition file_header_bytes (entries esize head len : Z) : bytes :=
  fh_magic ++ [FH_VERSION_0] ++ [0] ++ be32 (u32 entries) ++ be32 (u32 esize)
    ++ fh_state_bytes head len.

Definition has (fl bit : Z) : bool := negb (Z.land fl bit =? 0).

(** ** Infrastructure *)

(** The loop of [full_pwrite]: [fuel] bounds the number of calls, and every
    call that does not end the loop moves at least one byte. *)
Fixpoint full_pwrite_loop (fuel : nat) (fd : Z) (buf : bytes) (off : Z) (w : os)
    : result unit * os :=
  match fuel, buf with
  | _, [] => (Ok tt, w)
  | O, _ => (Error ENXIO, w)
  | S fuel, _ =>
      let run := if SSIZE_MAX <? Z.of_nat (length buf)
                 then take (Z.to_nat SSIZE_MAX) buf else buf in
      match pwrite fd run off w with
      | (Error e, w) => (Error e, w)
      | (Ok res, w) =>
          if (res =? 0)%nat then (Error ENXIO, w)
          else full_pwrite_loop fuel fd (drop res buf) (off + Z.of_nat res) w
      end
  end.

Definition full_pwrite (fd : Z) (buf : bytes) (off : Z) (w : os) : result unit * os :=
  full_pwrite_loop (length buf) fd buf off w.

Fixpoint full_pread_loop (fuel : nat) (fd : Z) (size : nat) (off : Z) (acc : bytes)
    (w : os) : result bytes * os :=
  match fuel, size with
  | _, O => (Ok acc, w)
  | O, _ => (Error ENXIO, w)
  | S fuel, _ =>
      let run := if SSIZE_MAX <? Z.of_nat size then Z.to_nat SSIZE_MAX else size in
      match pread fd run off w with
      | (Error e, w) => (Error e, w)
      | (Ok res, w) =>
          if (length res =? 0)%nat then (Error ENXIO, w)
          else full_pread_loop fuel fd (size - length res)
                 (off + Z.of_nat (length res)) (acc ++ res) w
      end
  end.

Definition full_pread (fd : Z) (size : nat) (off : Z) (w : os) : result bytes * os :=
  full_pread_loop size fd size off [] w.

Definition entry_offset (q : queue) (entry : Z) : Z := u64 ((entry + 1) * entry_size q).

(** With a descriptor; the callers test it. *)
Definition q_sync (q : queue) (w : os) : result unit * os :=
  if has (flags q) Q_SYNC then plain_call w else (Ok tt, w).

Definition sync_fh_state (q : queue) (w : os) : result unit * os :=
  match fd q with
  | None => (Ok tt, w)
  | Some d =>
      match full_pwrite d (fh_state_bytes (queue_head q) (queue_length q)) offsetof_s w with
      | (Error e, w) => (Error e, w)
      | (Ok _, w) => q_sync q w
      end
  end.

(** ** Queue implementation *)

Section open.
(** Whether the build has [posix_fallocate] (HAVE_POSIX_FALLOCATE). *)
Variable have_posix_fallocate : bool.
(** [posix_fallocate] returns its error and does not set [errno]; this is the
    value [errno] happens to have when it fails. *)
Variable stale_errno : Z.

(** The mutable fields, after a header was written or read. *)
Definition adopt (q : queue) (d entries head len : Z) : queue :=
  Queue (flags q) (Some d) (memory q) entries (entry_size q) head len.

(** The tail of [q_open_file]: update Q from the header. *)
Definition q_open_adopt (q : queue) (d entries head len : Z) (w : os)
    : result unit * queue * os :=
  let q := adopt q d entries head len in
  if (num_entries q <=? queue_head q) || (num_entries q <? queue_length q)
  then (Error EINVAL, q, w) else (Ok tt, q, w).

(** [q_open_file], the branch of an empty file. *)
Definition q_open_new (q : queue) (d : Z) (w : os) : result unit * queue * os :=
  let qd := adopt q d (num_entries q) (queue_head q) (queue_length q) in
  match full_pwrite d (file_header_bytes (num_entries q) (entry_size q) 0 0) 0 w with
  | (Error e, w) => (Error e, qd, w)
  | (Ok _, w) =>
      match q_sync q w with
      | (Error e, w) => (Error e, qd, w)
      | (Ok _, w) =>
          match (if have_posix_fallocate
                 then posix_fallocate d (u64 ((num_entries q + 1) * entry_size q)) w
                 else (Ok tt, w)) with
          | (Error _, w) => (Error stale_errno, qd, w)
          | (Ok _, w) => q_open_adopt q d (u32 (num_entries q)) 0 0 w
          end
      end
  end.

(** The size of an existing file fits the number of entries in its header;
    [file_entries + 1] is computed with 32 bits. *)
Definition file_size_ok (st_size file_entries esize : Z) : bool :=
  negb ((SIZE_MAX / esize - 1 <? file_entries)
        || negb (st_size =? u64 (u32 (file_entries + 1) * esize))).

(** [q_open_file], the branch of an existing file of [st_size] bytes. *)
Definition q_open_existing (q : queue) (d st_size : Z) (w : os)
    : result unit * queue * os :=
  let qd := adopt q d (num_entries q) (queue_head q) (queue_length q) in
  match full_pread d (Z.to_nat sizeof_file_header) 0 w with
  | (Error e, w) => (Error e, qd, w)
  | (Ok fh, w) =>
      if negb (bool_decide (slice fh 0 14 = fh_magic))
         || negb (bool_decide (slice fh 14 1 = [FH_VERSION_0]))
         || negb (bool_decide (slice fh 15 1 = [0]))
         || negb (bool_decide (slice fh 20 4 = be32 (u32 (entry_size q))))
      then (Error EINVAL, qd, w)
      else
        let file_entries := of_be32 (slice fh 16 4) in
        if negb (file_size_ok st_size file_entries (entry_size q))
        then (Error EINVAL, qd, w)
        else q_open_adopt q d file_entries (of_be32 (slice fh 24 4))
               (of_be32 (slice fh 28 4)) w
  end.

Definition q_open_file (q : queue) (path : string) (w : os)
    : result unit * queue * os :=
  match open path (has (flags q) Q_CREAT) (has (flags q) Q_EXCL) w with
  | (Error e, w) => (Error e, q, w)
  | (Ok d, w) =>
      let qd := adopt q d (num_entries q) (queue_head q) (queue_length q) in
      match plain_call w with             (* fcntl F_GETFD *)
      | (Error e, w) => (Error e, qd, w)
      | (Ok _, w) =>
          match plain_call w with         (* fcntl F_SETFD *)
          | (Error e, w) => (Error e, qd, w)
          | (Ok _, w) =>
              match plain_call w with     (* lockf *)
              | (Error e, w) =>
                  (Error (if (e =? EACCES) || (e =? EAGAIN) then EBUSY else e), qd, w)
              | (Ok _, w) =>
                  match fstat d w with
                  | (Error e, w) => (Error e, qd, w)
                  | (Ok st_size, w) =>
                      if st_size =? 0 then q_open_new q d w
                      else q_open_existing q d st_size w
                  end
              end
          end
      end
  end.

(** The checks of the parameters in [q_open_no_resize]. *)
Definition params_ok (q_flags n esize : Z) : bool :=
  negb (Z.land q_flags (Z.lor Q_IN_MEMORY Q_IN_FILE) =? 0)
  && negb ((n =? 0) || (UINT32_MAX <? n) || (esize <? 1)
           || (esize <? sizeof_file_header) || (UINT32_MAX - sizeof_queue <? esize))
  && negb ((SIZE_MAX <? esize) || (SIZE_MAX / esize - 1 <? n)
           || (SIZE_MAX / sizeof_pointer <? n)).

(** Close the descriptor and keep the saved [errno]. *)
Definition close_fd (q : queue) (w : os) : os :=
  match fd q with None => w | Some _ => snd (plain_call w) end.

(** [None] when the loop that frees the copies leaves the array, which has
    the size the queue was opened with. *)
Definition q_close (q : queue) (w : os) : option os :=
  match memory q with
  | Some m => if num_entries q <=? Z.of_nat (length m) then Some (close_fd q w) else None
  | None => Some (close_fd q w)
  end.

Definition q_open_no_resize (q_flags : Z) (path : string) (n esize : Z) (w : os)
    : result queue * os :=
  if negb (params_ok q_flags n esize) then (Error EINVAL, w) else
  match plain_call w with                 (* malloc of the structure *)
  | (Error e, w) => (Error e, w)
  | (Ok _, w) =>
      let q := Queue q_flags None None n esize 0 0 in
      match (if has q_flags Q_IN_MEMORY
             then match plain_call w with  (* malloc of the array *)
                  | (Error e, w) => (Error e, q, w)
                  | (Ok _, w) =>
                      (Ok tt, Queue q_flags None (Some (replicate (Z.to_nat n) None))
                                n esize 0 0, w)
                  end
             else (Ok tt, q, w)) with
      | (Error e, q, w) => (Error e, close_fd q w)
      | (Ok _, q, w) =>
          if has q_flags Q_IN_FILE then
            match q_open_file q path w with
            | (Error e, q, w) => (Error e, close_fd q w)
            | (Ok _, q, w) => (Ok q, w)
            end
          else (Ok q, w)
      end
  end.

(** ** Operations *)

Definition set_memory (m : option (list (option bytes))) (q : queue) : queue :=
  Queue (flags q) (fd q) m (num_entries q) (entry_size q) (queue_head q) (queue_length q).
Definition set_length (n : Z) (q : queue) : queue :=
  Queue (flags q) (fd q) (memory q) (num_entries q) (entry_size q) (queue_head q) n.
Definition set_head (h : Z) (q : queue) : queue :=
  Queue (flags q) (fd q) (memory q) (num_entries q) (entry_size q) h (queue_length q).

(** The pointer [q->memory[i]]: [Some None] is NULL (also when there is no
    array), [None] an access outside the array. *)
Definition mem_get (q : queue) (i : Z) : option (option bytes) :=
  match memory q with Some m => m !! Z.to_nat i | None => Some None end.

(** [q->memory[i] = v], when there is an array. *)
Definition mem_set (q : queue) (i : Z) (v : option bytes) : queue :=
  match memory q with
  | Some m => set_memory (Some (<[Z.to_nat i := v]> m)) q
  | None => q
  end.

(** [data] is the string without its NUL.  Here and below [None] stands for
    an access outside the array of copies. *)
Definition q_append_no_sync_fh_state (q : queue) (data : bytes) (w : os)
    : option (result unit * queue * os) :=
  if queue_length q =? num_entries q then Some (Error ENOSPC, q, w) else
  let data_size := Z.of_nat (length data) + 1 in
  if entry_size q <? data_size then Some (Error EINVAL, q, w) else
  let entry_index := u64 (queue_head q + queue_length q) mod num_entries q in
  match mem_get q entry_index with
  | None => None
  | Some (Some _) => Some (Error EIO, q, w)
  | Some None =>
      match (if memory q is Some _ then plain_call w else (Ok tt, w)) with  (* malloc *)
      | (Error e, w) => Some (Error e, q, w)
      | (Ok _, w) =>
          match (match fd q with
                 | Some d => full_pwrite d (data ++ [0]) (entry_offset q entry_index) w
                 | None => (Ok tt, w)
                 end) with
          | (Error e, w) => Some (Error e, q, w)
          | (Ok _, w) =>
              Some (Ok tt, set_length (u64 (queue_length q + 1))
                             (mem_set q entry_index (Some data)), w)
          end
      end
  end.

Definition q_append (q : queue) (data : bytes) (w : os)
    : option (result unit * queue * os) :=
  match q_append_no_sync_fh_state q data w with
  | None => None
  | Some (Error e, q, w) => Some (Error e, q, w)
  | Some (Ok _, q, w) => let (r, w) := sync_fh_state q w in Some (r, q, w)
  end.

(** The string before the first NUL, [None] when there is none. *)
Fixpoint until_nul (b : bytes) : option bytes :=
  match b with
  | [] => None
  | x :: b => if x =? 0 then Some [] else
              match until_nul b with Some s => Some (x :: s) | None => None end
  end.

(** What [q_peek] finds at the head: the string and, when it was read from the
    file, the queue with its memory copy refreshed. *)
Definition q_peek_head (q : queue) (w : os) : option (result bytes * queue * os) :=
  match mem_get q (queue_head q) with
  | None => None
  | Some (Some data) => Some (Ok data, q, w)
  | Some None =>
      match fd q with
      | None => Some (Error EIO, q, w)
      | Some d =>
          match full_pread d (Z.to_nat (entry_size q)) (entry_offset q (queue_head q)) w with
          | (Error e, w) => Some (Error e, q, w)
          | (Ok buffer, w) =>
              match until_nul buffer with
              | None => Some (Error EBADMSG, q, w)
              | Some data =>
                  match (if memory q is Some _ then plain_call w else (Error ENOMEM, w)) with
                  | (Error _, w) => Some (Ok data, q, w)  (* no copy is made *)
                  | (Ok _, w) => Some (Ok data, mem_set q (queue_head q) (Some data), w)
                  end
              end
          end
      end
  end.

(** [Ok None] is the return value 0, [Ok (Some data)] a positive one, with
    the string copied to the buffer of [size] bytes. *)
Definition q_peek (q : queue) (size : Z) (w : os)
    : option (result (option bytes) * queue * os) :=
  if queue_length q =? 0 then Some (Ok None, q, w) else
  match q_peek_head q w with
  | None => None
  | Some (Error e, q, w) => Some (Error e, q, w)
  | Some (Ok data, q, w) =>
      if size <? Z.of_nat (length data) + 1 then Some (Error ERANGE, q, w)
      else Some (Ok (Some data), q, w)
  end.

Definition q_drop_head_memory_only (q : queue) : option (result unit * queue) :=
  if queue_length q =? 0 then Some (Error EINVAL, q) else
  match mem_get q (queue_head q) with
  | None => None
  | Some _ =>
      let q := mem_set q (queue_head q) None in
      let h := u64 (queue_head q + 1) in
      let h := if h =? num_entries q then 0 else h in
      Some (Ok tt, set_length (u64 (queue_length q - 1)) (set_head h q))
  end.

Definition q_drop_head (q : queue) (w : os) : option (result unit * queue * os) :=
  match q_drop_head_memory_only q with
  | None => None
  | Some (Error e, q) => Some (Error e, q, w)
  | Some (Ok _, q) => let (r, w) := sync_fh_state q w in Some (r, q, w)
  end.

Definition q_queue_length (q : queue) : Z := queue_length q.

(** The loop of [q_open] that moves the entries of [q] to [q2]; [fuel] bounds
    its iterations, each of which shortens [q]. *)
Fixpoint copy_loop (fuel : nat) (esize : Z) (q q2 : queue) (w : os)
    : option (result unit * queue * queue * os) :=
  match q_peek q esize w with
  | None => None
  | Some (Error e, q, w) => Some (Error e, q, q2, w)
  | Some (Ok None, q, w) => Some (Ok tt, q, q2, w)
  | Some (Ok (Some buf), q, w) =>
      match q_append_no_sync_fh_state q2 buf w with
      | None => None
      | Some (Error e, q2, w) => Some (Error e, q, q2, w)
      | Some (Ok _, q2, w) =>
          match q_drop_head_memory_only q, fuel with
          | None, _ => None
          | Some (Error e, q), _ => Some (Error e, q, q2, w)
          | Some (Ok _, q), S fuel => copy_loop fuel esize q q2 w
          | Some (Ok _, q), O => Some (Error EIO, q, q2, w)
          end
      end
  end.

(** The temporary names [mkstemp] tries after PATH. *)
Variable suffixes : list string.

(** Fail with [e] after closing [q]. *)
Definition fail_close (e : Z) (q : queue) (w : os) : option (result queue * os) :=
  match q_close q w with Some w => Some (Error e, w) | None => None end.

(** Fail with [e] from the label [err_q2]. *)
Definition fail_q2 (e : Z) (tmp_path : string) (q q2 : queue) (w : os)
    : option (result queue * os) :=
  match q_close q2 w with
  | None => None
  | Some w => fail_close e q (snd (unlink tmp_path w))
  end.

(** The end of [q_open]: fill the new queue [q2] at [tmp_path] from [q] and
    put it in place of PATH. *)
Definition q_open_fill (path tmp_path : string) (n esize : Z) (q q2 : queue) (w : os)
    : option (result queue * os) :=
  if negb (num_entries q2 =? n) then fail_q2 EIO tmp_path q q2 w else
  match copy_loop (Z.to_nat (queue_length q)) esize q q2 w with
  | None => None
  | Some (Error e, q, q2, w) => fail_q2 e tmp_path q q2 w
  | Some (Ok _, q, q2, w) =>
      match sync_fh_state q2 w with
      | (Error e, w) => fail_q2 e tmp_path q q2 w
      | (Ok _, w) =>
          match rename tmp_path path w with
          | (Error e, w) => fail_q2 e tmp_path q q2 w
          | (Ok _, w) =>
              match q_close q w with Some w => Some (Ok q2, w) | None => None end
          end
      end
  end.

(** The part of [q_open] that resizes [q] to [n] entries. *)
Definition q_open_resize (q_flags : Z) (path : string) (n esize : Z) (q : queue) (w : os)
    : option (result queue * os) :=
  if negb (has (flags q) Q_RESIZE) then fail_close EINVAL q w else
  if n <? queue_length q then fail_close ENOSPC q w else
  match plain_call w with                 (* malloc of buf *)
  | (Error e, w) => fail_close e q w
  | (Ok _, w) =>
      match plain_call w with             (* malloc of tmp_path *)
      | (Error e, w) => fail_close e q w
      | (Ok _, w) =>
          match mkstemp path suffixes w with
          | (Error e, w) => fail_close e q w
          | (Ok tmp_path, w) =>
              match (match plain_call w with   (* close *)
                     | (Error e, w) => (Error e, w)
                     | (Ok _, w) => unlink tmp_path w
                     end) with
              | (Error e, w) => fail_close e q (snd (unlink tmp_path w))
              | (Ok _, w) =>
                  match q_open_no_resize (Z.lor q_flags (Z.lor Q_CREAT Q_EXCL))
                          tmp_path n esize w with
                  | (Error e, w) => fail_close e q (snd (unlink tmp_path w))
                  | (Ok q2, w) => q_open_fill path tmp_path n esize q q2 w
                  end
              end
          end
      end
  end.

Definition q_open (q_flags : Z) (path : string) (n esize : Z) (w : os)
    : option (result queue * os) :=
  match q_open_no_resize q_flags path n esize w with
  | (Error e, w) => Some (Error e, w)
  | (Ok q, w) =>
      if num_entries q =? n then Some (Ok q, w)
      else q_open_resize q_flags path n esize q w
  end.

End open.

End RQ.
