(* ===== verification/RemoteQueueFacts.v ===== *)
(** * Properties of the queue of audisp-remote

    The representation of a queue of strings by the structure of
    src/audisp/plugins/remote/queue.c and its file, the preservation of it by
    every operation under arbitrary faults of the system calls, and the
    theorems on appending, reading, persistence and resizing. *)
From S2P Require Import Prelude Os RemoteQueue.

Module RQFacts.
Import Os RQ.

(** ** The transfers *)

(** The size of one transfer. *)
Lemma run_bound (n : nat) :
  ((if (SSIZE_MAX <? Z.of_nat n)%Z then Z.to_nat SSIZE_MAX else n) <= n)%nat.
Proof. zb; lia. Qed.

(** One call of the loops. *)
Lemma full_pwrite_loop_step fuel fd buf off w :
  buf <> [] ->
  exists run, (run <= length buf)%nat /\
  full_pwrite_loop (S fuel) fd buf off w =
    match pwrite fd (take run buf) off w with
    | (Error e, w) => (Error e, w)
    | (Ok res, w) =>
        if (res =? 0)%nat then (Error ENXIO, w)
        else full_pwrite_loop fuel fd (drop res buf) (off + Z.of_nat res) w
    end.
Proof.
  intros Hb.
  exists (if SSIZE_MAX <? Z.of_nat (length buf) then Z.to_nat SSIZE_MAX else length buf).
  split; [apply run_bound|]. destruct buf as [|b buf]; [done|].
  set (l := b :: buf).
  change (full_pwrite_loop (S fuel) fd l off w) with
    (match pwrite fd (if SSIZE_MAX <? Z.of_nat (length l)
                      then take (Z.to_nat SSIZE_MAX) l else l) off w with
     | (Error e, w) => (Error e, w)
     | (Ok res, w) =>
         if (res =? 0)%nat then (Error ENXIO, w)
         else full_pwrite_loop fuel fd (drop res l) (off + Z.of_nat res) w
     end).
  destruct (SSIZE_MAX <? Z.of_nat (length l)); [done|]. by rewrite firstn_all.
Qed.

Lemma full_pread_loop_step fuel fd size off acc w :
  (0 < size)%nat ->
  exists run, (run <= size)%nat /\
  full_pread_loop (S fuel) fd size off acc w =
    match pread fd run off w with
    | (Error e, w) => (Error e, w)
    | (Ok res, w) =>
        if (length res =? 0)%nat then (Error ENXIO, w)
        else full_pread_loop fuel fd (size - length res)
               (off + Z.of_nat (length res)) (acc ++ res) w
    end.
Proof.
  intros Hs.
  exists (if SSIZE_MAX <? Z.of_nat size then Z.to_nat SSIZE_MAX else size).
  split; [apply run_bound|]. by destruct size; [lia|].
Qed.

(** [full_pwrite] stores a prefix of the buffer at the offset, all of it when
    it succeeds; it touches nothing else. *)
Lemma full_pwrite_loop_spec fuel fd buf off w r w' :
  0 <= off -> (length buf <= fuel)%nat ->
  full_pwrite_loop fuel fd buf off w = (r, w') ->
  exists k, (k <= length buf)%nat /\
    only fd (write_at (contents fd w) (Z.to_nat off) (take k buf)) w w' /\
    match r with Ok _ => k = length buf | Error _ => True end.
Proof.
  revert buf off w. induction fuel as [|fuel IH]; intros buf off w Hoff Hf.
  { destruct buf; [|cbn in Hf; lia]. intros [= <- <-]. exists O. cbn.
    split; [done|]. split; [by apply only_same|done]. }
  destruct (decide (buf = [])) as [->|Hb].
  { intros [= <- <-]. exists O. cbn. split; [done|]. split; [by apply only_same|done]. }
  destruct (full_pwrite_loop_step fuel fd buf off w Hb) as (run & Hrun & ->).
  destruct (pwrite fd (take run buf) off w) as [[n|e] w1] eqn:Ep;
    apply pwrite_spec in Ep as (k & Hk & Ho & Hr); rewrite length_take in Hk;
    rewrite take_take, Nat.min_l in Ho by lia.
  2: { intros [= <- <-]. subst k. exists O. split; [lia|]. by split. }
  subst n. destruct (Nat.eqb_spec k 0) as [->|Hk0].
  { intros [= <- <-]. exists O. split; [lia|]. by split. }
  intros Hl. apply IH in Hl; [|lia|rewrite length_drop; lia].
  destruct Hl as (k' & Hk' & Ho' & Hr'). rewrite length_drop in Hk', Hr'.
  exists (k + k')%nat. split; [lia|]. split.
  - eapply only_trans; [exact Ho|]. destruct Ho as [Hc _]. rewrite Hc in Ho'.
    replace (Z.to_nat (off + Z.of_nat k))
      with (Z.to_nat off + length (take k buf))%nat in Ho'
      by (rewrite length_take; lia).
    rewrite write_at_app in Ho'. rewrite take_take_drop in Ho'. done.
  - destruct r; [lia|done].
Qed.

Lemma full_pwrite_spec fd buf off w r w' :
  0 <= off -> full_pwrite fd buf off w = (r, w') ->
  exists k, (k <= length buf)%nat /\
    only fd (write_at (contents fd w) (Z.to_nat off) (take k buf)) w w' /\
    match r with Ok _ => k = length buf | Error _ => True end.
Proof. intros Hoff. by apply full_pwrite_loop_spec. Qed.

(** [full_pread] leaves the files and returns the bytes of the file. *)
Lemma full_pread_loop_spec fuel fd size off acc w r w' :
  0 <= off -> (size <= fuel)%nat ->
  full_pread_loop fuel fd size off acc w = (r, w') ->
  inodes w' = inodes w /\ dir w' = dir w /\
  match r with
  | Ok b => b = acc ++ slice (contents fd w) (Z.to_nat off) size /\
            (Z.to_nat off + size <= length (contents fd w) \/ size = 0)%nat
  | Error _ => True
  end.
Proof.
  revert size off acc w. induction fuel as [|fuel IH]; intros size off acc w Hoff Hf.
  { destruct size; [|lia]. intros [= <- <-]. unfold slice. rewrite app_nil_r. auto. }
  destruct (decide (size = O)) as [->|Hb].
  { intros [= <- <-]. unfold slice. rewrite app_nil_r. auto. }
  destruct (full_pread_loop_step fuel fd size off acc w) as (run & Hrun & ->); [lia|].
  destruct (pread fd run off w) as [[b|e] w1] eqn:Ep;
    apply pread_spec in Ep as (Hi & Hd & Hr).
  2: { by intros [= <- <-]. }
  destruct Hr as (k & Hk & ->).
  destruct (Nat.eqb_spec (length (slice (contents fd w) (Z.to_nat off) k)) 0) as [|Hk0].
  { by intros [= <- <-]. }
  set (n := length (slice (contents fd w) (Z.to_nat off) k)) in *.
  assert (n = Nat.min k (length (contents fd w) - Z.to_nat off)) as Hn by apply slice_length.
  intros Hl. apply IH in Hl as (Hi' & Hd' & Hr'); [|lia|lia].
  assert (contents fd w1 = contents fd w) as Hc by (unfold contents; by rewrite Hi).
  split; [congruence|]. split; [congruence|]. destruct r as [b|]; [|done].
  destruct Hr' as [-> Hle]. rewrite Hc in Hle |- *.
  replace (Z.to_nat (off + Z.of_nat n)) with (Z.to_nat off + n)%nat in * by lia.
  split; [|lia]. rewrite <-app_assoc. f_equal.
  replace (slice (contents fd w) (Z.to_nat off) k)
    with (slice (contents fd w) (Z.to_nat off) n).
  - rewrite slice_app by lia. f_equal. lia.
  - destruct (decide (n = k)) as [->|]; [done|].
    unfold slice. rewrite !take_ge; [done|rewrite length_drop; lia..].
Qed.

Lemma full_pread_spec fd size off w r w' :
  0 <= off -> full_pread fd size off w = (r, w') ->
  inodes w' = inodes w /\ dir w' = dir w /\
  match r with
  | Ok b => b = slice (contents fd w) (Z.to_nat off) size
  | Error _ => True
  end.
Proof.
  intros Hoff H. apply full_pread_loop_spec in H as (? & ? & Hr); [|done..].
  repeat split; try done. destruct r; [|done]. by destruct Hr as [-> _].
Qed.

(** ** The header *)

Lemma lor_shiftl_byte a b : 0 <= b < 256 -> Z.lor (Z.shiftl a 8) b = a * 256 + b.
Proof.
  intros Hb. rewrite <-Z.add_nocarry_lor.
  - by rewrite Z.shiftl_mul_pow2 by lia.
  - apply Z.bits_inj'. intros i Hi. rewrite Z.bits_0, Z.land_spec.
    destruct (decide (i < 8)) as [Hlt|Hge].
    + by rewrite Z.shiftl_spec_low.
    + replace b with (b mod 2 ^ 8) by (apply Z.mod_small; lia).
      rewrite (Z.mod_pow2_bits_high b 8 i) by lia. apply andb_false_r.
Qed.

Lemma land_255 x : Z.land x 255 = x mod 256.
Proof. change 255 with (Z.ones 8). by rewrite Z.land_ones by lia. Qed.

Lemma be32_arith x :
  be32 x = [x / 16777216 mod 256; x / 65536 mod 256; x / 256 mod 256; x mod 256].
Proof. unfold be32. by rewrite !land_255, !Z.shiftr_div_pow2 by lia. Qed.

(** Byte order conversion round trip. *)
Lemma of_be32_be32 x : 0 <= x < two32 -> of_be32 (be32 x) = x.
Proof.
  unfold two32. intros Hx. rewrite be32_arith. unfold of_be32. cbn [fold_left].
  rewrite !lor_shiftl_byte by (apply Z.mod_pos_bound; lia).
  change 16777216 with (65536 * 256). change 65536 with (256 * 256).
  rewrite <-!Z.div_div by lia. Z.to_euclidean_division_equations. lia.
Qed.

Lemma be32_length x : length (be32 x) = 4%nat.
Proof. done. Qed.

Lemma header_length n e h l : length (file_header_bytes n e h l) = 32%nat.
Proof. done. Qed.

(** ** The representation of a queue *)

(** The slot of the [k]-th entry from the head. *)
Definition slot_of (num head : Z) (k : nat) : Z := (head + Z.of_nat k) mod num.

(** Limits of the parameters that [q_open] enforces. *)
Record sizes (num esz : Z) : Prop := Sizes {
  sz_num : 0 < num <= UINT32_MAX;
  sz_entry : sizeof_file_header <= esz <= UINT32_MAX - sizeof_queue;
  sz_total : (num + 1) * esz <= SIZE_MAX;
}.

(** A string that fits an entry. *)
Definition str_ok (esz : Z) (s : bytes) : Prop :=
  Forall (fun b => b <> 0) s /\ Z.of_nat (length s) + 1 <= esz.

(** Entry [i] of the file holds the string [s]. *)
Definition entry_at (f : bytes) (esz i : Z) (s : bytes) : Prop :=
  slice f (Z.to_nat ((i + 1) * esz)) (length s + 1) = s ++ [0].

(** The entries of the file from [head] on hold [xs]. *)
Record file_rep (f : bytes) (num esz head : Z) (xs : list bytes) : Prop := FileRep {
  fr_length : Z.of_nat (length f) = (num + 1) * esz;
  fr_entries : forall k s, xs !! k = Some s -> entry_at f esz (slot_of num head k) s;
}.

(** The file as a whole, header included, stores the queue [xs]. *)
Definition persisted (f : bytes) (num esz head : Z) (xs : list bytes) : Prop :=
  file_rep f num esz head xs /\
  slice f 0 32 = file_header_bytes num esz head (Z.of_nat (length xs)).

(** Every copy in memory is the string of an entry. *)
Definition mem_sound (m : list (option bytes)) (num head : Z) (xs : list bytes) : Prop :=
  num <= Z.of_nat (length m) /\
  forall i s, m !! i = Some (Some s) ->
    exists k, xs !! k = Some s /\ Z.of_nat i = slot_of num head k.

(** Every entry has its copy in memory. *)
Definition mem_complete (m : list (option bytes)) (num head : Z) (xs : list bytes) : Prop :=
  forall k s, xs !! k = Some s -> m !! Z.to_nat (slot_of num head k) = Some (Some s).

(** [rep q w xs]: the queue holds the strings [xs], the first one at its
    head. *)
Record rep (q : queue) (w : os) (xs : list bytes) : Prop := Rep {
  rp_sizes : sizes (num_entries q) (entry_size q);
  rp_head : 0 <= queue_head q < num_entries q;
  rp_len : queue_length q = Z.of_nat (length xs);
  rp_fits : queue_length q <= num_entries q;
  rp_strs : Forall (str_ok (entry_size q)) xs;
  rp_mem : forall m, memory q = Some m ->
             mem_sound m (num_entries q) (queue_head q) xs;
  rp_file : forall d, fd q = Some d ->
             file_rep (contents d w) (num_entries q) (entry_size q) (queue_head q) xs;
  rp_store : fd q = None ->
             exists m, memory q = Some m /\
               mem_complete m (num_entries q) (queue_head q) xs;
}.

Lemma slot_of_range num head k : 0 < num -> 0 <= slot_of num head k < num.
Proof. intros. apply Z.mod_pos_bound. lia. Qed.

Lemma slot_of_0 num head : 0 <= head < num -> slot_of num head 0 = head.
Proof. intros. unfold slot_of. rewrite Z.add_0_r. by apply Z.mod_small. Qed.

(** Distinct places are distinct slots. *)
Lemma slot_of_inj num head k k' :
  0 < num -> Z.of_nat k < num -> Z.of_nat k' < num ->
  slot_of num head k = slot_of num head k' -> k = k'.
Proof.
  unfold slot_of. intros Hn Hk Hk' E.
  pose proof (Z.div_mod (head + Z.of_nat k) num ltac:(lia)) as D1.
  pose proof (Z.div_mod (head + Z.of_nat k') num ltac:(lia)) as D2.
  rewrite E in D1.
  set (a := (head + Z.of_nat k) / num) in *. set (b := (head + Z.of_nat k') / num) in *.
  assert (a = b) by nia. nia.
Qed.

(** The head moves to the next slot. *)
Lemma slot_of_S num head k :
  0 < num -> slot_of num (slot_of num head 1) k = slot_of num head (S k).
Proof.
  intros Hn. unfold slot_of. rewrite Zplus_mod_idemp_l. f_equal. lia.
Qed.

(** Offsets stay below SIZE_MAX: the product does not wrap. *)
Lemma entry_offset_exact q i :
  sizes (num_entries q) (entry_size q) -> 0 <= i < num_entries q ->
  entry_offset q i = (i + 1) * entry_size q.
Proof.
  intros [Hn He Ht] Hi. unfold entry_offset. apply u64_small.
  unfold SIZE_MAX, sizeof_file_header in *. nia.
Qed.

(** The bytes of an entry lie inside the file, after the header and apart from
    those of every other entry. *)
Lemma entry_range num esz i :
  sizes num esz -> 0 <= i < num ->
  32 <= (i + 1) * esz /\ (i + 1) * esz + esz <= (num + 1) * esz.
Proof. intros [Hn He Ht] Hi. unfold sizeof_file_header in *. nia. Qed.

Lemma entries_apart esz i j :
  0 < esz -> 0 <= i -> 0 <= j -> i <> j ->
  (i + 1) * esz + esz <= (j + 1) * esz \/ (j + 1) * esz + esz <= (i + 1) * esz.
Proof. intros. destruct (decide (i < j)); [left|right]; nia. Qed.

(** ** Writing to the file *)

Lemma str_ok_lookup esz xs k s :
  Forall (str_ok esz) xs -> xs !! k = Some s -> str_ok esz s.
Proof. intros H. by apply Forall_lookup_1. Qed.

(** A write inside entry [i] changes no other entry and not the header. *)
Lemma entry_write_other f num esz i j buf s :
  sizes num esz -> 0 <= i < num -> 0 <= j < num -> i <> j ->
  Z.of_nat (length f) = (num + 1) * esz ->
  Z.of_nat (length buf) <= esz -> Z.of_nat (length s) + 1 <= esz ->
  entry_at f esz j s -> entry_at (write_at f (Z.to_nat ((i + 1) * esz)) buf) esz j s.
Proof.
  intros Hs Hi Hj Hij Hl Hb Hn He. unfold entry_at in *.
  pose proof (entry_range _ _ _ Hs Hi). pose proof (entry_range _ _ _ Hs Hj).
  rewrite slice_write_disjoint; [done| |lia].
  destruct (entries_apart esz i j); [destruct Hs; unfold sizeof_file_header in *; lia|lia..].
Qed.

Lemma file_write_free f num esz head xs buf :
  sizes num esz -> 0 <= head < num -> Forall (str_ok esz) xs ->
  Z.of_nat (length xs) < num -> Z.of_nat (length buf) <= esz ->
  file_rep f num esz head xs ->
  let f' := write_at f (Z.to_nat ((slot_of num head (length xs) + 1) * esz)) buf in
  file_rep f' num esz head xs /\ slice f' 0 32 = slice f 0 32.
Proof.
  intros Hs Hh Hx Hlt Hb [Hl He] f'.
  pose proof (slot_of_range num head (length xs) ltac:(lia)) as Hi.
  pose proof (entry_range _ _ _ Hs Hi). repeat split.
  - unfold f'. rewrite write_at_length_inside; lia.
  - intros k s Hk. pose proof (lookup_lt_Some _ _ _ Hk).
    apply (entry_write_other _ num); try done; try lia.
    + by apply slot_of_range; lia.
    + intros E. apply slot_of_inj in E; lia.
    + by eapply (str_ok_lookup esz).
    + by apply He.
  - apply slice_write_disjoint; lia.
Qed.

(** Storing a string with its NUL in the free entry appends it. *)
Lemma file_write_append f num esz head xs data :
  sizes num esz -> 0 <= head < num -> Forall (str_ok esz) xs ->
  Z.of_nat (length xs) < num -> Z.of_nat (length data) + 1 <= esz ->
  file_rep f num esz head xs ->
  file_rep (write_at f (Z.to_nat ((slot_of num head (length xs) + 1) * esz)) (data ++ [0]))
    num esz head (xs ++ [data]).
Proof.
  intros Hs Hh Hx Hlt Hb Hf.
  assert (Z.of_nat (length (data ++ [0])) <= esz) as Hb' by (rewrite length_app; cbn; lia).
  destruct (file_write_free f num esz head xs (data ++ [0])) as [[Hl He] _]; try done.
  split; [done|]. intros k s Hk. apply lookup_app_Some in Hk as [Hk|[Hge Hk]]; [by apply He|].
  apply list_lookup_singleton_Some in Hk as [Hk ->].
  replace k with (length xs) by lia. unfold entry_at.
  replace (length s + 1)%nat with (length (s ++ [0])) by (rewrite length_app; cbn; lia).
  apply slice_write_same.
Qed.

(** The header after its mutable part was written. *)
Lemma header_update f num esz head len head' len' :
  (32 <= length f)%nat -> slice f 0 32 = file_header_bytes num esz head len ->
  slice (write_at f 24 (fh_state_bytes head' len')) 0 32
    = file_header_bytes num esz head' len'.
Proof.
  intros Hl Hh. set (b := fh_state_bytes head' len').
  assert (length b = 8%nat) as Hb by done.
  change 32%nat with (24 + 8)%nat at 1.
  rewrite <-slice_app by (rewrite write_at_length_inside; lia).
  rewrite slice_write_disjoint by lia. rewrite <-Hb at 2. rewrite slice_write_same.
  change (slice f 0 24) with (slice f (0 + 0) 24).
  rewrite <-(slice_slice f 0 32 0 24) by lia. by rewrite Hh.
Qed.

Lemma file_write_header f num esz head xs len head' len' :
  sizes num esz -> Forall (str_ok esz) xs ->
  file_rep f num esz head xs -> slice f 0 32 = file_header_bytes num esz head' len ->
  let f' := write_at f 24 (fh_state_bytes head len') in
  file_rep f' num esz head xs /\
  slice f' 0 32 = file_header_bytes num esz head len'.
Proof.
  intros Hs Hx [Hl He] Hh f'. pose proof Hs as [Hn Hes Ht].
  assert (32 <= length f)%nat by (unfold sizeof_file_header in *; nia).
  split; [|by eapply header_update]. split.
  - unfold f'. rewrite write_at_length_inside; cbn; lia.
  - intros k s Hk. pose proof (str_ok_lookup _ _ _ _ Hx Hk) as [_ Hs'].
    pose proof (slot_of_range num head k ltac:(lia)) as Hi.
    pose proof (entry_range _ _ _ Hs Hi).
    unfold entry_at, f'. rewrite slice_write_disjoint; [by apply He|cbn; lia|lia].
Qed.

(** ** Appending *)

(** What the operations never change. *)
Definition same_shape (q q' : queue) : Prop :=
  flags q' = flags q /\ fd q' = fd q /\
  num_entries q' = num_entries q /\ entry_size q' = entry_size q.

Lemma same_shape_refl q : same_shape q q.
Proof. done. Qed.

Lemma same_shape_trans q1 q2 q3 : same_shape q1 q2 -> same_shape q2 q3 -> same_shape q1 q3.
Proof. intros (?&?&?&?) (?&?&?&?). split_and!; congruence. Qed.

#[local] Hint Resolve same_shape_refl : core.

Lemma rep_frame q w w' xs :
  rep q w xs -> (forall d, fd q = Some d -> contents d w' = contents d w) -> rep q w' xs.
Proof.
  intros H Hw. destruct H; split; try done. intros d Hd. rewrite Hw by done. auto.
Qed.

Lemma rep_num_pos q w xs : rep q w xs -> 0 < num_entries q < two32.
Proof. intros H. destruct (rp_sizes _ _ _ H). unfold UINT32_MAX in *. lia. Qed.

Lemma append_index q w xs :
  rep q w xs ->
  u64 (queue_head q + queue_length q) mod num_entries q
    = slot_of (num_entries q) (queue_head q) (length xs).
Proof.
  intros H. pose proof (rp_head _ _ _ H). pose proof (rp_fits _ _ _ H).
  pose proof (rep_num_pos _ _ _ H). pose proof (rp_len _ _ _ H).
  unfold slot_of. rewrite <-(rp_len _ _ _ H), u64_small; [done|].
  unfold two32, two64 in *. lia.
Qed.

(** Slots of the ring are inside the array, and a copy is the string of its
    entry. *)
Lemma rep_mem_get q w xs i :
  rep q w xs -> 0 <= i < num_entries q ->
  exists o, mem_get q i = Some o /\
    forall s, o = Some s ->
      exists k, xs !! k = Some s /\ i = slot_of (num_entries q) (queue_head q) k.
Proof.
  intros H Hi. unfold mem_get. destruct (memory q) as [m|] eqn:Em; [|by eexists].
  destruct (rp_mem _ _ _ H _ Em) as [Hl Hm].
  destruct (lookup_lt_is_Some_2 m (Z.to_nat i)) as [o Ho]; [lia|].
  exists o. split; [done|]. intros s ->. destruct (Hm _ _ Ho) as (k & Hk & E).
  exists k. split; [done|]. lia.
Qed.

Lemma rep_mem_free q w xs :
  rep q w xs -> Z.of_nat (length xs) < num_entries q ->
  mem_get q (slot_of (num_entries q) (queue_head q) (length xs)) = Some None.
Proof.
  intros H Hlt. pose proof (rep_num_pos _ _ _ H) as Hn.
  destruct (rep_mem_get q w xs (slot_of (num_entries q) (queue_head q) (length xs)))
    as (o & -> & Ho); [done|apply slot_of_range; lia|].
  destruct o as [s|]; [|done]. destruct (Ho s eq_refl) as (k & Hk & E).
  pose proof (lookup_lt_Some _ _ _ Hk). apply slot_of_inj in E; lia.
Qed.

Lemma rep_mem_head q w x xs :
  rep q w (x :: xs) -> exists o, mem_get q (queue_head q) = Some o /\ (o = None \/ o = Some x).
Proof.
  intros H. pose proof (rep_num_pos _ _ _ H). pose proof (rp_head _ _ _ H) as Hh.
  pose proof (rp_len _ _ _ H). pose proof (rp_fits _ _ _ H).
  destruct (rep_mem_get q w (x :: xs) (queue_head q) H Hh) as (o & -> & Ho).
  exists o. split; [done|]. destruct o as [s|]; [right|by left].
  destruct (Ho s eq_refl) as (k & Hk & E). pose proof (lookup_lt_Some _ _ _ Hk).
  rewrite <-(slot_of_0 _ _ Hh) in E at 1. apply slot_of_inj in E; [|lia..].
  subst k. by injection Hk as <-.
Qed.

Lemma mem_sound_append m num head xs data :
  0 < num -> mem_sound m num head xs ->
  mem_sound (<[Z.to_nat (slot_of num head (length xs)) := Some data]> m) num head
    (xs ++ [data]).
Proof.
  intros Hn [Hl Hm]. pose proof (slot_of_range num head (length xs) Hn).
  split; [by rewrite length_insert|]. intros i s Hi.
  apply list_lookup_insert_Some in Hi as [(<- & [= ->] & _)|(_ & Hi)].
  - exists (length xs). rewrite Z2Nat.id by lia. split; [|done].
    by rewrite lookup_app_r, Nat.sub_diag.
  - apply Hm in Hi as (k & Hk & E). exists k. split; [|done]. by apply lookup_app_l_Some.
Qed.

Lemma mem_complete_append m num head xs data :
  0 < num -> Z.of_nat (length xs) < num -> num <= Z.of_nat (length m) ->
  mem_complete m num head xs ->
  mem_complete (<[Z.to_nat (slot_of num head (length xs)) := Some data]> m) num head
    (xs ++ [data]).
Proof.
  intros Hn Hlt Hl Hm k s Hk. pose proof (slot_of_range num head (length xs) Hn).
  apply lookup_app_Some in Hk as [Hk|[Hge Hk]].
  - pose proof (lookup_lt_Some _ _ _ Hk). rewrite list_lookup_insert_ne; [by apply Hm|].
    intros E. pose proof (slot_of_range num head k Hn).
    assert (slot_of num head (length xs) = slot_of num head k) as E' by lia.
    apply slot_of_inj in E'; lia.
  - apply list_lookup_singleton_Some in Hk as [Hk ->].
    replace k with (length xs) by lia. apply list_lookup_insert_eq. lia.
Qed.

(** The queue after a successful append. *)
Lemma rep_append q w w' xs data :
  rep q w xs -> str_ok (entry_size q) data -> Z.of_nat (length xs) < num_entries q ->
  (forall d, fd q = Some d ->
     file_rep (contents d w') (num_entries q) (entry_size q) (queue_head q) (xs ++ [data])) ->
  let i := slot_of (num_entries q) (queue_head q) (length xs) in
  let q1 := set_length (u64 (queue_length q + 1)) (mem_set q i (Some data)) in
  rep q1 w' (xs ++ [data]) /\ same_shape q q1 /\ queue_head q1 = queue_head q.
Proof.
  intros H Hd Hlt Hf i q1. pose proof (rep_num_pos _ _ _ H) as Hn.
  assert (u64 (queue_length q + 1) = Z.of_nat (length (xs ++ [data]))) as E.
  { rewrite (rp_len _ _ _ H), length_app, u64_small; [cbn; lia|].
    unfold two32, two64 in *. lia. }
  destruct H as [Hsz Hh Hlen Hfit Hst Hm Hfr Hs]. unfold q1, mem_set. rewrite E.
  destruct (memory q) as [m|] eqn:Em; (split; [|by split]); split; cbn in *;
    rewrite ?Em; try done; try (rewrite length_app; cbn; lia);
    try (apply Forall_app; by split; [|constructor]).
  - intros m' [= <-]. apply mem_sound_append; [lia|]. by apply Hm.
  - intros Hn'. eexists; split; [done|]. destruct (Hs Hn') as (m' & [= <-] & Hc).
    destruct (Hm _ eq_refl) as [Hl _]. apply mem_complete_append; [lia|done..].
  - intros Hn'. by destruct (Hs Hn') as (m & ? & _).
Qed.

(** The step from [w] to [w'] touches at most the file of [q], and leaves
    there the entries [xs] and the header. *)
Definition kept (q : queue) (xs : list bytes) (w w' : os) : Prop :=
  match fd q with
  | Some d =>
      (exists f, only d f w w') /\
      slice (contents d w') 0 32 = slice (contents d w) 0 32 /\
      file_rep (contents d w') (num_entries q) (entry_size q) (queue_head q) xs
  | None => inodes w' = inodes w /\ dir w' = dir w
  end.

Lemma kept_rep q w w' xs : rep q w xs -> kept q xs w w' -> rep q w' xs.
Proof.
  intros H Hk. destruct H; split; try done. intros d Ed. unfold kept in Hk.
  rewrite Ed in Hk. apply Hk.
Qed.

Lemma kept_same q w w' xs :
  rep q w xs -> inodes w' = inodes w -> dir w' = dir w -> kept q xs w w'.
Proof.
  intros H Hi Hd. unfold kept. destruct (fd q) as [d|] eqn:Ed; [|done].
  assert (contents d w' = contents d w) as -> by (unfold contents; by rewrite Hi).
  split; [exists (contents d w); by apply only_same|]. split; [done|]. by apply H.
Qed.

(** Writing at most a string with its NUL to the free entry. *)
Lemma kept_write q w xs d data r w' :
  rep q w xs -> fd q = Some d -> Z.of_nat (length xs) < num_entries q ->
  Z.of_nat (length data) + 1 <= entry_size q ->
  full_pwrite d (data ++ [0])
    (entry_offset q (slot_of (num_entries q) (queue_head q) (length xs))) w = (r, w') ->
  kept q xs w w' /\
  match r with
  | Ok _ => file_rep (contents d w') (num_entries q) (entry_size q) (queue_head q) (xs ++ [data])
  | Error _ => True
  end.
Proof.
  intros H Ed Hlt Hsize. pose proof (rp_sizes _ _ _ H) as Hsz.
  pose proof (rep_num_pos _ _ _ H) as Hn.
  pose proof (slot_of_range (num_entries q) (queue_head q) (length xs) ltac:(lia)) as Hr.
  pose proof (entry_range _ _ _ Hsz Hr) as [Ho _].
  rewrite entry_offset_exact by done. intros E.
  apply full_pwrite_spec in E as (k & Hk & [Hc Hrest] & Hr2); [|lia].
  rewrite length_app in Hk, Hr2. cbn in Hk, Hr2. pose proof (rp_file _ _ _ H d Ed) as Hfr.
  destruct (file_write_free _ _ _ _ _ (take k (data ++ [0])) Hsz (rp_head _ _ _ H)
              (rp_strs _ _ _ H) Hlt
              ltac:(rewrite length_take, length_app; cbn; lia) Hfr) as [Hfr' Hh'].
  rewrite <-Hc in Hfr', Hh'. split.
  - unfold kept. rewrite Ed. split; [|done]. eexists. split; [reflexivity|done].
  - destruct r; [|done]. rewrite Hc, Hr2, take_ge by (rewrite length_app; cbn; lia).
    by apply file_write_append; try apply H.
Qed.

(** The same step seen from an earlier state with the same files. *)
Lemma kept_before q xs w w1 w2 :
  inodes w1 = inodes w -> dir w1 = dir w -> kept q xs w1 w2 -> kept q xs w w2.
Proof.
  intros Hi Hd. unfold kept. destruct (fd q) as [d|]; [|by rewrite Hi, Hd].
  unfold only, contents. by rewrite Hi, Hd.
Qed.

(** What [q_append_no_sync_fh_state] guarantees, whatever the system calls
    do. *)
Lemma append_no_sync_spec q data w xs :
  rep q w xs -> Forall (fun b => b <> 0) data ->
  exists r q' w', q_append_no_sync_fh_state q data w = Some (r, q', w') /\
  kept q xs w w' /\
  match r with
  | Ok _ => rep q' w' (xs ++ [data]) /\ same_shape q q' /\ queue_head q' = queue_head q
  | Error _ => q' = q
  end.
Proof.
  intros H Hnz. pose proof (rp_len _ _ _ H) as Hlen. pose proof (rp_fits _ _ _ H) as Hfit.
  unfold q_append_no_sync_fh_state. rewrite (append_index _ _ _ H).
  destruct (Z.eqb_spec (queue_length q) (num_entries q)) as [|Hne].
  { do 3 eexists. split; [done|]. by split; [apply kept_same|]. }
  destruct (Z.ltb_spec (entry_size q) (Z.of_nat (length data) + 1)) as [|Hsize].
  { do 3 eexists. split; [done|]. by split; [apply kept_same|]. }
  rewrite (rep_mem_free _ _ _ H) by lia.
  destruct (if memory q is Some _ then _ else _) as [r1 w1] eqn:E1.
  assert (inodes w1 = inodes w /\ dir w1 = dir w) as [Hi1 Hd1].
  { destruct (memory q); [by apply plain_call_same in E1|by injection E1 as _ <-]. }
  destruct r1 as [_u|e1].
  2: { do 3 eexists. split; [done|]. by split; [apply kept_same|]. }
  assert (rep q w1 xs) as H1 by (by eapply kept_rep, kept_same).
  destruct (match fd q with Some d => _ | None => _ end) as [r2 w2] eqn:E2.
  assert (kept q xs w w2 /\ (r2 = Ok tt -> forall d, fd q = Some d ->
            file_rep (contents d w2) (num_entries q) (entry_size q) (queue_head q) (xs ++ [data])))
    as [Hk Hf].
  { destruct (fd q) as [d|] eqn:Ed.
    - apply (kept_write _ _ _ _ _ _ _ H1 Ed) in E2 as [Hk Hf]; [|lia..].
      split; [by eapply kept_before|intros -> ? [= <-]; done].
    - injection E2 as _ <-. split; [by apply kept_same|done]. }
  destruct r2 as [[]|e2]; do 3 eexists; (split; [reflexivity|]); (split; [done|]); [|done].
  eapply rep_append; [done|by split|lia|]. by apply Hf.
Qed.

(** ** The header and the head *)

(** The header of the file, whatever its mutable part. *)
Definition header_known (q : queue) (w : os) : Prop :=
  forall d, fd q = Some d -> exists h l,
    slice (contents d w) 0 32 = file_header_bytes (num_entries q) (entry_size q) h l.

(** The file of the queue, if it has one, stores [xs]. *)
Definition stored (q : queue) (w : os) (xs : list bytes) : Prop :=
  forall d, fd q = Some d ->
    persisted (contents d w) (num_entries q) (entry_size q) (queue_head q) xs.

Lemma q_sync_same q w r w' :
  q_sync q w = (r, w') -> inodes w' = inodes w /\ dir w' = dir w.
Proof.
  unfold q_sync. destruct (has _ _); [apply plain_call_same|]. by intros [= _ <-].
Qed.

(** Bytes written inside the header leave the entries. *)
Lemma file_write_low f num esz head xs off buf :
  sizes num esz -> Forall (str_ok esz) xs -> (off + length buf <= 32)%nat ->
  file_rep f num esz head xs -> file_rep (write_at f off buf) num esz head xs.
Proof.
  intros Hs Hx Hb [Hl He]. pose proof Hs as [Hn Hes Ht].
  assert (32 <= length f)%nat by (unfold sizeof_file_header in *; nia). split.
  - rewrite write_at_length_inside; lia.
  - intros k s Hk. pose proof (str_ok_lookup _ _ _ _ Hx Hk) as [_ Hs'].
    pose proof (slot_of_range num head k ltac:(lia)) as Hi.
    pose proof (entry_range _ _ _ Hs Hi).
    unfold entry_at. rewrite slice_write_disjoint; [by apply He|lia|lia].
Qed.

Lemma sync_fh_state_spec q w xs r w' :
  rep q w xs -> header_known q w -> sync_fh_state q w = (r, w') ->
  rep q w' xs /\ (r = Ok tt -> stored q w' xs).
Proof.
  intros H Hh. unfold sync_fh_state, stored. destruct (fd q) as [d|] eqn:Ed.
  2: { by intros [= <- <-]. }
  destruct (full_pwrite d _ _ w) as [r1 w1] eqn:E1.
  apply full_pwrite_spec in E1 as (k & Hk & [Hc Hrest] & Hr1); [|done].
  assert (file_rep (contents d w1) (num_entries q) (entry_size q) (queue_head q) xs) as Hf.
  { rewrite Hc. apply file_write_low; try apply H; [|done].
    change (Z.to_nat offsetof_s) with 24%nat. rewrite length_take. cbn. lia. }
  assert (rep q w1 xs) as H1.
  { destruct H; split; try done. intros d' ?. by assert (d' = d) as -> by congruence. }
  destruct r1 as [u|e]; [|by intros [= <- <-]].
  intros E2. apply q_sync_same in E2 as [Hi2 _].
  assert (forall d, contents d w' = contents d w1) as Hc2 by (intros; unfold contents; by rewrite Hi2).
  split; [by eapply rep_frame|]. intros _ d' [= <-]. rewrite Hc2. split; [done|].
  destruct (Hh d Ed) as (h & l & Hhd). rewrite Hc, Hr1, take_ge by done.
  rewrite (rp_len _ _ _ H). apply (header_update _ _ _ h l); [|done].
  destruct (rp_file _ _ _ H d Ed) as [Hl _]. destruct (rp_sizes _ _ _ H).
  unfold sizeof_file_header in *. nia.
Qed.

Lemma stored_header q w xs : stored q w xs -> header_known q w.
Proof. intros H d Hd. destruct (H d Hd) as [_ Hh]. eauto. Qed.

Lemma kept_header q q' w w' xs :
  same_shape q q' -> kept q xs w w' -> header_known q w -> header_known q' w'.
Proof.
  intros (_ & Hfd & Hn & He) Hk Hh d Ed. rewrite Hfd in Ed. rewrite Hn, He.
  unfold kept in Hk. rewrite Ed in Hk. destruct Hk as (_ & -> & _). by apply Hh.
Qed.

Lemma kept_stored q w w' xs : kept q xs w w' -> stored q w xs -> stored q w' xs.
Proof.
  intros Hk Hs d Ed. destruct (Hs d Ed) as [_ Hh]. unfold kept in Hk. rewrite Ed in Hk.
  destruct Hk as (_ & Hh' & Hf). split; [done|]. by rewrite Hh'.
Qed.

(** ** Dropping the head *)

Lemma mem_sound_drop m num head x xs :
  0 <= head < num -> mem_sound m num head (x :: xs) ->
  mem_sound (<[Z.to_nat head := None]> m) num (slot_of num head 1) xs.
Proof.
  intros Hh [Hml Hmi]. split; [by rewrite length_insert|]. intros i s Hi.
  apply list_lookup_insert_Some in Hi as [(_ & ? & _)|(Hne & Hi)]; [done|].
  apply Hmi in Hi as ([|k] & Hk & Ek).
  - rewrite slot_of_0 in Ek by done. lia.
  - exists k. split; [done|]. rewrite slot_of_S by lia. done.
Qed.

Lemma mem_complete_drop m num head x xs :
  0 <= head < num -> Z.of_nat (length xs) < num -> mem_complete m num head (x :: xs) ->
  mem_complete (<[Z.to_nat head := None]> m) num (slot_of num head 1) xs.
Proof.
  intros Hh Hlt Hc k s Hk. rewrite slot_of_S by lia.
  rewrite list_lookup_insert_ne; [by apply (Hc (S k))|].
  pose proof (slot_of_range num head (S k) ltac:(lia)). intros E.
  assert (slot_of num head 0 = slot_of num head (S k)) as E' by (rewrite slot_of_0; lia).
  apply lookup_lt_Some in Hk. apply slot_of_inj in E'; lia.
Qed.

Lemma file_rep_drop f num esz head x xs :
  0 < num -> file_rep f num esz head (x :: xs) -> file_rep f num esz (slot_of num head 1) xs.
Proof.
  intros Hn [Hl He]. split; [done|]. intros k s Hk. rewrite slot_of_S by done. by apply He.
Qed.

Lemma drop_head_spec q w x xs :
  rep q w (x :: xs) ->
  exists q', q_drop_head_memory_only q = Some (Ok tt, q') /\ rep q' w xs /\ same_shape q q' /\
    queue_head q' = slot_of (num_entries q) (queue_head q) 1.
Proof.
  intros H. pose proof (rep_num_pos _ _ _ H) as Hn. pose proof (rp_head _ _ _ H) as Hh.
  pose proof (rp_len _ _ _ H) as Hlen. pose proof (rp_fits _ _ _ H). cbn [length] in Hlen.
  unfold q_drop_head_memory_only. destruct (Z.eqb_spec (queue_length q) 0); [lia|].
  destruct (rep_mem_head _ _ _ _ H) as (o & -> & _).
  set (q1 := mem_set q (queue_head q) None).
  assert (queue_head q1 = queue_head q /\ queue_length q1 = queue_length q /\
          num_entries q1 = num_entries q) as (E1 & E2 & E3)
    by (unfold q1, mem_set; by destruct (memory q)).
  rewrite E1, E2, E3, !u64_small by (unfold two32, two64 in *; lia).
  set (h := if _ =? _ then 0 else _).
  assert (h = slot_of (num_entries q) (queue_head q) 1) as Eh.
  { unfold h, slot_of. zb.
    - replace (queue_head q + Z.of_nat 1) with (num_entries q) by lia.
      by rewrite Z_mod_same_full.
    - rewrite Z.mod_small; lia. }
  eexists. split; [done|].
  assert (0 <= h < num_entries q) as Hhr by (rewrite Eh; apply slot_of_range; lia).
  destruct H as [Hsz _ _ _ Hst Hm Hf Hs]. apply Forall_cons in Hst as [_ Hst].
  split; [|unfold same_shape, q1, mem_set; by destruct (memory q)].
  split; unfold q1, mem_set; destruct (memory q) as [m|] eqn:Em; cbn; rewrite ?Em; try done; try lia;
    rewrite Eh; try (intros d Hd; eapply file_rep_drop; [lia|by eauto]).
  - intros m' [= <-]. eapply mem_sound_drop; eauto.
  - intros Hd. eexists; split; [done|]. destruct (Hs Hd) as (m' & [= <-] & Hc).
    eapply mem_complete_drop; [done|lia|done].
  - intros Hd. by destruct (Hs Hd) as (m & ? & _).
Qed.

(** ** Looking at the head *)

Lemma until_nul_app s rest :
  Forall (fun b => b <> 0) s -> until_nul (s ++ 0 :: rest) = Some s.
Proof.
  induction 1 as [|b s Hb _ IH]; [done|]. cbn. destruct (Z.eqb_spec b 0); [done|].
  by rewrite IH.
Qed.

(** The bytes of an entry start with its string. *)
Lemma entry_read f num esz i s :
  sizes num esz -> 0 <= i < num -> Z.of_nat (length f) = (num + 1) * esz ->
  str_ok esz s -> entry_at f esz i s ->
  until_nul (slice f (Z.to_nat ((i + 1) * esz)) (Z.to_nat esz)) = Some s.
Proof.
  intros Hs Hi Hl [Hnz Hsz] He. pose proof (entry_range _ _ _ Hs Hi).
  replace (Z.to_nat esz) with ((length s + 1) + (Z.to_nat esz - (length s + 1)))%nat by lia.
  rewrite <-slice_app by lia. rewrite He, <-app_assoc. by apply until_nul_app.
Qed.

Lemma mem_sound_refresh m num head x xs :
  0 <= head < num -> mem_sound m num head (x :: xs) ->
  mem_sound (<[Z.to_nat head := Some x]> m) num head (x :: xs).
Proof.
  intros Hh [Hl Hm]. split; [by rewrite length_insert|]. intros i s Hi.
  apply list_lookup_insert_Some in Hi as [(<- & [= <-] & _)|(_ & Hi)]; [|by apply Hm].
  exists O. split; [done|]. rewrite slot_of_0 by done. lia.
Qed.

(** [q_peek] returns the head, or fails; it changes no file, and the queue at
    most in its copies. *)
Lemma peek_head_spec q w x xs :
  rep q w (x :: xs) ->
  exists r q' w', q_peek_head q w = Some (r, q', w') /\
  rep q' w' (x :: xs) /\ same_shape q q' /\ queue_head q' = queue_head q /\
  inodes w' = inodes w /\ dir w' = dir w /\ (forall s, r = Ok s -> s = x).
Proof.
  intros H. pose proof (rep_num_pos _ _ _ H) as Hn. pose proof (rp_head _ _ _ H) as Hh.
  assert (forall w1, inodes w1 = inodes w -> rep q w1 (x :: xs)) as Same.
  { intros w1 Hi. eapply rep_frame; [done|]. intros; unfold contents; by rewrite Hi. }
  assert (forall w1 r1, inodes w1 = inodes w -> dir w1 = dir w ->
    (forall s, r1 = Ok s -> s = x) ->
    exists r q' w', Some (r1, q, w1) = Some (r, q', w') /\
    rep q' w' (x :: xs) /\ same_shape q q' /\ queue_head q' = queue_head q /\
    inodes w' = inodes w /\ dir w' = dir w /\ (forall s, r = Ok s -> s = x)) as Done.
  { intros w1 r1 Hi Hd Hr. do 3 eexists. split; [done|]. split_and!; try done. by apply Same. }
  unfold q_peek_head. destruct (rep_mem_head _ _ _ _ H) as (o & -> & [->| ->]);
    [|apply Done; try done; by intros s [= <-]].
  destruct (fd q) as [d|] eqn:Ed; [|by apply Done].
  pose proof (rp_sizes _ _ _ H) as Hsz. pose proof (entry_range _ _ _ Hsz Hh) as [Ho _].
  rewrite entry_offset_exact by done.
  destruct (full_pread d _ _ w) as [r1 w1] eqn:Er.
  apply full_pread_spec in Er as (Hi & Hd & Hr); [|lia].
  destruct r1 as [b|e]; [|by apply Done].
  destruct (rp_file _ _ _ H d Ed) as [Hfl Hfe].
  pose proof (rp_strs _ _ _ H) as Hst. apply Forall_cons in Hst as [Hx _].
  assert (until_nul b = Some x) as ->.
  { rewrite Hr. apply (entry_read _ (num_entries q)); try assumption.
    rewrite <-(slot_of_0 _ _ Hh). by apply Hfe. }
  destruct (memory q) as [m|] eqn:Eq; [|apply Done; try done; by intros ? [= <-]].
  destruct (plain_call w1) as [r2 w2] eqn:Ep. apply plain_call_same in Ep as [Hi2 Hd2].
  destruct r2; [|apply Done; try congruence; by intros ? [= <-]].
  do 3 eexists. split; [reflexivity|]. unfold mem_set. rewrite Eq.
  split_and!; try done; try congruence.
  assert (rep q w2 (x :: xs)) as [] by (apply Same; congruence).
  split; try assumption; cbn; [|by rewrite Ed].
  intros m' [= <-]. apply mem_sound_refresh; auto.
Qed.

(** ** Opening *)

Lemma params_ok_sizes fl n esz : 0 <= n -> params_ok fl n esz = true -> sizes n esz.
Proof.
  unfold params_ok, sizeof_file_header, sizeof_queue. intros Hn0 H.
  apply andb_true_iff in H as [H H3]. apply andb_true_iff in H as [_ H2].
  apply negb_true_iff in H2, H3. apply orb_false_iff in H2 as [H2 E1].
  apply orb_false_iff in H2 as [H2 E2]. apply orb_false_iff in H2 as [H2 E3].
  apply orb_false_iff in H2 as [E4 E5]. apply orb_false_iff in H3 as [H3 _].
  apply orb_false_iff in H3 as [_ E6].
  apply Z.ltb_ge in E1, E2, E3, E5, E6. apply Z.eqb_neq in E4.
  split; [lia|done|].
  pose proof (Z.mul_div_le SIZE_MAX esz ltac:(lia)). nia.
Qed.

(** The fields of the header, read back from its bytes. *)
Lemma header_fields num esz head len :
  let fh := file_header_bytes num esz head len in
  slice fh 0 14 = fh_magic /\ slice fh 14 1 = [FH_VERSION_0] /\ slice fh 15 1 = [0] /\
  slice fh 16 4 = be32 (u32 num) /\ slice fh 20 4 = be32 (u32 esz) /\
  slice fh 24 4 = be32 (u32 head) /\ slice fh 28 4 = be32 (u32 len).
Proof. split_and!; reflexivity. Qed.

(** An open queue over a file that stores [xs]. *)
Lemma rep_open fl mem d num esz head xs w :
  sizes num esz -> 0 <= head < num -> Z.of_nat (length xs) <= num ->
  Forall (str_ok esz) xs ->
  (forall m, mem = Some m -> exists k, m = replicate k None /\ num <= Z.of_nat k) ->
  file_rep (contents d w) num esz head xs ->
  rep (Queue fl (Some d) mem num esz head (Z.of_nat (length xs))) w xs.
Proof.
  intros Hs Hh Hl Hst Hm Hf. split; cbn; try done.
  - intros m Em. destruct (Hm m Em) as (k & -> & Hk). split; [by rewrite length_replicate|].
    intros i s Hi. by apply lookup_replicate in Hi as [? _].
  - by intros d' [= <-].
Qed.

(** The header of a stored queue passes every check of [q_open_file], provided
    the number of entries is below UINT32_MAX. *)
Lemma open_existing_read q d num head xs w w1 :
  sizes num (entry_size q) -> num < UINT32_MAX -> 0 <= head < num ->
  Z.of_nat (length xs) <= num ->
  persisted (contents d w) num (entry_size q) head xs ->
  full_pread d 32 0 w = (Ok (slice (contents d w) 0 32), w1) ->
  q_open_existing q d (Z.of_nat (length (contents d w))) w
    = (Ok tt, adopt q d num head (Z.of_nat (length xs)), w1).
Proof.
  intros Hs Hmax Hh Hl [[Hfl _] Hhd] Hrd. pose proof Hs as [Hn He Ht].
  unfold q_open_existing. change (Z.to_nat sizeof_file_header) with 32%nat.
  rewrite Hrd, Hhd.
  destruct (header_fields num (entry_size q) head (Z.of_nat (length xs)))
    as (-> & -> & -> & -> & -> & -> & ->).
  rewrite !bool_decide_eq_true_2 by done. cbn [negb orb].
  unfold UINT32_MAX in *.
  rewrite !of_be32_be32, !u32_small by (try apply u32_range; lia).
  unfold file_size_ok. rewrite u32_small by lia. rewrite u64_small by (unfold SIZE_MAX in *; nia).
  assert (num + 1 <= SIZE_MAX / entry_size q) as Hq.
  { apply Z.div_le_lower_bound; unfold sizeof_file_header in *; nia. }
  destruct (Z.ltb_spec (SIZE_MAX / entry_size q - 1) num); [lia|].
  rewrite Hfl, Z.eqb_refl. cbn [orb negb]. unfold q_open_adopt. cbn.
  destruct (Z.leb_spec num head); [lia|].
  by destruct (Z.ltb_spec num (Z.of_nat (length xs))); [lia|].
Qed.

(** Transfers succeed when nothing goes wrong. *)
Lemma calm_pop w : script w = [] -> pop w = (Good, w).
Proof. intros E. unfold pop. by rewrite E. Qed.

Lemma calm_plain w : script w = [] -> plain_call w = (Ok tt, w).
Proof. intros E. unfold plain_call. by rewrite calm_pop. Qed.

Lemma calm_pread_loop fuel fd size off acc w :
  script w = [] -> 0 <= off -> (size <= fuel)%nat ->
  (Z.to_nat off + size <= length (contents fd w))%nat ->
  exists b, full_pread_loop fuel fd size off acc w = (Ok b, w).
Proof.
  intros Hc. revert size off acc. induction fuel as [|fuel IH]; intros size off acc Ho Hf Hl.
  { assert (size = 0)%nat as -> by lia. by eexists. }
  destruct (decide (size = 0)%nat) as [->|]; [by eexists|].
  assert (exists run, (0 < run <= size)%nat /\
    full_pread_loop (S fuel) fd size off acc w =
      match pread fd run off w with
      | (Error e, w) => (Error e, w)
      | (Ok res, w) =>
          if (length res =? 0)%nat then (Error ENXIO, w)
          else full_pread_loop fuel fd (size - length res)
                 (off + Z.of_nat (length res)) (acc ++ res) w
      end) as (run & Hrun & ->).
  { exists (if SSIZE_MAX <? Z.of_nat size then Z.to_nat SSIZE_MAX else size).
    split; [unfold SSIZE_MAX; zb; lia|]. by destruct size. }
  unfold pread. rewrite calm_pop by done. cbn [moved].
  pose proof (slice_length (contents fd w) (Z.to_nat off) run).
  destruct (Nat.eqb_spec (length (slice (contents fd w) (Z.to_nat off) run)) 0); [lia|].
  apply IH; lia.
Qed.

Lemma calm_pread fd size off w :
  script w = [] -> 0 <= off -> (Z.to_nat off + size <= length (contents fd w))%nat ->
  full_pread fd size off w = (Ok (slice (contents fd w) (Z.to_nat off) size), w).
Proof.
  intros Hc Ho Hl. destruct (calm_pread_loop size fd size off [] w) as [b E]; try done.
  unfold full_pread. rewrite E. apply full_pread_loop_spec in E as (_ & _ & -> & _); done.
Qed.

Lemma calm_pwrite_loop fuel fd buf off w :
  script w = [] -> (length buf <= fuel)%nat ->
  exists w', full_pwrite_loop fuel fd buf off w = (Ok tt, w') /\ script w' = [].
Proof.
  revert buf off w. induction fuel as [|fuel IH]; intros buf off w Hc Hf.
  { destruct buf; [|cbn in Hf; lia]. by eexists. }
  destruct buf as [|b buf]; [by eexists|].
  cbn -[SSIZE_MAX Z.ltb take drop]. unfold pwrite. rewrite calm_pop by done. cbn [moved].
  set (run := if SSIZE_MAX <? _ then _ else _).
  assert (0 < length run)%nat as Hrun.
  { unfold run. case_match; [rewrite length_take; unfold SSIZE_MAX|]; cbn; lia. }
  destruct (Nat.eqb_spec (length run) 0); [lia|].
  apply IH; [done|]. rewrite length_drop. cbn in *. lia.
Qed.

Lemma calm_q_sync q w : script w = [] -> q_sync q w = (Ok tt, w).
Proof. intros Hc. unfold q_sync. destruct (has _ _); [by apply calm_plain|done]. Qed.

Lemma calm_sync q w :
  script w = [] -> exists w', sync_fh_state q w = (Ok tt, w') /\ script w' = [].
Proof.
  intros Hc. unfold sync_fh_state, full_pwrite. destruct (fd q) as [d|]; [|by eexists].
  edestruct (calm_pwrite_loop) as (w1 & -> & Hc1); [done|reflexivity|].
  rewrite calm_q_sync by done. by eexists.
Qed.

(** The outcome of [q_append] when no call fails. *)
Definition append_result (q : queue) (xs : list bytes) (data : bytes) : result unit :=
  if decide (Z.of_nat (length xs) = num_entries q) then Error ENOSPC
  else if decide (entry_size q < Z.of_nat (length data) + 1) then Error EINVAL
  else Ok tt.

Lemma calm_append_no_sync q w xs data :
  rep q w xs -> script w = [] ->
  exists q' w', q_append_no_sync_fh_state q data w = Some (append_result q xs data, q', w') /\
    script w' = [].
Proof.
  intros H Hc. pose proof (rp_len _ _ _ H) as Hlen. pose proof (rp_fits _ _ _ H).
  unfold q_append_no_sync_fh_state, append_result. rewrite (append_index _ _ _ H).
  destruct (Z.eqb_spec (queue_length q) (num_entries q)).
  { do 2 eexists. split; [|done]. by rewrite decide_True by lia. }
  rewrite decide_False by lia.
  destruct (Z.ltb_spec (entry_size q) (Z.of_nat (length data) + 1)).
  { do 2 eexists. split; [|done]. by rewrite decide_True by lia. }
  rewrite decide_False by lia.
  rewrite (rep_mem_free _ _ _ H) by lia.
  assert ((if memory q is Some _ then plain_call w else (Ok tt, w)) = (Ok tt, w)) as ->
    by (destruct (memory q); [by apply calm_plain|done]).
  assert (exists w1, (match fd q with
           | Some d => full_pwrite d (data ++ [0])
               (entry_offset q (slot_of (num_entries q) (queue_head q) (length xs))) w
           | None => (Ok tt, w) end) = (Ok tt, w1) /\ script w1 = []) as (w1 & -> & Hc1).
  { destruct (fd q) as [d|]; [|by eexists]. by apply calm_pwrite_loop. }
  by do 2 eexists.
Qed.

Lemma calm_append q w xs data :
  rep q w xs -> script w = [] ->
  exists q' w', q_append q data w = Some (append_result q xs data, q', w') /\ script w' = [].
Proof.
  intros H Hc. unfold q_append.
  destruct (calm_append_no_sync q w xs data H Hc) as (q1 & w1 & -> & Hc1).
  destruct (append_result q xs data) as [[]|e]; [|by do 2 eexists].
  destruct (calm_sync q1 w1 Hc1) as (w2 & -> & Hc2). by do 2 eexists.
Qed.

Lemma calm_peek q w xs size :
  rep q w xs -> script w = [] ->
  exists q' w', q_peek q size w =
    Some (match xs with
          | [] => Ok None
          | x :: _ => if decide (size < Z.of_nat (length x) + 1) then Error ERANGE
                      else Ok (Some x)
          end, q', w') /\ script w' = [].
Proof.
  intros H Hc. pose proof (rp_len _ _ _ H) as Hlen. unfold q_peek.
  destruct xs as [|x xs].
  { cbn in Hlen. rewrite Hlen. by do 2 eexists. }
  destruct (Z.eqb_spec (queue_length q) 0) as [E|_]; [cbn in Hlen; lia|].
  assert (exists s q' w', q_peek_head q w = Some (Ok s, q', w') /\ script w' = [])
    as (s & q1 & w1 & E & Hc1).
  { unfold q_peek_head. destruct (rep_mem_head _ _ _ _ H) as (o & Eo & Ho). rewrite Eo.
    destruct Ho as [->| ->]; [|by do 3 eexists]. destruct (fd q) as [d|] eqn:Ed.
    - pose proof (rp_sizes _ _ _ H) as Hsz. pose proof (rp_head _ _ _ H) as Hh.
      pose proof (entry_range _ _ _ Hsz Hh). destruct (rp_file _ _ _ H d Ed) as [Hfl Hfe].
      rewrite entry_offset_exact by done. rewrite calm_pread by (done || lia).
      pose proof (rp_strs _ _ _ H) as Hst. apply Forall_cons in Hst as [Hx _].
      rewrite (entry_read _ (num_entries q) _ _ x); try assumption.
      + destruct (memory q); [rewrite calm_plain by done|]; by do 3 eexists.
      + rewrite <-(slot_of_0 _ _ Hh). by apply Hfe.
    - destruct (rp_store _ _ _ H Ed) as (m & Em' & Hcm). exfalso.
      specialize (Hcm O x eq_refl). rewrite slot_of_0 in Hcm by apply H.
      unfold mem_get in Eo. rewrite Em', Hcm in Eo. done. }
  destruct (peek_head_spec _ _ _ _ H) as (r' & q' & w' & E' & _ & _ & _ & _ & _ & Hs).
  rewrite E in E'. injection E' as <- <- <-. rewrite E, (Hs s eq_refl).
  do 2 eexists. split; [|done]. case_decide; zb; try lia; done.
Qed.

(** ** Resizing *)

(** Nothing happens to inode [d] and the name [path]. *)
Definition untouched (d : Z) (path : string) (w w' : os) : Prop :=
  inodes w' !! d = inodes w !! d /\ dir w' !! path = dir w !! path.

Lemma untouched_refl d path w : untouched d path w w.
Proof. done. Qed.

Lemma untouched_trans d path w1 w2 w3 :
  untouched d path w1 w2 -> untouched d path w2 w3 -> untouched d path w1 w3.
Proof. intros [] []. split; congruence. Qed.

Lemma untouched_same d path w w' :
  inodes w' = inodes w -> dir w' = dir w -> untouched d path w w'.
Proof. intros Hi Hd. unfold untouched. by rewrite Hi, Hd. Qed.

Lemma untouched_only d d2 path f w w' :
  d <> d2 -> only d2 f w w' -> untouched d path w w'.
Proof. intros Hne (_ & Hd & Hi). split; [by apply Hi|by rewrite Hd]. Qed.

Lemma untouched_contents d path w w' : untouched d path w w' -> contents d w' = contents d w.
Proof. intros [Hi _]. unfold contents. by rewrite Hi. Qed.

Lemma close_same q w w' :
  q_close q w = Some w' -> inodes w' = inodes w /\ dir w' = dir w.
Proof.
  intros H. assert (w' = close_fd q w) as ->
    by (unfold q_close in H; repeat case_match; congruence).
  unfold close_fd. destruct (fd q); [|done].
  destruct (plain_call w) as [r w1] eqn:E. by apply plain_call_same in E.
Qed.

Lemma untouched_unlink d path tmp w w' :
  tmp <> path -> untouched d path w w' -> untouched d path w (snd (unlink tmp w')).
Proof.
  intros Hne H. eapply untouched_trans; [done|]. unfold unlink.
  destruct (pop w') as [o w1] eqn:E. apply pop_cases in E as [Hi Hd].
  assert (untouched d path w' w1) as H1 by by apply untouched_same.
  destruct o; cbn; [|done|]; destruct (dir w1 !! tmp); cbn; try done;
    (eapply untouched_trans; [done|]); split; cbn; try done; by rewrite lookup_delete_ne.
Qed.

Lemma copy_loop_spec fuel esize q q2 w d d2 path todo moved :
  rep q w todo -> rep q2 w moved -> fd q = Some d -> fd q2 = Some d2 -> d <> d2 ->
  header_known q2 w -> (length todo <= fuel)%nat ->
  exists r q' q2' w', copy_loop fuel esize q q2 w = Some (r, q', q2', w') /\
  untouched d path w w' /\ dir w' = dir w /\ same_shape q2 q2' /\
  (exists todo', rep q' w' todo') /\ (exists moved', rep q2' w' moved') /\
  (r = Ok tt -> rep q2' w' (moved ++ todo) /\ header_known q2' w').
Proof.
  revert q q2 w todo moved. induction fuel as [|fuel IH];
    intros q q2 w todo moved H H2 Ed Ed2 Hne Hh Hf; cbn [copy_loop];
    unfold q_peek; rewrite (rp_len _ _ _ H);
    (destruct todo as [|x todo];
     [do 4 eexists; split; [reflexivity|]; rewrite app_nil_r; split_and!; eauto; done|]);
     [cbn in Hf; lia|].
  destruct (Z.eqb_spec (Z.of_nat (length (x :: todo))) 0); [cbn in *; lia|].
  destruct (peek_head_spec _ _ _ _ H)
    as (r1 & q1 & w1 & -> & H1 & (_ & Hfd & _) & _ & Hi & Hd & Hr).
  assert (untouched d path w w1) as U1 by by apply untouched_same.
  assert (forall d, contents d w1 = contents d w) as Hcw by (intros; unfold contents; by rewrite Hi).
  assert (rep q2 w1 moved) as H21 by by eapply rep_frame.
  destruct r1 as [s|e]; [|do 4 eexists; split; [done|]; split_and!; eauto; done].
  rewrite (Hr s eq_refl).
  destruct (esize <? _); [do 4 eexists; split; [done|]; split_and!; eauto; done|].
  pose proof (rp_strs _ _ _ H1) as Hst. apply Forall_cons in Hst as [[Hnz _] _].
  destruct (append_no_sync_spec _ _ _ _ H21 Hnz) as (r2 & q3 & w2 & -> & Hk & Hr2).
  assert (header_known q2 w1) as Hh1 by (intros d' Ed'; rewrite Hcw; by apply Hh).
  pose proof Hk as Hk'. unfold kept in Hk'. rewrite Ed2 in Hk'. destruct Hk' as ((f & Hon) & _).
  assert (untouched d path w w2) as U2
    by (eapply untouched_trans; [exact U1|]; by eapply untouched_only).
  assert (dir w2 = dir w) as D2 by (destruct Hon as (_ & -> & _); done).
  assert (rep q1 w2 (x :: todo)) as H1'.
  { eapply rep_frame; [exact H1|]. intros d' Ed'. rewrite Hfd in Ed'.
    assert (d' = d) as -> by congruence. rewrite Hcw. by eapply untouched_contents. }
  destruct r2 as [u|e].
  2: { subst q3. pose proof (kept_rep _ _ _ _ H21 Hk).
       do 4 eexists; split; [done|]; split_and!; eauto; done. }
  destruct Hr2 as (H3 & Hsh & _).
  destruct (drop_head_spec _ _ _ _ H1') as (q4 & -> & H4 & (_ & Hfd4 & _) & _).
  destruct (IH q4 q3 w2 todo (moved ++ [x])) as (r & q' & q2' & w' & E & U3 & D3 & F3 & T & M & R3);
    try done.
  - congruence.
  - destruct Hsh as (_ & -> & _). done.
  - by eapply kept_header.
  - cbn in Hf. lia.
  - exists r, q', q2', w'. split; [done|]. rewrite <-app_assoc in R3.
    split_and!; try done;
      [by eapply untouched_trans|congruence|by eapply same_shape_trans].
Qed.

(** Flags are single bits. *)
Lemma has_testbit x k : 0 <= k -> has x (2 ^ k) = Z.testbit x k.
Proof.
  intros Hk. unfold has. destruct (Z.testbit x k) eqn:E.
  - apply negb_true_iff, Z.eqb_neq. intros E0.
    assert (Z.testbit (Z.land x (2 ^ k)) k = false) as E1 by (rewrite E0; apply Z.bits_0).
    rewrite Z.land_spec, E, Z.pow2_bits_true in E1 by done. done.
  - apply negb_false_iff, Z.eqb_eq. apply Z.bits_inj'. intros i Hi.
    rewrite Z.land_spec, Z.bits_0. destruct (decide (i = k)) as [->|Hne]; [by rewrite E|].
    rewrite (Z.pow2_bits_false k i) by done. apply andb_false_r.
Qed.

Lemma creat_excl_set fl :
  let fl' := Z.lor fl (Z.lor Q_CREAT Q_EXCL) in
  has fl' Q_CREAT = true /\ has fl' Q_EXCL = true /\ has fl' Q_IN_FILE = has fl Q_IN_FILE.
Proof.
  change Q_CREAT with (2 ^ 2). change Q_EXCL with (2 ^ 3). change Q_IN_FILE with (2 ^ 1).
  cbn zeta. rewrite !has_testbit, !Z.lor_spec by lia. cbn. by rewrite !orb_true_r, orb_false_r.
Qed.

(** A new file gets the header, and its entries are free. *)
Lemma open_new_spec stale q d w r q' w' :
  sizes (num_entries q) (entry_size q) -> contents d w = [] ->
  (forall m, memory q = Some m ->
     exists k, m = replicate k None /\ num_entries q <= Z.of_nat k) ->
  q_open_new true stale q d w = (r, q', w') ->
  (exists f, only d f w w') /\ fd q' = Some d /\
  (r = Ok tt -> num_entries q' = num_entries q /\ entry_size q' = entry_size q /\
     rep q' w' [] /\ stored q' w' []).
Proof.
  intros Hs Hc Hm. pose proof Hs as [Hn He Ht]. unfold q_open_new.
  destruct (full_pwrite d _ 0 w) as [r1 w1] eqn:E1.
  apply full_pwrite_spec in E1 as (k & Hk & Hon & Hr); [|done].
  destruct r1 as [u|e]; [|intros [= <- <- <-]; split_and!; try done; by eexists].
  rewrite Hr, take_ge, Hc in Hon by done. change (Z.to_nat 0) with O in Hon.
  set (hdr := file_header_bytes (num_entries q) (entry_size q) 0 0) in *.
  assert (write_at [] 0 hdr = hdr) as Hw by reflexivity. rewrite Hw in Hon.
  destruct (q_sync q w1) as [r2 w2] eqn:E2. apply q_sync_same in E2 as [Hi2 Hd2].
  assert (only d hdr w w2) as Hon2.
  { destruct Hon as (Hc1 & Hd1 & Ho1). split_and!; [|congruence|].
    - unfold contents. rewrite Hi2. exact Hc1.
    - intros i Hi. rewrite Hi2. by apply Ho1. }
  destruct r2 as [u2|e]; [|intros [= <- <- <-]; split_and!; try done; by eexists].
  unfold posix_fallocate. rewrite u64_small by (unfold SIZE_MAX, sizeof_file_header in *; nia).
  destruct (pop w2) as [o w3] eqn:E3. apply pop_cases in E3 as [Hi3 Hd3].
  assert (contents d w3 = hdr) as Hc3 by (unfold contents; rewrite Hi3; apply Hon2).
  set (f := hdr ++ replicate (Z.to_nat ((num_entries q + 1) * entry_size q) - length hdr) 0).
  assert (only d f w (set_contents d f w3)) as Hon3.
  { destruct Hon2 as (_ & Hdw & How). split_and!; cbn.
    - unfold contents. cbn. by rewrite lookup_insert_eq.
    - congruence.
    - intros i Hi. rewrite lookup_insert_ne, Hi3 by done. by apply How. }
  assert (file_rep f (num_entries q) (entry_size q) 0 []) as Hf.
  { split; [|done]. unfold f. rewrite length_app, length_replicate.
    change (length hdr) with 32%nat. unfold sizeof_file_header in *. nia. }
  assert (persisted f (num_entries q) (entry_size q) 0 []) as Hp by (by split).
  rewrite ?Hc3. fold f. clearbody f hdr. destruct o.
  2: { intros [= <- <- <-]. split_and!; try done. exists hdr. destruct Hon2 as (? & ? & Ho).
       split_and!; [|congruence|intros; rewrite Hi3; by apply Ho].
       unfold contents. by rewrite Hi3. }
  all: unfold q_open_adopt; cbn; rewrite (u32_small (num_entries q)) by (unfold UINT32_MAX in *; lia);
    destruct (Z.leb_spec (num_entries q) 0); [lia|];
    destruct (Z.ltb_spec (num_entries q) 0); [lia|]; intros [= <- <- <-];
    (split; [by exists f|]); (split; [done|]); intros _; (split_and!; [done..| |]).
  1,3: apply (rep_open _ _ _ _ _ 0 []); cbn; try done; try lia;
    by rewrite (proj1 Hon3).
  all: intros d' [= <-]; cbn; by rewrite (proj1 Hon3).
Qed.

(** ** Opening a stored queue *)

(** What is known of a file that stores a queue, and can be opened again. *)
Record stored_file (w : os) (path : string) (d num esz head : Z) (xs : list bytes)
    : Prop := StoredFile {
  sf_name : dir w !! path = Some d;
  sf_sizes : sizes num esz;
  sf_max : num < UINT32_MAX;
  sf_head : 0 <= head < num;
  sf_fits : Z.of_nat (length xs) <= num;
  sf_strs : Forall (str_ok esz) xs;
  sf_file : persisted (contents d w) num esz head xs;
}.

Lemma stored_file_nonempty w path d num esz head xs :
  stored_file w path d num esz head xs -> exists f, inodes w !! d = Some f /\ f <> [].
Proof.
  intros [_ [Hn He _] _ _ _ _ [[Hl _] _]]. unfold contents, sizeof_file_header in *.
  destruct (inodes w !! d) as [f|]; cbn in Hl; [|nia].
  exists f. split; [done|]. intros ->. cbn in Hl. nia.
Qed.

Lemma stored_file_same w w' path d num esz head xs :
  inodes w' = inodes w -> dir w' = dir w ->
  stored_file w path d num esz head xs -> stored_file w' path d num esz head xs.
Proof.
  intros Hi Hd []. split; try assumption; [by rewrite Hd|].
  unfold contents in *. by rewrite Hi.
Qed.

(** Step over a call without effect on the files. *)
Ltac plain_step E :=
  match goal with
  | |- context [ plain_call ?w ] =>
      let r := fresh "r" in let w' := fresh "w" in
      destruct (plain_call w) as [r w'] eqn:E; let Hi := fresh "Hi" in let Hd := fresh "Hd" in
      apply plain_call_same in E as [Hi Hd]; destruct r
  end.

Lemma open_file_existing hpf stale q path w d num head xs r q' w' :
  stored_file w path d num (entry_size q) head xs ->
  has (flags q) Q_CREAT && has (flags q) Q_EXCL = false ->
  q_open_file hpf stale q path w = (r, q', w') ->
  inodes w' = inodes w /\ dir w' = dir w /\
  (r = Ok tt -> q' = adopt q d num head (Z.of_nat (length xs))).
Proof.
  intros H Hfl. unfold q_open_file, open.
  destruct (pop w) as [o w1] eqn:Eo. apply pop_cases in Eo as [Hi Hd].
  assert (match o with Err e => (Error e, w1) | _ => (Ok d, w1) end =
    match o with Err e => (Error e, w1) | _ =>
      match dir w1 !! path with
      | Some ino => if has (flags q) Q_CREAT && has (flags q) Q_EXCL
                    then (Error EEXIST, w1) else (Ok ino, w1)
      | None => if has (flags q) Q_CREAT
          then (Ok (fresh (dom (inodes w1))),
                OS (<[fresh (dom (inodes w1)):=[]]> (inodes w1))
                   (<[path:=fresh (dom (inodes w1))]> (dir w1)) (script w1))
          else (Error ENOENT, w1) end end) as <-.
  { rewrite Hd, (sf_name _ _ _ _ _ _ _ H), Hfl. by destruct o. }
  destruct o; [|by intros [= <- <- <-]|].
  all: do 3 (plain_step E; [|intros [= <- <- <-]; split_and!; congruence]).
  all: unfold fstat; match goal with |- context [ pop ?w ] =>
    destruct (pop w) as [o2 w5] eqn:E2; apply pop_cases in E2 as [? ?] end;
    assert (inodes w5 = inodes w) as Hi5 by congruence;
    assert (dir w5 = dir w) as Hd5 by congruence;
    assert (stored_file w5 path d num (entry_size q) head xs) as Hsf
      by (by eapply stored_file_same);
    destruct o2; [|intros [= <- <- <-]; by split_and!|].
  all: pose proof Hsf as [_ Hsz Hmx Hh Hf _ Hp]; pose proof Hsz as [? ? ?]; pose proof Hp as [[Hl _] _];
    destruct (Z.eqb_spec (Z.of_nat (length (contents d w5))) 0);
    [unfold sizeof_file_header in *; nia|].
  all: destruct (full_pread d 32 0 w5) as [r6 w6] eqn:Er;
    pose proof Er as Er'; apply full_pread_spec in Er' as (Hi6 & Hd6 & Hr6); [|done].
  all: destruct r6 as [b|e];
    [subst b; rewrite (open_existing_read _ _ _ _ _ _ _ Hsz Hmx Hh Hf Hp Er);
     intros [= <- <- <-]; split_and!; [congruence..|done]
    |unfold q_open_existing; change (Z.to_nat sizeof_file_header) with 32%nat; rewrite Er;
     intros [= <- <- <-]; split_and!; congruence].
Qed.

Lemma params_num_pos fl n esz : params_ok fl n esz = true -> n <> 0.
Proof. intros H ->. unfold params_ok in H. by rewrite andb_false_r in H. Qed.

Lemma open_no_resize_existing stale fl path n esz w d num head xs r w' :
  stored_file w path d num esz head xs -> has fl Q_IN_FILE = true ->
  has fl Q_CREAT && has fl Q_EXCL = false -> 0 <= n ->
  has fl Q_IN_MEMORY = false \/ num <= n ->
  q_open_no_resize true stale fl path n esz w = (r, w') ->
  inodes w' = inodes w /\ dir w' = dir w /\
  (forall q, r = Ok q -> rep q w' xs /\ stored q w' xs /\ num_entries q = num /\
     entry_size q = esz /\ fd q = Some d /\ flags q = fl).
Proof.
  intros H Hfile Hce Hn0 Hm. unfold q_open_no_resize.
  destruct (params_ok fl n esz) eqn:Ep; cbn [negb]; [|by intros [= <- <-]].
  plain_step E; [|by intros [= <- <-]]. rewrite Hfile.
  set (q0 mem := Queue fl None mem n esz 0 0).
  assert (forall mem w1, inodes w1 = inodes w -> dir w1 = dir w ->
    (forall m, mem = Some m -> exists k, m = replicate k None /\ num <= Z.of_nat k) ->
    match q_open_file true stale (q0 mem) path w1 with
    | (Error e, q, w) => (Error e, close_fd q w)
    | (Ok _, q, w) => (Ok q, w) end = (r, w') ->
    inodes w' = inodes w /\ dir w' = dir w /\
    (forall q, r = Ok q -> rep q w' xs /\ stored q w' xs /\ num_entries q = num /\
       entry_size q = esz /\ fd q = Some d /\ flags q = fl)) as Rest.
  { intros mem w1 Hi1 Hd1 Hmem. destruct (q_open_file _ _ _ _ _) as [[r1 q1] w2] eqn:Eo.
    pose proof (stored_file_same _ _ _ _ _ _ _ _ Hi1 Hd1 H) as Hsf.
    assert (has (flags (q0 mem)) Q_CREAT && has (flags (q0 mem)) Q_EXCL = false) as Hce' by done.
    destruct (open_file_existing _ _ (q0 mem) _ _ _ _ _ _ _ _ _ Hsf Hce' Eo) as (Hi2 & Hd2 & Hok).
    destruct r1 as [[]|e].
    - rewrite (Hok eq_refl). intros [= <- <-]. split_and!; [congruence..|].
      assert (stored_file w2 path d num esz head xs) as [] by (eapply stored_file_same; [..|exact H]; congruence).
      intros q [= <-]. split_and!; try done; [apply rep_open; try assumption; apply sf_file0|].
      by intros d' [= <-].
    - intros [= <- <-]. assert (close_fd q1 w2 = w2 \/ exists r w3, plain_call w2 = (r, w3) /\
        close_fd q1 w2 = w3) as [->|(r3 & w3 & E3 & ->)].
      { unfold close_fd. destruct (fd q1); [right|by left].
        destruct (plain_call w2) as [r3 w3]. by exists r3, w3. }
      + split_and!; [congruence..|done].
      + apply plain_call_same in E3 as [? ?]. split_and!; [congruence..|done]. }
  destruct (has fl Q_IN_MEMORY) eqn:Emem.
  - plain_step E3; [|intros [= <- <-]; split_and!; cbn; [congruence..|done]].
    apply Rest; [congruence..|]. intros m [= <-]. destruct Hm as [|Hm]; [done|].
    exists (Z.to_nat n). split; [done|lia].
  - apply Rest; [done..|]. intros m. done.
Qed.

(** Without faults the file is opened. *)
Lemma calm_open_existing stale fl path n esz w d num head xs :
  script w = [] -> stored_file w path d num esz head xs -> has fl Q_IN_FILE = true ->
  has fl Q_CREAT && has fl Q_EXCL = false -> params_ok fl n esz = true ->
  exists q, q_open_no_resize true stale fl path n esz w = (Ok q, w).
Proof.
  intros Hc H Hf Hce Hp. unfold q_open_no_resize. rewrite Hp, calm_plain by done. cbn [negb].
  assert (forall mem, exists q, q_open_file true stale (Queue fl None mem n esz 0 0) path w
    = (Ok tt, q, w)) as Hopen.
  { intros mem. unfold q_open_file, open, fstat. cbn [flags]. rewrite calm_pop by done.
    rewrite (sf_name _ _ _ _ _ _ _ H), Hce, !calm_plain, calm_pop by done.
    destruct H as [_ Hsz Hmx Hh Hfit _ Hfile]. pose proof Hsz as [? ? ?].
    pose proof Hfile as [[Hl _] _].
    destruct (Z.eqb_spec (Z.of_nat (length (contents d w))) 0);
      [unfold sizeof_file_header in *; nia|].
    eexists. eapply (open_existing_read (Queue fl None mem n esz 0 0)); try done.
    apply calm_pread; [done..|]. unfold sizeof_file_header in *. cbn. nia. }
  rewrite Hf. destruct (has fl Q_IN_MEMORY).
  - rewrite calm_plain by done. destruct (Hopen (Some (replicate (Z.to_nat n) None))) as [q ->].
    by exists q.
  - destruct (Hopen None) as [q ->]. by exists q.
Qed.

(** ** Opening a new file *)

(** [open] with O_CREAT | O_EXCL of a free name makes a new empty inode. *)
Lemma open_creates tmp w r w' d f path :
  dir w !! tmp = None -> inodes w !! d = Some f -> path <> tmp ->
  open tmp true true w = (r, w') ->
  untouched d path w w' /\
  (forall d2, r = Ok d2 -> d2 <> d /\ contents d2 w' = [] /\ dir w' !! tmp = Some d2).
Proof.
  intros Htmp Hd Hp. unfold open. destruct (pop w) as [o w1] eqn:Eo.
  apply pop_cases in Eo as [Hi1 Hd1].
  assert (fresh (dom (inodes w1) : gset Z) <> d) as Hfr.
  { intros E. apply (is_fresh (dom (inodes w1) : gset Z)). rewrite E, Hi1.
    apply elem_of_dom. eauto. }
  destruct o; [|intros [= <- <-]; by split; [apply untouched_same|]|].
  all: rewrite Hd1, Htmp; cbn [andb]; intros [= <- <-]; split;
    [split; cbn; [by rewrite lookup_insert_ne, Hi1|by rewrite lookup_insert_ne]|].
  all: intros d2 [= <-]; split_and!; [done| |cbn; apply lookup_insert_eq];
    unfold contents; cbn; by rewrite lookup_insert_eq.
Qed.

Lemma only_after d f w w1 w2 :
  inodes w1 = inodes w -> dir w1 = dir w -> only d f w1 w2 -> only d f w w2.
Proof. intros Hi Hd. unfold only. by rewrite Hi, Hd. Qed.

Lemma open_file_fresh stale q tmp w d f path r q' w' :
  sizes (num_entries q) (entry_size q) -> fd q = None ->
  (forall m, memory q = Some m ->
     exists k, m = replicate k None /\ num_entries q <= Z.of_nat k) ->
  has (flags q) Q_CREAT = true -> has (flags q) Q_EXCL = true ->
  dir w !! tmp = None -> inodes w !! d = Some f -> path <> tmp ->
  q_open_file true stale q tmp w = (r, q', w') ->
  untouched d path w w' /\
  (r = Ok tt -> num_entries q' = num_entries q /\ entry_size q' = entry_size q /\
     rep q' w' [] /\ stored q' w' [] /\
     exists d2, fd q' = Some d2 /\ d2 <> d /\ dir w' !! tmp = Some d2).
Proof.
  intros Hs Hfd Hm Hc He Htmp Hd Hp. unfold q_open_file. rewrite Hc, He.
  destruct (open tmp true true w) as [r1 w1] eqn:Eo.
  apply (open_creates _ _ _ _ _ _ _ Htmp Hd Hp) in Eo as [U1 Hok].
  destruct r1 as [d2|e]; [|by intros [= <- <- <-]].
  destruct (Hok d2 eq_refl) as (Hne & Hc2 & Ht2). clear Hok.
  assert (forall w2, inodes w2 = inodes w1 -> dir w2 = dir w1 -> untouched d path w w2) as U.
  { intros w2 Hi Hd'. eapply untouched_trans; [exact U1|]. by apply untouched_same. }
  do 3 (plain_step E; [|intros [= <- <- <-]; split; [apply U; congruence|done]]).
  unfold fstat. match goal with |- context [ pop ?w ] =>
    destruct (pop w) as [o2 w5] eqn:E2; apply pop_cases in E2 as [? ?] end.
  assert (inodes w5 = inodes w1) as Hi5 by congruence.
  assert (dir w5 = dir w1) as Hd5 by congruence.
  assert (contents d2 w5 = []) as Hc5 by (unfold contents in *; by rewrite Hi5).
  destruct o2; [|intros [= <- <- <-]; split; [by apply U|done]|]; rewrite Hc5; cbn [length];
    change (Z.of_nat 0 =? 0) with true; cbv iota; intros E6;
    apply (open_new_spec _ _ _ _ _ _ _ Hs Hc5 Hm) in E6 as ((f6 & Hon) & Hfd6 & Hr6);
    (split; [eapply untouched_trans; [by apply U|]; by eapply untouched_only|]);
    intros Hr; destruct (Hr6 Hr) as (? & ? & ? & ?); split_and!; try assumption;
    exists d2; split_and!; try done; destruct Hon as (_ & -> & _); by rewrite Hd5.
Qed.

Lemma open_no_resize_fresh stale fl tmp n esz w d f path r w' :
  0 <= n -> has fl Q_IN_FILE = true -> has fl Q_CREAT = true -> has fl Q_EXCL = true ->
  dir w !! tmp = None -> inodes w !! d = Some f -> path <> tmp ->
  q_open_no_resize true stale fl tmp n esz w = (r, w') ->
  untouched d path w w' /\
  (forall q, r = Ok q -> num_entries q = n /\ entry_size q = esz /\
     rep q w' [] /\ stored q w' [] /\
     exists d2, fd q = Some d2 /\ d2 <> d /\ dir w' !! tmp = Some d2).
Proof.
  intros Hn Hf Hc He Htmp Hd Hp. unfold q_open_no_resize.
  destruct (params_ok fl n esz) eqn:Ep; cbn [negb];
    [|intros [= <- <-]; by split; [apply untouched_refl|]].
  pose proof (params_ok_sizes _ _ _ Hn Ep) as Hs.
  plain_step E; [|intros [= <- <-]; by split; [apply untouched_same|]]. rewrite Hf.
  assert (forall mem w1, inodes w1 = inodes w -> dir w1 = dir w ->
    (forall m, mem = Some m -> exists k, m = replicate k None /\ n <= Z.of_nat k) ->
    match q_open_file true stale (Queue fl None mem n esz 0 0) tmp w1 with
    | (Error e, q, w) => (Error e, close_fd q w)
    | (Ok _, q, w) => (Ok q, w) end = (r, w') ->
    untouched d path w w' /\
    (forall q, r = Ok q -> num_entries q = n /\ entry_size q = esz /\
       rep q w' [] /\ stored q w' [] /\
       exists d2, fd q = Some d2 /\ d2 <> d /\ dir w' !! tmp = Some d2)) as Rest.
  { intros mem w1 Hi1 Hd1 Hmem. destruct (q_open_file _ _ _ _ _) as [[r1 q1] w2] eqn:Eo.
    apply (open_file_fresh _ _ _ _ d f path) in Eo as [U Hok]; try done; try congruence.
    assert (untouched d path w w2) as U2
      by (eapply untouched_trans; [by apply untouched_same|exact U]).
    destruct r1 as [[]|e].
    - intros [= <- <-]. split; [done|]. intros q [= <-]. by apply Hok.
    - intros [= <- <-]. split; [|done]. unfold close_fd. destruct (fd q1); [|done].
      destruct (plain_call w2) as [r3 w3] eqn:E3. apply plain_call_same in E3 as [? ?].
      eapply untouched_trans; [exact U2|]. by apply untouched_same. }
  destruct (has fl Q_IN_MEMORY).
  - plain_step E3; [|intros [= <- <-]; split; [apply untouched_same; cbn; congruence|done]].
    apply Rest; [congruence..|]. intros m [= <-].
    exists (Z.to_nat n). split; [done|lia].
  - apply Rest; [done..|]. intros m. done.
Qed.

(** ** Resizing, as a whole *)

Lemma rep_close q w xs w0 d path :
  rep q w0 xs -> exists w', q_close q w = Some w' /\ untouched d path w w' /\
    inodes w' = inodes w /\ dir w' = dir w.
Proof.
  intros H. assert (q_close q w = Some (close_fd q w)) as E.
  { unfold q_close. destruct (memory q) as [m|] eqn:Em; [|done].
    destruct (rp_mem _ _ _ H _ Em) as [Hl _]. by destruct (Z.leb_spec (num_entries q) (Z.of_nat (length m))); [|lia]. }
  eexists. split; [exact E|]. apply close_same in E as [? ?].
  split; [by apply untouched_same|done].
Qed.

(** The old queue is left alone when resizing fails. *)
Lemma fail_close_spec e q w w0 xs d path wi :
  rep q w0 xs -> untouched d path wi w ->
  exists w', fail_close e q w = Some (Error e, w') /\ untouched d path wi w'.
Proof.
  intros H U. destruct (rep_close q w xs w0 d path H) as (w' & E & U' & _).
  unfold fail_close. rewrite E. eexists. split; [done|]. by eapply untouched_trans.
Qed.

Lemma fail_q2_spec e tmp q q2 w w0 w1 xs ys d path wi :
  rep q w0 xs -> rep q2 w1 ys -> tmp <> path -> untouched d path wi w ->
  exists w', fail_q2 e tmp q q2 w = Some (Error e, w') /\ untouched d path wi w'.
Proof.
  intros H H2 Hne U. destruct (rep_close q2 w ys w1 d path H2) as (w2 & E & U' & _).
  unfold fail_q2. rewrite E. eapply fail_close_spec; [done|].
  apply untouched_unlink; [done|]. by eapply untouched_trans.
Qed.

(** The result of resizing: either the new queue is in place and holds the
    same strings, or the old file and its name are untouched. *)
Definition resized (d : Z) (path : string) (n : Z) (xs : list bytes) (wi : os)
    (o : option (result queue * os)) : Prop :=
  exists r w', o = Some (r, w') /\
  match r with
  | Ok q => rep q w' xs /\ stored q w' xs /\ num_entries q = n /\
            (exists d2, fd q = Some d2 /\ dir w' !! path = Some d2)
  | Error _ => untouched d path wi w'
  end.

Lemma resized_fail_close e q w w0 xs d path n ys wi :
  rep q w0 xs -> untouched d path wi w -> resized d path n ys wi (fail_close e q w).
Proof.
  intros H U. destruct (fail_close_spec e q w w0 xs d path wi H U) as (w' & -> & U').
  by do 2 eexists.
Qed.

Lemma resized_fail_q2 e tmp q q2 w w0 w1 xs ys zs d path n wi :
  rep q w0 xs -> rep q2 w1 ys -> tmp <> path -> untouched d path wi w ->
  resized d path n zs wi (fail_q2 e tmp q q2 w).
Proof.
  intros H H2 Hne U.
  destruct (fail_q2_spec e tmp q q2 w w0 w1 xs ys d path wi H H2 Hne U) as (w' & -> & U').
  by do 2 eexists.
Qed.

Lemma open_fill_spec path tmp n esz q q2 w d d2 xs wi :
  rep q w xs -> fd q = Some d -> rep q2 w [] -> stored q2 w [] -> fd q2 = Some d2 ->
  d2 <> d -> num_entries q2 = n -> dir w !! tmp = Some d2 -> tmp <> path ->
  untouched d path wi w ->
  resized d path n xs wi (q_open_fill path tmp n esz q q2 w).
Proof.
  intros H Hfd H2 Hst2 Hfd2 Hne Hn Htmp Hp U.
  unfold q_open_fill. rewrite Hn, Z.eqb_refl. cbn [negb].
  destruct (copy_loop_spec (Z.to_nat (queue_length q)) esz q q2 w d d2 path xs [])
    as (r & q' & q2' & w1 & -> & U1 & D1 & Sh & (todo & T1) & (mv & M1) & Hok);
    try done; [by eapply stored_header|rewrite (rp_len _ _ _ H); lia|].
  assert (untouched d path wi w1) as U1' by by eapply untouched_trans.
  assert (fd q2' = Some d2) as F1 by (destruct Sh as (_ & -> & _); done).
  destruct r as [[]|e]; [|by eapply resized_fail_q2].
  destruct (Hok eq_refl) as [H3 Hh3]. cbn [app] in H3.
  destruct (sync_fh_state q2' w1) as [r2 w2] eqn:Es.
  pose proof (sync_fh_state_spec _ _ _ _ _ H3 Hh3 Es) as [H4 Hst4].
  assert (untouched d path wi w2 /\ dir w2 = dir w1) as [U2 D2].
  { unfold sync_fh_state in Es. rewrite F1 in Es.
    destruct (full_pwrite d2 _ _ w1) as [r0 wx] eqn:Ew.
    apply full_pwrite_spec in Ew as (k & _ & Hon & _); [|done].
    assert (untouched d path wi wx) as Ux
      by (eapply untouched_trans; [exact U1'|]; by eapply untouched_only).
    destruct Hon as (_ & Dx & _).
    destruct r0; [|by injection Es as _ <-].
    apply q_sync_same in Es as [Hi Hd]. split; [|congruence].
    eapply untouched_trans; [exact Ux|]. by apply untouched_same. }
  destruct r2 as [[]|e]; [|by eapply resized_fail_q2].
  specialize (Hst4 eq_refl). unfold rename. destruct (pop w2) as [o w3] eqn:Ep.
  apply pop_cases in Ep as [Hi3 Hd3].
  assert (dir w3 !! tmp = Some d2) as Ht3 by (rewrite Hd3, D2, D1; done).
  assert (num_entries q2' = n) as Hn'.
  { destruct Sh as (_ & _ & -> & _). done. }
  destruct o; [|eapply resized_fail_q2; try done; eapply untouched_trans; [exact U2|by apply untouched_same]|];
    rewrite Ht3;
    match goal with |- context [ q_close q' ?wr ] =>
      destruct (rep_close q' wr todo w1 d path T1) as (w4 & -> & _ & Hi4 & Hd4) end;
    cbn in Hi4, Hd4;
    (do 2 eexists; split; [reflexivity|]; cbn;
     assert (forall d, contents d w4 = contents d w2) as Hc
       by (intros; unfold contents; rewrite Hi4, Hi3; done);
     split_and!; [by eapply rep_frame|intros d' Ed'; rewrite Hc; by apply Hst4|done|];
     exists d2; split; [done|]; rewrite Hd4; apply lookup_insert_eq).
Qed.

Lemma append_nonempty_ne path s : s <> EmptyString -> String.append path s <> path.
Proof.
  intros Hs. induction path as [|c path IH]; [done|].
  change (String c (String.append path s) <> String c path). congruence.
Qed.

Lemma mkstemp_spec path suffixes w r w' d f :
  Forall (fun s => s <> EmptyString) suffixes -> inodes w !! d = Some f ->
  mkstemp path suffixes w = (r, w') ->
  untouched d path w w' /\ (forall tmp, r = Ok tmp -> tmp <> path).
Proof.
  intros Hs Hd. unfold mkstemp. destruct (pop w) as [o w1] eqn:Eo.
  apply pop_cases in Eo as [Hi1 Hd1].
  assert (untouched d path w w1) as U by by apply untouched_same.
  destruct o; [|by intros [= <- <-]|];
    (destruct (list_find _ suffixes) as [[i s]|] eqn:El; [|by intros [= <- <-]]);
    apply list_find_Some in El as (Hl & _ & _); intros [= <- <-];
    assert (String.append path s <> path)
      by (apply append_nonempty_ne; rewrite Forall_lookup in Hs; by eapply Hs);
    (split; [|by intros ? [= <-]]); split; cbn.
  all: try (rewrite lookup_insert_ne, Hd1; done).
  all: rewrite lookup_insert_ne, Hi1; [done|]; intros E;
    apply (is_fresh (dom (inodes w1) : gset Z)); rewrite E, Hi1; apply elem_of_dom; eauto.
Qed.

Lemma unlink_spec tmp path w r w' d :
  tmp <> path -> unlink tmp w = (r, w') ->
  untouched d path w w' /\ (r = Ok tt -> dir w' !! tmp = None).
Proof.
  intros Hne E. split.
  - pose proof (untouched_unlink d path tmp w w Hne (untouched_refl _ _ _)) as U.
    by rewrite E in U.
  - intros ->. unfold unlink in E. destruct (pop w) as [[] w1]; [|done|];
      (destruct (dir w1 !! tmp); [|done]); injection E as <-; apply lookup_delete_eq.
Qed.

Lemma open_resize_spec stale suffixes fl path n esz q w d f xs wi :
  Forall (fun s => s <> EmptyString) suffixes -> 0 <= n -> has fl Q_IN_FILE = true ->
  rep q w xs -> fd q = Some d -> inodes w !! d = Some f -> untouched d path wi w ->
  resized d path n xs wi (q_open_resize true stale suffixes fl path n esz q w).
Proof.
  intros Hsuf Hn Hfile H Hfd Hd U. unfold q_open_resize.
  destruct (has (flags q) Q_RESIZE); cbn [negb]; [|by eapply resized_fail_close].
  destruct (n <? queue_length q); [by eapply resized_fail_close|].
  assert (forall w1, inodes w1 = inodes w -> dir w1 = dir w -> untouched d path wi w1) as Us.
  { intros w1 Hi1 Hd1. eapply untouched_trans; [exact U|]. by apply untouched_same. }
  do 2 (plain_step E; [|eapply resized_fail_close; [done|apply Us; congruence]]).
  destruct (mkstemp path suffixes _) as [r2 w2] eqn:Em.
  apply (mkstemp_spec _ _ _ _ _ d f) in Em as [U2 Hne]; [|done|congruence].
  assert (untouched d path wi w2) as U2'
    by (eapply untouched_trans; [|exact U2]; apply Us; congruence).
  destruct r2 as [tmp|e]; [|by eapply resized_fail_close]. specialize (Hne tmp eq_refl).
  destruct (match plain_call w2 with (Error e, w) => _ | (Ok _, w) => _ end) as [r3 w3] eqn:E3.
  assert (untouched d path wi w3 /\ (r3 = Ok tt -> dir w3 !! tmp = None)) as [U3 Hgone].
  { destruct (plain_call w2) as [r4 w4] eqn:E4. apply plain_call_same in E4 as [Hi4 Hd4].
    assert (untouched d path wi w4) as U4
      by (eapply untouched_trans; [exact U2'|]; by apply untouched_same).
    destruct r4; [|by injection E3 as <- <-].
    apply (unlink_spec _ path _ _ _ d Hne) in E3 as [U5 Hg].
    split; [by eapply untouched_trans|done]. }
  destruct r3 as [[]|e].
  2: { eapply resized_fail_close; [done|]. by apply untouched_unlink. }
  destruct (creat_excl_set fl) as (Hc & He & Hf').
  destruct (q_open_no_resize true stale _ tmp n esz w3) as [r6 w6] eqn:E6.
  assert (inodes w3 !! d = Some f) as Hd3.
  { destruct U3 as [-> _], U as [Hwi _]. by rewrite <-Hwi. }
  apply (open_no_resize_fresh _ _ _ _ _ _ d f path) in E6 as [U6 Hok];
    try done; [|congruence|by apply Hgone].
  assert (untouched d path wi w6) as U6' by by eapply untouched_trans.
  destruct r6 as [q2|e].
  2: { eapply resized_fail_close; [done|]. by apply untouched_unlink. }
  destruct (Hok q2 eq_refl) as (Hn2 & _ & H2 & Hst2 & d2 & Hfd2 & Hned & Ht2).
  eapply open_fill_spec; try done. eapply rep_frame; [exact H|].
  intros d' Ed'. assert (d' = d) as -> by congruence.
  unfold contents. destruct U6' as [-> _], U as [-> _]. done.
Qed.

(** ** Resizing without faults *)

(** [q_peek] on a queue that is not empty, after [calm_peek]. *)
Lemma peek_keeps q w x xs size r q1 w1 :
  rep q w (x :: xs) -> q_peek q size w = Some (r, q1, w1) ->
  rep q1 w1 (x :: xs) /\ same_shape q q1 /\ queue_head q1 = queue_head q /\
  inodes w1 = inodes w /\ dir w1 = dir w.
Proof.
  intros H. unfold q_peek. rewrite (rp_len _ _ _ H).
  destruct (Z.eqb_spec (Z.of_nat (length (x :: xs))) 0); [cbn in *; lia|].
  destruct (peek_head_spec _ _ _ _ H) as (r' & q' & w' & -> & H1 & Hsh & Hh & Hi & Hd & _).
  destruct r'; [destruct (size <? _)|]; by intros [= _ <- <-].
Qed.

Lemma calm_copy fuel q q2 w d d2 todo moved :
  rep q w todo -> rep q2 w moved -> fd q = Some d -> fd q2 = Some d2 -> d <> d2 ->
  entry_size q2 = entry_size q -> (length todo <= fuel)%nat -> script w = [] ->
  Z.of_nat (length moved + length todo) <= num_entries q2 ->
  exists q' q2' w', copy_loop fuel (entry_size q) q q2 w = Some (Ok tt, q', q2', w') /\
    script w' = [].
Proof.
  revert q q2 w todo moved. induction fuel as [|fuel IH];
    intros q q2 w todo moved H H2 Hd Hd2 Hne He Hf Hc Hl; cbn [copy_loop];
    destruct (calm_peek q w todo (entry_size q) H Hc) as (q1 & w1 & Ep & Hc1); rewrite Ep;
    (destruct todo as [|x todo]; [by do 3 eexists|]); [cbn in Hf; lia|].
  destruct (peek_keeps _ _ _ _ _ _ _ _ H Ep) as (H1 & (_ & Hfd & _ & He1) & _ & Hi & Hdir).
  pose proof (rp_strs _ _ _ H1) as Hst. apply Forall_cons in Hst as [[Hnz Hx] _].
  assert (forall d, contents d w1 = contents d w) as Hcw by (intros; unfold contents; by rewrite Hi).
  assert (rep q2 w1 moved) as H21 by by eapply rep_frame.
  rewrite decide_False by lia. cbn [length] in Hl.
  destruct (calm_append_no_sync q2 w1 moved x H21 Hc1) as (q3 & w2 & Ea & Hc2).
  unfold append_result in Ea. rewrite !decide_False in Ea by lia.
  destruct (append_no_sync_spec _ _ _ _ H21 Hnz) as (r2 & q3' & w2' & Ea' & Hk & Hr2).
  rewrite Ea in Ea'. injection Ea' as <- <- <-. rewrite Ea.
  destruct Hr2 as (H3 & Hsh & _). unfold kept in Hk. rewrite Hd2 in Hk.
  destruct Hk as ((f & _ & _ & Hon) & _).
  assert (rep q1 w2 (x :: todo)) as H1'.
  { eapply rep_frame; [exact H1|]. intros d' Ed'. rewrite Hfd in Ed'.
    unfold contents. rewrite Hon by congruence. done. }
  destruct (drop_head_spec _ _ _ _ H1') as (q4 & -> & H4 & (_ & Hfd4 & _ & He4) & _).
  destruct Hsh as (_ & Hfd3 & Hn3 & He3).
  replace (entry_size q) with (entry_size q4) by congruence.
  eapply (IH q4 q3 w2 todo (moved ++ [x])); try done; try congruence.
  - cbn in Hf. lia.
  - rewrite Hn3, length_app. cbn. lia.
Qed.

Lemma calm_open_fresh stale fl tmp n esz w :
  script w = [] -> 0 <= n -> has fl Q_IN_FILE = true -> has fl Q_CREAT = true ->
  dir w !! tmp = None -> params_ok fl n esz = true ->
  exists q w', q_open_no_resize true stale fl tmp n esz w = (Ok q, w') /\ script w' = [].
Proof.
  intros Hc Hn Hf Hcr Ht Hp. pose proof (params_ok_sizes _ _ _ Hn Hp) as [Hpos _ _].
  unfold q_open_no_resize. rewrite Hp, calm_plain, Hf by done. cbn [negb].
  assert (forall mem, exists q w', q_open_file true stale (Queue fl None mem n esz 0 0) tmp w
    = (Ok tt, q, w') /\ script w' = []) as Hopen.
  { intros mem. unfold q_open_file, open, fstat. cbn [flags]. rewrite calm_pop, Ht, Hcr by done.
    rewrite !calm_plain, calm_pop by done. unfold contents. cbn [inodes].
    rewrite lookup_insert_eq. change (Z.of_nat (length (default [] (Some []))) =? 0) with true.
    unfold q_open_new, full_pwrite. cbn [num_entries entry_size].
    edestruct calm_pwrite_loop as (w1 & -> & Hc1); [|reflexivity|]; [done|].
    rewrite calm_q_sync by done. unfold posix_fallocate, q_open_adopt. rewrite calm_pop by done.
    cbn. rewrite u32_small by (unfold UINT32_MAX in *; lia).
    destruct (Z.leb_spec n 0); [lia|]. destruct (Z.ltb_spec n 0); [lia|].
    do 2 eexists. split; [reflexivity|done]. }
  destruct (has fl Q_IN_MEMORY).
  - rewrite calm_plain by done.
    destruct (Hopen (Some (replicate (Z.to_nat n) None))) as (q & w' & -> & Hc').
    by exists q, w'.
  - destruct (Hopen None) as (q & w' & -> & Hc'). by exists q, w'.
Qed.

(** The parameters are as good with other flags for a file. *)
Lemma params_ok_flags fl fl' n esz :
  has fl' Q_IN_FILE = true -> params_ok fl n esz = true -> params_ok fl' n esz = true.
Proof.
  unfold params_ok. rewrite !andb_true_iff. intros Hf [[_ H1] H2]. split_and!; [|done..].
  apply negb_true_iff, Z.eqb_neq. intros E0. change Q_IN_FILE with (2 ^ 1) in Hf.
  rewrite has_testbit in Hf by done.
  assert (Z.testbit (Z.land fl' (Z.lor Q_IN_MEMORY Q_IN_FILE)) 1 = false) as E1
    by (rewrite E0; apply Z.bits_0).
  rewrite Z.land_spec, Hf in E1. done.
Qed.

Lemma calm_fill path tmp n q q2 w d d2 xs :
  rep q w xs -> rep q2 w [] -> stored q2 w [] -> fd q = Some d -> fd q2 = Some d2 -> d2 <> d ->
  entry_size q2 = entry_size q -> num_entries q2 = n -> Z.of_nat (length xs) <= n ->
  dir w !! tmp = Some d2 -> script w = [] ->
  exists q' w', q_open_fill path tmp n (entry_size q) q q2 w = Some (Ok q', w').
Proof.
  intros H H2 Hst Hd Hd2 Hne He Hn Hl Ht Hc. unfold q_open_fill. rewrite Hn, Z.eqb_refl.
  cbn [negb].
  destruct (calm_copy (Z.to_nat (queue_length q)) q q2 w d d2 xs [])
    as (q' & q2' & w1 & Ec & Hc1); try done.
  { rewrite (rp_len _ _ _ H). lia. }
  { cbn. lia. }
  rewrite Ec.
  destruct (copy_loop_spec (Z.to_nat (queue_length q)) (entry_size q) q q2 w d d2 path xs [])
    as (r & q'' & q2'' & w1' & Ec' & _ & D1 & Sh & (todo & T1) & _); try done;
    [by eapply stored_header|rewrite (rp_len _ _ _ H); lia|].
  rewrite Ec in Ec'. injection Ec' as <- <- <- <-.
  unfold sync_fh_state. destruct Sh as (_ & -> & _). rewrite Hd2.
  destruct (full_pwrite d2 _ _ w1) as [r2 w2] eqn:Ew.
  edestruct (calm_pwrite_loop) as (w2' & Ew' & Hc2); [exact Hc1|reflexivity|].
  unfold full_pwrite in Ew. rewrite Ew' in Ew. injection Ew as <- <-.
  rewrite calm_q_sync by done. unfold rename. rewrite calm_pop by done.
  apply full_pwrite_loop_spec in Ew' as (k & _ & (_ & D2 & _) & _); [|done..].
  rewrite D2, D1, Ht.
  match goal with |- context [ q_close q' ?wr ] =>
    destruct (rep_close q' wr todo w1 d path T1) as (w4 & -> & _) end.
  by do 2 eexists.
Qed.

(** What [q_open] needs to be able to resize a queue that holds [xs]. *)
Record resizable (w : os) (suffixes : list string) (fl : Z) (path : string) (n esz : Z)
    (xs : list bytes) : Prop := Resizable {
  rz_calm : script w = [];
  rz_flag : has fl Q_RESIZE = true;
  rz_params : params_ok fl n esz = true;
  rz_fits : Z.of_nat (length xs) <= n;
  rz_name : exists s, s ∈ suffixes /\ dir w !! String.append path s = None;
}.

Lemma calm_resize stale suffixes fl path w q n d f xs :
  Forall (fun s => s <> EmptyString) suffixes -> has fl Q_IN_FILE = true -> 0 <= n ->
  rep q w xs -> fd q = Some d -> inodes w !! d = Some f -> flags q = fl ->
  resizable w suffixes fl path n (entry_size q) xs ->
  exists q' w', q_open_resize true stale suffixes fl path n (entry_size q) q w = Some (Ok q', w').
Proof.
  intros Hsuf Hf Hn H Hfd Hd Hfl [Hc Hrz Hp Hfit (s & Hs & Hfree)].
  unfold q_open_resize. rewrite Hfl, Hrz, (rp_len _ _ _ H). cbn [negb].
  destruct (Z.ltb_spec n (Z.of_nat (length xs))); [lia|]. rewrite !calm_plain by done.
  destruct (mkstemp path suffixes w) as [r1 w1] eqn:Em.
  pose proof Em as Em'. apply (mkstemp_spec _ _ _ _ _ d f) in Em' as [U1 Hne]; [|done..].
  unfold mkstemp in Em. rewrite calm_pop in Em by done.
  destruct (list_find _ suffixes) as [[i s']|] eqn:El.
  2: { apply list_find_None in El. rewrite Forall_forall in El. by destruct (El s Hs). }
  injection Em as <- <-. specialize (Hne _ eq_refl). set (tmp := String.append path s') in *.
  rewrite calm_plain by done. unfold unlink. rewrite calm_pop by done. cbn [dir].
  rewrite lookup_insert_eq. destruct (creat_excl_set fl) as (Hcr & He & Hf').
  match goal with |- context [ q_open_no_resize _ _ ?fl2 _ _ _ ?w2 ] =>
    destruct (calm_open_fresh stale fl2 tmp n (entry_size q) w2) as (q2 & w3 & Eo & Hc3);
    [done|done|by rewrite Hf'|done|apply lookup_delete_eq
    |eapply params_ok_flags; [by rewrite Hf'|exact Hp]|] end.
  rewrite Eo. apply (open_no_resize_fresh _ _ _ _ _ _ d f path) in Eo as [U3 Hok];
    [|done|by rewrite Hf'|done|done|apply lookup_delete_eq|exact (eq_trans (proj1 U1) Hd)|done].
  destruct (Hok q2 eq_refl) as (Hn2 & He2 & H2 & Hst2 & d2 & Hfd2 & Hned & Ht2).
  eapply (calm_fill _ _ _ _ _ _ d d2 xs); try done.
  eapply rep_frame; [exact H|]. intros d' Ed'. assert (d' = d) as -> by congruence.
  unfold contents. rewrite (proj1 U3). f_equal. exact (proj1 U1).
Qed.

(** ** Theorems *)

Lemma stored_resize q w path d num esz head xs n fl stale suffixes :
  Forall (fun s => s <> EmptyString) suffixes -> stored_file w path d num esz head xs ->
  has fl Q_IN_FILE = true -> has fl Q_CREAT && has fl Q_EXCL = false -> 0 <= n ->
  has fl Q_IN_MEMORY = false \/ num <= n ->
  q = q_open true stale suffixes fl path n esz w -> resized d path n xs w q.
Proof.
  intros Hsuf H Hf Hce Hn Hm ->. unfold q_open.
  destruct (q_open_no_resize true stale fl path n esz w) as [r w1] eqn:E.
  destruct (open_no_resize_existing _ _ _ _ _ _ _ _ _ _ _ _ H Hf Hce Hn Hm E)
    as (Hi & Hd & Hok).
  assert (untouched d path w w1) as U by by apply untouched_same.
  destruct r as [q|e]; [|by do 2 eexists].
  destruct (Hok q eq_refl) as (Hr & Hst & Hnum & He & Hfd & Hfl).
  destruct (stored_file_nonempty _ _ _ _ _ _ _ H) as (f & Hdf & _).
  destruct (Z.eqb_spec (num_entries q) n) as [En|Hne].
  - do 2 eexists. split; [done|]. split_and!; try done. exists d. split; [done|].
    rewrite Hd. apply H.
  - eapply open_resize_spec; try done. by rewrite Hi.
Qed.

Lemma calm_q_open stale suffixes fl path w d num esz head xs n :
  Forall (fun s => s <> EmptyString) suffixes -> stored_file w path d num esz head xs ->
  has fl Q_IN_FILE = true -> has fl Q_CREAT && has fl Q_EXCL = false -> 0 <= n ->
  has fl Q_IN_MEMORY = false \/ num <= n -> resizable w suffixes fl path n esz xs ->
  exists q w', q_open true stale suffixes fl path n esz w = Some (Ok q, w').
Proof.
  intros Hsuf H Hf Hce Hn Hm Hrz. unfold q_open.
  destruct (calm_open_existing stale fl path n esz w d num head xs) as [q E];
    try done; [apply Hrz..|]. rewrite E.
  apply (open_no_resize_existing _ _ _ _ _ _ d num head xs) in E as (_ & _ & Hok); try done.
  destruct (Hok q eq_refl) as (Hr & _ & Hnum & He & Hfd & Hfl).
  destruct (num_entries q =? n); [by do 2 eexists|].
  destruct (stored_file_nonempty _ _ _ _ _ _ _ H) as (f & Hdf & _).
  rewrite <-He in Hrz |- *. by eapply calm_resize.
Qed.

(** C7: [q_append], whatever faults and short writes its system calls meet:
    it never leaves the array of copies; on success the queue and its file hold
    the old strings followed by the new one; on failure either nothing changed,
    in memory and on disk, or only the header of the file could not be
    written. *)
Theorem q_append_spec q w xs data :
  rep q w xs -> stored q w xs -> Forall (fun b => b <> 0) data ->
  exists r q' w', q_append q data w = Some (r, q', w') /\
  match r with
  | Ok _ => rep q' w' (xs ++ [data]) /\ stored q' w' (xs ++ [data])
  | Error _ => (q' = q /\ rep q w' xs /\ stored q w' xs) \/ rep q' w' (xs ++ [data])
  end.
Proof.
  intros H Hs Hnz. unfold q_append.
  destruct (append_no_sync_spec _ _ _ _ H Hnz) as (r & q1 & w1 & -> & Hk & Hr).
  destruct r as [u|e].
  - destruct Hr as (H1 & Hsh & _). destruct (sync_fh_state q1 w1) as [r2 w2] eqn:E.
    apply (sync_fh_state_spec _ _ (xs ++ [data])) in E as [H2 Hst]; [|done|].
    + do 3 eexists. split; [done|]. destruct r2 as [[]|]; [split; auto|by right].
    + eapply kept_header; [done..|]. by eapply stored_header.
  - subst q1. do 3 eexists. split; [done|]. left.
    split; [done|]. split; [by eapply kept_rep|by eapply kept_stored].
Qed.

(** When no system call fails, [q_append] refuses exactly a full queue
    (ENOSPC) and a string that does not fit an entry with its NUL (EINVAL). *)
Theorem q_append_refuses q w xs data :
  rep q w xs -> script w = [] ->
  exists q' w', q_append q data w = Some
    (if decide (Z.of_nat (length xs) = num_entries q) then Error ENOSPC
     else if decide (entry_size q < Z.of_nat (length data) + 1) then Error EINVAL
     else Ok tt, q', w').
Proof.
  intros H Hc. destruct (calm_append q w xs data H Hc) as (q' & w' & -> & _). by exists q', w'.
Qed.

(** A queue is drained in order: [q_peek] returns the oldest string without
    changing the stored queue, and [q_drop_head] then removes exactly it, in
    memory and in the file. *)
Theorem q_peek_drop q w x xs size :
  rep q w (x :: xs) -> stored q w (x :: xs) -> script w = [] ->
  Z.of_nat (length x) + 1 <= size ->
  exists q1 w1, q_peek q size w = Some (Ok (Some x), q1, w1) /\
    rep q1 w1 (x :: xs) /\ stored q1 w1 (x :: xs) /\
  exists q2 w2, q_drop_head q1 w1 = Some (Ok tt, q2, w2) /\
    rep q2 w2 xs /\ stored q2 w2 xs.
Proof.
  intros H Hs Hc Hsz. destruct (calm_peek q w (x :: xs) size H Hc) as (q1 & w1 & E & Hc1).
  rewrite decide_False in E by lia. exists q1, w1. split; [done|].
  destruct (peek_head_spec _ _ _ _ H) as (r' & q' & w' & Ep & H1 & Hsh & Hh & Hi & _ & Hx).
  assert (q' = q1 /\ w' = w1) as [-> ->].
  { unfold q_peek in E. destruct (queue_length q =? 0); [done|]. rewrite Ep in E.
    destruct r'; [|done]. destruct (size <? _); [done|]. by injection E. }
  assert (stored q1 w1 (x :: xs)) as Hs1.
  { intros d Ed. destruct Hsh as (_ & Hfd & Hn & He). rewrite Hn, He, Hh.
    unfold contents. rewrite Hi. apply (Hs d). congruence. }
  split; [done|]. split; [done|].
  destruct (drop_head_spec _ _ _ _ H1) as (q2 & E2 & H2 & Hsh2 & _).
  destruct (calm_sync q2 w1 Hc1) as (w2 & E3 & _).
  exists q2, w2. unfold q_drop_head. rewrite E2, E3. split; [done|].
  apply (sync_fh_state_spec _ _ xs) in E3 as [H3 Hst]; [|done|].
  - by split; [|apply Hst].
  - intros d Ed. destruct Hsh2 as (_ & Hfd & Hn & He). rewrite Hn, He.
    apply (stored_header _ _ _ Hs1). congruence.
Qed.

(** C8: Appending is safe against a crash: whatever part of the string was
    written when the process stops before the header, the file still stores
    the old queue. *)
Theorem append_crash_safe q w xs data :
  rep q w xs -> stored q w xs -> Forall (fun b => b <> 0) data ->
  exists r q' w', q_append_no_sync_fh_state q data w = Some (r, q', w') /\ stored q w' xs.
Proof.
  intros H Hs Hnz.
  destruct (append_no_sync_spec _ _ _ _ H Hnz) as (r & q' & w' & E & Hk & _).
  exists r, q', w'. split; [done|]. by eapply kept_stored.
Qed.

(** C9: A queue survives a restart: opening the file that stores [xs], with
    the same entry size and number of entries, gives a queue that holds [xs],
    and changes no file.  It fails only if a system call does, or if the
    parameters are not allowed. *)
Theorem q_open_restores stale suffixes fl path w d num esz head xs :
  stored_file w path d num esz head xs -> has fl Q_IN_FILE = true ->
  has fl Q_CREAT && has fl Q_EXCL = false ->
  exists r w', q_open true stale suffixes fl path num esz w = Some (r, w') /\
  inodes w' = inodes w /\ dir w' = dir w /\
  match r with
  | Ok q => rep q w' xs /\ stored q w' xs
  | Error _ => script w <> [] \/ params_ok fl num esz = false
  end.
Proof.
  intros H Hf Hce. assert (0 <= num) as Hn by (pose proof (sf_head _ _ _ _ _ _ _ H); lia).
  unfold q_open.
  destruct (q_open_no_resize true stale fl path num esz w) as [r1 w1] eqn:E.
  destruct (open_no_resize_existing _ _ _ _ _ _ _ _ _ _ _ _ H Hf Hce
              Hn (or_intror (Z.le_refl _)) E) as (Hi & Hd & Hok).
  destruct r1 as [q|e].
  - destruct (Hok q eq_refl) as (Hr & Hst & Hnum & _).
    rewrite Hnum, Z.eqb_refl. by do 2 eexists.
  - do 2 eexists. split_and!; [done..|].
    destruct (script w) eqn:Es; [|by left]. right.
    destruct (params_ok fl num esz) eqn:Ep; [|done].
    by destruct (calm_open_existing stale _ _ _ _ _ _ _ _ _ Es H Hf Hce Ep) as [q Eq]; congruence.
Qed.

(** C10: Resizing is atomic: [q_open] with another number of entries, whatever
    its system calls do, either puts in place a file of that size that holds
    the same strings, or fails and leaves the old file and its name as they
    were.  It fails only for a reason: a call that fails, a queue that may not
    be resized or does not fit, or no free name for the new file.  This needs
    a queue without copies in memory, or one that does not shrink. *)
Theorem q_open_resizes stale suffixes fl path w d num esz head xs n :
  Forall (fun s => s <> EmptyString) suffixes -> stored_file w path d num esz head xs ->
  has fl Q_IN_FILE = true -> has fl Q_CREAT && has fl Q_EXCL = false -> 0 <= n ->
  has fl Q_IN_MEMORY = false \/ num <= n ->
  exists r w', q_open true stale suffixes fl path n esz w = Some (r, w') /\
  match r with
  | Ok q => rep q w' xs /\ stored q w' xs /\ num_entries q = n /\
            (exists d2, fd q = Some d2 /\ dir w' !! path = Some d2)
  | Error _ => inodes w' !! d = inodes w !! d /\ dir w' !! path = dir w !! path /\
               ~ resizable w suffixes fl path n esz xs
  end.
Proof.
  intros Hsuf H Hf Hce Hn Hm.
  destruct (stored_resize _ _ _ _ _ _ _ _ _ _ stale _ Hsuf H Hf Hce Hn Hm eq_refl)
    as (r & w' & E & Hr).
  exists r, w'. split; [done|]. destruct r as [q|e]; [done|]. destruct Hr as [Hi Hd].
  split_and!; [done..|]. intros Hrz.
  destruct (calm_q_open stale suffixes fl path w d num esz head xs n) as (q & w2 & E2); try done.
  congruence.
Qed.

(** The size [q_open_file] gives a new file. *)
Definition created_size (n esz : Z) : Z := u64 ((n + 1) * esz).

(** A queue may be created with UINT32_MAX entries, but the file it makes
    never passes the size check of a later [q_open]: the number of entries plus
    one wraps to zero. *)
Theorem max_entries_cannot_reopen fl esz :
  params_ok fl UINT32_MAX esz = true ->
  file_size_ok (created_size UINT32_MAX esz) UINT32_MAX esz = false.
Proof.
  intros H. unfold created_size. apply params_ok_sizes in H as [Hn He Ht]; [|done].
  unfold file_size_ok. change (u32 (UINT32_MAX + 1)) with 0. rewrite Z.mul_0_l.
  rewrite u64_small by (unfold SIZE_MAX, sizeof_file_header in *; lia).
  change (u64 0) with 0. unfold UINT32_MAX, sizeof_file_header in *.
  destruct (Z.eqb_spec ((two32 - 1 + 1) * esz) 0); [lia|]. by rewrite orb_true_r.
Qed.

(** *** Witnesses *)

(** A file of two entries of 32 bytes whose first entry is [ab]. *)
Definition demo_file : bytes :=
  file_header_bytes 2 32 0 1 ++ ([97; 98; 0] ++ replicate 29 0) ++ replicate 32 0.
Definition demo_world : os := OS {[ 1 := demo_file ]} {[ "q"%string := 1 ]} [].
Definition demo_flags : Z := Q_IN_MEMORY + Q_IN_FILE + Q_CREAT + Q_RESIZE.
Definition demo_queue : queue :=
  Queue demo_flags (Some 1) (Some (replicate 2 None)) 2 32 0 1.

Lemma demo_sizes : sizes 2 32.
Proof. by split. Qed.

Lemma demo_stored_file : stored_file demo_world "q" 1 2 32 0 [[97; 98]].
Proof.
  split; try done.
  - constructor; [split; [by repeat constructor|done]|constructor].
  - split; [split; [done|]|done].
    intros [|[|k]] s; [|done..]. by intros [= <-].
Qed.

Lemma demo_rep : rep demo_queue demo_world [[97; 98]].
Proof.
  destruct demo_stored_file as [_ Hs _ Hh Hl Hst [Hf _]].
  apply (rep_open _ _ 1 2 32 0 [[97; 98]]); try done.
  intros m [= <-]. by exists 2%nat.
Qed.

Lemma demo_stored : stored demo_queue demo_world [[97; 98]].
Proof. intros d [= <-]. apply demo_stored_file. Qed.

Lemma q_append_spec_witness :
  exists r q' w', q_append demo_queue [99] demo_world = Some (r, q', w') /\ r = Ok tt.
Proof.
  destruct (q_append_spec demo_queue demo_world [[97; 98]] [99] demo_rep demo_stored)
    as (r & q' & w' & E & _); [by repeat constructor|].
  exists r, q', w'. split; [exact E|].
  apply (f_equal (fmap (fun x => fst (fst x)))) in E. vm_compute in E. by injection E as <-.
Defined.

Lemma q_append_refuses_witness :
  exists q' w', q_append demo_queue (replicate 32 65) demo_world = Some (Error EINVAL, q', w').
Proof. exact (q_append_refuses demo_queue demo_world [[97; 98]] (replicate 32 65) demo_rep eq_refl). Defined.

Lemma q_peek_drop_witness :
  exists q1 w1, q_peek demo_queue 32 demo_world = Some (Ok (Some [97; 98]), q1, w1) /\
    rep q1 w1 [[97; 98]].
Proof.
  destruct (q_peek_drop demo_queue demo_world [97; 98] [] 32 demo_rep demo_stored eq_refl)
    as (q1 & w1 & E & H & _); [done|]. by exists q1, w1.
Defined.

(** A write that stops after two bytes, then fails. *)
Definition torn_world : os :=
  OS (inodes demo_world) (dir demo_world) [Good; Short 2; Err EIO].

Lemma append_crash_safe_witness :
  exists r q' w', q_append_no_sync_fh_state demo_queue [99; 100; 101] torn_world
      = Some (r, q', w') /\ r = Error EIO /\ stored demo_queue w' [[97; 98]].
Proof.
  destruct (append_crash_safe demo_queue torn_world [[97; 98]] [99; 100; 101])
    as (r & q' & w' & E & H).
  - eapply rep_frame; [exact demo_rep|done].
  - intros d Hd. apply demo_stored. exact Hd.
  - by repeat constructor.
  - exists r, q', w'. split; [exact E|]. split; [|exact H].
    apply (f_equal (fmap (fun x => fst (fst x)))) in E. vm_compute in E. by injection E as <-.
Defined.

Lemma q_open_restores_witness :
  exists r w', q_open true 0 [] demo_flags "q" 2 32 demo_world = Some (r, w') /\
    match r with Ok q => rep q w' [[97; 98]] | Error _ => False end.
Proof.
  destruct (q_open_restores 0 [] demo_flags "q" demo_world 1 2 32 0 [[97; 98]])
    as (r & w' & E & _ & _ & H);
    [exact demo_stored_file|reflexivity|reflexivity|].
  exists r, w'. split; [exact E|]. destruct r; [apply H|by destruct H].
Defined.

Lemma q_open_resizes_witness :
  exists r w', q_open true 0 ["XXXXXX"%string] demo_flags "q" 3 32 demo_world = Some (r, w') /\
    match r with Ok q => num_entries q = 3 /\ rep q w' [[97; 98]] | Error _ => False end.
Proof.
  destruct (q_open_resizes 0 ["XXXXXX"%string] demo_flags "q" demo_world 1 2 32 0 [[97; 98]] 3)
    as (r & w' & E & Hr);
    [by repeat constructor|exact demo_stored_file|done|done|done|by right|].
  exists r, w'. split; [exact E|]. destruct r as [q|e].
  - by destruct Hr as (? & _ & ? & _).
  - apply (f_equal (fmap (fun x => match fst x with Ok _ => true | _ => false end))) in E.
    vm_compute in E. discriminate.
Defined.

Lemma max_entries_cannot_reopen_witness :
  file_size_ok (created_size UINT32_MAX 32) UINT32_MAX 32 = false.
Proof. exact (max_entries_cannot_reopen demo_flags 32 eq_refl). Defined.

(** Shrinking a queue that is kept in memory and in a file, as
    audisp-remote does in store-and-forward mode after queue_depth was lowered,
    leaves the array of copies, which has the new size while [num_entries] is
    the old one. *)
Theorem shrink_leaves_array :
  has demo_flags Q_RESIZE = true /\
  q_open true 0 ["XXXXXX"%string] demo_flags "q" 1 32 demo_world = None.
Proof. split; vm_compute; reflexivity. Qed.

End RQFacts.
