(* ===== verification/CString.v ===== *)
(** * C strings and the functions of the C library on them

    A C string is a [string]: the characters before the terminating NUL.  The
    functions below are those of string.h and stdlib.h that the sources use,
    for the "C" locale, with glibc's behaviour on overflow. *)
From S2P Require Import Prelude.
From Stdlib Require Export Ascii.

Local Open Scope Z_scope.

Definition chr (n : nat) : ascii := ascii_of_nat n.
Definition NUL : ascii := chr 0.
Definition TAB : ascii := chr 9.
Definition LF : ascii := chr 10.
Definition DQUOTE : ascii := chr 34.
Definition BACKSLASH : ascii := chr 92.

Definition code (c : ascii) : Z := Z.of_nat (nat_of_ascii c).

Infix "=c" := Ascii.eqb (at level 70, no associativity) : audit_scope.
Local Open Scope audit_scope.

(** [*s], and [s + n] for a pointer that does not run past the NUL. *)
Definition char_at (s : string) : ascii :=
  match s with EmptyString => NUL | String c _ => c end.
Fixpoint skip (n : nat) (s : string) : string :=
  match n, s with
  | O, _ => s
  | _, EmptyString => EmptyString
  | S n, String _ s => skip n s
  end.

(** The first [n] characters. *)
Fixpoint prefix_of (n : nat) (s : string) : string :=
  match n, s with
  | O, _ | _, EmptyString => EmptyString
  | S n, String c s => String c (prefix_of n s)
  end.

(** Split at the first character for which [f] fails. *)
Fixpoint span (f : ascii -> bool) (s : string) : string * string :=
  match s with
  | EmptyString => (EmptyString, EmptyString)
  | String c s' => if f c then let (a, b) := span f s' in (String c a, b)
                   else (EmptyString, s)
  end.

(** [strcmp(a, b) == 0]. *)
Definition str_eq (a b : string) : bool := String.eqb a b.

(** The suffix of [s] from the first [c], [None] for NULL. *)
Fixpoint strchr (s : string) (c : ascii) : option string :=
  match s with
  | EmptyString => None
  | String d s' => if d =c c then Some s else strchr s' c
  end.

(** [strncmp(s, p, strlen(p)) == 0]. *)
Fixpoint starts_with (p s : string) : bool :=
  match p, s with
  | EmptyString, _ => true
  | String c p, String d s => (c =c d) && starts_with p s
  | _, EmptyString => false
  end.

(** [strstr(s, needle) != NULL]. *)
Fixpoint strstr (s needle : string) : bool :=
  starts_with needle s ||
  match s with EmptyString => false | String _ s => strstr s needle end.

Definition between (a b : Z) (c : ascii) : bool := (a <=? code c) && (code c <=? b).
Definition isspace (c : ascii) : bool := between 9 13 c || (code c =? 32).
Definition isdigit (c : ascii) : bool := between 48 57 c.

(** The value of a digit in bases up to 36. *)
Definition digit_value (c : ascii) : Z :=
  if between 48 57 c then code c - 48
  else if between 97 122 c then code c - 87
  else if between 65 90 c then code c - 55
  else 36.

(** The number the leading digits of [s] spell, after [acc], and what
    follows. *)
Fixpoint digits (base acc : Z) (s : string) : Z * string :=
  match s with
  | String c s' => if digit_value c <? base
                   then digits base (acc * base + digit_value c) s' else (acc, s)
  | EmptyString => (acc, s)
  end.

(** Skip white space and an optional sign. *)
Definition scan_sign (s : string) : bool * string :=
  let s := snd (span isspace s) in
  if char_at s =c "-"%char then (true, skip 1 s)
  else if char_at s =c "+"%char then (false, skip 1 s)
  else (false, s).

(** [strtoul(s, NULL, base)] for base 10, or base 16 without an 0x prefix: the
    value and whether errno is ERANGE.  No digits give 0 and no error. *)
Definition strtoul (base : Z) (s : string) : Z * bool :=
  let (neg, s) := scan_sign s in
  let (v, _) := digits base 0 s in
  if SIZE_MAX <? v then (SIZE_MAX, true)
  else (if neg then u64 (- v) else v, false).

(** [strtol(s, NULL, 10)], clamped to 64 bits. *)
Definition strtol (s : string) : Z :=
  let (neg, s) := scan_sign s in
  let (v, _) := digits 10 0 s in
  if neg then Z.max (- 2 ^ 63) (- v) else Z.min (2 ^ 63 - 1) v.

(** The text before the last [c], [None] when strrchr() is NULL. *)
Fixpoint before_last (c : ascii) (s : string) : option string :=
  match s with
  | EmptyString => None
  | String d s => match before_last c s with
                  | Some p => Some (String d p)
                  | None => if d =c c then Some EmptyString else None
                  end
  end.

(** A decimal number of [sscanf]: at least one digit is needed. *)
Definition scan_number (s : string) : option (Z * string) :=
  let (neg, s) := scan_sign s in
  if isdigit (char_at s) then
    let (v, rest) := digits 10 0 s in Some (if neg then - v else v, rest)
  else None.

(** The literal characters [p] of a [sscanf] format without white space. *)
Fixpoint scan_literal (p s : string) : option string :=
  match p with
  | EmptyString => Some s
  | String c p => match s with
                  | String d s => if c =c d then scan_literal p s else None
                  | EmptyString => None
                  end
  end.

(** ** Facts *)

Lemma str_eq_true a b : str_eq a b = true <-> a = b.
Proof. apply String.eqb_eq. Qed.

Lemma str_eq_refl a : str_eq a a = true.
Proof. by apply str_eq_true. Qed.

Lemma char_eq_true a b : (a =c b) = true <-> a = b.
Proof. apply Ascii.eqb_eq. Qed.

Lemma span_spec f s a b :
  span f s = (a, b) ->
  s = String.append a b /\ match b with EmptyString => True | String c _ => f c = false end.
Proof.
  revert a b. induction s as [|c s IH]; intros a b; cbn.
  - by intros [= <- <-].
  - destruct (f c) eqn:Ef.
    + destruct (span f s) as [a' b'] eqn:E. intros [= <- <-].
      destruct (IH _ _ eq_refl) as [-> Hb]. done.
    + by intros [= <- <-].
Qed.

Lemma skip_length n s : (String.length (skip n s) <= String.length s)%nat.
Proof.
  revert s. induction n as [|n IH]; intros [|c s]; cbn; try lia. specialize (IH s). lia.
Qed.

Lemma digits_nonneg base acc s : 0 <= base -> 0 <= acc -> 0 <= fst (digits base acc s).
Proof.
  intros Hb. revert acc. induction s as [|c s IH]; intros acc Ha; cbn; [done|].
  destruct (digit_value c <? base); [|done]. apply IH.
  assert (0 <= digit_value c).
  { unfold digit_value, between. zb; cbn; lia. }
  nia.
Qed.

(** [strtoul] stays in its range. *)
Lemma strtoul_range base s v e : 0 <= base -> strtoul base s = (v, e) -> 0 <= v < two64.
Proof.
  intros Hb. unfold strtoul. destruct (scan_sign s) as [neg s'].
  pose proof (digits_nonneg base 0 s' Hb ltac:(lia)) as Hd.
  destruct (digits base 0 s') as [d r]. cbn in Hd.
  destruct (Z.ltb_spec SIZE_MAX d); intros [= <- <-]; [done|].
  destruct neg; [apply u64_range|]. unfold SIZE_MAX in *. lia.
Qed.
