(* ===== verification/CList.v ===== *)
(** * Lists with a cursor

    Most lists of the program are a head pointer, a cursor and a counter over
    singly linked nodes that are only ever linked after the cursor or at the
    end.  Such a list is the sequence of its nodes with the index of the node
    under the cursor; assigning [cur->next] replaces what follows the
    cursor. *)
From S2P Require Import Prelude.

Local Open Scope audit_scope.

Record clist (A : Type) := CList {
  nodes : list A;        (* from the head *)
  cur : option nat;      (* None for NULL *)
  cnt : Z;               (* unsigned int *)
}.
Arguments CList {A} _ _ _.
Arguments nodes {A} _.
Arguments cur {A} _.
Arguments cnt {A} _.

Section clist.
Context {A : Type}.
Implicit Types l : clist A.

Definition cl_create : clist A := CList [] None 0.

(** [l->head], as a cursor. *)
Definition cl_head l : option nat := match nodes l with [] => None | _ => Some O end.

Definition cl_first l : clist A := CList (nodes l) (cl_head l) (cnt l).

(** The node under the cursor. *)
Definition cl_get_cur l : option A := match cur l with Some i => nodes l !! i | None => None end.

(** The pointer to the node after index [i]. *)
Definition succ_of l (i : nat) : option nat :=
  if decide (S i < length (nodes l))%nat then Some (S i) else None.

(** [l->cur = l->cur->next], a null cursor stays. *)
Definition cl_next l : clist A :=
  CList (nodes l) (match cur l with Some i => succ_of l i | None => None end) (cnt l).

(** [l->cur->next = n; l->cur = n; l->cnt++]; [None] for a null cursor. *)
Definition cl_link_cur (n : A) l : option (clist A) :=
  match cur l with
  | None => None
  | Some i => Some (CList (take (S i) (nodes l) ++ [n]) (Some (S i)) (cnt l +u 1))
  end.

(** Link [n] as the only node. *)
Definition cl_link_head (n : A) l : clist A := CList [n] (Some O) (cnt l +u 1).

(** Move the cursor to the last node; an empty list is left alone. *)
Definition cl_last l : clist A :=
  match nodes l with
  | [] => l
  | ns => CList ns (Some (length ns - 1)%nat) (cnt l)
  end.

(** The index of the first node from [i] on that satisfies [p]. *)
Fixpoint find_from (p : A -> bool) (ns : list A) (i : nat) : option nat :=
  match ns with
  | [] => None
  | n :: ns => match i with
               | O => if p n then Some O else S <$> find_from p ns O
               | S i => S <$> find_from p ns i
               end
  end.

(** Scan from pointer [from]; on a hit the cursor moves there. *)
Definition cl_find (p : A -> bool) (from : option nat) l : bool * clist A :=
  match from with
  | None => (false, l)
  | Some i => match find_from p (nodes l) i with
              | Some j => (true, CList (nodes l) (Some j) (cnt l))
              | None => (false, l)
              end
  end.

(** Well formed: the cursor, if any, is on a node, and the counter counts. *)
Record wf l : Prop := Wf {
  wf_cur : forall i, cur l = Some i -> (i < length (nodes l))%nat;
  wf_cnt : cnt l = u32 (Z.of_nat (length (nodes l)));
}.

Lemma wf_create : wf cl_create.
Proof. by split. Qed.

Lemma wf_first l : wf l -> wf (cl_first l).
Proof.
  intros [Hc Hn]. split; [|done]. unfold cl_first, cl_head. cbn.
  destruct (nodes l); [done|]. intros i [= <-]. cbn. lia.
Qed.

Lemma wf_next l : wf l -> wf (cl_next l).
Proof.
  intros [Hc Hn]. split; [|done]. cbn. destruct (cur l) as [i|]; [|done].
  unfold succ_of. case_decide; [|done]. by intros j [= <-].
Qed.

Lemma wf_last l : wf l -> wf (cl_last l).
Proof.
  intros H. unfold cl_last. destruct (nodes l) as [|n ns] eqn:E; [done|].
  destruct H as [Hc Hn]. rewrite E in Hn. split; [|done]. cbn. intros i [= <-]. lia.
Qed.

Lemma u32_add_1 n : u32 (u32 n + 1) = u32 (n + 1).
Proof. unfold u32. by rewrite Zplus_mod_idemp_l. Qed.

Lemma wf_link_head n l : nodes l = [] -> wf l -> wf (cl_link_head n l).
Proof.
  intros E [_ Hn]. split; cbn.
  - intros i [= <-]. lia.
  - rewrite Hn, E. reflexivity.
Qed.

(** Linking after the last node appends. *)
Lemma link_cur_last n l l' :
  wf l -> cur l = Some (length (nodes l) - 1)%nat -> nodes l <> [] ->
  cl_link_cur n l = Some l' ->
  nodes l' = nodes l ++ [n] /\ cur l' = Some (length (nodes l)) /\ wf l'.
Proof.
  intros [_ Hn] Hc Hne. unfold cl_link_cur. rewrite Hc. intros [= <-]. cbn.
  assert (length (nodes l) <> 0)%nat by (by destruct (nodes l)).
  replace (S (length (nodes l) - 1)) with (length (nodes l)) by lia.
  rewrite firstn_all. split; [done|]. split; [done|]. split; cbn.
  - intros i [= <-]. rewrite length_app. cbn. lia.
  - rewrite Hn, u32_add_1, length_app. cbn. f_equal. lia.
Qed.

Lemma find_from_spec p ns i j :
  find_from p ns i = Some j ->
  (i <= j)%nat /\ (exists n, ns !! j = Some n /\ p n = true) /\
  (forall k n, (i <= k < j)%nat -> ns !! k = Some n -> p n = false).
Proof.
  revert i j. induction ns as [|n ns IH]; intros i j; cbn; [done|].
  destruct i as [|i].
  - destruct (p n) eqn:Ep; [intros [= <-]|].
    + split; [done|]. split; [by exists n|]. intros; lia.
    + intros (j' & E & ->)%fmap_Some. apply IH in E as (_ & Hn & Hb).
      split; [lia|]. split; [done|]. intros [|k] m Hk; cbn; [by intros [= <-]|].
      apply Hb. lia.
  - intros (j' & E & ->)%fmap_Some. apply IH in E as (Hle & Hn & Hb).
    split; [lia|]. split; [done|]. intros [|k] m Hk; cbn; [lia|]. apply Hb. lia.
Qed.

Lemma find_from_None p ns i k n :
  find_from p ns i = None -> (i <= k)%nat -> ns !! k = Some n -> p n = false.
Proof.
  revert i k. induction ns as [|m ns IH]; intros i k; [done|]. cbn.
  destruct i as [|i].
  - destruct (p m) eqn:Ep; [done|]. intros E%fmap_None Hk.
    destruct k as [|k]; cbn; [by intros [= <-]|]. apply (IH O); [done|lia].
  - intros E%fmap_None Hk. destruct k as [|k]; [lia|]. cbn. apply (IH i); [done|lia].
Qed.

(** Scanning from the head finds the first node in the list. *)
Lemma find_from_0 p ns : find_from p ns 0 = fst <$> list_find (fun n => p n = true) ns.
Proof.
  induction ns as [|n ns IH]; cbn; [done|].
  destruct (p n) eqn:Ep.
  - by rewrite decide_True by done.
  - rewrite decide_False by congruence. rewrite IH.
    by destruct (list_find _ ns) as [[j m]|].
Qed.

Lemma wf_find p from l b l' :
  wf l -> cl_find p from l = (b, l') -> wf l' /\ nodes l' = nodes l.
Proof.
  intros H. unfold cl_find. destruct from as [i|]; [|by intros [= <- <-]].
  destruct (find_from p (nodes l) i) as [j|] eqn:E; intros [= <- <-]; [|done].
  split; [|done]. split; cbn; [|apply H]. intros k [= <-].
  apply find_from_spec in E as (_ & (n & Hn & _) & _). by eapply lookup_lt_Some.
Qed.

End clist.

#[export] Hint Resolve wf_create wf_first wf_next wf_last : audit.
