(* ===== verification/Nvlist.v ===== *)
(** * Name-value lists of a record (src/auparse/nvlist.c, rnode.h)

    The fields of an audit record, in order, with a cursor. *)
From S2P Require Import Prelude CString CList.

Local Open Scope audit_scope.

Module Nv.

(** [nvnode]; a string is [None] when the pointer is NULL. *)
Record nvnode := NvNode {
  name : option string;
  val : option string;
  interp_val : option string;
  item : Z;
}.

Abbreviation nvlist := (clist nvnode).

Definition nvlist_create : nvlist := cl_create.
Definition nvlist_first (l : nvlist) : nvlist := cl_first l.
Definition nvlist_last (l : nvlist) : nvlist := cl_last l.
Definition nvlist_next (l : nvlist) : nvlist := cl_next l.
Definition nvlist_get_cur_val (l : nvlist) : option string :=
  match cl_get_cur l with Some n => val n | None => None end.

(** [None]: the cursor is NULL although the list is not empty. *)
Definition nvlist_append (nm : option string) (v : option string) (l : nvlist) : option nvlist :=
  let newnode := NvNode nm v None (cnt l) in
  match nodes l with
  | [] => Some (cl_link_head newnode l)
  | _ =>
      match cl_get_cur l with
      | None => None
      | Some c =>
          if cnt l =? item c +u 1 then cl_link_cur newnode l
          else cl_link_cur newnode (nvlist_last l)
      end
  end.

(** Turn the value of the current field into its interpretation. *)
Definition nvlist_interp_fixup (l : nvlist) : nvlist :=
  match cur l with
  | None => l
  | Some i => CList (alter (fun n => NvNode (name n) None (val n) (item n)) i (nodes l))
                (cur l) (cnt l)
  end.

Definition nvlist_goto_rec (i : Z) (l : nvlist) : bool * nvlist :=
  cl_find (fun n => item n =? i) (cl_head l) l.

(** The scan stops at a node without a name, or with this one. *)
Definition stops (nm : string) (n : nvnode) : bool :=
  match name n with Some m => str_eq m nm | None => true end.

(** Scan from the cursor on; [None]: strcmp() is given a null name. *)
Definition nvlist_find_name (nm : string) (l : nvlist) : option (bool * nvlist) :=
  let (b, l) := cl_find (stops nm) (cur l) l in
  if b then n ← cl_get_cur l; _ ← name n; Some (true, l) else Some (false, l).

(** [rnode]. *)
Record rnode := RNode {
  record : string;       (* the whole unparsed record *)
  interp : option string;
  cwd : option string;
  type : Z;
  machine : Z;
  syscall : Z;
  a0 : Z;
  a1 : Z;
  nv : nvlist;
  ritem : Z;             (* which record of the event *)
  list_idx : Z;          (* the source it was found in *)
  line_number : Z;
}.

Definition set_nv (r : rnode) (l : nvlist) : rnode :=
  RNode (record r) (interp r) (cwd r) (type r) (machine r) (syscall r) (a0 r) (a1 r) l
    (ritem r) (list_idx r) (line_number r).

(** [idata], what an interpretation depends on. *)
Record idata := IData {
  id_machine : Z;
  id_syscall : Z;
  id_a0 : Z;
  id_a1 : Z;
  id_cwd : option string;
  id_name : string;
  id_val : option string;
}.

(** The interpretation tables of interpret.c. *)
Class Interp := {
  auparse_interp_adjust_type : Z -> string -> option string -> Z;
  auparse_do_interpretation : Z -> idata -> Z -> option string;
}.

Section interpret.
Context `{Interp}.

(** The type of the current field; [None] for a null cursor or name. *)
Definition nvlist_get_cur_type (r : rnode) : option Z :=
  n ← cl_get_cur (nv r);
  nm ← name n;
  Some (auparse_interp_adjust_type (type r) nm (val n)).

(** The interpretation of a field of [r]. *)
Definition interpretation (r : rnode) (escape_mode : Z) (n : nvnode) : option string :=
  nm ← name n;
  auparse_do_interpretation
    (auparse_interp_adjust_type (type r) nm (val n))
    (IData (machine r) (syscall r) (a0 r) (a1 r) (cwd r) nm (val n)) escape_mode.

Definition set_interp_val (v : option string) (n : nvnode) : nvnode :=
  NvNode (name n) (val n) v (item n).

(** [interpret]: the result is kept in the field.  [None] for a null cursor or
    name. *)
Definition interpret (r : rnode) (escape_mode : Z) : option (option string * rnode) :=
  match cur (nv r) with
  | None => None
  | Some i =>
      match nodes (nv r) !! i with
      | None => None
      | Some n =>
          _ ← name n;
          let out := interpretation r escape_mode n in
          Some (out, set_nv r (CList (alter (set_interp_val out) i (nodes (nv r)))
                                 (cur (nv r)) (cnt (nv r))))
      end
  end.

Definition nvlist_interp_cur_val (r : rnode) (escape_mode : Z)
    : option (option string * rnode) :=
  match cl_get_cur (nv r) with
  | None => None
  | Some n => match interp_val n with
              | Some v => Some (Some v, r)
              | None => interpret r escape_mode
              end
  end.

End interpret.

Definition nvlist_clear (l : nvlist) : nvlist :=
  match nodes l with [] => l | _ => cl_create end.

(** ** The invariant *)

(** Every node is numbered by its place. *)
Record ok (l : nvlist) : Prop := Ok {
  ok_wf : wf l;
  ok_items : forall i n, nodes l !! i = Some n -> item n = u32 (Z.of_nat i);
  ok_size : Z.of_nat (length (nodes l)) < two32;
}.

Lemma ok_create : ok nvlist_create.
Proof. split; [apply wf_create|done|done]. Qed.

Lemma ok_first l : ok l -> ok (nvlist_first l).
Proof. intros []. split; [by apply wf_first|done|done]. Qed.

Lemma items_app l n :
  (forall i m, nodes l !! i = Some m -> item m = u32 (Z.of_nat i)) ->
  wf l -> item n = cnt l ->
  forall i m, (nodes l ++ [n]) !! i = Some m -> item m = u32 (Z.of_nat i).
Proof.
  intros Hi [_ Hc] Hn i m [Hm|[Hge Hm]]%lookup_app_Some; [by apply Hi|].
  apply list_lookup_singleton_Some in Hm as [E <-].
  rewrite Hn, Hc. do 2 f_equal. lia.
Qed.

(** The cursor is on the last node, whichever branch moved it there. *)
Lemma append_links nm v l :
  ok l -> nodes l <> [] -> is_Some (cur l) ->
  exists l0, nvlist_append nm v l = cl_link_cur (NvNode nm v None (cnt l)) l0 /\
    wf l0 /\ nodes l0 = nodes l /\ cnt l0 = cnt l /\
    cur l0 = Some (length (nodes l) - 1)%nat.
Proof.
  intros [Hwf Hi Hs] Hne [i Hc]. unfold nvlist_append, cl_get_cur.
  destruct (nodes l) as [|n0 ns] eqn:En; [done|]. rewrite <-En in *. rewrite Hc.
  destruct (lookup_lt_is_Some_2 (nodes l) i) as [n Hn]; [by eapply wf_cur|]. rewrite Hn.
  destruct (Z.eqb_spec (cnt l) (item n +u 1)) as [E|_].
  - exists l. split; [done|]. split; [done|]. split; [done|]. split; [done|].
    rewrite (Hi _ _ Hn), (wf_cnt _ Hwf), u32_add_1 in E. pose proof (wf_cur _ Hwf _ Hc).
    rewrite !u32_small in E by lia. rewrite Hc. f_equal. lia.
  - exists (nvlist_last l). split; [done|]. split; [by apply wf_last|].
    unfold nvlist_last, cl_last. by rewrite En.
Qed.

(** [nvlist_append] adds the field at the end, wherever the cursor is, and
    numbers it. *)
Lemma nvlist_append_spec nm v l :
  ok l -> (nodes l = [] \/ is_Some (cur l)) -> Z.of_nat (S (length (nodes l))) < two32 ->
  exists l', nvlist_append nm v l = Some l' /\ ok l' /\
    nodes l' = nodes l ++ [NvNode nm v None (cnt l)] /\ cur l' = Some (length (nodes l)).
Proof.
  intros H Hc Hs. pose proof H as [Hwf Hi _].
  destruct (decide (nodes l = [])) as [En|Hne].
  - unfold nvlist_append. rewrite En. eexists. split; [done|]. cbn.
    split; [|done]. split; [by apply wf_link_head| |by vm_compute].
    intros i n [-> <-]%list_lookup_singleton_Some. cbn. by rewrite (wf_cnt _ Hwf), En.
  - destruct Hc as [|Hc]; [done|].
    destruct (append_links nm v l H Hne Hc) as (l0 & -> & Hw0 & E0 & C0 & Hc0).
    destruct (cl_link_cur (NvNode nm v None (cnt l)) l0) as [l'|] eqn:El.
    2: { unfold cl_link_cur in El. by rewrite Hc0 in El. }
    destruct (link_cur_last _ _ _ Hw0 ltac:(by rewrite E0) ltac:(by rewrite E0) El)
      as (En & Ec & Hw).
    exists l'. split; [done|].
    rewrite E0 in En, Ec. split; [|done]. split; [done| |].
    + rewrite En. by apply items_app.
    + rewrite En, length_app. cbn. lia.
Qed.

(** Every field has a name. *)
Definition named (l : nvlist) : Prop := Forall (fun n => is_Some (name n)) (nodes l).

Lemma list_find_stops nm ns :
  Forall (fun n => is_Some (name n)) ns ->
  list_find (fun n => stops nm n = true) ns = list_find (fun n => name n = Some nm) ns.
Proof.
  induction 1 as [|n ns [m Hm] _ IH]; cbn; [done|]. rewrite IH. unfold stops. rewrite Hm.
  destruct (decide (m = nm)) as [->|Hne].
  - by rewrite !decide_True by (rewrite ?str_eq_refl; done).
  - by rewrite !decide_False by (rewrite ?str_eq_true; congruence).
Qed.

(** A scan from the first field finds the first field of that name. *)
Lemma find_name_list nm l :
  named l ->
  nvlist_find_name nm (nvlist_first l)
  = match list_find (fun n => name n = Some nm) (nodes l) with
    | Some (i, _) => Some (true, CList (nodes l) (Some i) (cnt l))
    | None => Some (false, nvlist_first l)
    end.
Proof.
  intros Hn. unfold nvlist_find_name, cl_find, nvlist_first, cl_first, cl_head. cbn.
  destruct (nodes l) as [|n ns] eqn:En; [done|]. rewrite <-En, find_from_0 in *.
  rewrite (list_find_stops nm (nodes l) Hn).
  destruct (list_find _ (nodes l)) as [[i m]|] eqn:E; [|done]. cbn.
  apply list_find_Some in E as (Hi & Hm & _). unfold cl_get_cur. cbn. rewrite Hi. cbn.
  by rewrite Hm.
Qed.

(** Numbers reach their node: [nvlist_goto_rec] is random access. *)
Lemma goto_rec_spec l i n :
  ok l -> nodes l !! i = Some n ->
  nvlist_goto_rec (Z.of_nat i) l = (true, CList (nodes l) (Some i) (cnt l)).
Proof.
  intros [Hw Hi Hs] Hn. pose proof (lookup_lt_Some _ _ _ Hn) as Hlt.
  unfold nvlist_goto_rec, cl_find, cl_head.
  assert (find_from (fun n => item n =? Z.of_nat i) (nodes l) 0 = Some i) as E.
  { destruct (find_from _ (nodes l) 0) as [j|] eqn:E.
    - apply find_from_spec in E as (_ & (m & Hm & Hp) & _).
      pose proof (lookup_lt_Some _ _ _ Hm). apply Z.eqb_eq in Hp.
      rewrite (Hi _ _ Hm), u32_small in Hp by lia. f_equal. lia.
    - eapply find_from_None in E; [|lia|exact Hn]. apply Z.eqb_neq in E.
      rewrite (Hi _ _ Hn), u32_small in E by lia. done. }
  destruct (nodes l) as [|n0 ns]; [done|]. by rewrite E.
Qed.

(** A list filled with [fs], one append after the other. *)
Definition build (fs : list (option string * option string)) : option nvlist :=
  foldl (fun acc f => acc ≫= nvlist_append f.1 f.2) (Some nvlist_create) fs.

Lemma build_spec fs :
  Z.of_nat (length fs) < two32 ->
  exists l, build fs = Some l /\ ok l /\ (fun n => (name n, val n)) <$> nodes l = fs /\
    (nodes l = [] \/ is_Some (cur l)).
Proof.
  induction fs as [|[nm v] fs IH] using rev_ind; intros Hlen.
  { exists nvlist_create. split; [done|]. split; [apply ok_create|]. auto. }
  rewrite length_app in Hlen. cbn in Hlen. destruct IH as (l & Hb & Hok & Hfs & Hc); [lia|].
  destruct (nvlist_append_spec nm v l Hok Hc) as (l' & Ha & Hok' & Hn & Hc').
  { rewrite <-(length_fmap (fun n => (name n, val n))), Hfs. lia. }
  exists l'. unfold build in *. rewrite foldl_app, Hb. cbn. split; [done|]. split; [done|].
  split; [|right; by rewrite Hc'].
  by rewrite Hn, fmap_app, Hfs.
Qed.

(** The fields appended to a list are all there, in order; [nvlist_goto_rec]
    reaches each by its number, and a scan from the start the first of each
    name. *)
Theorem nvlist_access fs i nm v :
  Z.of_nat (length fs) < two32 -> Forall (fun f => is_Some f.1) fs ->
  fs !! i = Some (Some nm, v) ->
  exists l, build fs = Some l /\
    (exists l', nvlist_goto_rec (Z.of_nat i) l = (true, l') /\ nvlist_get_cur_val l' = v) /\
    (exists l' j w, nvlist_find_name nm (nvlist_first l) = Some (true, l') /\
       fs !! j = Some (Some nm, w) /\ nvlist_get_cur_val l' = w /\
       forall k w', (k < j)%nat -> fs !! k <> Some (Some nm, w')).
Proof.
  intros Hlen Hnamed Hi. destruct (build_spec fs Hlen) as (l & Hb & Hok & <- & _).
  exists l. split; [done|]. apply list_lookup_fmap_Some in Hi as (n & [= Hnm0 ->] & Hn). split.
  - exists (CList (nodes l) (Some i) (cnt l)). split; [by eapply goto_rec_spec|].
    unfold nvlist_get_cur_val, cl_get_cur. cbn. by rewrite Hn.
  - rewrite find_name_list by (by rewrite !Forall_fmap in Hnamed). destruct (list_find _ (nodes l)) as [[j m]|] eqn:E.
    2: { apply list_find_None in E. rewrite Forall_lookup in E. by destruct (E i n Hn). }
    apply list_find_Some in E as (Hm & Hnm & Hfirst).
    exists (CList (nodes l) (Some j) (cnt l)), j, (val m). split; [done|].
    split; [by rewrite list_lookup_fmap, Hm; cbn; rewrite Hnm|].
    split; [unfold nvlist_get_cur_val, cl_get_cur; cbn; by rewrite Hm|].
    intros k w' Hk Hc. apply list_lookup_fmap_Some in Hc as (m' & [= Hm' _] & Hk').
    by apply (Hfirst k m').
Qed.

Lemma nvlist_access_witness :
  let fs := [(Some "uid", Some "0"); (Some "key", Some "a"); (Some "uid", Some "7")]%string in
  exists l, build fs = Some l /\
    (exists l', nvlist_goto_rec 2 l = (true, l') /\ nvlist_get_cur_val l' = Some "7"%string).
Proof.
  intros fs. destruct (nvlist_access fs 2 "uid" (Some "7"%string)) as (l & Hb & Hg & _);
    [vm_compute; reflexivity|by repeat constructor|reflexivity|]. by exists l.
Defined.

End Nv.
