(* ===== verification/Expr.v ===== *)
(** * Search expressions (src/auparse/expression.c, expression.h)

    The lexer, the recursive descent parser and the evaluator of the search
    expressions of auparse.  Memory allocation is taken to succeed. *)
From S2P Require Import Prelude CString CList Nvlist.

Local Open Scope string_scope.
Local Open Scope Z_scope.
Local Open Scope audit_scope.

Module Expr.
Import Nv.

(** ** Expressions *)

(** The operators of a comparison, a part of the EO_ enumeration. *)
Inductive cmp_op :=
  | EO_RAW_EQ | EO_RAW_NE | EO_INTERPRETED_EQ | EO_INTERPRETED_NE
  | EO_VALUE_EQ | EO_VALUE_NE | EO_VALUE_LT | EO_VALUE_LE | EO_VALUE_GT | EO_VALUE_GE.

Inductive field_id := EF_TIMESTAMP | EF_RECORD_TYPE | EF_TIMESTAMP_EX.

(** [v.p.field]; the constructor is the bit [virtual_field]. *)
Inductive field := Name (name : string) | Id (id : field_id).

(** [v.p.value] and [v.p.unsigned_val].  The serial number of a time stamp is
    [None] while its memory has not been written. *)
Inductive value :=
  | VString (s : string)                              (* precomputed_value = 0 *)
  | VTimestamp (sec milli : Z) (serial : option Z)
  | VInt (n : Z)
  | VUnsigned (n : Z).

#[global] Instance cmp_op_eq_dec : EqDecision cmp_op.
Proof. solve_decision. Defined.
#[global] Instance field_id_eq_dec : EqDecision field_id.
Proof. solve_decision. Defined.
#[global] Instance field_eq_dec : EqDecision field.
Proof. solve_decision. Defined.
#[global] Instance value_eq_dec : EqDecision value.
Proof. solve_decision. Defined.

(** The tables and the regular expressions the code calls. *)
Class ExprEnv := {
  lookup_type : string -> Z;
  audit_name_to_msg_type : string -> Z;
  regex_t : Type;
  regcomp : string -> regex_t + string;    (* the error message *)
  regexec : regex_t -> string -> bool;
}.

Definition AUPARSE_TYPE_UID : Z := 1.
Definition AUPARSE_TYPE_GID : Z := 2.
Definition INT_MAX : Z := 2 ^ 31 - 1.
Definition INT64_MAX : Z := 2 ^ 63 - 1.
Definition INT64_MIN : Z := - 2 ^ 63.

Inductive token_type :=
  | EO_NOT | EO_AND | EO_OR
  | EO_CMP (op : cmp_op)
  | T_LEFT_PAREN | T_RIGHT_PAREN | T_STRING | T_REGEXP
  | T_FIELD_ESCAPE | T_UNKNOWN | T_EOF.

#[global] Instance token_type_eq_dec : EqDecision token_type.
Proof. solve_decision. Defined.

Record parsing := Parsing {
  token : token_type;
  token_start : string;
  token_len : Z;
  token_value : option string;
  src : string;
}.

(** A result, or the text of the error message. *)
Abbreviation outcome A := (A + string)%type.

Definition obind {A B} (f : A -> outcome B) (x : outcome A) : outcome B :=
  match x with inl a => f a | inr m => inr m end.
Notation "'let!' x := e 'in' k" := (obind (fun x => k) e)
  (at level 10, x pattern, k at level 200) : audit_scope.

(** ** The lexer *)

Definition is_blank (c : ascii) : bool := (c =c " "%char) || (c =c TAB) || (c =c LF).

Definition IS_UNQUOTED_STRING_CHAR (c : ascii) : bool :=
  between 97 122 c || between 65 90 c || between 48 57 c
  || (c =c "_"%char) || (c =c "-"%char).

Definition unknown_escape (rest : string) : string :=
  "Unknown escape sequence ``" +:+ String BACKSLASH rest.

(** The characters up to the delimiter, with their escapes resolved, and what
    follows it.  [buf_size] is the size of the buffer, [dest] what it holds. *)
Fixpoint delimited (delimiter : ascii) (buf_size dest : Z) (s : string)
    : outcome (string * string) :=
  let store c s' :=
    if (buf_size <=? dest + 1) && (SIZE_MAX / 2 <? buf_size)
    then inr "Delimited string too long"
    else
      let buf_size := if buf_size <=? dest + 1 then 2 * buf_size else buf_size in
      let! (buf, rest) := delimited delimiter buf_size (dest + 1) s' in
      inl (String c buf, rest) in
  match s with
  | EmptyString => inr "Terminating delimiter missing"
  | String c s' =>
      if c =c delimiter then inl ("", s')
      else if c =c BACKSLASH then
        match s' with
        | EmptyString => inr (unknown_escape "")
        | String d s'' =>
            if (d =c BACKSLASH) || (d =c delimiter) then store d s''
            else inr (unknown_escape (String d "''"))
        end
      else store c s'
  end.

(** A token, its value and the source after it. *)
Definition lexeme : Type := token_type * option string * string.

Definition lex_delimited (delimiter : ascii) (s : string) : outcome lexeme :=
  let! (buf, rest) := delimited delimiter 8 0 s in
  inl (if delimiter =c "/"%char then T_REGEXP else T_STRING, Some buf, rest).

(** [yes] and one more character when the next one is [c], else [no]. *)
Definition lex_two (c : ascii) (yes no : token_type) (s : string) : lexeme :=
  if char_at s =c c then (yes, None, skip 1 s) else (no, None, s).

Definition lex_bang (s : string) : lexeme :=
  if (char_at s =c "="%char) && (char_at (skip 1 s) =c "="%char)
  then (EO_CMP EO_VALUE_NE, None, skip 2 s)
  else (EO_NOT, None, s).

(** [s] starts with a character of the string, whatever it is. *)
Definition unquoted_string (s : string) : lexeme :=
  let (a, rest) := span IS_UNQUOTED_STRING_CHAR (skip 1 s) in
  (T_STRING, Some (String (char_at s) a), rest).

(** The cases 'i' and 'r'. *)
Definition lex_letter (eq ne : cmp_op) (s : string) : lexeme :=
  if char_at (skip 1 s) =c "="%char then (EO_CMP eq, None, skip 2 s)
  else if (char_at (skip 1 s) =c "!"%char) && (char_at (skip 2 s) =c "="%char)
  then (EO_CMP ne, None, skip 3 s)
  else unquoted_string s.

(** The switch on the first character. *)
Definition lex_switch (s : string) : outcome lexeme :=
  match s with
  | EmptyString => inl (T_EOF, None, s)
  | String c s' =>
      if c =c "!"%char then inl (lex_bang s')
      else if (c =c DQUOTE) || (c =c "/"%char) then lex_delimited c s'
      else if c =c "&"%char then inl (lex_two "&"%char EO_AND T_UNKNOWN s')
      else if c =c "("%char then inl (T_LEFT_PAREN, None, s')
      else if c =c ")"%char then inl (T_RIGHT_PAREN, None, s')
      else if c =c "<"%char
      then inl (lex_two "="%char (EO_CMP EO_VALUE_LE) (EO_CMP EO_VALUE_LT) s')
      else if c =c "="%char
      then inl (lex_two "="%char (EO_CMP EO_VALUE_EQ) T_UNKNOWN s')
      else if c =c ">"%char
      then inl (lex_two "="%char (EO_CMP EO_VALUE_GE) (EO_CMP EO_VALUE_GT) s')
      else if c =c BACKSLASH then inl (T_FIELD_ESCAPE, None, s')
      else if c =c "|"%char then inl (lex_two "|"%char EO_OR T_UNKNOWN s')
      else if c =c "i"%char then inl (lex_letter EO_INTERPRETED_EQ EO_INTERPRETED_NE s)
      else if c =c "r"%char then inl (lex_letter EO_RAW_EQ EO_RAW_NE s)
      else if IS_UNQUOTED_STRING_CHAR c then inl (unquoted_string s)
      else inl (T_UNKNOWN, None, s')
  end.

Definition lex (p : parsing) : outcome parsing :=
  let start := snd (span is_blank (src p)) in
  let! (t, v, rest) := lex_switch start in
  let len := Z.of_nat (String.length start) - Z.of_nat (String.length rest) in
  if INT_MAX <? len then inr "Token too long"
  else inl (Parsing t start len v rest).

(** ** The parser *)

(** The token as [%.*s] prints it. *)
Definition token_text (p : parsing) : string :=
  prefix_of (Z.to_nat (token_len p)) (token_start p).

(** [p->token_value], which is not NULL for a string (see [lex_value]). *)
Definition token_string (p : parsing) : string := default "" (token_value p).

Definition quoted (msg t : string) : string := msg +:+ " `" +:+ t +:+ "'".

Definition parse_escaped_field_name (name : string) : option field_id :=
  if str_eq name "timestamp" then Some EF_TIMESTAMP
  else if str_eq name "record_type" then Some EF_RECORD_TYPE
  else if str_eq name "timestamp_ex" then Some EF_TIMESTAMP_EX
  else None.

(** The conversions %jd and %u of [sscanf] with glibc's overflow behaviour. *)
Definition scan_jd (s : string) : option (Z * string) :=
  (fun vr => (Z.max INT64_MIN (Z.min INT64_MAX (fst vr)), snd vr)) <$> scan_number s.
Definition scan_u (s : string) : option (Z * string) :=
  (fun vr => (u32 (if SIZE_MAX <? Z.abs (fst vr) then SIZE_MAX else u64 (fst vr)), snd vr))
    <$> scan_number s.

(** "ts:%jd.%u" and what follows, and "ts:%jd.%u:%u". *)
Definition scan_ts2 (s : string) : option (Z * Z * string) :=
  s ← scan_literal "ts:" s;
  '(sec, s) ← scan_jd s;
  s ← scan_literal "." s;
  '(milli, s) ← scan_u s;
  Some (sec, milli, s).
Definition scan_ts3 (s : string) : option (Z * Z * Z) :=
  '(sec, milli, s) ← scan_ts2 s;
  s ← scan_literal ":" s;
  '(serial, _) ← scan_u s;
  Some (sec, milli, serial).

Definition in_timestamp (c : ascii) : bool :=
  (c =c "t"%char) || (c =c "s"%char) || (c =c ":"%char) || isdigit c || (c =c "."%char).

(** Time stamps are read by [sscanf] from the start of the token, and the source
    then continues after the characters of a time stamp.  [time_t] has the 64
    bits of [intmax_t], so that the test for overflow never fires. *)
Definition parse_timestamp_value (p : parsing) : outcome (value * parsing) :=
  let fields :=
    match scan_ts3 (token_start p) with
    | Some (sec, milli, serial) => Some (VTimestamp sec milli (Some serial))
    | None => match scan_ts2 (token_start p) with
              | Some (sec, milli, _) => Some (VTimestamp sec milli None)
              | None => None
              end
    end in
  match fields with
  | None => inr (quoted "Invalid timestamp value" (token_text p))
  | Some v =>
      inl (v, Parsing (token p) (token_start p) (token_len p) (token_value p)
                (snd (span in_timestamp (token_start p))))
  end.

(** [strtoul] into a [uint32_t]. *)
Definition parse_unsigned_value (p : parsing) : outcome value :=
  let (v, erange) := strtoul 10 (token_string p) in
  if erange then inr (quoted "Error converting number" (token_text p))
  else inl (VUnsigned (u32 v)).

(** A computation with fuel: [None] when it runs out. *)
Definition mbind_outcome {A B} (f : A -> option (outcome B)) (x : option (outcome A))
    : option (outcome B) :=
  match x with
  | None => None
  | Some (inr m) => Some (inr m)
  | Some (inl a) => f a
  end.
Notation "'let*' x := e 'in' k" := (mbind_outcome (fun x => k) e)
  (at level 10, x pattern, k at level 200) : audit_scope.

Section parser.
Context `{ExprEnv}.

(** [struct expr]; the constructor is [op]. *)
Inductive expr :=
  | ENot (e : expr)
  | EAnd (e1 e2 : expr)
  | EOr (e1 e2 : expr)
  | ECmp (op : cmp_op) (numeric_field : bool) (f : field) (v : value)
  | EFieldExists (name : string)
  | ERegexpMatches (re : regex_t).

Definition parse_record_type_value (p : parsing) : outcome value :=
  let type := audit_name_to_msg_type (token_string p) in
  if type <? 0 then inr (quoted "Invalid record type" (token_text p))
  else inl (VInt type).

Definition parse_virtual_field_value (id : field_id) (p : parsing)
    : outcome (value * parsing) :=
  match id with
  | EF_TIMESTAMP | EF_TIMESTAMP_EX => parse_timestamp_value p
  | EF_RECORD_TYPE => let! v := parse_record_type_value p in inl (v, p)
  end.

Definition parse_comparison_regexp (p : parsing) : outcome (expr * parsing) :=
  let! p := lex p in
  if bool_decide (token p = T_STRING \/ token p = T_REGEXP) then
    match regcomp (token_string p) with
    | inr err_msg => inr ("Invalid regexp: " +:+ err_msg)
    | inl re => let! p := lex p in inl (ERegexpMatches re, p)
    end
  else inr (quoted "Regexp expected, got" (token_text p)).

Definition is_string_op (op : cmp_op) : bool :=
  match op with
  | EO_RAW_EQ | EO_RAW_NE | EO_INTERPRETED_EQ | EO_INTERPRETED_NE => true
  | _ => false
  end.

(** The value of a comparison, the source after it, and the message that a field
    without numbers gives. *)
Definition parse_value (numeric_field : bool) (f : field) (p : parsing)
    : outcome (value * parsing) :=
  if numeric_field then
    match f with
    | Id id => parse_virtual_field_value id p
    | Name _ => let! v := parse_unsigned_value p in inl (v, p)
    end
  else inr ("Field `" +:+ match f with Name n => n | Id _ => "" end
            +:+ "' does not support value comparison").

(** From the operator on. *)
Definition parse_operator (numeric_field : bool) (f : field) (p : parsing)
    : outcome (expr * parsing) :=
  let! p := lex p in
  match token p with
  | EO_CMP op =>
      let! p := lex p in
      if bool_decide (token p = T_STRING) then
        if is_string_op op then
          let v := VString (token_string p) in
          let! p := lex p in
          inl (ECmp op numeric_field f v, p)
        else
          let! (v, p) := parse_value numeric_field f p in
          let! p := lex p in
          inl (ECmp op numeric_field f v, p)
      else inr (quoted "Value expected, got" (token_text p))
  | _ => inr (quoted "Operator expected, got" (token_text p))
  end.

Definition parse_comparison (p : parsing) : outcome (expr * parsing) :=
  if bool_decide (token p = T_FIELD_ESCAPE) then
    let! p := lex p in
    if bool_decide (token p = T_STRING) then
      if str_eq (token_string p) "regexp" then parse_comparison_regexp p
      else
        match parse_escaped_field_name (token_string p) with
        | None => inr (quoted "Unknown escaped field name" (token_text p))
        | Some id => parse_operator true (Id id) p
        end
    else inr "Field name expected after field escape"
  else
    let name := token_string p in
    let type := lookup_type name in
    parse_operator ((type =? AUPARSE_TYPE_UID) || (type =? AUPARSE_TYPE_GID)) (Name name) p.

(** The mutual recursion of the grammar; the loops of [parse_and] and
    [parse_or] are functions of their own. *)
Fixpoint parse_primary (fuel : nat) (p : parsing) : option (outcome (expr * parsing)) :=
  match fuel with
  | O => None
  | S fuel =>
      match token p with
      | EO_NOT =>
          let* p := Some (lex p) in
          let* (e, p) := parse_primary fuel p in
          Some (inl (ENot e, p))
      | T_LEFT_PAREN =>
          let* p := Some (lex p) in
          let* (e, p) := parse_or fuel p in
          if bool_decide (token p = T_RIGHT_PAREN) then
            let* p := Some (lex p) in
            Some (inl (e, p))
          else Some (inr (quoted "Right paren expected, got" (token_text p)))
      | T_FIELD_ESCAPE | T_STRING => Some (parse_comparison p)
      | _ => Some (inr (quoted "Unexpected token" (token_text p)))
      end
  end
with and_loop (fuel : nat) (res : expr) (p : parsing) : option (outcome (expr * parsing)) :=
  match fuel with
  | O => None
  | S fuel =>
      if bool_decide (token p = EO_AND) then
        let* p := Some (lex p) in
        let* (e2, p) := parse_primary fuel p in
        and_loop fuel (EAnd res e2) p
      else Some (inl (res, p))
  end
with parse_and (fuel : nat) (p : parsing) : option (outcome (expr * parsing)) :=
  match fuel with
  | O => None
  | S fuel => let* (res, p) := parse_primary fuel p in and_loop fuel res p
  end
with or_loop (fuel : nat) (res : expr) (p : parsing) : option (outcome (expr * parsing)) :=
  match fuel with
  | O => None
  | S fuel =>
      if bool_decide (token p = EO_OR) then
        let* p := Some (lex p) in
        let* (e2, p) := parse_and fuel p in
        or_loop fuel (EOr res e2) p
      else Some (inl (res, p))
  end
with parse_or (fuel : nat) (p : parsing) : option (outcome (expr * parsing)) :=
  match fuel with
  | O => None
  | S fuel => let* (res, p) := parse_and fuel p in or_loop fuel res p
  end.

(** Enough fuel for a source of [n] characters (see [expr_parse_total]). *)
Definition fuel_for (n : nat) : nat := 4 * n + 8.

Definition start_of (s : string) : parsing := Parsing T_EOF s 0 None s.

(** [None] only when the fuel runs out. *)
Definition expr_parse (s : string) : option (outcome expr) :=
  let* p := Some (lex (start_of s)) in
  if bool_decide (token p = T_EOF) then Some (inr "Empty expression")
  else
    let* (res, p) := parse_or (fuel_for (String.length s)) p in
    if bool_decide (token p = T_EOF) then Some (inl res)
    else Some (inr (quoted "Unexpected trailing token" (token_text p))).

(** ** Expressions built by the program

    [None]: an assertion fails. *)

Definition expr_create_comparison (field : string) (op : cmp_op) (value : string)
    : option expr :=
  if is_string_op op then Some (ECmp op false (Name field) (VString value)) else None.

Definition expr_create_timestamp_comparison_ex (op : cmp_op) (sec milli serial : Z)
    : option expr :=
  if is_string_op op then None
  else if milli <? 1000
  then Some (ECmp op true (Id EF_TIMESTAMP_EX) (VTimestamp sec milli (Some serial)))
  else None.

Definition expr_create_timestamp_comparison (op : cmp_op) (sec milli : Z) : option expr :=
  expr_create_timestamp_comparison_ex op sec milli 0.

Definition expr_create_field_exists (field : string) : expr := EFieldExists field.

(** [None]: NULL, with errno EINVAL. *)
Definition expr_create_regexp_expression (regexp : string) : option expr :=
  match regcomp regexp with inl re => Some (ERegexpMatches re) | inr _ => None end.

(** [is_and] tells EO_AND from EO_OR. *)
Definition expr_create_binary (is_and : bool) (e1 e2 : expr) : expr :=
  if is_and then EAnd e1 e2 else EOr e1 e2.

(** ** Evaluation *)

(** What the evaluator reads of [auparse_state_t]: the time stamp of the event
    [au->le->e] and the escape mode. *)
Record au := Au {
  sec : Z;
  milli : Z;
  serial : Z;
  escape_mode : Z;
}.

Context `{Interp}.

(** A computation that may abort ([None]) and moves the cursor of the record or
    fills in an interpretation. *)
Local Abbreviation eval A := (option (A * rnode)).

(** Find the field from the first one on; the cursor moves on a hit. *)
Definition goto_field (name : string) (r : rnode) : eval bool :=
  '(b, l) ← nvlist_find_name name (nvlist_first (nv r)); Some (b, set_nv r l).

Definition eval_raw_value (r : rnode) (f : field) : eval (option string) :=
  match f with
  | Name name =>
      '(found, r) ← goto_field name r;
      Some (if found : bool then nvlist_get_cur_val (nv r) else None, r)
  | Id _ => Some (None, r)
  end.

(** The number and [*valid]. *)
Definition eval_unsigned_value (r : rnode) (f : field) : eval (option Z) :=
  match f with
  | Name name =>
      '(found, r) ← goto_field name r;
      Some (if found : bool
            then (fun s => u32 (fst (strtoul 10 s))) <$> nvlist_get_cur_val (nv r)
            else None, r)
  | Id _ => None
  end.

Definition eval_interpreted_value (a : au) (r : rnode) (f : field) : eval (option string) :=
  match f with
  | Name name =>
      '(found, r) ← goto_field name r;
      if found : bool then
        match nvlist_interp_cur_val r (escape_mode a) with
        | None => None
        | Some (Some res, r) => Some (Some res, r)
        | Some (None, r) => Some (nvlist_get_cur_val (nv r), r)
        end
      else Some (None, r)
  | Id _ => Some (None, r)
  end.

Definition compare_unsigned_values (one two : Z) : Z :=
  if one <? two then -1 else if two <? one then 1 else 0.

(** [garbage] is what the memory of a serial number holds that was never
    written.  [Some None]: [*error] is set; [None]: the value is not of the
    field's kind (another member of the union). *)
Definition compare_values (garbage : Z) (a : au) (r : rnode) (numeric_field : bool)
    (id : field_id) (v : value) : option (option Z) :=
  if numeric_field then
    match id, v with
    | EF_TIMESTAMP, VTimestamp vsec vmilli _ =>
        Some $ Some $
        if sec a <? vsec then -1 else if vsec <? sec a then 1
        else if milli a <? vmilli then -1 else if vmilli <? milli a then 1
        else 0
    | EF_RECORD_TYPE, VInt n =>
        Some $ Some $ if type r <? n then -1 else if n <? type r then 1 else 0
    | EF_TIMESTAMP_EX, VTimestamp vsec vmilli vserial =>
        let vserial := default garbage vserial in
        Some $ Some $
        if sec a <? vsec then -1 else if vsec <? sec a then 1
        else if milli a <? vmilli then -1 else if vmilli <? milli a then 1
        else if serial a <? vserial then -1 else if vserial <? serial a then 1
        else 0
    | _, _ => None
    end
  else Some None.

(** The inner switch: [cmp] against zero; [None] for abort(). *)
Definition test_cmp (op : cmp_op) (cmp : Z) : option bool :=
  match op with
  | EO_VALUE_EQ => Some (cmp =? 0)
  | EO_VALUE_NE => Some (negb (cmp =? 0))
  | EO_VALUE_LT => Some (cmp <? 0)
  | EO_VALUE_LE => Some (cmp <=? 0)
  | EO_VALUE_GT => Some (0 <? cmp)
  | EO_VALUE_GE => Some (0 <=? cmp)
  | _ => None
  end.

(** The string cases: [eq] tells the equality operator; [None] when the value of
    the expression is not a string. *)
Definition eval_string (eq : bool) (v : value) (got : option string * rnode) : eval bool :=
  match got with
  | (None, r) => Some (false, r)
  | (Some s, r) =>
      match v with
      | VString w => Some (if eq then str_eq w s else negb (str_eq w s), r)
      | _ => None
      end
  end.

Definition eval_comparison (garbage : Z) (a : au) (op : cmp_op) (numeric_field : bool)
    (f : field) (v : value) (r : rnode) : eval bool :=
  match op with
  | EO_RAW_EQ => eval_raw_value r f ≫= eval_string true v
  | EO_RAW_NE => eval_raw_value r f ≫= eval_string false v
  | EO_INTERPRETED_EQ => eval_interpreted_value a r f ≫= eval_string true v
  | EO_INTERPRETED_NE => eval_interpreted_value a r f ≫= eval_string false v
  | _ =>
      match f with
      | Name _ =>
          '(valid, r) ← eval_unsigned_value r f;
          match valid, v with
          | None, _ => Some (false, r)
          | Some val, VUnsigned n =>
              b ← test_cmp op (compare_unsigned_values val n); Some (b, r)
          | Some _, _ => None
          end
      | Id id =>
          match compare_values garbage a r numeric_field id v with
          | None => None
          | Some None => Some (false, r)
          | Some (Some cmp) => b ← test_cmp op cmp; Some (b, r)
          end
      end
  end.

Fixpoint expr_eval (garbage : Z) (a : au) (r : rnode) (e : expr) : eval bool :=
  match e with
  | ENot e => '(b, r) ← expr_eval garbage a r e; Some (negb b, r)
  | EAnd e1 e2 =>
      '(b, r) ← expr_eval garbage a r e1;
      if (b : bool) then expr_eval garbage a r e2 else Some (false, r)
  | EOr e1 e2 =>
      '(b, r) ← expr_eval garbage a r e1;
      if (b : bool) then Some (true, r) else expr_eval garbage a r e2
  | ECmp op numeric_field f v => eval_comparison garbage a op numeric_field f v r
  | EFieldExists name => goto_field name r
  | ERegexpMatches re => Some (regexec re (record r), r)
  end.

End parser.

End Expr.
