(* ===== verification/ExprPrint.v ===== *)
(** * Printing and parsing search expressions

    A printer for the grammar of expression.c that writes as few parentheses as
    the precedences allow, and the proof that the parser reads back what it
    wrote: [&&] binds tighter than [||], both associate to the left, [!] applies
    to a primary expression, and any string survives quoting. *)
From S2P Require Import Prelude CString CList Nvlist Expr ExprFacts.

Local Open Scope string_scope.
Local Open Scope Z_scope.
Local Open Scope audit_scope.

Module ExprPrint.
Import Expr ExprFacts.

Local Abbreviation len := String.length.

(** ** Source expressions *)

(** What a user writes.  The numbers of a time stamp are strings of digits. *)
Inductive sexpr :=
  | SNot (s : sexpr)
  | SAnd (s1 s2 : sexpr)
  | SOr (s1 s2 : sexpr)
  | SString (op : cmp_op) (f : field) (v : string)
  | SNumber (op : cmp_op) (f : string) (v : string)
  | STime (op : cmp_op) (extended : bool) (sec milli : string) (serial : option string)
  | SType (op : cmp_op) (v : string)
  | SRegexp (v : string).

Fixpoint all_chars (f : ascii -> bool) (s : string) : bool :=
  match s with EmptyString => true | String c s => f c && all_chars f s end.
Definition all_digits : string -> bool := all_chars isdigit.
Definition number_like (s : string) : bool :=
  match s with EmptyString => false | _ => all_digits s end.
Definition number (s : string) : Z := fst (digits 10 0 s).

Definition serial_ok (serial : option string) : bool :=
  match serial with Some n => number_like n | None => true end.

(** A number in an [unsigned int], as [sscanf] stores it. *)
Definition clip (n : Z) : Z := u32 (if SIZE_MAX <? n then SIZE_MAX else n).

Section elab.
Context `{ExprEnv}.

Definition numeric (f : string) : bool :=
  let type := lookup_type f in
  (type =? AUPARSE_TYPE_UID) || (type =? AUPARSE_TYPE_GID).

(** The expression a source expression stands for, if it is a correct one. *)
Fixpoint elab (s : sexpr) : option expr :=
  match s with
  | SNot s => ENot <$> elab s
  | SAnd s1 s2 => e1 ← elab s1; e2 ← elab s2; Some (EAnd e1 e2)
  | SOr s1 s2 => e1 ← elab s1; e2 ← elab s2; Some (EOr e1 e2)
  | SString op f v =>
      if is_string_op op
      then Some (ECmp op match f with Name n => numeric n | Id _ => true end f (VString v))
      else None
  | SNumber op f v =>
      match strtoul 10 v with
      | (n, false) =>
          if negb (is_string_op op) && numeric f
          then Some (ECmp op true (Name f) (VUnsigned (u32 n))) else None
      | (_, true) => None
      end
  | STime op ex sec milli serial =>
      if negb (is_string_op op) && number_like sec && number_like milli
         && serial_ok serial
      then Some (ECmp op true (Id (if ex then EF_TIMESTAMP_EX else EF_TIMESTAMP))
                   (VTimestamp (Z.min INT64_MAX (number sec)) (clip (number milli))
                      (clip ∘ number <$> serial)))
      else None
  | SType op v =>
      if negb (is_string_op op) && (0 <=? audit_name_to_msg_type v)
      then Some (ECmp op true (Id EF_RECORD_TYPE) (VInt (audit_name_to_msg_type v)))
      else None
  | SRegexp v => match regcomp v with inl re => Some (ERegexpMatches re) | inr _ => None end
  end.

End elab.

(** ** The printer

    The text of an expression followed by [k]; every token is followed by a
    blank. *)

Definition word (t k : string) : string := t +:+ String " " k.

Fixpoint escape (d : ascii) (s : string) : string :=
  match s with
  | EmptyString => ""
  | String c s => if (c =c BACKSLASH) || (c =c d)
                  then String BACKSLASH (String c (escape d s)) else String c (escape d s)
  end.

Definition quote (d : ascii) (s k : string) : string :=
  String d (escape d s +:+ String d (String " " k)).

Definition op_text (op : cmp_op) : string :=
  match op with
  | EO_RAW_EQ => "r=" | EO_RAW_NE => "r!="
  | EO_INTERPRETED_EQ => "i=" | EO_INTERPRETED_NE => "i!="
  | EO_VALUE_EQ => "==" | EO_VALUE_NE => "!==" | EO_VALUE_LT => "<" | EO_VALUE_LE => "<="
  | EO_VALUE_GT => ">" | EO_VALUE_GE => ">="
  end.

Definition field_text (f : field) (k : string) : string :=
  match f with
  | Name n => quote DQUOTE n k
  | Id EF_TIMESTAMP => String BACKSLASH (word "timestamp" k)
  | Id EF_RECORD_TYPE => String BACKSLASH (word "record_type" k)
  | Id EF_TIMESTAMP_EX => String BACKSLASH (word "timestamp_ex" k)
  end.

Definition time_text (sec milli : string) (serial : option string) : string :=
  "ts:" +:+ sec +:+ "." +:+ milli +:+ match serial with Some n => ":" +:+ n | None => "" end.

(** [lvl]: 0 for an or-expression, 1 for an and-expression, 2 for a primary
    expression. *)
Fixpoint pr (lvl : nat) (s : sexpr) (k : string) : string :=
  match s with
  | SNot s => word "!" (pr 2 s k)
  | SAnd s1 s2 =>
      if decide (lvl <= 1)%nat then pr 1 s1 (word "&&" (pr 2 s2 k))
      else word "(" (pr 1 s1 (word "&&" (pr 2 s2 (word ")" k))))
  | SOr s1 s2 =>
      if decide (lvl <= 0)%nat then pr 0 s1 (word "||" (pr 1 s2 k))
      else word "(" (pr 0 s1 (word "||" (pr 1 s2 (word ")" k))))
  | SString op f v => field_text f (word (op_text op) (quote DQUOTE v k))
  | SNumber op f v => field_text (Name f) (word (op_text op) (quote DQUOTE v k))
  | STime op ex sec milli serial =>
      field_text (Id (if ex then EF_TIMESTAMP_EX else EF_TIMESTAMP))
        (word (op_text op) (word (time_text sec milli serial) k))
  | SType op v => field_text (Id EF_RECORD_TYPE) (word (op_text op) (quote DQUOTE v k))
  | SRegexp v => String BACKSLASH (word "regexp" (quote "/" v k))
  end.

(** [print s] parses to [elab s]; see [parse_print]. *)
Definition print (s : sexpr) : string := pr 0 s "".

(** ** Lengths *)

Definition fits (s : string) : Prop := Z.of_nat (len s) <= INT_MAX.

Lemma app_cons c a b : String c a +:+ b = String c (a +:+ b).
Proof. reflexivity. Qed.

Lemma app_empty b : "" +:+ b = b.
Proof. reflexivity. Qed.

Lemma app_assoc_str a b c : (a +:+ b) +:+ c = a +:+ (b +:+ c).
Proof. induction a as [|x a IH]; [done|]. by rewrite !app_cons, IH. Qed.

Lemma length_app_str a b : len (a +:+ b) = (len a + len b)%nat.
Proof. induction a as [|c a IH]; [done|]. rewrite app_cons. cbn. by rewrite IH. Qed.

Lemma length_word t k : len (word t k) = (len t + S (len k))%nat.
Proof. unfold word. by rewrite length_app_str. Qed.

Lemma length_escape d s : (len s <= len (escape d s))%nat.
Proof. induction s as [|c s IH]; cbn; [done|]. destruct (_ || _); cbn; lia. Qed.

Lemma length_quote d s k : (len s + 3 + len k <= len (quote d s k))%nat.
Proof.
  unfold quote. cbn. rewrite length_app_str. cbn. pose proof (length_escape d s). lia.
Qed.

Lemma length_field f k : (len k < len (field_text f k))%nat.
Proof.
  destruct f as [n|[]]; cbn -[quote]; try rewrite length_word; try (cbn; lia).
  pose proof (length_quote DQUOTE n k). lia.
Qed.

Lemma length_pr s : forall lvl k, (len k <= len (pr lvl s k))%nat.
Proof.
  assert (forall f op v k, (len k <= len (field_text f (word (op_text op) (quote DQUOTE v k))))%nat)
    as Hq.
  { intros f op v k. pose proof (length_field f (word (op_text op) (quote DQUOTE v k))).
    rewrite length_word in *. pose proof (length_quote DQUOTE v k). lia. }
  induction s as [s IH|s1 IH1 s2 IH2|s1 IH1 s2 IH2|op f v|op f v|op ex sec milli serial|op v|v];
    intros lvl k; cbn -[field_text quote word].
  - rewrite length_word. specialize (IH 2%nat k). lia.
  - case_decide; rewrite ?length_word.
    + specialize (IH1 1%nat (word "&&" (pr 2 s2 k))). specialize (IH2 2%nat k).
      rewrite length_word in IH1. lia.
    + specialize (IH1 1%nat (word "&&" (pr 2 s2 (word ")" k)))).
      specialize (IH2 2%nat (word ")" k)). rewrite !length_word in *. lia.
  - case_decide; rewrite ?length_word.
    + specialize (IH1 0%nat (word "||" (pr 1 s2 k))). specialize (IH2 1%nat k).
      rewrite length_word in IH1. lia.
    + specialize (IH1 0%nat (word "||" (pr 1 s2 (word ")" k)))).
      specialize (IH2 1%nat (word ")" k)). rewrite !length_word in *. lia.
  - apply Hq.
  - apply Hq.
  - pose proof (length_field (Id (if ex then EF_TIMESTAMP_EX else EF_TIMESTAMP))
      (word (op_text op) (word (time_text sec milli serial) k))) as Hf.
    rewrite !length_word in Hf. lia.
  - apply Hq.
  - pose proof (length_quote "/" v k). rewrite length_word. lia.
Qed.

(** ** Lexing printed tokens *)

(** The state after the token that ends where [rest] starts. *)
Definition at_token (t : token_type) (v : option string) (start rest : string) : parsing :=
  Parsing t start (Z.of_nat (len start) - Z.of_nat (len rest)) v rest.

(** The lexer stands on the first token of [s]. *)
Definition pos (s : string) (p : parsing) : Prop := lex (start_of s) = inl p.

Lemma lex_start p : lex p = lex (start_of (src p)).
Proof. reflexivity. Qed.

Lemma lex_blank k : lex (start_of (String " " k)) = lex (start_of k).
Proof. unfold lex, start_of. cbn [src span]. cbn. by destruct (span is_blank k). Qed.

Lemma lex_next p k : src p = String " " k -> lex p = lex (start_of k).
Proof. intros E. by rewrite lex_start, E, lex_blank. Qed.

Lemma pos_intro s t v rest :
  fits s -> is_blank (char_at s) = false -> lex_switch s = inl (t, v, rest) ->
  pos s (at_token t v s rest).
Proof.
  intros Hf Hb Hs. unfold pos, lex, start_of. cbn [src].
  assert (span is_blank s = ("", s)) as ->.
  { destruct s as [|c s]; [done|]. cbn in *. by rewrite Hb. }
  cbn [snd]. rewrite Hs. unfold obind. unfold fits in Hf.
  destruct (Z.ltb_spec INT_MAX (Z.of_nat (len s) - Z.of_nat (len rest))); [lia|done].
Qed.

Lemma pos_end : pos "" (at_token T_EOF None "" "").
Proof. reflexivity. Qed.

(** Quoting is undone; the buffer never gets too large. *)
Lemma delimited_escape d bs n s k :
  d <> BACKSLASH -> 0 <= n -> bs <= 2 * n + 8 -> n + Z.of_nat (len s) <= INT_MAX ->
  delimited d bs n (escape d s +:+ String d k) = inl (s, k).
Proof.
  intros Hd. revert bs n. induction s as [|c s IH]; intros bs n Hn Hb Hf.
  { cbn [escape]. rewrite app_empty. cbn [delimited]. by rewrite Ascii.eqb_refl. }
  assert (forall bs', bs' <= 2 * (n + 1) + 8 ->
    delimited d bs' (n + 1) (escape d s +:+ String d k) = inl (s, k)) as Hrec.
  { intros bs' Hb'. apply IH; [lia|done|]. cbn [len] in Hf. lia. }
  assert ((bs <=? n + 1) && (SIZE_MAX / 2 <? bs) = false) as Hok.
  { apply andb_false_intro2, Z.ltb_ge. transitivity (2 * INT_MAX + 8); [lia|by vm_compute]. }
  assert ((if bs <=? n + 1 then 2 * bs else bs) <= 2 * (n + 1) + 8) as Hbs
    by (destruct (Z.leb_spec bs (n + 1)); lia).
  cbn [escape]. destruct ((c =c BACKSLASH) || (c =c d)) eqn:Ec.
  - rewrite !app_cons. cbn [delimited].
    destruct (BACKSLASH =c d) eqn:E; [apply char_eq_true in E; congruence|].
    rewrite Ascii.eqb_refl, Ec, Hok, Hrec by done. done.
  - apply orb_false_elim in Ec as [Eb Ed]. rewrite app_cons. cbn [delimited].
    rewrite Eb, Ed, Hok, Hrec by done. done.
Qed.

Lemma pos_quote s k :
  fits (quote DQUOTE s k) ->
  pos (quote DQUOTE s k) (at_token T_STRING (Some s) (quote DQUOTE s k) (String " " k)).
Proof.
  intros Hf. apply pos_intro; [done..|]. pose proof (length_quote DQUOTE s k).
  unfold fits in Hf. unfold quote. cbn. unfold lex_delimited.
  rewrite delimited_escape; [done|done|lia|lia|lia].
Qed.

Lemma pos_regexp s k :
  fits (quote "/" s k) ->
  pos (quote "/" s k) (at_token T_REGEXP (Some s) (quote "/" s k) (String " " k)).
Proof.
  intros Hf. apply pos_intro; [done..|]. pose proof (length_quote "/" s k).
  unfold fits in Hf. unfold quote. cbn. unfold lex_delimited.
  rewrite delimited_escape; [done|done|lia|lia|lia].
Qed.

Lemma pos_op op k :
  fits (word (op_text op) k) ->
  pos (word (op_text op) k) (at_token (EO_CMP op) None (word (op_text op) k) (String " " k)).
Proof. intros Hf. apply pos_intro; [done|by destruct op|by destruct op]. Qed.

Lemma pos_escape k :
  fits (String BACKSLASH k) ->
  pos (String BACKSLASH k) (at_token T_FIELD_ESCAPE None (String BACKSLASH k) k).
Proof. intros Hf. by apply pos_intro. Qed.

Lemma fits_le s t : fits s -> (len t <= len s)%nat -> fits t.
Proof. unfold fits. lia. Qed.

(** ** Time stamps *)

Definition no_digit (k : string) : Prop := isdigit (char_at k) = false.

Lemma isdigit_value c : isdigit c = true -> (digit_value c <? 10) = true.
Proof. by destruct c as [[] [] [] [] [] [] [] []]. Qed.

Lemma digits_stop c : isdigit c = false -> (digit_value c <? 10) = false.
Proof. by destruct c as [[] [] [] [] [] [] [] []]. Qed.

Lemma digits_app acc s k :
  all_digits s = true -> no_digit k ->
  digits 10 acc (s +:+ k) = (fst (digits 10 acc s), k).
Proof.
  intros Hs Hk. revert acc Hs. induction s as [|c s IH]; intros acc Hs.
  - rewrite app_empty. destruct k as [|c k]; [done|]. cbn. by rewrite digits_stop.
  - cbn in Hs. apply andb_true_iff in Hs as [Hc Hs]. rewrite app_cons. cbn [digits].
    rewrite isdigit_value by done. by apply IH.
Qed.

Lemma isdigit_no_sign c :
  isdigit c = true -> isspace c = false /\ (c =c "-"%char) = false /\ (c =c "+"%char) = false.
Proof. destruct c as [[] [] [] [] [] [] [] []]; done. Qed.

Lemma scan_number_app s k :
  number_like s = true -> no_digit k -> scan_number (s +:+ k) = Some (number s, k).
Proof.
  intros Hs Hk. destruct s as [|c s]; [done|]. pose proof Hs as Hd. cbn in Hs.
  apply andb_true_iff in Hs as [Hc Hs]. destruct (isdigit_no_sign c Hc) as (E1 & E2 & E3).
  unfold scan_number, scan_sign. rewrite app_cons. cbn [span]. rewrite E1.
  cbn [snd char_at]. rewrite E2, E3. cbn [char_at]. rewrite Hc, <-app_cons.
  by rewrite digits_app.
Qed.

Lemma number_nonneg s : 0 <= number s.
Proof. unfold number. by apply digits_nonneg. Qed.

Lemma scan_jd_app s k :
  number_like s = true -> no_digit k -> scan_jd (s +:+ k) = Some (Z.min INT64_MAX (number s), k).
Proof.
  intros Hs Hk. unfold scan_jd. rewrite scan_number_app by done. cbn -[INT64_MAX INT64_MIN].
  pose proof (number_nonneg s). do 2 f_equal. apply Z.max_r.
  transitivity 0; [by vm_compute|]. apply Z.min_glb; [by vm_compute|done].
Qed.

Lemma scan_u_app s k :
  number_like s = true -> no_digit k -> scan_u (s +:+ k) = Some (clip (number s), k).
Proof.
  intros Hs Hk. unfold scan_u. rewrite scan_number_app by done. cbn -[SIZE_MAX u32 u64].
  pose proof (number_nonneg s). rewrite Z.abs_eq by done. unfold clip.
  destruct (Z.ltb_spec SIZE_MAX (number s)); [done|].
  rewrite u64_small; [done|]. unfold SIZE_MAX in *. lia.
Qed.

Lemma span_app f a k :
  all_chars f a = true -> f (char_at k) = false \/ k = "" -> span f (a +:+ k) = (a, k).
Proof.
  intros Ha Hk. induction a as [|c a IH].
  - rewrite app_empty. destruct Hk as [Hk| ->]; [|done].
    destruct k as [|c k]; [done|]. cbn in *. by rewrite Hk.
  - cbn in Ha. apply andb_true_iff in Ha as [Hc Ha]. rewrite app_cons. cbn [span].
    by rewrite Hc, IH.
Qed.

Lemma all_chars_app f a b : all_chars f (a +:+ b) = all_chars f a && all_chars f b.
Proof.
  induction a as [|c a IH]; [done|]. rewrite app_cons. cbn. by rewrite IH, andb_assoc.
Qed.

Lemma all_chars_weaken (f g : ascii -> bool) s :
  (forall c, f c = true -> g c = true) -> all_chars f s = true -> all_chars g s = true.
Proof.
  intros Hfg. induction s as [|c s IH]; [done|]. cbn.
  intros [Hc Hs]%andb_true_iff. by rewrite (Hfg _ Hc), IH.
Qed.

Lemma number_like_chars s : number_like s = true -> all_chars in_timestamp s = true.
Proof.
  destruct s as [|c s]; [done|]. apply (all_chars_weaken isdigit).
  intros d Hd. unfold in_timestamp. by rewrite Hd, !orb_true_r.
Qed.

Lemma time_text_chars sec milli serial :
  number_like sec = true -> number_like milli = true -> serial_ok serial = true ->
  all_chars in_timestamp (time_text sec milli serial) = true.
Proof.
  intros H1 H2 H3. unfold time_text.
  rewrite !all_chars_app, (number_like_chars sec), (number_like_chars milli) by done.
  destruct serial as [n|]; [|done]. cbn in H3.
  by rewrite all_chars_app, (number_like_chars n).
Qed.

(** What follows the time stamp is a blank. *)
Lemma scan_ts2_text sec milli serial k :
  number_like sec = true -> number_like milli = true -> serial_ok serial = true ->
  scan_ts2 (word (time_text sec milli serial) k)
  = Some (Z.min INT64_MAX (number sec), clip (number milli),
          match serial with Some n => ":" +:+ n | None => "" end +:+ String " " k).
Proof.
  intros H1 H2 H3. unfold scan_ts2, word, time_text. rewrite !app_assoc_str.
  set (tail := match serial with Some n => ":" +:+ n | None => "" end +:+ String " " k).
  change (scan_literal "ts:" ("ts:" +:+ sec +:+ "." +:+ milli +:+ tail))
    with (Some (sec +:+ "." +:+ milli +:+ tail)). cbn [mbind option_bind].
  rewrite scan_jd_app by done. cbn [mbind option_bind].
  change (scan_literal "." ("." +:+ milli +:+ tail)) with (Some (milli +:+ tail)).
  cbn [mbind option_bind]. rewrite scan_u_app; [done|done|].
  subst tail. by destruct serial.
Qed.

Lemma parse_timestamp_text sec milli serial k q :
  number_like sec = true -> number_like milli = true -> serial_ok serial = true ->
  token_start q = word (time_text sec milli serial) k ->
  exists q', parse_timestamp_value q
    = inl (VTimestamp (Z.min INT64_MAX (number sec)) (clip (number milli))
             (clip ∘ number <$> serial), q') /\ src q' = String " " k.
Proof.
  intros H1 H2 H3 Hq. unfold parse_timestamp_value, scan_ts3. rewrite Hq, scan_ts2_text by done.
  assert (snd (span in_timestamp (word (time_text sec milli serial) k)) = String " " k) as Hs.
  { unfold word. by rewrite span_app; [..|by left]; [|apply time_text_chars]. }
  cbn [mbind option_bind]. destruct serial as [n|]; cbn in H3.
  - rewrite app_assoc_str.
    change (scan_literal ":" (":" +:+ n +:+ String " " k)) with (Some (n +:+ String " " k)).
    cbn [mbind option_bind]. rewrite scan_u_app by done. cbn. by eexists.
  - cbn. by eexists.
Qed.

(** ** Parsing printed comparisons *)

Section roundtrip.
Context `{ExprEnv}.

Lemma operator_text nf f op text k p q v q' p' :
  src p = String " " (word (op_text op) text) -> fits (word (op_text op) text) ->
  pos text q -> token q = T_STRING ->
  (if is_string_op op then q' = q /\ v = VString (token_string q)
   else parse_value nf f q = inl (v, q')) ->
  src q' = String " " k -> pos k p' ->
  parse_operator nf f p = inl (ECmp op nf f v, p').
Proof.
  intros Hp Hf Hq Ht Hv Hq' Hk. unfold parse_operator.
  rewrite (lex_next _ _ Hp), (pos_op op text Hf). cbn -[lex].
  rewrite (lex_next _ text) by done. rewrite Hq. cbn -[lex]. rewrite bool_decide_true by done.
  destruct (is_string_op op).
  - destruct Hv as [-> ->]. rewrite (lex_next _ _ Hq'), Hk. done.
  - rewrite Hv. cbn -[lex]. by rewrite (lex_next _ _ Hq'), Hk.
Qed.

Lemma operator_quote nf f op v w k p p' :
  src p = String " " (word (op_text op) (quote DQUOTE v k)) ->
  fits (word (op_text op) (quote DQUOTE v k)) ->
  (if is_string_op op then w = VString v
   else forall q, token_value q = Some v -> parse_value nf f q = inl (w, q)) ->
  pos k p' ->
  parse_operator nf f p = inl (ECmp op nf f w, p').
Proof.
  intros Hp Hf Hv Hk.
  assert (fits (quote DQUOTE v k)) as Hf' by (eapply fits_le; [done|]; rewrite length_word; lia).
  set (q := at_token T_STRING (Some v) (quote DQUOTE v k) (String " " k)).
  apply (operator_text nf f op (quote DQUOTE v k) k p q w q p'); try done.
  { by apply pos_quote. }
  destruct (is_string_op op); [by rewrite Hv|by apply Hv].
Qed.

Definition numeric_field_of (f : field) : bool :=
  match f with Name n => numeric n | Id _ => true end.

(** A printed field brings the parser to the operator. *)
Lemma comparison_field f k p :
  fits (field_text f k) -> pos (field_text f k) p ->
  (token p = T_STRING \/ token p = T_FIELD_ESCAPE) /\
  exists p1, src p1 = String " " k /\
    parse_comparison p = parse_operator (numeric_field_of f) f p1.
Proof.
  intros Hf Hp. destruct f as [n|id]; cbn -[quote word] in *.
  - pose proof (pos_quote n k Hf) as E. unfold pos in *. rewrite E in Hp. injection Hp as <-.
    split; [by left|]. eexists. split; [|by unfold parse_comparison, numeric]. done.
  - assert (exists t, (match id with
      | EF_TIMESTAMP => "timestamp" | EF_RECORD_TYPE => "record_type"
      | EF_TIMESTAMP_EX => "timestamp_ex" end) = t /\
      field_text (Id id) k = String BACKSLASH (word t k) /\
      lex_switch (word t k) = inl (T_STRING, Some t, String " " k) /\
      is_blank (char_at (word t k)) = false /\
      str_eq t "regexp" = false /\ parse_escaped_field_name t = Some id)
      as (t & Et & Eft & Hsw & Hb & Hre & Hid) by (destruct id; eexists; done).
    assert (pos (String BACKSLASH (word t k)) p) as Hp' by (by rewrite <-Eft; destruct id).
    assert (fits (String BACKSLASH (word t k))) as Hf' by (by rewrite <-Eft; destruct id).
    pose proof (pos_escape _ Hf') as E. unfold pos in E, Hp'. rewrite E in Hp'.
    injection Hp' as <-. split; [by right|].
    assert (fits (word t k)) as Hf2 by (eapply fits_le; [done|]; cbn; lia).
    exists (at_token T_STRING (Some t) (word t k) (String " " k)). split; [done|].
    unfold parse_comparison. rewrite bool_decide_true by done. rewrite lex_start.
    cbn [at_token src]. pose proof (pos_intro _ _ _ _ Hf2 Hb Hsw) as E2. unfold pos in E2.
    rewrite E2. cbn -[lex str_eq parse_escaped_field_name parse_operator].
    by rewrite Hre, Hid.
Qed.

Lemma comparison_regexp v re k p p' :
  regcomp v = inl re ->
  fits (String BACKSLASH (word "regexp" (quote "/" v k))) ->
  pos (String BACKSLASH (word "regexp" (quote "/" v k))) p -> pos k p' ->
  token p = T_FIELD_ESCAPE /\ parse_comparison p = inl (ERegexpMatches re, p').
Proof.
  intros Hre Hf Hp Hk. pose proof (pos_escape _ Hf) as E. unfold pos in E, Hp.
  rewrite E in Hp. injection Hp as <-. split; [done|].
  unfold parse_comparison. rewrite bool_decide_true by done.
  rewrite lex_start. cbn [at_token src].
  assert (fits (word "regexp" (quote "/" v k))) as Hf1 by (eapply fits_le; [done|]; cbn; lia).
  assert (fits (quote "/" v k)) as Hf2
    by (eapply fits_le; [exact Hf1|]; rewrite length_word; lia).
  pose proof (pos_intro _ T_STRING (Some "regexp") (String " " (quote "/" v k)) Hf1
    eq_refl eq_refl) as E1.
  unfold pos in E1. rewrite E1. cbn -[lex]. unfold parse_comparison_regexp.
  rewrite (lex_next _ (quote "/" v k)) by done.
  pose proof (pos_regexp v k Hf2) as E2. unfold pos in E2. rewrite E2. cbn -[lex].
  rewrite Hre. cbn -[lex]. rewrite (lex_next _ k) by done. by rewrite Hk.
Qed.

Lemma fits_field f k : fits (field_text f k) -> fits k.
Proof. intros Hf. eapply fits_le; [done|]. pose proof (length_field f k). lia. Qed.

(** The four comparisons with an operator. *)
Lemma atom_parse f op text e p p' :
  fits (field_text f (word (op_text op) text)) ->
  pos (field_text f (word (op_text op) text)) p ->
  (forall p1, src p1 = String " " (word (op_text op) text) -> fits (word (op_text op) text) ->
     parse_operator (numeric_field_of f) f p1 = inl (e, p')) ->
  exists n, parse_primary n p = Some (inl (e, p')).
Proof.
  intros Hf Hp Hop. destruct (comparison_field f _ p Hf Hp) as (Ht & p1 & Hs & Hc).
  exists 1%nat. cbn. rewrite Hc, Hop by eauto using fits_field.
  by destruct Ht as [-> | ->].
Qed.

(** The parser on the text of [s] at each of the three levels. *)
Definition at_primary (s : sexpr) (e : expr) : Prop := forall k p p',
  fits (pr 2 s k) -> pos (pr 2 s k) p -> pos k p' ->
  exists n, parse_primary n p = Some (inl (e, p')).
Definition at_and (s : sexpr) (e : expr) : Prop := forall k p p' r,
  fits (pr 1 s k) -> pos (pr 1 s k) p -> pos k p' ->
  (exists n, and_loop n e p' = Some r) -> exists n, parse_and n p = Some r.
Definition at_or (s : sexpr) (e : expr) : Prop := forall k p p' r,
  fits (pr 0 s k) -> pos (pr 0 s k) p -> pos k p' -> token p' <> EO_AND ->
  (exists n, or_loop n e p' = Some r) -> exists n, parse_or n p = Some r.

Lemma primary_and s e : (forall k, pr 1 s k = pr 2 s k) -> at_primary s e -> at_and s e.
Proof.
  intros Epr Hs k p p' r Hf Hp Hk [n Hn]. rewrite Epr in Hf, Hp.
  destruct (Hs k p p' Hf Hp Hk) as [m Hm]. exists (S (n `max` m)). cbn [parse_and].
  rewrite (primary_mono _ _ _ _ Hm) by lia. cbn. eapply and_loop_mono; [done|lia].
Qed.

Lemma and_or s e : (forall k, pr 0 s k = pr 1 s k) -> at_and s e -> at_or s e.
Proof.
  intros Epr Hs k p p' r Hf Hp Hk Ht [n Hn]. rewrite Epr in Hf, Hp.
  destruct (Hs k p p' (inl (e, p')) Hf Hp Hk) as [m Hm].
  { exists 1%nat. cbn. by rewrite bool_decide_false. }
  exists (S (n `max` m)). cbn [parse_or].
  rewrite (and_mono _ _ _ _ Hm) by lia. cbn. eapply or_loop_mono; [done|lia].
Qed.

(** One token of text. *)
Lemma pos_word t text k :
  fits (word text k) -> is_blank (char_at (word text k)) = false ->
  lex_switch (word text k) = inl (t, None, String " " k) ->
  pos (word text k) (at_token t None (word text k) (String " " k)) /\ fits k.
Proof.
  intros Hf Hb Hs. split; [by apply pos_intro|]. eapply fits_le; [done|].
  rewrite length_word. lia.
Qed.

Lemma pos_det s p q : pos s p -> pos s q -> p = q.
Proof. unfold pos. congruence. Qed.

Lemma fits_pr lvl s k : fits (pr lvl s k) -> fits k.
Proof. intros Hf. eapply fits_le; [done|]. apply length_pr. Qed.

(** Printed text always starts with a token. *)
Lemma pos_pr s : forall lvl k, fits (pr lvl s k) -> exists p, pos (pr lvl s k) p.
Proof.
  assert (forall f k, fits (field_text f k) -> exists p, pos (field_text f k) p) as Hfield.
  { intros [n|[]] k Hf; eexists; first [by apply pos_quote|by apply pos_escape]. }
  assert (forall text k t, fits (word text k) -> is_blank (char_at (word text k)) = false ->
    lex_switch (word text k) = inl (t, None, String " " k) -> exists p, pos (word text k) p) as Hw.
  { intros. eexists. by eapply pos_word. }
  induction s as [s IH|s1 IH1 s2 IH2|s1 IH1 s2 IH2|op f v|op f v|op ex sec milli serial|op v|v];
    intros lvl k; cbn [pr]; try apply Hfield; intros Hf.
  - by eapply Hw.
  - destruct (decide (lvl <= 1)%nat); [by apply IH1|by eapply Hw].
  - destruct (decide (lvl <= 0)%nat); [by apply IH1|by eapply Hw].
  - eexists. by apply pos_escape.
Qed.

(** In parentheses. *)
Lemma or_primary s e :
  (forall k, pr 2 s k = word "(" (pr 0 s (word ")" k))) -> at_or s e -> at_primary s e.
Proof.
  intros Epr Hs k p p' Hf Hp Hk. rewrite Epr in Hf, Hp.
  destruct (pos_word T_LEFT_PAREN _ _ Hf eq_refl eq_refl) as [Hp1 Hf1].
  pose proof (pos_det _ _ _ Hp Hp1) as ->. destruct (pos_pr _ _ _ Hf1) as [p2 Hp2].
  destruct (pos_word T_RIGHT_PAREN _ _ (fits_pr _ _ _ Hf1) eq_refl eq_refl) as [Hp3 Hf3].
  set (p3 := at_token T_RIGHT_PAREN None (word ")" k) (String " " k)) in *.
  destruct (Hs _ _ _ (inl (e, p3)) Hf1 Hp2 Hp3) as [n Hn]; [done|by exists 1%nat|].
  exists (S n). cbn [parse_primary at_token token].
  rewrite (lex_next _ (pr 0 s (word ")" k))) by done. rewrite Hp2. cbn -[lex]. rewrite Hn.
  cbn -[lex]. rewrite (lex_next _ k) by done. by rewrite Hk.
Qed.

Lemma not_primary s e : at_primary s e -> at_primary (SNot s) (ENot e).
Proof.
  intros Hs k p p' Hf Hp Hk. cbn [pr] in *.
  destruct (pos_word EO_NOT _ _ Hf eq_refl eq_refl) as [Hp1 Hf1].
  pose proof (pos_det _ _ _ Hp Hp1) as ->. destruct (pos_pr _ _ _ Hf1) as [p2 Hp2].
  destruct (Hs _ _ _ Hf1 Hp2 Hk) as [n Hn]. exists (S n).
  cbn [parse_primary at_token token]. rewrite (lex_next _ (pr 2 s k)) by done.
  rewrite Hp2. cbn -[lex]. by rewrite Hn.
Qed.

Lemma and_and s1 s2 e1 e2 :
  at_and s1 e1 -> at_primary s2 e2 -> at_and (SAnd s1 s2) (EAnd e1 e2).
Proof.
  intros H1 H2 k p p' r Hf Hp Hk [n Hn]. cbn [pr] in *. rewrite decide_True in * by lia.
  destruct (pos_word EO_AND _ _ (fits_pr _ _ _ Hf) eq_refl eq_refl) as [Hp1 Hf1].
  destruct (pos_pr _ _ _ Hf1) as [p2 Hp2]. destruct (H2 _ _ _ Hf1 Hp2 Hk) as [m Hm].
  apply (H1 _ _ _ _ Hf Hp Hp1). exists (S (n `max` m)). cbn [and_loop at_token token].
  rewrite bool_decide_true by done. rewrite (lex_next _ (pr 2 s2 k)) by done.
  rewrite Hp2. cbn -[lex]. rewrite (primary_mono _ _ _ _ Hm) by lia. cbn.
  eapply and_loop_mono; [done|lia].
Qed.

Lemma or_or s1 s2 e1 e2 :
  at_or s1 e1 -> at_and s2 e2 -> at_or (SOr s1 s2) (EOr e1 e2).
Proof.
  intros H1 H2 k p p' r Hf Hp Hk Ht [n Hn]. cbn [pr] in *. rewrite decide_True in * by lia.
  destruct (pos_word EO_OR _ _ (fits_pr _ _ _ Hf) eq_refl eq_refl) as [Hp1 Hf1].
  destruct (pos_pr _ _ _ Hf1) as [p2 Hp2].
  destruct (H2 _ _ _ (inl (e2, p')) Hf1 Hp2 Hk) as [m Hm].
  { exists 1%nat. cbn. by rewrite bool_decide_false. }
  apply (H1 _ _ _ _ Hf Hp Hp1); [done|]. exists (S (n `max` m)). cbn [or_loop at_token token].
  rewrite bool_decide_true by done. rewrite (lex_next _ (pr 1 s2 k)) by done.
  rewrite Hp2. cbn -[lex]. rewrite (and_mono _ _ _ _ Hm) by lia. cbn.
  eapply or_loop_mono; [done|lia].
Qed.

Lemma string_primary op f v e : elab (SString op f v) = Some e -> at_primary (SString op f v) e.
Proof.
  cbn -[numeric]. destruct (is_string_op op) eqn:Eo; [|done]. intros [= <-] k p p' Hf Hp Hk.
  eapply atom_parse; [done|done|]. intros p1 Hs Hf1.
  eapply operator_quote; [done|done| |done]. by rewrite Eo.
Qed.

Lemma number_primary op f v e : elab (SNumber op f v) = Some e -> at_primary (SNumber op f v) e.
Proof.
  cbn -[numeric strtoul]. destruct (strtoul 10 v) as [n []] eqn:Ev; [done|].
  destruct (is_string_op op) eqn:Eo; [done|]. destruct (numeric f) eqn:Ef; [|done].
  intros [= <-] k p p' Hf Hp Hk. apply (atom_parse (Name f) op (quote DQUOTE v k)); [done|done|]. intros p1 Hs Hf1.
  cbn -[numeric]. rewrite Ef. eapply operator_quote; [done|done| |done].
  rewrite Eo. intros q Hq. cbn. unfold parse_unsigned_value, token_string.
  rewrite Hq. cbn -[strtoul u32]. by rewrite Ev.
Qed.

Lemma type_primary op v e : elab (SType op v) = Some e -> at_primary (SType op v) e.
Proof.
  cbn. destruct (is_string_op op) eqn:Eo; [done|]. cbn.
  destruct (Z.leb_spec 0 (audit_name_to_msg_type v)) as [Hv|]; [|done].
  intros [= <-] k p p' Hf Hp Hk. apply (atom_parse (Id EF_RECORD_TYPE) op (quote DQUOTE v k)); [done|done|]. intros p1 Hs Hf1.
  eapply operator_quote; [done|done| |done].
  rewrite Eo. intros q Hq. cbn. unfold parse_record_type_value, token_string.
  rewrite Hq. cbn. by destruct (Z.ltb_spec (audit_name_to_msg_type v) 0); [lia|].
Qed.

Lemma time_primary op ex sec milli serial e :
  elab (STime op ex sec milli serial) = Some e -> at_primary (STime op ex sec milli serial) e.
Proof.
  cbn -[number_like serial_ok]. destruct (is_string_op op) eqn:Eo; [done|].
  destruct (number_like sec) eqn:E1; [|done]. destruct (number_like milli) eqn:E2; [|done].
  destruct (serial_ok serial) eqn:E3; [|done]. intros [= <-] k p p' Hf Hp Hk.
  apply (atom_parse (Id (if ex then EF_TIMESTAMP_EX else EF_TIMESTAMP)) op
    (word (time_text sec milli serial) k)); [done|done|]. intros p1 Hs Hf1. cbn [numeric_field_of].
  set (text := word (time_text sec milli serial) k) in *.
  assert (fits text) as Hf2 by (eapply fits_le; [done|]; rewrite (length_word _ text); lia).
  assert (exists q, pos text q /\ token q = T_STRING /\ token_start q = text)
    as (q & Hq & Ht & Hst).
  { eexists. split; [by apply pos_intro|done]. }
  destruct (parse_timestamp_text sec milli serial k q) as (q' & Hv & Hsq); [done..|].
  eapply (operator_text _ _ _ text k p1 q _ q'); [done..| |done|done].
  rewrite Eo. cbn. by destruct ex.
Qed.

Lemma regexp_primary v e : elab (SRegexp v) = Some e -> at_primary (SRegexp v) e.
Proof.
  cbn. destruct (regcomp v) as [re|] eqn:Er; [|done]. intros [= <-] k p p' Hf Hp Hk.
  destruct (comparison_regexp v re k p p' Er Hf Hp Hk) as [Ht Hc].
  exists 1%nat. cbn. by rewrite Ht, Hc.
Qed.

Lemma levels s : forall e, elab s = Some e -> at_primary s e /\ at_and s e /\ at_or s e.
Proof.
  assert (forall s e, (forall lvl k, pr lvl s k = pr 2 s k) -> at_primary s e ->
    at_primary s e /\ at_and s e /\ at_or s e) as Hprim.
  { intros s' e Hpr Hs. split; [done|].
    assert (at_and s' e) by (by apply primary_and). split; [done|].
    apply and_or; [|done]. intros k. by rewrite (Hpr 0%nat), (Hpr 1%nat). }
  induction s as [s IH|s1 IH1 s2 IH2|s1 IH1 s2 IH2|op f v|op f v|op ex sec milli serial|op v|v];
    intros e He.
  - cbn in He. apply fmap_Some in He as (e' & He & ->). apply Hprim; [done|].
    by apply not_primary, IH.
  - cbn in He. apply bind_Some in He as (e1 & E1 & (e2 & E2 & [= <-])%bind_Some).
    destruct (IH1 _ E1) as (_ & Ha1 & _). destruct (IH2 _ E2) as (Hp2 & _ & _).
    assert (at_and (SAnd s1 s2) (EAnd e1 e2)) as Ha by (by apply and_and).
    assert (at_or (SAnd s1 s2) (EAnd e1 e2)) as Ho by (by apply and_or).
    split; [|done]. by apply or_primary.
  - cbn in He. apply bind_Some in He as (e1 & E1 & (e2 & E2 & [= <-])%bind_Some).
    destruct (IH1 _ E1) as (_ & _ & Ho1). destruct (IH2 _ E2) as (_ & Ha2 & _).
    assert (at_or (SOr s1 s2) (EOr e1 e2)) as Ho by (by apply or_or).
    assert (at_primary (SOr s1 s2) (EOr e1 e2)) as Hp by (by apply or_primary).
    split; [done|]. split; [by apply primary_and|done].
  - by apply Hprim, string_primary.
  - by apply Hprim, number_primary.
  - by apply Hprim, time_primary.
  - by apply Hprim, type_primary.
  - by apply Hprim, regexp_primary.
Qed.

(** C32: the parser reads back every printed expression: the tree of a source
    expression, with the operators grouped by precedence and to the left, and
    every quoted string, number, time stamp and regular expression intact. *)
Theorem parse_print s e :
  elab s = Some e -> fits (print s) -> expr_parse (print s) = Some (inl e).
Proof.
  intros He Hf. unfold print in *. destruct (pos_pr _ _ _ Hf) as [p Hp].
  destruct (levels s e He) as (_ & _ & Ho).
  destruct (Ho _ _ _ (inl (e, at_token T_EOF None "" "")) Hf Hp pos_end) as [n Hn];
    [done|by exists 1%nat|].
  destruct (parse_or_ends _ _ Hp) as [r Hr].
  assert (r = inl (e, at_token T_EOF None "" "")) as ->.
  { eapply or_mono in Hn; [|apply Nat.le_max_l]. eapply or_mono in Hr; [|apply Nat.le_max_r].
    rewrite Hn in Hr. by injection Hr. }
  unfold expr_parse. rewrite Hp. cbn [mbind_outcome].
  destruct (bool_decide (token p = T_EOF)) eqn:Et.
  { apply bool_decide_eq_true in Et. revert Hn. destruct n as [|[|[|n]]]; try done.
    cbn. by rewrite Et. }
  rewrite Hr. done.
Qed.

End roundtrip.

(** Tables for concrete inputs; a regular expression is a substring. *)
Definition sample_env : ExprEnv := {|
  lookup_type n := if str_eq n "uid" then AUPARSE_TYPE_UID else 0;
  audit_name_to_msg_type n := if str_eq n "LOGIN" then 1006 else -1;
  regex_t := string;
  regcomp s := inl s;
  regexec re s := strstr s re;
|}.

Definition sample : sexpr :=
  SAnd (SOr (SNumber EO_VALUE_GE "uid" "500") (SNot (SString EO_RAW_EQ (Name "key") "a b")))
       (SOr (STime EO_VALUE_LT true "10" "20" (Some "3")) (SType EO_VALUE_EQ "LOGIN")).

Lemma parse_print_witness :
  exists e, @elab sample_env sample = Some e /\ @expr_parse sample_env (print sample) = Some (inl e).
Proof.
  eexists. split; [reflexivity|].
  apply (@parse_print sample_env sample); [reflexivity|]. vm_compute. discriminate.
Defined.

End ExprPrint.
