(* ===== verification/ExprEval.v ===== *)
(** * Evaluation of search expressions

    The parser and the constructor functions build only well-formed trees; on
    those the evaluator never aborts and computes [holds], the meaning of the
    tree on the fields of the record, whatever the cursor and whichever
    interpretations are already cached. *)
From S2P Require Import Prelude CString CList Nvlist Expr ExprFacts ExprPrint.

Local Open Scope string_scope.
Local Open Scope Z_scope.
Local Open Scope audit_scope.

Module ExprEval.
Import Nv Expr ExprFacts.

Section wf.
Context `{ExprEnv}.

(** The value is the member of the union that the evaluator reads. *)
Definition wf_comparison (op : cmp_op) (numeric_field : bool) (f : field) (v : value) : bool :=
  if is_string_op op then match v with VString _ => true | _ => false end
  else numeric_field && match f, v with
       | Name _, VUnsigned _ => true
       | Id EF_RECORD_TYPE, VInt _ => true
       | Id (EF_TIMESTAMP | EF_TIMESTAMP_EX), VTimestamp _ _ _ => true
       | _, _ => false
       end.

Fixpoint wf_expr (e : expr) : bool :=
  match e with
  | ENot e => wf_expr e
  | EAnd e1 e2 | EOr e1 e2 => wf_expr e1 && wf_expr e2
  | ECmp op nf f v => wf_comparison op nf f v
  | EFieldExists _ | ERegexpMatches _ => true
  end.

(** ** The parser builds well-formed trees *)

Lemma parse_operator_wf nf f p e p' :
  parse_operator nf f p = inl (e, p') -> wf_expr e = true.
Proof.
  unfold parse_operator. intros (p1 & _ & H1)%obind_inl. destruct (token p1); try done.
  apply obind_inl in H1 as (p2 & _ & H1). case_bool_decide; [|done].
  destruct (is_string_op op) eqn:Eo.
  - apply obind_inl in H1 as (p3 & _ & [= <- <-]). cbn. unfold wf_comparison. by rewrite Eo.
  - apply obind_inl in H1 as ([v p3] & Hv & (p4 & _ & [= <- <-])%obind_inl).
    cbn. unfold wf_comparison. rewrite Eo. destruct nf; [|done]. cbn.
    assert (forall q q', parse_timestamp_value q = inl (v, q') ->
      exists a b c, v = VTimestamp a b c) as Hts.
    { intros q q'. unfold parse_timestamp_value. destruct (scan_ts3 _) as [[[]]|].
      - intros [= <- _]. eauto.
      - destruct (scan_ts2 _) as [[[]]|]; [|done]. intros [= <- _]. eauto. }
    destruct f as [n|[]]; cbn in Hv.
    + apply obind_inl in Hv as (w & Hw & [= <- <-]). revert Hw. unfold parse_unsigned_value.
      destruct (strtoul _ _) as [? []]; [done|]. by intros [= <-].
    + by apply Hts in Hv as (? & ? & ? & ->).
    + apply obind_inl in Hv as (w & Hw & [= <- <-]). revert Hw. unfold parse_record_type_value.
      case_match; [done|]. by intros [= <-].
    + by apply Hts in Hv as (? & ? & ? & ->).
Qed.

Lemma parse_comparison_wf p e p' : parse_comparison p = inl (e, p') -> wf_expr e = true.
Proof.
  unfold parse_comparison. case_bool_decide; [|apply parse_operator_wf].
  intros (p1 & _ & H1)%obind_inl. case_bool_decide; [|done]. case_match.
  - unfold parse_comparison_regexp in H1. apply obind_inl in H1 as (p2 & _ & H1).
    case_bool_decide; [|done]. destruct (regcomp _); [|done].
    by apply obind_inl in H1 as (p3 & _ & [= <- <-]).
  - destruct (parse_escaped_field_name _); [|done]. by eapply parse_operator_wf.
Qed.

(** A computation whose result, if any, is well formed. *)
Definition gives_wf (x : option (outcome (expr * parsing))) : Prop :=
  forall e p, x = Some (inl (e, p)) -> wf_expr e = true.

Lemma gives_wf_bind {A} (x : option (outcome A)) k :
  (forall a, x = Some (inl a) -> gives_wf (k a)) -> gives_wf (mbind_outcome k x).
Proof.
  intros Hk e p [(m & _ & [=])|(a & E & Hr)]%mbind_Some. by eapply Hk.
Qed.

Lemma gives_wf_ok e p : wf_expr e = true -> gives_wf (Some (inl (e, p))).
Proof. by intros ? ? ? [= <- <-]. Qed.

Lemma parsers_wf n :
  (forall p, gives_wf (parse_primary n p)) /\
  (forall res p, wf_expr res = true -> gives_wf (and_loop n res p)) /\
  (forall p, gives_wf (parse_and n p)) /\
  (forall res p, wf_expr res = true -> gives_wf (or_loop n res p)) /\
  (forall p, gives_wf (parse_or n p)).
Proof.
  induction n as [|n (IHp & IHal & IHa & IHol & IHo)]; [by split_and!|].
  split_and!.
  - intros p. cbn [parse_primary]. destruct (token p); try done.
    + apply gives_wf_bind. intros p1 _. apply gives_wf_bind. intros [e p2] E%IHp.
      by apply gives_wf_ok.
    + apply gives_wf_bind. intros p1 _. apply gives_wf_bind. intros [e p2] E%IHo.
      case_bool_decide; [|done]. apply gives_wf_bind. intros p3 _. by apply gives_wf_ok.
    + intros e p' [= E]. by eapply parse_comparison_wf.
    + intros e p' [= E]. by eapply parse_comparison_wf.
  - intros res p Hr. cbn [and_loop]. case_bool_decide; [|by apply gives_wf_ok].
    apply gives_wf_bind. intros p1 _. apply gives_wf_bind. intros [e p2] E%IHp.
    apply IHal. cbn. by rewrite Hr, E.
  - intros p. cbn [parse_and]. apply gives_wf_bind. intros [e p1] E%IHp. by apply IHal.
  - intros res p Hr. cbn [or_loop]. case_bool_decide; [|by apply gives_wf_ok].
    apply gives_wf_bind. intros p1 _. apply gives_wf_bind. intros [e p2] E%IHa.
    apply IHol. cbn. by rewrite Hr, E.
  - intros p. cbn [parse_or]. apply gives_wf_bind. intros [e p1] E%IHa. by apply IHol.
Qed.

Lemma expr_parse_returns s :
  exists r, expr_parse s = Some r /\ forall e, r = inl e -> wf_expr e = true.
Proof.
  unfold expr_parse. destruct (lex (start_of s)) as [p|m] eqn:El; cbn [mbind_outcome]; [|by eexists].
  case_bool_decide; [by eexists|]. destruct (parse_or_ends _ _ El) as [r Hr]. rewrite Hr.
  destruct r as [[e p']|m]; cbn; [|by eexists]. case_bool_decide; [|by eexists].
  eexists. split; [done|]. intros e' [= <-].
  by eapply (proj2 (proj2 (proj2 (proj2 (parsers_wf _))))).
Qed.

(** C33: the parser always returns, with a message or with a well-formed tree. *)
Theorem expr_parse_total s :
  exists r, expr_parse s = Some r /\ forall e, r = inl e -> wf_expr e = true.
Proof. apply expr_parse_returns. Qed.

(** ** The meaning of an expression *)

Context `{Interp}.

(** The first field of a name. *)
Definition field_node (r : rnode) (nm : string) : option nvnode :=
  snd <$> list_find (fun n => name n = Some nm) (nodes (nv r)).

(** The interpretation of a field: the cached one, else a fresh one, else the
    raw value. *)
Definition node_interp (r : rnode) (mode : Z) (n : nvnode) : option string :=
  match interp_val n with
  | Some v => Some v
  | None => match interpretation r mode n with Some v => Some v | None => val n end
  end.

(** Lexicographic comparison. *)
Fixpoint lex_compare (xs ys : list Z) : comparison :=
  match xs, ys with
  | x :: xs, y :: ys => match Z.compare x y with Eq => lex_compare xs ys | c => c end
  | _, _ => Eq
  end.

(** What a value operator asks of a comparison. *)
Definition op_holds (op : cmp_op) (c : comparison) : bool :=
  match op, c with
  | EO_VALUE_EQ, Eq | EO_VALUE_LE, (Lt | Eq) | EO_VALUE_LT, Lt
  | EO_VALUE_GE, (Gt | Eq) | EO_VALUE_GT, Gt | EO_VALUE_NE, (Lt | Gt) => true
  | _, _ => false
  end.

Definition op_is_eq (op : cmp_op) : bool :=
  match op with EO_RAW_EQ | EO_INTERPRETED_EQ => true | _ => false end.

(** The truth of a comparison; a field that is missing makes it false. *)
Definition holds_cmp (garbage : Z) (a : au) (r : rnode) (op : cmp_op) (f : field) (v : value)
    : bool :=
  let equal w s := Bool.eqb (op_is_eq op) (str_eq w s) in
  match f, v with
  | Name n, VString w =>
      match op with
      | EO_RAW_EQ | EO_RAW_NE =>
          match field_node r n ≫= val with Some s => equal w s | None => false end
      | _ =>
          match field_node r n ≫= node_interp r (escape_mode a) with
          | Some s => equal w s | None => false end
      end
  | Name n, VUnsigned m =>
      match field_node r n ≫= val with
      | Some s => op_holds op (u32 (fst (strtoul 10 s)) ?= m)
      | None => false
      end
  | Id EF_TIMESTAMP, VTimestamp s m _ => op_holds op (lex_compare [sec a; milli a] [s; m])
  | Id EF_TIMESTAMP_EX, VTimestamp s m n =>
      op_holds op (lex_compare [sec a; milli a; serial a] [s; m; default garbage n])
  | Id EF_RECORD_TYPE, VInt n => op_holds op (type r ?= n)
  | _, _ => false
  end.

Fixpoint holds (garbage : Z) (a : au) (r : rnode) (e : expr) : bool :=
  match e with
  | ENot e => negb (holds garbage a r e)
  | EAnd e1 e2 => holds garbage a r e1 && holds garbage a r e2
  | EOr e1 e2 => holds garbage a r e1 || holds garbage a r e2
  | ECmp op _ f v => holds_cmp garbage a r op f v
  | EFieldExists n => bool_decide (is_Some (field_node r n))
  | ERegexpMatches re => regexec re (record r)
  end.

(** ** Records that differ only in the cursor and the cache *)

Definition header (r : rnode) :=
  (record r, interp r, cwd r, type r, machine r, syscall r, a0 r, a1 r, ritem r, list_idx r,
   line_number r).

Definition same_node (mode : Z) (r r' : rnode) (n n' : nvnode) : Prop :=
  name n = name n' /\ val n = val n' /\ node_interp r mode n = node_interp r' mode n'.

Definition same_fields (mode : Z) (r r' : rnode) : Prop :=
  header r = header r' /\ Forall2 (same_node mode r r') (nodes (nv r)) (nodes (nv r')).

#[local] Instance same_fields_equiv mode : Equivalence (same_fields mode).
Proof.
  split.
  - intros r. split; [done|]. by apply Forall_Forall2_diag, Forall_true.
  - intros r r' [Hh Hn]. split; [done|]. apply Forall2_flip.
    eapply Forall2_impl; [done|]. by intros n n' (-> & -> & ->).
  - intros r1 r2 r3 [Hh Hn] [Hh' Hn']. split; [by rewrite Hh|].
    eapply Forall2_trans; [|done..].
    intros n1 n2 n3 (E1 & E2 & E3) (E1' & E2' & E3'). split_and!; congruence.
Qed.

Lemma interpretation_header mode r r' n :
  header r = header r' -> interpretation r mode n = interpretation r' mode n.
Proof. unfold header, interpretation. intros [= ? ? ? ? ? ? ? ? ? ? ?]. destruct (name n); cbn; congruence. Qed.

(** Filling in the cache does not change what the field means. *)
Lemma same_node_cache mode r r' n :
  header r = header r' -> interp_val n = None ->
  same_node mode r r' n (set_interp_val (interpretation r mode n) n).
Proof.
  intros Hh Hn. unfold same_node, node_interp. cbn. rewrite Hn. split_and!; [done..|].
  destruct (interpretation r mode n) as [v|] eqn:E; [done|].
  rewrite (interpretation_header mode r r') in E by done.
  unfold interpretation in *. cbn. by rewrite E.
Qed.

Lemma same_nodes mode r r' :
  header r = header r' -> nodes (nv r) = nodes (nv r') -> same_fields mode r r'.
Proof.
  intros Hh Hn. split; [done|]. rewrite <-Hn. apply Forall_Forall2_diag, Forall_true.
  intros n. unfold same_node, node_interp. by rewrite (interpretation_header mode r r').
Qed.

(** The first field of a name, in equivalent records. *)
Lemma field_node_same mode r r' nm :
  same_fields mode r r' ->
  option_Forall2 (same_node mode r r') (field_node r nm) (field_node r' nm).
Proof.
  intros [_ Hn]. unfold field_node. induction Hn as [|n n' ns ns' Hn _ IH]; [constructor|].
  cbn. destruct Hn as (E1 & E2 & E3). destruct (decide (name n = Some nm)) as [E|E].
  - rewrite decide_True by congruence. by constructor.
  - rewrite decide_False by congruence.
    destruct (list_find _ ns) as [[]|], (list_find _ ns') as [[]|]; cbn in *; exact IH.
Qed.

Lemma field_raw_same mode r r' nm :
  same_fields mode r r' -> field_node r nm ≫= val = field_node r' nm ≫= val.
Proof. intros Hs. by destruct (field_node_same _ _ _ nm Hs) as [n n' (_ & E & _)|]. Qed.

Lemma field_interp_same mode r r' nm :
  same_fields mode r r' ->
  field_node r nm ≫= node_interp r mode = field_node r' nm ≫= node_interp r' mode.
Proof. intros Hs. by destruct (field_node_same _ _ _ nm Hs) as [n n' (_ & _ & E)|]. Qed.

(** Equivalent records satisfy the same expressions. *)
#[local] Instance holds_proper garbage a :
  Proper (same_fields (escape_mode a) ==> eq ==> eq) (holds garbage a).
Proof.
  intros r r' Hs e _ <-. pose proof Hs as [Hh _]. injection Hh as Hrec _ _ Htype _ _ _ _ _ _ _.
  induction e as [e IH|e1 IH1 e2 IH2|e1 IH1 e2 IH2|op nf f v|n|re]; cbn.
  - by rewrite IH.
  - by rewrite IH1, IH2.
  - by rewrite IH1, IH2.
  - destruct f as [n|id], v; try done; unfold holds_cmp.
    + by rewrite (field_raw_same _ _ _ n Hs), (field_interp_same _ _ _ n Hs).
    + by rewrite (field_raw_same _ _ _ n Hs).
    + destruct id; try done. by rewrite Htype.
  - apply bool_decide_ext. by destruct (field_node_same _ _ _ n Hs).
  - by rewrite Hrec.
Qed.

Lemma holds_same garbage a r r' e : same_fields (escape_mode a) r r' -> holds garbage a r e = holds garbage a r' e.
Proof. intros Hs. by rewrite Hs. Qed.

(** ** The evaluator computes the meaning *)

Lemma goto_field_spec mode nm r :
  named (nv r) ->
  exists b r', goto_field nm r = Some (b, r') /\ same_fields mode r r' /\
  match field_node r nm with
  | None => b = false
  | Some n => b = true /\ exists i, cur (nv r') = Some i /\ nodes (nv r') !! i = Some n
  end.
Proof.
  intros Hn. unfold goto_field, field_node. rewrite find_name_list by done.
  destruct (list_find _ (nodes (nv r))) as [[i n]|] eqn:E; cbn [mbind option_bind];
    do 2 eexists; (split; [done|]); (split; [by apply same_nodes|]); [|done].
  split; [done|]. exists i. split; [done|]. by apply list_find_Some in E as [? _].
Qed.

Lemma get_cur_at (l : nvlist) i n : cur l = Some i -> nodes l !! i = Some n -> cl_get_cur l = Some n.
Proof. intros Hc Hn. unfold cl_get_cur. by rewrite Hc. Qed.

Lemma named_same mode r r' : same_fields mode r r' -> named (nv r) -> named (nv r').
Proof.
  intros [_ Hf] Hn. unfold named in *. induction Hf as [|n n' ns ns' (E & _) _ IH]; [done|].
  apply Forall_cons in Hn as [Hn Hns]. constructor; [by rewrite <-E|by apply IH].
Qed.

Lemma eval_raw_spec mode r nm :
  named (nv r) ->
  exists r', eval_raw_value r (Name nm) = Some (field_node r nm ≫= val, r') /\
    same_fields mode r r'.
Proof.
  intros Hnd. cbn. destruct (goto_field_spec mode nm r Hnd) as (b & r' & -> & Hs & Hn).
  exists r'. split; [|done]. cbn. do 2 f_equal.
  destruct (field_node r nm) as [n|]; [|by rewrite Hn].
  destruct Hn as (-> & i & Hc & Hi). unfold nvlist_get_cur_val.
  by rewrite (get_cur_at _ _ _ Hc Hi).
Qed.

Lemma eval_unsigned_spec mode r nm :
  named (nv r) ->
  exists r', eval_unsigned_value r (Name nm)
    = Some ((fun s => u32 (fst (strtoul 10 s))) <$> (field_node r nm ≫= val), r') /\
    same_fields mode r r'.
Proof.
  intros Hnd. destruct (eval_raw_spec mode r nm Hnd) as (r' & E & Hs). exists r'. split; [|done].
  cbn in *. destruct (goto_field nm r) as [[b r1]|]; [|done]. cbn in *. injection E as <- ->.
  by destruct b.
Qed.

Lemma eval_interpreted_spec a r nm :
  named (nv r) ->
  exists r', eval_interpreted_value a r (Name nm)
    = Some (field_node r nm ≫= node_interp r (escape_mode a), r') /\
    same_fields (escape_mode a) r r'.
Proof.
  intros Hnd. cbn.
  destruct (goto_field_spec (escape_mode a) nm r Hnd) as (b & r1 & -> & Hs & Hn).
  cbn [mbind option_bind].
  destruct (field_node r nm) as [n|]; [|rewrite Hn; by exists r1].
  destruct Hn as (-> & i & Hc & Hi). pose proof Hs as [Hh _]. cbn.
  unfold nvlist_interp_cur_val, node_interp. rewrite (get_cur_at _ _ _ Hc Hi).
  destruct (interp_val n) as [v|] eqn:Ev; [by exists r1|].
  unfold interpret. rewrite Hc, Hi.
  pose proof (named_same _ _ _ Hs Hnd) as Hnd1. unfold named in Hnd1.
  rewrite Forall_lookup in Hnd1. destruct (Hnd1 _ _ Hi) as [nm' Hnm]. rewrite Hnm.
  cbn [mbind option_bind]. rewrite (interpretation_header _ r r1) by done.
  exists (set_nv r1 (CList (alter (set_interp_val (interpretation r1 (escape_mode a) n)) i
                       (nodes (nv r1))) (Some i) (cnt (nv r1)))). split.
  - destruct (interpretation r1 (escape_mode a) n) as [v|]; [reflexivity|].
    unfold nvlist_get_cur_val, cl_get_cur. cbn. rewrite list_lookup_alter_eq, Hi. reflexivity.
  - etrans; [exact Hs|]. split; [done|]. cbn.
    apply Forall2_alter_r; [by apply Forall_Forall2_diag, Forall_true|].
    intros n1 n2 H1 H2 _. rewrite Hi in H1, H2. injection H1 as <-. injection H2 as <-.
    by apply same_node_cache.
Qed.

(** -1, 0 or 1. *)
Definition sign (c : comparison) : Z := match c with Lt => -1 | Eq => 0 | Gt => 1 end.

Lemma test_cmp_sign op c :
  is_string_op op = false -> test_cmp op (sign c) = Some (op_holds op c).
Proof. by destruct op, c. Qed.

Lemma sign_compare x y rest :
  (if x <? y then -1 else if y <? x then 1 else sign rest)
  = sign match x ?= y with Eq => rest | c => c end.
Proof.
  destruct (Z.compare_spec x y) as [->|Hlt|Hlt].
  - by rewrite Z.ltb_irrefl.
  - apply Z.ltb_lt in Hlt. by rewrite Hlt.
  - pose proof (proj2 (Z.ltb_lt _ _) Hlt) as ->.
    by destruct (Z.ltb_spec x y); [lia|].
Qed.

Lemma compare_unsigned_sign x y : compare_unsigned_values x y = sign (x ?= y).
Proof.
  unfold compare_unsigned_values. change 0 with (sign Eq). rewrite sign_compare. by destruct (x ?= y).
Qed.

(** The nested tests of time stamps are the lexicographic order. *)
Lemma compare_values_sign garbage a r id v :
  wf_comparison EO_VALUE_EQ true (Id id) v = true ->
  exists c, compare_values garbage a r true id v = Some (Some (sign c)) /\
    forall op, holds_cmp garbage a r op (Id id) v = op_holds op c.
Proof.
  destruct id, v as [| s m n|n|]; try done; intros _; cbn -[Z.compare];
    (eexists; split; [|intros op; reflexivity]); do 2 f_equal; cbn [lex_compare];
    change 0 with (sign Eq); rewrite !sign_compare.
  - reflexivity.
  - by destruct (type r ?= n).
  - reflexivity.
Qed.

Lemma eval_string_spec op w got r :
  is_string_op op = true ->
  eval_string (op_is_eq op) (VString w) (got, r)
  = Some (match got with Some s => Bool.eqb (op_is_eq op) (str_eq w s) | None => false end, r).
Proof. intros Ho. destruct got as [s|]; [|done]. cbn. by destruct op, (str_eq w s). Qed.

Lemma eval_comparison_spec garbage a op nf f v r :
  named (nv r) -> wf_comparison op nf f v = true ->
  exists r', eval_comparison garbage a op nf f v r = Some (holds_cmp garbage a r op f v, r') /\
    same_fields (escape_mode a) r r'.
Proof.
  intros Hnd. unfold wf_comparison. destruct (is_string_op op) eqn:Eo.
  - destruct v as [w| | |]; try done. intros _.
    destruct f as [nm|id]; [|by exists r; destruct op, id].
    destruct (eval_raw_spec (escape_mode a) r nm Hnd) as (r1 & E1 & H1).
    destruct (eval_interpreted_spec a r nm Hnd) as (r2 & E2 & H2).
    destruct op; try done; unfold eval_comparison;
      rewrite ?E1, ?E2; cbn [mbind option_bind];
      (eexists; split;
       [match goal with |- context [holds_cmp _ _ _ ?op] => by apply (eval_string_spec op) end
       |done]).
  - intros [-> Hv]%andb_true_iff. destruct f as [nm|id].
    + destruct v as [| | |m]; try done.
      destruct (eval_unsigned_spec (escape_mode a) r nm Hnd) as (r1 & E1 & H1).
      assert (eval_comparison garbage a op true (Name nm) (VUnsigned m) r
        = '(valid, r) ← eval_unsigned_value r (Name nm);
          match valid with
          | None => Some (false, r)
          | Some val => b ← test_cmp op (compare_unsigned_values val m); Some (b, r)
          end) as -> by (by destruct op).
      rewrite E1. cbn [mbind option_bind]. cbn [holds_cmp].
      destruct (field_node r nm ≫= val) as [s|]; cbn -[strtoul u32]; [|by exists r1].
      rewrite compare_unsigned_sign, test_cmp_sign by done. cbn -[strtoul u32]. by exists r1.
    + destruct (compare_values_sign garbage a r id v) as (c & Hc & Hh); [by destruct id|].
      exists r. split; [|done]. rewrite Hh.
      assert (eval_comparison garbage a op true (Id id) v r
        = match compare_values garbage a r true id v with
          | None => None
          | Some None => Some (false, r)
          | Some (Some cmp) => b ← test_cmp op cmp; Some (b, r)
          end) as -> by (by destruct op).
      by rewrite Hc, test_cmp_sign.
Qed.

Lemma expr_eval_spec garbage a r e :
  wf_expr e = true -> named (nv r) ->
  exists r', expr_eval garbage a r e = Some (holds garbage a r e, r') /\ same_fields (escape_mode a) r r'.
Proof.
  revert r. induction e as [e IH|e1 IH1 e2 IH2|e1 IH1 e2 IH2|op nf f v|n|re];
    intros r Hwf Hnd.
  - destruct (IH r Hwf Hnd) as (r' & E & Hs). exists r'. cbn. by rewrite E.
  - cbn in Hwf. apply andb_true_iff in Hwf as [W1 W2].
    destruct (IH1 r W1 Hnd) as (r1 & E1 & Hs1). cbn. rewrite E1. cbn.
    destruct (holds garbage a r e1); cbn; [|by exists r1].
    destruct (IH2 r1 W2 (named_same _ _ _ Hs1 Hnd)) as (r2 & -> & Hs2). exists r2. by rewrite Hs1.
  - cbn in Hwf. apply andb_true_iff in Hwf as [W1 W2].
    destruct (IH1 r W1 Hnd) as (r1 & E1 & Hs1). cbn. rewrite E1. cbn.
    destruct (holds garbage a r e1); cbn; [by exists r1|].
    destruct (IH2 r1 W2 (named_same _ _ _ Hs1 Hnd)) as (r2 & -> & Hs2). exists r2. by rewrite Hs1.
  - by apply eval_comparison_spec.
  - cbn. destruct (goto_field_spec (escape_mode a) n r Hnd) as (b & r' & -> & Hs & Hn).
    exists r'. split; [|done]. do 2 f_equal. destruct (field_node r n); [|done].
    by destruct Hn as [-> _].
  - by exists r.
Qed.


(** The constructor functions build well-formed trees from well-formed trees. *)
Lemma create_comparison_wf f op v e :
  expr_create_comparison f op v = Some e -> wf_expr e = true.
Proof.
  unfold expr_create_comparison. destruct (is_string_op op) eqn:Eo; [|done].
  intros [= <-]. cbn. unfold wf_comparison. by rewrite Eo.
Qed.

Lemma create_regexp_wf re e : expr_create_regexp_expression re = Some e -> wf_expr e = true.
Proof. unfold expr_create_regexp_expression. destruct (regcomp re); [|done]. by intros [= <-]. Qed.

Lemma create_binary_wf b e1 e2 :
  wf_expr e1 = true -> wf_expr e2 = true -> wf_expr (expr_create_binary b e1 e2) = true.
Proof. intros H1 H2. destruct b; cbn; by rewrite H1, H2. Qed.

(** A time stamp comparison built by the program accepts exactly the events
    whose seconds, milliseconds and serial number stand in the operator's
    relation to the given ones in lexicographic order. *)
Theorem create_timestamp_order op s m n garbage a r :
  is_string_op op = false -> m < 1000 ->
  exists e, expr_create_timestamp_comparison_ex op s m n = Some e /\
    expr_eval garbage a r e
    = Some (op_holds op (lex_compare [sec a; milli a; serial a] [s; m; n]), r).
Proof.
  intros Eo Hm. unfold expr_create_timestamp_comparison_ex. rewrite Eo.
  pose proof (proj2 (Z.ltb_lt _ _) Hm) as ->. eexists. split; [done|].
  destruct (compare_values_sign garbage a r EF_TIMESTAMP_EX (VTimestamp s m (Some n)) eq_refl)
    as (c & Hc & Hh). 
  change (op_holds op (lex_compare [sec a; milli a; serial a] [s; m; n]))
    with (holds_cmp garbage a r op (Id EF_TIMESTAMP_EX) (VTimestamp s m (Some n))).
  rewrite Hh.
  cbn [expr_eval]. destruct op; try done; cbn [eval_comparison]; rewrite Hc; by destruct c.
Qed.

End wf.

(** ** Concrete inputs *)

(** An interpretation table that knows one user. *)
Definition sample_interp : Interp := {|
  auparse_interp_adjust_type _ n _ := if str_eq n "uid" then 1 else 0;
  auparse_do_interpretation t i _ :=
    if (t =? 1) && bool_decide (id_val i = Some "0") then Some "root" else None;
|}.

(** A record with three fields, its cursor past the end. *)
Definition sample_record : rnode :=
  RNode "type=LOGIN uid=0 key=a" None None 1006 0 0 0 0
    (CList [NvNode (Some "uid") (Some "0") None 0; NvNode (Some "key") (Some "a") None 1;
            NvNode (Some "uid") (Some "7") None 2] None 3) 0 0 1.


Lemma create_timestamp_order_witness :
  exists e, @expr_create_timestamp_comparison_ex ExprPrint.sample_env EO_VALUE_GE 5 6 8 = Some e /\
    @expr_eval _ sample_interp 0 (Au 5 6 7 0) sample_record e = Some (false, sample_record).
Proof.
  apply (@create_timestamp_order ExprPrint.sample_env sample_interp
    EO_VALUE_GE 5 6 8 0 (Au 5 6 7 0) sample_record); [reflexivity|lia].
Defined.

(** [\timestamp_ex] with a time stamp that has no serial number is
    accepted, and its truth then depends on memory that was never written. *)
Theorem timestamp_ex_reads_garbage :
  let text := String BACKSLASH "timestamp_ex == ts:5.6" in
  exists e, @expr_parse ExprPrint.sample_env text = Some (inl e) /\
    @expr_eval _ sample_interp 7 (Au 5 6 7 0) sample_record e = Some (true, sample_record) /\
    @expr_eval _ sample_interp 0 (Au 5 6 7 0) sample_record e = Some (false, sample_record).
Proof. eexists. split; [vm_compute; reflexivity|]. split; vm_compute; reflexivity. Qed.

End ExprEval.
