(* ===== verification/Lru.v ===== *)
(** * The cache of user and group names (src/auparse/lru.c, lru.h)

    A doubly linked list on a heap of nodes, most recently used first, indexed
    by an array of pointers, and the lookups of interpret.c that use it.  Memory
    allocation is taken to succeed. *)
From S2P Require Import Prelude CString.

Local Open Scope audit_scope.

Module Lru.

Abbreviation addr := nat.

Record QNode := MkQNode {
  prev : option addr;
  next : option addr;
  uses : Z;               (* unsigned long *)
  id : Z;                 (* unsigned int *)
  str : option string;
}.

(** [Queue] and the [array] of its [Hash], with the heap its nodes live in. *)
Record Queue := MkQueue {
  heap : gmap addr QNode;
  count : Z;
  total : Z;
  hits : Z;
  misses : Z;
  evictions : Z;
  front : option addr;
  end_ : option addr;
  array : list (option addr);
}.

Definition set_prev (p : option addr) (n : QNode) : QNode :=
  MkQNode p (next n) (uses n) (id n) (str n).
Definition set_next (p : option addr) (n : QNode) : QNode :=
  MkQNode (prev n) p (uses n) (id n) (str n).
Definition set_uses (u : Z) (n : QNode) : QNode :=
  MkQNode (prev n) (next n) u (id n) (str n).
Definition set_data (i : Z) (s : option string) (n : QNode) : QNode :=
  MkQNode (prev n) (next n) (uses n) i s.

Definition with_heap (h : gmap addr QNode) (q : Queue) : Queue :=
  MkQueue h (count q) (total q) (hits q) (misses q) (evictions q) (front q) (end_ q) (array q).
Definition with_front (f : option addr) (q : Queue) : Queue :=
  MkQueue (heap q) (count q) (total q) (hits q) (misses q) (evictions q) f (end_ q) (array q).
Definition with_end (e : option addr) (q : Queue) : Queue :=
  MkQueue (heap q) (count q) (total q) (hits q) (misses q) (evictions q) (front q) e (array q).
Definition with_count (c : Z) (q : Queue) : Queue :=
  MkQueue (heap q) c (total q) (hits q) (misses q) (evictions q) (front q) (end_ q) (array q).
Definition with_array (t : list (option addr)) (q : Queue) : Queue :=
  MkQueue (heap q) (count q) (total q) (hits q) (misses q) (evictions q) (front q) (end_ q) t.
Definition with_stats (h m e : Z) (q : Queue) : Queue :=
  MkQueue (heap q) (count q) (total q) h m e (front q) (end_ q) (array q).

(** Access to a node: [None] for a pointer that is not to a live node. *)
Definition update (a : addr) (f : QNode -> QNode) (q : Queue) : option Queue :=
  match heap q !! a with
  | Some n => Some (with_heap (<[a := f n]> (heap q)) q)
  | None => None
  end.
Definition free (a : addr) (q : Queue) : option Queue :=
  match heap q !! a with
  | Some _ => Some (with_heap (delete a (heap q)) q)
  | None => None
  end.

(** [hash->array[key] = p]; [None] outside the array. *)
Definition set_slot (key : Z) (p : option addr) (q : Queue) : option Queue :=
  if decide (0 <= key < Z.of_nat (length (array q)))
  then Some (with_array (<[Z.to_nat key := p]> (array q)) q) else None.

Definition ULONG (x : Z) : Z := u64 x.

Definition new_QNode : QNode := MkQNode None None 1 UINT32_MAX None.

Definition create_hash (hsize : Z) : list (option addr) := replicate (Z.to_nat hsize) None.

Definition create_queue (qsize : Z) (hash : list (option addr)) : Queue :=
  MkQueue ∅ 0 qsize 0 0 0 None None hash.

Definition init_lru (qsize : Z) : Queue := create_queue qsize (create_hash qsize).

Definition are_all_slots_full (q : Queue) : bool := count q =? total q.

Definition queue_is_empty (q : Queue) : bool :=
  match end_ q with None => true | Some _ => false end.

Definition insert_before (node new_node : addr) (q : Queue) : option Queue :=
  n ← heap q !! node;
  q ← update new_node (fun m => set_next (Some node) (set_prev (prev n) m)) q;
  q ← match prev n with
      | None => Some (with_front (Some new_node) q)
      | Some p => update p (set_next (Some new_node)) q
      end;
  update node (set_prev (Some new_node)) q.

Definition insert_beginning (new_node : addr) (q : Queue) : option Queue :=
  match front q with
  | None =>
      update new_node (fun m => set_next None (set_prev None m))
        (with_end (Some new_node) (with_front (Some new_node) q))
  | Some f => insert_before f new_node q
  end.

(** [None] also for abort(). *)
Definition remove_node (node : addr) (q : Queue) : option Queue :=
  n ← heap q !! node;
  match prev n with
  | None =>
      let q := with_front (next n) q in
      match next n with
      | None => Some q
      | Some f => update f (set_prev None) q
      end
  | Some p =>
      pn ← heap q !! p;
      if decide (next pn = Some node) then
        q ← update p (set_next (next n)) q;
        match next n with
        | None => update p (set_next None) (with_end (Some p) q)
        | Some x =>
            xn ← heap q !! x;
            if decide (prev xn = Some node) then update x (set_prev (Some p)) q else None
        end
      else None
  end.

(** Remove from the end of the queue. *)
Definition dequeue (q : Queue) : option Queue :=
  match end_ q with
  | None => Some q
  | Some temp =>
      q ← remove_node temp q;
      q ← free temp q;
      Some (with_count (count q -u 1) q)
  end.

(** Remove the front of the queue because it is a mismatch. *)
Definition lru_evict (key : Z) (q : Queue) : option Queue :=
  if queue_is_empty q then Some q
  else
    q ← set_slot key None q;
    temp ← front q;
    q ← remove_node temp q;
    q ← free temp q;
    Some (with_stats (hits q) (misses q) (ULONG (evictions q + 1))
            (with_count (count q -u 1) q)).

Fixpoint dequeue_all (n : nat) (q : Queue) : option Queue :=
  match n with
  | O => Some q
  | S n => q ← dequeue q; dequeue_all n q
  end.

(** [destroy_queue] calls [dequeue] until the count is zero. *)
Definition destroy_lru (q : Queue) : option Queue :=
  dequeue_all (Z.to_nat (count q)) (with_array [] q).

Definition compute_subject_key (q : Queue) (uid : Z) : Z := uid mod total q.

Section alloc.
(** [malloc], as the address it returns for the nodes that are live. *)
Context (malloc : gmap addr QNode -> addr).

(** Make a new entry and set up the hash key. *)
Definition enqueue (key : Z) (q : Queue) : option Queue :=
  q ← (if are_all_slots_full q then q ← set_slot key None q; dequeue q else Some q);
  let temp := malloc (heap q) in
  let q := with_heap (<[temp := new_QNode]> (heap q)) q in
  q ← insert_beginning temp q;
  q ← set_slot key (Some temp) q;
  Some (with_count (count q +u 1) q).

(** The pointer returned is [None] for a key out of bounds. *)
Definition check_lru_cache (key : Z) (q : Queue) : option (option addr * Queue) :=
  if total q <=? key then Some (None, q)
  else
    reqPage ← array q !! Z.to_nat key;
    q ← match reqPage with
        | None =>
            q ← enqueue key q;
            Some (with_stats (hits q) (ULONG (misses q + 1)) (evictions q) q)
        | Some a =>
            let hit q := with_stats (ULONG (hits q + 1)) (misses q) (evictions q) q in
            if decide (reqPage <> front q) then
              q ← remove_node a q;
              q ← update a (fun m => set_prev None (set_next None m)) q;
              q ← insert_beginning a q;
              f ← front q;
              q ← update f (fun m => set_uses (ULONG (uses m + 1)) m) q;
              Some (hit q)
            else Some (hit q)
        end;
    Some (front q, q).

(** ** The lookups of interpret.c *)

(** [aulookup_uid] and [aulookup_gid] differ only in the table they ask:
    [getname] is getpwuid() or getgrgid().  The result is the name before the
    [snprintf] into the caller's buffer. *)
Inductive lookup := Unset | Root | Found (name : string) | Unknown.

Definition aulookup (getname : Z -> option string) (uid : Z) (cache : option Queue)
    : option (lookup * option Queue) :=
  if uid =? UINT32_MAX then Some (Unset, cache)
  else if uid =? 0 then Some (Root, cache)
  else
    let q := default (init_lru 19) cache in
    let key := compute_subject_key q uid in
    '(node, q) ← check_lru_cache key q;
    match node with
    | None => Some (Unknown, Some q)
    | Some a =>
        n ← heap q !! a;
        if id n =? uid then
          Some (match str n with Some s => Found s | None => Unknown end, Some q)
        else
          q ← lru_evict key q;
          '(node, q) ← check_lru_cache key q;
          match getname uid with
          | None => Some (Unknown, Some q)
          | Some s =>
              a ← node;
              q ← update a (set_data uid (Some s)) q;
              Some (Found s, Some q)
          end
    end.

(** [aulookup_destroy_uid_list]. *)
Definition aulookup_destroy (cache : option Queue) : option (option Queue) :=
  match cache with
  | None => Some None
  | Some q => _ ← destroy_lru q; Some None
  end.

End alloc.

End Lru.
