(* ===== verification/LruFacts.v ===== *)
(** * Correctness of the name cache

    The heap of nodes always is a doubly linked list of the nodes that the array
    points to, in order of last use; a lookup through the cache gives what the
    user database gives. *)
From S2P Require Import Prelude CString Lru.

Local Open Scope audit_scope.

Module LruFacts.
Import Lru.

Lemma Forall2_impl_in {A B} (P Q : A -> B -> Prop) l k :
  Forall2 P l k -> (forall x y, x ∈ l -> P x y -> Q x y) -> Forall2 Q l k.
Proof.
  induction 1; intros Hi; constructor; [apply Hi; [left|done]|].
  apply IHForall2. intros. apply Hi; [by right|done].
Qed.

(** ** Doubly linked segments *)

Definition head_or (d : option addr) (xs : list addr) : option addr :=
  match xs with [] => d | a :: _ => Some a end.
Definition last_or (d : option addr) (xs : list addr) : option addr :=
  match last xs with Some a => Some a | None => d end.

(** The nodes [xs], linked both ways, after [p] and before [n]. *)
Fixpoint dseg (h : gmap addr QNode) (p : option addr) (xs : list addr) (n : option addr) : Prop :=
  match xs with
  | [] => True
  | a :: xs' => exists nd, h !! a = Some nd /\ prev nd = p /\ next nd = head_or n xs' /\
                  dseg h (Some a) xs' n
  end.

Lemma last_or_cons p a xs : last_or p (a :: xs) = last_or (Some a) xs.
Proof. unfold last_or. rewrite last_cons. by destruct (last xs). Qed.

Lemma head_or_app n xs ys : head_or n (xs ++ ys) = head_or (head_or n ys) xs.
Proof. by destruct xs. Qed.

Lemma dseg_app h p xs ys n :
  dseg h p (xs ++ ys) n <-> dseg h p xs (head_or n ys) /\ dseg h (last_or p xs) ys n.
Proof.
  revert p. induction xs as [|a xs IH]; intros p; cbn [app dseg].
  - split; [done|]. by intros [_ ?].
  - rewrite last_or_cons. split.
    + intros (nd & Ha & Hp & Hn & Hs). apply IH in Hs as [H1 H2]. split; [|done].
      exists nd. rewrite head_or_app in Hn. done.
    + intros [(nd & Ha & Hp & Hn & Hs) H2]. exists nd. rewrite head_or_app.
      split_and!; try done. by apply IH.
Qed.

Lemma dseg_frame h h' p xs n :
  (forall a, a ∈ xs -> h' !! a = h !! a) -> dseg h p xs n -> dseg h' p xs n.
Proof.
  revert p. induction xs as [|a xs IH]; intros p Hf; cbn; [done|].
  intros (nd & Ha & Hp & Hn & Hs). exists nd. rewrite Hf by set_solver.
  split_and!; try done. apply IH; [|done]. intros b Hb. apply Hf. set_solver.
Qed.

Lemma dseg_insert_frame h p xs n a nd :
  a ∉ xs -> dseg h p xs n -> dseg (<[a := nd]> h) p xs n.
Proof. intros Ha. apply dseg_frame. intros b Hb. apply lookup_insert_ne. congruence. Qed.

(** Redirect the last [next] and the first [prev]. *)
Lemma dseg_set_next h p xs b n n' nd :
  NoDup (xs ++ [b]) -> h !! b = Some nd ->
  dseg h p (xs ++ [b]) n -> dseg (<[b := set_next n' nd]> h) p (xs ++ [b]) n'.
Proof.
  intros Hd Hb. rewrite !dseg_app. cbn. intros [H1 (nd' & Hb' & Hp & Hn & _)].
  rewrite Hb in Hb'. injection Hb' as <-. split.
  - apply dseg_insert_frame; [|done]. apply NoDup_app in Hd as (_ & Hd & _). set_solver.
  - eexists. by rewrite lookup_insert_eq.
Qed.

Lemma dseg_set_prev h p p' b xs n nd :
  NoDup (b :: xs) -> h !! b = Some nd ->
  dseg h p (b :: xs) n -> dseg (<[b := set_prev p' nd]> h) p' (b :: xs) n.
Proof.
  intros [Hb' Hd]%NoDup_cons Hb (nd' & E & _ & Hn & Hs). rewrite Hb in E. injection E as <-.
  exists (set_prev p' nd). rewrite lookup_insert_eq. split_and!; [done..|].
  by apply dseg_insert_frame.
Qed.

(** A node of the list, with its neighbours. *)
Lemma dseg_at h p xs a ys n :
  dseg h p (xs ++ a :: ys) n ->
  exists nd, h !! a = Some nd /\ prev nd = last_or p xs /\ next nd = head_or n ys.
Proof. rewrite dseg_app. intros [_ (nd & ? & ? & ? & _)]. by exists nd. Qed.

(** ** The structure of the queue *)

(** What a node holds. *)
Definition data (q : Queue) (a : addr) : option (Z * option string) :=
  (fun n => (id n, str n)) <$> heap q !! a.

(** The list [xs] of the addresses of linked nodes, from the front, while the
    nodes [extra] are live and not linked.  A queue without nodes may keep a
    stale [end_]. *)
Record linked (q : Queue) (xs extra : list addr) : Prop := Linked {
  ln_list : dseg (heap q) None xs None;
  ln_nodup : NoDup xs;
  ln_disj : forall a, a ∈ xs -> a ∉ extra;
  ln_live : forall a, is_Some (data q a) <-> a ∈ xs \/ a ∈ extra;
  ln_front : front q = head_or None xs;
  ln_end : xs <> [] -> end_ q = last_or None xs;
}.

(** [q'] is [q] with other links. *)
Record relinked (q q' : Queue) : Prop := Relinked {
  rl_data : forall a, data q' a = data q a;
  rl_array : array q' = array q;
  rl_total : total q' = total q;
  rl_count : count q' = count q;
}.

Lemma relinked_refl q : relinked q q.
Proof. done. Qed.

Lemma relinked_trans q1 q2 q3 : relinked q1 q2 -> relinked q2 q3 -> relinked q1 q3.
Proof. intros [] []. split; congruence. Qed.

Lemma node_update_spec a f q nd :
  heap q !! a = Some nd -> update a f q = Some (with_heap (<[a := f nd]> (heap q)) q).
Proof. intros E. unfold update. by rewrite E. Qed.

(** Writing the links of a node leaves what it holds. *)
Lemma relinked_write a nd nd' q :
  heap q !! a = Some nd -> id nd' = id nd -> str nd' = str nd ->
  relinked q (with_heap (<[a := nd']> (heap q)) q).
Proof.
  intros Ha Hi Hs. split; [|done..]. intros b. unfold data. cbn.
  destruct (decide (a = b)) as [<-|Hne]; [|by rewrite lookup_insert_ne].
  rewrite lookup_insert_eq, Ha. cbn. by rewrite Hi, Hs.
Qed.

Lemma live_iff q a : is_Some (data q a) <-> is_Some (heap q !! a).
Proof. unfold data. by rewrite fmap_is_Some. Qed.

(** ** Linking and unlinking *)

Lemma last_or_snoc p xs a : last_or p (xs ++ [a]) = Some a.
Proof. unfold last_or. by rewrite last_snoc. Qed.

Lemma last_or_None xs : last_or None xs = None -> xs = [].
Proof.
  destruct xs as [|x xs] using rev_ind; [done|]. by rewrite last_or_snoc.
Qed.

Lemma last_or_Some xs a : last_or None xs = Some a -> exists ys, xs = ys ++ [a].
Proof.
  destruct xs as [|x xs] using rev_ind; [done|]. rewrite last_or_snoc. intros [= ->].
  by eexists.
Qed.

Lemma last_or_app xs ys : last_or None (xs ++ ys) = last_or (last_or None xs) ys.
Proof. unfold last_or. rewrite last_app. by destruct (last ys), (last xs). Qed.

Lemma insert_beginning_spec q xs a nd :
  linked q xs [a] -> heap q !! a = Some nd ->
  exists q', insert_beginning a q = Some q' /\ linked q' (a :: xs) [] /\ relinked q q'.
Proof.
  intros [Hl Hd Hx Hlive Hf He] Ha. unfold insert_beginning. rewrite Hf.
  assert (a ∉ xs) as Hax by (intros Hin; apply (Hx a Hin); set_solver).
  destruct xs as [|b xs]; cbn [head_or].
  - rewrite (node_update_spec _ _ _ nd) by done. eexists. split; [done|].
    assert (relinked q (with_heap (<[a := set_next None (set_prev None nd)]> (heap q)) q))
      as Hr by (by eapply relinked_write).
    split; [split; cbn|].
    + eexists. by rewrite lookup_insert_eq.
    + by apply NoDup_singleton.
    + set_solver.
    + intros c. pose proof (rl_data _ _ Hr c) as Hc. unfold data in *. cbn in *.
      rewrite Hc, Hlive. set_solver.
    + done.
    + done.
    + split; [exact (rl_data _ _ Hr)|done..].
  - destruct (dseg_at _ None [] b xs None Hl) as (nb & Hb & Hpb & Hnb).
    unfold insert_before. rewrite Hb. cbn [mbind option_bind]. rewrite Hpb.
    cbn [last_or last]. rewrite (node_update_spec _ _ _ nd Ha). cbn [mbind option_bind].
    assert (a <> b) as Hab by set_solver.
    rewrite (node_update_spec _ _ _ nb) by (cbn; by rewrite lookup_insert_ne).
    eexists. split; [done|].
    set (nd' := set_next (Some b) (set_prev None nd)).
    assert (relinked q (with_heap (<[a := nd']> (heap q)) q)) as Hr1
      by (by eapply relinked_write).
    assert (relinked (with_heap (<[a := nd']> (heap q)) q)
      (with_heap (<[b := set_prev (Some a) nb]> (<[a := nd']> (heap q)))
         (with_heap (<[a := nd']> (heap q)) q))) as Hr2.
    { apply (relinked_write b nb); [cbn; by rewrite lookup_insert_ne|done..]. }
    pose proof (relinked_trans _ _ _ Hr1 Hr2) as Hr.
    split; [split; cbn [heap with_heap with_front front end_]|].
    + exists nd'. rewrite lookup_insert_ne, lookup_insert_eq by done. split_and!; [done..|].
      eapply (dseg_set_prev _ None); [done|by rewrite lookup_insert_ne|].
      by apply dseg_insert_frame.
    + by apply NoDup_cons.
    + set_solver.
    + intros c. pose proof (rl_data _ _ Hr c) as Hc. unfold data in *. cbn in *.
      rewrite Hc, Hlive. set_solver.
    + done.
    + intros _. rewrite last_or_cons. rewrite He by done. by rewrite !last_or_cons.
    + split; [exact (rl_data _ _ Hr)|done..].
Qed.

(** Assemble [linked] for the list without [a] from the heap's segments. *)
Lemma linked_without q q' l1 a l2 :
  linked q (l1 ++ a :: l2) [] -> relinked q q' ->
  dseg (heap q') None (l1 ++ l2) None -> front q' = head_or None (l1 ++ l2) ->
  (l1 ++ l2 <> [] -> end_ q' = last_or None (l1 ++ l2)) ->
  linked q' (l1 ++ l2) [a].
Proof.
  intros [_ Hd _ Hlive _ _] Hr Hs Hf He. apply NoDup_app in Hd as (D1 & D12 & D2).
  apply NoDup_cons in D2 as [Da D2]. split; try done.
  - apply NoDup_app. split_and!; [done| |done]. intros b Hb Hb2. apply (D12 b Hb). set_solver.
  - intros b Hb Hba. apply list_elem_of_singleton in Hba as ->.
    apply elem_of_app in Hb as [Hb|Hb]; [|done]. apply (D12 a Hb). set_solver.
  - intros b. rewrite (rl_data _ _ Hr), Hlive, !elem_of_app, elem_of_cons, list_elem_of_singleton.
    pose proof (not_elem_of_nil b). tauto.
Qed.

(** At the front. *)
Lemma remove_front q a l2 nd :
  linked q (a :: l2) [] -> heap q !! a = Some nd ->
  exists q', remove_node a q = Some q' /\ linked q' l2 [a] /\ relinked q q' /\
    heap q' !! a = Some nd.
Proof.
  intros Hl Ha. pose proof Hl as [Hs Hd _ _ _ He].
  pose proof Hs as (nd' & E & Hp & Hn & Hs2). rewrite Ha in E. injection E as <-.
  apply NoDup_cons in Hd as [Hal2 Hd2].
  unfold remove_node. rewrite Ha. cbn [mbind option_bind]. rewrite Hp, Hn.
  destruct l2 as [|x l2]; cbn [head_or].
  - eexists. split; [done|].
    assert (relinked q (with_front None q)) as Hr by done.
    split_and!; [|done|done]. by apply (linked_without q _ [] a []).
  - pose proof Hs2 as (nx & Hx & _).
    rewrite (node_update_spec _ _ _ nx) by done. eexists. split; [done|].
    assert (relinked q (with_heap (<[x := set_prev None nx]> (heap q)) q)) as Hr
      by (by eapply relinked_write).
    split_and!.
    + apply (linked_without q _ [] a (x :: l2)); cbn [app]; try done.
      * split; [exact (rl_data _ _ Hr)|done..].
      * cbn [heap with_heap with_front]. by eapply dseg_set_prev.
      * intros _. cbn. rewrite He by done. by rewrite !last_or_cons.
    + split; [exact (rl_data _ _ Hr)|done..].
    + cbn. rewrite lookup_insert_ne; [done|]. set_solver.
Qed.

(** After another node. *)
Lemma remove_after q l1 p a l2 nd :
  linked q ((l1 ++ [p]) ++ a :: l2) [] -> heap q !! a = Some nd ->
  exists q', remove_node a q = Some q' /\ linked q' ((l1 ++ [p]) ++ l2) [a] /\
    relinked q q' /\ heap q' !! a = Some nd.
Proof.
  intros Hl Ha. pose proof Hl as [Hs Hd _ _ Hf He].
  destruct (dseg_at _ _ _ _ _ _ Hs) as (nd' & E & Hp & Hn). rewrite Ha in E. injection E as <-.
  rewrite last_or_snoc in Hp. apply dseg_app in Hs as [Hs1 Hs2]. rewrite last_or_snoc in Hs2.
  destruct Hs2 as (nd' & E & _ & _ & Hs2). rewrite Ha in E. injection E as <-.
  destruct (dseg_at _ _ l1 p [] _ Hs1) as (np & Hnp & _ & Hnn). cbn in Hnn.
  pose proof Hd as (D1 & D12 & D2)%NoDup_app. apply NoDup_cons in D2 as [Da D2].
  assert (p <> a) as Hpa by (intros ->; apply (D12 a); set_solver).
  assert (p ∉ l2) as Hpl by (intros Hin; apply (D12 p); set_solver).
  unfold remove_node. rewrite Ha. cbn [mbind option_bind]. rewrite Hp.
  rewrite Hnp. cbn [mbind option_bind]. rewrite decide_True by done.
  rewrite (node_update_spec _ _ _ np Hnp). cbn [mbind option_bind]. rewrite Hn.
  set (q1 := with_heap (<[p := set_next (head_or None l2) np]> (heap q)) q).
  assert (relinked q q1) as Hr1 by (by eapply relinked_write).
  assert (dseg (heap q1) None (l1 ++ [p]) (head_or None l2)) as Hq1.
  { cbn. by apply dseg_set_next with (n := Some a). }
  destruct l2 as [|x l2]; cbn [head_or].
  - set (np' := set_next None np).
    rewrite (node_update_spec _ _ _ np') by (cbn; by rewrite lookup_insert_eq).
    eexists. split; [done|].
    assert (relinked q1 (with_heap (<[p := set_next None np']> (heap q1)) q1)) as Hr2.
    { apply (relinked_write p np'); [cbn; by rewrite lookup_insert_eq|done..]. }
    pose proof (relinked_trans _ _ _ Hr1 Hr2) as Hr.
    split_and!.
    + apply (linked_without q _ (l1 ++ [p]) a []); try done.
      * split; [exact (rl_data _ _ Hr)|done..].
      * rewrite app_nil_r. cbn [heap with_heap with_end].
        eapply dseg_set_next; [done|cbn; by rewrite lookup_insert_eq|exact Hq1].
      * cbn. rewrite Hf, app_nil_r. by destruct l1.
      * intros _. by rewrite app_nil_r, last_or_snoc.
    + split; [exact (rl_data _ _ Hr)|done..].
    + cbn. by rewrite !lookup_insert_ne.
  - destruct Hs2 as (nx & Hx & Hpx & Hs2).
    assert (p <> x) as Hpx' by set_solver. assert (x <> a) as Hxa by set_solver.
    cbn [heap with_heap q1]. rewrite lookup_insert_ne, Hx by done. cbn [mbind option_bind].
    rewrite decide_True by done.
    rewrite (node_update_spec _ _ _ nx) by (cbn; by rewrite lookup_insert_ne).
    eexists. split; [done|].
    assert (relinked q1 (with_heap (<[x := set_prev (Some p) nx]> (heap q1)) q1)) as Hr2.
    { apply (relinked_write x nx); [cbn; by rewrite lookup_insert_ne|done..]. }
    pose proof (relinked_trans _ _ _ Hr1 Hr2) as Hr.
    split_and!.
    + apply (linked_without q _ (l1 ++ [p]) a (x :: l2)); try done.
      * cbn [heap with_heap q1]. apply dseg_app. split.
        -- apply dseg_insert_frame; [|done]. intros Hin. apply (D12 x Hin). set_solver.
        -- rewrite last_or_snoc. eapply (dseg_set_prev _ (Some a)); [done|cbn; by rewrite lookup_insert_ne|].
           apply dseg_insert_frame; [done|]. by exists nx.
      * cbn. rewrite Hf. by destruct l1.
      * intros _. cbn. rewrite He by (by destruct l1). by rewrite !last_or_app, !last_or_cons.
    + done.
    + cbn. by rewrite !lookup_insert_ne.
Qed.

Lemma remove_node_spec q l1 a l2 nd :
  linked q (l1 ++ a :: l2) [] -> heap q !! a = Some nd ->
  exists q', remove_node a q = Some q' /\ linked q' (l1 ++ l2) [a] /\ relinked q q' /\
    heap q' !! a = Some nd.
Proof.
  destruct l1 as [|p l1 _] using rev_ind; [apply remove_front|apply remove_after].
Qed.

(** ** The array of pointers *)

Local Abbreviation pointers t := (omap (fun x : option addr => x) t).

Lemma pointers_split (t : list (option addr)) k x :
  t !! k = Some x ->
  pointers t = pointers (take k t) ++ match x with Some a => [a] | None => [] end
               ++ pointers (drop (S k) t).
Proof.
  intros Hk. rewrite <-(take_drop_middle _ _ _ Hk) at 1. rewrite omap_app. f_equal.
  by destruct x.
Qed.

Lemma pointers_insert (t : list (option addr)) k y :
  (k < length t)%nat ->
  pointers (<[k := y]> t) = pointers (take k t) ++ match y with Some a => [a] | None => [] end
                            ++ pointers (drop (S k) t).
Proof.
  intros Hk. rewrite insert_take_drop by done. rewrite omap_app. f_equal. by destruct y.
Qed.

Lemma pointers_fill (t : list (option addr)) k a :
  t !! k = Some None -> pointers (<[k := Some a]> t) ≡ₚ a :: pointers t.
Proof.
  intros Hk. rewrite pointers_insert by (by eapply lookup_lt_Some).
  rewrite (pointers_split _ _ _ Hk). cbn. by rewrite Permutation_middle.
Qed.

Lemma pointers_clear (t : list (option addr)) k a :
  t !! k = Some (Some a) -> a :: pointers (<[k := None]> t) ≡ₚ pointers t.
Proof.
  intros Hk. rewrite pointers_insert by (by eapply lookup_lt_Some).
  rewrite (pointers_split _ _ _ Hk). cbn. by rewrite Permutation_middle.
Qed.

(** A free slot: fewer nodes than slots. *)
Lemma pointers_length (t : list (option addr)) : (length (pointers t) <= length t)%nat.
Proof. induction t as [|[a|] t IH]; cbn in *; lia. Qed.

Lemma pointers_room (t : list (option addr)) k : t !! k = Some None -> (length (pointers t) < length t)%nat.
Proof.
  intros Hk. rewrite (pointers_split _ _ _ Hk). cbn. rewrite length_app.
  pose proof (pointers_length (take k t)). pose proof (pointers_length (drop (S k) t)).
  pose proof (lookup_lt_Some _ _ _ Hk). rewrite length_take in *. rewrite length_drop in *. lia.
Qed.

Lemma pointers_elem (t : list (option addr)) k a : t !! k = Some (Some a) -> a ∈ pointers t.
Proof. intros Hk. rewrite (pointers_split _ _ _ Hk). set_solver. Qed.

(** Slots without repetition have one pointer to each node. *)
Lemma pointers_inj (t : list (option addr)) k k' a :
  NoDup (pointers t) -> t !! k = Some (Some a) -> t !! k' = Some (Some a) -> k = k'.
Proof.
  intros Hd Hk Hk'. destruct (decide (k = k')) as [|Hne]; [done|].
  pose proof (pointers_clear _ _ _ Hk) as Hp. rewrite <-Hp in Hd.
  apply NoDup_cons in Hd as [[] _]. apply (pointers_elem _ k').
  by rewrite list_lookup_insert_ne.
Qed.

(** ** The cache *)

Record cache (q : Queue) (xs : list addr) : Prop := Cache {
  ca_linked : linked q xs [];
  ca_array : pointers (array q) ≡ₚ xs;
  ca_length : Z.of_nat (length (array q)) = total q;
  ca_count : count q = Z.of_nat (length xs);
  ca_total : total q < two32;
}.

Lemma free_spec q xs a :
  linked q xs [a] ->
  exists q', free a q = Some q' /\ linked q' xs [] /\
    (forall b, data q' b = if decide (a = b) then None else data q b) /\
    array q' = array q /\ total q' = total q /\ count q' = count q.
Proof.
  intros [Hs Hd Hx Hlive Hf He].
  assert (a ∉ xs) as Ha by (intros Hin; apply (Hx a Hin); set_solver).
  assert (is_Some (heap q !! a)) as [nd Hnd].
  { apply live_iff, Hlive. right. set_solver. }
  unfold free. rewrite Hnd. eexists. split; [done|].
  assert (forall b, data (with_heap (delete a (heap q)) q) b
    = if decide (a = b) then None else data q b) as Hdata.
  { intros b. unfold data. cbn. case_decide as E; [subst; by rewrite lookup_delete_eq|].
    by rewrite lookup_delete_ne. }
  split_and!; try done. split; try done.
  - eapply dseg_frame; [|exact Hs]. intros b Hb. cbn. apply lookup_delete_ne. congruence.
  - set_solver.
  - intros b. rewrite Hdata. case_decide as E.
    + subst. split; [by intros []|]. intros [Hin|Hin]; [done|by apply not_elem_of_nil in Hin].
    + rewrite Hlive, list_elem_of_singleton. pose proof (not_elem_of_nil b).
      split; intros [?|?]; auto; congruence.
Qed.

Lemma linked_node q xs i a :
  linked q xs [] -> xs !! i = Some a ->
  exists nd, heap q !! a = Some nd /\ xs = take i xs ++ a :: drop (S i) xs.
Proof.
  intros [Hs _ _ _ _ _] Hi. pose proof (take_drop_middle _ _ _ Hi) as E.
  rewrite <-E in Hs. destruct (dseg_at _ _ _ _ _ _ Hs) as (nd & Ha & _). by exists nd.
Qed.

(** Unlink and release the node at place [i]. *)
Lemma discard_spec q xs i a :
  linked q xs [] -> xs !! i = Some a ->
  exists q1 q', remove_node a q = Some q1 /\ free a q1 = Some q' /\
    linked q' (delete i xs) [] /\
    (forall b, data q' b = if decide (a = b) then None else data q b) /\
    array q' = array q /\ total q' = total q /\ count q' = count q.
Proof.
  intros Hl Hi. destruct (linked_node _ _ _ _ Hl Hi) as (nd & Ha & E).
  rewrite E in Hl. destruct (remove_node_spec _ _ _ _ _ Hl Ha) as (q1 & Hrm & Hl1 & Hr & _).
  rewrite <-delete_take_drop in Hl1. destruct (free_spec _ _ _ Hl1) as (q' & Hfr & Hl' & Hd & Ha' & Ht & Hc).
  destruct Hr as [Rd Ra Rt Rc]. exists q1, q'. split_and!; try done; try congruence.
  intros b. rewrite Hd. case_decide; [done|apply Rd].
Qed.

(** [dequeue] releases the last node. *)
Lemma dequeue_spec q xs a :
  linked q (xs ++ [a]) [] ->
  exists q', dequeue q = Some q' /\ linked q' xs [] /\ count q' = (count q -u 1).
Proof.
  intros Hl. unfold dequeue. rewrite (ln_end _ _ _ Hl) by (by destruct xs).
  rewrite last_or_snoc.
  destruct (discard_spec q (xs ++ [a]) (length xs) a Hl) as (q1 & q' & -> & E & Hl' & _ & _ & _ & Hc).
  { by rewrite list_lookup_middle. }
  cbn [mbind option_bind]. rewrite E. cbn [mbind option_bind]. eexists. split; [done|].
  rewrite delete_middle, app_nil_r in Hl'. cbn. rewrite Hc. split; [|done].
  destruct Hl'. by split.
Qed.

(** Destroying the cache releases every node. *)
Lemma dequeue_all_spec xs q :
  linked q xs [] ->
  exists q', dequeue_all (length xs) q = Some q' /\ heap q' = ∅.
Proof.
  revert q. induction xs as [|a xs IH] using rev_ind; intros q Hl.
  - exists q. split; [done|]. apply map_empty. intros a.
    destruct (heap q !! a) as [nd|] eqn:E; [|done].
    assert (is_Some (data q a)) as Hs by (by apply live_iff; rewrite E).
    apply (ln_live _ _ _ Hl) in Hs as [H|H]; by apply not_elem_of_nil in H.
  - destruct (dequeue_spec _ _ _ Hl) as (q1 & E & Hl1 & _). rewrite length_app, Nat.add_comm.
    cbn. rewrite E. cbn. by apply IH.
Qed.

Lemma set_slot_spec key p q :
  0 <= key < Z.of_nat (length (array q)) ->
  set_slot key p q = Some (with_array (<[Z.to_nat key := p]> (array q)) q).
Proof. intros Hk. unfold set_slot. by rewrite decide_True. Qed.

Lemma slot_range q key x :
  array q !! Z.to_nat key = Some x -> 0 <= key -> 0 <= key < Z.of_nat (length (array q)).
Proof. intros Hk%lookup_lt_Some ?. lia. Qed.

(** The same list, whatever the array and the counters. *)
Lemma linked_ext q q' xs ys :
  heap q' = heap q -> front q' = front q -> end_ q' = end_ q ->
  linked q xs ys -> linked q' xs ys.
Proof. intros Eh Ef Ee []. split; unfold data in *; rewrite ?Eh, ?Ef, ?Ee; done. Qed.

Section malloc.
Context (malloc : gmap addr QNode -> addr).
Context (malloc_fresh : forall h, h !! malloc h = None).

(** A new node at the front for an empty slot: the queue is never full then. *)
Lemma enqueue_spec key q xs :
  cache q xs -> 0 <= key -> array q !! Z.to_nat key = Some None ->
  exists a q', enqueue malloc key q = Some q' /\ (a ∉ xs) /\ cache q' (a :: xs) /\
    array q' = <[Z.to_nat key := Some a]> (array q) /\ total q' = total q /\
    data q' a = Some (UINT32_MAX, None) /\ (forall b, b <> a -> data q' b = data q b).
Proof.
  intros [Hl Ha Hlen Hc Ht] H0 Hk. pose proof (slot_range _ _ _ Hk H0) as Hr.
  pose proof (pointers_room _ _ Hk) as Hroom. rewrite (Permutation_length Ha) in Hroom.
  unfold enqueue, are_all_slots_full.
  replace (count q =? total q) with false by (symmetry; apply Z.eqb_neq; lia).
  cbn [mbind option_bind]. set (a := malloc (heap q)).
  assert (heap q !! a = None) as Hfresh by apply malloc_fresh.
  set (q1 := with_heap (<[a := new_QNode]> (heap q)) q).
  assert (forall b, b <> a -> data q1 b = data q b) as Hd1.
  { intros b Hb. unfold data. cbn. by rewrite lookup_insert_ne. }
  assert (a ∉ xs) as Hax.
  { intros Hin. assert (is_Some (data q a)) as [? Hs] by (apply Hl; by left).
    unfold data in Hs. by rewrite Hfresh in Hs. }
  assert (linked q1 xs [a]) as Hl1.
  { destruct Hl as [Hs Hd Hx Hlive Hf He]. split; try done.
    - by apply dseg_insert_frame.
    - intros b Hb Hba. apply list_elem_of_singleton in Hba as ->. done.
    - intros b. rewrite list_elem_of_singleton. destruct (decide (b = a)) as [->|Hne].
      + unfold data. cbn. rewrite lookup_insert_eq. split; [by right|by intros _].
      + rewrite Hd1, Hlive by done. pose proof (not_elem_of_nil b). tauto. }
  destruct (insert_beginning_spec q1 xs a new_QNode Hl1) as (q2 & E & Hl2 & [Rd Ra Rt Rc]).
  { cbn. by rewrite lookup_insert_eq. }
  rewrite E. cbn [mbind option_bind]. cbn in Ra, Rt, Rc.
  rewrite set_slot_spec by (by rewrite Ra). cbn [mbind option_bind].
  exists a. eexists. split; [done|]. split; [done|].
  split; [split|]; cbn; rewrite ?Ra, ?Rt, ?Rc.
  - by eapply linked_ext; [..|exact Hl2].
  - by rewrite pointers_fill, Ha.
  - by rewrite length_insert.
  - rewrite Hc, u32_small by lia. lia.
  - done.
  - split_and!; try done.
    + etrans; [apply (Rd a)|]. unfold data. cbn. by rewrite lookup_insert_eq.
    + intros b Hb. etrans; [apply (Rd b)|]. by apply Hd1.
Qed.

(** A hit moves the node to the front. *)
Lemma move_front_spec q xs i a :
  linked q xs [] -> xs !! i = Some a ->
  exists q1 q2 q3, remove_node a q = Some q1 /\
    update a (fun m => set_prev None (set_next None m)) q1 = Some q2 /\
    insert_beginning a q2 = Some q3 /\
    linked q3 (a :: delete i xs) [] /\ relinked q q3.
Proof.
  intros Hl Hi. destruct (linked_node _ _ _ _ Hl Hi) as (nd & Ha & E). rewrite E in Hl.
  destruct (remove_node_spec _ _ _ _ _ Hl Ha) as (q1 & Hrm & Hl1 & Hr1 & Ha1).
  rewrite <-delete_take_drop in Hl1.
  set (nd' := set_prev None (set_next None nd)).
  assert (relinked q1 (with_heap (<[a := nd']> (heap q1)) q1)) as Hr2
    by (by eapply relinked_write).
  assert (linked (with_heap (<[a := nd']> (heap q1)) q1) (delete i xs) [a]) as Hl2.
  { destruct Hl1 as [Hs Hd Hx Hlive Hf He]. split; try done.
    - apply dseg_insert_frame; [|done]. intros Hin. apply (Hx a Hin). set_solver.
    - intros b. by rewrite (rl_data _ _ Hr2). }
  destruct (insert_beginning_spec _ _ _ nd' Hl2) as (q3 & E3 & Hl3 & Hr3).
  { cbn. by rewrite lookup_insert_eq. }
  exists q1. eexists. exists q3. split_and!; [done|by apply node_update_spec|done|done|].
  eauto using relinked_trans.
Qed.

Lemma check_hit key q xs i a :
  cache q xs -> 0 <= key < total q ->
  array q !! Z.to_nat key = Some (Some a) -> xs !! i = Some a ->
  exists q', check_lru_cache malloc key q = Some (Some a, q') /\
    cache q' (a :: delete i xs) /\ array q' = array q /\ total q' = total q /\
    forall b, data q' b = data q b.
Proof.
  intros Hc Hk Hs Hi. pose proof Hc as [Hl Ha Hlen Hct Ht].
  assert (xs ≡ₚ a :: delete i xs) as Hp by (by apply delete_Permutation).
  unfold check_lru_cache. replace (total q <=? key) with false by (symmetry; apply Z.leb_gt; lia).
  rewrite Hs. cbn [mbind option_bind]. destruct (decide (Some a <> front q)) as [Hne|Hfr].
  - destruct (move_front_spec _ _ _ _ Hl Hi) as (q1 & q2 & q3 & -> & E2 & E3 & Hl3 & [Rd Ra Rt Rc]).
    cbn [mbind option_bind]. rewrite E2. cbn [mbind option_bind]. rewrite E3.
    cbn [mbind option_bind]. rewrite (ln_front _ _ _ Hl3). cbn [head_or mbind option_bind].
    destruct (linked_node _ _ 0 _ Hl3 eq_refl) as (nd & Hnd & _).
    rewrite (node_update_spec _ _ _ nd Hnd). cbn [mbind option_bind].
    set (nd' := set_uses (ULONG (uses nd + 1)) nd).
    assert (relinked q3 (with_heap (<[a := nd']> (heap q3)) q3)) as [Ud Ua Ut Uc]
      by (by eapply relinked_write).
    eexists. split; [cbn; by rewrite (ln_front _ _ _ Hl3)|]. split; [split|]; cbn.
    + destruct Hl3 as [Ls Ld Lx Llive Lf Le]. split; cbn; try done.
      * destruct Ls as (nd0 & E0 & Hp0 & Hn0 & Ls). rewrite Hnd in E0. injection E0 as <-.
        exists nd'. rewrite lookup_insert_eq. split_and!; [done..|].
        apply dseg_insert_frame; [|done]. by apply NoDup_cons in Ld as [? _].
      * intros b. rewrite <-Llive. by rewrite <-(Ud b).
    + by rewrite Ra, Ha.
    + by rewrite Ra, Rt.
    + rewrite Rc, Hct. f_equal. exact (Permutation_length Hp).
    + by rewrite Rt.
    + split_and!; try done. intros b. etrans; [apply (Ud b)|apply Rd].
  - apply dec_stable in Hfr. eexists. split; [cbn; by rewrite <-Hfr|].
    assert (xs = a :: delete i xs) as E.
    { rewrite (ln_front _ _ _ Hl) in Hfr. destruct xs as [|x xs]; [done|].
      cbn in Hfr. injection Hfr as <-. destruct i as [|i]; [done|].
      exfalso. pose proof (ln_nodup _ _ _ Hl) as [Hnin _]%NoDup_cons. apply Hnin.
      by eapply list_elem_of_lookup_2. }
    rewrite <-E. split_and!; try done. split; cbn; try done. by eapply linked_ext; [..|exact Hl].
Qed.

Lemma check_miss key q xs :
  cache q xs -> 0 <= key < total q -> array q !! Z.to_nat key = Some None ->
  exists a q', check_lru_cache malloc key q = Some (Some a, q') /\ (a ∉ xs) /\
    cache q' (a :: xs) /\ array q' = <[Z.to_nat key := Some a]> (array q) /\
    total q' = total q /\ data q' a = Some (UINT32_MAX, None) /\
    (forall b, b <> a -> data q' b = data q b).
Proof.
  intros Hc Hk Hs. destruct (enqueue_spec key q xs Hc ltac:(lia) Hs)
    as (a & q' & E & Hax & Hc' & Ha & Ht & Hd & Hb).
  unfold check_lru_cache. replace (total q <=? key) with false by (symmetry; apply Z.leb_gt; lia).
  rewrite Hs. cbn [mbind option_bind]. rewrite E. cbn [mbind option_bind].
  pose proof Hc' as [Hl' ? ? ? ?].
  exists a. eexists. split; [cbn; by rewrite (ln_front _ _ _ Hl')|]. split_and!; try done.
  split; cbn; try done. by eapply linked_ext; [..|exact Hl'].
Qed.

(** Evicting the front, for the key that points to it. *)
Lemma evict_spec key q a xs :
  cache q (a :: xs) -> 0 <= key -> array q !! Z.to_nat key = Some (Some a) ->
  exists q', lru_evict key q = Some q' /\ cache q' xs /\
    array q' = <[Z.to_nat key := None]> (array q) /\ total q' = total q /\
    forall b, data q' b = if decide (a = b) then None else data q b.
Proof.
  intros [Hl Ha Hlen Hct Ht] H0 Hs. pose proof (slot_range _ _ _ Hs H0) as Hr.
  unfold lru_evict, queue_is_empty. rewrite (ln_end _ _ _ Hl) by done.
  rewrite last_or_cons. destruct (last_or (Some a) xs) as [e|] eqn:Ee.
  2: { unfold last_or in Ee. by destruct (last xs). }
  rewrite set_slot_spec by done. cbn [mbind option_bind front with_array].
  rewrite (ln_front _ _ _ Hl). cbn [head_or mbind option_bind].
  set (q0 := with_array (<[Z.to_nat key := None]> (array q)) q).
  assert (linked q0 (a :: xs) []) as Hl0 by (by eapply linked_ext; [..|exact Hl]).
  destruct (discard_spec q0 (a :: xs) 0 a Hl0 eq_refl)
    as (q1 & q2 & -> & E2 & Hl2 & Hd2 & Ha2 & Ht2 & Hc2).
  cbn [mbind option_bind]. rewrite E2. cbn [mbind option_bind].
  eexists. split; [done|]. split; [split|]; cbn; rewrite ?Ha2, ?Ht2, ?Hc2; cbn.
  - by eapply linked_ext; [..|exact Hl2].
  - apply (Permutation_cons_inv (a := a)). by rewrite pointers_clear.
  - by rewrite length_insert.
  - rewrite Hct. cbn [length]. rewrite u32_small; [lia|].
    pose proof (pointers_length (array q)). rewrite (Permutation_length Ha) in *.
    cbn [length] in *. lia.
  - done.
  - split_and!; done.
Qed.

(** ** The cache as a list of entries

    Abstractly the cache is a list of keys with an id and a name, the last used
    first. *)

Definition entry : Type := Z * (Z * option string).

(** The entry of [key], moved to the front; a blank one if there is none. *)
Definition touch (key : Z) (l : list entry) : list entry :=
  match list_find (fun e : entry => e.1 = key) l with
  | Some (i, e) => e :: delete i l
  | None => (key, (UINT32_MAX, None)) :: l
  end.

(** Node [a] is entry [e]. *)
Definition stands_for (q : Queue) (a : addr) (e : entry) : Prop :=
  0 <= e.1 /\ array q !! Z.to_nat e.1 = Some (Some a) /\ data q a = Some e.2.

Definition refines (q : Queue) (l : list entry) : Prop :=
  exists xs, cache q xs /\ Forall2 (stands_for q) xs l.

Lemma cache_inj q xs k k' a :
  cache q xs -> array q !! k = Some (Some a) -> array q !! k' = Some (Some a) -> k = k'.
Proof.
  intros Hc. apply pointers_inj. rewrite (ca_array _ _ Hc). apply Hc.
Qed.

(** A pointer in a slot and the entry of the slot's key are at the same place. *)
Lemma find_hit q xs l key a :
  cache q xs -> Forall2 (stands_for q) xs l -> 0 <= key ->
  array q !! Z.to_nat key = Some (Some a) ->
  exists i e, xs !! i = Some a /\ list_find (fun e : entry => e.1 = key) l = Some (i, e) /\
    l !! i = Some e.
Proof.
  intros Hc Hf H0 Hk. assert (a ∈ xs) as Hin.
  { rewrite <-(ca_array _ _ Hc). by eapply pointers_elem. }
  apply list_elem_of_lookup in Hin as [i Hi]. destruct (Forall2_lookup_l _ _ _ _ _ Hf Hi) as (e & He & Hse).
  exists i, e. split; [done|]. split; [|done]. apply list_find_Some. split; [done|].
  destruct Hse as (H0' & Hs & _). split.
  - pose proof (cache_inj _ _ _ _ _ Hc Hk Hs). lia.
  - intros j e' Hj Hlt E. destruct (Forall2_lookup_r _ _ _ _ _ Hf Hj) as (a' & Ha' & (_ & Hs' & _)).
    rewrite E, Hk in Hs'. injection Hs' as <-.
    pose proof (NoDup_lookup _ _ _ _ (ln_nodup _ _ _ (ca_linked _ _ Hc)) Hi Ha'). lia.
Qed.

Lemma find_miss q xs l key :
  Forall2 (stands_for q) xs l -> array q !! Z.to_nat key = Some None ->
  list_find (fun e : entry => e.1 = key) l = None.
Proof.
  intros Hf Hk. apply list_find_None, Forall_lookup. intros i e He E.
  destruct (Forall2_lookup_r _ _ _ _ _ Hf He) as (a & _ & (_ & Hs & _)). congruence.
Qed.

(** [check_lru_cache] is [touch]; the node it returns is the entry. *)
Lemma check_refines key q l :
  refines q l -> 0 <= key < total q ->
  exists a q' d, check_lru_cache malloc key q = Some (Some a, q') /\
    refines q' (touch key l) /\ head (touch key l) = Some (key, d) /\
    data q' a = Some d /\ front q' = Some a /\ total q' = total q.
Proof.
  intros (xs & Hc & Hf) Hk.
  destruct (lookup_lt_is_Some_2 (array q) (Z.to_nat key)) as [[a|] Hs].
  { pose proof (ca_length _ _ Hc). lia. }
  - destruct (find_hit _ _ _ _ _ Hc Hf (proj1 Hk) Hs) as (i & e & Hi & Hfind & He).
    destruct (check_hit key q xs i a Hc Hk Hs Hi) as (q' & E & Hc' & Ha & Ht & Hd).
    destruct (Forall2_lookup_lr _ _ _ _ _ _ Hf Hi He) as (H0 & Hse & Hde).
    assert (e.1 = key) as Ek by (apply list_find_Some in Hfind as (_ & ? & _); done).
    assert (forall b f, stands_for q b f -> stands_for q' b f) as Hst.
    { intros b f (? & ? & ?). split; [done|]. by rewrite Ha, Hd. }
    unfold touch. rewrite Hfind. exists a, q', (e.2). split_and!; try done.
    + exists (a :: delete i xs). split; [done|]. constructor; [by apply Hst|].
      apply Forall2_delete. eapply Forall2_impl; [done|]. exact Hst.
    + cbn. by destruct e as [k d]; cbn in *; subst.
    + by rewrite Hd.
    + apply (ln_front _ _ _ (ca_linked _ _ Hc')).
  - destruct (check_miss key q xs Hc Hk Hs) as (a & q' & E & Hax & Hc' & Ha & Ht & Hda & Hd).
    unfold touch. rewrite (find_miss _ _ _ _ Hf Hs).
    exists a, q', (UINT32_MAX, None). split_and!; try done.
    + exists (a :: xs). split; [done|]. constructor.
      * split; [cbn; lia|]. split; [|done]. rewrite Ha. apply list_lookup_insert_eq.
        by eapply lookup_lt_Some.
      * eapply Forall2_impl_in; [exact Hf|]. intros b e Hb (H0 & Hse & Hde). split; [done|].
        rewrite Ha, list_lookup_insert_ne by congruence.
        split; [done|]. rewrite Hd; [done|]. congruence.
    + apply (ln_front _ _ _ (ca_linked _ _ Hc')).
Qed.

Lemma evict_refines q e l :
  refines q (e :: l) ->
  exists q', lru_evict e.1 q = Some q' /\ refines q' l /\ total q' = total q.
Proof.
  intros (xs & Hc & Hf). apply Forall2_cons_inv_r in Hf as (a & xs' & (H0 & Hs & Hd) & Hf & ->).
  destruct (evict_spec e.1 q a xs' Hc H0 Hs) as (q' & E & Hc' & Ha & Ht & Hd').
  exists q'. split_and!; try done. exists xs'. split; [done|].
  pose proof (ln_nodup _ _ _ (ca_linked _ _ Hc)) as [Hnin _]%NoDup_cons.
  eapply Forall2_impl_in; [exact Hf|]. intros b f Hb (H0' & Hs' & Hd0). split; [done|].
  rewrite Ha, list_lookup_insert_ne by congruence. split; [done|].
  rewrite Hd', decide_False by congruence. done.
Qed.

(** Writing the data of the first node. *)
Lemma write_front_refines q k d l a i s :
  refines q ((k, d) :: l) -> front q = Some a ->
  exists q', update a (set_data i s) q = Some q' /\ refines q' ((k, (i, s)) :: l) /\
    total q' = total q.
Proof.
  intros (xs & Hc & Hf) Ha. pose proof Hc as [Hl Hp Hlen Hct Ht].
  apply Forall2_cons_inv_r in Hf as (b & xs' & (H0 & Hs & Hd) & Hf & ->).
  rewrite (ln_front _ _ _ Hl) in Ha. injection Ha as <-.
  destruct (linked_node _ _ 0 _ Hl eq_refl) as (nd & Hnd & _).
  rewrite (node_update_spec _ _ _ nd Hnd). eexists. split; [done|]. split; [|done].
  set (nd' := set_data i s nd). exists (b :: xs').
  pose proof (ln_nodup _ _ _ Hl) as [Hnin _]%NoDup_cons. split.
  - split; cbn; try done. destruct Hl as [Ls Ld Lx Llive Lf Le]. split; cbn; try done.
    + destruct Ls as (nd0 & E0 & ? & ? & Ls). rewrite Hnd in E0. injection E0 as <-.
      exists nd'. rewrite lookup_insert_eq. split_and!; [done..|]. by apply dseg_insert_frame.
    + intros c. rewrite <-Llive. unfold data. cbn.
      destruct (decide (b = c)) as [<-|Hne]; [|by rewrite lookup_insert_ne].
      rewrite lookup_insert_eq, Hnd. done.
  - constructor.
    + split; [done|]. split; [done|]. unfold data. cbn. by rewrite lookup_insert_eq.
    + eapply Forall2_impl_in; [exact Hf|]. intros c e Hc' (H0' & Hs' & Hd').
      split; [done|]. split; [done|]. unfold data in *. cbn.
      rewrite lookup_insert_ne; [done|]. congruence.
Qed.

Lemma init_refines n : 0 <= n < two32 -> refines (init_lru n) [].
Proof.
  intros Hn. exists []. split; [|done]. split; cbn; try done.
  - split; cbn; try done; [constructor|set_solver|]. intros a. unfold data. cbn.
    rewrite lookup_empty. split; [by intros []|]. intros [H|H]; by apply not_elem_of_nil in H.
  - unfold create_hash. by induction (Z.to_nat n).
  - unfold create_hash. rewrite length_replicate. lia.
  - lia.
Qed.

(** Looking up a sequence of keys. *)
Fixpoint check_all (keys : list Z) (q : Queue) : option Queue :=
  match keys with
  | [] => Some q
  | k :: keys => '(_, q) ← check_lru_cache malloc k q; check_all keys q
  end.

Lemma check_all_refines keys q l :
  refines q l -> Forall (fun k => 0 <= k < total q) keys ->
  exists q', check_all keys q = Some q' /\ refines q' (foldl (flip touch) l keys).
Proof.
  intros Hr Hk. revert q l Hr Hk. induction keys as [|k keys IH]; intros q l Hr Hk; [by exists q|].
  apply Forall_cons in Hk as [Hk Hks].
  destruct (check_refines k q l Hr Hk) as (a & q' & d & E & Hr' & _ & _ & _ & Ht).
  cbn. rewrite E. cbn. apply IH; [done|]. by rewrite Ht.
Qed.

(** C35: the cache of [n] slots is a move-to-front list: after any sequence of
    keys its nodes are the entries of the keys used, the last used first, one
    for each key, and no step of it touches a node that is not live. *)
Theorem lru_refines n keys :
  0 <= n < two32 -> Forall (fun k => 0 <= k < n) keys ->
  exists q, check_all keys (init_lru n) = Some q /\
    refines q (foldl (flip touch) [] keys).
Proof. intros Hn Hk. by apply check_all_refines; [apply init_refines|]. Qed.

(** ** The lookups *)

Context (getname : Z -> option string).

(** The answer without a cache. *)
Definition answer (uid : Z) : lookup :=
  if uid =? UINT32_MAX then Unset
  else if uid =? 0 then Root
  else match getname uid with Some s => Found s | None => Unknown end.

(** An entry that is in use holds the name of its id. *)
Definition coherent (l : list entry) : Prop :=
  Forall (fun e : entry => e.2.1 <> UINT32_MAX -> e.2.2 = getname e.2.1 /\ is_Some (e.2.2)) l.

Definition good (c : option Queue) : Prop :=
  match c with
  | None => True
  | Some q => exists l, refines q l /\ coherent l /\ total q = 19
  end.

Lemma coherent_touch key l : coherent l -> coherent (touch key l).
Proof.
  intros Hl. unfold touch. destruct (list_find _ l) as [[i e]|] eqn:E.
  - apply list_find_Some in E as (He & _). constructor.
    + by eapply (Forall_lookup_1 _ _ _ _ Hl).
    + by apply Forall_delete.
  - by constructor.
Qed.

(** One lookup gives the answer, and keeps the cache good. *)
Lemma aulookup_step uid c :
  good c -> 0 <= uid < two32 ->
  exists c', aulookup malloc getname uid c = Some (answer uid, c') /\ good c'.
Proof.
  intros Hg Hu. unfold aulookup, answer.
  destruct (Z.eqb_spec uid UINT32_MAX) as [|Hmax]; [by exists c|].
  destruct (Z.eqb_spec uid 0) as [|H0]; [by exists c|].
  assert (good (Some (default (init_lru 19) c))) as (l & Hr & Hco & Ht).
  { destruct c as [q|]; [done|]. exists []. split_and!; [|constructor|done].
    by apply init_refines. }
  set (q := default (init_lru 19) c) in *. unfold compute_subject_key. rewrite Ht.
  set (key := uid mod 19). assert (0 <= key < 19) as Hk by (by apply Z.mod_pos_bound).
  destruct (check_refines key q l Hr) as (a & q1 & d & -> & Hr1 & Hh & Hd & _ & Ht1); [lia|].
  pose proof (coherent_touch key l Hco) as Hco1.
  destruct (touch key l) as [|e l1]; [done|]. injection Hh as ->.
  apply Forall_cons in Hco1 as [Hd1 Hco1]. cbn [mbind option_bind].
  unfold data in Hd. destruct (heap q1 !! a) as [nd|]; [|done]. injection Hd as <-.
  cbn [mbind option_bind]. destruct (Z.eqb_spec (id nd) uid) as [Hid|Hid].
  - destruct Hd1 as [Hs [s Es]]; [by cbn; rewrite Hid|]. cbn in Hs, Es. rewrite <-Hid, <-Hs, Es.
    exists (Some q1). split; [done|]. exists ((key, (id nd, str nd)) :: l1).
    split_and!; [done| |lia]. constructor; [|done]. intros _. cbn. split; [done|by rewrite Es].
  - destruct (evict_refines q1 _ l1 Hr1) as (q2 & E2 & Hr2 & Ht2). cbn [fst] in E2.
    rewrite E2. cbn [mbind option_bind].
    destruct (check_refines key q2 l1 Hr2) as (a2 & q3 & d3 & -> & Hr3 & Hh3 & _ & Hf3 & Ht3); [lia|].
    pose proof (coherent_touch key l1 Hco1) as Hco3. cbn [mbind option_bind].
    destruct (getname uid) as [s|] eqn:En.
    + destruct (touch key l1) as [|e3 l3]; [done|]. injection Hh3 as ->.
      destruct (write_front_refines q3 key d3 l3 a2 uid (Some s) Hr3 Hf3) as (q4 & E4 & Hr4 & Ht4).
      rewrite E4. cbn [mbind option_bind]. eexists. split; [done|].
      eexists. split; [exact Hr4|]. split; [|lia]. apply Forall_cons in Hco3 as [_ Hco3].
      constructor; [|done]. intros _. cbn. rewrite En. done.
    + exists (Some q3). split; [done|]. exists (touch key l1). split_and!; [done..|lia].
Qed.

(** Looking up a sequence of ids. *)
Fixpoint aulookup_all (uids : list Z) (c : option Queue) : option (list lookup * option Queue) :=
  match uids with
  | [] => Some ([], c)
  | u :: uids =>
      '(r, c) ← aulookup malloc getname u c;
      '(rs, c) ← aulookup_all uids c;
      Some (r :: rs, c)
  end.

(** C36: any sequence of lookups through the cache gives the answers of the
    database, and destroying the cache afterwards releases every node. *)
Theorem aulookup_transparent uids :
  Forall (fun u => 0 <= u < two32) uids ->
  exists c, aulookup_all uids None = Some (answer <$> uids, c) /\
    match c with
    | None => True
    | Some q => exists q', destroy_lru q = Some q' /\ heap q' = ∅
    end.
Proof.
  intros Hu. assert (exists c, aulookup_all uids None = Some (answer <$> uids, c) /\ good c)
    as (c & E & Hg).
  { assert (good None) as Hg by done. revert Hg. generalize (None : option Queue) as c.
    induction Hu as [|u uids Hu _ IH]; intros c Hg; [by exists c|].
    destruct (aulookup_step u c Hg Hu) as (c1 & E1 & Hg1). destruct (IH c1 Hg1) as (c2 & E2 & Hg2).
    exists c2. split; [|done]. cbn. rewrite E1. cbn. by rewrite E2. }
  exists c. split; [done|]. destruct c as [q|]; [|done]. destruct Hg as (l & (xs & Hc & _) & _).
  unfold destroy_lru. rewrite (ca_count _ _ Hc), Nat2Z.id. apply dequeue_all_spec.
  by eapply linked_ext; [..|apply Hc].
Qed.

End malloc.

(** ** Concrete inputs *)

(** An allocator that takes the least address that is free. *)
Definition first_free (h : gmap addr QNode) : addr := fresh (dom h : gset addr).

Lemma free_node_fresh h : h !! first_free h = None.
Proof.
  apply (not_elem_of_dom (D := gset addr)). unfold first_free.
  exact (is_fresh (C := gset addr) (dom h)).
Qed.

Lemma lru_refines_witness :
  exists q, check_all first_free [1; 2; 1] (init_lru 3) = Some q /\
    refines q [(1, (UINT32_MAX, None)); (2, (UINT32_MAX, None))].
Proof.
  apply (lru_refines first_free free_node_fresh 3 [1; 2; 1]);
    [split; [lia|vm_compute; reflexivity]|repeat constructor; lia].
Defined.

Lemma aulookup_transparent_witness :
  exists c, aulookup_all first_free (fun u => if u =? 500 then Some "jo"%string else None)
    [500; 519; 0; 500] None = Some ([Found "jo"; Unknown; Root; Found "jo"], c) /\
    match c with
    | None => True
    | Some q => exists q', destroy_lru q = Some q' /\ heap q' = ∅
    end.
Proof.
  apply (aulookup_transparent first_free free_node_fresh
    (fun u => if u =? 500 then Some "jo"%string else None) [500; 519; 0; 500]).
  repeat constructor; try lia; vm_compute; reflexivity.
Defined.

End LruFacts.
