(* ===== verification/DataBuf.v ===== *)
(** * Data buffers (src/auparse/data_buf.c, data_buf.h)

    The growable byte buffer that auparse reads its input from: bytes are
    appended at the end and consumed at the front; a buffer with PRESERVE_HEAD
    keeps what was consumed and can be rewound.  Memory allocation is taken to
    succeed; an access outside the allocated block gives [None]. *)
From S2P Require Import Prelude CString.

Local Open Scope audit_scope.

Module DataBuf.

Abbreviation bytes := (list ascii).

(** The block [alloc_ptr] points to is [None] for NULL; [flags] is its two
    bits. *)
Record DataBuf := MkDataBuf {
  preserve_head : bool;
  is_string : bool;
  alloc_size : Z;
  alloc_ptr : option bytes;
  offset : Z;
  len : Z;
  max_len : Z;
}.

(** The bytes the client sees. *)
Definition contents (db : DataBuf) : bytes :=
  take (Z.to_nat (len db)) (drop (Z.to_nat (offset db)) (default [] (alloc_ptr db))).

(** An [unsigned]: the size is cut to 32 bits. *)
Definition databuf_tail_size (db : DataBuf) : Z :=
  u32 (u64 (alloc_size db - u64 (offset db + len db))).

Definition databuf_tail_available (db : DataBuf) (append_len : Z) : bool :=
  append_len <=? databuf_tail_size db.

(** Copy [src] into a block at [at_]; [None] if it does not fit. *)
Definition store (at_ : Z) (src : bytes) (block : bytes) : option bytes :=
  if decide (0 <= at_ /\ at_ + Z.of_nat (length src) <= Z.of_nat (length block))
  then Some (take (Z.to_nat at_) block ++ src ++ drop (Z.to_nat at_ + length src) block)
  else None.

(** [memmove] inside the block; the result is the return value. *)
Definition databuf_shift_data_to_beginning (db : DataBuf) : option (Z * DataBuf) :=
  if preserve_head db then Some (-1, db)
  else
    match alloc_ptr db with
    | None => Some (1, db)
    | Some block =>
        if offset db =? 0 then Some (1, db)
        else
          block' ← store 0 (contents db) block;
          Some (1, MkDataBuf (preserve_head db) (is_string db) (alloc_size db) (Some block')
                     0 (len db) (max_len db))
    end.

Section memory.
(** What fresh memory holds. *)
Context (junk : ascii).

Definition malloc (size : Z) : bytes := replicate (Z.to_nat size) junk.
Definition realloc (p : option bytes) (size : Z) : bytes :=
  let old := take (Z.to_nat size) (default [] p) in
  old ++ replicate (Z.to_nat size - length old) junk.

(** The part of [databuf_append] that makes room for the new bytes. *)
Definition make_room (src_size new_size : Z) (db : DataBuf) : option DataBuf :=
  if (alloc_size db <? new_size)
     || (preserve_head db && negb (databuf_tail_available db src_size))
  then
    '(_, db) ← databuf_shift_data_to_beginning db;
    Some (MkDataBuf (preserve_head db) (is_string db) new_size
            (Some (realloc (alloc_ptr db) new_size)) (offset db) (len db) (max_len db))
  else if negb (databuf_tail_available db src_size)
  then '(_, db) ← databuf_shift_data_to_beginning db; Some db
  else Some db.

(** [src] is [None] for NULL. *)
Definition databuf_append (src : option bytes) (db : DataBuf) : option (Z * DataBuf) :=
  match src with
  | None | Some [] => Some (0, db)
  | Some src =>
      let src_size := Z.of_nat (length src) in
      let new_size := u64 (len db + src_size) in
      db ← make_room src_size new_size db;
      block ← alloc_ptr db;
      block ← store (offset db + len db) src block;
      Some (1, MkDataBuf (preserve_head db) (is_string db) (alloc_size db) (Some block)
                 (offset db) new_size (Z.max (max_len db) new_size))
  end.

Definition set_len (n : Z) (db : DataBuf) : DataBuf :=
  MkDataBuf (preserve_head db) (is_string db) (alloc_size db) (alloc_ptr db) (offset db) n
    (max_len db).

(** The characters of a string and its NUL are appended over the NUL that ends
    the buffer. *)
Definition databuf_strcat (str : bytes) (db : DataBuf) : option (Z * DataBuf) :=
  db ← (if 0 <? len db then
          last_char ← default [] (alloc_ptr db) !! Z.to_nat (offset db + len db - 1);
          Some (if last_char =c NUL then set_len (len db - 1) db else db)
        else Some db);
  '(_, db) ← databuf_append (Some (str ++ [NUL])) db;
  Some (1, db).

Definition databuf_init (size : Z) (flag_preserve_head flag_string : bool)
    : option (Z * DataBuf) :=
  let db := MkDataBuf flag_preserve_head flag_string 0 None 0 0 0 in
  if size =? 0 then
    if flag_string then '(_, db) ← databuf_strcat [] db; Some (1, db) else Some (1, db)
  else Some (1, MkDataBuf flag_preserve_head flag_string size (Some (malloc size)) 0 0 0).

End memory.

Definition databuf_free (db : DataBuf) : DataBuf :=
  MkDataBuf (preserve_head db) (is_string db) 0 None 0 0 0.

(** -1, with errno ESPIPE, when there are not that many bytes. *)
Definition databuf_advance (advance : Z) (db : DataBuf) : Z * DataBuf :=
  let actual_advance := Z.min advance (len db) in
  (if advance =? actual_advance then 1 else -1,
   MkDataBuf (preserve_head db) (is_string db) (alloc_size db) (alloc_ptr db)
     (offset db + actual_advance) (len db - actual_advance) (max_len db)).

Definition databuf_reset (db : DataBuf) : Z * DataBuf :=
  if preserve_head db then
    (1, MkDataBuf (preserve_head db) (is_string db) (alloc_size db) (alloc_ptr db) 0
          (Z.min (alloc_size db) (max_len db)) (max_len db))
  else (-1, db).

(** ** Invariant: DATABUF_VALIDATE *)

Record valid (db : DataBuf) : Prop := Valid {
  v_size : alloc_size db = Z.of_nat (length (default [] (alloc_ptr db)));
  v_offset : 0 <= offset db;
  v_len : 0 <= len db;
  v_room : offset db + len db <= alloc_size db;
  v_width : alloc_size db < two64;
}.

Lemma contents_length db : valid db -> Z.of_nat (length (contents db)) = len db.
Proof.
  intros [Hs Ho Hl Hr _]. unfold contents. rewrite length_take, length_drop. lia.
Qed.

Lemma store_spec at_ src block :
  0 <= at_ -> at_ + Z.of_nat (length src) <= Z.of_nat (length block) ->
  exists block', store at_ src block = Some block' /\ length block' = length block /\
    take (Z.to_nat at_ + length src) block' = take (Z.to_nat at_) block ++ src.
Proof.
  intros H0 Hf. unfold store. rewrite decide_True by done. eexists. split; [done|]. split.
  - rewrite !length_app, length_take, length_drop. lia.
  - rewrite app_assoc, take_app_le by (rewrite length_app, length_take; lia).
    apply take_ge. rewrite length_app, length_take. lia.
Qed.

(** The bytes from the start of the block to the end of the data. *)
Definition through (db : DataBuf) : bytes :=
  take (Z.to_nat (offset db + len db)) (default [] (alloc_ptr db)).

Lemma contents_through db :
  0 <= offset db -> 0 <= len db -> contents db = drop (Z.to_nat (offset db)) (through db).
Proof.
  intros. unfold contents, through. rewrite skipn_firstn_comm. f_equal. lia.
Qed.

Lemma valid_null db : valid db -> alloc_ptr db = None -> offset db = 0 /\ len db = 0.
Proof. intros [Hs Ho Hl Hr _] E. rewrite E in Hs. cbn in Hs. lia. Qed.

(** Shifting keeps the data and makes the offset zero. *)
Lemma shift_spec db :
  valid db -> preserve_head db = false ->
  exists db', databuf_shift_data_to_beginning db = Some (1, db') /\ valid db' /\
    contents db' = contents db /\ offset db' = 0 /\ len db' = len db /\
    alloc_size db' = alloc_size db /\ max_len db' = max_len db /\ preserve_head db' = false.
Proof.
  intros Hv Hp. unfold databuf_shift_data_to_beginning. rewrite Hp.
  pose proof (contents_length db Hv) as Hcl. pose proof Hv as [Hs Ho Hl Hr Hw].
  destruct (alloc_ptr db) as [block|] eqn:Ea.
  2: { exists db. by destruct (valid_null db Hv Ea). }
  destruct (Z.eqb_spec (offset db) 0); [by exists db|]. cbn in Hs.
  destruct (store_spec 0 (contents db) block) as (block' & -> & Hlen & Ht); [lia|lia|].
  cbn [mbind option_bind]. eexists. split; [done|]. split; [split; cbn; lia|].
  split; [|done].
  unfold contents at 1. cbn -[contents]. rewrite drop_0.
  replace (Z.to_nat (len db)) with (length (contents db)) by lia. done.
Qed.

Lemma realloc_length junk p size : 0 <= size -> Z.of_nat (length (realloc junk p size)) = size.
Proof.
  intros. unfold realloc. rewrite length_app, length_replicate, length_take. lia.
Qed.

(** Bytes below the size survive a [realloc]. *)
Lemma realloc_take junk p size n :
  (n <= Z.to_nat size)%nat -> (n <= length (default [] p))%nat ->
  take n (realloc junk p size) = take n (default [] p).
Proof.
  intros Hn Hl. unfold realloc. rewrite take_app_le by (rewrite length_take; lia).
  rewrite take_take. f_equal. lia.
Qed.

(** The part of the block that holds data is there after making room. *)
Lemma make_room_spec junk n db :
  valid db -> 0 < n -> len db + n < two64 -> preserve_head db = false \/ offset db = 0 ->
  exists db' block, make_room junk n (u64 (len db + n)) db = Some db' /\
    alloc_ptr db' = Some block /\ Z.of_nat (length block) = alloc_size db' /\
    offset db' + len db + n <= alloc_size db' < two64 /\
    0 <= offset db' /\ (offset db = 0 -> offset db' = 0) /\ len db' = len db /\
    take (Z.to_nat (len db)) (drop (Z.to_nat (offset db')) block) = contents db /\
    max_len db' = max_len db /\ preserve_head db' = preserve_head db.
Proof.
  intros Hv Hn Hb Hpo. pose proof Hv as [Hs Ho Hl Hr Hw].
  rewrite u64_small by lia. unfold make_room.
  destruct ((alloc_size db <? len db + n) ||
    (preserve_head db && negb (databuf_tail_available db n))) eqn:Egrow.
  - assert (exists db1 r, databuf_shift_data_to_beginning db = Some (r, db1) /\ valid db1 /\
      contents db1 = contents db /\ offset db1 = 0 /\ len db1 = len db /\
      max_len db1 = max_len db /\ preserve_head db1 = preserve_head db)
      as (db1 & r & -> & [Hs1 Ho1 Hl1 Hr1 Hw1] & Hc1 & Hz & Hln & Hm & Hp).
    { destruct (preserve_head db) eqn:Ep.
      - destruct Hpo as [|Hz]; [done|]. exists db, (-1).
        unfold databuf_shift_data_to_beginning. by rewrite Ep.
      - destruct (shift_spec db Hv Ep) as (db1 & ? & ? & ? & ? & ? & _ & ? & ?). by exists db1, 1. }
    cbn [mbind option_bind]. eexists. eexists. split; [done|]. cbn.
    pose proof (realloc_length junk (alloc_ptr db1) (len db + n) ltac:(lia)).
    split; [done|]. split_and!; try done; try lia.
    rewrite Hz, drop_0, realloc_take by lia. rewrite <-Hc1. unfold contents.
    by rewrite Hz, drop_0, Hln.
  - apply orb_false_elim in Egrow as [Eg Et]. apply Z.ltb_ge in Eg.
    assert (exists block, alloc_ptr db = Some block) as [block Ea].
    { destruct (alloc_ptr db) as [block|] eqn:E; [by exists block|]. cbn in Hs. lia. }
    rewrite Ea in Hs. cbn in Hs.
    destruct (databuf_tail_available db n) eqn:Eavail; cbn [negb].
    + exists db, block. split; [done|]. split; [done|].
      apply Z.leb_le in Eavail. unfold databuf_tail_size in Eavail.
      assert (u32 (u64 (alloc_size db - u64 (offset db + len db))) <= alloc_size db - (offset db + len db)).
      { rewrite (u64_small (offset db + len db)), u64_small by lia. apply Z.mod_le; [lia|done]. }
      split_and!; try done; try lia. unfold contents. by rewrite Ea.
    + destruct (preserve_head db) eqn:Ep; [done|].
      destruct (shift_spec db Hv Ep) as (db1 & -> & Hv1 & Hc1 & Hz & Hln & Has & Hm & Hp).
      destruct Hv1 as [Hs1 Ho1 Hl1 Hr1 Hw1]. cbn [mbind option_bind].
      destruct (alloc_ptr db1) as [block1|] eqn:E1; cbn in Hs1; [|lia].
      exists db1, block1. split_and!; try done; try lia; try congruence.
      rewrite <-Hc1. unfold contents. by rewrite E1, Hln.
Qed.

(** Appending adds the bytes at the end of the data. *)
Lemma databuf_append_spec junk src db :
  valid db -> len db + Z.of_nat (length src) < two64 ->
  preserve_head db = false \/ offset db = 0 ->
  exists r db', databuf_append junk (Some src) db = Some (r, db') /\ valid db' /\
    0 <= r /\ contents db' = contents db ++ src /\ (offset db = 0 -> offset db' = 0) /\
    len db' = len db + Z.of_nat (length src) /\
    (src <> [] -> max_len db' = Z.max (max_len db) (len db')) /\
    (src = [] -> db' = db) /\
    preserve_head db' = preserve_head db.
Proof.
  intros Hv Hb Hpo. pose proof Hv as [Hs Ho Hl Hr Hw]. destruct src as [|c src'].
  { exists 0, db. cbn. rewrite app_nil_r. split_and!; try done; lia. }
  cbn [databuf_append]. set (src := c :: src') in *. set (n := Z.of_nat (length src)).
  destruct (make_room_spec junk n db) as (db1 & block & -> & Ea & Hbl & Hfit & Ho1 & Hz & Hln & Hc & Hm & Hp);
    [done|done|done|done|].
  cbn [mbind option_bind]. rewrite Ea. cbn [mbind option_bind]. rewrite Hln.
  destruct (store_spec (offset db1 + len db) src block) as (block' & -> & Hlen' & Ht); [lia|lia|].
  cbn [mbind option_bind]. eexists 1, _. split; [done|].
  rewrite u64_small by lia. split_and!; cbn; try done; try lia.
  - split; cbn; lia.
  - transitivity (drop (Z.to_nat (offset db1)) (take (Z.to_nat (offset db1 + len db) + length src) block')).
    { unfold contents. cbn -[src]. rewrite skipn_firstn_comm. f_equal. lia. }
    rewrite Ht, drop_app_le by (rewrite length_take; lia).
    f_equal. rewrite <-Hc, skipn_firstn_comm. f_equal. lia.
Qed.

(** Advancing drops bytes; short data are all dropped and reported. *)
Lemma advance_spec n db :
  valid db -> 0 <= n ->
  exists db', databuf_advance n db = (if n <=? len db then 1 else -1, db') /\ valid db' /\
    contents db' = drop (Z.to_nat n) (contents db) /\ len db' <= len db /\
    preserve_head db' = preserve_head db /\
    offset db' + len db' = offset db + len db /\ alloc_ptr db' = alloc_ptr db /\
    alloc_size db' = alloc_size db /\ max_len db' = max_len db.
Proof.
  intros [Hs Ho Hl Hr Hw] Hn. unfold databuf_advance. eexists. split.
  - destruct (Z.leb_spec n (len db)), (Z.eqb_spec n (Z.min n (len db))); try lia; reflexivity.
  - split; [split; cbn; lia|]. split_and!; cbn; try done; try lia.
    unfold contents. cbn. rewrite skipn_firstn_comm, drop_drop.
    destruct (Z.le_gt_cases n (len db)).
    + f_equal; [lia|]. f_equal. lia.
    + replace (Z.to_nat (len db - Z.min n (len db))) with 0%nat by lia.
      replace (Z.to_nat (len db) - Z.to_nat n)%nat with 0%nat by lia. done.
Qed.

(** ** A buffer as a queue of bytes *)

Inductive op := Append (bs : bytes) | Advance (n : nat).

(** The buffer and the queue of bytes, with the return value. *)
Definition do_op (junk : ascii) (o : op) (db : DataBuf) : option (Z * DataBuf) :=
  match o with
  | Append bs => databuf_append junk (Some bs) db
  | Advance n => Some (databuf_advance (Z.of_nat n) db)
  end.
Definition spec_op (o : op) (q : bytes) : Z * bytes :=
  match o with
  | Append bs => (match bs with [] => 0 | _ => 1 end, q ++ bs)
  | Advance n => (if decide (n <= length q)%nat then 1 else -1, drop n q)
  end.

Fixpoint run (junk : ascii) (os : list op) (db : DataBuf) : option (list Z * DataBuf) :=
  match os with
  | [] => Some ([], db)
  | o :: os => '(r, db) ← do_op junk o db; '(rs, db) ← run junk os db; Some (r :: rs, db)
  end.
Fixpoint spec_run (os : list op) (q : bytes) : list Z * bytes :=
  match os with
  | [] => ([], q)
  | o :: os => let (r, q) := spec_op o q in let (rs, q) := spec_run os q in (r :: rs, q)
  end.

Definition op_size (o : op) : nat := match o with Append bs => length bs | Advance _ => 0 end.
Definition total_size (os : list op) : nat := sum_list_with op_size os.

Lemma append_result junk bs db r db' :
  databuf_append junk (Some bs) db = Some (r, db') -> r = match bs with [] => 0 | _ => 1 end.
Proof.
  destruct bs as [|c bs]; [by intros [= <- _]|]. cbn [databuf_append].
  destruct (make_room _ _ _ _) as [d|]; [|done]. cbn [mbind option_bind].
  destruct (alloc_ptr d) as [b|]; [|done]. cbn [mbind option_bind].
  destruct (store _ _ b) as [b'|]; [|done]. by intros [= <- _].
Qed.

Lemma do_op_spec junk o db :
  valid db -> preserve_head db = false -> len db + Z.of_nat (op_size o) < two64 ->
  exists db', do_op junk o db = Some ((spec_op o (contents db)).1, db') /\ valid db' /\
    contents db' = (spec_op o (contents db)).2 /\ preserve_head db' = false /\
    len db' <= len db + Z.of_nat (op_size o).
Proof.
  intros Hv Hp Hb. destruct o as [bs|n]; cbn -[databuf_append] in *.
  - destruct (databuf_append_spec junk bs db Hv Hb (or_introl Hp))
      as (r & db' & E & Hv' & _ & Hc & _ & Hl & _ & _ & Hp').
    pose proof (append_result _ _ _ _ _ E) as ->. exists db'. rewrite E.
    split_and!; try done; [by rewrite Hp'|lia].
  - destruct (advance_spec (Z.of_nat n) db Hv) as (db' & E & Hv' & Hc & Hl & Hp' & _); [lia|].
    exists db'. rewrite E. pose proof (contents_length db Hv).
    split_and!; try done; [|by rewrite Hc, Nat2Z.id|by rewrite Hp'|lia].
    do 2 f_equal. destruct (decide (n <= length (contents db))%nat), (Z.leb_spec (Z.of_nat n) (len db)); lia || done.
Qed.

Lemma run_spec junk os db :
  valid db -> preserve_head db = false -> len db + Z.of_nat (total_size os) < two64 ->
  exists db', run junk os db = Some ((spec_run os (contents db)).1, db') /\
    contents db' = (spec_run os (contents db)).2.
Proof.
  revert db. induction os as [|o os IH]; intros db Hv Hp Hb; [by exists db|].
  unfold total_size in *. cbn in Hb.
  destruct (do_op_spec junk o db Hv Hp) as (db1 & E & Hv1 & Hc1 & Hp1 & Hl1); [lia|].
  destruct (IH db1 Hv1 Hp1) as (db2 & E2 & Hc2); [lia|]. exists db2. cbn.
  rewrite E. cbn. rewrite E2. cbn. rewrite Hc1 in Hc2 |- *.
  destruct (spec_op o (contents db)) as [r q]. cbn in *.
  by destruct (spec_run os q).
Qed.

(** A buffer without flags is a queue of bytes: any sequence of appends and
    advances returns and leaves what the queue does, wherever the data lie in
    the block, and stays inside it. *)
Theorem databuf_queue junk os :
  Z.of_nat (total_size os) < two64 ->
  exists db0 db, databuf_init junk 0 false false = Some (1, db0) /\
    run junk os db0 = Some ((spec_run os []).1, db) /\ contents db = (spec_run os []).2.
Proof.
  intros Hb. eexists. destruct (run_spec junk os (MkDataBuf false false 0 None 0 0 0)) as (db & E & Hc);
    [split; done|done|done|]. by exists db.
Qed.

Lemma databuf_queue_witness :
  let os := [Append ["a"; "b"; "c"]%char; Advance 2; Append ["d"; "e"]%char; Advance 9] in
  exists db0 db, databuf_init NUL 0 false false = Some (1, db0) /\
    run NUL os db0 = Some ([1; 1; 1; -1], db) /\ contents db = [].
Proof. intros os. apply (databuf_queue NUL os). vm_compute. reflexivity. Defined.

(** ** Rewinding *)

(** Append [chunks] one after the other. *)
Fixpoint append_all (junk : ascii) (chunks : list bytes) (db : DataBuf) : option DataBuf :=
  match chunks with
  | [] => Some db
  | c :: cs => '(_, db) ← databuf_append junk (Some c) db; append_all junk cs db
  end.

Definition advance_all (ns : list nat) (db : DataBuf) : DataBuf :=
  foldl (fun db n => (databuf_advance (Z.of_nat n) db).2) db ns.

Lemma append_all_spec junk cs db :
  valid db -> offset db = 0 -> preserve_head db = true -> max_len db = len db ->
  len db + Z.of_nat (length (concat cs)) < two64 ->
  exists db', append_all junk cs db = Some db' /\ valid db' /\ offset db' = 0 /\
    preserve_head db' = true /\ max_len db' = len db' /\ contents db' = contents db ++ concat cs.
Proof.
  revert db. induction cs as [|c cs IH]; intros db Hv Ho Hp Hm Hb.
  { exists db. by rewrite app_nil_r. }
  cbn in Hb. rewrite length_app in Hb.
  destruct (databuf_append_spec junk c db Hv) as (r & db1 & E & Hv1 & _ & Hc1 & Ho1 & Hl1 & Hm1 & He1 & Hp1);
    [lia|by right|].
  destruct (IH db1) as (db2 & E2 & Hv2 & Ho2 & Hp2 & Hm2 & Hc2); [done|auto|congruence| |lia|].
  { destruct c; [by rewrite He1|]. rewrite Hm1 by done. lia. }
  exists db2. cbn -[databuf_append]. rewrite E. cbn. split_and!; try done.
  by rewrite Hc2, Hc1, app_assoc.
Qed.

Lemma advance_all_spec ns db :
  valid db ->
  valid (advance_all ns db) /\ preserve_head (advance_all ns db) = preserve_head db /\
  alloc_ptr (advance_all ns db) = alloc_ptr db /\
  alloc_size (advance_all ns db) = alloc_size db /\ max_len (advance_all ns db) = max_len db.
Proof.
  revert db. induction ns as [|n ns IH]; intros db Hv; [done|].
  destruct (advance_spec (Z.of_nat n) db Hv) as (db' & E & Hv' & _ & _ & Hp & _ & Ha & Hs & Hm); [lia|].
  change (advance_all (n :: ns) db) with (advance_all ns (databuf_advance (Z.of_nat n) db).2).
  rewrite E. cbn [snd].
  destruct (IH db' Hv') as (? & ? & ? & ? & ?). split_and!; congruence.
Qed.

(** A buffer with PRESERVE_HEAD can be rewound: after chunks were appended
    and any amounts consumed, [databuf_reset] brings back all the bytes. *)
Theorem databuf_rewind junk size str cs ns :
  0 < size < two64 -> Z.of_nat (length (concat cs)) < two64 ->
  exists db0 db1 db2, databuf_init junk size true str = Some (1, db0) /\
    append_all junk cs db0 = Some db1 /\
    databuf_reset (advance_all ns db1) = (1, db2) /\ contents db2 = concat cs.
Proof.
  intros Hs Hb. unfold databuf_init. destruct (Z.eqb_spec size 0); [lia|].
  set (db0 := MkDataBuf _ _ _ _ _ _ _).
  assert (valid db0) as Hv0.
  { split; cbn; try lia. unfold malloc. rewrite length_replicate. lia. }
  destruct (append_all_spec junk cs db0) as (db1 & E1 & Hv1 & Ho1 & Hp1 & Hm1 & Hc1);
    [done..|cbn; lia|].
  destruct (advance_all_spec ns db1 Hv1) as (Hv2 & Hp2 & Ha2 & Hs2 & Hm2).
  exists db0, db1. eexists. split; [done|]. split; [done|]. split.
  - unfold databuf_reset. rewrite Hp2, Hp1. reflexivity.
  - unfold contents. cbn. rewrite Ha2, Hs2, Hm2, Hm1, drop_0. pose proof Hv1 as [? ? ? ? ?].
    rewrite Z.min_r by lia. unfold contents in Hc1. rewrite Ho1, drop_0 in Hc1. by rewrite Hc1.
Qed.

Lemma databuf_rewind_witness :
  exists db0 db1 db2, databuf_init NUL 4 true false = Some (1, db0) /\
    append_all NUL [["a"; "b"]; ["c"; "d"; "e"]]%char db0 = Some db1 /\
    databuf_reset (advance_all [3%nat; 9%nat] db1) = (1, db2) /\
    contents db2 = ["a"; "b"; "c"; "d"; "e"]%char.
Proof.
  apply (databuf_rewind NUL 4 false [["a"; "b"]; ["c"; "d"; "e"]]%char [3%nat; 9%nat]).
  - split; [lia|vm_compute; reflexivity].
  - vm_compute. reflexivity.
Defined.

(** With PRESERVE_HEAD, an append after an advance sizes the block for the
    data alone and writes behind its end. *)
Theorem preserve_head_overflows :
  exists db0 db1, databuf_init NUL 4 true false = Some (1, db0) /\
    databuf_append NUL (Some ["a"; "b"; "c"; "d"]%char) db0 = Some (1, db1) /\
    databuf_append NUL (Some ["e"; "f"]%char) (databuf_advance 2 db1).2 = None.
Proof.
  exists (MkDataBuf true false 4 (Some [NUL; NUL; NUL; NUL]) 0 0 0).
  exists (MkDataBuf true false 4 (Some ["a"; "b"; "c"; "d"]%char) 0 4 4).
  split_and!; vm_compute; reflexivity.
Qed.

End DataBuf.
