(* ===== verification/HitList.v ===== *)
(** * Linked lists of counted items (src/src/ausearch-int.c, ausearch-string.c)

    The tables behind the reports: singly linked lists on a heap, whose items
    carry a number of hits.  [ilist] keeps numbers in order, [slist] keeps
    strings as they come; both are sorted by hits before they are printed.
    Memory allocation is taken to succeed; [None] stands for an access to a
    node that is not live. *)
From S2P Require Import Prelude CString.

Local Open Scope audit_scope.

Module HitList.

Abbreviation addr := nat.

(** ** Heap lists *)

Record node (D : Type) := Node { dat : D; next : option addr }.
Arguments Node {D} _ _.
Arguments dat {D} _.
Arguments next {D} _.

(** A list head with its cursor and counter, and the heap of the nodes. *)
Record hlist (D : Type) := HL {
  heap : gmap addr (node D);
  head : option addr;
  cur : option addr;
  cnt : Z;
}.
Arguments HL {D} _ _ _ _.
Arguments heap {D} _.
Arguments head {D} _.
Arguments cur {D} _.
Arguments cnt {D} _.

Section ops.
Context {D : Type}.
Implicit Types l : hlist D.

Definition create : hlist D := HL ∅ None None 0.

Definition set_head (p : option addr) l : hlist D := HL (heap l) p (cur l) (cnt l).
Definition set_cur (p : option addr) l : hlist D := HL (heap l) (head l) p (cnt l).
Definition set_heap (h : gmap addr (node D)) l : hlist D := HL h (head l) (cur l) (cnt l).

(** [a->next = p] and [a->data = f (a->data)]. *)
Definition set_next (a : addr) (p : option addr) l : option (hlist D) :=
  match heap l !! a with
  | Some n => Some (set_heap (<[a := Node (dat n) p]> (heap l)) l)
  | None => None
  end.
Definition update (a : addr) (f : D -> D) l : option (hlist D) :=
  match heap l !! a with
  | Some n => Some (set_heap (<[a := Node (f (dat n)) (next n)]> (heap l)) l)
  | None => None
  end.

(** The first record, and the next one, become current. *)
Definition first l : hlist D := set_cur (head l) l.
Definition next_ l : option (hlist D) :=
  match cur l with
  | None => Some l
  | Some a => match heap l !! a with Some n => Some (set_cur (next n) l) | None => None end
  end.

(** Walk from [a] to the last node. *)
Fixpoint walk (fuel : nat) (a : addr) l : option addr :=
  match fuel with
  | O => None
  | S fuel =>
      match heap l !! a with
      | None => None
      | Some n => match next n with None => Some a | Some b => walk fuel b l end
      end
  end.

(** Enough fuel to walk along the list. *)
Definition nodes_of l : nat := S (size (heap l)).

(** Release every node from [p] on. *)
Fixpoint free_from (fuel : nat) (p : option addr) (h : gmap addr (node D))
    : option (gmap addr (node D)) :=
  match p with
  | None => Some h
  | Some a =>
      match fuel with
      | O => None
      | S fuel =>
          match h !! a with
          | None => None
          | Some n => free_from fuel (next n) (delete a h)
          end
      end
  end.

Definition clear l : option (hlist D) :=
  h ← free_from (nodes_of l) (head l) (heap l);
  Some (HL h None None 0).

(** ** Sorting *)

Context (hits : D -> Z).

Definition swap_nodes (lprev : option addr) (left right : addr) l : option (hlist D) :=
  r ← heap l !! right;
  let t := next r in
  l ← match lprev with Some p => set_next p (Some right) l | None => Some l end;
  l ← set_next right (Some left) l;
  set_next left t l.

(** The loop of [sort_by_hits]; after a swap it starts over. *)
Fixpoint sort_loop (fuel : nat) (prev cur : option addr) l : option (hlist D) :=
  match fuel with
  | O => None
  | S fuel =>
      match cur with
      | None => Some (first l)
      | Some c =>
          n ← heap l !! c;
          match next n with
          | None => Some (first l)
          | Some x =>
              xn ← heap l !! x;
              if hits (dat n) <? hits (dat xn) then
                let '(prev, l) :=
                  if decide (head l = Some c) then (None, set_head (Some x) l) else (prev, l) in
                l ← swap_nodes prev c x l;
                sort_loop fuel (head l) (head l) l
              else sort_loop fuel (Some c) (Some x) l
          end
      end
  end.

(** Enough fuel to sort a list of [n] nodes (see [sort_by_hits_spec]). *)
Definition sort_fuel (n : nat) : nat := (n * n + 1) * (n + 1).

Definition sort_by_hits l : option (hlist D) :=
  if cnt l <=? 1 then Some l
  else sort_loop (sort_fuel (size (heap l))) (head l) (head l) l.

(** ** Adding *)

Context (malloc : gmap addr (node D) -> addr).

(** A node that is not linked yet. *)
Definition new_node (d : D) l : addr * hlist D :=
  let a := malloc (heap l) in (a, set_heap (<[a := Node d None]> (heap l)) l).

(** Link it after the cursor, or as the head of an empty list. *)
Definition link_new (a : addr) l : option (hlist D) :=
  l ← match head l with
      | None => Some (set_head (Some a) l)
      | Some _ => c ← cur l; set_next c (Some a) l
      end;
  Some (HL (heap l) (head l) (Some a) (cnt l +u 1)).

(** [ilist_append] *)
Definition append (d : D) l : option (hlist D) :=
  let (a, l) := new_node d l in link_new a l.

(** [slist_last]: from the cursor, if any. *)
Definition last_ l : option (hlist D) :=
  match head l with
  | None => Some l
  | Some h =>
      c ← walk (nodes_of l) (match cur l with Some c => c | None => h end) l;
      Some (set_cur (Some c) l)
  end.

(** [slist_append] *)
Definition append_last (d : D) l : option (hlist D) :=
  let (a, l) := new_node d l in l ← last_ l; link_new a l.

End ops.

(** ** Numbers *)

Record int_node := IntNode { num : Z; ihits : Z; aux1 : Z }.

Definition ilist : Type := hlist int_node.

Definition ilist_create : ilist := create.
Definition ilist_next (l : ilist) : option ilist := next_ l.
Definition ilist_clear (l : ilist) : option ilist := clear l.
Definition ilist_sort_by_hits (l : ilist) : option ilist := sort_by_hits ihits l.

Definition bump_int (d : int_node) : int_node := IntNode (num d) (ihits d +u 1) (aux1 d).

Section ilist.
Context (malloc : gmap addr (node int_node) -> addr).

Definition ilist_append (n hits aux : Z) (l : ilist) : option ilist :=
  append malloc (IntNode n hits aux) l.

(** The loop of [ilist_add_if_uniq]: insert so the list is from low to high. *)
Fixpoint ilist_add_loop (fuel : nat) (n aux : Z) (prev cur : option addr) (l : ilist)
    : option (Z * ilist) :=
  match fuel with
  | O => None
  | S fuel =>
      match cur with
      | None =>
          let l := match prev with Some p => set_cur (Some p) l | None => l end in
          l ← ilist_append n 1 aux l;
          Some (1, l)
      | Some c =>
          nd ← heap l !! c;
          if num (dat nd) =? n then l ← update c bump_int l; Some (0, l)
          else if num (dat nd) <? n then ilist_add_loop fuel n aux (Some c) (next nd) l
          else
            let head := bool_decide (head l = Some c) in
            let l := if head then set_head None l else set_cur prev l in
            l ← ilist_append n 1 aux l;
            a ← HitList.cur l;
            l ← set_next a (if head then prev else Some c) l;
            Some (1, l)
      end
  end.

Definition ilist_add_if_uniq (n aux : Z) (l : ilist) : option (Z * ilist) :=
  ilist_add_loop (S (nodes_of l)) n aux (head l) (head l) l.

End ilist.

(** ** Strings *)

Record snode := SNode { str : option string; key : option string; shits : Z }.

Definition slist : Type := hlist snode.

Definition slist_create : slist := create.
Definition slist_last (l : slist) : option slist := last_ l.
Definition slist_next (l : slist) : option slist := next_ l.
Definition slist_clear (l : slist) : option slist := clear l.
Definition slist_sort_by_hits (l : slist) : option slist := sort_by_hits shits l.

Definition bump_str (d : snode) : snode := SNode (str d) (key d) (shits d +u 1).

Section slist.
Context (malloc : gmap addr (node snode) -> addr).

Definition slist_append (d : snode) (l : slist) : option slist := append_last malloc d l.

(** The loop of [slist_add_if_uniq]; a null string in the list crashes
    [strcmp]. *)
Fixpoint slist_add_loop (fuel : nat) (s : string) (cur : option addr) (l : slist)
    : option (Z * slist) :=
  match fuel with
  | O => None
  | S fuel =>
      match cur with
      | None => l ← slist_append (SNode (Some s) None 1) l; Some (1, l)
      | Some c =>
          nd ← heap l !! c;
          t ← str (dat nd);
          if str_eq s t then l ← update c bump_str l; Some (0, set_cur (Some c) l)
          else slist_add_loop fuel s (next nd) l
      end
  end.

Definition slist_add_if_uniq (s : option string) (l : slist) : option (Z * slist) :=
  match s with
  | None => Some (-1, l)
  | Some s => slist_add_loop (S (nodes_of l)) s (head l) l
  end.

End slist.

End HitList.
