(* ===== verification/HitListFacts.v ===== *)
(** * Correctness of the lists of counted items *)
From S2P Require Import Prelude CString HitList.

Local Open Scope audit_scope.

Module HitListFacts.
Import HitList.

Section facts.
Context {D : Type}.
Implicit Types (l : hlist D) (xs ys : list (addr * D)) (h : gmap addr (node D)).

(** ** Linked segments *)

(** The nodes [xs] are linked from [p] up to [q]. *)
Fixpoint lseg h (p : option addr) xs (q : option addr) : Prop :=
  match xs with
  | [] => p = q
  | (a, d) :: xs => p = Some a /\ exists n, h !! a = Some (Node d n) /\ lseg h n xs q
  end.

Definition head_of (d : option addr) xs : option addr :=
  match xs with [] => d | x :: _ => Some x.1 end.

Lemma lseg_head h p xs q : lseg h p xs q -> p = head_of q xs.
Proof. destruct xs as [|[a d] xs]; [done|]. by intros [-> _]. Qed.

Lemma lseg_app h p xs ys q :
  lseg h p (xs ++ ys) q <-> lseg h p xs (head_of q ys) /\ lseg h (head_of q ys) ys q.
Proof.
  revert p. induction xs as [|[a d] xs IH]; intros p; cbn.
  - split; [|by intros [-> ?]]. intros Hs. by pose proof (lseg_head _ _ _ _ Hs) as ->.
  - split.
    + intros (-> & n & Ha & Hs). apply IH in Hs as [H1 H2]. split; [|done].
      split; [done|]. by exists n.
    + intros [(-> & n & Ha & Hs) H2]. split; [done|]. exists n. split; [done|]. by apply IH.
Qed.

Lemma lseg_ext h h' p xs q :
  (forall a, a ∈ xs.*1 -> h' !! a = h !! a) -> lseg h p xs q -> lseg h' p xs q.
Proof.
  revert p. induction xs as [|[b d] xs IH]; intros p He; [done|]. cbn in *.
  intros (-> & n & Hb & Hs). split; [done|]. exists n. rewrite He by left. split; [done|].
  apply IH; [|done]. intros a Ha. apply He. by right.
Qed.

Lemma lseg_frame h p xs q a nd : a ∉ xs.*1 -> lseg h p xs q -> lseg (<[a := nd]> h) p xs q.
Proof. intros Ha. apply lseg_ext. intros b Hb. apply lookup_insert_ne. congruence. Qed.

Lemma lseg_delete h p xs q a : a ∉ xs.*1 -> lseg h p xs q -> lseg (delete a h) p xs q.
Proof. intros Ha. apply lseg_ext. intros b Hb. apply lookup_delete_ne. congruence. Qed.

(** Redirect the last node of a segment. *)
Lemma lseg_redirect h p xs a d q q' :
  a ∉ xs.*1 -> lseg h p (xs ++ [(a, d)]) q ->
  lseg (<[a := Node d q']> h) p (xs ++ [(a, d)]) q'.
Proof.
  intros Ha. rewrite !lseg_app. cbn. intros [H1 _]. split; [by apply lseg_frame|].
  split; [done|]. exists q'. by rewrite lookup_insert_eq.
Qed.

Lemma lseg_at h p xs a d ys q :
  lseg h p (xs ++ (a, d) :: ys) q -> h !! a = Some (Node d (head_of q ys)).
Proof.
  rewrite lseg_app. intros [_ (_ & n & Ha & Hs)]. by rewrite <-(lseg_head _ _ _ _ Hs).
Qed.

(** ** The representation *)

Record rep l xs : Prop := Rep {
  r_list : lseg (heap l) (head l) xs None;
  r_nodup : NoDup xs.*1;
  r_live : forall a, is_Some (heap l !! a) <-> a ∈ xs.*1;
  r_cnt : cnt l = Z.of_nat (length xs);
}.

Lemma rep_size l xs : rep l xs -> size (heap l) = length xs.
Proof.
  intros [_ Hd Hl _]. rewrite <-(length_fmap fst xs), <-(size_dom (D := gset addr)).
  rewrite <-(size_list_to_set (C := gset addr)) by done. f_equal.
  apply leibniz_equiv. intros a. by rewrite elem_of_dom, elem_of_list_to_set, Hl.
Qed.

Lemma rep_create : rep create [].
Proof.
  split; cbn; try done; [constructor|]. intros a. rewrite lookup_empty.
  split; [by intros []|]. intros H. by apply not_elem_of_nil in H.
Qed.

Lemma set_next_spec l a p d q :
  heap l !! a = Some (Node d q) -> set_next a p l = Some (set_heap (<[a := Node d p]> (heap l)) l).
Proof. intros E. unfold set_next. by rewrite E. Qed.

(** The same nodes in another order. *)
Lemma rep_perm l xs l' ys :
  rep l xs -> lseg (heap l') (head l') ys None -> xs.*1 ≡ₚ ys.*1 ->
  (forall a, is_Some (heap l' !! a) <-> is_Some (heap l !! a)) -> cnt l' = cnt l ->
  rep l' ys.
Proof.
  intros [_ Hd Hl Hc] Hs Hp Hlive Hc'. split; [done|by rewrite <-Hp| |].
  - intros a. by rewrite Hlive, Hl, Hp.
  - rewrite Hc', Hc, <-(length_fmap fst xs), <-(length_fmap fst ys). by rewrite Hp.
Qed.

Lemma live_insert h a nd nd' :
  h !! a = Some nd -> forall b, is_Some (<[a := nd']> h !! b) <-> is_Some (h !! b).
Proof.
  intros Ha b. destruct (decide (a = b)) as [<-|Hne]; [|by rewrite lookup_insert_ne].
  rewrite lookup_insert_eq, Ha. by split.
Qed.

(** ** Exchanging two neighbours *)

(** The last two assignments of [swap_nodes]: [hd] leads to the left node and is
    redirected to the right one. *)
Lemma swap_links h a da b db ys pre hd :
  lseg h hd pre (Some b) -> NoDup (pre ++ (a, da) :: (b, db) :: ys).*1 ->
  lseg h (head_of None ys) ys None ->
  lseg (<[a := Node da (head_of None ys)]> (<[b := Node db (Some a)]> h))
    hd (pre ++ (b, db) :: (a, da) :: ys) None.
Proof.
  intros Hpre Hd Hys. rewrite fmap_app in Hd. cbn in Hd.
  apply NoDup_app in Hd as (_ & D12 & D2). apply NoDup_cons in D2 as [Da D2].
  apply NoDup_cons in D2 as [Db _].
  assert (forall c, c ∈ a :: b :: ys.*1 -> c ∉ pre.*1) as Hdis.
  { intros c Hc Hin. by apply (D12 c Hin). }
  apply not_elem_of_cons in Da as [Hab Da].
  apply lseg_app. split.
  - apply lseg_frame; [apply Hdis; left|]. apply lseg_frame; [apply Hdis; right; left|done].
  - cbn. split; [done|]. exists (Some a). rewrite lookup_insert_ne, lookup_insert_eq by done.
    split; [done|]. split; [done|]. exists (head_of None ys). rewrite lookup_insert_eq.
    split; [done|]. by apply lseg_frame, lseg_frame.
Qed.

Lemma swap_perm (a b : addr) (da db : D) pre ys :
  (pre ++ (a, da) :: (b, db) :: ys).*1 ≡ₚ (pre ++ (b, db) :: (a, da) :: ys).*1.
Proof. rewrite !fmap_app. apply Permutation_app_head. constructor. Qed.

(** At the head of the list. *)
Lemma swap_head l a da b db ys :
  rep l ((a, da) :: (b, db) :: ys) ->
  exists l', swap_nodes None a b (set_head (Some b) l) = Some l' /\ head l' = Some b /\
    rep l' ((b, db) :: (a, da) :: ys).
Proof.
  intros Hr. pose proof Hr as [Hs Hd _ _].
  pose proof (lseg_at _ _ [] _ _ _ _ Hs) as Ha. pose proof (lseg_at _ _ [_] _ _ _ _ Hs) as Hb.
  cbn in Ha. assert (a <> b) as Hab.
  { cbn in Hd. apply NoDup_cons in Hd as [Hn _]. by apply not_elem_of_cons in Hn as [? _]. }
  unfold swap_nodes. cbn [heap set_head]. rewrite Hb. cbn [mbind option_bind next].
  rewrite (set_next_spec (set_head (Some b) l) b _ db _ Hb). cbn [mbind option_bind].
  rewrite (set_next_spec _ a _ da (Some b)) by (cbn; by rewrite lookup_insert_ne).
  eexists. split; [done|]. split; [done|]. eapply rep_perm; [exact Hr| |constructor| |done].
  - cbn. apply (swap_links _ _ _ _ _ _ []); [done|done|].
    cbn in Hs. destruct Hs as (_ & n & _ & _ & m & E & Hys). rewrite Hb in E. by injection E as <-.
  - intros c. cbn. rewrite (live_insert _ a (Node da (Some b))) by (by rewrite lookup_insert_ne).
    by apply (live_insert _ b _ _ Hb).
Qed.

(** After node [p]. *)
Lemma swap_after l pre p dp a da b db ys :
  rep l ((pre ++ [(p, dp)]) ++ (a, da) :: (b, db) :: ys) ->
  head l <> Some a /\
  exists l', swap_nodes (Some p) a b l = Some l' /\ head l' = head l /\
    rep l' ((pre ++ [(p, dp)]) ++ (b, db) :: (a, da) :: ys).
Proof.
  intros Hr. pose proof Hr as [Hs Hd _ _].
  pose proof (lseg_at _ _ _ _ _ _ _ Hs) as Ha. cbn in Ha.
  pose proof Hs as Hs2. apply lseg_app in Hs2 as [Hpre Hpost]. cbn in Hpost.
  destruct Hpost as (_ & n & E & Hb'). rewrite Ha in E. injection E as <-.
  destruct Hb' as (_ & m & Hb & Hys). pose proof (lseg_head _ _ _ _ Hys) as ->.
  pose proof (lseg_at _ _ pre p dp [] _ Hpre) as Hp. cbn in Hp.
  pose proof Hd as Hd'. rewrite fmap_app in Hd'. cbn in Hd'.
  apply NoDup_app in Hd' as (D1 & D12 & D2). apply NoDup_cons in D2 as [Da D2].
  apply NoDup_cons in D2 as [Db _]. apply not_elem_of_cons in Da as [Hab Da].
  rewrite fmap_app in D1, D12. cbn in D1, D12.
  assert (p ∉ a :: b :: ys.*1) as Hpn by (apply D12, elem_of_app; right; left).
  apply not_elem_of_cons in Hpn as [Hpa Hpn]. apply not_elem_of_cons in Hpn as [Hpb Hpys].
  apply NoDup_app in D1 as (_ & D1 & _).
  assert (p ∉ pre.*1) as Hpp by (intros Hin; apply (D1 p Hin); left).
  split.
  { rewrite (lseg_head _ _ _ _ Hs). destruct pre as [|[c dc] pre]; cbn; [congruence|].
    intros [= ->]. apply (D12 a); [by left|by left]. }
  unfold swap_nodes. rewrite Hb. cbn [mbind option_bind next].
  rewrite (set_next_spec _ p _ dp _ Hp). cbn [mbind option_bind].
  rewrite (set_next_spec _ b _ db (head_of None ys)) by (cbn; by rewrite lookup_insert_ne).
  cbn [mbind option_bind].
  rewrite (set_next_spec _ a _ da (Some b)) by (cbn; by rewrite !lookup_insert_ne).
  eexists. split; [done|]. split; [done|].
  eapply rep_perm; [exact Hr| |apply swap_perm| |done].
  - cbn. apply swap_links; [by eapply lseg_redirect|done|by apply lseg_frame].
  - intros c. cbn. rewrite (live_insert _ a (Node da (Some b))) by (by rewrite !lookup_insert_ne).
    rewrite (live_insert _ b (Node db (head_of None ys))) by (by rewrite lookup_insert_ne).
    by apply (live_insert _ p _ _ Hp).
Qed.

(** ** Sorting by hits *)

Section sorting.
Context (hits : D -> Z).

Definition more_hits (x y : D) : Prop := hits y <= hits x.

#[local] Instance more_hits_trans : Transitive more_hits.
Proof. intros x y z. unfold more_hits. lia. Qed.

(** The pairs in the wrong order. *)
Fixpoint inversions (ds : list D) : nat :=
  match ds with
  | [] => 0
  | d :: ds => length (filter (fun e => hits d < hits e) ds) + inversions ds
  end.

Lemma inversions_swap pre d e post :
  hits d < hits e ->
  inversions (pre ++ d :: e :: post) = S (inversions (pre ++ e :: d :: post)).
Proof.
  intros Hlt. induction pre as [|x pre IH]; cbn [app inversions].
  - rewrite filter_cons_True by done. rewrite (filter_cons_False (fun y => hits e < hits y)) by lia. cbn. lia.
  - rewrite IH. assert (length (filter (fun y => hits x < hits y) (pre ++ d :: e :: post))
      = length (filter (fun y => hits x < hits y) (pre ++ e :: d :: post))) as ->; [|lia].
    apply Permutation_length, filter_Permutation, Permutation_app_head. constructor.
Qed.

Lemma inversions_bound ds : (inversions ds <= length ds * length ds)%nat.
Proof.
  induction ds as [|d ds IH]; cbn; [lia|].
  pose proof (length_filter (fun e => hits d < hits e) ds). nia.
Qed.

(** The swap that the loop makes, at the head or after [prev]. *)
Lemma swap_step l pre c dc x dx post prev :
  rep l (pre ++ (c, dc) :: (x, dx) :: post) ->
  (pre <> [] -> exists pre' p, pre = pre' ++ [p] /\ prev = Some p.1) ->
  exists l1, (let '(prev, l0) :=
      if decide (head l = Some c) then (None, set_head (Some x) l) else (prev, l) in
      swap_nodes prev c x l0) = Some l1 /\ rep l1 (pre ++ (x, dx) :: (c, dc) :: post).
Proof.
  intros Hr Hprev. destruct pre as [|p0 pre0] using rev_ind.
  - rewrite decide_True by (by rewrite (lseg_head _ _ _ _ (r_list _ _ Hr))).
    destruct (swap_head l c dc x dx post Hr) as (l1 & E & _ & Hr1). by exists l1.
  - clear IHpre0. destruct Hprev as (pre' & p & E & ->); [by destruct pre0|].
    apply app_inj_tail in E as [-> ->]. destruct p as [p dp].
    destruct (swap_after l _ _ _ _ _ _ _ _ Hr) as (Hne & l1 & E & _ & Hr1).
    rewrite decide_False by done. by exists l1.
Qed.

(** The scan has passed [pre], which is in order, and stands on [c]. *)
Lemma sort_loop_spec fuel : forall pre c dc post prev l,
  rep l (pre ++ (c, dc) :: post) -> Sorted more_hits (pre.*2 ++ [dc]) ->
  (pre <> [] -> exists pre' p, pre = pre' ++ [p] /\ prev = Some p.1) ->
  (inversions (pre ++ (c, dc) :: post).*2 * (length (pre ++ (c, dc) :: post) + 1)
   + length post + 1 <= fuel)%nat ->
  exists l' ys, sort_loop hits fuel prev (Some c) l = Some l' /\ rep l' ys /\
    ys ≡ₚ pre ++ (c, dc) :: post /\ Sorted more_hits ys.*2 /\ cur l' = head l'.
Proof.
  induction fuel as [|fuel IH]; intros pre c dc post prev l Hr Hsort Hprev Hfuel; [lia|].
  pose proof (lseg_at _ _ _ _ _ _ _ (r_list _ _ Hr)) as Hc. cbn [sort_loop]. rewrite Hc.
  cbn [mbind option_bind next dat]. destruct post as [|[x dx] post]; cbn [head_of].
  { exists (first l), (pre ++ [(c, dc)]). rewrite fmap_app. split_and!; try done.
    destruct Hr. by split. }
  pose proof (lseg_at (heap l) (head l) (pre ++ [(c, dc)]) x dx post None) as Hx.
  rewrite <-app_assoc in Hx. specialize (Hx (r_list _ _ Hr)).
  cbn [fst]. rewrite Hx. cbn [mbind option_bind dat].
  destruct (Z.ltb_spec (hits dc) (hits dx)) as [Hlt|Hge].
  - destruct (swap_step l pre c dc x dx post prev Hr Hprev) as (l1 & E & Hr1).
    assert (mbind (fun l => sort_loop hits fuel (head l) (head l) l) (Some l1)
      = sort_loop hits fuel (head l1) (head l1) l1) as Estep by done.
    rewrite <-E in Estep.
    assert ((let '(prev, l0) :=
        if decide (head l = Some c) then (None, set_head (Some x) l) else (prev, l) in
        l ← swap_nodes prev c x l0; sort_loop hits fuel (head l) (head l) l)
      = sort_loop hits fuel (head l1) (head l1) l1) as ->
      by (rewrite <-Estep; by destruct (decide (head l = Some c))).
    assert (exists f df rest, pre ++ (x, dx) :: (c, dc) :: post = (f, df) :: rest) as (f & df & rest & Ef).
    { destruct pre as [|[f df] pre]; cbn; eauto. }
    rewrite Ef in Hr1. rewrite (lseg_head _ _ _ _ (r_list _ _ Hr1)). cbn [head_of fst].
    rewrite fmap_app in Hfuel. cbn in Hfuel. rewrite inversions_swap in Hfuel by done.
    assert (length (pre ++ (c, dc) :: (x, dx) :: post) = length ((f, df) :: rest)) as Hlen
      by (rewrite <-Ef, !length_app; done).
    destruct (IH [] f df rest (Some f) l1) as (l' & ys & E' & Hr' & Hp & Hs' & Hcur).
    + done.
    + repeat constructor.
    + done.
    + cbn [app]. rewrite Hlen in Hfuel. rewrite <-Ef at 1. rewrite fmap_app. cbn [fmap list_fmap].
      cbn [length] in *. cbn. lia.
    + exists l', ys. split_and!; try done. etrans; [exact Hp|]. cbn [app]. rewrite <-Ef.
      apply Permutation_app_head. constructor.
  - destruct (IH (pre ++ [(c, dc)]) x dx post (Some c) l) as (l' & ys & E' & Hr' & Hp & Hs' & Hcur).
    + by rewrite <-app_assoc.
    + rewrite fmap_app. cbn. apply Sorted_snoc; [done|]. by constructor.
    + intros _. by exists pre, (c, dc).
    + rewrite <-app_assoc. cbn in *. lia.
    + exists l', ys. split_and!; try done. by rewrite <-app_assoc in Hp.
Qed.

Lemma sort_spec l xs :
  rep l xs ->
  exists l' ys, sort_by_hits hits l = Some l' /\ rep l' ys /\ ys ≡ₚ xs /\
    StronglySorted more_hits ys.*2.
Proof.
  intros Hr. unfold sort_by_hits. rewrite (r_cnt _ _ Hr).
  destruct (Z.leb_spec (Z.of_nat (length xs)) 1) as [Hle|Hgt].
  { exists l, xs. split_and!; try done. destruct xs as [|? [|? xs]]; [..|cbn in Hle; lia];
    repeat constructor. }
  destruct xs as [|[f df] xs]; [done|]. rewrite (rep_size _ _ Hr).
  rewrite (lseg_head _ _ _ _ (r_list _ _ Hr)). cbn [head_of fst].
  destruct (sort_loop_spec (sort_fuel (length ((f, df) :: xs))) [] f df xs (Some f) l)
    as (l' & ys & E & Hr' & Hp & Hs & _); [done|repeat constructor|done| |].
  { cbn [app]. pose proof (inversions_bound ((f, df) :: xs).*2) as Hb.
    rewrite length_fmap in Hb. unfold sort_fuel. cbn [length] in *. nia. }
  exists l', ys. split_and!; try done. apply Sorted_StronglySorted; [exact more_hits_trans|done].
Qed.

End sorting.

(** ** Releasing *)

Lemma free_from_spec xs h fuel p :
  lseg h p xs None -> NoDup xs.*1 -> (forall a, is_Some (h !! a) <-> a ∈ xs.*1) ->
  (length xs < fuel)%nat -> free_from fuel p h = Some ∅.
Proof.
  revert h fuel p. induction xs as [|[a d] xs IH]; intros h fuel p Hs Hd Hl Hf; cbn in Hs.
  - subst. destruct fuel; [lia|]. cbn. f_equal. apply map_empty. intros a.
    destruct (h !! a) eqn:E; [|done]. assert (is_Some (h !! a)) as Hin by (by rewrite E).
    apply Hl in Hin. by apply not_elem_of_nil in Hin.
  - destruct Hs as (-> & n & Ha & Hs). destruct fuel as [|fuel]; [lia|]. cbn. rewrite Ha.
    cbn in Hd. apply NoDup_cons in Hd as [Hn Hd]. cbn in Hf. apply IH; [|done| |lia].
    + by apply lseg_delete.
    + intros b. destruct (decide (a = b)) as [<-|Hne].
      * rewrite lookup_delete_eq. split; [by intros []|done].
      * rewrite lookup_delete_ne, Hl by done. cbn. rewrite elem_of_cons. split; [|by right].
        intros [|]; [congruence|done].
Qed.

Lemma clear_spec l xs : rep l xs -> clear l = Some create.
Proof.
  intros Hr. pose proof Hr as [Hs Hd Hl _]. unfold clear, nodes_of.
  rewrite (rep_size _ _ Hr), (free_from_spec xs) by (done || lia). done.
Qed.

(** ** Linking a new node *)

Context (malloc : gmap addr (node D) -> addr).
Context (malloc_fresh : forall h, h !! malloc h = None).

Lemma append_head d l :
  head l = None ->
  append malloc d l = Some (HL (<[malloc (heap l) := Node d None]> (heap l))
    (Some (malloc (heap l))) (Some (malloc (heap l))) (cnt l +u 1)).
Proof. intros Hh. unfold append, new_node, link_new. cbn. by rewrite Hh. Qed.

Lemma append_after d l f p dp q :
  head l = Some f -> cur l = Some p -> heap l !! p = Some (Node dp q) ->
  append malloc d l
  = Some (HL (<[p := Node dp (Some (malloc (heap l)))]>
               (<[malloc (heap l) := Node d None]> (heap l)))
            (Some f) (Some (malloc (heap l))) (cnt l +u 1)).
Proof.
  intros Hh Hc Hp. unfold append, new_node, link_new. cbn. rewrite Hh, Hc. cbn.
  unfold set_next. cbn. rewrite lookup_insert_ne by (intros E; rewrite <-E, malloc_fresh in Hp; done).
  rewrite Hp. cbn. by rewrite ?Hh.
Qed.

(** The heap after a node was linked between [pre] and [post]. *)
Lemma rep_insert l pre post a d l' :
  rep l (pre ++ post) -> heap l !! a = None ->
  Z.of_nat (length (pre ++ post)) + 1 < two32 ->
  lseg (heap l') (head l') (pre ++ (a, d) :: post) None ->
  (forall b, is_Some (heap l' !! b) <-> b = a \/ is_Some (heap l !! b)) ->
  cnt l' = (cnt l +u 1) ->
  rep l' (pre ++ (a, d) :: post).
Proof.
  intros [_ Hd Hl Hc] Ha Hlen Hs Hlive Hc'.
  assert ((pre ++ (a, d) :: post).*1 ≡ₚ a :: (pre ++ post).*1) as Hp.
  { rewrite !fmap_app. cbn. by rewrite <-Permutation_middle. }
  assert (a ∉ (pre ++ post).*1) as Hn.
  { intros Hin. apply Hl in Hin as [? E]. by rewrite Ha in E. }
  split; [done|rewrite Hp; by apply NoDup_cons| |].
  - intros b. rewrite Hlive, Hl, Hp, elem_of_cons. done.
  - rewrite Hc', Hc, u32_small by lia. rewrite !length_app. cbn. lia.
Qed.

Lemma live_new h a nd b :
  is_Some (<[a := nd]> h !! b) <-> b = a \/ is_Some (h !! b).
Proof.
  destruct (decide (a = b)) as [<-|Hne].
  - rewrite lookup_insert_eq. split; [by left|done].
  - rewrite lookup_insert_ne by done. split; [by right|]. by intros [|].
Qed.

(** A fresh node is not in the list. *)
Lemma fresh_notin l xs ys : rep l xs -> ys.*1 ⊆ xs.*1 -> malloc (heap l) ∉ ys.*1.
Proof.
  intros Hr Hsub Hin. apply Hsub, (r_live _ _ Hr) in Hin as [? E]. by rewrite malloc_fresh in E.
Qed.

(** In front of the list; the new node then points to [post]. *)
Lemma insert_front l post d l' :
  rep l post -> Z.of_nat (length post) + 1 < two32 ->
  heap l' = <[malloc (heap l) := Node d (head_of None post)]>
              (<[malloc (heap l) := Node d None]> (heap l)) ->
  head l' = Some (malloc (heap l)) -> cnt l' = (cnt l +u 1) ->
  rep l' ((malloc (heap l), d) :: post).
Proof.
  intros Hr Hlen Eh Ehd Ec. apply (rep_insert l [] post); try done.
  - cbn. rewrite Ehd, Eh. split; [done|]. exists (head_of None post).
    rewrite lookup_insert_eq. split; [done|].
    pose proof (fresh_notin l post post Hr ltac:(done)).
    apply lseg_frame, lseg_frame; [done..|]. pose proof (r_list _ _ Hr) as Hs.
    by rewrite <-(lseg_head _ _ _ _ Hs).
  - intros b. rewrite Eh, live_new, live_new. tauto.
Qed.

(** After node [p]. *)
Lemma insert_after l pre p dp post d l' :
  rep l ((pre ++ [(p, dp)]) ++ post) ->
  Z.of_nat (length ((pre ++ [(p, dp)]) ++ post)) + 1 < two32 ->
  heap l' = <[malloc (heap l) := Node d (head_of None post)]>
              (<[p := Node dp (Some (malloc (heap l)))]>
                 (<[malloc (heap l) := Node d None]> (heap l))) ->
  head l' = head l -> cnt l' = (cnt l +u 1) ->
  rep l' ((pre ++ [(p, dp)]) ++ (malloc (heap l), d) :: post).
Proof.
  intros Hr Hlen Eh Ehd Ec. set (a := malloc (heap l)) in *.
  assert (a ∉ (pre ++ [(p, dp)]).*1) as Hpre.
  { apply (fresh_notin _ _ _ Hr). intros x Hx. rewrite (fmap_app _ (pre ++ _)).
    apply elem_of_app. by left. }
  assert (a ∉ post.*1) as Hpost.
  { apply (fresh_notin _ _ _ Hr). intros x Hx. rewrite (fmap_app _ (pre ++ _)).
    apply elem_of_app. by right. }
  pose proof (r_list _ _ Hr) as Hs. apply lseg_app in Hs as [Hs1 Hs2].
  pose proof (r_nodup _ _ Hr) as Hd. rewrite fmap_app in Hd.
  apply NoDup_app in Hd as (D1 & D12 & _). rewrite fmap_app in D1, D12, Hpre. cbn in D1, D12, Hpre.
  assert (p ∉ post.*1) as Hpp by (apply D12, elem_of_app; right; left).
  apply NoDup_app in D1 as (_ & D1 & _).
  assert (p ∉ pre.*1) as Hpn by (intros Hin; apply (D1 p Hin); left).
  assert (p <> a) as Hpa by (intros ->; apply Hpre, elem_of_app; right; left).
  apply (rep_insert l _ post); try done; [apply malloc_fresh|..].
  - rewrite Ehd, Eh. apply lseg_app. split.
    + apply lseg_frame; [by rewrite fmap_app|]. eapply lseg_redirect; [done|].
      apply lseg_frame; [by rewrite fmap_app|exact Hs1].
    + cbn. split; [done|]. exists (head_of None post). rewrite lookup_insert_eq.
      split; [done|]. by apply lseg_frame, lseg_frame, lseg_frame.
  - intros b. rewrite Eh, live_new.
    assert (heap l !! p = Some (Node dp (head_of None post))) as Hp.
    { pose proof (lseg_at _ _ pre p dp [] _ Hs1). done. }
    rewrite (live_insert _ p (Node dp (head_of None post))) by (by rewrite lookup_insert_ne).
    rewrite live_new. tauto.
Qed.

(** After the last node, with the cursor on it. *)
Lemma append_last_after l pre p dp d :
  rep l (pre ++ [(p, dp)]) -> Z.of_nat (length (pre ++ [(p, dp)])) + 1 < two32 ->
  exists l', append malloc d (set_cur (Some p) l) = Some l' /\
    rep l' ((pre ++ [(p, dp)]) ++ [(malloc (heap l), d)]).
Proof.
  intros Hr Hlen. pose proof (lseg_at _ _ _ _ _ _ _ (r_list _ _ Hr)) as Hp. cbn in Hp.
  assert (exists f, head l = Some f) as [f Hf].
  { rewrite (lseg_head _ _ _ _ (r_list _ _ Hr)). destruct pre; by eexists. }
  rewrite (append_after _ _ f p dp None) by done. eexists. split; [done|].
  assert (p <> malloc (heap l)) as Hpa by (intros ->; by rewrite malloc_fresh in Hp).
  set (a := malloc (heap l)) in *. cbn [heap set_cur].
  assert (<[a := Node d (head_of None [])]> (<[p := Node dp (Some a)]> (<[a := Node d None]> (heap l)))
    = <[p := Node dp (Some a)]> (<[a := Node d None]> (heap l))) as Eh.
  { apply insert_id. by rewrite lookup_insert_ne, lookup_insert_eq. }
  apply (insert_after l pre p dp []); rewrite ?app_nil_r; try done.
Qed.

End facts.

(** ** Numbers in order *)

Section ilist.
Context (malloc : gmap addr (node int_node) -> addr).
Context (malloc_fresh : forall h, h !! malloc h = None).
Implicit Types (ds : list int_node).

(** Count [n] in a sorted list. *)
Fixpoint count_num (n aux : Z) ds : list int_node :=
  match ds with
  | [] => [IntNode n 1 aux]
  | d :: ds => if num d =? n then bump_int d :: ds
               else if num d <? n then d :: count_num n aux ds
               else IntNode n 1 aux :: d :: ds
  end.

(** Changing the data of one node. *)
Lemma update_spec {D} (f : D -> D) (l : hlist D) pre c d post :
  rep l (pre ++ (c, d) :: post) ->
  exists l', update c f l = Some l' /\ rep l' (pre ++ (c, f d) :: post).
Proof.
  intros Hr. pose proof Hr as [Hs Hd Hl Hc]. pose proof (lseg_at _ _ _ _ _ _ _ Hs) as Hn.
  unfold update. rewrite Hn. cbn [dat next]. eexists. split; [done|].
  rewrite fmap_app in Hd. cbn in Hd. apply NoDup_app in Hd as (D1 & D12 & [D2 _]%NoDup_cons).
  assert (c ∉ pre.*1) as Hcp by (intros Hin; apply (D12 c Hin); left).
  eapply rep_perm; [exact Hr| |by rewrite !fmap_app| |done].
  - cbn [heap head set_heap]. apply lseg_app in Hs as [Hs1 Hs2]. apply lseg_app.
    split; [by apply lseg_frame|]. cbn in *. destruct Hs2 as (_ & n & E & Hs2).
    split; [done|]. exists n. rewrite lookup_insert_eq. rewrite Hn in E. injection E as ->.
    split; [done|]. by apply lseg_frame.
  - cbn. by apply (live_insert _ c (Node d (head_of None post))).
Qed.

(** The cursor [prev] of the scan. *)
Definition prev_of {D} (l : hlist D) (pre : list (addr * D)) : option addr :=
  match last pre with Some p => Some p.1 | None => head l end.

(** The head of a list is not a later node. *)
Lemma head_ne {D} (l : hlist D) pre c dc post :
  rep l (pre ++ (c, dc) :: post) -> pre <> [] -> exists f, head l = Some f /\ f <> c.
Proof.
  intros Hr Hne. rewrite (lseg_head _ _ _ _ (r_list _ _ Hr)).
  pose proof (r_nodup _ _ Hr) as Hd. rewrite fmap_app in Hd.
  apply NoDup_app in Hd as (_ & D12 & _).
  destruct pre as [|[f df] pre]; [done|]. exists f. split; [done|]. intros ->.
  apply (D12 c); by left.
Qed.

(** The new node goes between [pre] and [post]. *)
Lemma ilist_insert l pre c dc post n aux :
  rep l (pre ++ (c, dc) :: post) ->
  Z.of_nat (length (pre ++ (c, dc) :: post)) + 1 < two32 ->
  exists l' a,
    (let hd := bool_decide (head l = Some c) in
     let l0 := if hd then set_head None l else set_cur (prev_of l pre) l in
     l0 ← ilist_append malloc n 1 aux l0;
     a ← cur l0;
     l0 ← set_next a (if hd then prev_of l pre else Some c) l0;
     Some (1, l0)) = Some (1, l') /\
    rep l' (pre ++ (a, IntNode n 1 aux) :: (c, dc) :: post).
Proof.
  intros Hr Hlen. unfold ilist_append. set (a := malloc (heap l)).
  destruct pre as [|[p dp] pre _] using rev_ind.
  - pose proof (lseg_head _ _ _ _ (r_list _ _ Hr)) as Hh. cbn in Hh.
    rewrite bool_decide_true by done. cbn zeta.
    rewrite append_head by done. cbn [mbind option_bind cur heap head cnt set_head].
    erewrite set_next_spec by (cbn; apply lookup_insert_eq). cbn [mbind option_bind].
    eexists _, a. split; [done|]. eapply insert_front; try done.
    cbn. unfold prev_of. cbn. by rewrite Hh.
  - assert (heap l !! p = Some (Node dp (Some c))) as Hp.
    { rewrite <-app_assoc in Hr. apply (lseg_at _ _ _ _ _ _ _ (r_list _ _ Hr)). }
    destruct (head_ne l (pre ++ [(p, dp)]) c dc post Hr) as (f & Hf & Hne); [by destruct pre|].
    rewrite bool_decide_false by congruence. cbn zeta.
    unfold prev_of. rewrite last_snoc. cbn [fst].
    rewrite (append_after malloc malloc_fresh _ _ f p dp (Some c)) by done.
    cbn [mbind option_bind cur heap head cnt set_cur].
    erewrite set_next_spec.
    2: { cbn. rewrite lookup_insert_ne, lookup_insert_eq; [done|].
         intros ->. by rewrite malloc_fresh in Hp. }
    cbn [mbind option_bind]. eexists _, a. split; [done|].
    eapply insert_after; done.
Qed.

(** The loop of [ilist_add_if_uniq], standing between [pre] and [post]. *)
Lemma ilist_add_loop_spec fuel : forall l pre post n aux,
  rep l (pre ++ post) -> Z.of_nat (length (pre ++ post)) + 1 < two32 ->
  (length post < fuel)%nat ->
  exists r l' ys, ilist_add_loop malloc fuel n aux (prev_of l pre) (head_of None post) l
      = Some (r, l') /\
    rep l' (pre ++ ys) /\ ys.*2 = count_num n aux post.*2.
Proof.
  induction fuel as [|fuel IH]; intros l pre post n aux Hr Hlen Hf; [lia|].
  destruct post as [|[c dc] post]; cbn [head_of ilist_add_loop fst].
  - rewrite app_nil_r in *. destruct pre as [|[p dp] pre _] using rev_ind.
    + pose proof (lseg_head _ _ _ _ (r_list _ _ Hr)) as Hh. cbn in Hh.
      unfold prev_of, ilist_append. cbn [last]. rewrite Hh, append_head by done.
      cbn [mbind option_bind]. eexists _, _, [(malloc (heap l), IntNode n 1 aux)].
      split; [done|]. split; [|done]. cbn [app].
      apply (rep_insert l [] []); try done.
      * cbn. split; [done|]. eexists. by rewrite lookup_insert_eq.
      * intros b. cbn. apply live_new.
    + destruct (append_last_after malloc malloc_fresh l pre p dp (IntNode n 1 aux) Hr Hlen)
        as (l' & E & Hr').
      unfold prev_of. rewrite last_snoc. cbn [fst]. unfold ilist_append. rewrite E.
      cbn [mbind option_bind]. by eexists _, l', [_].
  - pose proof (lseg_at _ _ _ _ _ _ _ (r_list _ _ Hr)) as Hc. rewrite Hc.
    cbn [mbind option_bind dat next fmap list_fmap count_num snd].
    destruct (Z.eqb_spec (num dc) n) as [Heq|Hne].
    + destruct (update_spec bump_int l pre c dc post Hr) as (l' & -> & Hr').
      cbn [mbind option_bind]. by eexists _, l', _.
    + destruct (Z.ltb_spec (num dc) n) as [Hlt|Hge].
      * destruct (IH l (pre ++ [(c, dc)]) post n aux) as (r & l' & ys & E & Hr' & Hys).
        { by rewrite <-app_assoc. }
        { by rewrite <-app_assoc. }
        { cbn in Hf. lia. }
        unfold prev_of in E. rewrite last_snoc in E. cbn [fst] in E. rewrite E.
        exists r, l', ((c, dc) :: ys). rewrite <-app_assoc in Hr'. cbn. by rewrite Hys.
      * destruct (ilist_insert l pre c dc post n aux Hr Hlen) as (l' & a & E & Hr').
        eexists 1, l', _. split; [exact E|]. by split.
Qed.

Lemma ilist_add_spec l xs n aux :
  rep l xs -> Z.of_nat (length xs) + 1 < two32 ->
  exists r l' ys, ilist_add_if_uniq malloc n aux l = Some (r, l') /\ rep l' ys /\
    ys.*2 = count_num n aux xs.*2.
Proof.
  intros Hr Hlen. unfold ilist_add_if_uniq, nodes_of. rewrite (rep_size _ _ Hr).
  pose proof (ilist_add_loop_spec (S (S (length xs))) l [] xs n aux Hr Hlen ltac:(lia)) as Ha.
  by rewrite <-(lseg_head _ _ _ _ (r_list _ _ Hr)) in Ha.
Qed.

(** Add a sequence of numbers. *)
Fixpoint add_nums (ns : list Z) (l : ilist) : option ilist :=
  match ns with
  | [] => Some l
  | n :: ns => '(_, l) ← ilist_add_if_uniq malloc n 0 l; add_nums ns l
  end.

Lemma count_num_length n aux ds :
  (length ds <= length (count_num n aux ds) <= length ds + 1)%nat.
Proof.
  induction ds as [|d ds IH]; cbn; [lia|]. repeat case_match; cbn; lia.
Qed.

Lemma add_nums_spec ns l xs :
  rep l xs -> Z.of_nat (length xs + length ns) < two32 ->
  exists l' ys, add_nums ns l = Some l' /\ rep l' ys /\
    ys.*2 = foldl (fun ds n => count_num n 0 ds) xs.*2 ns.
Proof.
  revert l xs. induction ns as [|n ns IH]; intros l xs Hr Hlen; [by exists l, xs|].
  cbn in Hlen. destruct (ilist_add_spec l xs n 0 Hr) as (r & l1 & ys & E & Hr1 & Hys); [lia|].
  cbn [add_nums foldl]. rewrite E. cbn [mbind option_bind]. rewrite <-Hys. apply IH; [done|].
  pose proof (count_num_length n 0 xs.*2) as Hl. rewrite <-Hys, !length_fmap in Hl. lia.
Qed.

(** ** What the list counts *)

Definition hits_of (n : Z) ds : Z :=
  match list_find (fun d => num d = n) ds with Some (_, d) => ihits d | None => 0 end.

Definition low_to_high (d e : int_node) : Prop := num d < num e.

Lemma count_num_sorted n aux ds :
  StronglySorted low_to_high ds -> StronglySorted low_to_high (count_num n aux ds).
Proof.
  assert (forall ds x, Forall (low_to_high x) ds -> num x < n ->
    Forall (low_to_high x) (count_num n aux ds)) as Hall.
  { intros es x Hx Hn. induction Hx as [|d es Hd Hx IH]; cbn; [by repeat constructor|].
    repeat case_match; repeat constructor; done. }
  induction 1 as [|d ds Hs IH Hd]; cbn; [repeat constructor|].
  destruct (Z.eqb_spec (num d) n); [by constructor|].
  destruct (Z.ltb_spec (num d) n); [constructor; [done|by apply Hall]|].
  constructor; [by constructor|]. constructor; [unfold low_to_high; cbn; lia|].
  eapply Forall_impl; [done|]. unfold low_to_high. cbn. lia.
Qed.

Lemma hits_of_cons n d ds :
  hits_of n (d :: ds) = if decide (num d = n) then ihits d else hits_of n ds.
Proof.
  unfold hits_of. cbn. case_decide; [done|]. by destruct (list_find _ ds) as [[]|].
Qed.

Lemma hits_of_absent n ds : Forall (fun d => num d <> n) ds -> hits_of n ds = 0.
Proof.
  induction 1 as [|d ds Hd _ IH]; [done|]. rewrite hits_of_cons. by case_decide.
Qed.

(** Counting [n] adds one to its hits and to no other. *)
Lemma hits_of_count n m aux ds :
  StronglySorted low_to_high ds -> 0 <= hits_of n ds -> hits_of n ds + 1 < two32 ->
  hits_of m (count_num n aux ds) = hits_of m ds + (if decide (m = n) then 1 else 0).
Proof.
  induction 1 as [|d ds Hs IH Hd]; cbn; intros H0 Hb.
  - rewrite hits_of_cons. cbn. repeat case_decide; try congruence; done.
  - rewrite hits_of_cons in H0, Hb. destruct (Z.eqb_spec (num d) n) as [E|Hne].
    + rewrite !hits_of_cons. cbn. rewrite decide_True in H0, Hb by done.
      destruct (decide (num d = m)), (decide (m = n)); try congruence; [|lia].
      apply u32_small. lia.
    + rewrite decide_False in H0, Hb by done. destruct (Z.ltb_spec (num d) n) as [Hlt|Hge].
      * rewrite !hits_of_cons. rewrite (IH H0 Hb).
        repeat case_decide; lia.
      * rewrite !hits_of_cons. cbn. destruct (decide (n = m)) as [->|Hnm].
        -- rewrite decide_False, decide_True by done.
           rewrite hits_of_absent; [lia|]. eapply Forall_impl; [done|].
           unfold low_to_high. intros e He. cbn in *. lia.
        -- rewrite (decide_False (P := m = n)) by congruence. case_decide; lia.
Qed.

Definition occurrences (n : Z) (ns : list Z) : Z := Z.of_nat (length (filter (n =.) ns)).

Lemma occurrences_cons m n ns :
  occurrences m (n :: ns) = (if decide (m = n) then 1 else 0) + occurrences m ns.
Proof. unfold occurrences. rewrite filter_cons. case_decide; cbn [length]; lia. Qed.

Lemma count_all ns : forall ds,
  StronglySorted low_to_high ds ->
  (forall m, 0 <= hits_of m ds /\ hits_of m ds + Z.of_nat (length ns) < two32) ->
  let ds' := foldl (fun ds n => count_num n 0 ds) ds ns in
  StronglySorted low_to_high ds' /\
  forall m, hits_of m ds' = hits_of m ds + occurrences m ns.
Proof.
  induction ns as [|n ns IH]; intros ds Hs Hb; cbn [foldl].
  { split; [done|]. intros m. unfold occurrences. cbn. lia. }
  assert (forall m, hits_of m (count_num n 0 ds) = hits_of m ds + (if decide (m = n) then 1 else 0))
    as Hc.
  { intros m. apply hits_of_count; [done|apply Hb|].
    destruct (Hb n) as [_ Hn]. cbn in Hn. lia. }
  destruct (IH (count_num n 0 ds)) as [Hs' Hh]; [by apply count_num_sorted| |].
  { intros m. rewrite Hc. destruct (Hb m) as [? Hm]. cbn in Hm. case_decide; lia. }
  split; [done|]. intros m. rewrite Hh, Hc, occurrences_cons. lia.
Qed.

(** After numbers were added, the list holds them from low to high, each
    once, with the number of times it was added. *)
Theorem ilist_counts ns :
  Z.of_nat (length ns) < two32 ->
  exists l xs, add_nums ns ilist_create = Some l /\ rep l xs /\
    StronglySorted low_to_high xs.*2 /\ forall n, hits_of n xs.*2 = occurrences n ns.
Proof.
  intros Hlen. destruct (add_nums_spec ns ilist_create [] rep_create) as (l & xs & E & Hr & Hxs);
    [done|].
  destruct (count_all ns [] ltac:(constructor)) as [Hs Hh].
  { intros m. unfold hits_of. cbn. lia. }
  exists l, xs. rewrite Hxs. split_and!; try done.
Qed.

(** Sorting by hits always ends; the list then has the same nodes, from
    most hits to least. *)
Theorem ilist_sorts l xs :
  rep l xs ->
  exists l' ys, ilist_sort_by_hits l = Some l' /\ rep l' ys /\ ys ≡ₚ xs /\
    StronglySorted (more_hits ihits) ys.*2.
Proof. apply sort_spec. Qed.

End ilist.

(** ** Strings as they come *)

Section slist.
Context (malloc : gmap addr (node snode) -> addr).
Context (malloc_fresh : forall h, h !! malloc h = None).

Implicit Types (ds : list snode).

(** The cursor is on a node of the list, if anywhere. *)
Definition cur_ok {D} (l : hlist D) (xs : list (addr * D)) : Prop :=
  forall c, cur l = Some c -> c ∈ xs.*1.

Lemma walk_spec {D} (l : hlist D) c d post fuel :
  lseg (heap l) (Some c) ((c, d) :: post) None -> (length post < fuel)%nat ->
  exists p dp pre, (c, d) :: post = pre ++ [(p, dp)] /\ walk fuel c l = Some p.
Proof.
  revert c d fuel. induction post as [|[b e] post IH]; intros c d fuel Hs Hf;
    (destruct fuel as [|fuel]; [lia|]); pose proof (lseg_at _ _ [] _ _ _ _ Hs) as Hc; cbn in Hc.
  - exists c, d, []. split; [done|]. cbn. by rewrite Hc.
  - destruct Hs as (_ & n & E & Hs). rewrite Hc in E. injection E as <-.
    destruct (IH b e fuel Hs) as (p & dp & pre & Ep & Hw); [cbn in Hf; lia|].
    exists p, dp, ((c, d) :: pre). cbn [app]. rewrite <-Ep. split; [done|]. cbn. by rewrite Hc.
Qed.

(** Appending goes to the end, wherever the cursor is. *)
Lemma append_last_eq d l pre p dp :
  rep l (pre ++ [(p, dp)]) -> cur_ok l (pre ++ [(p, dp)]) ->
  append_last malloc d l = append malloc d (set_cur (Some p) l).
Proof.
  intros Hr Hcur. pose proof Hr as [Hs Hd Hl _]. unfold append_last, append, new_node. cbn.
  set (a := malloc (heap l)). set (l1 := set_heap _ l).
  assert (lseg (heap l1) (head l1) (pre ++ [(p, dp)]) None) as Hs1.
  { cbn. apply lseg_frame; [|done]. by apply (fresh_notin malloc malloc_fresh l _ _ Hr). }
  assert (exists f, head l = Some f) as [f Hf].
  { rewrite (lseg_head _ _ _ _ Hs). destruct pre; by eexists. }
  assert (match cur l with Some c => c | None => f end ∈ (pre ++ [(p, dp)]).*1) as Hin.
  { destruct (cur l) as [c|] eqn:Ec; [by apply Hcur|].
    rewrite (lseg_head _ _ _ _ Hs) in Hf. destruct pre as [|x pre]; cbn in Hf; injection Hf as <-; left. }
  set (c := match cur l with Some c => c | None => f end) in *.
  apply list_elem_of_fmap in Hin as ([c' dc] & Ec & Hin). cbn in Ec. subst c'.
  apply list_elem_of_split in Hin as (l1' & l2' & El).
  rewrite El in Hs1. apply lseg_app in Hs1 as [_ Hs2]. cbn [head_of fst] in Hs2.
  destruct (walk_spec l1 c dc l2' (nodes_of l1) Hs2) as (q & dq & pre' & Eq & Hw).
  { unfold nodes_of. cbn. rewrite map_size_insert_None by apply malloc_fresh.
    rewrite (rep_size _ _ Hr), El, length_app. cbn. lia. }
  rewrite Eq, app_assoc in El. apply app_inj_tail in El as [_ El]. injection El as <- <-.
  unfold last_. replace (head l1) with (Some f) by (by rewrite <-Hf).
  change (match cur l1 with Some c => c | None => f end) with c. rewrite Hw. done.
Qed.

(** Count a string. *)
Fixpoint count_str (s : string) ds : list snode :=
  match ds with
  | [] => [SNode (Some s) None 1]
  | d :: ds => if decide (str d = Some s) then bump_str d :: ds else d :: count_str s ds
  end.

Lemma slist_append_spec d l xs :
  rep l xs -> cur_ok l xs -> Z.of_nat (length xs) + 1 < two32 ->
  exists l' a, slist_append malloc d l = Some l' /\ rep l' (xs ++ [(a, d)]) /\
    cur l' = Some a.
Proof.
  intros Hr Hc Hlen. destruct xs as [|[p dp] pre _] using rev_ind.
  - pose proof (lseg_head _ _ _ _ (r_list _ _ Hr)) as Hh. cbn in Hh.
    exists (HL (<[malloc (heap l) := Node d None]> (heap l))
      (Some (malloc (heap l))) (Some (malloc (heap l))) (cnt l +u 1)), (malloc (heap l)).
    split_and!; [|apply (rep_insert l [] []); try done|done].
    + unfold slist_append, append_last, new_node, last_. cbn. rewrite Hh. cbn.
      unfold link_new. cbn. by rewrite Hh.
    + cbn. split; [done|]. eexists. by rewrite lookup_insert_eq.
    + intros b. cbn. apply live_new.
  - unfold slist_append. rewrite (append_last_eq _ _ pre p dp) by done.
    destruct (append_last_after malloc malloc_fresh l pre p dp d Hr Hlen) as (l' & E & Hr').
    exists l', (malloc (heap l)). split_and!; try done.
    unfold append, new_node, link_new in E. cbn in E.
    destruct (head l) as [f|]; cbn in E.
    + destruct (set_next p _ _) as [l1|]; [|done]. by injection E as <-.
    + by injection E as <-.
Qed.

Lemma slist_add_loop_spec fuel : forall l pre post s,
  rep l (pre ++ post) -> cur_ok l (pre ++ post) ->
  Forall (fun x => is_Some (str x.2)) post ->
  Z.of_nat (length (pre ++ post)) + 1 < two32 -> (length post < fuel)%nat ->
  exists r l' ys, slist_add_loop malloc fuel s (head_of None post) l = Some (r, l') /\
    rep l' (pre ++ ys) /\ cur_ok l' (pre ++ ys) /\ ys.*2 = count_str s post.*2.
Proof.
  induction fuel as [|fuel IH]; intros l pre post s Hr Hc Hstr Hlen Hf; [lia|].
  destruct post as [|[c dc] post]; cbn [head_of slist_add_loop fst].
  - rewrite app_nil_r in *.
    destruct (slist_append_spec (SNode (Some s) None 1) l pre Hr Hc Hlen) as (l' & a & -> & Hr' & Hc').
    cbn [mbind option_bind]. eexists _, l', [_]. split; [done|]. split; [done|]. split; [|done].
    intros c Hcc. rewrite Hc' in Hcc. injection Hcc as <-. rewrite fmap_app. apply elem_of_app.
    right. by left.
  - pose proof (lseg_at _ _ _ _ _ _ _ (r_list _ _ Hr)) as Hn. rewrite Hn.
    apply Forall_cons in Hstr as [[t Ht] Hstr]. cbn in Ht.
    cbn [mbind option_bind dat next fmap list_fmap count_str snd]. rewrite Ht.
    cbn [mbind option_bind]. destruct (str_eq s t) eqn:Es.
    + apply str_eq_true in Es as <-. rewrite decide_True by done.
      destruct (update_spec bump_str l pre c dc post Hr) as (l' & E & Hr'). rewrite E.
      cbn [mbind option_bind]. eexists _, _, ((c, bump_str dc) :: post). split; [done|].
      split; [destruct Hr'; by split|]. split; [|done].
      intros x [= <-]. rewrite fmap_app. apply elem_of_app. right. by left.
    + rewrite decide_False.
      2: { intros [= ->]. by rewrite str_eq_refl in Es. }
      destruct (IH l (pre ++ [(c, dc)]) post s) as (r & l' & ys & E & Hr' & Hc' & Hys);
        [by rewrite <-app_assoc|by rewrite <-app_assoc|done|by rewrite <-app_assoc|cbn in Hf; lia|].
      rewrite E. exists r, l', ((c, dc) :: ys). rewrite <-app_assoc in Hr', Hc'.
      cbn [fmap list_fmap snd]. by rewrite Hys.
Qed.

Fixpoint add_strs (ss : list string) (l : slist) : option slist :=
  match ss with
  | [] => Some l
  | s :: ss => '(_, l) ← slist_add_if_uniq malloc (Some s) l; add_strs ss l
  end.

Lemma count_str_facts s ds :
  Forall (fun d => is_Some (str d)) ds ->
  Forall (fun d => is_Some (str d)) (count_str s ds) /\
  (length (count_str s ds) <= length ds + 1)%nat.
Proof.
  induction 1 as [|d ds Hd Hs [IH1 IH2]]; cbn; [split; [repeat constructor; eauto|lia]|].
  case_decide; cbn; (split; [by constructor|lia]).
Qed.

Lemma add_strs_spec ss l xs :
  rep l xs -> cur_ok l xs -> Forall (fun d => is_Some (str d)) xs.*2 ->
  Z.of_nat (length xs + length ss) < two32 ->
  exists l' ys, add_strs ss l = Some l' /\ rep l' ys /\
    ys.*2 = foldl (fun ds s => count_str s ds) xs.*2 ss.
Proof.
  revert l xs. induction ss as [|s ss IH]; intros l xs Hr Hc Hs Hlen; [by exists l, xs|].
  cbn in Hlen. destruct (slist_add_loop_spec (S (nodes_of l)) l [] xs s Hr Hc)
    as (r & l1 & ys & E & Hr1 & Hc1 & Hys); [rewrite Forall_fmap in Hs; exact Hs|cbn; lia| |].
  { unfold nodes_of. rewrite (rep_size _ _ Hr). lia. }
  rewrite <-(lseg_head _ _ _ _ (r_list _ _ Hr)) in E.
  destruct (count_str_facts s xs.*2 Hs) as [Hf Hl]. rewrite <-Hys, !length_fmap in Hl.
  cbn [add_strs foldl slist_add_if_uniq]. rewrite E. cbn [mbind option_bind]. rewrite <-Hys in *.
  apply IH; [done|done|done|lia].
Qed.

(** ** What the list counts *)

Definition strings ds : list (option string) := str <$> ds.

Definition shits_of (s : string) ds : Z :=
  match list_find (fun d => str d = Some s) ds with Some (_, d) => shits d | None => 0 end.

Lemma shits_of_cons s d ds :
  shits_of s (d :: ds) = if decide (str d = Some s) then shits d else shits_of s ds.
Proof.
  unfold shits_of. cbn. case_decide; [done|]. by destruct (list_find _ ds) as [[]|].
Qed.

Lemma shits_of_count s t ds :
  0 <= shits_of s ds -> shits_of s ds + 1 < two32 ->
  shits_of t (count_str s ds) = shits_of t ds + (if decide (t = s) then 1 else 0).
Proof.
  induction ds as [|d ds IH]; cbn; intros H0 Hb.
  - rewrite shits_of_cons. cbn. unfold shits_of. cbn.
    repeat case_decide; try congruence; done.
  - rewrite shits_of_cons in H0, Hb. destruct (decide (str d = Some s)) as [E|Hne].
    + rewrite !shits_of_cons. cbn.
      destruct (decide (str d = Some t)), (decide (t = s)); try congruence; [|lia].
      apply u32_small. lia.
    + rewrite !shits_of_cons, (IH H0 Hb). repeat case_decide; try congruence; lia.
Qed.

(** The strings in the order they first came. *)
Fixpoint first_seen (seen : list (option string)) (ss : list string) : list (option string) :=
  match ss with
  | [] => seen
  | s :: ss => first_seen (if decide (Some s ∈ seen) then seen else seen ++ [Some s]) ss
  end.

Lemma strings_count s ds :
  strings (count_str s ds) = if decide (Some s ∈ strings ds) then strings ds else strings ds ++ [Some s].
Proof.
  induction ds as [|d ds IH].
  - rewrite decide_False; [done|]. apply not_elem_of_nil.
  - change (strings (d :: ds)) with (str d :: strings ds).
    cbn [count_str]. destruct (decide (str d = Some s)) as [E|E].
    + rewrite decide_True by (rewrite E; left). done.
    + change (strings (d :: count_str s ds)) with (str d :: strings (count_str s ds)). rewrite IH.
      destruct (decide (Some s ∈ strings ds)) as [Hin|Hin].
      * by rewrite decide_True by (by right).
      * rewrite decide_False; [done|]. intros [E'|E']%elem_of_cons; congruence.
Qed.

Definition soccurrences (s : string) (ss : list string) : Z :=
  Z.of_nat (length (filter (s =.) ss)).

(** After strings were added, the list holds each once, in the order they
    first came, with the number of times it was added. *)
Theorem slist_counts ss :
  Z.of_nat (length ss) < two32 ->
  exists l xs, add_strs ss slist_create = Some l /\ rep l xs /\
    strings xs.*2 = first_seen [] ss /\ forall s, shits_of s xs.*2 = soccurrences s ss.
Proof.
  intros Hlen. destruct (add_strs_spec ss slist_create [] rep_create) as (l & xs & E & Hr & Hxs);
    [done|constructor|done|].
  exists l, xs. rewrite Hxs. split; [done|]. split; [done|].
  change (foldl (fun ds s => count_str s ds) [].*2 ss) with (foldl (fun ds s => count_str s ds) [] ss).
  clear E Hr Hxs l xs.
  assert (forall ds, (forall s, 0 <= shits_of s ds /\ shits_of s ds + Z.of_nat (length ss) < two32) ->
    strings (foldl (fun ds s => count_str s ds) ds ss) = first_seen (strings ds) ss /\
    forall s, shits_of s (foldl (fun ds s => count_str s ds) ds ss)
      = shits_of s ds + soccurrences s ss) as Hgen.
  { clear Hlen. induction ss as [|t ss IH]; intros ds Hb; cbn [foldl first_seen].
    { split; [done|]. intros s. unfold soccurrences. cbn. lia. }
    assert (forall s, shits_of s (count_str t ds) = shits_of s ds + (if decide (s = t) then 1 else 0))
      as Hc.
    { intros s. apply shits_of_count; [apply Hb|]. destruct (Hb t) as [_ Ht]. cbn in Ht. lia. }
    destruct (IH (count_str t ds)) as [H1 H2].
    { intros s. rewrite Hc. destruct (Hb s) as [? Hs]. cbn in Hs. case_decide; lia. }
    split; [by rewrite H1, strings_count|]. intros s. rewrite H2, Hc.
    unfold soccurrences. rewrite filter_cons. repeat case_decide; cbn [length]; try congruence; lia. }
  destruct (Hgen []) as [H1 H2].
  { intros s. unfold shits_of. cbn. lia. }
  split; [done|]. intros s. rewrite H2. done.
Qed.

End slist.

(** ** Concrete inputs *)

Definition first_free {D} (h : gmap addr (node D)) : addr := fresh (dom h : gset addr).

Lemma first_free_fresh {D} (h : gmap addr (node D)) : h !! first_free h = None.
Proof.
  apply (not_elem_of_dom (D := gset addr)). unfold first_free.
  exact (is_fresh (C := gset addr) (dom h)).
Qed.

Lemma ilist_counts_witness :
  exists l xs, add_nums first_free [7; 3; 7] ilist_create = Some l /\ rep l xs /\
    StronglySorted low_to_high xs.*2 /\ forall n, hits_of n xs.*2 = occurrences n [7; 3; 7].
Proof. apply (ilist_counts first_free first_free_fresh [7; 3; 7]). vm_compute. reflexivity. Defined.

(** A list of two nodes, the second with more hits. *)
Definition two_nodes : ilist :=
  HL {[ 0%nat := Node (IntNode 3 1 0) (Some 1%nat); 1%nat := Node (IntNode 7 2 0) None ]}
    (Some 0%nat) (Some 1%nat) 2.

Lemma two_nodes_rep : rep two_nodes [(0%nat, IntNode 3 1 0); (1%nat, IntNode 7 2 0)].
Proof.
  split; cbn; [|repeat constructor; set_solver| |done].
  - split; [done|]. eexists. split; [by rewrite lookup_insert_eq|]. split; [done|].
    eexists. by split.
  - intros a. rewrite live_new. rewrite lookup_singleton_is_Some. set_solver.
Qed.

Lemma ilist_sorts_witness :
  exists l' ys, ilist_sort_by_hits two_nodes = Some l' /\ rep l' ys /\
    ys ≡ₚ [(0%nat, IntNode 3 1 0); (1%nat, IntNode 7 2 0)] /\
    StronglySorted (more_hits ihits) ys.*2.
Proof. apply (ilist_sorts two_nodes). apply two_nodes_rep. Defined.

Lemma slist_counts_witness :
  let ss := ["b"; "a"; "b"]%string in
  exists l xs, add_strs first_free ss slist_create = Some l /\ rep l xs /\
    strings xs.*2 = [Some "b"; Some "a"]%string /\
    forall s, shits_of s xs.*2 = soccurrences s ss.
Proof. intros ss. apply (slist_counts first_free first_free_fresh ss). vm_compute. reflexivity. Defined.

End HitListFacts.
