(* ===== verification/StrSplit.v ===== *)
(** * Splitting a line into words (src/common/strsplit.c)

    [audit_strsplit] and [audit_strsplit_r] cut the caller's buffer at its
    blanks, one word per call.  Both have the same body; the first keeps the
    place in a static variable, the second in the caller's. *)
From S2P Require Import Prelude CString.

Local Open Scope audit_scope.

Module StrSplit.

Abbreviation chars := (list ascii).

(** A buffer is its characters up to the end of the array, whose last one is a
    NUL; a pointer is an index.  [c_string]: the string a pointer is to. *)
Fixpoint until_nul (s : chars) : chars :=
  match s with
  | [] => []
  | c :: s => if c =c NUL then [] else c :: until_nul s
  end.
Definition c_string (buf : chars) (p : nat) : chars := until_nul (drop p buf).

(** [strchr(p, ' ')]; the pointer must not be behind the buffer. *)
Definition find_blank (buf : chars) (p : nat) : option (option nat) :=
  if decide (p < length buf)%nat
  then Some ((fun x => p + x.1)%nat <$> list_find (fun c => c = " "%char) (c_string buf p))
  else None.

(** The label [retry]: [saved] is the place to search from.  The result is the
    word, the buffer and the place; the outer [None] is a bad access. *)
Fixpoint retry (fuel : nat) (buf : chars) (saved : nat)
    : option (option nat * chars * option nat) :=
  match fuel with
  | O => None
  | S fuel =>
      ptr ← find_blank buf saved;
      match ptr with
      | Some ptr =>
          if decide (ptr = saved) then retry fuel buf (S saved)
          else Some (Some saved, <[ptr := NUL]> buf, Some ptr)
      | None =>
          Some (match c_string buf saved with [] => None | _ => Some saved end, buf, None)
      end
  end.

(** [s] is [None] for NULL. *)
Definition audit_strsplit_r (s : option nat) (buf : chars) (savedpp : option nat)
    : option (option nat * chars * option nat) :=
  match s, savedpp with
  | Some p, _ => retry (S (length buf)) buf p
  | None, None => Some (None, buf, None)
  | None, Some p => retry (S (length buf)) buf (S p)
  end.

(** [audit_strsplit]: the place is its static variable. *)
Definition audit_strsplit (s : option nat) (buf : chars) (str : option nat)
    : option (option nat * chars * option nat) := audit_strsplit_r s buf str.

(** The words a caller gets until NULL: the first call has the buffer, the
    others NULL. *)
Fixpoint split_all (fuel : nat) (s : option nat) (buf : chars) (saved : option nat)
    : option (list chars) :=
  match fuel with
  | O => None
  | S fuel =>
      '(w, buf, saved) ← audit_strsplit_r s buf saved;
      match w with
      | None => Some []
      | Some p => ws ← split_all fuel None buf saved; Some (c_string buf p :: ws)
      end
  end.

(** ** Words *)

(** The words of a text, [acc] being the word that is open. *)
Fixpoint words_from (acc : chars) (t : chars) : list chars :=
  let close := match acc with [] => [] | _ => [acc] end in
  match t with
  | [] => close
  | c :: t => if c =c " "%char then close ++ words_from [] t else words_from (acc ++ [c]) t
  end.
Definition words (t : chars) : list chars := words_from [] t.

Lemma until_nul_text t rest :
  NUL ∉ t -> until_nul (t ++ NUL :: rest) = t.
Proof.
  induction t as [|c t IH]; intros Hn; [done|]. apply not_elem_of_cons in Hn as [Hc Hn].
  cbn. destruct (c =c NUL) eqn:E; [apply char_eq_true in E; congruence|]. by rewrite IH.
Qed.

(** At a place of the buffer: what is left of the text, and behind it a NUL. *)
Definition at_place (buf : chars) (p : nat) (t : chars) : Prop :=
  exists rest, drop p buf = t ++ NUL :: rest /\ (NUL ∉ t).

Lemma at_place_string buf p t : at_place buf p t -> c_string buf p = t.
Proof. intros (rest & E & Hn). unfold c_string. rewrite E. by apply until_nul_text. Qed.

Lemma at_place_lt buf p t : at_place buf p t -> (p + length t < length buf)%nat.
Proof.
  intros (rest & E & _). apply (f_equal length) in E. rewrite length_drop, length_app in E.
  cbn in E. lia.
Qed.

Lemma at_place_cons buf p c t : at_place buf p (c :: t) -> at_place buf (S p) t.
Proof.
  intros (rest & E & Hn). exists rest. apply not_elem_of_cons in Hn as [_ Hn]. split; [|done].
  replace (S p) with (p + 1)%nat by lia. rewrite <-drop_drop, E. done.
Qed.

Lemma find_blank_spec buf p t :
  at_place buf p t ->
  find_blank buf p = Some ((fun x => p + x.1)%nat <$> list_find (fun c => c = " "%char) t).
Proof.
  intros Hp. unfold find_blank. rewrite (at_place_string _ _ _ Hp), decide_True; [done|].
  apply at_place_lt in Hp. lia.
Qed.

(** Cutting at the blank after [w] ends the word there and leaves the rest. *)
Lemma cut_place buf p w t :
  at_place buf p (w ++ " "%char :: t) ->
  c_string (<[(p + length w)%nat := NUL]> buf) p = w /\
  at_place (<[(p + length w)%nat := NUL]> buf) (S (p + length w)) t.
Proof.
  intros Hp. pose proof (at_place_lt _ _ _ Hp) as Hlt. rewrite length_app in Hlt. cbn in Hlt.
  destruct Hp as (rest & E & Hn). apply not_elem_of_app in Hn as [Hw Ht].
  apply not_elem_of_cons in Ht as [_ Ht].
  assert (drop p (<[(p + length w)%nat := NUL]> buf) = w ++ NUL :: t ++ NUL :: rest) as Ed.
  { rewrite drop_insert_ge by lia. replace (p + length w - p)%nat with (length w) by lia.
    rewrite E, <-app_assoc. cbn. by rewrite insert_app_r_alt, Nat.sub_diag by lia. }
  split.
  - unfold c_string. rewrite Ed. by apply until_nul_text.
  - exists rest. split; [|done].
    replace (S (p + length w)) with (p + S (length w))%nat by lia.
    rewrite <-drop_drop, Ed. replace (S (length w)) with (length w + 1)%nat by lia.
    rewrite <-drop_drop, drop_app_length. done.
Qed.

Lemma words_word acc w t :
  " "%char ∉ w -> acc ++ w <> [] ->
  words_from acc (w ++ " "%char :: t) = (acc ++ w) :: words t /\ words_from acc w = [acc ++ w].
Proof.
  revert acc. induction w as [|c w IH]; intros acc Hw Hne.
  - rewrite app_nil_r in *. cbn. by destruct acc.
  - apply not_elem_of_cons in Hw as [Hc Hw]. cbn.
    destruct (c =c " "%char) eqn:E; [apply char_eq_true in E; congruence|].
    destruct (IH (acc ++ [c]) Hw) as [-> ->]; [by destruct acc|].
    by rewrite <-app_assoc.
Qed.

(** One call: no word is left, or it cuts off the next one. *)
Lemma retry_spec fuel buf p t :
  at_place buf p t -> (length t < fuel)%nat ->
  (words t = [] /\ retry fuel buf p = Some (None, buf, None)) \/
  exists q buf' saved w ws, retry fuel buf p = Some (Some q, buf', saved) /\
    words t = w :: ws /\ c_string buf' q = w /\
    match saved with
    | None => ws = []
    | Some r => exists t', at_place buf' (S r) t' /\ words t' = ws /\ (length t' < length t)%nat
    end.
Proof.
  revert p t. induction fuel as [|fuel IH]; intros p t Hp Hf; [lia|].
  cbn [retry]. rewrite (find_blank_spec _ _ _ Hp). cbn [mbind option_bind].
  destruct (list_find (fun c => c = " "%char) t) as [[i c]|] eqn:Ef; cbn [fmap option_fmap option_map fst].
  - apply list_find_Some in Ef as (Hi & -> & Hb).
    pose proof (take_drop_middle _ _ _ Hi) as Et. set (w := take i t) in *.
    assert (length w = i) as Hl by (apply length_take_le; apply lookup_lt_Some in Hi; lia).
    assert (" "%char ∉ w) as Hw.
    { intros [j Hj]%list_elem_of_lookup. apply lookup_take_Some in Hj as [Hj Hlt]. by eapply Hb. }
    rewrite <-Et in Hp, Hf |- *. set (t' := drop (S i) t) in *. clearbody w t'.
    destruct (decide (p + i = p)%nat) as [E0|Hne].
    + assert (w = []) as -> by (apply length_zero_iff_nil; lia). cbn [app] in *.
      change (words (" "%char :: t')) with (words t').
      destruct (IH (S p) t') as [Hd|(q & buf' & sv & w & ws & E & Hws & Hcs & Hsv)];
        [by eapply at_place_cons|cbn in Hf; lia|by left|].
      right. exists q, buf', sv, w, ws. split_and!; try done. destruct sv as [r|]; [|done].
      destruct Hsv as (t'' & ? & ? & ?). exists t''. cbn. split_and!; [done..|lia].
    + right. destruct (cut_place _ _ _ _ Hp) as [Hcs Hpl]. rewrite Hl in Hcs, Hpl.
      destruct (words_word [] w t' Hw) as [Hws _]; [cbn; intros Ew; rewrite Ew in Hl; cbn in Hl; lia|].
      eexists p, _, (Some (p + i)%nat), w, (words t'). split; [done|]. split; [done|].
      split; [done|]. exists t'. split; [done|]. split; [done|]. rewrite length_app. cbn. lia.
  - apply list_find_None in Ef. rewrite (at_place_string _ _ _ Hp).
    destruct t as [|c t]; [by left|]. right.
    destruct (words_word [] (c :: t) []) as [_ Hws]; [|done|].
    { intros Hin. rewrite Forall_forall in Ef. by apply (Ef _ Hin). }
    eexists p, buf, None, (c :: t), []. split; [done|]. split; [done|].
    split; [by apply at_place_string|done].
Qed.

Lemma split_all_spec fuel buf p t s saved :
  at_place buf p t -> (length t < fuel)%nat ->
  audit_strsplit_r s buf saved = retry (S (length buf)) buf p ->
  split_all fuel s buf saved = Some (words t).
Proof.
  revert buf p t s saved. induction fuel as [|fuel IH]; intros buf p t s saved Hp Hf Hs; [lia|].
  cbn [split_all]. rewrite Hs. pose proof (at_place_lt _ _ _ Hp) as Hlt.
  destruct (retry_spec (S (length buf)) buf p t Hp) as [[Hw E]|Hr]; [lia| |].
  { rewrite E. cbn. by rewrite Hw. }
  destruct Hr as (q & buf' & sv & w & ws & E & Hw & Hcs & Hsv). rewrite E. cbn [mbind option_bind].
  assert (split_all fuel None buf' sv = Some ws) as ->.
  { destruct sv as [r|].
    - destruct Hsv as (t' & Hp' & <- & Hl). apply (IH buf' (S r)); [done|lia|done].
    - subst ws. destruct fuel as [|fuel]; [|done]. destruct t; [done|cbn in Hf; lia]. }
  cbn. by rewrite Hcs, Hw.
Qed.

(** Calling [audit_strsplit] on a line until it returns NULL gives the words
    of the line, in order, without the blanks between them. *)
Theorem strsplit_words t :
  NUL ∉ t -> split_all (S (length t)) (Some 0%nat) (t ++ [NUL]) None = Some (words t).
Proof.
  intros Hn. apply (split_all_spec _ _ 0); [|lia|done]. by exists [].
Qed.

Lemma strsplit_words_witness :
  split_all 8 (Some 0%nat) [" "; "a"; " "; " "; "b"; "c"; " "; NUL]%char None
  = Some [["a"]; ["b"; "c"]]%char.
Proof.
  apply (strsplit_words [" "; "a"; " "; " "; "b"; "c"; " "]%char).
  intros H. repeat (apply elem_of_cons in H as [H|H]; [discriminate H|]).
  by apply not_elem_of_nil in H.
Defined.

End StrSplit.
