(* ===== verification/Fgets.v ===== *)
(** * Reading lines from a descriptor (src/common/audit-fgets.c)

    A line reader with a static buffer, used by the plugins: bytes are read as
    they come and handed out as lines, or as chunks when a line is too long. *)
From S2P Require Import Prelude CString.

Local Open Scope audit_scope.

Module Fgets.

Abbreviation chars := (list ascii).

Definition BUF_SIZE : nat := 2 ^ 13.
#[local] Opaque BUF_SIZE.

(** The static variables: the bytes from [buffer] to [current], behind which
    there always is a NUL, and [eof]. *)
Record state := State {
  buffer : chars;
  eof : bool;
}.

Definition start : state := State [] false.

(** What the calls of read() return, one after the other. *)
Inductive read_result := Data (bs : chars) | Interrupted | Failed.

(** [strchr(buffer, '\n')]: it does not look behind a NUL. *)
Fixpoint find_newline (s : chars) : option nat :=
  match s with
  | [] => None
  | c :: s => if c =c NUL then None
              else if c =c LF then Some 0%nat else S <$> find_newline s
  end.

Definition audit_fgets_eof (s : state) : bool := eof s.

Definition audit_fgets_more (blen : nat) (s : state) : bool :=
  match find_newline (buffer s) with
  | Some _ => true
  | None => bool_decide (blen - 1 <= length (buffer s))%nat
  end.

(** The loop on EINTR.  read() returns at most as many bytes as asked for, the
    rest come later; behind the last result it is at the end of the file. *)
Fixpoint read (room : nat) (reads : list read_result) : option chars * list read_result :=
  match reads with
  | [] => (Some [], [])
  | Interrupted :: reads => read room reads
  | Failed :: reads => (None, reads)
  | Data bs :: reads =>
      (Some (take room bs),
       match drop room bs with [] => reads | later => Data later :: reads end)
  end.

(** The result of one call: the return value, the line and the new state. *)
Record outcome := Outcome { ret : Z; line : chars; after : state; rest : list read_result }.

(** The second half, from "See what we have": [line_end] is the place of the
    last character. *)
Definition take_line (blen : nat) (line_end : option nat) (s : state) : nat * bool :=
  match line_end with
  | Some e => (S e `min` (blen - 1), true)%nat
  | None =>
      if decide (length (buffer s) = 2 * BUF_SIZE)%nat then (blen - 1, true)%nat
      else if decide (blen - 1 <= length (buffer s))%nat then (blen - 1, true)%nat
      else (0%nat, false)
  end.

Definition deliver (blen : nat) (line_end : option nat) (s : state)
    (reads : list read_result) : option outcome :=
  let (line_len, complete) := take_line blen line_end s in
  if complete then
    if decide (line_len <= length (buffer s))%nat
    then Some (Outcome 1 (take line_len (buffer s))
                 (State (drop line_len (buffer s)) (eof s)) reads)
    else None
  else Some (Outcome 0 [] s reads).

(** [None]: an access behind the buffer. *)
Definition audit_fgets (blen : nat) (s : state) (reads : list read_result) : option outcome :=
  let line_end :=
    match buffer s with
    | [] => None
    | _ => match find_newline (buffer s) with
           | Some e => Some e
           | None => if decide (blen - 1 <= length (buffer s))%nat
                     then Some (length (buffer s) - 1)%nat else None
           end
    end in
  match line_end with
  | Some _ => deliver blen line_end s reads
  | None =>
      if bool_decide (length (buffer s) <> 2 * BUF_SIZE)%nat && negb (eof s) then
        let (r, reads) := read (2 * BUF_SIZE - length (buffer s)) reads in
        match r with
        | None => Some (Outcome (-1) [] s reads)
        | Some bs =>
            let s := State (buffer s ++ bs) (match bs with [] => true | _ => eof s end) in
            deliver blen (find_newline (buffer s)) s reads
        end
      else deliver blen None s reads
  end.

(** ** Properties *)

(** The bytes that a script delivers. *)
Definition bytes_of (reads : list read_result) : chars :=
  concat ((fun r => match r with Data bs => bs | _ => [] end) <$> reads).

(** A size of the caller's buffer that the static one can fill. *)
Definition size_ok (blen : nat) : Prop := (2 <= blen <= 2 * BUF_SIZE + 1)%nat.

Definition ok (s : state) : Prop := (length (buffer s) <= 2 * BUF_SIZE)%nat /\ NUL ∉ buffer s.

(** A line: up to a newline, its only one, or as much as fits. *)
Definition is_line (blen : nat) (l : chars) : Prop :=
  (0 < length l <= blen - 1)%nat /\
  ((exists t, l = t ++ [LF] /\ LF ∉ t) \/ length l = (blen - 1)%nat /\ LF ∉ l).

Lemma find_newline_Some s e :
  find_newline s = Some e -> s !! e = Some LF /\ LF ∉ take e s.
Proof.
  revert e. induction s as [|c s IH]; intros e; cbn; [done|].
  destruct (c =c NUL); [done|]. destruct (c =c LF) eqn:E.
  - apply char_eq_true in E as ->. intros [= <-]. split; [done|]. apply not_elem_of_nil.
  - intros (e' & He & ->)%fmap_Some. destruct (IH _ He) as [H1 H2]. split; [done|]. cbn.
    apply not_elem_of_cons. split; [|done]. intros <-. by rewrite Ascii.eqb_refl in E.
Qed.

Lemma find_newline_None s : NUL ∉ s -> find_newline s = None -> LF ∉ s.
Proof.
  induction s as [|c s IH]; intros Hn Hf; [apply not_elem_of_nil|].
  apply not_elem_of_cons in Hn as [Hc Hn]. cbn in Hf.
  destruct (c =c NUL) eqn:En; [apply char_eq_true in En; congruence|].
  destruct (c =c LF) eqn:E; [done|]. apply fmap_None in Hf.
  apply not_elem_of_cons. split; [|by apply IH]. intros <-. by rewrite Ascii.eqb_refl in E.
Qed.

Lemma notin_take (c : ascii) (l : chars) n m : (n <= m)%nat -> c ∉ take m l -> c ∉ take n l.
Proof.
  intros Hle Hn Hin. apply Hn. replace (take n l) with (take n (take m l)) in Hin.
  - rewrite <-(take_drop n (take m l)). apply elem_of_app. by left.
  - rewrite take_take. f_equal. lia.
Qed.

(** What one call hands out: the start [line] of the buffer [buf]. *)
Definition delivers (blen : nat) (buf : chars) (e : bool) (reads : list read_result)
    (o : outcome) : Prop :=
  ok (after o) /\ rest o = reads /\ buf = line o ++ buffer (after o) /\ eof (after o) = e /\
  (ret o = 1 /\ is_line blen (line o) \/
   ret o = 0 /\ line o = [] /\ (LF ∉ buf) /\ (length buf < blen - 1)%nat).

Lemma deliver_prefix blen n s reads :
  ok s -> (0 < n <= blen - 1)%nat -> (n <= length (buffer s))%nat ->
  ((exists t, take n (buffer s) = t ++ [LF] /\ LF ∉ t) \/
   n = (blen - 1)%nat /\ LF ∉ take n (buffer s)) ->
  exists o, (if decide (n <= length (buffer s))%nat
     then Some (Outcome 1 (take n (buffer s)) (State (drop n (buffer s)) (eof s)) reads)
     else None) = Some o /\ delivers blen (buffer s) (eof s) reads o.
Proof.
  intros [Hlen Hnul] Hn Hnb Hl. rewrite decide_True by done. eexists. split; [done|].
  assert (length (take n (buffer s)) = n) as Ht by (by apply length_take_le).
  split_and!; try done; cbn.
  - split; cbn; [rewrite length_drop; lia|]. intros Hin. apply Hnul.
    rewrite <-(take_drop n (buffer s)). apply elem_of_app. by right.
  - by rewrite take_drop.
  - left. split; [done|]. split; [lia|]. rewrite Ht. destruct Hl as [?|[-> ?]]; [by left|by right].
Qed.

(** The place [e] is the first newline, or there is none and the data are
    enough. *)
Lemma deliver_spec blen e s reads :
  size_ok blen -> ok s ->
  match e with
  | Some i => (i < length (buffer s))%nat /\
     ((buffer s !! i = Some LF /\ LF ∉ take i (buffer s)) \/
      ((blen - 1 <= S i)%nat /\ LF ∉ buffer s))
  | None => LF ∉ buffer s
  end ->
  exists o, deliver blen e s reads = Some o /\ delivers blen (buffer s) (eof s) reads o.
Proof.
  intros Hb Hok He. pose proof Hok as [Hlen Hnul]. unfold size_ok in Hb.
  unfold deliver, take_line. destruct e as [i|].
  - destruct He as [Hi Hcase]. apply deliver_prefix; [done|lia|lia|].
    destruct (decide (blen - 1 < S i)%nat) as [Hlt|Hge].
    + right. split; [lia|]. destruct Hcase as [[_ Hn]|[_ Hn]].
      * eapply notin_take; [|exact Hn]. lia.
      * eapply (notin_take _ _ _ (length (buffer s))); [lia|]. by rewrite take_ge.
    + replace (S i `min` (blen - 1))%nat with (S i) by lia.
      destruct Hcase as [[HL Hn]|[Hle Hn]].
      * left. exists (take i (buffer s)). by rewrite (take_S_r _ _ _ HL).
      * right. split; [lia|]. eapply (notin_take _ _ _ (length (buffer s))); [lia|].
        by rewrite take_ge.
  - assert (forall n, LF ∉ take n (buffer s)) as Hsub.
    { intros n Hin. apply He. rewrite <-(take_drop n (buffer s)). apply elem_of_app. by left. }
    destruct (decide (length (buffer s) = 2 * BUF_SIZE)%nat).
    { apply deliver_prefix; [done|lia|lia|by right]. }
    destruct (decide (blen - 1 <= length (buffer s))%nat).
    { apply deliver_prefix; [done|lia|lia|by right]. }
    eexists. split; [done|]. split_and!; try done. right. cbn. split_and!; try done. lia.
Qed.

Lemma read_spec room reads r reads' :
  read room reads = (r, reads') ->
  bytes_of reads = default [] r ++ bytes_of reads' /\ (length (default [] r) <= room)%nat.
Proof.
  induction reads as [|[d| |] reads IH]; cbn; [intros [= <- <-]|intros [= <- <-]|done|intros [= <- <-]];
    cbn; try (split; [done|lia]).
  split; [|rewrite length_take; lia]. rewrite <-(take_drop room d) at 1.
  rewrite <-app_assoc. f_equal. by destruct (drop room d).
Qed.

(** One call keeps every byte: what was in the buffer and what it read is what
    it hands out, followed by what is in the buffer then. *)
Lemma fgets_spec blen s reads :
  size_ok blen -> ok s -> NUL ∉ bytes_of reads ->
  exists o, audit_fgets blen s reads = Some o /\
  ok (after o) /\ (NUL ∉ bytes_of (rest o)) /\
  buffer s ++ bytes_of reads = line o ++ buffer (after o) ++ bytes_of (rest o) /\
  (ret o = 1 /\ is_line blen (line o) \/ ret o <> 1 /\ line o = []).
Proof.
  intros Hb Hok Hn. pose proof Hok as [Hlen Hnul]. unfold audit_fgets.
  assert (forall e s' reads', ok s' -> buffer s ++ bytes_of reads = buffer s' ++ bytes_of reads' ->
    match e with
    | Some i => (i < length (buffer s'))%nat /\
       ((buffer s' !! i = Some LF /\ LF ∉ take i (buffer s')) \/
        ((blen - 1 <= S i)%nat /\ LF ∉ buffer s'))
    | None => LF ∉ buffer s'
    end -> NUL ∉ bytes_of reads' -> exists o, deliver blen e s' reads' = Some o /\
    ok (after o) /\ (NUL ∉ bytes_of (rest o)) /\
    buffer s ++ bytes_of reads = line o ++ buffer (after o) ++ bytes_of (rest o) /\
    (ret o = 1 /\ is_line blen (line o) \/ ret o <> 1 /\ line o = [])) as Hdel.
  { intros e s' reads' Hok' Eb He Hn'.
    destruct (deliver_spec blen e s' reads' Hb Hok' He) as (o & E & (H1 & H2 & H3 & _ & H5)).
    exists o. split; [done|]. rewrite H2, Eb, H3, <-app_assoc. split_and!; try done.
    destruct H5 as [?|(-> & -> & _)]; [by left|by right]. }
  set (line_end := match buffer s with [] => None | _ => _ end).
  assert (match line_end with
    | Some i => (i < length (buffer s))%nat /\
       ((buffer s !! i = Some LF /\ LF ∉ take i (buffer s)) \/
        ((blen - 1 <= S i)%nat /\ LF ∉ buffer s))
    | None => LF ∉ buffer s
    end) as Hle.
  { subst line_end. destruct (buffer s) as [|c b] eqn:Eb; [apply not_elem_of_nil|].
    rewrite <-Eb in *. assert (0 < length (buffer s))%nat by (rewrite Eb; cbn; lia).
    destruct (find_newline (buffer s)) as [e|] eqn:Ef.
    - destruct (find_newline_Some _ _ Ef). split; [by eapply lookup_lt_Some|by left].
    - pose proof (find_newline_None _ Hnul Ef). case_decide; [|done].
      split; [lia|]. right. split; [lia|done]. }
  destruct line_end as [e|] eqn:El; [by apply Hdel|].
  destruct (bool_decide _ && negb (eof s)); [|by apply Hdel].
  destruct (read _ reads) as [r reads'] eqn:E. apply read_spec in E as [Eb Hr].
  rewrite Eb in Hn. apply not_elem_of_app in Hn as [Hn1 Hn2]. destruct r as [bs|]; cbn in Eb, Hr, Hn1.
  - apply Hdel; cbn.
    + split; cbn; [rewrite length_app; lia|]. apply not_elem_of_app. done.
    + by rewrite Eb, app_assoc.
    + destruct (find_newline (buffer s ++ bs)) as [e|] eqn:Ef.
      * destruct (find_newline_Some _ _ Ef). split; [by eapply lookup_lt_Some|by left].
      * apply find_newline_None; [|done]. apply not_elem_of_app. done.
    + done.
  - eexists. split; [done|]. cbn [after rest line ret]. rewrite Eb. split_and!; try done. by right.
Qed.

(** The lines of a sequence of calls with the same size. *)
Fixpoint lines (n : nat) (blen : nat) (s : state) (reads : list read_result)
    : option (list chars * state * list read_result) :=
  match n with
  | O => Some ([], s, reads)
  | S n =>
      o ← audit_fgets blen s reads;
      '(ls, s, reads) ← lines n blen (after o) (rest o);
      Some (if ret o =? 1 then line o :: ls else ls, s, reads)
  end.

Lemma lines_spec n blen s0 reads :
  size_ok blen -> ok s0 -> NUL ∉ bytes_of reads ->
  exists ls s reads', lines n blen s0 reads = Some (ls, s, reads') /\
    buffer s0 ++ bytes_of reads = concat ls ++ buffer s ++ bytes_of reads' /\
    Forall (is_line blen) ls.
Proof.
  intros Hb. revert s0 reads. induction n as [|n IH]; intros s0 reads Hok Hn; cbn [lines].
  { exists [], s0, reads. split_and!; [done..|constructor]. }
  destruct (fgets_spec blen s0 reads Hb Hok Hn) as (o & -> & Hok' & Hn' & Eb & Hr).
  cbn [mbind option_bind].
  destruct (IH _ _ Hok' Hn') as (ls & s & reads' & -> & Eb1 & Hls). cbn [mbind option_bind].
  rewrite Eb, Eb1. destruct Hr as [[-> Hl]|[Hr ->]]; cbn.
  - eexists (line o :: ls), s, reads'. split; [done|]. split; [by rewrite app_assoc|by constructor].
  - apply Z.eqb_neq in Hr. rewrite Hr. by exists ls, s, reads'.
Qed.

(** C37: no byte is lost, repeated or moved, and no access leaves the buffer:
    after any number of calls, the lines handed out, the buffer and what is
    still to be read are the bytes of the input, in order; and each line is
    one. *)
Theorem fgets_stream n blen reads :
  size_ok blen -> NUL ∉ bytes_of reads ->
  exists ls s reads', lines n blen start reads = Some (ls, s, reads') /\
    bytes_of reads = concat ls ++ buffer s ++ bytes_of reads' /\ Forall (is_line blen) ls.
Proof.
  intros Hb Hn. apply (lines_spec n blen start); [done| |done].
  split; [cbn; lia|apply not_elem_of_nil].
Qed.

(** When [audit_fgets_more] says so, [audit_fgets] hands out a line without
    reading. *)
Theorem more_gives_line blen s reads :
  size_ok blen -> ok s -> audit_fgets_more blen s = true ->
  exists o, audit_fgets blen s reads = Some o /\ ret o = 1 /\ rest o = reads /\
    is_line blen (line o).
Proof.
  intros Hb Hok Hm. pose proof Hok as [Hlen Hnul]. unfold audit_fgets, audit_fgets_more in *.
  assert (exists e, (match buffer s with [] => None | _ =>
      match find_newline (buffer s) with
      | Some e => Some e
      | None => if decide (blen - 1 <= length (buffer s))%nat
                then Some (length (buffer s) - 1)%nat else None end end) = Some e /\
      (e < length (buffer s))%nat /\
      ((buffer s !! e = Some LF /\ LF ∉ take e (buffer s)) \/
       ((blen - 1 <= S e)%nat /\ LF ∉ buffer s))) as (e & -> & He).
  { unfold size_ok in Hb. destruct (find_newline (buffer s)) as [e|] eqn:Ef.
    - destruct (find_newline_Some _ _ Ef). exists e. split; [by destruct (buffer s)|].
      split; [by eapply lookup_lt_Some|by left].
    - apply bool_decide_eq_true in Hm. pose proof (find_newline_None _ Hnul Ef).
      exists (length (buffer s) - 1)%nat. rewrite decide_True by done.
      split; [destruct (buffer s); [cbn in Hm; lia|done]|]. split; [lia|]. right. split; [lia|done]. }
  destruct (deliver_spec blen (Some e) s reads Hb Hok He) as (o & E & (_ & H2 & _ & _ & H5)).
  exists o. split; [done|]. destruct H5 as [[? ?]|(_ & _ & Hn & Hl)]; [done|].
  destruct He as [He [[HL _]|[Hle _]]]; [|lia]. exfalso. apply Hn. by eapply list_elem_of_lookup_2.
Qed.

(** ** Concrete inputs *)

Definition two_reads : list read_result :=
  [Data ["a"; LF; "b"]%char; Interrupted; Data ["c"; LF]%char].

Lemma fgets_stream_witness :
  exists ls s reads', lines 2 10 start two_reads = Some (ls, s, reads') /\
    bytes_of two_reads = concat ls ++ buffer s ++ bytes_of reads' /\ Forall (is_line 10) ls.
Proof.
  apply (fgets_stream 2 10 two_reads).
  - unfold size_ok. split; [lia|]. apply (Nat.leb_le 10). vm_compute. reflexivity.
  - intros H. repeat (apply elem_of_cons in H as [H|H]; [discriminate H|]).
    by apply not_elem_of_nil in H.
Defined.

Lemma more_gives_line_witness :
  exists o, audit_fgets 10 (State ["a"; LF; "b"]%char false) [] = Some o /\ ret o = 1 /\
    rest o = [] /\ is_line 10 (line o).
Proof.
  apply (more_gives_line 10 (State ["a"; LF; "b"]%char false) []).
  - unfold size_ok. split; [lia|]. apply (Nat.leb_le 10). vm_compute. reflexivity.
  - split; [apply (Nat.leb_le 3); vm_compute; reflexivity|].
    intros H. repeat (apply elem_of_cons in H as [H|H]; [discriminate H|]).
    by apply not_elem_of_nil in H.
  - reflexivity.
Defined.

End Fgets.
