(* ===== verification/SearchTime.v ===== *)
(** * The time window of a search (src/src/ausearch-time.c, ausearch-time.h)

    The arguments of --start and --end: a date or a keyword, and a time of day.
    The clock and the calendar are the C library's, behind the class
    [Calendar]. *)
From S2P Require Import Prelude CString.

Local Open Scope string_scope.
Local Open Scope Z_scope.
Local Open Scope audit_scope.

Module SearchTime.

(** [struct tm], the fields the code uses. *)
Record tm := Tm {
  tm_sec : Z;
  tm_min : Z;
  tm_hour : Z;
  tm_mday : Z;
  tm_mon : Z;
  tm_year : Z;
  tm_wday : Z;
  tm_yday : Z;
  tm_isdst : Z;
}.

Inductive keyword :=
  | T_NOW | T_RECENT | T_BOOT | T_TODAY | T_YESTERDAY | T_THIS_WEEK | T_WEEK_AGO
  | T_THIS_MONTH | T_THIS_YEAR.

#[global] Instance keyword_eq_dec : EqDecision keyword.
Proof. solve_decision. Defined.

Definition SECONDS_IN_DAY : Z := 24 * 60 * 60.

(** time(NULL), localtime(), mktime(), which also normalises its argument, the
    formats %x and %X of strptime() with the text they leave, and the seconds
    of /proc/uptime, [None] if they cannot be read. *)
Class Calendar := {
  now : Z;
  localtime : Z -> tm;
  mktime : tm -> Z * tm;
  strptime_date : string -> tm -> option (tm * string);
  strptime_time : string -> tm -> option (tm * string);
  uptime : option Z;
}.

Definition timetab : list (keyword * string) :=
  [(T_NOW, "now"); (T_RECENT, "recent"); (T_BOOT, "boot"); (T_TODAY, "today");
   (T_YESTERDAY, "yesterday"); (T_THIS_WEEK, "this-week"); (T_WEEK_AGO, "week-ago");
   (T_THIS_MONTH, "this-month"); (T_THIS_YEAR, "this-year")].

(** [None] for -1. *)
Fixpoint lookup_in (tab : list (keyword * string)) (name : string) : option keyword :=
  match tab with
  | [] => None
  | (k, n) :: tab => if str_eq n name then Some k else lookup_in tab name
  end.
Definition lookup_time (name : string) : option keyword := lookup_in timetab name.

Definition clear_tm (t : tm) : tm := Tm 0 0 0 0 0 0 (tm_wday t) (tm_yday t) 0.

(** The time in [t1] is replaced by [t2], the date in [t1] is replaced by [t2]. *)
Definition replace_time (t1 t2 : tm) : tm :=
  Tm (tm_sec t2) (tm_min t2) (tm_hour t2) (tm_mday t1) (tm_mon t1) (tm_year t1)
    (tm_wday t1) (tm_yday t1) (tm_isdst t1).
Definition replace_date (t1 t2 : tm) : tm :=
  Tm (tm_sec t1) (tm_min t1) (tm_hour t1) (tm_mday t2) (tm_mon t2) (tm_year t2)
    (tm_wday t2) (tm_yday t2) (tm_isdst t2).

(** The assignments of zero to the seconds, minutes and hours. *)
Definition zero_time (t : tm) : tm :=
  Tm 0 0 0 (tm_mday t) (tm_mon t) (tm_year t) (tm_wday t) (tm_yday t) (tm_isdst t).

Definition set_mday (n : Z) (t : tm) : tm :=
  Tm (tm_sec t) (tm_min t) (tm_hour t) n (tm_mon t) (tm_year t) (tm_wday t) (tm_yday t) (tm_isdst t).

Section time.
Context `{Calendar}.

Definition set_tm_now (d : tm) : tm :=
  let tv := localtime now in replace_date (replace_time d tv) tv.

Definition set_tm_today (d : tm) : tm := replace_date (zero_time d) (localtime now).

Definition set_tm_yesterday (d : tm) : tm :=
  replace_date (zero_time d) (localtime (now - SECONDS_IN_DAY)).

Definition set_tm_recent (d : tm) : tm :=
  let tv := localtime (now - 10 * 60) in replace_date (replace_time d tv) tv.

(** [None] for -1. *)
Definition set_tm_boot (d : tm) : option tm :=
  match uptime with
  | None => None
  | Some up => let tv := localtime (now - up) in Some (replace_date (replace_time d tv) tv)
  end.

Definition set_tm_this_week (d : tm) : tm :=
  replace_date (zero_time d) (localtime (now - tm_wday (localtime now) * SECONDS_IN_DAY)).

Definition set_tm_week_ago (d : tm) : tm :=
  replace_date (zero_time d) (localtime (now - 7 * SECONDS_IN_DAY)).

Definition set_tm_this_month (d : tm) : tm :=
  set_mday 1 (replace_date (zero_time d) (localtime now)).

Definition set_tm_this_year (d : tm) : tm :=
  let d := set_mday 1 (replace_date (zero_time d) (localtime now)) in
  Tm (tm_sec d) (tm_min d) (tm_hour d) (tm_mday d) 0 (tm_year d) (tm_wday d) (tm_yday d) 0.

(** [None] for a negative result: no keyword, or no uptime. *)
Definition lookup_and_set_time (da : string) (d : tm) : option tm :=
  match lookup_time da with
  | None => None
  | Some T_NOW => Some (set_tm_now d)
  | Some T_RECENT => Some (set_tm_recent d)
  | Some T_BOOT => set_tm_boot d
  | Some T_TODAY => Some (set_tm_today d)
  | Some T_YESTERDAY => Some (set_tm_yesterday d)
  | Some T_THIS_WEEK => Some (set_tm_this_week d)
  | Some T_WEEK_AGO => Some (set_tm_week_ago d)
  | Some T_THIS_MONTH => Some (set_tm_this_month d)
  | Some T_THIS_YEAR => Some (set_tm_this_year d)
  end.

(** The global variables. *)
Record window := Window { start_time : Z; end_time : Z }.

(** The time of day as it is given to strptime(): hours and minutes alone get
    their seconds; longer text is cut to the local buffer. *)
Definition time_text (ti : string) : string :=
  if decide (String.length ti <= 5)%nat then ti +:+ ":00" else prefix_of 63 ti.

Definition midnight_or_none (ti : option string) : bool :=
  match ti with None => true | Some s => str_eq s "00:00:00" end.

Definition exact_keyword (k : option keyword) : bool :=
  match k with Some (T_RECENT | T_NOW | T_BOOT) => true | _ => false end.

(** [set_it]: the conversion, with the return code. *)
Definition set_start (d : tm) (w : window) : Z * window :=
  let t := fst (mktime d) in (if t =? -1 then -1 else 0, Window t (end_time w)).
Definition set_end (d : tm) (w : window) : Z * window :=
  let t := fst (mktime d) in (if t =? -1 then -1 else 0, Window (start_time w) t).

(** The date part that both functions share: a failure, or the fields and
    whether strptime() read them, when mktime() has been called on them. *)
Definition parse_date (da : string) (d : tm) : option (tm * option Z) :=
  match lookup_and_set_time da d with
  | Some d => Some (d, None)
  | None =>
      match strptime_date da d with
      | Some (d, "") => let (t, d) := mktime d in Some (d, Some t)
      | _ => None
      end
  end.

(** The time part: [None] for the return code 1. *)
Definition parse_time (ti : string) (d : tm) : option tm :=
  match strptime_time (time_text ti) d with
  | Some (d, "") => Some d
  | _ => None
  end.

(** [stack] is what the local variable [d] held. *)
Definition ausearch_time_start (stack : tm) (da ti : option string) (w : window)
    : Z * window :=
  let d := clear_tm stack in
  let time d w :=
    let d' := match ti with None => Some (clear_tm d) | Some ti => parse_time ti d end in
    match d' with
    | None => (1, w)
    | Some d => if tm_year d <? 104 then (-1, w) else set_start d w
    end in
  match da with
  | None => time (set_tm_now d) w
  | Some da =>
      match parse_date da d with
      | None => (1, w)
      | Some (d, Some t) => time d (Window t (end_time w))
      | Some (d, None) =>
          if exact_keyword (lookup_time da) && midnight_or_none ti then set_start d w
          else time d w
      end
  end.

Definition ausearch_time_end (stack : tm) (da ti : option string) (w : window)
    : Z * window :=
  let d := clear_tm stack in
  let time d w :=
    let d' :=
      match ti with
      | None =>
          let tv := localtime now in
          Some (Tm (tm_sec tv) (tm_min tv) (tm_hour tv) (tm_mday d) (tm_mon d) (tm_year d)
                  (tm_wday d) (tm_yday d) (tm_isdst tv))
      | Some ti => parse_time ti d
      end in
    match d' with
    | None => (1, w)
    | Some d => if tm_year d <? 104 then (-1, w) else set_end d w
    end in
  match da with
  | None => time (set_tm_now d) w
  | Some da =>
      match parse_date da d with
      | None => (1, w)
      | Some (d, Some t) => time d (Window (start_time w) t)
      | Some (d, None) =>
          if exact_keyword (lookup_time da) && midnight_or_none ti then set_end d w
          else if bool_decide (lookup_time da = Some T_TODAY) then
            let d := set_tm_now d in
            if midnight_or_none ti then set_end d w else time d w
          else time d w
      end
  end.

(** ** Properties *)

(** The day a keyword stands for. *)
Definition day_of (k : keyword) : option tm :=
  let ago n := localtime (now - n) in
  let today := localtime now in
  match k with
  | T_TODAY => Some today
  | T_YESTERDAY => Some (ago SECONDS_IN_DAY)
  | T_THIS_WEEK => Some (ago (tm_wday today * SECONDS_IN_DAY))
  | T_WEEK_AGO => Some (ago (7 * SECONDS_IN_DAY))
  | T_THIS_MONTH => Some (set_mday 1 today)
  | T_THIS_YEAR =>
      Some (Tm (tm_sec today) (tm_min today) (tm_hour today) 1 0 (tm_year today) (tm_wday today)
              (tm_yday today) 0)
  | _ => None
  end.

(** [strptime] reads midnight. *)
Definition reads_midnight : Prop :=
  forall d, strptime_time "00:00:00" d = Some (zero_time d, "").

Lemma lookup_and_set_day da k stack day :
  lookup_time da = Some k -> day_of k = Some day ->
  lookup_and_set_time da (clear_tm stack) = Some (zero_time day).
Proof.
  intros Hk Hd. unfold lookup_and_set_time. rewrite Hk.
  destruct k; cbn in Hd; try done; by injection Hd as <-.
Qed.

(** With a keyword for a day, and midnight as the options give it, the
    search starts at midnight of that day: today, yesterday, the first day of
    this week, seven days ago, the first of this month or of this year. *)
Theorem start_of_day stack da k day w :
  reads_midnight -> lookup_time da = Some k -> day_of k = Some day -> 104 <= tm_year day ->
  ausearch_time_start stack (Some da) (Some "00:00:00") w = set_start (zero_time day) w.
Proof.
  intros Hm Hk Hd Hy. unfold ausearch_time_start, parse_date.
  rewrite (lookup_and_set_day _ _ _ _ Hk Hd), Hk.
  replace (exact_keyword (Some k)) with false by (by destruct k). cbn [andb].
  unfold parse_time, time_text. rewrite decide_False by (cbn; lia).
  change (prefix_of 63 "00:00:00") with "00:00:00". rewrite Hm.
  change (zero_time (zero_time day)) with (zero_time day).
  cbn [tm_year zero_time]. destruct (Z.ltb_spec (tm_year day) 104); [lia|done].
Qed.

(** A start without a time of day is an error whatever the date is, unless
    it is one of the keywords now, recent and boot: the code clears the date
    with the time, where its comment promises midnight. *)
Theorem start_without_time_fails stack da w :
  (forall k, da = Some k -> exact_keyword (lookup_time k) = false) ->
  fst (ausearch_time_start stack da None w) <> 0.
Proof.
  intros Hk. unfold ausearch_time_start. destruct da as [da|]; [|done].
  destruct (parse_date da (clear_tm stack)) as [[d [t|]]|]; try done.
  by rewrite (Hk da eq_refl).
Qed.

(** An end without a time of day is the date given, at the present time of
    day; the keyword today means now. *)
Theorem end_without_time stack da k day w :
  lookup_time da = Some k -> day_of k = Some day -> 104 <= tm_year day ->
  ausearch_time_end stack (Some da) None w
  = set_end (if bool_decide (k = T_TODAY) then set_tm_now (zero_time day)
             else let tv := localtime now in
                  Tm (tm_sec tv) (tm_min tv) (tm_hour tv) (tm_mday day) (tm_mon day) (tm_year day)
                    (tm_wday day) (tm_yday day) (tm_isdst tv)) w.
Proof.
  intros Hk Hd Hy. unfold ausearch_time_end, parse_date.
  rewrite (lookup_and_set_day _ _ _ _ Hk Hd), Hk.
  replace (exact_keyword (Some k)) with false by (by destruct k). cbn [andb midnight_or_none].
  destruct (decide (k = T_TODAY)) as [->|Hne].
  - by rewrite !bool_decide_true.
  - rewrite !bool_decide_false by congruence. cbn [tm_year tm_mday tm_mon tm_wday tm_yday zero_time].
    destruct (Z.ltb_spec (tm_year day) 104); [lia|done].
Qed.

End time.

(** ** Concrete inputs *)

(** A calendar of days of 24 hours in 2020. *)
Definition sample_calendar : Calendar := {|
  now := 90061;
  localtime t := Tm (t mod 60) (t / 60 mod 60) (t / 3600 mod 24) (t / 86400 + 1) 0 120
                   (t / 86400 mod 7) (t / 86400) 0;
  mktime d := (tm_sec d + 60 * (tm_min d + 60 * (tm_hour d + 24 * (tm_mday d - 1))), d);
  strptime_date _ _ := None;
  strptime_time s d := if str_eq s "00:00:00" then Some (zero_time d, "") else None;
  uptime := None;
|}.

Definition blank : tm := Tm 1 2 3 4 5 6 0 0 0.

Lemma start_of_day_witness :
  @ausearch_time_start sample_calendar blank (Some "today") (Some "00:00:00") (Window 1 2)
  = (0, Window 86400 2).
Proof.
  apply (@start_of_day sample_calendar blank "today" T_TODAY _ (Window 1 2)
    (fun _ => eq_refl) eq_refl eq_refl).
  vm_compute. discriminate.
Defined.

Lemma start_without_time_fails_witness :
  fst (@ausearch_time_start sample_calendar blank (Some "today") None (Window 1 2)) <> 0.
Proof.
  apply (@start_without_time_fails sample_calendar blank (Some "today")).
  intros k [= <-]. reflexivity.
Defined.

Lemma end_without_time_witness :
  @ausearch_time_end sample_calendar blank (Some "yesterday") None (Window 1 2)
  = (0, Window 1 3661).
Proof.
  apply (@end_without_time sample_calendar blank "yesterday" T_YESTERDAY _ (Window 1 2)
    eq_refl eq_refl).
  vm_compute. discriminate.
Defined.

End SearchTime.
