(* ===== verification/Avc.v ===== *)
(** * The access vector records of an event (src/src/ausearch-avc.c)

    A list with a cursor of the subjects, objects and results the records of
    an event mention, with searches that stop at each node that has one. *)
From S2P Require Import Prelude CString CList.

Local Open Scope audit_scope.

Module Avc.

Inductive avc_t := AVC_UNSET | AVC_DENIED | AVC_GRANTED.

Record anode := ANode {
  scontext : option string;
  tcontext : option string;
  avc_result : avc_t;
  avc_perm : option string;
  avc_class : option string;
}.

Definition alist : Type := clist anode.

Definition anode_init : anode := ANode None None AVC_UNSET None None.

Definition alist_create : alist := cl_create.
Definition alist_first (l : alist) : alist := cl_first l.
Definition alist_next (l : alist) : option anode * alist :=
  let l := cl_next l in (cl_get_cur l, l).

(** From the cursor or from the head, the walk ends at the last node. *)
Definition alist_last (l : alist) : alist := cl_last l.

(** [None]: the cursor is null. *)
Definition alist_append (n : anode) (l : alist) : option alist :=
  let l := alist_last l in
  match nodes l with [] => Some (cl_link_head n l) | _ => cl_link_cur n l end.

Definition alist_clear (l : alist) : alist := cl_create.

(** The searches differ in what they stop at. *)
Definition find_where (p : anode -> bool) (l : alist) : bool * alist :=
  cl_find p (cl_head l) l.

(** [while (l->cur->next)]: without a hit the cursor stays at the end. *)
Definition next_where (p : anode -> bool) (l : alist) : option anode * alist :=
  match cur l with
  | None => (None, l)
  | Some i =>
      match find_from p (nodes l) (S i) with
      | Some j => (nodes l !! j, CList (nodes l) (Some j) (cnt l))
      | None => (None, CList (nodes l) (Some (length (nodes l) - 1)%nat) (cnt l))
      end
  end.

Definition is_set {A} (o : option A) : bool := match o with Some _ => true | None => false end.
Definition has_result (n : anode) : bool :=
  match avc_result n with AVC_UNSET => false | _ => true end.

Definition alist_find_subj (l : alist) := find_where (fun n => is_set (scontext n)) l.
Definition alist_next_subj (l : alist) := next_where (fun n => is_set (scontext n)) l.
Definition alist_find_obj (l : alist) := find_where (fun n => is_set (tcontext n)) l.
Definition alist_next_obj (l : alist) := next_where (fun n => is_set (tcontext n)) l.
Definition alist_find_avc (l : alist) := find_where has_result l.
Definition alist_next_avc (l : alist) := next_where has_result l.

(** ** The searches as the program uses them

    [if (find(l)) do { if (test(l->cur)) return 1; } while (next(l))]: whether
    a node passes the test, and where the cursor is left. *)
Fixpoint again (fuel : nat) (p test : anode -> bool) (l : alist) : option (bool * alist) :=
  match fuel with
  | O => None
  | S fuel =>
      n ← cl_get_cur l;
      if test n then Some (true, l)
      else match next_where p l with
           | (Some _, l) => again fuel p test l
           | (None, l) => Some (false, l)
           end
  end.
Definition search (p test : anode -> bool) (l : alist) : option (bool * alist) :=
  match find_where p l with
  | (false, l) => Some (false, l)
  | (true, l) => again (length (nodes l)) p test l
  end.

(** A list built by appending. *)
Fixpoint build (ns : list anode) (l : alist) : option alist :=
  match ns with
  | [] => Some l
  | n :: ns => l ← alist_append n l; build ns l
  end.

(** ** Facts *)

Lemma alist_append_spec n l :
  wf l -> exists l', alist_append n l = Some l' /\ nodes l' = nodes l ++ [n] /\ wf l'.
Proof.
  intros Hw. unfold alist_append, alist_last, cl_last.
  destruct (nodes l) as [|m ms] eqn:E.
  - rewrite E. eexists. split; [done|]. split; [done|]. by apply wf_link_head.
  - cbn [nodes]. pose proof (wf_last l Hw) as Hw'. unfold cl_last in Hw'. rewrite E in Hw'.
    set (l1 := CList (m :: ms) _ _) in *.
    destruct (cl_link_cur n l1) as [l'|] eqn:El; [|done].
    exists l'. split; [done|].
    destruct (link_cur_last n l1 l' Hw' eq_refl ltac:(done) El) as (-> & _ & H'). done.
Qed.

Lemma alist_build_spec ns l :
  wf l -> exists l', build ns l = Some l' /\ nodes l' = nodes l ++ ns /\ wf l'.
Proof.
  revert l. induction ns as [|n ns IH]; intros l Hw; cbn.
  - exists l. by rewrite app_nil_r.
  - destruct (alist_append_spec n l Hw) as (l1 & -> & E1 & Hw1). cbn.
    destruct (IH l1 Hw1) as (l' & -> & E' & Hw'). exists l'.
    by rewrite E', E1, <-app_assoc.
Qed.

Lemma existsb_none (f : anode -> bool) ns :
  (forall k n, ns !! k = Some n -> f n = false) -> existsb f ns = false.
Proof.
  intros H. apply not_true_iff_false. rewrite existsb_exists. intros (n & Hin & Hf).
  apply list_elem_of_In, list_elem_of_lookup in Hin as [k Hk]. rewrite (H k n Hk) in Hf. done.
Qed.

(** Nodes before the next hit do not count. *)
Lemma existsb_skip (p test : anode -> bool) ns i j :
  (i <= j)%nat -> (forall k n, (i <= k < j)%nat -> ns !! k = Some n -> p n = false) ->
  existsb (fun n => p n && test n) (drop i ns) = existsb (fun n => p n && test n) (drop j ns).
Proof.
  intros Hij Hb. rewrite <-(take_drop (j - i) (drop i ns)), existsb_app, drop_drop.
  replace (i + (j - i))%nat with j by lia. rewrite (existsb_none _ (take _ _)); [done|].
  intros k n Hk. pose proof (lookup_lt_Some _ _ _ Hk) as Hlt. rewrite length_take in Hlt.
  rewrite lookup_take_lt, lookup_drop in Hk by lia. rewrite (Hb (i + k)%nat n); [done|lia|done].
Qed.

Lemma existsb_miss (p test : anode -> bool) ns i :
  find_from p ns i = None -> existsb (fun n => p n && test n) (drop i ns) = false.
Proof.
  intros Ef. apply existsb_none. intros k n Hk. rewrite lookup_drop in Hk.
  by rewrite (find_from_None _ _ _ (i + k)%nat n Ef) by (done || lia).
Qed.

Lemma wf_at (l : alist) i :
  wf l -> (i < length (nodes l))%nat -> wf (CList (nodes l) (Some i) (cnt l)).
Proof. intros [_ Hn] Hi. split; [|done]. cbn. by intros j [= <-]. Qed.

(** From a node that [p] accepts, the loop tests it and every later one that
    [p] accepts. *)
Lemma again_spec p test fuel l i n :
  cur l = Some i -> nodes l !! i = Some n -> p n = true -> (length (nodes l) <= i + fuel)%nat ->
  exists l', again fuel p test l
    = Some (existsb (fun n => p n && test n) (drop i (nodes l)), l') /\ nodes l' = nodes l /\
      (wf l -> wf l').
Proof.
  revert l i n. induction fuel as [|fuel IH]; intros l i n Hc Hn Hp Hf.
  { apply lookup_lt_Some in Hn. lia. }
  cbn. unfold cl_get_cur. rewrite Hc, Hn. cbn. rewrite (drop_S _ _ _ Hn). cbn. rewrite Hp. cbn.
  destruct (test n) eqn:Et; [by exists l|]. cbn.
  unfold next_where. rewrite Hc. destruct (find_from p (nodes l) (S i)) as [j|] eqn:Ef.
  - destruct (find_from_spec _ _ _ _ Ef) as (Hij & (m & Hm & Hpm) & Hb). rewrite Hm.
    destruct (IH (CList (nodes l) (Some j) (cnt l)) j m) as (l' & -> & El & Hw); try done.
    { cbn. lia. }
    exists l'. rewrite (existsb_skip _ _ _ (S i) j) by done. split_and!; [done..|].
    intros Hwl. apply Hw, wf_at; [done|]. by eapply lookup_lt_Some.
  - eexists. rewrite existsb_miss by done. split_and!; [done..|]. intros Hwl.
    apply wf_at; [done|]. apply lookup_lt_Some in Hn. lia.
Qed.

Lemma search_spec p test l :
  exists l', search p test l
    = Some (existsb (fun n => p n && test n) (nodes l), l') /\ nodes l' = nodes l /\
      (wf l -> wf l').
Proof.
  unfold search, find_where, cl_find, cl_head. destruct (nodes l) as [|m ms] eqn:E.
  { exists l. by rewrite E. }
  rewrite <-E. change (existsb ?f (nodes l)) with (existsb f (drop 0 (nodes l))).
  destruct (find_from p (nodes l) 0) as [j|] eqn:Ef.
  - destruct (find_from_spec _ _ _ _ Ef) as (_ & (n & Hn & Hp) & Hb).
    destruct (again_spec p test (length (nodes l)) (CList (nodes l) (Some j) (cnt l)) j n)
      as (l' & El & Hl' & Hw); try done; [cbn; lia|].
    exists l'. cbn [nodes] in *. rewrite El, Hl', (existsb_skip _ _ _ 0 j) by (done || lia).
    split_and!; [done..|]. intros Hwl. apply Hw, wf_at; [done|]. by eapply lookup_lt_Some.
  - exists l. by rewrite existsb_miss.
Qed.

(** A search over the subjects of an event finds what it is after exactly
    if a node with a subject passes the test, however the list was built and
    wherever its cursor was left; and it never uses a null cursor. *)
Theorem subjects_searched ns ms (test : anode -> bool) :
  exists l1 l2 l3 b, build ns alist_create = Some l1 /\
    search (fun n => is_set (scontext n)) test l1 = Some (b, l2) /\
    b = existsb (fun n => is_set (scontext n) && test n) ns /\
    build ms l2 = Some l3 /\ nodes l3 = ns ++ ms.
Proof.
  destruct (alist_build_spec ns alist_create wf_create) as (l1 & E1 & N1 & W1). cbn in N1.
  destruct (search_spec (fun n => is_set (scontext n)) test l1) as (l2 & E2 & N2 & W2).
  destruct (alist_build_spec ms l2 (W2 W1)) as (l3 & E3 & N3 & _).
  exists l1, l2, l3, (existsb (fun n => is_set (scontext n) && test n) ns).
  rewrite E1, E2, N1, E3, N3, N2, N1. done.
Qed.

End Avc.
