(* ===== verification/Llist.v ===== *)
(** * The records of one event (src/src/ausearch-llist.c, ausearch-llist.h)

    A list with a cursor of the records of an event, the event's stamp and the
    items a search looks at.  The records are numbered from zero as they are
    appended. *)
From S2P Require Import Prelude CString CList HitList Avc.

Local Open Scope audit_scope.

Module Llist.

(** ** Data *)

Record event := Event {
  sec : Z;               (* time_t *)
  milli : Z;             (* unsigned int *)
  serial : Z;            (* unsigned long *)
  node : option string;
  type : Z;              (* of the first record *)
}.

(** An enumeration; numbers of a record are stored in it as they are. *)
Definition success_t : Type := Z.
Definition S_UNSET : success_t := -1.
Definition S_FAILED : success_t := 0.
Definition S_SUCCESS : success_t := 1.

Record search_items := SearchItems {
  ppid : Z;
  pid : Z;
  uid : Z;
  euid : Z;
  loginuid : Z;
  gid : Z;
  egid : Z;
  success : success_t;
  arch : Z;
  syscall : Z;
  session_id : Z;
  exit : Z;
  exit_is_set : bool;
  hostname : option string;
  filename : option HitList.slist;
  cwd : option string;
  exe : option string;
  key : option HitList.slist;
  terminal : option string;
  comm : option string;
  avc : option Avc.alist;
  acct : option string;
  uuid : option string;
  vmname : option string;
  tuid : option string;
  teuid : option string;
  tauid : option string;
}.

Record lnode := LNode {
  message : string;
  interp : option string;
  mlen : Z;
  tlen : Z;
  ntype : Z;
  a0 : Z;
  a1 : Z;
  item : Z;
}.

Record llist := LList {
  records : clist lnode;   (* head, cur and cnt *)
  e : event;
  s : search_items;
  fmt : Z;
}.

Definition LF_RAW : Z := 0.
Definition LF_ENRICHED : Z := 2.

(** The values of a new list: -1 and -2 are stored in unsigned fields. *)
Definition no_items : search_items :=
  SearchItems (-1) (-1) (u32 (-1)) (u32 (-1)) (u32 (-2)) (u32 (-1)) (u32 (-1)) S_UNSET 0 0
    (u32 (-2)) 0 false None None None None None None None None None None None None None None.
Definition no_event : event := Event 0 0 0 None 0.

Definition set_records (r : clist lnode) (l : llist) : llist := LList r (e l) (s l) (fmt l).

(** ** Operations *)

Definition list_create : llist := LList cl_create no_event no_items LF_RAW.

Definition list_first (l : llist) : llist := set_records (cl_first (records l)) l.
Definition list_get_cur (l : llist) : option lnode := cl_get_cur (records l).
Definition list_last (l : llist) : llist := set_records (cl_last (records l)) l.
Definition list_next (l : llist) : option lnode * llist :=
  let l := set_records (cl_next (records l)) l in (list_get_cur l, l).

(** The new record after the cursor; [None]: the cursor is null. *)
Definition list_append (n : lnode) (l : llist) : option llist :=
  let r := records l in
  let n := LNode (message n) (interp n) (mlen n) (tlen n) (ntype n) (a0 n) (a1 n) (cnt r) in
  match nodes r with
  | [] => Some (set_records (cl_link_head n r) l)
  | _ => r ← cl_link_cur n r; Some (set_records r l)
  end.

(** From the cursor when it is not behind item [i], else from the head. *)
Definition list_find_item (i : Z) (l : llist) : bool * llist :=
  let r := records l in
  let from := match cl_get_cur r with
              | Some n => if item n <=? i then cur r else cl_head r
              | None => cl_head r
              end in
  let (b, r) := cl_find (fun n => item n =? i) from r in (b, set_records r l).

Definition list_prev (l : llist) : option lnode * llist :=
  match list_get_cur l with
  | None => (None, l)
  | Some n => if item n =? 0 then (None, l)
              else let l := snd (list_find_item (item n - 1) l) in (list_get_cur l, l)
  end.

(** The heap lists in the items are released; [None] for a bad access. *)
Definition clear_slist (o : option HitList.slist) : option unit :=
  match o with None => Some tt | Some l => _ ← HitList.slist_clear l; Some tt end.
Definition list_clear (l : llist) : option llist :=
  _ ← clear_slist (filename (s l)); _ ← clear_slist (key (s l));
  Some (LList cl_create no_event no_items (fmt l)).

(** The stamp, without the node and the type. *)
Definition list_get_event (l : llist) : Z * Z * Z := (sec (e l), milli (e l), serial (e l)).

Definition find_msg_where (p : lnode -> bool) (l : llist) : option lnode * llist :=
  let (b, r) := cl_find p (cl_head (records l)) (records l) in
  let l := set_records r l in (if b then list_get_cur l else None, l).
Definition list_find_msg (i : Z) (l : llist) : option lnode * llist :=
  find_msg_where (fun n => ntype n =? i) l.
Definition list_find_msg_range (low high : Z) (l : llist) : option lnode * llist :=
  if high <=? low then (None, l)
  else find_msg_where (fun n => (low <=? ntype n) && (ntype n <=? high)) l.

(** ** Invariant *)

(** The records are numbered in order, with 32 bits. *)
Record ok (l : llist) : Prop := Ok {
  ok_wf : wf (records l);
  ok_items : forall k n, nodes (records l) !! k = Some n -> item n = u32 (Z.of_nat k);
}.

(** The cursor is at the last record. *)
Definition at_end (l : llist) : Prop :=
  nodes (records l) <> [] -> cur (records l) = Some (length (nodes (records l)) - 1)%nat.

Lemma list_create_ok : ok list_create /\ at_end list_create.
Proof. split; [|by intros []]. split; [apply wf_create|done]. Qed.

Definition same_but_item (n m : lnode) : Prop :=
  LNode (message n) (interp n) (mlen n) (tlen n) (ntype n) (a0 n) (a1 n) 0
  = LNode (message m) (interp m) (mlen m) (tlen m) (ntype m) (a0 m) (a1 m) 0.

(** Appending at the end. *)
Lemma list_append_spec n l :
  ok l -> at_end l ->
  exists l' n', list_append n l = Some l' /\ nodes (records l') = nodes (records l) ++ [n'] /\
    same_but_item n n' /\ e l' = e l /\ s l' = s l /\ fmt l' = fmt l /\ ok l' /\ at_end l'.
Proof.
  intros [Hw Hi] Ha. unfold list_append.
  set (n' := LNode _ _ _ _ _ _ _ _).
  pose proof (wf_cnt _ Hw) as Hcnt.
  assert (forall r', wf r' -> nodes r' = nodes (records l) ++ [n'] ->
            cur r' = Some (length (nodes (records l))) ->
            ok (set_records r' l) /\ at_end (set_records r' l)) as Hok.
  { intros r' Hw' E Ec. split.
    - split; [done|]. cbn. rewrite E. intros k m [Hk|[Hk Hm]]%lookup_app_Some; [by apply Hi|].
      apply list_lookup_singleton_Some in Hm as [Hk0 <-]. cbn.
      rewrite Hcnt. do 2 f_equal. lia.
    - intros _. cbn. rewrite Ec, E, length_app. cbn. f_equal. lia. }
  destruct (nodes (records l)) as [|m ms] eqn:E.
  - eexists _, n'. split; [done|]. split; [done|]. do 4 (split; [done|]).
    apply Hok; [by apply wf_link_head|done|done].
  - specialize (Ha ltac:(by rewrite E)). rewrite <-E in *.
    destruct (cl_link_cur n' (records l)) as [r'|] eqn:El.
    2: { unfold cl_link_cur in El. by rewrite Ha in El. }
    destruct (link_cur_last _ _ _ Hw Ha ltac:(by rewrite E) El) as (En & Ec & Hw').
    exists (set_records r' l), n'. split; [done|]. split; [done|]. do 4 (split; [done|]).
    by apply Hok.
Qed.

Lemma ok_item l k n :
  ok l -> Z.of_nat (length (nodes (records l))) < two32 ->
  nodes (records l) !! k = Some n -> item n = Z.of_nat k.
Proof.
  intros Hok Hl Hk. rewrite (ok_items _ Hok _ _ Hk). apply lookup_lt_Some in Hk.
  apply u32_small. lia.
Qed.

Lemma find_item_from l i from :
  ok l -> Z.of_nat (length (nodes (records l))) < two32 -> (from <= i)%nat -> (i < length (nodes (records l)))%nat ->
  find_from (fun n => item n =? Z.of_nat i) (nodes (records l)) from = Some i.
Proof.
  intros Hok Hb Hf Hl. pose proof (ok_item l) as Hi.
  destruct (lookup_lt_is_Some_2 _ _ Hl) as [n Hn].
  destruct (find_from _ _ from) as [j|] eqn:E.
  - apply find_from_spec in E as (_ & (m & Hm & Hj%Z.eqb_eq) & _).
    rewrite (Hi _ _ Hok Hb Hm) in Hj. f_equal. lia.
  - apply (find_from_None _ _ _ i n) in E; [|done..]. cbn in E.
    rewrite (Hi _ _ Hok Hb Hn) in E. lia.
Qed.

Lemma find_item_spec l i :
  ok l -> Z.of_nat (length (nodes (records l))) < two32 ->
  list_find_item (Z.of_nat i) l
  = if decide (i < length (nodes (records l)))%nat
    then (true, set_records (CList (nodes (records l)) (Some i) (cnt (records l))) l)
    else (false, l).
Proof.
  intros Hok Hb. unfold list_find_item, cl_find.
  set (from := match cl_get_cur _ with Some n => _ | None => _ end).
  assert (nodes (records l) = [] /\ from = None \/
          exists k, from = Some k /\ (k < length (nodes (records l)))%nat /\
            (i < length (nodes (records l)) -> k <= i)%nat) as Hfrom.
  { unfold from, cl_get_cur, cl_head.
    destruct (nodes (records l)) as [|m ms] eqn:En; [left|right].
    - destruct (cur (records l)) as [c|] eqn:Ec; [|done].
      by apply (wf_cur _ (ok_wf _ Hok)) in Ec; rewrite En in Ec; cbn in Ec; lia.
    - destruct (cur (records l)) as [c|] eqn:Ec; [|exists O; cbn; split_and!; [done|lia|lia]].
      rewrite <-En in Hb |- *. destruct (nodes (records l) !! c) as [n|] eqn:Hc.
      + rewrite (ok_item _ _ _ Hok Hb Hc). apply lookup_lt_Some in Hc.
        destruct (Z.leb_spec (Z.of_nat c) (Z.of_nat i)).
        * exists c. split_and!; [done|done|lia].
        * exists O. split_and!; [done|lia|lia].
      + exists O. rewrite En. cbn. split_and!; [done|lia|lia]. }
  destruct l as [r ev si f]. cbn in *.
  destruct Hfrom as [[En ->]|(k & -> & Hk & Hki)].
  - rewrite decide_False by (rewrite En; cbn; lia). done.
  - case_decide as Hi.
    + pose proof (find_item_from _ i k Hok Hb (Hki Hi) Hi) as Ef. cbn in Ef. by rewrite Ef.
    + destruct (find_from _ _ k) as [j|] eqn:Ef; [|done]. exfalso.
      apply find_from_spec in Ef as (_ & (m & Hm & Hj%Z.eqb_eq) & _).
      rewrite (ok_item _ _ _ Hok Hb Hm) in Hj. apply lookup_lt_Some in Hm. cbn in *. lia.
Qed.

Lemma ok_cursor l i :
  ok l -> (i < length (nodes (records l)))%nat ->
  ok (set_records (CList (nodes (records l)) (Some i) (cnt (records l))) l).
Proof.
  intros [[_ Hn] Hi] Hlt. split; [|done]. split; [|done]. cbn. by intros j [= <-].
Qed.

(** Wherever the cursor is, [list_find_item] finds a record by its number;
    from there [list_next] and [list_prev] give its neighbours. *)
Theorem item_access l i n :
  ok l -> Z.of_nat (length (nodes (records l))) < two32 -> nodes (records l) !! i = Some n ->
  exists l1, list_find_item (Z.of_nat i) l = (true, l1) /\ list_get_cur l1 = Some n /\
    fst (list_next l1) = nodes (records l) !! S i /\
    fst (list_prev l1) = match i with O => None | S j => nodes (records l) !! j end.
Proof.
  intros Hok Hb Hi. pose proof (lookup_lt_Some _ _ _ Hi) as Hlt.
  rewrite find_item_spec, decide_True by done. eexists. split; [done|].
  pose proof (ok_cursor l i Hok Hlt) as Hok1. set (l1 := set_records _ _) in *.
  assert (list_get_cur l1 = Some n) as Hc by done. split; [done|]. split.
  - cbn. unfold list_get_cur, cl_get_cur. cbn. unfold succ_of. cbn. case_decide; [done|].
    symmetry. apply lookup_ge_None_2. lia.
  - unfold list_prev. rewrite Hc, (ok_item l1 i n Hok1 Hb Hi). destruct i as [|j]; [done|].
    destruct (Z.eqb_spec (Z.of_nat (S j)) 0); [lia|].
    replace (Z.of_nat (S j) - 1) with (Z.of_nat j) by lia.
    rewrite find_item_spec by done. rewrite decide_True by (cbn; lia). done.
Qed.

(** A list of three records with its cursor on the last. *)
Definition sample_record (t : Z) : lnode := LNode EmptyString None 0 0 t 0 0 0.
Definition sample_list : llist :=
  default list_create
    (l ← list_append (sample_record 1300) list_create;
     l ← list_append (sample_record 1307) l; list_append (sample_record 1320) l).

Lemma sample_list_ok : ok sample_list.
Proof.
  split; [split|].
  - intros i [= <-]. cbn. lia.
  - done.
  - intros [|[|[|k]]] n Hk; cbn in Hk; [by injection Hk as <-..|done].
Qed.

Lemma item_access_witness :
  exists l1, list_find_item 1 sample_list = (true, l1) /\
    option_map ntype (list_get_cur l1) = Some 1307 /\
    option_map ntype (fst (list_prev l1)) = Some 1300.
Proof.
  destruct (item_access sample_list 1
    (LNode EmptyString None 0 0 1307 0 0 1)) as (l1 & E & Hc & _ & Hp);
    [exact sample_list_ok|vm_compute; reflexivity|reflexivity|].
  exists l1. split; [exact E|]. split; [by rewrite Hc|by rewrite Hp].
Defined.

End Llist.
