(* ===== verification/Lol.v ===== *)
(** * Assembling events (src/src/ausearch-lol.c)

    The records of a log come interleaved.  The array of lists collects the
    records of each event, marks the events that are complete and hands them
    out by time stamp.  Also here is [audit_name_to_msg_type] of
    src/lib/lookup_table.c.  [None] stands for an access outside of memory. *)
From S2P Require Import Prelude CString CList StrSplit SearchTime HitList Avc Llist.

Local Open Scope audit_scope.

Module Lol.
Import Llist.

(** ** Data *)

Inductive lol_t := L_EMPTY | L_BUILDING | L_COMPLETE.

#[global] Instance lol_t_eq_dec : EqDecision lol_t.
Proof. solve_decision. Defined.

(** A slot: its list is null until it is used once. *)
Record lolnode := LolNode { lst : option llist; status : lol_t }.
Definition free_slot : lolnode := LolNode None L_EMPTY.

(** [array] is [[]] for NULL. *)
Record lol := LoL { array : list lolnode; maxi : Z; limit : Z }.

Definition ARRAY_LIMIT : Z := 80.

(** The static [ready], the stamp in [very_first_event] and the array. *)
Record state := State { lo : lol; ready : Z; first_sec : Z; first_milli : Z }.

Definition set_lo (l : lol) (st : state) : state :=
  State l (ready st) (first_sec st) (first_milli st).

Definition lol_create : lol :=
  LoL (replicate (Z.to_nat ARRAY_LIMIT) free_slot) (-1) ARRAY_LIMIT.

Definition start : state := State lol_create 0 0 0.

(** The loop over the first [n] slots that releases their lists. *)
Fixpoint clear_slots (n : nat) (arr : list lolnode) : option unit :=
  match n, arr with
  | O, _ => Some tt
  | S n, [] => None
  | S n, c :: arr =>
      _ ← (if decide (status c = L_EMPTY) then Some tt
           else l ← lst c; _ ← list_clear l; Some tt);
      clear_slots n arr
  end.

Definition lol_clear (l : lol) : option lol :=
  _ ← clear_slots (Z.to_nat (maxi l + 1)) (array l); Some (LoL [] (-1) (limit l)).

(** ** Time stamps *)

(** The conversion of an unsigned long to time_t. *)
Definition time_t (v : Z) : Z := if v <? 2 ^ 63 then v else v - two64.

(** The seconds, milliseconds and serial number in a text; [None] for -1. *)
Definition str2event (s : string) : option (Z * Z * Z) :=
  let (v, range) := strtoul 10 s in
  if range then None else
  match strchr s "."%char with
  | Some p =>
      let (m, range) := strtoul 10 (skip 1 p) in
      if range then None else
      match strchr (skip 1 p) ":"%char with
      | Some p => let (n, range) := strtoul 10 (skip 1 p) in
                  if range then None else Some (time_t v, u32 m, n)
      | None => Some (time_t v, u32 m, 0)
      end
  | None =>
      match strchr s ":"%char with
      | Some p => let (n, range) := strtoul 10 (skip 1 p) in
                  if range then None else Some (time_t v, 0, n)
      | None => Some (time_t v, 0, 0)
      end
  end.

Definition events_are_equal (e1 e2 : event) : bool :=
  (serial e1 =? serial e2) && (milli e1 =? milli e2) && (sec e1 =? sec e2) &&
  match node e1, node e2 with
  | Some a, Some b => str_eq a b
  | None, None => true
  | _, _ => false
  end.

Definition compare_event_time (e1 e2 : event) : Z :=
  if negb (sec e1 =? sec e2) then (if sec e2 <? sec e1 then 1 else -1)
  else if negb (milli e1 =? milli e2) then (if milli e2 <? milli e1 then 1 else -1)
  else if negb (serial e1 =? serial e2) then (if serial e2 <? serial e1 then 1 else -1)
  else 0.

(** ** Record types *)

(** The generated table of message types: [msg_type_s2i] of msg_typetabs.h. *)
Class MsgTypes := msg_type_s2i : string -> option Z.

(** The conversion of a long to int. *)
Definition int_of (v : Z) : Z := let w := u32 v in if w <? 2 ^ 31 then w else w - two32.

Definition audit_name_to_msg_type `{MsgTypes} (msg_type : string) : Z :=
  match msg_type_s2i msg_type with
  | Some rc => rc
  | None =>
      if starts_with "UNKNOWN[" msg_type then
        let text := skip 8 msg_type in
        let (number, rest) := span (fun c => negb (c =c "]"%char)) text in
        match rest with
        | EmptyString => -1
        | _ => int_of (strtol (prefix_of 7 number))
        end
      else if isdigit (char_at msg_type) then int_of (strtol msg_type)
      else -1
  end.

(** ** Reading a line *)

Definition chars := list ascii.

(** The copy on the stack: at most 340 characters with a node name in front,
    else at most 80, and a NUL. *)
Definition copy_line (b : string) : chars :=
  let n := if char_at b =c "n"%char then 340%nat else 80%nat in
  take n (String.list_ascii_of_string b) ++ [NUL].

(** The string a pointer is to. *)
Definition string_at (buf : chars) (p : nat) : option string :=
  if decide (p < length buf)%nat
  then Some (String.string_of_list_ascii (StrSplit.c_string buf p)) else None.

(** [strchr] on a pointer. *)
Definition find_char (c : ascii) (buf : chars) (p : nat) : option nat :=
  (fun x => p + x.1)%nat <$> list_find (fun d => d = c) (StrSplit.c_string buf p).

(** Where a line has its parts. *)
Record place := Place { tnode : option nat; ttype : nat; stamp : nat; cut : chars }.

(** The walk over the words of the line up to the time stamp; [Some None] is a
    bad line. *)
Definition find_stamp (b : string) : option (option place) :=
  '(w1, buf, str) ← StrSplit.audit_strsplit (Some O) (copy_line b) None;
  match w1 with
  | None => Some None
  | Some p =>
      c ← buf !! p;
      '(tn, ptr, buf, str) ←
        (if c =c "n"%char then
           '(w2, buf, str) ← StrSplit.audit_strsplit None buf str;
           Some (Some (p + 5)%nat, w2, buf, str)
         else Some (None, Some p, buf, str));
      '(w3, buf, str) ← StrSplit.audit_strsplit None buf str;
      match ptr, w3 with
      | Some t, Some m =>
          c ← buf !! (m + 9)%nat;
          let open := if c =c "("%char then Some (m + 9)%nat else find_char "("%char buf m in
          match open with
          | None => Some None
          | Some o =>
              let buf := match find_char ")"%char buf (S o) with
                         | Some k => <[k := NUL]> buf
                         | None => buf
                         end in
              Some (Some (Place tn (t + 5)%nat (S o) buf))
          end
      | _, _ => Some None
      end
  end.

Section search.
Context `{MsgTypes}.
(** The time window of the search. *)
Variable w : SearchTime.window.
(** Whether realloc() can give so many bytes. *)
Variable realloc_ok : Z -> bool.

Definition out_of_window (s : Z) : bool :=
  (negb (SearchTime.start_time w =? 0) && (s <? SearchTime.start_time w)) ||
  (negb (SearchTime.end_time w =? 0) && (SearchTime.end_time w <? s)).

(** The event of a line; [Some None] for the return value 0. *)
Definition event_of (b : string) : option (option event) :=
  pl ← find_stamp b;
  match pl with
  | None => Some None
  | Some pl =>
      text ← string_at (cut pl) (stamp pl);
      match str2event text with
      | None => Some None
      | Some (s, m, n) =>
          if out_of_window s then Some None
          else
            nd ← match tnode pl with
                 | None => Some None
                 | Some p => x ← string_at (cut pl) p; Some (Some x)
                 end;
            ty ← string_at (cut pl) (ttype pl);
            Some (Some (Event s m n nd (audit_name_to_msg_type ty)))
      end
  end.

(** The stamp of a line, for [very_first_event]. *)
Definition stamp_of (b : string) : option (Z * Z * Z) :=
  pl ← find_stamp b; pl ← pl; text ← string_at (cut pl) (stamp pl); str2event text.

Definition note_first (b : string) (st : state) : state :=
  match stamp_of b with
  | None => st
  | Some (s, m, _) =>
      if (first_sec st =? 0) && (out_of_window s || (SearchTime.start_time w =? 0))
      then State (lo st) (ready st) s m else st
  end.

Definition extract_timestamp (b : string) (st : state) : option (option event * state) :=
  ev ← event_of b; Some (ev, note_first b st).

(** ** The slots *)

(** The first empty slot. *)
Fixpoint first_empty (arr : list lolnode) : option nat :=
  match arr with
  | [] => None
  | c :: arr => if decide (status c = L_EMPTY) then Some O else S <$> first_empty arr
  end.

Definition sizeof_lolnode : Z := 16.

(** A list that finds no slot is lost. *)
Definition lol_append (l : lol) (x : llist) : lol :=
  match first_empty (array l) with
  | Some i => LoL (<[i := LolNode (Some x) L_BUILDING]> (array l))
                (Z.max (maxi l) (Z.of_nat i)) (limit l)
  | None =>
      if realloc_ok (sizeof_lolnode * (limit l + ARRAY_LIMIT)) then
        let i := length (array l) in
        LoL (<[i := LolNode (Some x) L_BUILDING]>
               (array l ++ replicate (Z.to_nat ARRAY_LIMIT) free_slot))
          (Z.of_nat i) (limit l + ARRAY_LIMIT)
      else l
  end.

Definition AUDIT_FIRST_EVENT : Z := 1300.
Definition AUDIT_EOE : Z := 1320.
Definition AUDIT_PROCTITLE : Z := 1327.
Definition AUDIT_MAC_UNLBL_ALLOW : Z := 1406.
Definition AUDIT_MAC_CALIPSO_DEL : Z := 1419.
Definition AUDIT_KERNEL : Z := 2000.
Definition AUDIT_FIRST_ANOM_MSG : Z := 2100.

(** A single record makes an event of this type. *)
Definition single_record (t : Z) : bool :=
  (t =? AUDIT_PROCTITLE) || (t <? AUDIT_FIRST_EVENT) || (AUDIT_FIRST_ANOM_MSG <=? t)
  || (t =? AUDIT_KERNEL) || ((AUDIT_MAC_UNLBL_ALLOW <=? t) && (t <=? AUDIT_MAC_CALIPSO_DEL)).

(** The loop over the first [n] slots that completes events; the result counts
    the completions. *)
Fixpoint complete_where (p : llist -> bool) (n : nat) (arr : list lolnode)
    : option (list lolnode * Z) :=
  match n, arr with
  | O, _ => Some (arr, 0)
  | S n, [] => None
  | S n, c :: arr =>
      '(c, k) ← (if decide (status c = L_BUILDING) then
                   l ← lst c; Some (if p l then (LolNode (lst c) L_COMPLETE, 1) else (c, 0))
                 else Some (c, 0));
      '(arr, m) ← complete_where p n arr;
      Some (c :: arr, k + m)
  end.

Definition complete_events (p : llist -> bool) (st : state) : option state :=
  '(arr, k) ← complete_where p (Z.to_nat (maxi (lo st) + 1)) (array (lo st));
  Some (State (LoL arr (maxi (lo st)) (limit (lo st))) (ready st + k)
          (first_sec st) (first_milli st)).

Definition check_events (s : Z) (st : state) : option state :=
  complete_events (fun l => (sec (e l) + 2 <=? s) || single_record (type (e l))) st.

Definition terminate_all_events (st : state) : option state :=
  complete_events (fun _ => true) st.

(** ** Adding a record *)

Definition AUDIT_INTERP_SEPARATOR : ascii := chr 29.
Definition MAX_AUDIT_MESSAGE_LENGTH : Z := 8970.

Definition cap (n : nat) : Z := Z.min (Z.of_nat n) MAX_AUDIT_MESSAGE_LENGTH.

(** The record of a line and its format. *)
Definition record_of (ty : Z) (b : string) : lnode * Z :=
  let (msg, rest) := span (fun c => negb (c =c AUDIT_INTERP_SEPARATOR)) b in
  match rest with
  | String _ interp =>
      let mlen := cap (String.length msg) in
      match before_last LF interp with
      | Some i => (LNode msg (Some i) mlen (cap (String.length msg + 1 + String.length i)) ty 0 0 0,
                   LF_ENRICHED)
      | None => (LNode msg (Some interp) mlen mlen ty 0 0 0, LF_ENRICHED)
      end
  | EmptyString =>
      match before_last LF b with
      | Some m => let mlen := cap (String.length m) in (LNode m None mlen mlen ty 0 0 0, LF_RAW)
      | None => let mlen := Z.of_nat (String.length b) in (LNode b None mlen mlen ty 0 0 0, LF_RAW)
      end
  end.

(** The first slot that builds this event. *)
Fixpoint find_building (ev : event) (n : nat) (arr : list lolnode) : option (option nat) :=
  match n, arr with
  | O, _ => Some None
  | S n, [] => None
  | S n, c :: arr =>
      hit ← (if decide (status c = L_BUILDING) then l ← lst c; Some (events_are_equal (e l) ev)
             else Some false);
      if hit : bool then Some (Some O)
      else r ← find_building ev n arr; Some (option_map S r)
  end.

(** The list of a new event. *)
Definition new_event (ev : event) (n : lnode) (f : Z) : option llist :=
  list_append n (LList cl_create ev no_items f).

Definition add_to_slot (i : nat) (n : lnode) (f : Z) (st : state) : option state :=
  c ← array (lo st) !! i;
  l ← lst c;
  l ← list_append n l;
  let l := LList (records l) (e l) (s l) (Z.max (fmt l) f) in
  Some (set_lo (LoL (<[i := LolNode (Some l) (status c)]> (array (lo st)))
                  (maxi (lo st)) (limit (lo st))) st).

Definition lol_add_record (buff : string) (st : state) : option (Z * state) :=
  '(ev, st) ← extract_timestamp buff st;
  match ev with
  | None => Some (0, st)
  | Some ev =>
      let (n, f) := record_of (type ev) buff in
      slot ← find_building ev (Z.to_nat (maxi (lo st) + 1)) (array (lo st));
      match slot with
      | Some i => st ← add_to_slot i n f st; Some (1, st)
      | None =>
          if type ev =? AUDIT_EOE then Some (0, st)
          else
            l ← new_event ev n f;
            st ← check_events (sec ev) (set_lo (lol_append (lo st) l) st);
            Some (1, st)
      end
  end.

(** ** Taking an event *)

(** The slot with the lowest stamp among the first [n], from slot [i] on;
    [low] is the lowest before. *)
Fixpoint lowest (n i : nat) (arr : list lolnode) (low : option (nat * llist))
    : option (option (nat * llist)) :=
  match n, arr with
  | O, _ => Some low
  | S n, [] => None
  | S n, c :: arr =>
      if decide (status c = L_EMPTY) then lowest n (S i) arr low
      else
        l ← lst c;
        lowest n (S i) arr
          (match low with
           | None => Some (i, l)
           | Some (j, m) => if compare_event_time (e m) (e l) =? 1 then Some (i, l) else Some (j, m)
           end)
  end.

(** The new [maxi]: down to a slot in use, or to 0. *)
Fixpoint consolidate (m : nat) (arr : list lolnode) : option nat :=
  c ← arr !! m;
  match m with
  | O => Some O
  | S m' => if decide (status c = L_EMPTY) then consolidate m' arr else Some m
  end.

Definition get_ready_event (st : state) : option (option llist * state) :=
  if ready st =? 0 then Some (None, st) else
  low ← lowest (Z.to_nat (maxi (lo st) + 1)) 0 (array (lo st)) None;
  match low with
  | None => Some (None, st)
  | Some (i, l) =>
      c ← array (lo st) !! i;
      if decide (status c = L_COMPLETE) then
        let arr := <[i := LolNode (lst c) L_EMPTY]> (array (lo st)) in
        m ← (if Z.of_nat i =? maxi (lo st) then m ← consolidate i arr; Some (Z.of_nat m)
             else Some (maxi (lo st)));
        Some (Some l, State (LoL arr m (limit (lo st))) (ready st - 1)
                        (first_sec st) (first_milli st))
      else Some (None, st)
  end.

End search.

End Lol.
