(* ===== verification/LolFacts.v ===== *)
(** * Correctness of the assembling of events *)
From S2P Require Import Prelude CString CList StrSplit SearchTime HitList Avc Llist Lol.

Local Open Scope audit_scope.

Module LolFacts.
Import Llist Lol.

(** ** The slots *)

(** What a slot holds. *)
Definition entry (c : lolnode) : option (lol_t * llist) :=
  if decide (status c = L_EMPTY) then None else (fun l => (status c, l)) <$> lst c.
Definition entries (arr : list lolnode) : list (lol_t * llist) := omap entry arr.
Definition stored (st : state) : list (lol_t * llist) := entries (array (lo st)).

(** A slot in use has a list that can be appended to. *)
Definition slot_ok (c : lolnode) : Prop :=
  status c <> L_EMPTY -> exists l, lst c = Some l /\ ok l /\ at_end l.

Definition completed (arr : list lolnode) : Z :=
  Z.of_nat (length (filter (fun c => status c = L_COMPLETE) arr)).

Record inv (st : state) : Prop := Inv {
  inv_limit : limit (lo st) = Z.of_nat (length (array (lo st)));
  inv_maxi : -1 <= maxi (lo st) < limit (lo st);
  inv_above : forall i c, array (lo st) !! i = Some c -> maxi (lo st) < Z.of_nat i ->
                status c = L_EMPTY;
  inv_slots : Forall slot_ok (array (lo st));
  inv_ready : ready st = completed (array (lo st));
}.

Lemma slot_entry c : slot_ok c -> status c <> L_EMPTY -> exists l, lst c = Some l /\
  entry c = Some (status c, l) /\ ok l /\ at_end l.
Proof.
  intros Hc Hs. destruct (Hc Hs) as (l & Hl & ? & ?). exists l. unfold entry.
  by rewrite decide_False, Hl by done.
Qed.

Lemma entry_empty c : status c = L_EMPTY -> entry c = None.
Proof. intros H. unfold entry. by rewrite decide_True. Qed.

(** The entries of the other slots. *)
Definition others (i : nat) (arr : list lolnode) : list (lol_t * llist) := entries (delete i arr).

Lemma entries_at arr i c :
  arr !! i = Some c -> entries arr ≡ₚ option_list (entry c) ++ others i arr.
Proof.
  intros Hi. unfold others, entries. rewrite <-(take_drop_middle _ _ _ Hi) at 1.
  rewrite delete_take_drop, !omap_app. cbn.
  destruct (entry c); cbn; [by rewrite Permutation_middle|done].
Qed.

(** Changing one slot changes one entry. *)
Lemma entries_insert arr i c' :
  (i < length arr)%nat -> entries (<[i := c']> arr) ≡ₚ option_list (entry c') ++ others i arr.
Proof.
  intros Hi. rewrite (entries_at _ i c') by by apply list_lookup_insert_eq.
  unfold others. by rewrite !delete_take_drop, take_insert_ge, drop_insert_lt by lia.
Qed.

Lemma completed_insert arr i c c' :
  arr !! i = Some c ->
  completed (<[i := c']> arr) + (if decide (status c = L_COMPLETE) then 1 else 0)
  = completed arr + (if decide (status c' = L_COMPLETE) then 1 else 0).
Proof.
  intros Hi. unfold completed. pose proof (lookup_lt_Some _ _ _ Hi) as Hlt.
  rewrite insert_take_drop by done. rewrite <-(take_drop_middle _ _ _ Hi) at 3.
  rewrite !filter_app, !filter_cons, !length_app. repeat case_decide; cbn; lia.
Qed.

(** A slot in use is not above [maxi]. *)
Lemma in_use st i c :
  inv st -> array (lo st) !! i = Some c -> status c <> L_EMPTY ->
  (i < Z.to_nat (maxi (lo st) + 1))%nat.
Proof.
  intros H Hi Hs. destruct (decide (maxi (lo st) < Z.of_nat i)) as [Hm|]; [|lia].
  by destruct Hs, (inv_above _ H _ _ Hi Hm).
Qed.

Lemma upto_maxi st : inv st -> (Z.to_nat (maxi (lo st) + 1) <= length (array (lo st)))%nat.
Proof. intros []. lia. Qed.

(** ** Completing events *)

Definition mark (p : llist -> bool) (c : lolnode) : lolnode :=
  match status c, lst c with
  | L_BUILDING, Some l => if p l then LolNode (lst c) L_COMPLETE else c
  | _, _ => c
  end.

Lemma mark_idle p (arr : list lolnode) :
  (forall i c, arr !! i = Some c -> status c <> L_BUILDING) -> mark p <$> arr = arr.
Proof.
  induction arr as [|c arr IH]; intros H; [done|]. cbn. f_equal.
  - unfold mark. pose proof (H O c eq_refl). by destruct (status c).
  - apply IH. intros i d Hi. by apply (H (S i)).
Qed.

Lemma completed_cons c (arr : list lolnode) :
  completed (c :: arr) = (if decide (status c = L_COMPLETE) then 1 else 0) + completed arr.
Proof. unfold completed. rewrite filter_cons. case_decide; cbn; lia. Qed.

Lemma complete_where_spec p n arr :
  Forall slot_ok arr -> (n <= length arr)%nat ->
  (forall i c, arr !! i = Some c -> (n <= i)%nat -> status c <> L_BUILDING) ->
  exists k, complete_where p n arr = Some (mark p <$> arr, k) /\
    completed (mark p <$> arr) = completed arr + k.
Proof.
  revert n. induction arr as [|c arr IH]; intros n Hok Hn Ha.
  { destruct n; [|cbn in Hn; lia]. by exists 0. }
  destruct n as [|n].
  { exists 0. rewrite mark_idle by (intros i d Hi; apply (Ha i d Hi); lia).
    split; [done|lia]. }
  apply Forall_cons in Hok as [Hc Hok].
  destruct (IH n Hok) as (k & Ek & Hk); [cbn in Hn; lia| |].
  { intros i d Hi Hle. apply (Ha (S i) d Hi). lia. }
  cbn [complete_where fmap list_fmap]. rewrite Ek, !completed_cons, Hk.
  destruct (decide (status c = L_BUILDING)) as [Es|Es].
  - destruct (Hc ltac:(by rewrite Es)) as (l & Hl & _).
    assert (mark p c = if p l then LolNode (lst c) L_COMPLETE else c) as ->
      by (unfold mark; by rewrite Es, Hl).
    rewrite Hl. cbn. destruct (p l); cbn; rewrite ?Es; eexists; (split; [done|]); cbn;
      repeat case_decide; try done; lia.
  - assert (mark p c = c) as -> by (unfold mark; by destruct (status c)).
    cbn. eexists. split; [done|]. lia.
Qed.

Lemma mark_slot_ok p c : slot_ok c -> slot_ok (mark p c).
Proof.
  intros H. unfold mark. destruct (status c) eqn:E, (lst c) as [l|] eqn:El; try done.
  destruct (p l); [|done]. intros _. destruct (H ltac:(by rewrite E)) as (l' & Hl & Ho).
  exists l'. split; [cbn; congruence|done].
Qed.

Lemma mark_entry p c :
  snd <$> entry (mark p c) = snd <$> entry c /\
  (status c = L_EMPTY -> status (mark p c) = L_EMPTY).
Proof.
  unfold mark. destruct (status c) eqn:E, (lst c) as [l|] eqn:El;
    try (split; [done|intros; congruence]).
  destruct (p l); [|split; [done|congruence]]. unfold entry. cbn. rewrite El, E.
  by repeat case_decide.
Qed.

Lemma entries_mark p arr : (entries (mark p <$> arr)).*2 = (entries arr).*2.
Proof.
  unfold entries. induction arr as [|c arr IH]; [done|]. cbn.
  destruct (mark_entry p c) as [Hm _].
  destruct (entry (mark p c)), (entry c); cbn in *; congruence.
Qed.

Lemma complete_events_spec p st :
  inv st -> exists st', complete_events p st = Some st' /\ inv st' /\
    array (lo st') = mark p <$> array (lo st) /\ (stored st').*2 = (stored st).*2.
Proof.
  intros H. unfold complete_events.
  destruct (complete_where_spec p (Z.to_nat (maxi (lo st) + 1)) (array (lo st)))
    as (k & -> & Hk); [apply H|by apply upto_maxi| |].
  { intros i c Hi Hle. pose proof (inv_above _ H i c Hi ltac:(lia)) as ->. done. }
  cbn. eexists. split; [done|]. split; [|split; [done|]].
  - split; cbn; try apply H.
    + rewrite length_fmap. apply H.
    + intros i c Hi Hm. apply list_lookup_fmap_Some in Hi as (d & -> & Hd).
      apply mark_entry. by eapply inv_above.
    + apply Forall_fmap. eapply Forall_impl; [apply H|]. apply mark_slot_ok.
    + by rewrite Hk, (inv_ready _ H).
  - unfold stored. cbn. apply entries_mark.
Qed.

(** ** Adding a record *)

Section adding.
Context `{MsgTypes} (w : SearchTime.window) (realloc_ok : Z -> bool).

Lemma find_building_spec ev n arr :
  Forall slot_ok arr -> (n <= length arr)%nat ->
  exists r, find_building ev n arr = Some r /\
    forall i, r = Some i -> exists c l, arr !! i = Some c /\ status c = L_BUILDING /\
      lst c = Some l /\ events_are_equal (e l) ev = true.
Proof.
  revert n. induction arr as [|c arr IH]; intros n Hok Hn.
  { destruct n; [|cbn in Hn; lia]. by exists None. }
  destruct n as [|n]; [by exists None|]. apply Forall_cons in Hok as [Hc Hok]. cbn in Hn.
  destruct (IH n Hok ltac:(lia)) as (r & Er & Hr). cbn [find_building]. rewrite Er.
  assert (exists r', Some (option_map S r) = Some r' /\ forall i, r' = Some i ->
    exists d l, (c :: arr) !! i = Some d /\ status d = L_BUILDING /\ lst d = Some l /\
      events_are_equal (e l) ev = true) as Hlater.
  { eexists. split; [done|]. destruct r as [j|]; [|done]. intros i [= <-]. by apply Hr. }
  destruct (decide (status c = L_BUILDING)) as [Es|Es]; [|done].
  destruct (Hc ltac:(by rewrite Es)) as (l & Hl & _). rewrite Hl. cbn.
  destruct (events_are_equal (e l) ev) eqn:Ee; [|done].
  eexists. split; [done|]. intros i [= <-]. by exists c, l.
Qed.

(** Putting [c'] in a slot that [inv] knows. *)
Lemma inv_insert st i c c' m r :
  inv st -> array (lo st) !! i = Some c -> slot_ok c' ->
  -1 <= m < limit (lo st) ->
  (forall j d, <[i := c']> (array (lo st)) !! j = Some d -> m < Z.of_nat j -> status d = L_EMPTY) ->
  r + (if decide (status c = L_COMPLETE) then 1 else 0)
    = ready st + (if decide (status c' = L_COMPLETE) then 1 else 0) ->
  inv (State (LoL (<[i := c']> (array (lo st))) m (limit (lo st))) r
         (first_sec st) (first_milli st)).
Proof.
  intros Hv Hi Hc' Hm Ha Hr. split; cbn; [|done|done| |].
  - rewrite length_insert. apply Hv.
  - apply Forall_insert; [apply Hv|done].
  - pose proof (completed_insert _ _ _ c' Hi). rewrite (inv_ready _ Hv) in Hr. lia.
Qed.

Lemma add_to_slot_spec st i c l n f :
  inv st -> array (lo st) !! i = Some c -> status c = L_BUILDING -> lst c = Some l ->
  exists st' l' n', add_to_slot i n f st = Some st' /\ inv st' /\
    stored st ≡ₚ (L_BUILDING, l) :: others i (array (lo st)) /\
    stored st' ≡ₚ (L_BUILDING, l') :: others i (array (lo st)) /\
    e l' = e l /\ nodes (records l') = nodes (records l) ++ [n'] /\ same_but_item n n'.
Proof.
  intros Hv Hi Hs Hl.
  pose proof (Forall_lookup_1 _ _ _ _ (inv_slots _ Hv) Hi) as Hc.
  destruct (Hc ltac:(by rewrite Hs)) as (l0 & Hl0 & Hok & Hend).
  rewrite Hl in Hl0. injection Hl0 as <-.
  destruct (list_append_spec n l Hok Hend) as (l' & n' & Ea & En & Hn & Ee & _ & _ & Hok' & Hend').
  unfold add_to_slot. rewrite Hi. cbn. rewrite Hl. cbn. rewrite Ea. cbn.
  eexists _, (LList (records l') (e l') (s l') (Z.max (fmt l') f)), n'. split; [done|].
  unfold stored. split_and!; try done.
  - apply (inv_insert st i c); [done|done| |apply Hv| |cbn; lia].
    + intros _. cbn. eexists. split; [done|]. split; [|done]. by destruct Hok'.
    + intros j d Hj Hm. destruct (decide (j = i)) as [->|Hne].
      * pose proof (in_use _ _ _ Hv Hi ltac:(by rewrite Hs)). lia.
      * rewrite list_lookup_insert_ne in Hj by done. by eapply inv_above.
  - rewrite (entries_at _ _ _ Hi). unfold entry. rewrite decide_False by by rewrite Hs.
    by rewrite Hl, Hs.
  - cbn. rewrite entries_insert by by eapply lookup_lt_Some. unfold entry. cbn.
    rewrite decide_False by by rewrite Hs. by rewrite Hs.
Qed.

Lemma first_empty_Some arr i :
  first_empty arr = Some i -> exists c, arr !! i = Some c /\ status c = L_EMPTY.
Proof.
  revert i. induction arr as [|c arr IH]; intros i; cbn; [done|].
  case_decide; [intros [= <-]; by exists c|]. intros (j & Hj & ->)%fmap_Some. by apply IH.
Qed.

Lemma slot_ok_free : slot_ok free_slot.
Proof. by intros []. Qed.

Lemma entries_free n : entries (replicate n free_slot) = [].
Proof. by induction n. Qed.

(** A larger array. *)
Lemma inv_grow st n :
  inv st ->
  inv (set_lo (LoL (array (lo st) ++ replicate n free_slot) (maxi (lo st))
                 (limit (lo st) + Z.of_nat n)) st).
Proof.
  intros Hv. pose proof (inv_maxi _ Hv). split; cbn.
  - rewrite length_app, length_replicate, (inv_limit _ Hv). lia.
  - lia.
  - intros i c [Hi|[_ Hi]]%lookup_app_Some Hm; [by eapply inv_above|].
    by apply lookup_replicate in Hi as [-> _].
  - apply Forall_app. split; [apply Hv|]. apply Forall_replicate, slot_ok_free.
  - rewrite (inv_ready _ Hv). unfold completed. rewrite filter_app, length_app.
    rewrite (filter_none _ (replicate n free_slot)); [cbn; lia|].
    apply Forall_replicate. done.
Qed.

(** A new event in a free slot. *)
Lemma inv_place st i c x m :
  inv st -> array (lo st) !! i = Some c -> status c = L_EMPTY -> ok x -> at_end x ->
  m = Z.max (maxi (lo st)) (Z.of_nat i) ->
  let st' := set_lo (LoL (<[i := LolNode (Some x) L_BUILDING]> (array (lo st))) m
                       (limit (lo st))) st in
  inv st' /\ stored st' ≡ₚ (L_BUILDING, x) :: stored st.
Proof.
  intros Hv Hi Hs Hok Hend ->. pose proof (lookup_lt_Some _ _ _ Hi) as Hlt.
  pose proof (inv_maxi _ Hv). pose proof (inv_limit _ Hv). split.
  - apply (inv_insert st i c); [done|done| |lia|
      |by rewrite !decide_False by (cbn; congruence)].
    + intros _. by exists x.
    + intros j d Hj Hm. destruct (decide (j = i)) as [->|Hne]; [lia|].
      rewrite list_lookup_insert_ne in Hj by done. eapply inv_above; [done..|lia].
  - unfold stored. cbn. rewrite entries_insert, (entries_at _ _ _ Hi) by done.
    rewrite (entry_empty c) by done. done.
Qed.

Lemma lol_append_spec st x :
  (forall n, realloc_ok n = true) -> inv st -> ok x -> at_end x ->
  let st' := set_lo (lol_append realloc_ok (lo st) x) st in
  inv st' /\ stored st' ≡ₚ (L_BUILDING, x) :: stored st.
Proof.
  intros Hr Hv Hok Hend. unfold lol_append. destruct (first_empty _) as [i|] eqn:Ei.
  - apply first_empty_Some in Ei as (c & Hi & Hs). by apply (inv_place st i c).
  - rewrite Hr. set (n := Z.to_nat ARRAY_LIMIT).
    pose proof (inv_grow st n Hv) as Hg. pose proof (inv_maxi _ Hv). pose proof (inv_limit _ Hv).
    set (st1 := set_lo _ _) in Hg. set (i := length (array (lo st))).
    assert (array (lo st1) !! i = Some free_slot) as Hi.
    { cbn. rewrite lookup_app_r by done. unfold i. by rewrite Nat.sub_diag. }
    destruct (inv_place st1 i free_slot x (Z.of_nat i) Hg Hi eq_refl Hok Hend) as [Hv' Hp];
      [cbn; lia|].
    split; [exact Hv'|]. etransitivity; [exact Hp|]. unfold stored, entries. cbn [array lo st1 set_lo].
    rewrite omap_app. change (omap entry (replicate n free_slot)) with (entries (replicate n free_slot)).
    by rewrite entries_free, app_nil_r.
Qed.

Lemma new_event_spec ev n f :
  exists l n', new_event ev n f = Some l /\ e l = ev /\ nodes (records l) = [n'] /\
    same_but_item n n' /\ ok l /\ at_end l.
Proof.
  destruct (list_append_spec n (LList cl_create ev no_items f))
    as (l & n' & El & En & Hn & He & _ & _ & Hok & Hend).
  - split; [apply wf_create|done].
  - by intros [].
  - by exists l, n'.
Qed.

End adding.

(** ** Time order *)

(** [e1] is not later than [e2]: the order of the seconds, then of the
    milliseconds, then of the serial numbers. *)
Definition before (e1 e2 : event) : Prop :=
  sec e1 < sec e2 \/ sec e1 = sec e2 /\
    (milli e1 < milli e2 \/ milli e1 = milli e2 /\ serial e1 <= serial e2).

Lemma before_compare e1 e2 : compare_event_time e1 e2 <> 1 <-> before e1 e2.
Proof. unfold before, compare_event_time. zb; cbn; lia. Qed.

Lemma before_trans e1 e2 e3 : before e1 e2 -> before e2 e3 -> before e1 e3.
Proof. unfold before. lia. Qed.

Lemma after_before e1 e2 : compare_event_time e1 e2 = 1 -> before e2 e1.
Proof. unfold before, compare_event_time. zb; cbn; lia. Qed.

Lemma before_refl e1 : before e1 e1.
Proof. unfold before. lia. Qed.

(** ** Taking an event *)

(** [l] is in slot [k] of the first [n]. *)
Definition holds_at (arr : list lolnode) (n k : nat) (l : llist) : Prop :=
  exists c, (k < n)%nat /\ arr !! k = Some c /\ status c <> L_EMPTY /\ lst c = Some l.

Lemma holds_at_S arr n k c l : holds_at arr n k l -> holds_at (c :: arr) (S n) (S k) l.
Proof. intros (d & ? & ? & ? & ?). exists d. split_and!; try done. lia. Qed.

Lemma holds_at_cons arr n k c l :
  holds_at (c :: arr) (S n) k l ->
  (k = O /\ status c <> L_EMPTY /\ lst c = Some l) \/ exists k', k = S k' /\ holds_at arr n k' l.
Proof.
  destruct k as [|k]; intros (d & Hk & Hd & Hs & Hl); cbn in Hd.
  - injection Hd as <-. by left.
  - right. exists k. split; [done|]. exists d. split_and!; try done. lia.
Qed.

(** [r] is the lowest of [low] and of the first [n] slots, the first of which
    is slot [i]. *)
Definition is_lowest (arr : list lolnode) (n i : nat) (low r : option (nat * llist)) : Prop :=
  match r with
  | None => low = None /\ forall k l, ~ holds_at arr n k l
  | Some (j, l) =>
      (low = Some (j, l) \/ exists k, j = (i + k)%nat /\ holds_at arr n k l) /\
      (forall m, low = Some m -> before (e l) (e m.2)) /\
      forall k l', holds_at arr n k l' -> before (e l) (e l')
  end.

Lemma is_lowest_none arr n i low :
  (forall k l, ~ holds_at arr n k l) -> is_lowest arr n i low low.
Proof.
  intros Hn. destruct low as [[j l]|]; [|done]. split; [by left|].
  split; [intros m [= <-]; apply before_refl|]. intros k l' Hk. by destruct (Hn k l').
Qed.

(** The lower of [low] and the list [l] in slot [i]. *)
Lemma lower_of (low : option (nat * llist)) (i : nat) (l : llist) :
  exists j m, match low with
              | None => Some (i, l)
              | Some (j, m) => if compare_event_time (e m) (e l) =? 1 then Some (i, l) else Some (j, m)
              end = Some (j, m) /\ before (e m) (e l) /\
    (low = Some (j, m) \/ j = i /\ m = l) /\
    (forall m', low = Some m' -> before (e m) (e m'.2)).
Proof.
  destruct low as [[j m]|].
  - destruct (Z.eqb_spec (compare_event_time (e m) (e l)) 1) as [Ec|Ec].
    + exists i, l. split_and!; [done|apply before_refl|by right|].
      intros m' [= <-]. by apply after_before.
    + exists j, m. split_and!; [done|by apply before_compare|by left|].
      intros m' [= <-]. apply before_refl.
  - exists i, l. split_and!; [done|apply before_refl|by right|done].
Qed.

Lemma lowest_spec arr : forall n i low,
  Forall slot_ok arr -> (n <= length arr)%nat ->
  exists r, lowest n i arr low = Some r /\ is_lowest arr n i low r.
Proof.
  induction arr as [|c arr IH]; intros n i low Hok Hn.
  { destruct n; [|cbn in Hn; lia]. exists low. split; [done|].
    apply is_lowest_none. by intros k l (d & ? & ? & _). }
  destruct n as [|n].
  { exists low. split; [done|]. apply is_lowest_none. intros k l (d & ? & _). lia. }
  apply Forall_cons in Hok as [Hc Hok]. cbn in Hn. cbn [lowest]. case_decide as Hs.
  - destruct (IH n (S i) low Hok ltac:(lia)) as ([[j l]|] & Er & Hr);
      (eexists; split; [exact Er|]).
    + destruct Hr as (Hin & Hlow & Hall). split_and!; [|done|].
      * destruct Hin as [|(k & -> & Hk)]; [by left|]. right. exists (S k).
        split; [lia|by apply holds_at_S].
      * intros k l' [(_ & ? & _)|(k' & -> & Hk')]%holds_at_cons; [done|by eapply Hall].
    + destruct Hr as [-> Hr]. split; [done|].
      intros k l [(_ & ? & _)|(k' & -> & Hk')]%holds_at_cons; [done|by eapply Hr].
  - destruct (Hc Hs) as (l & Hl & _). rewrite Hl. cbn.
    destruct (lower_of low i l) as (j0 & m0 & -> & Hb0 & Hin0 & Hl0).
    destruct (IH n (S i) (Some (j0, m0)) Hok ltac:(lia)) as ([[j l1]|] & Er & Hr);
      (eexists; split; [exact Er|]); [|by destruct Hr].
    destruct Hr as (Hin & Hlow & Hall). specialize (Hlow _ eq_refl). cbn in Hlow. split_and!.
    + destruct Hin as [[= <- <-]|(k & -> & Hk)].
      * destruct Hin0 as [|[-> ->]]; [by left|].
        right. exists O. split; [lia|]. exists c. split_and!; try done. lia.
      * right. exists (S k). split; [lia|by apply holds_at_S].
    + intros m' Hm'. eapply before_trans; [done|by apply Hl0].
    + intros k l' [(-> & _ & Hl')|(k' & -> & Hk')]%holds_at_cons; [|by eapply Hall].
      rewrite Hl in Hl'. injection Hl' as <-. by eapply before_trans.
Qed.

Lemma consolidate_spec m (arr : list lolnode) :
  (m < length arr)%nat ->
  (forall j c, arr !! j = Some c -> (m < j)%nat -> status c = L_EMPTY) ->
  exists m', consolidate m arr = Some m' /\ (m' <= m)%nat /\
    forall j c, arr !! j = Some c -> (m' < j)%nat -> status c = L_EMPTY.
Proof.
  induction m as [|m IH]; intros Hm Ha; cbn [consolidate];
    destruct (lookup_lt_is_Some_2 _ _ Hm) as [c Hc]; rewrite Hc; cbn [mbind option_bind].
  { by exists O. }
  case_decide as Hs; [|by exists (S m)].
  destruct IH as (m' & -> & Hle & Ha'); [lia| |by exists m'; split_and!; [|lia|]].
  intros j d Hj Hlt. destruct (decide (j = S m)) as [->|]; [congruence|].
  apply (Ha j d Hj). lia.
Qed.

(** What is in use is stored. *)
Lemma stored_holds st x : inv st -> x ∈ stored st <->
  exists k c, array (lo st) !! k = Some c /\ status c = x.1 /\ status c <> L_EMPTY /\
    lst c = Some x.2.
Proof.
  intros Hv. unfold stored, entries. rewrite list_elem_of_omap. split.
  - intros (c & [k Hk]%list_elem_of_lookup & Hc). exists k, c. unfold entry in Hc.
    case_decide; [done|]. by apply fmap_Some in Hc as (l & Hl & ->).
  - intros (k & c & Hk & Hs & Hne & Hl). exists c. split; [by eapply list_elem_of_lookup_2|].
    unfold entry. rewrite decide_False, Hl by done. destruct x. cbn in *. by rewrite Hs.
Qed.

Lemma not_ready st l : inv st -> ready st = 0 -> (L_COMPLETE, l) ∉ stored st.
Proof.
  intros Hv Hr (k & c & Hk & Hs & _)%stored_holds; [|done]. cbn in Hs.
  rewrite (inv_ready _ Hv) in Hr. unfold completed in Hr.
  assert (c ∈ filter (fun c => status c = L_COMPLETE) (array (lo st))) as Hin.
  { apply list_elem_of_filter. split; [done|]. by eapply list_elem_of_lookup_2. }
  destruct (filter _ _); [by apply not_elem_of_nil in Hin|cbn in Hr; lia].
Qed.

(** What [get_ready_event] does in any state. *)
Definition takes_lowest (st : state) (o : option llist) (st' : state) : Prop :=
  match o with
  | Some l => stored st ≡ₚ (L_COMPLETE, l) :: stored st' /\
              Forall (fun x => before (e l) (e x.2)) (stored st')
  | None => st' = st /\
            forall l, (L_COMPLETE, l) ∈ stored st ->
              exists m, (L_BUILDING, m) ∈ stored st /\ before (e m) (e l)
  end.

Lemma get_ready_spec st :
  inv st -> exists o st', get_ready_event st = Some (o, st') /\ inv st' /\ takes_lowest st o st'.
Proof.
  intros Hv. unfold get_ready_event. destruct (Z.eqb_spec (ready st) 0) as [Hr|_].
  { exists None, st. do 3 (split; [done|]). intros l Hl. by destruct (not_ready st l Hv Hr). }
  destruct (lowest_spec (array (lo st)) (Z.to_nat (maxi (lo st) + 1)) 0 None)
    as (r & -> & Hlow); [apply Hv|by apply upto_maxi|]. cbn [mbind option_bind].
  assert (forall x, x ∈ stored st ->
    exists k, holds_at (array (lo st)) (Z.to_nat (maxi (lo st) + 1)) k x.2) as Hheld.
  { intros x (k & c & Hk & _ & Hne & Hl)%stored_holds; [|done].
    exists k, c. split_and!; try done. by eapply in_use. }
  destruct r as [[i l]|].
  2: { exists None, st. do 3 (split; [done|]). intros l Hl. destruct (Hheld _ Hl) as [k Hk].
       by destruct Hlow as [_ []%(fun H => H k l)]. }
  destruct Hlow as ([|(k & -> & c & Hk & Hc & Hne & Hl)] & _ & Hall); [done|]. cbn [plus] in *.
  rewrite Hc. cbn [mbind option_bind].
  assert (entry c = Some (status c, l)) as Hent
    by (unfold entry; by rewrite decide_False, Hl by done).
  assert (stored st ≡ₚ (status c, l) :: others k (array (lo st))) as Hst
    by (unfold stored; by rewrite (entries_at _ _ _ Hc), Hent).
  case_decide as Hcomp.
  2: { exists None, st. do 3 (split; [done|]). intros l' Hl'. exists l. split.
       - rewrite Hst. destruct (status c); [done|by left|done].
       - destruct (Hheld _ Hl') as [k' Hk']. by eapply Hall. }
  set (arr := <[k := _]> (array (lo st))).
  pose proof (lookup_lt_Some _ _ _ Hc) as Hlt. pose proof (inv_maxi _ Hv).
  assert (length arr = length (array (lo st))) as Hla by apply length_insert.
  assert (forall j d, arr !! j = Some d -> maxi (lo st) < Z.of_nat j -> status d = L_EMPTY) as Ha.
  { intros j d Hj Hm. destruct (decide (j = k)) as [->|Hjk]; [lia|].
    unfold arr in Hj. rewrite list_lookup_insert_ne in Hj by done. by eapply inv_above. }
  assert (exists m, (if Z.of_nat k =? maxi (lo st) then m ← consolidate k arr; Some (Z.of_nat m)
                     else Some (maxi (lo st))) = Some m /\ -1 <= m < limit (lo st) /\
    forall j d, arr !! j = Some d -> m < Z.of_nat j -> status d = L_EMPTY) as (m & -> & Hm & Ham).
  { destruct (Z.eqb_spec (Z.of_nat k) (maxi (lo st))) as [Ek|_]; [|by exists (maxi (lo st))].
    destruct (consolidate_spec k arr) as (m & -> & Hmk & Ham); [lia| |].
    { intros j d Hj Hkj. apply (Ha j d Hj). lia. }
    exists (Z.of_nat m). split_and!; [done|lia|lia|]. intros j d Hj Hmj. apply (Ham j d Hj). lia. }
  cbn [mbind option_bind]. eexists _, _. split; [done|].
  assert (entries arr ≡ₚ others k (array (lo st))) as Hrest.
  { unfold arr. rewrite entries_insert by done. by rewrite entry_empty. }
  split; [|split].
  - apply (inv_insert st k c); [done|done|by intros []|done|done|]. rewrite decide_True, decide_False by done. lia.
  - rewrite Hst, Hcomp. unfold stored. cbn. by rewrite Hrest.
  - unfold stored. cbn. rewrite Hrest. apply Forall_forall. intros x Hx.
    destruct (Hheld x) as [k' Hk']; [rewrite Hst; by right|]. by eapply Hall.
Qed.

(** ** Runs of the program *)

(** What identifies an event, and a record but for its number. *)
Definition key_of (ev : event) : Z * Z * Z * option string :=
  (sec ev, milli ev, serial ev, node ev).
Definition body (n : lnode) : lnode :=
  LNode (message n) (interp n) (mlen n) (tlen n) (ntype n) (a0 n) (a1 n) 0.

(** The records of an event under its key. *)
Definition tag (l : llist) : list (Z * Z * Z * option string * lnode) :=
  (fun n => (key_of (e l), body n)) <$> nodes (records l).

Lemma events_are_equal_key e1 e2 : events_are_equal e1 e2 = true <-> key_of e1 = key_of e2.
Proof.
  unfold events_are_equal, key_of. rewrite !andb_true_iff, !Z.eqb_eq.
  assert (match node e1, node e2 with
          | Some a, Some b => str_eq a b | None, None => true | _, _ => false end = true
          <-> node e1 = node e2) as ->.
  { destruct (node e1), (node e2); try done. rewrite str_eq_true. split; congruence. }
  split; [intros [[[-> ->] ->] ->]; done|by intros [= -> -> -> ->]].
Qed.

Lemma perm_append_middle {A} (x : A) xs ys zs :
  (xs ++ [x]) ++ ys ++ zs ≡ₚ (ys ++ xs ++ zs) ++ [x].
Proof.
  rewrite <-!app_assoc, (Permutation_app_comm [x]), !app_assoc.
  by rewrite (Permutation_app_comm xs ys).
Qed.

Section runs.
Context `{MsgTypes} (w : SearchTime.window) (realloc_ok : Z -> bool).

(** The lines that are read without leaving the buffer. *)
Definition readable (b : string) : Prop := event_of w b <> None.

(** The record of a line under the key of its event. *)
Definition filed (b : string) : option (Z * Z * Z * option string * lnode) :=
  match event_of w b with
  | Some (Some ev) => Some (key_of ev, body (fst (record_of (type ev) b)))
  | _ => None
  end.

Lemma note_first_same b st :
  lo (note_first w b st) = lo st /\ ready (note_first w b st) = ready st.
Proof. unfold note_first. destruct (stamp_of b) as [[[? ?] ?]|]; [|done]. by case_match. Qed.

Lemma inv_same st st' : lo st' = lo st -> ready st' = ready st -> inv st -> inv st'.
Proof. intros Hl Hr []. by split; rewrite ?Hl, ?Hr. Qed.

(** One record: nothing happens, or it is appended to an event of its key, or
    it starts one. *)
Lemma add_record_spec b st :
  (forall n, realloc_ok n = true) -> readable b -> inv st ->
  exists r st', lol_add_record w realloc_ok b st = Some (r, st') /\ inv st' /\
  ((r = 0 /\ stored st' = stored st) \/
   (r = 1 /\ exists x old l rest, filed b = Some x /\
      (stored st).*2 ≡ₚ option_list old ++ rest /\ (stored st').*2 ≡ₚ l :: rest /\
      tag l = from_option tag [] old ++ [x])).
Proof.
  intros Hre Hb Hv. unfold lol_add_record, extract_timestamp, filed.
  destruct (event_of w b) as [ev|] eqn:Eb; [|done]. cbn [mbind option_bind].
  destruct (note_first_same b st) as [Hlo Hrd].
  assert (inv (note_first w b st)) as Hv1 by by eapply inv_same.
  assert (stored (note_first w b st) = stored st) as Hst1 by (unfold stored; by rewrite Hlo).
  set (st1 := note_first w b st) in *. clearbody st1.
  destruct ev as [ev|]; [|do 2 eexists; split; [done|]; split; [done|by left]].
  destruct (record_of (type ev) b) as [n f].
  destruct (find_building_spec ev (Z.to_nat (maxi (lo st1) + 1)) (array (lo st1)))
    as (slot & -> & Hslot); [apply Hv1|by apply upto_maxi|]. cbn [mbind option_bind].
  destruct slot as [i|].
  - destruct (Hslot i eq_refl) as (c & l & Hi & Hs & Hl & Heq).
    destruct (add_to_slot_spec st1 i c l n f Hv1 Hi Hs Hl)
      as (st2 & l' & n' & -> & Hv2 & H1 & H2 & He & Hn & Hsame). cbn [mbind option_bind].
    do 2 eexists. split; [done|]. split; [done|]. right. split; [done|].
    eexists _, (Some l), l', _. split; [done|].
    rewrite <-Hst1, H1, H2. cbn. split; [done|]. split; [done|].
    unfold tag. rewrite He, Hn, fmap_app. cbn. apply events_are_equal_key in Heq.
    rewrite Heq. change (body n = body n') in Hsame. by rewrite Hsame.
  - destruct (type ev =? AUDIT_EOE); [do 2 eexists; split; [done|]; split; [done|by left]|].
    destruct (new_event_spec ev n f) as (l & n' & -> & He & Hn & Hsame & Hok & Hend).
    cbn [mbind option_bind].
    destruct (lol_append_spec realloc_ok st1 l Hre Hv1 Hok Hend) as [Hv2 Hst2].
    unfold check_events.
    match goal with |- context [ complete_events ?p ?st2 ] =>
      destruct (complete_events_spec p st2 Hv2) as (st3 & -> & Hv3 & _ & Hst3) end.
    cbn [mbind option_bind]. do 2 eexists. split; [done|]. split; [done|]. right.
    split; [done|]. eexists _, None, l, (stored st).*2. split; [done|]. cbn.
    split; [done|]. split; [by rewrite Hst3, Hst2, Hst1|].
    unfold tag. rewrite He, Hn. cbn. change (body n = body n') in Hsame. by rewrite Hsame.
Qed.

(** A run calls the three operations in any order; [out] is what was taken,
    [acc] the records that were accepted. *)
Inductive op := Add (b : string) | Get | Terminate.
Record trace := Trace {
  now : state;
  out : list llist;
  acc : list (Z * Z * Z * option string * lnode);
}.

Definition do_op (o : op) (t : trace) : option trace :=
  match o with
  | Add b => '(r, st) ← lol_add_record w realloc_ok b (now t);
             Some (Trace st (out t) (acc t ++ if r =? 1 then option_list (filed b) else []))
  | Get => '(l, st) ← get_ready_event (now t); Some (Trace st (out t ++ option_list l) (acc t))
  | Terminate => st ← terminate_all_events (now t); Some (Trace st (out t) (acc t))
  end.

Fixpoint run (os : list op) (t : trace) : option trace :=
  match os with [] => Some t | o :: os => t ← do_op o t; run os t end.

Definition start_trace : trace := Trace start [] [].

Definition op_readable (o : op) : Prop := match o with Add b => readable b | _ => True end.

(** All events of a run, taken or not. *)
Definition events (t : trace) : list llist := out t ++ (stored (now t)).*2.

Record good (t : trace) : Prop := Good {
  good_inv : inv (now t);
  good_all : events t ≫= tag ≡ₚ acc t;
  good_order : Forall (fun l => tag l `sublist_of` acc t) (events t);
}.

Lemma good_start : good start_trace.
Proof.
  split; [|done..]. split; cbn; try done.
  - intros i c [-> _]%lookup_replicate _. done.
  - apply Forall_replicate, slot_ok_free.
Qed.

(** The same events in another order. *)
Lemma good_perm t t' :
  inv (now t') -> events t' ≡ₚ events t -> acc t' = acc t -> good t -> good t'.
Proof.
  intros Hv Hp Ha [_ Hall Ho]. split; [done|by rewrite Hp, Ha|]. by rewrite Hp, Ha.
Qed.

Lemma do_op_good o t :
  (forall n, realloc_ok n = true) -> op_readable o -> good t ->
  exists t', do_op o t = Some t' /\ good t'.
Proof.
  intros Hre Ho Ht. destruct o as [b| |]; cbn [do_op].
  - destruct (add_record_spec b (now t) Hre Ho (good_inv _ Ht)) as (r & st & -> & Hv & Hr).
    cbn [mbind option_bind]. eexists. split; [done|]. destruct Hr as [[-> Hst]|(-> & x & old & l & rest & -> & H1 & H2 & Hl)].
    + cbn. apply (good_perm t); [done| |cbn; by rewrite app_nil_r|done].
      unfold events. cbn. by rewrite Hst.
    + cbn. destruct Ht as [_ Hall Hord]. unfold events in *.
      assert (events (Trace st (out t) (acc t ++ [x])) ≡ₚ l :: out t ++ rest) as Hev.
      { unfold events. cbn. by rewrite H2, Permutation_middle. }
      rewrite H1 in Hall, Hord. apply Forall_app in Hord as [Hout [Hold Hrest]%Forall_app].
      split; [done| |].
      * rewrite Hev. cbn. rewrite Hl, <-Hall. cbn.
        rewrite !bind_app, perm_append_middle. by destruct old; cbn; rewrite ?app_nil_r.
      * rewrite Hev. constructor.
        -- rewrite Hl. cbn. apply sublist_app; [|done].
           destruct old as [y|]; [|apply sublist_nil_l]. by apply (Forall_cons_1 _ y []) in Hold as [? _].
        -- apply Forall_app. split; (eapply Forall_impl; [done|]); intros; cbn;
             by apply sublist_inserts_r.
  - destruct (get_ready_spec (now t) (good_inv _ Ht)) as (l & st & -> & Hv & Hl). cbn.
    eexists. split; [done|]. apply (good_perm t); [done| |done|done].
    unfold events. cbn. destruct l as [l|]; cbn in *.
    + destruct Hl as [-> _]. cbn. by rewrite <-app_assoc.
    + destruct Hl as [-> _]. by rewrite app_nil_r.
  - unfold terminate_all_events.
    destruct (complete_events_spec (fun _ => true) (now t) (good_inv _ Ht)) as (st & -> & Hv & _ & Hst).
    cbn. eexists. split; [done|]. apply (good_perm t); [done| |done|done].
    unfold events. cbn. by rewrite Hst.
Qed.

Lemma run_good os t :
  (forall n, realloc_ok n = true) -> Forall op_readable os -> good t ->
  exists t', run os t = Some t' /\ good t'.
Proof.
  intros Hre. revert t. induction os as [|o os IH]; intros t Ho Ht; [by exists t|].
  apply Forall_cons in Ho as [Ho Hos]. cbn.
  destruct (do_op_good o t Hre Ho Ht) as (t1 & -> & Ht1). by apply IH.
Qed.

(** Taking events until there is none. *)
Fixpoint drain (fuel : nat) (st : state) : option (list llist * state) :=
  match fuel with
  | O => None
  | S fuel =>
      '(o, st) ← get_ready_event st;
      match o with
      | None => Some ([], st)
      | Some l => '(ls, st) ← drain fuel st; Some (l :: ls, st)
      end
  end.

Lemma drain_spec fuel st :
  inv st -> Forall (fun x => x.1 = L_COMPLETE) (stored st) -> (length (stored st) < fuel)%nat ->
  exists ls st', drain fuel st = Some (ls, st') /\ ls ≡ₚ (stored st).*2 /\ stored st' = [] /\
    StronglySorted (fun a b => before (e a) (e b)) ls.
Proof.
  revert st. induction fuel as [|fuel IH]; intros st Hv Hc Hf; [lia|]. cbn [drain].
  destruct (get_ready_spec st Hv) as (o & st1 & -> & Hv1 & Ho). cbn [mbind option_bind].
  destruct o as [l|].
  - destruct Ho as [Hp Hb]. rewrite Hp in Hc, Hf. apply Forall_cons in Hc as [_ Hc].
    destruct (IH st1 Hv1 Hc) as (ls & st2 & -> & Hls & Hst & Hs); [cbn in Hf; lia|].
    cbn [mbind option_bind]. do 2 eexists. split; [done|]. split; [by rewrite Hp, Hls|].
    split; [done|]. constructor; [done|]. rewrite Hls, Forall_fmap. exact Hb.
  - destruct Ho as [-> Hn]. do 2 eexists. split; [done|].
    destruct (stored st) as [|[s l] xs] eqn:Es; [split_and!; [done..|constructor]|]. exfalso.
    apply Forall_cons in Hc as [Hs Hc]. cbn in Hs. subst s.
    destruct (Hn l) as (m & Hm & _); [by left|]. apply elem_of_cons in Hm as [|Hm]; [done|].
    rewrite Forall_forall in Hc. by specialize (Hc _ Hm).
Qed.

Lemma entries_terminated arr :
  Forall slot_ok arr -> Forall (fun x => x.1 = L_COMPLETE) (entries (mark (fun _ => true) <$> arr)).
Proof.
  unfold entries. induction 1 as [|c arr Hc _ IH]; [constructor|]. cbn.
  destruct (entry (mark _ c)) as [x|] eqn:Ex; [|done]. constructor; [|done].
  unfold entry in Ex. case_decide as Hs; [done|]. apply fmap_Some in Ex as (l & Hl & ->). cbn.
  unfold mark in *. destruct (status c) eqn:E, (lst c) eqn:El; cbn in *; congruence.
Qed.

(** C38: no record is lost or duplicated: after any calls of the three
    operations, the records of the events that were taken and of those still
    stored are the accepted records, each under the stamp and node of its own
    line, and within an event in the order of the lines. *)
Theorem records_conserved os :
  (forall n, realloc_ok n = true) -> Forall op_readable os ->
  exists t, run os start_trace = Some t /\ events t ≫= tag ≡ₚ acc t /\
    Forall (fun l => tag l `sublist_of` acc t) (events t).
Proof.
  intros Hre Ho. destruct (run_good os start_trace Hre Ho good_start) as (t & E & Hg).
  exists t. split; [done|]. split; apply Hg.
Qed.

(** C39: in every state that is reached, [get_ready_event] takes the event with
    the lowest stamp of all that are stored, if it is complete; if it takes none
    although one is complete, an event before it is still being built. *)
Theorem taken_in_order os t :
  (forall n, realloc_ok n = true) -> Forall op_readable os -> run os start_trace = Some t ->
  exists o st', get_ready_event (now t) = Some (o, st') /\
  match o with
  | Some l => stored (now t) ≡ₚ (L_COMPLETE, l) :: stored st' /\
              Forall (fun x => before (e l) (e x.2)) (stored st')
  | None => st' = now t /\
            forall l, (L_COMPLETE, l) ∈ stored (now t) ->
              exists m, (L_BUILDING, m) ∈ stored (now t) /\ before (e m) (e l)
  end.
Proof.
  intros Hre Ho Hr. destruct (run_good os start_trace Hre Ho good_start) as (t' & E & Hg).
  assert (t' = t) as -> by congruence.
  destruct (get_ready_spec (now t) (good_inv _ Hg)) as (o & st' & -> & _ & Hl). by exists o, st'.
Qed.

(** C40: at the end of the log everything comes out: after
    [terminate_all_events], taking events until there is none gives all stored
    events, ordered by time stamp, and leaves nothing. *)
Theorem drained_in_order os t :
  (forall n, realloc_ok n = true) -> Forall op_readable os -> run os start_trace = Some t ->
  exists st1 ls st2, terminate_all_events (now t) = Some st1 /\
    drain (S (length (stored (now t)))) st1 = Some (ls, st2) /\
    ls ≡ₚ (stored (now t)).*2 /\ StronglySorted (fun a b => before (e a) (e b)) ls /\
    stored st2 = [].
Proof.
  intros Hre Ho Hr. destruct (run_good os start_trace Hre Ho good_start) as (t' & E & Hg).
  assert (t' = t) as -> by congruence. unfold terminate_all_events.
  destruct (complete_events_spec (fun _ => true) (now t) (good_inv _ Hg))
    as (st1 & -> & Hv1 & Harr & Hst1).
  assert (length (stored st1) = length (stored (now t))) as Hlen
    by (rewrite <-!(length_fmap snd), Hst1; done).
  destruct (drain_spec (S (length (stored (now t)))) st1) as (ls & st2 & Ed & Hp & He & Hs);
    [done| |lia|].
  { unfold stored. rewrite Harr. apply entries_terminated, (good_inv _ Hg). }
  exists st1, ls, st2. split_and!; try done. by rewrite Hp, Hst1.
Qed.

End runs.

(** ** Concrete inputs *)

Local Open Scope string_scope.

Definition sample_types : MsgTypes := fun s =>
  if str_eq s "SYSCALL" then Some 1300 else if str_eq s "CWD" then Some 1307
  else if str_eq s "EOE" then Some AUDIT_EOE else None.
Definition whole_log : SearchTime.window := SearchTime.Window 0 0.

(** The records of two events, interleaved, and an event two seconds later. *)
Definition sample_ops : list op :=
  [Add "type=SYSCALL msg=audit(100.002:8): arch=c000003e"; Get;
   Add "node=web type=SYSCALL msg=audit(100.001:7): arch=c000003e"; Get;
   Add "type=CWD msg=audit(100.002:8): cwd=/"; Get;
   Add "type=SYSCALL msg=audit(102.000:9): arch=c000003e"; Get].

Lemma sample_readable : Forall (@op_readable sample_types whole_log) sample_ops.
Proof. repeat constructor; vm_compute; discriminate. Qed.

Lemma records_conserved_witness :
  exists t, @run sample_types whole_log (fun _ => true) sample_ops start_trace = Some t /\
    events t ≫= tag ≡ₚ acc t /\ length (acc t) = 4%nat.
Proof.
  destruct (@records_conserved sample_types whole_log (fun _ => true) sample_ops)
    as (t & E & Hp & _); [done|exact sample_readable|].
  exists t. split; [exact E|]. split; [exact Hp|].
  apply (f_equal (fmap (fun t => length (acc t)))) in E. vm_compute in E. by injection E.
Defined.

Definition sample_end : trace :=
  default start_trace (@run sample_types whole_log (fun _ => true) sample_ops start_trace).

Lemma sample_run :
  @run sample_types whole_log (fun _ => true) sample_ops start_trace = Some sample_end.
Proof. vm_compute. reflexivity. Qed.

Lemma taken_in_order_witness :
  exists o st', get_ready_event (now sample_end) = Some (o, st') /\
    match o with Some l => key_of (e l) = (100, 2, 8, None) | None => False end.
Proof.
  destruct (@taken_in_order sample_types whole_log (fun _ => true) sample_ops sample_end)
    as (o & st' & E & _); [done|exact sample_readable|exact sample_run|].
  exists o, st'. split; [exact E|].
  assert ((fun x => option_map (fun l => key_of (e l)) x.1) <$> get_ready_event (now sample_end)
    = Some (Some (100, 2, 8, None))) as Ek by (vm_compute; reflexivity).
  rewrite E in Ek. destruct o as [l|]; [|discriminate Ek].
  apply (f_equal (fun x => default (0, 0, 0, None) (default None x))) in Ek. exact Ek.
Defined.

Lemma drained_in_order_witness :
  exists st1 ls st2, terminate_all_events (now sample_end) = Some st1 /\
    drain 3 st1 = Some (ls, st2) /\ StronglySorted (fun a b => before (e a) (e b)) ls /\
    map (fun l => serial (e l)) ls = [8; 9].
Proof.
  destruct (@drained_in_order sample_types whole_log (fun _ => true) sample_ops sample_end)
    as (st1 & ls & st2 & Et & Ed & _ & Hs & _); [done|exact sample_readable|exact sample_run|].
  exists st1, ls, st2. split; [exact Et|].
  assert (drain 3 st1 = Some (ls, st2)) as Ed3 by exact Ed.
  split; [exact Ed3|]. split; [exact Hs|].
  assert (match terminate_all_events (now sample_end) with
          | Some st => match drain 3 st with
                       | Some x => map (fun l => serial (e l)) x.1
                       | None => []
                       end
          | None => []
          end = [8; 9]) as E by (vm_compute; reflexivity).
  rewrite Et, Ed3 in E. exact E.
Defined.

(** The tenth character of the second word is looked at before its length
    is known: for a short line the access is behind the copy on the stack. *)
Theorem short_line_overreads st :
  @lol_add_record sample_types whole_log (fun _ => true) "type=CWD x" st = None.
Proof. reflexivity. Qed.

End LolFacts.
