(* ===== verification/Config.v ===== *)
(** * Configuration files: lines, words and settings

    Five parts of the program read a file of lines [name = value option] the
    same way: auditd (src/auditd-config.c), its reader for the parsing library
    (auparse/auditd-config.c), the dispatcher's plugins
    (audisp/audispd-pconfig.c) and the configurations of the plugins
    audisp-remote and audispd-zos-remote.  This file holds what they share:
    fgets, the two versions of [get_line], [nv_split] above either word
    splitter, the tables of names, the check of the opened file, and the loop
    of [load_config].  Messages to the log are not modelled, and with them the
    line number the parsers get only to print it. *)
From S2P Require Import Prelude CString StrSplit.

Local Open Scope audit_scope.

Module Config.
Import StrSplit.

(** ** Characters and tables *)

Definition tolower (c : ascii) : ascii :=
  if between 65 90 c then ascii_of_nat (nat_of_ascii c + 32) else c.

(** [strcasecmp(a, b) == 0]. *)
Fixpoint strcaseeq (a b : string) : bool :=
  match a, b with
  | EmptyString, EmptyString => true
  | String c a, String d b => (tolower c =c tolower d) && strcaseeq a b
  | _, _ => false
  end.

(** [strncasecmp(s, p, strlen(p)) == 0]. *)
Fixpoint starts_with_case (p s : string) : bool :=
  match p, s with
  | EmptyString, _ => true
  | String c p, String d s => (tolower c =c tolower d) && starts_with_case p s
  | _, EmptyString => false
  end.

(** The first row of a table of names that has the name. *)
Definition nv_lookup {A} (table : list (string * A)) (val : string) : option A :=
  snd <$> List.find (fun row => strcaseeq val row.1) table.

Definition all_digits (s : string) : bool := forallb isdigit (String.list_ascii_of_string s).

(** Only digits, then strtoul: what every parser of a number begins with; [None]
    is the return of 1. *)
Definition number (s : string) : option Z :=
  if all_digits s then let (v, erange) := strtoul 10 s in if erange then None else Some v
  else None.

Definition INT_MAX : Z := 2147483647.

(** ** Files *)

Record stat_t := Stat { st_uid : Z; st_mode : Z; st_ino : Z }.

Definition S_IWOTH : Z := 2.
Definition S_ISREG (mode : Z) : bool := Z.land mode 61440 =? 32768.

(** What [open] gives of a file: an error, which is ENOENT or another, or a
    descriptor, of which there is what fstat says ([None] if it fails) and the
    text behind the stream of fdopen ([None] if it is NULL). *)
Inductive opened :=
| Open_ENOENT
| Open_error
| Opened (st : option stat_t) (text : option chars).

(** The flags the loaders open files with; O_APPEND alone is read-only too. *)
Inductive open_mode := O_RDONLY | O_RDONLY_NOFOLLOW | O_APPEND.

(** The machine the program runs on, as far as the loaders ask for it: [open],
    [opendir] and [stat] of a path, getgrnam, gethostname, getaddrinfo of a
    name with the canonical name and the numeric address of its result, the
    number and size of the blocks of fstatfs, and the product of a number of
    blocks with a percentage in floating point. *)
Class Host := {
  open : string -> open_mode -> opened;
  opendir : string -> bool;
  stat : string -> option stat_t;
  getgrnam : string -> option Z;
  gethostname : option string;
  getaddrinfo : string -> option (string * string);
  fstatfs : option (Z * Z);
  percent_of : Z -> Z -> Z;
}.

(** The checks of a configuration file before it is read; [None] is the return
    of 1. *)
Definition check_file (mode_ok : Z -> bool) (st : option stat_t) : bool :=
  match st with
  | None => false
  | Some st =>
      if negb (st.(st_uid) =? 0) then false
      else if negb (mode_ok st.(st_mode)) then false
      else S_ISREG st.(st_mode)
  end.
Definition not_world_writable (mode : Z) : bool := negb (Z.land mode S_IWOTH =? S_IWOTH).

(** *** Paths: dirname and basename of libgen.h *)

Fixpoint drop_while {A} (f : A -> bool) (l : list A) : list A :=
  match l with [] => [] | x :: l' => if f x then drop_while f l' else l end.
Fixpoint take_while {A} (f : A -> bool) (l : list A) : list A :=
  match l with [] => [] | x :: l' => if f x then x :: take_while f l' else [] end.
Definition slash (c : ascii) : bool := c =c "/"%char.
Definition not_slash (c : ascii) : bool := negb (slash c).
Definition rev_chars (s : string) : chars := rev (String.list_ascii_of_string s).
Definition unrev (l : chars) : string := String.string_of_list_ascii (rev l).

(** Behind the trailing slashes and the last component, without the slashes
    before it; a path of two slashes stays. *)
Definition dirname (path : string) : string :=
  match drop_while slash (rev_chars path) with
  | [] => if str_eq path "" then "." else if str_eq path "//" then "//" else "/"
  | r => match drop_while not_slash r with
         | [] => "."
         | r => match drop_while slash r with
                | [] => if decide (length r = 2%nat) then "//" else "/"
                | r => unrev r
                end
         end
  end%string.

(** The last component; trailing slashes are cut off the argument. *)
Definition basename (path : string) : string * string :=
  match drop_while slash (rev_chars path) with
  | [] => (if str_eq path "" then "." else "/", path)
  | r => (unrev (take_while not_slash r), unrev r)
  end%string.

(** The one of string.h. *)
Definition gnu_basename (path : string) : string := unrev (take_while not_slash (rev_chars path)).

(** [fgets]: at most [n] characters, through the first LF. *)
Fixpoint fgets_chunk (n : nat) (f : chars) : chars * chars :=
  match n, f with
  | O, _ | _, [] => ([], f)
  | S n, c :: f => if c =c LF then ([c], f)
                   else let (a, b) := fgets_chunk n f in (c :: a, b)
  end.
Definition fgets_unlocked (size : nat) (f buf : chars) : option (chars * chars) :=
  match f with
  | [] => None
  | _ => let (a, f) := fgets_chunk (size - 1) f in
         Some (a ++ NUL :: drop (S (length a)) buf, f)
  end.

(** [strchr(buf, 0x0a)]. *)
Definition find_LF (buf : chars) : option nat :=
  fst <$> list_find (fun c => c = LF) (c_string buf 0).

(** [get_line]: the results are whether there is a line, what is left of the
    file, the buffer and the line number. *)
Abbreviation line_result := (option (bool * chars * chars * Z))%type.

(** The version that skips what does not fit: of auditd, auparse and the
    dispatcher. *)
Fixpoint get_line_loop (fuel size : nat) (too_long : bool) (f buf : chars) (lineno : Z)
    : line_result :=
  match fuel with
  | O => None
  | S fuel =>
      match fgets_unlocked size f buf with
      | None => Some (false, [], buf, lineno)
      | Some (buf, f) =>
          match find_LF buf with
          | Some ptr => if too_long then get_line_loop fuel size false f buf (lineno + 1)
                        else Some (true, f, <[ptr := NUL]> buf, lineno)
          | None => get_line_loop fuel size true f buf lineno
          end
      end
  end.
Definition get_line_skipping (size : nat) (f buf : chars) (lineno : Z) : line_result :=
  get_line_loop (S (length f)) size false f buf lineno.

(** The version of the plugins, which takes what fits. *)
Definition get_line_cutting (size : nat) (f buf : chars) (lineno : Z) : line_result :=
  match fgets_unlocked size f buf with
  | None => Some (false, [], buf, lineno)
  | Some (buf, f) =>
      Some (true, f, match find_LF buf with Some ptr => <[ptr := NUL]> buf | None => buf end,
            lineno)
  end.

(** ** Word splitters *)

(** A function that cuts words off a buffer, one a call, and keeps its place:
    [audit_strsplit] of common/strsplit.c, or [strtok_r] of the C library with
    the delimiter blank. *)
Class Splitter := {
  place : Type;
  unset : place;
  split : option nat -> chars -> place -> option (option nat * chars * place);
}.

Definition audit_splitter : Splitter :=
  {| place := option nat; unset := None; split := audit_strsplit |}.

(** [strtok_r(s, " ", &saved)]: skip blanks; the word ends at the next blank, which
    is overwritten, or at the end. *)
Definition blanks (s : chars) : nat :=
  match list_find (fun c => c <> " "%char) s with Some (i, _) => i | None => length s end.
Definition strtok_r (s : option nat) (buf : chars) (saved : nat)
    : option (option nat * chars * nat) :=
  let p := match s with Some p => p | None => saved end in
  if decide (p < length buf)%nat then
    let p := (p + blanks (c_string buf p))%nat in
    match c_string buf p with
    | [] => Some (None, buf, p)
    | w => match list_find (fun c => c = " "%char) w with
           | None => Some (Some p, buf, (p + length w)%nat)
           | Some (i, _) => Some (Some p, <[(p + i)%nat := NUL]> buf, S (p + i))
           end
    end
  else None.
Definition strtok_splitter : Splitter :=
  {| place := nat; unset := 0%nat; split := strtok_r |}.

(** ** Settings *)

(** [struct nv_pair]: pointers into the buffer. *)
Record nv_ptrs := NvPtrs { p_name : option nat; p_value : option nat; p_option : option nat }.

(** What the pointers are to. *)
Record nv_pair := NvPair { name : option string; value : option string; option_ : option string }.
Definition nv_string (buf : chars) (p : nat) : string := String.string_of_list_ascii (c_string buf p).
Definition nv_strings (buf : chars) (nv : nv_ptrs) : nv_pair :=
  NvPair (nv_string buf <$> nv.(p_name)) (nv_string buf <$> nv.(p_value))
    (nv_string buf <$> nv.(p_option)).

Definition is_comment (s : string) : bool := char_at s =c "#"%char.

Definition nv_split `{Splitter} (buf : chars) : option (Z * nv_ptrs * chars) :=
  '(ptr, buf, saved) ← split (Some 0%nat) buf unset;
  match ptr with
  | None => Some (0, NvPtrs None None None, buf)
  | Some n =>
  if is_comment (nv_string buf n) then Some (0, NvPtrs None None None, buf) else
  '(ptr, buf, saved) ← split None buf saved;
  match ptr with
  | None => Some (1, NvPtrs (Some n) None None, buf)
  | Some e =>
  if negb (str_eq (nv_string buf e) "=") then Some (2, NvPtrs (Some n) None None, buf) else
  '(ptr, buf, saved) ← split None buf saved;
  match ptr with
  | None => Some (1, NvPtrs (Some n) None None, buf)
  | Some v =>
  '(ptr, buf, saved) ← split None buf saved;
  match ptr with
  | None => Some (0, NvPtrs (Some n) (Some v) None, buf)
  | Some o =>
  '(ptr, buf, saved) ← split None buf saved;
  Some (match ptr with None => 0 | Some _ => 1 end, NvPtrs (Some n) (Some v) (Some o), buf)
  end end end end.

(** ** Loading *)

Section load.
Context {conf : Type}.

(** The body of the loop behind [nv_split]: the code to return, or 0 to go on,
    and the configuration. *)
Abbreviation handler := (nv_pair -> conf -> Z * conf).

(** [struct kw_pair]; a parser gets the value and the option. *)
Record kw_pair := KwPair {
  kw_name : string;
  parser : string -> option string -> conf -> Z * conf;
  max_options : Z;
}.

Definition kw_lookup (keywords : list kw_pair) (val : string) : option kw_pair :=
  List.find (fun kw => strcaseeq kw.(kw_name) val) keywords.

Definition dispatch (keywords : list kw_pair) : handler := fun nv config =>
  match nv.(name) with
  | None => (0, config)
  | Some nm =>
      match nv.(value) with
      | None => (1, config)
      | Some v =>
          match kw_lookup keywords nm with
          | None => (1, config)
          | Some kw =>
              if (kw.(max_options) =? 0) && negb (bool_decide (nv.(option_) = None))
              then (1, config)
              else let (rc, config) := kw.(parser) v nv.(option_) config in
                   ((if rc =? 0 then 0 else 1), config)
          end
      end
  end.

(** The loop of [load_config]: the code of an early return, or 0, with the line
    number and the configuration at the end. *)
Context (get_line : chars -> chars -> Z -> line_result).
Context (nv_split : chars -> option (Z * nv_ptrs * chars)).
Context (process : handler).

Fixpoint load_lines (fuel : nat) (f buf : chars) (lineno : Z) (config : conf)
    : option (Z * Z * conf) :=
  match fuel with
  | O => None
  | S fuel =>
      '(got, f, buf, lineno) ← get_line f buf lineno;
      if negb got then Some (0, lineno, config) else
      '(_, nv, buf) ← nv_split buf;
      let (rc, config) := process (nv_strings buf nv) config in
      if negb (rc =? 0) then Some (rc, lineno, config)
      else load_lines fuel f buf (lineno + 1) config
  end.
End load.
Arguments kw_pair conf : clear implicits.

End Config.
