(* ===== verification/ConfigFacts.v ===== *)
(** * Facts about configuration files

    What a word splitter promises to [nv_split], and that both do; [nv_split]
    as a function of the words of the line; [get_line] as a function of the
    lines of the file; and the loop of [load_config] as a fold of the handler
    over the lines. *)
From S2P Require Import Prelude CString StrSplit Config.

Local Open Scope audit_scope.

Module ConfigFacts.
Import StrSplit Config.

(** ** Strings in a buffer *)

Lemma until_nul_insert (s : chars) j :
  (length (until_nul s) < j)%nat -> until_nul (<[j := NUL]> s) = until_nul s.
Proof.
  revert j. induction s as [|c s IH]; intros j Hj; [done|]. destruct j as [|j]; [lia|].
  cbn in *. destruct (c =c NUL); [done|]. cbn in Hj. by rewrite IH by lia.
Qed.

Lemma c_string_insert buf q j :
  (q + length (c_string buf q) < j)%nat -> c_string (<[j := NUL]> buf) q = c_string buf q.
Proof.
  intros Hj. unfold c_string in *. rewrite drop_insert_ge by lia. apply until_nul_insert. lia.
Qed.

Lemma until_nul_at (s : chars) j :
  s !! j = Some NUL -> (length (until_nul s) <= j)%nat.
Proof.
  revert j. induction s as [|c s IH]; intros [|j]; cbn; intros Hj; try done.
  - by injection Hj as ->.
  - destruct (c =c NUL); cbn; [lia|]. apply IH in Hj. lia.
Qed.

Lemma c_string_at buf q j :
  (q <= j)%nat -> buf !! j = Some NUL -> (q + length (c_string buf q) <= j)%nat.
Proof.
  intros Hq Hj. assert (length (c_string buf q) <= j - q)%nat; [|lia]. apply until_nul_at.
  rewrite lookup_drop. by replace (q + (j - q))%nat with j by lia.
Qed.

(** Two names that match the same word match each other. *)
Lemma strcaseeq_join a b n : strcaseeq a n = true -> strcaseeq b n = true -> strcaseeq a b = true.
Proof.
  revert b n. induction a as [|c a IH]; intros [|d b] [|e n]; cbn; try done.
  intros [H1%char_eq_true H2]%andb_prop [H3%char_eq_true H4]%andb_prop.
  rewrite H1, <-H3, Ascii.eqb_refl. cbn. by eapply IH.
Qed.

(** ** What a splitter promises *)

(** The words come off in order, and a word that was cut off stays as it is when
    later ones are. *)
Class SplitterOk (S : Splitter) := {
  rest : chars -> place -> chars -> Prop;
  held : chars -> place -> nat -> chars -> Prop;
  held_string buf pl q w : held buf pl q w -> c_string buf q = w;
  cuts (old : nat -> chars -> Prop) (r : option (option nat * chars * place)) (t : chars) : Prop :=
    exists ptr buf pl, r = Some (ptr, buf, pl) /\ (forall q w, old q w -> held buf pl q w) /\
      match ptr with
      | None => words t = []
      | Some q => exists w t', words t = w :: words t' /\ held buf pl q w /\ rest buf pl t'
      end;
  split_first buf t : at_place buf 0 t -> cuts (fun _ _ => False) (split (Some 0%nat) buf unset) t;
  split_next buf pl t : rest buf pl t -> cuts (held buf pl) (split None buf pl) t;
}.

(** [retry] changes the buffer behind the place it starts at, if at all. *)
Lemma retry_cut fuel buf p w buf' saved :
  retry fuel buf p = Some (w, buf', saved) ->
  match saved with
  | None => buf' = buf
  | Some i => buf' = <[i := NUL]> buf /\ (p < i < length buf)%nat /\ exists q, w = Some q /\ (q <= i)%nat
  end.
Proof.
  revert p. induction fuel as [|fuel IH]; intros p; [done|]. cbn [retry]. unfold find_blank.
  case_decide as Hp; [|done]. cbn [mbind option_bind].
  destruct (list_find _ _) as [[k c]|] eqn:Ef; cbn [fmap option_fmap option_map fst].
  - case_decide as Hk.
    + intros Hr%IH. destruct saved as [i|]; [|done]. destruct Hr as (-> & ? & ?).
      split_and!; try done; lia.
    + intros [= <- <- <-]. apply list_find_Some in Ef as [Hl%lookup_lt_Some _].
      assert (length (c_string buf p) <= length (drop p buf))%nat.
      { unfold c_string. generalize (drop p buf). intros s. induction s as [|d s IHs]; cbn; [lia|].
        destruct (d =c NUL); cbn; lia. }
      rewrite length_drop in *. split_and!; try lia; [done|]. exists p. split; [done|lia].
  - by intros [= <- <- <-].
Qed.

#[export] Program Instance audit_splitter_ok : SplitterOk audit_splitter := {|
  rest buf pl t := match pl with Some r => at_place buf (S r) t | None => t = [] end;
  held buf pl q w := c_string buf q = w /\ match pl with Some r => (q + length w <= r)%nat | None => True end;
|}.
Next Obligation. by intros buf pl q w [? _]. Qed.
Next Obligation.
  intros buf t Hp. cbn. pose proof (at_place_lt _ _ _ Hp).
  destruct (retry_spec (S (length buf)) buf 0 t Hp) as [[Hw E]|Hr]; [lia| |].
  { eexists None, buf, None. cbn. split_and!; [done| |done]. done. }
  destruct Hr as (q & buf' & sv & w & ws & E & Hw & Hcs & Hsv).
  eexists (Some q), buf', sv. split; [done|]. split; [done|].
  pose proof (retry_cut _ _ _ _ _ _ E) as Hcut. destruct sv as [i|].
  - destruct Hsv as (t' & Hp' & <- & _). destruct Hcut as (-> & Hi & q' & [= <-] & Hq).
    exists w, t'. split_and!; try done. rewrite <-Hcs. apply c_string_at; [done|].
    apply list_lookup_insert_eq. lia.
  - subst ws. by exists w, [].
Qed.
Next Obligation.
  intros buf [p|] t Hp; cbn in *; [|subst t; by exists None, buf, None].
  pose proof (at_place_lt _ _ _ Hp).
  destruct (retry_spec (S (length buf)) buf (S p) t Hp) as [[Hw E]|Hr]; [lia| |].
  { eexists None, buf, None. cbn. split_and!; [done| |done]. intros q w [? _]. done. }
  destruct Hr as (q & buf' & sv & w & ws & E & Hw & Hcs & Hsv).
  eexists (Some q), buf', sv. split; [done|].
  pose proof (retry_cut _ _ _ _ _ _ E) as Hcut. destruct sv as [i|].
  - destruct Hsv as (t' & Hp' & <- & _). destruct Hcut as (-> & Hi & q' & [= <-] & Hq). split.
    + intros q0 w0 [<- Hle]. split; [apply c_string_insert; lia|lia].
    + exists w, t'. split_and!; try done. rewrite <-Hcs. apply c_string_at; [done|].
      apply list_lookup_insert_eq. lia.
  - subst ws. split; [by subst buf'; intros q0 w0 [? _]|]. by exists w, [].
Qed.

(** The words of a text behind its leading blanks. *)
Lemma words_blanks t : words t = words (drop (blanks t) t).
Proof.
  unfold blanks. induction t as [|c t IH]; [done|]. cbn [list_find].
  case_decide as Hc; [done|]. subst c.
  change (words (" "%char :: t)) with (words t). rewrite IH.
  destruct (list_find _ t) as [[i d]|]; done.
Qed.

Lemma blanks_le t : (blanks t <= length t)%nat.
Proof.
  unfold blanks. destruct (list_find _ t) as [[i d]|] eqn:E; [|lia].
  apply list_find_Some in E as [?%lookup_lt_Some _]. lia.
Qed.

Lemma drop_blanks_head t c t' : drop (blanks t) t = c :: t' -> c <> " "%char.
Proof.
  unfold blanks. destruct (list_find _ t) as [[i d]|] eqn:E.
  - apply list_find_Some in E as (Hi & Hd & _). rewrite (drop_S _ _ _ Hi). by intros [= -> _].
  - by rewrite drop_all.
Qed.

Lemma at_place_drop buf p t n :
  at_place buf p t -> (n <= length t)%nat -> at_place buf (p + n) (drop n t).
Proof.
  intros (r & E & Hn) Hl. exists r. rewrite <-drop_drop, E, drop_app_le by done. split; [done|].
  intros [i Hi]%list_elem_of_lookup. rewrite lookup_drop in Hi. apply Hn. by eapply list_elem_of_lookup_2.
Qed.

Lemma strtok_cut s buf saved p t :
  match s with Some p => p | None => saved end = p -> at_place buf p t ->
  exists ptr buf' pl, strtok_r s buf saved = Some (ptr, buf', pl) /\ (p <= pl)%nat /\
    (buf' = buf \/ exists j, (p < j)%nat /\ buf' = <[j := NUL]> buf) /\
    match ptr with
    | None => words t = []
    | Some q => exists w t', words t = w :: words t' /\ c_string buf' q = w /\
                  (q + length w <= pl)%nat /\ at_place buf' pl t'
    end.
Proof.
  intros Es Hp. unfold strtok_r. rewrite Es. pose proof (at_place_lt _ _ _ Hp).
  rewrite decide_True by lia. rewrite (at_place_string _ _ _ Hp).
  pose proof (blanks_le t) as Hb. pose proof (at_place_drop _ _ _ _ Hp Hb) as Hp'.
  rewrite (at_place_string _ _ _ Hp'). rewrite words_blanks.
  destruct (drop (blanks t) t) as [|c t0] eqn:Ed.
  { eexists None, buf, _. split_and!; [done|lia|by left|done]. }
  apply drop_blanks_head in Ed as Hc.
  destruct (list_find (fun d => d = " "%char) (c :: t0)) as [[i d]|] eqn:Ef.
  - apply list_find_Some in Ef as (Hi & -> & Hnb). destruct i as [|i]; [by injection Hi as ->|].
    set (w := take (S i) (c :: t0)). set (t' := drop (S (S i)) (c :: t0)).
    assert (c :: t0 = w ++ " "%char :: t') as Et by (symmetry; apply take_drop_middle; done).
    assert (length w = S i) as Hlw by (apply length_take_le; apply lookup_lt_Some in Hi; lia).
    assert (" "%char ∉ w) as Hw.
    { intros [j Hj]%list_elem_of_lookup. apply lookup_take_Some in Hj as [Hj Hlt]. by eapply Hnb. }
    rewrite Et in Hp' |- *. clearbody w t'. destruct (cut_place _ _ _ _ Hp') as [Hcs Hpl].
    rewrite Hlw in Hcs, Hpl. eexists (Some _), _, _. split; [done|]. split; [lia|].
    split; [right; eexists; split; [|done]; lia|]. exists w, t'.
    destruct (words_word [] w t' Hw) as [Hws _]; [cbn; intros ->; done|].
    split_and!; try done. lia.
  - apply list_find_None in Ef. eexists (Some _), buf, _. split; [done|]. split; [lia|].
    split; [by left|]. exists (c :: t0), [].
    destruct (words_word [] (c :: t0) []) as [_ Hws]; [|done|].
    { intros Hin. rewrite Forall_forall in Ef. by apply (Ef _ Hin). }
    rewrite (at_place_string _ _ _ Hp'). split_and!; try done.
    pose proof (at_place_drop _ _ _ (length (c :: t0)) Hp') as Hend. rewrite drop_all in Hend.
    by apply Hend.
Qed.

#[export] Program Instance strtok_splitter_ok : SplitterOk strtok_splitter := {|
  rest buf pl t := at_place buf pl t;
  held buf pl q w := c_string buf q = w /\ (q + length w <= pl)%nat;
|}.
Next Obligation. by intros buf pl q w [? _]. Qed.
Next Obligation.
  intros buf t Hp. destruct (strtok_cut (Some 0%nat) buf 0%nat 0 t eq_refl Hp)
    as (ptr & buf' & pl & E & _ & _ & Hw). exists ptr, buf', pl. split_and!; [done..|].
  destruct ptr as [q|]; [|done]. destruct Hw as (w & t' & ? & ? & ? & ?). by exists w, t'.
Qed.
Next Obligation.
  intros buf p t Hp. cbn in *. destruct (strtok_cut None buf p p t eq_refl Hp)
    as (ptr & buf' & pl & E & Hle & Hb & Hw). exists ptr, buf', pl. split; [done|]. split.
  - intros q w [<- Hq]. split; [|lia]. destruct Hb as [->|(j & Hj & ->)]; [done|].
    apply c_string_insert. lia.
  - destruct ptr as [q|]; [|done]. destruct Hw as (w & t' & ? & ? & ? & ?). by exists w, t'.
Qed.

(** ** [nv_split] *)

(** [nv_split] as a function of the words of the line. *)
Abbreviation to_s := String.string_of_list_ascii.
Definition split_words (ws : list chars) : Z * nv_pair :=
  match ws with
  | [] => (0, NvPair None None None)
  | n :: ws =>
      if is_comment (to_s n) then (0, NvPair None None None) else
      match ws with
      | [] => (1, NvPair (Some (to_s n)) None None)
      | e :: ws =>
          if negb (str_eq (to_s e) "=") then (2, NvPair (Some (to_s n)) None None) else
          match ws with
          | [] => (1, NvPair (Some (to_s n)) None None)
          | [v] => (0, NvPair (Some (to_s n)) (Some (to_s v)) None)
          | v :: o :: ws => (match ws with [] => 0 | _ => 1 end,
                             NvPair (Some (to_s n)) (Some (to_s v)) (Some (to_s o)))
          end
      end
  end.

Lemma held_nv_string `{SplitterOk} buf pl q w : held buf pl q w -> nv_string buf q = to_s w.
Proof. intros Hh%held_string. unfold nv_string. by rewrite Hh. Qed.

(** The next call of the splitter in the goal, with the words it finds. *)
Ltac next_word H :=
  let ptr := fresh "ptr" in let buf := fresh "buf" in let pl := fresh "pl" in
  let E := fresh "E" in let Hold := fresh "Hold" in let Hw := fresh "Hw" in
  destruct H as (ptr & buf & pl & E & Hold & Hw); rewrite E; cbn [mbind option_bind]; clear E;
  destruct ptr as [ptr|];
  [let w := fresh "w" in let t := fresh "t" in let Hh := fresh "Hh" in let Hr := fresh "Hr" in
   destruct Hw as (w & t & Hw & Hh & Hr)|].

Lemma nv_split_spec `{SplitterOk} buf t :
  at_place buf 0 t ->
  exists rc nv buf', nv_split buf = Some (rc, nv, buf') /\
    (rc, nv_strings buf' nv) = split_words (words t).
Proof.
  intros Hp. unfold nv_split, split_words.
  pose proof (split_first _ _ Hp) as H1. next_word H1; rewrite Hw; [|by eexists _, _, _].
  rewrite (held_nv_string _ _ _ _ Hh). destruct (is_comment _); [by eexists _, _, _|].
  pose proof (split_next _ _ _ Hr) as H2.
  next_word H2; rewrite Hw0; apply Hold0 in Hh.
  2:{ eexists _, _, _. split; [done|]. unfold nv_strings. cbn. by erewrite held_nv_string. }
  rewrite (held_nv_string _ _ _ _ Hh0). destruct (str_eq _ "="); cbn [negb].
  2:{ eexists _, _, _. split; [done|]. unfold nv_strings. cbn. by erewrite held_nv_string. }
  pose proof (split_next _ _ _ Hr0) as H3.
  next_word H3; rewrite Hw1; apply Hold1 in Hh.
  2:{ eexists _, _, _. split; [done|]. unfold nv_strings. cbn. by erewrite held_nv_string. }
  pose proof (split_next _ _ _ Hr1) as H4.
  next_word H4; rewrite Hw2; apply Hold2 in Hh, Hh1.
  2:{ eexists _, _, _. split; [done|]. unfold nv_strings. cbn. by erewrite !held_nv_string. }
  pose proof (split_next _ _ _ Hr2) as H5.
  next_word H5; rewrite Hw3; apply Hold3 in Hh, Hh1, Hh2;
    (eexists _, _, _; split; [done|]; unfold nv_strings; cbn; by erewrite !held_nv_string).
Qed.

(** ** Reading lines *)

Lemma until_nul_split (s : chars) :
  NUL ∈ s -> exists r, s = until_nul s ++ NUL :: r /\ NUL ∉ until_nul s.
Proof.
  induction s as [|c s IH]; intros Hin; [by apply not_elem_of_nil in Hin|]. cbn.
  destruct (c =c NUL) eqn:E.
  - apply char_eq_true in E as ->. exists s. split; [done|]. apply not_elem_of_nil.
  - apply elem_of_cons in Hin as [<-|Hin].
    { by rewrite Ascii.eqb_refl in E. }
    destruct (IH Hin) as (r & Hs & Hn). exists r. cbn. split; [by f_equal|].
    apply not_elem_of_cons. split; [|done]. intros <-. by rewrite Ascii.eqb_refl in E.
Qed.

(** A buffer with a NUL in it holds a string. *)
Lemma at_place_c_string buf : NUL ∈ buf -> at_place buf 0 (c_string buf 0).
Proof.
  intros (r & E & Hn)%until_nul_split. exists r. unfold c_string. by rewrite drop_0.
Qed.

Lemma fgets_chunk_app n f a b : fgets_chunk n f = (a, b) -> f = a ++ b.
Proof.
  revert f a b. induction n as [|n IH]; intros f a b; cbn; [by intros [= <- <-]|].
  destruct f as [|c f]; [by intros [= <- <-]|]. destruct (c =c LF); [by intros [= <- <-]|].
  destruct (fgets_chunk n f) as [a' b'] eqn:E. intros [= <- <-]. cbn. by rewrite (IH _ _ _ E).
Qed.

(** A call of fgets takes characters off the file and leaves a string. *)
Lemma fgets_reads size f buf :
  (2 <= size)%nat ->
  match fgets_unlocked size f buf with
  | None => f = []
  | Some (buf', f') => NUL ∈ buf' /\ (length f' < length f)%nat
  end.
Proof.
  intros Hs. unfold fgets_unlocked. destruct f as [|c f]; [done|].
  destruct size as [|[|n]]; [lia..|]. cbn [Nat.sub].
  destruct (fgets_chunk (S n) (c :: f)) as [a b] eqn:E. split.
  - apply elem_of_app. right. apply elem_of_cons. by left.
  - pose proof (fgets_chunk_app _ _ _ _ E) as ->. rewrite length_app.
    assert (a <> []) as Ha.
    { cbn in E. destruct (c =c LF); [by injection E as <- <-|].
      destruct (fgets_chunk n f). by injection E as <- <-. }
    destruct a; [done|]. cbn. lia.
Qed.

Lemma find_LF_cut buf ptr : find_LF buf = Some ptr -> NUL ∈ <[ptr := NUL]> buf.
Proof.
  unfold find_LF. destruct (list_find _ _) as [[i c]|] eqn:E; [|done]. cbn. intros [= <-].
  apply list_find_Some in E as [Hi%lookup_lt_Some _].
  assert (i < length buf)%nat.
  { eapply Nat.lt_le_trans; [exact Hi|]. unfold c_string. rewrite drop_0. clear.
    induction buf as [|d s IHs]; cbn; [lia|]. destruct (d =c NUL); cbn; lia. }
  eapply list_elem_of_lookup_2. by apply list_lookup_insert_eq.
Qed.

(** What the loop of [load_config] needs of [get_line]: it returns, and a line
    it gives was taken off the file. *)
Definition reads (get_line : chars -> chars -> Z -> line_result) : Prop :=
  forall f buf lineno, exists got f' buf' lineno',
    get_line f buf lineno = Some (got, f', buf', lineno') /\ lineno <= lineno' /\
    (got = true -> NUL ∈ buf' /\ (length f' < length f)%nat).

Lemma get_line_loop_reads fuel size too_long f buf lineno :
  (2 <= size)%nat -> (length f < fuel)%nat ->
  exists got f' buf' lineno',
    get_line_loop fuel size too_long f buf lineno = Some (got, f', buf', lineno') /\
    lineno <= lineno' /\ (got = true -> NUL ∈ buf' /\ (length f' < length f)%nat).
Proof.
  intros Hs. revert too_long f buf lineno.
  induction fuel as [|fuel IH]; intros too_long f buf lineno Hf; [lia|]. cbn [get_line_loop].
  pose proof (fgets_reads size f buf Hs) as Hg.
  destruct (fgets_unlocked size f buf) as [[buf1 f1]|];
    [|eexists _, _, _, _; split_and!; done || lia].
  destruct Hg as [Hn Hl].
  assert (forall tl ln, lineno <= ln -> exists got f' buf' lineno',
    get_line_loop fuel size tl f1 buf1 ln = Some (got, f', buf', lineno') /\ lineno <= lineno' /\
    (got = true -> NUL ∈ buf' /\ (length f' < length f)%nat)) as Hnext.
  { intros tl ln Hln. destruct (IH tl f1 buf1 ln) as (g & f' & b' & l' & E & ? & Hb); [lia|].
    exists g, f', b', l'. split_and!; [done|lia|]. intros [? ?]%Hb. split; [done|lia]. }
  destruct (find_LF buf1) as [ptr|] eqn:Ep; [|apply Hnext; lia].
  destruct too_long; [apply Hnext; lia|]. eexists _, _, _, _. split_and!; [done|lia|]. intros _.
  split; [by apply find_LF_cut|done].
Qed.

Lemma get_line_skipping_reads size : (2 <= size)%nat -> reads (get_line_skipping size).
Proof. intros Hs f buf lineno. apply get_line_loop_reads; [done|lia]. Qed.

Lemma get_line_cutting_reads size : (2 <= size)%nat -> reads (get_line_cutting size).
Proof.
  intros Hs f buf lineno. unfold get_line_cutting. pose proof (fgets_reads size f buf Hs) as Hg.
  destruct (fgets_unlocked size f buf) as [[buf1 f1]|];
    [|eexists _, _, _, _; split_and!; done || lia].
  destruct Hg as [Hn Hl]. eexists _, _, _, _. split_and!; [done|lia|]. intros _. split; [|done].
  destruct (find_LF buf1) eqn:E; [by apply find_LF_cut|done].
Qed.

(** *** The lines of a file *)

Definition valid_line (l : chars) : Prop := (LF ∉ l) /\ (NUL ∉ l).

(** A file of lines, each with its LF. *)
Fixpoint text_of (lines : list chars) : chars :=
  match lines with [] => [] | l :: lines => l ++ LF :: text_of lines end.

(** A line fits in the buffer with its LF and a NUL. *)
Definition fits (size : nat) (l : chars) : bool := (length l + 2 <=? size)%nat.

Lemma fgets_chunk_line n l f :
  LF ∉ l -> (length l < n)%nat -> fgets_chunk n (l ++ LF :: f) = (l ++ [LF], f).
Proof.
  revert n. induction l as [|c l IH]; intros [|n] Hl Hn; cbn in *; try lia.
  - done.
  - apply not_elem_of_cons in Hl as [Hc Hl].
    destruct (c =c LF) eqn:E; [apply char_eq_true in E; congruence|]. by rewrite IH by (done || lia).
Qed.

Lemma fgets_chunk_long n l f :
  LF ∉ l -> (n <= length l)%nat -> fgets_chunk n (l ++ f) = (take n l, drop n l ++ f).
Proof.
  revert n. induction l as [|c l IH]; intros [|n] Hl Hn; cbn in *; try lia; [done..|].
  apply not_elem_of_cons in Hl as [Hc Hl].
  destruct (c =c LF) eqn:E; [apply char_eq_true in E; congruence|]. by rewrite IH by (done || lia).
Qed.

Lemma c_string_text (l : chars) r : NUL ∉ l -> c_string (l ++ NUL :: r) 0 = l.
Proof. intros Hn. unfold c_string. rewrite drop_0. by apply until_nul_text. Qed.

Lemma find_LF_line l r : valid_line l -> find_LF ((l ++ [LF]) ++ NUL :: r) = Some (length l).
Proof.
  intros [Hl Hn]. unfold find_LF. rewrite c_string_text.
  - rewrite list_find_app_r; [done|]. rewrite list_find_None, Forall_forall. by intros x Hx ->.
  - apply not_elem_of_app. split; [done|]. apply not_elem_of_cons. split; [done|apply not_elem_of_nil].
Qed.

Lemma find_LF_none l r : valid_line l -> find_LF (l ++ NUL :: r) = None.
Proof.
  intros [Hl Hn]. unfold find_LF. rewrite c_string_text by done.
  destruct (list_find _ _) as [[i c]|] eqn:E; [|done].
  apply list_find_Some in E as (Hi & -> & _). by apply list_elem_of_lookup_2 in Hi.
Qed.

(** The newline of a line that was read is overwritten. *)
Lemma cut_line l r : valid_line l -> at_place (<[(length l) := NUL]> ((l ++ [LF]) ++ NUL :: r)) 0 l.
Proof.
  intros [_ Hn]. exists (NUL :: r). rewrite drop_0, <-app_assoc, insert_app_r_alt, Nat.sub_diag by lia.
  done.
Qed.

Lemma fgets_line size l f buf :
  LF ∉ l -> fits size l = true ->
  fgets_unlocked size (l ++ LF :: f) buf
  = Some ((l ++ [LF]) ++ NUL :: drop (S (length (l ++ [LF]))) buf, f).
Proof.
  intros Hl Hs%Nat.leb_le. unfold fgets_unlocked. rewrite fgets_chunk_line by (done || lia).
  by destruct l.
Qed.

(** The two readers on a line that fits. *)
Lemma get_line_cutting_line size l f buf lineno :
  valid_line l -> fits size l = true ->
  exists buf', get_line_cutting size (l ++ LF :: f) buf lineno = Some (true, f, buf', lineno) /\
    at_place buf' 0 l.
Proof.
  intros Hl Hs. unfold get_line_cutting. rewrite fgets_line, find_LF_line by (done || apply Hl).
  eexists. split; [done|]. by apply cut_line.
Qed.

(** More fuel than the file has characters does not matter. *)
Lemma get_line_loop_fuel fuel fuel' size tl f buf lineno :
  (2 <= size)%nat -> (length f < fuel)%nat -> (length f < fuel')%nat ->
  get_line_loop fuel size tl f buf lineno = get_line_loop fuel' size tl f buf lineno.
Proof.
  intros Hs. revert fuel' tl f buf lineno.
  induction fuel as [|fuel IH]; intros [|fuel'] tl f buf lineno Hf Hf'; try lia. cbn [get_line_loop].
  pose proof (fgets_reads size f buf Hs) as Hg.
  destruct (fgets_unlocked size f buf) as [[buf1 f1]|]; [|done]. destruct Hg as [_ Hl].
  destruct (find_LF buf1); [destruct tl|]; try done; apply IH; lia.
Qed.

Lemma valid_line_drop n l : valid_line l -> valid_line (drop n l).
Proof.
  intros [Hl Hn]. split; intros [i Hi]%list_elem_of_lookup; rewrite lookup_drop in Hi;
    by apply list_elem_of_lookup_2 in Hi.
Qed.

Lemma valid_line_take n l : valid_line l -> valid_line (take n l).
Proof.
  intros [Hl Hn]. split; intros [i Hi]%list_elem_of_lookup; apply lookup_take_Some in Hi as [Hi _];
    by apply list_elem_of_lookup_2 in Hi.
Qed.

(** One chunk of a line that does not fit. *)
Lemma get_line_chunk fuel size tl l f buf lineno :
  valid_line l -> (2 <= size)%nat -> fits size l = false ->
  exists buf', get_line_loop (S fuel) size tl (l ++ LF :: f) buf lineno
    = get_line_loop fuel size true (drop (size - 1) l ++ LF :: f) buf' lineno.
Proof.
  intros Hl Hs Hlen%Nat.leb_gt. cbn [get_line_loop].
  assert (exists r, fgets_unlocked size (l ++ LF :: f) buf
    = Some (take (size - 1) l ++ NUL :: r, drop (size - 1) l ++ LF :: f)) as [r ->].
  { unfold fgets_unlocked. rewrite fgets_chunk_long by (apply Hl || lia).
    destruct l; [cbn in *; lia|]. by eexists. }
  rewrite find_LF_none by (by apply valid_line_take). by eexists.
Qed.

(** A line that does not fit goes by chunks, and the next one follows. *)
Lemma get_line_rest fuel fuel' size l f buf lineno :
  (2 <= size)%nat -> valid_line l -> (length (l ++ LF :: f) < fuel)%nat -> (length f < fuel')%nat ->
  exists buf', get_line_loop fuel size true (l ++ LF :: f) buf lineno
    = get_line_loop fuel' size false f buf' (lineno + 1).
Proof.
  intros Hs. revert l buf lineno. induction fuel as [|fuel IH]; intros l buf lineno Hl Hf Hf'; [lia|].
  rewrite length_app in Hf. cbn in Hf. destruct (fits size l) eqn:Hfit.
  - cbn [get_line_loop]. rewrite fgets_line, find_LF_line by (done || apply Hl). eexists.
    apply get_line_loop_fuel; lia.
  - destruct (get_line_chunk fuel size true l f buf lineno Hl Hs Hfit) as [buf' ->].
    apply Nat.leb_gt in Hfit. apply IH; [by apply valid_line_drop| |done].
    rewrite length_app, length_drop. cbn. lia.
Qed.

(** What is behind the last LF is not given. *)
Lemma fgets_chunk_tail n l : LF ∉ l -> fgets_chunk n l = (take n l, drop n l).
Proof.
  revert n. induction l as [|c l IH]; intros [|n] Hl; cbn; [done..|].
  apply not_elem_of_cons in Hl as [Hc Hl].
  destruct (c =c LF) eqn:E; [apply char_eq_true in E; congruence|]. by rewrite IH.
Qed.

Lemma get_line_tail fuel size tl l buf lineno :
  (2 <= size)%nat -> valid_line l -> (length l < fuel)%nat ->
  exists buf', get_line_loop fuel size tl l buf lineno = Some (false, [], buf', lineno).
Proof.
  intros Hs. revert tl l buf. induction fuel as [|fuel IH]; intros tl l buf Hl Hf; [lia|].
  cbn [get_line_loop]. unfold fgets_unlocked. rewrite fgets_chunk_tail by apply Hl.
  destruct l as [|c l]; [by eexists|]. rewrite find_LF_none by (by apply valid_line_take).
  apply IH; [by apply valid_line_drop|]. rewrite length_drop. cbn in *. lia.
Qed.

Lemma get_line_skipping_line size l f buf lineno :
  (2 <= size)%nat -> valid_line l ->
  exists buf',
    if fits size l
    then get_line_skipping size (l ++ LF :: f) buf lineno = Some (true, f, buf', lineno) /\
         at_place buf' 0 l
    else get_line_skipping size (l ++ LF :: f) buf lineno
         = get_line_skipping size f buf' (lineno + 1).
Proof.
  intros Hs Hl. unfold get_line_skipping. destruct (fits size l) eqn:Hfit.
  - cbn [get_line_loop]. rewrite fgets_line, find_LF_line by (done || apply Hl).
    eexists. split; [done|]. by apply cut_line.
  - destruct (get_line_chunk (length (l ++ LF :: f)) size false l f buf lineno Hl Hs Hfit)
      as [buf' ->].
    apply Nat.leb_gt in Hfit. apply get_line_rest; [done|by apply valid_line_drop| |lia].
    rewrite !length_app, length_drop. cbn. lia.
Qed.

(** ** Loading *)

Section load.
Context {conf : Type} (process : nv_pair -> conf -> Z * conf).

(** The loop of [load_config] on the lines of the file: those that are skipped
    only count. *)
Fixpoint process_lines (skipped : chars -> bool) (lines : list chars) (lineno : Z) (config : conf)
    : Z * Z * conf :=
  match lines with
  | [] => (0, lineno, config)
  | l :: lines =>
      if skipped l then process_lines skipped lines (lineno + 1) config else
      let (rc, config) := process (split_words (words l)).2 config in
      if negb (rc =? 0) then (rc, lineno, config)
      else process_lines skipped lines (lineno + 1) config
  end.

Context {sp : Splitter} {ok : SplitterOk sp}.

Lemma load_lines_skipping size fuel lines tail buf lineno config :
  (2 <= size)%nat -> Forall valid_line lines -> valid_line tail -> (length lines < fuel)%nat ->
  load_lines (get_line_skipping size) nv_split process fuel (text_of lines ++ tail) buf lineno config
  = Some (process_lines (fun l => negb (fits size l)) lines lineno config).
Proof.
  intros Hs. revert fuel buf lineno config.
  induction lines as [|l lines IH]; intros fuel buf lineno config Hv Ht Hf.
  { destruct fuel as [|fuel]; [cbn in Hf; lia|]. cbn [load_lines text_of app]. unfold get_line_skipping.
    by destruct (get_line_tail (S (length tail)) size false tail buf lineno Hs Ht) as [buf' ->]; [lia|]. }
  inversion_clear Hv as [|? ? Hl Hv']. cbn in Hf. cbn [text_of process_lines].
  rewrite <-app_assoc. cbn [app].
  destruct (get_line_skipping_line size l (text_of lines ++ tail) buf lineno Hs Hl) as [buf' E].
  destruct (fits size l); cbn [negb].
  - destruct fuel as [|fuel]; [lia|]. destruct E as [E Hp]. cbn [load_lines]. rewrite E.
    cbn [mbind option_bind negb]. destruct (nv_split_spec _ _ Hp) as (rc & nv & buf2 & -> & Esp).
    cbn [mbind option_bind]. rewrite <-Esp. cbn [snd]. destruct (process _ config) as [rc' config'].
    destruct (negb _); [done|]. apply IH; [done..|lia].
  - rewrite <-(IH fuel buf' (lineno + 1) config Hv' Ht) by lia.
    destruct fuel as [|fuel]; [lia|]. cbn [load_lines]. by rewrite E.
Qed.

Lemma load_lines_cutting size fuel lines buf lineno config :
  (2 <= size)%nat -> Forall valid_line lines -> forallb (fits size) lines = true ->
  (length lines < fuel)%nat ->
  load_lines (get_line_cutting size) nv_split process fuel (text_of lines) buf lineno config
  = Some (process_lines (fun _ => false) lines lineno config).
Proof.
  intros Hs. revert fuel buf lineno config.
  induction lines as [|l lines IH]; intros [|fuel] buf lineno config Hv Hfit Hf; cbn in Hf; [lia|done|lia|].
  inversion_clear Hv as [|? ? Hl Hv']. cbn in Hfit. apply andb_prop in Hfit as [Hfl Hfit].
  destruct (get_line_cutting_line size l (text_of lines) buf lineno Hl Hfl) as (buf' & E & Hp).
  cbn [text_of process_lines load_lines]. rewrite E.
  cbn [mbind option_bind negb]. destruct (nv_split_spec _ _ Hp) as (rc & nv & buf2 & -> & Esp).
  cbn [mbind option_bind]. rewrite <-Esp. cbn [snd]. destruct (process _ config) as [rc' config'].
  destruct (negb _); [done|]. apply IH; [done..|lia].
Qed.

(** On any file, the loop returns and accesses only the buffer. *)
Lemma load_lines_total get_line fuel f buf lineno config :
  reads get_line -> (length f < fuel)%nat ->
  is_Some (load_lines get_line nv_split process fuel f buf lineno config).
Proof.
  intros Hr. revert f buf lineno config. induction fuel as [|fuel IH]; intros f buf lineno config Hf; [lia|].
  cbn [load_lines]. destruct (Hr f buf lineno) as (got & f' & buf' & lineno' & -> & _ & Hgot).
  cbn [mbind option_bind]. destruct got; [|by eexists]. destruct Hgot as [Hn Hl]; [done|].
  destruct (nv_split_spec _ _ (at_place_c_string _ Hn)) as (rc & nv & buf2 & -> & _).
  cbn [mbind option_bind negb]. destruct (process _ config) as [rc' config'].
  destruct (negb _); [by eexists|]. apply IH. lia.
Qed.

(** At the end the line number tells whether there was a line. *)
Lemma load_lines_lineno get_line split fuel f buf lineno config rc lineno' config' :
  reads get_line ->
  load_lines get_line split process fuel f buf lineno config = Some (rc, lineno', config') ->
  lineno <= lineno' /\ (rc = 0 -> lineno' = lineno -> config' = config).
Proof.
  intros Hr. revert f buf lineno config. induction fuel as [|fuel IH]; intros f buf lineno config; [done|].
  cbn [load_lines]. destruct (Hr f buf lineno) as (got & f' & buf' & ln & -> & Hln & _).
  cbn [mbind option_bind]. destruct got; cbn [negb]; [|intros [= <- <- <-]; by split].
  destruct (split buf') as [[[r nv] buf2]|]; cbn [mbind option_bind]; [|done].
  destruct (process (nv_strings buf2 nv) config) as [rc1 config1].
  destruct (Z.eqb_spec rc1 0) as [->|Hrc]; cbn [negb].
  - intros [? _]%IH. split; lia.
  - by intros [= <- <- <-].
Qed.

(** What the handler keeps, the loop keeps. *)
Lemma load_lines_keeps (I : conf -> Prop) get_line split fuel f buf lineno config rc lineno' config' :
  (forall nv c, I c -> I (process nv c).2) ->
  load_lines get_line split process fuel f buf lineno config = Some (rc, lineno', config') ->
  I config -> I config'.
Proof.
  intros Hk. revert f buf lineno config.
  induction fuel as [|fuel IH]; intros f buf lineno config; [done|]. cbn [load_lines].
  destruct (get_line f buf lineno) as [[[[got f'] buf'] ln]|]; cbn [mbind option_bind]; [|done].
  destruct got; cbn [negb]; [|by intros [= <- <- <-]].
  destruct (split buf') as [[[r nv] buf2]|]; cbn [mbind option_bind]; [|done].
  destruct (process (nv_strings buf2 nv) config) as [rc1 config1] eqn:Ep. intros E Hc.
  assert (I config1) as H1 by (change config1 with (rc1, config1).2; rewrite <-Ep; by apply Hk).
  destruct (negb (rc1 =? 0)); [by injection E as <- <- <-|by eapply IH].
Qed.
End load.

(** [dispatch] keeps what every parser keeps. *)
Lemma dispatch_keeps {conf} (I : conf -> Prop) (keywords : list (kw_pair conf)) nv c :
  Forall (fun kw => forall v o c, I c -> I (kw.(parser) v o c).2) keywords ->
  I c -> I (dispatch keywords nv c).2.
Proof.
  intros Hk Hc. unfold dispatch. destruct nv as [[nm|] [v|] o]; cbn; try done.
  destruct (kw_lookup keywords nm) as [kw|] eqn:E; [|done].
  destruct (_ && _); [done|]. unfold kw_lookup in E. apply List.find_some in E as [Hin _].
  apply list_elem_of_In in Hin. rewrite Forall_forall in Hk. specialize (Hk _ Hin v o c Hc).
  by destruct (parser kw v o c).
Qed.

(** ** Writing settings

    What the readers above read back: numbers in decimal, and lines of words with
    single blanks between them. *)

Fixpoint decimal_go (fuel : nat) (n : Z) (s : string) : string :=
  match fuel with
  | O => s
  | S fuel => let s := String (ascii_of_nat (48 + Z.to_nat (n mod 10))) s in
              if n <? 10 then s else decimal_go fuel (n / 10) s
  end.
(** Twenty digits are enough for 64 bits. *)
Definition decimal (n : Z) : string := decimal_go 20 n "".

Lemma digit_char d : 0 <= d < 10 ->
  digit_value (ascii_of_nat (48 + Z.to_nat d)) = d /\ isdigit (ascii_of_nat (48 + Z.to_nat d)) = true.
Proof.
  intros Hd. assert (d = 0 \/ d = 1 \/ d = 2 \/ d = 3 \/ d = 4 \/ d = 5 \/ d = 6 \/ d = 7 \/ d = 8 \/ d = 9)
    as Hc by lia. by repeat destruct Hc as [->|Hc]; [..|subst d].
Qed.

Lemma decimal_go_digits fuel n s :
  0 <= n < 10 ^ Z.of_nat fuel -> digits 10 0 (decimal_go fuel n s) = digits 10 n s.
Proof.
  revert n s. induction fuel as [|fuel IH]; intros n s Hn.
  { cbn in *. by assert (n = 0) as -> by lia. }
  assert (0 <= n mod 10 < 10) as Hm by (apply Z.mod_pos_bound; lia).
  destruct (digit_char _ Hm) as [Hv _]. cbn [decimal_go].
  rewrite Nat2Z.inj_succ, Z.pow_succ_r in Hn by lia.
  destruct (Z.ltb_spec n 10).
  - cbn [digits]. rewrite Hv. destruct (Z.ltb_spec (n mod 10) 10); [|lia].
    f_equal. rewrite Z.mod_small by lia. lia.
  - rewrite IH by (split; [apply Z.div_pos; lia|apply Z.div_lt_upper_bound; lia]).
    cbn [digits]. rewrite Hv. destruct (Z.ltb_spec (n mod 10) 10); [|lia].
    f_equal. pose proof (Z.div_mod n 10). lia.
Qed.

Lemma decimal_go_chars fuel n s :
  0 <= n -> all_digits s = true -> all_digits (decimal_go fuel n s) = true.
Proof.
  revert n s. induction fuel as [|fuel IH]; intros n s Hn Hs; [done|]. cbn [decimal_go].
  assert (0 <= n mod 10 < 10) as Hm by (apply Z.mod_pos_bound; lia).
  destruct (digit_char _ Hm) as [_ Hd].
  assert (all_digits (String (ascii_of_nat (48 + Z.to_nat (n mod 10))) s) = true).
  { unfold all_digits in *. cbn [String.list_ascii_of_string forallb]. by rewrite Hd. }
  destruct (n <? 10); [done|]. apply IH; [apply Z.div_pos; lia|done].
Qed.

Lemma decimal_digits n : 0 <= n -> all_digits (decimal n) = true.
Proof. intros Hn. by apply decimal_go_chars. Qed.

Lemma scan_sign_digit c s : isdigit c = true -> scan_sign (String c s) = (false, String c s).
Proof.
  intros Hc. unfold isdigit, between, scan_sign in *. cbn [span].
  assert (isspace c = false) as -> by (unfold isspace, between; zb; cbn in *; lia || done).
  cbn [snd char_at].
  destruct (c =c "-"%char) eqn:E1; [apply char_eq_true in E1 as ->; done|].
  destruct (c =c "+"%char) eqn:E2; [apply char_eq_true in E2 as ->; done|done].
Qed.

Lemma scan_sign_digits s : all_digits s = true -> scan_sign s = (false, s).
Proof.
  destruct s as [|c s]; [done|]. intros Hc. apply andb_prop in Hc as [Hc _].
  by apply scan_sign_digit.
Qed.

(** A number is read back. *)
Lemma strtoul_decimal n : 0 <= n < two64 -> strtoul 10 (decimal n) = (n, false).
Proof.
  intros Hn. unfold strtoul. rewrite scan_sign_digits by (apply decimal_digits; lia).
  unfold decimal. rewrite decimal_go_digits by (unfold two64 in Hn; cbn; lia). cbn [digits].
  destruct (Z.ltb_spec SIZE_MAX n); [unfold SIZE_MAX in *; lia|done].
Qed.

Lemma number_decimal n : 0 <= n < two64 -> number (decimal n) = Some n.
Proof.
  intros Hn. unfold number. rewrite decimal_digits by lia. by rewrite strtoul_decimal.
Qed.

(** A word of a line, and a line of words. *)
Definition to_chars (s : string) : chars := String.list_ascii_of_string s.
Definition word_char (c : ascii) : bool := negb ((c =c " "%char) || (c =c LF) || (c =c NUL)).
Definition word_ok (s : string) : bool :=
  negb (str_eq s "") && forallb word_char (to_chars s).
Fixpoint line_of (ws : list string) : chars :=
  match ws with
  | [] => []
  | [w] => to_chars w
  | w :: ws => to_chars w ++ " "%char :: line_of ws
  end.

Lemma word_ok_spec s :
  word_ok s = true -> to_chars s <> [] /\ (" "%char ∉ to_chars s) /\ valid_line (to_chars s).
Proof.
  unfold word_ok. intros [Hs Hw]%andb_prop. split; [by destruct s|].
  rewrite forallb_forall in Hw. unfold valid_line.
  split_and!; intros Hin%list_elem_of_In%Hw; done.
Qed.

Lemma digits_word s : all_digits s = true -> s <> ""%string -> word_ok s = true.
Proof.
  intros Hd Hs. unfold word_ok. apply andb_true_intro. split; [by destruct s|].
  unfold all_digits in Hd. rewrite forallb_forall in Hd |- *. intros c Hc. specialize (Hd c Hc).
  unfold word_char. destruct (c =c " "%char) eqn:E1; [apply char_eq_true in E1 as ->; done|].
  destruct (c =c LF) eqn:E2; [apply char_eq_true in E2 as ->; done|].
  destruct (c =c NUL) eqn:E3; [apply char_eq_true in E3 as ->; done|done].
Qed.

Lemma decimal_go_length fuel n s :
  (String.length (decimal_go fuel n s) <= fuel + String.length s)%nat.
Proof.
  revert n s. induction fuel as [|fuel IH]; intros n s; [done|]. cbn [decimal_go].
  destruct (n <? 10); [cbn; lia|]. etransitivity; [apply IH|]. cbn. lia.
Qed.

Lemma decimal_go_ne fuel n s : decimal_go (S fuel) n s <> ""%string.
Proof.
  revert n s. induction fuel as [|fuel IH]; intros n s; cbn [decimal_go]; destruct (n <? 10); try done.
  apply IH.
Qed.

Lemma decimal_word n : 0 <= n -> word_ok (decimal n) = true.
Proof. intros Hn. apply digits_word; [by apply decimal_digits|apply decimal_go_ne]. Qed.

Lemma words_line ws : forallb word_ok ws = true -> words (line_of ws) = to_chars <$> ws.
Proof.
  induction ws as [|w ws IH]; [done|]. cbn. intros [Hw Hws]%andb_prop.
  apply word_ok_spec in Hw as (Hne & Hb & _).
  destruct ws as [|w' ws].
  - by destruct (words_word [] (to_chars w) [] Hb) as [_ Hl].
  - destruct (words_word [] (to_chars w) (line_of (w' :: ws)) Hb) as [Hl _]; [done|].
    etransitivity; [exact Hl|]. cbn [fmap list_fmap]. f_equal. by apply IH.
Qed.

Lemma line_of_valid ws : forallb word_ok ws = true -> valid_line (line_of ws).
Proof.
  induction ws as [|w ws IH]; intros Hw; [split; apply not_elem_of_nil|].
  cbn in Hw. apply andb_prop in Hw as [Hw Hws]. apply word_ok_spec in Hw as (_ & _ & Hl & Hn).
  destruct ws as [|w' ws]; [done|]. destruct (IH Hws) as [Hl' Hn'].
  change (line_of (w :: w' :: ws)) with (to_chars w ++ " "%char :: line_of (w' :: ws)).
  split; rewrite not_elem_of_app, not_elem_of_cons; done.
Qed.

Lemma to_s_to_chars s : to_s (to_chars s) = s.
Proof. apply String.string_of_list_ascii_of_string. Qed.

(** [sets]: lines that are all accepted take a configuration to another. *)
Section sets.
Context {conf : Type} (keywords : list (kw_pair conf)).

Definition sets (lines : list (list string)) (c c' : conf) : Prop :=
  forall lineno, process_lines (dispatch keywords) (fun _ => false) (line_of <$> lines) lineno c
    = (0, lineno + Z.of_nat (length lines), c').

Lemma sets_nil c : sets [] c c.
Proof. intros lineno. cbn. f_equal. f_equal. lia. Qed.

Lemma sets_cons l lines c c1 c2 : sets [l] c c1 -> sets lines c1 c2 -> sets (l :: lines) c c2.
Proof.
  intros H1 H2 lineno. specialize (H1 lineno). specialize (H2 (lineno + 1)).
  cbn [fmap list_fmap process_lines] in *.
  destruct (dispatch keywords _ c) as [rc c']. destruct (negb (rc =? 0)) eqn:Er.
  - injection H1 as -> _ _. done.
  - injection H1 as ->. rewrite H2. cbn [length]. f_equal. f_equal. lia.
Qed.

Lemma sets_app l1 l2 c c1 c2 : sets l1 c c1 -> sets l2 c1 c2 -> sets (l1 ++ l2) c c2.
Proof.
  intros H1 H2 lineno. rewrite length_app, Nat2Z.inj_add, Z.add_assoc, <-(H2 (lineno + _)).
  rewrite fmap_app. specialize (H1 lineno). revert H1.
  generalize (lineno + Z.of_nat (length l1)) as n. intros n. revert lineno c.
  generalize (line_of <$> l1) as ls. intros ls.
  induction ls as [|l ls IH]; intros lineno c; cbn [app process_lines]; [by intros [= -> ->]|].
  destruct (dispatch keywords _ c) as [rc c']. destruct (negb (rc =? 0)) eqn:Er; [|apply IH].
  intros [= -> _ _]. done.
Qed.

Lemma sets_one name value opts kw c c' :
  forallb word_ok (name :: "=" :: value :: opts)%string = true -> is_comment name = false ->
  (length opts <= 1)%nat ->
  kw_lookup keywords name = Some kw -> (max_options kw <> 0 \/ opts = []) ->
  parser kw value (head opts) c = (0, c') ->
  sets [name :: "=" :: value :: opts]%string c c'.
Proof.
  intros Hw Hc Ho Hk Hm Hp lineno. cbn [fmap list_fmap process_lines].
  rewrite words_line by done.
  assert ((split_words (to_chars <$> (name :: "=" :: value :: opts)%string)).2
    = NvPair (Some name) (Some value) (head opts)) as ->.
  { unfold split_words. cbn [fmap list_fmap]. rewrite !to_s_to_chars, Hc.
    replace (str_eq "=" "=") with true by done. cbn [negb].
    destruct opts as [|o [|]]; cbn in Ho; try lia; cbn; by rewrite ?to_s_to_chars. }
  unfold dispatch. cbn [Config.name Config.value Config.option_]. rewrite Hk.
  destruct (_ && _) eqn:E.
  { apply andb_prop in E as [E1 E2]. apply Z.eqb_eq in E1. destruct Hm as [?| ->]; done. }
  rewrite Hp. cbn. f_equal. 
Qed.
End sets.

End ConfigFacts.
