(* ===== verification/AuditdConf.v ===== *)
(** * The configuration of auditd (src/auditd-config.c, src/auditd-config.h)

    [struct daemon_conf], one parser per keyword, the checks at the end, and
    [load_config].  Strings that strdup copies are values; [audit_msg] and the
    release of memory are left out, and allocation does not fail.  Whether the
    daemon was built with the network listener (USE_LISTENER) and with Kerberos
    (USE_GSSAPI) is a parameter. *)
From S2P Require Import Prelude CString StrSplit Config.
From coqutil Require Import Datatypes.RecordSetters.
Import RecordSetters.TriangleBracketNotations.

Local Open Scope audit_scope.
Local Open Scope string_scope.
Local Open Scope Z_scope.

Module AuditdConf.
Import StrSplit Config.

Definition TCP_PORT_MAX : Z := 65535.
Definition CONFIG_FILE : string := "/etc/audit/auditd.conf".
Definition MEGABYTE : Z := 1048576.

Inductive daemon_t := D_FOREGROUND | D_BACKGROUND.
Inductive logging_formats := LF_RAW | LF_NOLOG | LF_ENRICHED.
Inductive flush_technique := FT_NONE | FT_INCREMENTAL | FT_INCREMENTAL_ASYNC | FT_DATA | FT_SYNC.
Inductive failure_action_t :=
  FA_IGNORE | FA_SYSLOG | FA_ROTATE | FA_EMAIL | FA_EXEC | FA_SUSPEND | FA_SINGLE | FA_HALT.
Inductive size_action := SZ_IGNORE | SZ_SYSLOG | SZ_SUSPEND | SZ_ROTATE | SZ_KEEP_LOGS.
Inductive log_test_t := TEST_AUDITD | TEST_SEARCH.
Inductive node_t := N_NONE | N_HOSTNAME | N_FQD | N_NUMERIC | N_USER.
Inductive overflow_action_t := O_IGNORE | O_SYSLOG | O_SUSPEND | O_SINGLE | O_HALT.
Inductive transport_t := T_TCP | T_TLS | T_KRB5 | T_LABELED.

#[export] Instance logging_formats_eq_dec : EqDecision logging_formats.
Proof. solve_decision. Defined.
#[export] Instance flush_technique_eq_dec : EqDecision flush_technique.
Proof. solve_decision. Defined.
#[export] Instance failure_action_eq_dec : EqDecision failure_action_t.
Proof. solve_decision. Defined.
#[export] Instance daemon_eq_dec : EqDecision daemon_t.
Proof. solve_decision. Defined.

Record daemon_conf := {
  daemonize : daemon_t;
  local_events : Z;
  sender_uid : Z;
  sender_pid : Z;
  sender_ctx : option string;
  write_logs : Z;
  log_file : string;
  log_format : logging_formats;
  log_group : Z;
  priority_boost : Z;
  flush : flush_technique;
  freq : Z;
  num_logs : Z;
  node_name_format : node_t;
  node_name : option string;
  max_log_size : Z;
  max_log_size_action : size_action;
  space_left : Z;
  space_left_percent : Z;
  space_left_action : failure_action_t;
  space_left_exe : option string;
  action_mail_acct : option string;
  verify_email : Z;
  admin_space_left : Z;
  admin_space_left_percent : Z;
  admin_space_left_action : failure_action_t;
  admin_space_left_exe : option string;
  disk_full_action : failure_action_t;
  disk_full_exe : option string;
  disk_error_action : failure_action_t;
  disk_error_exe : option string;
  tcp_listen_port : Z;
  tcp_listen_queue : Z;
  tcp_max_per_addr : Z;
  use_libwrap : Z;
  tcp_client_min_port : Z;
  tcp_client_max_port : Z;
  tcp_client_max_idle : Z;
  transport : transport_t;
  krb5_principal : option string;
  krb5_key_file : option string;
  distribute_network_events : Z;
  q_depth : Z;
  overflow_action : overflow_action_t;
  max_restarts : Z;
  plugin_dir : string;
  conf_config_dir : option string;
}.

Definition log_formats : list (string * logging_formats) :=
  [("raw", LF_RAW); ("nolog", LF_NOLOG); ("enriched", LF_ENRICHED)].
Definition flush_techniques : list (string * flush_technique) :=
  [("none", FT_NONE); ("incremental", FT_INCREMENTAL); ("incremental_async", FT_INCREMENTAL_ASYNC);
   ("data", FT_DATA); ("sync", FT_SYNC)].
Definition failure_actions : list (string * failure_action_t) :=
  [("ignore", FA_IGNORE); ("syslog", FA_SYSLOG); ("rotate", FA_ROTATE); ("email", FA_EMAIL);
   ("exec", FA_EXEC); ("suspend", FA_SUSPEND); ("single", FA_SINGLE); ("halt", FA_HALT)].
Definition size_actions : list (string * size_action) :=
  [("ignore", SZ_IGNORE); ("syslog", SZ_SYSLOG); ("suspend", SZ_SUSPEND); ("rotate", SZ_ROTATE);
   ("keep_logs", SZ_KEEP_LOGS)].
Definition node_name_formats : list (string * node_t) :=
  [("none", N_NONE); ("hostname", N_HOSTNAME); ("fqd", N_FQD); ("numeric", N_NUMERIC);
   ("user", N_USER)].
Definition yes_no_values : list (string * Z) := [("yes", 1); ("no", 0)].
Definition overflow_actions : list (string * overflow_action_t) :=
  [("ignore", O_IGNORE); ("syslog", O_SYSLOG); ("suspend", O_SUSPEND); ("single", O_SINGLE);
   ("halt", O_HALT)].
Definition transport_words (use_gssapi : bool) : list (string * transport_t) :=
  ("tcp", T_TCP) :: (if use_gssapi then [("krb5", T_KRB5)] else []).

(** The static variables of the file. *)
Record statics := Statics {
  allow_links : bool;
  config_dir : option string;
  config_file : option string;
  log_test : log_test_t;
}.

Definition set_allow_links (allow : bool) (s : statics) : statics := s<|allow_links := allow|>.

Definition set_config_dir (val : string) (s : statics) : Z * statics :=
  (0, s<|config_dir := Some val|><|config_file := Some (val +:+ "/auditd.conf")|>).

Definition get_config_dir (s : statics) : option string :=
  match s.(config_file) with
  | Some f => if str_eq f CONFIG_FILE then None else s.(config_dir)
  | None => s.(config_dir)
  end.

(** [clear_config] sets every member but [daemonize]. *)
Definition clear_config (config : daemon_conf) : daemon_conf := {|
  daemonize := config.(daemonize);
  local_events := 1;
  sender_uid := 0;
  sender_pid := 0;
  sender_ctx := None;
  write_logs := 1;
  log_file := "/var/log/audit/audit.log";
  log_format := LF_ENRICHED;
  log_group := 0;
  priority_boost := 4;
  flush := FT_NONE;
  freq := 0;
  num_logs := 0;
  node_name_format := N_NONE;
  node_name := None;
  max_log_size := 0;
  max_log_size_action := SZ_IGNORE;
  space_left := 0;
  space_left_percent := 0;
  space_left_action := FA_IGNORE;
  space_left_exe := None;
  action_mail_acct := Some "root";
  verify_email := 1;
  admin_space_left := 0;
  admin_space_left_percent := 0;
  admin_space_left_action := FA_IGNORE;
  admin_space_left_exe := None;
  disk_full_action := FA_IGNORE;
  disk_full_exe := None;
  disk_error_action := FA_SYSLOG;
  disk_error_exe := None;
  tcp_listen_port := 0;
  tcp_listen_queue := 5;
  tcp_max_per_addr := 1;
  use_libwrap := 1;
  tcp_client_min_port := 0;
  tcp_client_max_port := TCP_PORT_MAX;
  tcp_client_max_idle := 0;
  transport := T_TCP;
  krb5_principal := None;
  krb5_key_file := None;
  distribute_network_events := 0;
  q_depth := 400;
  overflow_action := O_SYSLOG;
  max_restarts := 10;
  plugin_dir := "/etc/audit/plugins.d";
  conf_config_dir := None;
|}.

(** ** The parsers

    A parser gets the value and the option of its line and gives the code it
    returns with the configuration it leaves. *)
Section parsers.
Context `{Host} (use_listener use_gssapi : bool).
Implicit Types (v : string) (opt : option string) (config : daemon_conf).

Definition local_events_parser v opt config : Z * daemon_conf :=
  match nv_lookup yes_no_values v with
  | Some x => (0, config<|local_events := x|>)
  | None => (1, config)
  end.

Definition write_logs_parser v opt config : Z * daemon_conf :=
  match nv_lookup yes_no_values v with
  | Some x => (0, config<|write_logs := x|>)
  | None => (1, config)
  end.

(** The directory must exist, and the file, if it does, must be a regular file of
    root. *)
Definition log_file_ok (log_test : log_test_t) v : bool :=
  let dir := dirname v in
  if (String.length dir <? 4)%nat then false
  else if negb (opendir dir) then false
  else match open v (match log_test with TEST_AUDITD => O_APPEND | TEST_SEARCH => O_RDONLY end) with
       | Open_ENOENT => true
       | Open_error => false
       | Opened None _ => false
       | Opened (Some st) _ => S_ISREG st.(st_mode) && (st.(st_uid) =? 0)
       end.
Definition log_file_parser (log_test : log_test_t) v opt config : Z * daemon_conf :=
  if log_file_ok log_test v then (0, config<|log_file := v|>) else (1, config).

Definition num_logs_parser v opt config : Z * daemon_conf :=
  match number v with
  | None => (1, config)
  | Some i => if 999 <? i then (1, config) else (0, config<|num_logs := u32 i|>)
  end.

Definition qos_parser v opt config : Z * daemon_conf := (0, config).

Definition dispatch_parser v opt config : Z * daemon_conf := (0, config).

Definition name_format_parser v opt config : Z * daemon_conf :=
  match nv_lookup node_name_formats v with
  | Some x => (0, config<|node_name_format := x|>)
  | None => (1, config)
  end.

Definition name_parser v opt config : Z * daemon_conf := (0, config<|node_name := Some v|>).

Definition max_log_size_parser v opt config : Z * daemon_conf :=
  match number v with
  | None => (1, config)
  | Some i => (0, config<|max_log_size := i|>)
  end.

Definition max_log_size_action_parser v opt config : Z * daemon_conf :=
  match nv_lookup size_actions v with
  | Some x => (0, config<|max_log_size_action := x|>)
  | None => (1, config)
  end.

Definition log_format_parser v opt config : Z * daemon_conf :=
  match nv_lookup log_formats v with
  | Some x =>
      let config := config<|log_format := x|> in
      (0, if decide (x = LF_NOLOG) then config<|write_logs := 0|> else config)
  | None => (1, config)
  end.

(** A gid is of 32 bits. *)
Definition log_group_parser v opt config : Z * daemon_conf :=
  if isdigit (char_at v) then
    let (i, erange) := strtoul 10 v in
    if erange then (1, config) else (0, config<|log_group := u32 i|>)
  else match getgrnam v with
       | None => (1, config)
       | Some gid => (0, config<|log_group := u32 gid|>)
       end.

Definition flush_parser v opt config : Z * daemon_conf :=
  match nv_lookup flush_techniques v with
  | Some x => (0, config<|flush := x|>)
  | None => (1, config)
  end.

Definition freq_parser v opt config : Z * daemon_conf :=
  match number v with
  | None => (1, config)
  | Some i => if INT_MAX <? i then (1, config) else (0, config<|freq := u32 i|>)
  end.

(** The number of space_left and admin_space_left, and whether it is a percentage:
    digits and percent signs only, of which the first is overwritten with a
    blank before strtoul. *)
Fixpoint blank_percent v : string :=
  match v with
  | EmptyString => EmptyString
  | String c v => if c =c "%"%char then String " " v else String c (blank_percent v)
  end.
Definition space_number v : option (bool * Z) :=
  if forallb (fun c => isdigit c || (c =c "%"%char)) (String.list_ascii_of_string v) then
    let percent := bool_decide (strchr v "%" <> None) in
    let (i, erange) := strtoul 10 (blank_percent v) in
    if erange then None
    else if percent && (99 <? i) then None else Some (percent, i)
  else None.

Definition space_left_parser v opt config : Z * daemon_conf :=
  let config := config<|space_left_percent := 0|> in
  match space_number v with
  | None => (1, config)
  | Some (true, i) => (0, config<|space_left_percent := u32 i|><|space_left := 0|>)
  | Some (false, i) => (0, config<|space_left := i|>)
  end.

(** 0777; and 0750, 0755, 0555 and 0555 again. *)
Definition exe_mode_ok (mode : Z) : bool :=
  let m := Z.land mode 511 in
  (m =? 488) || (m =? 493) || (m =? 365) || (m =? 365).
Definition check_exe_name (val : option string) : Z :=
  match val with
  | None => -1
  | Some val =>
      if negb (char_at val =c "/"%char) then -1
      else match stat val with
           | None => -1
           | Some st =>
               if negb (S_ISREG st.(st_mode)) then -1
               else if negb (st.(st_uid) =? 0) then -1
               else if negb (exe_mode_ok st.(st_mode)) then -1 else 0
           end
  end.

Definition space_action_parser v opt config : Z * daemon_conf :=
  match nv_lookup failure_actions v with
  | None => (1, config)
  | Some x =>
      if decide (x = FA_EXEC) then
        if negb (check_exe_name opt =? 0) then (1, config)
        else (0, config<|space_left_exe := opt|><|space_left_action := x|>)
      else (0, config<|space_left_action := x|>)
  end.

Definition isalnum (c : ascii) : bool := between 48 57 c || between 65 90 c || between 97 122 c.
Definition email_char (c : ascii) : bool :=
  isalnum c || (c =c "@"%char) || (c =c "."%char) || (c =c "-"%char) || (c =c "_"%char).

(** The last place of a character: strrchr. *)
Definition last_index (c : ascii) (s : chars) : option nat :=
  (fun x => length s - 1 - x.1)%nat <$> list_find (fun d => d = c) (rev s).

Definition validate_email (acct : string) : Z :=
  let s := String.list_ascii_of_string acct in
  if (length s <? 2)%nat then 2
  else if negb (forallb email_char s) then 2
  else match list_find (fun c => c = "@"%char) s with
       | None => 0
       | Some (ptr1, _) =>
           match last_index "." s with
           | None => 2
           | Some ptr2 =>
               if (ptr2 <? ptr1)%nat then 2
               else match getaddrinfo (skip (S ptr1) acct) with None => 1 | Some _ => 0 end
           end
       end.

Definition action_mail_acct_parser v opt config : Z * daemon_conf :=
  if negb (config.(verify_email) =? 0) && (1 <? validate_email v) then (1, config)
  else (0, config<|action_mail_acct := Some v|>).

Definition verify_email_parser v opt config : Z * daemon_conf :=
  match nv_lookup yes_no_values v with
  | Some x => (0, config<|verify_email := x|>)
  | None => (1, config)
  end.

Definition admin_space_left_parser v opt config : Z * daemon_conf :=
  let config := config<|admin_space_left_percent := 0|> in
  match space_number v with
  | None => (1, config)
  | Some (true, i) => (0, config<|admin_space_left_percent := u32 i|><|admin_space_left := 0|>)
  | Some (false, i) => (0, config<|admin_space_left := i|>)
  end.

Definition admin_space_left_action_parser v opt config : Z * daemon_conf :=
  match nv_lookup failure_actions v with
  | None => (1, config)
  | Some x =>
      if decide (x = FA_EXEC) then
        if negb (check_exe_name opt =? 0) then (1, config)
        else (0, config<|admin_space_left_exe := opt|><|admin_space_left_action := x|>)
      else (0, config<|admin_space_left_action := x|>)
  end.

Definition disk_full_action_parser v opt config : Z * daemon_conf :=
  match nv_lookup failure_actions v with
  | None => (1, config)
  | Some x =>
      if decide (x = FA_EMAIL) then (1, config)
      else if decide (x = FA_EXEC) then
        if negb (check_exe_name opt =? 0) then (1, config)
        else (0, config<|disk_full_exe := opt|><|disk_full_action := x|>)
      else (0, config<|disk_full_action := x|>)
  end.

Definition disk_error_action_parser v opt config : Z * daemon_conf :=
  match nv_lookup failure_actions v with
  | None => (1, config)
  | Some x =>
      if decide (x = FA_EMAIL \/ x = FA_ROTATE) then (1, config)
      else if decide (x = FA_EXEC) then
        if negb (check_exe_name opt =? 0) then (1, config)
        else (0, config<|disk_error_exe := opt|><|disk_error_action := x|>)
      else (0, config<|disk_error_action := x|>)
  end.

Definition priority_boost_parser v opt config : Z * daemon_conf :=
  match number v with
  | None => (1, config)
  | Some i => if INT_MAX <? i then (1, config) else (0, config<|priority_boost := u32 i|>)
  end.

Definition tcp_listen_port_parser v opt config : Z * daemon_conf :=
  if negb use_listener then (0, config) else
  match number v with
  | None => (1, config)
  | Some i => if TCP_PORT_MAX <? i then (1, config)
              else if i <? 1 then (1, config)
              else (0, config<|tcp_listen_port := u32 i|>)
  end.

Definition tcp_listen_queue_parser v opt config : Z * daemon_conf :=
  if negb use_listener then (0, config) else
  match number v with
  | None => (1, config)
  | Some i => if TCP_PORT_MAX <? i then (1, config)
              else if i <? 1 then (1, config)
              else (0, config<|tcp_listen_queue := u32 i|>)
  end.

Definition tcp_max_per_addr_parser v opt config : Z * daemon_conf :=
  if negb use_listener then (0, config) else
  match number v with
  | None => (1, config)
  | Some i => if 1024 <? i then (1, config)
              else if i <? 1 then (1, config)
              else (0, config<|tcp_max_per_addr := u32 i|>)
  end.

Definition use_libwrap_parser v opt config : Z * daemon_conf :=
  match nv_lookup yes_no_values v with
  | Some x => (0, config<|use_libwrap := x|>)
  | None => (1, config)
  end.

(** The scan of a range of ports: what is behind the last dash that is neither the
    first nor the last character; [None] for a character that is no digit. *)
Fixpoint scan_ports (first : bool) v (saw_dash : option string) : option (option string) :=
  match v with
  | EmptyString => Some saw_dash
  | String c v =>
      if negb first && (c =c "-"%char) && negb (str_eq v "") then scan_ports false v (Some v)
      else if isdigit c then scan_ports false v saw_dash else None
  end.

Definition tcp_client_ports_parser v opt config : Z * daemon_conf :=
  if negb use_listener then (0, config) else
  match scan_ports true v None with
  | None => (1, config)
  | Some saw_dash =>
      let (minv, erange) := strtoul 10 v in
      if erange then (1, config) else
      let (maxv, erange) := match saw_dash with Some d => strtoul 10 d | None => (minv, false) end in
      if erange then (1, config)
      else if TCP_PORT_MAX <? minv then (1, config)
      else if TCP_PORT_MAX <? maxv then (1, config)
      else if maxv <? minv then (1, config)
      else (0, config<|tcp_client_min_port := u32 minv|><|tcp_client_max_port := u32 maxv|>)
  end.

Definition tcp_client_max_idle_parser v opt config : Z * daemon_conf :=
  if negb use_listener then (0, config) else
  match number v with
  | None => (1, config)
  | Some i => if INT_MAX <? i then (1, config) else (0, config<|tcp_client_max_idle := u32 i|>)
  end.

Definition transport_parser v opt config : Z * daemon_conf :=
  match nv_lookup (transport_words use_gssapi) v with
  | Some x => (0, config<|transport := x|>)
  | None => (1, config)
  end.

Definition enable_krb5_parser v opt config : Z * daemon_conf :=
  if negb use_gssapi then (0, config) else
  match nv_lookup yes_no_values v with
  | Some x => (0, if x =? 1 then config<|transport := T_KRB5|> else config)
  | None => (1, config)
  end.

Definition krb5_principal_parser v opt config : Z * daemon_conf :=
  (0, if use_gssapi then config<|krb5_principal := Some v|> else config).

Definition krb5_key_file_parser v opt config : Z * daemon_conf :=
  (0, if use_gssapi then config<|krb5_key_file := Some v|> else config).

Definition distribute_network_parser v opt config : Z * daemon_conf :=
  match nv_lookup yes_no_values v with
  | Some x => (0, config<|distribute_network_events := x|>)
  | None => (1, config)
  end.

Definition q_depth_parser v opt config : Z * daemon_conf :=
  match number v with
  | None => (1, config)
  | Some i => if 99999 <? i then (1, config) else (0, config<|q_depth := u32 i|>)
  end.

Definition overflow_action_parser v opt config : Z * daemon_conf :=
  match nv_lookup overflow_actions v with
  | Some x => (0, config<|overflow_action := x|>)
  | None => (1, config)
  end.

Definition max_restarts_parser v opt config : Z * daemon_conf :=
  match number v with
  | None => (1, config)
  | Some i => if INT_MAX <? i then (1, config) else (0, config<|max_restarts := u32 i|>)
  end.

(** The value is not empty, being a word of the line. *)
Definition plugin_dir_parser v opt config : Z * daemon_conf :=
  (0, config<|plugin_dir := if char_at (skip (String.length v - 1) v) =c "/"%char then v
                            else v +:+ "/"|>).

Definition keywords (log_test : log_test_t) : list (kw_pair daemon_conf) :=
  [KwPair "local_events" local_events_parser 0;
   KwPair "write_logs" write_logs_parser 0;
   KwPair "log_file" (log_file_parser log_test) 0;
   KwPair "log_format" log_format_parser 0;
   KwPair "log_group" log_group_parser 0;
   KwPair "flush" flush_parser 0;
   KwPair "freq" freq_parser 0;
   KwPair "num_logs" num_logs_parser 0;
   KwPair "dispatcher" dispatch_parser 0;
   KwPair "name_format" name_format_parser 0;
   KwPair "name" name_parser 0;
   KwPair "disp_qos" qos_parser 0;
   KwPair "max_log_file" max_log_size_parser 0;
   KwPair "max_log_file_action" max_log_size_action_parser 0;
   KwPair "space_left" space_left_parser 0;
   KwPair "space_left_action" space_action_parser 1;
   KwPair "action_mail_acct" action_mail_acct_parser 0;
   KwPair "verify_email" verify_email_parser 0;
   KwPair "admin_space_left" admin_space_left_parser 0;
   KwPair "admin_space_left_action" admin_space_left_action_parser 1;
   KwPair "disk_full_action" disk_full_action_parser 1;
   KwPair "disk_error_action" disk_error_action_parser 1;
   KwPair "priority_boost" priority_boost_parser 0;
   KwPair "tcp_listen_port" tcp_listen_port_parser 0;
   KwPair "tcp_listen_queue" tcp_listen_queue_parser 0;
   KwPair "tcp_max_per_addr" tcp_max_per_addr_parser 0;
   KwPair "use_libwrap" use_libwrap_parser 0;
   KwPair "tcp_client_ports" tcp_client_ports_parser 0;
   KwPair "tcp_client_max_idle" tcp_client_max_idle_parser 0;
   KwPair "transport" transport_parser 0;
   KwPair "enable_krb5" enable_krb5_parser 0;
   KwPair "krb5_principal" krb5_principal_parser 0;
   KwPair "krb5_key_file" krb5_key_file_parser 0;
   KwPair "distribute_network" distribute_network_parser 0;
   KwPair "q_depth" q_depth_parser 0;
   KwPair "overflow_action" overflow_action_parser 0;
   KwPair "max_restarts" max_restarts_parser 0;
   KwPair "plugin_dir" plugin_dir_parser 0].

(** ** Loading *)

Definition incremental (f : flush_technique) : bool :=
  match f with FT_INCREMENTAL | FT_INCREMENTAL_ASYNC => true | _ => false end.

Definition sanity_check (s : statics) (config : daemon_conf) : Z * daemon_conf :=
  if (config.(space_left_percent) =? 0) && (config.(admin_space_left_percent) =? 0) &&
     (config.(space_left) <=? config.(admin_space_left)) then (1, config)
  else if incremental config.(flush) && (config.(freq) =? 0) then (1, config)
  else (0, config<|conf_config_dir := s.(config_dir)|>).

(** char buf[160]; what is in it before the first line does not matter. *)
Definition BUF : nat := 160.
Definition get_line : chars -> chars -> Z -> line_result := get_line_skipping BUF.
Definition nv_split : chars -> option (Z * nv_ptrs * chars) := @Config.nv_split audit_splitter.

(** [None]: no return, or an access behind the buffer. *)
Definition load_config (lt : log_test_t) (s : statics) (config : daemon_conf)
    : option (Z * statics * daemon_conf) :=
  let config := clear_config config in
  let s := s<|log_test := lt|> in
  let file := default CONFIG_FILE s.(config_file) in
  let s := s<|config_file := Some file|> in
  match open file (if s.(allow_links) then O_RDONLY else O_RDONLY_NOFOLLOW) with
  | Open_ENOENT => Some (0, s, config)
  | Open_error => Some (1, s, config)
  | Opened st text =>
      if negb (check_file not_world_writable st) then Some (1, s, config) else
      match text with
      | None => Some (1, s, config)
      | Some f =>
          '(rc, lineno, config) ← load_lines get_line nv_split (dispatch (keywords lt))
                                    (S (length f)) f [] 1 config;
          if negb (rc =? 0) then Some (rc, s, config)
          else if 1 <? lineno then let (rc, config) := sanity_check s config in Some (rc, s, config)
          else Some (0, s, config)
      end
  end.

(** ** Used by the daemon after loading *)

Definition calc_percent (percent : Z) : Z :=
  match fstatfs with
  | Some (f_blocks, f_bsize) => u64 (f_bsize * percent_of f_blocks percent) / MEGABYTE
  | None => 0
  end.

Definition setup_percentages (config : daemon_conf) : daemon_conf :=
  if config.(write_logs) =? 0 then config
  else if decide (config.(daemonize) <> D_BACKGROUND) then config
  else
    let config := if config.(space_left_percent) =? 0 then config
                  else config<|space_left := calc_percent config.(space_left_percent)|> in
    if config.(admin_space_left_percent) =? 0 then config
    else config<|admin_space_left := calc_percent config.(admin_space_left_percent)|>.

Definition audit_lookup_format (fmt : logging_formats) : option string :=
  fst <$> List.find (fun row => bool_decide (row.2 = fmt)) log_formats.

Definition resolve_node (config : daemon_conf) : Z * daemon_conf :=
  match config.(node_name_format) with
  | N_NONE => (0, config)
  | N_HOSTNAME =>
      match gethostname with
      | None => (-1, config)
      | Some tmp_name => (0, config<|node_name := Some tmp_name|>)
      end
  | N_USER => (match config.(node_name) with None => -1 | Some _ => 0 end, config)
  | N_FQD =>
      match gethostname with
      | None => (-1, config)
      | Some tmp_name =>
          match getaddrinfo tmp_name with
          | None => (-1, config)
          | Some (canonname, _) => (0, config<|node_name := Some canonname|>)
          end
      end
  | N_NUMERIC =>
      match gethostname with
      | None => (-1, config)
      | Some tmp_name =>
          match getaddrinfo tmp_name with
          | None => (-1, config)
          | Some (_, numeric) => (0, config<|node_name := Some numeric|>)
          end
      end
  end.
End parsers.

End AuditdConf.
