(* ===== verification/AuditdConfFacts.v ===== *)
(** * The configuration of auditd: what [load_config] accepts *)
From S2P Require Import Prelude CString StrSplit Config ConfigFacts AuditdConf.
From coqutil Require Import Datatypes.RecordSetters.
Import RecordSetters.TriangleBracketNotations.

Local Open Scope audit_scope.
Local Open Scope string_scope.
Local Open Scope Z_scope.

Module AuditdConfFacts.
Import StrSplit Config ConfigFacts AuditdConf.

Section facts.
Context `{Host} (use_listener use_gssapi : bool).

Definition is_flag (x : Z) : Prop := x = 0 \/ x = 1.

(** An action with a program has one that passed its check. *)
Definition exe_ok (action : failure_action_t) (exe : option string) : Prop :=
  action = FA_EXEC -> check_exe_name exe = 0.

(** A percentage replaces the number of megabytes. *)
Definition space_ok (space percent : Z) : Prop :=
  0 <= space < two64 /\ 0 <= percent <= 99 /\ (percent <> 0 -> space = 0).

(** The members of a configuration at any time while it is read. *)
Record conf_ok (c : daemon_conf) : Prop := ConfOk {
  ok_flags : Forall is_flag [local_events c; write_logs c; verify_email c; use_libwrap c;
                             distribute_network_events c];
  ok_group : 0 <= log_group c < two32;
  ok_ints : Forall (fun n => 0 <= n <= INT_MAX)
              [priority_boost c; freq c; tcp_client_max_idle c; max_restarts c];
  ok_num_logs : 0 <= num_logs c <= 999;
  ok_max_log : 0 <= max_log_size c < two64;
  ok_space : space_ok (space_left c) (space_left_percent c);
  ok_admin : space_ok (admin_space_left c) (admin_space_left_percent c);
  ok_space_exe : exe_ok (space_left_action c) (space_left_exe c);
  ok_admin_exe : exe_ok (admin_space_left_action c) (admin_space_left_exe c);
  ok_full : disk_full_action c <> FA_EMAIL /\ exe_ok (disk_full_action c) (disk_full_exe c);
  ok_error : disk_error_action c <> FA_EMAIL /\ disk_error_action c <> FA_ROTATE /\
             exe_ok (disk_error_action c) (disk_error_exe c);
  ok_port : 0 <= tcp_listen_port c <= TCP_PORT_MAX;
  ok_queue : 1 <= tcp_listen_queue c <= TCP_PORT_MAX;
  ok_per_addr : 1 <= tcp_max_per_addr c <= 1024;
  ok_clients : 0 <= tcp_client_min_port c <= tcp_client_max_port c /\
               tcp_client_max_port c <= TCP_PORT_MAX;
  ok_transport : transport c = T_TCP \/ use_gssapi = true /\ transport c = T_KRB5;
  ok_depth : 0 <= q_depth c <= 99999;
}.

Lemma number_range v i : number v = Some i -> 0 <= i < two64.
Proof.
  unfold number. destruct (all_digits v); [|done].
  destruct (strtoul 10 v) as [x e] eqn:E. apply strtoul_range in E; [|lia].
  destruct e; [done|]. by intros [= ->].
Qed.

Lemma space_number_range v p i :
  space_number v = Some (p, i) -> if p then 0 <= i <= 99 else 0 <= i < two64.
Proof.
  unfold space_number. destruct (forallb _ _); [|done].
  destruct (strtoul 10 (blank_percent v)) as [x e] eqn:E. apply strtoul_range in E; [|lia].
  destruct e; [done|]. destruct (bool_decide _); cbn; zb; intros [= <- <-]; lia.
Qed.

Lemma yes_no_flag v x : nv_lookup yes_no_values v = Some x -> is_flag x.
Proof.
  unfold nv_lookup. cbn. unfold is_flag. destruct (strcaseeq v _); cbn; [intros [= <-]; by right|].
  destruct (strcaseeq v _); cbn; [intros [= <-]; by left|done].
Qed.

Lemma space_ok_reset s p : space_ok s p -> space_ok s 0.
Proof. unfold space_ok, two64. lia. Qed.

Lemma space_ok_percent p : 0 <= p <= 99 -> space_ok 0 p.
Proof. unfold space_ok, two64. lia. Qed.

Lemma space_ok_number s : 0 <= s < two64 -> space_ok s 0.
Proof. unfold space_ok, two64. lia. Qed.

Lemma auditd_transport_known v x :
  nv_lookup (transport_words use_gssapi) v = Some x -> x = T_TCP \/ use_gssapi = true /\ x = T_KRB5.
Proof.
  unfold nv_lookup, transport_words. cbn. destruct (strcaseeq v _); cbn; [intros [= <-]; by left|].
  destruct use_gssapi; cbn; [|done]. destruct (strcaseeq v _); cbn; [intros [= <-]; by right|done].
Qed.

Lemma exec_ok x exe : x <> FA_EXEC -> exe_ok x exe.
Proof. by intros Hx ?. Qed.

(** Split what a parser does and check the members it set. *)
Ltac parser_ok :=
  repeat match goal with
  | |- conf_ok (match ?x with _ => _ end).2 => destruct x eqn:?; cbn [snd]
  | |- conf_ok (if ?x then _ else _) => destruct x eqn:?
  | |- conf_ok (_, _).2 => cbn [snd]
  end; try assumption;
  repeat match goal with
  | H : number _ = Some _ |- _ => apply number_range in H
  | H : space_number _ = Some _ |- _ => apply space_number_range in H
  | H : strtoul _ _ = _ |- _ => apply strtoul_range in H; [|lia]
  | H : nv_lookup yes_no_values _ = Some _ |- _ => apply yes_no_flag in H
  | H : nv_lookup (transport_words _) _ = Some _ |- _ => apply auditd_transport_known in H
  | H : (_ <? _) = false |- _ => apply Z.ltb_ge in H
  | H : negb (_ =? _) = false |- _ => apply negb_false_iff, Z.eqb_eq in H
  | H : negb _ = false |- _ => apply negb_false_iff in H
  | H : decide _ = _ |- _ => clear H
  | H : ~ (_ \/ _) |- _ => apply Decidable.not_or in H as [? ?]
  end;
  match goal with
  | H : conf_ok ?c |- conf_ok _ => destruct H; constructor; cbn; try assumption
  end; unfold constant;
  lazymatch goal with
  | Hf : Forall ?P _ |- Forall ?P _ =>
      repeat (apply Forall_cons in Hf as [? Hf]); repeat (apply Forall_cons_2 || apply Forall_nil_2)
  | |- 0 <= u32 _ < two32 => apply u32_range
  | |- _ /\ _ => split_and!
  | _ => idtac
  end; try assumption;
  unfold TCP_PORT_MAX, INT_MAX in *;
  rewrite ?u32_small by (unfold two32; lia);
  lazymatch goal with
  | |- is_flag _ => by constructor
  | |- exe_ok _ _ => (by apply exec_ok) || (by intros _)
  | |- space_ok _ _ => first [by apply space_ok_percent|by apply space_ok_number|by eapply space_ok_reset]
  | |- _ <= _ => lia
  | |- _ <= _ < _ => lia
  | |- _ <= _ <= _ => lia
  | |- _ \/ _ => by right
  end.

Lemma auditd_keywords_keep lt :
  Forall (fun kw => forall v o c, conf_ok c -> conf_ok (kw.(parser) v o c).2)
    (keywords use_listener use_gssapi lt).
Proof.
  unfold keywords.
  repeat (apply Forall_cons; split; [intros v o c Hc; cbn [parser]|]); [..|apply Forall_nil; exact I].
  all: unfold local_events_parser, write_logs_parser, log_file_parser, log_format_parser,
    log_group_parser, flush_parser, freq_parser, num_logs_parser, dispatch_parser,
    name_format_parser, name_parser, qos_parser, max_log_size_parser, max_log_size_action_parser,
    space_left_parser, space_action_parser, action_mail_acct_parser, verify_email_parser,
    admin_space_left_parser, admin_space_left_action_parser, disk_full_action_parser,
    disk_error_action_parser, priority_boost_parser, tcp_listen_port_parser,
    tcp_listen_queue_parser, tcp_max_per_addr_parser, use_libwrap_parser,
    tcp_client_ports_parser, tcp_client_max_idle_parser, transport_parser, enable_krb5_parser,
    krb5_principal_parser, krb5_key_file_parser, distribute_network_parser, q_depth_parser,
    overflow_action_parser, max_restarts_parser, plugin_dir_parser.
  all: parser_ok.
Qed.

(** What [sanity_check] asks for. *)
Definition sane (c : daemon_conf) : Prop :=
  (space_left_percent c = 0 -> admin_space_left_percent c = 0 ->
   admin_space_left c < space_left c) /\
  (incremental (flush c) = true -> freq c <> 0).

Lemma sanity_check_spec s c rc c' :
  sanity_check s c = (rc, c') ->
  if rc =? 0 then sane c /\ c' = c<|conf_config_dir := config_dir s|> else rc = 1 /\ c' = c.
Proof.
  unfold sanity_check, sane.
  destruct (Z.eqb_spec (space_left_percent c) 0), (Z.eqb_spec (admin_space_left_percent c) 0),
    (Z.leb_spec (space_left c) (admin_space_left c)); cbn [andb];
    try (by intros [= <- <-]);
    destruct (incremental (flush c)), (Z.eqb_spec (freq c) 0); cbn [andb]; intros [= <- <-];
    cbn; split; done || (split; intros; try done; lia).
Qed.

Lemma auditd_conf_ok_default c : conf_ok (clear_config c).
Proof.
  constructor; cbn; repeat constructor; unfold INT_MAX, two32, two64, TCP_PORT_MAX; done || lia.
Qed.

Lemma conf_ok_dir c d : conf_ok c -> conf_ok (c<|conf_config_dir := d|>).
Proof. by intros []. Qed.

Lemma auditd_get_line_reads : reads get_line.
Proof. apply get_line_skipping_reads. unfold BUF. lia. Qed.


(** [load_config] returns on any file, and every access of its loops is inside of
    the line buffer. *)
Theorem load_config_total lt s c : is_Some (load_config use_listener use_gssapi lt s c).
Proof.
  unfold load_config. destruct (open _ _) as [| |st text]; [done..|].
  destruct (negb _); [done|]. destruct text as [f|]; [|done].
  edestruct (load_lines_total (sp:=audit_splitter) (dispatch (keywords use_listener use_gssapi lt))
    get_line (S (length f)) f [] 1 (clear_config c)) as [[[rc ln] c'] E];
    [apply auditd_get_line_reads|lia|].
  unfold nv_split. rewrite E. cbn [mbind option_bind].
  destruct (negb _); [done|]. destruct (_ <? _); [|done]. by destruct (sanity_check _ _).
Qed.

(** C24: whatever [load_config] returns, every member of the configuration is in
    its range, an action that runs a program has one that passed the check, and
    a configuration that was accepted is the default one or passed
    [sanity_check]. *)
Theorem load_config_ok lt s c rc s' c' :
  load_config use_listener use_gssapi lt s c = Some (rc, s', c') ->
  conf_ok c' /\ (rc = 0 -> c' = clear_config c \/ sane c').
Proof.
  unfold load_config. pose proof (auditd_conf_ok_default c) as Hd.
  destruct (open _ _) as [| |st text]; [intros [= <- <- <-]; auto..|].
  destruct (negb _); [intros [= <- <- <-]; auto|].
  destruct text as [f|]; [|intros [= <- <- <-]; auto].
  destruct (load_lines _ _ _ _ _ _ _ _) as [[[rc1 ln] c1]|] eqn:E; cbn [mbind option_bind]; [|done].
  assert (conf_ok c1) as H1.
  { eapply load_lines_keeps; [|exact E|done]. intros nv c0. apply dispatch_keeps, auditd_keywords_keep. }
  destruct (Z.eqb_spec rc1 0) as [->|Hrc]; cbn [negb]; [|by intros [= <- <- <-]].
  apply load_lines_lineno in E as [Hln Hc]; [|apply auditd_get_line_reads].
  destruct (Z.ltb_spec 1 ln).
  - destruct (sanity_check _ c1) as [rc2 c2] eqn:Es. intros [= <- <- <-].
    apply sanity_check_spec in Es. destruct (Z.eqb_spec rc2 0).
    + destruct Es as [Hs ->]. split; [by apply conf_ok_dir|]. by right.
    + by destruct Es as [-> ->].
  - intros [= <- <- <-]. split; [done|]. left. apply Hc; [done|lia].
Qed.

(** The checks of the file, and its text. *)
Definition config_text (s : statics) (text : chars) : Prop :=
  exists st, open (default CONFIG_FILE (config_file s))
      (if allow_links s then O_RDONLY else O_RDONLY_NOFOLLOW) = Opened (Some st) (Some text) /\
    check_file not_world_writable (Some st) = true.

(** What [load_config] is to do with the lines of a file. *)
Definition load_reference lt (s : statics) (lines : list chars) (c : daemon_conf) : Z * daemon_conf :=
  let '(rc, lineno, c) :=
    process_lines (dispatch (keywords use_listener use_gssapi lt)) (fun l => negb (fits BUF l))
      lines 1 (clear_config c) in
  if negb (rc =? 0) then (rc, c)
  else if 1 <? lineno then sanity_check s c else (0, c).

(** C25: on a file that passes the checks, [load_config] handles the words of its
    lines in order until one is refused, skipping those of more than 158
    characters and whatever is behind the last newline, and then checks the
    result. *)
Theorem load_config_lines lt s c lines tail :
  config_text s (text_of lines ++ tail) -> Forall valid_line lines -> valid_line tail ->
  load_config use_listener use_gssapi lt s c = Some ((load_reference lt s lines c).1,
                      s<|log_test := lt|><|config_file := Some (default CONFIG_FILE (config_file s))|>,
                      (load_reference lt s lines c).2).
Proof.
  intros (st & Eo & Hst) Hv Ht. unfold load_config, load_reference. destruct s as [al cd cf lt0].
  cbn [allow_links config_dir config_file log_test apply_update constant] in *.
  rewrite Eo, Hst. cbn [negb]. unfold get_line, nv_split.
  rewrite (load_lines_skipping (sp:=audit_splitter) _); [|unfold BUF; lia|done|done|].
  - cbn [mbind option_bind].
    destruct (process_lines _ _ lines 1 (clear_config c)) as [[rc ln] c1].
    destruct (negb _); [done|]. destruct (1 <? ln); [|done]. unfold sanity_check. cbn [config_dir].
    by repeat case_match.
  - rewrite length_app. assert (length lines <= length (text_of lines))%nat; [|lia].
    clear. induction lines as [|l lines IH]; cbn; [lia|]. rewrite length_app. cbn. lia.
Qed.

(** A program for an action is accepted exactly if its path is absolute and it
    is a regular file of root with mode 0750, 0755 or 0555; a program with mode
    0550, which the message names, is not. *)
Theorem check_exe_name_spec val :
  check_exe_name (Some val) = 0 <->
  char_at val = "/"%char /\
  exists st, stat val = Some st /\ S_ISREG (st_mode st) = true /\ st_uid st = 0 /\
    (Z.land (st_mode st) 511 = 488 \/ Z.land (st_mode st) 511 = 493 \/ Z.land (st_mode st) 511 = 365).
Proof.
  unfold check_exe_name, exe_mode_ok. rewrite <-char_eq_true.
  destruct (char_at val =c "/"%char); cbn [negb]; [|split; [done|by intros [? _]]].
  destruct (stat val) as [st|]; [|split; [done|by intros (_ & ? & ? & _)]].
  split.
  - intros Hc. split; [done|]. exists st. revert Hc.
    destruct (S_ISREG _); cbn [negb]; [|done]. zb; cbn; intros; split_and!; try done; tauto.
  - intros (_ & st' & [= <-] & -> & -> & Hm). cbn [negb Z.eqb].
    by destruct Hm as [->|[->| ->]].
Qed.

End facts.

(** ** Examples *)

Definition file_of (lines : list string) : chars :=
  text_of (String.list_ascii_of_string <$> lines).

(** A machine with this text in every file, which belongs to root with mode 0640,
    and programs with mode 0750. *)
Definition demo_host (text : chars) : Host := {|
  open _ _ := Opened (Some (Stat 0 (32768 + 416) 1)) (Some text);
  opendir _ := true;
  stat _ := Some (Stat 0 (32768 + 488) 1);
  getgrnam _ := None;
  gethostname := None;
  getaddrinfo _ := None;
  fstatfs := None;
  percent_of _ _ := 0;
|}.
Definition demo_statics : statics := Statics false None None TEST_AUDITD.
Definition demo_before : daemon_conf := clear_config {|
  daemonize := D_BACKGROUND; local_events := 0; sender_uid := 0; sender_pid := 0; sender_ctx := None;
  write_logs := 0; log_file := ""; log_format := LF_RAW; log_group := 0; priority_boost := 0;
  flush := FT_NONE; freq := 0; num_logs := 0; node_name_format := N_NONE; node_name := None;
  max_log_size := 0; max_log_size_action := SZ_IGNORE; space_left := 0; space_left_percent := 0;
  space_left_action := FA_IGNORE; space_left_exe := None; action_mail_acct := None; verify_email := 0;
  admin_space_left := 0; admin_space_left_percent := 0; admin_space_left_action := FA_IGNORE;
  admin_space_left_exe := None; disk_full_action := FA_IGNORE; disk_full_exe := None;
  disk_error_action := FA_IGNORE; disk_error_exe := None; tcp_listen_port := 0;
  tcp_listen_queue := 0; tcp_max_per_addr := 0; use_libwrap := 0; tcp_client_min_port := 0;
  tcp_client_max_port := 0; tcp_client_max_idle := 0; transport := T_TCP; krb5_principal := None;
  krb5_key_file := None; distribute_network_events := 0; q_depth := 0; overflow_action := O_IGNORE;
  max_restarts := 0; plugin_dir := ""; conf_config_dir := None |}.

Definition demo_lines : list string :=
  ["# a comment"; "log_file = /var/log/audit/audit.log"; ""; "Flush = INCREMENTAL_ASYNC";
   "freq = 50"; "space_left = 75"; "admin_space_left = 50"; "space_left_action = exec /sbin/act";
   "plugin_dir = /etc/audit/plugins.d"; "q_depth = 1200"].
Definition demo_text : chars := file_of demo_lines.
Definition demo_conf : daemon_conf := demo_before
  <|flush := FT_INCREMENTAL_ASYNC|><|freq := 50|><|space_left := 75|><|admin_space_left := 50|>
  <|space_left_action := FA_EXEC|><|space_left_exe := Some "/sbin/act"|>
  <|plugin_dir := "/etc/audit/plugins.d/"|><|q_depth := 1200|>.
Definition demo_after : statics := Statics false None (Some CONFIG_FILE) TEST_AUDITD.

Lemma load_config_ok_witness :
  @conf_ok (demo_host demo_text) false demo_conf /\ (0 = 0 -> demo_conf = clear_config demo_before \/ sane demo_conf).
Proof.
  apply (@load_config_ok (demo_host demo_text) true false TEST_AUDITD demo_statics demo_before 0 demo_after).
  vm_compute. reflexivity.
Defined.

Lemma forall_valid lines :
  forallb (fun l => forallb (fun c => negb ((c =c LF) || (c =c NUL))) l) lines = true ->
  Forall valid_line lines.
Proof.
  intros Hl. apply Forall_forall. intros l Hin. apply list_elem_of_In in Hin.
  rewrite forallb_forall in Hl. specialize (Hl _ Hin). rewrite forallb_forall in Hl.
  split; intros Hc%list_elem_of_In%Hl; by rewrite Ascii.eqb_refl, ?orb_true_r in Hc.
Qed.

Lemma load_config_lines_witness :
  load_config (H:=demo_host (demo_text ++ ["q"; "_"]%char)) true false TEST_AUDITD demo_statics demo_before
  = Some (0, demo_after, demo_conf).
Proof.
  rewrite (@load_config_lines (demo_host (demo_text ++ ["q"; "_"]%char)) true false TEST_AUDITD
    demo_statics demo_before (String.list_ascii_of_string <$> demo_lines) ["q"; "_"]%char).
  - vm_compute. reflexivity.
  - eexists. split; [reflexivity|]. reflexivity.
  - apply forall_valid. vm_compute. reflexivity.
  - assert (Forall valid_line [["q"; "_"]%char]) as Hf by (by apply forall_valid).
    by apply Forall_inv in Hf.
Defined.

End AuditdConfFacts.
