(* ===== verification/RemoteConf.v ===== *)
(** * The configuration of audisp-remote (audisp/plugins/remote/remote-config.c)

    [remote_conf_t], one parser per keyword, and [load_config].  The plugin reads
    128 characters of a line at a time and splits words with strtok_r.  Messages
    to syslog and the release of memory are left out; whether the plugin was
    built with Kerberos (USE_GSSAPI) is a parameter. *)
From S2P Require Import Prelude CString StrSplit Config.
From coqutil Require Import Datatypes.RecordSetters.
Import RecordSetters.TriangleBracketNotations.

Local Open Scope audit_scope.
Local Open Scope string_scope.
Local Open Scope Z_scope.

Module RemoteConf.
Import StrSplit Config.

Inductive rmode_t := M_IMMEDIATE | M_STORE_AND_FORWARD.
Inductive transport_t := T_TCP | T_TLS | T_KRB5 | T_LABELED.
Inductive format_t := F_ASCII | F_MANAGED.
Inductive failure_action_t :=
  FA_IGNORE | FA_SYSLOG | FA_WARN_ONCE_CONT | FA_WARN_ONCE | FA_EXEC | FA_RECONNECT | FA_SUSPEND |
  FA_SINGLE | FA_HALT | FA_STOP.
Inductive overflow_action_t := OA_IGNORE | OA_SYSLOG | OA_SUSPEND | OA_SINGLE | OA_HALT.

#[export] Instance rmode_eq_dec : EqDecision rmode_t.
Proof. solve_decision. Defined.
#[export] Instance format_eq_dec : EqDecision format_t.
Proof. solve_decision. Defined.
#[export] Instance failure_action_eq_dec : EqDecision failure_action_t.
Proof. solve_decision. Defined.

(** The order of the enumeration, which [sanity_check] compares. *)
Definition action_number (a : failure_action_t) : Z :=
  match a with
  | FA_IGNORE => 0 | FA_SYSLOG => 1 | FA_WARN_ONCE_CONT => 2 | FA_WARN_ONCE => 3 | FA_EXEC => 4
  | FA_RECONNECT => 5 | FA_SUSPEND => 6 | FA_SINGLE => 7 | FA_HALT => 8 | FA_STOP => 9
  end.

Record remote_conf := {
  remote_server : option string;
  port : Z;
  local_port : Z;
  transport : transport_t;
  mode : rmode_t;
  queue_file : option string;
  queue_depth : Z;
  format : format_t;
  network_retry_time : Z;
  max_tries_per_record : Z;
  max_time_per_record : Z;
  heartbeat_timeout : Z;
  krb5_principal : option string;
  krb5_client_name : option string;
  krb5_key_file : option string;
  network_failure_action : failure_action_t;
  network_failure_exe : option string;
  disk_low_action : failure_action_t;
  disk_low_exe : option string;
  disk_full_action : failure_action_t;
  disk_full_exe : option string;
  disk_error_action : failure_action_t;
  disk_error_exe : option string;
  remote_ending_action : failure_action_t;
  remote_ending_exe : option string;
  generic_error_action : failure_action_t;
  generic_error_exe : option string;
  generic_warning_action : failure_action_t;
  generic_warning_exe : option string;
  queue_error_action : failure_action_t;
  queue_error_exe : option string;
  overflow_action : overflow_action_t;
  startup_failure_exe : option string;
  startup_failure_action : failure_action_t;
}.

Definition transport_words (use_gssapi : bool) : list (string * transport_t) :=
  ("tcp", T_TCP) :: (if use_gssapi then [("krb5", T_KRB5)] else []).
Definition mode_words : list (string * rmode_t) :=
  [("immediate", M_IMMEDIATE); ("forward", M_STORE_AND_FORWARD)].
Definition fail_action_words : list (string * failure_action_t) :=
  [("ignore", FA_IGNORE); ("syslog", FA_SYSLOG); ("exec", FA_EXEC);
   ("warn_once_continue", FA_WARN_ONCE_CONT); ("warn_once", FA_WARN_ONCE); ("suspend", FA_SUSPEND);
   ("single", FA_SINGLE); ("halt", FA_HALT); ("stop", FA_STOP)].
Definition overflow_action_words : list (string * overflow_action_t) :=
  [("ignore", OA_IGNORE); ("syslog", OA_SYSLOG); ("suspend", OA_SUSPEND); ("single", OA_SINGLE);
   ("halt", OA_HALT)].
Definition format_words : list (string * format_t) := [("ascii", F_ASCII); ("managed", F_MANAGED)].
Definition enable_krb5_values : list (string * Z) := [("yes", 1); ("no", 0)].

Definition clear_config : remote_conf := {|
  remote_server := None;
  port := 60;
  local_port := 0;
  transport := T_TCP;
  mode := M_IMMEDIATE;
  queue_file := None;
  queue_depth := 2048;
  format := F_MANAGED;
  network_retry_time := 1;
  max_tries_per_record := 3;
  max_time_per_record := 5;
  heartbeat_timeout := 0;
  krb5_principal := None;
  krb5_client_name := None;
  krb5_key_file := None;
  network_failure_action := FA_STOP;
  network_failure_exe := None;
  disk_low_action := FA_IGNORE;
  disk_low_exe := None;
  disk_full_action := FA_WARN_ONCE;
  disk_full_exe := None;
  disk_error_action := FA_WARN_ONCE;
  disk_error_exe := None;
  remote_ending_action := FA_RECONNECT;
  remote_ending_exe := None;
  generic_error_action := FA_SYSLOG;
  generic_error_exe := None;
  generic_warning_action := FA_SYSLOG;
  generic_warning_exe := None;
  queue_error_action := FA_STOP;
  queue_error_exe := None;
  overflow_action := OA_SYSLOG;
  startup_failure_exe := None;
  startup_failure_action := FA_WARN_ONCE_CONT;
|}.

Section parsers.
Context `{Host} (use_gssapi : bool).
Implicit Types (v : string) (opt : option string) (config : remote_conf).

(** The mask is 0772: the owner and the group must have rwx and r-x, and others
    no permission to write. *)
Definition check_exe_name (val : option string) : Z :=
  match val with
  | None => -1
  | Some val =>
      if negb (char_at val =c "/"%char) then -1
      else match stat val with
           | None => -1
           | Some st =>
               if negb (S_ISREG st.(st_mode)) then -1
               else if negb (st.(st_uid) =? 0) then -1
               else if negb (Z.land st.(st_mode) 506 =? 488) then -1 else 0
           end
  end.

Definition server_parser v opt config : Z * remote_conf := (0, config<|remote_server := Some v|>).

(** [parse_uint]: the value of strtoul goes to a variable of 32 bits before its
    range is looked at; [min] and [max] of 0 are no limit. *)
Definition parse_uint v (min max : Z) : option Z :=
  if all_digits v then
    let (i, erange) := strtoul 10 v in
    if erange then None else
    let i := u32 i in
    if negb (min =? 0) && (i <? min) then None
    else if negb (max =? 0) && (max <? i) then None
    else Some i
  else None.

Definition port_parser v opt config : Z * remote_conf :=
  match parse_uint v 0 65535 with Some i => (0, config<|port := i|>) | None => (1, config) end.

Definition local_port_parser v opt config : Z * remote_conf :=
  if strcaseeq v "any" then (0, config)
  else match parse_uint v 0 65535 with
       | Some i => (0, config<|local_port := i|>)
       | None => (1, config)
       end.

Definition transport_parser v opt config : Z * remote_conf :=
  match nv_lookup (transport_words use_gssapi) v with
  | Some x => (0, config<|transport := x|>)
  | None => (1, config)
  end.

Definition mode_parser v opt config : Z * remote_conf :=
  match nv_lookup mode_words v with
  | Some x => (0, config<|mode := x|>)
  | None => (1, config)
  end.

Definition queue_file_parser v opt config : Z * remote_conf :=
  if negb (char_at v =c "/"%char) then (1, config) else (0, config<|queue_file := Some v|>).

Definition depth_parser v opt config : Z * remote_conf :=
  match parse_uint v 1 INT_MAX with
  | Some i => (0, config<|queue_depth := i|>)
  | None => (1, config)
  end.

(** [action_parser]: the action, and the program if there is a new one. *)
Definition action_parser v opt : option (failure_action_t * option string) :=
  match nv_lookup fail_action_words v with
  | None => None
  | Some x =>
      if decide (x = FA_EXEC) then
        if negb (check_exe_name opt =? 0) then None else Some (x, opt)
      else Some (x, None)
  end.

(** A program that was set stays if there is no new one. *)
Definition keep (new old : option string) : option string :=
  match new with Some e => Some e | None => old end.

Definition network_failure_action_parser v opt config : Z * remote_conf :=
  match action_parser v opt with
  | None => (1, config)
  | Some (a, e) => (0, config<|network_failure_exe ::= keep e|><|network_failure_action := a|>)
  end.
Definition disk_low_action_parser v opt config : Z * remote_conf :=
  match action_parser v opt with
  | None => (1, config)
  | Some (a, e) => (0, config<|disk_low_exe ::= keep e|><|disk_low_action := a|>)
  end.
Definition disk_full_action_parser v opt config : Z * remote_conf :=
  match action_parser v opt with
  | None => (1, config)
  | Some (a, e) => (0, config<|disk_full_exe ::= keep e|><|disk_full_action := a|>)
  end.
Definition disk_error_action_parser v opt config : Z * remote_conf :=
  match action_parser v opt with
  | None => (1, config)
  | Some (a, e) => (0, config<|disk_error_exe ::= keep e|><|disk_error_action := a|>)
  end.
Definition generic_error_action_parser v opt config : Z * remote_conf :=
  match action_parser v opt with
  | None => (1, config)
  | Some (a, e) => (0, config<|generic_error_exe ::= keep e|><|generic_error_action := a|>)
  end.
Definition generic_warning_action_parser v opt config : Z * remote_conf :=
  match action_parser v opt with
  | None => (1, config)
  | Some (a, e) => (0, config<|generic_warning_exe ::= keep e|><|generic_warning_action := a|>)
  end.
Definition queue_error_action_parser v opt config : Z * remote_conf :=
  match action_parser v opt with
  | None => (1, config)
  | Some (a, e) => (0, config<|queue_error_exe ::= keep e|><|queue_error_action := a|>)
  end.
Definition startup_failure_action_parser v opt config : Z * remote_conf :=
  match action_parser v opt with
  | None => (1, config)
  | Some (a, e) => (0, config<|startup_failure_exe ::= keep e|><|startup_failure_action := a|>)
  end.

Definition overflow_action_parser v opt config : Z * remote_conf :=
  match nv_lookup overflow_action_words v with
  | Some x => (0, config<|overflow_action := x|>)
  | None => (1, config)
  end.

Definition remote_ending_action_parser v opt config : Z * remote_conf :=
  if strcaseeq v "reconnect" then (0, config<|remote_ending_action := FA_RECONNECT|>)
  else match action_parser v opt with
       | None => (1, config)
       | Some (a, e) => (0, config<|remote_ending_exe ::= keep e|><|remote_ending_action := a|>)
       end.

Definition format_parser v opt config : Z * remote_conf :=
  match nv_lookup format_words v with
  | Some x => (0, config<|format := x|>)
  | None => (1, config)
  end.

Definition network_retry_time_parser v opt config : Z * remote_conf :=
  match parse_uint v 1 INT_MAX with
  | Some i => (0, config<|network_retry_time := i|>)
  | None => (1, config)
  end.
Definition max_tries_per_record_parser v opt config : Z * remote_conf :=
  match parse_uint v 1 INT_MAX with
  | Some i => (0, config<|max_tries_per_record := i|>)
  | None => (1, config)
  end.
Definition max_time_per_record_parser v opt config : Z * remote_conf :=
  match parse_uint v 1 INT_MAX with
  | Some i => (0, config<|max_time_per_record := i|>)
  | None => (1, config)
  end.
Definition heartbeat_timeout_parser v opt config : Z * remote_conf :=
  match parse_uint v 0 INT_MAX with
  | Some i => (0, config<|heartbeat_timeout := i|>)
  | None => (1, config)
  end.

Definition enable_krb5_parser v opt config : Z * remote_conf :=
  if negb use_gssapi then (0, config) else
  match nv_lookup enable_krb5_values v with
  | Some x => (0, if x =? 1 then config<|transport := T_KRB5|> else config)
  | None => (1, config)
  end.
Definition krb5_principal_parser v opt config : Z * remote_conf :=
  (0, if use_gssapi then config<|krb5_principal := Some v|> else config).
Definition krb5_client_name_parser v opt config : Z * remote_conf :=
  (0, if use_gssapi then config<|krb5_client_name := Some v|> else config).
Definition krb5_key_file_parser v opt config : Z * remote_conf :=
  (0, if use_gssapi then config<|krb5_key_file := Some v|> else config).

Definition keywords : list (kw_pair remote_conf) :=
  [KwPair "remote_server" server_parser 0;
   KwPair "port" port_parser 0;
   KwPair "local_port" local_port_parser 0;
   KwPair "transport" transport_parser 0;
   KwPair "mode" mode_parser 0;
   KwPair "queue_file" queue_file_parser 0;
   KwPair "queue_depth" depth_parser 0;
   KwPair "format" format_parser 0;
   KwPair "network_retry_time" network_retry_time_parser 0;
   KwPair "max_tries_per_record" max_tries_per_record_parser 0;
   KwPair "max_time_per_record" max_time_per_record_parser 0;
   KwPair "heartbeat_timeout" heartbeat_timeout_parser 0;
   KwPair "enable_krb5" enable_krb5_parser 0;
   KwPair "krb5_principal" krb5_principal_parser 0;
   KwPair "krb5_client_name" krb5_client_name_parser 0;
   KwPair "krb5_key_file" krb5_key_file_parser 0;
   KwPair "network_failure_action" network_failure_action_parser 1;
   KwPair "disk_low_action" disk_low_action_parser 1;
   KwPair "disk_full_action" disk_full_action_parser 1;
   KwPair "disk_error_action" disk_error_action_parser 1;
   KwPair "remote_ending_action" remote_ending_action_parser 1;
   KwPair "generic_error_action" generic_error_action_parser 1;
   KwPair "generic_warning_action" generic_warning_action_parser 1;
   KwPair "queue_error_action" queue_error_action_parser 1;
   KwPair "overflow_action" overflow_action_parser 1;
   KwPair "startup_failure_action" startup_failure_action_parser 1].

Definition sanity_check (config : remote_conf) : Z :=
  if bool_decide (config.(mode) = M_STORE_AND_FORWARD) &&
     bool_decide (config.(format) <> F_MANAGED) then 1
  else if action_number FA_EXEC <? action_number config.(startup_failure_action) then 1
  else 0.

(** char buf[128]. *)
Definition BUF : nat := 128.
Definition get_line : chars -> chars -> Z -> line_result := get_line_cutting BUF.
Definition nv_split : chars -> option (Z * nv_ptrs * chars) := @Config.nv_split strtok_splitter.

(** [None]: no return, or an access behind the buffer. *)
Definition load_config (file : string) : option (Z * remote_conf) :=
  let config := clear_config in
  match open file O_RDONLY with
  | Open_ENOENT => Some (0, config)
  | Open_error => Some (1, config)
  | Opened st text =>
      if negb (check_file not_world_writable st) then Some (1, config) else
      match text with
      | None => Some (1, config)
      | Some f =>
          '(rc, lineno, config) ← load_lines get_line nv_split (dispatch keywords)
                                    (S (length f)) f [] 1 config;
          if negb (rc =? 0) then Some (rc, config)
          else if 1 <? lineno then Some (sanity_check config, config)
          else Some (0, config)
      end
  end.
End parsers.

End RemoteConf.
