(* ===== verification/RemoteConfFacts.v ===== *)
(** * The configuration of audisp-remote: ranges, writing and reading, and the
    queue it opens *)
From S2P Require Import Prelude CString StrSplit Config ConfigFacts RemoteConf Os RemoteQueue.
From S2P Require Import RemoteQueueFacts.
From coqutil Require Import Datatypes.RecordSetters.
Import RecordSetters.TriangleBracketNotations.

Local Open Scope audit_scope.
Local Open Scope string_scope.
Local Open Scope Z_scope.

Module RemoteConfFacts.
Import StrSplit Config ConfigFacts RemoteConf.

(** ** Writing a configuration *)

(** The word of a table for a value. *)
Definition transport_word (t : transport_t) : string :=
  match t with T_KRB5 => "krb5" | _ => "tcp" end.
Definition mode_word (m : rmode_t) : string :=
  match m with M_IMMEDIATE => "immediate" | M_STORE_AND_FORWARD => "forward" end.
Definition format_word (f : format_t) : string :=
  match f with F_ASCII => "ascii" | F_MANAGED => "managed" end.
Definition action_word (a : failure_action_t) : string :=
  match a with
  | FA_IGNORE => "ignore" | FA_SYSLOG => "syslog" | FA_WARN_ONCE_CONT => "warn_once_continue"
  | FA_WARN_ONCE => "warn_once" | FA_EXEC => "exec" | FA_RECONNECT => "reconnect"
  | FA_SUSPEND => "suspend" | FA_SINGLE => "single" | FA_HALT => "halt" | FA_STOP => "stop"
  end.
Definition overflow_word (a : overflow_action_t) : string :=
  match a with
  | OA_IGNORE => "ignore" | OA_SYSLOG => "syslog" | OA_SUSPEND => "suspend" | OA_SINGLE => "single"
  | OA_HALT => "halt"
  end.

Definition show_opt (name : string) (v : option string) : list (list string) :=
  match v with Some v => [[name; "="; v]] | None => [] end.
Definition show_num (name : string) (n : Z) : list string := [name; "="; decimal n].
Definition show_action (name : string) (a : failure_action_t) (e : option string) : list string :=
  name :: "=" :: action_word a :: match e with Some e => [e] | None => [] end.

Definition show_conf (c : remote_conf) : list (list string) :=
  show_opt "remote_server" (remote_server c) ++
  show_opt "queue_file" (queue_file c) ++
  show_opt "krb5_principal" (krb5_principal c) ++
  show_opt "krb5_client_name" (krb5_client_name c) ++
  show_opt "krb5_key_file" (krb5_key_file c) ++
  [show_num "port" (port c);
   show_num "local_port" (local_port c);
   ["transport"; "="; transport_word (transport c)];
   ["mode"; "="; mode_word (mode c)];
   show_num "queue_depth" (queue_depth c);
   ["format"; "="; format_word (format c)];
   show_num "network_retry_time" (network_retry_time c);
   show_num "max_tries_per_record" (max_tries_per_record c);
   show_num "max_time_per_record" (max_time_per_record c);
   show_num "heartbeat_timeout" (heartbeat_timeout c);
   show_action "network_failure_action" (network_failure_action c) (network_failure_exe c);
   show_action "disk_low_action" (disk_low_action c) (disk_low_exe c);
   show_action "disk_full_action" (disk_full_action c) (disk_full_exe c);
   show_action "disk_error_action" (disk_error_action c) (disk_error_exe c);
   show_action "remote_ending_action" (remote_ending_action c) (remote_ending_exe c);
   show_action "generic_error_action" (generic_error_action c) (generic_error_exe c);
   show_action "generic_warning_action" (generic_warning_action c) (generic_warning_exe c);
   show_action "queue_error_action" (queue_error_action c) (queue_error_exe c);
   ["overflow_action"; "="; overflow_word (overflow_action c)];
   show_action "startup_failure_action" (startup_failure_action c) (startup_failure_exe c)].

Section facts.
Context `{Host} (use_gssapi : bool).

(** A string that fits in a line behind any keyword. *)
Definition string_ok (s : string) : Prop := word_ok s = true /\ (String.length s <= 96)%nat.
Definition opt_ok (P : string -> Prop) (o : option string) : Prop :=
  match o with Some s => string_ok s /\ P s | None => True end.
Definition action_ok (a : failure_action_t) (e : option string) : Prop :=
  a <> FA_RECONNECT /\
  match e with
  | Some s => a = FA_EXEC /\ string_ok s /\ check_exe_name e = 0
  | None => a <> FA_EXEC
  end.

(** The configurations that can be written down. *)
Record writable (c : remote_conf) : Prop := Writable {
  w_server : opt_ok (fun _ => True) (remote_server c);
  w_queue_file : opt_ok (fun s => char_at s = "/"%char) (queue_file c);
  w_principal : opt_ok (fun _ => use_gssapi = true) (krb5_principal c);
  w_client : opt_ok (fun _ => use_gssapi = true) (krb5_client_name c);
  w_key_file : opt_ok (fun _ => use_gssapi = true) (krb5_key_file c);
  w_port : 0 <= port c <= 65535;
  w_local_port : 0 <= local_port c <= 65535;
  w_transport : transport c = T_TCP \/ use_gssapi = true /\ transport c = T_KRB5;
  w_depth : 1 <= queue_depth c <= INT_MAX;
  w_retry : 1 <= network_retry_time c <= INT_MAX;
  w_tries : 1 <= max_tries_per_record c <= INT_MAX;
  w_time : 1 <= max_time_per_record c <= INT_MAX;
  w_heartbeat : 0 <= heartbeat_timeout c <= INT_MAX;
  w_network : action_ok (network_failure_action c) (network_failure_exe c);
  w_low : action_ok (disk_low_action c) (disk_low_exe c);
  w_full : action_ok (disk_full_action c) (disk_full_exe c);
  w_error : action_ok (disk_error_action c) (disk_error_exe c);
  w_ending : action_ok (remote_ending_action c) (remote_ending_exe c) \/
             remote_ending_action c = FA_RECONNECT /\ remote_ending_exe c = None;
  w_generic : action_ok (generic_error_action c) (generic_error_exe c);
  w_warning : action_ok (generic_warning_action c) (generic_warning_exe c);
  w_queue : action_ok (queue_error_action c) (queue_error_exe c);
  w_startup : action_ok (startup_failure_action c) (startup_failure_exe c);
  w_sane : sanity_check c = 0;
}.

Abbreviation sets := (sets (keywords use_gssapi)).

Lemma parse_uint_decimal n min max :
  0 <= n < two32 -> min <= n -> (max = 0 \/ n <= max) -> parse_uint (decimal n) min max = Some n.
Proof.
  intros Hn Hmin Hmax. unfold parse_uint. rewrite decimal_digits by lia.
  rewrite strtoul_decimal by (unfold two64, two32 in *; lia). rewrite u32_small by done.
  destruct (Z.ltb_spec n min); [lia|]. rewrite andb_false_r.
  destruct (Z.ltb_spec max n); [|by rewrite andb_false_r].
  by destruct Hmax as [->|?]; [|lia].
Qed.

Lemma any_decimal n : 0 <= n -> strcaseeq (decimal n) "any" = false.
Proof.
  intros Hn. apply decimal_digits in Hn. destruct (decimal n) as [|c s]; [done|].
  apply andb_prop in Hn as [Hc _]. cbn [strcaseeq].
  assert ((tolower c =c tolower "a") = false) as ->; [|done].
  apply not_true_is_false. intros E%char_eq_true. unfold tolower, isdigit, between in *.
  cbn in E. destruct ((65 <=? code c) && (code c <=? 90)) eqn:Eb; [zb; cbn in *; lia || done|].
  by subst c.
Qed.

(** One setting each. *)
Lemma sets_opt name kw (set : option string -> remote_conf -> remote_conf) P v c :
  opt_ok P v -> word_ok name = true -> is_comment name = false ->
  kw_lookup (keywords use_gssapi) name = Some kw -> max_options kw = 0 ->
  (forall s, P s -> parser kw s None c = (0, set (Some s) c)) ->
  set None c = c ->
  sets (show_opt name v) c (set v c).
Proof.
  intros Hv Hn Hc Hk Hm Hp Hnone. destruct v as [s|]; cbn [show_opt].
  - destruct Hv as [[Hw _] HP]. eapply sets_one; [cbn [forallb]; by rewrite Hn, Hw|done|cbn; lia|done|by right|].
    by apply Hp.
  - rewrite Hnone. apply sets_nil.
Qed.

Lemma sets_num name kw (set : Z -> remote_conf -> remote_conf) n c :
  0 <= n -> word_ok name = true -> is_comment name = false ->
  kw_lookup (keywords use_gssapi) name = Some kw ->
  parser kw (decimal n) None c = (0, set n c) ->
  sets [show_num name n] c (set n c).
Proof.
  intros Hv Hn Hc Hk Hp. eapply sets_one; [|done|cbn; lia|done|by right|done].
  cbn [forallb]. by rewrite Hn, decimal_word.
Qed.

Lemma sets_word {A} name kw (set : A -> remote_conf -> remote_conf) (w : string) (x : A) c :
  word_ok w = true -> word_ok name = true -> is_comment name = false ->
  kw_lookup (keywords use_gssapi) name = Some kw ->
  parser kw w None c = (0, set x c) ->
  sets [[name; "="; w]] c (set x c).
Proof.
  intros Hv Hn Hc Hk Hp. eapply sets_one; [|done|cbn; lia|done|by right|done].
  cbn [forallb]. by rewrite Hn, Hv.
Qed.

Lemma sets_action name kw c c' a e :
  action_ok a e -> word_ok name = true -> is_comment name = false ->
  kw_lookup (keywords use_gssapi) name = Some kw -> max_options kw = 1 ->
  (action_parser (action_word a) e = Some (a, e) -> parser kw (action_word a) e c = (0, c')) ->
  sets [show_action name a e] c c'.
Proof.
  intros [Ha He] Hn Hc Hk Hm Hp. unfold show_action.
  assert (action_parser (action_word a) e = Some (a, e)) as Hap.
  { unfold action_parser. destruct e as [s|].
    - destruct He as (-> & _ & Hx).
      replace (nv_lookup fail_action_words (action_word FA_EXEC)) with (Some FA_EXEC) by done.
      by rewrite decide_True, Hx.
    - by destruct a. }
  assert (word_ok (action_word a) = true) as Hwa by (by destruct a).
  destruct e as [s|].
  - destruct He as (-> & [Hs _] & _). eapply sets_one; [|done|cbn; lia|done|left; lia|by apply Hp].
    cbn [forallb]. by rewrite Hn, Hs.
  - eapply sets_one; [|done|cbn; lia|done|left; lia|by apply Hp].
    cbn [forallb]. by rewrite Hn, Hwa.
Qed.

(** The next lines of the goal set a member. *)
Ltac set_opt name set H :=
  eapply sets_app;
  [eapply (sets_opt name _ set); [exact H|reflexivity..| |reflexivity];
   let v := fresh "v" in let Hv := fresh "Hv" in
   intros v Hv; cbn [parser];
   unfold server_parser, queue_file_parser, krb5_principal_parser, krb5_client_name_parser,
     krb5_key_file_parser; rewrite ?Hv; reflexivity|].
Ltac set_num name set :=
  eapply sets_cons;
  [eapply (sets_num name _ set); [lia|reflexivity..|];
   cbn [parser];
   unfold port_parser, local_port_parser, depth_parser, network_retry_time_parser,
     max_tries_per_record_parser, max_time_per_record_parser, heartbeat_timeout_parser;
   rewrite ?any_decimal by lia;
   rewrite parse_uint_decimal by (unfold two32, INT_MAX in *; lia); reflexivity|].

Ltac set_word name set w x :=
  eapply sets_cons; [eapply (sets_word name _ set w x); [by destruct x|reflexivity..|by destruct x]|].
Ltac set_action name set a e H :=
  eapply sets_cons;
  [eapply (sets_action name _ _ (set e a _)); [exact H|reflexivity..|];
   let Hap := fresh "Hap" in
   intros Hap; cbn [parser];
   unfold network_failure_action_parser, disk_low_action_parser, disk_full_action_parser,
     disk_error_action_parser, generic_error_action_parser, generic_warning_action_parser,
     queue_error_action_parser, startup_failure_action_parser; rewrite Hap;
   by destruct e|].

(** remote_ending_action has one more word. *)
Lemma sets_ending c a e :
  action_ok a e \/ a = FA_RECONNECT /\ e = None -> remote_ending_exe c = None ->
  sets [show_action "remote_ending_action" a e] c
    (c<|remote_ending_exe := e|><|remote_ending_action := a|>).
Proof.
  intros [Ha|[-> ->]] Hc.
  - eapply sets_action; [done|reflexivity..|]. intros Hap. cbn [parser].
    unfold remote_ending_action_parser. rewrite Hap.
    replace (strcaseeq (action_word a) "reconnect") with false by (by destruct Ha as [Ha _], a).
    destruct c. cbn in Hc. subst. by destruct e.
  - eapply sets_one; [reflexivity|done|cbn; lia|reflexivity|by left|]. cbn [parser head].
    destruct c. cbn in Hc. by subst.
Qed.

(** Written settings take the default configuration to what was written. *)
Lemma sets_conf c : writable c -> sets (show_conf c) clear_config c.
Proof.
  intros W. destruct W. unfold show_conf.
  set_opt "remote_server" (fun v c => c<|remote_server := v|>) w_server0.
  set_opt "queue_file" (fun v c => c<|queue_file := v|>) w_queue_file0.
  set_opt "krb5_principal" (fun v c => c<|krb5_principal := v|>) w_principal0.
  set_opt "krb5_client_name" (fun v c => c<|krb5_client_name := v|>) w_client0.
  set_opt "krb5_key_file" (fun v c => c<|krb5_key_file := v|>) w_key_file0.
  set_num "port" (fun v c => c<|port := v|>).
  set_num "local_port" (fun v c => c<|local_port := v|>).
  eapply sets_cons.
  { eapply (sets_word "transport" _ (fun v c => c<|transport := v|>) _ (transport c)); [|reflexivity..|].
    - by destruct (transport c).
    - destruct w_transport0 as [->|[-> ->]]; [by destruct use_gssapi|done]. }
  set_word "mode" (fun v c => c<|mode := v|>) (mode_word (mode c)) (mode c).
  set_num "queue_depth" (fun v c => c<|queue_depth := v|>).
  set_word "format" (fun v c => c<|format := v|>) (format_word (format c)) (format c).
  set_num "network_retry_time" (fun v c => c<|network_retry_time := v|>).
  set_num "max_tries_per_record" (fun v c => c<|max_tries_per_record := v|>).
  set_num "max_time_per_record" (fun v c => c<|max_time_per_record := v|>).
  set_num "heartbeat_timeout" (fun v c => c<|heartbeat_timeout := v|>).
  set_action "network_failure_action"
    (fun e a c => c<|network_failure_exe := e|><|network_failure_action := a|>)
    (network_failure_action c) (network_failure_exe c) w_network0.
  set_action "disk_low_action" (fun e a c => c<|disk_low_exe := e|><|disk_low_action := a|>)
    (disk_low_action c) (disk_low_exe c) w_low0.
  set_action "disk_full_action" (fun e a c => c<|disk_full_exe := e|><|disk_full_action := a|>)
    (disk_full_action c) (disk_full_exe c) w_full0.
  set_action "disk_error_action" (fun e a c => c<|disk_error_exe := e|><|disk_error_action := a|>)
    (disk_error_action c) (disk_error_exe c) w_error0.
  eapply sets_cons; [apply sets_ending; [exact w_ending0|reflexivity]|].
  set_action "generic_error_action"
    (fun e a c => c<|generic_error_exe := e|><|generic_error_action := a|>)
    (generic_error_action c) (generic_error_exe c) w_generic0.
  set_action "generic_warning_action"
    (fun e a c => c<|generic_warning_exe := e|><|generic_warning_action := a|>)
    (generic_warning_action c) (generic_warning_exe c) w_warning0.
  set_action "queue_error_action"
    (fun e a c => c<|queue_error_exe := e|><|queue_error_action := a|>)
    (queue_error_action c) (queue_error_exe c) w_queue0.
  set_word "overflow_action" (fun v c => c<|overflow_action := v|>)
    (overflow_word (overflow_action c)) (overflow_action c).
  set_action "startup_failure_action"
    (fun e a c => c<|startup_failure_exe := e|><|startup_failure_action := a|>)
    (startup_failure_action c) (startup_failure_exe c) w_startup0.
  match goal with |- sets [] ?d ?c => replace d with c; [apply sets_nil|] end.
  by destruct c.
Qed.

(** *** The lines fit *)

Definition good_line (ws : list string) : Prop :=
  forallb word_ok ws = true /\ fits BUF (line_of ws) = true.

Lemma length_chars s : length (to_chars s) = String.length s.
Proof. induction s as [|c s IH]; cbn; [done|]. by f_equal. Qed.

Lemma good_words n w :
  word_ok n = true -> (String.length n <= 22)%nat -> word_ok w = true ->
  (String.length w <= 96)%nat -> good_line [n; "="; w].
Proof.
  intros Hn Hln Hw Hlw. split; [cbn; by rewrite Hn, Hw|]. apply Nat.leb_le. cbn [line_of].
  rewrite !length_app, !length_chars. cbn [length]. rewrite length_app, length_chars. cbn [length].
  rewrite length_chars. unfold BUF. cbn. lia.
Qed.

Lemma good_opt P n v :
  opt_ok P v -> word_ok n = true -> (String.length n <= 22)%nat -> Forall good_line (show_opt n v).
Proof.
  intros Hv Hn Hl. destruct v as [s|]; [|constructor]. destruct Hv as [[Hw Hs] _].
  repeat constructor; by apply good_words.
Qed.

Lemma good_num n x : 0 <= x -> word_ok n = true -> (String.length n <= 22)%nat -> good_line (show_num n x).
Proof.
  intros Hx Hn Hl. apply good_words; [done..|by apply decimal_word|].
  pose proof (decimal_go_length 20 x ""). unfold decimal. cbn in *. lia.
Qed.

Lemma good_action n a e :
  action_ok a e \/ a = FA_RECONNECT /\ e = None -> word_ok n = true -> (String.length n <= 22)%nat ->
  good_line (show_action n a e).
Proof.
  intros Ha Hn Hl. destruct e as [s|].
  - destruct Ha as [(_ & -> & [Hw Hs] & _)|[_ ?]]; [|done].
    split; [cbn [forallb show_action]; by rewrite Hn, Hw|]. apply Nat.leb_le.
    cbn [line_of show_action]. repeat (rewrite !length_app, !length_chars; cbn [length]).
    rewrite length_chars. unfold BUF. cbn. lia.
  - apply good_words; [done..| |]; destruct a; cbn; done || lia.
Qed.

Lemma show_conf_good c : writable c -> Forall good_line (show_conf c).
Proof.
  intros W. destruct W.
  unfold show_conf, transport_word, mode_word, format_word, overflow_word. rewrite !Forall_app.
  split_and!; [by eapply good_opt; [eassumption|reflexivity|cbn; lia]..|].
  repeat (apply Forall_cons_2; [first
    [ apply good_num; [lia|reflexivity|cbn; lia]
    | apply good_action; [solve [eauto]|reflexivity|cbn; lia]
    | apply good_words; [reflexivity|cbn; lia|by case_goal|case_goal; cbn; lia] ]|]).
  constructor.
Qed.

(** ** Reading it *)

(** The file passes the checks and has this text. *)
Definition config_text (file : string) (text : chars) : Prop :=
  exists st, open file O_RDONLY = Opened (Some st) (Some text) /\
    check_file not_world_writable (Some st) = true.

(** C26: a configuration written as one line per setting is read back: every value
    that the members can have in a configuration which passes [sanity_check] can
    be set, and no setting disturbs another. *)
Theorem conf_round_trip file c :
  writable c -> config_text file (text_of (line_of <$> show_conf c)) ->
  load_config use_gssapi file = Some (0, c).
Proof.
  intros W (st & Eo & Hst). unfold load_config. rewrite Eo, Hst. cbn [negb].
  pose proof (show_conf_good c W) as Hg. unfold get_line, nv_split.
  rewrite (load_lines_cutting (sp:=strtok_splitter) _).
  - rewrite (sets_conf c W). cbn [mbind option_bind negb Z.eqb].
    rewrite (w_sane _ W). by destruct (1 <? _).
  - unfold BUF. lia.
  - rewrite Forall_fmap. eapply Forall_impl; [exact Hg|]. intros ws [Hw _]. by apply line_of_valid.
  - apply forallb_forall. intros l Hl%list_elem_of_In. apply list_elem_of_fmap in Hl as (ws & -> & Hin).
    rewrite Forall_forall in Hg. by apply Hg.
  - clear. generalize (line_of <$> show_conf c). intros ls. 
    induction ls as [|l ls IH]; cbn; [lia|]. rewrite length_app. cbn. lia.
Qed.

(** ** What [load_config] accepts *)

Definition exe_ok (a : failure_action_t) (e : option string) : Prop :=
  a = FA_EXEC -> check_exe_name e = 0.

(** The members of a configuration at any time while it is read. *)
Record conf_ok (c : remote_conf) : Prop := ConfOk {
  ok_ports : Forall (fun n => 0 <= n <= 65535) [port c; local_port c];
  ok_counts : Forall (fun n => 1 <= n <= INT_MAX)
    [queue_depth c; network_retry_time c; max_tries_per_record c; max_time_per_record c];
  ok_heartbeat : 0 <= heartbeat_timeout c <= INT_MAX;
  ok_transport : transport c = T_TCP \/ use_gssapi = true /\ transport c = T_KRB5;
  ok_queue_file : match queue_file c with Some s => char_at s = "/"%char | None => True end;
  ok_exes : Forall (fun p => exe_ok p.1 p.2)
    [(network_failure_action c, network_failure_exe c); (disk_low_action c, disk_low_exe c);
     (disk_full_action c, disk_full_exe c); (disk_error_action c, disk_error_exe c);
     (remote_ending_action c, remote_ending_exe c); (generic_error_action c, generic_error_exe c);
     (generic_warning_action c, generic_warning_exe c); (queue_error_action c, queue_error_exe c);
     (startup_failure_action c, startup_failure_exe c)];
}.

Lemma parse_uint_range v min max i :
  parse_uint v min max = Some i ->
  0 <= i < two32 /\ (min <> 0 -> min <= i) /\ (max <> 0 -> i <= max).
Proof.
  unfold parse_uint. destruct (all_digits v); [|done]. destruct (strtoul 10 v) as [x e].
  destruct e; [done|]. pose proof (u32_range x).
  destruct (Z.eqb_spec min 0), (Z.eqb_spec max 0), (Z.ltb_spec (u32 x) min), (Z.ltb_spec max (u32 x));
    cbn; intros [= <-]; lia.
Qed.

Lemma action_parser_exe v o a e old : action_parser v o = Some (a, e) -> exe_ok a (keep e old).
Proof.
  unfold action_parser. destruct (nv_lookup _ v) as [x|]; [|done]. case_decide.
  - destruct (Z.eqb_spec (check_exe_name o) 0) as [Hc|]; cbn [negb]; [|done]. intros [= <- <-] _.
    destruct o; [exact Hc|discriminate Hc].
  - by intros [= <- <-] ?.
Qed.

Lemma remote_transport_known v x :
  nv_lookup (transport_words use_gssapi) v = Some x -> x = T_TCP \/ use_gssapi = true /\ x = T_KRB5.
Proof.
  unfold nv_lookup, transport_words. cbn. destruct (strcaseeq v _); cbn; [intros [= <-]; by left|].
  destruct use_gssapi; cbn; [|done]. destruct (strcaseeq v _); cbn; [intros [= <-]; by right|done].
Qed.

Ltac parser_ok :=
  repeat match goal with
  | |- conf_ok (match ?x with _ => _ end).2 => destruct x eqn:?; cbn [snd]
  | |- conf_ok (if ?x then _ else _) => destruct x eqn:?
  | |- conf_ok (_, _).2 => cbn [snd]
  end; try assumption;
  repeat match goal with
  | H : parse_uint _ _ _ = Some _ |- _ => apply parse_uint_range in H
  | H : nv_lookup (transport_words _) _ = Some _ |- _ => apply remote_transport_known in H
  | H : negb _ = false |- _ => apply negb_false_iff in H
  | H : (_ =c _) = true |- _ => apply char_eq_true in H
  end;
  match goal with
  | H : conf_ok _ |- conf_ok _ => destruct H; constructor; cbn; try assumption
  end; unfold constant;
  lazymatch goal with
  | Hf : Forall ?P _ |- Forall ?P _ =>
      repeat (apply Forall_cons in Hf as [? Hf]); repeat (apply Forall_cons_2 || apply Forall_nil_2)
  | _ => idtac
  end; try assumption; cbn [fst snd];
  first [by eapply action_parser_exe | by right | by intros ? | unfold INT_MAX in *; lia].

Lemma remote_keywords_keep :
  Forall (fun kw => forall v o c, conf_ok c -> conf_ok (kw.(parser) v o c).2) (keywords use_gssapi).
Proof.
  unfold keywords.
  repeat (apply Forall_cons; split; [intros v o c Hc; cbn [parser]|]); [..|apply Forall_nil; exact I].
  all: unfold server_parser, port_parser, local_port_parser, transport_parser, mode_parser,
    queue_file_parser, depth_parser, format_parser, network_retry_time_parser,
    max_tries_per_record_parser, max_time_per_record_parser, heartbeat_timeout_parser,
    enable_krb5_parser, krb5_principal_parser, krb5_client_name_parser, krb5_key_file_parser,
    network_failure_action_parser, disk_low_action_parser, disk_full_action_parser,
    disk_error_action_parser, remote_ending_action_parser, generic_error_action_parser,
    generic_warning_action_parser, queue_error_action_parser, overflow_action_parser,
    startup_failure_action_parser; parser_ok.
Qed.

Lemma remote_conf_ok_default : conf_ok clear_config.
Proof. constructor; cbn; repeat constructor; unfold INT_MAX; done || lia. Qed.

Lemma remote_get_line_reads : reads get_line.
Proof. apply get_line_cutting_reads. unfold BUF. lia. Qed.

Lemma load_conf_ok file rc c : load_config use_gssapi file = Some (rc, c) -> conf_ok c.
Proof.
  unfold load_config. pose proof remote_conf_ok_default as Hd.
  destruct (open _ _) as [| |st text]; [by intros [= <- <-]..|].
  destruct (negb _); [by intros [= <- <-]|]. destruct text as [f|]; [|by intros [= <- <-]].
  destruct (load_lines _ _ _ _ _ _ _ _) as [[[rc1 ln] c1]|] eqn:E; cbn [mbind option_bind]; [|done].
  assert (conf_ok c1).
  { eapply load_lines_keeps; [|exact E|done]. intros nv c0. apply dispatch_keeps, remote_keywords_keep. }
  by destruct (negb _), (1 <? ln); intros [= <- <-].
Qed.

(** [load_config] of the plugin returns on any file, with every member in its
    range and every program checked; an accepted configuration is the default one
    or passed [sanity_check]. *)
Theorem load_remote_ok file :
  exists rc c, load_config use_gssapi file = Some (rc, c) /\ conf_ok c /\
    (rc = 0 -> c = clear_config \/ sanity_check c = 0).
Proof.
  assert (exists rc c, load_config use_gssapi file = Some (rc, c) /\
    (rc = 0 -> c = clear_config \/ sanity_check c = 0)) as (rc & c & E & Hs).
  2: { exists rc, c. split_and!; [done|by eapply load_conf_ok|done]. }
  unfold load_config.
  destruct (open _ _) as [| |st text]; [by eexists _, _; auto..|].
  destruct (negb _); [by eexists _, _|]. destruct text as [f|]; [|by eexists _, _].
  edestruct (load_lines_total (sp:=strtok_splitter) (dispatch (keywords use_gssapi))
    get_line (S (length f)) f [] 1 clear_config) as [[[rc ln] c] E];
    [apply remote_get_line_reads|lia|].
  unfold nv_split. rewrite E. cbn [mbind option_bind].
  apply load_lines_lineno in E as [Hln Heq]; [|apply remote_get_line_reads].
  destruct (Z.eqb_spec rc 0) as [->|Hrc]; cbn [negb]; [|by eexists _, _].
  destruct (Z.ltb_spec 1 ln); eexists _, _; split; try done; intros Hrc; [by right|].
  left. apply Heq; [done|lia].
Qed.

(** ** The queue of the plugin (audisp/plugins/remote/audisp-remote.c) *)

Definition QUEUE_ENTRY_SIZE : Z := 3 * 4096.
Definition SPOOL_FILE : string := "/var/spool/audit/remote.log".

Definition queue_path (c : remote_conf) : string := default SPOOL_FILE (queue_file c).
Definition queue_flags (c : remote_conf) : Z :=
  if decide (mode c = M_STORE_AND_FORWARD)
  then Z.lor RQ.Q_IN_MEMORY (Z.lor RQ.Q_IN_FILE (Z.lor RQ.Q_CREAT RQ.Q_RESIZE))
  else RQ.Q_IN_MEMORY.
Definition init_queue (stale : Z) (suffixes : list string) (c : remote_conf) (w : Os.os)
    : option (Os.result RQ.queue * Os.os) :=
  RQ.q_open true stale suffixes (queue_flags c) (queue_path c) (queue_depth c) QUEUE_ENTRY_SIZE w.

Lemma queue_params c : conf_ok c -> RQ.params_ok (queue_flags c) (queue_depth c) QUEUE_ENTRY_SIZE = true.
Proof.
  intros Hc. destruct Hc as [_ Hn _ _ _ _]. apply Forall_cons in Hn as [Hn _].
  unfold RQ.params_ok.
  replace (negb (Z.land (queue_flags c) _ =? 0)) with true by (unfold queue_flags; by case_decide).
  assert (forall n, 1 <= n <= 2147483647 ->
    negb ((n =? 0) || (UINT32_MAX <? n) || (QUEUE_ENTRY_SIZE <? 1)
           || (QUEUE_ENTRY_SIZE <? RQ.sizeof_file_header)
           || (UINT32_MAX - RQ.sizeof_queue <? QUEUE_ENTRY_SIZE)) = true /\
    negb ((SIZE_MAX <? QUEUE_ENTRY_SIZE) || (SIZE_MAX / QUEUE_ENTRY_SIZE - 1 <? n)
           || (SIZE_MAX / RQ.sizeof_pointer <? n)) = true) as Hok.
  { clear. intros n Hn.
    change (SIZE_MAX / QUEUE_ENTRY_SIZE - 1) with 1501199875790164.
    change (SIZE_MAX / RQ.sizeof_pointer) with 2305843009213693951.
    change (QUEUE_ENTRY_SIZE <? 1) with false.
    change (QUEUE_ENTRY_SIZE <? RQ.sizeof_file_header) with false.
    change (UINT32_MAX - RQ.sizeof_queue <? QUEUE_ENTRY_SIZE) with false.
    change (SIZE_MAX <? QUEUE_ENTRY_SIZE) with false. change UINT32_MAX with 4294967295.
    split; zb; done || lia. }
  destruct (Hok _ Hn) as [-> ->]. done.
Qed.

(** C27: with a configuration that [load_config] accepted in the mode store-and-forward,
    starting the plugin opens the queue file that an earlier run left and holds its
    records, in a file of queue_depth entries: the file is resized if it had fewer.  The
    depth may not be smaller than that of the file (then [shrink_leaves_array] applies),
    no system call fails, and there is a free name for the new file. *)
Theorem restart_keeps_records file c stale suffixes w d num head xs :
  load_config use_gssapi file = Some (0, c) -> mode c = M_STORE_AND_FORWARD ->
  RQFacts.stored_file w (queue_path c) d num QUEUE_ENTRY_SIZE head xs -> num <= queue_depth c ->
  Os.script w = [] -> Forall (fun s => s <> "") suffixes ->
  (exists s, s ∈ suffixes /\ Os.dir w !! (queue_path c +:+ s) = None) ->
  exists q w', init_queue stale suffixes c w = Some (Os.Ok q, w') /\
    RQFacts.rep q w' xs /\ RQFacts.stored q w' xs /\ RQ.num_entries q = queue_depth c.
Proof.
  intros Hl%load_conf_ok%queue_params Hm Hs Hn Hcalm Hsuf Hfree.
  unfold init_queue. replace (queue_flags c) with 39 in * by (unfold queue_flags; by rewrite Hm).
  assert (0 <= num) by (pose proof (RQFacts.sf_head _ _ _ _ _ _ _ Hs); lia).
  destruct (RQFacts.calm_q_open stale suffixes 39 (queue_path c) w d num QUEUE_ENTRY_SIZE head xs
    (queue_depth c)) as (q & w' & E); try done; [lia|by right| |].
  { split; try done. pose proof (RQFacts.sf_fits _ _ _ _ _ _ _ Hs). lia. }
  exists q, w'. split; [done|].
  destruct (RQFacts.stored_resize _ w (queue_path c) d num QUEUE_ENTRY_SIZE head xs (queue_depth c) 39
    stale suffixes Hsuf Hs eq_refl eq_refl ltac:(lia) ltac:(by right) eq_refl) as (r & w2 & E2 & Hr).
  rewrite E in E2. injection E2 as <- <-. by destruct Hr as (? & ? & ? & _).
Qed.

(** [parse_uint] reduces the number modulo 2^32 before it checks the range, so
    that a number far too large is accepted as a small one. *)
Theorem parse_uint_wraps n min max :
  0 <= n < two32 -> min <= n -> (max = 0 \/ n <= max) ->
  parse_uint (decimal (n + two32)) min max = Some n.
Proof.
  intros Hn Hmin Hmax. unfold parse_uint.
  rewrite decimal_digits, strtoul_decimal by (unfold two64, two32 in *; lia).
  replace (u32 (n + two32)) with n.
  - destruct (Z.ltb_spec n min); [lia|]. rewrite andb_false_r.
    destruct (Z.ltb_spec max n); [|by rewrite andb_false_r]. by destruct Hmax as [->|?]; [|lia].
  - unfold u32. rewrite <-Z.add_mod_idemp_r, Z_mod_same_full, Z.add_0_r, Z.mod_small by done. done.
Qed.

End facts.

(** ** Examples *)

(** A machine whose files have this text, belong to root and have mode 0640, and
    whose programs have mode 0750. *)
Definition demo_host (text : chars) : Host := {|
  open _ _ := Opened (Some (Stat 0 (32768 + 416) 1)) (Some text);
  opendir _ := true;
  stat _ := Some (Stat 0 (32768 + 488) 1);
  getgrnam _ := None;
  gethostname := None;
  getaddrinfo _ := None;
  fstatfs := None;
  percent_of _ _ := 0;
|}.

Definition demo_conf : remote_conf := clear_config
  <|remote_server := Some "logs.example.org"|><|mode := M_STORE_AND_FORWARD|><|queue_depth := 2|>
  <|queue_file := Some "/q"|><|disk_full_action := FA_EXEC|><|disk_full_exe := Some "/sbin/full"|>.
Definition demo_text : chars := text_of (line_of <$> show_conf demo_conf).

Lemma demo_writable : @writable (demo_host demo_text) false demo_conf.
Proof.
  constructor; cbn; unfold opt_ok, string_ok, action_ok, INT_MAX; split_and?;
    try done; try lia; try (by left); try (by right); unfold constant, string_ok; cbn; split_and?;
    done || lia.
Qed.

Lemma conf_round_trip_witness :
  @load_config (demo_host demo_text) false "/etc/audit/audisp-remote.conf" = Some (0, demo_conf).
Proof.
  apply (@conf_round_trip (demo_host demo_text)).
  - exact demo_writable.
  - eexists. split; reflexivity.
Defined.

(** A queue file of one entry with a record in it; the configuration has two. *)
Definition spool_record : bytes := [104; 105; 10].
Definition spool_file : bytes :=
  RQ.file_header_bytes 1 QUEUE_ENTRY_SIZE 0 1 ++ replicate (Z.to_nat 12256) 0 ++
  spool_record ++ replicate (Z.to_nat 12285) 0.
Definition spool_world : Os.os := Os.OS {[ 1 := spool_file ]} {[ "/q" := 1 ]} [].

Lemma spool_stored : RQFacts.stored_file spool_world "/q" 1 1 QUEUE_ENTRY_SIZE 0 [spool_record].
Proof.
  split; [reflexivity|done|reflexivity|lia|cbn; lia| |].
  - apply Forall_singleton. split; [unfold spool_record; by repeat (apply Forall_cons; split; [done|])|done].
  - split; [split|vm_compute; reflexivity].
    + vm_compute. reflexivity.
    + intros [|k] s; [|by rewrite lookup_cons, lookup_nil]. intros [= <-]. vm_compute. reflexivity.
Qed.

Lemma restart_keeps_records_witness :
  exists q w', init_queue 0 ["a"] demo_conf spool_world = Some (Os.Ok q, w') /\ RQFacts.rep q w' [spool_record] /\
    RQ.num_entries q = 2.
Proof.
  destruct (@restart_keeps_records (demo_host demo_text) false "" demo_conf 0 ["a"] spool_world 1 1 0 [spool_record])
    as (q & w' & E & Hr & _ & Hn).
  - vm_compute. reflexivity.
  - reflexivity.
  - exact spool_stored.
  - done.
  - done.
  - by repeat constructor.
  - exists "a". split; [by left|done].
  - exists q, w'. split; [exact E|split; [exact Hr|exact Hn]].
Defined.

Lemma parse_uint_wraps_witness : parse_uint "4294967297" 1 65535 = Some 1.
Proof. apply (parse_uint_wraps 1 1 65535); [done|lia|lia]. Defined.

End RemoteConfFacts.
