(* ===== verification/Pconfig.v ===== *)
(** * The configuration of a dispatcher plugin (audisp/audispd-pconfig.c)

    [plugin_conf_t], one parser per keyword, and [load_pconfig].  Messages and the
    release of memory are left out. *)
From S2P Require Import Prelude CString StrSplit Config.
From coqutil Require Import Datatypes.RecordSetters.
Import RecordSetters.TriangleBracketNotations.

Local Open Scope audit_scope.
Local Open Scope string_scope.
Local Open Scope Z_scope.

Module Pconfig.
Import StrSplit Config.

Definition MAX_PLUGIN_ARGS : nat := 3.

Inductive active_t := A_NO | A_YES.
Inductive direction_t := D_UNSET | D_IN | D_OUT.
Inductive service_t := S_ALWAYS | S_BUILTIN | S_AF_UNIX.
Inductive format_t := F_BINARY | F_STRING.

#[export] Instance active_eq_dec : EqDecision active_t.
Proof. solve_decision. Defined.
#[export] Instance service_eq_dec : EqDecision service_t.
Proof. solve_decision. Defined.

Record plugin_conf := {
  active : active_t;
  direction : direction_t;
  path : option string;
  type : service_t;
  args : list (option string);
  format : format_t;
  plug_pipe : Z * Z;
  pid : Z;
  inode : Z;
  checked : Z;
  name : option string;
  restart_cnt : Z;
}.

Definition active_words : list (string * active_t) := [("yes", A_YES); ("no", A_NO)].
Definition directions : list (string * direction_t) := [("out", D_OUT)].
Definition service_type : list (string * service_t) := [("builtin", S_BUILTIN); ("always", S_ALWAYS)].
Definition formats : list (string * format_t) := [("binary", F_BINARY); ("string", F_STRING)].

Definition clear_pconfig : plugin_conf := {|
  active := A_NO;
  direction := D_UNSET;
  path := None;
  type := S_ALWAYS;
  args := replicate (MAX_PLUGIN_ARGS + 2) None;
  format := F_STRING;
  plug_pipe := (-1, -1);
  pid := 0;
  inode := 0;
  checked := 0;
  name := None;
  restart_cnt := 0;
|}.

Section parsers.
Context `{Host}.
Implicit Types (v : string) (opt : option string) (config : plugin_conf).

Definition active_parser v opt config : Z * plugin_conf :=
  match nv_lookup active_words v with
  | Some x => (0, config<|active := x|>)
  | None => (1, config)
  end.

Definition direction_parser v opt config : Z * plugin_conf :=
  match nv_lookup directions v with
  | Some x => (0, config<|direction := x|>)
  | None => (1, config)
  end.

(** A file of root that is regular and has the bits of 0750. *)
Definition path_parser v opt config : Z * plugin_conf :=
  if starts_with_case "builtin_" v then (0, config<|path := Some v|>)
  else if (String.length (dirname v) <? 4)%nat then (1, config)
  else match stat v with
       | None => (1, config)
       | Some st =>
           if negb (S_ISREG st.(st_mode)) then (1, config)
           else if negb (st.(st_uid) =? 0) then (1, config)
           else if negb (Z.land st.(st_mode) 488 =? 488) then (1, config)
           else (0, config<|path := Some v|><|inode := st.(st_ino)|>)
       end.

Definition service_type_parser v opt config : Z * plugin_conf :=
  match nv_lookup service_type v with
  | Some x => (0, config<|type := x|>)
  | None => (1, config)
  end.

Definition args_parser v opt config : Z * plugin_conf :=
  let a := <[1%nat := Some v]> (replicate (MAX_PLUGIN_ARGS + 2) None) in
  (0, config<|args := match opt with Some o => <[2%nat := Some o]> a | None => a end|>).

Definition format_parser v opt config : Z * plugin_conf :=
  match nv_lookup formats v with
  | Some x => (0, config<|format := x|>)
  | None => (1, config)
  end.

Definition keywords : list (kw_pair plugin_conf) :=
  [KwPair "active" active_parser 0;
   KwPair "direction" direction_parser 0;
   KwPair "path" path_parser 0;
   KwPair "type" service_type_parser 0;
   KwPair "args" args_parser 2;
   KwPair "format" format_parser 0].

Definition sanity_check (config : plugin_conf) : Z :=
  if bool_decide (config.(active) = A_YES) && bool_decide (config.(path) = None) then 1 else 0.

Definition BUF : nat := 160.
Definition get_line : chars -> chars -> Z -> line_result := get_line_skipping BUF.
Definition nv_split : chars -> option (Z * nv_ptrs * chars) := @Config.nv_split strtok_splitter.

Definition load_pconfig (file : string) : option (Z * plugin_conf) :=
  let config := clear_pconfig in
  match open file O_RDONLY with
  | Open_ENOENT => Some (0, config)
  | Open_error => Some (1, config)
  | Opened st text =>
      if negb (check_file not_world_writable st) then Some (1, config) else
      match text with
      | None => Some (1, config)
      | Some f =>
          '(rc, lineno, config) ← load_lines get_line nv_split (dispatch keywords)
                                    (S (length f)) f [] 1 config;
          if negb (rc =? 0) then Some (rc, config) else
          let config := config<|name := Some (basename file).1|> in
          if 1 <? lineno then Some (sanity_check config, config) else Some (0, config)
      end
  end.
End parsers.
End Pconfig.
