(* ===== verification/ZosConf.v ===== *)
(** * The configuration of audispd-zos-remote
    (audisp/plugins/zos-remote/zos-remote-config.c)

    The plugin's [plugin_conf_t], one parser per keyword, and
    [plugin_load_config].  Messages and the release of memory are left out. *)
From S2P Require Import Prelude CString StrSplit Config.
From coqutil Require Import Datatypes.RecordSetters.
Import RecordSetters.TriangleBracketNotations.

Local Open Scope audit_scope.
Local Open Scope string_scope.
Local Open Scope Z_scope.

Module Zos.
Import StrSplit Config.

Record plugin_conf := {
  name : option string;
  server : option string;
  port : Z;
  user : option string;
  password : option string;
  timeout : Z;
  q_depth : Z;
  counter : Z;
}.

(** The name and the counter stay. *)
Definition plugin_clear_config (c : plugin_conf) : plugin_conf := {|
  name := c.(name);
  server := None;
  port := 0;
  user := None;
  password := None;
  timeout := 15;
  q_depth := 64;
  counter := c.(counter);
|}.

(** A conversion to [long]. *)
Definition s64 (x : Z) : Z := if x <? 2 ^ 63 then x else x - two64.

Section parsers.
Context `{Host}.
Implicit Types (v : string) (opt : option string) (c : plugin_conf).

Definition server_parser v opt c : Z * plugin_conf := (0, c<|server := Some v|>).

Definition port_parser v opt c : Z * plugin_conf :=
  match number v with
  | None => (1, c)
  | Some i => (0, c<|port := u32 i|>)
  end.

Definition timeout_parser v opt c : Z * plugin_conf :=
  match number v with
  | None => (1, c)
  | Some i => (0, c<|timeout := s64 i|>)
  end.

Definition user_parser v opt c : Z * plugin_conf := (0, c<|user := Some v|>).

Definition password_parser v opt c : Z * plugin_conf := (0, c<|password := Some v|>).

Definition q_depth_parser v opt c : Z * plugin_conf :=
  match number v with
  | None => (1, c)
  | Some i => if (i <? 16) || (99999 <? i) then (1, c) else (0, c<|q_depth := u32 i|>)
  end.

Definition keywords : list (kw_pair plugin_conf) :=
  [KwPair "server" server_parser 0;
   KwPair "port" port_parser 0;
   KwPair "timeout" timeout_parser 0;
   KwPair "user" user_parser 0;
   KwPair "password" password_parser 0;
   KwPair "q_depth" q_depth_parser 0].

Definition sanity_check (c : plugin_conf) : Z :=
  if bool_decide (c.(server) = None) then 1
  else if bool_decide (c.(user) = None) then 1
  else if bool_decide (c.(password) = None) then 1
  else if c.(timeout) =? 0 then 1 else 0.

(** The bits of 0640 must be set. *)
Definition mode_ok (mode : Z) : bool := Z.land mode 416 =? 416.

Definition BUF : nat := 128.
Definition get_line : chars -> chars -> Z -> line_result := get_line_cutting BUF.
Definition nv_split : chars -> option (Z * nv_ptrs * chars) := @Config.nv_split strtok_splitter.

Definition plugin_load_config (c : plugin_conf) (file : string) : option (Z * plugin_conf) :=
  let c := plugin_clear_config c in
  match open file O_RDONLY with
  | Open_ENOENT => Some (1, c)
  | Open_error => Some (1, c)
  | Opened st text =>
      if negb (check_file mode_ok st) then Some (1, c) else
      match text with
      | None => Some (1, c)
      | Some f =>
          '(rc, lineno, c) ← load_lines get_line nv_split (dispatch keywords)
                               (S (length f)) f [] 1 c;
          if negb (rc =? 0) then Some (rc, c) else
          let c := c<|name := Some (gnu_basename file)|> in
          if 1 <? lineno then Some (sanity_check c, c) else Some (0, c)
      end
  end.
End parsers.
End Zos.
