(* ===== verification/AupConf.v ===== *)
(** * The reader of auditd.conf in the parsing library (auparse/auditd-config.c)

    It wants the name of the log file only, and passes over other keywords.
    Messages and the release of memory are left out. *)
From S2P Require Import Prelude CString StrSplit Config AuditdConf.
From coqutil Require Import Datatypes.RecordSetters.
Import RecordSetters.TriangleBracketNotations.

Local Open Scope audit_scope.
Local Open Scope string_scope.
Local Open Scope Z_scope.

Module Aup.
Import StrSplit Config AuditdConf.

(** [clear_config] of the library sets these members and leaves the others. *)
Definition clear_config (config : daemon_conf) : daemon_conf := config
  <|local_events := 1|>
  <|sender_uid := 0|>
  <|sender_pid := 0|>
  <|sender_ctx := None|>
  <|write_logs := 1|>
  <|log_file := "/var/log/audit/audit.log"|>
  <|log_format := LF_RAW|>
  <|log_group := 0|>
  <|priority_boost := 4|>
  <|flush := FT_NONE|>
  <|freq := 0|>
  <|num_logs := 0|>
  <|node_name_format := N_NONE|>
  <|node_name := None|>
  <|max_log_size := 0|>
  <|max_log_size_action := SZ_IGNORE|>
  <|space_left := 0|>
  <|space_left_action := FA_IGNORE|>
  <|space_left_exe := None|>
  <|action_mail_acct := None|>
  <|admin_space_left := 0|>
  <|admin_space_left_action := FA_IGNORE|>
  <|admin_space_left_exe := None|>
  <|disk_full_action := FA_IGNORE|>
  <|disk_full_exe := None|>
  <|disk_error_action := FA_SYSLOG|>
  <|disk_error_exe := None|>.

Section parsers.
Context `{Host}.

(** [nv_split] has no member for the option, but calls the splitter as the others
    do. *)
Definition nv_split (buf : chars) : option (Z * nv_ptrs * chars) :=
  '(rc, nv, buf) ← @Config.nv_split audit_splitter buf;
  Some (rc, NvPtrs nv.(p_name) nv.(p_value) None, buf).

(** [basename] cuts trailing slashes off the value. *)
Definition log_file_parser (val : string) (config : daemon_conf) : Z * daemon_conf :=
  let dir := dirname val in
  if (String.length dir <? 4)%nat then (1, config) else
  let (base, val) := basename val in
  if (String.length base =? 0)%nat then (1, config)
  else if negb (opendir dir) then (1, config)
  else match open val O_RDONLY with
       | Opened _ _ => (0, config<|log_file := val|>)
       | _ => (1, config)
       end.

Definition keywords : list (string * (string -> daemon_conf -> Z * daemon_conf)) :=
  [("log_file", log_file_parser)].
Definition kw_lookup (val : string) : option (string -> daemon_conf -> Z * daemon_conf) :=
  snd <$> List.find (fun kw => strcaseeq kw.1 val) keywords.

(** The body of the loop: an unknown keyword is passed over. *)
Definition process (nv : nv_pair) (config : daemon_conf) : Z * daemon_conf :=
  match nv.(name) with
  | None => (0, config)
  | Some nm =>
      match nv.(value) with
      | None => (1, config)
      | Some v =>
          match kw_lookup nm with
          | None => (0, config)
          | Some parser => let (rc, config) := parser v config in
                           ((if rc =? 0 then 0 else 1), config)
          end
      end
  end.

Definition BUF : nat := 160.
Definition get_line : chars -> chars -> Z -> line_result := get_line_skipping BUF.

Definition aup_load_config (config : daemon_conf) : option (Z * daemon_conf) :=
  let config := clear_config config in
  match open CONFIG_FILE O_RDONLY_NOFOLLOW with
  | Open_ENOENT => Some (0, config)
  | Open_error => Some (1, config)
  | Opened _ None => Some (1, config)
  | Opened _ (Some f) =>
      '(rc, _, config) ← load_lines get_line nv_split process (S (length f)) f [] 1 config;
      Some (rc, config)
  end.
End parsers.
End Aup.
