(* ===== verification/PluginConfFacts.v ===== *)
(** * The other configuration readers: what they accept

    The reader of the parsing library agrees with auditd on the log file; an
    active plugin has a program that was checked; the z/OS plugin has what it
    needs to connect. *)
From S2P Require Import Prelude CString StrSplit Config ConfigFacts AuditdConf AuditdConfFacts.
From S2P Require Import AupConf Pconfig ZosConf.
From coqutil Require Import Datatypes.RecordSetters.
Import RecordSetters.TriangleBracketNotations.

Local Open Scope audit_scope.
Local Open Scope string_scope.
Local Open Scope Z_scope.

Module AupFacts.
Import StrSplit Config ConfigFacts AuditdConf.

(** The reader's [nv_split] sees the same name and value. *)
Definition no_option (nv : nv_pair) : nv_pair := NvPair nv.(name) nv.(value) None.

Lemma aup_load_lines {conf} get_line (process : nv_pair -> conf -> Z * conf) fuel f buf lineno c :
  load_lines get_line Aup.nv_split process fuel f buf lineno c
  = load_lines get_line AuditdConf.nv_split (fun nv => process (no_option nv)) fuel f buf lineno c.
Proof.
  revert f buf lineno c. induction fuel as [|fuel IH]; intros f buf lineno c; [done|].
  cbn [load_lines]. destruct (get_line f buf lineno) as [[[[got f'] buf'] ln]|]; [|done].
  cbn [mbind option_bind]. destruct got; [|done]. cbn [negb]. unfold Aup.nv_split, AuditdConf.nv_split.
  destruct (Config.nv_split buf') as [[[rc nv] buf2]|]; [|done]. cbn [mbind option_bind].
  change (nv_strings buf2 {| p_name := p_name nv; p_value := p_value nv; p_option := None |})
    with (no_option (nv_strings buf2 nv)).
  destruct (process _ c) as [rc' c']. destruct (negb _); [done|]. apply IH.
Qed.

Section facts.
Context `{Host} (use_listener use_gssapi : bool) (lt : log_test_t).

(** Only one keyword sets the log file. *)
Lemma others_keep_log_file :
  Forall (fun kw => forall v o c, kw_name kw = "log_file" \/ log_file (parser kw v o c).2 = log_file c)
    (keywords use_listener use_gssapi lt).
Proof.
  unfold keywords.
  repeat (apply Forall_cons; split; [intros v o c; cbn [parser kw_name]; try (left; reflexivity)|]);
    [..|apply Forall_nil; exact I]; right.
  all: unfold local_events_parser, write_logs_parser, log_format_parser,
    log_group_parser, flush_parser, freq_parser, num_logs_parser, dispatch_parser,
    name_format_parser, name_parser, qos_parser, max_log_size_parser, max_log_size_action_parser,
    space_left_parser, space_action_parser, action_mail_acct_parser, verify_email_parser,
    admin_space_left_parser, admin_space_left_action_parser, disk_full_action_parser,
    disk_error_action_parser, priority_boost_parser, tcp_listen_port_parser,
    tcp_listen_queue_parser, tcp_max_per_addr_parser, use_libwrap_parser,
    tcp_client_ports_parser, tcp_client_max_idle_parser, transport_parser, enable_krb5_parser,
    krb5_principal_parser, krb5_key_file_parser, distribute_network_parser, q_depth_parser,
    overflow_action_parser, max_restarts_parser, plugin_dir_parser;
    repeat match goal with
    | |- log_file (match ?x with _ => _ end).2 = _ => destruct x
    | |- log_file (if ?x then _ else _) = _ => destruct x
    | |- log_file (_, _).2 = _ => cbn [snd]
    end; reflexivity.
Qed.

(** What the library needs of a log file that auditd accepted: it can be opened to
    read it, and its name does not end in a slash. *)
Definition readable (v : string) : Prop :=
  (basename v).2 = v /\ exists st text, open v O_RDONLY = Opened st text.

Lemma length_unrev l : String.length (unrev l) = length l.
Proof.
  unfold unrev. rewrite <-(length_rev l). generalize (rev l). intros s.
  induction s as [|c s IH]; cbn; [done|]. by f_equal.
Qed.

(** A path with a directory of four characters has a last component. *)
Lemma basename_ne v : String.length (basename v).1 <> 0%nat.
Proof.
  unfold basename. destruct (drop_while slash (rev_chars v)) as [|c r] eqn:E; cbn [fst].
  - by destruct (str_eq v "").
  - rewrite length_unrev. cbn [take_while]. unfold not_slash.
    assert (slash c = false) as ->; [|done].
    revert E. generalize (rev_chars v). intros l. induction l as [|d l IH]; cbn; [done|].
    destruct (slash d) eqn:Ed; [apply IH|]. by intros [= <- _].
Qed.

Lemma log_file_agrees v c c2 :
  log_file_ok lt v = true -> readable v ->
  (Aup.log_file_parser v c2).1 = 0 /\
  log_file (Aup.log_file_parser v c2).2 = log_file (log_file_parser lt v None c).2.
Proof.
  intros Hok [Hb (st & text & Ho)]. unfold log_file_parser. rewrite Hok. cbn [snd].
  unfold log_file_ok in Hok. unfold Aup.log_file_parser.
  destruct (String.length (dirname v) <? 4)%nat; [done|].
  destruct (negb (opendir (dirname v))); [done|].
  pose proof (basename_ne v) as Hne. destruct (basename v) as [base val]. cbn in Hb, Hne. subst val.
  destruct (Nat.eqb_spec (String.length base) 0); [done|]. rewrite Ho. done.
Qed.

(** The log file that a line names, and those of all lines of a file. *)
Definition named_log (nv : nv_pair) : list string :=
  match nv.(name), nv.(value) with
  | Some nm, Some v => if strcaseeq "log_file" nm then [v] else []
  | _, _ => []
  end.
Definition collect_log (nv : nv_pair) (vs : list string) : Z * list string := (0, vs ++ named_log nv)%list.
Definition named_logs (f : chars) : list string :=
  match load_lines get_line nv_split collect_log (S (length f)) f [] 1 [] with
  | Some (_, _, vs) => vs
  | None => []
  end.

(** One line: what auditd accepts, the library handles the same way. *)
Lemma line_agrees nv c c2 :
  (dispatch (keywords use_listener use_gssapi lt) nv c).1 = 0 ->
  Forall readable (named_log nv) -> log_file c2 = log_file c ->
  (Aup.process (no_option nv) c2).1 = 0 /\
  log_file (Aup.process (no_option nv) c2).2
  = log_file (dispatch (keywords use_listener use_gssapi lt) nv c).2.
Proof.
  unfold dispatch, Aup.process, named_log. destruct nv as [[nm|] [v|] o]; cbn [name value option_ no_option]; try done.
  destruct (kw_lookup _ nm) as [kw|] eqn:Ek; [|done].
  destruct (_ && _) eqn:Eo; [done|]. intros Hrc Hread Hlf.
  unfold kw_lookup in Ek. destruct (List.find_some _ _ Ek) as [Hin Hname].
  apply list_elem_of_In in Hin. unfold Aup.kw_lookup, Aup.keywords. cbn [List.find fst].
  destruct (strcaseeq "log_file" nm) eqn:El.
  - assert (kw = KwPair "log_file" (log_file_parser lt) 0) as ->.
    { revert Ek. unfold keywords. cbn [List.find kw_name].
      assert (strcaseeq "local_events" nm = false /\ strcaseeq "write_logs" nm = false) as [-> ->].
      { split; apply not_true_is_false; intros E; by pose proof (strcaseeq_join _ _ _ El E). }
      rewrite El. by intros [= <-]. }
    cbn [parser] in *. unfold log_file_parser in Hrc.
    destruct (log_file_ok lt v) eqn:Hok; [|done].
    apply (proj1 (Forall_singleton _ _)) in Hread. destruct (log_file_agrees v c c2 Hok Hread) as [H1 H2]. cbn [fmap option_fmap option_map snd].
    destruct (Aup.log_file_parser v c2) as [rc2 c2']. cbn [fst snd] in *. subst rc2. split; [done|].
    rewrite H2. unfold log_file_parser. by rewrite Hok.
  - cbn. split; [done|]. pose proof others_keep_log_file as Hk. rewrite Forall_forall in Hk.
    destruct (Hk _ Hin v o c) as [Hn|Hk'].
    + by rewrite Hn, El in Hname.
    + rewrite Hlf, <-Hk'. by destruct (parser kw v o c).
Qed.

Lemma collect_grows get_line split fuel f buf lineno vs rc ln vs' :
  load_lines get_line split collect_log fuel f buf lineno vs = Some (rc, ln, vs') -> exists ws, vs' = (vs ++ ws)%list.
Proof.
  revert f buf lineno vs. induction fuel as [|fuel IH]; intros f buf lineno vs; [done|]. cbn [load_lines].
  destruct (get_line f buf lineno) as [[[[got f'] buf'] l]|]; [|done]. cbn [mbind option_bind].
  destruct (negb got); [intros [= _ _ <-]; exists []; by rewrite app_nil_r|].
  destruct (split buf') as [[[r nv] buf2]|]; [|done]. cbn [mbind option_bind].
  intros (ws & ->)%IH. eexists. by rewrite <-app_assoc.
Qed.

Lemma collect_runs {conf} get_line split (process : nv_pair -> conf -> Z * conf) fuel f buf n c us ln c' :
  load_lines get_line split process fuel f buf n c = Some (0, ln, c') ->
  is_Some (load_lines get_line split collect_log fuel f buf n us).
Proof.
  revert f buf n c us. induction fuel as [|fuel IH]; intros f buf n c us; [done|]. cbn [load_lines].
  destruct (get_line f buf n) as [[[[got f'] buf'] l]|]; [|done]. cbn [mbind option_bind].
  destruct (negb got); [intros _; by eexists|]. destruct (split buf') as [[[r nv] buf2]|]; [|done].
  cbn [mbind option_bind collect_log negb Z.eqb]. destruct (process _ c) as [rc c1].
  destruct (Z.eqb_spec rc 0) as [->|Hne]; cbn [negb]; [apply IH|congruence].
Qed.

Lemma lines_agree get_line split fuel f buf lineno c c2 vs ln c' :
  load_lines get_line split (dispatch (keywords use_listener use_gssapi lt)) fuel f buf lineno c
    = Some (0, ln, c') ->
  (forall rc ln vs', load_lines get_line split collect_log fuel f buf lineno vs = Some (rc, ln, vs') -> Forall readable vs') ->
  log_file c2 = log_file c ->
  exists c2', load_lines get_line split (fun nv => Aup.process (no_option nv)) fuel f buf lineno c2
    = Some (0, ln, c2') /\ log_file c2' = log_file c'.
Proof.
  revert f buf lineno c c2 vs. induction fuel as [|fuel IH]; intros f buf lineno c c2 vs Hl Hread Hlf; [done|].
  cbn [load_lines] in *. destruct (get_line f buf lineno) as [[[[got f'] buf'] l]|]; [|done].
  cbn [mbind option_bind] in *. destruct got; cbn [negb] in *.
  2: { injection Hl as <- <-. by eexists. }
  destruct (split buf') as [[[r nv] buf2]|]; [|done]. cbn [mbind option_bind collect_log negb Z.eqb] in *.
  pose proof (line_agrees (nv_strings buf2 nv) c c2) as Ha.
  destruct (dispatch _ _ c) as [rc c1]. destruct (Aup.process _ c2) as [rc2 c2'].
  cbn [fst snd] in *. destruct (Z.eqb_spec rc 0) as [->|]; cbn [negb] in *; [|by injection Hl].
  destruct (load_lines get_line split collect_log fuel f' buf2 (l + 1) (vs ++ named_log (nv_strings buf2 nv))%list)
    as [[[rc3 ln3] vs3]|] eqn:Ec.
  - pose proof (Hread _ _ _ eq_refl) as Hall. destruct (collect_grows _ _ _ _ _ _ _ _ _ _ Ec) as (ws & ->).
    rewrite !Forall_app in Hall. destruct (Ha eq_refl (proj2 (proj1 Hall)) Hlf) as [-> Hlf']. cbn [negb Z.eqb].
    eapply IH; [exact Hl| |exact Hlf']. intros ? ? ? E. rewrite Ec in E. injection E as <- <- <-. by rewrite !Forall_app.
  - exfalso. destruct (collect_runs _ _ _ _ _ _ _ _ (vs ++ named_log (nv_strings buf2 nv))%list _ _ Hl) as [x Hx]. congruence.
Qed.

(** C28: the reader of the parsing library and the one of auditd agree: when auditd
    accepts its configuration file, the library accepts it too and takes the same
    log file from it, if each log file that a line of it names can be opened for
    reading and has no slash at its end.  ([missing_log_refused]: auditd accepts a log
    that is not there yet.) *)
Theorem same_log_file s c c2 s' c' :
  load_config use_listener use_gssapi lt s c = Some (0, s', c') ->
  config_file s = None -> allow_links s = false ->
  (forall st f, open CONFIG_FILE O_RDONLY_NOFOLLOW = Opened st (Some f) -> Forall readable (named_logs f)) ->
  exists c2', Aup.aup_load_config c2 = Some (0, c2') /\ log_file c2' = log_file c'.
Proof.
  intros Hl Hcf Hal Hread. unfold load_config, Aup.aup_load_config in *. destruct s as [al cd cf lt0].
  cbn [allow_links config_dir config_file log_test apply_update constant] in *. subst.
  change (default CONFIG_FILE None) with CONFIG_FILE in Hl.
  destruct (open _ O_RDONLY_NOFOLLOW) as [| |st text] eqn:Eo; [|done|].
  { injection Hl as _ <-. by eexists. }
  destruct (negb _); [done|]. destruct text as [f|]; [|done].
  destruct (load_lines _ _ _ _ _ _ _ _) as [[[rc ln] c1]|] eqn:E; cbn [mbind option_bind] in Hl; [|done].
  destruct (Z.eqb_spec rc 0) as [->|]; cbn [negb] in Hl; [|by injection Hl].
  destruct (lines_agree _ _ _ _ _ _ _ (Aup.clear_config c2) [] _ _ E) as (c3 & E3 & Hlf);
    [|done|].
  { intros rc' ln' vs Ev. pose proof (Hread _ _ eq_refl) as Hall. unfold named_logs in Hall. by rewrite Ev in Hall. }
  rewrite aup_load_lines. change Aup.get_line with get_line. rewrite E3. cbn [mbind option_bind]. exists c3. split; [done|].
  destruct (1 <? ln); [|by injection Hl as _ <-].
  unfold sanity_check in Hl. repeat case_match; simplify_eq; exact Hlf.
Qed.

End facts.

(** *** Example *)

Definition root_file (text : chars) : opened := Opened (Some (Stat 0 (32768 + 416) 1)) (Some text).
Definition demo_log : string := "/var/log/audit/audit.log".

(** A machine with a log file, one directory and this auditd.conf. *)
Definition demo_host (text : chars) : Host := {|
  open v _ := if str_eq v CONFIG_FILE then root_file text
              else if str_eq v demo_log then root_file [] else Open_error;
  opendir d := str_eq d "/var/log/audit";
  stat _ := None;
  getgrnam _ := None;
  gethostname := None;
  getaddrinfo _ := None;
  fstatfs := None;
  percent_of _ _ := 0;
|}.
Definition demo_text : chars := text_of (line_of <$>
  [["log_file"; "="; demo_log]; ["space_left"; "="; "75"]; ["freq"; "="; "20"]]).
Definition demo_statics : statics := Statics false None None TEST_AUDITD.

Lemma demo_readable st f :
  @open (demo_host demo_text) CONFIG_FILE O_RDONLY_NOFOLLOW = Opened st (Some f) ->
  Forall (@readable (demo_host demo_text)) (named_logs f).
Proof.
  intros [= <- <-]. replace (named_logs demo_text) with [demo_log] by (vm_compute; reflexivity).
  apply Forall_singleton. split; [done|]. cbn. by do 2 eexists.
Qed.

Lemma same_log_file_witness :
  exists c2, @Aup.aup_load_config (demo_host demo_text) AuditdConfFacts.demo_before = Some (0, c2) /\ log_file c2 = demo_log.
Proof.
  destruct (@same_log_file (demo_host demo_text) true false TEST_AUDITD demo_statics
    AuditdConfFacts.demo_before AuditdConfFacts.demo_before
    (Statics false None (Some CONFIG_FILE) TEST_AUDITD)
    (AuditdConfFacts.demo_before<|space_left := 75|><|freq := 20|>)) as (c2 & E & Hc).
  - vm_compute. reflexivity.
  - reflexivity.
  - reflexivity.
  - exact demo_readable.
  - exists c2. split; [exact E|exact Hc].
Defined.

(** The log is not there yet: auditd will create it, the library refuses the
    configuration. *)
Definition new_host : Host := {|
  open v _ := if str_eq v CONFIG_FILE then root_file demo_text else Open_ENOENT;
  opendir d := str_eq d "/var/log/audit";
  stat _ := None;
  getgrnam _ := None;
  gethostname := None;
  getaddrinfo _ := None;
  fstatfs := None;
  percent_of _ _ := 0;
|}.

Example missing_log_refused :
  (fun x => x.1.1) <$> @load_config new_host true false TEST_AUDITD demo_statics AuditdConfFacts.demo_before = Some 0 /\
  fst <$> @Aup.aup_load_config new_host AuditdConfFacts.demo_before = Some 1.
Proof. split; vm_compute; reflexivity. Qed.

End AupFacts.

(** ** Plugins of the dispatcher *)
Module PconfigFacts.
Import StrSplit Config ConfigFacts Pconfig.

Section facts.
Context `{Host}.

(** A path names a builtin, or a file that was checked when it was read. *)
Definition path_ok (c : plugin_conf) : Prop :=
  match path c with
  | None => True
  | Some v => starts_with_case "builtin_" v = true \/
      (4 <= String.length (dirname v))%nat /\
      exists st, stat v = Some st /\ S_ISREG (st_mode st) = true /\ st_uid st = 0 /\
        Z.land (st_mode st) 488 = 488 /\ inode c = st_ino st
  end.

(** The parts that only the running dispatcher sets. *)
Definition unstarted (c : plugin_conf) : Prop :=
  plug_pipe c = (-1, -1) /\ pid c = 0 /\ restart_cnt c = 0 /\ type c <> S_AF_UNIX.

Definition conf_ok (c : plugin_conf) : Prop :=
  path_ok c /\ unstarted c /\ length (args c) = (MAX_PLUGIN_ARGS + 2)%nat /\ args c !! 0%nat = Some None.

Lemma pconfig_keywords_keep :
  Forall (fun kw => forall v o c, conf_ok c -> conf_ok (kw.(parser) v o c).2) keywords.
Proof.
  unfold keywords. repeat (apply Forall_cons; split; [intros v o c Hc; cbn [parser]|]);
    [..|apply Forall_nil; exact I].
  - unfold active_parser. by destruct (nv_lookup _ v).
  - unfold direction_parser. by destruct (nv_lookup _ v).
  - unfold path_parser. destruct (starts_with_case _ v) eqn:Eb.
    { destruct Hc as (_ & ?). split; [by left|done]. }
    destruct (Nat.ltb_spec (String.length (dirname v)) 4); [done|].
    destruct (stat v) as [st|] eqn:Es; [|done].
    destruct (S_ISREG _) eqn:Er; cbn [negb]; [|done].
    destruct (Z.eqb_spec (st_uid st) 0); cbn [negb]; [|done].
    destruct (Z.eqb_spec (Z.land (st_mode st) 488) 488); cbn [negb]; [|done].
    destruct Hc as (_ & ?). split; [|done]. right. split; [done|]. exists st. by split_and!.
  - unfold service_type_parser, nv_lookup. destruct Hc as (Hp & (? & ? & ? & ?) & ? & ?).
    cbn [List.find service_type fst].
    destruct (strcaseeq v _); [by repeat split|]. by destruct (strcaseeq v _); repeat split.
  - unfold args_parser. destruct Hc as (Hp & Hu & _ & _). by destruct o.
  - unfold format_parser. by destruct (nv_lookup _ v).
Qed.

(** [load_pconfig] returns on any file; the configuration it leaves has not
    been started and has room for its arguments, and one that was accepted as
    active has a path, which names a builtin or a regular file of root. *)
Theorem load_pconfig_ok file :
  exists rc c, load_pconfig file = Some (rc, c) /\ conf_ok c /\
    (rc = 0 -> active c = A_YES -> path c <> None).
Proof.
  assert (conf_ok clear_pconfig) as Hd by done. unfold load_pconfig.
  assert (forall rc, exists rc' c, Some (rc, clear_pconfig) = Some (rc', c) /\ conf_ok c /\
    (rc' = 0 -> active c = A_YES -> path c <> None)) as Hclear.
  { intros rc. exists rc, clear_pconfig. by split_and!. }
  destruct (open _ _) as [| |st text]; [apply Hclear..|].
  destruct (negb _); [apply Hclear|]. destruct text as [f|]; [|apply Hclear].
  assert (reads get_line) as Hr by (apply get_line_skipping_reads; unfold BUF; lia).
  edestruct (load_lines_total (sp:=strtok_splitter) (dispatch keywords) get_line (S (length f)) f [] 1
    clear_pconfig Hr) as [[[rc ln] c] E]; [lia|].
  unfold nv_split. rewrite E. cbn [mbind option_bind].
  assert (conf_ok c) as Hc.
  { eapply load_lines_keeps; [|exact E|done]. intros nv c0. apply dispatch_keeps, pconfig_keywords_keep. }
  apply load_lines_lineno in E as [Hln Heq]; [|done].
  destruct (Z.eqb_spec rc 0) as [->|Hrc]; cbn [negb]; [|by eexists _, _].
  destruct (Z.ltb_spec 1 ln); eexists _, _; split; try done; split; try done.
  - unfold sanity_check. destruct c as [act ? pth]. cbn. intros Hs ->. by destruct pth.
  - rewrite Heq by (done || lia). done.
Qed.

(** The check of a plugin's program asks for the bits of 0750 only, so that one
    that everybody may write is accepted. *)
Theorem world_writable_plugin v st o c :
  stat v = Some st -> S_ISREG (st_mode st) = true -> st_uid st = 0 -> Z.land (st_mode st) 511 = 511 ->
  (4 <= String.length (dirname v))%nat -> starts_with_case "builtin_" v = false ->
  path_parser v o c = (0, c<|path := Some v|><|inode := st_ino st|>).
Proof.
  intros Hs Hr Hu Hm Hd Hb. unfold path_parser. rewrite Hb, Hs, Hr, Hu.
  destruct (Nat.ltb_spec (String.length (dirname v)) 4); [lia|]. cbn [negb Z.eqb].
  replace (Z.land (st_mode st) 488) with 488; [done|].
  change 488 with (Z.land 511 488) at 2. by rewrite Z.land_assoc, Hm.
Qed.
End facts.
End PconfigFacts.

(** ** The z/OS plugin *)
Module ZosFacts.
Import StrSplit Config ConfigFacts Zos.

Section facts.
Context `{Host}.

Definition conf_ok (c : plugin_conf) : Prop :=
  0 <= port c < two32 /\ - 2 ^ 63 <= timeout c < 2 ^ 63 /\ 16 <= q_depth c <= 99999.

Lemma zos_keywords_keep :
  Forall (fun kw => forall v o c, conf_ok c -> conf_ok (kw.(parser) v o c).2) keywords.
Proof.
  unfold keywords. repeat (apply Forall_cons; split; [intros v o c Hc; cbn [parser]|]);
    [..|apply Forall_nil; exact I]; try done.
  - unfold port_parser. destruct (number v); [|done]. destruct Hc as (_ & ?). split; [apply u32_range|done].
  - unfold timeout_parser, number. destruct (all_digits v); [|done].
    destruct (strtoul 10 v) as [i e] eqn:E. apply strtoul_range in E; [|lia]. destruct e; [done|].
    destruct Hc as (? & _ & ?). change two64 with (2 ^ 63 + 2 ^ 63) in E.
    split; [done|]. split; [|done]. cbn [timeout apply_update constant snd]. unfold s64.
    change two64 with (2 ^ 63 + 2 ^ 63). generalize dependent (2 ^ 63). intros m E.
    destruct (Z.ltb_spec i m); unfold constant; lia.
  - unfold q_depth_parser. destruct (number v) as [i|]; [|done].
    destruct (Z.ltb_spec i 16), (Z.ltb_spec 99999 i); cbn; try done. destruct Hc as (? & ? & _).
    split; [done|]. split; [done|]. cbn. unfold constant. rewrite u32_small by (unfold two32; lia). lia.
Qed.

(** [plugin_load_config] returns on any file, with the depth of the queue
    between 16 and 99999; a configuration that was accepted has a server, a user, a
    password and a timeout, unless the file has no line. *)
Theorem load_zos_ok c file :
  exists rc c', plugin_load_config c file = Some (rc, c') /\ conf_ok c' /\
    (rc = 0 -> sanity_check c' = 0 \/
               c' = (plugin_clear_config c)<|name := Some (gnu_basename file)|>).
Proof.
  assert (conf_ok (plugin_clear_config c)) as Hd by (split_and!; cbn; unfold two32; lia).
  unfold plugin_load_config.
  destruct (open _ _) as [| |st text]; [by eexists _, _..|].
  destruct (negb _); [by eexists _, _|]. destruct text as [f|]; [|by eexists _, _].
  assert (reads get_line) as Hr by (apply get_line_cutting_reads; unfold BUF; lia).
  edestruct (load_lines_total (sp:=strtok_splitter) (dispatch keywords) get_line (S (length f)) f [] 1
    (plugin_clear_config c) Hr) as [[[rc ln] c1] E]; [lia|].
  unfold nv_split. rewrite E. cbn [mbind option_bind].
  assert (conf_ok c1) as Hc.
  { eapply load_lines_keeps; [|exact E|done]. intros nv c0. apply dispatch_keeps, zos_keywords_keep. }
  apply load_lines_lineno in E as [Hln Heq]; [|done].
  destruct (Z.eqb_spec rc 0) as [->|Hrc]; cbn [negb]; [|by eexists _, _].
  destruct (Z.ltb_spec 1 ln); eexists _, _; split; try done; split; try done.
  - by left.
  - rewrite Heq by (done || lia). by right.
Qed.

(** An empty file is accepted, although it names no server. *)
Theorem empty_file_accepted c file st :
  open file O_RDONLY = Opened (Some st) (Some []) -> check_file mode_ok (Some st) = true ->
  exists c', plugin_load_config c file = Some (0, c') /\ server c' = None.
Proof.
  intros Ho Hs. unfold plugin_load_config. rewrite Ho, Hs. cbn. by eexists.
Qed.
End facts.
End ZosFacts.
