(* ===== verification/Match.v ===== *)
(** * Matching an event with the search options (src/src/ausearch-match.c)

    [match] goes through the options of ausearch and returns 0 at the first one
    the event does not meet.  The lists it walks keep a cursor, which it moves;
    the state threads them. *)
From S2P Require Import Prelude CString CList HitList Avc Llist.

Local Open Scope audit_scope.

Module Match.
Import Llist.

(** The search options, global variables of ausearch-options.c, without the two
    lists, which are part of the state below. *)
Record options := Options {
  start_time : Z;
  end_time : Z;
  event_id : Z;                    (* unsigned int *)
  event_ppid : Z;
  event_pid : Z;
  event_uid : Z;                   (* uid_t *)
  event_euid : Z;
  event_loginuid : Z;
  event_gid : Z;                   (* gid_t *)
  event_egid : Z;
  event_tuid : option string;
  event_teuid : option string;
  event_tauid : option string;
  event_ua : bool;
  event_ga : bool;
  event_se : bool;
  event_machine : Z;
  event_syscall : Z;
  event_session_id : Z;            (* uint32_t *)
  event_exit_is_set : bool;
  event_exit : Z;
  event_success : success_t;
  event_exact_match : bool;
  event_filename : option string;
  event_hostname : option string;
  event_terminal : option string;
  event_exe : option string;
  event_comm : option string;
  event_key : option string;
  event_vmname : option string;
  event_uuid : option string;
  event_subject : option string;
  event_object : option string;
}.

Definition AUDIT_SYSCALL : Z := 1300.

(** What [match] calls: the interpretations of a record and the extraction of the
    items of an event (ausearch-parse.c), which share the state [world], and the
    table of machines of the library. *)
Class Parse := {
  world : Type;
  ausearch_load_interpretations : lnode -> world -> option world;
  extract_search_items : llist -> world -> option (Z * llist * world);
  audit_elf_to_machine : Z -> Z;
}.

Section match_.
Context `{Parse}.

Record state := State {
  wd : world;
  l : llist;
  event_node_list : option HitList.slist;
  event_type : option HitList.ilist;
}.

Definition set_l (x : llist) (s : state) : state := State (wd s) x (event_node_list s) (event_type s).
Definition set_wd (w : world) (s : state) : state := State w (l s) (event_node_list s) (event_type s).
Definition set_node_list (x : HitList.slist) (s : state) : state :=
  State (wd s) (l s) (Some x) (event_type s).
Definition set_type (x : HitList.ilist) (s : state) : state :=
  State (wd s) (l s) (event_node_list s) (Some x).
Definition set_items (i : search_items) (s : state) : state :=
  set_l (LList (records (l s)) (e (l s)) i (fmt (l s))) s.

(** A test that may move cursors; [None] is a bad access.  [&&?] is a chain of
    early returns of 0. *)
Abbreviation test := (state -> option (bool * state)).
Definition pure (b : state -> bool) : test := fun (s : state) => Some (b s, s).
Definition andt (a b : test) : test := fun (s : state) =>
  '(r, s) ← a s; if r : bool then b s else Some (false, s).
Infix "&&?" := andt (at level 60, right associativity).

Definition load_interpretations (o : options) : test := fun (s : state) =>
  if bool_decide (event_tuid o = None /\ event_teuid o = None /\ event_tauid o = None)
  then Some (true, s)
  else
    let r := records (l s) in
    match nodes r with
    | n :: _ => if (cnt r =? 1) || (ntype n =? AUDIT_SYSCALL)
                then w ← ausearch_load_interpretations n (wd s); Some (true, set_wd w s)
                else Some (true, s)
    | [] => if cnt r =? 1 then None else Some (true, s)
    end.

Definition extract : test := fun (s : state) =>
  '(rc, l, w) ← extract_search_items (l s) (wd s);
  Some (rc =? 0, set_wd w (set_l l s)).

(** The comparison of strings: equal, or part of. *)
Definition strmatch (o : options) (needle haystack : string) : bool :=
  if event_exact_match o then str_eq haystack needle else strstr haystack needle.

(** [while (sn && !found)]: stop at a string, if there is one. *)
Fixpoint node_loop (fuel : nat) (node : string) (x : HitList.slist) : option (bool * HitList.slist) :=
  match fuel with
  | O => None
  | S fuel =>
      match HitList.cur x with
      | None => Some (false, x)
      | Some a =>
          nd ← HitList.heap x !! a;
          match HitList.str (HitList.dat nd) with
          | Some t => if str_eq t node then Some (true, x)
                      else x ← HitList.slist_next x; node_loop fuel node x
          | None => x ← HitList.slist_next x; node_loop fuel node x
          end
      end
  end.

Definition node_test : test := fun (s : state) =>
  match event_node_list s with
  | None => Some (true, s)
  | Some sptr =>
      match node (e (l s)) with
      | None => Some (false, s)
      | Some nd =>
          '(found, sptr) ← node_loop (S (HitList.nodes_of sptr)) nd (HitList.first sptr);
          Some (found, set_node_list sptr s)
      end
  end.

(** [strcmp(a, b) == 0] of a variable that may be NULL. *)
Definition strcmp0 (a : option string) (b : string) : option bool :=
  a ← a; Some (str_eq a b).

Definition user_match (o : options) (i : search_items) : option bool :=
  if event_ua o then
    match event_tuid o with
    | Some tu =>
        if match tuid i with Some x => str_eq tu x | None => false end then Some true else
        b ← match teuid i with Some x => strcmp0 (event_teuid o) x | None => Some false end;
        if b : bool then Some true else
        match tauid i with Some x => strcmp0 (event_tauid o) x | None => Some false end
    | None =>
        Some ((event_uid o =? uid i) || (event_euid o =? euid i) || (event_loginuid o =? loginuid i))
    end
  else if bool_decide (event_tuid o = None /\ event_teuid o = None /\ event_tauid o = None) then
    Some (((event_uid o =? u32 (-1)) || (event_uid o =? uid i)) &&
          ((event_euid o =? u32 (-1)) || (event_euid o =? euid i)) &&
          ((event_loginuid o =? u32 (-2)) || (event_loginuid o =? loginuid i)))
  else
    let same ev it :=
      match ev with
      | Some a => match it with Some b => str_eq a b | None => false end
      | None => true
      end in
    Some (same (event_tuid o) (tuid i) && same (event_teuid o) (teuid i) &&
          same (event_tauid o) (tauid i)).

Definition user_test (o : options) : test := fun (st : state) => b ← user_match o (s (l st)); Some (b, st).

Definition group_match (o : options) (i : search_items) : bool :=
  if event_ga o then (event_gid o =? gid i) || (event_egid o =? egid i)
  else ((event_gid o =? u32 (-1)) || (event_gid o =? gid i)) &&
       ((event_egid o =? u32 (-1)) || (event_egid o =? egid i)).

(** The numbers of the options, up to event_success. *)
Definition number_tests (o : options) (i : search_items) : bool :=
  ((event_ppid o =? -1) || (event_ppid o =? ppid i)) &&
  ((event_pid o =? -1) || (event_pid o =? pid i)) &&
  ((event_machine o =? -1) || (event_machine o =? audit_elf_to_machine (arch i))) &&
  ((event_syscall o =? -1) || (event_syscall o =? syscall i)) &&
  ((event_session_id o =? u32 (-2)) || (event_session_id o =? session_id i)) &&
  (if event_exit_is_set o then exit_is_set i && (event_exit o =? exit i) else true) &&
  ((event_success o =? S_UNSET) || (event_success o =? success i)).

(** [do ... while ((in = ilist_next(event_type)))]: whether the list has a number;
    a NULL cursor is dereferenced. *)
Fixpoint type_loop (fuel : nat) (t : Z) (x : HitList.ilist) : option (bool * HitList.ilist) :=
  match fuel with
  | O => None
  | S fuel =>
      a ← HitList.cur x;
      nd ← HitList.heap x !! a;
      if HitList.num (HitList.dat nd) =? t then Some (true, x)
      else x ← HitList.ilist_next x;
           match HitList.cur x with None => Some (false, x) | Some _ => type_loop fuel t x end
  end.

(** The outer loop goes through the records. *)
Fixpoint records_loop (fuel : nat) (x : HitList.ilist) (lst : llist)
    : option (bool * HitList.ilist * llist) :=
  match fuel with
  | O => None
  | S fuel =>
      n ← list_get_cur lst;
      '(found, x) ← type_loop (HitList.nodes_of x) (ntype n) (HitList.first x);
      if found : bool then Some (true, x, lst)
      else match list_next lst with
           | (Some _, lst) => records_loop fuel x lst
           | (None, lst) => Some (false, x, lst)
           end
  end.

Definition type_test : test := fun (s : state) =>
  match event_type s with
  | None => Some (true, s)
  | Some x =>
      '(found, x, lst) ← records_loop (S (length (nodes (records (l s))))) x (list_first (l s));
      Some (found, set_type x (set_l lst s))
  end.

(** [do ... while ((sn=slist_next(sptr)))]: [None] inside is the return of 0 for a
    string that is not set. *)
Fixpoint str_loop (fuel : nat) (found : string -> bool) (x : HitList.slist)
    : option (option bool * HitList.slist) :=
  match fuel with
  | O => None
  | S fuel =>
      a ← HitList.cur x;
      nd ← HitList.heap x !! a;
      match HitList.str (HitList.dat nd) with
      | None => Some (None, x)
      | Some t =>
          if found t then Some (Some true, x)
          else x ← HitList.slist_next x;
               match HitList.cur x with None => Some (Some false, x) | Some _ => str_loop fuel found x end
      end
  end.

Definition with_filename (x : HitList.slist) (i : search_items) : search_items :=
  SearchItems (ppid i) (pid i) (uid i) (euid i) (loginuid i) (gid i) (egid i) (success i) (arch i)
    (syscall i) (session_id i) (exit i) (exit_is_set i) (hostname i) (Some x) (cwd i) (exe i) (key i)
    (terminal i) (comm i) (avc i) (acct i) (uuid i) (vmname i) (tuid i) (teuid i) (tauid i).
Definition with_key (x : HitList.slist) (i : search_items) : search_items :=
  SearchItems (ppid i) (pid i) (uid i) (euid i) (loginuid i) (gid i) (egid i) (success i) (arch i)
    (syscall i) (session_id i) (exit i) (exit_is_set i) (hostname i) (filename i) (cwd i) (exe i)
    (Some x) (terminal i) (comm i) (avc i) (acct i) (uuid i) (vmname i) (tuid i) (teuid i) (tauid i).
Definition with_avc (x : Avc.alist) (i : search_items) : search_items :=
  SearchItems (ppid i) (pid i) (uid i) (euid i) (loginuid i) (gid i) (egid i) (success i) (arch i)
    (syscall i) (session_id i) (exit i) (exit_is_set i) (hostname i) (filename i) (cwd i) (exe i)
    (key i) (terminal i) (comm i) (Some x) (acct i) (uuid i) (vmname i) (tuid i) (teuid i) (tauid i).

(** A file name of the event, or its working directory. *)
Definition filename_test (o : options) : test := fun (st : state) =>
  match event_filename o with
  | None => Some (true, st)
  | Some f =>
      let i := s (l st) in
      let cwd_match := match cwd i with Some c => strmatch o f c | None => false end in
      match filename i with
      | None => Some (cwd_match, st)
      | Some sptr =>
          '(r, sptr) ← str_loop (HitList.nodes_of sptr) (strmatch o f) (HitList.first sptr);
          let st := set_items (with_filename sptr i) st in
          Some (match r with None => false | Some true => true | Some false => cwd_match end, st)
      end
  end.

(** The tests of a single string: it must be set and match. *)
Definition string_test (o : options) (ev : option string) (it : search_items -> option string) : test :=
  pure (fun st => match ev with
                  | None => true
                  | Some n => match it (s (l st)) with Some h => strmatch o n h | None => false end
                  end).

Definition key_test (o : options) : test := fun (st : state) =>
  match event_key o with
  | None => Some (true, st)
  | Some k =>
      match key (s (l st)) with
      | None => Some (false, st)
      | Some sptr =>
          '(r, sptr) ← str_loop (HitList.nodes_of sptr) (strmatch o k) (HitList.first sptr);
          Some (match r with Some true => true | _ => false end,
                set_items (with_key sptr (s (l st))) st)
      end
  end.

(** One search of [context_match] over the subjects or the objects; [rewind]: after
    [alist_first]. *)
Definition context_search (o : options) (rewind : bool) (get : Avc.anode -> option string)
    (needle : string) : test :=
  fun (st : state) =>
    match avc (s (l st)) with
    | None => Some (false, st)
    | Some a =>
        '(b, a) ← Avc.search (fun n => Avc.is_set (get n))
                    (fun n => match get n with Some c => strmatch o needle c | None => false end)
                    (if rewind then Avc.alist_first a else a);
        Some (b, set_items (with_avc a (s (l st))) st)
    end.

Definition context_match (o : options) : test := fun (st : state) =>
  let subject := context_search o false Avc.scontext in
  let object rewind := context_search o rewind Avc.tcontext in
  if event_se o then
    '(b, st) ← match event_subject o with Some n => subject n st | None => Some (false, st) end;
    if b : bool then Some (true, st) else
    match event_object o with Some n => object true n st | None => Some (false, st) end
  else
    match event_subject o with
    | Some n => subject n st
    | None => match event_object o with Some n => object false n st | None => Some (true, st) end
    end.

Definition in_window (o : options) (ev : event) : bool :=
  ((start_time o =? 0) || (start_time o <=? sec ev)) &&
  ((end_time o =? 0) || (sec ev <=? end_time o)) &&
  ((event_id o =? u32 (-1)) || (event_id o =? serial ev)).

Definition match_ (o : options) : test :=
  pure (fun st => in_window o (e (l st))) &&?
  load_interpretations o &&?
  extract &&?
  node_test &&?
  user_test o &&?
  pure (fun st => group_match o (s (l st))) &&?
  pure (fun st => number_tests o (s (l st))) &&?
  type_test &&?
  filename_test o &&?
  string_test o (event_hostname o) hostname &&?
  string_test o (event_terminal o) terminal &&?
  string_test o (event_exe o) exe &&?
  string_test o (event_comm o) comm &&?
  key_test o &&?
  string_test o (event_vmname o) vmname &&?
  string_test o (event_uuid o) uuid &&?
  context_match o.

End match_.
End Match.
