(* ===== verification/MatchFacts.v ===== *)
(** * Matching: the answer is the conjunction of the options *)
From S2P Require Import Prelude CString CList HitList HitListFacts Avc Llist Match.

Local Open Scope audit_scope.

Module MatchFacts.
Import Llist Match.

(** ** Walks along the lists *)

(** Another cursor on the same list. *)
Definition moved {D} (x x' : HitList.hlist D) : Prop := exists c, x' = HitList.set_cur c x.

Lemma moved_refl {D} (x : HitList.hlist D) : moved x x.
Proof. exists (HitList.cur x). by destruct x. Qed.

Lemma moved_trans {D} (x y z : HitList.hlist D) : moved x y -> moved y z -> moved x z.
Proof. intros [c ->] [d ->]. by exists d. Qed.

Lemma moved_rep {D} (x x' : HitList.hlist D) xs :
  moved x x' -> HitListFacts.rep x xs -> HitListFacts.rep x' xs.
Proof. intros [c ->] []. by constructor. Qed.

Abbreviation seg x xs := (HitListFacts.lseg (HitList.heap x) (HitList.cur x) xs None).

(** The step to the next node. *)
Lemma next_spec {D} (x : HitList.hlist D) a d xs :
  seg x ((a, d) :: xs) ->
  exists x', HitList.next_ x = Some x' /\ moved x x' /\ seg x' xs.
Proof.
  intros (Hc & n & Ha & Hs). unfold HitList.next_. rewrite Hc, Ha. eexists. split; [done|].
  split; [by eexists|]. done.
Qed.

Definition named (n : string) (d : HitList.snode) : bool :=
  match HitList.str d with Some t => str_eq t n | None => false end.

Lemma node_loop_spec fuel node x (xs : list (nat * HitList.snode)) :
  seg x xs -> (length xs < fuel)%nat ->
  exists x', node_loop fuel node x
    = Some (existsb (fun p => named node p.2) xs, x') /\ moved x x'.
Proof.
  revert x xs. induction fuel as [|fuel IH]; intros x xs Hs Hf; [lia|].
  destruct xs as [|[a d] xs]; cbn [node_loop].
  { cbn in Hs. rewrite Hs. eexists. split; [done|apply moved_refl]. }
  destruct (next_spec x a d xs Hs) as (x1 & E1 & Hm1 & Hs1). destruct Hs as (Hc & n & Ha & Hs).
  rewrite Hc, Ha. cbn [mbind option_bind HitList.dat]. cbn in Hf.
  assert (exists x', (x ← HitList.slist_next x; node_loop fuel node x)
    = Some (existsb (fun p => named node p.2) xs, x') /\ moved x x') as Hnext.
  { unfold HitList.slist_next. rewrite E1. cbn [mbind option_bind].
    destruct (IH x1 xs Hs1) as (x' & -> & Hm); [lia|]. exists x'. split; [done|by eapply moved_trans]. }
  cbn [existsb snd]. unfold named at 1. destruct (HitList.str d) as [t|]; [|apply Hnext].
  destruct (str_eq t node); [|apply Hnext]. eexists. split; [done|apply moved_refl].
Qed.

Lemma type_loop_spec fuel t x (xs : list (nat * HitList.int_node)) :
  seg x xs -> xs <> [] -> (length xs <= fuel)%nat ->
  exists x', type_loop fuel t x = Some (existsb (fun p => HitList.num p.2 =? t) xs, x') /\ moved x x'.
Proof.
  revert x xs. induction fuel as [|fuel IH]; intros x xs Hs Hne Hf; [by destruct xs; cbn in Hf; [|lia]|].
  destruct xs as [|[a d] xs]; [done|]. cbn [type_loop].
  destruct (next_spec x a d xs Hs) as (x1 & E1 & Hm1 & Hs1). destruct Hs as (Hc & n & Ha & Hs).
  rewrite Hc. cbn [mbind option_bind]. rewrite Ha. cbn [mbind option_bind HitList.dat existsb snd].
  destruct (_ =? t); [eexists; split; [done|apply moved_refl]|]. cbn [orb]. unfold HitList.ilist_next.
  rewrite E1. cbn [mbind option_bind]. destruct xs as [|[b d2] xs].
  - cbn in Hs1. rewrite Hs1. by eexists.
  - destruct (IH x1 ((b, d2) :: xs) Hs1) as (x' & E & Hm); [done|cbn in *; lia|].
    destruct Hs1 as [Hc1 _]. rewrite Hc1, E. exists x'. split; [done|by eapply moved_trans].
Qed.

Lemma str_loop_spec fuel found x (xs : list (nat * HitList.snode)) :
  seg x xs -> xs <> [] -> (length xs <= fuel)%nat -> Forall (fun p => is_Some (HitList.str p.2)) xs ->
  exists x', str_loop fuel found x
    = Some (Some (existsb (fun p => match HitList.str p.2 with Some t => found t | None => false end) xs), x')
    /\ moved x x'.
Proof.
  revert x xs. induction fuel as [|fuel IH]; intros x xs Hs Hne Hf Hall;
    [by destruct xs; cbn in Hf; [|lia]|].
  destruct xs as [|[a d] xs]; [done|]. cbn [str_loop].
  destruct (next_spec x a d xs Hs) as (x1 & E1 & Hm1 & Hs1). destruct Hs as (Hc & n & Ha & Hs).
  apply Forall_cons in Hall as [[t Ht] Hall]. cbn in Ht.
  rewrite Hc. cbn [mbind option_bind]. rewrite Ha. cbn [mbind option_bind HitList.dat existsb snd].
  rewrite Ht. destruct (found t); [eexists; split; [done|apply moved_refl]|]. cbn [orb].
  unfold HitList.slist_next. rewrite E1. cbn [mbind option_bind]. destruct xs as [|[b d2] xs].
  - cbn in Hs1. rewrite Hs1. by eexists.
  - destruct (IH x1 ((b, d2) :: xs) Hs1) as (x' & E & Hm); [done|cbn in *; lia|done|].
    destruct Hs1 as [Hc1 _]. rewrite Hc1, E. exists x'. split; [done|by eapply moved_trans].
Qed.

(** ** Views

    What the lists of the state hold. *)
Definition holds {D} (o : option (HitList.hlist D)) (v : option (list D)) : Prop :=
  match o, v with
  | None, None => True
  | Some x, Some ds => exists xs, HitListFacts.rep x xs /\ xs.*2 = ds
  | _, _ => False
  end.
Definition some_strings (v : option (list HitList.snode)) : Prop :=
  match v with None => True | Some ds => ds <> [] /\ Forall (fun d => is_Some (HitList.str d)) ds end.

Lemma rep_first {D} (x : HitList.hlist D) xs : HitListFacts.rep x xs -> seg (HitList.first x) xs.
Proof. by intros []. Qed.

Lemma existsb_snd {A B} (f : B -> bool) (xs : list (A * B)) :
  existsb (fun p => f p.2) xs = existsb f xs.*2.
Proof. induction xs as [|x xs IH]; cbn; [done|]. by rewrite IH. Qed.

Lemma holds_moved {D} (x x' : HitList.hlist D) v :
  moved x x' -> holds (Some x) v -> holds (Some x') v.
Proof. destruct v as [ds|]; [|done]. intros Hm (xs & Hr & He). exists xs. split; [by eapply moved_rep|done]. Qed.

(** ** The options one by one *)

(** The items that no test changes. *)
Definition base_items (i : search_items) : search_items :=
  SearchItems (ppid i) (pid i) (uid i) (euid i) (loginuid i) (gid i) (egid i) (success i) (arch i)
    (syscall i) (session_id i) (exit i) (exit_is_set i) (hostname i) None (cwd i) (exe i) None
    (terminal i) (comm i) None (acct i) (uuid i) (vmname i) (tuid i) (teuid i) (tauid i).

Record view := View {
  v_nodes : option (list HitList.snode);       (* event_node_list *)
  v_types : option (list HitList.int_node);    (* event_type *)
  v_files : option (list HitList.snode);       (* file names of the event *)
  v_keys : option (list HitList.snode);        (* its keys *)
  v_avc : option (list Avc.anode);             (* its access vectors *)
}.

Section facts.
Context `{Parse} (o : options) (l1 : llist) (v : view).

(** A state during the tests of the event [l1]: only cursors move. *)
Record good (st : state) : Prop := Good {
  g_nodes : holds (event_node_list st) (v_nodes v);
  g_types : holds (event_type st) (v_types v);
  g_files : holds (filename (s (l st))) (v_files v);
  g_keys : holds (key (s (l st))) (v_keys v);
  g_avc : nodes <$> avc (s (l st)) = v_avc v;
  g_items : base_items (s (l st)) = base_items (s l1);
  g_event : e (l st) = e l1;
  g_records : nodes (records (l st)) = nodes (records l1);
}.

Definition answers (t : state -> option (bool * state)) (b : bool) : Prop :=
  forall st, good st -> exists st', t st = Some (b, st') /\ good st'.

Lemma andt_step (a b : state -> option (bool * state)) st r st1 :
  a st = Some (r, st1) -> andt a b st = if r then b st1 else Some (false, st1).
Proof. intros E. unfold andt. by rewrite E. Qed.

Lemma answers_and a b ba bb : answers a ba -> answers b bb -> answers (andt a b) (ba && bb).
Proof.
  intros Ha Hb st Hg. unfold andt. destruct (Ha st Hg) as (st1 & -> & Hg1). cbn [mbind option_bind].
  destruct ba; [by apply Hb|by eexists].
Qed.

Lemma answers_pure f b : (forall st, good st -> f st = b) -> answers (pure f) b.
Proof. intros Hf st Hg. exists st. split; [|done]. unfold pure. by rewrite Hf. Qed.

(** The names of the machines to look for. *)
Definition node_ok : bool :=
  match v_nodes v with
  | None => true
  | Some ds => match node (e l1) with
               | None => false
               | Some n => existsb (named n) ds
               end
  end.

Lemma node_answers : answers node_test node_ok.
Proof.
  intros st Hg. pose proof Hg as []. unfold node_test, node_ok.
  destruct (event_node_list st) as [x|] eqn:Ex, (v_nodes v) as [ds|] eqn:Ev; cbn in g_nodes0; try done.
  2: { by exists st. }
  rewrite g_event0. destruct (node (e l1)) as [n|]; [|by exists st].
  destruct g_nodes0 as (xs & Hr & He). pose proof (HitListFacts.rep_size _ _ Hr) as Hsz.
  destruct (node_loop_spec (S (HitList.nodes_of x)) n (HitList.first x) xs) as (x' & E & Hm).
  { by apply rep_first. }
  { unfold HitList.nodes_of. lia. }
  rewrite E. cbn [mbind option_bind]. rewrite (existsb_snd (named n)), He.
  eexists. split; [done|]. destruct Hm as [c ->]. constructor; cbn; try done. rewrite Ev. exists xs. split; [|done].
  by destruct Hr; constructor.
Qed.

(** The types of records to look for. *)
Definition type_ok : bool :=
  match v_types v with
  | None => true
  | Some ds => existsb (fun n => existsb (fun d => HitList.num d =? ntype n) ds) (nodes (records l1))
  end.

Lemma records_loop_spec ds fuel x lst i xs :
  HitListFacts.rep x xs -> xs <> [] -> xs.*2 = ds -> cur (records lst) = Some i ->
  (i < length (nodes (records lst)))%nat -> (length (nodes (records lst)) <= i + fuel)%nat ->
  exists x' c, records_loop fuel x lst
    = Some (existsb (fun n => existsb (fun d => HitList.num d =? ntype n) ds) (drop i (nodes (records lst))),
            x', set_records (CList (nodes (records lst)) c (cnt (records lst))) lst) /\ moved x x'.
Proof.
  revert x lst i. induction fuel as [|fuel IH]; intros x lst i Hr Hne He Hc Hi Hf; [lia|].
  cbn [records_loop]. destruct (lookup_lt_is_Some_2 _ _ Hi) as [n Hn].
  assert (list_get_cur lst = Some n) as -> by (unfold list_get_cur, cl_get_cur; by rewrite Hc).
  cbn [mbind option_bind]. pose proof (HitListFacts.rep_size _ _ Hr) as Hsz.
  destruct (type_loop_spec (HitList.nodes_of x) (ntype n) (HitList.first x) xs) as (x1 & -> & Hm1);
    [by apply rep_first|done|unfold HitList.nodes_of; lia|].
  cbn [mbind option_bind]. rewrite (existsb_snd (fun d => HitList.num d =? ntype n)), He.
  rewrite (drop_S _ _ _ Hn). cbn [existsb].
  assert (moved x x1) as Hm by (destruct Hm1 as [c ->]; by exists c).
  destruct (existsb _ ds); cbn [orb].
  { exists x1, (Some i). split; [|done]. do 2 f_equal. destruct lst as [[ns c k] ev it f]. cbn in *. by subst c. }
  unfold list_next, list_get_cur, cl_get_cur, cl_next. cbn [records set_records nodes cur cnt].
  rewrite Hc. unfold succ_of. case_decide as Hlt.
  - destruct (lookup_lt_is_Some_2 _ _ Hlt) as [m Hm']. rewrite Hm'.
    destruct (IH x1 (set_records (CList (nodes (records lst)) (Some (S i)) (cnt (records lst))) lst) (S i))
      as (x' & c & E & Hmm); try done; [by eapply moved_rep|cbn; lia|].
    cbn in E. exists x', c. split; [exact E|by eapply moved_trans].
  - exists x1, None. rewrite drop_ge by lia. done.
Qed.

Lemma type_answers :
  nodes (records l1) <> [] -> v_types v <> Some [] -> answers type_test type_ok.
Proof.
  intros Hne Hv st Hg. pose proof Hg as []. unfold type_test, type_ok.
  destruct (event_type st) as [x|] eqn:Ex, (v_types v) as [ds|] eqn:Ev; cbn in g_types0; try done.
  2: { by exists st. }
  destruct g_types0 as (xs & Hr & He).
  destruct (records_loop_spec ds (S (length (nodes (records (l st))))) x (list_first (l st)) 0 xs)
    as (x' & c & E & Hm); try done.
  - intros ->. by subst ds.
  - cbn. unfold cl_head. by destruct (nodes (records (l st))); [rewrite g_records0 in *|].
  - cbn. rewrite g_records0. destruct (nodes (records l1)); [done|cbn; lia].
  - cbn. lia.
  - rewrite E. cbn [mbind option_bind]. eexists. cbn. rewrite drop_0, g_records0. split; [done|].
    constructor; cbn; try done. rewrite Ev. exists xs. split; [by eapply moved_rep|done].
Qed.

(** Strings of a list of the event. *)
Definition str_in (needle : string) (ds : list HitList.snode) : bool :=
  existsb (fun d => match HitList.str d with Some t => strmatch o needle t | None => false end) ds.

Lemma str_loop_holds x ds f :
  holds (Some x) (Some ds) -> some_strings (Some ds) ->
  exists x', str_loop (HitList.nodes_of x) (strmatch o f) (HitList.first x) = Some (Some (str_in f ds), x') /\
    holds (Some x') (Some ds).
Proof.
  intros (xs & Hr & He) [Hne Hall]. pose proof (HitListFacts.rep_size _ _ Hr) as Hsz.
  destruct (str_loop_spec (HitList.nodes_of x) (strmatch o f) (HitList.first x) xs) as (x' & -> & Hm).
  - by apply rep_first.
  - intros ->. by subst ds.
  - unfold HitList.nodes_of. lia.
  - subst ds. by rewrite Forall_fmap in Hall.
  - exists x'. unfold str_in. subst ds.
    rewrite (existsb_snd (fun d => match HitList.str d with Some t => strmatch o f t | None => false end)).
    split; [done|]. exists xs. split; [|done]. eapply moved_rep; [|exact Hr].
    destruct Hm as [c ->]. by exists c.
Qed.

(** A file name of the event, or its working directory. *)
Definition filename_ok : bool :=
  match event_filename o with
  | None => true
  | Some f => match v_files v with Some ds => str_in f ds | None => false end ||
              match cwd (s l1) with Some c => strmatch o f c | None => false end
  end.

Lemma good_cwd st : good st -> cwd (s (l st)) = cwd (s l1).
Proof. intros []. by apply (f_equal cwd) in g_items0. Qed.

Lemma filename_answers : some_strings (v_files v) -> answers (filename_test o) filename_ok.
Proof.
  intros Hs st Hg. pose proof Hg as []. unfold filename_test, filename_ok.
  destruct (event_filename o) as [f|]; [|by exists st]. rewrite (good_cwd _ Hg).
  destruct (filename (s (l st))) as [x|], (v_files v) as [ds|] eqn:Ev; cbn [holds] in g_files0; try done.
  2: { by exists st. }
  destruct (str_loop_holds x ds f g_files0 Hs) as (x' & -> & Hh). cbn [mbind option_bind].
  eexists. split; [by destruct (str_in f ds)|]. constructor; cbn; try done. by rewrite Ev.
Qed.

Definition key_ok : bool :=
  match event_key o with
  | None => true
  | Some k => match v_keys v with Some ds => str_in k ds | None => false end
  end.

Lemma key_answers : some_strings (v_keys v) -> answers (key_test o) key_ok.
Proof.
  intros Hs st Hg. pose proof Hg as []. unfold key_test, key_ok.
  destruct (event_key o) as [f|]; [|by exists st].
  destruct (key (s (l st))) as [x|], (v_keys v) as [ds|] eqn:Ev; cbn [holds] in g_keys0; try done.
  2: { by exists st. }
  destruct (str_loop_holds x ds f g_keys0 Hs) as (x' & -> & Hh). cbn [mbind option_bind].
  eexists. split; [by destruct (str_in f ds)|]. constructor; cbn; try done. by rewrite Ev.
Qed.

(** A string of the event, which must be set. *)
Definition string_ok (ev it : option string) : bool :=
  match ev with
  | None => true
  | Some n => match it with Some h => strmatch o n h | None => false end
  end.

Lemma string_answers ev (it : search_items -> option string) :
  (forall i, it i = it (base_items i)) -> answers (string_test o ev it) (string_ok ev (it (s l1))).
Proof.
  intros Hit. apply answers_pure. intros st Hg. unfold string_ok.
  by rewrite (Hit (s (l st))), (g_items _ Hg), <-Hit.
Qed.

(** The contexts of its access vectors. *)
Definition context_in (get : Avc.anode -> option string) (needle : string) : bool :=
  match v_avc v with
  | None => false
  | Some ns => existsb (fun n => match get n with Some c => strmatch o needle c | None => false end) ns
  end.
Definition context_is (get : Avc.anode -> option string) (needle : option string) (otherwise : bool) : bool :=
  match needle with Some n => context_in get n | None => otherwise end.

(** -se asks for one of the two, -su and -o for each that is given. *)
Definition context_ok : bool :=
  if event_se o
  then context_is Avc.scontext (event_subject o) false || context_is Avc.tcontext (event_object o) false
  else context_is Avc.scontext (event_subject o) true && context_is Avc.tcontext (event_object o) true.

(** What the code tests: the object only if no subject is given. *)
Definition context_tested : bool :=
  if event_se o
  then context_is Avc.scontext (event_subject o) false || context_is Avc.tcontext (event_object o) false
  else context_is Avc.scontext (event_subject o) (context_is Avc.tcontext (event_object o) true).

(** Not both -su and -o. *)
Definition one_context : Prop := event_se o = true \/ event_subject o = None \/ event_object o = None.

Lemma context_all : one_context -> context_tested = context_ok.
Proof.
  unfold context_tested, context_ok. intros [->|[->| ->]]; [done| |]; destruct (event_se o); [done| |done|]; cbn; [done|].
  by rewrite andb_true_r.
Qed.

Lemma context_search_answers rewind get needle :
  answers (context_search o rewind get needle) (context_in get needle).
Proof.
  intros st Hg. pose proof Hg as []. unfold context_search, context_in.
  destruct (avc (s (l st))) as [a|] eqn:Ea.
  2: { cbn in g_avc0. rewrite <-g_avc0. by exists st. }
  rewrite <-g_avc0. cbn [fmap option_fmap option_map].
  set (a' := if rewind then Avc.alist_first a else a).
  assert (nodes a' = nodes a) as En by (by unfold a'; destruct rewind).
  destruct (Avc.search_spec (fun n => Avc.is_set (get n))
    (fun n => match get n with Some c => strmatch o needle c | None => false end) a') as (a2 & -> & E2 & _).
  cbn [mbind option_bind]. eexists. split.
  - do 2 f_equal. rewrite En. clear. induction (nodes a) as [|n ns IH]; [done|]. cbn. rewrite IH.
    f_equal. by destruct (get n).
  - constructor; cbn; try done. by rewrite E2, En, <-g_avc0.
Qed.

Lemma context_answers : answers (context_match o) context_tested.
Proof.
  intros st Hg. unfold context_match, context_tested, context_is. destruct (event_se o).
  - destruct (event_subject o) as [n|]; cbn [mbind option_bind].
    + destruct (context_search_answers false Avc.scontext n st Hg) as (st1 & -> & Hg1). cbn [mbind option_bind].
      destruct (context_in _ n); [by exists st1|]. cbn [orb].
      destruct (event_object o); [by apply context_search_answers|by exists st1].
    + destruct (event_object o); [by apply context_search_answers|by exists st].
  - destruct (event_subject o); [by apply context_search_answers|].
    destruct (event_object o); [by apply context_search_answers|by exists st].
Qed.

Lemma user_answers b : user_match o (s l1) = Some b -> answers (user_test o) b.
Proof.
  intros Hu st Hg. exists st. split; [|done]. unfold user_test.
  change (user_match o (s (l st))) with (user_match o (base_items (s (l st)))).
  rewrite (g_items _ Hg). change (user_match o (base_items (s l1))) with (user_match o (s l1)).
  by rewrite Hu.
Qed.

Lemma items_answers (f : search_items -> bool) :
  (forall i, f i = f (base_items i)) -> answers (pure (fun st => f (s (l st)))) (f (s l1)).
Proof.
  intros Hf. apply answers_pure. intros st Hg. by rewrite Hf, (g_items _ Hg), <-Hf.
Qed.

(** The user: by name if a name is asked for, else by number; -ua asks for one of the
    three, the others for each that is given. *)
Definition name_is (needle name : option string) : bool :=
  match needle, name with Some a, Some b => str_eq a b | _, _ => false end.
Definition name_ok (needle name : option string) : bool :=
  match needle with None => true | Some _ => name_is needle name end.
Definition number_ok (unset needle n : Z) : bool := (needle =? unset) || (needle =? n).

Definition user_ok : bool :=
  let i := s l1 in
  if event_ua o then
    if bool_decide (event_tuid o = None)
    then (event_uid o =? uid i) || (event_euid o =? euid i) || (event_loginuid o =? loginuid i)
    else name_is (event_tuid o) (tuid i) || name_is (event_teuid o) (teuid i) || name_is (event_tauid o) (tauid i)
  else if bool_decide (event_tuid o = None /\ event_teuid o = None /\ event_tauid o = None)
  then number_ok (u32 (-1)) (event_uid o) (uid i) && number_ok (u32 (-1)) (event_euid o) (euid i) &&
       number_ok (u32 (-2)) (event_loginuid o) (loginuid i)
  else name_ok (event_tuid o) (tuid i) && name_ok (event_teuid o) (teuid i) && name_ok (event_tauid o) (tauid i).

(** -ua with a name sets all three names; with a number it sets none, and then -ui must
    not set one. *)
Definition ua_complete : Prop :=
  event_ua o = true -> is_Some (event_tuid o) -> is_Some (event_teuid o) /\ is_Some (event_tauid o).

Lemma user_match_ok : ua_complete -> user_match o (s l1) = Some user_ok.
Proof.
  unfold ua_complete, user_match, user_ok, number_ok, name_ok, name_is. intros Hua.
  destruct (event_ua o).
  - destruct (event_tuid o) as [tu|]; [|done]. destruct (Hua eq_refl ltac:(by eexists)) as [[te ->] [ta ->]].
    rewrite bool_decide_false by done. cbn.
    destruct (tuid (s l1)) as [x|]; [destruct (str_eq tu x); [done|]|]; cbn;
      (destruct (teuid (s l1)) as [y|]; [cbn; destruct (str_eq te y); [done|]|]); cbn; by destruct (tauid (s l1)).
  - case_bool_decide; [done|]. by destruct (event_tuid o), (event_teuid o), (event_tauid o).
Qed.

(** What an event must meet. *)
Definition criteria : list bool :=
  [node_ok; user_ok; group_match o (s l1); number_tests o (s l1); type_ok; filename_ok;
   string_ok (event_hostname o) (hostname (s l1)); string_ok (event_terminal o) (terminal (s l1));
   string_ok (event_exe o) (exe (s l1)); string_ok (event_comm o) (comm (s l1)); key_ok;
   string_ok (event_vmname o) (vmname (s l1)); string_ok (event_uuid o) (uuid (s l1)); context_ok].

(** The lists that are walked with do ... while are not empty. *)
Definition lists_ok : Prop :=
  nodes (records l1) <> [] /\ v_types v <> Some [] /\ some_strings (v_files v) /\ some_strings (v_keys v).

(** All tests in the order of the code. *)
Lemma match_spec st st0 rc w1 :
  load_interpretations o st = Some (true, st0) ->
  extract_search_items (l st0) (wd st0) = Some (rc, l1, w1) ->
  good (set_wd w1 (set_l l1 st0)) -> lists_ok -> ua_complete -> one_context ->
  exists st', match_ o st
    = Some (in_window o (e (l st)) && (rc =? 0) && forallb id criteria, st').
Proof.
  intros Hli Hex Hg (Hr & Ht & Hf & Hk) Hu%user_match_ok Hone. unfold match_.
  erewrite andt_step by reflexivity. destruct (in_window o (e (l st))); [|by eexists].
  erewrite andt_step by exact Hli.
  erewrite andt_step by (unfold extract; rewrite Hex; reflexivity).
  destruct (rc =? 0); [|by eexists]. cbn [andb].
  match goal with |- exists st', ?t _ = _ =>
    assert (answers t (forallb id criteria)) as Ha end.
  { unfold criteria. rewrite <-(context_all Hone). cbn [forallb]. unfold id. rewrite andb_true_r.
    repeat first [apply answers_and | apply node_answers | by apply user_answers
      | by apply (items_answers (group_match o)) | by apply (items_answers (number_tests o))
      | by apply type_answers | by apply filename_answers | by apply key_answers
      | by apply string_answers | apply context_answers]. }
  destruct (Ha _ Hg) as (st' & E & _). by exists st'.
Qed.

(** C31: once the interpretations are loaded and the items are extracted, [match]
    accepts an event exactly if it is in the window of time, its items could be
    extracted and it meets every search option, whatever the order the code tests
    them in: the lists of the options and of the event are searched completely, and
    no cursor that is NULL is used.  This needs lists of keys and files that are not
    empty, not both a subject and an object ([object_not_tested] otherwise), and a
    name for each place if -ua and a name are given ([ua_with_name]). *)
Theorem match_conjunction st st0 rc w1 :
  load_interpretations o st = Some (true, st0) ->
  extract_search_items (l st0) (wd st0) = Some (rc, l1, w1) ->
  good (set_wd w1 (set_l l1 st0)) -> lists_ok -> ua_complete -> one_context ->
  exists st', match_ o st
    = Some (in_window o (e (l st)) && (rc =? 0) && forallb id criteria, st').
Proof. apply match_spec. Qed.

End facts.

(** When both a subject and an object are to be matched, the object is not looked
    at: any event with a matching subject passes the test of contexts. *)
Theorem object_not_tested `{Parse} o l1 v n m st :
  good l1 v st -> event_se o = false -> event_subject o = Some n -> event_object o = Some m ->
  context_in o v Avc.scontext n = true -> exists st', context_match o st = Some (true, st').
Proof.
  intros Hg Hs Hn Hm Hc. destruct (context_answers o l1 v st Hg) as (st' & E & _).
  exists st'. rewrite E. unfold context_tested, context_is. by rewrite Hs, Hn, Hc.
Qed.

(** With -ua 1000 and -ui bob the name for the effective user is missing and compared. *)
Theorem ua_with_name o i n x : event_ua o = true -> event_tuid o = Some n -> event_teuid o = None ->
  tuid i = None -> teuid i = Some x -> user_match o i = None.
Proof. unfold user_match. by intros -> -> -> -> ->. Qed.

(** ** Example: events with a record of type 1307 *)

Definition no_options : options :=
  Options 0 0 (u32 (-1)) (-1) (-1) (u32 (-1)) (u32 (-1)) (u32 (-2)) (u32 (-1)) (u32 (-1)) None None None
    false false false (-1) (-1) (u32 (-2)) false 0 S_UNSET false None None None None None None None None
    None None.

(** Events whose items are in place. *)
Definition demo_parse : Parse := {|
  world := unit;
  ausearch_load_interpretations _ w := Some w;
  extract_search_items l w := Some (0, l, w);
  audit_elf_to_machine x := x;
|}.
Definition type_list : HitList.ilist :=
  HitList.HL {[ 1%nat := HitList.Node (HitList.IntNode 1307 1 0) None ]} (Some 1%nat) None 1.
Definition demo_state : @state demo_parse := @State demo_parse tt sample_list None (Some type_list).
Definition demo_view : view := View None (Some [HitList.IntNode 1307 1 0]) None None None.

Lemma type_list_rep : HitListFacts.rep type_list [(1%nat, HitList.IntNode 1307 1 0)].
Proof.
  constructor; cbn.
  - split; [done|]. exists None. by rewrite lookup_singleton_eq.
  - apply NoDup_singleton.
  - intros a. rewrite list_elem_of_singleton. split.
    + intros [n Hn]. by apply lookup_singleton_Some in Hn as [<- _].
    + intros ->. by rewrite lookup_singleton_eq.
  - done.
Qed.

Lemma match_conjunction_witness : exists st', @match_ demo_parse no_options demo_state = Some (true, st').
Proof.
  destruct (@match_conjunction demo_parse no_options sample_list demo_view demo_state demo_state 0 tt)
    as (st' & E).
  - reflexivity.
  - reflexivity.
  - constructor; try reflexivity. exists [(1%nat, HitList.IntNode 1307 1 0)].
    split; [exact type_list_rep|reflexivity].
  - split_and!; done.
  - discriminate.
  - right. left. reflexivity.
  - exists st'. exact E.
Defined.

End MatchFacts.
