(* ===== verification/Escape.v ===== *)
(** * Encoding and escaping of values (src/auparse/interpret.c, src/auparse/ellist.c,
    src/lib/audit_logging.c)

    Values that could be mistaken for something else are logged as hexadecimal
    digits; the parser library decodes them, and escapes what a terminal or a
    shell would interpret before it hands a value out.  A block of memory is the
    list of its characters; [None] is an access outside of one. *)
From S2P Require Import Prelude CString StrSplit.

Local Open Scope audit_scope.
Local Open Scope Z_scope.

Module Escape.

Abbreviation chars := (list ascii).

(** The value of a plain char, which is signed. *)
Definition schar (c : ascii) : Z := if code c <? 128 then code c else code c - 256.

Definition isxdigit (c : ascii) : bool := between 48 57 c || between 65 70 c || between 97 102 c.
Definition toupper (c : ascii) : ascii :=
  if between 97 122 c then chr (Z.to_nat (code c - 32)) else c.

Definition char_of (z : Z) : ascii := chr (Z.to_nat z).

Definition hex : chars := String.list_ascii_of_string "0123456789ABCDEF".

(** [strdup]: a block with the string and its NUL. *)
Definition strdup (s : chars) : chars := s ++ [NUL].

(** ** Encoding *)

(** [buf[i] & 0xF0] and [& 0x0F]. *)
Definition upper (c : ascii) : ascii := default NUL (hex !! Z.to_nat (Z.shiftr (Z.land (code c) 240) 4)).
Definition lower (c : ascii) : ascii := default NUL (hex !! Z.to_nat (Z.land (code c) 15)).

(** What [_audit_c2x] and [audit_encode_value] write before the NUL. *)
Definition encode (buf : chars) : chars := buf ≫= (fun c => [upper c; lower c]).

(** [_audit_c2x] of ellist.c: [final] is a block, [buf] the characters. *)
Definition _audit_c2x (final : chars) (buf : chars) : option chars :=
  let out := encode buf ++ [NUL] in
  if decide (length out <= length final)%nat then Some (out ++ drop (length out) final) else None.

(** [audit_encode_value]; [buf] is [None] for NULL. *)
Definition audit_encode_value (final : option chars) (buf : option chars) : option (option chars) :=
  match final with
  | None => Some None
  | Some final =>
      match buf with
      | None => if decide (0 < length final)%nat then Some (Some (<[O := NUL]> final)) else None
      | Some buf => block ← _audit_c2x final buf; Some (Some block)
      end
  end.

Definition audit_value_needs_encoding (str : option chars) : bool :=
  match str with
  | None => false
  | Some str => existsb (fun c => (c =c DQUOTE) || (schar c <? 33) || (code c =? 127)) str
  end.

Section memory.
(** What fresh memory holds. *)
Context (junk : ascii).

Definition malloc (n : nat) : chars := replicate n junk.

(** [audit_encode_nv_string] when memory can be had: [value] is the memory from
    the pointer on, [vlen] the number of its characters, 0 for the string. *)
Definition audit_encode_nv_string (name : chars) (value : option chars) (vlen : nat)
    : option chars :=
  let v := (fun m => if decide (vlen = O) then StrSplit.until_nul m else take vlen m) <$> value in
  if audit_value_needs_encoding v then
    v ← v;
    tmp ← audit_encode_value (Some (malloc (Z.to_nat (u32 (2 * Z.of_nat (length v) + 1))))) (Some v);
    tmp ← tmp;
    Some (name ++ ["="%char] ++ StrSplit.until_nul tmp)
  else
    Some (name ++ ["="%char; DQUOTE] ++ default ["?"%char] (StrSplit.until_nul <$> value) ++ [DQUOTE]).

(** [escape] of ellist.c. *)
Definition escape_key (tmp : chars) : option chars :=
  if existsb (fun p => (p =c DQUOTE) || (code p <? 33) || (126 <? code p)) tmp
  then block ← _audit_c2x (malloc (2 * length tmp + 1)) tmp; Some (StrSplit.until_nul block)
  else Some ([DQUOTE] ++ tmp ++ [DQUOTE]).

(** ** Decoding *)

(** The value of a digit: its place in the array, whose NUL counts. *)
Definition nibble (c : ascii) : Z :=
  match list_find (fun d => d = toupper c) (hex ++ [NUL]) with
  | Some (i, _) => Z.land (Z.of_nat i) 15
  | None => 0
  end.

Definition x2c (c0 c1 : ascii) : ascii := char_of ((Z.shiftl (nibble c0) 4 + nibble c1) mod 256).

(** The loop that decodes the block in place. *)
Fixpoint x2c_loop (fuel i ptr len : nat) (str : chars) : option (nat * chars) :=
  match fuel with
  | O => None
  | S fuel =>
      if decide (i < len)%nat then
        c0 ← str !! i;
        c1 ← str !! S i;
        x2c_loop fuel (S (S i)) (S ptr) len (<[ptr := x2c c0 c1]> str)
      else Some (ptr, str)
  end.

(** The part of the text that is decoded: the parentheses or the digits. *)
Definition name_end (buf : chars) : option nat :=
  match buf with
  | "("%char :: _ => (fun x => S x.1) <$> list_find (fun c => c = ")"%char) buf
  | _ => Some (match list_find (fun c => isxdigit c = false) buf with
               | Some (i, _) => i
               | None => length buf
               end)
  end.

(** [memset] to NUL. *)
Definition clear (at_ n : nat) (block : chars) : option chars :=
  if decide (at_ + n <= length block)%nat
  then Some (take at_ block ++ replicate n NUL ++ drop (at_ + n) block) else None.

(** [buf] is the text without its NUL; the result is NULL or the block. *)
Definition au_unescape (buf : chars) : option (option chars) :=
  match name_end buf with
  | None => Some None
  | Some ptr =>
      let olen := length buf in
      let str := take ptr buf ++ [NUL] ++ malloc (olen - ptr) in
      match buf with
      | "("%char :: _ => Some (Some str)
      | _ =>
          if decide (ptr < 2)%nat then Some None
          else
            '(p, str) ← x2c_loop (S ptr) 0 0 ptr str;
            let str := <[p := NUL]> str in
            let len := (p - 1)%nat in
            let olen := (olen / 2)%nat in
            str ← (if decide (len < olen)%nat then clear p (olen - len) str else Some str);
            Some (Some str)
      end
  end.

(** [print_escaped]: the block it returns. *)
Definition print_escaped (val : chars) : option chars :=
  match val with
  | c :: val' =>
      if c =c DQUOTE then
        match list_find (fun d => d = DQUOTE) val' with
        | None => Some (strdup [" "%char])
        | Some (i, _) => Some (strdup (take i val'))
        end
      else
        out ← au_unescape (match val with
                           | "0"%char :: "0"%char :: rest => rest
                           | _ => val
                           end);
        Some (default (strdup val) out)
  | [] =>
      out ← au_unescape [];
      Some (default (strdup []) out)
  end.

(** The NULs before [end_] become blanks; rawmemchr() must find one. *)
Fixpoint blank_nuls (fuel ptr end_ : nat) (out : chars) : option chars :=
  match fuel with
  | O => None
  | S fuel =>
      '(i, _) ← list_find (fun c => c = NUL) (drop ptr out);
      let q := (ptr + i)%nat in
      if decide (end_ <= q)%nat then Some out
      else blank_nuls fuel (S q) end_ (<[q := " "%char]> out)
  end.

Definition print_proctitle (val : chars) : option chars :=
  out ← print_escaped val;
  match val with
  | c :: _ => if c =c DQUOTE then Some out
              else blank_nuls (S (length out)) 0 (length val / 2) out
  | [] => blank_nuls (S (length out)) 0 0 out
  end.

(** ** Escaping *)

Inductive auparse_esc_t :=
  AUPARSE_ESC_RAW | AUPARSE_ESC_TTY | AUPARSE_ESC_SHELL | AUPARSE_ESC_SHELL_QUOTE.

#[global] Instance auparse_esc_eq_dec : EqDecision auparse_esc_t.
Proof. solve_decision. Defined.

Definition sh_set : chars := DQUOTE :: String.list_ascii_of_string "'`$" ++ BACKSLASH :: String.list_ascii_of_string "!()| ".
Definition quote_set : chars := sh_set ++ String.list_ascii_of_string ";#&*?[]<>{}".

(** [strchr(set, c) != NULL], which finds the NUL too. *)
Definition in_set (set : chars) (c : ascii) : bool :=
  bool_decide (c ∈ set ++ [NUL]).

(** Counters are [unsigned int]. *)
Definition count (p : ascii -> bool) (s : chars) : Z := u32 (Z.of_nat (length (List.filter p s))).

Definition need_tty_escape (s : chars) : Z := count (fun c => code c <? 32) s.
Definition need_shell_escape (s : chars) : Z :=
  count (fun c => (schar c <? 32) || in_set sh_set c) s.
Definition need_shell_quote_escape (s : chars) : Z :=
  count (fun c => (code c <? 32) || in_set quote_set c) s.

Definition need_escaping (s : chars) (escape_mode : auparse_esc_t) : Z :=
  match escape_mode with
  | AUPARSE_ESC_RAW => 0
  | AUPARSE_ESC_TTY => need_tty_escape s
  | AUPARSE_ESC_SHELL => need_shell_escape s
  | AUPARSE_ESC_SHELL_QUOTE => need_shell_quote_escape s
  end.

(** [dest[j++] = c] into a block of [cap] characters, of which [dest] are
    written. *)
Definition put (cap : Z) (dest : chars) (c : ascii) : option chars :=
  if Z.of_nat (length dest) <? cap then Some (dest ++ [c]) else None.

Fixpoint puts (cap : Z) (dest : chars) (cs : chars) : option chars :=
  match cs with
  | [] => Some dest
  | c :: cs => dest ← put cap dest c; puts cap dest cs
  end.

(** Backslash and three octal digits. *)
Definition octal (c : ascii) : chars :=
  [BACKSLASH; char_of (48 + Z.shiftr (Z.land (code c) 192) 6);
   char_of (48 + Z.shiftr (Z.land (code c) 56) 3); char_of (48 + Z.land (code c) 7)].

(** What the loops write for a character. *)
Definition tty_char (c : ascii) : chars := if code c <? 32 then octal c else [c].
Definition shell_char (set : chars) (c : ascii) : chars :=
  if code c <? 32 then octal c else if in_set set c then [BACKSLASH; c] else [c].

Fixpoint escape_loop (cap : Z) (f : ascii -> chars) (s dest : chars) : option chars :=
  match s with
  | [] => _ ← put cap dest NUL; Some dest
  | c :: s => dest ← puts cap dest (f c); escape_loop cap f s dest
  end.

Definition tty_escape (cap : Z) (s dest : chars) := escape_loop cap tty_char s dest.
Definition shell_escape (cap : Z) (s dest : chars) := escape_loop cap (shell_char sh_set) s dest.
Definition shell_quote_escape (cap : Z) (s dest : chars) :=
  escape_loop cap (shell_char quote_set) s dest.

(** [dest] is what the block holds before the place written to. *)
Definition escape (cap : Z) (s dest : chars) (escape_mode : auparse_esc_t) : option chars :=
  match escape_mode with
  | AUPARSE_ESC_RAW => Some dest
  | AUPARSE_ESC_TTY => tty_escape cap s dest
  | AUPARSE_ESC_SHELL => shell_escape cap s dest
  | AUPARSE_ESC_SHELL_QUOTE => shell_quote_escape cap s dest
  end.

Definition AUDIT_KEY_SEPARATOR : ascii := chr 1.

(** The text up to the separator or the end, and what follows: [None] at the
    end. *)
Fixpoint cut_key (s : chars) : chars * option chars :=
  match s with
  | [] => ([], None)
  | c :: s => if c =c AUDIT_KEY_SEPARATOR then ([], Some s)
              else let (k, r) := cut_key s in (c :: k, r)
  end.

(** [key_escape]; [dest] is what is in front of [dptr].  The loop ends in two ways:
    behind the last key, where [tmp] is the NUL that ends [dest], and behind a
    separator that is the last character (or on an empty text), where no NUL was
    put: the text in [dest] goes on with memory that was not written, [None]. *)
Fixpoint key_escape (fuel : nat) (cap : Z) (orig dest : chars) (escape_mode : auparse_esc_t)
    : option chars :=
  match fuel with
  | O => None
  | S fuel =>
      match orig with
      | [] => None
      | _ =>
          let (optr, rest) := cut_key orig in
          dest ← (if need_escaping optr escape_mode =? 0
                  then dest ← puts cap dest optr; _ ← put cap dest NUL; Some dest
                  else escape cap optr dest escape_mode);
          match rest with
          | None => Some dest
          | Some rest =>
              dest ← put cap dest AUDIT_KEY_SEPARATOR;
              key_escape fuel cap rest dest escape_mode
          end
      end
  end.

(** The loop that adds up the counts of the keys. *)
Fixpoint count_keys (fuel : nat) (ptr : chars) (escape_mode : auparse_esc_t) : option Z :=
  match fuel with
  | O => None
  | S fuel =>
      match ptr with
      | [] => Some 0
      | _ =>
          let (key, rest) := cut_key ptr in
          n ← count_keys fuel (default [] rest) escape_mode;
          Some (need_escaping key escape_mode +u n)
      end
  end.

(** The end of [auparse_do_interpretation]: [is_key] for the type of keys, [out]
    the text. *)
Definition escape_output (is_key : bool) (escape_mode : auparse_esc_t) (out : chars)
    : option chars :=
  match escape_mode with
  | AUPARSE_ESC_RAW => Some out
  | _ =>
      let len := u32 (Z.of_nat (length out)) in
      if is_key && bool_decide (AUDIT_KEY_SEPARATOR ∈ out) then
        cnt ← count_keys (S (length out)) out escape_mode;
        if cnt =? 0 then Some out
        else key_escape (S (length out)) (u32 (len + 1 + 3 * cnt)) out [] escape_mode
      else
        let cnt := need_escaping out escape_mode in
        if cnt =? 0 then Some out
        else escape (u32 (len + 1 + 3 * cnt)) out [] escape_mode
  end.

End memory.

End Escape.
