(* ===== verification/EscapeFacts.v ===== *)
(** * Encoding and escaping: values come back, buffers are large enough *)
From S2P Require Import Prelude CString StrSplit Escape.

Local Open Scope audit_scope.
Local Open Scope Z_scope.

Module EscapeFacts.
Import Escape.

(** Facts on single characters are checked on all 256 of them. *)
Ltac each_char c := destruct c as [[] [] [] [] [] [] [] []]; vm_compute; try reflexivity.

Lemma x2c_digits c : x2c (upper c) (lower c) = c.
Proof. each_char c. Qed.

Lemma upper_xdigit c : isxdigit (upper c) = true.
Proof. each_char c. Qed.

Lemma lower_xdigit c : isxdigit (lower c) = true.
Proof. each_char c. Qed.

(** Digits are neither quotes, parentheses, blanks nor NUL. *)
Lemma xdigit_plain c :
  isxdigit c = true -> c <> DQUOTE /\ c <> "("%char /\ c <> " "%char /\ c <> NUL.
Proof. each_char c; intros; try discriminate; repeat split; discriminate. Qed.

Lemma digits_nul c : upper c = "0"%char -> lower c = "0"%char -> c = NUL.
Proof. each_char c; intros; discriminate. Qed.

Lemma encode_cons c s : encode (c :: s) = upper c :: lower c :: encode s.
Proof. reflexivity. Qed.

Lemma encode_app s t : encode (s ++ t) = encode s ++ encode t.
Proof. apply bind_app. Qed.

Lemma encode_length s : length (encode s) = (2 * length s)%nat.
Proof. induction s as [|c s IH]; [done|]. rewrite encode_cons. cbn [length]. lia. Qed.

Lemma encode_xdigit s : Forall (fun c => isxdigit c = true) (encode s).
Proof.
  induction s as [|c s IH]; [constructor|]. rewrite encode_cons.
  repeat constructor; [apply upper_xdigit|apply lower_xdigit|done].
Qed.

Lemma encode_no_nul s : NUL ∉ encode s.
Proof.
  intros Hin. pose proof (encode_xdigit s) as H. rewrite Forall_forall in H.
  by destruct (xdigit_plain NUL (H _ Hin)) as (_ & _ & _ & ?).
Qed.

(** ** Decoding undoes encoding *)

Lemma x2c_loop_spec s2 : forall s1 blk fuel rest,
  (length s2 < fuel)%nat -> take (length s1) blk = s1 ->
  drop (2 * length s1) blk = encode s2 ++ rest ->
  exists blk', x2c_loop fuel (2 * length s1) (length s1) (2 * (length s1 + length s2)) blk
      = Some ((length s1 + length s2)%nat, blk') /\
    take (length s1 + length s2) blk' = s1 ++ s2 /\ length blk' = length blk.
Proof.
  induction s2 as [|c s2 IH]; intros s1 blk fuel rest Hf Ht Hd.
  - destruct fuel as [|fuel]; [lia|]. cbn [x2c_loop length].
    rewrite decide_False by lia. rewrite Nat.add_0_r, app_nil_r. by exists blk.
  - destruct fuel as [|fuel]; [lia|]. cbn [x2c_loop]. cbn [length] in Hf |- *.
    rewrite decide_True by lia. rewrite encode_cons in Hd.
    assert (blk !! (2 * length s1)%nat = Some (upper c)) as E0.
    { rewrite <-(Nat.add_0_r (2 * _)), <-lookup_drop, Hd. done. }
    assert (blk !! S (2 * length s1) = Some (lower c)) as E1.
    { replace (S (2 * length s1)) with (2 * length s1 + 1)%nat by lia.
      rewrite <-lookup_drop, Hd. done. }
    rewrite E0, E1. cbn [mbind option_bind]. rewrite x2c_digits.
    pose proof (lookup_lt_Some _ _ _ E0) as Hl.
    destruct (IH (s1 ++ [c]) (<[length s1 := c]> blk) fuel rest) as (blk' & E & Ht' & Hl').
    + lia.
    + rewrite length_app. cbn [length]. rewrite Nat.add_1_r.
      erewrite take_S_r by (apply list_lookup_insert_eq; lia).
      by rewrite take_insert_ge, Ht by lia.
    + rewrite length_app. cbn [length]. rewrite drop_insert_lt by lia.
      replace (2 * (length s1 + 1))%nat with (2 * length s1 + 2)%nat by lia.
      rewrite <-drop_drop, Hd. done.
    + rewrite length_app in E, Ht'. cbn [length] in E, Ht'.
      replace (2 * (length s1 + 1))%nat with (S (S (2 * length s1))) in E by lia.
      replace (length s1 + 1)%nat with (S (length s1)) in E by lia.
      replace (2 * (length s1 + S (length s2)))%nat with (2 * (S (length s1) + length s2))%nat by lia.
      exists blk'. replace (length s1 + S (length s2))%nat with (S (length s1) + length s2)%nat by lia.
      rewrite E. split; [done|].
      replace (S (length s1) + length s2)%nat with (length s1 + 1 + length s2)%nat by lia.
      rewrite Ht', Hl', length_insert, <-app_assoc. done.
Qed.

Lemma name_end_encode s : name_end (encode s) = Some (length (encode s)).
Proof.
  pose proof (encode_xdigit s) as H. unfold name_end.
  replace (list_find (fun c => isxdigit c = false) (encode s)) with (@None (nat * ascii)).
  2: { symmetry. apply list_find_None. eapply Forall_impl; [exact H|]. cbn. congruence. }
  destruct (encode s) as [|c t] eqn:E; [done|]. apply Forall_cons in H as [Hc _].
  destruct (xdigit_plain c Hc) as (_ & Hp & _). clear E.
  destruct c as [[] [] [] [] [] [] [] []]; done.
Qed.

(** The block of a decoded text: the text, NUL, and what was behind. *)
Lemma au_unescape_encode junk s :
  s <> [] -> exists blk, au_unescape junk (encode s) = Some (Some blk) /\
    take (S (length s)) blk = s ++ [NUL] /\ length blk = S (2 * length s).
Proof.
  intros Hne. unfold au_unescape. rewrite name_end_encode, firstn_all, Nat.sub_diag.
  cbn [malloc replicate]. rewrite app_nil_r.
  assert (length (encode s) <> 0%nat) as Hn by (rewrite encode_length; destruct s; cbn; [done|lia]).
  destruct (encode s) as [|c t] eqn:Ee; [done|]. rewrite <-Ee in *.
  assert (c <> "("%char) as Hc.
  { pose proof (encode_xdigit s) as H. rewrite Ee in H. apply Forall_cons in H as [H _].
    by apply xdigit_plain. }
  assert (forall (A : Type) (x y : A),
    match c with "("%char => x | _ => y end = y) as Hm.
  { intros A x y. clear -Hc. by destruct c as [[] [] [] [] [] [] [] []]. }
  rewrite Hm. rewrite encode_length in *. rewrite decide_False by lia.
  destruct (x2c_loop_spec s [] (encode s ++ [NUL]) (S (2 * length s)) [NUL])
    as (blk & E & Ht & Hl); [lia|done|done|].
  cbn [length] in E, Ht. rewrite Nat.mul_0_r, Nat.add_0_l in E. rewrite Ee in E |- *.
  rewrite E. cbn [mbind option_bind]. rewrite Nat.add_0_l in Ht. cbn [app] in Ht.
  rewrite length_app, encode_length in Hl. cbn [length] in Hl.
  replace (2 * length s / 2)%nat with (length s) by (symmetry; rewrite Nat.mul_comm; apply Nat.div_mul; lia).
  assert (length s <> 0)%nat by lia.
  rewrite decide_True by lia. replace (length s - (length s - 1))%nat with 1%nat by lia.
  unfold clear. rewrite length_insert, decide_True by lia. cbn [mbind option_bind].
  eexists. split; [done|]. split.
  - rewrite take_app_ge by (rewrite length_take, length_insert; lia).
    rewrite length_take, length_insert. rewrite take_insert_ge by lia.
    rewrite Ht. replace (S (length s) - (length s `min` length blk))%nat with 1%nat by lia. done.
  - rewrite !length_app, length_take, length_drop, length_insert, length_replicate. lia.
Qed.

Lemma until_nul_take s n blk :
  NUL ∉ s -> take n blk = s ++ [NUL] -> StrSplit.until_nul blk = s.
Proof.
  intros Hs Ht. rewrite <-(take_drop n blk), Ht, <-app_assoc.
  by apply StrSplit.until_nul_text.
Qed.

Lemma until_nul_id s : NUL ∉ s -> StrSplit.until_nul (s ++ [NUL]) = s.
Proof. by apply StrSplit.until_nul_text. Qed.

(** Text that does not start with a NUL is decoded from its digits. *)
Lemma print_escaped_encode junk c s :
  c <> NUL -> exists blk, print_escaped junk (encode (c :: s)) = Some blk /\
    take (S (length (c :: s))) blk = (c :: s) ++ [NUL] /\ length blk = S (2 * length (c :: s)).
Proof.
  intros Hc. destruct (au_unescape_encode junk (c :: s)) as (blk & E & Ht & Hl); [done|].
  exists blk. split; [|done]. rewrite encode_cons in *. cbn [print_escaped].
  destruct (xdigit_plain _ (upper_xdigit c)) as (Hq & _).
  destruct (upper c =c DQUOTE) eqn:Eq; [by apply char_eq_true in Eq|].
  assert (match upper c :: lower c :: encode s with
          | "0"%char :: "0"%char :: rest => rest
          | _ => upper c :: lower c :: encode s
          end = upper c :: lower c :: encode s) as ->.
  { destruct (decide (upper c = "0"%char)) as [Eu|Eu].
    - rewrite Eu. destruct (decide (lower c = "0"%char)) as [El|El].
      + by destruct Hc; apply digits_nul.
      + clear -El. by destruct (lower c) as [[] [] [] [] [] [] [] []].
    - clear -Eu. by destruct (upper c) as [[] [] [] [] [] [] [] []]. }
  rewrite E. done.
Qed.

(** A value in quotes is what is between them. *)
Lemma print_escaped_quoted junk s :
  DQUOTE ∉ s -> print_escaped junk ([DQUOTE] ++ s ++ [DQUOTE]) = Some (s ++ [NUL]).
Proof.
  intros Hs. cbn [app print_escaped].
  replace (DQUOTE =c DQUOTE) with true by done.
  assert (list_find (fun d => d = DQUOTE) (s ++ [DQUOTE]) = Some (length s, DQUOTE)) as ->.
  { apply list_find_Some. split; [by rewrite lookup_app_r, Nat.sub_diag by lia|]. split; [done|].
    intros j y Hj Hlt ->. rewrite lookup_app_l in Hj by done. apply Hs. by eapply list_elem_of_lookup_2. }
  by rewrite take_app_length.
Qed.

(** What a value is logged as, and that it is read back. *)
Definition shown (junk : ascii) (enc v : chars) : Prop :=
  exists blk, print_escaped junk enc = Some blk /\ StrSplit.until_nul blk = v.

Lemma c2x_fits final s :
  (2 * length s < length final)%nat ->
  exists blk, _audit_c2x final s = Some blk /\ StrSplit.until_nul blk = encode s.
Proof.
  intros Hl. unfold _audit_c2x. rewrite decide_True by (rewrite length_app, encode_length; cbn; lia).
  eexists. split; [done|]. rewrite <-app_assoc. apply StrSplit.until_nul_text, encode_no_nul.
Qed.

Lemma shown_encode junk s : s <> [] -> NUL ∉ s -> shown junk (encode s) s.
Proof.
  intros Hne Hn. destruct s as [|c s]; [done|].
  destruct (print_escaped_encode junk c s) as (blk & E & Ht & _).
  { intros ->. apply Hn. by left. }
  exists blk. split; [done|]. by eapply until_nul_take.
Qed.

Lemma shown_quoted junk s : DQUOTE ∉ s -> NUL ∉ s -> shown junk ([DQUOTE] ++ s ++ [DQUOTE]) s.
Proof.
  intros Hq Hn. eexists. split; [by apply print_escaped_quoted|]. by apply until_nul_id.
Qed.

Lemma existsb_elem {A} (p : A -> bool) x s : x ∈ s -> existsb p s = false -> p x = false.
Proof.
  induction 1 as [x s|x y s _ IH]; cbn; intros [Hp Hs]%orb_false_elim; [done|by apply IH].
Qed.

(** [escape] of ellist.c: what it makes of a key is read back. *)
Lemma escape_key_shown junk s :
  NUL ∉ s -> exists enc, escape_key junk s = Some enc /\ shown junk enc s.
Proof.
  intros Hn. unfold escape_key. destruct (existsb _ s) eqn:Ex.
  - destruct (c2x_fits (malloc junk (2 * length s + 1)) s) as (blk & -> & Hb).
    { unfold malloc. rewrite length_replicate. lia. }
    cbn [mbind option_bind]. eexists. split; [done|]. rewrite Hb. apply shown_encode; [|done].
    by destruct s.
  - eexists. split; [done|]. apply shown_quoted; [|done].
    intros Hin. by pose proof (existsb_elem _ _ _ Hin Ex).
Qed.

(** C22: a value logged by [audit_encode_nv_string], whatever characters it has, is
    what [print_escaped] of the parser library shows for it. *)
Theorem logged_value_shown junk name v :
  NUL ∉ v -> 2 * Z.of_nat (length v) + 1 < two32 ->
  exists enc, audit_encode_nv_string junk name (Some (v ++ [NUL])) 0 = Some (name ++ ["="%char] ++ enc) /\
    exists blk, print_escaped junk enc = Some blk /\ StrSplit.until_nul blk = v.
Proof.
  intros Hn Hl. unfold audit_encode_nv_string. cbn [fmap option_fmap option_map].
  rewrite decide_True, (until_nul_id v Hn) by done.
  destruct (audit_value_needs_encoding (Some v)) eqn:Ex; cbn [audit_value_needs_encoding] in Ex.
  - cbn [mbind option_bind audit_encode_value].
    destruct (c2x_fits (malloc junk (Z.to_nat (u32 (2 * Z.of_nat (length v) + 1)))) v) as (blk & -> & Hb).
    { unfold malloc. rewrite length_replicate, u32_small by lia. lia. }
    cbn [mbind option_bind]. rewrite Hb. eexists. split; [done|]. apply shown_encode; [|done].
    by destruct v.
  - cbn [default]. eexists. split; [done|]. apply (shown_quoted junk v); [|done].
    intros Hin. by pose proof (existsb_elem _ _ _ Hin Ex).
Qed.

(** ** Process titles *)

(** NULs become blanks. *)
Definition blank (c : ascii) : ascii := if c =c NUL then " "%char else c.

Lemma blank_nuls_spec t : forall s out fuel rest,
  (length (List.filter (fun c => c =c NUL) t) < fuel)%nat ->
  out = s ++ t ++ NUL :: rest ->
  blank_nuls fuel (length s) (length s + length t) out = Some (s ++ (blank <$> t) ++ NUL :: rest).
Proof.
  intros s out fuel. revert t s out. induction fuel as [|fuel IH]; intros t s out rest Hf ->; [lia|].
  cbn [blank_nuls]. rewrite drop_app_length.
  destruct (list_find (fun c => c = NUL) t) as [[i c]|] eqn:E.
  - pose proof E as (Hi & -> & Hb)%list_find_Some.
    rewrite (list_find_app_l _ _ _ _ _ E). cbn [mbind option_bind].
    pose proof (lookup_lt_Some _ _ _ Hi) as Hlt. rewrite decide_False by lia.
    pose proof (take_drop_middle _ _ _ Hi) as Et. set (a := take i t) in *. set (b := drop (S i) t) in *.
    assert (length a = i) as Ha by (apply length_take_le; lia).
    assert (forall a, (forall x, x ∈ a -> x <> NUL) -> blank <$> a = a /\ List.filter (fun c => c =c NUL) a = []) as Hid.
    { clear. induction a as [|x a IH]; intros Hx; [done|]. destruct IH as [E1 E2]; [set_solver|].
      cbn. rewrite E1, E2. unfold blank. destruct (x =c NUL) eqn:Ex; [|done].
      apply char_eq_true in Ex. by destruct (Hx x); [left|]. }
    destruct (Hid a) as [E1 E2].
    { intros x [j Hj]%list_elem_of_lookup ->. apply lookup_take_Some in Hj as [Hj Hjl]. by eapply Hb. }
    rewrite <-Et in Hf |- *. rewrite List.filter_app, E2 in Hf.
    cbn [List.filter app] in Hf. change (NUL =c NUL) with true in Hf. cbn [length] in Hf.
    rewrite fmap_app, E1. cbn [fmap list_fmap]. change (blank NUL) with " "%char.
    specialize (IH b (s ++ a ++ [" "%char])).
    rewrite !length_app in IH. cbn [length] in IH.
    replace (S (length s + i)) with (length s + (length a + 1))%nat by lia.
    rewrite !length_app. cbn [length].
    replace (length s + (length a + S (length b)))%nat with (length s + (length a + 1) + length b)%nat by lia.
    rewrite (IH _ rest); [by rewrite <-!app_assoc|lia|].
    rewrite <-!app_assoc. cbn [app].
    rewrite insert_app_r_alt by lia. f_equal.
    rewrite insert_app_r_alt by lia. f_equal. by replace (length s + i - length s - length a)%nat with O by lia.
  - rewrite list_find_app_r by done.
    replace (list_find (fun c => c = NUL) (NUL :: rest)) with (Some (O, NUL)) by done.
    cbn [prod_map fst fmap option_fmap option_map mbind option_bind].
    rewrite decide_True by lia. do 3 f_equal.
    apply list_find_None in E. clear -E. induction E as [|x t Hx _ IH]; [done|]. cbn. rewrite <-IH.
    unfold blank. destruct (x =c NUL) eqn:Ex; [|done]. by apply char_eq_true in Ex.
Qed.

(** Arguments, one after the other. *)
Fixpoint join (sep : ascii) (args : list chars) : chars :=
  match args with
  | [] => []
  | [a] => a
  | a :: args => a ++ sep :: join sep args
  end.

Lemma blank_id (a : chars) : NUL ∉ a -> blank <$> a = a.
Proof.
  induction a as [|c a IH]; intros Hn; [done|]. apply not_elem_of_cons in Hn as [Hc Hn].
  cbn. rewrite IH by done. unfold blank. destruct (c =c NUL) eqn:E; [|done].
  apply char_eq_true in E. congruence.
Qed.

Lemma blank_join args :
  Forall (fun a => NUL ∉ a) args -> blank <$> join NUL args = join " "%char args /\
  (NUL ∉ join " "%char args).
Proof.
  induction 1 as [|a args Ha Hs IH]; [split; [done|apply not_elem_of_nil]|].
  destruct args as [|b args]; [by rewrite blank_id|]. destruct IH as [E Hn].
  change (join NUL (a :: b :: args)) with (a ++ NUL :: join NUL (b :: args)).
  change (join " "%char (a :: b :: args)) with (a ++ " "%char :: join " "%char (b :: args)).
  rewrite fmap_app, blank_id by done. cbn [fmap list_fmap]. split; [by rewrite <-E|].
  rewrite not_elem_of_app, not_elem_of_cons. split_and!; [done|discriminate|done].
Qed.

(** A process title, the arguments with NULs between them in hexadecimal
    digits, is shown as the arguments with blanks between them. *)
Theorem proctitle_shown junk c a args :
  Forall (fun a => NUL ∉ a) ((c :: a) :: args) ->
  exists blk, print_proctitle junk (encode (join NUL ((c :: a) :: args))) = Some blk /\
    StrSplit.until_nul blk = join " "%char ((c :: a) :: args).
Proof.
  intros Ha. destruct (blank_join _ Ha) as [Eb Hn].
  assert (exists t, join NUL ((c :: a) :: args) = c :: t) as [t Et] by (by destruct args; eexists).
  assert (c <> NUL) as Hc.
  { apply Forall_cons in Ha as [Ha _]. intros ->. apply Ha. by left. }
  rewrite Et in Eb |- *. destruct (print_escaped_encode junk c t Hc) as (blk & E & Ht & Hl).
  unfold print_proctitle. rewrite E. cbn [mbind option_bind].
  pose proof (encode_length (c :: t)) as He. rewrite encode_cons in He |- *.
  destruct (xdigit_plain _ (upper_xdigit c)) as (Hq & _).
  destruct (upper c =c DQUOTE) eqn:Eq; [by apply char_eq_true in Eq|]. rewrite He.
  replace (2 * length (c :: t) / 2)%nat with (length (c :: t))
    by (symmetry; rewrite Nat.mul_comm; apply Nat.div_mul; lia).
  pose proof (take_drop (S (length (c :: t))) blk) as Ed. rewrite Ht, <-app_assoc in Ed.
  pose proof (blank_nuls_spec (c :: t) [] blk (S (length blk)) (drop (S (length (c :: t))) blk)) as Hb.
  cbn [length app Nat.add] in Hb. cbn [length]. rewrite Hb; [|rewrite Hl; cbn [length]|by symmetry].
  - eexists. split; [done|]. rewrite Eb. by apply StrSplit.until_nul_text.
  - pose proof (List.filter_length_le (fun c => c =c NUL) (c :: t)). cbn [length] in *. lia.
Qed.

(** ** Escaping *)

Definition needs (escape_mode : auparse_esc_t) (c : ascii) : bool :=
  match escape_mode with
  | AUPARSE_ESC_RAW => false
  | AUPARSE_ESC_TTY => code c <? 32
  | AUPARSE_ESC_SHELL => (schar c <? 32) || in_set sh_set c
  | AUPARSE_ESC_SHELL_QUOTE => (code c <? 32) || in_set quote_set c
  end.

(** What a character is shown as. *)
Definition esc_char (escape_mode : auparse_esc_t) (c : ascii) : chars :=
  match escape_mode with
  | AUPARSE_ESC_RAW => [c]
  | AUPARSE_ESC_TTY => tty_char c
  | AUPARSE_ESC_SHELL => shell_char sh_set c
  | AUPARSE_ESC_SHELL_QUOTE => shell_char quote_set c
  end.

Lemma need_count mode s : need_escaping s mode = count (needs mode) s.
Proof. destruct mode; try done. cbn. unfold count. by induction s. Qed.

Lemma esc_char_length mode c : (length (esc_char mode c) <= if needs mode c then 4 else 1)%nat.
Proof. destruct mode; each_char c; lia. Qed.

Lemma esc_char_same mode c : needs mode c = false -> esc_char mode c = [c].
Proof. destruct mode; each_char c; discriminate. Qed.

(** A predicate that asks for more room than a function takes. *)
Record covers (p : ascii -> bool) (f : ascii -> chars) : Prop := Covers {
  cov_length : forall c, (length (f c) <= if p c then 4 else 1)%nat;
  cov_same : forall c, p c = false -> f c = [c];
}.

Lemma covers_mode mode : covers (needs mode) (esc_char mode).
Proof. split; [apply esc_char_length|apply esc_char_same]. Qed.

Lemma covers_length p f s :
  covers p f -> (length (s ≫= f) <= length s + 3 * length (List.filter p s))%nat.
Proof.
  intros [Hl _]. induction s as [|c s IH]; [done|].
  change ((c :: s) ≫= f) with (f c ++ (s ≫= f)). rewrite length_app. specialize (Hl c).
  cbn [length List.filter]. destruct (p c); cbn [length] in *; lia.
Qed.

Lemma covers_none p f s : covers p f -> List.filter p s = [] -> s ≫= f = s.
Proof.
  intros [_ Hs]. induction s as [|c s IH]; [done|]. cbn. destruct (p c) eqn:Ep; [done|].
  intros E. rewrite Hs by done. cbn. f_equal. by apply IH.
Qed.

Lemma count_small p s :
  Z.of_nat (length s) < two32 -> count p s = Z.of_nat (length (List.filter p s)).
Proof.
  intros Hs. unfold count. apply u32_small. pose proof (List.filter_length_le p s). lia.
Qed.

Lemma puts_spec cap cs dest :
  Z.of_nat (length dest + length cs) <= cap -> puts cap dest cs = Some (dest ++ cs).
Proof.
  revert dest. induction cs as [|c cs IH]; intros dest Hc; cbn; [by rewrite app_nil_r|].
  cbn in Hc. unfold put. destruct (Z.ltb_spec (Z.of_nat (length dest)) cap); [|lia].
  cbn. rewrite IH by (rewrite length_app; cbn; lia). by rewrite <-app_assoc.
Qed.

Lemma escape_loop_spec cap f s dest :
  Z.of_nat (length dest + length (s ≫= f)) < cap ->
  escape_loop cap f s dest = Some (dest ++ (s ≫= f)).
Proof.
  revert dest. induction s as [|c s IH]; intros dest Hc; cbn [escape_loop].
  - unfold put. cbn in Hc. destruct (Z.ltb_spec (Z.of_nat (length dest)) cap); [|lia].
    cbn. by rewrite app_nil_r.
  - change ((c :: s) ≫= f) with (f c ++ (s ≫= f)) in *. rewrite length_app in Hc.
    rewrite puts_spec by lia. cbn [mbind option_bind].
    rewrite IH by (rewrite length_app; lia). by rewrite <-app_assoc.
Qed.

Lemma escape_spec cap mode s dest :
  mode <> AUPARSE_ESC_RAW -> Z.of_nat (length dest + length (s ≫= esc_char mode)) < cap ->
  escape cap s dest mode = Some (dest ++ (s ≫= esc_char mode)).
Proof. intros Hm Hc. destruct mode; [done|..]; by apply escape_loop_spec. Qed.

(** Keys: the separators stay. *)
Definition keyed {A} (d : ascii -> A) (f : ascii -> A) (c : ascii) : A :=
  if c =c AUDIT_KEY_SEPARATOR then d c else f c.

Definition key_needs mode := keyed (fun _ => false) (needs mode).
Definition key_char mode := keyed (fun c => [c]) (esc_char mode).

Lemma covers_key mode : covers (key_needs mode) (key_char mode).
Proof.
  destruct (covers_mode mode) as [H1 H2].
  split; intros c; unfold key_needs, key_char, keyed; destruct (c =c AUDIT_KEY_SEPARATOR); auto.
Qed.

Lemma cut_key_spec s :
  let (k, r) := cut_key s in
  s = k ++ from_option (cons AUDIT_KEY_SEPARATOR) [] r /\ (AUDIT_KEY_SEPARATOR ∉ k).
Proof.
  induction s as [|c s IH]; cbn; [split; [done|apply not_elem_of_nil]|].
  destruct (c =c AUDIT_KEY_SEPARATOR) eqn:E.
  - apply char_eq_true in E as ->. split; [done|apply not_elem_of_nil].
  - destruct (cut_key s) as [k r]. destruct IH as [-> Hk]. split; [done|].
    apply not_elem_of_cons. split; [|done]. intros <-. by rewrite Ascii.eqb_refl in E.
Qed.

Lemma key_same mode k :
  AUDIT_KEY_SEPARATOR ∉ k ->
  k ≫= key_char mode = k ≫= esc_char mode /\
  List.filter (key_needs mode) k = List.filter (needs mode) k.
Proof.
  induction k as [|c k IH]; intros Hk; [done|]. apply not_elem_of_cons in Hk as [Hc Hk].
  destruct (IH Hk) as [E1 E2].
  assert (key_char mode c = esc_char mode c /\ key_needs mode c = needs mode c) as [F1 F2].
  { unfold key_char, key_needs, keyed.
    destruct (c =c AUDIT_KEY_SEPARATOR) eqn:E; [apply char_eq_true in E; congruence|done]. }
  change ((c :: k) ≫= key_char mode) with (key_char mode c ++ (k ≫= key_char mode)).
  cbn [List.filter]. by rewrite E1, E2, F1, F2.
Qed.

(** Writing one key, whichever branch does it. *)
Lemma write_key cap mode k dest :
  mode <> AUPARSE_ESC_RAW -> Z.of_nat (length k) < two32 ->
  Z.of_nat (length dest + length (k ≫= esc_char mode)) < cap ->
  (if need_escaping k mode =? 0
   then dest ← puts cap dest k; _ ← put cap dest NUL; Some dest
   else escape cap k dest mode) = Some (dest ++ (k ≫= esc_char mode)).
Proof.
  intros Hm Hk Hc. rewrite need_count, count_small by done.
  destruct (Z.eqb_spec (Z.of_nat (length (List.filter (needs mode) k))) 0) as [E|E];
    [|by apply escape_spec].
  assert (k ≫= esc_char mode = k) as Ek.
  { eapply covers_none; [apply covers_mode|]. by destruct (List.filter _ k). }
  rewrite Ek in Hc |- *. rewrite puts_spec by lia. cbn. unfold put. rewrite length_app.
  by destruct (Z.ltb_spec (Z.of_nat (length dest + length k)) cap); [|lia].
Qed.

(** Nothing ends the copy of a text that is empty or ends with a separator. *)
Definition unended (s : chars) : bool :=
  match last s with None => true | Some c => c =c AUDIT_KEY_SEPARATOR end.

Lemma unended_cut k r : unended (k ++ AUDIT_KEY_SEPARATOR :: r) = unended r.
Proof.
  unfold unended. rewrite last_app, last_cons. by destruct (last r).
Qed.

Lemma unended_key k : k <> [] -> (AUDIT_KEY_SEPARATOR ∉ k) -> unended k = false.
Proof.
  intros Hne Hk. unfold unended. destruct (last k) as [c|] eqn:E; [|by apply last_None in E].
  apply last_Some in E as [k' ->]. destruct (c =c AUDIT_KEY_SEPARATOR) eqn:Ec; [|done].
  apply char_eq_true in Ec as ->. exfalso. apply Hk, elem_of_app. right. by left.
Qed.

Lemma key_escape_spec fuel cap mode orig dest :
  mode <> AUPARSE_ESC_RAW -> Z.of_nat (length orig) < two32 -> (length orig < fuel)%nat ->
  Z.of_nat (length dest + length (orig ≫= key_char mode)) < cap ->
  key_escape fuel cap orig dest mode = if unended orig then None else Some (dest ++ (orig ≫= key_char mode)).
Proof.
  intros Hm. revert orig dest. induction fuel as [|fuel IH]; intros orig dest Ho Hf Hc; [lia|].
  cbn [key_escape]. destruct orig as [|c orig]; [done|].
  pose proof (cut_key_spec (c :: orig)) as Hk. destruct (cut_key (c :: orig)) as [k r].
  destruct Hk as [E Hk]. assert (r = None -> k <> []) as Hne by (intros -> ->; done).
  rewrite E, bind_app, (proj1 (key_same mode k Hk)) in *.
  clear E c orig. rewrite !length_app in *. rewrite write_key by (done || lia).
  cbn [mbind option_bind]. destruct r as [r|]; cbn [from_option length] in *.
  2: { rewrite app_nil_r, unended_key by auto. cbn. by rewrite app_nil_r. }
  rewrite unended_cut.
  change ((AUDIT_KEY_SEPARATOR :: r) ≫= key_char mode)
    with ([AUDIT_KEY_SEPARATOR] ++ (r ≫= key_char mode)) in *.
  rewrite length_app in Hc. cbn [length] in Hc. unfold put. rewrite length_app.
  destruct (Z.ltb_spec (Z.of_nat (length dest + length (k ≫= esc_char mode))) cap); [|lia].
  cbn [mbind option_bind].
  rewrite IH; [by rewrite <-!app_assoc|lia|lia|]. rewrite !length_app. cbn [length]. lia.
Qed.

Lemma count_keys_spec fuel mode s :
  (length s < fuel)%nat -> Z.of_nat (length s) < two32 ->
  count_keys fuel s mode = Some (Z.of_nat (length (List.filter (key_needs mode) s))).
Proof.
  revert s. induction fuel as [|fuel IH]; intros s Hf Hs; [lia|].
  cbn [count_keys]. destruct s as [|c s]; [done|].
  pose proof (cut_key_spec (c :: s)) as Hk. destruct (cut_key (c :: s)) as [k r].
  destruct Hk as [E Hk]. pose proof (f_equal length E) as He. cbn [length] in He.
  rewrite E in Hf, Hs |- *. clear E. rewrite length_app in *.
  assert (Z.of_nat (length (List.filter (key_needs mode) (k ++ from_option (cons AUDIT_KEY_SEPARATOR) [] r)))
    = Z.of_nat (length (List.filter (needs mode) k) + length (List.filter (key_needs mode) (default [] r)))) as ->.
  { rewrite List.filter_app, length_app, (proj2 (key_same mode k Hk)). by destruct r. }
  assert (length (default [] r) <= length (from_option (cons AUDIT_KEY_SEPARATOR) [] r))%nat
    as Hr by (destruct r; cbn; lia).
  assert (default [] r = [] \/ length (default [] r) < length (from_option (cons AUDIT_KEY_SEPARATOR) [] r))%nat
    as Hr' by (destruct r; cbn; [right; lia|by left]).
  pose proof (List.filter_length_le (needs mode) k).
  pose proof (List.filter_length_le (key_needs mode) (default [] r)).
  assert (count_keys fuel (default [] r) mode
    = Some (Z.of_nat (length (List.filter (key_needs mode) (default [] r))))) as ->.
  { destruct Hr' as [E|]; [|by apply IH; lia].
    rewrite E. destruct fuel as [|fuel]; [lia|done]. }
  cbn [mbind option_bind]. rewrite need_count, count_small by lia.
  rewrite u32_small by lia. f_equal. lia.
Qed.

(** The text a mode shows. *)
Definition shown_as (is_key : bool) (mode : auparse_esc_t) (out : chars) : chars :=
  out ≫= (if is_key && bool_decide (AUDIT_KEY_SEPARATOR ∈ out) then key_char mode else esc_char mode).

Lemma escape_cap cnt out p f :
  covers p f -> cnt = Z.of_nat (length (List.filter p out)) -> 4 * Z.of_nat (length out) + 1 < two32 ->
  Z.of_nat (length (out ≫= f)) < u32 (u32 (Z.of_nat (length out)) + 1 + 3 * cnt).
Proof.
  intros Hc -> Hl. pose proof (covers_length p f out Hc). pose proof (List.filter_length_le p out).
  rewrite (u32_small (Z.of_nat _)) by lia. rewrite u32_small by lia. lia.
Qed.

Lemma shown_raw out is_key : shown_as is_key AUPARSE_ESC_RAW out = out.
Proof.
  unfold shown_as. destruct (is_key && _);
    (eapply covers_none; [apply covers_key || apply covers_mode|]); induction out as [|c out IH]; try done.
  cbn. unfold key_needs, keyed. by destruct (c =c _).
Qed.

(** A list of keys whose last character is a separator, and with something to escape. *)
Definition dangling (is_key : bool) (mode : auparse_esc_t) (out : chars) : bool :=
  is_key && bool_decide (last out = Some AUDIT_KEY_SEPARATOR) && existsb (key_needs mode) out.

Lemma existsb_filter {A} (p : A -> bool) l : existsb p l = negb (Z.of_nat (length (List.filter p l)) =? 0).
Proof. induction l as [|x l IH]; [done|]. cbn. rewrite IH. by destruct (p x). Qed.

Lemma unended_last out : AUDIT_KEY_SEPARATOR ∈ out ->
  unended out = bool_decide (last out = Some AUDIT_KEY_SEPARATOR).
Proof.
  intros Hin. unfold unended. destruct (last out) as [c|] eqn:E.
  - destruct (c =c AUDIT_KEY_SEPARATOR) eqn:Ec.
    + apply char_eq_true in Ec as ->. by rewrite bool_decide_true.
    + rewrite bool_decide_false; [done|]. intros [= ->]. by rewrite Ascii.eqb_refl in Ec.
  - apply last_None in E as ->. by apply not_elem_of_nil in Hin.
Qed.

Lemma escape_output_shown is_key mode out :
  4 * Z.of_nat (length out) + 1 < two32 ->
  escape_output is_key mode out = if dangling is_key mode out then None else Some (shown_as is_key mode out).
Proof.
  intros Hl. destruct (decide (mode = AUPARSE_ESC_RAW)) as [->|Hm].
  { rewrite shown_raw. replace (dangling _ _ _) with false; [done|]. unfold dangling.
    rewrite existsb_filter. replace (List.filter _ out) with (@nil ascii); [by rewrite andb_false_r|].
    symmetry. induction out as [|c out IH]; [done|]. cbn [List.filter]. unfold key_needs at 1, keyed.
    cbn [length] in Hl. rewrite IH by lia. by destruct (c =c _). }
  assert (escape_output is_key mode out =
    (if is_key && bool_decide (AUDIT_KEY_SEPARATOR ∈ out) then
       cnt ← count_keys (S (length out)) out mode;
       if cnt =? 0 then Some out
       else key_escape (S (length out)) (u32 (u32 (Z.of_nat (length out)) + 1 + 3 * cnt)) out [] mode
     else if need_escaping out mode =? 0 then Some out
          else escape (u32 (u32 (Z.of_nat (length out)) + 1 + 3 * need_escaping out mode)) out [] mode))
    as -> by (by destruct mode).
  unfold shown_as, dangling. destruct is_key, (decide (AUDIT_KEY_SEPARATOR ∈ out)) as [Hin|Hin].
  2: rewrite (bool_decide_false (last out = _)) by (intros [o ->]%last_Some; apply Hin, elem_of_app; right; by left).
  all: rewrite ?(bool_decide_true _ Hin), ?(bool_decide_false _ Hin); cbn [andb].
  2-4: rewrite need_count, count_small by lia;
    destruct (Z.eqb_spec (Z.of_nat (length (List.filter (needs mode) out))) 0) as [E|E];
    [f_equal; symmetry; eapply covers_none; [apply covers_mode|]; by destruct (List.filter _ out)
    |rewrite escape_spec; [done|done|]; cbn [length Nat.add]; by eapply escape_cap; [apply covers_mode| |] ].
  rewrite count_keys_spec by lia. cbn [mbind option_bind]. rewrite existsb_filter, <-unended_last by done.
  destruct (Z.eqb_spec (Z.of_nat (length (List.filter (key_needs mode) out))) 0) as [E|E]; cbn [negb].
  - rewrite andb_false_r. f_equal. symmetry. eapply covers_none; [apply covers_key|]. by destruct (List.filter _ out).
  - rewrite andb_true_r. rewrite key_escape_spec; [done|done|lia|lia|]. cbn [length Nat.add].
    by eapply escape_cap; [apply covers_key| |].
Qed.

(** C23: escaping never writes behind the buffer that was allocated for it from the
    count of the characters that need it, and shows every character as its mode
    says; the separators between keys stay.  Only for a list of keys that ends with a
    separator and has something to escape, the copy is not ended. *)
Theorem escape_output_fits is_key mode out :
  4 * Z.of_nat (length out) + 1 < two32 ->
  escape_output is_key mode out = if dangling is_key mode out then None else Some (shown_as is_key mode out).
Proof. apply escape_output_shown. Qed.

(** Reading a text the way a shell reads it: a backslash quotes the next
    character, or three octal digits. *)
Fixpoint read_shell (s : chars) : chars :=
  match s with
  | [] => []
  | c :: s1 =>
      if c =c BACKSLASH then
        match s1 with
        | [] => []
        | d :: s2 =>
            if isdigit d then
              match s2 with
              | e :: f :: s3 => char_of ((code d - 48) * 64 + (code e - 48) * 8 + (code f - 48)) :: read_shell s3
              | _ => []
              end
            else d :: read_shell s2
        end
      else c :: read_shell s1
  end.

(** The three forms of a shown character. *)
Definition form_ok (c : ascii) (e : chars) : bool :=
  match e with
  | [x] => (x =c c) && negb (x =c BACKSLASH)
  | [b; x] => (b =c BACKSLASH) && (x =c c) && negb (isdigit x)
  | [b; d; e; f] =>
      (b =c BACKSLASH) && isdigit d &&
      (char_of ((code d - 48) * 64 + (code e - 48) * 8 + (code f - 48)) =c c)
  | _ => false
  end.

Lemma shell_forms mode c :
  mode = AUPARSE_ESC_SHELL \/ mode = AUPARSE_ESC_SHELL_QUOTE -> form_ok c (esc_char mode c) = true.
Proof. intros [-> | ->]; each_char c. Qed.

Lemma read_shell_char mode c t :
  mode = AUPARSE_ESC_SHELL \/ mode = AUPARSE_ESC_SHELL_QUOTE ->
  read_shell (esc_char mode c ++ t) = c :: read_shell t.
Proof.
  intros Hm%(shell_forms mode c). destruct (esc_char mode c) as [|x [|y [|z [|u [|]]]]]; try done;
    cbn -[isdigit code char_of] in Hm |- *; rewrite ?andb_true_iff, ?char_eq_true, ?negb_true_iff in Hm.
  - destruct Hm as [-> ->]. done.
  - destruct Hm as [[-> ->] ->]. done.
  - destruct Hm as [[-> ->] ->]. done.
Qed.

(** Nothing is lost by the shell modes: the text read back as a shell does
    is the original, so that two values never look the same. *)
Theorem shell_escape_reversible mode out :
  mode = AUPARSE_ESC_SHELL \/ mode = AUPARSE_ESC_SHELL_QUOTE ->
  4 * Z.of_nat (length out) + 1 < two32 ->
  exists text, escape_output false mode out = Some text /\ read_shell text = out.
Proof.
  intros Hm Hl. exists (shown_as false mode out).
  rewrite escape_output_shown by exact Hl. change (dangling false mode out) with false.
  split; [done|]. unfold shown_as. cbn [andb]. clear Hl. induction out as [|c out IH]; [done|].
  change ((c :: out) ≫= esc_char mode) with (esc_char mode c ++ (out ≫= esc_char mode)).
  by rewrite read_shell_char, IH.
Qed.

(** ** Concrete inputs *)

Definition text (s : string) : chars := String.list_ascii_of_string s.

Lemma logged_value_shown_witness :
  exists enc, audit_encode_nv_string NUL (text "name") (Some (text "a b" ++ [NUL])) 0
      = Some (text "name" ++ ["="%char] ++ enc) /\
    exists blk, print_escaped NUL enc = Some blk /\ StrSplit.until_nul blk = text "a b".
Proof.
  apply (logged_value_shown NUL (text "name") (text "a b")); [|vm_compute; reflexivity].
  by_decision.
Defined.

Lemma proctitle_shown_witness :
  exists blk, print_proctitle NUL (encode (join NUL [text "ls"; text "-l"])) = Some blk /\
    StrSplit.until_nul blk = text "ls -l".
Proof.
  apply (proctitle_shown NUL "l"%char (text "s") [text "-l"]).
  by_decision.
Defined.

Lemma escape_output_fits_witness :
  escape_output true AUPARSE_ESC_SHELL (text "a b" ++ AUDIT_KEY_SEPARATOR :: text "c")
  = Some (text "a" ++ BACKSLASH :: text " b" ++ AUDIT_KEY_SEPARATOR :: text "c").
Proof. rewrite escape_output_fits; [vm_compute; reflexivity|vm_compute; reflexivity]. Defined.

Lemma shell_escape_reversible_witness :
  exists t, escape_output false AUPARSE_ESC_SHELL_QUOTE (text "$x;" ++ [LF]) = Some t /\
    read_shell t = text "$x;" ++ [LF].
Proof. apply (shell_escape_reversible AUPARSE_ESC_SHELL_QUOTE); [by right|vm_compute; reflexivity]. Defined.

(** The key "a b" with a separator behind it: the NUL behind the key is overwritten by
    the separator, and none is written behind that. *)
Example keys_not_ended :
  escape_output true AUPARSE_ESC_SHELL (text "a b" ++ [AUDIT_KEY_SEPARATOR]) = None.
Proof. reflexivity. Qed.

(** The terminal mode does not escape the backslash, so that different values
    can look the same. *)
Theorem tty_escape_ambiguous :
  escape_output false AUPARSE_ESC_TTY [LF] = escape_output false AUPARSE_ESC_TTY (BACKSLASH :: text "012").
Proof. reflexivity. Qed.

(** A process title that starts with a NUL is decoded into a block that is one
    character too short for the loop over the NULs: digits of the undecoded text
    are shown behind it. *)
Theorem proctitle_leftover junk :
  StrSplit.until_nul <$> print_proctitle junk (encode (NUL :: text "ABC")) = Some (text "ABC 43").
Proof. reflexivity. Qed.

End EscapeFacts.
