(* ===== verification/Ellist.v ===== *)
(** * Records of an event and their fields (src/auparse/ellist.c, ellist.h)

    [parse_up_record] cuts the text of a record into fields; [event_list] is
    the list of the records of an event.  [None] is an access outside of
    memory. *)
From S2P Require Import Prelude CString CList StrSplit Nvlist Escape Lol.
From coqutil Require Import Datatypes.RecordSetters.
Import RecordSetters.TriangleBracketNotations.

Local Open Scope audit_scope.
Local Open Scope string_scope.
Local Open Scope Z_scope.

Module Ellist.
Import Nv.

Abbreviation chars := (list ascii).

Definition to_string (s : chars) : string := String.string_of_list_ascii s.
Definition to_chars (s : string) : chars := String.list_ascii_of_string s.

(** The string at [p]. *)
Definition string_at (buf : chars) (p : nat) : string := to_string (StrSplit.c_string buf p).

(** [strtoul(s, NULL, 16)] and [strtoull]: an optional 0x is skipped. *)
Definition strtoul_hex (s : string) : Z * bool :=
  let (neg, s) := scan_sign s in
  let s := if starts_with "0x" s || starts_with "0X" s then skip 2 s else s in
  let (v, _) := digits 16 0 s in
  if SIZE_MAX <? v then (SIZE_MAX, true) else (if neg then u64 (- v) else v, false).

Definition AUDIT_USER_AVC : Z := 1107.
Definition AUDIT_CWD : Z := 1307.
Definition AUDIT_AVC : Z := 1400.

(** The generated table of machines. *)
Class ElfMachines := audit_elf_to_machine : Z -> Z.

(** ** The parts of a field *)

(** The last character, if it is [c], is removed. *)
Fixpoint strip (c : ascii) (s : string) : string :=
  match s with
  | EmptyString => EmptyString
  | String d EmptyString => if d =c c then EmptyString else s
  | String d s => String d (strip c s)
  end.

Definition QUOTE : ascii := "'"%char.

(** Remove trailing punctuation. *)
Definition trim (v : string) : string :=
  let v := strip QUOTE (strip ","%char (strip ":"%char v)) in
  if str_eq v "(none)" || str_eq v "(null)" then v else strip ")"%char v.

(** [strtok_r] with the separator of keys, until NULL. *)
Fixpoint tokens (acc : chars) (s : chars) : list chars :=
  let close := match acc with [] => [] | _ => [acc] end in
  match s with
  | [] => close
  | c :: s => if c =c Escape.AUDIT_KEY_SEPARATOR then close ++ tokens [] s
              else tokens (acc ++ [c]) s
  end.

Section parse.
Context {mt : Lol.MsgTypes} {em : ElfMachines}.
(** What fresh memory holds. *)
Context (junk : ascii).

(** [nvlist_append(&r->nv, &n)]. *)
Definition append (nm : option string) (v : string) (r : rnode) : option rnode :=
  l ← nvlist_append nm (Some v) (nv r); Some (set_nv r l).

Fixpoint append_keys (ks : list chars) (r : rnode) : option rnode :=
  match ks with
  | [] => Some r
  | k :: ks =>
      v ← Escape.escape_key junk k;
      r ← append (Some "key") (to_string v) r;
      append_keys ks r
  end.

(** A key that is not in quotes: one field for each key in it. *)
Definition append_virtual_keys (v : string) (r : rnode) : option rnode :=
  key ← Escape.au_unescape junk (to_chars v);
  match key with
  | None => append (Some "key") v r
  | Some key => append_keys (tokens [] (StrSplit.until_nul key)) r
  end.

(** The information gathered from a field that was stored; [offset] is 1 behind a
    node name. *)
Definition gather (nm v : string) (r : rnode) (offset : Z) : rnode * Z :=
  let n := cnt (nv r) in
  if (n =? 1) && str_eq nm "node" then (r, 1)
  else if (n =? 1 + offset) && str_eq nm "type" then
    (r<|type := Lol.audit_name_to_msg_type v|>, offset)
  else if ((n =? 2 + offset) || (n =? 11 + offset)) && str_eq nm "arch" then
    let (ival, err) := strtoul_hex v in
    (r<|machine := if err then -2 else audit_elf_to_machine (u32 ival)|>, offset)
  else if ((n =? 3 + offset) || (n =? 12 + offset)) && str_eq nm "syscall" then
    let (ival, err) := strtoul 10 v in
    (r<|syscall := if err then -1 else Lol.int_of ival|>, offset)
  else if (n =? 6 + offset) && str_eq nm "a0" then
    let (ival, err) := strtoul_hex v in
    (r<|a0 := if err then SIZE_MAX else ival|>, offset)
  else if (n =? 7 + offset) && str_eq nm "a1" then
    let (ival, err) := strtoul_hex v in
    (r<|a1 := if err then SIZE_MAX else ival|>, offset)
  else if type r =? AUDIT_CWD then
    (if str_eq nm "cwd" then r<|cwd := Some v|> else r, offset)
  else (r, offset).

(** Store a field; the key fields are not looked at further. *)
Definition store (nm v : string) (r : rnode) (offset : Z) : option (rnode * Z) :=
  let v := trim v in
  if str_eq nm "key" && negb (char_at v =c "("%char) then
    r ← (if char_at v =c DQUOTE then append (Some nm) v r else append_virtual_keys v r);
    Some (r, offset)
  else
    r ← append (Some nm) v r;
    Some (gather nm v r offset).

(** ** The loop over the words *)

Record pstate := PState {
  buf : chars;
  saved : option nat;
  rec : rnode;
  offset : Z;
}.

(** [strchr(p, c)] in the buffer. *)
Definition find_char (c : ascii) (buf : chars) (p : nat) : option nat :=
  (fun x => p + x.1)%nat <$> list_find (fun d => d = c) (StrSplit.c_string buf p).

(** [*p == c] for the text at [p]. *)
Definition begins (c : ascii) (w : chars) : bool :=
  match w with d :: _ => d =c c | [] => false end.

(** A word with '=' at [val]. *)
Definition do_field (ptr val : nat) (st : pstate) : option pstate :=
  let start :=
    if starts_with "msg=" (string_at (buf st) ptr) then
      let c := char_at (skip 4 (string_at (buf st) ptr)) in
      if c =c "a"%char then None
      else if c =c QUOTE then
        match find_char "="%char (buf st) (ptr + 5) with
        | None => None
        | Some val => Some ((ptr + 5)%nat, val)
        end
      else Some (ptr, val)
    else Some (ptr, val) in
  match start with
  | None => Some st
  | Some (ptr, val) =>
      let buf' := <[val := NUL]> (buf st) in
      c ← buf' !! ptr;
      let ptr := if c =c "("%char then S ptr else ptr in
      '(r, off) ← store (string_at buf' ptr) (string_at buf' (S val)) (rec st) (offset st);
      Some (PState buf' (saved st) r off)
  end.

(** The words in braces, with commas between them, in [tmpctx[256]]: [None] is the
    return of -1; [ctx] is what was copied. *)
Fixpoint braces (fuel : nat) (buf : chars) (saved : option nat) (ctx : chars)
    : option (option chars * chars * option nat) :=
  match fuel with
  | O => None
  | S fuel =>
      '(w, buf, saved) ← StrSplit.audit_strsplit_r None buf saved;
      match w with
      | None => Some (Some ctx, buf, saved)
      | Some ptr =>
          let word := StrSplit.c_string buf ptr in
          if begins "}"%char word then Some (Some ctx, buf, saved)
          else if decide (256 - length ctx <= length word + 1)%nat then Some (None, buf, saved)
          else
            let ctx' := (match ctx with [] => [] | _ => ctx ++ [","%char] end ++ word)%list in
            if decide (length ctx' < 256)%nat then braces fuel buf saved ctx' else None
      end
  end.

(** A word without '=' in an AVC record.  [inr]: return -1. *)
Definition do_avc_word (ptr : nat) (st : pstate) : option (pstate + rnode) :=
  let word := string_at (buf st) ptr in
  let n := cnt (nv (rec st)) in
  if n =? 1 + offset st then
    if starts_with "avc" word then Some (inl st)
    else r ← append (Some "seresult") word (rec st);
         Some (inl (PState (buf st) (saved st) r (offset st)))
  else if n =? 2 + offset st then
    if begins "{"%char (StrSplit.c_string (buf st) ptr) then
      '(ctx, buf', saved') ← braces (S (length (buf st))) (buf st) (saved st) [];
      match ctx with
      | None => Some (inr (rec st))
      | Some ctx =>
          r ← append (Some "seperms") (to_string ctx) (rec st);
          Some (inl (PState buf' saved' r (offset st)))
      end
    else r ← append None word (rec st);
         Some (inl (PState (buf st) (saved st) r (offset st)))
  else Some (inl st).

Definition do_word (ptr : nat) (st : pstate) : option (pstate + rnode) :=
  match find_char "="%char (buf st) ptr with
  | Some val => st ← do_field ptr val st; Some (inl st)
  | None =>
      if (type (rec st) =? AUDIT_AVC) || (type (rec st) =? AUDIT_USER_AVC)
      then do_avc_word ptr st else Some (inl st)
  end.

Fixpoint word_loop (fuel : nat) (ptr : nat) (st : pstate) : option (Z * rnode) :=
  match fuel with
  | O => None
  | S fuel =>
      res ← do_word ptr st;
      match res with
      | inr r => Some (-1, r)
      | inl st =>
          '(w, buf', saved') ← StrSplit.audit_strsplit_r None (buf st) (saved st);
          match w with
          | None => Some (0, set_nv (rec st) (nvlist_first (nv (rec st))))
          | Some ptr => word_loop fuel ptr (PState buf' saved' (rec st) (offset st))
          end
      end
  end.

Definition AUDIT_INTERP_SEPARATOR : ascii := Lol.AUDIT_INTERP_SEPARATOR.

Definition parse_up_record (r : rnode) : option (Z * rnode) :=
  let (text, rest) := span (fun c => negb (c =c AUDIT_INTERP_SEPARATOR)) (record r) in
  let r := r<|record := text|><|interp := match rest with
                                          | EmptyString => None
                                          | String _ s => Some s
                                          end|> in
  '(w, buf, saved) ← StrSplit.audit_strsplit_r (Some O) (to_chars text ++ [NUL])%list None;
  match w with
  | None => Some (-1, r)
  | Some ptr => word_loop (S (length buf)) ptr (PState buf saved r 0)
  end.

(** ** The list of records *)

Record au_event := AuEvent { sec : Z; milli : Z; serial : Z; host : option string }.

Record event_list := EventList {
  records : clist rnode;
  e : au_event;
  ecwd : option string;
}.

Definition no_event : au_event := AuEvent 0 0 0 None.

Definition aup_list_create : event_list := EventList cl_create no_event None.

Definition aup_list_last (l : event_list) : event_list := l<|records ::= cl_last|>.
Definition aup_list_first (l : event_list) : event_list := l<|records ::= cl_first|>.
Definition aup_list_next (l : event_list) : event_list := l<|records ::= cl_next|>.
Definition aup_list_get_cur (l : event_list) : option rnode := cl_get_cur (records l).

(** [None] for a null list. *)
Definition aup_list_get_cnt (l : option event_list) : Z :=
  match l with Some l => cnt (records l) | None => 0 end.

(** A node that was just allocated. *)
Definition new_rnode (rcd : string) (item lidx line : Z) : rnode :=
  RNode rcd None None 0 (-1) (-1) 0 0 nvlist_create item lidx line.

(** Change the node under the cursor. *)
Definition set_cur (r : rnode) (l : event_list) : event_list :=
  l<|records ::= fun c => CList (match cur c with
                                 | Some i => <[i := r]> (nodes c)
                                 | None => nodes c
                                 end) (cur c) (cnt c)|>.

(** [rcd] is [None] for NULL. *)
Definition aup_list_append (l : event_list) (rcd : option string) (lidx line : Z)
    : option (Z * event_list) :=
  match rcd with
  | None => Some (-1, l)
  | Some rcd =>
      let r := new_rnode rcd (cnt (records l)) lidx line in
      recs ← match nodes (records l) with
             | [] => Some (cl_link_head r (records l))
             | _ => cl_link_cur r (cl_last (records l))
             end;
      '(rc, r) ← parse_up_record r;
      let l := set_cur r (l<|records := recs|>) in
      Some (rc, match cwd r with Some d => l<|ecwd := Some d|> | None => l end)
  end.

(** The released list. *)
Definition aup_list_clear (l : event_list) : event_list := EventList cl_create no_event None.

Definition aup_list_set_event (l : event_list) (ev : au_event) : event_list := l<|e := ev|>.

(** The searches from the head: on a hit the cursor moves. *)
Definition find_head (p : rnode -> bool) (l : event_list) : bool * event_list :=
  let (b, c) := cl_find p (cl_head (records l)) (records l) in (b, l<|records := c|>).

Definition aup_list_find_rec (l : event_list) (i : Z) : bool * event_list :=
  find_head (fun r => type r =? i) l.
Definition aup_list_goto_rec (l : event_list) (i : Z) : bool * event_list :=
  find_head (fun r => ritem r =? i) l.
Definition aup_list_find_rec_range (l : event_list) (low high : Z) : bool * event_list :=
  if high <=? low then (false, l)
  else find_head (fun r => (low <=? type r) && (type r <=? high)) l.

(** The fields of the current record from the first one. *)
Definition aup_list_first_field (l : event_list) : Z * event_list :=
  match cl_get_cur (records l) with
  | Some r => (1, set_cur (set_nv r (nvlist_first (nv r))) l)
  | None => (0, l)
  end.

End parse.

End Ellist.
