(* ===== verification/EllistFacts.v ===== *)
(** * The fields of a record: what [parse_up_record] makes of its words *)
From S2P Require Import Prelude CString CList StrSplit Nvlist Escape EscapeFacts Lol Ellist Config ConfigFacts.
From coqutil Require Import Datatypes.RecordSetters.
Import RecordSetters.TriangleBracketNotations.

Local Open Scope audit_scope.
Local Open Scope string_scope.
Local Open Scope Z_scope.

Module EllistFacts.
Import StrSplit Config ConfigFacts Nv Ellist.

(** ** Words in the buffer *)

Lemma until_nul_drop n s :
  (n <= length (StrSplit.until_nul s))%nat ->
  StrSplit.until_nul (drop n s) = drop n (StrSplit.until_nul s).
Proof.
  revert n. induction s as [|c s IH]; intros [|n]; cbn; try done.
  destruct (c =c NUL); cbn; [lia|]. intros. apply IH. lia.
Qed.

Lemma c_string_drop buf p n w :
  StrSplit.c_string buf p = w -> (n <= length w)%nat ->
  StrSplit.c_string buf (p + n) = drop n w.
Proof. intros <- Hn. unfold StrSplit.c_string. rewrite <-drop_drop. by apply until_nul_drop. Qed.

Lemma c_string_lookup buf p i w c :
  StrSplit.c_string buf p = w -> w !! i = Some c -> buf !! (p + i)%nat = Some c.
Proof.
  intros <-. rewrite <-lookup_drop. unfold StrSplit.c_string. generalize (drop p buf). clear.
  intros s. revert i. induction s as [|d s IH]; intros i; cbn; [done|].
  destruct (d =c NUL); [done|]. destruct i; [done|]. apply IH.
Qed.

Lemma until_nul_cut i s w :
  StrSplit.until_nul s = w -> (i < length w)%nat ->
  StrSplit.until_nul (<[i := NUL]> s) = take i w.
Proof.
  intros <-. revert i. induction s as [|c s IH]; intros i; cbn; [lia|].
  destruct (c =c NUL) eqn:E; [cbn; lia|]. intros Hi. destruct i as [|i]; [done|].
  cbn in *. rewrite E. f_equal. apply IH. lia.
Qed.

(** Cutting a word in two. *)
Lemma c_string_cut buf p i w :
  StrSplit.c_string buf p = w -> (i < length w)%nat ->
  StrSplit.c_string (<[(p + i)%nat := NUL]> buf) p = take i w /\
  StrSplit.c_string (<[(p + i)%nat := NUL]> buf) (S (p + i)) = drop (S i) w.
Proof.
  intros Hw Hi. unfold StrSplit.c_string. split.
  - rewrite drop_insert_ge by lia. replace (p + i - p)%nat with i by lia. by apply until_nul_cut.
  - rewrite drop_insert_lt by lia. change (drop (S (p + i)) buf) with (drop (S (p + i)) buf).
    replace (S (p + i)) with (p + S i)%nat by lia. by apply c_string_drop.
Qed.

(** The next word of the buffer, as the splitter promises it. *)
Abbreviation rest_of := (@rest audit_splitter audit_splitter_ok).
Abbreviation word_at := (@held audit_splitter audit_splitter_ok).

Lemma next_word buf saved t :
  rest_of buf saved t ->
  exists ptr buf' saved', StrSplit.audit_strsplit_r None buf saved = Some (ptr, buf', saved') /\
    length buf' = length buf /\
    match ptr with
    | None => words t = [] /\ saved' = None
    | Some q => exists w t', words t = w :: words t' /\ word_at buf' saved' q w /\ rest_of buf' saved' t'
    end.
Proof.
  intros Hr. destruct (split_next buf saved t Hr) as (ptr & buf' & saved' & E & _ & Hw).
  exists ptr, buf', saved'.
  change (audit_strsplit_r None buf saved = Some (ptr, buf', saved')) in E. split; [done|].
  assert (length buf' = length buf /\ (ptr = None -> saved' = None)) as [Hl Hn].
  { destruct saved as [p|].
    - change (retry (S (length buf)) buf (S p) = Some (ptr, buf', saved')) in E.
      pose proof (retry_cut _ _ _ _ _ _ E) as Hc. destruct saved' as [i|].
      + destruct Hc as (-> & _ & q & -> & _). by rewrite length_insert.
      + by rewrite Hc.
    - by injection E as <- <- <-. }
  split; [done|]. destruct ptr as [q|]; [done|]. split; [done|by apply Hn].
Qed.

(** Changing the current word does not touch the ones that follow. *)
Lemma rest_insert buf saved q w t j :
  word_at buf saved q w -> rest_of buf saved t -> (j < q + length w)%nat ->
  rest_of (<[j := NUL]> buf) saved t.
Proof.
  intros [_ Hq] Hr Hj. destruct saved as [i|]; [|done]. destruct Hr as (r & E & Hn).
  cbn in Hq. exists r. split; [|done]. by rewrite drop_insert_lt by lia.
Qed.

(** ** The record as a function of its words *)

Section reference.
Context {mt : Lol.MsgTypes} {em : ElfMachines} (junk : ascii).

(** The parts of a word at its first '='. *)
Definition cut_field (w : chars) : option (string * string) :=
  match list_find (fun c => c = "="%char) w with
  | None => None
  | Some (i, _) =>
      Some (to_string (if begins "("%char (take i w) then drop 1 (take i w) else take i w),
            to_string (drop (S i) w))
  end.

(** The field of a word with '=': the stamp of the record is none. *)
Definition field_of (w : chars) : option (string * string) :=
  if starts_with "msg=" (to_string w) then
    if char_at (skip 4 (to_string w)) =c "a"%char then None
    else if char_at (skip 4 (to_string w)) =c QUOTE then cut_field (drop 5 w)
    else cut_field w
  else cut_field w.

(** The text in braces grows by a word. *)
Definition add_word (ctx w : chars) : chars :=
  (match ctx with [] => [] | _ => ctx ++ [","%char] end ++ w)%list.

(** The loop over the words; [ctx] is the text in braces that is open. *)
Fixpoint ref_words (ws : list chars) (ctx : option chars) (r : rnode) (off : Z)
    : option (Z * rnode) :=
  match ws, ctx with
  | [], None => Some (0, set_nv r (nvlist_first (nv r)))
  | [], Some ctx =>
      r ← append (Some "seperms") (to_string ctx) r; Some (0, set_nv r (nvlist_first (nv r)))
  | w :: ws, Some ctx =>
      if begins "}"%char w
      then r ← append (Some "seperms") (to_string ctx) r; ref_words ws None r off
      else if decide (256 - length ctx <= length w + 1)%nat then Some (-1, r)
      else ref_words ws (Some (add_word ctx w)) r off
  | w :: ws, None =>
      if bool_decide ("="%char ∈ w) then
        match field_of w with
        | None => ref_words ws None r off
        | Some (nm, v) => '(r, off) ← store junk nm v r off; ref_words ws None r off
        end
      else if (type r =? AUDIT_AVC) || (type r =? AUDIT_USER_AVC) then
        if cnt (nv r) =? 1 + off then
          if starts_with "avc" (to_string w) then ref_words ws None r off
          else r ← append (Some "seresult") (to_string w) r; ref_words ws None r off
        else if cnt (nv r) =? 2 + off then
          if begins "{"%char w then ref_words ws (Some []) r off
          else r ← append None (to_string w) r; ref_words ws None r off
        else ref_words ws None r off
      else ref_words ws None r off
  end.

Lemma find_char_word buf p w c :
  StrSplit.c_string buf p = w ->
  find_char c buf p = (fun x => p + x.1)%nat <$> list_find (fun d => d = c) w.
Proof. intros <-. done. Qed.

Lemma string_at_word buf p w : StrSplit.c_string buf p = w -> string_at buf p = to_string w.
Proof. by intros <-. Qed.

(** Cutting the word that starts at [p] into its parts. *)
Lemma cut_field_at buf p w i (k : string -> string -> option (rnode * Z)) saved :
  StrSplit.c_string buf p = w -> list_find (fun c => c = "="%char) w = Some (i, "="%char) ->
  (c ← <[(p + i)%nat := NUL]> buf !! p;
   let ptr := if c =c "("%char then S p else p in
   '(r, off) ← k (string_at (<[(p + i)%nat := NUL]> buf) ptr)
                 (string_at (<[(p + i)%nat := NUL]> buf) (S (p + i)));
   Some (PState (<[(p + i)%nat := NUL]> buf) saved r off))
  = (x ← cut_field w; '(r, off) ← k x.1 x.2; Some (PState (<[(p + i)%nat := NUL]> buf) saved r off)).
Proof.
  intros Hw Hf. unfold cut_field. rewrite Hf. cbn [mbind option_bind fst snd].
  apply list_find_Some in Hf as (Hi & _ & _). pose proof (lookup_lt_Some _ _ _ Hi) as Hlt.
  destruct (c_string_cut buf p i w Hw Hlt) as [E1 E2].
  rewrite (string_at_word _ _ _ E2).
  pose proof (c_string_lookup _ _ _ _ _ Hw Hi) as Hbi. pose proof (lookup_lt_Some _ _ _ Hbi) as Hbl.
  destruct i as [|i].
  - rewrite Nat.add_0_r in *. rewrite list_lookup_insert_eq by done. cbn [mbind option_bind].
    replace (NUL =c "("%char) with false by done. by rewrite (string_at_word _ _ _ E1).
  - destruct w as [|c w]; [done|]. cbn [take] in E1 |- *.
    rewrite list_lookup_insert_ne by lia.
    rewrite <-(Nat.add_0_r p), (c_string_lookup _ _ 0%nat _ c Hw) by done. rewrite (Nat.add_0_r p).
    cbn [mbind option_bind]. destruct (c =c "("%char) eqn:Ec.
    + cbn [begins]. rewrite Ec. replace (S p) with (p + 1)%nat by lia.
      rewrite (string_at_word _ _ _ (c_string_drop _ _ 1 _ E1 ltac:(cbn; lia))). done.
    + cbn [begins]. by rewrite Ec, (string_at_word _ _ _ E1).
Qed.

Lemma find_eq_elem w :
  match list_find (fun c => c = "="%char) w with
  | Some (i, c) => c = "="%char /\ (i < length w)%nat /\ bool_decide ("="%char ∈ w) = true
  | None => bool_decide ("="%char ∈ w) = false
  end.
Proof.
  destruct (list_find _ w) as [[i c]|] eqn:E.
  - apply list_find_Some in E as (Hi & -> & _). split; [done|]. split; [by eapply lookup_lt_Some|].
    apply bool_decide_eq_true_2. by eapply list_elem_of_lookup_2.
  - apply list_find_None in E. apply bool_decide_eq_false_2. intros Hin.
    rewrite Forall_forall in E. by apply (E _ Hin).
Qed.

Lemma starts_length p s : starts_with p s = true -> (String.length p <= String.length s)%nat.
Proof.
  revert s. induction p as [|c p IH]; intros [|d s]; cbn; try lia; try done.
  intros [_ H%IH]%andb_prop. lia.
Qed.

Lemma to_string_length w : String.length (to_string w) = length w.
Proof. induction w as [|c w IH]; [done|]. unfold to_string in *. cbn. by rewrite IH. Qed.

Lemma to_string_skip n w : skip n (to_string w) = to_string (drop n w).
Proof. revert n. induction w as [|c w IH]; intros [|n]; try done. apply IH. Qed.

(** A word with '=' becomes the field of the reference; only the word changes. *)
Lemma do_field_spec ptr i w st :
  c_string (buf st) ptr = w -> list_find (fun c => c = "="%char) w = Some (i, "="%char) ->
  exists j, (j < ptr + length w)%nat /\
  do_field junk ptr (ptr + i) st
  = match field_of w with
    | None => Some st
    | Some (nm, v) =>
        '(r, off) ← store junk nm v (rec st) (offset st);
        Some (PState (<[j := NUL]> (buf st)) (saved st) r off)
    end.
Proof.
  intros Hw Hf. pose proof (find_eq_elem w) as Hi. rewrite Hf in Hi. destruct Hi as (_ & Hi & _).
  assert (cut_field w = cut_field w) as Hc by done. unfold cut_field at 1 in Hc. rewrite Hf in Hc.
  unfold do_field, field_of. rewrite (string_at_word _ _ _ Hw).
  destruct (starts_with "msg=" (to_string w)) eqn:Em.
  2: { exists (ptr + i)%nat. split; [lia|].
       rewrite (cut_field_at (buf st) ptr w i (fun nm v => store junk nm v (rec st) (offset st))) by done.
       by rewrite <-Hc. }
  destruct (char_at (skip 4 (to_string w)) =c "a"%char); [exists ptr; split; [lia|done]|].
  destruct (char_at (skip 4 (to_string w)) =c QUOTE) eqn:Eq.
  2: { exists (ptr + i)%nat. split; [lia|].
       rewrite (cut_field_at (buf st) ptr w i (fun nm v => store junk nm v (rec st) (offset st))) by done.
       by rewrite <-Hc. }
  assert (5 <= length w)%nat as Hl.
  { rewrite to_string_skip in Eq. pose proof (to_string_length w).
    destruct (drop 4 w) as [|c w4] eqn:Ed; [done|]. apply (f_equal length) in Ed.
    rewrite length_drop in Ed. cbn in Ed. lia. }
  pose proof (c_string_drop (buf st) ptr 5 w Hw Hl) as Hw5.
  rewrite (find_char_word _ _ _ _ Hw5).
  pose proof (find_eq_elem (drop 5 w)) as Hi5.
  destruct (list_find _ (drop 5 w)) as [[k c]|] eqn:Ef5; cbn [fmap option_fmap option_map fst].
  - destruct Hi5 as (-> & Hk & _). rewrite length_drop in Hk. exists (ptr + 5 + k)%nat. split; [lia|].
    rewrite (cut_field_at (buf st) (ptr + 5) (drop 5 w) k
               (fun nm v => store junk nm v (rec st) (offset st))) by done.
    assert (is_Some (cut_field (drop 5 w))) as [[nm v] ->] by (unfold cut_field; rewrite Ef5; eauto).
    done.
  - exists ptr. split; [lia|]. unfold cut_field. by rewrite Ef5.
Qed.

(** The words in braces. *)
Lemma braces_spec fuel buf saved t ctx :
  rest_of buf saved t -> (length (words t) < fuel)%nat -> (length ctx < 256)%nat ->
  exists res buf' saved', braces fuel buf saved ctx = Some (res, buf', saved') /\
    length buf' = length buf /\
    match res with
    | None => forall r off, ref_words (words t) (Some ctx) r off = Some (-1, r)
    | Some ctx' => exists t', rest_of buf' saved' t' /\ (length (words t') <= length (words t))%nat /\
        forall r off, ref_words (words t) (Some ctx) r off
          = (r ← append (Some "seperms") (to_string ctx') r; ref_words (words t') None r off)
    end.
Proof.
  revert buf saved t ctx. induction fuel as [|fuel IH]; intros buf saved t ctx Hr Hf Hc; [lia|].
  cbn [braces]. destruct (next_word _ _ _ Hr) as (w & buf1 & sv1 & -> & Hl & Hw).
  cbn [mbind option_bind]. destruct w as [q|].
  2: { destruct Hw as [Hw ->]. exists (Some ctx), buf1, None. split; [done|]. split; [done|].
       exists []. rewrite Hw. split; [done|]. split; [cbn; lia|]. done. }
  destruct Hw as (w & t' & Ew & [Hcs _] & Hr'). rewrite Hcs, Ew in *. cbn [length] in Hf.
  destruct (begins "}"%char w) eqn:Eb.
  { exists (Some ctx), buf1, sv1. split; [done|]. split; [done|]. exists t'.
    split; [done|]. split; [cbn; lia|]. intros r off. cbn [ref_words]. by rewrite Eb. }
  destruct (decide (256 - length ctx <= length w + 1)%nat) as [Hlong|Hlong].
  { exists None, buf1, sv1. split; [done|]. split; [done|]. intros r off. cbn [ref_words].
    by rewrite Eb, decide_True. }
  assert (length (add_word ctx w) < 256)%nat as Hadd.
  { unfold add_word. rewrite length_app. destruct ctx as [|c ctx]; [cbn in *; lia|].
    rewrite length_app. cbn in *. lia. }
  change (match ctx with [] => [] | _ :: _ => ctx ++ [","%char] end ++ w)%list with (add_word ctx w).
  rewrite decide_True by done.
  destruct (IH buf1 sv1 t' (add_word ctx w) Hr') as (res & buf2 & sv2 & -> & Hl2 & Hres); [lia|done|].
  exists res, buf2, sv2. split; [done|]. split; [congruence|].
  destruct res as [ctx'|].
  - destruct Hres as (t2 & Hr2 & Hle & Hres). exists t2. split; [done|]. split; [cbn; lia|].
    intros r off. cbn [ref_words]. rewrite Eb, decide_False by done. apply Hres.
  - intros r off. cbn [ref_words]. rewrite Eb, decide_False by done. apply Hres.
Qed.

Lemma words_from_length acc t : (length (words_from acc t) <= length acc + length t)%nat.
Proof.
  revert acc. induction t as [|c t IH]; intros acc; cbn [words_from].
  - destruct acc; cbn; lia.
  - destruct (c =c " "%char).
    + rewrite length_app. specialize (IH []). destruct acc; cbn [length] in *; lia.
    + specialize (IH (acc ++ [c])%list). rewrite length_app in IH. cbn [length] in *. lia.
Qed.

Lemma rest_length buf saved t : rest_of buf saved t -> (length (words t) <= length buf)%nat.
Proof.
  intros Hr. pose proof (words_from_length [] t) as Hw. unfold words. cbn [length] in Hw.
  destruct saved as [p|]; [|cbn in Hr; subst t; cbn; lia]. change (at_place buf (S p) t) in Hr. apply at_place_lt in Hr. lia.
Qed.

(** A word, and the words that remain. *)
Lemma do_word_spec ptr w st t :
  word_at (buf st) (saved st) ptr w -> rest_of (buf st) (saved st) t ->
  match do_word junk ptr st with
  | None => ref_words (w :: words t) None (rec st) (offset st) = None
  | Some (inr r) => ref_words (w :: words t) None (rec st) (offset st) = Some (-1, r)
  | Some (inl st') => exists t', rest_of (buf st') (saved st') t' /\
      (length (words t') <= length (words t))%nat /\ length (buf st') = length (buf st) /\
      ref_words (w :: words t) None (rec st) (offset st)
      = ref_words (words t') None (rec st') (offset st')
  end.
Proof.
  intros Hw Hr. pose proof Hw as [Hcs _]. cbn [ref_words]. unfold do_word.
  rewrite (find_char_word _ _ _ _ Hcs). pose proof (find_eq_elem w) as Hf.
  destruct (list_find _ w) as [[i c]|] eqn:Ef; cbn [fmap option_fmap option_map fst].
  - destruct Hf as (-> & _ & ->). destruct (do_field_spec ptr i w st Hcs Ef) as (j & Hj & ->).
    destruct (field_of w) as [[nm v]|]; cbn [mbind option_bind]; [|by exists t].
    destruct (store junk nm v (rec st) (offset st)) as [[r off]|]; cbn [mbind option_bind]; [|done].
    exists t. cbn [buf saved rec offset]. rewrite length_insert.
    split; [by eapply rest_insert|done].
  - rewrite Hf. destruct (_ || _); [|by exists t]. unfold do_avc_word.
    rewrite (string_at_word _ _ _ Hcs), Hcs.
    destruct (cnt (nv (rec st)) =? 1 + offset st).
    { destruct (starts_with "avc" _); [by exists t|].
      destruct (append _ _ _) as [r|]; cbn [mbind option_bind]; [|done]. by exists t. }
    destruct (cnt (nv (rec st)) =? 2 + offset st); [|by exists t].
    destruct (begins "{"%char w).
    2: { destruct (append _ _ _) as [r|]; cbn [mbind option_bind]; [|done]. by exists t. }
    pose proof (rest_length _ _ _ Hr).
    destruct (braces_spec (S (length (buf st))) (buf st) (saved st) t [] Hr)
      as (res & buf' & sv' & -> & Hl & Hres); [lia|cbn; lia|].
    cbn [mbind option_bind]. destruct res as [ctx|]; [|apply Hres].
    destruct Hres as (t' & Hr' & Hle & ->).
    destruct (append _ _ _) as [r|]; cbn [mbind option_bind]; [|done]. by exists t'.
Qed.

Lemma word_loop_spec fuel ptr w st t :
  word_at (buf st) (saved st) ptr w -> rest_of (buf st) (saved st) t ->
  (length (words t) < fuel)%nat ->
  word_loop junk fuel ptr st = ref_words (w :: words t) None (rec st) (offset st).
Proof.
  revert ptr w st t. induction fuel as [|fuel IH]; intros ptr w st t Hw Hr Hf; [lia|].
  cbn [word_loop]. pose proof (do_word_spec ptr w st t Hw Hr) as Hd.
  destruct (do_word junk ptr st) as [[st'|r]|]; cbn [mbind option_bind]; [|done..].
  destruct Hd as (t' & Hr' & Hle & _ & ->).
  destruct (next_word _ _ _ Hr') as (q & buf' & sv' & -> & _ & Hn). cbn [mbind option_bind].
  destruct q as [q|]; [|by destruct Hn as [-> _]].
  destruct Hn as (w' & t2 & Ew & Hw' & Hr2). rewrite Ew in *. cbn [length] in Hle.
  by rewrite (IH q w' (PState buf' sv' (rec st') (offset st')) t2) by (done || lia).
Qed.

(** The text and the interpretations of a record. *)
Definition cut_record (r : rnode) : rnode :=
  let (text, rest) := span (fun c => negb (c =c AUDIT_INTERP_SEPARATOR)) (record r) in
  r<|record := text|><|interp := match rest with
                                 | EmptyString => None
                                 | String _ s => Some s
                                 end|>.

(** The record of the reference. *)
Definition ref_parse (r : rnode) : option (Z * rnode) :=
  let r := cut_record r in
  match words (to_chars (record r)) with
  | [] => Some (-1, r)
  | ws => ref_words ws None r 0
  end.

Lemma to_chars_app a b : to_chars (String.append a b) = (to_chars a ++ to_chars b)%list.
Proof. induction a as [|c a IH]; [done|]. exact (f_equal (cons c) IH). Qed.

Lemma parse_up_record_ref r :
  NUL ∉ to_chars (record r) -> parse_up_record junk r = ref_parse r.
Proof.
  intros Hn. unfold parse_up_record, ref_parse, cut_record.
  destruct (span _ (record r)) as [text tail] eqn:Es. apply span_spec in Es as [Es _].
  assert (NUL ∉ to_chars text) as Ht.
  { intros Hin. apply Hn. rewrite Es, to_chars_app. apply elem_of_app. by left. }
  match goal with |- context [ words (to_chars (record ?x)) ] => change (record x) with text end.
  assert (at_place (to_chars text ++ [NUL]) 0 (to_chars text)) as Hp by (by exists []).
  destruct (@split_first audit_splitter audit_splitter_ok _ _ Hp) as (q & buf & sv & E & _ & Hq).
  change (audit_strsplit_r (Some 0%nat) (to_chars text ++ [NUL])%list None = Some (q, buf, sv)) in E.
  rewrite E. cbn [mbind option_bind]. destruct q as [q|]; [|by rewrite Hq].
  destruct Hq as (w & t & Ew & Hw & Hr). rewrite Ew.
  pose proof (rest_length _ _ _ Hr).
  rewrite (word_loop_spec (S (length buf)) q w (PState buf sv _ 0) t) by (done || lia). done.
Qed.

(** ** Every record is parsed *)

(** The list of fields is in order, its cursor allows an append, and it has at
    most [n] fields. *)
Record good (n : nat) (r : rnode) : Prop := Good {
  good_ok : ok (nv r);
  good_cur : nodes (nv r) = [] \/ is_Some (cur (nv r));
  good_len : (length (nodes (nv r)) <= n)%nat;
}.

Lemma good_le n m r : good n r -> (n <= m)%nat -> good m r.
Proof. intros [? ? ?] ?. split; [done..|lia]. Qed.

Ltac weaken := eapply good_le; [eassumption|lia].

Lemma good_nv n r r' : nv r' = nv r -> good n r -> good n r'.
Proof. intros E []. by split; rewrite E. Qed.

(** The names and values of the fields. *)
Definition fields (r : rnode) : list (option string * option string) :=
  (fun n => (name n, val n)) <$> nodes (nv r).

Lemma append_spec nm v r n :
  good n r -> Z.of_nat (S n) < two32 ->
  exists l, append nm v r = Some (set_nv r l) /\ good (S n) (set_nv r l) /\
    fields (set_nv r l) = (fields r ++ [(nm, Some v)])%list /\
    cnt l = Z.of_nat (S (length (nodes (nv r)))).
Proof.
  intros [Hok Hc Hl] Hn.
  destruct (nvlist_append_spec nm (Some v) (nv r) Hok Hc) as (l & E & Hok' & En & Ec); [lia|].
  exists l. unfold append. rewrite E. split; [done|]. split; [|split].
  - split; [done|right; cbn; rewrite Ec; eauto|]. cbn. rewrite En, length_app. cbn. lia.
  - unfold fields. cbn. by rewrite En, fmap_app.
  - destruct Hok' as [[_ Hcnt] _ Hsz]. rewrite Hcnt, u32_small by lia.
    rewrite En, length_app. cbn. f_equal. lia.
Qed.

Lemma tokens_length acc s : (length (tokens acc s) <= length acc + length s)%nat.
Proof.
  revert acc. induction s as [|c s IH]; intros acc; cbn [tokens].
  - destruct acc; cbn; lia.
  - destruct (c =c _).
    + rewrite length_app. specialize (IH []). destruct acc; cbn [length] in *; lia.
    + specialize (IH (acc ++ [c])%list). rewrite length_app in IH. cbn [length] in *. lia.
Qed.

Lemma x2c_loop_total fuel i p len str :
  (len < length str)%nat -> (S len < i + 2 * fuel)%nat -> (2 * p = i)%nat -> (i <= S len)%nat ->
  exists q str', Escape.x2c_loop fuel i p len str = Some (q, str') /\ length str' = length str /\
    (len <= 2 * q <= S len)%nat.
Proof.
  revert i p str. induction fuel as [|fuel IH]; intros i p str Hl Hf Hp Hi; [lia|].
  cbn [Escape.x2c_loop]. destruct (decide (i < len)%nat); [|exists p, str; split_and!; try done; lia].
  destruct (lookup_lt_is_Some_2 str i) as [c0 ->]; [lia|].
  destruct (lookup_lt_is_Some_2 str (S i)) as [c1 ->]; [lia|]. cbn [mbind option_bind].
  destruct (IH (S (S i)) (S p) (<[p := Escape.x2c c0 c1]> str)) as (q & str' & E & El & Hq);
    rewrite ?length_insert; [lia..|].
  rewrite length_insert in El. by exists q, str'.
Qed.

(** Any text is decoded, or refused, without an access outside of the block. *)
Lemma au_unescape_total (b : chars) :
  exists o, Escape.au_unescape junk b = Some o /\
    forall blk, o = Some blk -> length blk = S (length b).
Proof.
  unfold Escape.au_unescape. destruct (Escape.name_end b) as [ptr|] eqn:En; [|by exists None].
  assert (ptr <= length b)%nat as Hp.
  { unfold Escape.name_end in En.
    assert (forall (P : ascii -> Prop) `{forall x, Decision (P x)} i c,
      list_find P b = Some (i, c) -> (i < length b)%nat) as Hlt.
    { intros P HP i c Hf. apply list_find_Some in Hf as [Hf _]. by eapply lookup_lt_Some. }
    destruct (list_find (fun c => c = ")"%char) b) as [[i c]|] eqn:E1;
      destruct (list_find (fun c => Escape.isxdigit c = false) b) as [[i2 c2]|] eqn:E2;
      try apply Hlt in E1; try apply Hlt in E2;
      destruct b as [|d b']; cbn in *; repeat case_match; simplify_eq; cbn in *; lia. }
  set (str := (take ptr b ++ [NUL] ++ Escape.malloc junk (length b - ptr))%list).
  assert (length str = S (length b)) as Hs.
  { unfold str, Escape.malloc. rewrite !length_app, length_take, length_replicate. cbn. lia. }
  clearbody str.
  assert (exists o, (if decide (ptr < 2)%nat then Some None
     else '(p, str) ← Escape.x2c_loop (S ptr) 0 0 ptr str;
       (let str := <[p := NUL]> str in
        let len := (p - 1)%nat in
        let olen := (length b / 2)%nat in
        str ← (if decide (len < olen)%nat then Escape.clear p (olen - len) str else Some str);
        Some (Some str))) = Some o /\ forall blk, o = Some blk -> length blk = S (length b)) as Hx.
  { destruct (decide (ptr < 2)%nat); [by exists None|].
    destruct (x2c_loop_total (S ptr) 0 0 ptr str) as (q & str' & -> & Hl & Hq); [lia..|].
    cbn [mbind option_bind]. cbv zeta.
    pose proof (Nat.div_mod_eq (length b) 2). pose proof (Nat.mod_upper_bound (length b) 2 ltac:(lia)).
    set (h := (length b / 2)%nat) in *. clearbody h.
    destruct (decide (q - 1 < h)%nat); cbn [mbind option_bind].
    - unfold Escape.clear. rewrite decide_True by (rewrite length_insert; lia). cbn [mbind option_bind].
      eexists. split; [done|]. intros blk [= <-].
      rewrite !length_app, length_take, length_replicate, length_drop, !length_insert. lia.
    - eexists. split; [done|]. intros blk [= <-]. by rewrite length_insert, Hl. }
  clear En. destruct b as [|c b']; [exact Hx|].
  destruct c as [[] [] [] [] [] [] [] []]; try exact Hx. eexists. split; [done|]. by intros blk [= <-].
Qed.

Lemma escape_key_total k : is_Some (Escape.escape_key junk k).
Proof.
  unfold Escape.escape_key. destruct (existsb _ k); [|by eexists].
  destruct (EscapeFacts.c2x_fits (Escape.malloc junk (2 * length k + 1)) k) as (blk & -> & _);
    [|by eexists].
  unfold Escape.malloc. rewrite length_replicate. lia.
Qed.

(** The record with other fields. *)
Lemma append_keys_spec ks n r :
  good n r -> Z.of_nat (n + length ks) < two32 ->
  exists l vs, append_keys junk ks r = Some (set_nv r l) /\ good (n + length ks) (set_nv r l) /\
    Forall2 (fun k v => Escape.escape_key junk k = Some v) ks vs /\
    fields (set_nv r l) = (fields r ++ ((fun v => (Some "key", Some (to_string v))) <$> vs))%list.
Proof.
  revert n r. induction ks as [|k ks IH]; intros n r Hg Hn; cbn [append_keys length] in *.
  { exists (nv r), []. rewrite app_nil_r, Nat.add_0_r.
    assert (set_nv r (nv r) = r) as -> by (by destruct r). done. }
  destruct (escape_key_total k) as [v Ev]. rewrite Ev. cbn [mbind option_bind].
  destruct (append_spec (Some "key") (to_string v) r n Hg) as (l & -> & Hg' & Hf & _); [lia|].
  cbn [mbind option_bind].
  destruct (IH (S n) (set_nv r l) Hg') as (l' & vs & E & Hg2 & Hvs & Hf2); [lia|].
  exists l', (v :: vs). rewrite E. split; [done|].
  split; [by eapply good_le; [exact Hg2|lia]|]. split; [by constructor|].
  change (fields (set_nv (set_nv r l) l')) with (fields (set_nv r l')) in Hf2.
  by rewrite Hf2, Hf, <-app_assoc.
Qed.

Lemma strip_length c v : (String.length (strip c v) <= String.length v)%nat.
Proof.
  induction v as [|d v IH]; [done|]. cbn [strip]. destruct v as [|e v].
  - destruct (d =c c); cbn; lia.
  - cbn [String.length] in *. lia.
Qed.

Lemma trim_length v : (String.length (trim v) <= String.length v)%nat.
Proof.
  unfold trim. destruct (_ || _).
  - rewrite !strip_length. lia.
  - rewrite !strip_length. lia.
Qed.

Lemma gather_nv nm v r off : nv (gather nm v r off).1 = nv r.
Proof.
  unfold gather. repeat (match goal with |- context [ if ?b then _ else _ ] => destruct b end; try done);
    by repeat (match goal with |- context [ let (_, _) := ?x in _ ] => destruct x end).
Qed.

Lemma to_chars_length s : length (to_chars s) = String.length s.
Proof. induction s as [|c s IH]; [done|]. exact (f_equal S IH). Qed.

Lemma until_nul_length s : (length (until_nul s) <= length s)%nat.
Proof. induction s as [|c s IH]; cbn; [lia|]. destruct (c =c NUL); cbn; lia. Qed.

(** A field adds to the list at most what its text allows. *)
Lemma store_good nm v r off n :
  good n r -> Z.of_nat (n + S (String.length v)) < two32 ->
  exists r' off', store junk nm v r off = Some (r', off') /\ good (n + S (String.length v)) r'.
Proof.
  intros Hg Hn. pose proof (trim_length v) as Ht. unfold store. set (v' := trim v) in *. clearbody v'.
  destruct (append_spec (Some nm) v' r n Hg) as (l & Ea & Hg' & _ & _); [lia|].
  destruct (str_eq nm "key" && _) eqn:Ek.
  2: { rewrite Ea. cbn [mbind option_bind].
       destruct (gather nm v' (set_nv r l) off) as [r' off'] eqn:Eg. exists r', off'. split; [done|].
       pose proof (gather_nv nm v' (set_nv r l) off) as Hnv. rewrite Eg in Hnv.
       apply (good_nv _ (set_nv r l)); [done|]. weaken. }
  apply andb_prop in Ek as [->%str_eq_true _]. destruct (char_at v' =c DQUOTE).
  { rewrite Ea. cbn [mbind option_bind]. do 2 eexists. split; [done|]. weaken. }
  unfold append_virtual_keys. destruct (au_unescape_total (to_chars v')) as (o & -> & Ho).
  cbn [mbind option_bind]. destruct o as [blk|].
  - pose proof (Ho _ eq_refl) as Hl. rewrite to_chars_length in Hl.
    pose proof (tokens_length [] (until_nul blk)). pose proof (until_nul_length blk).
    cbn [length] in *.
    destruct (append_keys_spec (tokens [] (until_nul blk)) n r Hg) as (l' & vs & -> & Hg2 & _); [lia|].
    cbn [mbind option_bind]. do 2 eexists. split; [done|]. weaken.
  - rewrite Ea. cbn [mbind option_bind]. do 2 eexists. split; [done|]. weaken.
Qed.

Lemma cut_field_length w nm v :
  cut_field w = Some (nm, v) -> (S (String.length v) <= length w)%nat.
Proof.
  unfold cut_field. destruct (list_find _ w) as [[i c]|] eqn:E; [|done]. intros [= _ <-].
  apply list_find_Some in E as [E%lookup_lt_Some _].
  rewrite to_string_length, length_drop. lia.
Qed.

Lemma field_of_length w nm v :
  field_of w = Some (nm, v) -> (S (String.length v) <= length w)%nat.
Proof.
  unfold field_of.
  repeat (match goal with |- context [ if ?b then _ else _ ] => destruct b end; [try done|]);
    try apply cut_field_length.
  intros H%cut_field_length. rewrite length_drop in H. lia.
Qed.

(** The sum of the lengths of words. *)
Definition weight (ws : list chars) : nat := sum_list_with length ws.

Lemma ref_words_total ws : forall ctx r off n,
  good n r -> Forall (fun w => w <> []) ws ->
  Z.of_nat (n + weight ws + match ctx with Some _ => 1 | None => 0 end) < two32 ->
  exists rc r', ref_words ws ctx r off = Some (rc, r') /\ (rc = 0 \/ rc = -1) /\
    good (n + weight ws + match ctx with Some _ => 1 | None => 0 end) r'.
Proof.
  assert (forall n r, good n r -> good n (set_nv r (nvlist_first (nv r)))) as Hfirst.
  { intros n r [Hok Hc Hl]. split; [by apply ok_first| |done]. cbn. unfold cl_head.
    destruct (nodes (nv r)); [by left|right; eauto]. }
  induction ws as [|w ws IH]; intros ctx r off n Hg Hne Hn; cbn [ref_words].
  { destruct ctx as [ctx|].
    - destruct (append_spec (Some "seperms") (to_string ctx) r n Hg) as (l & -> & Hg' & _); [cbn in Hn; lia|].
      cbn [mbind option_bind]. do 2 eexists. split; [done|]. split; [by left|].
      apply Hfirst. cbn; weaken.
    - do 2 eexists. split; [done|]. split; [by left|]. apply Hfirst. cbn; weaken. }
  apply Forall_cons in Hne as [Hw Hne]. change (weight (w :: ws)) with (length w + weight ws)%nat in *.
  assert (0 < length w)%nat as Hlw by (destruct w; cbn; [done|lia]).
  assert (forall m r' off' ctx', good m r' ->
    (m + match ctx' with Some _ => 1 | None => 0 end <= n + length w + match ctx with Some _ => 1 | None => 0 end)%nat ->
    exists rc r2, ref_words ws ctx' r' off' = Some (rc, r2) /\ (rc = 0 \/ rc = -1) /\
      good (n + (length w + weight ws) + match ctx with Some _ => 1 | None => 0 end) r2) as Hgo.
  { intros m r' off' ctx' Hm Hle. destruct (IH ctx' r' off' m Hm Hne) as (rc & r2 & E & Hrc & Hg2); [lia|].
    exists rc, r2. split; [done|]. split; [done|]. weaken. }
  assert (forall nm v, exists l, append nm v r = Some (set_nv r l) /\ good (S n) (set_nv r l)) as Happ.
  { intros nm v. destruct (append_spec nm v r n Hg) as (l & E & Hg' & _); [lia|]. eauto. }
  destruct ctx as [ctx|].
  - destruct (begins "}"%char w).
    { destruct (Happ (Some "seperms") (to_string ctx)) as (l & -> & Hg'). cbn [mbind option_bind].
      apply (Hgo (S n)); [done|lia]. }
    destruct (decide _); [|apply (Hgo n); [done|lia]].
    do 2 eexists. split; [done|]. split; [by right|]. weaken.
  - destruct (bool_decide ("="%char ∈ w)).
    { destruct (field_of w) as [[nm v]|] eqn:Ef; [|apply (Hgo n); [done|lia]].
      apply field_of_length in Ef.
      destruct (store_good nm v r off n Hg) as (r' & off' & -> & Hg'); [lia|].
      cbn [mbind option_bind]. eapply Hgo; [exact Hg'|lia]. }
    destruct (_ || _); [|apply (Hgo n); [done|lia]].
    destruct (_ =? _).
    { destruct (starts_with _ _); [apply (Hgo n); [done|lia]|].
      destruct (Happ (Some "seresult") (to_string w)) as (l & -> & Hg'). cbn [mbind option_bind].
      apply (Hgo (S n)); [done|lia]. }
    destruct (_ =? _); [|apply (Hgo n); [done|lia]].
    destruct (begins _ _); [apply (Hgo n); [done|lia]|].
    destruct (Happ None (to_string w)) as (l & -> & Hg'). cbn [mbind option_bind].
    apply (Hgo (S n)); [done|lia].
Qed.

Lemma words_from_spec acc t :
  Forall (fun w => w <> []) (words_from acc t) /\
  (weight (words_from acc t) <= length acc + length t)%nat.
Proof.
  revert acc. induction t as [|c t IH]; intros acc; cbn [words_from].
  - destruct acc; cbn; [split; [constructor|lia]|]. split; [by repeat constructor|lia].
  - destruct (c =c " "%char).
    + destruct (IH []) as [Hf Hw]. unfold weight in *. rewrite sum_list_with_app.
      destruct acc; cbn in *; (split; [|lia]); [done|by constructor].
    + destruct (IH (acc ++ [c])%list) as [Hf Hw]. rewrite length_app in Hw. cbn [length] in *.
      split; [done|lia].
Qed.

Lemma good_new rcd i li ln : good 0 (new_rnode rcd i li ln).
Proof. split; [apply ok_create|by left|done]. Qed.

Lemma ref_parse_total rcd i li ln :
  Z.of_nat (String.length rcd) < two32 ->
  exists rc r', ref_parse (new_rnode rcd i li ln) = Some (rc, r') /\ (rc = 0 \/ rc = -1) /\
    good (String.length rcd) r'.
Proof.
  intros Hl. unfold ref_parse, cut_record. cbn [record new_rnode].
  destruct (span _ rcd) as [text tail] eqn:Es. apply span_spec in Es as [-> _].
  match goal with |- context [ words (to_chars (record ?x)) ] => set (r := x) end.
  change (record r) with text.
  assert (good 0 r) as Hg by (eapply good_nv; [|apply (good_new text i li ln)]; done).
  clearbody r. destruct (words_from_spec [] (to_chars text)) as [Hf Hw].
  rewrite to_chars_length in Hw. cbn [length] in Hw.
  assert (String.length text <= String.length (String.append text tail))%nat.
  { rewrite <-!to_chars_length, to_chars_app, length_app. lia. }
  unfold words. destruct (words_from [] (to_chars text)) as [|w ws].
  { do 2 eexists. split; [done|]. split; [by right|]. weaken. }
  destruct (ref_words_total (w :: ws) None r 0 0 Hg Hf) as (rc & r' & -> & Hrc & Hg'); [lia|].
  do 2 eexists. split; [done|]. split; [done|]. weaken.
Qed.

(** C20: [parse_up_record] returns for every text, without an access outside of its
    buffers; its result is that of a fold over the words of the record, and the
    fields are a well-formed list. *)
Theorem record_by_words rcd i li ln :
  NUL ∉ to_chars rcd -> Z.of_nat (String.length rcd) < two32 ->
  exists rc r', parse_up_record junk (new_rnode rcd i li ln) = Some (rc, r') /\
    ref_parse (new_rnode rcd i li ln) = Some (rc, r') /\ (rc = 0 \/ rc = -1) /\ ok (nv r').
Proof.
  intros Hn Hl. rewrite parse_up_record_ref by done.
  destruct (ref_parse_total rcd i li ln Hl) as (rc & r' & E & Hrc & Hg). exists rc, r'.
  split_and!; [done..|apply Hg].
Qed.

(** ** Records written from fields *)

(** What a record is made of: its stamp, fields, and keys in digits. *)
Inductive item := Stamp (t : chars) | Field (nm v : chars) | Keys (ks : list chars).

Definition joined_keys (ks : list chars) : chars := EscapeFacts.join Escape.AUDIT_KEY_SEPARATOR ks.

Definition word_of (x : item) : chars :=
  match x with
  | Stamp t => to_chars "msg=a" ++ t
  | Field nm v => nm ++ ["="%char] ++ v
  | Keys ks => to_chars "key=" ++ Escape.encode (joined_keys ks)
  end%list.

Definition fields_of (x : item) : list (option string * option string) :=
  match x with
  | Stamp _ => []
  | Field nm v => [(Some (to_string nm), Some (to_string v))]
  | Keys ks => (fun k => (Some "key", Some (to_string (default [] (Escape.escape_key junk k))))) <$> ks
  end.

(** No blank, NUL or separator of interpretations. *)
Definition clean (t : chars) : Prop :=
  Forall (fun c => c <> " "%char /\ c <> NUL /\ c <> AUDIT_INTERP_SEPARATOR) t.

Definition item_ok (x : item) : Prop :=
  match x with
  | Stamp t => clean t
  | Field nm v =>
      clean nm /\ clean v /\ ("="%char ∉ nm) /\ begins "("%char nm = false /\
      to_string nm <> "msg" /\ trim (to_string v) = to_string v /\
      (to_string nm = "key" -> begins DQUOTE v = true)
  | Keys ks => ks <> [] /\ Forall (fun k => k <> [] /\ (NUL ∉ k) /\ (Escape.AUDIT_KEY_SEPARATOR ∉ k)) ks
  end.

Definition record_of_items (xs : list item) : string :=
  to_string (EscapeFacts.join " "%char (word_of <$> xs)).

Lemma words_join ws :
  Forall (fun w => w <> [] /\ (" "%char ∉ w)) ws -> words (EscapeFacts.join " "%char ws) = ws.
Proof.
  induction 1 as [|w ws [Hne Hb] Hs IH]; [done|]. destruct ws as [|w2 ws].
  - by apply (words_word [] w []).
  - change (EscapeFacts.join " "%char (w :: w2 :: ws))
      with (w ++ " "%char :: EscapeFacts.join " "%char (w2 :: ws))%list.
    unfold words. rewrite (proj1 (words_word [] w _ Hb Hne)). cbn [app]. f_equal. exact IH.
Qed.

Lemma tokens_word acc k t :
  Escape.AUDIT_KEY_SEPARATOR ∉ k -> (acc ++ k)%list <> [] ->
  tokens acc (k ++ Escape.AUDIT_KEY_SEPARATOR :: t)%list = (acc ++ k)%list :: tokens [] t /\
  tokens acc k = [(acc ++ k)%list].
Proof.
  revert acc. induction k as [|c k IH]; intros acc Hk Hne.
  - rewrite app_nil_r in *. cbn. by destruct acc.
  - apply not_elem_of_cons in Hk as [Hc Hk]. cbn [tokens app].
    destruct (c =c _) eqn:E; [apply char_eq_true in E; congruence|].
    destruct (IH (acc ++ [c])%list Hk) as [-> ->]; [by destruct acc|].
    by rewrite <-app_assoc.
Qed.

Lemma tokens_join ks :
  Forall (fun k => k <> [] /\ (Escape.AUDIT_KEY_SEPARATOR ∉ k)) ks -> tokens [] (joined_keys ks) = ks.
Proof.
  induction 1 as [|k ks [Hne Hb] Hs IH]; [done|]. destruct ks as [|k2 ks].
  - by apply (tokens_word [] k []).
  - change (joined_keys (k :: k2 :: ks))
      with (k ++ Escape.AUDIT_KEY_SEPARATOR :: joined_keys (k2 :: ks))%list.
    rewrite (proj1 (tokens_word [] k _ Hb Hne)). cbn [app]. f_equal. exact IH.
Qed.

Lemma strip_id c s : c ∉ to_chars s -> strip c s = s.
Proof.
  induction s as [|d s IH]; intros Hn; [done|].
  apply not_elem_of_cons in Hn as [Hd Hs]. cbn [strip]. destruct s as [|e s].
  - destruct (d =c c) eqn:E; [|done]. apply char_eq_true in E. congruence.
  - by rewrite IH.
Qed.

Lemma to_chars_to_string w : to_chars (to_string w) = w.
Proof. apply String.list_ascii_of_string_of_list_ascii. Qed.

Lemma encode_elem c s : c ∈ Escape.encode s -> Escape.isxdigit c = true.
Proof. pose proof (EscapeFacts.encode_xdigit s) as H. rewrite Forall_forall in H. auto. Qed.

Lemma trim_encode s : trim (to_string (Escape.encode s)) = to_string (Escape.encode s).
Proof.
  assert (forall c, Escape.isxdigit c = false -> strip c (to_string (Escape.encode s))
    = to_string (Escape.encode s)) as Hs.
  { intros c Hc. apply strip_id. rewrite to_chars_to_string. intros Hin%encode_elem. congruence. }
  unfold trim. rewrite !Hs by done. by destruct (_ || _).
Qed.

Lemma to_string_app a b : to_string (a ++ b)%list = String.append (to_string a) (to_string b).
Proof. induction a as [|c a IH]; [done|]. exact (f_equal (String c) IH). Qed.

Lemma cut_field_word nm v :
  "="%char ∉ nm -> begins "("%char nm = false ->
  cut_field (nm ++ ["="%char] ++ v)%list = Some (to_string nm, to_string v).
Proof.
  intros Hn Hb. unfold cut_field.
  assert (list_find (fun c => c = "="%char) (nm ++ ["="%char] ++ v)%list = Some (length nm, "="%char)) as ->.
  { apply list_find_Some. split; [by rewrite lookup_app_r, Nat.sub_diag by lia|]. split; [done|].
    intros j y Hj Hlt ->. rewrite lookup_app_l in Hj by done. apply Hn. by eapply list_elem_of_lookup_2. }
  rewrite take_app_length, Hb. do 3 f_equal.
  rewrite (app_assoc nm), drop_app_length' by (rewrite length_app; cbn; lia). done.
Qed.

Lemma msg_name nm v :
  "="%char ∉ nm -> starts_with "msg=" (to_string (nm ++ ["="%char] ++ v)%list) = true ->
  to_string nm = "msg".
Proof.
  intros Hn.
  do 4 (destruct nm as [|? nm]; [cbn -[Ascii.eqb]; rewrite ?andb_true_iff, ?char_eq_true;
    intros; destruct_and?; subst; (discriminate || reflexivity)|]).
  cbn -[Ascii.eqb]. rewrite ?andb_true_iff, ?char_eq_true. intros (<- & <- & <- & <- & _).
  destruct Hn. do 3 right. by left.
Qed.

(** The field of a written word. *)
Lemma field_of_word nm v :
  "="%char ∉ nm -> begins "("%char nm = false -> to_string nm <> "msg" ->
  field_of (nm ++ ["="%char] ++ v)%list = Some (to_string nm, to_string v).
Proof.
  intros Hn Hb Hm. unfold field_of. destruct (starts_with _ _) eqn:E; [by apply msg_name in E|].
  by apply cut_field_word.
Qed.

Lemma join_no_nul ks :
  Forall (fun k => k <> [] /\ (NUL ∉ k) /\ (Escape.AUDIT_KEY_SEPARATOR ∉ k)) ks -> ks <> [] ->
  (NUL ∉ joined_keys ks) /\ joined_keys ks <> [].
Proof.
  induction 1 as [|k ks (Hne & Hn & Hb) Hs IH]; [done|]. intros _. destruct ks as [|k2 ks]; [done|].
  change (joined_keys (k :: k2 :: ks))
    with (k ++ Escape.AUDIT_KEY_SEPARATOR :: joined_keys (k2 :: ks))%list.
  destruct IH as [Hj _]; [done|]. split.
  - rewrite not_elem_of_app, not_elem_of_cons. split_and!; [done|discriminate|done].
  - by destruct k.
Qed.

(** Storing the field of an item appends what the item stands for. *)
Lemma item_step x r off n :
  item_ok x -> good n r -> Z.of_nat (n + length (word_of x)) < two32 ->
  match field_of (word_of x) with
  | None => fields_of x = []
  | Some (nm, v) => exists r' off', store junk nm v r off = Some (r', off') /\
      good (n + length (word_of x)) r' /\ fields r' = (fields r ++ fields_of x)%list
  end.
Proof.
  intros Hx Hg Hn. destruct x as [t|nm v|ks].
  - cbn [word_of] in *. unfold field_of. rewrite to_string_app. reflexivity.
  - destruct Hx as (_ & _ & He & Hb & Hm & Ht & Hk). cbn [word_of] in *.
    rewrite !length_app in *. cbn [length] in *.
    rewrite field_of_word by done. unfold store. rewrite Ht.
    destruct (append_spec (Some (to_string nm)) (to_string v) r n Hg) as (l & Ea & Hg' & Hf & _); [lia|].
    rewrite Ea. cbn [mbind option_bind].
    destruct (str_eq (to_string nm) "key" && _) eqn:Ek.
    + apply andb_prop in Ek as [Ek%str_eq_true _].
      assert ((char_at (to_string v) =c DQUOTE) = true) as -> by (specialize (Hk Ek); by destruct v).
      cbn [mbind option_bind]. do 2 eexists. split; [done|]. split; [weaken|exact Hf].
    + destruct (gather _ _ _ _) as [r' off'] eqn:Eg. do 2 eexists. split; [done|].
      pose proof (gather_nv (to_string nm) (to_string v) (set_nv r l) off) as Hnv. rewrite Eg in Hnv.
      split; [apply (good_nv _ (set_nv r l)); [done|weaken]|].
      unfold fields in *. cbn [fst] in Hnv. rewrite Hnv. exact Hf.
  - destruct Hx as [Hne Hks]. destruct (join_no_nul ks Hks Hne) as [Hnul Hjne].
    assert (length ks <= length (joined_keys ks))%nat as Hlen.
    { clear -Hks. induction Hks as [|k ks (Hk & _) _ IH]; [done|]. destruct ks as [|k2 ks].
      - destruct k; cbn; [done|lia].
      - change (joined_keys (k :: k2 :: ks))
          with (k ++ Escape.AUDIT_KEY_SEPARATOR :: joined_keys (k2 :: ks))%list.
        rewrite length_app. cbn [length] in *. lia. }
    cbn [word_of] in *. rewrite length_app, EscapeFacts.encode_length in *. cbn [length to_chars] in *.
    change (to_chars "key=" ++ Escape.encode (joined_keys ks))%list
      with (to_chars "key" ++ ["="%char] ++ Escape.encode (joined_keys ks))%list.
    rewrite field_of_word by (by_decision || done). unfold store. rewrite trim_encode, to_chars_length in *.
    change (to_string (to_chars "key")) with "key". cbn [String.length] in *.
    destruct (joined_keys ks) as [|c j] eqn:Ej; [done|].
    destruct (EscapeFacts.xdigit_plain _ (EscapeFacts.upper_xdigit c)) as (Hq & Hp & _).
    assert (char_at (to_string (Escape.encode (c :: j))) = Escape.upper c) as -> by done.
    destruct (Escape.upper c =c "("%char) eqn:E1; [by apply char_eq_true in E1|].
    destruct (Escape.upper c =c DQUOTE) eqn:E2; [by apply char_eq_true in E2|]. cbn [str_eq negb andb].
    unfold append_virtual_keys. rewrite to_chars_to_string.
    destruct (EscapeFacts.au_unescape_encode junk (c :: j)) as (blk & -> & Hblk & _); [done|].
    cbn [mbind option_bind]. rewrite (EscapeFacts.until_nul_take _ _ _ Hnul Hblk), <-Ej, tokens_join.
    2: { eapply Forall_impl; [exact Hks|]. by intros k (? & ? & ?). }
    destruct (append_keys_spec ks n r Hg) as (l & vs & E & Hg' & Hvs & Hf); [lia|].
    change (str_eq "key" "key") with true. cbn [andb]. rewrite E. cbn [mbind option_bind].
    do 2 eexists. split; [done|]. split; [rewrite ?Ej in *; weaken|]. rewrite Hf. f_equal. cbn [fields_of].
    clear -Hvs. induction Hvs as [|k v ks vs Hk _ IH]; [done|]. cbn. by rewrite IH, Hk.
Qed.

Lemma clean_encode s : clean (Escape.encode s).
Proof.
  eapply Forall_impl; [apply EscapeFacts.encode_xdigit|]. cbn. intros c Hc.
  destruct (EscapeFacts.xdigit_plain c Hc) as (_ & _ & ? & ?). split_and!; [done..|].
  intros ->. discriminate Hc.
Qed.

Lemma clean_word x :
  item_ok x -> clean (word_of x) /\ word_of x <> [] /\ bool_decide ("="%char ∈ word_of x) = true.
Proof.
  assert (clean (to_chars "msg=a") /\ clean (to_chars "key=") /\ clean ["="%char]) as (H1 & H2 & H3)
    by (split_and!; by_decision).
  destruct x as [t|nm v|ks]; cbn [item_ok word_of].
  - intros Ht. split; [by apply Forall_app|]. split; [done|]. apply bool_decide_eq_true_2.
    do 3 right. by left.
  - intros (Hn & Hv & _). split; [apply Forall_app; split; [done|by apply Forall_app]|].
    split; [by destruct nm|]. apply bool_decide_eq_true_2, elem_of_app. right. by left.
  - intros _. split; [apply Forall_app; split; [done|apply clean_encode]|]. split; [done|].
    apply bool_decide_eq_true_2. do 3 right. by left.
Qed.

Lemma items_ref xs : forall r off n,
  Forall item_ok xs -> good n r -> Z.of_nat (n + weight (word_of <$> xs)) < two32 ->
  exists r', ref_words (word_of <$> xs) None r off = Some (0, r') /\
    fields r' = (fields r ++ (xs ≫= fields_of))%list /\ cur (nv r') = cl_head (nv r').
Proof.
  induction xs as [|x xs IH]; intros r off n Hxs Hg Hn.
  { eexists. split; [done|]. cbn. by rewrite app_nil_r. }
  apply Forall_cons in Hxs as [Hx Hxs].
  change (weight (word_of <$> x :: xs)) with (length (word_of x) + weight (word_of <$> xs))%nat in Hn.
  change (word_of <$> x :: xs) with (word_of x :: (word_of <$> xs)). cbn [ref_words].
  destruct (clean_word x Hx) as (_ & _ & ->).
  pose proof (item_step x r off n Hx Hg ltac:(lia)) as Hs.
  change ((x :: xs) ≫= fields_of) with (fields_of x ++ (xs ≫= fields_of))%list.
  destruct (field_of (word_of x)) as [[nm v]|].
  - destruct Hs as (r' & off' & -> & Hg' & Hf). cbn [mbind option_bind].
    destruct (IH r' off' _ Hxs Hg' ltac:(lia)) as (r2 & E & Hf2 & Hc).
    exists r2. split; [exact E|]. split; [|done]. by rewrite Hf2, Hf, <-app_assoc.
  - rewrite Hs. cbn [app]. apply (IH r off n); [done..|lia].
Qed.

Lemma span_all f s : Forall (fun c => f c = true) (to_chars s) -> span f s = (s, EmptyString).
Proof.
  induction s as [|c s IH]; intros H; [done|]. apply Forall_cons in H as [Hc Hs].
  cbn [span]. by rewrite Hc, IH.
Qed.

Lemma join_forall (P : ascii -> Prop) sep ws :
  P sep -> Forall (Forall P) ws -> Forall P (EscapeFacts.join sep ws).
Proof.
  intros Hs. induction 1 as [|w ws Hw Hws IH]; [constructor|]. destruct ws as [|w2 ws]; [done|].
  apply Forall_app. split; [done|]. by constructor.
Qed.

Lemma cut_record_plain rcd i li ln :
  AUDIT_INTERP_SEPARATOR ∉ to_chars rcd -> cut_record (new_rnode rcd i li ln) = new_rnode rcd i li ln.
Proof.
  intros Hn. unfold cut_record. cbn [record new_rnode]. rewrite span_all; [done|].
  apply Forall_forall. intros c Hc. apply negb_true_iff. destruct (c =c _) eqn:E; [|done].
  apply char_eq_true in E as ->. done.
Qed.

Lemma record_clean xs :
  Forall item_ok xs ->
  Forall (fun c => c <> NUL /\ c <> AUDIT_INTERP_SEPARATOR) (to_chars (record_of_items xs)) /\
  words (to_chars (record_of_items xs)) = word_of <$> xs.
Proof.
  intros Hxs. unfold record_of_items. rewrite to_chars_to_string. split.
  - apply join_forall; [by split|]. apply Forall_fmap. eapply Forall_impl; [exact Hxs|].
    intros x Hx. destruct (clean_word x Hx) as [Hc _]. eapply Forall_impl; [exact Hc|]. by intros c (? & ? & ?).
  - apply words_join. apply Forall_fmap. eapply Forall_impl; [exact Hxs|].
    intros x Hx. destruct (clean_word x Hx) as (Hc & Hne & _). split; [done|].
    intros Hin. unfold clean in Hc. rewrite Forall_forall in Hc. by destruct (Hc _ Hin).
Qed.

(** C21: a record written as its stamp, fields and keys in digits is read back: the
    fields are those written, in order, one for each key, and the cursor is at
    the first. *)
Theorem record_round_trip xs i li ln :
  Forall item_ok xs -> xs <> [] -> Z.of_nat (String.length (record_of_items xs)) < two32 ->
  exists r', parse_up_record junk (new_rnode (record_of_items xs) i li ln) = Some (0, r') /\
    fields r' = xs ≫= fields_of /\ cur (nv r') = cl_head (nv r').
Proof.
  intros Hxs Hne Hl. destruct (record_clean xs Hxs) as [Hc Hw].
  assert (forall c, c = NUL \/ c = AUDIT_INTERP_SEPARATOR -> c ∉ to_chars (record_of_items xs)) as Hno.
  { intros c Hcc Hin. rewrite Forall_forall in Hc. destruct (Hc c Hin). by destruct Hcc. }
  rewrite parse_up_record_ref by (apply Hno; by left).
  unfold ref_parse. rewrite cut_record_plain by (apply Hno; by right). cbn [record new_rnode].
  rewrite Hw. destruct (word_of <$> xs) as [|w ws] eqn:E; [by destruct xs|]. rewrite <-E in *.
  destruct (words_from_spec [] (to_chars (record_of_items xs))) as [_ Hwt].
  change (words_from [] (to_chars (record_of_items xs))) with (words (to_chars (record_of_items xs))) in Hwt.
  rewrite Hw, to_chars_length in Hwt. cbn [length] in Hwt.
  destruct (items_ref xs (new_rnode (record_of_items xs) i li ln) 0 0 Hxs (good_new _ _ _ _))
    as (r' & Er & Hf & Hcur); [lia|]. by exists r'.
Qed.

(** What is shown for a key field is the key. *)
Lemma key_field_shown k : NUL ∉ k -> EscapeFacts.shown junk (default [] (Escape.escape_key junk k)) k.
Proof. intros Hk. by destruct (EscapeFacts.escape_key_shown junk k Hk) as (enc & -> & Hs). Qed.

End reference.

(** ** Concrete inputs *)

Definition sample_types : Lol.MsgTypes := fun s =>
  if str_eq s "SYSCALL" then Some 1300 else if str_eq s "AVC" then Some AUDIT_AVC else None.
Definition sample_machines : ElfMachines := fun v => if v =? 3221225534 then 9 else -1.

Definition sample_items : list item :=
  [Field (to_chars "type") (to_chars "SYSCALL"); Stamp (to_chars "udit(1.2:3):");
   Field (to_chars "arch") (to_chars "c000003e"); Keys [to_chars "a b"; to_chars "c"]].

Lemma record_by_words_witness :
  let rcd := "type=SYSCALL msg=audit(1.2:3): arch=c000003e" in
  exists r', @parse_up_record sample_types sample_machines NUL (new_rnode rcd 0 0 1) = Some (0, r') /\
    ok (nv r') /\ type r' = 1300 /\ machine r' = 9.
Proof.
  intros rcd.
  destruct (@record_by_words sample_types sample_machines NUL rcd 0 0 1) as (rc & r' & E & _ & _ & Hok);
    [by_decision|vm_compute; reflexivity|].
  assert ((fun x => (x.1, type x.2, machine x.2)) <$>
    @parse_up_record sample_types sample_machines NUL (new_rnode rcd 0 0 1) = Some (0, 1300, 9)) as Ev
    by (vm_compute; reflexivity).
  rewrite E in Ev. apply (inj Some) in Ev. cbn [fst snd] in Ev.
  assert (rc = 0 /\ type r' = 1300 /\ machine r' = 9) as (Hrc & Ht & Hm)
    by (split_and!; congruence).
  subst rc. exists r'. split; [exact E|]. split; [exact Hok|]. split; [exact Ht|exact Hm].
Defined.

Lemma record_round_trip_witness :
  exists r', @parse_up_record sample_types sample_machines NUL
      (new_rnode (record_of_items sample_items) 0 0 1) = Some (0, r') /\
    fields r' = [(Some "type", Some "SYSCALL"); (Some "arch", Some "c000003e");
                 (Some "key", Some "612062"); (Some "key", Some (String DQUOTE (String "c" (String DQUOTE ""))))].
Proof.
  destruct (@record_round_trip sample_types sample_machines NUL sample_items 0 0 1)
    as (r' & E & Hf & _); [|discriminate|vm_compute; reflexivity|].
  - repeat constructor; try (by_decision || discriminate || done).
  - exists r'. split; [exact E|]. rewrite Hf. vm_compute. reflexivity.
Defined.

(** An AVC record whose third part is not in braces gets a field without a name,
    and the next search for a field by its name reads through a null pointer. *)
Theorem nameless_field :
  exists r', @parse_up_record sample_types sample_machines NUL
      (new_rnode "type=AVC msg=audit(1.2:3): avc: denied read pid=1" 0 0 1) = Some (0, r') /\
    (None, Some "read") ∈ fields r' /\ nvlist_find_name "pid" (nv r') = None.
Proof.
  eexists. split; [vm_compute; reflexivity|]. split; [do 2 right; by left|]. vm_compute. reflexivity.
Qed.

End EllistFacts.
