(* ===== verification/Auparse.v ===== *)
(** * The parser library: assembling events (src/auparse/auparse.c, internal.h)

    Lines come from files, a buffer, or are fed in pieces; each is filed in the
    event of its time stamp; events are handed out by time when they are complete.
    [None] is an access outside of memory. *)
From S2P Require Import Prelude CString CList StrSplit Nvlist DataBuf Escape Lol Ellist.
From coqutil Require Import Datatypes.RecordSetters.
Import RecordSetters.TriangleBracketNotations.

Local Open Scope audit_scope.
Local Open Scope string_scope.
Local Open Scope Z_scope.

Module Auparse.
Import Nv Ellist.

(** ** Data *)

Inductive au_lol_t := EBS_EMPTY | EBS_BUILDING | EBS_COMPLETE.

#[global] Instance au_lol_t_eq_dec : EqDecision au_lol_t.
Proof. solve_decision. Defined.

(** A slot: its list is null when it was released. *)
Record au_lolnode := AuLolNode { l : option event_list; status : au_lol_t }.

(** Cleared memory. *)
Definition free_node : au_lolnode := AuLolNode None EBS_EMPTY.

(** [array] is [[]] for NULL. *)
Record au_lol := AuLol { array : list au_lolnode; maxi : Z; limit : Z }.

Definition ARRAY_LIMIT : Z := 80.

Inductive ausource_t :=
  | AUSOURCE_LOGS | AUSOURCE_FILE | AUSOURCE_FILE_ARRAY | AUSOURCE_BUFFER
  | AUSOURCE_BUFFER_ARRAY | AUSOURCE_DESCRIPTOR | AUSOURCE_FILE_POINTER | AUSOURCE_FEED.

(** What the calls of getline() on a stream give: a line with its newline, or an
    error; behind them is the end of the file. *)
Inductive getline_t := Line (s : chars) | ReadError.

(** [struct opaque] without what only searches use.  [le] is the slot whose list
    it points to.  [il] is the list of interpretations of interpret.c, as the
    texts that were loaded into it since it was last released. *)
Record state := State {
  source : ausource_t;
  source_list : list string;
  list_idx : Z;
  in_ : option (list getline_t);
  line_number : Z;
  cur_buf : option string;
  line_pushed : bool;
  le : option nat;
  databuf : DataBuf.DataBuf;
  au_lo : au_lol;
  au_ready : Z;
  il : list string;
}.

Definition set_array (arr : list au_lolnode) (st : state) : state :=
  st<|au_lo ::= fun lo => AuLol arr (maxi lo) (limit lo)|>.

(** ** The array of events *)

Definition au_lol_create : au_lol :=
  AuLol (replicate (Z.to_nat ARRAY_LIMIT) free_node) (-1) ARRAY_LIMIT.

(** The lists up to [maxi] are released. *)
Definition au_lol_clear (lo : au_lol) (reset : bool) : au_lol :=
  if reset
  then AuLol (match array lo with [] => [] | _ => replicate (Z.to_nat (limit lo)) free_node end)
         (-1) (limit lo)
  else AuLol [] (-1) (limit lo).

(** The first empty slot. *)
Fixpoint first_empty (arr : list au_lolnode) : option nat :=
  match arr with
  | [] => None
  | c :: arr => if decide (status c = EBS_EMPTY) then Some O else S <$> first_empty arr
  end.

Definition sizeof_au_lolnode : Z := 16.

Definition auparse_timestamp_compare (e1 e2 : au_event) : Z :=
  if sec e2 <? sec e1 then 1
  else if sec e1 <? sec e2 then -1
  else if milli e2 <? milli e1 then 1
  else if milli e1 <? milli e2 then -1
  else if serial e2 <? serial e1 then 1
  else if serial e1 <? serial e2 then -1
  else 0.

Definition auparse_node_compare (e1 e2 : au_event) : Z :=
  match host e1, host e2 with
  | Some a, Some b => match String.compare a b with Lt => -1 | Eq => 0 | Gt => 1 end
  | Some _, None => 1
  | None, Some _ => -1
  | None, None => 0
  end.

Definition events_are_equal (e1 e2 : au_event) : bool :=
  (serial e1 =? serial e2) && (milli e1 =? milli e2) && (sec e1 =? sec e2) &&
  match host e1, host e2 with
  | Some a, Some b => str_eq a b
  | None, None => true
  | _, _ => false
  end.

(** The loop over the first [n] slots, from slot [i] on: [inl] the slot a test
    returns, [inr] the slot with the lowest stamp. *)
Fixpoint ready_loop (is_test : bool) (n i : nat) (arr : list au_lolnode)
    (low : option (nat * event_list)) : option (nat + option (nat * event_list)) :=
  match n, arr with
  | O, _ => Some (inr low)
  | S n, [] => None
  | S n, c :: arr =>
      if decide (status c = EBS_EMPTY) then ready_loop is_test n (S i) arr low
      else if is_test && bool_decide (status c = EBS_COMPLETE) then Some (inl i)
      else
        x ← l c;
        ready_loop is_test n (S i) arr
          (match low with
           | None => Some (i, x)
           | Some (j, m) =>
               if auparse_timestamp_compare (e m) (e x) =? 1 then Some (i, x) else Some (j, m)
           end)
  end.

(** The slot of the event that is returned. *)
Definition au_get_ready_event (is_test : bool) (st : state) : option (option nat * state) :=
  if au_ready st =? 0 then Some (None, st) else
  r ← ready_loop is_test (Z.to_nat (maxi (au_lo st) + 1)) 0 (array (au_lo st)) None;
  match r with
  | inl i => Some (Some i, st)
  | inr None => Some (None, st)
  | inr (Some (i, _)) =>
      c ← array (au_lo st) !! i;
      if decide (status c = EBS_COMPLETE) then
        Some (Some i, (set_array (<[i := AuLolNode (l c) EBS_EMPTY]> (array (au_lo st))) st)
                        <|au_ready ::= fun n => n - 1|>)
      else Some (None, st)
  end.

(** The loop over the first [n] slots that completes events; the result counts
    the completions. *)
Fixpoint complete_where (p : event_list -> bool) (n : nat) (arr : list au_lolnode)
    : option (list au_lolnode * Z) :=
  match n, arr with
  | O, _ => Some (arr, 0)
  | S n, [] => None
  | S n, c :: arr =>
      '(c, k) ← (if decide (status c = EBS_BUILDING) then
                   x ← l c; Some (if p x then (AuLolNode (l c) EBS_COMPLETE, 1) else (c, 0))
                 else Some (c, 0));
      '(arr, m) ← complete_where p n arr;
      Some (c :: arr, k + m)
  end.

Definition complete_events (p : event_list -> bool) (st : state) : option state :=
  '(arr, k) ← complete_where p (Z.to_nat (maxi (au_lo st) + 1)) (array (au_lo st));
  Some ((set_array arr st)<|au_ready ::= fun n => n + k|>).

(** The last record ends an event of its type. *)
Definition ends_event (t : Z) : bool :=
  (t =? Lol.AUDIT_PROCTITLE) || (t =? Lol.AUDIT_EOE) || (t <? Lol.AUDIT_FIRST_EVENT)
  || (Lol.AUDIT_FIRST_ANOM_MSG <=? t) || (t =? Lol.AUDIT_KERNEL)
  || ((Lol.AUDIT_MAC_UNLBL_ALLOW <=? t) && (t <=? Lol.AUDIT_MAC_CALIPSO_DEL)).

Definition is_done (now : Z) (x : event_list) : bool :=
  match aup_list_get_cur x with
  | None => false
  | Some r => (sec (e x) + 2 <=? now) || ends_event (type r)
  end.

Definition au_check_events (now : Z) (st : state) : option state :=
  complete_events (is_done now) st.

Definition au_terminate_all_events (st : state) : option state :=
  complete_events (fun _ => true) st.

(** ** Reading lines *)

(** [fopen(name, "rm")]. *)
Class Files := fopen : string -> option (list getline_t).

(** The C string in a line. *)
Definition line_text (s : chars) : string := to_string (StrSplit.until_nul s).

(** Without the newline at the end. *)
Definition nuke_newline (s : chars) : chars :=
  match last s with
  | Some c => if c =c LF then take (length s - 1) s else s
  | None => s
  end.

Definition readline_file (st : state) : Z * state :=
  let st := st<|cur_buf := None|> in
  match in_ st with
  | None => (-1, st)
  | Some [] => (-2, st)
  | Some (ReadError :: ls) => (-1, st<|in_ := Some ls|>)
  | Some (Line s :: ls) =>
      match s with
      | [] => (-1, st<|in_ := Some ls|>)
      | _ => (1, st<|in_ := Some ls|><|cur_buf := Some (line_text (nuke_newline s))|>)
      end
  end.

(** [strnchr] over the data; they must be inside of the block. *)
Definition readline_buf (st : state) : option (Z * state) :=
  let st := st<|cur_buf := None|> in
  let data := DataBuf.contents (databuf st) in
  if DataBuf.len (databuf st) =? 0 then Some (-2, st)
  else if decide (Z.of_nat (length data) = DataBuf.len (databuf st)) then
    match list_find (fun c => c = LF) data with
    | Some (line_len, _) =>
        let st := st<|cur_buf := Some (line_text (take line_len data))|> in
        let (rc, db) := DataBuf.databuf_advance (Z.of_nat line_len + 1) (databuf st) in
        Some (if rc <? 0 then -1 else 1, st<|databuf := db|>)
    | None => Some (0, st)
    end
  else None.

Section library.
Context {mt : Lol.MsgTypes} {em : ElfMachines} {fs : Files}.
(** What fresh memory holds, and whether realloc() can give so many bytes. *)
Context (junk : ascii) (realloc_ok : Z -> bool).

Definition next_line (st : state) : state := st<|line_number ::= fun n => n +u 1|>.

(** [source_list[i]], NULL behind the last. *)
Definition source_at (i : Z) (st : state) : option string := source_list st !! Z.to_nat i.

(** The loop that goes to the next file at the end of one. *)
Fixpoint file_loop (fuel : nat) (st : state) : option (Z * state) :=
  match fuel with
  | O => None
  | S fuel =>
      match in_ st with
      | None => Some (-2, st)
      | Some _ =>
          let (rc, st) := readline_file st in
          if rc =? -2 then
            let st := st<|in_ := None|><|list_idx ::= Z.succ|><|line_number := 0|> in
            match source_at (list_idx st) st with
            | None => file_loop fuel st
            | Some name =>
                match fopen name with
                | None => Some (-1, st)
                | Some f => file_loop fuel (st<|in_ := Some f|>)
                end
            end
          else Some (rc, if 0 <? rc then next_line st else st)
      end
  end.

Definition retrieve_next_line (st : state) : option (Z * state) :=
  if line_pushed st then Some (1, next_line (st<|line_pushed := false|>))
  else
    match source st with
    | AUSOURCE_DESCRIPTOR | AUSOURCE_FILE_POINTER =>
        let (rc, st) := readline_file st in Some (rc, if 0 <? rc then next_line st else st)
    | AUSOURCE_LOGS | AUSOURCE_FILE | AUSOURCE_FILE_ARRAY =>
        match (list_idx st =? 0), in_ st with
        | true, None =>
            match source_at 0 st with
            | None => Some (-2, st)
            | Some name =>
                let st := st<|line_number := 0|> in
                match fopen name with
                | None => Some (-1, st)
                | Some f => file_loop (2 + length (source_list st)) (st<|in_ := Some f|>)
                end
            end
        | _, _ => file_loop (2 + length (source_list st)) st
        end
    | AUSOURCE_BUFFER | AUSOURCE_BUFFER_ARRAY =>
        '(rc, st) ← readline_buf st;
        Some (rc, if 0 <? rc then next_line st else st)
    | AUSOURCE_FEED =>
        '(rc, st) ← readline_buf st;
        if rc =? -2 then Some (0, st)
        else Some (rc, if 0 <? rc then next_line st else st)
    end.

(** ** The stamp of a line *)

(** The same text as in ausearch-lol.c. *)
Definition str2event (s : string) : option (Z * Z * Z) := Lol.str2event s.

(** [Some None] is the return of 1. *)
Definition extract_timestamp (b : string) : option (option au_event) :=
  '(w1, buf, str) ← StrSplit.audit_strsplit (Some O) (Lol.copy_line b) None;
  match w1 with
  | None => Some None
  | Some p =>
      c ← buf !! p;
      '(hst, buf, str) ←
        (if c =c "n"%char then
           hst ← Lol.string_at buf (p + 5);
           '(_, buf, str) ← StrSplit.audit_strsplit None buf str;
           Some (Some hst, buf, str)
         else Some (None, buf, str));
      '(w2, buf, str) ← StrSplit.audit_strsplit None buf str;
      match w2 with
      | None => Some None
      | Some m =>
          c ← buf !! (m + 9)%nat;
          let open := if c =c "("%char then Some (m + 9)%nat else Lol.find_char "("%char buf m in
          match open with
          | None => Some None
          | Some o =>
              let buf := match Lol.find_char ")"%char buf (S o) with
                         | Some k => <[k := NUL]> buf
                         | None => buf
                         end in
              text ← Lol.string_at buf (S o);
              Some (match str2event text with
                    | Some (s, m, n) => Some (AuEvent s m n hst)
                    | None => None
                    end)
          end
      end
  end.

(** ** Filing a line *)

(** [false]: no memory for a larger array. *)
Definition au_lol_append (x : event_list) (st : state) : bool * state :=
  let lo := au_lo st in
  match first_empty (array lo) with
  | Some i =>
      (true, st<|au_lo := AuLol (<[i := AuLolNode (Some x) EBS_BUILDING]> (array lo))
                            (Z.max (maxi lo) (Z.of_nat i)) (limit lo)|>)
  | None =>
      if realloc_ok (sizeof_au_lolnode * (limit lo + ARRAY_LIMIT)) then
        let i := length (array lo) in
        (true, st<|au_lo := AuLol (<[i := AuLolNode (Some x) EBS_BUILDING]>
                                     (array lo ++ replicate (Z.to_nat ARRAY_LIMIT) free_node)%list)
                              (Z.of_nat i) (limit lo + ARRAY_LIMIT)|>)
      else (false, st)
  end.

(** The loop that releases the lists of empty slots; whether there was one. *)
Fixpoint free_loop (n : nat) (arr : list au_lolnode) : option (list au_lolnode * bool) :=
  match n, arr with
  | O, _ => Some (arr, false)
  | S n, [] => None
  | S n, c :: arr =>
      '(arr, b) ← free_loop n arr;
      match status c, l c with
      | EBS_EMPTY, Some _ => Some (free_node :: arr, true)
      | _, _ => Some (c :: arr, b)
      end
  end.

Definition free_done (st : state) : option state :=
  '(arr, b) ← free_loop (Z.to_nat (maxi (au_lo st) + 1)) (array (au_lo st));
  Some ((set_array arr st)<|le ::= fun x => if (b : bool) then None else x|>).

(** Make the list of slot [i] the current event. *)
Definition make_current (i : nat) (st : state) : option state :=
  c ← array (au_lo st) !! i;
  x ← l c;
  let x := aup_list_first x in
  r ← aup_list_get_cur x;
  let x := (aup_list_first_field x).2 in
  Some ((set_array (<[i := AuLolNode (Some x) (status c)]> (array (au_lo st))) st)
          <|il := option_list (interp r)|><|le := Some i|>).

(** Hand out a ready event. *)
Definition take_ready (st : state) : option (bool * state) :=
  '(i, st) ← au_get_ready_event false st;
  match i with
  | None => Some (false, st)
  | Some i => st ← make_current i st; Some (true, st)
  end.

(** The first slot that builds this event. *)
Fixpoint find_building (ev : au_event) (n : nat) (arr : list au_lolnode) : option (option nat) :=
  match n, arr with
  | O, _ => Some None
  | S n, [] => None
  | S n, c :: arr =>
      hit ← (if decide (status c = EBS_BUILDING) then x ← l c; Some (events_are_equal (e x) ev)
             else Some false);
      if hit : bool then Some (Some O)
      else r ← find_building ev n arr; Some (option_map S r)
  end.

(** What the body of the loop does: return, or go on. *)
Inductive outcome := Return (rc : Z) | Again.

Definition append_to_slot (i : nat) (st : state) : option state :=
  c ← array (au_lo st) !! i;
  x ← l c;
  '(_, x) ← aup_list_append junk x (cur_buf st) (list_idx st) (line_number st);
  Some (set_array (<[i := AuLolNode (Some x) (status c)]> (array (au_lo st))) st).

(** A line that was read is filed in its event. *)
Definition file_line (st : state) : option (outcome * state) :=
  b ← cur_buf st;
  ev ← extract_timestamp b;
  match ev with
  | None => Some (Again, st)
  | Some ev =>
      slot ← find_building ev (Z.to_nat (maxi (au_lo st) + 1)) (array (au_lo st));
      match slot with
      | Some i =>
          st ← append_to_slot i st;
          st ← au_check_events (sec ev) (st<|cur_buf := None|>);
          Some (Again, st)
      | None =>
          '(_, x) ← aup_list_append junk (aup_list_set_event aup_list_create ev) (cur_buf st)
                      (list_idx st) (line_number st);
          head ← nodes (records x) !! O;
          if type head =? Lol.AUDIT_EOE then Some (Again, st<|cur_buf := None|>)
          else
            let (ok, st) := au_lol_append x st in
            if negb ok then Some (Return (-1), st)
            else
              st ← au_check_events (sec ev) (st<|cur_buf := None|>);
              '(b, st) ← take_ready st;
              Some (if b : bool then Return 1 else Again, st)
      end
  end.

Fixpoint ingest_loop (fuel : nat) (st : state) : option (Z * state) :=
  match fuel with
  | O => None
  | S fuel =>
      st ← free_done st;
      '(rc, st) ← retrieve_next_line st;
      if rc =? 0 then Some (0, st)
      else if rc =? -2 then
        st ← au_terminate_all_events st;
        '(b, st) ← take_ready st;
        Some (if b : bool then 1 else 0, st)
      else if rc <? 0 then Some (-1, st)
      else
        '(o, st) ← file_line st;
        match o with Return rc => Some (rc, st) | Again => ingest_loop fuel st end
  end.

(** As many lines as there can be. *)
Definition budget (st : state) : nat :=
  length (DataBuf.contents (databuf st)) + length (default [] (in_ st)) +
  sum_list_with (fun f => length (default [] (fopen f))) (source_list st).

Definition au_auparse_next_event (st : state) : option (Z * state) :=
  let st := match array (au_lo st) with
            | [] => if maxi (au_lo st) =? -1 then st<|au_lo := au_lol_create|> else st
            | _ => st
            end in
  st ← free_done st;
  '(b, st) ← take_ready st;
  if b : bool then Some (1, st) else ingest_loop (S (budget st)) st.

(** [clear_normalizer] concerns the normalizer only. *)
Definition auparse_next_event (st : state) : option (Z * state) := au_auparse_next_event st.

(** ** Feeding *)

(** The list [le] points to. *)
Definition current (st : state) : option event_list :=
  i ← le st; c ← array (au_lo st) !! i; l c.

(** The events the callback is called for, in order. *)
Fixpoint event_loop (fuel : nat) (st : state) : option (list event_list * state) :=
  match fuel with
  | O => None
  | S fuel =>
      '(rc, st) ← auparse_next_event st;
      if 0 <? rc then
        x ← current st; '(xs, st) ← event_loop fuel st; Some (x :: xs, st)
      else Some ([], st)
  end.

(** The loop of a flush. *)
Fixpoint flush_loop (fuel : nat) (st : state) : option (list event_list * state) :=
  match fuel with
  | O => None
  | S fuel =>
      '(b, st) ← take_ready st;
      if b : bool then
        x ← current st; '(xs, st) ← flush_loop fuel st; Some (x :: xs, st)
      else Some ([], st)
  end.

Definition consume_feed (flush : bool) (st : state) : option (list event_list * state) :=
  '(xs, st) ← event_loop (S (budget st + length (array (au_lo st)))) st;
  if flush then
    st ← au_terminate_all_events st;
    '(ys, st) ← flush_loop (S (length (array (au_lo st)))) st;
    Some (xs ++ ys, st)%list
  else Some (xs, st).

Definition auparse_feed (data : chars) (st : state) : option (Z * list event_list * state) :=
  '(rc, db) ← DataBuf.databuf_append junk (Some data) (databuf st);
  if rc <? 0 then Some (-1, [], st<|databuf := db|>)
  else '(xs, st) ← consume_feed false (st<|databuf := db|>); Some (0, xs, st).

Definition auparse_flush_feed (st : state) : option (Z * list event_list * state) :=
  '(xs, st) ← consume_feed true st; Some (0, xs, st).

Definition auparse_feed_has_data (st : state) : option Z :=
  '(i, _) ← au_get_ready_event true st;
  Some (match i with Some _ => 1 | None => 0 end).

(** [t] is the time. *)
Definition auparse_feed_age_events (t : Z) (st : state) : option (list event_list * state) :=
  st ← au_check_events t st; consume_feed false st.

(** ** Setting up *)

(** Whether access(name, R_OK) is 0. *)
Variable access : string -> bool.

(** The names of the log files: [log.n ... log.1 log]. *)
Definition log_name (log_file : string) (n : nat) : string :=
  match n with O => log_file | _ => String.append log_file (String.append "." (pretty.pretty (N.of_nat n))) end.

(** The loop that counts the files there are. *)
Fixpoint count_logs (fuel : nat) (log_file : string) (num : nat) : option nat :=
  match fuel with
  | O => None
  | S fuel => if access (log_name log_file num) then count_logs fuel log_file (S num) else Some num
  end.

(** Oldest first; [Some None] is the return of 1. *)
Definition setup_log_file_array (fuel : nat) (log_file : string) : option (option (list string)) :=
  num ← count_logs fuel log_file 0;
  match num with
  | O => Some None
  | S n => Some (Some (log_name log_file <$> reverse (seq 0 (S n))))
  end.

(** What a parser is made from; [fuel] bounds the number of log files. *)
Inductive input :=
  | Logs (fuel : nat) (log_file : string)  (* the name in the configuration *)
  | File (name : option string)
  | FileArray (names : option (list string))
  | Buffer (b : option chars)
  | BufferArray (bs : option (list chars))
  | Stream (s : ausource_t) (f : option (list getline_t))
  | Feed.

Definition start (s : ausource_t) (files : list string) (f : option (list getline_t))
    (db : DataBuf.DataBuf) : state :=
  State s files 0 f 0 None false None db au_lol_create 0 [].

(** The buffers one after the other. *)
Fixpoint append_all (bs : list chars) (db : DataBuf.DataBuf) : option (Z * DataBuf.DataBuf) :=
  match bs with
  | [] => Some (0, db)
  | b :: bs =>
      '(rc, db) ← DataBuf.databuf_append junk (Some b) db;
      if rc <? 0 then Some (-1, db) else append_all bs db
  end.

(** The size that is asked for: [bb[n][len-1]] is read. *)
Fixpoint array_size (bs : list chars) : option Z :=
  match bs with
  | [] => Some 0
  | b :: bs =>
      c ← last b;
      n ← array_size bs;
      Some (Z.of_nat (length b) + (if c =c LF then 0 else 1) + n)
  end.

(** [Some None] is the return of NULL. *)
Definition auparse_init (i : input) : option (option state) :=
  '(_, empty) ← DataBuf.databuf_init junk 0 false false;
  match i with
  | Logs fuel log_file =>
      files ← setup_log_file_array fuel log_file;
      Some (option_map (fun files => start AUSOURCE_LOGS files None empty) files)
  | File None => Some None
  | File (Some name) =>
      Some (if access name then Some (start AUSOURCE_FILE [name] None empty) else None)
  | FileArray None => Some None
  | FileArray (Some names) =>
      Some (if forallb access names then Some (start AUSOURCE_FILE_ARRAY names None empty) else None)
  | Buffer None => Some None
  | Buffer (Some b) =>
      '(rc, db) ← DataBuf.databuf_init junk (Z.of_nat (length b)) true false;
      if rc <? 0 then Some None
      else '(rc, db) ← DataBuf.databuf_append junk (Some b) db;
           Some (if rc <? 0 then None else Some (start AUSOURCE_BUFFER [] None db))
  | BufferArray None => Some None
  | BufferArray (Some bs) =>
      size ← array_size bs;
      '(rc, db) ← DataBuf.databuf_init junk size true false;
      if rc <? 0 then Some None
      else '(rc, db) ← append_all bs db;
           Some (if rc <? 0 then None else Some (start AUSOURCE_BUFFER_ARRAY [] None db))
  | Stream s f => Some (Some (start s [] f empty))
  | Feed => Some (Some (start AUSOURCE_FEED [] None empty))
  end.

(** [rewind] gives the stream [f] again. *)
Definition auparse_reset (f : option (list getline_t)) (st : state) : Z * state :=
  let st := st<|au_lo ::= fun lo => match array lo with [] => au_lol_create | _ => au_lol_clear lo true end|>
              <|au_ready := 0|><|le := None|> in
  let rewound := fun st : state =>
    (0, st<|list_idx := 0|><|line_number := 0|>
          <|databuf ::= fun db => (DataBuf.databuf_reset db).2|><|il := []|>) in
  match source st with
  | AUSOURCE_LOGS | AUSOURCE_FILE | AUSOURCE_FILE_ARRAY => rewound (st<|in_ := None|>)
  | AUSOURCE_DESCRIPTOR | AUSOURCE_FILE_POINTER =>
      rewound (st<|in_ := match in_ st with Some _ => f | None => None end|>)
  | AUSOURCE_BUFFER | AUSOURCE_BUFFER_ARRAY => rewound st
  | AUSOURCE_FEED => (-1, st)
  end.

End library.

End Auparse.
