(* ===== verification/AuparseFacts.v ===== *)
(** * The parser library: filing a line (Auparse)

    The array of events holds what was filed; filing a line does to it what the
    reference [file_ref] does to the list of all events. *)
From S2P Require Import Prelude CString CList StrSplit Nvlist DataBuf Escape Lol Ellist EllistFacts Auparse.
From coqutil Require Import Datatypes.RecordSetters.
Import RecordSetters.TriangleBracketNotations.

Local Open Scope audit_scope.
Local Open Scope Z_scope.

Module AuparseFacts.
Import Nv Ellist Auparse.

(** ** The list of an event *)

(** A list with records in it. *)
Record event_ok (x : event_list) : Prop := EventOk {
  ev_wf : wf (records x);
  ev_some : nodes (records x) <> [];
}.

Section library.
Context {mt : Lol.MsgTypes} {em : ElfMachines} {fs : Files}.
Context (junk : ascii) (realloc_ok : Z -> bool).
Context (Hrealloc : forall n, realloc_ok n = true).

(** The text of a line is a string of a size that the counters can hold. *)
Definition line_ok (b : string) : Prop :=
  (NUL ∉ to_chars b) /\ Z.of_nat (String.length b) < two32.

Lemma set_cur_records r x :
  records (set_cur r x)
  = CList (match cur (records x) with Some i => <[i := r]> (nodes (records x)) | None => nodes (records x) end)
      (cur (records x)) (cnt (records x)).
Proof. reflexivity. Qed.

Lemma aup_list_append_spec x b idx ln :
  wf (records x) -> line_ok b ->
  exists rc r x', aup_list_append junk x (Some b) idx ln = Some (rc, x') /\
    parse_up_record junk (new_rnode b (cnt (records x)) idx ln) = Some (rc, r) /\
    nodes (records x') = nodes (records x) ++ [r] /\
    cur (records x') = Some (length (nodes (records x))) /\ wf (records x') /\ e x' = e x.
Proof.
  intros Hwf [Hn Hl]. unfold aup_list_append.
  destruct (EllistFacts.ref_parse_total junk b (cnt (records x)) idx ln Hl) as (rc & r & Ep & _).
  rewrite <-EllistFacts.parse_up_record_ref in Ep by done.
  assert (exists recs, match nodes (records x) with
    | [] => Some (cl_link_head (new_rnode b (cnt (records x)) idx ln) (records x))
    | _ :: _ => cl_link_cur (new_rnode b (cnt (records x)) idx ln) (cl_last (records x)) end = Some recs /\
    nodes recs = nodes (records x) ++ [new_rnode b (cnt (records x)) idx ln] /\
    cur recs = Some (length (nodes (records x))) /\ wf recs) as (recs & -> & En & Ec & Hw).
  { destruct (nodes (records x)) as [|n ns] eqn:E.
    - eexists. split; [done|]. split; [done|]. split; [done|]. by apply wf_link_head.
    - rewrite <-E. assert (nodes (cl_last (records x)) = nodes (records x)) as El
        by (unfold cl_last; by rewrite E).
      assert (cur (cl_last (records x)) = Some (length (nodes (records x)) - 1)%nat) as Ecl
        by (unfold cl_last; rewrite E; done).
      destruct (cl_link_cur (new_rnode b (cnt (records x)) idx ln) (cl_last (records x))) as [recs|] eqn:Ek.
      2: { unfold cl_link_cur in Ek. by rewrite Ecl in Ek. }
      destruct (link_cur_last (new_rnode b (cnt (records x)) idx ln) (cl_last (records x)) recs
        (wf_last _ Hwf)) as (E1 & E2 & E3); [by rewrite Ecl, El|by rewrite El, E|exact Ek|].
      exists recs. split; [done|]. by rewrite E1, E2, El. }
  cbn [mbind option_bind]. rewrite Ep. cbn [mbind option_bind].
  assert (forall y : event_list, records y = recs ->
    nodes (records (set_cur r y)) = nodes (records x) ++ [r] /\
    cur (records (set_cur r y)) = Some (length (nodes (records x))) /\ wf (records (set_cur r y))) as Hset.
  { intros y Ey. rewrite set_cur_records, Ey, Ec, En. cbn [nodes cur].
    assert (<[length (nodes (records x)) := r]> (nodes (records x) ++ [new_rnode b (cnt (records x)) idx ln])
      = nodes (records x) ++ [r]) as Ei by (rewrite insert_app_r_alt, Nat.sub_diag by lia; done).
    rewrite Ei. split; [done|]. split; [done|]. destruct Hw as [_ Hcnt]. split; cbn.
    - intros i [= <-]. rewrite length_app. cbn. lia.
    - rewrite Hcnt, En, !length_app. done. }
  eexists rc, r, _. split; [done|]. split; [done|].
  destruct (Hset (EventList recs (e x) (ecwd x)) eq_refl) as (? & ? & ?).
  destruct (cwd r); split_and!; done.
Qed.

(** Handing an event out puts its cursors at the start. *)
Definition shown (x : event_list) : event_list := (aup_list_first_field (aup_list_first x)).2.

Lemma first_cur x : event_ok x -> exists r, aup_list_get_cur (aup_list_first x) = Some r /\ head (nodes (records x)) = Some r.
Proof.
  intros [_ Hne]. destruct x as [[ns c n] ? ?]. cbn in *. destruct ns as [|r rs]; [done|]. by exists r.
Qed.

Lemma shown_e x : e (shown x) = e x.
Proof. destruct x as [[ns c n] ? ?]. unfold shown, aup_list_first_field. by destruct (cl_get_cur _). Qed.

(** ** The stored events *)

Abbreviation slots := (list (au_lol_t * event_list)).

Definition entry (c : au_lolnode) : option (au_lol_t * event_list) :=
  if decide (status c = EBS_EMPTY) then None else (fun x => (status c, x)) <$> l c.
Definition entries (arr : list au_lolnode) : slots := omap entry arr.
Definition stored (st : state) : slots := entries (array (au_lo st)).

Definition slot_ok (c : au_lolnode) : Prop :=
  status c <> EBS_EMPTY -> exists x, l c = Some x /\ event_ok x.

Definition complete_in (xs : slots) : list event_list :=
  omap (fun s => if decide (s.1 = EBS_COMPLETE) then Some s.2 else None) xs.
(** The stamps of the events that are being built. *)
Definition building (xs : slots) : list au_event :=
  omap (fun s => if decide (s.1 = EBS_BUILDING) then Some (e s.2) else None) xs.

#[local] Arguments entries : simpl never.
#[local] Arguments complete_in : simpl never.
#[local] Arguments building : simpl never.

(** An array of which the first [n] slots are in use. *)
Record arr_ok (n : nat) (arr : list au_lolnode) : Prop := ArrOk {
  ao_len : (n <= length arr)%nat;
  ao_above : forall i c, arr !! i = Some c -> (n <= i)%nat -> c = free_node;
  ao_slots : Forall slot_ok arr;
}.

Definition upto (lo : au_lol) : nat := Z.to_nat (maxi lo + 1).

Record inv (st : state) : Prop := Inv {
  inv_size : array (au_lo st) <> [];
  inv_maxi : -1 <= maxi (au_lo st);
  inv_arr : arr_ok (upto (au_lo st)) (array (au_lo st));
  inv_ready : au_ready st = Z.of_nat (length (complete_in (stored st)));
  inv_keys : NoDup (building (stored st));
}.

Lemma arr_ok_cons n c arr : arr_ok (S n) (c :: arr) -> slot_ok c /\ arr_ok n arr.
Proof.
  intros [Hl Ha Hs]. apply Forall_cons in Hs as [Hc Hs]. split; [done|]. split; [cbn in Hl; lia| |done].
  intros i d Hi Hle. apply (Ha (S i) d Hi). lia.
Qed.

Lemma arr_ok_0 arr : arr_ok 0 arr -> entries arr = [].
Proof.
  intros [_ Ha _]. unfold entries. induction arr as [|c arr IH]; [done|]. cbn.
  rewrite (Ha O c eq_refl) by lia. cbn. apply IH. intros i d Hi _. apply (Ha (S i) d Hi). lia.
Qed.

(** An insertion inside of the used part. *)
Lemma arr_ok_insert n arr i c :
  arr_ok n arr -> (i < n)%nat -> slot_ok c -> arr_ok n (<[i := c]> arr).
Proof.
  intros [Hl Ha Hs] Hi Hc. split.
  - by rewrite length_insert.
  - intros j d Hj Hle. rewrite list_lookup_insert_ne in Hj by lia. by apply (Ha j).
  - by apply Forall_insert.
Qed.

Lemma used_lt n arr i c : arr_ok n arr -> arr !! i = Some c -> status c <> EBS_EMPTY -> (i < n)%nat.
Proof.
  intros Ha Hi Hs. destruct (decide (i < n)%nat) as [|Hge]; [done|].
  rewrite (ao_above _ _ Ha i c Hi) in Hs by lia. done.
Qed.

Lemma entry_used c x : status c <> EBS_EMPTY -> l c = Some x -> entry c = Some (status c, x).
Proof. intros Hs Hl. unfold entry. by rewrite decide_False, Hl by done. Qed.

Lemma au_entries_insert arr i c c' :
  arr !! i = Some c ->
  exists rest, entries arr ≡ₚ option_list (entry c) ++ rest /\
    entries (<[i := c']> arr) ≡ₚ option_list (entry c') ++ rest.
Proof.
  intros Hi. exists (entries (take i arr) ++ entries (drop (S i) arr)).
  rewrite <-(take_drop_middle _ _ _ Hi) at 1. rewrite insert_take_drop by (by eapply lookup_lt_Some).
  unfold entries. rewrite !omap_app. cbn. destruct (entry c), (entry c'); cbn; split;
    by rewrite ?Permutation_middle.
Qed.

Lemma complete_in_perm xs ys : xs ≡ₚ ys -> complete_in xs ≡ₚ complete_in ys.
Proof. intros H. unfold complete_in. by rewrite H. Qed.

Lemma building_perm xs ys : xs ≡ₚ ys -> building xs ≡ₚ building ys.
Proof. intros H. unfold building. by rewrite H. Qed.

(** What an operation on the array keeps of the rest. *)
Definition io (st : state) : ausource_t * list string * Z * option (list getline_t) * Z * bool * DataBuf.DataBuf :=
  (source st, source_list st, Auparse.list_idx st, in_ st, Auparse.line_number st, line_pushed st, databuf st).

(** ** Loops over the slots *)

Lemma free_loop_spec n arr :
  arr_ok n arr -> exists arr' b, free_loop n arr = Some (arr', b) /\ arr_ok n arr' /\
    entries arr' = entries arr /\ length arr' = length arr.
Proof.
  revert n. induction arr as [|c arr IH]; intros n Ha.
  { destruct n; [|destruct Ha as [Hl _ _]; cbn in Hl; lia]. by exists [], false. }
  destruct n as [|n]; [by exists (c :: arr), false|].
  pose proof (arr_ok_cons _ _ _ Ha) as [Hc Ha'].
  destruct (IH n Ha') as (arr' & b & E & Hok & He & Hl). cbn [free_loop]. rewrite E.
  assert (forall c', slot_ok c' -> entry c' = entry c -> forall b' : bool, exists a b'', Some (c' :: arr', b') = Some (a, b'') /\
    arr_ok (S n) a /\ entries a = entries (c :: arr) /\ length a = length (c :: arr)) as Hput.
  { intros c' Hc' Hent b'. eexists _, _. split; [done|]. split; [|split].
    - destruct Hok as [H1 H2 H3]. split; [cbn; lia| |by constructor].
      intros [|i] d Hi Hle; [lia|]. apply (H2 i d Hi). lia.
    - unfold entries in *. cbn. by rewrite Hent, He.
    - cbn. by rewrite Hl. }
  cbn [mbind option_bind].
  destruct (status c) eqn:Es; [|by apply Hput..].
  destruct (l c) eqn:El; [|by apply Hput].
  apply Hput; [by intros []|]. unfold entry. by rewrite Es.
Qed.

Definition mark (p : event_list -> bool) (s : au_lol_t * event_list) : au_lol_t * event_list :=
  if decide (s.1 = EBS_BUILDING) then if p s.2 then (EBS_COMPLETE, s.2) else s else s.

Lemma au_complete_where_spec p n arr :
  arr_ok n arr -> exists arr' k, complete_where p n arr = Some (arr', k) /\ arr_ok n arr' /\
    entries arr' = mark p <$> entries arr /\ length arr' = length arr /\
    Z.of_nat (length (complete_in (entries arr'))) = Z.of_nat (length (complete_in (entries arr))) + k.
Proof.
  revert n. induction arr as [|c arr IH]; intros n Ha.
  { destruct n; [|destruct Ha as [Hl _ _]; cbn in Hl; lia]. by exists [], 0. }
  destruct n as [|n].
  { exists (c :: arr), 0. split; [done|]. split; [done|]. rewrite (arr_ok_0 _ Ha). cbn. split_and!; lia || done. }
  pose proof (arr_ok_cons _ _ _ Ha) as [Hc Ha'].
  destruct (IH n Ha') as (arr' & k & E & Hok & He & Hl & Hk). cbn [complete_where].
  assert (forall c' k', slot_ok c' -> option_list (entry c') = mark p <$> option_list (entry c) ->
    Z.of_nat (length (complete_in (option_list (entry c')))) = Z.of_nat (length (complete_in (option_list (entry c)))) + k' ->
    exists a b, Some (c' :: arr', k' + k) = Some (a, b) /\ arr_ok (S n) a /\
      entries a = mark p <$> entries (c :: arr) /\ length a = length (c :: arr) /\
      Z.of_nat (length (complete_in (entries a))) = Z.of_nat (length (complete_in (entries (c :: arr)))) + b) as Hput.
  { intros c' k' Hc' Hent Hcnt. eexists _, _. split; [done|]. split; [|split; [|split]].
    - destruct Hok as [H1 H2 H3]. split; [cbn; lia| |by constructor].
      intros [|i] d Hi Hle; [lia|]. apply (H2 i d Hi). lia.
    - unfold entries in *. cbn. rewrite He. destruct (entry c'), (entry c); cbn in *; congruence.
    - cbn. by rewrite Hl.
    - unfold entries, complete_in in *. cbn.
      destruct (entry c') as [[? ?]|], (entry c) as [[? ?]|]; cbn in *; repeat case_decide; cbn in *; lia. }
  destruct (decide (status c = EBS_BUILDING)) as [Es|Es].
  - destruct (Hc ltac:(by rewrite Es)) as (x & Hx & Hox). rewrite Hx. cbn [mbind option_bind].
    destruct (p x) eqn:Ep; rewrite E; cbn [mbind option_bind].
    + rewrite <-Hx. apply Hput.
      * intros _. by exists x.
      * rewrite !(entry_used _ x) by (done || by rewrite Es). cbn. unfold mark. cbn. by rewrite Es, Ep, decide_True.
      * rewrite !(entry_used _ x) by (done || by rewrite Es). cbn. by rewrite Es.
    + apply Hput; [done| |lia].
      rewrite !(entry_used _ x) by (done || by rewrite Es). cbn. unfold mark. cbn. by rewrite Es, Ep, decide_True.
  - cbn [mbind option_bind]. rewrite E. cbn [mbind option_bind]. apply Hput; [done| |lia].
    unfold entry. case_decide; [done|]. destruct (l c); [|done]. cbn. unfold mark. cbn. by rewrite decide_False.
Qed.

Lemma au_events_are_equal e1 e2 : events_are_equal e1 e2 = true <-> e1 = e2.
Proof.
  destruct e1 as [s1 m1 n1 h1], e2 as [s2 m2 n2 h2]. unfold events_are_equal. cbn.
  rewrite !andb_true_iff, !Z.eqb_eq. destruct h1, h2; try (split; [by intros [_ ?]|done]).
  - rewrite str_eq_true. split; [by intros (((-> & ->) & ->) & ->)|by intros [= -> -> -> ->]].
  - split; [by intros (((-> & ->) & ->) & _)|by intros [= -> -> ->]].
Qed.

Lemma au_find_building_spec ev n arr :
  arr_ok n arr -> exists r, find_building ev n arr = Some r /\
    match r with
    | Some i => exists c x, arr !! i = Some c /\ status c = EBS_BUILDING /\ l c = Some x /\ e x = ev
    | None => ev ∉ building (entries arr)
    end.
Proof.
  revert n. induction arr as [|c arr IH]; intros n Ha.
  { destruct n; [|destruct Ha as [Hl _ _]; cbn in Hl; lia]. exists None. split; [done|]. by apply not_elem_of_nil. }
  destruct n as [|n].
  { exists None. split; [done|]. rewrite (arr_ok_0 _ Ha). by apply not_elem_of_nil. }
  pose proof (arr_ok_cons _ _ _ Ha) as [Hc Ha'].
  destruct (IH n Ha') as (r & E & Hr). cbn [find_building]. rewrite E.
  assert ((status c = EBS_BUILDING -> forall x, l c = Some x -> e x <> ev) ->
    exists r', Some (option_map S r) = Some r' /\ match r' with
    | Some i => exists d x, (c :: arr) !! i = Some d /\ status d = EBS_BUILDING /\ l d = Some x /\ e x = ev
    | None => ev ∉ building (entries (c :: arr)) end) as Hlater.
  { intros Hne. eexists. split; [done|]. destruct r as [j|]; [done|]. cbn.
    unfold entries. cbn. fold (entries arr). unfold entry. case_decide; [done|].
    destruct (l c) as [x|] eqn:El; [|done]. cbn. unfold building. cbn. case_decide as Hb; [|done].
    rewrite not_elem_of_cons. split; [|done]. intros ->. by apply (Hne Hb x). }
  destruct (decide (status c = EBS_BUILDING)) as [Es|Es]; [|by apply Hlater].
  destruct (Hc ltac:(by rewrite Es)) as (x & Hx & _). rewrite Hx in *. cbn [mbind option_bind].
  destruct (events_are_equal (e x) ev) eqn:Ee.
  - eexists. split; [done|]. apply au_events_are_equal in Ee. by exists c, x.
  - apply Hlater. intros _ y [= <-] He. rewrite (proj2 (au_events_are_equal (e x) ev) He) in Ee. done.
Qed.

(** ** The lowest event *)

(** [e1] is not later than [e2]. *)
Definition not_after (e1 e2 : au_event) : Prop :=
  sec e1 < sec e2 \/ sec e1 = sec e2 /\
    (milli e1 < milli e2 \/ milli e1 = milli e2 /\ serial e1 <= serial e2).

Lemma not_after_compare e1 e2 : auparse_timestamp_compare e1 e2 <> 1 <-> not_after e1 e2.
Proof. unfold not_after, auparse_timestamp_compare. zb; cbn; lia. Qed.

Lemma later_compare e1 e2 : auparse_timestamp_compare e1 e2 = 1 -> not_after e2 e1.
Proof. unfold not_after, auparse_timestamp_compare. zb; cbn; lia. Qed.

Lemma not_after_refl e1 : not_after e1 e1.
Proof. unfold not_after. lia. Qed.

Lemma not_after_trans e1 e2 e3 : not_after e1 e2 -> not_after e2 e3 -> not_after e1 e3.
Proof. unfold not_after. lia. Qed.

(** The lowest of [low] and of the events in [arr], whose first slot is [i]. *)
Definition lowest_of (arr : list au_lolnode) (i : nat) (low r : option (nat * event_list)) : Prop :=
  match r with
  | None => low = None /\ entries arr = []
  | Some (j, x) =>
      (low = Some (j, x) \/
       exists k c, j = (i + k)%nat /\ arr !! k = Some c /\ status c <> EBS_EMPTY /\ l c = Some x) /\
      (forall m, low = Some m -> not_after (e x) (e m.2)) /\
      Forall (fun s => not_after (e x) (e s.2)) (entries arr)
  end.

Lemma lowest_of_none arr i low : entries arr = [] -> lowest_of arr i low low.
Proof.
  intros He. unfold lowest_of. rewrite He. destruct low as [[j x]|]; [|done].
  split_and!; [by left| |done]. intros m [= <-]. apply not_after_refl.
Qed.

Lemma lowest_of_empty c arr i low r :
  entry c = None -> lowest_of arr (S i) low r -> lowest_of (c :: arr) i low r.
Proof.
  intros Hc. unfold lowest_of, entries. cbn. rewrite Hc. destruct r as [[j x]|]; [|done].
  intros ([|(k & d & -> & ? & ? & ?)] & ? & ?); split_and!; try done; [by left|].
  right. exists (S k), d. split_and!; done || lia.
Qed.

Lemma lowest_of_used c arr i low x r :
  status c <> EBS_EMPTY -> l c = Some x ->
  lowest_of arr (S i)
    (match low with
     | None => Some (i, x)
     | Some (j, m) => if auparse_timestamp_compare (e m) (e x) =? 1 then Some (i, x) else Some (j, m)
     end) r ->
  lowest_of (c :: arr) i low r.
Proof.
  intros Hs Hl. set (low' := match low with None => _ | _ => _ end).
  assert (exists j m, low' = Some (j, m) /\ not_after (e m) (e x) /\
    (low = Some (j, m) \/ j = i /\ m = x) /\ (forall m', low = Some m' -> not_after (e m) (e m'.2)))
    as (j0 & m0 & -> & Hb & Hin0 & Hl0).
  { subst low'. destruct low as [[j m]|].
    - destruct (Z.eqb_spec (auparse_timestamp_compare (e m) (e x)) 1) as [Ec|Ec].
      + exists i, x. split_and!; [done|apply not_after_refl|by right|]. intros m' [= <-]. by apply later_compare.
      + exists j, m. split_and!; [done|by apply not_after_compare|by left|]. intros m' [= <-]. apply not_after_refl.
    - exists i, x. split_and!; [done|apply not_after_refl|by right|done]. }
  unfold lowest_of, entries. cbn. rewrite (entry_used c x Hs Hl). destruct r as [[j y]|]; [|by intros [? _]].
  intros (Hin & Hlow & Hall). specialize (Hlow _ eq_refl). cbn in Hlow. split_and!.
  - destruct Hin as [[= <- <-]|(k & d & -> & ? & ? & ?)].
    + destruct Hin0 as [|[-> ->]]; [by left|]. right. exists O, c. split_and!; done || lia.
    + right. exists (S k), d. split_and!; done || lia.
  - intros m' Hm'. eapply not_after_trans; [done|by apply Hl0].
  - constructor; [|done]. cbn. by eapply not_after_trans.
Qed.

Lemma ready_loop_spec n arr : forall i low, arr_ok n arr ->
  exists r, ready_loop false n i arr low = Some (inr r) /\ lowest_of arr i low r.
Proof.
  revert n. induction arr as [|c arr IH]; intros n i low Ha.
  { destruct n; [|destruct Ha as [Hl _ _]; cbn in Hl; lia]. exists low. split; [done|by apply lowest_of_none]. }
  destruct n as [|n].
  { exists low. split; [done|]. apply lowest_of_none. by apply arr_ok_0. }
  apply arr_ok_cons in Ha as [Hc Ha]. cbn [ready_loop]. case_decide as Hs.
  - destruct (IH n (S i) low Ha) as (r & -> & Hr). exists r. split; [done|].
    apply lowest_of_empty; [|done]. unfold entry. by rewrite decide_True.
  - destruct (Hc Hs) as (x & Hx & _). rewrite Hx. cbn [andb mbind option_bind].
    edestruct (IH n (S i)) as (r & -> & Hr); [exact Ha|]. exists r. split; [done|].
    by apply (lowest_of_used _ _ _ _ x).
Qed.

(** The current event is [x], in a slot that is free but for it. *)
Definition holding (st : state) (x : event_list) : Prop :=
  exists i c, le st = Some i /\ (i < upto (au_lo st))%nat /\ array (au_lo st) !! i = Some c /\
    status c = EBS_EMPTY /\ l c = Some x.

Lemma holding_current st x : holding st x -> current st = Some x.
Proof. intros (i & c & Hi & _ & Hc & _ & Hl). unfold current. rewrite Hi. cbn. by rewrite Hc. Qed.

(** The interpretations of the first record. *)
Definition first_interp (x : event_list) : list string :=
  match nodes (records x) with r :: _ => option_list (interp r) | [] => [] end.

(** Event [x] was just handed out. *)
Definition presents (st : state) (x : event_list) : Prop :=
  event_ok x /\ holding st (shown x) /\ il st = first_interp x.

Lemma presents_current st x : presents st x -> current st = Some (shown x).
Proof. intros (_ & H & _). by apply holding_current. Qed.

(** What handing out an event does: the lowest stored one leaves when it is
    complete and becomes the current one. *)
Definition hands_out (st : state) (b : bool) (st' : state) : Prop :=
  if b then
    exists x, stored st ≡ₚ (EBS_COMPLETE, x) :: stored st' /\ presents st' x /\
      Forall (fun s => not_after (e x) (e s.2)) (stored st')
  else st' = st /\ (Forall (fun s => s.1 = EBS_COMPLETE) (stored st) -> stored st = []).

Lemma inv_slots st : inv st -> Forall (fun s => s.1 <> EBS_EMPTY /\ event_ok s.2) (stored st).
Proof.
  intros H. apply Forall_forall. intros s (c & Hin & Hc)%list_elem_of_omap.
  pose proof (proj1 (Forall_forall _ _) (ao_slots _ _ (inv_arr _ H)) c Hin) as Hok.
  unfold entry in Hc. case_decide as Hs; [done|]. destruct (Hok Hs) as (x & Hx & Ho). rewrite Hx in Hc.
  by injection Hc as <-.
Qed.

Lemma make_current_spec i st c x :
  array (au_lo st) !! i = Some c -> l c = Some x -> event_ok x ->
  exists st', make_current i st = Some st' /\ io st' = io st /\ cur_buf st' = cur_buf st /\
    array (au_lo st') = <[i := AuLolNode (Some (shown x)) (status c)]> (array (au_lo st)) /\
    maxi (au_lo st') = maxi (au_lo st) /\ au_ready st' = au_ready st /\ le st' = Some i /\
    il st' = first_interp x.
Proof.
  intros Hc Hl Hx. unfold make_current. rewrite Hc. cbn [mbind option_bind]. rewrite Hl. cbn [mbind option_bind].
  destruct (first_cur x Hx) as (r & -> & Hh). cbn [mbind option_bind].
  assert (first_interp x = option_list (interp r)) as -> by (unfold first_interp; by destruct (nodes (records x)); simplify_eq/=).
  eexists. split; [done|]. destruct st as [? ? ? ? ? ? ? ? ? [arr m lim] ? ?]. cbn in *.
  split_and!; done.
Qed.

Lemma take_ready_spec st :
  inv st -> exists b st', take_ready st = Some (b, st') /\ inv st' /\ io st' = io st /\
    cur_buf st' = cur_buf st /\ hands_out st b st'.
Proof.
  intros Hv. unfold take_ready, au_get_ready_event. destruct (Z.eqb_spec (au_ready st) 0) as [Hr|_].
  { exists false, st. cbn. do 5 (split; [done|]). intros Hall. rewrite (inv_ready _ Hv) in Hr.
    unfold complete_in in Hr. destruct (stored st) as [|s ss]; [done|]. apply Forall_cons in Hall as [Hs _].
    cbn in Hr. rewrite decide_True in Hr by done. cbn in Hr. lia. }
  destruct (ready_loop_spec _ _ 0 None (inv_arr _ Hv)) as (r & E & Hlow). unfold upto in E. rewrite E.
  cbn [mbind option_bind]. destruct r as [[i x]|].
  2: { exists false, st. cbn. do 5 (split; [done|]). by destruct Hlow. }
  destruct Hlow as ([|(k & c & -> & Hc & Hs & Hl)] & _ & Hall); [done|]. cbn [plus]. rewrite Hc.
  cbn [mbind option_bind].
  destruct (au_entries_insert (array (au_lo st)) k c (AuLolNode (Some (shown x)) EBS_EMPTY) Hc)
    as (rest & He1 & He2).
  rewrite (entry_used c x Hs Hl) in He1. change (stored st ≡ₚ (status c, x) :: rest) in He1.
  case_decide as Hcomp.
  2: { exists false, st. cbn. do 5 (split; [done|]). intros Hf. rewrite He1 in Hf.
       by apply Forall_cons in Hf as [? _]. }
  assert (event_ok x) as Hox.
  { pose proof (inv_slots _ Hv) as Hsl. rewrite He1 in Hsl. apply Forall_cons in Hsl as [[_ Hsl] _]. done. }
  pose proof (lookup_lt_Some _ _ _ Hc) as Hlt.
  set (st1 := (set_array _ st) <|au_ready ::= _|>).
  assert (io st1 = io st /\ cur_buf st1 = cur_buf st /\ maxi (au_lo st1) = maxi (au_lo st) /\
    array (au_lo st1) = <[k := AuLolNode (l c) EBS_EMPTY]> (array (au_lo st)) /\
    au_ready st1 = au_ready st - 1) as (Hio & Hcb & Hm & Harr & Hrd) by (subst st1; by destruct st).
  cbn [mbind option_bind].
  destruct (make_current_spec k st1 (AuLolNode (l c) EBS_EMPTY) x) as (st2 & -> & Hio2 & Hcb2 & Harr2 & Hm2 & Hrd2 & Hcur & Hil);
    [by rewrite Harr, list_lookup_insert_eq|done|done|].
  cbn [mbind option_bind status] in *. exists true, st2. split; [done|].
  rewrite Harr, list_insert_insert_eq in Harr2.
  assert (stored st2 ≡ₚ rest) as Hst by (unfold stored; by rewrite Harr2).
  rewrite Hcomp in He1. split_and!; [|congruence..|].
  - split.
    + rewrite Harr2. intros H%(f_equal length). rewrite length_insert in H. cbn in H. lia.
    + rewrite Hm2, Hm. apply Hv.
    + rewrite Harr2. unfold upto. rewrite Hm2, Hm. apply arr_ok_insert; [apply Hv| |by intros []].
      eapply used_lt; [apply Hv|done|done].
    + rewrite Hrd2, Hrd, (inv_ready _ Hv), (complete_in_perm _ _ He1), (complete_in_perm _ _ Hst).
      change (complete_in ((EBS_COMPLETE, x) :: rest)) with (x :: complete_in rest). cbn [length]. lia.
    + rewrite (building_perm _ _ Hst). pose proof (inv_keys _ Hv) as Hk. by rewrite (building_perm _ _ He1) in Hk.
  - exists x. split_and!; [by rewrite Hst| |].
    { split; [done|]. split; [|done]. exists k, (AuLolNode (Some (shown x)) EBS_EMPTY). split_and!; try done.
      - unfold upto. rewrite Hm2, Hm. eapply used_lt; [apply Hv|done|done].
      - rewrite Harr2. by apply list_lookup_insert_eq. }
    rewrite Hst. rewrite He1 in Hall. by apply Forall_cons in Hall as [_ ?].
Qed.

(** ** Changing the stored events *)

(** Operations that only change the array. *)
Definition touches (st : state) (xs : slots) (st' : state) : Prop :=
  inv st' /\ io st' = io st /\ cur_buf st' = cur_buf st /\ stored st' ≡ₚ xs.

Lemma free_done_spec st : inv st -> exists st', free_done st = Some st' /\ touches st (stored st) st'.
Proof.
  intros Hv. unfold free_done. destruct (free_loop_spec _ _ (inv_arr _ Hv)) as (arr & b & E & Hok & He & Hl).
  unfold upto in E. rewrite E. cbn [mbind option_bind]. eexists. split; [done|].
  destruct st as [? ? ? ? ? ? ? ? ? [arr0 m lim] ? ?]. destruct Hv as [H1 H2 H3 H4 H5]. cbn in *.
  unfold touches, stored in *. cbn in *. split_and!; try done; [|by rewrite He].
  split; unfold stored; cbn; rewrite ?He; try done. intros ->. by destruct arr0.
Qed.

Lemma mark_building p xs : building (mark p <$> xs) `sublist_of` building xs.
Proof.
  unfold building. induction xs as [|[s x] xs IH]; [done|].
  destruct s; [exact IH| |exact IH]. rewrite fmap_cons. unfold mark at 1. cbn.
  destruct (p x); cbn; [by apply sublist_cons|by apply sublist_skip].
Qed.

Lemma au_complete_events_spec p st :
  inv st -> exists st', complete_events p st = Some st' /\ touches st (mark p <$> stored st) st'.
Proof.
  intros Hv. unfold complete_events.
  destruct (au_complete_where_spec p _ _ (inv_arr _ Hv)) as (arr & k & E & Hok & He & Hl & Hk).
  unfold upto in E. rewrite E. cbn [mbind option_bind]. eexists. split; [done|].
  destruct st as [? ? ? ? ? ? ? ? ? [arr0 m lim] ? ?]. destruct Hv as [H1 H2 H3 H4 H5].
  unfold touches, stored in *. cbn in *. split_and!; try done; [|by rewrite He].
  split; unfold stored; cbn; try done.
  - intros ->. by destruct arr0.
  - by rewrite Hk, H4.
  - rewrite He. eapply sublist_NoDup; [done|apply mark_building].
Qed.

(** Another list in a slot that is being built. *)
Lemma inv_replace st i c x y :
  inv st -> array (au_lo st) !! i = Some c -> status c = EBS_BUILDING -> l c = Some x ->
  event_ok y -> e y = e x ->
  exists rest, stored st ≡ₚ (EBS_BUILDING, x) :: rest /\
    touches st ((EBS_BUILDING, y) :: rest)
      (set_array (<[i := AuLolNode (Some y) EBS_BUILDING]> (array (au_lo st))) st).
Proof.
  intros Hv Hc Hs Hl Hy He.
  destruct (au_entries_insert _ _ _ (AuLolNode (Some y) EBS_BUILDING) Hc) as (rest & He1 & He2).
  rewrite (entry_used c x) in He1 by (done || by rewrite Hs). rewrite Hs in He1.
  change (stored st ≡ₚ (EBS_BUILDING, x) :: rest) in He1. exists rest. split; [done|].
  pose proof (inv_arr _ Hv) as Ha. pose proof (used_lt _ _ _ _ Ha Hc ltac:(by rewrite Hs)) as Hi.
  pose proof (lookup_lt_Some _ _ _ Hc) as Hlt.
  destruct st as [? ? ? ? ? ? ? ? ? [arr0 m lim] ? ?]. destruct Hv as [H1 H2 H3 H4 H5].
  unfold touches, stored in *. cbn in *. split_and!; try done.
  split; unfold stored; cbn; try done.
  - intros H%(f_equal length). rewrite length_insert in H. cbn in H. lia.
  - apply arr_ok_insert; [done|done|]. intros _. by exists y.
  - by rewrite (complete_in_perm _ _ He2), H4, (complete_in_perm _ _ He1).
  - rewrite (building_perm _ _ He2). rewrite (building_perm _ _ He1) in H5.
    change (NoDup (e y :: building rest)). by rewrite He.
Qed.

Lemma arr_ok_place n arr i c :
  arr_ok n arr -> (i < length arr)%nat -> slot_ok c -> arr_ok (Nat.max n (S i)) (<[i := c]> arr).
Proof.
  intros [Hl Ha Hs] Hi Hc. split.
  - rewrite length_insert. lia.
  - intros j d Hj Hle. rewrite list_lookup_insert_ne in Hj by lia. apply (Ha j d Hj). lia.
  - by apply Forall_insert.
Qed.

Lemma arr_ok_grow n arr k : arr_ok n arr -> arr_ok n (arr ++ replicate k free_node).
Proof.
  intros [Hl Ha Hs]. split.
  - rewrite length_app. lia.
  - intros i c [Hi|[_ Hi]]%lookup_app_Some Hle; [by apply (Ha i)|]. by apply lookup_replicate in Hi as [-> _].
  - apply Forall_app. split; [done|]. apply Forall_replicate. by intros [].
Qed.

Lemma au_entries_free k : entries (replicate k free_node) = [].
Proof. unfold entries. induction k as [|k IH]; [done|]. exact IH. Qed.

Lemma first_empty_spec arr i :
  first_empty arr = Some i -> exists c, arr !! i = Some c /\ status c = EBS_EMPTY.
Proof.
  revert i. induction arr as [|c arr IH]; [done|]. intros i. cbn. case_decide; [intros [= <-]; by exists c|].
  intros (j & Hj & ->)%fmap_Some. by apply IH.
Qed.

(** A new event in slot [i] of an array. *)
Lemma au_inv_place st arr i c x m lim :
  inv st -> arr_ok (upto (au_lo st)) arr -> entries arr = stored st ->
  arr !! i = Some c -> status c = EBS_EMPTY -> event_ok x -> e x ∉ building (stored st) ->
  m = Z.max (maxi (au_lo st)) (Z.of_nat i) ->
  touches st ((EBS_BUILDING, x) :: stored st)
    (st<|au_lo := AuLol (<[i := AuLolNode (Some x) EBS_BUILDING]> arr) m lim|>).
Proof.
  intros Hv Ha He Hc Hs Hx Hnew ->.
  destruct (au_entries_insert _ _ _ (AuLolNode (Some x) EBS_BUILDING) Hc) as (rest & He1 & He2).
  assert (entry c = None) as Hent by (unfold entry; by rewrite decide_True).
  rewrite Hent in He1. change (entries arr ≡ₚ rest) in He1. rewrite He in He1.
  change (entries (<[i := AuLolNode (Some x) EBS_BUILDING]> arr) ≡ₚ (EBS_BUILDING, x) :: rest) in He2.
  rewrite <-He1 in He2. pose proof (lookup_lt_Some _ _ _ Hc) as Hlt.
  destruct st as [? ? ? ? ? ? ? ? ? [arr0 m0 lim0] ? ?]. destruct Hv as [H1 H2 H3 H4 H5].
  unfold touches, stored in *. cbn in *. split_and!; try done.
  split; unfold stored; cbn.
  - intros H%(f_equal length). rewrite length_insert in H. cbn in H. lia.
  - lia.
  - unfold upto in *. cbn in *. replace (Z.to_nat (Z.max m0 (Z.of_nat i) + 1)) with (Nat.max (Z.to_nat (m0 + 1)) (S i)) by lia.
    apply arr_ok_place; [done|done|]. intros _. by exists x.
  - by rewrite (complete_in_perm _ _ He2), H4.
  - rewrite (building_perm _ _ He2). change (NoDup (e x :: building (entries arr0))). by constructor.
Qed.

Lemma au_lol_append_spec st x :
  inv st -> event_ok x -> e x ∉ building (stored st) ->
  exists st', au_lol_append realloc_ok x st = (true, st') /\ touches st ((EBS_BUILDING, x) :: stored st) st'.
Proof.
  intros Hv Hx Hnew. unfold au_lol_append. destruct (first_empty (array (au_lo st))) as [i|] eqn:Ei.
  - apply first_empty_spec in Ei as (c & Hc & Hs). eexists. split; [done|].
    eapply au_inv_place; [done|apply Hv|done|done|done|done|done|done].
  - rewrite Hrealloc. eexists. split; [done|].
    pose proof (inv_arr _ Hv) as Ha.
    eapply (au_inv_place _ _ _ free_node); try done.
    + by apply arr_ok_grow.
    + unfold entries, stored. rewrite omap_app. change (omap entry ?x) with (entries x). by rewrite au_entries_free, app_nil_r.
    + by rewrite lookup_app_r, Nat.sub_diag by lia.
    + destruct Ha as [Hle _ _]. unfold upto in Hle. lia.
Qed.

(** ** Filing a line *)

#[local] Instance au_event_eq_dec : EqDecision au_event.
Proof. solve_decision. Defined.

(** An event with one more record. *)
Definition with_line (b : string) (idx ln : Z) (x : event_list) : event_list :=
  match aup_list_append junk x (Some b) idx ln with Some (_, x') => x' | None => x end.

Lemma with_line_spec b idx ln x :
  wf (records x) -> line_ok b ->
  exists rc, aup_list_append junk x (Some b) idx ln = Some (rc, with_line b idx ln x) /\
    event_ok (with_line b idx ln x) /\ e (with_line b idx ln x) = e x.
Proof.
  intros Hwf Hb. destruct (aup_list_append_spec x b idx ln Hwf Hb) as (rc & r & x' & E & _ & En & _ & Hw & He).
  exists rc. unfold with_line. rewrite E. split; [done|]. split; [|done]. split; [done|]. rewrite En.
  by intros [_ ?]%app_eq_nil.
Qed.

(** The event that is being built with this stamp gets the line. *)
Definition extend (b : string) (idx ln : Z) (ev : au_event) (s : au_lol_t * event_list) : au_lol_t * event_list :=
  if decide (s.1 = EBS_BUILDING /\ e s.2 = ev) then (s.1, with_line b idx ln s.2) else s.

Definition new_event (b : string) (idx ln : Z) (ev : au_event) : event_list :=
  with_line b idx ln (aup_list_set_event aup_list_create ev).

(** The event consists of the mark that ends events. *)
Definition only_eoe (x : event_list) : bool :=
  match nodes (records x) with r :: _ => type r =? Lol.AUDIT_EOE | [] => false end.

(** The reference: all events in the order of their first lines, none is ever
    taken away. *)
Definition file_ref (b : string) (idx ln : Z) (xs : slots) : slots :=
  match extract_timestamp b with
  | Some (Some ev) =>
      if decide (ev ∈ building xs)
      then mark (is_done (sec ev)) <$> (extend b idx ln ev <$> xs)
      else if only_eoe (new_event b idx ln ev) then xs
      else mark (is_done (sec ev)) <$> (xs ++ [(EBS_BUILDING, new_event b idx ln ev)])
  | _ => xs
  end.

#[global] Instance file_ref_perm b idx ln : Proper ((≡ₚ) ==> (≡ₚ)) (file_ref b idx ln).
Proof.
  intros xs ys H. unfold file_ref. destruct (extract_timestamp b) as [[ev|]|]; [|done..].
  assert (ev ∈ building xs <-> ev ∈ building ys) as Hin by (by rewrite (building_perm _ _ H)).
  destruct (decide (ev ∈ building xs)), (decide (ev ∈ building ys)); try tauto; [by rewrite H|].
  destruct (only_eoe _); [done|]. by rewrite H.
Qed.

(** Events that were handed out stay as they are. *)
Definition done_with (xs : list event_list) : slots := (fun x => (EBS_COMPLETE, x)) <$> xs.

Lemma building_done xs : building (done_with xs) = [].
Proof. unfold building, done_with. induction xs as [|x xs IH]; [done|]. exact IH. Qed.

Lemma building_app xs ys : building (xs ++ ys) = building xs ++ building ys.
Proof. apply omap_app. Qed.

Lemma fmap_done f xs : (forall x, f (EBS_COMPLETE, x) = (EBS_COMPLETE, x)) -> f <$> done_with xs = done_with xs.
Proof. intros Hf. unfold done_with. rewrite <-list_fmap_compose. apply list_fmap_ext. intros i x _. apply Hf. Qed.

Lemma file_ref_done b idx ln xs ds :
  file_ref b idx ln (xs ++ done_with ds) ≡ₚ file_ref b idx ln xs ++ done_with ds.
Proof.
  unfold file_ref. destruct (extract_timestamp b) as [[ev|]|]; [|done..].
  rewrite building_app, building_done, app_nil_r. case_decide.
  - by rewrite !fmap_app, !(fmap_done _ ds) by done.
  - destruct (only_eoe _); [done|]. rewrite !fmap_app, !(fmap_done _ ds) by done. rewrite <-!app_assoc.
    apply Permutation_app_head, Permutation_app_comm.
Qed.

Lemma extend_one b idx ln x rest :
  NoDup (building ((EBS_BUILDING, x) :: rest)) ->
  extend b idx ln (e x) <$> (EBS_BUILDING, x) :: rest = (EBS_BUILDING, with_line b idx ln x) :: rest.
Proof.
  change (building ((EBS_BUILDING, x) :: rest)) with (e x :: building rest).
  intros [Hnot _]%NoDup_cons. cbn. unfold extend at 1. rewrite decide_True by done. f_equal.
  rewrite <-(list_fmap_id rest) at 2. apply list_fmap_ext. intros i [s y] Hi. unfold extend, id. cbn.
  case_decide as Hs; [|done]. destruct Hs as [-> Hy]. destruct Hnot. rewrite <-Hy. unfold building.
  apply list_elem_of_omap. exists (EBS_BUILDING, y). split; [by eapply list_elem_of_lookup_2|done].
Qed.

Definition filed (st : state) (xs : slots) (o : outcome) (st' : state) : Prop :=
  match o with
  | Again => stored st' ≡ₚ xs
  | Return rc => rc = 1 /\ exists x, (EBS_COMPLETE, x) :: stored st' ≡ₚ xs /\ presents st' x
  end.

Lemma only_eoe_head x : event_ok x ->
  exists r, nodes (records x) !! O = Some r /\ only_eoe x = (type r =? Lol.AUDIT_EOE).
Proof. intros [_ Hne]. unfold only_eoe. destruct (nodes (records x)) as [|r rs]; [done|]. by exists r. Qed.

(** Dropping the line that was filed. *)
Lemma inv_no_line st : inv st -> inv (st<|cur_buf := None|>) /\ io (st<|cur_buf := None|>) = io st /\
  stored (st<|cur_buf := None|>) = stored st.
Proof. intros [H1 H2 H3 H4 H5]. destruct st. by split_and!; [split|..]. Qed.

Lemma file_old_line st b ev i :
  inv st -> cur_buf st = Some b -> line_ok b ->
  find_building ev (upto (au_lo st)) (array (au_lo st)) = Some (Some i) ->
  exists st' st'', append_to_slot junk i st = Some st' /\
    au_check_events (sec ev) (st'<|cur_buf := None|>) = Some st'' /\ inv st'' /\ io st'' = io st /\
    ev ∈ building (stored st) /\
    stored st'' ≡ₚ mark (is_done (sec ev)) <$>
      (extend b (Auparse.list_idx st) (Auparse.line_number st) ev <$> stored st).
Proof.
  intros Hv Hb Hok Hf.
  destruct (au_find_building_spec ev _ _ (inv_arr _ Hv)) as (r & Hr & Hi). rewrite Hf in Hr. injection Hr as <-.
  destruct Hi as (c & x & Hc & Hs & Hl & He).
  pose proof (inv_slots _ Hv) as Hsl.
  set (y := with_line b (Auparse.list_idx st) (Auparse.line_number st) x).
  assert (event_ok x) as Hx.
  { destruct (proj1 (Forall_forall _ _) (ao_slots _ _ (inv_arr _ Hv)) c) as (x' & Hx' & ?);
      [by eapply list_elem_of_lookup_2|by rewrite Hs|congruence]. }
  destruct (with_line_spec b (Auparse.list_idx st) (Auparse.line_number st) x (ev_wf _ Hx) Hok) as (rc & Ea & Hy & Ey).
  destruct (inv_replace st i c x y Hv Hc Hs Hl Hy Ey) as (rest & Hst & Hv1 & Hio1 & Hcb1 & Hst1).
  eexists. unfold append_to_slot. rewrite Hc. cbn [mbind option_bind]. rewrite Hl. cbn [mbind option_bind].
  rewrite Hb, Ea, Hs. cbn [mbind option_bind]. fold y.
  set (st1 := set_array _ st) in *.
  destruct (inv_no_line st1 Hv1) as (Hv2 & Hio2 & Hst2).
  destruct (au_complete_events_spec (is_done (sec ev)) _ Hv2) as (st3 & E3 & Hv3 & Hio3 & _ & Hst3).
  exists st3. split; [done|]. split; [exact E3|]. split; [done|]. split; [congruence|].
  pose proof (inv_keys _ Hv) as Hk. rewrite (building_perm _ _ Hst) in Hk.
  split.
  - rewrite (building_perm _ _ Hst). subst ev. change (e x ∈ e x :: building rest). by left.
  - rewrite Hst3, Hst2, Hst1, Hst, <-He. by rewrite extend_one.
Qed.

Lemma file_new_line st b ev :
  inv st -> cur_buf st = Some b -> line_ok b -> ev ∉ building (stored st) ->
  let x := new_event b (Auparse.list_idx st) (Auparse.line_number st) ev in
  exists st' st'' ok st3, au_lol_append realloc_ok x st = (true, st') /\
    au_check_events (sec ev) (st'<|cur_buf := None|>) = Some st'' /\
    take_ready st'' = Some (ok, st3) /\ inv st3 /\ io st3 = io st /\
    filed st (mark (is_done (sec ev)) <$> (stored st ++ [(EBS_BUILDING, x)]))
      (if ok : bool then Return 1 else Again) st3.
Proof.
  intros Hv Hb Hok Hnew x.
  destruct (with_line_spec b (Auparse.list_idx st) (Auparse.line_number st)
    (aup_list_set_event aup_list_create ev) wf_create Hok) as (rc & _ & Hx & Ex).
  destruct (au_lol_append_spec st x Hv Hx) as (st1 & E1 & Hv1 & Hio1 & _ & Hst1);
    [unfold x, new_event; by rewrite Ex|].
  destruct (inv_no_line st1 Hv1) as (Hv2 & Hio2 & Hst2).
  destruct (au_complete_events_spec (is_done (sec ev)) _ Hv2) as (st3 & E3 & Hv3 & Hio3 & _ & Hst3).
  destruct (take_ready_spec st3 Hv3) as (ok & st4 & E4 & Hv4 & Hio4 & _ & Hout).
  exists st1, st3, ok, st4. do 3 (split; [done|]). split; [done|]. split; [congruence|].
  assert (stored st3 ≡ₚ mark (is_done (sec ev)) <$> (stored st ++ [(EBS_BUILDING, x)])) as Hall
    by (rewrite Hst3, Hst2, Hst1; by rewrite <-Permutation_cons_append).
  destruct ok; cbn in Hout |- *.
  - split; [done|]. destruct Hout as (y & Hy & Hcur & _). exists y. split; [by rewrite <-Hy|done].
  - destruct Hout as [-> _]. exact Hall.
Qed.

Lemma file_line_spec st b :
  inv st -> cur_buf st = Some b -> line_ok b -> is_Some (extract_timestamp b) ->
  exists o st', file_line junk realloc_ok st = Some (o, st') /\ inv st' /\ io st' = io st /\
    filed st (file_ref b (Auparse.list_idx st) (Auparse.line_number st) (stored st)) o st'.
Proof.
  intros Hv Hb Hok [oev Hts]. unfold file_line, file_ref. rewrite Hb. cbn [mbind option_bind]. rewrite Hts.
  cbn [mbind option_bind]. destruct oev as [ev|]; [|exists Again, st; split_and!; [done..|by unfold filed]].
  destruct (au_find_building_spec ev _ _ (inv_arr _ Hv)) as (r & Hr & Hi).
  pose proof Hr as Hf. unfold upto in Hr. rewrite Hr. cbn [mbind option_bind]. destruct r as [i|].
  - destruct (file_old_line st b ev i Hv Hb Hok Hf) as (st1 & st2 & -> & E2 & Hv2 & Hio2 & Hin & Hst2).
    cbn [mbind option_bind]. rewrite E2. cbn [mbind option_bind]. exists Again, st2.
    rewrite decide_True by done. by split_and!; [..|unfold filed].
  - rewrite decide_False by done.
    destruct (with_line_spec b (Auparse.list_idx st) (Auparse.line_number st)
      (aup_list_set_event aup_list_create ev) wf_create Hok) as (rc & E & Hx & _).
    rewrite E. cbn [mbind option_bind]. fold (new_event b (Auparse.list_idx st) (Auparse.line_number st) ev) in *.
    destruct (only_eoe_head _ Hx) as (h & -> & Heoe). cbn [mbind option_bind]. rewrite Heoe.
    destruct (type h =? Lol.AUDIT_EOE).
    + destruct (inv_no_line st Hv) as (? & ? & Hs). eexists Again, _. split; [done|]. split; [done|]. split; [done|].
      unfold filed. by rewrite Hs.
    + destruct (file_new_line st b ev Hv Hb Hok Hi) as (st1 & st2 & ok & st3 & -> & E2 & E3 & Hv3 & Hio3 & Hfl).
      cbn [negb]. rewrite E2. cbn [mbind option_bind]. rewrite E3. cbn [mbind option_bind].
      eexists _, st3. by split_and!.
Qed.

Lemma file_ref_length b idx ln xs : (length (file_ref b idx ln xs) <= S (length xs))%nat.
Proof.
  unfold file_ref. destruct (extract_timestamp b) as [[ev|]|]; [|lia..]. case_decide.
  - rewrite !length_fmap. lia.
  - destruct (only_eoe _); [lia|]. rewrite length_fmap, length_app. cbn. lia.
Qed.

End library.

#[global] Arguments entries : simpl never.
#[global] Arguments complete_in : simpl never.
#[global] Arguments building : simpl never.

End AuparseFacts.
