(* ===== verification/AuparseFeed.v ===== *)
(** * The parser library: all events of the input are handed out

    However a log is cut into pieces, and from a buffer too, the events handed out
    are those that one pass over the lines assembles. *)
From S2P Require Import Prelude CString CList StrSplit Nvlist DataBuf Escape Lol Ellist EllistFacts Auparse AuparseFacts.
From coqutil Require Import Datatypes.RecordSetters.
Import RecordSetters.TriangleBracketNotations.

Local Open Scope audit_scope.
Local Open Scope Z_scope.

Module AuparseFeed.
Import Nv Ellist Auparse AuparseFacts.

Section library.
Context {mt : Lol.MsgTypes} {em : ElfMachines} {fs : Files}.
Context (junk : ascii) (realloc_ok : Z -> bool).
Context (Hrealloc : forall n, realloc_ok n = true).

Local Abbreviation slots := (list (au_lol_t * event_list)).
Local Abbreviation file_ref := (AuparseFacts.file_ref junk).

(** ** Lines *)

(** The lines of the data and what follows the last newline; [acc] was read
    already. *)
Fixpoint lines_of (acc data : chars) : list chars * chars :=
  match data with
  | [] => ([], acc)
  | c :: data =>
      if decide (c = LF) then let (ls, r) := lines_of [] data in (acc :: ls, r)
      else lines_of (acc ++ [c]) data
  end.

Lemma lines_of_app acc a b :
  lines_of acc (a ++ b)
  = let (la, ra) := lines_of acc a in let (lb, rb) := lines_of ra b in (la ++ lb, rb).
Proof.
  revert acc. induction a as [|c a IH]; intros acc; cbn; [by destruct (lines_of acc b)|].
  case_decide; [|apply IH]. rewrite IH. destruct (lines_of [] a) as [la ra], (lines_of ra b). done.
Qed.

Lemma lines_of_acc acc data : LF ∉ acc -> lines_of [] (acc ++ data) = lines_of acc data.
Proof.
  intros Hn. rewrite lines_of_app. assert (forall p, lines_of p acc = ([], p ++ acc)) as ->.
  { induction acc as [|c acc IH]; intros p; cbn; [by rewrite app_nil_r|].
    apply not_elem_of_cons in Hn as [Hc Hn]. rewrite decide_False by done.
    rewrite IH by done. by rewrite <-app_assoc. }
  cbn. by destruct (lines_of acc data).
Qed.

Lemma rest_no_newline acc data : LF ∉ acc -> LF ∉ (lines_of acc data).2.
Proof.
  revert acc. induction data as [|c data IH]; intros acc Hacc; cbn; [done|]. case_decide as Hc.
  - specialize (IH [] (not_elem_of_nil _)). by destruct (lines_of [] data).
  - apply IH. rewrite not_elem_of_app. split; [done|]. by apply not_elem_of_cons; split; [|apply not_elem_of_nil].
Qed.

(** The lines of data fed in two pieces. *)
Lemma lines_of_pieces a b :
  lines_of [] (a ++ b) = let (la, ra) := lines_of [] a in
                         let (lb, rb) := lines_of [] (ra ++ b) in (la ++ lb, rb).
Proof.
  rewrite lines_of_app. pose proof (rest_no_newline [] a (not_elem_of_nil _)) as Hn.
  destruct (lines_of [] a) as [la ra]. cbn in Hn. by rewrite (lines_of_acc _ _ Hn).
Qed.

Lemma lines_first data n :
  fst <$> list_find (fun c => c = LF) data = Some n ->
  lines_of [] data = let (ls, r) := lines_of [] (drop (S n) data) in (take n data :: ls, r).
Proof.
  intros ([m c] & (Hc & -> & Hbefore)%list_find_Some & ->)%fmap_Some. cbn [fst].
  rewrite <-(take_drop_middle _ _ _ Hc) at 1. rewrite lines_of_acc.
  - cbn. by destruct (lines_of [] (drop (S m) data)).
  - intros (k & Hk)%list_elem_of_lookup. apply lookup_take_Some in Hk as [Hk Hlt]. by apply (Hbefore k LF).
Qed.

Lemma lines_none data : list_find (fun c => c = LF) data = None -> lines_of [] data = ([], data).
Proof.
  intros H%list_find_None. rewrite <-(app_nil_r data) at 1. rewrite lines_of_acc; [done|].
  intros Hin. rewrite Forall_forall in H. by apply (H LF).
Qed.

Lemma lines_length acc data :
  Forall (fun s => (length s <= length acc + length data)%nat) (lines_of acc data).1.
Proof.
  revert acc. induction data as [|c data IH]; intros acc; cbn; [done|]. case_decide.
  - specialize (IH []). destruct (lines_of [] data) as [ls r]. cbn in *. constructor; [lia|].
    eapply Forall_impl; [done|]. cbn. lia.
  - eapply Forall_impl; [apply IH|]. intros s. rewrite length_app. cbn. lia.
Qed.

Lemma line_text_ok s : Z.of_nat (length s) < two32 -> line_ok (line_text s).
Proof.
  intros Hl. unfold line_text, line_ok. rewrite EllistFacts.to_chars_to_string, EllistFacts.to_string_length.
  pose proof (EllistFacts.until_nul_length s). split; [|lia].
  clear. induction s as [|c s IH]; cbn; [by apply not_elem_of_nil|].
  destruct (Ascii.eqb_spec c NUL) as [|Hc]; [by apply not_elem_of_nil|]. by apply not_elem_of_cons.
Qed.

(** ** Feeding *)

Definition pending (st : state) : chars := DataBuf.contents (databuf st).

(** The reference on lines: their number and the events. *)
Definition assemble (ls : list chars) (a : Z * slots) : Z * slots :=
  foldl (fun a s => (a.1 +u 1, file_ref (line_text s) 0 (a.1 +u 1) a.2)) a ls.

(** Lines that extract_timestamp() reads inside of their memory. *)
Definition stamped (s : chars) : Prop := is_Some (extract_timestamp (line_text s)).
Definition line_good (s : chars) : Prop := stamped s /\ Z.of_nat (length s) < two32.

(** All events become complete. *)
Definition finish (a : Z * slots) : Z * slots := (a.1, mark (fun _ => true) <$> a.2).

Section source.
(** Whether the source is a feed, or a buffer. *)
Context (k : bool).

(** A parser that is fed or reads a buffer: [ds] was handed out, and once the
    lines in the buffer are filed the number of the line and the events meet [T];
    [r] stays in the buffer.  At the end of a buffer all events become complete. *)
Record feeding (st : state) (ds : list event_list) (T : Z * slots -> Prop) (r : chars) : Prop := Feeding {
  fd_inv : inv st;
  fd_source : if k then source st = AUSOURCE_FEED /\ DataBuf.preserve_head (databuf st) = false
              else source st = AUSOURCE_BUFFER /\ forall a, T a -> T (finish a);
  fd_idx : Auparse.list_idx st = 0;
  fd_pushed : line_pushed st = false;
  fd_buf : DataBuf.valid (databuf st);
  fd_lines : Forall line_good (lines_of [] (pending st)).1;
  fd_rest : (lines_of [] (pending st)).2 = r;
  fd_target : exists xs, stored st ++ done_with ds ≡ₚ xs /\
    T (assemble (lines_of [] (pending st)).1 (Auparse.line_number st, xs));
}.

Lemma feeding_same st st' ds T r :
  feeding st ds T r -> inv st' -> io st' = io st -> stored st' ≡ₚ stored st -> feeding st' ds T r.
Proof.
  intros [H1 H2 H3 H4 H5 H7 H8 (xs & Hx & Ht)] Hv Hio Hst. unfold io, pending in *.
  injection Hio as E1 E2 E3 E4 E5 E6 E7. split; unfold pending; rewrite ?E1, ?E2, ?E3, ?E5, ?E6, ?E7; try done.
  exists xs. by rewrite Hst.
Qed.

Lemma feeding_out st st' ds T r x :
  feeding st ds T r -> inv st' -> io st' = io st -> stored st ≡ₚ (EBS_COMPLETE, x) :: stored st' ->
  feeding st' (x :: ds) T r.
Proof.
  intros [H1 H2 H3 H4 H5 H7 H8 (xs & Hx & Ht)] Hv Hio Hst. unfold io, pending in *.
  injection Hio as E1 E2 E3 E4 E5 E6 E7. split; unfold pending; rewrite ?E1, ?E2, ?E3, ?E5, ?E6, ?E7; try done.
  exists xs. split; [|done]. rewrite <-Hx, Hst. cbn. by rewrite <-Permutation_middle.
Qed.

Lemma feeding_perm st ds ds' T r : ds ≡ₚ ds' -> feeding st ds T r -> feeding st ds' T r.
Proof.
  intros Hp [H1 H2 H3 H4 H5 H7 H8 (xs & Hx & Ht)]. split; try done. exists xs. split; [|done].
  unfold done_with in *. by rewrite <-Hp.
Qed.

(** Reading a line: there is none, or the first one. *)
Lemma read_feed st ds T r :
  feeding st ds T r ->
  (exists rc st', retrieve_next_line st = Some (rc, st') /\
     (rc = 0 /\ (source st = AUSOURCE_BUFFER -> pending st <> []) \/
      rc = -2 /\ source st = AUSOURCE_BUFFER /\ pending st = []) /\
     feeding st' ds T r /\ (lines_of [] (pending st')).1 = [] /\ stored st' = stored st /\ io st' = io st) \/
  (exists st' s ls, retrieve_next_line st = Some (1, st') /\ inv st' /\ cur_buf st' = Some (line_text s) /\
     line_good s /\ Auparse.list_idx st' = 0 /\ stored st' = stored st /\
     (length (pending st') < length (pending st))%nat /\
     lines_of [] (pending st) = (s :: ls, r) /\
     Auparse.line_number st' = Auparse.line_number st +u 1 /\ source st' = source st /\
     forall st2 ds2, inv st2 -> io st2 = io st' ->
       stored st2 ++ done_with ds2 ≡ₚ file_ref (line_text s) 0 (Auparse.line_number st') (stored st ++ done_with ds) ->
       feeding st2 ds2 T r).
Proof.
  intros Hf. pose proof Hf as [Hv Hs Hi Hp Hb Hl Hr (xs & Hx & Ht)].
  unfold retrieve_next_line. rewrite Hp.
  pose proof (DataBuf.contents_length _ Hb) as Hlen.
  destruct st as [so sl ix inn ln cb pu lee db lo rd ill]. cbn in Hs, Hi, Hp, Hb, Hlen. subst ix pu.
  assert (inv (State so sl 0 inn ln None false lee db lo rd ill)) as Hv'
    by (destruct Hv; by split).
  unfold readline_buf. cbn -[DataBuf.databuf_advance].
  destruct (Z.eqb_spec (DataBuf.len db) 0) as [H0|H0].
  { left. assert (DataBuf.contents db = []) as E0 by (destruct (DataBuf.contents db); [done|cbn in Hlen; lia]).
    assert (forall st', st' = State so sl 0 inn ln None false lee db lo rd ill ->
      feeding st' ds T r /\ (lines_of [] (pending st')).1 = [] /\
      stored st' = stored (State so sl 0 inn ln cb false lee db lo rd ill) /\
      io st' = io (State so sl 0 inn ln cb false lee db lo rd ill)) as Hsame.
    { intros st' ->. split; [by eapply feeding_same|]. unfold pending. cbn [databuf]. by rewrite E0. }
    destruct k; destruct Hs as [-> _]; cbn; eexists _, _; (split; [done|]);
      (split; [|apply Hsame; done]); [by left|right]. unfold pending. by cbn [databuf]. }
  rewrite decide_True by done. unfold pending in *. cbn [databuf] in *.
  assert (DataBuf.contents db <> []) as Hne by (intros E; rewrite E in Hlen; cbn in Hlen; lia).
  destruct (list_find (fun c => c = LF) (DataBuf.contents db)) as [[n c]|] eqn:Ef.
  2: { left. destruct k; destruct Hs as [-> _]; cbn; eexists _, _; (split; [done|]); (split; [by left|]);
       (split; [by eapply feeding_same|]); unfold pending; cbn [databuf]; by rewrite lines_none. }
  right. pose proof (lines_first (DataBuf.contents db) n ltac:(by rewrite Ef)) as E1.
  apply list_find_Some in Ef as (Hc & _ & _). apply lookup_lt_Some in Hc.
  destruct (DataBuf.advance_spec (Z.of_nat n + 1) db Hb ltac:(lia)) as (db' & Ea & Hb' & Hc' & _ & Hh' & _).
  cbn -[DataBuf.databuf_advance]. rewrite Ea. rewrite (proj2 (Z.leb_le _ _)) by lia. cbn.
  replace (Z.to_nat (Z.of_nat n + 1)) with (S n) in Hc' by lia. rewrite <-Hc' in E1.
  destruct (lines_of [] (DataBuf.contents db')) as [ls r'] eqn:E2. rewrite E1 in Hl, Hr, Ht. cbn in Hl, Hr, Ht. subst r'.
  apply Forall_cons in Hl as [Hg Hl].
  exists (State so sl 0 inn (ln +u 1) (Some (line_text (take n (DataBuf.contents db)))) false lee db' lo rd ill),
    (take n (DataBuf.contents db)), ls.
  split; [by destruct k; destruct Hs as [-> _]|].
  split; [destruct Hv; by split|]. split; [done|]. split; [done|]. split; [done|]. split; [done|].
  split; [change (length (DataBuf.contents db') < length (DataBuf.contents db))%nat; rewrite Hc', length_drop; lia|].
  split; [done|]. split; [done|]. split; [done|].
  intros [so2 sl2 ix2 inn2 ln2 cb2 pu2 lee2 db2 lo2 rd2 il2] ds2 Hv2 Hio Hst2. unfold io in Hio. cbn in Hio.
  injection Hio as -> -> -> -> -> -> ->.
  split; unfold pending; cbn [databuf source Auparse.list_idx line_pushed Auparse.line_number];
    rewrite ?E2, ?Hh'; try done.
  eexists. split; [by rewrite Hst2, Hx|done].
Qed.

(** What is left to do for the loops. *)
Definition work (st : state) : nat := (length (pending st) + length (stored st))%nat.

(** No line is left, and no event at the end of a buffer. *)
Definition drained (st : state) : Prop :=
  (lines_of [] (pending st)).1 = [] /\
  (source st = AUSOURCE_BUFFER -> pending st = [] -> stored st = []).

(** One more event, or nothing left to read. *)
Definition progress (st : state) (ds : list event_list) (T : Z * slots -> Prop) (r : chars) (rc : Z) (st' : state) : Prop :=
  (rc = 1 /\ exists x, feeding st' (x :: ds) T r /\ presents st' x /\ (work st' < work st)%nat) \/
  (rc = 0 /\ feeding st' ds T r /\ drained st').

Lemma progress_from st1 st2 ds T r rc st' :
  (work st2 <= work st1)%nat -> progress st2 ds T r rc st' -> progress st1 ds T r rc st'.
Proof.
  intros Hw [(-> & x & Hf & Hc & Hlt)|Hz]; [left|by right]. split; [done|]. exists x. split_and!; try done. lia.
Qed.

Lemma io_pending st st' : io st' = io st -> pending st' = pending st.
Proof. unfold io, pending. by intros [= _ _ _ _ _ _ ->]. Qed.

Lemma io_source st st' : io st' = io st -> source st' = source st.
Proof. unfold io. by intros [= -> _ _ _ _ _ _]. Qed.

Lemma mark_all xs : Forall (fun s => s.1 <> EBS_EMPTY) xs -> mark (fun _ => true) <$> xs = done_with xs.*2.
Proof.
  unfold done_with. rewrite <-list_fmap_compose. intros H. apply list_fmap_ext. intros i [s x] Hi.
  rewrite Forall_lookup in H. specialize (H i _ Hi). unfold mark. cbn in *. by destruct s.
Qed.

Lemma all_complete st st' :
  inv st -> stored st' ≡ₚ mark (fun _ => true) <$> stored st -> Forall (fun s => s.1 = EBS_COMPLETE) (stored st').
Proof.
  intros Hv ->. rewrite mark_all.
  - unfold done_with. by apply Forall_fmap, Forall_true.
  - eapply Forall_impl; [apply (inv_slots _ Hv)|]. by intros s [].
Qed.

(** The end of a buffer. *)
Lemma end_of_buffer st ds T r :
  feeding st ds T r -> source st = AUSOURCE_BUFFER -> (lines_of [] (pending st)).1 = [] ->
  exists st1 b st', au_terminate_all_events st = Some st1 /\ take_ready st1 = Some (b, st') /\
    progress st ds T r (if b : bool then 1 else 0) st'.
Proof.
  intros Hf Hsrc Hn. pose proof (fd_inv _ _ _ _ Hf) as Hv.
  destruct (au_complete_events_spec (fun _ => true) st Hv) as (st1 & E1 & Hv1 & Hio1 & _ & Hst1).
  pose proof (all_complete _ _ Hv Hst1) as Hall. pose proof (io_pending _ _ Hio1) as Hp1.
  assert (feeding st1 ds T r) as Hf1.
  { destruct Hf as [H1 H2 H3 H4 H5 H7 H8 (xs & Hx & Ht)]. unfold io, pending in *.
    injection Hio1 as E2 E3 E4 E5 E6 E7 E8. split; unfold pending; rewrite ?E2, ?E3, ?E4, ?E6, ?E7, ?E8; try done.
    rewrite Hn in *. cbn in *. destruct k; [destruct H2; congruence|]. destruct H2 as [_ Hfin].
    exists (mark (fun _ => true) <$> xs). split; [|by apply (Hfin _ Ht)].
    rewrite Hst1, <-Hx, fmap_app. by rewrite (fmap_done _ ds). }
  destruct (take_ready_spec st1 Hv1) as (b & st2 & E2 & Hv2 & Hio2 & _ & Hout).
  exists st1, b, st2. split; [exact E1|]. split; [done|]. pose proof (io_pending _ _ Hio2) as Hp2.
  apply Permutation_length in Hst1 as Hl1. rewrite length_fmap in Hl1.
  destruct b; cbn in Hout.
  - destruct Hout as (x & Hx & Hcur & _). left. split; [done|]. exists x. split; [by eapply feeding_out|].
    split; [done|]. apply Permutation_length in Hx. cbn in Hx. unfold work. rewrite Hp2, Hp1. lia.
  - destruct Hout as [-> Hempty]. right. split; [done|]. split; [done|]. unfold drained. rewrite Hp1. split; [done|].
    intros _ _. by apply Hempty.
Qed.

Lemma ingest_loop_spec fuel : forall st ds T r,
  (length (pending st) < fuel)%nat -> feeding st ds T r ->
  exists rc st', ingest_loop junk realloc_ok fuel st = Some (rc, st') /\ progress st ds T r rc st'.
Proof.
  induction fuel as [|fuel IH]; intros st ds T r Hfuel Hf; [lia|]. cbn [ingest_loop].
  destruct (free_done_spec st (fd_inv _ _ _ _ Hf)) as (st1 & -> & Hv1 & Hio1 & _ & Hst1). cbn [mbind option_bind].
  pose proof (io_pending _ _ Hio1) as Hp1. pose proof (Permutation_length Hst1) as Hl1.
  pose proof (feeding_same _ _ _ _ _ Hf Hv1 Hio1 Hst1) as Hf1.
  destruct (read_feed st1 ds T r Hf1) as [(rc & st2 & -> & Hrc & Hf2 & Hnone & Hst2 & Hio2)|(st2 & s & ls & -> & Hv2 & Hcb & [Hts Hlen] & Hix & Hst2 & Hless & _ & _ & _ & Hnext)];
    cbn [mbind option_bind].
  { pose proof (io_pending _ _ Hio2) as Hp2. pose proof (io_source _ _ Hio2) as Hs2.
    destruct Hrc as [[-> Hb]|(-> & Hsrc & Hp)].
    - exists 0, st2. split; [done|]. right. do 3 (split; [done|]). intros Hs Hp. rewrite Hs2 in Hs. rewrite Hp2 in Hp. by destruct (Hb Hs).
    - replace (-2 =? 0) with false by done. replace (-2 =? -2) with true by done.
      destruct (end_of_buffer st2 ds T r Hf2) as (st3 & b & st4 & -> & E4 & Hpr); [congruence|done|].
      cbn [mbind option_bind]. rewrite E4. cbn [mbind option_bind]. eexists _, st4. split; [done|].
      eapply progress_from; [|done]. unfold work. rewrite Hp2, Hp1, Hst2. lia. }
  replace (1 =? 0) with false by done. replace (1 =? -2) with false by done. replace (1 <? 0) with false by done.
  destruct (file_line_spec junk realloc_ok Hrealloc st2 (line_text s) Hv2 Hcb (line_text_ok s Hlen) Hts) as (o & st3 & -> & Hv3 & Hio3 & Hfl).
  cbn [mbind option_bind]. rewrite Hix, Hst2 in Hfl. pose proof (io_pending _ _ Hio3) as Hp3.
  pose proof (file_ref_length junk (line_text s) 0 (Auparse.line_number st2) (stored st1)) as Hfr.
  destruct o as [rc|]; cbn in Hfl.
  - destruct Hfl as (-> & x & Hx & Hcur). exists 1, st3. split; [done|]. left. split; [done|]. exists x.
    split; [|split; [done|]].
    + apply Hnext; [done|done|]. rewrite file_ref_done, <-Hx. cbn. by rewrite <-Permutation_middle.
    + apply Permutation_length in Hx. cbn in Hx. unfold work. rewrite Hp3. rewrite Hp1 in *. lia.
  - assert (feeding st3 ds T r) as Hf3 by (apply Hnext; [done|done|by rewrite file_ref_done, Hfl]).
    destruct (IH st3 ds T r) as (rc & st4 & -> & Hpr); [rewrite Hp3; rewrite Hp1 in *; lia|done|].
    exists rc, st4. split; [done|]. eapply progress_from; [|done].
    apply Permutation_length in Hfl. unfold work. rewrite Hp3. rewrite Hp1 in *. lia.
Qed.

Lemma next_event_spec st ds T r :
  feeding st ds T r ->
  exists rc st', auparse_next_event junk realloc_ok st = Some (rc, st') /\ progress st ds T r rc st'.
Proof.
  intros Hf. pose proof (fd_inv _ _ _ _ Hf) as Hv. unfold auparse_next_event, au_auparse_next_event.
  destruct (array (au_lo st)) as [|c0 arr0] eqn:Earr; [by destruct (inv_size _ Hv)|].
  destruct (free_done_spec st Hv) as (st1 & -> & Hv1 & Hio1 & _ & Hst1). cbn [mbind option_bind].
  pose proof (io_pending _ _ Hio1) as Hp1. pose proof (Permutation_length Hst1) as Hl1.
  pose proof (feeding_same _ _ _ _ _ Hf Hv1 Hio1 Hst1) as Hf1.
  destruct (take_ready_spec st1 Hv1) as (b & st2 & -> & Hv2 & Hio2 & _ & Hout). cbn [mbind option_bind].
  pose proof (io_pending _ _ Hio2) as Hp2. destruct b; cbn in Hout.
  - destruct Hout as (x & Hx & Hcur & _). exists 1, st2. split; [done|]. left. split; [done|]. exists x.
    split; [by eapply feeding_out|]. split; [done|]. apply Permutation_length in Hx. cbn in Hx.
    unfold work. rewrite Hp2, Hp1. lia.
  - destruct Hout as [-> _].
    destruct (ingest_loop_spec (S (budget st1)) st1 ds T r) as (rc & st3 & -> & Hpr).
    + unfold budget, pending. lia.
    + done.
    + exists rc, st3. split; [done|]. eapply progress_from; [|done]. unfold work. rewrite Hp1. lia.
Qed.

(** The same calls with the last return value. *)
Fixpoint event_calls (fuel : nat) (st : state) : option (list event_list * Z * state) :=
  match fuel with
  | O => None
  | S fuel =>
      '(rc, st) ← auparse_next_event junk realloc_ok st;
      if 0 <? rc then
        x ← current st; '(xs, rc, st) ← event_calls fuel st; Some (x :: xs, rc, st)
      else Some ([], rc, st)
  end.

Lemma event_calls_spec fuel : forall st ds T r,
  (work st < fuel)%nat -> feeding st ds T r ->
  exists xs st', event_calls fuel st = Some (shown <$> xs, 0, st') /\
    feeding st' (xs ++ ds) T r /\ drained st'.
Proof.
  induction fuel as [|fuel IH]; intros st ds T r Hw Hf; [lia|]. cbn [event_calls].
  destruct (next_event_spec st ds T r Hf) as (rc & st1 & -> & [(-> & x & Hf1 & Hcur & Hlt)|(-> & Hf1 & Hn)]);
    cbn [mbind option_bind].
  - replace (0 <? 1) with true by done. rewrite (presents_current _ _ Hcur). cbn [mbind option_bind].
    destruct (IH st1 (x :: ds) T r ltac:(lia) Hf1) as (xs & st2 & -> & Hf2 & Hn). cbn [mbind option_bind].
    exists (x :: xs), st2. split; [done|]. split; [|done]. eapply feeding_perm; [|done].
    cbn. by rewrite Permutation_middle.
  - replace (0 <? 0) with false by done. by exists [], st1.
Qed.

Lemma event_loop_calls fuel : forall st, event_loop junk realloc_ok fuel st = '(xs, _, st') ← event_calls fuel st; Some (xs, st').
Proof.
  induction fuel as [|fuel IH]; intros st; [done|]. cbn [event_loop event_calls].
  destruct (auparse_next_event _ _ st) as [[rc st1]|]; [|done]. cbn [mbind option_bind]. destruct (0 <? rc); [|done].
  destruct (current st1); [|done]. cbn [mbind option_bind]. rewrite IH. by destruct (event_calls fuel st1) as [[[xs rc'] st2]|].
Qed.

Lemma event_loop_spec fuel st ds T r :
  (work st < fuel)%nat -> feeding st ds T r ->
  exists xs st', event_loop junk realloc_ok fuel st = Some (shown <$> xs, st') /\
    feeding st' (xs ++ ds) T r /\ drained st'.
Proof.
  intros Hw Hf. destruct (event_calls_spec fuel st ds T r Hw Hf) as (xs & st' & E & H). exists xs, st'.
  by rewrite event_loop_calls, E.
Qed.

Lemma stored_le st : (length (stored st) <= length (array (au_lo st)))%nat.
Proof.
  unfold stored, entries. induction (array (au_lo st)) as [|c arr IH]; [done|]. cbn. destruct (entry c); cbn; lia.
Qed.

Lemma consume_spec st ds T r :
  feeding st ds T r ->
  exists xs st', consume_feed junk realloc_ok false st = Some (shown <$> xs, st') /\
    feeding st' (xs ++ ds) T r /\ drained st'.
Proof.
  intros Hf. unfold consume_feed. pose proof (stored_le st).
  destruct (event_loop_spec (S (budget st + length (array (au_lo st)))) st ds T r) as (xs & st' & -> & ?);
    [unfold work, budget, pending in *; lia|done|].
  cbn [mbind option_bind]. by exists xs, st'.
Qed.

End source.

Lemma flush_loop_spec fuel : forall st,
  (length (stored st) < fuel)%nat -> inv st -> Forall (fun s => s.1 = EBS_COMPLETE) (stored st) ->
  exists xs st', flush_loop fuel st = Some (shown <$> xs, st') /\ done_with xs ≡ₚ stored st /\ stored st' = [].
Proof.
  induction fuel as [|fuel IH]; intros st Hl Hv Hall; [lia|]. cbn [flush_loop].
  destruct (take_ready_spec st Hv) as (b & st1 & -> & Hv1 & _ & _ & Hout). cbn [mbind option_bind].
  destruct b; cbn in Hout.
  - destruct Hout as (x & Hx & Hcur & _). rewrite (presents_current _ _ Hcur). cbn [mbind option_bind]. pose proof (Permutation_length Hx) as Hlx. cbn in Hlx.
    rewrite Hx in Hall. apply Forall_cons in Hall as [_ Hall].
    destruct (IH st1 ltac:(lia) Hv1 Hall) as (xs & st2 & -> & Hp & Hs). cbn [mbind option_bind].
    exists (x :: xs), st2. split; [done|]. split; [|done]. rewrite Hx, <-Hp. done.
  - destruct Hout as [-> Hempty]. exists [], st. by rewrite Hempty.
Qed.

Lemma done_with_back xs : (done_with xs).*2 = xs.
Proof. unfold done_with. rewrite <-list_fmap_compose. by rewrite list_fmap_id. Qed.

Lemma flush_spec st ds t r :
  feeding true st ds (fun a => a = t) r ->
  exists xs st', auparse_flush_feed junk realloc_ok st = Some (0, shown <$> xs, st') /\
    (xs ++ ds) ≡ₚ t.2.*2 /\ stored st' = [].
Proof.
  intros Hf. unfold auparse_flush_feed, consume_feed. pose proof (stored_le st) as Hle.
  destruct (event_loop_spec true (S (budget st + length (array (au_lo st)))) st ds (fun a => a = t) r) as (xs & st1 & -> & Hf1 & Hn1 & _);
    [unfold work, budget, pending in *; lia|done|]. cbn [mbind option_bind].
  pose proof (fd_inv _ _ _ _ _ Hf1) as Hv1.
  destruct (au_complete_events_spec (fun _ => true) st1 Hv1) as (st2 & E2 & Hv2 & _ & _ & Hst2).
  change (au_terminate_all_events st1) with (complete_events (fun _ => true) st1). rewrite E2. cbn [mbind option_bind].
  pose proof (all_complete _ _ Hv1 Hst2) as Hall. rewrite mark_all in Hst2.
  2: { eapply Forall_impl; [apply (inv_slots _ Hv1)|]. by intros s []. }
  pose proof (stored_le st2).
  destruct (flush_loop_spec (S (length (array (au_lo st2)))) st2) as (ys & st3 & -> & Hp & Hs); [lia|done|done|].
  cbn [mbind option_bind]. exists (xs ++ ys), st3. split; [by rewrite fmap_app|]. split; [|done].
  destruct (fd_target _ _ _ _ _ Hf1) as (zs & Hz & Ht). rewrite Hn1 in Ht. cbn in Ht. subst t. cbn.
  rewrite <-Hz, fmap_app. rewrite Hst2 in Hp.
  apply (fmap_Permutation snd) in Hp. rewrite !done_with_back in Hp. rewrite done_with_back, Hp. solve_Permutation.
Qed.

(** Pieces fed one after the other, with the events of the callbacks. *)
Fixpoint feed_all (cs : list chars) (st : state) : option (list event_list * state) :=
  match cs with
  | [] => Some ([], st)
  | c :: cs =>
      '(_, xs, st) ← auparse_feed junk realloc_ok c st;
      '(ys, st) ← feed_all cs st;
      Some (xs ++ ys, st)
  end.

(** Where the parser is once [data] were fed. *)
Definition fed (st : state) (ds : list event_list) (data : chars) : Prop :=
  feeding true st ds (fun a => a = assemble (lines_of [] data).1 (0, [])) (lines_of [] data).2 /\
  (lines_of [] (pending st)).1 = [].

Lemma lines_no_newline data : (lines_of [] data).1 = [] -> (lines_of [] data).2 = data.
Proof.
  intros H. destruct (list_find (fun c => c = LF) data) as [[n c]|] eqn:E; [|by rewrite lines_none].
  rewrite (lines_first data n) in H by (by rewrite E). by destruct (lines_of [] (drop (S n) data)).
Qed.

Lemma feed_spec c st ds data :
  fed st ds data -> Forall stamped (lines_of [] (data ++ c)).1 ->
  Z.of_nat (length data + length c) < two32 ->
  exists xs st', auparse_feed junk realloc_ok c st = Some (0, shown <$> xs, st') /\ fed st' (xs ++ ds) (data ++ c).
Proof.
  intros [Hf Hn] Hst Hlen. pose proof Hf as [Hv [Hs Hh] Hi Hp Hb Hl Hr (zs & Hz & Ht)].
  rewrite Hn in Ht. cbn in Ht. rewrite (lines_no_newline _ Hn) in Hr.
  assert (length (pending st) <= length data)%nat as Hple.
  { rewrite Hr. clear. assert (forall acc, length (lines_of acc data).2 <= length acc + length data)%nat as H;
      [|apply (H [])]. induction data as [|c data IH]; intros acc; cbn; [lia|]. case_decide.
    - specialize (IH []). destruct (lines_of [] data). cbn in *. lia.
    - etransitivity; [apply IH|]. rewrite length_app. cbn. lia. }
  pose proof (DataBuf.contents_length _ Hb) as Hcl. fold (pending st) in Hcl.
  unfold auparse_feed.
  destruct (DataBuf.databuf_append_spec junk c (databuf st) Hb ltac:(unfold two32, two64 in *; lia) (or_introl Hh))
    as (rc & db & -> & Hb' & Hrc & Hc & _ & _ & _ & _ & Hh').
  cbn [mbind option_bind]. rewrite (proj2 (Z.ltb_ge rc 0)) by lia.
  fold (pending st) in Hc. rewrite Hr in Hc.
  pose proof (lines_of_pieces data c) as Hpieces. destruct (lines_of [] data) as [la ra] eqn:Ea. cbn in Hr, Ht, Hc.
  destruct (lines_of [] (ra ++ c)) as [lb rb] eqn:Eb.
  assert (feeding true (st<|databuf := db|>) ds (fun a => a = assemble (la ++ lb) (0, [])) rb) as Hf'.
  { pose proof (lines_length [] (data ++ c)) as Hll. rewrite Hpieces in Hst, Hll.
    destruct st as [so sl ix inn ln cb pu lee db0 lo rd ill]. cbn in Hs, Hi, Hp, Ht.
    change (feeding true (State so sl ix inn ln cb pu lee db lo rd ill) ds (fun a => a = assemble (la ++ lb) (0, [])) rb).
    split; unfold pending; cbn [databuf Auparse.line_number]; rewrite ?Hc, ?Eb; try done.
    - destruct Hv; by split.
    - cbn. by rewrite Hh'.
    - cbn in *. apply Forall_app in Hst as [_ Hst]. apply Forall_app in Hll as [_ Hll].
      eapply Forall_impl; [exact (proj2 (Forall_and _ _) (conj Hst Hll))|]. intros s [H1 H2]. split; [done|].
      cbn in H2. rewrite length_app in H2. lia.
    - exists zs. split; [exact Hz|]. cbn.
      unfold assemble. rewrite foldl_app. f_equal. exact Ht. }
  destruct (consume_spec _ _ _ _ _ Hf') as (xs & st' & -> & Hf2 & Hn2 & _). cbn [mbind option_bind].
  exists xs, st'. split; [done|]. unfold fed. rewrite Hpieces. done.
Qed.

Lemma feed_all_spec cs : forall st ds data,
  fed st ds data -> Forall stamped (lines_of [] (data ++ concat cs)).1 ->
  Z.of_nat (length data + length (concat cs)) < two32 ->
  exists xs st', feed_all cs st = Some (shown <$> xs, st') /\ fed st' (xs ++ ds) (data ++ concat cs).
Proof.
  induction cs as [|c cs IH]; intros st ds data Hf Hst Hlen; cbn [feed_all concat] in *.
  { exists [], st. by rewrite app_nil_r. }
  rewrite length_app in Hlen. rewrite app_assoc in Hst.
  destruct (feed_spec c st ds data Hf) as (xs & st1 & -> & Hf1); [|lia|].
  { rewrite lines_of_pieces in Hst. destruct (lines_of [] (data ++ c)) as [la ra]. cbn.
    destruct (lines_of [] (ra ++ concat cs)). cbn in Hst. by apply Forall_app in Hst as [? _]. }
  cbn [mbind option_bind].
  destruct (IH st1 (xs ++ ds) (data ++ c) Hf1 Hst) as (ys & st2 & -> & Hf2); [rewrite length_app; lia|].
  cbn [mbind option_bind]. exists (xs ++ ys), st2. split; [by rewrite fmap_app|]. rewrite app_assoc.
  destruct Hf2 as [Hf2 Hn2]. split; [|done]. eapply feeding_perm; [|done]. solve_Permutation.
Qed.

(** A fresh parser. *)
Lemma fed_start access st : auparse_init junk access Feed = Some (Some st) -> fed st [] [].
Proof.
  intros [= <-]. split; [|done].
  assert (stored (start AUSOURCE_FEED [] None (DataBuf.MkDataBuf false false 0 None 0 0 0)) = []) as E
    by apply au_entries_free.
  split; try done; [|exists []; by rewrite E].
  split; rewrite ?E; try done; [|by constructor]. split; [exact (Nat.le_0_l _)| |].
  - intros i c [-> _]%lookup_replicate _. done.
  - apply Forall_replicate. by intros [].
Qed.


(** ** Buffers *)

Lemma mark_snd p xs : (mark p <$> xs).*2 = xs.*2.
Proof.
  rewrite <-list_fmap_compose. apply list_fmap_ext. intros i [s x] _. unfold mark. cbn. case_decide; [|done]. by destruct (p x).
Qed.

(** The events of a text. *)
Definition events_of (data : chars) : list event_list := (assemble (lines_of [] data).1 (0, [])).2.*2.

(** A parser that was made from a buffer. *)
Lemma buffer_start access data :
  Z.of_nat (length data) < two32 -> Forall stamped (lines_of [] data).1 ->
  exists st, auparse_init junk access (Buffer (Some data)) = Some (Some st) /\
    feeding false st [] (fun a => a.2.*2 = events_of data) (lines_of [] data).2 /\ pending st = data.
Proof.
  intros Hlen Hst. unfold auparse_init. cbn [DataBuf.databuf_init Z.eqb mbind option_bind].
  assert (exists db, DataBuf.databuf_init junk (Z.of_nat (length data)) true false = Some (1, db) /\ DataBuf.valid db /\
    DataBuf.contents db = [] /\ DataBuf.offset db = 0) as (db0 & -> & Hb0 & Hc0 & Ho0).
  { unfold DataBuf.databuf_init. destruct (Z.eqb_spec (Z.of_nat (length data)) 0) as [|Hne].
    - eexists. split; [done|]. by split_and!; [split|..].
    - eexists. split; [done|]. split; [|by split]. split; cbn; unfold DataBuf.malloc; rewrite ?length_replicate;
        unfold two32, two64 in *; lia. }
  cbn [mbind option_bind]. replace (1 <? 0) with false by done.
  pose proof (DataBuf.contents_length _ Hb0) as Hl0. rewrite Hc0 in Hl0. cbn in Hl0.
  destruct (DataBuf.databuf_append_spec junk data db0 Hb0 ltac:(unfold two32, two64 in *; lia) (or_intror Ho0))
    as (rc & db & -> & Hb & Hrc & Hc & _). cbn [mbind option_bind]. rewrite (proj2 (Z.ltb_ge rc 0)) by lia.
  rewrite Hc0 in Hc. cbn in Hc. eexists. split; [done|].
  assert (stored (start AUSOURCE_BUFFER [] None db) = []) as E by apply au_entries_free.
  split; [|exact Hc]. split; unfold pending; cbn [databuf start]; rewrite ?Hc; try done.
  - split; rewrite ?E; try done; [|by constructor]. split; [exact (Nat.le_0_l _)| |].
    + intros i c [-> _]%lookup_replicate _. done.
    + apply Forall_replicate. by intros [].
  - split; [done|]. intros a Ha. unfold finish. cbn. by rewrite mark_snd.
  - pose proof (lines_length [] data) as Hll. eapply Forall_impl; [exact (proj2 (Forall_and _ _) (conj Hst Hll))|].
    intros s [H1 H2]. split; [done|]. cbn in H2. lia.
  - exists []. by rewrite E.
Qed.

(** C18: from a buffer whose last line is ended by a newline, and all of whose lines have
    a stamp, calls of auparse_next_event() give every event of the text once and whole,
    with 1 for each, and then return 0 with nothing left.  ([unended_event_lost] shows
    what happens without the last newline.) *)
Theorem buffer_events access data :
  Z.of_nat (length data) < two32 ->
  Forall stamped (lines_of [] data).1 -> (lines_of [] data).2 = [] ->
  exists st0 fuel xs st1,
    auparse_init junk access (Buffer (Some data)) = Some (Some st0) /\
    event_calls fuel st0 = Some (xs, 0, st1) /\
    xs ≡ₚ shown <$> events_of data /\ stored st1 = [].
Proof.
  intros Hlen Hst Hr. destruct (buffer_start access data Hlen Hst) as (st0 & E0 & Hf & _).
  destruct (event_calls_spec false (S (work st0)) st0 [] _ _ ltac:(lia) Hf) as (xs & st1 & E1 & Hf1 & Hn & Hd).
  exists st0, (S (work st0)), (shown <$> xs), st1. split; [done|]. split; [done|].
  pose proof Hf1 as [_ [Hs _] _ _ _ _ Hr1 (zs & Hz & Ht)].
  assert (stored st1 = []) as E by (apply Hd; [done|]; rewrite <-(lines_no_newline _ Hn); by rewrite Hr1, Hr).
  split; [|done]. rewrite Hn in Ht. cbn in Ht. rewrite <-Ht, <-Hz, E. cbn. rewrite done_with_back, app_nil_r. done.
Qed.

(** ** Reading files *)

(** The lines of a call after the other, and the last return value. *)
Fixpoint read_all (fuel : nat) (st : state) : option (list string * Z) :=
  match fuel with
  | O => None
  | S fuel =>
      '(rc, st) ← retrieve_next_line st;
      if rc =? 1 then b ← cur_buf st; '(bs, rc) ← read_all fuel st; Some (b :: bs, rc)
      else Some ([], rc)
  end.

Definition holds_lines (name : string) (ls : list chars) : Prop :=
  fopen name = Some (Line <$> ls) /\ Forall (fun s => s <> []) ls.

(** A parser in the middle of its files, with the lines that remain. *)
Record reading (st : state) (names : list string) (R : list chars) : Prop := Reading {
  rd_source : source st = AUSOURCE_FILE_ARRAY;
  rd_pushed : line_pushed st = false;
  rd_idx : 0 <= Auparse.list_idx st;
  rd_names : drop (S (Z.to_nat (Auparse.list_idx st))) (source_list st) = names;
  rd_lines : exists cur lss, in_ st = Some (Line <$> cur) /\ Forall (fun s => s <> []) cur /\
    Forall2 holds_lines names lss /\ R = cur ++ concat lss;
}.

Definition line_of (s : chars) : string := line_text (nuke_newline s).

Lemma file_loop_spec fuel : forall st names R,
  (S (length names) < fuel)%nat -> reading st names R ->
  match R with
  | [] => exists st', file_loop fuel st = Some (-2, st')
  | s :: R => exists st' names', file_loop fuel st = Some (1, st') /\ cur_buf st' = Some (line_of s) /\
      reading st' names' R
  end.
Proof.
  induction fuel as [|fuel IH]; intros st names R Hfuel Hr; [lia|].
  destruct Hr as [Hs Hp Hi Hn (cur & lss & Hin & Hne & Hf & HR)].
  destruct st as [so sl ix inn ln cb pu lee db lo rd ill]. cbn in Hs, Hp, Hi, Hn, Hin. subst so pu inn.
  destruct cur as [|s cur].
  - cbn in HR. replace (S (Z.to_nat ix)) with (Z.to_nat (Z.succ ix)) in Hn by lia.
    destruct Hf as [|name ls names lss [Ho Hls] Hf].
    + cbn in HR. subst R. destruct fuel; [cbn in Hfuel; lia|]. cbn -[Z.succ]. unfold source_at. cbn -[Z.succ].
      rewrite lookup_ge_None_2; [cbn; by eexists|].
      apply (f_equal length) in Hn. rewrite length_drop in Hn. cbn -[Z.succ] in Hn. lia.
    + assert (sl !! Z.to_nat (Z.succ ix) = Some name) as Hat.
      { rewrite <-(Nat.add_0_r (Z.to_nat (Z.succ ix))), <-lookup_drop, Hn. done. }
      assert (file_loop (S fuel) (State AUSOURCE_FILE_ARRAY sl ix (Some (Line <$> [])) ln cb false lee db lo rd ill)
        = file_loop fuel (State AUSOURCE_FILE_ARRAY sl (Z.succ ix) (Some (Line <$> ls)) 0 None false lee db lo rd ill)) as ->.
      { cbn -[file_loop Z.succ]. unfold file_loop at 1. fold file_loop. cbn -[file_loop Z.succ]. unfold source_at. cbn -[file_loop Z.succ].
        by rewrite Hat, Ho. }
      apply (IH _ names R); [cbn in Hfuel; lia|]. split; try done; cbn -[Z.succ]; [lia| |by exists ls, lss].
      apply (f_equal (drop 1)) in Hn. rewrite drop_drop in Hn. change (drop 1 (name :: names)) with names in Hn.
      rewrite <-Hn. f_equal. lia.
  - cbn in HR. subst R. apply Forall_cons in Hne as [Hs Hne]. destruct s as [|c s]; [done|].
    cbn -[nuke_newline line_text]. eexists _, names. split; [done|]. split; [done|].
    split; try done. by exists cur, lss.
Qed.

(** Names of files with their lines. *)
Lemma read_all_spec R : forall fuel st names,
  (length R < fuel)%nat -> reading st names R -> read_all fuel st = Some (line_of <$> R, -2).
Proof.
  induction R as [|s R IH]; intros fuel st names Hfuel Hr; (destruct fuel as [|fuel]; [cbn in Hfuel; lia|]);
    cbn [read_all]; pose proof Hr as [Hs Hp Hi Hn (cur & lss & Hin & _)];
    unfold retrieve_next_line; rewrite Hp, Hs, Hin.
  all: assert (S (length names) < 2 + length (source_list st))%nat as Hlen
    by (apply (f_equal length) in Hn; rewrite length_drop in Hn; lia).
  all: pose proof (file_loop_spec _ _ _ _ Hlen Hr) as HL.
  - destruct HL as (st' & E). destruct (Auparse.list_idx st =? 0); rewrite E; done.
  - destruct HL as (st' & names' & E & Hb & Hr'). cbn in Hfuel.
    destruct (Auparse.list_idx st =? 0); rewrite E; cbn [mbind option_bind];
      replace (1 =? 1) with true by done; rewrite Hb; cbn [mbind option_bind];
      by rewrite (IH fuel st' names' ltac:(lia) Hr').
Qed.

(** A parser over several files reads the lines of all of them, file by file
    and without their newlines, the empty files passed over, and then reports the
    end of the data. *)
Theorem files_in_order access names lss :
  names <> [] -> Forall2 holds_lines names lss -> Forall (fun n => access n = true) names ->
  exists st, auparse_init junk access (FileArray (Some names)) = Some (Some st) /\
    read_all (S (length (concat lss))) st = Some (line_of <$> concat lss, -2).
Proof.
  intros Hne Hf Ha. unfold auparse_init. cbn [mbind option_bind].
  assert (forallb access names = true) as -> by (apply forallb_forall; intros n Hn; rewrite List.Forall_forall in Ha; by apply Ha).
  eexists. split; [done|]. destruct Hf as [|name ls names lss [Ho Hls] Hf]; [done|].
  set (st := start AUSOURCE_FILE_ARRAY (name :: names) (Some (Line <$> ls)) (DataBuf.MkDataBuf false false 0 None 0 0 0)).
  assert (reading st names (ls ++ concat lss)) as Hr by (split; try done; by exists ls, lss).
  transitivity (read_all (S (length (concat (ls :: lss)))) st).
  - assert (retrieve_next_line (start AUSOURCE_FILE_ARRAY (name :: names) None (DataBuf.MkDataBuf false false 0 None 0 0 0))
      = retrieve_next_line st) as E by (unfold retrieve_next_line; unfold source_at; cbn -[file_loop fopen]; change ((name :: names) !! Z.to_nat 0) with (Some name); cbn -[file_loop fopen]; by rewrite Ho).
    cbn [read_all]. by rewrite E.
  - by apply (read_all_spec _ _ _ names); [cbn; lia|].
Qed.

End library.

(** ** Samples *)

Definition no_files : Files := fun _ => None.

Definition sample_text : string :=
  String.append "type=SYSCALL msg=audit(10.002:8): arch=c000003e" (String LF
  (String.append "type=LOGIN msg=audit(10.003:9): pid=7" (String LF
  (String.append "type=CWD msg=audit(10.002:8): cwd=1" (String LF "type=CWD msg"))))).

(** The sample cut in the middle of lines. *)
Definition sample_pieces : list chars :=
  [take 20 (to_chars sample_text); take 40 (drop 20 (to_chars sample_text)); drop 60 (to_chars sample_text)].

Definition sample_state (i : input) : option state :=
  st ← auparse_init NUL (fun _ => true) i; st.


Lemma buffer_events_witness :
  let data := to_chars (String.append sample_text "(11.000:3): cwd=2") ++ [LF] in
  exists st0 fuel xs st1,
    auparse_init NUL (fun _ => false) (Buffer (Some data)) = Some (Some st0) /\
    @event_calls EllistFacts.sample_types EllistFacts.sample_machines no_files NUL (fun _ => true) fuel st0 = Some (xs, 0, st1) /\
    xs ≡ₚ shown <$> @events_of EllistFacts.sample_types EllistFacts.sample_machines NUL data /\ stored st1 = [].
Proof.
  intros data. unfold data.
  apply (@buffer_events EllistFacts.sample_types EllistFacts.sample_machines no_files NUL (fun _ => true) (fun _ => eq_refl) (fun _ => false)).
  - vm_compute. reflexivity.
  - repeat constructor; vm_compute; by eexists.
  - vm_compute. reflexivity.
Defined.

Definition sample_files : Files := fun name =>
  if str_eq name "a" then Some [Line (to_chars (String "x" (String LF "")))]
  else if str_eq name "b" then Some []
  else if str_eq name "c" then Some [Line (to_chars "y")]
  else None.

Lemma files_in_order_witness :
  exists st, auparse_init NUL (fun _ => true) (FileArray (Some ["a"; "b"; "c"]%string)) = Some (Some st) /\
    @read_all sample_files 3 st = Some (["x"; "y"]%string, -2).
Proof.
  apply (@files_in_order sample_files NUL (fun _ => true) ["a"; "b"; "c"]%string
    [[to_chars (String "x" (String LF ""))]; []; [to_chars "y"]]); [done| |repeat constructor].
  repeat constructor; done.
Defined.

(** ** Where the code falls short *)

(** The number of events a buffer gives: one call of auparse_next_event() after
    the other. *)
Fixpoint count_events (fuel : nat) (st : state) : option nat :=
  match fuel with
  | O => None
  | S fuel =>
      '(rc, st) ← @auparse_next_event EllistFacts.sample_types EllistFacts.sample_machines no_files NUL (fun _ => true) st;
      if rc =? 1 then S <$> count_events fuel st else Some O
  end.

Definition events_in (i : input) : option nat := st ← sample_state i; count_events 9 st.

(** An event whose last line has no newline is lost when it comes from a buffer. *)
Theorem unended_event_lost :
  let text := "type=SYSCALL msg=audit(10.002:8): arch=c000003e" in
  events_in (Buffer (Some (to_chars text))) = Some O /\
  events_in (Buffer (Some (to_chars text ++ [LF]))) = Some 1%nat /\
  events_in (Stream AUSOURCE_FILE_POINTER (Some [Line (to_chars text)])) = Some 1%nat.
Proof. split_and!; vm_compute; reflexivity. Qed.

(** The room for newlines between the buffers of an array stays unused: two
    events become one record. *)
Theorem buffers_run_together :
  let l1 := "type=LOGIN msg=audit(10.002:8): pid=7" in
  let l2 := "type=LOGIN msg=audit(10.003:9): pid=7" in
  array_size [to_chars l1; to_chars l2 ++ [LF]] = Some (Z.of_nat (String.length l1 + String.length l2) + 2) /\
  events_in (BufferArray (Some [to_chars l1; to_chars l2 ++ [LF]])) = Some 1%nat /\
  events_in (BufferArray (Some [to_chars l1 ++ [LF]; to_chars l2 ++ [LF]])) = Some 2%nat.
Proof. split_and!; vm_compute; reflexivity. Qed.

End AuparseFeed.
