(* ===== verification/Interpret.v ===== *)
(** * Interpretations of fields (src/auparse/interpret.c)

    The list of interpretations that came with an enriched record, the type of a
    field, and how a field is interpreted: from that list, else by the printer of
    its type, whose output is escaped.  [None] is a bad access. *)
From S2P Require Import Prelude CString CList StrSplit Nvlist Expr Escape Ellist.

Local Open Scope audit_scope.
Local Open Scope string_scope.
Local Open Scope Z_scope.

Module Interpret.
Import Nv Ellist Escape.

(** ** The list of interpretations *)

Definition tolower (c : ascii) : ascii := if between 65 90 c then char_of (code c + 32) else c.

(** A word NAME=value; one without a '=' is skipped.  The value is cut at a
    blank. *)
Definition load_word (w : chars) (il : nvlist) : option nvlist :=
  match list_find (fun c => c = "="%char) w with
  | None => Some il
  | Some (i, _) =>
      let val := drop (S i) w in
      let val := match list_find (fun c => c = " "%char) val with
                 | Some (j, _) => take j val
                 | None => val
                 end in
      il ← nvlist_append (Some (to_string (map tolower (take i w)))) (Some (to_string val)) il;
      Some (nvlist_interp_fixup il)
  end.

Fixpoint load_words (ws : list chars) (il : nvlist) : option nvlist :=
  match ws with [] => Some il | w :: ws => il ← load_word w il; load_words ws il end.

(** [buffer] is [None] for NULL. *)
Definition load_interpretation_list (buffer : option string) (il : nvlist) : option (Z * nvlist) :=
  match buffer with
  | None => Some (0, il)
  | Some buffer =>
      let buf := to_chars buffer in
      if starts_with "SADDR=" buffer then
        match list_find (fun c => c = "{"%char) (drop 6 buf) with
        | Some (i, _) =>
            let val := drop (6 + i) buf in
            if bool_decide ("}"%char ∈ val) then
              il ← nvlist_append (Some "saddr") (Some (to_string val)) il;
              Some (1, nvlist_interp_fixup il)
            else Some (0, il)
        | None => Some (0, il)
        end
      else
        ws ← StrSplit.split_all (S (S (length buf))) (Some O) (buf ++ [NUL])%list None;
        match ws with
        | [] => Some (0, il)
        | _ => il ← load_words ws il; Some (1, il)
        end
  end.

Definition free_interpretation_list (il : nvlist) : nvlist := nvlist_clear il.

(** The list after these texts were loaded. *)
Fixpoint load_all (texts : list string) (il : nvlist) : option nvlist :=
  match texts with
  | [] => Some il
  | t :: texts => '(_, il) ← load_interpretation_list (Some t) il; load_all texts il
  end.

(** ** The type of a field *)

Definition AUDIT_ADD_GROUP : Z := 1116.
Definition AUDIT_DEL_GROUP : Z := 1117.
Definition AUDIT_TRUSTED_APP : Z := 1121.
Definition AUDIT_USER_TTY : Z := 1124.
Definition AUDIT_GRP_MGMT : Z := 1132.
Definition AUDIT_PATH : Z := 1302.
Definition AUDIT_EXECVE : Z := 1309.
Definition AUDIT_MQ_OPEN : Z := 1312.
Definition AUDIT_NETFILTER_PKT : Z := 1324.
Definition AUDIT_CRYPTO_KEY_USER : Z := 2404.

Definition AUPARSE_TYPE_UNCLASSIFIED : Z := 0.
Definition AUPARSE_TYPE_UID : Z := 1.
Definition AUPARSE_TYPE_GID : Z := 2.
Definition AUPARSE_TYPE_ESCAPED : Z := 6.
Definition AUPARSE_TYPE_FLAGS : Z := 10.
Definition AUPARSE_TYPE_ADDR : Z := 26.
Definition AUPARSE_TYPE_MODE_SHORT : Z := 31.
Definition AUPARSE_TYPE_MAC_LABEL : Z := 32.
Definition AUPARSE_TYPE_PROCTITLE : Z := 33.
Definition AUPARSE_TYPE_ESCAPED_KEY : Z := 38.
Definition AUPARSE_TYPE_ESCAPED_FILE : Z := 39.

Definition is_int_string (s : chars) : bool := forallb isdigit s.
Definition is_hex_string (s : chars) : bool := forallb isxdigit s.

Definition first_is (c : ascii) (s : chars) : bool := match s with d :: _ => d =c c | [] => false end.

Section types.
Context `{Expr.ExprEnv}.

(** [None]: the value is NULL where it is read. *)
Definition auparse_interp_adjust_type (rtype : Z) (name : string) (val : option string) : option Z :=
  if (rtype =? AUDIT_EXECVE) && first_is "a"%char (to_chars name) && negb (str_eq name "argc") && negb (strstr name "_len")
  then Some AUPARSE_TYPE_ESCAPED
  else if (rtype =? AUDIT_AVC) && str_eq name "saddr" then Some AUPARSE_TYPE_UNCLASSIFIED
  else if (rtype =? AUDIT_USER_TTY) && str_eq name "msg" then Some AUPARSE_TYPE_ESCAPED
  else if (rtype =? AUDIT_NETFILTER_PKT) && str_eq name "saddr" then Some AUPARSE_TYPE_ADDR
  else if str_eq name "acct" then
    v ← val;
    Some (if first_is DQUOTE (to_chars v) then AUPARSE_TYPE_ESCAPED
          else if is_hex_string (to_chars v) then AUPARSE_TYPE_ESCAPED
          else AUPARSE_TYPE_UNCLASSIFIED)
  else if (rtype =? AUDIT_PATH) && str_eq name "flags" then Some AUPARSE_TYPE_FLAGS
  else if (rtype =? AUDIT_MQ_OPEN) && str_eq name "mode" then Some AUPARSE_TYPE_MODE_SHORT
  else if (rtype =? AUDIT_CRYPTO_KEY_USER) && str_eq name "fp" then Some AUPARSE_TYPE_UNCLASSIFIED
  else if str_eq name "id" && ((rtype =? AUDIT_ADD_GROUP) || (rtype =? AUDIT_GRP_MGMT) || (rtype =? AUDIT_DEL_GROUP))
  then Some AUPARSE_TYPE_GID
  else if rtype =? AUDIT_TRUSTED_APP then
    v ← val;
    Some (if first_is DQUOTE (to_chars v) then AUPARSE_TYPE_ESCAPED
          else if is_int_string (to_chars v) then AUPARSE_TYPE_UNCLASSIFIED
          else if is_hex_string (to_chars v) then AUPARSE_TYPE_ESCAPED
          else AUPARSE_TYPE_UNCLASSIFIED)
  else Some (Expr.lookup_type name).

(** ** Interpreting *)

Context (junk : ascii).
(** realpath(), [None] when it fails. *)
Context (realpath : string -> option string).
(** The printers of the types that are looked up in tables. *)
Context (print_type : Z -> idata -> option string).

(** The C string in a block. *)
Definition text_of (blk : chars) : string := to_string (StrSplit.until_nul blk).

Definition print_escaped_text (val : string) : option string :=
  text_of <$> print_escaped junk (to_chars val).

Definition print_escaped_ext (id : idata) : option string :=
  v ← id_val id;
  str2 ← print_escaped_text v;
  match id_cwd id with
  | None => Some str2
  | Some d =>
      if negb (first_is "/"%char (to_chars str2)) then
        str1 ← print_escaped_text d;
        let str3 := String.append str1 (String.append "/" str2) in
        Some (default str3 (realpath str3))
      else if negb (strstr str2 "..") then Some str2
      else Some (default str2 (realpath str2))
  end.

Definition esc_mode (m : Z) : auparse_esc_t :=
  if m =? 1 then AUPARSE_ESC_TTY else if m =? 2 then AUPARSE_ESC_SHELL
  else if m =? 3 then AUPARSE_ESC_SHELL_QUOTE else AUPARSE_ESC_RAW.

(** The switch over the types. *)
Definition print_switch (type : Z) (id : idata) : option string :=
  if (type =? AUPARSE_TYPE_ESCAPED) || (type =? AUPARSE_TYPE_ESCAPED_FILE) then print_escaped_ext id
  else if type =? AUPARSE_TYPE_ESCAPED_KEY then v ← id_val id; print_escaped_text v
  else if type =? AUPARSE_TYPE_PROCTITLE then v ← id_val id; text_of <$> print_proctitle junk (to_chars v)
  else if (type =? AUPARSE_TYPE_MAC_LABEL) || (type =? AUPARSE_TYPE_UNCLASSIFIED) then id_val id
  else print_type type id.

(** The interpretation that was logged with the record. *)
Definition logged_interpretation (il : nvlist) (name : string) : option (option string) :=
  match nodes il with
  | [] => Some None
  | _ =>
      '(found, il) ← nvlist_find_name name (nvlist_first il);
      Some (if found : bool then n ← cl_get_cur il; interp_val n else None)
  end.

Definition auparse_do_interpretation (il : nvlist) (type : Z) (id : idata) (escape_mode : Z) : option string :=
  logged ← logged_interpretation il (id_name id);
  match logged with
  | Some v =>
      if negb (starts_with "unknown-" v) then
        if (type =? AUPARSE_TYPE_UID) || (type =? AUPARSE_TYPE_GID) then print_escaped_text v
        else Some v
      else
        out ← print_switch type id;
        to_string <$> escape_output (type =? AUPARSE_TYPE_ESCAPED_KEY) (esc_mode escape_mode) (to_chars out)
  | None =>
      out ← print_switch type id;
      to_string <$> escape_output (type =? AUPARSE_TYPE_ESCAPED_KEY) (esc_mode escape_mode) (to_chars out)
  end.

(** Called from ausearch-lookup.c only. *)
Definition auparse_lookup_interpretation (il : nvlist) (name : string) : option (option string) :=
  '(found, il) ← nvlist_find_name name (nvlist_first il);
  if found : bool then
    n ← cl_get_cur il;
    v ← interp_val n;
    if strstr name "id" then Some <$> print_escaped_text v else Some (Some v)
  else Some None.

(** Interpreting after the texts [texts] were loaded. *)
Definition interp_of (texts : list string) : Interp := {|
  Nv.auparse_interp_adjust_type rtype name val :=
    default AUPARSE_TYPE_UNCLASSIFIED (auparse_interp_adjust_type rtype name val);
  Nv.auparse_do_interpretation type id mode :=
    il ← load_all texts nvlist_create; auparse_do_interpretation il type id mode;
|}.

End types.

End Interpret.
