(* ===== verification/InterpretFacts.v ===== *)
(** * Interpretations of fields: what was logged with a record is found *)
From S2P Require Import Prelude CString CList StrSplit Nvlist Expr ExprPrint Escape Ellist EllistFacts Interpret.

Local Open Scope audit_scope.
Local Open Scope Z_scope.

Module InterpretFacts.
Import Nv Ellist Escape Interpret.

(** ** The reference: the pairs of a text *)

Definition word_pair (w : chars) : option (string * string) :=
  '(i, _) ← list_find (fun c => c = "="%char) w;
  Some (to_string (map tolower (take i w)), to_string (drop (S i) w)).

(** The address of a socket is the rest of the text from its brace on. *)
Definition saddr_pair (t : string) : option (string * string) :=
  '(i, _) ← list_find (fun c => c = "{"%char) (drop 6 (to_chars t));
  let val := drop (6 + i) (to_chars t) in
  if bool_decide ("}"%char ∈ val) then Some ("saddr", to_string val)%string else None.

Definition pairs (t : string) : list (string * string) :=
  if starts_with "SADDR=" t then option_list (saddr_pair t)
  else omap word_pair (StrSplit.words (to_chars t)).

(** The first pair of a name. *)
Fixpoint assoc (nm : string) (ps : list (string * string)) : option string :=
  match ps with
  | [] => None
  | (n, v) :: ps => if decide (n = nm) then Some v else assoc nm ps
  end.

(** ** The list holds the pairs *)

Definition node_of (p : string * string) : option string * option string * option string :=
  (Some p.1, None, Some p.2).

Record holds_pairs (il : nvlist) (ps : list (string * string)) : Prop := HoldsPairs {
  hp_ok : ok il;
  hp_cur : nodes il = [] \/ is_Some (cur il);
  hp_nodes : (fun n => (name n, val n, interp_val n)) <$> nodes il = node_of <$> ps;
}.

Lemma holds_length il ps : holds_pairs il ps -> length (nodes il) = length ps.
Proof.
  intros H. pose proof (f_equal length (hp_nodes _ _ H)) as E. by rewrite !length_fmap in E.
Qed.

Lemma holds_create : holds_pairs nvlist_create [].
Proof. split; [apply ok_create|by left|done]. Qed.

Lemma append_holds il ps n v :
  holds_pairs il ps -> Z.of_nat (S (length ps)) < two32 ->
  exists il', nvlist_append (Some n) (Some v) il = Some il' /\ holds_pairs (nvlist_interp_fixup il') (ps ++ [(n, v)]).
Proof.
  intros H Hl. pose proof H as [Hok Hc Hn]. rewrite <-(holds_length _ _ H) in Hl.
  destruct (nvlist_append_spec (Some n) (Some v) il Hok Hc Hl) as (il' & -> & Hok' & En & Ec).
  exists il'. split; [done|]. unfold nvlist_interp_fixup. rewrite Ec, En.
  rewrite alter_app_r_alt, Nat.sub_diag by lia. cbn.
  destruct Hok' as [[Hw Hcnt] Hit Hsz]. rewrite En in *. split.
  - split; cbn.
    + split; cbn; [|by rewrite Hcnt, !length_app].
      intros i [= <-]. rewrite length_app. cbn. lia.
    + intros i m Hm. apply lookup_app_Some in Hm as [Hm|[Hge Hm]].
      * apply (Hit i). by apply lookup_app_l_Some.
      * apply list_lookup_singleton_Some in Hm as [E <-].
        apply (Hit i (NvNode (Some n) (Some v) None (cnt il))). rewrite lookup_app_r by done. by rewrite E.
    + by rewrite length_app in *.
  - by right.
  - cbn. by rewrite !fmap_app, Hn.
Qed.

Lemma load_word_holds w il ps :
  " "%char ∉ w -> holds_pairs il ps -> Z.of_nat (S (length ps)) < two32 ->
  exists il', load_word w il = Some il' /\ holds_pairs il' (ps ++ option_list (word_pair w)).
Proof.
  intros Hb H Hl. unfold load_word, word_pair.
  destruct (list_find (fun c => c = "="%char) w) as [[i c]|]; cbn [mbind option_bind option_list].
  2: { exists il. by rewrite app_nil_r. }
  assert (list_find (fun c => c = " "%char) (drop (S i) w) = None) as ->.
  { apply list_find_None, Forall_forall. intros c' Hc ->. apply Hb.
    apply list_elem_of_lookup in Hc as [j Hj]. rewrite lookup_drop in Hj. by eapply list_elem_of_lookup_2. }
  destruct (append_holds il ps (to_string (map tolower (take i w))) (to_string (drop (S i) w)) H Hl) as (il' & -> & H').
  cbn [mbind option_bind]. by eexists.
Qed.

Lemma load_words_holds ws : forall il ps,
  Forall (fun w => " "%char ∉ w) ws -> holds_pairs il ps -> Z.of_nat (length ps + length ws) < two32 ->
  exists il', load_words ws il = Some il' /\ holds_pairs il' (ps ++ omap word_pair ws).
Proof.
  induction ws as [|w ws IH]; intros il ps Hb H Hl; cbn [load_words].
  { exists il. cbn. by rewrite app_nil_r. }
  apply Forall_cons in Hb as [Hw Hb]. cbn in Hl.
  destruct (load_word_holds w il ps Hw H ltac:(lia)) as (il1 & -> & H1). cbn [mbind option_bind].
  assert (length (option_list (word_pair w)) <= 1)%nat by (destruct (word_pair w); cbn; lia).
  destruct (IH il1 _ Hb H1) as (il2 & E & H2); [rewrite length_app; lia|].
  exists il2. split; [done|]. cbn. rewrite <-app_assoc in H2. destruct (word_pair w); exact H2.
Qed.

Lemma words_from_no_blank acc t : " "%char ∉ acc -> Forall (fun w => " "%char ∉ w) (StrSplit.words_from acc t).
Proof.
  revert acc. induction t as [|c t IH]; intros acc Ha; cbn.
  - destruct acc; by repeat constructor.
  - destruct (Ascii.eqb_spec c " ") as [->|Hc].
    + apply Forall_app. split; [destruct acc; by repeat constructor|]. apply IH, not_elem_of_nil.
    + apply IH. rewrite not_elem_of_app. split; [done|]. rewrite list_elem_of_singleton. congruence.
Qed.

Lemma words_from_bound acc t : (length (StrSplit.words_from acc t) <= S (length t))%nat.
Proof.
  revert acc. induction t as [|c t IH]; intros acc; cbn; [destruct acc; cbn; lia|].
  destruct (c =c " "%char); [|specialize (IH (acc ++ [c])); lia].
  rewrite length_app. specialize (IH []). destruct acc; cbn; lia.
Qed.

(** How many nodes a text can add. *)
Definition weight (ts : list string) : nat := sum_list_with (fun t => S (String.length t)) ts.

Lemma load_holds t il ps :
  NUL ∉ to_chars t -> holds_pairs il ps -> Z.of_nat (length ps + S (String.length t)) < two32 ->
  exists rc il', load_interpretation_list (Some t) il = Some (rc, il') /\ holds_pairs il' (ps ++ pairs t).
Proof.
  intros Hn H Hl. unfold load_interpretation_list, pairs. destruct (starts_with "SADDR=" t).
  - unfold saddr_pair. destruct (list_find _ (drop 6 (to_chars t))) as [[i c]|]; cbn [mbind option_bind].
    2: { exists 0, il. cbn. by rewrite app_nil_r. }
    case_bool_decide; [|exists 0, il; cbn; by rewrite app_nil_r].
    destruct (append_holds il ps "saddr" (to_string (drop (6 + i) (to_chars t))) H ltac:(lia)) as (il' & -> & H').
    cbn [mbind option_bind]. by eexists _, _.
  - rewrite (StrSplit.split_all_spec _ _ 0 (to_chars t)); [|by exists []|lia|done]. cbn [mbind option_bind].
    fold (StrSplit.words (to_chars t)).
    pose proof (words_from_no_blank [] (to_chars t) (not_elem_of_nil _)) as Hb.
    pose proof (words_from_bound [] (to_chars t)) as Hwl. rewrite EllistFacts.to_chars_length in Hwl.
    fold (StrSplit.words (to_chars t)) in Hb, Hwl.
    destruct (StrSplit.words (to_chars t)) as [|w ws] eqn:Ew.
    { exists 0, il. cbn. by rewrite app_nil_r. }
    rewrite <-Ew in *. destruct (load_words_holds (StrSplit.words (to_chars t)) il ps Hb H ltac:(lia)) as (il' & E & H').
    rewrite E. cbn [mbind option_bind]. by eexists _, _.
Qed.

Lemma pairs_length t : (length (pairs t) <= S (String.length t))%nat.
Proof.
  unfold pairs. destruct (starts_with "SADDR=" t); [destruct (saddr_pair t); cbn; lia|].
  pose proof (words_from_bound [] (to_chars t)) as Hwl. rewrite EllistFacts.to_chars_length in Hwl.
  fold (StrSplit.words (to_chars t)) in Hwl. etransitivity; [|exact Hwl].
  generalize (StrSplit.words (to_chars t)) as ws. induction ws as [|w ws IH]; cbn; [lia|]. destruct (word_pair w); cbn; lia.
Qed.

Lemma load_all_holds ts : forall il ps,
  Forall (fun t => NUL ∉ to_chars t) ts -> holds_pairs il ps -> Z.of_nat (length ps + weight ts) < two32 ->
  exists il', load_all ts il = Some il' /\ holds_pairs il' (ps ++ concat (pairs <$> ts)).
Proof.
  induction ts as [|t ts IH]; intros il ps Hn H Hl; cbn [load_all].
  { exists il. cbn. by rewrite app_nil_r. }
  apply Forall_cons in Hn as [Ht Hn]. unfold weight in Hl. cbn in Hl. fold (weight ts) in Hl.
  destruct (load_holds t il ps Ht H ltac:(lia)) as (rc & il1 & -> & H1). cbn [mbind option_bind].
  pose proof (pairs_length t).
  destruct (IH il1 _ Hn H1) as (il2 & E & H2); [rewrite length_app; lia|].
  exists il2. split; [done|]. cbn. by rewrite app_assoc.
Qed.

Lemma holds_named il ps : holds_pairs il ps -> named il.
Proof.
  intros [_ _ Hn]. unfold named. revert ps Hn. induction (nodes il) as [|n ns IH]; intros [|p ps] Hn; [done..|].
  injection Hn as E1 _ _ Hn. constructor; [by rewrite E1|by eapply IH].
Qed.

Lemma holds_lookup il ps nm : holds_pairs il ps -> logged_interpretation il nm = Some (assoc nm ps).
Proof.
  intros H. unfold logged_interpretation. pose proof (find_name_list nm il (holds_named _ _ H)) as Hf.
  destruct H as [_ _ Hn]. rewrite Hf. clear Hf.
  assert (match list_find (fun n => name n = Some nm) (nodes il) with
          | Some (i, _) => n ← nodes il !! i; interp_val n | None => None end = assoc nm ps) as Ha.
  { revert ps Hn. induction (nodes il) as [|n ns IH]; intros [|[m v] ps] Hn; [done..|].
    injection Hn as E1 _ E3 Hn. specialize (IH ps Hn). cbn. rewrite E1.
    destruct (decide (m = nm)) as [->|Hne]; [by rewrite decide_True|]. rewrite decide_False by congruence.
    rewrite <-IH. by destruct (list_find _ ns) as [[i x]|]. }
  destruct (nodes il) as [|n ns] eqn:En; [by rewrite <-Ha|]. rewrite <-En in *.
  destruct (list_find _ (nodes il)) as [[i x]|]; cbn [mbind option_bind]; [|by rewrite Ha].
  unfold cl_get_cur. cbn [cur nodes]. by rewrite <-Ha.
Qed.

(** The interpretations that come with records are found by the name of the
    field in small letters: after any texts were loaded the lookup gives the value
    of the first pair of that name, or that there is none, and no access leaves the
    memory. *)
Theorem interpretations_found ts nm :
  Forall (fun t => NUL ∉ to_chars t) ts -> Z.of_nat (weight ts) < two32 ->
  exists il, load_all ts nvlist_create = Some il /\
    logged_interpretation il nm = Some (assoc nm (concat (pairs <$> ts))).
Proof.
  intros Hn Hl. destruct (load_all_holds ts nvlist_create [] Hn holds_create Hl) as (il & E & H).
  exists il. split; [done|]. by apply holds_lookup.
Qed.

Lemma interpretations_found_witness :
  exists il, load_all ["UID=root AUID=unset"; "SADDR={ fam=inet laddr=1.2.3.4 lport=8 }"]%string nvlist_create = Some il /\
    logged_interpretation il "auid" = Some (Some "unset"%string).
Proof.
  apply (interpretations_found ["UID=root AUID=unset"; "SADDR={ fam=inet laddr=1.2.3.4 lport=8 }"]%string "auid").
  - repeat constructor; by_decision.
  - vm_compute. reflexivity.
Defined.

(** ** Where the code falls short *)

Section samples.
#[local] Existing Instance ExprPrint.sample_env.

(** An interpretation that was logged is shown without being escaped: with the
    mode for terminals the user name of the log, decoded, still has its control
    character, which the same value from the user database loses. *)
Theorem logged_not_escaped :
  let id := IData 0 0 0 0 None "auid"%string (Some "5"%string) in
  let name := String (chr 27) "[2J" in
  (il ← load_all ["AUID=1B5B324A"]%string nvlist_create;
   auparse_do_interpretation NUL (fun _ => None) (fun _ _ => None) il AUPARSE_TYPE_UID id 1) = Some name /\
  auparse_do_interpretation NUL (fun _ => None) (fun _ _ => Some name) nvlist_create AUPARSE_TYPE_UID id 1
  = Some (String BACKSLASH "033[2J").
Proof. split; vm_compute; reflexivity. Qed.

End samples.

End InterpretFacts.
