(* ===== verification/AuSearch.v ===== *)
(** * The parser library: searching and reading events (src/auparse/auparse.c)

    The search expression of a parser, ausearch_next_event(), and the functions
    that move over the records and fields of the current event and read them.
    [None] is an access through a null pointer or outside of memory. *)
From S2P Require Import Prelude CString CList Nvlist DataBuf Expr Escape Lol Ellist Auparse.
From coqutil Require Import Datatypes.RecordSetters.
Import RecordSetters.TriangleBracketNotations.

Local Open Scope audit_scope.
Local Open Scope string_scope.
Local Open Scope Z_scope.

Module AuSearch.
Import Nv Ellist Auparse.

(** ** Data *)

Definition AUSEARCH_RULE_CLEAR : Z := 0.
Definition AUSEARCH_RULE_OR : Z := 1.
Definition AUSEARCH_RULE_AND : Z := 2.

Definition AUSEARCH_STOP_EVENT : Z := 0.
Definition AUSEARCH_STOP_RECORD : Z := 1.
Definition AUSEARCH_STOP_FIELD : Z := 2.

Definition AUPARSE_TYPE_UNCLASSIFIED : Z := 0.
Definition AUPARSE_TYPE_SOCKADDR : Z := 9.
Definition AUPARSE_TYPE_ESCAPED_FILE : Z := 39.

Section library.
Context {mt : Lol.MsgTypes} {em : ElfMachines} {fs : Files} {env : Expr.ExprEnv}.
(** How fields are interpreted depends on the loaded interpretations. *)
Context {itp : list string -> Interp}.
Context (junk : ascii) (garbage : Z) (realloc_ok : Z -> bool).

(** The rest of [struct opaque]; with the expression [started] of its root. *)
Record state := State {
  au : Auparse.state;
  expr : option (Expr.expr * bool);
  find_field : option string;
  search_where : Z;
  escape_mode : Z;
  tmp_translation : option string;
}.

(** ** The search expression *)

Definition add_expr (e : Expr.expr) (how : Z) (st : state) : Z * state :=
  (0, st<|expr := Some (match expr st with
                        | None => e
                        | Some (old, _) =>
                            if how =? AUSEARCH_RULE_CLEAR then e
                            else Expr.expr_create_binary (negb (how =? AUSEARCH_RULE_OR)) old e
                        end, false)|>).

Definition how_ok (how : Z) : bool := (AUSEARCH_RULE_CLEAR <=? how) && (how <=? AUSEARCH_RULE_AND).

(** [None]: an assertion fails. *)
Definition ausearch_add_item_internal (field : option string) (op : string) (value : option string)
    (how : Z) (op_eq op_ne : Expr.cmp_op) (st : state) : option (Z * state) :=
  match field with
  | None => Some (-1, st)
  | Some field =>
      if negb (how_ok how) then Some (-1, st)
      else if str_eq op "exists" then Some (add_expr (Expr.expr_create_field_exists field) how st)
      else
        match (if str_eq op "=" then Some op_eq else if str_eq op "!=" then Some op_ne else None), value with
        | Some t_op, Some value =>
            e ← Expr.expr_create_comparison field t_op value;
            Some (add_expr e how st)
        | _, _ => Some (-1, st)
        end
  end.

Definition ausearch_add_item (field : option string) (op : string) (value : option string) (how : Z)
    (st : state) : option (Z * state) :=
  ausearch_add_item_internal field op value how Expr.EO_RAW_EQ Expr.EO_RAW_NE st.

Definition ausearch_add_interpreted_item (field : option string) (op : string) (value : option string)
    (how : Z) (st : state) : option (Z * state) :=
  ausearch_add_item_internal field op value how Expr.EO_INTERPRETED_EQ Expr.EO_INTERPRETED_NE st.

(** The operators of [ts_tab]. *)
Definition ts_op (op : string) : option Expr.cmp_op :=
  if str_eq op "<" then Some Expr.EO_VALUE_LT
  else if str_eq op "<=" then Some Expr.EO_VALUE_LE
  else if str_eq op ">=" then Some Expr.EO_VALUE_GE
  else if str_eq op ">" then Some Expr.EO_VALUE_GT
  else if str_eq op "=" then Some Expr.EO_VALUE_EQ
  else None.

Definition ausearch_add_timestamp_item_ex (op : string) (sec milli serial : Z) (how : Z) (st : state)
    : option (Z * state) :=
  match ts_op op with
  | None => Some (-1, st)
  | Some t_op =>
      if 1000 <=? milli then Some (-1, st)
      else if negb (how_ok how) then Some (-1, st)
      else e ← Expr.expr_create_timestamp_comparison_ex t_op sec milli serial; Some (add_expr e how st)
  end.

Definition ausearch_add_timestamp_item (op : string) (sec milli : Z) (how : Z) (st : state)
    : option (Z * state) :=
  ausearch_add_timestamp_item_ex op sec milli 0 how st.

(** With [*error]. *)
Definition ausearch_add_expression (expression : string) (how : Z) (st : state)
    : option (Z * option string * state) :=
  if negb (how_ok how) then Some (-1, None, st)
  else
    r ← Expr.expr_parse expression;
    Some (match r with
          | inl e => let (rc, st) := add_expr e how st in (rc, None, st)
          | inr msg => (-1, Some msg, st)
          end).

Definition ausearch_add_regex (regexp : option string) (st : state) : Z * state :=
  match regexp with
  | None => (-1, st)
  | Some regexp =>
      match Expr.expr_create_regexp_expression regexp with
      | None => (-1, st)
      | Some e => add_expr e AUSEARCH_RULE_AND st
      end
  end.

Definition ausearch_set_stop (w : Z) (st : state) : Z * state :=
  if (w <? AUSEARCH_STOP_EVENT) || (AUSEARCH_STOP_FIELD <? w) then (-1, st)
  else (0, st<|search_where := w|>).

Definition ausearch_clear (st : state) : state :=
  st<|expr := None|><|search_where := AUSEARCH_STOP_EVENT|>.

Definition auparse_set_escape_mode (mode : Z) (st : state) : state := st<|escape_mode := mode|>.

(** ** The current event *)

Definition le (st : state) : option event_list := current (au st).

(** Write [x] where [au->le] points. *)
Definition set_le (x : event_list) (st : state) : option state :=
  i ← Auparse.le (au st);
  c ← array (au_lo (au st)) !! i;
  Some (st<|au ::= set_array (<[i := AuLolNode (Some x) (status c)]> (array (au_lo (au st))))|>).

Definition load_interpretations (r : rnode) (st : state) : state :=
  st<|au ::= fun a => a<|il := option_list (interp r)|>|>.

Definition free_interpretations (st : state) : state := st<|au ::= fun a => a<|il := []|>|>.

(** The record under the cursor; [None] without one or without an event. *)
Definition cur_record (st : state) : option rnode := x ← le st; aup_list_get_cur x.

(** Change that record. *)
Definition set_record (r : rnode) (st : state) : option state := x ← le st; set_le (set_cur r x) st.

Definition next_event (st : state) : option (Z * state) :=
  '(rc, a) ← auparse_next_event junk realloc_ok (au st); Some (rc, st<|au := a|>).

(** ** Moving over the records *)

Definition auparse_first_record (st : state) : option (Z * state) :=
  '(rc, st) ← (if aup_list_get_cnt (le st) =? 0 then next_event st else Some (1, st));
  if rc <=? 0 then Some (rc, st)
  else
    x ← le st;
    let x := aup_list_first x in
    r ← aup_list_get_cur x;
    st ← set_le (aup_list_first_field x).2 (load_interpretations r st);
    Some (1, st).

Definition auparse_next_record (st : state) : option (Z * state) :=
  let st := free_interpretations st in
  '(rc, st) ← (if aup_list_get_cnt (le st) =? 0 then auparse_first_record st else Some (1, st));
  if rc <=? 0 then Some (rc, st)
  else
    x ← le st;
    let x := aup_list_next x in
    st ← set_le x st;
    match aup_list_get_cur x with
    | Some r => Some (1, load_interpretations r st)
    | None => Some (0, st)
    end.

Definition auparse_goto_record_num (num : Z) (st : state) : option (Z * state) :=
  let st := free_interpretations st in
  if aup_list_get_cnt (le st) <=? num then Some (0, st)
  else
    x ← le st;
    let (found, x) := aup_list_goto_rec x num in
    if found then
      r ← aup_list_get_cur x;
      st ← set_le (aup_list_first_field x).2 (load_interpretations r st);
      Some (1, st)
    else st ← set_le x st; Some (0, st).

(** ** Searching *)

Definition ausearch_reposition_cursors (st : state) : option state :=
  x ← le st;
  if search_where st =? AUSEARCH_STOP_EVENT then set_le (aup_list_first_field (aup_list_first x)).2 st
  else if search_where st =? AUSEARCH_STOP_RECORD then set_le (aup_list_first_field x).2 st
  else Some st.

Definition eval_au (ev : au_event) (mode : Z) : Expr.au := Expr.Au (sec ev) (milli ev) (serial ev) mode.

Definition ausearch_compare (st : state) : option (Z * state) :=
  match le st with
  | None => Some (0, st)
  | Some x =>
      match aup_list_get_cur x, expr st with
      | None, _ => Some (0, st)
      | Some r, None => None
      | Some r, Some (ex, _) =>
          '(b, r) ← Expr.expr_eval (H0 := itp (il (au st))) garbage (eval_au (e x) (escape_mode st)) r ex;
          st ← set_record r st;
          Some (if b : bool then 1 else 0, st)
      end
  end.

(** The loop over the records: [inl] returns, [inr] the value of [rc] behind it. *)
Fixpoint record_loop (fuel : nat) (st : state) : option ((Z + Z) * state) :=
  match fuel with
  | O => None
  | S fuel =>
      '(rc, st) ← ausearch_compare st;
      if 0 <? rc then st ← ausearch_reposition_cursors st; Some (inl 1, st)
      else if rc <? 0 then Some (inl rc, st)
      else
        '(rc, st) ← auparse_next_record st;
        if 0 <? rc then record_loop fuel st else Some (inr rc, st)
  end.

Definition records_of (st : state) : nat :=
  match le st with Some x => length (nodes (records x)) | None => O end.

(** The loop over the events. *)
Fixpoint search_loop (fuel : nat) (st : state) : option (Z * state) :=
  match fuel with
  | O => None
  | S fuel =>
      '(r, st) ← record_loop (S (records_of st)) st;
      match r with
      | inl rc => Some (rc, st)
      | inr rc =>
          if rc <? 0 then Some (rc, st)
          else
            '(rc, st) ← next_event st;
            if 0 <? rc then search_loop fuel st
            else Some (if rc <? 0 then rc else 0, st)
      end
  end.

Definition ausearch_next_event (st : state) : option (Z * state) :=
  match expr st with
  | None => Some (-1, st)
  | Some (ex, started) =>
      '(rc, st) ← (if negb started then
                     '(rc, st) ← auparse_first_record st;
                     Some (rc, if rc <=? 0 then st else st<|expr := Some (ex, true)|>)
                   else next_event st);
      if rc <=? 0 then Some (rc, st)
      else search_loop (S (budget (au st) + length (array (au_lo (au st))))) st
  end.

(** ** Reading the event *)

Definition auparse_get_timestamp (st : state) : option au_event :=
  x ← le st; if sec (e x) =? 0 then None else Some (e x).
Definition auparse_get_time (st : state) : Z := match le st with Some x => sec (e x) | None => 0 end.
Definition auparse_get_milli (st : state) : Z := match le st with Some x => milli (e x) | None => 0 end.
Definition auparse_get_serial (st : state) : Z := match le st with Some x => serial (e x) | None => 0 end.
Definition auparse_get_node (st : state) : option string := x ← le st; host (e x).

Definition auparse_get_num_records (st : state) : Z := aup_list_get_cnt (le st).
Definition auparse_get_record_num (st : state) : Z :=
  match cur_record st with Some r => ritem r | None => 0 end.

Definition auparse_get_type (st : state) : Z := match cur_record st with Some r => type r | None => 0 end.
Definition auparse_get_line_number (st : state) : Z :=
  match cur_record st with Some r => Nv.line_number r | None => 0 end.

(** [Some None] is NULL. *)
Definition auparse_get_filename (st : state) : option (option string) :=
  match source (au st) with
  | AUSOURCE_FILE | AUSOURCE_FILE_ARRAY =>
      match cur_record st with
      | None => Some None
      | Some r =>
          if Nv.list_idx r <? 0 then Some None
          else if decide (Nv.list_idx r <= Z.of_nat (length (source_list (au st))))
          then Some (source_list (au st) !! Z.to_nat (Nv.list_idx r))
          else None
      end
  | _ => Some None
  end.

Definition auparse_get_num_fields (st : state) : Z :=
  match cur_record st with Some r => cnt (nv r) | None => 0 end.
Definition auparse_get_record_text (st : state) : option string := record <$> cur_record st.
Definition auparse_get_record_interpretations (st : state) : option string := r ← cur_record st; interp r.

(** ** Moving over the fields *)

Definition auparse_first_field (st : state) : option (Z * state) :=
  match le st with
  | None => Some (0, st)
  | Some x => let (rc, x) := aup_list_first_field x in st ← set_le x st; Some (rc, st)
  end.

Definition auparse_next_field (st : state) : option (Z * state) :=
  match cur_record st with
  | None => Some (0, st)
  | Some r =>
      let l := nvlist_next (nv r) in
      st ← set_record (set_nv r l) st;
      Some (if decide (cur l = None) then 0 else 1, st)
  end.

Definition nvlist_get_cur_name (l : nvlist) : option string := n ← cl_get_cur l; name n.

(** The loop over the records behind the cursor; [moved] skips the field under
    the cursor. *)
Fixpoint find_loop (fuel : nat) (moved : bool) (nm : string) (st : state) : option (option string * state) :=
  match fuel with
  | O => None
  | S fuel =>
      match cur_record st with
      | None => Some (None, st)
      | Some r =>
          '(found, l) ← nvlist_find_name nm (if moved then nv r else nvlist_next (nv r));
          st ← set_record (set_nv r l) st;
          if found : bool then Some (nvlist_get_cur_val l, st)
          else
            x ← le st;
            let x := aup_list_next x in
            match aup_list_get_cur x with
            | None => st ← set_le x st; Some (None, st)
            | Some r =>
                st ← set_le (aup_list_first_field x).2 st;
                find_loop fuel true nm
                  (st<|au ::= fun a => a<|il ::= fun l => (l ++ option_list (interp r))%list|>|>)
            end
      end
  end.

Definition auparse_find_field_next (st : state) : option (option string * state) :=
  match le st, find_field st with
  | Some x, Some nm =>
      if sec (e x) =? 0 then Some (None, st) else find_loop (S (length (nodes (records x)))) false nm st
  | _, _ => Some (None, st)
  end.

Definition auparse_find_field (nm : string) (st : state) : option (option string * state) :=
  match le st with
  | None => Some (None, st)
  | Some x =>
      let st := st<|find_field := Some nm|> in
      if sec (e x) =? 0 then Some (None, st)
      else
        match aup_list_get_cur x with
        | None => Some (None, st)
        | Some r =>
            match nvlist_get_cur_name (nv r) with
            | Some c => if str_eq c nm then Some (nvlist_get_cur_val (nv r), st) else auparse_find_field_next st
            | None => auparse_find_field_next st
            end
        end
  end.

Definition auparse_goto_field_num (num : Z) (st : state) : option (Z * state) :=
  match cur_record st with
  | None => Some (0, st)
  | Some r =>
      if cnt (nv r) <=? num then Some (0, st)
      else
        let (found, l) := nvlist_goto_rec num (nv r) in
        st ← set_record (set_nv r l) st;
        Some (if found then 1 else 0, st)
  end.

(** ** Reading the field *)

Definition auparse_get_field_num (st : state) : Z :=
  match cur_record st ≫= (fun r => cl_get_cur (nv r)) with Some n => item n | None => 0 end.

(** The record under the cursor of an event with a time. *)
Definition timed_record (st : state) : option rnode :=
  x ← le st; if sec (e x) =? 0 then None else aup_list_get_cur x.

Definition auparse_get_field_name (st : state) : option string :=
  r ← timed_record st; nvlist_get_cur_name (nv r).
Definition auparse_get_field_str (st : state) : option string :=
  r ← timed_record st; nvlist_get_cur_val (nv r).

Definition auparse_get_field_type (st : state) : option Z :=
  match timed_record st with
  | Some r => nvlist_get_cur_type (H := itp (il (au st))) r
  | None => Some AUPARSE_TYPE_UNCLASSIFIED
  end.

(** strtol(): the number, [None] when errno is ERANGE. *)
Definition strtol_checked (s : string) : option Z :=
  let (neg, s) := scan_sign s in
  let (v, _) := digits 10 0 s in
  let v := if neg then - v else v in
  if (- 2 ^ 63 <=? v) && (v <=? 2 ^ 63 - 1) then Some v else None.

(** [int val = strtol(v)]: the value is cut to 32 bits. *)
Definition to_int (n : Z) : Z := (n + 2 ^ 31) mod 2 ^ 32 - 2 ^ 31.

Definition auparse_get_field_int (st : state) : Z :=
  match auparse_get_field_str st ≫= strtol_checked with
  | None => -1
  | Some n => to_int n
  end.

(** The interpretation of the current field of record [r]. *)
Definition interpret_cur (r : rnode) (st : state) : option (option string * state) :=
  '(v, r) ← nvlist_interp_cur_val (H := itp (il (au st))) r (escape_mode st);
  st ← set_record r st;
  Some (v, st).

Definition with_cwd (d : option string) (r : rnode) : rnode := r<|cwd := d|>.

Definition auparse_interpret_field (st : state) : option (option string * state) :=
  match timed_record st with
  | None => Some (None, st)
  | Some r => interpret_cur (with_cwd None r) st
  end.

Definition auparse_interpret_realpath (st : state) : option (option string * state) :=
  match timed_record st with
  | None => Some (None, st)
  | Some r =>
      t ← nvlist_get_cur_type (H := itp (il (au st))) r;
      if negb (t =? AUPARSE_TYPE_ESCAPED_FILE) then Some (None, st)
      else x ← le st; interpret_cur (with_cwd (ecwd x) r) st
  end.

(** What follows the first [field] in [s], up to a blank. *)
Fixpoint sock_part (field s : string) : option string :=
  if starts_with field s then
    let (part, rest) := span (fun c => negb (c =c " "%char)) (skip (String.length field) s) in
    match rest with EmptyString => None | _ => Some part end
  else match s with EmptyString => None | String _ s => sock_part field s end.

Definition auparse_interpret_sock_parts (field : string) (st : state) : option (option string * state) :=
  match timed_record st with
  | None => Some (None, st)
  | Some r =>
      t ← nvlist_get_cur_type (H := itp (il (au st))) r;
      if negb (t =? AUPARSE_TYPE_SOCKADDR) then Some (None, st)
      else
        '(v, st) ← interpret_cur r st;
        match v ≫= sock_part field with
        | None => Some (None, st)
        | Some part => Some (Some part, st<|tmp_translation := Some part|>)
        end
  end.

Definition auparse_interpret_sock_family := auparse_interpret_sock_parts "fam=".
Definition auparse_interpret_sock_port := auparse_interpret_sock_parts "lport=".
Definition auparse_interpret_sock_address := auparse_interpret_sock_parts "laddr=".

End library.

End AuSearch.
