(* ===== verification/AuSearchFacts.v ===== *)
(** * The parser library: a search finds the events that match *)
From S2P Require Import Prelude CString CList Nvlist DataBuf Expr ExprPrint ExprEval Escape Lol Ellist EllistFacts Interpret Auparse AuparseFacts AuparseFeed AuSearch.
From coqutil Require Import Datatypes.RecordSetters.
Import RecordSetters.TriangleBracketNotations.

Local Open Scope audit_scope.
Local Open Scope Z_scope.

Module AuSearchFacts.
Import Nv Ellist Auparse AuparseFacts AuparseFeed AuSearch.

Section library.
Context {mt : Lol.MsgTypes} {em : ElfMachines} {fs : Files} {env : Expr.ExprEnv}.
Context {itp : list string -> Interp}.
Context (junk : ascii) (garbage : Z) (realloc_ok : Z -> bool).
Context (Hrealloc : forall n, realloc_ok n = true).

(** ** The search expression *)

Definition expr_ok (st : state) : Prop :=
  match expr st with Some (e, _) => ExprEval.wf_expr e = true | None => True end.

Lemma add_expr_ok e how st :
  expr_ok st -> ExprEval.wf_expr e = true -> expr_ok (add_expr e how st).2.
Proof.
  unfold expr_ok, add_expr. destruct st as [a ex ff w m tt]. cbn. intros Hst He.
  destruct ex as [[old b]|]; [|done]. destruct (how =? AUSEARCH_RULE_CLEAR); [done|].
  unfold Expr.expr_create_binary. destruct (negb _); cbn; by rewrite Hst, He.
Qed.

Lemma add_item_ok f op v how eq ne st :
  Expr.is_string_op eq = true -> Expr.is_string_op ne = true -> expr_ok st ->
  exists rc st', ausearch_add_item_internal f op v how eq ne st = Some (rc, st') /\ expr_ok st'.
Proof.
  intros He Hn Hst. unfold ausearch_add_item_internal. destruct f as [f|]; [|by exists (-1), st].
  destruct (how_ok how); cbn [negb]; [|by exists (-1), st].
  destruct (str_eq op "exists").
  { eexists _, _. split; [done|]. by apply add_expr_ok. }
  assert (forall t w, Expr.is_string_op t = true -> exists rc st',
    (e ← Expr.expr_create_comparison f t w; Some (add_expr e how st)) = Some (rc, st') /\ expr_ok st') as Hcmp.
  { intros t w Ht. destruct (Expr.expr_create_comparison f t w) as [e|] eqn:E.
    - eexists _, _. split; [done|]. apply add_expr_ok; [done|]. by eapply ExprEval.create_comparison_wf.
    - unfold Expr.expr_create_comparison in E. by rewrite Ht in E. }
  destruct (str_eq op "="); [|destruct (str_eq op "!=")]; (destruct v as [w|]; [|by exists (-1), st]); try by apply Hcmp.
  by exists (-1), st.
Qed.

(** The calls that change the expression. *)
Inductive rule :=
  | Item (field : option string) (op : string) (value : option string) (how : Z)
  | InterpretedItem (field : option string) (op : string) (value : option string) (how : Z)
  | TimestampItem (op : string) (sec milli serial how : Z)
  | Expression (text : string) (how : Z)
  | Regex (text : option string)
  | Stop (w : Z)
  | Clear.

Definition add_rule (c : rule) (st : state) : option (Z * state) :=
  match c with
  | Item f op v how => ausearch_add_item f op v how st
  | InterpretedItem f op v how => ausearch_add_interpreted_item f op v how st
  | TimestampItem op s m n how => ausearch_add_timestamp_item_ex op s m n how st
  | Expression t how => '(rc, _, st) ← ausearch_add_expression t how st; Some (rc, st)
  | Regex t => Some (ausearch_add_regex t st)
  | Stop w => Some (ausearch_set_stop w st)
  | Clear => Some (0, ausearch_clear st)
  end.

Fixpoint add_rules (cs : list rule) (st : state) : option state :=
  match cs with [] => Some st | c :: cs => '(_, st) ← add_rule c st; add_rules cs st end.

Lemma add_expr_au e how st : au (add_expr e how st).2 = au st.
Proof. by destruct st. Qed.

Lemma add_rule_au c st rc st' : add_rule c st = Some (rc, st') -> au st' = au st.
Proof.
  intros E. destruct c; cbn [add_rule] in E;
    unfold ausearch_add_item, ausearch_add_interpreted_item, ausearch_add_item_internal,
      ausearch_add_timestamp_item_ex, ausearch_add_expression, ausearch_add_regex, ausearch_set_stop, ausearch_clear in E;
    repeat match goal with
    | H : (_ ≫= _) = Some _ |- _ => apply bind_Some in H as (? & ? & ?)
    | H : Some _ = Some _ |- _ => injection H as H
    | H : (_, _) = (_, _) |- _ => injection H as ? ?
    | p : _ * _ |- _ => destruct p
    | H : add_expr ?e ?h ?s = (_, ?t) |- _ => pose proof (add_expr_au e h s) as Hq; rewrite H in Hq; exact Hq
    | H : context [match ?x with _ => _ end] |- _ => destruct x eqn:?
    end; subst; try done; by destruct st.
Qed.

Lemma add_rule_ok c st : expr_ok st -> exists rc st', add_rule c st = Some (rc, st') /\ expr_ok st'.
Proof.
  intros Hst.
  destruct c as [f op v how|f op v how|op s m n how|t how|t|w|]; cbn [add_rule].
  - by apply add_item_ok.
  - by apply add_item_ok.
  - unfold ausearch_add_timestamp_item_ex. destruct (ts_op op) as [t|] eqn:Eo; [|by exists (-1), st].
    destruct (Z.leb_spec 1000 m); [by exists (-1), st|]. destruct (how_ok how); cbn [negb]; [|by exists (-1), st].
    assert (Expr.is_string_op t = false) as Ht.
    { unfold ts_op in Eo. repeat (case_match; [injection Eo as <-; done|]). done. }
    unfold Expr.expr_create_timestamp_comparison_ex. rewrite Ht, (proj2 (Z.ltb_lt _ _)) by done.
    cbn [mbind option_bind]. eexists _, _. split; [done|]. apply add_expr_ok; [done|]. cbn.
    unfold ExprEval.wf_comparison. by rewrite Ht.
  - unfold ausearch_add_expression. destruct (how_ok how); cbn [negb]; [|by exists (-1), st].
    destruct (ExprEval.expr_parse_returns t) as (r & -> & Hr). cbn [mbind option_bind].
    destruct r as [e|msg]; [|by exists (-1), st]. destruct (add_expr e how st) as [rc st'] eqn:E. exists rc, st'.
    split; [done|]. pose proof (add_expr_ok e how st Hst (Hr e eq_refl)) as Ho. by rewrite E in Ho.
  - unfold ausearch_add_regex. destruct t as [t|]; [|by exists (-1), st].
    destruct (Expr.expr_create_regexp_expression t) as [e|] eqn:E; [|by exists (-1), st].
    eexists _, _. split; [done|]. apply add_expr_ok; [done|]. by eapply ExprEval.create_regexp_wf.
  - unfold ausearch_set_stop. destruct (_ || _); eexists _, _; (split; [done|]); [done|]. by destruct st.
  - eexists _, _. split; [done|]. by destruct st.
Qed.

(** ** Moving inside of the current event *)

(** The event is written where it was, the rest is as before. *)
Definition moved (st st' : state) (y : event_list) : Prop :=
  inv (au st') /\ io (au st') = io (au st) /\ stored (au st') ≡ₚ stored (au st) /\
  length (array (au_lo (au st'))) = length (array (au_lo (au st))) /\
  holding (au st') y /\ expr st' = expr st /\ search_where st' = search_where st /\ escape_mode st' = escape_mode st.

Lemma went_trans st1 st2 st3 y z : moved st1 st2 y -> moved st2 st3 z -> moved st1 st3 z.
Proof.
  intros (A1 & A2 & A3 & A4 & A5 & A6 & A7 & A8) (B1 & B2 & B3 & B4 & B5 & B6 & B7 & B8).
  split_and!; try done; try congruence. by rewrite B3.
Qed.

Lemma went_refl st y : inv (au st) -> holding (au st) y -> moved st st y.
Proof. intros Hv Hh. by split_and!. Qed.

Lemma holding_le st x : holding (au st) x -> le st = Some x.
Proof. apply holding_current. Qed.

Lemma set_le_spec st x y :
  inv (au st) -> holding (au st) x ->
  exists st', set_le y st = Some st' /\ moved st st' y /\ il (au st') = il (au st).
Proof.
  intros Hv (i & c & Hi & Hlt & Hc & Hs & Hl). unfold set_le. rewrite Hi. cbn [mbind option_bind]. rewrite Hc.
  cbn [mbind option_bind]. eexists. split; [done|].
  destruct (au_entries_insert (array (au_lo (au st))) i c (AuLolNode (Some y) (status c)) Hc) as (rest & He1 & He2).
  assert (forall d, status d = EBS_EMPTY -> option_list (entry d) = []) as Hnone
    by (intros d Hd; unfold entry; by rewrite decide_True).
  rewrite Hnone in He1, He2 by done. cbn in He1, He2.
  destruct st as [a ex ff w m tt]. destruct a as [so sl ix inn ln cb pu lee db [arr mx lim] rd ill].
  cbn in *. pose proof (lookup_lt_Some _ _ _ Hc) as Hlen. split; [|done].
  assert (entries (<[i := AuLolNode (Some y) (status c)]> arr) ≡ₚ entries arr) as Hent by (by rewrite He1, He2).
  destruct Hv as [H1 H2 H3 H4 H5]. unfold moved, stored in *. cbn in *. split_and!; try done.
  - split; unfold stored; cbn; try done.
    + intros H%(f_equal length). rewrite length_insert in H. cbn in H. lia.
    + apply arr_ok_insert; [done|done|]. intros Hn. by rewrite Hs in Hn.
    + by rewrite (complete_in_perm _ _ Hent).
    + by rewrite (building_perm _ _ Hent).
  - by rewrite length_insert.
  - exists i, (AuLolNode (Some y) (status c)). split_and!; try done. cbn. by apply list_lookup_insert_eq.
Qed.

Lemma load_moved r st x : inv (au st) -> holding (au st) x -> moved st (load_interpretations r st) x.
Proof. intros [] Hh. destruct st as [a ex ff w m tt]. destruct a. by split_and!; [split|..]. Qed.

Lemma free_moved st x : inv (au st) -> holding (au st) x -> moved st (free_interpretations st) x.
Proof. intros [] Hh. destruct st as [a ex ff w m tt]. destruct a. by split_and!; [split|..]. Qed.

Lemma load_il r st : il (au (load_interpretations r st)) = option_list (interp r).
Proof. by destruct st as [[] ? ? ? ? ?]. Qed.

(** ** The records of an event *)

(** What search does not change of an event. *)
Definition ident (x : event_list) : au_event * list string := (e x, record <$> nodes (records x)).

Definition matches_record (ex : Expr.expr) (mode : Z) (ev : au_event) (r : rnode) : bool :=
  ExprEval.holds (H0 := itp (option_list (interp r))) garbage (eval_au ev mode) r ex.

(** An event matches if one of its records does. *)
Definition matches (ex : Expr.expr) (mode : Z) (x : event_list) : bool :=
  existsb (matches_record ex mode (e x)) (nodes (records x)).

Definition fields_named (x : event_list) : Prop := Forall (fun r => named (nv r)) (nodes (records x)).

(** Where the cursor is after a hit. *)
Definition stopped (ex : Expr.expr) (st : state) (y : event_list) : Prop :=
  if search_where st =? AUSEARCH_STOP_EVENT then cur (records y) = cl_head (records y)
  else exists r, aup_list_get_cur y = Some r /\ matches_record ex (escape_mode st) (e y) r = true.

(** The cursor is on record [k], its interpretations are loaded. *)
Definition at_record (st : state) (x : event_list) (k : nat) (r : rnode) : Prop :=
  inv (au st) /\ holding (au st) x /\ cur (records x) = Some k /\ nodes (records x) !! k = Some r /\
  il (au st) = option_list (interp r).

Lemma set_cur_e r x : e (set_cur r x) = e x.
Proof. by destruct x. Qed.

Lemma ident_set_cur r' x k r :
  cur (records x) = Some k -> nodes (records x) !! k = Some r -> record r' = record r -> ident (set_cur r' x) = ident x.
Proof.
  intros Hc Hk Hr. unfold ident. rewrite set_cur_records, Hc, set_cur_e. cbn [nodes]. f_equal.
  rewrite list_fmap_insert. apply list_insert_id. by rewrite list_lookup_fmap, Hk, Hr.
Qed.

Lemma get_cur_some (x : event_list) k r :
  cur (records x) = Some k -> nodes (records x) !! k = Some r -> aup_list_get_cur x = Some r.
Proof. intros Hc Hk. unfold aup_list_get_cur, cl_get_cur. by rewrite Hc. Qed.

Lemma same_header mode r r' :
  ExprEval.same_fields (H0 := itp (option_list (interp r))) mode r r' -> record r' = record r /\ interp r' = interp r.
Proof. intros [Hh _]. unfold ExprEval.header in Hh. by injection Hh as -> -> _. Qed.

(** Comparing the record under the cursor. *)
Lemma compare_spec st x k r ex b :
  at_record st x k r -> expr st = Some (ex, b) -> ExprEval.wf_expr ex = true -> named (nv r) ->
  exists st' r', ausearch_compare (itp := itp) garbage st
      = Some (if matches_record ex (escape_mode st) (e x) r then 1 else 0, st') /\
    moved st st' (set_cur r' x) /\ il (au st') = il (au st) /\
    ident (set_cur r' x) = ident x /\ interp r' = interp r /\
    matches_record ex (escape_mode st) (e x) r' = matches_record ex (escape_mode st) (e x) r.
Proof.
  intros (Hv & Hh & Hc & Hk & Hil) Hex Hwf Hn. unfold ausearch_compare. rewrite (holding_le _ _ Hh).
  rewrite (get_cur_some x k r Hc Hk), Hex, Hil.
  destruct (ExprEval.expr_eval_spec (H0 := itp (option_list (interp r))) garbage (eval_au (e x) (escape_mode st)) r ex Hwf Hn)
    as (r' & E & Hs). rewrite E. cbn [mbind option_bind].
  destruct (same_header _ _ _ Hs) as [Hrec Hint].
  unfold set_record. rewrite (holding_le _ _ Hh). cbn [mbind option_bind].
  destruct (set_le_spec st x (set_cur r' x) Hv Hh) as (st' & -> & Hm & Hi). cbn [mbind option_bind].
  exists st', r'. split; [done|]. split; [done|]. split; [congruence|]. split; [by eapply ident_set_cur|]. split; [done|].
  unfold matches_record. rewrite Hint. symmetry. by apply (ExprEval.holds_same (H0 := itp (option_list (interp r)))).
Qed.

Lemma first_field_at x k r :
  cur (records x) = Some k -> nodes (records x) !! k = Some r ->
  (aup_list_first_field x).2 = set_cur (set_nv r (nvlist_first (nv r))) x.
Proof. intros Hc Hk. unfold aup_list_first_field, cl_get_cur. by rewrite Hc, Hk. Qed.

Lemma set_cur_at x k r r' :
  cur (records x) = Some k -> nodes (records x) !! k = Some r ->
  cur (records (set_cur r' x)) = Some k /\ nodes (records (set_cur r' x)) !! k = Some r' /\
  cnt (records (set_cur r' x)) = cnt (records x) /\
  drop (S k) (nodes (records (set_cur r' x))) = drop (S k) (nodes (records x)).
Proof.
  intros Hc Hk. rewrite set_cur_records, Hc. cbn [cur nodes cnt]. split_and!; try done.
  - apply list_lookup_insert_eq. by eapply lookup_lt_Some.
  - by rewrite drop_insert_lt by lia.
Qed.

(** The first fields of a record that matches: it still does. *)
Lemma matches_first ex mode ev r :
  matches_record ex mode ev (set_nv r (nvlist_first (nv r))) = matches_record ex mode ev r.
Proof.
  unfold matches_record. cbn [interp set_nv]. symmetry. apply ExprEval.holds_same.
  by apply ExprEval.same_nodes.
Qed.

Lemma reposition_spec st x k r ex :
  inv (au st) -> holding (au st) x -> cur (records x) = Some k -> nodes (records x) !! k = Some r ->
  matches_record ex (escape_mode st) (e x) r = true ->
  exists st' y, ausearch_reposition_cursors st = Some st' /\ moved st st' y /\ ident y = ident x /\ stopped ex st' y.
Proof.
  intros Hv Hh Hc Hk Hm. unfold ausearch_reposition_cursors. rewrite (holding_le _ _ Hh). cbn [mbind option_bind].
  destruct (search_where st =? AUSEARCH_STOP_EVENT) eqn:E1; [|destruct (search_where st =? AUSEARCH_STOP_RECORD)].
  - destruct (set_le_spec st x (aup_list_first_field (aup_list_first x)).2 Hv Hh) as (st' & -> & Hmv & _).
    exists st', (aup_list_first_field (aup_list_first x)).2. split; [done|]. split; [done|].
    pose proof Hmv as (_ & _ & _ & _ & _ & _ & Hw & _). unfold stopped. rewrite Hw, E1.
    destruct x as [[[|r0 ns] c n] ev d]; [done|]. done.
  - destruct (set_le_spec st x (aup_list_first_field x).2 Hv Hh) as (st' & -> & Hmv & _).
    exists st', (aup_list_first_field x).2. split; [done|]. split; [done|].
    rewrite (first_field_at x k r Hc Hk). split; [by eapply ident_set_cur|].
    pose proof Hmv as (_ & _ & _ & _ & _ & _ & Hw & Hmode). unfold stopped. rewrite Hw, E1, Hmode, set_cur_e.
    destruct (set_cur_at x k r (set_nv r (nvlist_first (nv r))) Hc Hk) as (Hc' & Hk' & _).
    eexists. split; [by eapply get_cur_some|]. by rewrite matches_first.
  - exists st, x. split; [done|]. split; [by apply went_refl|]. split; [done|]. unfold stopped. rewrite E1.
    exists r. split; [by eapply get_cur_some|done].
Qed.

(** The next record of the event, if there is one. *)
Lemma next_record_spec st x k r :
  inv (au st) -> holding (au st) x -> cur (records x) = Some k -> nodes (records x) !! k = Some r ->
  cnt (records x) <> 0 ->
  exists st', auparse_next_record junk realloc_ok st
      = Some (if decide (S k < length (nodes (records x)))%nat then 1 else 0, st') /\
    moved st st' (aup_list_next x) /\
    forall r', nodes (records x) !! S k = Some r' -> at_record st' (aup_list_next x) (S k) r'.
Proof.
  intros Hv Hh Hc Hk Hcnt. unfold auparse_next_record.
  pose proof (free_moved st x Hv Hh) as Hm0. set (st0 := free_interpretations st) in *.
  pose proof Hm0 as (Hv0 & _ & _ & _ & Hh0 & _). rewrite (holding_le _ _ Hh0). unfold aup_list_get_cnt.
  rewrite (proj2 (Z.eqb_neq _ _) Hcnt). cbn [mbind option_bind]. replace (1 <=? 0) with false by done.
  rewrite (holding_le _ _ Hh0). cbn [mbind option_bind].
  destruct (set_le_spec st0 x (aup_list_next x) Hv0 Hh0) as (st1 & -> & Hm1 & _). cbn [mbind option_bind].
  pose proof (went_trans _ _ _ _ _ Hm0 Hm1) as Hm. pose proof Hm1 as (Hv1 & _ & _ & _ & Hh1 & _).
  assert (nodes (records (aup_list_next x)) = nodes (records x) /\
    cur (records (aup_list_next x)) = if decide (S k < length (nodes (records x)))%nat then Some (S k) else None) as [En Ec].
  { destruct x as [[ns c n] ev d]. cbn in *. subst c. unfold succ_of. cbn. split; [done|]. by case_decide. }
  unfold aup_list_get_cur, cl_get_cur. rewrite Ec, En.
  destruct (decide (S k < length (nodes (records x)))%nat) as [Hlt|Hge].
  - destruct (lookup_lt_is_Some_2 _ _ Hlt) as [r' Hr']. rewrite Hr'. eexists. split; [done|].
    pose proof (load_moved r' st1 _ Hv1 Hh1) as Hm2. split; [by eapply went_trans|].
    intros r'' Hr''. assert (r'' = r') as -> by congruence. destruct Hm2 as (? & _ & _ & _ & ? & _).
    unfold at_record. rewrite En, Ec. by split_and!.
  - eexists. split; [done|]. split; [done|]. intros r' Hr'%lookup_lt_Some. lia.
Qed.

Lemma record_loop_spec ex b rs : forall fuel st x k r,
  at_record st x k r -> drop (S k) (nodes (records x)) = rs -> expr st = Some (ex, b) ->
  ExprEval.wf_expr ex = true -> Forall (fun r => named (nv r)) (r :: rs) -> cnt (records x) <> 0 ->
  (length rs < fuel)%nat ->
  exists res st' y, record_loop (itp := itp) junk garbage realloc_ok fuel st = Some (res, st') /\
    moved st st' y /\ ident y = ident x /\
    if existsb (matches_record ex (escape_mode st) (e x)) (r :: rs) then res = inl 1 /\ stopped ex st' y else res = inr 0.
Proof.
  induction rs as [|r2 rs IH]; intros fuel st x k r Hat Hdrop Hex Hwf Hn Hcnt Hfuel;
    (destruct fuel as [|fuel]; [lia|]); cbn [record_loop];
    apply Forall_cons in Hn as [Hnr Hns];
    destruct (compare_spec st x k r ex b Hat Hex Hwf Hnr) as (st1 & r1 & -> & Hm1 & Hil1 & Hid1 & Hint1 & Hmat1);
    pose proof Hat as (_ & _ & Hc & Hk & Hil);
    destruct (set_cur_at x k r r1 Hc Hk) as (Hc1 & Hk1 & Hcnt1 & Hd1);
    pose proof Hm1 as (Hv1 & _ & _ & _ & Hh1 & Hex1 & _ & Hmode1);
    cbn [mbind option_bind existsb];
    (destruct (matches_record ex (escape_mode st) (e x) r) eqn:Em; cbn [orb];
     [replace (0 <? 1) with true by done;
      destruct (reposition_spec st1 (set_cur r1 x) k r1 ex Hv1 Hh1 Hc1 Hk1) as (st2 & y & -> & Hm2 & Hid2 & Hst);
      [by rewrite Hmode1, set_cur_e, Hmat1|];
      cbn [mbind option_bind]; exists (inl 1), st2, y;
      split; [done|]; split; [by eapply went_trans|]; split; [congruence|]; done|]);
    replace (0 <? 0) with false by done;
    destruct (next_record_spec st1 (set_cur r1 x) k r1 Hv1 Hh1 Hc1 Hk1 ltac:(by rewrite Hcnt1)) as (st2 & -> & Hm2 & Hnext);
    cbn [mbind option_bind].
  - assert (~ (S k < length (nodes (records (set_cur r1 x))))%nat) as Hge.
    { rewrite Hdrop in Hd1. apply (f_equal length) in Hd1. rewrite length_drop in Hd1. change (length (@nil rnode)) with 0%nat in Hd1. lia. }
    rewrite decide_False by done. replace (0 <? 0) with false by done.
    exists (inr 0), st2, (aup_list_next (set_cur r1 x)). split; [done|]. split; [by eapply went_trans|]. split; [|done].
    rewrite <-Hid1. unfold ident. by destruct (set_cur r1 x) as [[] ? ?].
  - assert (nodes (records (set_cur r1 x)) !! S k = Some r2) as Hr2.
    { rewrite Hdrop in Hd1. rewrite <-(Nat.add_0_r (S k)), <-lookup_drop, Hd1. done. }
    rewrite decide_True by (by eapply lookup_lt_Some). replace (0 <? 1) with true by done.
    pose proof (Hnext r2 Hr2) as Hat2.
    assert (nodes (records (aup_list_next (set_cur r1 x))) = nodes (records (set_cur r1 x)) /\
      cnt (records (aup_list_next (set_cur r1 x))) = cnt (records (set_cur r1 x)) /\
      e (aup_list_next (set_cur r1 x)) = e (set_cur r1 x)) as (En & Ecnt & Ee) by (by destruct (set_cur r1 x) as [[] ? ?]).
    pose proof Hm2 as (_ & _ & _ & _ & _ & Hex2 & _ & Hmode2).
    destruct (IH fuel st2 (aup_list_next (set_cur r1 x)) (S k) r2 Hat2) as (res & st3 & y & -> & Hm3 & Hid3 & Hres).
    + rewrite En. rewrite Hdrop in Hd1. apply (f_equal (drop 1)) in Hd1. rewrite drop_drop in Hd1.
      change (drop 1 (r2 :: rs)) with rs in Hd1. rewrite <-Hd1. f_equal. lia.
    + congruence.
    + done.
    + done.
    + by rewrite Ecnt, Hcnt1.
    + cbn in Hfuel. lia.
    + exists res, st3, y. split; [done|]. split; [eapply went_trans; [|done]; by eapply went_trans|].
      split; [|by rewrite Hmode2, Hmode1, Ee, set_cur_e in Hres].
      rewrite Hid3, <-Hid1. unfold ident. by rewrite En, Ee.
Qed.

(** ** The events *)

Lemma shown_spec x :
  event_ok x -> exists r rs, nodes (records x) = r :: rs /\
    nodes (records (shown x)) = set_nv r (nvlist_first (nv r)) :: rs /\
    cur (records (shown x)) = Some O /\ cnt (records (shown x)) = cnt (records x) /\ e (shown x) = e x.
Proof.
  intros [_ Hne]. destruct x as [[[|r rs] c n] ev d]; [done|]. exists r, rs. done.
Qed.

Lemma shown_idem x : event_ok x -> shown (shown x) = shown x.
Proof. intros [_ Hne]. by destruct x as [[[|r rs] c n] ev d]. Qed.

Definition event_fine (x : event_list) : Prop :=
  fields_named x /\ Z.of_nat (length (nodes (records x))) < two32.

(** The records of an event that was just handed out. *)
Lemma search_event st x ex b :
  inv (au st) -> presents (au st) x -> event_fine x -> expr st = Some (ex, b) -> ExprEval.wf_expr ex = true ->
  exists res st' y, record_loop (itp := itp) junk garbage realloc_ok (S (records_of st)) st = Some (res, st') /\
    moved st st' y /\ ident y = ident (shown x) /\
    if matches ex (escape_mode st) (shown x) then res = inl 1 /\ stopped ex st' y else res = inr 0.
Proof.
  intros Hv (Hok & Hh & Hil) [Hn Hlen] Hex Hwf.
  destruct (shown_spec x Hok) as (r & rs & Ex & Es & Ec & Ecnt & Ee).
  unfold fields_named in Hn. rewrite Ex in Hn. apply Forall_cons in Hn as [Hnr Hns].
  unfold records_of, matches. rewrite (holding_le _ _ Hh), Es.
  eapply (record_loop_spec ex b rs _ st (shown x) O); try done.
  - split_and!; try done; [by rewrite Es|]. unfold first_interp in Hil. rewrite Ex in Hil. exact Hil.
  - by rewrite Es.
  - constructor; done.
  - rewrite Ecnt, (wf_cnt _ (ev_wf _ Hok)), u32_small by (unfold two32 in *; rewrite Ex in *; cbn in *; lia).
    rewrite Ex. cbn. lia.
  - cbn. lia.
Qed.

Lemma feeding_moved k st st' y ds T r :
  feeding junk k (au st) ds T r -> moved st st' y -> feeding junk k (au st') ds T r /\ work (au st') = work (au st).
Proof.
  intros Hf (H1 & H2 & H3 & _). split; [by eapply feeding_same|]. unfold work.
  by rewrite (io_pending _ _ H2), H3.
Qed.

(** An event that was handed out is one of the input. *)
Lemma file_ref_keeps b idx ln xs x :
  (EBS_COMPLETE, x) ∈ xs -> (EBS_COMPLETE, x) ∈ file_ref junk b idx ln xs.
Proof.
  intros Hx. unfold file_ref. destruct (extract_timestamp b) as [[ev|]|]; [|done..].
  assert (forall p (ys : list (au_lol_t * event_list)), (EBS_COMPLETE, x) ∈ ys -> (EBS_COMPLETE, x) ∈ mark p <$> ys) as Hmark.
  { intros p ys Hy. apply list_elem_of_fmap. by exists (EBS_COMPLETE, x). }
  case_decide; [|destruct (only_eoe _); [done|]]; apply Hmark.
  - apply list_elem_of_fmap. exists (EBS_COMPLETE, x). split; [|done]. unfold extend. by rewrite decide_False by (by intros []).
  - apply elem_of_app. by left.
Qed.

Lemma assemble_keeps ls : forall a x, (EBS_COMPLETE, x) ∈ a.2 -> (EBS_COMPLETE, x) ∈ (assemble junk ls a).2.
Proof.
  induction ls as [|s ls IH]; intros a x Hx; [done|]. apply IH. cbn. by apply file_ref_keeps.
Qed.

Lemma handed_in_target k st x ds T r (P : event_list -> Prop) :
  feeding junk k st (x :: ds) T r -> (forall a y, T a -> y ∈ a.2.*2 -> P y) -> P x.
Proof.
  intros Hf HT. destruct (fd_target _ _ _ _ _ _ Hf) as (xs & Hx & Ht). eapply HT; [exact Ht|].
  apply list_elem_of_fmap. exists (EBS_COMPLETE, x). split; [done|]. apply assemble_keeps. cbn. rewrite <-Hx.
  apply elem_of_app. right. by left.
Qed.

(** What a search leaves: it passed over [sk], and stopped at [x] or at the end. *)
Definition searched (k : bool) (ex : Expr.expr) (st : state) (ds : list event_list) (T : Z * list (au_lol_t * event_list) -> Prop)
    (r : chars) (rc : Z) (st' : state) : Prop :=
  exists sk b, Forall (fun x => matches ex (escape_mode st) (shown x) = false) sk /\
    expr st' = Some (ex, b) /\ b = true /\ escape_mode st' = escape_mode st /\ search_where st' = search_where st /\
    ((rc = 1 /\ exists x y, feeding junk k (au st') (x :: sk ++ ds) T r /\ matches ex (escape_mode st) (shown x) = true /\
        le st' = Some y /\ ident y = ident (shown x) /\ stopped ex st' y) \/
     (rc = 0 /\ feeding junk k (au st') (sk ++ ds) T r /\ drained (au st'))).

Lemma next_event_lift st rc a :
  auparse_next_event junk realloc_ok (au st) = Some (rc, a) -> next_event junk realloc_ok st = Some (rc, st<|au := a|>).
Proof. intros E. unfold next_event. by rewrite E. Qed.

Lemma search_loop_spec k ex T r fuel : forall st x ds,
  (forall a y, T a -> y ∈ a.2.*2 -> event_fine y) -> ExprEval.wf_expr ex = true ->
  feeding junk k (au st) (x :: ds) T r -> presents (au st) x -> expr st = Some (ex, true) ->
  (work (au st) < fuel)%nat ->
  exists rc st', search_loop (itp := itp) junk garbage realloc_ok fuel st = Some (rc, st') /\
    searched k ex st ds T r rc st' /\ (rc = 1 -> (work (au st') <= work (au st))%nat).
Proof.
  induction fuel as [|fuel IH]; intros st x ds HT Hwf Hf Hp Hex Hfuel; [lia|]. cbn [search_loop].
  pose proof (fd_inv _ _ _ _ _ _ Hf) as Hv.
  destruct (search_event st x ex true Hv Hp (handed_in_target _ _ _ _ _ _ event_fine Hf HT) Hex Hwf)
    as (res & st1 & y & -> & Hm & Hid & Hres). cbn [mbind option_bind].
  destruct (feeding_moved _ _ _ _ _ _ _ Hf Hm) as [Hf1 Hw1].
  pose proof Hm as (Hv1 & _ & _ & _ & Hh1 & Hex1 & Hw & Hmode1).
  destruct (matches ex (escape_mode st) (shown x)) eqn:Em.
  - destruct Hres as [-> Hst]. exists 1, st1. split; [done|]. split; [|lia]. exists [], true.
    split_and!; try done; [congruence|]. left. split; [done|]. exists x, y. split_and!; try done. by apply holding_le.
  - subst res. replace (0 <? 0) with false by done.
    destruct (next_event_spec junk realloc_ok Hrealloc k (au st1) (x :: ds) T r Hf1) as (rc & a & E & Hpr).
    rewrite (next_event_lift _ _ _ E). cbn [mbind option_bind].
    assert (au (st1<|au := a|>) = a /\ expr (st1<|au := a|>) = Some (ex, true) /\
      escape_mode (st1<|au := a|>) = escape_mode st /\ search_where (st1<|au := a|>) = search_where st) as (Ea & Eex & Emode & Ew).
    { rewrite <-Hmode1, <-Hw, <-Hex, <-Hex1. by destruct st1. }
    set (st2 := st1<|au := a|>) in *. destruct Hpr as [(-> & x2 & Hf2 & Hp2 & Hlt)|(-> & Hf2 & Hd)].
    + replace (0 <? 1) with true by done. rewrite <-Ea in Hf2, Hp2, Hlt.
      destruct (IH st2 x2 (x :: ds) HT Hwf Hf2 Hp2 Eex ltac:(lia)) as (rc & st3 & -> & Hs & Hle).
      exists rc, st3. split; [done|]. split; [|intros Hrc; specialize (Hle Hrc); lia].
      destruct Hs as (sk & b & Hsk & Hb1 & Hb2 & Hb3 & Hb4 & Hout). rewrite Emode in *. rewrite Ew in *.
      exists (sk ++ [x]), b. split; [by apply Forall_app; split; [|constructor]|]. do 4 (split; [done|]).
      rewrite <-app_assoc. exact Hout.
    + replace (0 <? 0) with false by done. exists 0, st2. split; [done|]. rewrite <-Ea in Hf2, Hd.
      split; [|done]. exists [x], true. split; [by constructor|]. do 4 (split; [done|]). right. by split.
Qed.

Lemma enough_fuel st : (work st < S (budget st + length (array (au_lo st))))%nat.
Proof. pose proof (stored_le st). unfold work, budget, pending. lia. Qed.

(** The first event of a search. *)
Lemma first_record_spec k st T r rc a :
  le st = None -> auparse_next_event junk realloc_ok (au st) = Some (rc, a) -> progress junk k (au st) [] T r rc a ->
  exists st', auparse_first_record junk realloc_ok st = Some (rc, st') /\
    progress junk k (au st) [] T r rc (au st') /\ expr st' = expr st /\ escape_mode st' = escape_mode st /\ search_where st' = search_where st.
Proof.
  intros Hle E Hpr. unfold auparse_first_record. rewrite Hle. cbn [aup_list_get_cnt Z.eqb].
  rewrite (next_event_lift _ _ _ E). cbn [mbind option_bind].
  assert (au (st<|au := a|>) = a /\ expr (st<|au := a|>) = expr st /\
    escape_mode (st<|au := a|>) = escape_mode st /\ search_where (st<|au := a|>) = search_where st) as (Ea & Eex & Emode & Ew) by (by destruct st).
  set (st1 := st<|au := a|>) in *. rewrite <-Ea in Hpr. clearbody st1.
  destruct Hpr as [(-> & x & Hf & (Hok & Hh & Hil) & Hlt)|(-> & Hf & Hd)].
  2: { exists st1. split; [done|]. split; [by right|done]. }
  replace (1 <=? 0) with false by done. rewrite (holding_le _ _ Hh). cbn [mbind option_bind].
  destruct (shown_spec x Hok) as (r0 & rs & Ex & Es & Ec & _ & _).
  assert (aup_list_get_cur (aup_list_first (shown x)) = Some (set_nv r0 (nvlist_first (nv r0)))) as ->.
  { destruct (shown x) as [[ns c n] ev d]. cbn in *. by subst ns. }
  cbn [mbind option_bind]. fold (shown (shown x)). rewrite (shown_idem x Hok).
  set (r1 := set_nv r0 (nvlist_first (nv r0))).
  pose proof (fd_inv _ _ _ _ _ _ Hf) as Hv. pose proof (load_moved r1 st1 _ Hv Hh) as Hm1.
  pose proof Hm1 as (Hv1 & _ & _ & _ & Hh1 & _).
  destruct (set_le_spec (load_interpretations r1 st1) (shown x) (shown x) Hv1 Hh1) as (st2 & -> & Hm2 & Hil2). cbn [mbind option_bind].
  pose proof (went_trans _ _ _ _ _ Hm1 Hm2) as Hm.
  destruct (feeding_moved _ _ _ _ _ _ _ Hf Hm) as [Hf2 Hw2]. pose proof Hm as (_ & _ & _ & _ & Hh2 & H1 & H2 & H3).
  exists st2. split; [done|]. split; [|split_and!; congruence]. left. split; [done|]. exists x. split; [done|]. split; [|lia].
  split; [done|]. split; [done|]. rewrite Hil2, load_il. unfold first_interp. by rewrite Ex.
Qed.

(** A search in the state [st]: the expression was not used yet, and then there is
    no current event, or it was. *)
Definition searching (ex : Expr.expr) (st : state) (ds : list event_list) : Prop :=
  expr st = Some (ex, true) \/ expr st = Some (ex, false) /\ le st = None /\ ds = [].

Lemma ausearch_next_event_spec k ex T r st ds :
  (forall a y, T a -> y ∈ a.2.*2 -> event_fine y) -> ExprEval.wf_expr ex = true ->
  feeding junk k (au st) ds T r -> searching ex st ds ->
  exists rc st', ausearch_next_event (itp := itp) junk garbage realloc_ok st = Some (rc, st') /\
    ((rc = 1 /\ (work (au st') < work (au st))%nat /\ searched k ex st ds T r rc st') \/
     (rc = 0 /\ exists sk, Forall (fun x => matches ex (escape_mode st) (shown x) = false) sk /\
       feeding junk k (au st') (sk ++ ds) T r /\ drained (au st'))).
Proof.
  intros HT Hwf Hf Hs.
  destruct (next_event_spec junk realloc_ok Hrealloc k (au st) ds T r Hf) as (rc & a & E & Hpr).
  assert (exists st', (if negb (match expr st with Some (_, b) => b | None => true end) then
      '(rc, st) ← auparse_first_record junk realloc_ok st;
      Some (rc, if rc <=? 0 then st else st<|expr := Some (ex, true)|>)
    else next_event junk realloc_ok st) = Some (rc, st') /\
    progress junk k (au st) ds T r rc (au st') /\ (rc = 1 -> expr st' = Some (ex, true)) /\
    escape_mode st' = escape_mode st /\ search_where st' = search_where st) as (st1 & E1 & Hpr1 & Hex1 & Hmode1 & Hw1).
  { destruct Hs as [Hex|(Hex & Hle & ->)]; rewrite Hex; cbn [negb].
    - rewrite (next_event_lift _ _ _ E). eexists. split; [done|]. by destruct st.
    - destruct (first_record_spec k st T r rc a Hle E Hpr) as (st1 & -> & Hpr1 & Hex1 & Hm1 & Hw1).
      cbn [mbind option_bind]. eexists. split; [done|]. rewrite <-Hm1, <-Hw1.
      destruct Hpr1 as [(-> & ?)|(-> & ?)].
      + replace (1 <=? 0) with false by done. split; [left; by destruct st1|]. by destruct st1.
      + replace (0 <=? 0) with true by done. split; [by right|]. done. }
  unfold ausearch_next_event. assert (exists b, expr st = Some (ex, b)) as [b Hex] by (destruct Hs as [|[]]; by eexists).
  rewrite Hex in *. rewrite E1. cbn [mbind option_bind].
  destruct Hpr1 as [(-> & x & Hf1 & Hp1 & Hlt)|(-> & Hf1 & Hd)].
  - replace (1 <=? 0) with false by done.
    destruct (search_loop_spec k ex T r _ st1 x ds HT Hwf Hf1 Hp1 (Hex1 eq_refl) (enough_fuel (au st1))) as (rc & st2 & -> & Hs2 & Hle2).
    exists rc, st2. split; [done|]. destruct Hs2 as (sk & b' & Hsk & Hb1 & Hb2 & Hb3 & Hb4 & Hout). rewrite Hmode1 in *. rewrite Hw1 in *.
    destruct Hout as [(-> & Hfound)|(-> & Hf2 & Hd2)].
    + left. split; [done|]. split; [specialize (Hle2 eq_refl); lia|]. exists sk, b'. split_and!; try done. by left.
    + right. split; [done|]. by exists sk.
  - replace (0 <=? 0) with true by done. exists 0, st1. split; [done|]. right. split; [done|]. by exists [].
Qed.

(** One search after the other: the events they stop at and what the last one returns. *)
Fixpoint search_all (fuel : nat) (st : state) : option (list event_list * Z * state) :=
  match fuel with
  | O => None
  | S fuel =>
      '(rc, st) ← ausearch_next_event (itp := itp) junk garbage realloc_ok st;
      if 0 <? rc then x ← le st; '(xs, rc, st) ← search_all fuel st; Some (x :: xs, rc, st)
      else Some ([], rc, st)
  end.

Lemma search_all_spec k ex mode T r : forall fuel st ds,
  (forall a y, T a -> y ∈ a.2.*2 -> event_fine y) -> ExprEval.wf_expr ex = true ->
  feeding junk k (au st) ds T r -> searching ex st ds -> escape_mode st = mode -> (work (au st) < fuel)%nat ->
  exists ys st' seen, search_all fuel st = Some (ys, 0, st') /\ feeding junk k (au st') (seen ++ ds) T r /\ drained (au st') /\
    (ident <$> ys) ≡ₚ ident <$> List.filter (matches ex mode) (shown <$> seen).
Proof.
  induction fuel as [|fuel IH]; intros st ds HT Hwf Hf Hs Hmode Hfuel; [lia|]. cbn [search_all].
  destruct (ausearch_next_event_spec k ex T r st ds HT Hwf Hf Hs) as (rc & st1 & -> & Hout). cbn [mbind option_bind].
  assert (forall sk, Forall (fun x => matches ex (escape_mode st) (shown x) = false) sk ->
    List.filter (matches ex mode) (shown <$> sk) = []) as Hnone.
  { intros sk Hsk. induction Hsk as [|x sk Hx _ IHsk]; [done|]. cbn. rewrite <-Hmode at 1. by rewrite Hx. }
  destruct Hout as [(-> & Hlt & sk & b & Hsk & Hex1 & -> & Hm1 & _ & [(_ & x & y & Hf1 & Hmx & Hy & Hid & _)|(? & _)])|(-> & sk & Hsk & Hf1 & Hd)]; [|done|].
  - replace (0 <? 1) with true by done. rewrite Hy. cbn [mbind option_bind].
    destruct (IH st1 (x :: sk ++ ds) HT Hwf Hf1 (or_introl Hex1) ltac:(congruence) ltac:(lia)) as (ys & st2 & seen & -> & Hf2 & Hd2 & Hp).
    cbn [mbind option_bind]. exists (y :: ys), st2, (seen ++ x :: sk). split; [done|].
    split; [by rewrite <-app_assoc|]. split; [done|].
    rewrite fmap_app, List.filter_app, fmap_app, <-Hp. cbn. rewrite <-Hmode at 1. rewrite Hmx. cbn. rewrite Hnone by done. cbn.
    rewrite Hid. by rewrite <-Permutation_cons_append.
  - replace (0 <? 0) with false by done. exists [], st1, sk. rewrite Hnone by done. done.
Qed.

(** ** The size of events *)

Abbreviation size x := (length (nodes (records x))).

Lemma with_line_size b idx ln x : (size (with_line junk b idx ln x) <= S (size x))%nat.
Proof.
  unfold with_line, aup_list_append.
  assert (forall r recs, (length (nodes recs) <= S (size x))%nat ->
    forall rc x', ('(rc, r) ← parse_up_record junk r;
      let l := set_cur r (EventList recs (e x) (ecwd x)) in
      Some (rc, match cwd r with Some d => l<|ecwd := Some d|> | None => l end)) = Some (rc, x') -> (size x' <= S (size x))%nat) as Hput.
  { intros r recs Hrecs rc x'. destruct (parse_up_record junk r) as [[rc0 r']|]; [|done]. cbn.
    intros [= _ <-]. destruct (cwd r'), (cur recs); cbn; rewrite ?length_insert; done. }
  destruct x as [recs ev d]. cbn [records nodes] in *.
  destruct (nodes recs) as [|n ns] eqn:En; cbn [mbind option_bind].
  - match goal with |- context [match ?o with _ => _ end] => destruct o as [[rc x']|] eqn:E end; [|change (length (nodes recs) <= 1)%nat; rewrite En; cbn; lia].
    eapply Hput; [|exact E]. cbn. lia.
  - rewrite <-En in *. destruct (cl_link_cur _ _) as [recs'|] eqn:Ek; cbn [mbind option_bind]; [|change (length (nodes recs) <= S (length (nodes recs)))%nat; lia].
    match goal with |- context [match ?o with _ => _ end] => destruct o as [[rc x']|] eqn:E end; [|change (length (nodes recs) <= S (length (nodes recs)))%nat; lia].
    eapply Hput; [|exact E]. unfold cl_link_cur in Ek. destruct (cur (cl_last recs)); [|done]. injection Ek as <-. cbn.
    rewrite length_app, length_take. cbn. unfold cl_last. rewrite En. cbn. lia.
Qed.

Lemma file_ref_size b idx ln xs m :
  (0 < m)%nat -> Forall (fun s => (size s.2 <= m)%nat) xs ->
  Forall (fun s => (size s.2 <= S m)%nat) (file_ref junk b idx ln xs).
Proof.
  intros Hm Hxs. assert (Forall (fun s => (size s.2 <= S m)%nat) xs) as Hxs' by (eapply Forall_impl; [done|]; cbn; lia).
  unfold file_ref. destruct (extract_timestamp b) as [[ev|]|]; [|done..].
  assert (forall p s, size (mark p s).2 = size s.2) as Hmark.
  { intros p [st x]. unfold mark. cbn. case_decide; [|done]. by destruct (p x). }
  case_decide; [|destruct (only_eoe _); [done|]]; apply Forall_fmap; eapply Forall_impl;
    [|intros s Hs; cbn; rewrite Hmark; exact Hs| |intros s Hs; cbn; rewrite Hmark; exact Hs].
  - apply Forall_fmap. eapply Forall_impl; [exact Hxs|]. intros [st x] Hs. cbn in Hs.
    unfold compose, extend. cbn [fst snd]. case_decide; cbn [snd]; [|lia]. etransitivity; [apply with_line_size|]. lia.
  - apply Forall_app. split; [done|]. constructor; [|done]. cbn. unfold new_event.
    etransitivity; [apply with_line_size|]. cbn. lia.
Qed.

Lemma assemble_size ls : forall a m,
  (0 < m)%nat -> Forall (fun s => (size s.2 <= m)%nat) a.2 ->
  Forall (fun s => (size s.2 <= m + length ls)%nat) (assemble junk ls a).2.
Proof.
  induction ls as [|s ls IH]; intros a m Hm Ha; cbn.
  - eapply Forall_impl; [done|]. cbn. lia.
  - eapply Forall_impl; [apply (IH _ (S m)); [lia|]; cbn; by apply file_ref_size|]. cbn. lia.
Qed.

Lemma lines_count acc data : (length (lines_of acc data).1 <= length data)%nat.
Proof.
  revert acc. induction data as [|c data IH]; intros acc; cbn; [lia|]. case_decide.
  - specialize (IH []). destruct (lines_of [] data). cbn in *. lia.
  - specialize (IH (acc ++ [c])). lia.
Qed.

Lemma events_size data x :
  Z.of_nat (length data) < two32 - 1 -> x ∈ events_of junk data -> Z.of_nat (size x) < two32.
Proof.
  intros Hlen (s & -> & Hs)%list_elem_of_fmap.
  pose proof (assemble_size (lines_of [] data).1 (0, []) 1 ltac:(lia) (Forall_nil_2 _)) as Hall.
  rewrite Forall_forall in Hall. specialize (Hall s Hs). cbn in Hall. pose proof (lines_count [] data). lia.
Qed.

(** C19: a search over a buffer, called until it returns 0 for the end of the data,
    stops at every event with a record that satisfies the expression, once each, and at
    no other; a record is judged by its fields and its own interpretations.  The last
    line of the buffer is ended by a newline, every line has a stamp, no field of an AVC
    record is without a name ([nameless_field]), the expression is one that the parser
    or the functions of the library make, and there is memory. *)
Theorem buffer_search access data ex w mode ff tt :
  Z.of_nat (length data) < two32 - 1 ->
  Forall stamped (lines_of [] data).1 -> (lines_of [] data).2 = [] ->
  Forall fields_named (events_of junk data) -> ExprEval.wf_expr ex = true ->
  exists st0 fuel ys st1,
    auparse_init junk access (Buffer (Some data)) = Some (Some st0) /\
    search_all fuel (State st0 (Some (ex, false)) ff w mode tt) = Some (ys, 0, st1) /\
    (ident <$> ys) ≡ₚ ident <$> List.filter (matches ex mode) (shown <$> events_of junk data).
Proof.
  intros Hlen Hst Hr Hn Hwf.
  destruct (buffer_start junk access data ltac:(lia) Hst) as (st0 & E0 & Hf & _).
  assert (Auparse.le st0 = None) as Hle.
  { unfold auparse_init in E0. repeat (apply bind_Some in E0 as ([? ?] & _ & E0)). cbn in E0.
    repeat (case_match; try done). all: try (apply bind_Some in E0 as ([? ?] & _ & E0)).
    all: repeat (case_match; try done). all: by injection E0 as <-. }
  destruct (search_all_spec false ex mode (fun a => a.2.*2 = events_of junk data) (lines_of [] data).2 (S (work st0)) (State st0 (Some (ex, false)) ff w mode tt) []) as (ys & st1 & seen & E1 & Hf1 & [Hn1 Hd] & Hp);
    [| |exact Hf| | | |].
  - intros a y Ha Hy. rewrite Ha in Hy. split.
    + rewrite Forall_forall in Hn. by apply Hn.
    + by apply (events_size data).
  - done.
  - right. split; [done|]. split; [|done]. unfold le, current. cbn. by rewrite Hle.
  - done.
  - cbn. lia.
  - exists st0, (S (work st0)), ys, st1. split; [done|]. split; [done|]. rewrite Hp.
    pose proof Hf1 as [_ [Hs _] _ _ _ _ Hr1 (zs & Hz & Ht)].
    assert (stored (au st1) = []) as E by (apply Hd; [done|]; rewrite <-(lines_no_newline _ Hn1); by rewrite Hr1, Hr).
    rewrite Hn1 in Ht. cbn in Ht. rewrite E in Hz. cbn in Hz. rewrite app_nil_r in Hz.
    assert (seen ≡ₚ events_of junk data) as Hseen.
    { rewrite <-Ht, <-Hz. by rewrite done_with_back. }
    apply fmap_Permutation. clear -Hseen. induction Hseen as [|x xs ys _ IH|x y xs|xs ys zs _ IH1 _ IH2]; cbn; try done.
    + case_match; [by constructor|done].
    + repeat case_match; try done. apply perm_swap.
    + by etransitivity.
Qed.

(** Whatever calls build the search expression, with whatever arguments, none
    of them fails an assertion, and the expression is well formed, so that
    evaluating it never aborts; the parser itself is untouched. *)
Theorem rules_well_formed cs st :
  expr_ok st -> exists st', add_rules cs st = Some st' /\ expr_ok st' /\ au st' = au st.
Proof.
  revert st. induction cs as [|c cs IH]; intros st Hst; [by exists st|]. cbn [add_rules].
  destruct (add_rule_ok c st Hst) as (rc & st1 & E & Hst1). rewrite E. cbn [mbind option_bind].
  destruct (IH st1 Hst1) as (st2 & -> & Hst2 & Ha). exists st2. split_and!; try done.
  rewrite Ha. by eapply add_rule_au.
Qed.

End library.

(** ** Samples *)

Definition sample_itp : list string -> Interp :=
  @Interpret.interp_of ExprPrint.sample_env NUL (fun _ => None) (fun _ _ => None).

(** Two records with their own interpretations, and another event. *)
Definition sample_log : chars :=
  to_chars (String.append "type=SYSCALL msg=audit(10.002:8): arch=c000003e auid=5" (String Lol.AUDIT_INTERP_SEPARATOR
    (String.append "AUID=alice" (String LF
  (String.append "type=CWD msg=audit(10.002:8): auid=6 cwd=1" (String Lol.AUDIT_INTERP_SEPARATOR
    (String.append "AUID=bob" (String LF
  (String.append "type=LOGIN msg=audit(10.003:9): pid=7" (String LF EmptyString)))))))))).

Definition start_search (ex : option (@Expr.expr ExprPrint.sample_env * bool)) (w : Z) : option (@state ExprPrint.sample_env) :=
  st ← auparse_init NUL (fun _ => false) (Buffer (Some sample_log));
  a ← st;
  Some (State a ex None w 0 None).

Lemma buffer_search_witness :
  let ex := @Expr.ECmp ExprPrint.sample_env Expr.EO_RAW_EQ false (Expr.Name "cwd") (Expr.VString "1") in
  exists st0 fuel ys st1,
    auparse_init NUL (fun _ => false) (Buffer (Some sample_log)) = Some (Some st0) /\
    @search_all EllistFacts.sample_types EllistFacts.sample_machines AuparseFeed.no_files ExprPrint.sample_env sample_itp
      NUL 0 (fun _ => true) fuel (State st0 (Some (ex, false)) None AUSEARCH_STOP_RECORD 0 None) = Some (ys, 0, st1) /\
    (ident <$> ys) ≡ₚ
    ident <$> List.filter (@matches ExprPrint.sample_env sample_itp 0 ex 0)
      (shown <$> @events_of EllistFacts.sample_types EllistFacts.sample_machines NUL sample_log).
Proof.
  intros ex.
  apply (@buffer_search EllistFacts.sample_types EllistFacts.sample_machines AuparseFeed.no_files ExprPrint.sample_env sample_itp
    NUL 0 (fun _ => true) (fun _ => eq_refl) (fun _ => false) sample_log ex).
  - vm_compute. reflexivity.
  - repeat constructor; vm_compute; by eexists.
  - vm_compute. reflexivity.
  - vm_compute. repeat constructor; by eexists.
  - reflexivity.
Defined.

Lemma rules_well_formed_witness :
  let st := @State ExprPrint.sample_env (start AUSOURCE_FEED [] None (DataBuf.MkDataBuf false false 0 None 0 0 0)) None None 0 0 None in
  exists st', add_rules
      [Item (Some "auid") "=" (Some "5") 0; Expression "a == " 1; Item None "=" None 7; TimestampItem "<" 5 6 7 2]%string st
    = Some st' /\ expr_ok st' /\ au st' = au st.
Proof. intros st. by apply (@rules_well_formed ExprPrint.sample_env). Defined.

(** ** Where the code falls short *)

Section samples.
#[local] Existing Instance EllistFacts.sample_types.
#[local] Existing Instance EllistFacts.sample_machines.
#[local] Existing Instance AuparseFeed.no_files.
#[local] Existing Instance ExprPrint.sample_env.

Definition cwd_expr : Expr.expr := Expr.ECmp Expr.EO_RAW_EQ false (Expr.Name "cwd") (Expr.VString "1").

(** The field of this name from the cursor on, interpreted. *)
Definition interpret_named (nm : string) (st : state) : option (option string) :=
  '(_, st) ← auparse_find_field nm st;
  '(v, _) ← auparse_interpret_field (itp := sample_itp) st;
  Some v.

(** A search that stops at the start of the event leaves the interpretations of
    the record that matched: the first record is shown with them. *)
Theorem search_mixes_interpretations :
  (st ← start_search None 0;
   '(_, st) ← next_event NUL (fun _ => true) st;
   interpret_named "auid" st) = Some (Some "alice"%string) /\
  (st ← start_search (Some (cwd_expr, false)) AUSEARCH_STOP_EVENT;
   '(_, st) ← ausearch_next_event (itp := sample_itp) NUL 0 (fun _ => true) st;
   interpret_named "auid" st) = Some (Some "bob"%string).
Proof. split; vm_compute; reflexivity. Qed.

(** auparse_find_field() adds the interpretations of the next record to those of
    the one it leaves, and the older ones win. *)
Theorem find_mixes_interpretations :
  (st ← start_search None 0;
   '(_, st) ← next_event NUL (fun _ => true) st;
   '(_, st) ← auparse_next_record NUL (fun _ => true) st;
   interpret_named "auid" st) = Some (Some "bob"%string) /\
  (st ← start_search None 0;
   '(_, st) ← next_event NUL (fun _ => true) st;
   '(_, st) ← auparse_find_field "cwd" st;
   '(_, st) ← auparse_first_field st;
   interpret_named "auid" st) = Some (Some "alice"%string).
Proof. split; vm_compute; reflexivity. Qed.

(** The serials of the events a search by time finds. *)
Definition events_at (op : string) : option (list Z) :=
  st ← start_search None 0;
  '(_, st) ← ausearch_add_timestamp_item op 10 2 AUSEARCH_RULE_CLEAR st;
  r ← @search_all EllistFacts.sample_types EllistFacts.sample_machines AuparseFeed.no_files ExprPrint.sample_env
        sample_itp NUL 0 (fun _ => true) 9 st;
  Some (List.map (fun y => serial (e y)) r.1.1).

(** ausearch_add_timestamp_item() compares the serial number with 0 too: no event
    has the time of its first event, and it is later than that time. *)
Theorem time_needs_serial_zero :
  events_at "=" = Some [] /\ events_at "<=" = Some [] /\ events_at ">" = Some [8; 9].
Proof. split_and!; vm_compute; reflexivity. Qed.

End samples.

End AuSearchFacts.
