(* ===== verification/Lookup.v ===== *)
(** * Names and numbers (src/lib/lookup_table.c and the tables of src/lib)

    The tables fieldtab.h, optab.h, actiontab.h, flagtab.h, machinetab.h,
    ftypetab.h and fstypetab.h are lists of rows here.  A program of the build
    (src/lib/gen_tables.c) turns each into a search by name, which is not case
    sensitive, and a search by number, which gives the first row of a number.
    The tables of system calls, errors and message types, and the processors
    that the library is built for, are the class [Tables].  Numbers of
    linux/audit.h, elf.h and sys/stat.h are written out. *)
From S2P Require Import Prelude CString Config Lol Ellist.

Local Open Scope audit_scope.

Module Lookup.

(** ** The constants of the kernel *)

Definition AUDIT_PID : Z := 0.
Definition AUDIT_UID : Z := 1.
Definition AUDIT_EUID : Z := 2.
Definition AUDIT_SUID : Z := 3.
Definition AUDIT_FSUID : Z := 4.
Definition AUDIT_GID : Z := 5.
Definition AUDIT_EGID : Z := 6.
Definition AUDIT_SGID : Z := 7.
Definition AUDIT_FSGID : Z := 8.
Definition AUDIT_LOGINUID : Z := 9.
Definition AUDIT_PERS : Z := 10.
Definition AUDIT_ARCH : Z := 11.
Definition AUDIT_MSGTYPE : Z := 12.
Definition AUDIT_SUBJ_USER : Z := 13.
Definition AUDIT_SUBJ_ROLE : Z := 14.
Definition AUDIT_SUBJ_TYPE : Z := 15.
Definition AUDIT_SUBJ_SEN : Z := 16.
Definition AUDIT_SUBJ_CLR : Z := 17.
Definition AUDIT_PPID : Z := 18.
Definition AUDIT_OBJ_USER : Z := 19.
Definition AUDIT_OBJ_ROLE : Z := 20.
Definition AUDIT_OBJ_TYPE : Z := 21.
Definition AUDIT_OBJ_LEV_LOW : Z := 22.
Definition AUDIT_OBJ_LEV_HIGH : Z := 23.
Definition AUDIT_SESSIONID : Z := 25.
Definition AUDIT_FSTYPE : Z := 26.
Definition AUDIT_DEVMAJOR : Z := 100.
Definition AUDIT_DEVMINOR : Z := 101.
Definition AUDIT_INODE : Z := 102.
Definition AUDIT_EXIT : Z := 103.
Definition AUDIT_SUCCESS : Z := 104.
Definition AUDIT_WATCH : Z := 105.
Definition AUDIT_PERM : Z := 106.
Definition AUDIT_DIR : Z := 107.
Definition AUDIT_FILETYPE : Z := 108.
Definition AUDIT_OBJ_UID : Z := 109.
Definition AUDIT_OBJ_GID : Z := 110.
Definition AUDIT_FIELD_COMPARE : Z := 111.
Definition AUDIT_EXE : Z := 112.
Definition AUDIT_SADDR_FAM : Z := 113.
Definition AUDIT_ARG0 : Z := 200.
Definition AUDIT_ARG1 : Z := 201.
Definition AUDIT_ARG2 : Z := 202.
Definition AUDIT_ARG3 : Z := 203.
Definition AUDIT_FILTERKEY : Z := 210.

Definition AUDIT_BIT_MASK : Z := 0x08000000.
Definition AUDIT_LESS_THAN : Z := 0x10000000.
Definition AUDIT_GREATER_THAN : Z := 0x20000000.
Definition AUDIT_NOT_EQUAL : Z := 0x30000000.
Definition AUDIT_EQUAL : Z := 0x40000000.
Definition AUDIT_BIT_TEST : Z := Z.lor AUDIT_BIT_MASK AUDIT_EQUAL.
Definition AUDIT_LESS_THAN_OR_EQUAL : Z := Z.lor AUDIT_LESS_THAN AUDIT_EQUAL.
Definition AUDIT_GREATER_THAN_OR_EQUAL : Z := Z.lor AUDIT_GREATER_THAN AUDIT_EQUAL.
Definition AUDIT_OPERATORS : Z := Z.lor (Z.lor AUDIT_EQUAL AUDIT_NOT_EQUAL) AUDIT_BIT_MASK.

Definition AUDIT_FILTER_USER : Z := 0.
Definition AUDIT_FILTER_TASK : Z := 1.
Definition AUDIT_FILTER_EXIT : Z := 4.
Definition AUDIT_FILTER_EXCLUDE : Z := 5.
Definition AUDIT_FILTER_FS : Z := 6.
Definition AUDIT_FILTER_MASK : Z := 7.
Definition AUDIT_FILTER_PREPEND : Z := 16.
Definition AUDIT_FILTER_UNSET : Z := 128.

Definition AUDIT_NEVER : Z := 0.
Definition AUDIT_POSSIBLE : Z := 1.
Definition AUDIT_ALWAYS : Z := 2.

Definition MACH_X86 : Z := 0.
Definition MACH_86_64 : Z := 1.
Definition MACH_PPC64 : Z := 3.
Definition MACH_PPC : Z := 4.
Definition MACH_S390X : Z := 5.
Definition MACH_S390 : Z := 6.
Definition MACH_ARM : Z := 8.
Definition MACH_AARCH64 : Z := 9.
Definition MACH_PPC64LE : Z := 10.

Definition AUDIT_ARCH_64BIT : Z := 0x80000000.
Definition AUDIT_ARCH_I386 : Z := 0x40000003.
Definition AUDIT_ARCH_X86_64 : Z := 0xC000003E.
Definition AUDIT_ARCH_PPC64 : Z := 0x80000015.
Definition AUDIT_ARCH_PPC64LE : Z := 0xC0000015.
Definition AUDIT_ARCH_PPC : Z := 0x14.
Definition AUDIT_ARCH_S390X : Z := 0x80000016.
Definition AUDIT_ARCH_S390 : Z := 0x16.
Definition AUDIT_ARCH_ARM : Z := 0x40000028.
Definition AUDIT_ARCH_AARCH64 : Z := 0xC00000B7.

(** ** Tables and their generated searches *)

Abbreviation table := (list (Z * string)).

Definition lower (s : string) : string :=
  String.string_of_list_ascii (List.map Config.tolower (String.list_ascii_of_string s)).

Definition toupper (c : ascii) : ascii :=
  if between 97 122 c then ascii_of_nat (nat_of_ascii c - 32) else c.
Definition upper (s : string) : string :=
  String.string_of_list_ascii (List.map toupper (String.list_ascii_of_string s)).

(** Options --lowercase and --uppercase: the name is converted first. *)
Definition s2i (conv : string -> string) (tab : table) (s : string) : option Z :=
  fst <$> List.find (fun row => str_eq (conv s) row.2) tab.

Definition i2s (tab : table) (v : Z) : option string :=
  snd <$> List.find (fun row => v =? row.1) tab.

Definition fieldtab : table := [
  (AUDIT_PID, "pid"); (AUDIT_UID, "uid"); (AUDIT_EUID, "euid"); (AUDIT_SUID, "suid");
  (AUDIT_FSUID, "fsuid"); (AUDIT_GID, "gid"); (AUDIT_EGID, "egid"); (AUDIT_SGID, "sgid");
  (AUDIT_FSGID, "fsgid"); (AUDIT_LOGINUID, "auid"); (AUDIT_LOGINUID, "loginuid");
  (AUDIT_PERS, "pers"); (AUDIT_ARCH, "arch"); (AUDIT_MSGTYPE, "msgtype");
  (AUDIT_SUBJ_USER, "subj_user"); (AUDIT_SUBJ_ROLE, "subj_role"); (AUDIT_SUBJ_TYPE, "subj_type");
  (AUDIT_SUBJ_SEN, "subj_sen"); (AUDIT_SUBJ_CLR, "subj_clr"); (AUDIT_PPID, "ppid");
  (AUDIT_OBJ_USER, "obj_user"); (AUDIT_OBJ_ROLE, "obj_role"); (AUDIT_OBJ_TYPE, "obj_type");
  (AUDIT_OBJ_LEV_LOW, "obj_lev_low"); (AUDIT_OBJ_LEV_HIGH, "obj_lev_high");
  (AUDIT_SESSIONID, "sessionid"); (AUDIT_DEVMAJOR, "devmajor"); (AUDIT_DEVMINOR, "devminor");
  (AUDIT_INODE, "inode"); (AUDIT_EXIT, "exit"); (AUDIT_SUCCESS, "success"); (AUDIT_WATCH, "path");
  (AUDIT_PERM, "perm"); (AUDIT_DIR, "dir"); (AUDIT_FILETYPE, "filetype"); (AUDIT_FSTYPE, "fstype");
  (AUDIT_OBJ_UID, "obj_uid"); (AUDIT_OBJ_GID, "obj_gid"); (AUDIT_FIELD_COMPARE, "field_compare");
  (AUDIT_ARG0, "a0"); (AUDIT_ARG1, "a1"); (AUDIT_ARG2, "a2"); (AUDIT_ARG3, "a3");
  (AUDIT_FILTERKEY, "key"); (AUDIT_EXE, "exe"); (AUDIT_SADDR_FAM, "saddr_fam")]%string.

Definition optab : table := [
  (AUDIT_EQUAL, "="); (AUDIT_NOT_EQUAL, "!="); (AUDIT_GREATER_THAN, ">");
  (AUDIT_GREATER_THAN_OR_EQUAL, ">="); (AUDIT_LESS_THAN, "<"); (AUDIT_LESS_THAN_OR_EQUAL, "<=");
  (AUDIT_BIT_MASK, "&"); (AUDIT_BIT_TEST, "&=")]%string.

Definition actiontab : table :=
  [(AUDIT_NEVER, "never"); (AUDIT_POSSIBLE, "possible"); (AUDIT_ALWAYS, "always")]%string.

Definition flagtab : table := [
  (AUDIT_FILTER_TASK, "task"); (AUDIT_FILTER_EXIT, "exit"); (AUDIT_FILTER_USER, "user");
  (AUDIT_FILTER_EXCLUDE, "exclude"); (AUDIT_FILTER_FS, "filesystem")]%string.

Definition ftypetab : table := [
  (49152, "socket"); (40960, "link"); (32768, "file"); (24576, "block"); (16384, "dir");
  (8192, "character"); (4096, "fifo")]%string.

Definition fstypetab : table := [(0x74726163, "tracefs"); (0x64626720, "debugfs")]%string.

(** The large tables, and the processors of the configuration. *)
Class Tables := {
  i386_syscalltab : table;
  x86_64_syscalltab : table;
  ppc_syscalltab : table;
  s390x_syscalltab : table;
  s390_syscalltab : table;
  arm_syscalltab : table;
  aarch64_syscalltab : table;
  errtab : table;
  msg_typetab : table;
  with_arm : bool;
  with_aarch64 : bool;
}.

Section lookups.
Context `{Tables}.

#[global] Instance msg_types : Lol.MsgTypes := s2i upper msg_typetab.

Definition machinetab : table :=
  ([(MACH_X86, "i386"); (MACH_X86, "i486"); (MACH_X86, "i586"); (MACH_X86, "i686");
    (MACH_86_64, "x86_64"); (MACH_PPC64, "ppc64"); (MACH_PPC64LE, "ppc64le"); (MACH_PPC, "ppc");
    (MACH_S390X, "s390x"); (MACH_S390, "s390")]%string ++
   (if with_arm then [(MACH_ARM, "armeb"); (MACH_ARM, "arm"); (MACH_ARM, "armv5tejl");
      (MACH_ARM, "armv5tel"); (MACH_ARM, "armv6l"); (MACH_ARM, "armv7l")]%string else []) ++
   (if with_aarch64 then [(MACH_AARCH64, "aarch64"%string)] else [])).

Definition elftab : list (Z * Z) :=
  [(MACH_X86, AUDIT_ARCH_I386); (MACH_86_64, AUDIT_ARCH_X86_64); (MACH_PPC64, AUDIT_ARCH_PPC64);
   (MACH_PPC64LE, AUDIT_ARCH_PPC64LE); (MACH_PPC, AUDIT_ARCH_PPC); (MACH_S390X, AUDIT_ARCH_S390X);
   (MACH_S390, AUDIT_ARCH_S390)] ++
  (if with_arm then [(MACH_ARM, AUDIT_ARCH_ARM)] else []) ++
  (if with_aarch64 then [(MACH_AARCH64, AUDIT_ARCH_AARCH64)] else []).

Definition audit_name_to_field (field : string) : Z := default (-1) (s2i lower fieldtab field).
Definition audit_field_to_name (field : Z) : option string := i2s fieldtab field.

(** The table that the switch over the machine chooses. *)
Definition syscall_table (machine : Z) : option table :=
  if machine =? MACH_X86 then Some i386_syscalltab
  else if machine =? MACH_86_64 then Some x86_64_syscalltab
  else if (machine =? MACH_PPC64) || (machine =? MACH_PPC64LE) || (machine =? MACH_PPC) then Some ppc_syscalltab
  else if machine =? MACH_S390X then Some s390x_syscalltab
  else if machine =? MACH_S390 then Some s390_syscalltab
  else if with_arm && (machine =? MACH_ARM) then Some arm_syscalltab
  else if with_aarch64 && (machine =? MACH_AARCH64) then Some aarch64_syscalltab
  else None.

Definition audit_name_to_syscall (sc : string) (machine : Z) : Z :=
  default (-1) (tab ← syscall_table machine; s2i lower tab sc).
Definition audit_syscall_to_name (sc machine : Z) : option string :=
  tab ← syscall_table machine; i2s tab sc.

Definition audit_name_to_flag (flag : string) : Z := default (-1) (s2i lower flagtab flag).
Definition audit_flag_to_name (flag : Z) : option string := i2s flagtab flag.
Definition audit_name_to_action (action : string) : Z := default (-1) (s2i lower actiontab action).
Definition audit_action_to_name (action : Z) : option string := i2s actiontab action.
Definition audit_msg_type_to_name (msg_type : Z) : option string := i2s msg_typetab msg_type.
Definition audit_name_to_machine (machine : string) : Z := default (-1) (s2i lower machinetab machine).
Definition audit_machine_to_name (machine : Z) : option string := i2s machinetab machine.

Definition audit_machine_to_elf (machine : Z) : Z :=
  default 0 (snd <$> List.find (fun row => row.1 =? machine) elftab).
Definition audit_elf_to_machine (elf : Z) : Z :=
  default (-1) (fst <$> List.find (fun row => row.2 =? elf) elftab).

(** The table the parsing library uses for the arch field of a record. *)
#[global] Instance elf_machines : Ellist.ElfMachines := audit_elf_to_machine.

Definition audit_operator_to_symbol (op : Z) : option string := i2s optab op.

Definition audit_name_to_errno (error : string) : Z :=
  let (minus, error) := if char_at error =c "-"%char then (-1, skip 1 error) else (1, error) in
  default 0 (s2i upper errtab error) * minus.
Definition audit_errno_to_name (error : Z) : option string :=
  if error <? 0 then None else i2s errtab error.

Definition audit_name_to_ftype (name : string) : Z := default (-1) (s2i lower ftypetab name).
Definition audit_ftype_to_name (ftype : Z) : option string := i2s ftypetab ftype.
Definition audit_name_to_fstype (name : string) : Z := default (-1) (s2i lower fstypetab name).
Definition audit_fstype_to_name (fstype : Z) : option string := i2s fstypetab fstype.

End lookups.

(** ** Facts *)

(** The names of a table are in the case that the search converts to, and none is
    there twice, which the generator asserts. *)
Definition table_ok (conv : string -> string) (tab : table) : Prop :=
  Forall (fun row => conv row.2 = row.2) tab /\ NoDup tab.*2.

(** The name that a number is shown by is read as that number. *)
Lemma i2s_s2i conv tab v s : table_ok conv tab -> i2s tab v = Some s -> s2i conv tab s = Some v.
Proof.
  unfold i2s, s2i, str_eq. intros [Hc Hn].
  induction tab as [|[w t] tab IH]; cbn; [done|].
  apply Forall_cons in Hc as [Ht Hc]. apply NoDup_cons in Hn as [Hnin Hn]. cbn in *.
  destruct (Z.eqb_spec v w) as [->|Hne]; cbn.
  - intros [= <-]. rewrite Ht, String.eqb_refl. done.
  - intros Hs. specialize (IH Hc Hn Hs). pose proof Hs as Hs'.
    apply fmap_Some in Hs' as ([w' t'] & Hf & ->). apply find_some in Hf as [Hin _]. cbn in *.
    assert (conv t' = t') as Ht'.
    { rewrite Forall_forall in Hc. apply (Hc (w', t')), list_elem_of_In, Hin. }
    destruct (String.eqb_spec (conv t') t) as [<-|]; [|done].
    destruct Hnin. rewrite Ht'. apply list_elem_of_fmap. exists (w', t').
    split; [done|]. by apply list_elem_of_In.
Qed.

End Lookup.
