(* ===== verification/Rule.v ===== *)
(** * Building rules (src/lib/libaudit.c)

    [struct audit_rule_data] is the rule that is sent to the kernel: a mask of
    system calls, up to 64 fields with an operator and a value, and one buffer
    with the strings of all fields that have one.  The library builds it from
    texts such as "auid>=1000".  The static variables that tell what was given
    so far are [globals].

    The kernel's features, the user and group database, uname() and realloc()
    are parameters.  [None] is an access outside of an array or a shift that C
    does not define; negative results are the error numbers of errormsg.h.
    Messages are not modelled. *)
From S2P Require Import Prelude CString Config Lol Ellist Lookup.

Local Open Scope audit_scope.

Module Rule.
Export Lookup.

(** ** Data *)

Definition AUDIT_MAX_FIELDS : Z := 64.
Definition AUDIT_BITMASK_SIZE : Z := 64.
Definition AUDIT_MAX_KEY_LEN : Z := 256.
Definition PATH_MAX : Z := 4096.

Record audit_rule_data := Rule {
  flags : Z;
  action : Z;
  field_count : Z;
  mask : list Z;
  fields : list Z;
  values : list Z;
  fieldflags : list Z;
  buflen : Z;
  buf : list ascii;
}.

(** [_audit_permadded], [_audit_archadded], ..., [_audit_elf]. *)
Record globals := Globals {
  permadded : bool;
  archadded : bool;
  syscalladded : bool;
  exeadded : bool;
  filterfsadded : bool;
  elf : Z;
}.

Definition set_permadded (g : globals) : globals :=
  Globals true (archadded g) (syscalladded g) (exeadded g) (filterfsadded g) (elf g).
Definition set_archadded (g : globals) : globals :=
  Globals (permadded g) true (syscalladded g) (exeadded g) (filterfsadded g) (elf g).
Definition set_syscalladded (g : globals) : globals :=
  Globals (permadded g) (archadded g) true (exeadded g) (filterfsadded g) (elf g).
Definition set_exeadded (g : globals) : globals :=
  Globals (permadded g) (archadded g) (syscalladded g) true (filterfsadded g) (elf g).
Definition set_filterfsadded (g : globals) : globals :=
  Globals (permadded g) (archadded g) (syscalladded g) (exeadded g) true (elf g).
Definition set_elf (e : Z) (g : globals) : globals :=
  Globals (permadded g) (archadded g) (syscalladded g) (exeadded g) (filterfsadded g) e.

Definition set_mask (m : list Z) (r : audit_rule_data) : audit_rule_data :=
  Rule (flags r) (action r) (field_count r) m (fields r) (values r) (fieldflags r) (buflen r) (buf r).
Definition set_fields (fs : list Z) (r : audit_rule_data) : audit_rule_data :=
  Rule (flags r) (action r) (field_count r) (mask r) fs (values r) (fieldflags r) (buflen r) (buf r).
Definition set_values (vs : list Z) (r : audit_rule_data) : audit_rule_data :=
  Rule (flags r) (action r) (field_count r) (mask r) (fields r) vs (fieldflags r) (buflen r) (buf r).
Definition set_fieldflags (fs : list Z) (r : audit_rule_data) : audit_rule_data :=
  Rule (flags r) (action r) (field_count r) (mask r) (fields r) (values r) fs (buflen r) (buf r).
Definition set_field_count (n : Z) (r : audit_rule_data) : audit_rule_data :=
  Rule (flags r) (action r) n (mask r) (fields r) (values r) (fieldflags r) (buflen r) (buf r).
Definition set_buf (n : Z) (b : list ascii) (r : audit_rule_data) : audit_rule_data :=
  Rule (flags r) (action r) (field_count r) (mask r) (fields r) (values r) (fieldflags r) n b.
Definition set_target (fl act : Z) (r : audit_rule_data) : audit_rule_data :=
  Rule fl act (field_count r) (mask r) (fields r) (values r) (fieldflags r) (buflen r) (buf r).

(** [a[i] = v]. *)
Definition put (i v : Z) (a : list Z) : option (list Z) :=
  if (0 <=? i) && (i <? Z.of_nat (length a)) then Some (<[Z.to_nat i := v]> a) else None.
Definition get (i : Z) (a : list Z) : option Z := if 0 <=? i then a !! Z.to_nat i else None.

(** The errors of errormsg.h. *)
Definition EAU_OPMISSING : Z := 1.
Definition EAU_FIELDUNKNOWN : Z := 2.
Definition EAU_ARCHMISPLACED : Z := 3.
Definition EAU_ARCHUNKNOWN : Z := 4.
Definition EAU_ELFUNKNOWN : Z := 5.
Definition EAU_ARCHNOBIT : Z := 6.
Definition EAU_EXITONLY : Z := 7.
Definition EAU_MSGTYPEUNKNOWN : Z := 8.
Definition EAU_MSGTYPEEXCLUDEUSER : Z := 9.
Definition EAU_UPGRADEFAIL : Z := 10.
Definition EAU_STRTOOLONG : Z := 11.
Definition EAU_MSGTYPECREDEXCLUDE : Z := 12.
Definition EAU_OPEQNOTEQ : Z := 13.
Definition EAU_PERMRWXA : Z := 14.
Definition EAU_ERRUNKNOWN : Z := 15.
Definition EAU_FILETYPEUNKNOWN : Z := 16.
Definition EAU_EXITENTRYONLY : Z := 17.
Definition EAU_KEYDEP : Z := 19.
Definition EAU_FIELDVALMISSING : Z := 20.
Definition EAU_FIELDVALNUM : Z := 21.
Definition EAU_FIELDNAME : Z := 22.
Definition EAU_COMPFIELDNAME : Z := 24.
Definition EAU_COMPVAL : Z := 25.
Definition EAU_COMPFIELDUNKNOWN : Z := 26.
Definition EAU_COMPVALUNKNOWN : Z := 27.
Definition EAU_FIELDTOOMANY : Z := 28.
Definition EAU_OPEQ : Z := 29.
Definition EAU_FIELDNOSUPPORT : Z := 30.
Definition EAU_FIELDNOFILTER : Z := 31.
Definition EAU_FILTERMISSING : Z := 32.
Definition EAU_COMPINCOMPAT : Z := 33.
Definition EAU_FIELDUNAVAIL : Z := 34.
Definition EAU_FILTERNOSUPPORT : Z := 35.
Definition EAU_FSTYPEUNKNOWN : Z := 36.
Definition EAU_FIELDVALTOOBIG : Z := 37.
Definition EAU_PRINT_NOTHING : Z := 38.

Definition AUDIT_PERM_EXEC : Z := 1.
Definition AUDIT_PERM_WRITE : Z := 2.
Definition AUDIT_PERM_READ : Z := 4.
Definition AUDIT_PERM_ATTR : Z := 8.

Definition AUDIT_FEATURE_BITMAP_EXECUTABLE_PATH : Z := 4.
Definition AUDIT_FEATURE_BITMAP_EXCLUDE_EXTEND : Z := 8.
Definition AUDIT_FEATURE_BITMAP_SESSIONID_FILTER : Z := 16.
Definition AUDIT_FEATURE_BITMAP_FILTER_FS : Z := 64.

(** AUDIT_COMPARE_UID_TO_OBJ_UID and so on. *)
Definition AUDIT_COMPARE_UID_TO_OBJ_UID : Z := 1.
Definition AUDIT_COMPARE_GID_TO_OBJ_GID : Z := 2.
Definition AUDIT_COMPARE_EUID_TO_OBJ_UID : Z := 3.
Definition AUDIT_COMPARE_EGID_TO_OBJ_GID : Z := 4.
Definition AUDIT_COMPARE_AUID_TO_OBJ_UID : Z := 5.
Definition AUDIT_COMPARE_SUID_TO_OBJ_UID : Z := 6.
Definition AUDIT_COMPARE_SGID_TO_OBJ_GID : Z := 7.
Definition AUDIT_COMPARE_FSUID_TO_OBJ_UID : Z := 8.
Definition AUDIT_COMPARE_FSGID_TO_OBJ_GID : Z := 9.
Definition AUDIT_COMPARE_UID_TO_AUID : Z := 10.
Definition AUDIT_COMPARE_UID_TO_EUID : Z := 11.
Definition AUDIT_COMPARE_UID_TO_FSUID : Z := 12.
Definition AUDIT_COMPARE_UID_TO_SUID : Z := 13.
Definition AUDIT_COMPARE_AUID_TO_FSUID : Z := 14.
Definition AUDIT_COMPARE_AUID_TO_SUID : Z := 15.
Definition AUDIT_COMPARE_AUID_TO_EUID : Z := 16.
Definition AUDIT_COMPARE_EUID_TO_SUID : Z := 17.
Definition AUDIT_COMPARE_EUID_TO_FSUID : Z := 18.
Definition AUDIT_COMPARE_SUID_TO_FSUID : Z := 19.
Definition AUDIT_COMPARE_GID_TO_EGID : Z := 20.
Definition AUDIT_COMPARE_GID_TO_FSGID : Z := 21.
Definition AUDIT_COMPARE_GID_TO_SGID : Z := 22.
Definition AUDIT_COMPARE_EGID_TO_FSGID : Z := 23.
Definition AUDIT_COMPARE_EGID_TO_SGID : Z := 24.
Definition AUDIT_COMPARE_SGID_TO_FSGID : Z := 25.

(** The machine that the rules are for. *)
Class Machine := {
  (** [uname()], [None] when it fails. *)
  uts_machine : option string;
  (** getpwnam() and getgrnam(). *)
  getpwnam : string -> option Z;
  getgrnam : string -> option Z;
  (** The features of the kernel, 0 when they cannot be read. *)
  audit_get_features : Z;
  (** AF_MAX of sys/socket.h. *)
  AF_MAX : Z;
  (** Whether realloc() can give so many bytes. *)
  realloc_ok : Z -> bool;
}.

(** ** Numbers *)

(** The base that a text with base 0 is in, and the digits. *)
Definition scan_base (s : string) : Z * string :=
  if starts_with "0x" s || starts_with "0X" s then (16, skip 2 s)
  else if char_at s =c "0"%char then (8, s)
  else (10, s).

(** [strtoul(s, NULL, 0)] with whether errno is set, and [strtol(s, NULL, 0)]. *)
Definition strtoul0 (s : string) : Z * bool :=
  let (neg, s) := scan_sign s in
  let (base, s) := scan_base s in
  let (v, _) := digits base 0 s in
  if SIZE_MAX <? v then (SIZE_MAX, true) else (if neg then u64 (- v) else v, false).
Definition strtol0 (s : string) : Z :=
  let (neg, s) := scan_sign s in
  let (base, s) := scan_base s in
  let (v, _) := digits base 0 s in
  if neg then Z.max (- 2 ^ 63) (- v) else Z.min (2 ^ 63 - 1) v.

(** The conversion to [int]. *)
Abbreviation to_int := Lol.int_of.

Section library.
Context {tabs : Tables} {mach : Machine}.

Definition audit_detect_machine : Z :=
  match uts_machine with Some m => audit_name_to_machine m | None => -1 end.

Definition audit_name_to_uid (name : string) : option Z := u32 <$> getpwnam name.
Definition audit_name_to_gid (name : string) : option Z := u32 <$> getgrnam name.

(** ** The mask of system calls *)

Definition audit_rule_init_data : audit_rule_data :=
  Rule 0 0 0 (replicate 64 0) (replicate 64 0) (replicate 64 0) (replicate 64 0) 0 [].

(** A negative number gives a negative index or shift. *)
Definition audit_rule_syscall_data (scall : Z) (r : audit_rule_data) : option (Z * audit_rule_data) :=
  if scall <? 0 then None
  else
    let word := scall / 32 in
    let bit := Z.shiftl 1 (scall - word * 32) in
    if AUDIT_BITMASK_SIZE - 1 <? word then Some (-1, r)
    else
      w ← get word (mask r);
      m ← put word (Z.lor w bit) (mask r);
      Some (0, set_mask m r).

Definition audit_rule_syscallbyname_data (scall : string) (g : globals) (r : audit_rule_data)
    : option (Z * audit_rule_data) :=
  if str_eq scall "all" then Some (0, set_mask (replicate 64 UINT32_MAX) r)
  else
    let machine := if elf g =? 0 then audit_detect_machine else audit_elf_to_machine (elf g) in
    if machine <? 0 then Some (-2, r)
    else
      let nr := audit_name_to_syscall scall machine in
      let nr := if (nr <? 0) && isdigit (char_at scall) then to_int (strtol0 scall) else nr in
      if 0 <=? nr then audit_rule_syscall_data nr r else Some (-1, r).

(** ** Watches *)

(** The loop over the fields; [done] is the flag. *)
Fixpoint update_perms (n : nat) (perms : Z) (fs vs : list Z) : option (bool * list Z) :=
  match n with
  | O => Some (false, vs)
  | S n' =>
      '(done, vs) ← update_perms n' perms fs vs;
      f ← fs !! n';
      if f =? AUDIT_PERM then vs ← put (Z.of_nat n') (u32 perms) vs; Some (true, vs)
      else Some (done, vs)
  end.

(** Store field [f] with operator [op] behind the last one. *)
Definition store_field (f op : Z) (r : audit_rule_data) : option audit_rule_data :=
  fs ← put (field_count r) f (fields r);
  ops ← put (field_count r) op (fieldflags r);
  Some (set_fieldflags ops (set_fields fs r)).

Definition store_value (v : Z) (r : audit_rule_data) : option audit_rule_data :=
  vs ← put (field_count r) (u32 v) (values r); Some (set_values vs r).

Definition audit_update_watch_perms (perms : Z) (r : audit_rule_data) : option (Z * audit_rule_data) :=
  if field_count r <? 1 then Some (-1, r)
  else
    '(done, vs) ← update_perms (Z.to_nat (field_count r)) perms (fields r) (values r);
    let r := set_values vs r in
    if done : bool then Some (0, r)
    else if AUDIT_MAX_FIELDS - 1 <=? field_count r then Some (-2, r)
    else
      r ← store_field AUDIT_PERM AUDIT_EQUAL r;
      r ← store_value perms r;
      Some (0, set_field_count (field_count r +u 1) r).

Definition sizeof_rule : Z := 1040.

(** [*rulep] and what it becomes, null without memory. *)
Definition audit_add_watch_dir (type : Z) (path : string) (g : globals) (rule : option audit_rule_data)
    : option (Z * globals * option audit_rule_data) :=
  let len := Z.of_nat (String.length path) in
  if (match rule with Some r => negb (field_count r =? 0) | None => false end) then Some (-1, g, rule)
  else if negb (type =? AUDIT_WATCH) && negb (type =? AUDIT_DIR) then Some (-1, g, rule)
  else if negb (realloc_ok (len + sizeof_rule)) then Some (-1, g, None)
  else
    let r := set_target AUDIT_FILTER_EXIT AUDIT_ALWAYS audit_rule_init_data in
    '(_, r) ← audit_rule_syscallbyname_data "all" g r;
    r ← store_field type AUDIT_EQUAL r;
    r ← store_value len r;
    let r := set_field_count 1 (set_buf (u32 len) (String.list_ascii_of_string path) r) in
    r ← store_field AUDIT_PERM AUDIT_EQUAL r;
    r ← store_value (Z.lor (Z.lor (Z.lor AUDIT_PERM_READ AUDIT_PERM_WRITE) AUDIT_PERM_EXEC) AUDIT_PERM_ATTR) r;
    Some (0, set_permadded g, Some (set_field_count 2 r)).

Definition audit_add_watch := audit_add_watch_dir AUDIT_WATCH.
Definition audit_add_dir := audit_add_watch_dir AUDIT_DIR.

(** ** Comparing two fields *)

(** The texts before and behind the first [needle]. *)
Fixpoint split_at (needle s : string) : option (string * string) :=
  if starts_with needle s then Some (EmptyString, skip (String.length needle) s)
  else match s with
       | EmptyString => None
       | String c s => '(a, b) ← split_at needle s; Some (String c a, b)
       end.

(** The first operator of the list that is in the text. *)
Fixpoint find_op (ops : list (string * Z)) (text : string) : option (string * Z * string) :=
  match ops with
  | [] => None
  | (sym, op) :: ops =>
      match split_at sym text with
      | Some (f, v) => Some (f, op, v)
      | None => find_op ops text
      end
  end.

Definition comp_ops : list (string * Z) := [("!="%string, AUDIT_NOT_EQUAL); ("="%string, AUDIT_EQUAL)].

(** The nested switch over the two fields. *)
Definition comparisons : list (Z * list (Z * Z)) := [
  (AUDIT_EUID, [(AUDIT_LOGINUID, AUDIT_COMPARE_AUID_TO_EUID); (AUDIT_FSUID, AUDIT_COMPARE_EUID_TO_FSUID);
    (AUDIT_OBJ_UID, AUDIT_COMPARE_EUID_TO_OBJ_UID); (AUDIT_SUID, AUDIT_COMPARE_EUID_TO_SUID);
    (AUDIT_UID, AUDIT_COMPARE_UID_TO_EUID)]);
  (AUDIT_FSUID, [(AUDIT_LOGINUID, AUDIT_COMPARE_AUID_TO_FSUID); (AUDIT_EUID, AUDIT_COMPARE_EUID_TO_FSUID);
    (AUDIT_OBJ_UID, AUDIT_COMPARE_FSUID_TO_OBJ_UID); (AUDIT_SUID, AUDIT_COMPARE_SUID_TO_FSUID);
    (AUDIT_UID, AUDIT_COMPARE_UID_TO_FSUID)]);
  (AUDIT_LOGINUID, [(AUDIT_EUID, AUDIT_COMPARE_AUID_TO_EUID); (AUDIT_FSUID, AUDIT_COMPARE_AUID_TO_FSUID);
    (AUDIT_OBJ_UID, AUDIT_COMPARE_AUID_TO_OBJ_UID); (AUDIT_SUID, AUDIT_COMPARE_AUID_TO_SUID);
    (AUDIT_UID, AUDIT_COMPARE_UID_TO_AUID)]);
  (AUDIT_SUID, [(AUDIT_LOGINUID, AUDIT_COMPARE_AUID_TO_SUID); (AUDIT_EUID, AUDIT_COMPARE_EUID_TO_SUID);
    (AUDIT_FSUID, AUDIT_COMPARE_SUID_TO_FSUID); (AUDIT_OBJ_UID, AUDIT_COMPARE_SUID_TO_OBJ_UID);
    (AUDIT_UID, AUDIT_COMPARE_UID_TO_SUID)]);
  (AUDIT_OBJ_UID, [(AUDIT_LOGINUID, AUDIT_COMPARE_AUID_TO_OBJ_UID); (AUDIT_EUID, AUDIT_COMPARE_EUID_TO_OBJ_UID);
    (AUDIT_FSUID, AUDIT_COMPARE_FSUID_TO_OBJ_UID); (AUDIT_UID, AUDIT_COMPARE_UID_TO_OBJ_UID);
    (AUDIT_SUID, AUDIT_COMPARE_SUID_TO_OBJ_UID)]);
  (AUDIT_UID, [(AUDIT_LOGINUID, AUDIT_COMPARE_UID_TO_AUID); (AUDIT_EUID, AUDIT_COMPARE_UID_TO_EUID);
    (AUDIT_FSUID, AUDIT_COMPARE_UID_TO_FSUID); (AUDIT_OBJ_UID, AUDIT_COMPARE_UID_TO_OBJ_UID);
    (AUDIT_SUID, AUDIT_COMPARE_UID_TO_SUID)]);
  (AUDIT_EGID, [(AUDIT_FSGID, AUDIT_COMPARE_EGID_TO_FSGID); (AUDIT_GID, AUDIT_COMPARE_GID_TO_EGID);
    (AUDIT_OBJ_GID, AUDIT_COMPARE_EGID_TO_OBJ_GID); (AUDIT_SGID, AUDIT_COMPARE_EGID_TO_SGID)]);
  (AUDIT_FSGID, [(AUDIT_SGID, AUDIT_COMPARE_SGID_TO_FSGID); (AUDIT_GID, AUDIT_COMPARE_GID_TO_FSGID);
    (AUDIT_OBJ_GID, AUDIT_COMPARE_FSGID_TO_OBJ_GID); (AUDIT_EGID, AUDIT_COMPARE_EGID_TO_FSGID)]);
  (AUDIT_GID, [(AUDIT_EGID, AUDIT_COMPARE_GID_TO_EGID); (AUDIT_FSGID, AUDIT_COMPARE_GID_TO_FSGID);
    (AUDIT_OBJ_GID, AUDIT_COMPARE_GID_TO_OBJ_GID); (AUDIT_SGID, AUDIT_COMPARE_GID_TO_SGID)]);
  (AUDIT_OBJ_GID, [(AUDIT_EGID, AUDIT_COMPARE_EGID_TO_OBJ_GID); (AUDIT_FSGID, AUDIT_COMPARE_FSGID_TO_OBJ_GID);
    (AUDIT_GID, AUDIT_COMPARE_GID_TO_OBJ_GID); (AUDIT_SGID, AUDIT_COMPARE_SGID_TO_OBJ_GID)]);
  (AUDIT_SGID, [(AUDIT_FSGID, AUDIT_COMPARE_SGID_TO_FSGID); (AUDIT_GID, AUDIT_COMPARE_GID_TO_SGID);
    (AUDIT_OBJ_GID, AUDIT_COMPARE_SGID_TO_OBJ_GID); (AUDIT_EGID, AUDIT_COMPARE_EGID_TO_SGID)])].

Definition case {A} (k : Z) (rows : list (Z * A)) : option A := snd <$> List.find (fun row => k =? row.1) rows.

Definition compare_fields (field1 field2 : Z) : option Z := rows ← case field1 comparisons; case field2 rows.

Definition audit_rule_interfield_comp_data (pair_ : option string) (flags : Z) (r : audit_rule_data)
    : option (Z * audit_rule_data) :=
  match pair_ with
  | None => Some (- EAU_FILTERMISSING, r)
  | Some text =>
      if AUDIT_MAX_FIELDS - 1 <=? field_count r then Some (- EAU_FIELDTOOMANY, r)
      else match find_op comp_ops text with
      | None => Some (- EAU_OPEQNOTEQ, r)
      | Some (f, op, v) =>
          if str_eq f "" then Some (- EAU_COMPFIELDNAME, r)
          else if str_eq v "" then Some (- EAU_COMPVAL, r)
          else
            let field1 := audit_name_to_field f in
            let field2 := audit_name_to_field v in
            if field1 <? 0 then Some (- EAU_COMPFIELDUNKNOWN, r)
            else if field2 <? 0 then Some (- EAU_COMPVALUNKNOWN, r)
            else if negb (flags =? AUDIT_FILTER_EXIT) then Some (- EAU_EXITONLY, r)
            else
              r ← store_field AUDIT_FIELD_COMPARE op r;
              match compare_fields field1 field2 with
              | None => Some (- EAU_COMPINCOMPAT, r)
              | Some v =>
                  r ← store_value v r;
                  Some (0, set_field_count (field_count r +u 1) r)
              end
      end
  end.

(** ** Field and value *)

Definition audit_determine_machine (arch : string) : Z :=
  let b64 := AUDIT_ARCH_64BIT in
  let b32 := UINT32_MAX - AUDIT_ARCH_64BIT in
  let '(bits, machine) :=
    if Config.strcaseeq "b64" arch then (b64, audit_detect_machine)
    else if Config.strcaseeq "b32" arch then (b32, audit_detect_machine)
    else
      let machine := audit_name_to_machine arch in
      (0, if machine <? 0 then
            let (ival, erange) := Ellist.strtoul_hex arch in
            if erange then -1 else audit_elf_to_machine (u32 ival)
          else machine) in
  if machine <? 0 then -4
  else
    let machine :=
      if (bits =? b32) && (machine =? MACH_86_64) then MACH_X86
      else if (bits =? b32) && (machine =? MACH_PPC64) then MACH_PPC
      else if (bits =? b32) && (machine =? MACH_S390X) then MACH_S390
      else if (bits =? b32) && (machine =? MACH_AARCH64) then MACH_ARM
      else machine in
    if (machine =? MACH_X86) || (machine =? MACH_PPC) || (machine =? MACH_S390) ||
       (with_arm && (machine =? MACH_ARM)) then
      if bits =? b64 then -6 else machine
    else if with_aarch64 && (machine =? MACH_AARCH64) then
      if negb (bits =? 0) && negb (bits =? b64) then -6 else machine
    else if (machine =? MACH_86_64) || (machine =? MACH_PPC64) || (machine =? MACH_S390X) then machine
    else if machine =? MACH_PPC64LE then
      if negb (bits =? 0) && negb (bits =? b64) then -6 else machine
    else -6.

Definition field_ops : list (string * Z) := [
  ("!="%string, AUDIT_NOT_EQUAL); (">="%string, AUDIT_GREATER_THAN_OR_EQUAL);
  ("<="%string, AUDIT_LESS_THAN_OR_EQUAL); ("&="%string, AUDIT_BIT_TEST); ("="%string, AUDIT_EQUAL);
  (">"%string, AUDIT_GREATER_THAN); ("<"%string, AUDIT_LESS_THAN); ("&"%string, AUDIT_BIT_MASK)].

(** The checks of the exclude and file system lists: the error, 0 for none. *)
Definition check_filter (flags field : Z) : Z :=
  if (flags =? AUDIT_FILTER_EXCLUDE) &&
     (if Z.land audit_get_features AUDIT_FEATURE_BITMAP_EXCLUDE_EXTEND =? 0 then negb (field =? AUDIT_MSGTYPE)
      else false)
  then EAU_FIELDNOSUPPORT
  else if (flags =? AUDIT_FILTER_EXCLUDE) &&
     negb (Z.land audit_get_features AUDIT_FEATURE_BITMAP_EXCLUDE_EXTEND =? 0) &&
     negb (existsb (Z.eqb field)
       [AUDIT_PID; AUDIT_UID; AUDIT_GID; AUDIT_LOGINUID; AUDIT_MSGTYPE; AUDIT_SUBJ_USER; AUDIT_SUBJ_ROLE;
        AUDIT_SUBJ_TYPE; AUDIT_SUBJ_SEN; AUDIT_SUBJ_CLR; AUDIT_EXE])
  then EAU_MSGTYPECREDEXCLUDE
  else if (flags =? AUDIT_FILTER_FS) && (Z.land audit_get_features AUDIT_FEATURE_BITMAP_FILTER_FS =? 0)
  then EAU_FILTERNOSUPPORT
  else 0.

(** What a case of the switch does: the error it returns, or 0, the static
    variables, what it stored in [rule->values], and, for a string, that it is
    to be appended to the buffer. *)
Record cased := Cased { err : Z; after : globals; stored : option Z; text : bool }.

Definition refuse (e : Z) (g : globals) : cased := Cased e g None false.
Definition accept (v : Z) (g : globals) : cased := Cased 0 g (Some v) false.

Definition eq_or_ne (op : Z) : bool := (op =? AUDIT_NOT_EQUAL) || (op =? AUDIT_EQUAL).
Definition numeric (v : string) : bool := isdigit (char_at v).
Definition negative (v : string) : bool :=
  (2 <=? Z.of_nat (String.length v)) && (char_at v =c "-"%char) && isdigit (char_at (skip 1 v)).

Definition uid_case (v : string) (g : globals) : cased :=
  if numeric v then accept (strtoul0 v).1 g
  else if negative v then accept (strtol0 v) g
  else if str_eq v "unset" then accept 4294967295 g
  else match audit_name_to_uid v with
       | Some uid => accept uid g
       | None => refuse EAU_PRINT_NOTHING g
       end.

Definition gid_case (v : string) (g : globals) : cased :=
  if numeric v then accept (strtol0 v) g
  else match audit_name_to_gid v with
       | Some gid => accept gid g
       | None => refuse EAU_PRINT_NOTHING g
       end.

Definition exit_case (flags : Z) (v : string) (g : globals) : cased :=
  if negb (flags =? AUDIT_FILTER_EXIT) then refuse EAU_EXITONLY g
  else if numeric v || negative v then accept (strtol0 v) g
  else
    let e := audit_name_to_errno v in
    if u32 e =? 0 then Cased EAU_ERRUNKNOWN g (Some e) false else accept e g.

Definition msgtype_case (flags : Z) (v : string) (g : globals) : cased :=
  if negb (flags =? AUDIT_FILTER_EXCLUDE) && negb (flags =? AUDIT_FILTER_USER) then refuse EAU_MSGTYPEEXCLUDEUSER g
  else if numeric v then accept (strtol0 v) g
  else if 0 <? Lol.audit_name_to_msg_type v then accept (Lol.audit_name_to_msg_type v) g
  else refuse EAU_MSGTYPEUNKNOWN g.

Definition exit_strings : list Z :=
  [AUDIT_OBJ_USER; AUDIT_OBJ_ROLE; AUDIT_OBJ_TYPE; AUDIT_OBJ_LEV_LOW; AUDIT_OBJ_LEV_HIGH; AUDIT_WATCH; AUDIT_DIR].
Definition any_strings : list Z :=
  [AUDIT_SUBJ_USER; AUDIT_SUBJ_ROLE; AUDIT_SUBJ_TYPE; AUDIT_SUBJ_SEN; AUDIT_SUBJ_CLR; AUDIT_FILTERKEY; AUDIT_EXE].

Definition string_case (field flags op : Z) (v : string) (g : globals) : cased :=
  let vlen := Z.of_nat (String.length v) in
  if existsb (Z.eqb field) exit_strings && negb (flags =? AUDIT_FILTER_EXIT) then refuse EAU_EXITONLY g
  else
    let g := if (field =? AUDIT_WATCH) || (field =? AUDIT_DIR) then set_permadded g else g in
    if (field =? AUDIT_EXE) && (Z.land audit_get_features AUDIT_FEATURE_BITMAP_EXECUTABLE_PATH =? 0)
    then refuse EAU_FIELDNOSUPPORT g
    else if (field =? AUDIT_EXE) && negb (eq_or_ne op) then refuse EAU_OPEQNOTEQ g
    else
      let g := if field =? AUDIT_EXE then set_exeadded g else g in
      if (field =? AUDIT_FILTERKEY) && negb (syscalladded g || permadded g || exeadded g || filterfsadded g)
      then refuse EAU_KEYDEP g
      else if (field =? AUDIT_FILTERKEY) && (AUDIT_MAX_KEY_LEN <? vlen) then refuse EAU_STRTOOLONG g
      else if PATH_MAX <? vlen then refuse EAU_STRTOOLONG g
      else Cased 0 g (Some vlen) true.

Definition arch_case (op : Z) (v : string) (g : globals) : cased :=
  if syscalladded g then refuse EAU_ARCHMISPLACED g
  else if negb (eq_or_ne op) then refuse EAU_OPEQNOTEQ g
  else if numeric v then
    let (e, erange) := strtoul0 v in
    let g := set_elf (u32 e) g in
    if erange then refuse EAU_ELFUNKNOWN g
    else if audit_elf_to_machine (elf g) <? 0 then refuse EAU_ELFUNKNOWN g
    else accept (elf g) (set_archadded g)
  else
    let e := audit_machine_to_elf (audit_determine_machine v) in
    if e =? 0 then refuse EAU_ELFUNKNOWN g
    else accept e (set_archadded (set_elf e g)).

(** The bits of the letters; [None] for another letter. *)
Fixpoint perm_bits (val : Z) (v : string) : option Z :=
  match v with
  | EmptyString => Some val
  | String c v =>
      let c := Config.tolower c in
      if c =c "r"%char then perm_bits (Z.lor val AUDIT_PERM_READ) v
      else if c =c "w"%char then perm_bits (Z.lor val AUDIT_PERM_WRITE) v
      else if c =c "x"%char then perm_bits (Z.lor val AUDIT_PERM_EXEC) v
      else if c =c "a"%char then perm_bits (Z.lor val AUDIT_PERM_ATTR) v
      else None
  end.

Definition perm_case (flags op : Z) (v : string) (g : globals) : cased :=
  if negb (flags =? AUDIT_FILTER_EXIT) then refuse EAU_EXITONLY g
  else if negb (op =? AUDIT_EQUAL) then refuse EAU_OPEQ g
  else if 4 <? Z.of_nat (String.length v) then refuse EAU_STRTOOLONG g
  else match perm_bits 0 v with
       | None => refuse EAU_PERMRWXA g
       | Some val => accept val g
       end.

Definition filetype_case (flags : Z) (v : string) (g : globals) : cased :=
  if negb (flags =? AUDIT_FILTER_EXIT) then refuse EAU_EXITONLY g
  else
    let t := audit_name_to_ftype v in
    Cased (if to_int t <? 0 then EAU_FILETYPEUNKNOWN else 0) g (Some t) false.

Definition fstype_case (flags op : Z) (v : string) (g : globals) : cased :=
  if negb (flags =? AUDIT_FILTER_FS) then refuse EAU_FIELDUNAVAIL g
  else if negb (eq_or_ne op) then refuse EAU_OPEQNOTEQ g
  else
    let t := if numeric v then (strtoul0 v).1 else audit_name_to_fstype v in
    if to_int t =? -1 then Cased EAU_FSTYPEUNKNOWN g (Some t) false
    else accept t (set_filterfsadded g).

Definition arg_case (v : string) (g : globals) : cased :=
  if numeric v then accept (strtoul0 v).1 g
  else if negative v then accept (strtol0 v) g
  else refuse EAU_FIELDVALNUM g.

(** Any other text leaves the value as it is. *)
Definition sessionid_case (flags : Z) (v : string) (g : globals) : cased :=
  if Z.land audit_get_features AUDIT_FEATURE_BITMAP_SESSIONID_FILTER =? 0 then refuse EAU_FIELDNOSUPPORT g
  else if negb (flags =? AUDIT_FILTER_EXCLUDE) && negb (flags =? AUDIT_FILTER_USER) && negb (flags =? AUDIT_FILTER_EXIT)
  then refuse EAU_FIELDNOFILTER g
  else if numeric v then accept (strtoul0 v).1 g
  else if negative v then accept (strtol0 v) g
  else if str_eq v "unset" then accept 4294967295 g
  else Cased 0 g None false.

Definition saddr_fam_case (v : string) (g : globals) : cased :=
  let f := (strtoul0 v).1 in
  Cased (if AF_MAX <=? u32 f then EAU_FIELDVALTOOBIG else 0) g (Some f) false.

Definition default_case (field flags op : Z) (v : string) (g : globals) : cased :=
  if (((AUDIT_DEVMAJOR <=? field) && (field <=? AUDIT_INODE)) || (field =? AUDIT_SUCCESS)) &&
     negb (flags =? AUDIT_FILTER_EXIT) then refuse EAU_EXITONLY g
  else if (field =? AUDIT_INODE) && negb (eq_or_ne op) then refuse EAU_OPEQNOTEQ g
  else if (field =? AUDIT_PPID) && negb (flags =? AUDIT_FILTER_EXIT) then refuse EAU_EXITONLY g
  else if negb (numeric v) then refuse EAU_FIELDVALNUM g
  else if field =? AUDIT_INODE then accept (strtoul0 v).1 g
  else accept (strtol0 v) g.

Definition uid_fields : list Z := [AUDIT_UID; AUDIT_EUID; AUDIT_SUID; AUDIT_FSUID; AUDIT_LOGINUID; AUDIT_OBJ_UID].
Definition gid_fields : list Z := [AUDIT_GID; AUDIT_EGID; AUDIT_SGID; AUDIT_FSGID; AUDIT_OBJ_GID].

(** The switch over the field. *)
Definition field_case (field flags op : Z) (v : string) (g : globals) : cased :=
  if existsb (Z.eqb field) uid_fields then uid_case v g
  else if existsb (Z.eqb field) gid_fields then gid_case v g
  else if field =? AUDIT_EXIT then exit_case flags v g
  else if field =? AUDIT_MSGTYPE then msgtype_case flags v g
  else if existsb (Z.eqb field) (exit_strings ++ any_strings) then string_case field flags op v g
  else if field =? AUDIT_ARCH then arch_case op v g
  else if field =? AUDIT_PERM then perm_case flags op v g
  else if field =? AUDIT_FILETYPE then filetype_case flags v g
  else if field =? AUDIT_FSTYPE then fstype_case flags op v g
  else if (AUDIT_ARG0 <=? field) && (field <=? AUDIT_ARG3) then arg_case v g
  else if field =? AUDIT_SESSIONID then sessionid_case flags v g
  else if field =? AUDIT_SADDR_FAM then saddr_fam_case v g
  else default_case field flags op v g.

(** [rule->buf] in a block of [n] bytes. *)
Definition resize (junk : ascii) (n : Z) (b : list ascii) : list ascii :=
  take (Z.to_nat n) (b ++ replicate (Z.to_nat n) junk).

(** Copy [v] to [&b[off]]. *)
Definition strncpy_at (off : Z) (v b : list ascii) : option (list ascii) :=
  if off + Z.of_nat (length v) <=? Z.of_nat (length b)
  then Some (take (Z.to_nat off) b ++ v ++ drop (Z.to_nat off + length v) b) else None.

(** Append a string; [inl] without memory. *)
Definition append_text (junk : ascii) (v : string) (r : audit_rule_data) : option (unit + audit_rule_data) :=
  let offset := buflen r in
  let n := buflen r +u Z.of_nat (String.length v) in
  if negb (realloc_ok (sizeof_rule + n)) then Some (inl tt)
  else
    b ← strncpy_at offset (String.list_ascii_of_string v) (resize junk n (buf r));
    Some (inr (set_buf n b r)).

Context (junk : ascii).

(** The result, the static variables and [*rulep]. *)
Definition audit_rule_fieldpair_data (pair_ : option string) (flags : Z) (g : globals) (r : audit_rule_data)
    : option (Z * globals * option audit_rule_data) :=
  match pair_ with
  | None => Some (- EAU_FILTERMISSING, g, Some r)
  | Some t =>
      if AUDIT_MAX_FIELDS - 1 <=? field_count r then Some (- EAU_FIELDTOOMANY, g, Some r)
      else match find_op field_ops t with
      | None => Some (- EAU_OPMISSING, g, Some r)
      | Some (f, op, v) =>
          if str_eq f "" then Some (- EAU_FIELDNAME, g, Some r)
          else if str_eq v "" then Some (- EAU_FIELDVALMISSING, g, Some r)
          else
            let field := audit_name_to_field f in
            if field <? 0 then Some (- EAU_FIELDUNKNOWN, g, Some r)
            else
              let e := check_filter flags field in
              if negb (e =? 0) then Some (- e, g, Some r)
              else
                r ← store_field field op r;
                let c := field_case field flags op v g in
                r ← (match stored c with Some v => store_value v r | None => Some r end);
                if negb (err c =? 0) then Some (- err c, after c, Some r)
                else
                  r ← (if text c then append_text junk v r else Some (inr r));
                  match r with
                  | inl _ => Some (-3, after c, None)
                  | inr r => Some (0, after c, Some (set_field_count (field_count r +u 1) r))
                  end
      end
  end.

End library.

End Rule.
