(* ===== verification/RuleFacts.v ===== *)
(** * Facts about building rules

    A rule is read back the way the kernel and auditctl read it: field by field,
    each string taken from the front of what is left of the buffer ([entries]).
    The functions of Rule keep a rule well formed ([wf]), append exactly the
    field they were given or none, and never leave the arrays. *)
From S2P Require Import Prelude CString Config Lol Ellist Lookup Rule.

Local Open Scope audit_scope.

Module RuleFacts.
Import Rule.

(** ** Reading a rule *)

Definition is_text (field : Z) : bool := existsb (Z.eqb field) (exit_strings ++ any_strings).
#[global] Arguments is_text : simpl never.

Inductive operand := Number (v : Z) | Text (s : list ascii).
Record entry := Entry { e_field : Z; e_op : Z; e_operand : operand }.

Fixpoint decode (rows : list (Z * Z * Z)) (b : list ascii) : list entry :=
  match rows with
  | [] => []
  | (f, op, v) :: rows =>
      if is_text f then Entry f op (Text (take (Z.to_nat v) b)) :: decode rows (drop (Z.to_nat v) b)
      else Entry f op (Number v) :: decode rows b
  end.

Definition rows_of (n : nat) (fs ops vs : list Z) : list (Z * Z * Z) := zip (zip (take n fs) (take n ops)) (take n vs).
Definition rows (r : audit_rule_data) : list (Z * Z * Z) :=
  rows_of (Z.to_nat (field_count r)) (fields r) (fieldflags r) (values r).
Definition entries (r : audit_rule_data) : list entry := decode (rows r) (buf r).

Fixpoint text_len (rows : list (Z * Z * Z)) : Z :=
  match rows with
  | [] => 0
  | (f, _, v) :: rows => (if is_text f then v else 0) + text_len rows
  end.

Definition word (w : Z) : Prop := 0 <= w < two32.

(** The arrays of a rule: of their length, with 32 bits in each place. *)
Definition words (a : list Z) : Prop := length a = 64%nat /\ Forall word a.

Record wf (r : audit_rule_data) : Prop := Wf {
  wf_count : 0 <= field_count r <= 63;
  wf_mask : words (mask r);
  wf_fields : words (fields r);
  wf_values : words (values r);
  wf_ops : words (fieldflags r);
  wf_buflen : buflen r = Z.of_nat (length (buf r));
  wf_text : text_len (rows r) = buflen r;
  wf_small : buflen r <= field_count r * PATH_MAX;
}.

(** ** Arrays *)

Lemma put_words i v a : words a -> 0 <= i < 64 -> word v ->
  exists a', put i v a = Some a' /\ words a' /\ take (Z.to_nat i) a' = take (Z.to_nat i) a /\ a' !! Z.to_nat i = Some v.
Proof.
  intros [Hl Hw] Hi Hv. unfold put. rewrite Hl.
  rewrite (proj2 (Z.leb_le 0 i)), (proj2 (Z.ltb_lt i _)) by lia.
  exists (<[Z.to_nat i := v]> a). split_and!; [done| | |].
  - split; [by rewrite length_insert|]. by apply Forall_insert.
  - by rewrite take_insert_ge.
  - apply list_lookup_insert_eq. lia.
Qed.

Lemma words_lookup a i : words a -> 0 <= i < 64 -> exists v, a !! Z.to_nat i = Some v /\ word v.
Proof.
  intros [Hl Hw] Hi. destruct (lookup_lt_is_Some_2 a (Z.to_nat i)) as [v Hv]; [lia|].
  exists v. split; [done|]. eapply Forall_lookup_1; eauto.
Qed.

Lemma words_replicate v : word v -> words (replicate 64 v).
Proof. intros Hv. split; [by rewrite length_replicate|]. by apply Forall_replicate. Qed.

Lemma word_u32 v : word (u32 v).
Proof. apply u32_range. Qed.

Lemma rows_of_length n fs ops vs : words fs -> words ops -> words vs -> (n <= 64)%nat ->
  length (rows_of n fs ops vs) = n.
Proof.
  intros [H1 _] [H2 _] [H3 _] Hn. unfold rows_of.
  rewrite !length_zip_with, !length_take. lia.
Qed.

Lemma rows_of_snoc n fs ops vs f op v :
  fs !! n = Some f -> ops !! n = Some op -> vs !! n = Some v ->
  rows_of (S n) fs ops vs = rows_of n fs ops vs ++ [(f, op, v)].
Proof.
  intros Hf Ho Hv. unfold rows_of. rewrite (take_S_r fs n f), (take_S_r ops n op), (take_S_r vs n v) by done.
  pose proof (lookup_lt_Some _ _ _ Hf). pose proof (lookup_lt_Some _ _ _ Ho). pose proof (lookup_lt_Some _ _ _ Hv).
  rewrite zip_with_app by (rewrite !length_take; lia).
  rewrite zip_with_app by (rewrite length_zip_with, !length_take_le by lia; lia). done.
Qed.

Lemma Forall_word_rows n fs ops vs : words vs -> Forall (fun row => 0 <= row.2) (rows_of n fs ops vs).
Proof.
  intros [_ Hv]. unfold rows_of. apply Forall_forall. intros [[f op] v] Hin.
  apply elem_of_zip_r in Hin. apply elem_of_take in Hin as (i & Hi & _).
  eapply Forall_lookup_1 in Hi; [|exact Hv]. unfold word in Hi. cbn. lia.
Qed.

(** ** Strings *)

Lemma text_len_app rs rs' : text_len (rs ++ rs') = text_len rs + text_len rs'.
Proof. induction rs as [|[[f op] v] rs IH]; cbn; [done|]. rewrite IH. lia. Qed.

Lemma text_len_nonneg rs : Forall (fun row => 0 <= row.2) rs -> 0 <= text_len rs.
Proof.
  induction 1 as [|[[f op] v] rs Hv _ IH]; cbn in *; [lia|]. destruct (is_text f); lia.
Qed.

Lemma decode_app rs rs' b c : Forall (fun row => 0 <= row.2) rs -> text_len rs = Z.of_nat (length b) ->
  decode (rs ++ rs') (b ++ c) = decode rs b ++ decode rs' c.
Proof.
  revert b. induction rs as [|[[f op] v] rs IH]; intros b Hrs Hl; cbn in *.
  { destruct b; [done|]. cbn in Hl. lia. }
  apply Forall_cons in Hrs as [Hv Hrs]. cbn in Hv. pose proof (text_len_nonneg _ Hrs).
  destruct (is_text f).
  - rewrite take_app_le, drop_app_le by lia. cbn. f_equal. apply IH; [done|]. rewrite length_drop. lia.
  - cbn. f_equal. by apply IH.
Qed.

(** ** What is behind the last field does not matter *)

Record same (r r' : audit_rule_data) : Prop := Same {
  same_flags : flags r' = flags r;
  same_action : action r' = action r;
  same_count : field_count r' = field_count r;
  same_mask : mask r' = mask r;
  same_buflen : buflen r' = buflen r;
  same_buf : buf r' = buf r;
  same_rows : rows r' = rows r;
}.

#[global] Instance same_preorder : PreOrder same.
Proof.
  split; [by intros r; split|].
  intros r1 r2 r3 [] []. split; congruence.
Qed.

Lemma same_entries r r' : same r r' -> entries r' = entries r.
Proof. intros []. unfold entries. congruence. Qed.

Lemma store_field_spec f op r : wf r -> word f -> word op ->
  exists r', store_field f op r = Some r' /\ wf r' /\ same r r' /\
    fields r' !! Z.to_nat (field_count r) = Some f /\ fieldflags r' !! Z.to_nat (field_count r) = Some op /\
    values r' = values r.
Proof.
  intros Hwf Hf Hop. pose proof (wf_count r Hwf) as Hc. unfold store_field.
  destruct (put_words (field_count r) f (fields r)) as (fs & -> & Hfs & Htf & Hf'); [apply Hwf|lia|done|].
  destruct (put_words (field_count r) op (fieldflags r)) as (ops & -> & Hops & Hto & Ho'); [apply Hwf|lia|done|].
  cbn. eexists. split; [done|]. destruct Hwf.
  assert (rows (set_fieldflags ops (set_fields fs r)) = rows r) as Hr.
  { unfold rows, rows_of. cbn. by rewrite Htf, Hto. }
  split_and!; [|by split|done..]. split; cbn; try done. by rewrite <-wf_text0, <-Hr.
Qed.

Lemma store_value_spec v r : wf r ->
  exists r', store_value v r = Some r' /\ wf r' /\ same r r' /\
    values r' !! Z.to_nat (field_count r) = Some (u32 v) /\ fields r' = fields r /\ fieldflags r' = fieldflags r.
Proof.
  intros Hwf. pose proof (wf_count r Hwf) as Hc. unfold store_value.
  destruct (put_words (field_count r) (u32 v) (values r)) as (vs & -> & Hvs & Ht & Hv');
    [apply Hwf|lia|apply word_u32|].
  cbn. eexists. split; [done|]. destruct Hwf.
  assert (rows (set_values vs r) = rows r) as Hr.
  { unfold rows, rows_of. cbn. by rewrite Ht. }
  split_and!; [|by split|done..]. split; cbn; try done. by rewrite <-wf_text0, <-Hr.
Qed.

(** ** Taking one more field *)

Definition last_row (r : audit_rule_data) (f op v : Z) : Prop :=
  let n := Z.to_nat (field_count r) in
  fields r !! n = Some f /\ fieldflags r !! n = Some op /\ values r !! n = Some v.

Lemma rows_grow r f op v n : 0 <= field_count r < 63 -> n = field_count r +u 1 -> last_row r f op v ->
  n = field_count r + 1 /\ rows (set_field_count n r) = rows r ++ [(f, op, v)].
Proof.
  intros Hc -> (Hf & Ho & Hv). unfold rows. cbn. rewrite u32_small by (unfold two32; lia).
  split; [done|]. replace (Z.to_nat (field_count r + 1)) with (S (Z.to_nat (field_count r))) by lia.
  by apply rows_of_snoc.
Qed.

Lemma grow_number r f op v : wf r -> field_count r < 63 -> is_text f = false -> last_row r f op v ->
  let r' := set_field_count (field_count r +u 1) r in
  wf r' /\ entries r' = entries r ++ [Entry f op (Number v)].
Proof.
  intros Hwf Hc Ht Hrow. cbn. pose proof (wf_count r Hwf).
  destruct (rows_grow r f op v _ ltac:(lia) eq_refl Hrow) as [Hn Hr].
  pose proof (Forall_word_rows (Z.to_nat (field_count r)) (fields r) (fieldflags r) _ (wf_values r Hwf)).
  destruct Hwf. split.
  - split; cbn; try done; [lia| |unfold PATH_MAX in *; lia].
    rewrite Hr, text_len_app. cbn. rewrite Ht. lia.
  - unfold entries. rewrite Hr. cbn. rewrite <-(app_nil_r (buf r)) at 1. rewrite decode_app by (done || lia).
    cbn. by rewrite Ht.
Qed.

Lemma grow_text r f op s : wf r -> field_count r < 63 -> is_text f = true -> Z.of_nat (length s) <= PATH_MAX ->
  last_row r f op (Z.of_nat (length s)) ->
  let r' := set_field_count (field_count r +u 1) (set_buf (buflen r +u Z.of_nat (length s)) (buf r ++ s) r) in
  wf r' /\ entries r' = entries r ++ [Entry f op (Text s)].
Proof.
  intros Hwf Hc Ht Hs Hrow. cbn. pose proof (wf_count r Hwf).
  destruct (rows_grow r f op _ _ ltac:(lia) eq_refl Hrow) as [Hn Hr].
  pose proof (Forall_word_rows (Z.to_nat (field_count r)) (fields r) (fieldflags r) _ (wf_values r Hwf)).
  destruct Hwf. rewrite (u32_small (buflen r + _)) by (unfold two32, PATH_MAX in *; lia).
  assert (Hr' : rows (set_field_count (field_count r +u 1) (set_buf (buflen r + Z.of_nat (length s)) (buf r ++ s) r))
    = rows r ++ [(f, op, Z.of_nat (length s))]) by exact Hr.
  split.
  - split; cbn; try done; [lia|rewrite length_app; lia| |unfold PATH_MAX in *; lia].
    rewrite Hr', text_len_app. cbn. rewrite Ht. lia.
  - unfold entries. rewrite Hr'. cbn. rewrite decode_app by (done || lia).
    cbn. rewrite Ht, Nat2Z.id, firstn_all. done.
Qed.

(** ** The field and the operator of a text *)

Lemma find_op_in ops t f op v : find_op ops t = Some (f, op, v) -> op ∈ ops.*2.
Proof.
  induction ops as [|[sym o] ops IH]; cbn; [done|].
  destruct (split_at sym t) as [[a b]|]; cbn; intros H; [|right; auto].
  injection H as <- <- <-. left.
Qed.

Lemma field_word f : 0 <= audit_name_to_field f -> word (audit_name_to_field f).
Proof.
  unfold audit_name_to_field, s2i. destruct (List.find _ fieldtab) as [row|] eqn:Hf; cbn; [|lia].
  intros _. apply find_some in Hf as [Hin _]. revert row Hin. apply List.Forall_forall.
  by_decision.
Qed.

Lemma op_word ops t f op v : Forall word ops.*2 -> find_op ops t = Some (f, op, v) -> word op.
Proof. intros H Hf. eapply Forall_forall in H; [exact H|]. by eapply find_op_in. Qed.

Lemma length_list_ascii s : length (String.list_ascii_of_string s) = String.length s.
Proof. induction s; cbn; auto. Qed.

Lemma existsb_eqb_elem f l : existsb (Z.eqb f) l = true -> f ∈ l.
Proof. intros (x & Hin & ->%Z.eqb_eq)%existsb_exists. by apply list_elem_of_In. Qed.

Section calls.
Context {tabs : Tables} {mach : Machine} (junk : ascii).

Lemma field_case_string field fl op v g : is_text field = true ->
  field_case field fl op v g = string_case field fl op v g.
Proof.
  unfold is_text. intros (x & Hin & ->%Z.eqb_eq)%existsb_exists. cbn in Hin.
  by repeat destruct Hin as [<-|Hin].
Qed.

Lemma field_case_number field fl op v g : is_text field = false -> text (field_case field fl op v g) = false.
Proof.
  unfold is_text, field_case. intros ->.
  unfold uid_case, gid_case, exit_case, msgtype_case, arch_case, perm_case, filetype_case, fstype_case, arg_case,
    sessionid_case, saddr_fam_case, default_case, accept, refuse.
  repeat (case_match; try done).
Qed.

Lemma string_case_spec field fl op v g :
  let c := string_case field fl op v g in
  (err c = 0 /\ text c = true /\ stored c = Some (Z.of_nat (String.length v)) /\ Z.of_nat (String.length v) <= PATH_MAX) \/
  (err c <> 0 /\ text c = false).
Proof.
  cbn. unfold string_case, refuse.
  repeat match goal with
  | |- context [if ?b then Cased _ _ _ _ else _] => destruct b eqn:?; [by right|]
  end.
  left. cbn. split_and!; try done. by apply Z.ltb_ge.
Qed.

(** ** The calls *)

Lemma append_text_spec v r : wf r -> field_count r < 63 -> Z.of_nat (String.length v) <= PATH_MAX ->
  let n := buflen r +u Z.of_nat (String.length v) in
  append_text junk v r =
    Some (if realloc_ok (sizeof_rule + n) then inr (set_buf n (buf r ++ String.list_ascii_of_string v) r) else inl tt).
Proof.
  intros [] Hc Hv. cbn. unfold append_text. destruct (realloc_ok _); [|done]. cbn.
  rewrite u32_small by (unfold two32, PATH_MAX in *; lia).
  rewrite wf_buflen0. unfold strncpy_at, resize.
  set (s := String.list_ascii_of_string v).
  assert (Hlen : length s = String.length v) by apply length_list_ascii.
  rewrite length_take, length_app, length_replicate, Hlen.
  rewrite (proj2 (Z.leb_le _ _)) by lia. cbn. rewrite Nat2Z.id. do 3 f_equal.
  rewrite take_take, Nat.min_l, take_app_length by lia. f_equal.
  rewrite drop_ge; [by rewrite app_nil_r|]. rewrite length_take. lia.
Qed.

(** What a text asks for: the value as the switch stored it. *)
Definition operand_of (field fl op : Z) (v : string) (g : globals) (old : Z) : operand :=
  let c := field_case field fl op v g in
  if text c then Text (String.list_ascii_of_string v) else Number (default old (u32 <$> stored c)).

(** After a call: the rule is lost without memory, or has the field [ens] as its
    last one, or has the fields it had. *)
Definition called (r : audit_rule_data) (rc : Z) (r' : option audit_rule_data) (ens : entry -> Prop) : Prop :=
  match r' with
  | None => rc = -3 /\ exists n, realloc_ok n = false
  | Some r' =>
      wf r' /\ mask r' = mask r /\ flags r' = flags r /\ action r' = action r /\
      if rc =? 0 then exists e, ens e /\ entries r' = entries r ++ [e] else entries r' = entries r
  end.

Lemma called_refused r rc r' ens : wf r' -> same r r' -> rc <> 0 -> called r rc (Some r') ens.
Proof.
  intros Hwf Hs Hrc. unfold called. rewrite (proj2 (Z.eqb_neq rc 0)) by done.
  pose proof (same_entries _ _ Hs). by destruct Hs.
Qed.

Lemma called_number r r1 f op v ens : wf r1 -> same r r1 -> field_count r < 63 -> is_text f = false ->
  last_row r1 f op v -> ens (Entry f op (Number v)) ->
  called r 0 (Some (set_field_count (field_count r1 +u 1) r1)) ens.
Proof.
  intros Hwf Hs Hc Ht Hrow He. rewrite <-(same_count _ _ Hs) in Hc.
  destruct (grow_number r1 f op v) as [Hwf' He']; [done..|].
  rewrite (same_entries _ _ Hs) in He'. destruct Hs. split_and!; try done. by exists (Entry f op (Number v)).
Qed.

Lemma called_text r r1 f op s ens : wf r1 -> same r r1 -> field_count r < 63 -> is_text f = true ->
  Z.of_nat (length s) <= PATH_MAX -> last_row r1 f op (Z.of_nat (length s)) -> ens (Entry f op (Text s)) ->
  called r 0 (Some (set_field_count (field_count r1 +u 1)
    (set_buf (buflen r1 +u Z.of_nat (length s)) (buf r1 ++ s) r1))) ens.
Proof.
  intros Hwf Hs Hc Ht Hl Hrow He. rewrite <-(same_count _ _ Hs) in Hc.
  destruct (grow_text r1 f op s) as [Hwf' He']; [done..|].
  rewrite (same_entries _ _ Hs) in He'. destruct Hs. split_and!; try done. by exists (Entry f op (Text s)).
Qed.

Lemma last_row_word r f op v : wf r -> last_row r f op v -> 0 <= v < two32.
Proof. intros Hwf (_ & _ & Hv). destruct (wf_values _ Hwf) as [_ Hw]. by eapply Forall_lookup_1 in Hv; [|exact Hw]. Qed.

(** The field that a text of the form "name, operator, value" asks for. *)
Definition asked (t : string) (fl : Z) (g g' : globals) (e : entry) : Prop :=
  exists f op v old, find_op field_ops t = Some (f, op, v) /\ 0 <= audit_name_to_field f /\
    err (field_case (audit_name_to_field f) fl op v g) = 0 /\ word old /\ g' = after (field_case (audit_name_to_field f) fl op v g) /\
    e = Entry (audit_name_to_field f) op (operand_of (audit_name_to_field f) fl op v g old).

(** Storing the value that the switch gave. *)
Lemma store_case_spec f op c r : wf r -> field_count r < 63 -> word f -> word op ->
  exists r1 v, (r ← store_field f op r; match stored c with Some v => store_value v r | None => Some r end) = Some r1 /\
    wf r1 /\ same r r1 /\ last_row r1 f op v /\ v = default v (u32 <$> stored c).
Proof.
  intros Hwf Hc Hf Hop.
  destruct (store_field_spec f op r) as (r1 & -> & Hwf1 & Hs1 & Hf1 & Ho1 & Hv1); [done..|]. cbn.
  pose proof (wf_count _ Hwf). unfold last_row.
  destruct (stored c) as [v|]; cbn.
  - destruct (store_value_spec v r1) as (r2 & -> & Hwf2 & Hs2 & Hv2 & Hf2 & Ho2); [done|].
    exists r2, (u32 v). split_and!; try done; [by etrans|..];
      rewrite (same_count _ _ Hs2), ?Hf2, ?Ho2, ?(same_count _ _ Hs1); try done. by rewrite <-(same_count _ _ Hs1).
  - destruct (words_lookup (values r) (field_count r)) as (v & Hv & _); [apply Hwf|lia|].
    exists r1, v. rewrite (same_count _ _ Hs1), Hv1. done.
Qed.

(** The end of the call, when the switch accepted the value. *)
Lemma finish_spec f fl op v g r r1 w ens : let c := field_case f fl op v g in
  wf r1 -> same r r1 -> field_count r < 63 -> last_row r1 f op w -> w = default w (u32 <$> stored c) -> err c = 0 ->
  ens (Entry f op (operand_of f fl op v g w)) ->
  exists rc r', (r ← (if text c then append_text junk v r1 else Some (inr r1));
    match r with
    | inl _ => Some (-3, after c, None)
    | inr r => Some (0, after c, Some (set_field_count (field_count r +u 1) r))
    end) = Some (rc, after c, r') /\ called r rc r' ens /\ (r' = None \/ rc = 0).
Proof.
  intros c Hwf1 Hs1 Hc Hrow Hw He Hens. unfold operand_of in Hens. fold c in Hens.
  destruct (is_text f) eqn:Ht.
  - pose proof (string_case_spec f fl op v g) as Hsp. rewrite <-field_case_string in Hsp by done. fold c in Hsp.
    destruct Hsp as [(_ & Htc & Hsc & Hl)|[]]; [|done]. rewrite Htc in *. rewrite Hsc in Hw. cbn in Hw.
    rewrite u32_small in Hw by (unfold two32, PATH_MAX in *; lia).
    rewrite append_text_spec by (rewrite ?(same_count _ _ Hs1); done).
    destruct (realloc_ok _) eqn:Hre'; cbn; eexists _, _; (split; [done|]); [|split; [by split; [|eexists]|by left]].
    split; [|by right]. rewrite <-length_list_ascii in *.
    apply (called_text r r1 f op); try done. by rewrite <-Hw.
  - pose proof (field_case_number f fl op v g Ht) as Htc. fold c in Htc. rewrite Htc in *. cbn.
    eexists _, _. split; [done|]. split; [|by right]. apply (called_number r r1 f op w); try done. by rewrite Hw.
Qed.

(** A text that names a field of the list with a value that the switch takes. *)
Definition takes (t : string) (fl : Z) (g : globals) (f : string) (op : Z) (v : string) : Prop :=
  find_op field_ops t = Some (f, op, v) /\ f <> ""%string /\ v <> ""%string /\ 0 <= audit_name_to_field f /\
  check_filter fl (audit_name_to_field f) = 0 /\ err (field_case (audit_name_to_field f) fl op v g) = 0.

Lemma fieldpair_takes t fl g r f op v : wf r -> field_count r < 63 -> takes t fl g f op v ->
  let field := audit_name_to_field f in
  exists rc r' old, audit_rule_fieldpair_data junk (Some t) fl g r = Some (rc, after (field_case field fl op v g), r') /\
    called r rc r' (eq (Entry field op (operand_of field fl op v g old))) /\ (r' = None \/ rc = 0).
Proof.
  intros Hwf Hc (Hfind & Hf0 & Hv0 & Hf & Hcf & Herr) field. unfold audit_rule_fieldpair_data.
  rewrite (proj2 (Z.leb_gt _ _)) by (change (AUDIT_MAX_FIELDS - 1) with 63; lia). rewrite Hfind.
  unfold str_eq. rewrite (proj2 (String.eqb_neq f _)), (proj2 (String.eqb_neq v _)) by done.
  rewrite (proj2 (Z.ltb_ge _ 0)), Hcf by done. cbn [negb Z.eqb].
  assert (Hop : word op). { refine (op_word _ _ _ _ _ _ Hfind). by_decision. }
  set (c := field_case (audit_name_to_field f) fl op v g) in *. subst field.
  destruct (store_case_spec (audit_name_to_field f) op c r) as (r1 & w & Hst & Hwf1 & Hs1 & Hrow & Hw);
    [done|done|by apply field_word|done|].
  destruct (store_field _ _ _) as [r0|]; [|done]. cbn in Hst |- *. rewrite Hst. cbn.
  rewrite Herr. cbn [negb Z.eqb].
  destruct (finish_spec (audit_name_to_field f) fl op v g r r1 w
    (eq (Entry (audit_name_to_field f) op (operand_of (audit_name_to_field f) fl op v g w))))
    as (rc & r' & Hfin & Hcalled & Hor); [done..|]. fold c in Hfin. rewrite Hfin. by eexists _, _, w.
Qed.

Lemma fieldpair_called t fl g r : wf r ->
  exists rc g' r', audit_rule_fieldpair_data junk (Some t) fl g r = Some (rc, g', r') /\
    called r rc r' (asked t fl g g').
Proof.
  intros Hwf. unfold audit_rule_fieldpair_data.
  assert (Hre : forall rc ens, rc <> 0 -> called r rc (Some r) ens) by (intros; by apply called_refused).
  destruct (Z.leb_spec (AUDIT_MAX_FIELDS - 1) (field_count r)) as [|Hc].
  { eexists _, _, _. split; [done|]. by apply Hre. }
  destruct (find_op field_ops t) as [[[f op] v]|] eqn:Hfind; [|eexists _, _, _; split; [done|]; by apply Hre].
  destruct (str_eq f ""); [eexists _, _, _; split; [done|]; by apply Hre|].
  destruct (str_eq v ""); [eexists _, _, _; split; [done|]; by apply Hre|].
  destruct (Z.ltb_spec (audit_name_to_field f) 0) as [|Hf]; [eexists _, _, _; split; [done|]; by apply Hre|].
  destruct (Z.eqb_spec (check_filter fl (audit_name_to_field f)) 0) as [|Hcf]; cbn [negb];
    [|eexists _, _, _; split; [done|]; apply Hre; lia].
  set (field := audit_name_to_field f) in *. set (c := field_case field fl op v g).
  assert (Hop : word op). { refine (op_word _ _ _ _ _ _ Hfind). by_decision. }
  destruct (store_case_spec field op c r) as (r1 & w & Hst & Hwf1 & Hs1 & Hrow & Hw); [done|done|by apply field_word|done|].
  destruct (store_field field op r) as [r0|]; [|done]. cbn in Hst |- *. rewrite Hst. cbn.
  destruct (Z.eqb_spec (err c) 0) as [He|He]; cbn [negb];
    [|eexists _, _, _; split; [done|]; apply called_refused; [done|done|lia]].
  destruct (finish_spec field fl op v g r r1 w (asked t fl g (after c))) as (rc & r' & Hfin & Hcalled & _);
    [done..|exists f, op, v, w; split_and!; try done; by apply (last_row_word r1 field op w)|].
  fold c in Hfin. rewrite Hfin. by eexists _, _, _.
Qed.

(** The comparison that a text asks for. *)
Definition compared (t : string) (e : entry) : Prop :=
  exists f op v c, find_op comp_ops t = Some (f, op, v) /\
    compare_fields (audit_name_to_field f) (audit_name_to_field v) = Some c /\
    e = Entry AUDIT_FIELD_COMPARE op (Number c).

Lemma case_in {A} k (rs : list (Z * A)) x : case k rs = Some x -> (k, x) ∈ rs.
Proof.
  unfold case. intros ([k' x'] & Hf & ->)%fmap_Some. apply find_some in Hf as [Hin ->%Z.eqb_eq].
  by apply list_elem_of_In.
Qed.

Lemma compare_fields_word f1 f2 c : compare_fields f1 f2 = Some c -> word c.
Proof.
  unfold compare_fields. destruct (case f1 comparisons) as [rs|] eqn:H1; [|done]. cbn. intros H2.
  apply case_in in H1, H2.
  assert (Forall (fun row : Z * list (Z * Z) => Forall (fun p => word p.2) row.2) comparisons) as Hall by by_decision.
  eapply Forall_forall in Hall; [|exact H1]. by eapply Forall_forall in Hall; [|exact H2].
Qed.

Lemma interfield_called t fl r : wf r ->
  exists rc r', audit_rule_interfield_comp_data (Some t) fl r = Some (rc, r') /\ called r rc (Some r') (compared t).
Proof.
  intros Hwf. unfold audit_rule_interfield_comp_data.
  assert (Hre : forall rc ens, rc <> 0 -> called r rc (Some r) ens) by (intros; by apply called_refused).
  destruct (Z.leb_spec (AUDIT_MAX_FIELDS - 1) (field_count r)) as [|Hc].
  { eexists _, _. split; [done|]. by apply Hre. }
  destruct (find_op comp_ops t) as [[[f op] v]|] eqn:Hfind; [|eexists _, _; split; [done|]; by apply Hre].
  do 5 (match goal with |- context [if ?b then _ else _] => destruct b end; [eexists _, _; split; [done|]; by apply Hre|]).
  assert (Hop : word op). { refine (op_word _ _ _ _ _ _ Hfind). by_decision. }
  destruct (store_field_spec AUDIT_FIELD_COMPARE op r) as (r1 & -> & Hwf1 & Hs1 & Hf1 & Ho1 & Hv1); [done|by_decision|done|].
  destruct (compare_fields (audit_name_to_field f) (audit_name_to_field v)) as [c|] eqn:Hcmp; cbn [mbind option_bind];
    [|eexists _, _; split; [done|]; by apply called_refused].
  destruct (store_value_spec c r1) as (r2 & -> & Hwf2 & Hs2 & Hv2 & Hf2 & Ho2); [done|]. cbn.
  rewrite u32_small in Hv2 by by eapply compare_fields_word.
  eexists _, _. split; [done|].
  apply (called_number r r2 AUDIT_FIELD_COMPARE op c); try done; [by etrans| |by exists f, op, v, c].
  unfold last_row. rewrite (same_count _ _ Hs2), Hf2, Ho2, (same_count _ _ Hs1). split_and!; try done.
  by rewrite <-(same_count _ _ Hs1).
Qed.

Lemma interfield_takes t fl r f op v c : wf r -> field_count r < 63 -> find_op comp_ops t = Some (f, op, v) ->
  f <> ""%string -> v <> ""%string -> 0 <= audit_name_to_field f -> 0 <= audit_name_to_field v -> fl = AUDIT_FILTER_EXIT ->
  compare_fields (audit_name_to_field f) (audit_name_to_field v) = Some c ->
  exists r', audit_rule_interfield_comp_data (Some t) fl r = Some (0, r') /\
    called r 0 (Some r') (eq (Entry AUDIT_FIELD_COMPARE op (Number c))).
Proof.
  intros Hwf Hc Hfind Hf0 Hv0 Hf Hv -> Hcmp.
  destruct (interfield_called t AUDIT_FILTER_EXIT r Hwf) as (rc & r' & Heq & Hcalled). rewrite Heq.
  enough (rc = 0) as ->.
  { exists r'. split; [done|]. destruct Hcalled as (H1 & H2 & H3 & H4 & e & (f' & op' & v' & c' & Hf' & Hc' & He) & H5).
    split_and!; try done. exists e. split; [|done]. rewrite Hfind in Hf'. injection Hf' as <- <- <-. congruence. }
  revert Heq. unfold audit_rule_interfield_comp_data.
  rewrite (proj2 (Z.leb_gt _ _)) by (change (AUDIT_MAX_FIELDS - 1) with 63; lia). rewrite Hfind.
  unfold str_eq. rewrite (proj2 (String.eqb_neq f _)), (proj2 (String.eqb_neq v _)) by done.
  rewrite !(proj2 (Z.ltb_ge _ 0)), Hcmp by done. cbn [negb Z.eqb AUDIT_FILTER_EXIT Pos.eqb].
  destruct (store_field _ _ _); [|done]. cbn. destruct (store_value _ _); [|done]. cbn. congruence.
Qed.

(** ** System calls *)

Definition has_syscall (r : audit_rule_data) (k : Z) : bool :=
  Z.testbit (default 0 (mask r !! Z.to_nat (k / 32))) (k mod 32).

Lemma shiftl_one_word n : 0 <= n < 32 -> word (Z.shiftl 1 n).
Proof.
  intros Hn. unfold word. rewrite Z.shiftl_1_l. split; [lia|].
  unfold two32. apply Z.pow_lt_mono_r; lia.
Qed.

Lemma lor_word a b : word a -> word b -> word (Z.lor a b).
Proof.
  unfold word, two32. intros [Ha Ha'] [Hb Hb']. split; [by apply Z.lor_nonneg|].
  destruct (Z.eq_dec (Z.lor a b) 0) as [->|]; [lia|].
  apply Z.log2_lt_pow2; [pose proof (proj2 (Z.lor_nonneg a b)); lia|].
  rewrite Z.log2_lor by done.
  destruct (Z.eq_dec a 0) as [->|], (Z.eq_dec b 0) as [->|]; try (cbn; lia);
    apply Z.max_lub_lt; try (apply Z.log2_lt_pow2; lia); cbn; lia.
Qed.

Lemma syscall_data_spec n r : wf r -> 0 <= n ->
  exists rc r', audit_rule_syscall_data n r = Some (rc, r') /\ wf r' /\ entries r' = entries r /\
    flags r' = flags r /\ action r' = action r /\
    if n <? 2048 then rc = 0 /\ forall k, 0 <= k < 2048 -> has_syscall r' k = (k =? n) || has_syscall r k
    else rc = -1 /\ r' = r.
Proof.
  intros Hwf Hn. unfold audit_rule_syscall_data. rewrite (proj2 (Z.ltb_ge n 0)) by lia.
  change (AUDIT_BITMASK_SIZE - 1) with 63. pose proof (Z.div_mod n 32). pose proof (Z.mod_pos_bound n 32).
  destruct (Z.ltb_spec n 2048) as [Hlt|Hge].
  2:{ rewrite (proj2 (Z.ltb_lt 63 _)) by (pose proof (Z.div_le_lower_bound n 32 64); lia).
      by eexists _, _. }
  assert (Hw : 0 <= n / 32 < 64) by (split; [apply Z.div_pos; lia|apply Z.div_lt_upper_bound; lia]).
  rewrite (proj2 (Z.ltb_ge 63 _)) by lia.
  destruct (words_lookup (mask r) (n / 32)) as (w & Hlook & Hword); [apply Hwf|done|].
  unfold get. rewrite (proj2 (Z.leb_le 0 _)), Hlook by lia. cbn.
  replace (n - n / 32 * 32) with (n mod 32) by lia.
  destruct (put_words (n / 32) (Z.lor w (Z.shiftl 1 (n mod 32))) (mask r)) as (m & Hput & Hm & Ht & Hl);
    [apply Hwf|done|apply lor_word; [done|apply shiftl_one_word; lia]|].
  rewrite Hput. cbn. eexists _, _. split; [done|]. destruct Hwf. split_and!; try done.
  intros k Hk. unfold has_syscall. cbn.
  unfold put in Hput. case_match; [|done]. injection Hput as <-.
  pose proof (Z.div_mod k 32). pose proof (Z.mod_pos_bound k 32).
  destruct (decide (k / 32 = n / 32)) as [He|Hne].
  - rewrite He, Hl, Hlook. cbn. rewrite Z.lor_spec, Z.shiftl_1_l, Z.pow2_bits_eqb by lia.
    rewrite orb_comm. f_equal. zb; lia.
  - rewrite list_lookup_insert_ne by (pose proof (Z.div_pos k 32); lia).
    rewrite (proj2 (Z.eqb_neq k n)) by congruence. done.
Qed.

Definition all_syscalls (r : audit_rule_data) : Prop := mask r = replicate 64 UINT32_MAX.

(** The number of a system call that is named or written as a number, for the
    machine of [-F arch], or this one. *)
Definition call_number (sc : string) (g : globals) : Z :=
  let machine := if elf g =? 0 then audit_detect_machine else audit_elf_to_machine (elf g) in
  if machine <? 0 then -1
  else
    let nr := audit_name_to_syscall sc machine in
    if (nr <? 0) && isdigit (char_at sc) then to_int (strtol0 sc) else nr.

Lemma syscallbyname_spec sc g r : wf r ->
  exists rc r', audit_rule_syscallbyname_data sc g r = Some (rc, r') /\ wf r' /\ entries r' = entries r /\
    flags r' = flags r /\ action r' = action r /\
    if rc =? 0 then
      if str_eq sc "all" then all_syscalls r'
      else 0 <= call_number sc g < 2048 /\
        forall k, 0 <= k < 2048 -> has_syscall r' k = (k =? call_number sc g) || has_syscall r k
    else r' = r.
Proof.
  intros Hwf. unfold audit_rule_syscallbyname_data, call_number.
  destruct (str_eq sc "all").
  { eexists _, _. split; [done|]. destruct Hwf. split_and!; try done.
    split; try done. cbn. apply words_replicate. by_decision. }
  set (machine := if elf g =? 0 then _ else _). destruct (machine <? 0); [by eexists _, _|].
  set (nr := if _ && isdigit (char_at sc) then _ else _).
  destruct (Z.leb_spec 0 nr) as [Hnr|]; [|by eexists _, _].
  destruct (syscall_data_spec nr r Hwf Hnr) as (rc & r' & -> & Hwf' & He & Hf & Ha & Hrc).
  eexists _, _. split; [done|]. split_and!; try done.
  destruct (Z.ltb_spec nr 2048); destruct Hrc as [-> Hrc]; cbn; [|done]. by split; [lia|].
Qed.

(** ** Watches *)

Definition set_perm (perms : Z) (e : entry) : entry :=
  if e_field e =? AUDIT_PERM then Entry AUDIT_PERM (e_op e) (Number (u32 perms)) else e.

Definition set_perm_row (perms : Z) (row : Z * Z * Z) : Z * Z * Z :=
  if row.1.1 =? AUDIT_PERM then (row.1, u32 perms) else row.

Lemma decode_set_perm perms rs b : decode (set_perm_row perms <$> rs) b = set_perm perms <$> decode rs b.
Proof.
  revert b. induction rs as [|[[f op] v] rs IH]; intros b; [done|]. cbn. unfold set_perm_row at 1. cbn.
  destruct (Z.eqb_spec f AUDIT_PERM) as [->|Hne].
  - cbn. change (is_text AUDIT_PERM) with false. cbn. by rewrite IH.
  - destruct (is_text f); cbn; rewrite IH; unfold set_perm at 2; cbn; by rewrite (proj2 (Z.eqb_neq f _)).
Qed.

Lemma text_len_set_perm perms rs : text_len (set_perm_row perms <$> rs) = text_len rs.
Proof.
  induction rs as [|[[f op] v] rs IH]; [done|]. cbn. unfold set_perm_row at 1. cbn.
  destruct (Z.eqb_spec f AUDIT_PERM) as [->|Hne]; cbn; [change (is_text AUDIT_PERM) with false|]; by rewrite IH.
Qed.

Lemma update_perms_spec perms fs ops vs n : (n <= 64)%nat -> words fs -> words ops -> words vs ->
  exists vs', update_perms n perms fs vs = Some (existsb (Z.eqb AUDIT_PERM) (take n fs), vs') /\ words vs' /\
    drop n vs' = drop n vs /\ rows_of n fs ops vs' = set_perm_row perms <$> rows_of n fs ops vs.
Proof.
  intros Hn Hfs Hops Hvs. induction n as [|n IH]; [by eexists|].
  destruct IH as (vs' & Hup & Hvs' & Hd & Hr); [lia|]. cbn. rewrite Hup. cbn.
  destruct (words_lookup fs (Z.of_nat n)) as (f & Hf & _); [done|lia|].
  destruct (words_lookup ops (Z.of_nat n)) as (op & Ho & _); [done|lia|].
  destruct (words_lookup vs (Z.of_nat n)) as (v & Hv & _); [done|lia|]. rewrite Nat2Z.id in *.
  rewrite Hf. cbn [mbind option_bind]. rewrite (take_S_r fs n f), existsb_app by done.
  change (existsb (Z.eqb AUDIT_PERM) [f]) with ((AUDIT_PERM =? f) || false). rewrite orb_false_r, (Z.eqb_sym AUDIT_PERM f).
  rewrite (rows_of_snoc n fs ops vs f op v), fmap_app by done.
  change (set_perm_row perms <$> [(f, op, v)]) with [if f =? AUDIT_PERM then (f, op, u32 perms) else (f, op, v)].
  destruct (Z.eqb_spec f AUDIT_PERM) as [->|Hne].
  - destruct (put_words (Z.of_nat n) (u32 perms) vs') as (vs2 & Hput & Hvs2 & Ht & Hl); [done|lia|apply word_u32|].
    rewrite Hput. cbn. rewrite Nat2Z.id, orb_true_r in *. exists vs2. split_and!; try done.
    + unfold put in Hput. case_match; [|done]. injection Hput as <-. rewrite Nat2Z.id.
      rewrite drop_insert_lt by lia. replace (S n) with (n + 1)%nat by lia. by rewrite <-!drop_drop, Hd.
    + rewrite (rows_of_snoc n fs ops vs2 _ op (u32 perms)) by done. f_equal. rewrite <-Hr. unfold rows_of. by rewrite Ht.
  - rewrite orb_false_r. exists vs'.
    assert (Hv' : vs' !! n = Some v). { by rewrite <-(Nat.add_0_r n), <-lookup_drop, Hd, lookup_drop, Nat.add_0_r. }
    split_and!; try done.
    + replace (S n) with (n + 1)%nat by lia. by rewrite <-!drop_drop, Hd.
    + rewrite (rows_of_snoc n fs ops vs' f op v) by done. by rewrite Hr.
Qed.

Lemma decode_fields rs b : e_field <$> decode rs b = rs.*1.*1.
Proof.
  revert b. induction rs as [|[[f op] v] rs IH]; intros b; [done|]. cbn. destruct (is_text f); cbn; by rewrite IH.
Qed.

Lemma entries_fields r : wf r -> e_field <$> entries r = take (Z.to_nat (field_count r)) (fields r).
Proof.
  intros [Hc _ [Hf _] [Hv _] [Ho _] _ _ _]. unfold entries. rewrite decode_fields. unfold rows, rows_of.
  rewrite fst_zip, fst_zip; rewrite ?length_zip_with, ?length_take; [done|lia..].
Qed.

(** Changing the values of the permission fields. *)
Lemma set_perms_spec perms r : wf r ->
  exists vs, update_perms (Z.to_nat (field_count r)) perms (fields r) (values r) =
    Some (existsb (fun e => e_field e =? AUDIT_PERM) (entries r), vs) /\
  wf (set_values vs r) /\ entries (set_values vs r) = set_perm perms <$> entries r.
Proof.
  intros Hwf. pose proof (wf_count _ Hwf).
  destruct (update_perms_spec perms (fields r) (fieldflags r) (values r) (Z.to_nat (field_count r)))
    as (vs & Hup & Hvs & _ & Hr); [lia|apply Hwf..|].
  exists vs. rewrite Hup. split_and!.
  - f_equal. f_equal. rewrite <-entries_fields by done. induction (entries r) as [|e es IH]; [done|].
    cbn [existsb fmap list_fmap]. by rewrite IH, Z.eqb_sym.
  - destruct Hwf. split; try done. etrans; [|exact wf_text0].
    rewrite <-(text_len_set_perm perms (rows r)). f_equal. exact Hr.
  - unfold entries. rewrite <-decode_set_perm. f_equal. exact Hr.
Qed.

Lemma update_watch_perms_spec perms r : wf r -> 1 <= field_count r ->
  exists rc r', audit_update_watch_perms perms r = Some (rc, r') /\ wf r' /\ mask r' = mask r /\
    flags r' = flags r /\ action r' = action r /\
    if existsb (fun e => e_field e =? AUDIT_PERM) (entries r) then rc = 0 /\ entries r' = set_perm perms <$> entries r
    else if field_count r <? 63 then rc = 0 /\ entries r' = entries r ++ [Entry AUDIT_PERM AUDIT_EQUAL (Number (u32 perms))]
    else rc = -2 /\ entries r' = entries r.
Proof.
  intros Hwf Hc. unfold audit_update_watch_perms. rewrite (proj2 (Z.ltb_ge _ 1)) by lia.
  destruct (set_perms_spec perms r Hwf) as (vs & -> & Hwf' & He). cbn [mbind option_bind].
  destruct (existsb _ (entries r)) eqn:Hex; [by eexists _, _|].
  assert (Hsame : set_perm perms <$> entries r = entries r).
  { clear -Hex. induction (entries r) as [|e es IH]; [done|]. cbn [existsb] in Hex. apply orb_false_iff in Hex as [H1 H2].
    cbn [fmap list_fmap]. rewrite IH by done. unfold set_perm. by rewrite H1. }
  rewrite Hsame in He. cbn [field_count set_values]. change (AUDIT_MAX_FIELDS - 1) with 63.
  destruct (Z.leb_spec 63 (field_count r)) as [Hge|Hlt].
  { rewrite (proj2 (Z.ltb_ge _ 63)) by lia. by eexists _, _. }
  rewrite (proj2 (Z.ltb_lt _ 63)) by lia.
  destruct (store_case_spec AUDIT_PERM AUDIT_EQUAL (Cased 0 (Globals false false false false false 0) (Some perms) false)
    (set_values vs r)) as (r1 & w & Hst & Hwf1 & Hs1 & Hrow & Hw); [done|done|by_decision|by_decision|].
  destruct (store_field _ _ _) as [r0|]; [|done]. cbn in Hst, Hw |- *. rewrite Hst. cbn. subst w.
  destruct (grow_number r1 AUDIT_PERM AUDIT_EQUAL (u32 perms)) as [Hwf2 He2]; [done|by rewrite (same_count _ _ Hs1)|done..|].
  eexists _, _. split; [done|]. rewrite He2, (same_entries _ _ Hs1), He. destruct Hs1. done.
Qed.

Lemma wf_init : wf audit_rule_init_data.
Proof.
  split; cbn; try done; try (unfold PATH_MAX; lia); apply words_replicate; by_decision.
Qed.

Lemma add_watch_spec type path g r : type = AUDIT_WATCH \/ type = AUDIT_DIR ->
  Z.of_nat (String.length path) <= PATH_MAX -> match r with Some r => field_count r = 0 | None => True end ->
  exists rc g' r', audit_add_watch_dir type path g r = Some (rc, g', r') /\
    if realloc_ok (Z.of_nat (String.length path) + sizeof_rule) then
      rc = 0 /\ g' = set_permadded g /\ exists r1, r' = Some r1 /\ wf r1 /\ all_syscalls r1 /\
      flags r1 = AUDIT_FILTER_EXIT /\ action r1 = AUDIT_ALWAYS /\
      entries r1 = [Entry type AUDIT_EQUAL (Text (String.list_ascii_of_string path));
                    Entry AUDIT_PERM AUDIT_EQUAL (Number 15)]
    else rc = -1 /\ g' = g /\ r' = None.
Proof.
  intros Ht Hl Hr. unfold audit_add_watch_dir.
  change (Z.lor (Z.lor (Z.lor AUDIT_PERM_READ AUDIT_PERM_WRITE) AUDIT_PERM_EXEC) AUDIT_PERM_ATTR) with 15.
  replace (match r with Some r => negb (field_count r =? 0) | None => false end) with false
    by (destruct r as [r|]; [by rewrite Hr|done]).
  replace (negb (type =? AUDIT_WATCH) && negb (type =? AUDIT_DIR)) with false by (destruct Ht as [->| ->]; done).
  destruct (realloc_ok _); cbn [negb]; [|by eexists _, _, _].
  assert (is_text type = true /\ word type) as [Htext Hword] by (destruct Ht as [->| ->]; split; by_decision).
  unfold audit_rule_syscallbyname_data. cbn [str_eq String.eqb Ascii.eqb Bool.eqb mbind option_bind].
  set (r0 := set_mask _ _).
  assert (Hwf0 : wf r0).
  { destruct wf_init. split; try done. cbn. apply words_replicate. by_decision. }
  set (len := Z.of_nat (String.length path)) in *.
  assert (Hu : u32 len = len) by (apply u32_small; unfold two32, PATH_MAX in *; lia).
  destruct (store_case_spec type AUDIT_EQUAL (Cased 0 g (Some len) false) r0) as (r1 & w & Hst & Hwf1 & Hs1 & Hrow & Hw);
    [done|done|done|by_decision|].
  destruct (store_field type _ r0) as [r0'|]; [|done]. cbn in Hst, Hw |- *. rewrite Hst. cbn. rewrite Hu in Hw. subst w.
  set (s := String.list_ascii_of_string path). rewrite Hu.
  assert (Hs : Z.of_nat (length s) = len) by (unfold s; by rewrite length_list_ascii).
  rewrite <-Hs in Hrow. destruct (grow_text r1 type AUDIT_EQUAL s) as [Hwf2 He2];
    [done|by rewrite (same_count _ _ Hs1)|done|lia|done|].
  replace (set_field_count (field_count r1 +u 1) (set_buf (buflen r1 +u Z.of_nat (length s)) (buf r1 ++ s) r1))
    with (set_field_count 1 (set_buf len s r1)) in *
    by (destruct Hs1; rewrite same_count0, same_buflen0, same_buf0, Hs;
        change (buflen r0 +u len) with (u32 len); by rewrite Hu).
  destruct (store_case_spec AUDIT_PERM AUDIT_EQUAL (Cased 0 g (Some 15) false) (set_field_count 1 (set_buf len s r1)))
    as (r3 & w & Hst3 & Hwf3 & Hs3 & Hrow3 & Hw3); [done|done|by_decision|by_decision|].
  destruct (store_field AUDIT_PERM _ _) as [r2'|]; [|done]. cbn in Hst3, Hw3 |- *. rewrite Hst3. cbn. subst w.
  destruct (grow_number r3 AUDIT_PERM AUDIT_EQUAL 15) as [Hwf4 He4]; [done|by rewrite (same_count _ _ Hs3)|done..|].
  replace (field_count r3 +u 1) with 2 in * by (by rewrite (same_count _ _ Hs3)).
  eexists _, _, _. split; [done|]. split_and!; [done|done|]. eexists. split_and!; [done|done| | | |].
  1-3: destruct Hs1, Hs3; unfold all_syscalls; cbn in *; congruence.
  rewrite He4, (same_entries _ _ Hs3), He2, (same_entries _ _ Hs1). done.
Qed.

(** ** Comparisons *)

Definition comparison_rows : list (Z * Z * Z) := comparisons ≫= fun '(a, rs) => (fun p => (a, p.1, p.2)) <$> rs.

Lemma compare_fields_row a b c : compare_fields a b = Some c -> (a, b, c) ∈ comparison_rows.
Proof.
  unfold compare_fields, comparison_rows. destruct (case a comparisons) as [rs|] eqn:H1; [|done]. cbn [mbind option_bind].
  intros H2. apply case_in in H1, H2. apply list_elem_of_bind. exists (a, rs). split; [|done].
  apply list_elem_of_fmap. by exists (b, c).
Qed.

Lemma compare_fields_flip a b c : compare_fields a b = Some c -> compare_fields b a = Some c.
Proof.
  intros H%compare_fields_row.
  assert (Forall (fun row => compare_fields row.1.2 row.1.1 = Some row.2) comparison_rows) as Hall by by_decision.
  by apply (proj1 (Forall_forall _ _) Hall) in H.
Qed.

(** The number that stands for a comparison of two fields does not depend on
    their order, and each number stands for one pair of fields. *)
Theorem compare_fields_pairs a b c d :
  compare_fields a b = compare_fields b a /\
  (is_Some (compare_fields a b) -> compare_fields a b = compare_fields c d -> (a = c /\ b = d) \/ (a = d /\ b = c)).
Proof.
  split.
  - destruct (compare_fields a b) as [n|] eqn:H; [by rewrite (compare_fields_flip a b n H)|].
    destruct (compare_fields b a) as [n|] eqn:H'; [|done]. by rewrite (compare_fields_flip b a n H') in H.
  - intros [n Hn] He. rewrite Hn in He. symmetry in He. apply compare_fields_row in Hn, He.
    assert (Forall (fun x => Forall (fun y => x.2 = y.2 -> x.1 = y.1 \/ x.1 = (y.1.2, y.1.1)) comparison_rows) comparison_rows)
      as Hall by by_decision.
    pose proof (proj1 (Forall_forall _ _) (proj1 (Forall_forall _ _) Hall _ Hn) _ He eq_refl) as [E|E];
      cbn in E; [left|right]; by injection E.
Qed.

End calls.

End RuleFacts.
