(* ===== verification/RuleList.v ===== *)
(** * Listing rules (src/src/auditctl-listing.c, src/src/auditctl-llist.c)

    The rules that the kernel sends are collected in a list and printed as the
    options of auditctl that make them.  Printing changes the static
    [_audit_elf].  What printf() would show is a [string]; [None] is a read
    outside of the rule.  How an argument of a system call is interpreted is the
    class [Interp] of Nvlist. *)
From S2P Require Import Prelude CString CList StrSplit Nvlist Config ConfigFacts Lol Ellist Lookup Rule RuleFacts.

Local Open Scope audit_scope.

Module RuleList.
Import Rule.
Export RuleFacts.

Local Open Scope string_scope.
Local Open Scope Z_scope.

(** ** printf *)

Infix "++s" := String.append (right associativity, at level 60).

(** [%s] of a pointer that may be null. *)
Definition show (s : option string) : string := default "(null)" s.

(** [%u] and [%d] of 32 bits. *)
Definition show_u (v : Z) : string := ConfigFacts.decimal (u32 v).
Definition show_d (v : Z) : string :=
  let v := to_int v in if v <? 0 then "-" ++s ConfigFacts.decimal (- v) else ConfigFacts.decimal v.

Definition hex_digit (upper : bool) (d : Z) : ascii :=
  ascii_of_nat (Z.to_nat (if d <? 10 then 48 + d else if upper then 55 + d else 87 + d)).

Fixpoint hex_go (upper : bool) (fuel : nat) (n : Z) (s : string) : string :=
  match fuel with
  | O => s
  | S fuel => let s := String (hex_digit upper (n mod 16)) s in
              if n <? 16 then s else hex_go upper fuel (n / 16) s
  end.
(** [%x] and [%X]: eight digits are enough for 32 bits. *)
Definition show_hex (upper : bool) (v : Z) : string := hex_go upper 8 (u32 v) "".

Section listing.
Context {tabs : Tables} {mach : Machine} {itp : Nv.Interp}.

(** [%.*s] of the buffer from [boffset] with precision [v]. *)
Definition text_at (r : audit_rule_data) (boffset v : Z) : option string :=
  let s := drop (Z.to_nat boffset) (buf r) in
  let t := if to_int v <? 0 then s else take (Z.to_nat v) s in
  let whole := (0 <=? to_int v) && (Z.of_nat (length t) =? v) in
  if whole || existsb (Ascii.eqb NUL) t then Some (Ellist.to_string (StrSplit.until_nul t)) else None.

(** [fields[i]], [fieldflags[i]] and [values[i]] of every field. *)
Definition used_rows (r : audit_rule_data) : option (list (Z * Z * Z)) :=
  if field_count r <=? AUDIT_MAX_FIELDS then Some (rows r) else None.

Definition field_of (f : Z) : Z := Z.ldiff f AUDIT_OPERATORS.
Definition op_of (op : Z) : Z := Z.land op AUDIT_OPERATORS.

Definition symbol (op : Z) : string := show (audit_operator_to_symbol op).

(** The fields whose value is the length of a string. *)
Definition has_text (field : Z) : bool :=
  ((AUDIT_SUBJ_USER <=? field) && (field <=? AUDIT_OBJ_LEV_HIGH) && negb (field =? AUDIT_PPID)) ||
  (field =? AUDIT_WATCH) || (field =? AUDIT_DIR) || (field =? AUDIT_FILTERKEY) || (field =? AUDIT_EXE).

Fixpoint key_loop (key : string) (r : audit_rule_data) (rs : list (Z * Z * Z)) (boffset : Z) : option bool :=
  match rs with
  | [] => Some false
  | (f, _, v) :: rs =>
      let field := field_of f in
      hit ← (if field =? AUDIT_FILTERKEY then t ← text_at r boffset v; Some (strstr t key) else Some false);
      if hit : bool then Some true
      else key_loop key r rs (if has_text field then boffset + v else boffset)
  end.

Definition key_match (key : string) (r : audit_rule_data) : option bool :=
  if str_eq key "" then Some true else rs ← used_rows r; key_loop key r rs 0.

Definition watch_fields : list Z := [AUDIT_PERM; AUDIT_FILTERKEY; AUDIT_DIR; AUDIT_WATCH].

(** The lists whose rules have no system calls. *)
Definition no_syscalls (fl : Z) : bool :=
  let fl := Z.land fl AUDIT_FILTER_MASK in
  (fl =? AUDIT_FILTER_USER) || (fl =? AUDIT_FILTER_TASK) || (fl =? AUDIT_FILTER_EXCLUDE) || (fl =? AUDIT_FILTER_FS).

(** All system calls, but for the last word of the mask. *)
Definition mask_full (r : audit_rule_data) : bool := forallb (Z.eqb UINT32_MAX) (take 63 (mask r)).

Definition is_watch (r : audit_rule_data) : option bool :=
  rs ← used_rows r;
  let fs := field_of <$> rs.*1.*1 in
  Some (forallb (fun f => existsb (Z.eqb f) watch_fields) fs && existsb (Z.eqb AUDIT_PERM) fs &&
        (no_syscalls (flags r) || mask_full r)).

(** ** System calls *)

(** The machine and the text; [_audit_elf] becomes the value. *)
Definition print_arch (interpret : bool) (value op : Z) : Z * string :=
  let machine := audit_elf_to_machine value in
  (machine,
   if machine <? 0 then " -F arch" ++s symbol op ++s "0x" ++s show_hex true value
   else if negb interpret then
     if negb (Z.land AUDIT_ARCH_64BIT value =? 0) then " -F arch" ++s symbol op ++s "b64"
     else " -F arch" ++s symbol op ++s "b32"
   else " -F arch" ++s symbol op ++s show (audit_machine_to_name machine)).

Fixpoint join (sep : string) (ws : list string) : string :=
  match ws with
  | [] => ""
  | [w] => w
  | w :: ws => w ++s sep ++s join sep ws
  end.

Definition syscall_name (elf i : Z) : string :=
  let machine := if elf =? 0 then audit_detect_machine else audit_elf_to_machine elf in
  default (show_u i) (if machine <? 0 then None else audit_syscall_to_name i machine).

(** The system calls of the mask, from low to high. *)
Definition mask_syscalls (r : audit_rule_data) : list Z :=
  List.filter (has_syscall r) (Z.of_nat <$> seq 0 2048).

(** [count], [*sc] and the text. *)
Definition print_syscall (elf : Z) (r : audit_rule_data) (sc : Z) : Z * Z * string :=
  if no_syscalls (flags r) then (0, sc, "")
  else if mask_full r then (63, sc, " -S all")
  else
    let scs := mask_syscalls r in
    (Z.of_nat (length scs), List.last scs sc,
     if (length scs =? 0)%nat then "" else " -S " ++s join "," (syscall_name elf <$> scs)).

(** ** Fields *)

Definition cmp_names : list (Z * (string * string)) := [
  (AUDIT_COMPARE_UID_TO_OBJ_UID, ("uid", "obj_uid")); (AUDIT_COMPARE_GID_TO_OBJ_GID, ("gid", "obj_gid"));
  (AUDIT_COMPARE_EUID_TO_OBJ_UID, ("euid", "obj_uid")); (AUDIT_COMPARE_EGID_TO_OBJ_GID, ("egid", "obj_gid"));
  (AUDIT_COMPARE_AUID_TO_OBJ_UID, ("auid", "obj_uid")); (AUDIT_COMPARE_SUID_TO_OBJ_UID, ("suid", "obj_uid"));
  (AUDIT_COMPARE_SGID_TO_OBJ_GID, ("sgid", "obj_gid")); (AUDIT_COMPARE_FSUID_TO_OBJ_UID, ("fsuid", "obj_uid"));
  (AUDIT_COMPARE_FSGID_TO_OBJ_GID, ("fsgid", "obj_gid")); (AUDIT_COMPARE_UID_TO_AUID, ("uid", "auid"));
  (AUDIT_COMPARE_UID_TO_EUID, ("uid", "euid")); (AUDIT_COMPARE_UID_TO_FSUID, ("uid", "fsuid"));
  (AUDIT_COMPARE_UID_TO_SUID, ("uid", "suid")); (AUDIT_COMPARE_AUID_TO_FSUID, ("auid", "fsuid"));
  (AUDIT_COMPARE_AUID_TO_SUID, ("auid", "suid")); (AUDIT_COMPARE_AUID_TO_EUID, ("auid", "euid"));
  (AUDIT_COMPARE_EUID_TO_SUID, ("euid", "suid")); (AUDIT_COMPARE_EUID_TO_FSUID, ("euid", "fsuid"));
  (AUDIT_COMPARE_SUID_TO_FSUID, ("suid", "fsuid")); (AUDIT_COMPARE_GID_TO_EGID, ("gid", "egid"));
  (AUDIT_COMPARE_GID_TO_FSGID, ("gid", "fsgid")); (AUDIT_COMPARE_GID_TO_SGID, ("gid", "sgid"));
  (AUDIT_COMPARE_EGID_TO_FSGID, ("egid", "fsgid")); (AUDIT_COMPARE_EGID_TO_SGID, ("egid", "sgid"));
  (AUDIT_COMPARE_SGID_TO_FSGID, ("sgid", "fsgid"))].

Definition print_field_cmp (value op : Z) : string :=
  match case value cmp_names with
  | Some (a, b) => " -C " ++s a ++s symbol op ++s b
  | None => ""
  end.

(** The letters of the permissions. *)
Definition perm_letters (val : Z) : string :=
  (if Z.land val AUDIT_PERM_READ =? 0 then "" else "r") ++s
  (if Z.land val AUDIT_PERM_WRITE =? 0 then "" else "w") ++s
  (if Z.land val AUDIT_PERM_EXEC =? 0 then "" else "x") ++s
  (if Z.land val AUDIT_PERM_ATTR =? 0 then "" else "a").

(** The words between separators: strtok_r with one separator. *)
Fixpoint tokens_from (sep : ascii) (acc s : string) : list string :=
  match s with
  | EmptyString => if str_eq acc "" then [] else [acc]
  | String c s =>
      if c =c sep then (if str_eq acc "" then [] else [acc]) ++ tokens_from sep "" s
      else tokens_from sep (acc ++s String c "") s
  end.
Definition tokens (sep : ascii) (s : string) : list string := tokens_from sep "" s.

Definition KEY_SEP : ascii := chr 1.

Definition concat_all (ws : list string) : string := List.fold_right String.append "" ws.

(** What the loop over the fields keeps. *)
Record printing := Printing { boffset : Z; a0 : Z; a1 : Z }.

Definition AUDIT_SYSCALL : Z := 1300.
Definition ESC_TTY : Z := 1.

(** An argument of the only system call [sc], interpreted. *)
Definition interpret_arg (field value sc mch : Z) (name : string) (st : printing) : string :=
  let val := show_hex false value in
  let id := Nv.IData mch sc (a0 st) (a1 st) None name (Some val) in
  show (Nv.auparse_do_interpretation (Nv.auparse_interp_adjust_type AUDIT_SYSCALL name (Some val)) id ESC_TTY).

(** The text of a field that has a name, and what the loop keeps. *)
Definition print_named (interpret watch : bool) (r : audit_rule_data) (count sc mch : Z)
    (field op v : Z) (name : string) (st : printing) : option (string * printing) :=
  let option_ s := " -F " ++s name ++s symbol op ++s s in
  let text := text_at r (boffset st) v in
  let past := Printing (boffset st + v) (a0 st) (a1 st) in
  if field =? AUDIT_MSGTYPE then Some (option_ (default (show_d v) (audit_msg_type_to_name (to_int v))), st)
  else if (AUDIT_SUBJ_USER <=? field) && (field <=? AUDIT_OBJ_LEV_HIGH) && negb (field =? AUDIT_PPID) then
    t ← text; Some (option_ t, past)
  else if field =? AUDIT_WATCH then t ← text; Some ((if watch then "-w " else " -F path=") ++s t, past)
  else if field =? AUDIT_DIR then t ← text; Some ((if watch then "-w " else " -F dir=") ++s t, past)
  else if field =? AUDIT_EXE then t ← text; Some (" -F exe=" ++s t, past)
  else if field =? AUDIT_FILTERKEY then
    t ← text;
    Some (concat_all ((fun k => (if watch then " -k " else " -F key=") ++s k) <$> tokens KEY_SEP t), past)
  else if field =? AUDIT_PERM then Some ((if watch then " -p " else " -F perm=") ++s perm_letters v, st)
  else if field =? AUDIT_INODE then Some (option_ (show_u v), st)
  else if field =? AUDIT_FIELD_COMPARE then Some (print_field_cmp (to_int v) op, st)
  else if (AUDIT_ARG0 <=? field) && (field <=? AUDIT_ARG3) then
    let st := if field =? AUDIT_ARG0 then Printing (boffset st) v (a1 st)
              else if field =? AUDIT_ARG1 then Printing (boffset st) (a0 st) v else st in
    Some (option_ (if (1 <? count) || negb interpret then "0x" ++s show_hex true v
                   else interpret_arg field v sc mch name st), st)
  else if field =? AUDIT_EXIT then
    let e := Z.abs (to_int v) in
    Some (option_ (match audit_errno_to_name e with
                   | Some err => if to_int v <? 0 then "-" ++s err else show_d v
                   | None => show_d v
                   end), st)
  else if field =? AUDIT_FSTYPE then Some (option_ (default (show_d v) (audit_fstype_to_name (to_int v))), st)
  else Some (option_ (show_d v), st).

Definition print_field (interpret watch : bool) (r : audit_rule_data) (count sc mch : Z)
    (row : Z * Z * Z) (st : printing) : option (string * printing) :=
  let '(f, o, v) := row in
  let op := op_of o in
  let field := field_of f in
  if field =? AUDIT_ARCH then Some ("", st)
  else match audit_field_to_name field with
       | Some name => print_named interpret watch r count sc mch field op v name st
       | None => Some (" f" ++s show_d f ++s symbol op ++s show_d v, st)
       end.

Fixpoint print_fields (interpret watch : bool) (r : audit_rule_data) (count sc mch : Z)
    (rs : list (Z * Z * Z)) (st : printing) : option string :=
  match rs with
  | [] => Some ""
  | row :: rs =>
      '(t, st) ← print_field interpret watch r count sc mch row st;
      ts ← print_fields interpret watch r count sc mch rs st;
      Some (t ++s ts)
  end.

(** The loop over the arch fields: the machine, [_audit_elf] and the text. *)
Fixpoint print_archs (interpret : bool) (rs : list (Z * Z * Z)) (mch elf : Z) : Z * Z * string :=
  match rs with
  | [] => (mch, elf, "")
  | (f, o, v) :: rs =>
      if field_of f =? AUDIT_ARCH then
        let (m, t) := print_arch interpret v (op_of o) in
        let '(mch, elf, ts) := print_archs interpret rs m v in (mch, elf, t ++s ts)
      else print_archs interpret rs mch elf
  end.

(** The line without its newline, and [_audit_elf]. *)
Definition print_rule (interpret : bool) (r : audit_rule_data) (elf : Z) : option (string * Z) :=
  watch ← is_watch r;
  rs ← used_rows r;
  if watch : bool then
    t ← print_fields interpret true r 0 0 (-1) rs (Printing 0 0 0);
    Some (t, elf)
  else
    let head := "-a " ++s show (audit_action_to_name (to_int (action r))) ++s "," ++s show (audit_flag_to_name (flags r)) in
    let '(mch, elf, archs) := print_archs interpret rs (-1) elf in
    let '(count, sc, scs) := print_syscall elf r 0 in
    t ← print_fields interpret false r count sc mch rs (Printing 0 0 0);
    Some (head ++s archs ++s scs ++s t, elf).

(** ** The list and the replies *)

Definition llist := clist audit_rule_data.

Definition list_create : llist := cl_create.
Definition list_first (l : llist) : llist := cl_first l.
Definition list_last (l : llist) : llist := cl_last l.
Definition list_next (l : llist) : llist := cl_next l.
Definition list_append (r : audit_rule_data) (l : llist) : option llist :=
  match nodes l with [] => Some (cl_link_head r l) | _ => cl_link_cur r l end.
Definition list_clear (l : llist) : llist := CList [] None 0.

(** The loop of NLMSG_DONE from the cursor on: the lines. *)
Fixpoint print_list (fuel : nat) (interpret : bool) (l : llist) (elf : Z) : option (list string * Z) :=
  match fuel with
  | O => None
  | S fuel =>
      match cl_get_cur l with
      | None => Some ([], elf)
      | Some r =>
          '(t, elf) ← print_rule interpret r elf;
          '(ts, elf) ← print_list fuel interpret (list_next l) elf;
          Some (t :: ts, elf)
      end
  end.

(** A reply of the kernel: a rule, that there is no more, or another one, of which
    only what it does to the listing is modelled. *)
Inductive reply := AUDIT_LIST_RULES (r : audit_rule_data) | NLMSG_DONE | NLMSG_NOOP | Other_reply.

(** [printed], the list, and [_audit_elf]. *)
Record state := State { printed : bool; l : llist; list_elf : Z }.

Definition audit_print_init : state := State false list_create 0.

(** Whether more is to be read, and the lines that are printed. *)
Definition audit_print_reply (interpret : bool) (key : string) (rep : reply) (st : state)
    : option (bool * list string * state) :=
  match rep with
  | NLMSG_NOOP => Some (true, [], State (printed st) (l st) 0)
  | Other_reply => Some (false, [], State true (l st) 0)
  | NLMSG_DONE =>
      if negb (printed st) then Some (false, ["No rules"], State (printed st) (l st) 0)
      else
        let lst := list_first (l st) in
        '(ts, elf) ← print_list (S (length (nodes lst))) interpret lst 0;
        Some (false, ts, State (printed st) (list_clear lst) elf)
  | AUDIT_LIST_RULES r =>
      m ← key_match key r;
      lst ← (if m : bool then list_append r (l st) else Some (l st));
      Some (true, [], State true lst 0)
  end.

End listing.

End RuleList.
