(* ===== verification/Getopt.v ===== *)
(** * getopt_long() of the C library

    The options of a command line, as glibc hands them out: arguments that are no
    options are moved behind the options, options of one letter can be written
    together and with their argument, and long options can be cut while they stay
    unique.  POSIXLY_CORRECT is not set and opterr is 0. *)
From S2P Require Import Prelude CString.

Local Open Scope audit_scope.

Module Getopt.

(** An option of one letter and whether it takes an argument, and a long option
    with the value it returns. *)
Record long_option := LongOption { lname : string; has_arg : bool; lval : Z }.
Record options := Options { short : list (ascii * bool); longs : list long_option }.

(** optind, the rest of the current argument, and the range of arguments that
    were skipped; [argv] is permuted. *)
Record state := State {
  argv : list string;
  optind : nat;
  nextchar : string;
  first_nonopt : nat;
  last_nonopt : nat;
}.

(** With optind set to 0. *)
Definition init (args : list string) : state := State args 1 EmptyString 1 1.

Inductive result :=
  | EOF
  | Bad                                            (* '?' *)
  | Short (c : ascii) (optarg : option string)
  | Long (lidx : nat) (val : Z) (optarg : option string).

Definition arg (st : state) (i : nat) : option string := argv st !! i.
Definition argc (st : state) : nat := length (argv st).

Definition nonoption (a : string) : bool := negb (char_at a =c "-"%char) || str_eq (skip 1 a) "".

(** Move the skipped arguments behind the options that follow them. *)
Definition exchange (st : state) : state :=
  let a := argv st in
  let f := first_nonopt st in let m := last_nonopt st in let t := optind st in
  State (take f a ++ take (t - m) (drop m a) ++ take (m - f) (drop f a) ++ drop t a)
    t (nextchar st) (f + (t - m)) t.

Fixpoint skip_nonoptions (args : list string) (i : nat) : nat :=
  match args with
  | a :: args => if nonoption a then skip_nonoptions args (S i) else i
  | [] => i
  end.

(** Go to the next argument that is an option. *)
Definition advance (st : state) : state :=
  let st := State (argv st) (optind st) (nextchar st)
              (Nat.min (first_nonopt st) (optind st)) (Nat.min (last_nonopt st) (optind st)) in
  let st :=
    if negb (first_nonopt st =? last_nonopt st)%nat && negb (last_nonopt st =? optind st)%nat then exchange st
    else if negb (last_nonopt st =? optind st)%nat
         then State (argv st) (optind st) (nextchar st) (optind st) (last_nonopt st)
         else st in
  let i := skip_nonoptions (drop (optind st) (argv st)) (optind st) in
  State (argv st) i (nextchar st) (first_nonopt st) i.

Definition longs_with (p : string) (os : list long_option) : list (nat * long_option) :=
  List.filter (fun x => starts_with p (lname x.2)) (zip (seq 0 (length os)) os).

(** The long option that a name stands for. *)
Definition find_long (os : list long_option) (n : string) : option (nat * long_option) :=
  match List.find (fun x => str_eq n (lname x.2)) (zip (seq 0 (length os)) os) with
  | Some x => Some x
  | None => match longs_with n os with [x] => Some x | _ => None end
  end.

Definition process_long (os : options) (st : state) (text : string) : result * state :=
  let (n, rest) := span (fun c => negb (c =c "="%char)) text in
  let next i := State (argv st) i EmptyString (first_nonopt st) (last_nonopt st) in
  match find_long (longs os) n with
  | None => (Bad, next (S (optind st)))
  | Some (i, o) =>
      match rest with
      | String _ value =>
          if has_arg o then (Long i (lval o) (Some value), next (S (optind st))) else (Bad, next (S (optind st)))
      | EmptyString =>
          if has_arg o then
            match arg st (S (optind st)) with
            | Some a => (Long i (lval o) (Some a), next (S (S (optind st))))
            | None => (Bad, next (S (optind st)))
            end
          else (Long i (lval o) None, next (S (optind st)))
      end
  end.

(** The next letter of the current argument [text]. *)
Definition process_short (os : options) (st : state) (text : string) : result * state :=
  let next i s := State (argv st) i s (first_nonopt st) (last_nonopt st) in
  match text with
  | EmptyString => (Bad, st)
  | String c rest =>
      let i := if str_eq rest "" then S (optind st) else optind st in
      match List.find (fun o => o.1 =c c) (short os) with
      | None => (Bad, next i rest)
      | Some (_, false) => (Short c None, next i rest)
      | Some (_, true) =>
          if negb (str_eq rest "") then (Short c (Some rest), next (S (optind st)) EmptyString)
          else match arg st i with
               | Some a => (Short c (Some a), next (S i) EmptyString)
               | None => (Bad, next i EmptyString)
               end
      end
  end.

Definition getopt_long (os : options) (st : state) : result * state :=
  if negb (str_eq (nextchar st) "") then process_short os st (nextchar st)
  else
    let st := advance st in
    match arg st (optind st) with
    | None =>
        (EOF, if (first_nonopt st =? last_nonopt st)%nat then st
              else State (argv st) (first_nonopt st) (nextchar st) (first_nonopt st) (last_nonopt st))
    | Some a =>
        if str_eq a "--" then
          let st := State (argv st) (S (optind st)) (nextchar st) (first_nonopt st) (last_nonopt st) in
          let st := if negb (first_nonopt st =? last_nonopt st)%nat && negb (last_nonopt st =? optind st)%nat
                    then exchange st
                    else if (first_nonopt st =? last_nonopt st)%nat
                         then State (argv st) (optind st) (nextchar st) (optind st) (last_nonopt st)
                         else st in
          (EOF, State (argv st) (if (first_nonopt st =? argc st)%nat then argc st else first_nonopt st)
                  (nextchar st) (first_nonopt st) (argc st))
        else if starts_with "--" a then process_long os st (skip 2 a)
        else process_short os st (skip 1 a)
    end.

(** ** Facts *)

(** Where no argument was skipped the next one is looked at. *)
Lemma advance_at args i k s : (k <= i)%nat -> match args !! i with Some a => nonoption a = false | None => True end ->
  advance (State args i s k k) = State args i s i i.
Proof.
  intros Hk Ha. unfold advance. cbn. rewrite !Nat.min_l, Nat.eqb_refl by done. cbn.
  assert (Hs : skip_nonoptions (drop i args) i = i).
  { destruct (args !! i) as [a|] eqn:E.
    - erewrite drop_S by done. cbn. by rewrite Ha.
    - apply lookup_ge_None in E. by rewrite drop_ge. }
  destruct (Nat.eqb_spec k i) as [->|]; cbn; by rewrite Hs.
Qed.

(** A letter and its argument. *)
Lemma getopt_letter os c a args i k :
  List.find (fun o => o.1 =c c) (short os) = Some (c, true) -> c <> "-"%char -> (k <= i)%nat ->
  args !! i = Some (String "-" (String c "")) -> args !! S i = Some a ->
  getopt_long os (State args i "" k k) = (Short c (Some a), State args (S (S i)) "" i i).
Proof.
  intros Hf Hc Hk Hi Ha. unfold getopt_long. cbn [nextchar str_eq String.eqb negb].
  rewrite advance_at by (rewrite ?Hi; done). unfold arg. cbn [optind argv]. rewrite Hi.
  assert (H1 : (c =c "-"%char) = false) by (by apply Ascii.eqb_neq).
  assert (H2 : ("-"%char =c c) = false) by (apply Ascii.eqb_neq; by apply not_eq_sym).
  assert (str_eq (String "-" (String c "")) "--" = false) as ->
    by (unfold str_eq; cbn [String.eqb]; rewrite H1; done).
  assert (starts_with "--" (String "-" (String c "")) = false) as ->
    by (cbn [starts_with]; rewrite H2; done).
  unfold process_short. cbn. rewrite Hf. unfold arg. cbn. by rewrite Ha.
Qed.

Lemma getopt_end os args k : (k <= length args)%nat ->
  getopt_long os (State args (length args) "" k k) = (EOF, State args (length args) "" (length args) (length args)).
Proof.
  intros Hk. unfold getopt_long. cbn [nextchar str_eq String.eqb negb].
  assert (Hn : args !! length args = None) by (by apply lookup_ge_None).
  rewrite advance_at by (rewrite ?Hn; done). unfold arg. cbn. rewrite Hn, Nat.eqb_refl. done.
Qed.

End Getopt.
