(* ===== verification/Auditctl.v ===== *)
(** * Options of auditctl (src/src/auditctl.c)

    auditctl reads options from its command line or from the lines of a file of
    rules, builds a rule from them and sends it to the kernel.  The static
    variables are the record [ctl].  What the program asks of the kernel is a
    list of requests, and the class [Kernel] says what a request returns after
    those before it.  The program is taken as built with all features that the
    preprocessor asks for.  [None] is an access through a null pointer or outside
    of an array, where the C program has no defined result; messages are not
    modelled. *)
From S2P Require Import Prelude CString StrSplit Config Lol Ellist Lookup Rule RuleFacts RuleList Getopt.

Local Open Scope audit_scope.

Module Auditctl.
Export Rule.
Import RuleList.

Local Open Scope string_scope.
Local Open Scope Z_scope.

Inductive request :=
  | SetEnabled (n : Z) | SetFailure (n : Z) | SetRateLimit (n : Z) | SetBacklogLimit (n : Z)
  | SetBacklogWaitTime (n : Z) | RequestStatus | ReportStatus (interpret : bool) | ListRules (interpret : bool) (key : string)
  | DeleteAll (key : string) | UserMessage (text : string) | MakeEquivalent (mount_point subtree : string)
  | TrimSubtrees | LoginuidImmutable | ResetLost | ResetWaitTimeActual | Signal (name : string)
  | AddRule (r : audit_rule_data) | DeleteRule (r : audit_rule_data).

Class Kernel := {
  (** The return value of the function that makes the request. *)
  answer : list request -> request -> Z;
  (** Whether errno is EINVAL after it. *)
  einval : list request -> request -> bool;
  (** Whether errno is ECONNREFUSED after these requests. *)
  econnrefused : list request -> bool;
  (** stat() and S_ISDIR of a path. *)
  is_dir : string -> bool;
}.

Record ctl := Ctl {
  g : globals;
  add : Z;
  del : Z;
  act : Z;
  exclude : bool;
  multiple : Z;
  rule_new : option audit_rule_data;
  key : string;
  keylen : Z;
  list_requested : bool;
  interpret : bool;
  ignore : bool;
  continue_error : Z;
  sent : list request;
}.

Definition set_g (x : globals) (c : ctl) : ctl :=
  Ctl x (add c) (del c) (act c) (exclude c) (multiple c) (rule_new c) (key c) (keylen c) (list_requested c)
    (interpret c) (ignore c) (continue_error c) (sent c).
Definition set_lists (a d ac : Z) (ex : bool) (m : Z) (c : ctl) : ctl :=
  Ctl (g c) a d ac ex m (rule_new c) (key c) (keylen c) (list_requested c)
    (interpret c) (ignore c) (continue_error c) (sent c).
Definition set_rule (x : globals) (r : option audit_rule_data) (c : ctl) : ctl :=
  Ctl x (add c) (del c) (act c) (exclude c) (multiple c) r (key c) (keylen c) (list_requested c)
    (interpret c) (ignore c) (continue_error c) (sent c).
Definition set_key (k : string) (n : Z) (c : ctl) : ctl :=
  Ctl (g c) (add c) (del c) (act c) (exclude c) (multiple c) (rule_new c) k n (list_requested c)
    (interpret c) (ignore c) (continue_error c) (sent c).
Definition set_modes (lr i ig : bool) (ce : Z) (c : ctl) : ctl :=
  Ctl (g c) (add c) (del c) (act c) (exclude c) (multiple c) (rule_new c) (key c) (keylen c) lr i ig ce (sent c).
Definition send (q : request) (c : ctl) : ctl :=
  Ctl (g c) (add c) (del c) (act c) (exclude c) (multiple c) (rule_new c) (key c) (keylen c) (list_requested c)
    (interpret c) (ignore c) (continue_error c) (sent c ++ [q]).

Section auditctl.
Context {tabs : Tables} {mach : Machine} {kernel : Kernel} (junk : ascii).

(** The result of a request. *)
Definition ask (q : request) (c : ctl) : Z * ctl := (answer (sent c) q, send q c).

Definition no_globals : globals := Globals false false false false false 0.

(** The netlink socket can be opened. *)
Definition reset_vars (c : ctl) : ctl :=
  Ctl no_globals AUDIT_FILTER_UNSET AUDIT_FILTER_UNSET (-1) false 0 (Some audit_rule_init_data) (key c) (keylen c)
    false (interpret c) (ignore c) (continue_error c) (sent c).

(** ** Lists and actions *)

Definition filters : list (string * Z) := [
  ("task", AUDIT_FILTER_TASK); ("exit", AUDIT_FILTER_EXIT); ("user", AUDIT_FILTER_USER);
  ("filesystem", AUDIT_FILTER_FS); ("exclude", AUDIT_FILTER_EXCLUDE)].

(** The list of a name; [None] for the return of 2. *)
Definition lookup_filter (str : string) : option Z := snd <$> List.find (fun row => str_eq str row.1) filters.

(** The action of a name, or the return of 1 or 2. *)
Definition lookup_action (str : string) : Z + Z :=
  if str_eq str "never" then inr AUDIT_NEVER
  else if str_eq str "possible" then inl 1
  else if str_eq str "always" then inr AUDIT_ALWAYS
  else inl 2.

(** Set the list, and [exclude] for that one. *)
Definition with_filter (filter : Z) (x : Z * Z * bool) : Z * Z * bool :=
  (filter, x.1.2, (filter =? AUDIT_FILTER_EXCLUDE) || x.2).

(** The result, [*filter], [*act] and [exclude]; [multiple] is counted by the
    caller. *)
Definition rule_setup (opt : string) (filter act_ : Z) (excl : bool) : Z * (Z * Z * bool) :=
  let x := (filter, act_, excl) in
  match split_at "," opt with
  | None => (2, x)
  | Some (a, b) =>
      match strchr b ","%char with
      | Some _ => (2, x)
      | None =>
          match lookup_filter a, lookup_action a with
          | None, inl rc => (rc, x)
          | fa, aa =>
              let x := match fa, aa with
                       | Some f, _ => with_filter f x
                       | None, inr ac => (filter, ac, excl)
                       | None, inl _ => x
                       end in
              let '(rc, x) :=
                if x.1.1 =? AUDIT_FILTER_UNSET then
                  (0, match lookup_filter b with Some f => with_filter f x | None => x end)
                else match lookup_action b with
                     | inl rc => (rc, x)
                     | inr ac => (0, (x.1.1, ac, x.2))
                     end in
              if negb (rc =? 0) then (rc, x)
              else if (x.1.1 =? AUDIT_FILTER_UNSET) || (x.1.2 =? -1) then (2, x)
              else (0, x)
          end
      end
  end.

(** For [add] or, with [deleting], for [del]. *)
Definition audit_rule_setup (opt : string) (deleting : bool) (c : ctl) : Z * ctl :=
  let m := multiple c + 1 in
  if negb (m =? 1) then (3, set_lists (add c) (del c) (act c) (exclude c) m c)
  else
    let '(rc, (f, ac, ex)) := rule_setup opt (if deleting then del c else add c) (act c) (exclude c) in
    (rc, if deleting then set_lists (add c) f ac ex m c else set_lists f (del c) ac ex m c).

(** ** Watches *)

Definition NAME_MAX : Z := 255.

(** Whether the path is accepted. *)
Definition check_path (path : string) : bool :=
  if PATH_MAX <=? Z.of_nat (String.length path) then false
  else if negb (char_at path =c "/"%char) then false
  else Z.of_nat (String.length (Config.basename path).1) <=? NAME_MAX.

(** Without the slashes at the end. *)
Definition trim_slashes (path : string) : string :=
  let rev := Config.rev_chars path in
  if (2 <? String.length path)%nat && (match rev with c :: _ => c =c "/"%char | [] => false end)
  then match Config.drop_while Config.slash rev with
       | [] => "/"
       | r => Config.unrev r
       end
  else path.

Definition audit_setup_watch_name (path : string) (c : ctl) : option (Z * ctl) :=
  if negb (check_path path) then Some (-1, c)
  else
    let path := trim_slashes path in
    '(rc, x, r) ← audit_add_watch_dir (if is_dir path then AUDIT_DIR else AUDIT_WATCH) path (g c) (rule_new c);
    Some (if rc =? 0 then 1 else -1, set_rule x r c).

Definition audit_setup_perms (opt : string) (c : ctl) : option (Z * ctl) :=
  if 4 <? Z.of_nat (String.length opt) then Some (-1, c)
  else match perm_bits 0 opt with
       | None => Some (-1, c)
       | Some val =>
           r ← rule_new c;
           '(rc, r) ← audit_update_watch_perms val r;
           let c := set_rule (g c) (Some r) c in
           Some (if rc =? 0 then (1, set_g (set_permadded (g c)) c) else (-1, c))
       end.

Definition equiv_parse (optarg : string) : option (string * string) :=
  match split_at "," optarg with
  | None => None
  | Some (mp, sub) => if str_eq sub "" then None else match strchr sub ","%char with Some _ => None | None => Some (mp, sub) end
  end.

(** ** System calls *)

Fixpoint syscall_loop (names : list string) (x : globals) (r : audit_rule_data) : option (Z * audit_rule_data) :=
  match names with
  | [] => Some (0, r)
  | n :: names =>
      '(rc, r) ← audit_rule_syscallbyname_data n x r;
      if negb (rc =? 0) then Some (if rc =? -1 then -3 else rc, r) else syscall_loop names x r
  end.

Definition parse_syscall (optarg : string) (c : ctl) : option (Z * ctl) :=
  r ← rule_new c;
  '(rc, r) ← (match strchr optarg ","%char with
              | Some _ => syscall_loop (tokens ","%char optarg) (g c) r
              | None => audit_rule_syscallbyname_data optarg (g c) r
              end);
  Some (rc, set_rule (g c) (Some r) c).

(** ** The options *)

(** The end of a branch of the switch with retval, or a return. *)
Inductive flow :=
  | Go (retval : Z) (count : nat) (c : ctl)
  | Return (retval : Z) (c : ctl).

Definition options : Getopt.options :=
  Getopt.Options
    (((fun c => (c, false)) <$> String.list_ascii_of_string "hicslDvt") ++
     ((fun c => (c, true)) <$> String.list_ascii_of_string "CefrbaAdSFmRwWkpq"))
    [Getopt.LongOption "loginuid-immutable" false 1; Getopt.LongOption "backlog_wait_time" true 2;
     Getopt.LongOption "reset-lost" false 3; Getopt.LongOption "reset_backlog_wait_time_actual" false 4;
     Getopt.LongOption "signal" true 5].

(** The list that a field is for. *)
Definition list_flags (c : ctl) (unset : Z) : Z :=
  if negb (add c =? AUDIT_FILTER_UNSET) then Z.land (add c) AUDIT_FILTER_MASK
  else if negb (del c =? AUDIT_FILTER_UNSET) then Z.land (del c) AUDIT_FILTER_MASK
  else unset.

(** The last field of the rule. *)
Definition last_field (r : audit_rule_data) : option Z := get (field_count r - 1) (fields r).

(** The label process_keys. *)
Definition process_keys (optarg : string) (c : ctl) : bool * ctl :=
  let sep := if str_eq (key c) "" then 0 else 1 in
  if AUDIT_MAX_KEY_LEN <? Z.of_nat (String.length optarg) + Z.of_nat (String.length (key c)) + sep then (false, c)
  else
    let k := if str_eq (key c) "" then key c else key c ++s String KEY_SEP "" in
    let n := if str_eq (key c) "" then keylen c else keylen c - 1 in
    let k := k ++s prefix_of (Z.to_nat n) optarg in
    (true, set_key k (AUDIT_MAX_KEY_LEN - Z.of_nat (String.length k)) c).

(** Set a number of the kernel and ask for the status. *)
Definition set_number (q : request) (retval : Z) (count : nat) (c : ctl) : flow :=
  let (rc, c) := ask q c in
  if 0 <? rc then Go retval count (ask RequestStatus c).2 else Return (-1) c.

Definition zero_to_two (s : string) : bool := str_eq s "0" || str_eq s "1" || str_eq s "2".

Definition opt_e (optarg : string) (retval : Z) (count : nat) (c : ctl) : flow :=
  if zero_to_two optarg then
    let (rc, c) := ask (SetEnabled (strtoul0 optarg).1) c in
    if 0 <? rc then Go retval count (ask RequestStatus c).2 else Go (-1) count c
  else Go (-1) count c.
Definition opt_f (optarg : string) (retval : Z) (count : nat) (c : ctl) : flow :=
  if zero_to_two optarg then set_number (SetFailure (strtoul0 optarg).1) retval count c else Go (-1) count c.
Definition opt_number (q : Z -> request) (optarg : string) (retval : Z) (count : nat) (c : ctl) : flow :=
  if numeric optarg then
    let (n, erange) := strtoul0 optarg in
    if erange then Return (-1) c else set_number (q (u32 n)) retval count c
  else Go (-1) count c.

(** [vars] is the permuted array with [count] arguments, NULL behind them. *)
Definition opt_s (optind : nat) (vars : list string) (count : nat) (c : ctl) : option flow :=
  if (3 <? count)%nat then Some (Go (-1) count c)
  else if (optind =? 2)%nat && (count =? 3)%nat then
    a ← vars !! optind;
    if str_eq a "-i" then
      let c := set_modes (list_requested c) true (ignore c) (continue_error c) c in
      let (rc, c) := ask (ReportStatus (interpret c)) c in Some (Go rc (count - 1) c)
    else Some (Go (-1) count c)
  else let (rc, c) := ask (ReportStatus (interpret c)) c in Some (Go rc count c).

Definition request_list (count : nat) (c : ctl) : flow :=
  let (rc, c) := ask (ListRules (interpret c) (key c)) c in
  if negb (rc =? 0) then Go (-2) count (set_modes true (interpret c) (ignore c) (continue_error c) c) else Go (-1) count c.

Definition opt_l (optind : nat) (vars : list string) (count : nat) (c : ctl) : option flow :=
  if (4 <? count)%nat then Some (Go (-1) count c)
  else if (count =? 3)%nat then
    a ← vars !! optind;
    if str_eq a "-i" then Some (request_list (count - 1) (set_modes (list_requested c) true (ignore c) (continue_error c) c))
    else Some (Go (-1) count c)
  else if (count =? 4)%nat then
    match vars !! optind with
    | Some a =>
        if str_eq a "-k" then
          k ← vars !! 3%nat;
          Some (request_list (count - 2) (set_key (key c ++s prefix_of (Z.to_nat (keylen c)) k) (keylen c) c))
        else Some (Go (-1) count c)
    | None => Some (Go (-1) count c)
    end
  else Some (request_list count c).

(** delete_all_rules() and, on success, the request for what is left. *)
Definition request_delete (count : nat) (c : ctl) : flow :=
  let (rc, c) := ask (DeleteAll (key c)) c in
  if rc =? 0 then
    let (rc, c) := ask (ListRules (interpret c) (key c)) c in
    let c := if negb (rc =? 0) then set_modes true (interpret c) (ignore c) (continue_error c) c else c in
    Go (-2) count (set_key "" (keylen c) c)
  else Go rc count c.

Definition opt_D (optind : nat) (vars : list string) (count : nat) (c : ctl) : option flow :=
  if (4 <? count)%nat || (count =? 3)%nat then Some (Go (-1) count c)
  else if (count =? 4)%nat then
    a ← vars !! optind;
    if str_eq a "-k" then
      k ← vars !! 3%nat;
      Some (request_delete (count - 2) (set_key (key c ++s prefix_of (Z.to_nat (keylen c)) k) (keylen c) c))
    else Some (Go (-1) count c)
  else Some (request_delete count c).

Definition opt_a (optarg : string) (prepend : bool) (count : nat) (c : ctl) : flow :=
  if strstr optarg "task" && syscalladded (g c) then Go (-1) count c
  else
    let (rc, c) := audit_rule_setup optarg false c in
    if (rc =? 3) || (rc =? 2) then Go (-1) count c
    else if rc =? 1 then Return (-3) c
    else Go 1 count (if prepend then set_lists (Z.lor (add c) AUDIT_FILTER_PREPEND) (del c) (act c) (exclude c) (multiple c) c else c).

Definition opt_d (optarg : string) (count : nat) (c : ctl) : flow :=
  let (rc, c) := audit_rule_setup optarg true c in
  if (rc =? 3) || (rc =? 2) then Go (-1) count c
  else if rc =? 1 then Return (-3) c
  else Go 1 count c.

(** Whether [add] or [del] is the list. *)
Definition on_list (l : Z) (c : ctl) : bool :=
  let m := Z.lor AUDIT_FILTER_MASK AUDIT_FILTER_UNSET in
  (Z.land (add c) m =? l) || (Z.land (del c) m =? l).

(** The processor of this machine, when none was given. *)
Definition detect_elf (c : ctl) : option ctl :=
  if elf (g c) =? 0 then
    let machine := audit_detect_machine in
    if machine <? 0 then None
    else let e := audit_machine_to_elf machine in if e =? 0 then None else Some (set_g (set_elf e (g c)) c)
  else Some c.

Definition opt_S (optarg : string) (retval : Z) (count : nat) (c : ctl) : option flow :=
  if on_list AUDIT_FILTER_TASK c || on_list AUDIT_FILTER_USER c || on_list AUDIT_FILTER_FS c || exclude c
  then Some (Return (-1) c)
  else match detect_elf c with
       | None => Some (Return (-1) c)
       | Some c =>
           '(rc, c) ← parse_syscall optarg c;
           Some (if rc =? 0 then Go retval count (set_g (set_syscalladded (g c)) c) else Go (-1) count c)
       end.

Definition opt_k (optarg : string) (retval : Z) (count : nat) (c : ctl) : flow :=
  let (ok, c) := process_keys optarg c in Go (if ok then retval else -1) count c.

Definition opt_F (optarg : string) (optind : nat) (vars : list string) (retval : Z) (count : nat) (c : ctl) : option flow :=
  let given := negb (add c =? AUDIT_FILTER_UNSET) || negb (del c =? AUDIT_FILTER_UNSET) in
  if negb given &&
     (match vars !! optind with
      | None => true
      | Some a => (count <=? optind)%nat || negb (strstr optarg "arch=") || negb (str_eq a "-t")
      end)
  then Some (Go (-1) count c)
  else if starts_with "key=" optarg then Some (opt_k (skip 4 optarg) retval count c)
  else
    r ← rule_new c;
    '(rc, x, r) ← audit_rule_fieldpair_data junk (Some optarg) (list_flags c AUDIT_FILTER_UNSET) (g c) r;
    let c := set_rule x r c in
    if negb (rc =? 0) then Some (Go (-1) count c)
    else
      r ← r;
      f ← last_field r;
      let x := if f =? AUDIT_PERM then set_permadded x else x in
      let x := if f =? AUDIT_EXE then set_exeadded x else x in
      Some (Go retval count (set_g x c)).

Definition opt_C (optarg : string) (retval : Z) (count : nat) (c : ctl) : option flow :=
  r ← rule_new c;
  '(rc, r) ← audit_rule_interfield_comp_data (Some optarg) (list_flags c AUDIT_FILTER_UNSET) r;
  let c := set_rule (g c) (Some r) c in
  if negb (rc =? 0) then Some (Go (-1) count c)
  else
    f ← last_field r;
    Some (Go retval count (if f =? AUDIT_PERM then set_g (set_permadded (g c)) c else c)).

(** A character of less than 32, as a signed char. *)
Definition control (c : ascii) : bool := (code c <? 32) || (127 <? code c).

Definition opt_m (optarg : string) (count : nat) (c : ctl) : flow :=
  if (3 <? count)%nat then Go (-1) count c
  else if existsb control (String.list_ascii_of_string optarg) then Return (-1) c
  else let (rc, c) := ask (UserMessage ("text=" ++s optarg)) c in
       if rc <=? 0 then Go (-1) count c else Return (-2) c.

Definition opt_w (optarg : string) (deleting : bool) (count : nat) (c : ctl) : option flow :=
  if negb deleting && (negb (add c =? AUDIT_FILTER_UNSET) || negb (del c =? AUDIT_FILTER_UNSET)) then Some (Go (-1) count c)
  else
    let c := if deleting then set_lists (add c) AUDIT_FILTER_EXIT AUDIT_ALWAYS (exclude c) (multiple c) c
             else set_lists AUDIT_FILTER_EXIT (del c) AUDIT_ALWAYS (exclude c) (multiple c) c in
    let c := set_g (set_syscalladded (g c)) c in
    '(rc, c) ← audit_setup_watch_name optarg c;
    Some (Go rc count c).

Definition opt_k_checked (optarg : string) (retval : Z) (count : nat) (c : ctl) : flow :=
  if negb (syscalladded (g c) || permadded (g c) || exeadded (g c) || filterfsadded (g c)) ||
     ((add c =? AUDIT_FILTER_UNSET) && (del c =? AUDIT_FILTER_UNSET))
  then Go (-1) count c else opt_k optarg retval count c.

Definition opt_p (optarg : string) (count : nat) (c : ctl) : option flow :=
  if (add c =? 0) && (del c =? 0) then Some (Go (-1) count c)
  else '(rc, c) ← audit_setup_perms optarg c; Some (Go rc count c).

Definition opt_q (optarg : string) (count : nat) (c : ctl) : flow :=
  if syscalladded (g c) then Go (-1) count c
  else match equiv_parse optarg with
       | None => Go (-1) count c
       | Some (mp, sub) => let (rc, c) := ask (MakeEquivalent mp sub) c in if rc <=? 0 then Go (-1) count c else Return (-2) c
       end.

(** A request without a reply. *)
Definition simple (q : request) (count : nat) (c : ctl) : flow :=
  let (rc, c) := ask q c in if rc <=? 0 then Go (-1) count c else Return (-2) c.
Definition reset_counter (q : request) (count : nat) (c : ctl) : flow :=
  let (rc, c) := ask q c in if 0 <=? rc then Return (-2) c else Go (-1) count c.

Definition opt_signal (optarg : string) (count : nat) (c : ctl) : flow :=
  if existsb (Config.strcaseeq optarg) ["TERM"; "HUP"; "USR1"; "USR2"; "CONT"]
  then let (rc, c) := ask (Signal optarg) c in Go rc count c
  else Go (-1) count c.

(** An option of one letter with the argument [a]. *)
Definition do_short (o : ascii) (a : string) (optind : nat) (vars : list string) (retval : Z) (count : nat) (c : ctl)
    : option flow :=
  let set_ignore ce := set_modes (list_requested c) (interpret c) true ce c in
  if o =c "h"%char then Some (Go (-1) count c)
  else if o =c "i"%char then Some (Go (-2) count (set_ignore (continue_error c)))
  else if o =c "c"%char then Some (Go (-2) count (set_ignore 1))
  else if o =c "s"%char then opt_s optind vars count c
  else if o =c "e"%char then Some (opt_e a retval count c)
  else if o =c "f"%char then Some (opt_f a retval count c)
  else if o =c "r"%char then Some (opt_number SetRateLimit a retval count c)
  else if o =c "b"%char then Some (opt_number SetBacklogLimit a retval count c)
  else if o =c "l"%char then opt_l optind vars count c
  else if o =c "a"%char then Some (opt_a a false count c)
  else if o =c "A"%char then Some (opt_a a true count c)
  else if o =c "d"%char then Some (opt_d a count c)
  else if o =c "S"%char then opt_S a retval count c
  else if o =c "F"%char then opt_F a optind vars retval count c
  else if o =c "C"%char then opt_C a retval count c
  else if o =c "m"%char then Some (opt_m a count c)
  else if o =c "R"%char then Some (Go (-1) count c)
  else if o =c "D"%char then opt_D optind vars count c
  else if o =c "w"%char then opt_w a false count c
  else if o =c "W"%char then opt_w a true count c
  else if o =c "k"%char then Some (opt_k_checked a retval count c)
  else if o =c "p"%char then opt_p a count c
  else if o =c "q"%char then Some (opt_q a count c)
  else if o =c "t"%char then Some (simple TrimSubtrees count c)
  else if o =c "v"%char then Some (Go (-2) count c)
  else Some (Go (-1) count c).

Definition do_option (r : Getopt.result) (optind : nat) (vars : list string) (retval : Z) (count : nat) (c : ctl)
    : option flow :=
  match r with
  | Getopt.EOF | Getopt.Bad => Some (Go (-1) count c)
  | Getopt.Short o a => do_short o (default "" a) optind vars retval count c
  | Getopt.Long _ v a =>
      if v =? 1 then Some (simple LoginuidImmutable count c)
      else if v =? 2 then Some (opt_number SetBacklogWaitTime (default "" a) retval count c)
      else if v =? 3 then Some (reset_counter ResetLost count c)
      else if v =? 4 then Some (reset_counter ResetWaitTimeActual count c)
      else Some (opt_signal (default "" a) count c)
  end.

(** The loop over the options: [inl] returns; [inr] is retval, the number of
    arguments and optind behind the loop. *)
Fixpoint option_loop (fuel : nat) (retval : Z) (gs : Getopt.state) (c : ctl) : option (Z * ctl + Z * Getopt.state * ctl) :=
  match fuel with
  | O => None
  | S fuel =>
      if retval <? 0 then Some (inr (retval, gs, c))
      else
        match Getopt.getopt_long options gs with
        | (Getopt.EOF, gs) => Some (inr (retval, gs, c))
        | (r, gs) =>
            f ← do_option r (Getopt.optind gs) (Getopt.argv gs) retval (Getopt.argc gs) c;
            match f with
            | Return rc c => Some (inl (rc, c))
            | Go retval count c =>
                option_loop fuel retval
                  (Getopt.State (take count (Getopt.argv gs)) (Getopt.optind gs) (Getopt.nextchar gs)
                     (Getopt.first_nonopt gs) (Getopt.last_nonopt gs)) c
            end
        end
  end.

(** Every turn of the loop takes at least a character of an argument. *)
Definition option_fuel (vars : list string) : nat :=
  S (length vars + List.fold_right Nat.add O (String.length <$> vars)).

(** The keys become the last field. *)
Definition add_key (retval : Z) (c : ctl) : option (Z * ctl) :=
  if str_eq (key c) "" || list_requested c then Some (retval, c)
  else
    r ← rule_new c;
    '(rc, x, r) ← audit_rule_fieldpair_data junk (Some ("key=" ++s key c)) (list_flags c 0) (g c) r;
    Some (if negb (rc =? 0) then -1 else retval, set_rule x r c).

(** [vars] with the name of the program first. *)
Definition setopt (vars : list string) (c : ctl) : option (Z * ctl) :=
  let c := set_key "" AUDIT_MAX_KEY_LEN c in
  r ← option_loop (option_fuel vars) 0 (Getopt.init vars) c;
  match r with
  | inl x => Some x
  | inr (retval, gs, c) =>
      let retval := if (Getopt.optind gs =? 1)%nat then -1
                    else if (Getopt.optind gs <? Getopt.argc gs)%nat && negb (retval =? -1) then -1
                    else retval in
      add_key retval c
  end.

(** ** Sending *)

(** Send the rule, and once more as a watch of a file if the kernel does not know
    directories. *)
Definition send_rule (q : audit_rule_data -> request) (l : Z) (c : ctl) : option (Z * ctl) :=
  r ← rule_new c;
  '(_, r) ← (if negb (Z.land l AUDIT_FILTER_MASK =? AUDIT_FILTER_TASK) && negb (syscalladded (g c))
             then audit_rule_syscallbyname_data "all" (g c) r else Some (0, r));
  let r := set_target l (u32 (act c)) r in
  let (rc, c') := ask (q r) (set_rule (g c) (Some r) c) in
  f ← get 0 (fields r);
  if (rc <? 0) && einval (sent c) (q r) && (f =? AUDIT_DIR) then
    fs ← put 0 AUDIT_WATCH (fields r);
    let r := set_fields fs r in
    Some (ask (q r) (set_rule (g c') (Some r) c'))
  else Some (rc, c').

(** -1 or 0; the outer [None] also for the call of exit() when there is no list. *)
Definition handle_request (status : Z) (c : ctl) : option (Z * ctl) :=
  if status =? 0 then Some (if syscalladded (g c) then -1 else 0, c)
  else if status =? -2 then Some (0, c)
  else if 0 <? status then
    '(rc, c) ← (if negb (add c =? AUDIT_FILTER_UNSET) then send_rule AddRule (add c) c
                else if negb (del c =? AUDIT_FILTER_UNSET) then send_rule DeleteRule (del c) c
                else None);
    Some (if rc <=? 0 then -1 else 0, c)
  else Some (-1, c).

(** ** Files of rules *)

Definition LINE_SIZE : nat := Z.to_nat 6144.

(** Mark blanks and backslashes that a backslash protects. *)
Fixpoint preprocess (esc : bool) (prev : list ascii) (b : list ascii) : list ascii :=
  match b with
  | [] => rev prev
  | c :: b =>
      if (c =c BACKSLASH) && negb esc then preprocess true (c :: prev) b
      else if esc then
        if c =c " "%char then preprocess false (chr 7 :: chr 7 :: tail prev) b
        else if c =c BACKSLASH then preprocess false (chr 4 :: chr 4 :: tail prev) b
        else preprocess false (c :: prev) b
      else preprocess false (c :: prev) b
  end.

(** Put them back; a mark is two characters, and a single one at the end lets the
    pointer run over the NUL. *)
Fixpoint postprocess (b : list ascii) : option (list ascii) :=
  match b with
  | [] => Some []
  | c :: b' =>
      if c =c chr 7 then match b' with [] => None | _ :: b' => cons " "%char <$> postprocess b' end
      else if c =c chr 4 then match b' with [] => None | _ :: b' => cons BACKSLASH <$> postprocess b' end
      else cons c <$> postprocess b'
  end.

(** The arguments of a line, at most [nf - 1] with the name of the program; [[]]
    when there is no word. *)
Definition line_fields (line : list ascii) : option (list string) :=
  let nf := (length line / 3 + 3)%nat in
  let b := preprocess false [] line in
  ws ← StrSplit.split_all (S (S (length b))) (Some O) (b ++ [NUL]) None;
  match ws with
  | [] => Some []
  | w :: ws =>
      ws ← mapM postprocess (take (nf - 3) ws);
      Some ("auditctl" :: Ellist.to_string w :: (Ellist.to_string <$> ws))
  end.

Definition blank_line (line : list ascii) : bool := forallb (Ascii.eqb " "%char) line.
Definition comment (vars : list string) : bool :=
  match vars with _ :: w :: _ => char_at w =c "#"%char | _ => false end.

(** A line of the file: [inl] is the return of fileopt(). *)
Definition do_line (line : list ascii) (c : ctl) : option (Z * ctl + ctl) :=
  if blank_line line then Some (inr c)
  else
    vars ← line_fields line;
    match vars with
    | [] => Some (inl (0, c))
    | _ =>
        if comment vars then Some (inr c)
        else
          '(rc, c) ← setopt vars (reset_vars c);
          if rc =? -3 then Some (inr c)
          else
            '(rc, c) ← handle_request rc c;
            if rc =? -1 then
              if econnrefused (sent c) then Some (inl (0, c))
              else if negb (ignore c) then Some (inl (-1, c))
              else Some (inr (if negb (continue_error c =? 0)
                              then set_modes (list_requested c) (interpret c) (ignore c) (-1) c else c))
            else Some (inr c)
    end.

(** The text of a line in the buffer. *)
Definition line_text (buf : list ascii) : list ascii := StrSplit.c_string buf 0.

Fixpoint fileopt_loop (fuel : nat) (f buf : list ascii) (c : ctl) : option (Z * ctl) :=
  match fuel with
  | O => None
  | S fuel =>
      '(got, f, buf, _) ← Config.get_line_cutting LINE_SIZE f buf 0;
      if negb got then Some (0, c)
      else
        r ← do_line (line_text buf) c;
        match r with
        | inl x => Some x
        | inr c => fileopt_loop fuel f buf c
        end
  end.

(** [o] is what open() gives. *)
Definition fileopt (o : Config.opened) (c : ctl) : option (Z * ctl) :=
  match o with
  | Config.Open_ENOENT => Some (2, c)
  | Config.Open_error => Some (1, c)
  | Config.Opened st text =>
      if negb (Config.check_file Config.not_world_writable st) then Some (1, c)
      else match text with
           | None => Some (1, c)
           | Some f => fileopt_loop (S (length f)) f (replicate LINE_SIZE junk) c
           end
  end.

End auditctl.

End Auditctl.
