(* ===== verification/AuditctlFacts.v ===== *)
(** * Facts about the options of auditctl

    A line of a rule is a list of options with an argument each; on such a line
    setopt() applies the options one by one. *)
From S2P Require Import Prelude CString StrSplit Nvlist Config ConfigFacts Lol Ellist Lookup Rule RuleFacts RuleList Getopt Auditctl.

Local Open Scope audit_scope.

Module AuditctlFacts.
Import Auditctl RuleList.

Local Open Scope string_scope.
Local Open Scope list_scope.
Local Open Scope Z_scope.

(** ** Lines of options *)

(** The letters that build a rule. *)
Definition rule_letters : list ascii := String.list_ascii_of_string "aAdSFCwWkp".

Abbreviation opts := (list (ascii * string)).

Fixpoint flatten (os : opts) : list string :=
  match os with [] => [] | (o, a) :: os => String "-" (String o "") :: a :: flatten os end.

Lemma flatten_length os : length (flatten os) = (2 * length os)%nat.
Proof. induction os as [|[o a] os IH]; cbn; [done|]. rewrite IH. lia. Qed.

Section options.
Context {tabs : Tables} {mach : Machine} {kernel : Kernel} (junk : ascii).

(** What one of these options does. *)
Definition rule_opt (o : ascii) (a : string) (retval : Z) (c : ctl) : option flow := do_short junk o a 0 [] retval 0 c.

Definition with_count (n : nat) (f : flow) : flow := match f with Go rc _ c => Go rc n c | Return rc c => Return rc c end.

Lemma do_rule_opt o a i vars retval n c : o ∈ rule_letters ->
  match vars !! i with Some w => w <> "-t" | None => True end ->
  do_short junk o a i vars retval n c = with_count n <$> rule_opt o a retval c.
Proof.
  intros Ho Hi. unfold rule_opt, do_short.
  unfold rule_letters in Ho. cbn [String.list_ascii_of_string] in Ho.
  repeat (apply elem_of_cons in Ho as [->|Ho]); [..|by apply elem_of_nil in Ho]; cbn [Ascii.eqb Bool.eqb fmap option_fmap option_map].
  - unfold opt_a. by repeat case_match.
  - unfold opt_a. by repeat case_match.
  - unfold opt_d. by repeat case_match.
  - unfold opt_S. destruct (_ || _); [done|]. destruct (detect_elf c); [|done].
    destruct (parse_syscall _ _) as [[rc c']|]; [|done]. cbn. by destruct (rc =? 0).
  - unfold opt_F. destruct (negb (add c =? _) || negb (del c =? _)); cbn [negb andb].
    + destruct (starts_with _ _); [unfold opt_k; by repeat case_match|].
      destruct (rule_new c); [|done]. cbn [mbind option_bind]. destruct (audit_rule_fieldpair_data _ _ _ _ _) as [[[rc x] r]|]; [|done]. cbn.
      destruct (negb _); [done|]. destruct r; [|done]. cbn. by destruct (last_field _).
    + replace (match vars !! i with Some _ => _ | None => _ end) with true; [done|].
      destruct (vars !! i) as [w|]; [|done]. unfold str_eq. rewrite (proj2 (String.eqb_neq w _)) by done.
      cbn. by rewrite orb_true_r.
  - unfold opt_C. destruct (rule_new c); [|done]. cbn [mbind option_bind].
    destruct (audit_rule_interfield_comp_data _ _ _) as [[rc r]|]; [|done]. cbn. destruct (negb _); [done|].
    by destruct (last_field _).
  - unfold opt_w. destruct (_ && _); [done|]. by destruct (audit_setup_watch_name _ _) as [[]|].
  - unfold opt_w. destruct (_ && _); [done|]. by destruct (audit_setup_watch_name _ _) as [[]|].
  - unfold opt_k_checked, opt_k. by repeat case_match.
  - unfold opt_p. destruct (_ && _); [done|]. by destruct (audit_setup_perms _ _) as [[]|].
Qed.

(** The options one by one, until one fails or returns. *)
Fixpoint apply_opts (os : opts) (retval : Z) (c : ctl) : option (Z * ctl + Z * ctl) :=
  match os with
  | [] => Some (inr (retval, c))
  | (o, a) :: os =>
      if retval <? 0 then Some (inr (retval, c))
      else
        f ← rule_opt o a retval c;
        match f with
        | Return rc c => Some (inl (rc, c))
        | Go retval _ c => apply_opts os retval c
        end
  end.

Lemma watch_name_rc a c rc c' : audit_setup_watch_name a c = Some (rc, c') -> rc = -1 \/ rc = 1.
Proof.
  unfold audit_setup_watch_name. destruct (negb _); [intros [= <- _]; auto|].
  destruct (audit_add_watch_dir _ _ _ _) as [[[r x] y]|]; [|done]. cbn. destruct (r =? 0); intros [= <- _]; auto.
Qed.

Lemma perms_rc a c rc c' : audit_setup_perms a c = Some (rc, c') -> rc = -1 \/ rc = 1.
Proof.
  unfold audit_setup_perms. destruct (4 <? _); [intros [= <- _]; auto|]. destruct (perm_bits 0 a); [|intros [= <- _]; auto].
  destruct (rule_new c); [|done]. cbn. destruct (audit_update_watch_perms _ _) as [[r x]|]; [|done]. cbn.
  destruct (r =? 0); intros [= <- _]; auto.
Qed.

Lemma rule_opt_rc o a retval c rc n c' : o ∈ rule_letters ->
  rule_opt o a retval c = Some (Go rc n c') -> rc = -1 \/ rc = 1 \/ rc = retval.
Proof.
  intros Ho. unfold rule_opt, do_short.
  unfold rule_letters in Ho. cbn [String.list_ascii_of_string] in Ho.
  repeat (apply elem_of_cons in Ho as [->|Ho]); [..|by apply elem_of_nil in Ho]; cbn [Ascii.eqb Bool.eqb].
  - unfold opt_a. repeat case_match; intros [= <- _ _]; auto.
  - unfold opt_a. repeat case_match; intros [= <- _ _]; auto.
  - unfold opt_d. repeat case_match; intros [= <- _ _]; auto.
  - unfold opt_S. destruct (_ || _); [done|]. destruct (detect_elf c); [|done].
    destruct (parse_syscall _ _) as [[x y]|]; [|done]. cbn. destruct (x =? 0); intros [= <- _ _]; auto.
  - unfold opt_F. destruct (_ && _); [intros [= <- _ _]; auto|].
    destruct (starts_with _ _); [unfold opt_k; repeat case_match; intros [= <- _ _]; auto|].
    destruct (rule_new c); [|done]. cbn [mbind option_bind].
    destruct (audit_rule_fieldpair_data _ _ _ _ _) as [[[x y] r]|]; [|done]. cbn [mbind option_bind].
    destruct (negb _); [intros [= <- _ _]; auto|]. destruct r; [|done]. cbn.
    destruct (last_field _); [|done]. intros [= <- _ _]; auto.
  - unfold opt_C. destruct (rule_new c); [|done]. cbn [mbind option_bind].
    destruct (audit_rule_interfield_comp_data _ _ _) as [[x r]|]; [|done]. cbn. destruct (negb _); [intros [= <- _ _]; auto|].
    destruct (last_field _); [|done]. intros [= <- _ _]; auto.
  - unfold opt_w. destruct (_ && _); [intros [= <- _ _]; auto|].
    destruct (audit_setup_watch_name _ _) as [[]|] eqn:E; [|done]. intros [= <- _ _]. apply watch_name_rc in E. intuition.
  - unfold opt_w. destruct (_ && _); [intros [= <- _ _]; auto|].
    destruct (audit_setup_watch_name _ _) as [[]|] eqn:E; [|done]. intros [= <- _ _]. apply watch_name_rc in E. intuition.
  - unfold opt_k_checked, opt_k. repeat case_match; intros [= <- _ _]; auto.
  - unfold opt_p. destruct (_ && _); [intros [= <- _ _]; auto|].
    destruct (audit_setup_perms _ _) as [[]|] eqn:E; [|done]. intros [= <- _ _]. apply perms_rc in E. intuition.
Qed.

Lemma letter_option o : o ∈ rule_letters ->
  List.find (fun x => x.1 =c o) (Getopt.short options) = Some (o, true) /\ o <> "-"%char /\ o <> "t"%char.
Proof.
  revert o. apply Forall_forall. by repeat constructor.
Qed.

Lemma next_option_word os : Forall (fun x => x.1 ∈ rule_letters) os ->
  match flatten os !! O with Some w => w <> "-t" | None => True end.
Proof.
  intros H. destruct os as [|[o a] os]; [done|]. cbn. apply Forall_cons in H as [Ho _].
  apply letter_option in Ho as (_ & _ & Ht). cbn in Ht. congruence.
Qed.

Lemma loop_opts os pre k retval c fuel :
  (length os < fuel)%nat -> (k <= length pre)%nat -> Forall (fun x => x.1 ∈ rule_letters) os -> -1 <= retval ->
  let loop := option_loop junk fuel retval (Getopt.State (pre ++ flatten os) (length pre) "" k k) c in
  match apply_opts os retval c with
  | None => loop = None
  | Some (inl x) => loop = Some (inl x)
  | Some (inr (rc, c')) => exists gs, loop = Some (inr (rc, gs, c')) /\
      (length pre <= Getopt.optind gs)%nat /\ (rc = -1 \/ Getopt.optind gs = Getopt.argc gs) /\
      (0 <= retval -> os <> [] -> (length pre < Getopt.optind gs)%nat)
  end.
Proof.
  revert pre k retval c fuel. induction os as [|[o a] os IH]; intros pre k retval c fuel Hf Hk Hos Hr; cbn [apply_opts].
  - destruct fuel as [|fuel]; [cbn in Hf; lia|]. cbn [option_loop flatten]. rewrite app_nil_r.
    destruct (Z.ltb_spec retval 0).
    + eexists. split; [done|]. cbn. split_and!; [lia|left; lia|done].
    + rewrite Getopt.getopt_end by done. eexists. split; [done|]. cbn. split_and!; [lia|by right|done].
  - destruct fuel as [|fuel]; [cbn in Hf; lia|]. cbn [option_loop].
    destruct (Z.ltb_spec retval 0).
    { eexists. split; [done|]. cbn. split_and!; [lia|left; lia|lia]. }
    apply Forall_cons in Hos as [Ho Hos]. cbn in Ho.
    destruct (letter_option o Ho) as (Hfind & Hdash & _).
    set (args := pre ++ flatten ((o, a) :: os)).
    assert (Hargs : args = (pre ++ [String "-" (String o ""); a]) ++ flatten os) by (unfold args; cbn; by rewrite <-app_assoc).
    rewrite (Getopt.getopt_letter options o a args (length pre) k) by
      (done || (unfold args; rewrite lookup_app_r by lia; by rewrite ?Nat.sub_diag, ?Nat.sub_succ_l, ?Nat.sub_diag)).
    cbn [do_option Getopt.optind Getopt.argv Getopt.argc default].
    assert (Hlen : length (pre ++ [String "-" (String o ""); a]) = S (S (length pre))) by (rewrite length_app; cbn; lia).
    rewrite do_rule_opt; [|done|].
    2:{ rewrite Hargs, lookup_app_r by lia. rewrite Hlen, Nat.sub_diag. by apply next_option_word. }
    destruct (rule_opt o a retval c) as [[rc n c'|rc c']|] eqn:Hopt; cbn; rewrite ?Hopt; cbn; [|done|done].
    rewrite firstn_all. apply (rule_opt_rc o a retval c rc n c' Ho) in Hopt.
    specialize (IH (pre ++ [String "-" (String o ""); a]) (length pre) rc c' fuel).
    rewrite <-Hargs, Hlen in IH. cbn zeta in IH. cbn in Hf.
    destruct (apply_opts os rc c') as [[x|[rc2 c2]]|].
    + apply IH; [lia|lia|done|lia].
    + destruct IH as (gs & -> & H1 & H2 & _); [lia|lia|done|lia|]. exists gs. split_and!; (done || lia).
    + apply IH; [lia|lia|done|lia].
Qed.

(** setopt() on such a line. *)
Lemma setopt_opts os c : Forall (fun x => x.1 ∈ rule_letters) os -> os <> [] ->
  setopt junk ("auditctl" :: flatten os) c =
  r ← apply_opts os 0 (set_key "" AUDIT_MAX_KEY_LEN c);
  match r with inl x => Some x | inr (retval, c) => add_key junk retval c end.
Proof.
  intros Hos Hne. unfold setopt, Getopt.init.
  pose proof (loop_opts os ["auditctl"] 1 0 (set_key "" AUDIT_MAX_KEY_LEN c) (option_fuel ("auditctl" :: flatten os))) as H.
  cbn [app length] in H. cbn zeta in H.
  destruct (apply_opts os 0 _) as [[x|[rc c']]|].
  - rewrite H; [done|unfold option_fuel; cbn; rewrite flatten_length; lia|lia|done|lia].
  - destruct H as (gs & -> & H1 & H2 & H3); [unfold option_fuel; cbn; rewrite flatten_length; lia|lia|done|lia|].
    cbn [mbind option_bind]. specialize (H3 ltac:(lia) Hne).
    rewrite (proj2 (Nat.eqb_neq _ 1)) by lia. f_equal.
    destruct H2 as [->|H2]; [by rewrite andb_false_r|]. by rewrite H2, Nat.ltb_irrefl.
  - rewrite H; [done|unfold option_fuel; cbn; rewrite flatten_length; lia|lia|done|lia].
Qed.

(** ** Every line is handled *)

Context (memory : forall n, realloc_ok n = true).

Definition ok (c : ctl) : Prop := exists r, rule_new c = Some r /\ wf r.
Definition ctl_of (f : flow) : ctl := match f with Go _ _ c | Return _ c => c end.

Lemma called_ok r rc r' ens : called r rc r' ens -> exists r1, r' = Some r1 /\ wf r1.
Proof.
  destruct r' as [r1|]; [intros (Hwf & _); by exists r1|]. intros (_ & n & Hn). by rewrite memory in Hn.
Qed.

Lemma last_field_ok r rc r' ens : called r rc (Some r') ens -> rc = 0 -> exists f, last_field r' = Some f.
Proof.
  intros (Hwf & _ & _ & _ & H) ->. cbn in H. destruct H as (e & _ & He).
  pose proof (entries_fields r' Hwf) as Hf. rewrite He, fmap_app in Hf. apply (f_equal length) in Hf.
  rewrite length_app, length_take in Hf. cbn in Hf. unfold last_field, get. destruct Hwf.
  rewrite (proj2 (Z.leb_le 0 _)) by lia. apply lookup_lt_is_Some_2. destruct wf_fields0. lia.
Qed.

Lemma string_length_list s : String.length s = length (String.list_ascii_of_string s).
Proof. by rewrite length_list_ascii. Qed.

Lemma drop_while_length {A} (f : A -> bool) l : (length (Config.drop_while f l) <= length l)%nat.
Proof. induction l as [|x l IH]; cbn; [lia|]. destruct (f x); cbn; lia. Qed.

Lemma unrev_length l : String.length (Config.unrev l) = length l.
Proof.
  unfold Config.unrev. rewrite string_length_list, String.list_ascii_of_string_of_list_ascii. apply length_reverse || by rewrite length_rev.
Qed.

Lemma trim_slashes_length path : (String.length (trim_slashes path) <= String.length path)%nat.
Proof.
  unfold trim_slashes. destruct (_ && _) eqn:E; [|lia]. apply andb_prop in E as [E _]. apply Nat.ltb_lt in E.
  pose proof (drop_while_length Config.slash (Config.rev_chars path)) as H.
  unfold Config.rev_chars in *. rewrite length_rev, <-string_length_list in H.
  destruct (Config.drop_while _ _) as [|c l]; [cbn; lia|]. rewrite unrev_length. done.
Qed.

Lemma watch_name_ok path c : ok c -> exists rc c', audit_setup_watch_name path c = Some (rc, c') /\ ok c'.
Proof.
  intros (r & Hr & Hwf). unfold audit_setup_watch_name.
  destruct (check_path path) eqn:Hcheck; cbn [negb]; [|eexists _, _; split; [done|by exists r]].
  assert (Hl : Z.of_nat (String.length (trim_slashes path)) <= PATH_MAX).
  { pose proof (trim_slashes_length path). unfold check_path in Hcheck. destruct (Z.leb_spec PATH_MAX (Z.of_nat (String.length path))); [done|lia]. }
  rewrite Hr. set (type := if is_dir _ then _ else _).
  assert (Ht : type = AUDIT_WATCH \/ type = AUDIT_DIR) by (unfold type; destruct (is_dir _); auto).
  destruct (decide (field_count r = 0)) as [Hc|Hc].
  - destruct (add_watch_spec type (trim_slashes path) (g c) (Some r) Ht Hl Hc) as (rc & g' & r' & -> & H).
    rewrite memory in H. destruct H as (-> & -> & r1 & -> & Hwf1 & _). cbn. eexists _, _. split; [done|]. by exists r1.
  - unfold audit_add_watch_dir. rewrite (proj2 (Z.eqb_neq _ 0)) by done. cbn. eexists _, _. split; [done|]. by exists r.
Qed.

Lemma perms_ok a c : ok c -> exists rc c', audit_setup_perms a c = Some (rc, c') /\ ok c'.
Proof.
  intros (r & Hr & Hwf). unfold audit_setup_perms.
  destruct (4 <? _); [eexists _, _; split; [done|by exists r]|].
  destruct (perm_bits 0 a) as [val|]; [|eexists _, _; split; [done|by exists r]].
  rewrite Hr. cbn [mbind option_bind].
  destruct (Z.ltb_spec (field_count r) 1) as [Hc|Hc].
  - unfold audit_update_watch_perms. rewrite (proj2 (Z.ltb_lt _ 1)) by done. cbn.
    eexists _, _. split; [done|]. by exists r.
  - destruct (update_watch_perms_spec val r Hwf Hc) as (rc & r' & -> & Hwf' & _). cbn [mbind option_bind].
    destruct (rc =? 0); (eexists _, _; split; [done|]; by exists r').
Qed.

Lemma syscall_loop_ok names x r : wf r -> exists rc r', syscall_loop names x r = Some (rc, r') /\ wf r'.
Proof.
  revert r. induction names as [|n names IH]; intros r Hwf; cbn; [by eexists _, _|].
  destruct (syscallbyname_spec n x r Hwf) as (rc & r' & -> & Hwf' & _). cbn.
  destruct (negb _); [by eexists _, _|]. by apply IH.
Qed.

Lemma parse_syscall_ok a c : ok c -> exists rc c', parse_syscall a c = Some (rc, c') /\ ok c'.
Proof.
  intros (r & Hr & Hwf). unfold parse_syscall. rewrite Hr. cbn [mbind option_bind].
  destruct (strchr a ","%char).
  - destruct (syscall_loop_ok (tokens ","%char a) (g c) r Hwf) as (rc & r' & -> & Hwf'). cbn.
    eexists _, _. split; [done|]. by exists r'.
  - destruct (syscallbyname_spec a (g c) r Hwf) as (rc & r' & -> & Hwf' & _). cbn.
    eexists _, _. split; [done|]. by exists r'.
Qed.

Lemma setup_ok a d c : ok c -> ok (audit_rule_setup a d c).2.
Proof.
  intros (r & Hr & Hwf). exists r. split; [|done]. unfold audit_rule_setup.
  destruct (negb _); [done|]. destruct (rule_setup _ _ _ _) as [rc [[f ac] ex]]. by destruct d.
Qed.

Lemma opt_k_ok a retval n c : ok c -> ok (ctl_of (opt_k a retval n c)).
Proof.
  intros (r & Hr & Hwf). exists r. split; [|done]. unfold opt_k, process_keys. by destruct (_ <? _).
Qed.

Lemma rule_opt_ok o a retval c : o ∈ rule_letters -> ok c -> exists f, rule_opt o a retval c = Some f /\ ok (ctl_of f).
Proof.
  intros Ho Hok. unfold rule_opt, do_short.
  unfold rule_letters in Ho. cbn [String.list_ascii_of_string] in Ho.
  repeat (apply elem_of_cons in Ho as [->|Ho]); [..|by apply elem_of_nil in Ho]; cbn [Ascii.eqb Bool.eqb].
  1-2: eexists; (split; [done|]); unfold opt_a; pose proof (setup_ok a false c Hok) as H;
    destruct (_ && _); [done|]; destruct (audit_rule_setup a false c) as [rc c']; cbn in H;
    repeat (destruct (_ =? _); cbn [orb]); done.
  - eexists. split; [done|]. unfold opt_d. pose proof (setup_ok a true c Hok) as H.
    destruct (audit_rule_setup a true c) as [rc c']. cbn in H. repeat (destruct (_ =? _); cbn [orb]); done.
  - unfold opt_S. destruct (_ || _); [by eexists|]. destruct (detect_elf c) as [c'|] eqn:Hd; [|by eexists].
    assert (Hok' : ok c').
    { destruct Hok as (r & Hr & Hwf). exists r. split; [|done]. revert Hd. unfold detect_elf.
      destruct (_ =? 0); [|by intros [= <-]]. destruct (_ <? 0); [done|]. destruct (_ =? 0); [done|]. by intros [= <-]. }
    destruct (parse_syscall_ok a c' Hok') as (rc & c2 & -> & Hok2). cbn. destruct (rc =? 0); by eexists.
  - unfold opt_F. destruct (_ && _); [by eexists|].
    destruct (starts_with _ _); [eexists; split; [done|]; by apply opt_k_ok|].
    destruct Hok as (r & -> & Hwf). cbn [mbind option_bind].
    destruct (fieldpair_called junk a (list_flags c AUDIT_FILTER_UNSET) (g c) r Hwf) as (rc & x & r' & -> & Hc).
    destruct (called_ok _ _ _ _ Hc) as (r1 & -> & Hwf1). cbn [mbind option_bind].
    destruct (Z.eqb_spec rc 0) as [Hrc|]; cbn [negb]; [|eexists; split; [done|]; by exists r1].
    destruct (last_field_ok _ _ _ _ Hc Hrc) as [f ->]. cbn. eexists. split; [done|]. by exists r1.
  - unfold opt_C. destruct Hok as (r & -> & Hwf). cbn [mbind option_bind].
    destruct (interfield_called a (list_flags c AUDIT_FILTER_UNSET) r Hwf) as (rc & r' & -> & Hc). cbn [mbind option_bind].
    destruct (called_ok _ _ _ _ Hc) as (r1 & [= ->] & Hwf1).
    destruct (Z.eqb_spec rc 0) as [Hrc|]; cbn [negb]; [|eexists; split; [done|]; by exists r1].
    destruct (last_field_ok _ _ _ _ Hc Hrc) as [f ->]. cbn. eexists. split; [done|]. exists r1. by destruct (f =? _).
  - unfold opt_w. destruct (_ && _); [by eexists|].
    match goal with |- context [audit_setup_watch_name a ?c'] => destruct (watch_name_ok a c') as (rc & c2 & -> & Hok2) end;
      [by destruct Hok as (r & Hr & Hwf); exists r|]. cbn. by eexists.
  - unfold opt_w. destruct (_ && _); [by eexists|].
    match goal with |- context [audit_setup_watch_name a ?c'] => destruct (watch_name_ok a c') as (rc & c2 & -> & Hok2) end;
      [by destruct Hok as (r & Hr & Hwf); exists r|]. cbn. by eexists.
  - eexists. split; [done|]. unfold opt_k_checked. destruct (_ || _); [done|]. by apply opt_k_ok.
  - unfold opt_p. destruct (_ && _); [by eexists|].
    destruct (perms_ok a c Hok) as (rc & c2 & -> & Hok2). cbn. by eexists.
Qed.

Lemma apply_opts_ok os retval c : Forall (fun x => x.1 ∈ rule_letters) os -> ok c ->
  exists x, apply_opts os retval c = Some x /\ match x with inl (_, c) | inr (_, c) => ok c end.
Proof.
  revert retval c. induction os as [|[o a] os IH]; intros retval c Hos Hok; cbn [apply_opts]; [by eexists|].
  destruct (_ <? 0); [by eexists|]. apply Forall_cons in Hos as [Ho Hos].
  destruct (rule_opt_ok o a retval c Ho Hok) as ([rc n c'|rc c'] & -> & Hok'); cbn in *; [by apply IH|by eexists].
Qed.

Lemma add_key_ok retval c : ok c -> exists rc c', add_key junk retval c = Some (rc, c') /\ ok c'.
Proof.
  intros Hok. unfold add_key. destruct (_ || _); [by eexists _, _|].
  destruct Hok as (r & -> & Hwf). cbn [mbind option_bind].
  destruct (fieldpair_called junk ("key=" ++s key c) (list_flags c 0) (g c) r Hwf) as (rc & x & r' & -> & Hc).
  destruct (called_ok _ _ _ _ Hc) as (r1 & -> & Hwf1). cbn. eexists _, _. split; [done|]. by exists r1.
Qed.

(** C13: On every line of rule options, whatever their order, number and arguments,
    setopt() returns: no access leaves the rule or follows a null pointer, and the
    rule it leaves is well formed. *)
Theorem rule_line_handled os c : Forall (fun x => x.1 ∈ rule_letters) os -> os <> [] ->
  exists rc c' r, setopt junk ("auditctl" :: flatten os) (reset_vars c) = Some (rc, c') /\
    rule_new c' = Some r /\ wf r.
Proof.
  intros Hos Hne. rewrite setopt_opts by done.
  destruct (apply_opts_ok os 0 (set_key "" AUDIT_MAX_KEY_LEN (reset_vars c)) Hos) as (x & -> & Hx).
  { exists audit_rule_init_data. split; [done|apply wf_init]. }
  cbn [mbind option_bind]. destruct x as [[rc c']|[rc c']].
  - destruct Hx as (r & Hr & Hwf). by exists rc, c', r.
  - destruct (add_key_ok rc c' Hx) as (rc2 & c2 & -> & r & Hr & Hwf). by exists rc2, c2, r.
Qed.

End options.

End AuditctlFacts.
