(* ===== verification/RuleText.v ===== *)
(** * Reading printed rules back: texts

    The numbers, letters and names that auditctl prints for a field, and what the
    library makes of them. *)
From S2P Require Import Prelude CString Config ConfigFacts Lol Ellist Lookup Rule RuleFacts RuleList.

Local Open Scope audit_scope.

Module RuleText.
Import Rule RuleList.

Local Open Scope string_scope.
Local Open Scope list_scope.
Local Open Scope Z_scope.

Abbreviation chars_of := String.list_ascii_of_string.

(** ** Characters *)

Definition op_char (c : ascii) : bool := existsb (Ascii.eqb c) (chars_of "!=<>&").
#[global] Arguments op_char : simpl never.

(** Characters that stand for themselves in a line of rules. *)
Definition plain_char (c : ascii) : bool :=
  negb (op_char c) && negb (existsb (Ascii.eqb c) [" "%char; LF; NUL; BACKSLASH; chr 7; chr 4; KEY_SEP]).

Definition plain (s : string) : bool := negb (str_eq s "") && forallb plain_char (chars_of s).

Lemma append_cons c a b : String c a ++s b = String c (a ++s b).
Proof. reflexivity. Qed.
Lemma append_nil_l b : "" ++s b = b.
Proof. reflexivity. Qed.
Lemma append_nil a : a ++s "" = a.
Proof. induction a as [|c a IH]; [done|]. by rewrite append_cons, IH. Qed.

Lemma chars_of_append a b : chars_of (a ++s b) = chars_of a ++ chars_of b.
Proof. induction a as [|c a IH]; [done|]. rewrite append_cons. cbn. by rewrite IH. Qed.

Lemma plain_append a b : plain a = true -> plain b = true -> plain (a ++s b) = true.
Proof.
  unfold plain. intros [Ha Ha']%andb_prop [Hb Hb']%andb_prop. rewrite chars_of_append, forallb_app, Ha', Hb'.
  destruct a; [done|]. done.
Qed.

Lemma plain_no_ops s : plain s = true -> Forall (fun c => op_char c = false) (chars_of s).
Proof.
  unfold plain. intros [_ H]%andb_prop. apply Forall_forall. intros c Hc. apply list_elem_of_In in Hc.
  rewrite forallb_forall in H. specialize (H c Hc). unfold plain_char in H. by destruct (op_char c).
Qed.

(** ** Splitting at the operator *)

Lemma starts_with_none d p s : Forall (fun c => op_char c = false) (chars_of s) -> op_char d = true ->
  starts_with (String d p) s = false.
Proof.
  intros Hs Hd. destruct s as [|c s]; [done|]. cbn in *. apply Forall_cons in Hs as [Hc _].
  destruct (Ascii.eqb_spec d c) as [->|]; [congruence|done].
Qed.

Lemma starts_cons c p d s : starts_with (String c p) (String d s) = (c =c d) && starts_with p s.
Proof. reflexivity. Qed.
Lemma starts_nil s : starts_with "" s = true.
Proof. reflexivity. Qed.

Lemma split_at_none d p s : Forall (fun c => op_char c = false) (chars_of s) -> op_char d = true ->
  split_at (String d p) s = None.
Proof.
  intros Hs Hd. induction s as [|c s IH]; [done|]. cbn [split_at].
  rewrite starts_with_none by done. cbn in Hs. apply Forall_cons in Hs as [_ Hs]. by rewrite IH.
Qed.

Lemma split_at_prefix d p a s : Forall (fun c => op_char c = false) (chars_of a) -> op_char d = true ->
  split_at (String d p) (a ++s s) = ('(x, y) ← split_at (String d p) s; Some (a ++s x, y)).
Proof.
  intros Ha Hd. induction a as [|c a IH]; [rewrite append_nil_l; by destruct (split_at _ s) as [[]|]|].
  cbn in Ha. apply Forall_cons in Ha as [Hc Ha]. rewrite append_cons. cbn [split_at starts_with].
  destruct (Ascii.eqb_spec d c) as [->|]; [congruence|]. cbn [andb]. rewrite IH by done.
  by destruct (split_at (String d p) s) as [[]|].
Qed.

(** Reading "name operator value" finds these parts. *)
Lemma find_op_text a sym op v :
  Forall (fun c => op_char c = false) (chars_of a) -> Forall (fun c => op_char c = false) (chars_of v) ->
  (sym, op) ∈ field_ops -> find_op field_ops (a ++s sym ++s v) = Some (a, op, v).
Proof.
  intros Ha Hv Hop. unfold field_ops in *.
  repeat (apply elem_of_cons in Hop as [Hop|Hop]; [injection Hop as -> ->|]); [..|by apply elem_of_nil in Hop];
    cbn [find_op];
    repeat (rewrite (split_at_prefix _ _ a) by done;
            rewrite ?append_cons, ?append_nil_l; cbn [split_at]; rewrite ?starts_cons, ?(starts_with_none _ _ v) by done;
            cbn [Ascii.eqb Bool.eqb andb]; rewrite ?starts_nil, ?(split_at_none _ _ v) by done;
            cbn [mbind option_bind andb skip String.length]);
    by rewrite append_nil.
Qed.

Lemma find_comp_text a sym op v :
  Forall (fun c => op_char c = false) (chars_of a) -> Forall (fun c => op_char c = false) (chars_of v) ->
  (sym, op) ∈ comp_ops -> find_op comp_ops (a ++s sym ++s v) = Some (a, op, v).
Proof.
  intros Ha Hv Hop. unfold comp_ops in *.
  repeat (apply elem_of_cons in Hop as [Hop|Hop]; [injection Hop as -> ->|]); [..|by apply elem_of_nil in Hop];
    cbn [find_op];
    repeat (rewrite (split_at_prefix _ _ a) by done;
            rewrite ?append_cons, ?append_nil_l; cbn [split_at]; rewrite ?starts_cons, ?(starts_with_none _ _ v) by done;
            cbn [Ascii.eqb Bool.eqb andb]; rewrite ?starts_nil, ?(split_at_none _ _ v) by done;
            cbn [mbind option_bind andb skip String.length]);
    by rewrite append_nil.
Qed.

(** ** Numbers *)

Import ConfigFacts.

Lemma decimal_go_head fuel n s : 0 < n < 10 ^ Z.of_nat fuel -> exists c t,
  decimal_go fuel n s = String c t /\ isdigit c = true /\ c <> "0"%char.
Proof.
  revert n s. induction fuel as [|fuel IH]; intros n s Hn; [cbn in Hn; lia|]. cbn [decimal_go].
  rewrite Nat2Z.inj_succ, Z.pow_succ_r in Hn by lia.
  destruct (Z.ltb_spec n 10).
  - rewrite Z.mod_small by lia. eexists _, _. split; [done|]. split; [apply (digit_char n); lia|].
    assert (n = 1 \/ n = 2 \/ n = 3 \/ n = 4 \/ n = 5 \/ n = 6 \/ n = 7 \/ n = 8 \/ n = 9) as Hc by lia.
    by repeat destruct Hc as [->|Hc]; [..|subst n].
  - apply IH. split; [apply Z.div_str_pos; lia|apply Z.div_lt_upper_bound; lia].
Qed.

(** The first digit of a decimal number is 0 only for 0. *)
Lemma decimal_head n : 0 <= n < two64 ->
  n = 0 /\ decimal n = "0" \/ exists c t, decimal n = String c t /\ isdigit c = true /\ c <> "0"%char.
Proof.
  intros Hn. destruct (Z.eq_dec n 0) as [->|]; [by left|]. right. apply decimal_go_head.
  unfold two64 in Hn. cbn. lia.
Qed.

Lemma scan_base_decimal n : 0 <= n < two64 -> exists base, scan_base (decimal n) = (base, decimal n) /\
  digits base 0 (decimal n) = (n, "").
Proof.
  intros Hn. destruct (decimal_head n Hn) as [[-> Hd]|(c & t & Hd & Hc & Hne)].
  - exists 8. by rewrite Hd.
  - exists 10.
    assert (("0"%char =c c) = false) as H0 by (apply Ascii.eqb_neq; congruence).
    assert ((c =c "0"%char) = false) as H0' by (by apply Ascii.eqb_neq).
    rewrite Hd. split.
    { unfold scan_base. rewrite !starts_cons, H0. cbn [andb orb char_at]. by rewrite H0'. }
    rewrite <-Hd. unfold decimal. rewrite decimal_go_digits by (unfold two64 in Hn; cbn; lia). done.
Qed.

Lemma numeric_decimal n : 0 <= n < two64 -> numeric (decimal n) = true.
Proof.
  intros Hn. unfold numeric. destruct (decimal_head n Hn) as [[-> ->]|(c & t & -> & Hc & _)]; done.
Qed.

Lemma strtoul0_decimal n : 0 <= n < two64 -> strtoul0 (decimal n) = (n, false).
Proof.
  intros Hn. unfold strtoul0. rewrite scan_sign_digits by (apply decimal_digits; lia).
  destruct (scan_base_decimal n Hn) as (base & -> & ->).
  destruct (Z.ltb_spec SIZE_MAX n); [unfold SIZE_MAX, two64 in *; lia|done].
Qed.

Lemma strtol0_decimal n : 0 <= n < 2 ^ 63 -> strtol0 (decimal n) = n.
Proof.
  intros Hn. unfold strtol0. rewrite scan_sign_digits by (apply decimal_digits; lia).
  destruct (scan_base_decimal n) as (base & -> & ->); [unfold two64; lia|]. lia.
Qed.

Lemma strtol0_negative n : 0 <= n < 2 ^ 63 -> strtol0 ("-" ++s decimal n) = - n.
Proof.
  intros Hn. unfold strtol0. change (scan_sign ("-" ++s decimal n)) with (true, decimal n).
  destruct (scan_base_decimal n) as (base & -> & ->); [unfold two64; lia|]. lia.
Qed.

Lemma negative_decimal n : 0 <= n < two64 -> numeric ("-" ++s decimal n) = false /\ negative ("-" ++s decimal n) = true.
Proof.
  intros Hn. split; [done|]. unfold negative. rewrite append_cons, append_nil_l. cbn [skip char_at].
  pose proof (numeric_decimal n Hn) as Hnum. unfold numeric in Hnum. rewrite Hnum, andb_true_r.
  destruct (decimal_head n Hn) as [[-> ->]|(c & t & -> & _)]; [done|]. cbn [String.length].
  rewrite (proj2 (Z.leb_le 2 _)) by lia. done.
Qed.

Lemma int_of_word v : word v -> Lol.int_of v = (if v <? 2 ^ 31 then v else v - two32).
Proof. intros Hv. unfold Lol.int_of. by rewrite (u32_small v Hv). Qed.

(** A number as [%d] shows it is read as the same 32 bits. *)
Lemma show_d_spec v : word v ->
  (v < 2 ^ 31 /\ show_d v = decimal v) \/ (2 ^ 31 <= v /\ show_d v = "-" ++s decimal (two32 - v)).
Proof.
  intros Hv. unfold show_d. rewrite int_of_word by done. cbv zeta. destruct Hv as [H0 H1].
  destruct (Z.ltb_spec v (2 ^ 31)); [left|right]; (split; [done|]).
  - rewrite (proj2 (Z.ltb_ge v 0)) by lia. reflexivity.
  - rewrite (proj2 (Z.ltb_lt (v - two32) 0)) by lia. replace (- (v - two32)) with (two32 - v) by lia. reflexivity.
Qed.

Lemma read_d v : word v -> (v < 2 ^ 31 /\ numeric (show_d v) = true /\ (strtoul0 (show_d v)).1 = v /\ strtol0 (show_d v) = v) \/
  (2 ^ 31 <= v /\ numeric (show_d v) = false /\ negative (show_d v) = true /\ u32 (strtol0 (show_d v)) = v).
Proof.
  intros Hv. pose proof Hv as Hw. unfold word, two32 in Hw.
  destruct (show_d_spec v Hv) as [[H ->]|[H ->]]; [left|right]; (split; [done|]).
  - rewrite strtoul0_decimal, strtol0_decimal by (unfold two64; lia). rewrite numeric_decimal by (unfold two64; lia). done.
  - rewrite strtol0_negative by (unfold two32; lia).
    destruct (negative_decimal (two32 - v)) as [-> ->]; [unfold two64, two32; lia|]. split_and!; try done.
    unfold u32. replace (- (two32 - v)) with (v + (-1) * two32) by lia. rewrite Z.mod_add by done.
    by apply Z.mod_small.
Qed.

(** *** Hexadecimal *)

Lemma hex_digit_value up d : 0 <= d < 16 -> digit_value (hex_digit up d) = d /\ plain_char (hex_digit up d) = true.
Proof.
  intros Hd. assert (d = 0 \/ d = 1 \/ d = 2 \/ d = 3 \/ d = 4 \/ d = 5 \/ d = 6 \/ d = 7 \/ d = 8 \/ d = 9 \/
    d = 10 \/ d = 11 \/ d = 12 \/ d = 13 \/ d = 14 \/ d = 15) as Hc by lia.
  by repeat destruct Hc as [->|Hc]; [..|subst d]; destruct up.
Qed.

Lemma hex_go_spec up fuel n s : 0 <= n < 16 ^ Z.of_nat fuel ->
  digits 16 0 (hex_go up fuel n s) = digits 16 n s /\
  (Forall (fun c => plain_char c = true) (chars_of s) -> Forall (fun c => plain_char c = true) (chars_of (hex_go up fuel n s))).
Proof.
  revert n s. induction fuel as [|fuel IH]; intros n s Hn.
  { cbn in *. by assert (n = 0) as -> by lia. }
  assert (0 <= n mod 16 < 16) as Hm by (apply Z.mod_pos_bound; lia).
  destruct (hex_digit_value up _ Hm) as [Hv Hp]. cbn [hex_go].
  rewrite Nat2Z.inj_succ, Z.pow_succ_r in Hn by lia.
  destruct (Z.ltb_spec n 16).
  - cbn [digits chars_of]. rewrite Hv. destruct (Z.ltb_spec (n mod 16) 16); [|lia].
    split; [f_equal; rewrite Z.mod_small by lia; lia|]. intros. by constructor.
  - destruct (IH (n / 16) (String (hex_digit up (n mod 16)) s)) as [IH1 IH2];
      [split; [apply Z.div_pos; lia|apply Z.div_lt_upper_bound; lia]|].
    split; [|intros; apply IH2; by constructor]. rewrite IH1. cbn [digits]. rewrite Hv.
    destruct (Z.ltb_spec (n mod 16) 16); [|lia]. f_equal. pose proof (Z.div_mod n 16). lia.
Qed.

Lemma read_hex v : word v -> numeric ("0x" ++s show_hex true v) = true /\
  strtoul0 ("0x" ++s show_hex true v) = (v, false).
Proof.
  intros Hv. split; [done|]. unfold strtoul0. change (scan_sign ("0x" ++s show_hex true v)) with (false, "0x" ++s show_hex true v).
  cbv beta iota. change (scan_base ("0x" ++s show_hex true v)) with (16, show_hex true v). cbv beta iota.
  unfold show_hex. rewrite (u32_small v Hv). destruct (hex_go_spec true 8 v "") as [-> _]; [exact Hv|].
  cbn [digits]. unfold word, two32 in Hv. destruct (Z.ltb_spec SIZE_MAX v); [unfold SIZE_MAX, two64 in *; lia|done].
Qed.

(** *** Permissions *)

Lemma read_perms n : 0 < n < 16 -> perm_bits 0 (perm_letters n) = Some n /\ plain (perm_letters n) = true /\
  (String.length (perm_letters n) <= 4)%nat.
Proof.
  intros Hn. assert (n = 1 \/ n = 2 \/ n = 3 \/ n = 4 \/ n = 5 \/ n = 6 \/ n = 7 \/ n = 8 \/ n = 9 \/
    n = 10 \/ n = 11 \/ n = 12 \/ n = 13 \/ n = 14 \/ n = 15) as Hc by lia.
  repeat destruct Hc as [->|Hc]; [..|subst n]; vm_compute; (split_and!; [done..|lia]).
Qed.

(** *** Their characters *)

Lemma digit_plain c : isdigit c = true -> plain_char c = true.
Proof.
  unfold isdigit, between. intros H. unfold plain_char, op_char.
  destruct c as [b0 b1 b2 b3 b4 b5 b6 b7]. revert H.
  destruct b0, b1, b2, b3, b4, b5, b6, b7; vm_compute; congruence.
Qed.

Lemma plain_decimal n : 0 <= n < two64 -> plain (decimal n) = true.
Proof.
  intros Hn. unfold plain. apply andb_true_intro. split.
  - by destruct (decimal_head n Hn) as [[_ ->]|(c & t & -> & _)].
  - pose proof (decimal_digits n ltac:(lia)) as Hd. unfold Config.all_digits in Hd. rewrite forallb_forall in *.
    intros c Hc. by apply digit_plain, Hd.
Qed.

Lemma plain_show_d v : word v -> plain (show_d v) = true.
Proof.
  intros Hv. pose proof Hv as Hw. unfold word, two32 in Hw.
  destruct (show_d_spec v Hv) as [[H ->]|[H ->]]; [|apply plain_append; [done|]]; apply plain_decimal; unfold two64, two32; lia.
Qed.

Lemma plain_hex v : word v -> plain ("0x" ++s show_hex true v) = true.
Proof.
  intros Hv. unfold plain. apply andb_true_intro. split; [done|]. rewrite chars_of_append, forallb_app. cbn [chars_of].
  apply andb_true_intro. split; [done|]. unfold show_hex. rewrite (u32_small v Hv).
  destruct (hex_go_spec true 8 v "") as [_ H]; [exact Hv|]. specialize (H (Forall_nil_2 _)).
  apply forallb_forall. intros c Hc. rewrite Forall_forall in H. by apply H, list_elem_of_In.
Qed.

End RuleText.
