(* ===== verification/RuleCalls.v ===== *)
(** * Sequences of calls that build a rule (src/lib/libaudit.c)

    What a program asks for by the calls of the library, stated without the
    library: how a text such as "auid>=1000" divides ([splits]), what its value
    stands for ([denotes]), and what a call that succeeds or fails does to the
    fields and system calls of the rule ([effect]).  Whatever calls are made, the
    rule that Rule builds is the one that these effects give. *)
From S2P Require Import Prelude CString Config Lol Ellist Lookup Rule RuleFacts RuleList RuleText.

Local Open Scope audit_scope.

Module RuleCalls.
Import Rule RuleFacts RuleList RuleText.

Local Open Scope string_scope.
Local Open Scope list_scope.
Local Open Scope Z_scope.

(** ** Dividing a text *)

Definition occurs (sym t : string) : Prop := exists a b, t = a ++s sym ++s b.

(** The text is divided at the first place of the first operator of the list
    that is in it. *)
Definition splits (ops : list (string * Z)) (t f : string) (op : Z) (v : string) : Prop :=
  exists before sym behind, ops = before ++ (sym, op) :: behind /\ t = f ++s sym ++s v /\
    Forall (fun row => ~ occurs row.1 t) before /\
    forall a b, t = a ++s sym ++s b -> (String.length f <= String.length a)%nat.

Lemma starts_with_spec p s : starts_with p s = true <-> exists b, s = p ++s b.
Proof.
  revert s. induction p as [|c p IH]; intros s.
  { rewrite starts_nil. split; [|done]. by exists s. }
  destruct s as [|d s]; [split; [done|by intros [b Hb]]|].
  rewrite starts_cons, andb_true_iff, IH, Ascii.eqb_eq. split.
  - intros [-> [b ->]]. by exists b.
  - intros [b Hb]. rewrite append_cons in Hb. injection Hb as -> ->. eauto.
Qed.

Lemma skip_append p b : skip (String.length p) (p ++s b) = b.
Proof. by induction p. Qed.

Lemma starts_with_skip p s : starts_with p s = true -> s = p ++s skip (String.length p) s.
Proof. intros [b ->]%starts_with_spec. by rewrite skip_append. Qed.

Lemma split_at_spec sym t :
  match split_at sym t with
  | Some (f, v) => t = f ++s sym ++s v /\ forall a b, t = a ++s sym ++s b -> (String.length f <= String.length a)%nat
  | None => ~ occurs sym t
  end.
Proof.
  induction t as [|c t IH]; cbn [split_at].
  - destruct (starts_with sym "") eqn:E.
    + split; [by apply starts_with_skip|]. cbn. lia.
    + intros (a & b & Hab). destruct a; [|done].
      enough (starts_with sym "" = true) by congruence. apply starts_with_spec. by exists b.
  - destruct (starts_with sym (String c t)) eqn:E.
    + split; [by apply starts_with_skip|]. cbn. lia.
    + assert (Hne : forall a b, String c t = a ++s sym ++s b -> exists a', a = String c a' /\ t = a' ++s sym ++s b).
      { intros [|d a] b Hab.
        - enough (starts_with sym (String c t) = true) by congruence. apply starts_with_spec. by exists b.
        - rewrite append_cons in Hab. injection Hab as -> ->. by exists a. }
      destruct (split_at sym t) as [[f v]|]; cbn.
      * destruct IH as [IH1 IH2]. split; [by rewrite append_cons, <-IH1|].
        intros a b (a' & -> & Hab)%Hne. cbn. apply le_n_S. eauto.
      * intros (a & b & (a' & -> & Hab)%Hne). apply IH. by exists a', b.
Qed.

Lemma find_op_splits ops t f op v : find_op ops t = Some (f, op, v) -> splits ops t f op v.
Proof.
  induction ops as [|[sym o] ops IH]; cbn; [done|]. pose proof (split_at_spec sym t) as Hs.
  destruct (split_at sym t) as [[a b]|].
  - intros [= <- <- <-]. destruct Hs. by exists [], sym, ops.
  - intros (before & s & behind & -> & Ht & Hb & Hf)%IH. exists ((sym, o) :: before), s, behind.
    split_and!; try done. by constructor.
Qed.

(** ** Values *)

(** The number that a text spells, in the base of its prefix and with its sign:
    not bounded by the width of any type. *)
Definition numeral (v : string) : Z :=
  let (neg, s) := scan_sign v in
  let (base, s) := scan_base s in
  let (n, _) := digits base 0 s in if neg : bool then - n else n.

(** The 32 bits that are kept of a number; one that a [long] cannot hold is cut
    to the largest or smallest number of the type that reads it, and not described. *)
Definition spelled (v : string) (w : Z) : Prop := - 2 ^ 63 < numeral v < 2 ^ 63 -> w = u32 (numeral v).

Lemma scan_base_range s : 8 <= (scan_base s).1.
Proof. unfold scan_base. repeat case_match; cbn; lia. Qed.

Lemma strtoul0_spelled v : spelled v (u32 (strtoul0 v).1).
Proof.
  unfold spelled, numeral, strtoul0. destruct (scan_sign v) as [neg s].
  pose proof (scan_base_range s) as Hb. destruct (scan_base s) as [base s']. cbn in Hb.
  pose proof (digits_nonneg base 0 s' ltac:(lia) ltac:(lia)) as Hd. destruct (digits base 0 s') as [n r]. cbn in Hd.
  intros Hn. unfold SIZE_MAX, two64. rewrite (proj2 (Z.ltb_ge _ n)) by (destruct neg; lia). cbn.
  destruct neg; [|done]. unfold u32, u64, two32, two64. apply Z.mod_mod_divide. by exists (2 ^ 32).
Qed.

Lemma strtol0_spelled v : spelled v (u32 (strtol0 v)).
Proof.
  unfold spelled, numeral, strtol0. destruct (scan_sign v) as [neg s], (scan_base s) as [base s'].
  destruct (digits base 0 s') as [n r]. destruct neg; intros Hn; f_equal; lia.
Qed.

(** Whether the value of a field is read as a number.  The other fields know only
    names, or take a sign for a part of the name. *)
Definition a_number (field : Z) (v : string) : bool :=
  if existsb (Z.eqb field) [AUDIT_PERM; AUDIT_FILETYPE] then false
  else if field =? AUDIT_SADDR_FAM then true
  else
    numeric v || (negative v && (existsb (Z.eqb field) (AUDIT_EXIT :: AUDIT_SESSIONID :: uid_fields) ||
      ((AUDIT_ARG0 <=? field) && (field <=? AUDIT_ARG3)))).
#[global] Arguments a_number : simpl never.

(** The bits of the letters of a permission. *)
Definition letter_bits : list (ascii * Z) := [("x"%char, 0); ("w"%char, 1); ("r"%char, 2); ("a"%char, 3)].
Definition has_letter (c : ascii) (v : string) : bool := existsb (fun d => Config.tolower d =c c) (chars_of v).

Section meaning.
Context {tabs : Tables} {mach : Machine} (junk : ascii).

(** The tables with the names of message types, file types and file systems. *)
Definition name_table (field : Z) : option ((string -> string) * table) :=
  if field =? AUDIT_MSGTYPE then Some (upper, msg_typetab)
  else if field =? AUDIT_FILETYPE then Some (lower, ftypetab)
  else if field =? AUDIT_FSTYPE then Some (lower, fstypetab)
  else None.

(** What the value of a field stands for. *)
Inductive denotes (field : Z) (v : string) : operand -> Prop :=
  | as_text : is_text field = true -> denotes field v (Text (chars_of v))
  | as_number w : is_text field = false -> a_number field v = true -> spelled v w -> denotes field v (Number w)
  | as_unset : field ∈ AUDIT_SESSIONID :: uid_fields -> v = "unset" -> denotes field v (Number UINT32_MAX)
  | as_user uid : field ∈ uid_fields -> a_number field v = false -> v <> "unset" -> getpwnam v = Some uid ->
      denotes field v (Number (u32 uid))
  | as_group gid : field ∈ gid_fields -> a_number field v = false -> getgrnam v = Some gid ->
      denotes field v (Number (u32 gid))
  | as_error n : field = AUDIT_EXIT -> a_number field v = false -> s2i upper errtab v = Some n ->
      denotes field v (Number (u32 n))
  | as_minus_error name n : field = AUDIT_EXIT -> a_number field v = false -> v = "-" ++s name ->
      s2i upper errtab name = Some n -> denotes field v (Number (u32 (- n)))
  | as_name conv tab n : name_table field = Some (conv, tab) -> a_number field v = false -> s2i conv tab v = Some n ->
      denotes field v (Number (u32 n))
  | as_unknown digits rest : field = AUDIT_MSGTYPE -> a_number field v = false -> v = "UNKNOWN[" ++s digits ++s "]" ++s rest ->
      denotes field v (Number (u32 (strtol (prefix_of 7 digits))))
  | as_machine elf : field = AUDIT_ARCH -> a_number field v = false -> (audit_determine_machine v, elf) ∈ elftab ->
      denotes field v (Number elf)
  | as_letters w : field = AUDIT_PERM -> Forall (fun c => Config.tolower c ∈ letter_bits.*1) (chars_of v) -> 0 <= w < 16 ->
      Forall (fun row => Z.testbit w row.2 = has_letter row.1 v) letter_bits -> denotes field v (Number w)
  | as_left old : field = AUDIT_SESSIONID -> a_number field v = false -> v <> "unset" -> word old ->
      (** any other text for a session: the place keeps what was in it *)
      denotes field v (Number old).

(** A value that a case of the switch accepts has its meaning. *)
Definition gives (field : Z) (v : string) (c : cased) : Prop :=
  err c = 0 -> forall old, word old ->
  denotes field v (if text c then Text (chars_of v) else Number (default old (u32 <$> stored c))).

Lemma accept_gives field v x g : denotes field v (Number (u32 x)) -> gives field v (accept x g).
Proof. by intros H _ old _. Qed.

Lemma refuse_gives field v e g x t : e <> 0 -> gives field v (Cased e g x t).
Proof. by intros H He. Qed.

Lemma number_gives field v x g : is_text field = false -> a_number field v = true -> spelled v (u32 x) ->
  gives field v (accept x g).
Proof. intros. apply accept_gives. by apply as_number. Qed.

Hint Resolve strtoul0_spelled strtol0_spelled accept_gives number_gives : core.
Hint Extern 1 (gives _ _ (refuse _ _)) => by apply refuse_gives : core.

Lemma uid_number field v : existsb (Z.eqb field) uid_fields = true ->
  is_text field = false /\ a_number field v = numeric v || (negative v && true).
Proof.
  intros Hf%existsb_eqb_elem. revert field Hf. apply (Forall_forall (fun field => _ field = _ /\ _ field v = _)).
  by repeat constructor.
Qed.

Lemma uid_gives field v g : existsb (Z.eqb field) uid_fields = true -> gives field v (uid_case v g).
Proof.
  intros Hf. destruct (uid_number field v Hf) as [Ht Hn]. apply existsb_eqb_elem in Hf. unfold uid_case.
  destruct (numeric v) eqn:E1; [auto|]. destruct (negative v) eqn:E2; [auto|].
  destruct (String.eqb_spec v "unset") as [->|Hu]; unfold str_eq; [apply accept_gives|].
  { apply as_unset; [by right|done]. }
  rewrite (proj2 (String.eqb_neq v _)) by done. unfold audit_name_to_uid.
  destruct (getpwnam v) as [uid|] eqn:E3; cbn; [|auto]. apply accept_gives.
  rewrite (u32_small (u32 uid)) by apply u32_range. by apply as_user.
Qed.

Lemma gid_number field v : existsb (Z.eqb field) gid_fields = true ->
  is_text field = false /\ a_number field v = numeric v || (negative v && false).
Proof.
  intros Hf%existsb_eqb_elem. revert field Hf. apply (Forall_forall (fun field => _ field = _ /\ _ field v = _)).
  by repeat constructor.
Qed.

Lemma gid_gives field v g : existsb (Z.eqb field) gid_fields = true -> gives field v (gid_case v g).
Proof.
  intros Hf. destruct (gid_number field v Hf) as [Ht Hn]. apply existsb_eqb_elem in Hf. unfold gid_case.
  destruct (numeric v) eqn:E1; [auto|]. unfold audit_name_to_gid.
  destruct (getgrnam v) as [gid|] eqn:E3; cbn; [|auto]. apply accept_gives.
  rewrite (u32_small (u32 gid)) by apply u32_range. apply as_group; try done. by rewrite Hn, andb_false_r.
Qed.

Lemma exit_gives fl v g : gives AUDIT_EXIT v (exit_case fl v g).
Proof.
  unfold exit_case. destruct (negb _); [auto|].
  assert (Hn : a_number AUDIT_EXIT v = numeric v || (negative v && true)) by done.
  rewrite andb_true_r in Hn. destruct (numeric v || negative v); [auto|].
  unfold audit_name_to_errno. destruct (Ascii.eqb_spec (char_at v) "-") as [Hc|Hc].
  - destruct v as [|c v]; [done|]. cbn in Hc. subst c. change (skip 1 (String "-" v)) with v.
    destruct (s2i upper errtab v) as [n|] eqn:E; cbn; [|by apply refuse_gives].
    case_match; [by apply refuse_gives|]. apply accept_gives. replace (n * -1) with (- n) by lia.
    by eapply as_minus_error.
  - destruct (s2i upper errtab v) as [n|] eqn:E; cbn; [|by apply refuse_gives].
    case_match; [by apply refuse_gives|]. apply accept_gives. rewrite Z.mul_1_r. by apply as_error.
Qed.

Lemma u32_int_of x : u32 (Lol.int_of x) = u32 x.
Proof.
  unfold Lol.int_of. cbv zeta. pose proof (u32_range x) as Hx. destruct (_ <? _); [by apply u32_small|].
  unfold u32 in *. rewrite Zminus_mod_idemp_r || idtac. rewrite <-(Z_mod_plus_full _ 1).
  replace (x mod two32 - two32 + 1 * two32) with (x mod two32) by lia. by apply Z.mod_small.
Qed.

Lemma int_same_word x y : u32 x = u32 y -> Lol.int_of x = Lol.int_of y.
Proof. unfold Lol.int_of. by intros ->. Qed.

Lemma msg_type_denotes v : numeric v = false -> 0 < Lol.audit_name_to_msg_type v ->
  denotes AUDIT_MSGTYPE v (Number (u32 (Lol.audit_name_to_msg_type v))).
Proof.
  intros Hv. assert (Hn : a_number AUDIT_MSGTYPE v = false).
  { change (a_number AUDIT_MSGTYPE v) with (numeric v || (negative v && false)). by rewrite Hv, andb_false_r. }
  unfold Lol.audit_name_to_msg_type, Lol.msg_type_s2i, msg_types.
  destruct (s2i upper msg_typetab v) as [n|] eqn:E; [intros _; by eapply as_name|].
  unfold numeric in Hv. rewrite Hv.
  destruct (starts_with "UNKNOWN[" v) eqn:Es; [|lia]. apply starts_with_skip in Es. change (String.length "UNKNOWN[") with 8%nat in Es.
  destruct (span _ (skip 8 v)) as [digits rest] eqn:Esp. apply span_spec in Esp as [Hd Hr].
  destruct rest as [|c rest]; [lia|]. apply negb_false_iff, Ascii.eqb_eq in Hr as ->. intros _. rewrite u32_int_of.
  apply (as_unknown _ _ digits rest); try done. rewrite Es at 1. by rewrite Hd.
Qed.

Lemma msgtype_gives fl v g : gives AUDIT_MSGTYPE v (msgtype_case fl v g).
Proof.
  unfold msgtype_case. destruct (_ && _); [auto|]. destruct (numeric v) eqn:Hv.
  { apply number_gives; auto. change (a_number AUDIT_MSGTYPE v) with (numeric v || (negative v && false)). by rewrite Hv. }
  destruct (Z.ltb_spec 0 (Lol.audit_name_to_msg_type v)); [|auto]. apply accept_gives. by apply msg_type_denotes.
Qed.

Lemma string_gives field fl op v g : is_text field = true -> gives field v (string_case field fl op v g).
Proof.
  intros Ht He old _. destruct (string_case_spec field fl op v g) as [(_ & -> & _)|[]]; [by apply as_text|done].
Qed.

Lemma elftab_word m e : (m, e) ∈ elftab -> word e /\ 0 < e.
Proof.
  assert (Forall (fun row => word row.2 /\ 0 < row.2) elftab) as H.
  { unfold elftab. destruct with_arm, with_aarch64; by_decision. }
  intros Hin. by apply (proj1 (Forall_forall _ _) H (m, e)).
Qed.

Lemma machine_to_elf_row m : audit_machine_to_elf m <> 0 -> (m, audit_machine_to_elf m) ∈ elftab.
Proof.
  unfold audit_machine_to_elf. destruct (List.find _ _) as [[m' e]|] eqn:E; [|done]. intros _.
  apply find_some in E as [Hin Hm]. apply Z.eqb_eq in Hm. cbn in Hm. subst m'. by apply list_elem_of_In.
Qed.

Lemma arch_gives op v g : gives AUDIT_ARCH v (arch_case op v g).
Proof.
  unfold arch_case. destruct (syscalladded g); [auto|]. destruct (negb _); [auto|].
  assert (Hn : a_number AUDIT_ARCH v = numeric v || (negative v && false)) by done. rewrite andb_false_r, orb_false_r in Hn.
  destruct (numeric v).
  - pose proof (strtoul0_spelled v) as Hsp. destruct (strtoul0 v) as [e erange]. cbn in Hsp.
    destruct erange; [auto|]. destruct (_ <? 0); [auto|]. cbn [elf set_elf].
    apply number_gives; try done. by rewrite (u32_small (u32 e)) by apply u32_range.
  - destruct (Z.eqb_spec (audit_machine_to_elf (audit_determine_machine v)) 0) as [|He]; [auto|].
    apply machine_to_elf_row in He. apply accept_gives.
    rewrite u32_small by by eapply elftab_word. by apply as_machine.
Qed.

(** The letters of [v] are those whose bits [w] has and [val] had not. *)
Definition adds_letters (val : Z) (v : string) (w : Z) : Prop :=
  0 <= w < 16 /\ Forall (fun c => Config.tolower c ∈ letter_bits.*1) (chars_of v) /\
  Forall (fun row => Z.testbit w row.2 = Z.testbit val row.2 || has_letter row.1 v) letter_bits.

Lemma letter_range val b : 0 <= val < 16 -> b ∈ letter_bits.*2 -> 0 <= Z.lor val (2 ^ b) < 16.
Proof.
  assert (Forall (fun val => Forall (fun b => 0 <= Z.lor val (2 ^ b) < 16) letter_bits.*2) (seqZ 0 16)) as H by by_decision.
  intros Hv Hb. eapply Forall_forall in H; [|by apply elem_of_seqZ]. by eapply Forall_forall in H; [|exact Hb].
Qed.

Lemma adds_letter c v val w l b : (l, b) ∈ letter_bits -> Config.tolower c = l ->
  adds_letters (Z.lor val (2 ^ b)) v w -> adds_letters val (String c v) w.
Proof.
  intros Hin Hc (Hw & Hv & Hb). split; [done|]. split.
  - constructor; [|done]. rewrite Hc. by apply (list_elem_of_fmap_2 fst _ (l, b)).
  - apply Forall_forall. intros [l' b'] Hin'. eapply Forall_forall in Hb; [|exact Hin']. cbn in Hb |- *. rewrite Hb.
    change (has_letter l' (String c v)) with ((Config.tolower c =c l') || has_letter l' v). rewrite Hc, Z.lor_spec, <-orb_assoc.
    do 2 f_equal.
    assert (Forall (fun r => Forall (fun r' => Z.testbit (2 ^ r.2) r'.2 = (r.1 =c r'.1)) letter_bits) letter_bits) as H by by_decision.
    eapply Forall_forall in H; [|exact Hin]. by eapply Forall_forall in H; [|exact Hin'].
Qed.

Lemma perm_bits_spec v val w : perm_bits val v = Some w -> 0 <= val < 16 -> adds_letters val v w.
Proof.
  revert val. induction v as [|c v IH]; intros val; cbn [perm_bits].
  { intros [= <-] Hv. split; [done|]. split; [constructor|]. repeat constructor; cbn; by rewrite orb_false_r. }
  assert (Hstep : forall l b, (l, b) ∈ letter_bits -> (Config.tolower c =c l) = true ->
    perm_bits (Z.lor val (2 ^ b)) v = Some w -> 0 <= val < 16 -> adds_letters val (String c v) w).
  { intros l b Hin Hc%Ascii.eqb_eq Hw Hv. eapply adds_letter; [exact Hin|done|]. apply IH; [done|].
    apply letter_range; [done|]. by apply (list_elem_of_fmap_2 snd _ (l, b)). }
  destruct (_ =c "r"%char) eqn:Er; [by apply (Hstep "r"%char 2); [by_decision|]|].
  destruct (_ =c "w"%char) eqn:Ew; [by apply (Hstep "w"%char 1); [by_decision|]|].
  destruct (_ =c "x"%char) eqn:Ex; [by apply (Hstep "x"%char 0); [by_decision|]|].
  destruct (_ =c "a"%char) eqn:Ea; [by apply (Hstep "a"%char 3); [by_decision|]|]. done.
Qed.

Lemma perm_gives fl op v g : gives AUDIT_PERM v (perm_case fl op v g).
Proof.
  unfold perm_case. do 3 (destruct (_ : bool); [auto|]). destruct (perm_bits 0 v) as [w|] eqn:E; [|auto].
  apply perm_bits_spec in E as (Hw & Hv & Hb); [|done]. apply accept_gives.
  rewrite u32_small by (unfold two32; lia). apply as_letters; try done.
  eapply Forall_impl; [exact Hb|]. intros row ->. by rewrite Z.bits_0.
Qed.

Lemma filetype_gives fl v g : gives AUDIT_FILETYPE v (filetype_case fl v g).
Proof.
  unfold filetype_case. destruct (negb _); [auto|]. unfold audit_name_to_ftype.
  destruct (s2i lower ftypetab v) as [n|] eqn:E; cbn; [|by apply refuse_gives].
  intros _ old _. cbn. by eapply as_name.
Qed.

Lemma fstype_gives fl op v g : gives AUDIT_FSTYPE v (fstype_case fl op v g).
Proof.
  unfold fstype_case. do 2 (destruct (negb _); [auto|]).
  assert (Hn : a_number AUDIT_FSTYPE v = numeric v || (negative v && false)) by done. rewrite andb_false_r, orb_false_r in Hn.
  destruct (numeric v).
  { destruct (_ =? _); [by apply refuse_gives|]. apply number_gives; auto. }
  unfold audit_name_to_fstype. destruct (s2i lower fstypetab v) as [n|] eqn:E; cbn; [|by apply refuse_gives].
  destruct (_ =? _); [by apply refuse_gives|]. apply accept_gives. by eapply as_name.
Qed.

Lemma sessionid_gives fl v g : gives AUDIT_SESSIONID v (sessionid_case fl v g).
Proof.
  unfold sessionid_case. do 2 (destruct (_ : bool); [auto|]).
  assert (Hn : a_number AUDIT_SESSIONID v = numeric v || (negative v && true)) by done.
  destruct (numeric v); [auto|]. destruct (negative v); [auto|]. unfold str_eq.
  destruct (String.eqb_spec v "unset") as [->|Hu]; [by apply accept_gives, as_unset; [left|]|].
  intros _ old Hold. by apply as_left.
Qed.

Lemma arg_gives field v g : is_text field = false -> (AUDIT_ARG0 <=? field) && (field <=? AUDIT_ARG3) = true ->
  gives field v (arg_case v g).
Proof.
  intros Ht Hf. unfold arg_case.
  assert (Hn : a_number field v = numeric v || negative v).
  { unfold a_number. rewrite Hf. apply andb_true_iff in Hf as [H1%Z.leb_le H2%Z.leb_le]. unfold AUDIT_ARG0, AUDIT_ARG3 in *.
    rewrite (proj2 (Z.eqb_neq field AUDIT_SADDR_FAM)) by (unfold AUDIT_SADDR_FAM; lia). cbn [existsb].
    rewrite !(proj2 (Z.eqb_neq field _)) by (unfold AUDIT_PERM, AUDIT_FILETYPE; lia). cbn.
    by rewrite orb_true_r, andb_true_r. }
  destruct (numeric v); [auto|]. destruct (negative v); auto.
Qed.

Lemma saddr_gives v g : gives AUDIT_SADDR_FAM v (saddr_fam_case v g).
Proof.
  unfold saddr_fam_case. cbv zeta. destruct (_ <=? _); [by apply refuse_gives|]. apply number_gives; auto.
Qed.

Lemma default_gives field fl op v g : is_text field = false -> field <> AUDIT_PERM -> field <> AUDIT_FILETYPE ->
  gives field v (default_case field fl op v g).
Proof.
  intros Ht H1 H2. unfold default_case. do 3 (destruct (_ && _); [auto|]).
  destruct (numeric v) eqn:Hv; cbn [negb]; [|auto].
  assert (Hn : a_number field v = true).
  { unfold a_number. cbn [existsb]. rewrite !(proj2 (Z.eqb_neq field _)), Hv by done. by destruct (_ =? _). }
  destruct (_ =? _); auto.
Qed.

Lemma case_gives field fl op v g : gives field v (field_case field fl op v g).
Proof.
  unfold field_case. destruct (existsb _ uid_fields) eqn:Eu; [by apply uid_gives|].
  destruct (existsb _ gid_fields) eqn:Eg; [by apply gid_gives|].
  destruct (Z.eqb_spec field AUDIT_EXIT) as [->|]; [apply exit_gives|].
  destruct (Z.eqb_spec field AUDIT_MSGTYPE) as [->|]; [apply msgtype_gives|].
  change (existsb (Z.eqb field) (exit_strings ++ any_strings)) with (is_text field).
  destruct (is_text field) eqn:Et; [by apply string_gives|].
  destruct (Z.eqb_spec field AUDIT_ARCH) as [->|]; [apply arch_gives|].
  destruct (Z.eqb_spec field AUDIT_PERM) as [->|]; [apply perm_gives|].
  destruct (Z.eqb_spec field AUDIT_FILETYPE) as [->|]; [apply filetype_gives|].
  destruct (Z.eqb_spec field AUDIT_FSTYPE) as [->|]; [apply fstype_gives|].
  destruct (_ && _) eqn:Ea; [by apply arg_gives|].
  destruct (Z.eqb_spec field AUDIT_SESSIONID) as [->|]; [apply sessionid_gives|].
  destruct (Z.eqb_spec field AUDIT_SADDR_FAM) as [->|]; [apply saddr_gives|].
  by apply default_gives.
Qed.

(** The machine of the rules after a field: only [arch] sets it. *)
Definition elf_after (e : entry) (m : Z) : Z :=
  if e_field e =? AUDIT_ARCH then match e_operand e with Number n => n | Text _ => m end else m.

Lemma case_elf field fl op v g old : err (field_case field fl op v g) = 0 ->
  elf (after (field_case field fl op v g)) = elf_after (Entry field op (operand_of field fl op v g old)) (elf g).
Proof.
  unfold elf_after, operand_of. cbn [e_field e_operand]. destruct (Z.eqb_spec field AUDIT_ARCH) as [->|Hne].
  - change (field_case AUDIT_ARCH fl op v g) with (arch_case op v g). unfold arch_case.
    destruct (syscalladded g); [done|]. destruct (negb _); [done|]. destruct (numeric v).
    + destruct (strtoul0 v) as [e erange], erange; [done|]. destruct (_ <? 0); [done|]. intros _. cbn.
      by rewrite (u32_small (u32 e)) by apply u32_range.
    + destruct (Z.eqb_spec (audit_machine_to_elf (audit_determine_machine v)) 0) as [|He]; [done|]. intros _. cbn.
      apply machine_to_elf_row, elftab_word in He as [Hw _]. by rewrite u32_small.
  - intros _. unfold field_case. rewrite (proj2 (Z.eqb_neq field AUDIT_ARCH)) by done.
    unfold uid_case, gid_case, exit_case, msgtype_case, string_case, perm_case, filetype_case, fstype_case, arg_case,
      sessionid_case, saddr_fam_case, default_case, accept, refuse.
    repeat (case_match; try done).
Qed.

(** ** What the calls ask for *)

Inductive call :=
  | Field (t : string) (fl : Z)
  | Compare (t : string) (fl : Z)
  | Syscall (name : string)
  | SyscallNumber (n : Z)
  | Perms (p : Z)
  | Watch (type : Z) (path : string).

(** The calls of libaudit.h that build a rule. *)
Definition do_call (c : call) (g : globals) (r : audit_rule_data) : option (Z * globals * option audit_rule_data) :=
  match c with
  | Field t fl => audit_rule_fieldpair_data junk (Some t) fl g r
  | Compare t fl => '(rc, r) ← audit_rule_interfield_comp_data (Some t) fl r; Some (rc, g, Some r)
  | Syscall name => '(rc, r) ← audit_rule_syscallbyname_data name g r; Some (rc, g, Some r)
  | SyscallNumber n => '(rc, r) ← audit_rule_syscall_data n r; Some (rc, g, Some r)
  | Perms p => '(rc, r) ← audit_update_watch_perms p r; Some (rc, g, Some r)
  | Watch type path => audit_add_watch_dir type path g (Some r)
  end.

(** The results of the calls, until one loses the rule. *)
Fixpoint run (cs : list call) (g : globals) (r : audit_rule_data) : option (list Z * globals * option audit_rule_data) :=
  match cs with
  | [] => Some ([], g, Some r)
  | c :: cs =>
      '(rc, g, r) ← do_call c g r;
      match r with
      | None => Some ([rc], g, None)
      | Some r => '(rcs, g, r) ← run cs g r; Some (rc :: rcs, g, r)
      end
  end.

(** What the library does not test: the sign of a number and the length of a path. *)
Definition callable (c : call) : Prop :=
  match c with
  | SyscallNumber n => 0 <= n
  | Watch _ path => Z.of_nat (String.length path) <= PATH_MAX
  | _ => True
  end.

(** A rule as its caller sees it: its fields, its system calls and the machine
    that names of system calls are for. *)
Record view := View { v_entries : list entry; v_calls : gset Z; v_elf : Z }.

Definition every : gset Z := list_to_set (seqZ 0 2048).
Definition syscalls (r : audit_rule_data) : gset Z := list_to_set (filter (fun k => has_syscall r k = true) (seqZ 0 2048)).
Definition view_of (g : globals) (r : audit_rule_data) : view := View (entries r) (syscalls r) (elf g).

(** The number of a system call for the machine [m], 0 for this one. *)
Inductive call_named (m : Z) (name : string) : Z -> Prop :=
  | by_name machine k : machine = (if m =? 0 then audit_detect_machine else audit_elf_to_machine m) ->
      0 <= machine -> audit_name_to_syscall name machine = k -> call_named m name k
  | by_number machine k : machine = (if m =? 0 then audit_detect_machine else audit_elf_to_machine m) ->
      0 <= machine -> audit_name_to_syscall name machine < 0 -> numeric name = true ->
      (- 2 ^ 63 < numeral name < 2 ^ 63 -> k = to_int (numeral name)) -> call_named m name k.

Definition is_field (c : call) : bool := match c with Field _ _ => true | _ => false end.
Definition has_perm (es : list entry) : bool := existsb (fun e => e_field e =? AUDIT_PERM) es.

(** What a call with result [rc] does to a rule. *)
Inductive effect : call -> Z -> view -> view -> Prop :=
  | refused c rc es ks m m' : rc <> 0 -> (is_field c = false -> m' = m) -> effect c rc (View es ks m) (View es ks m')
  | field_added t fl f op v x es ks m : splits field_ops t f op v -> 0 <= audit_name_to_field f ->
      denotes (audit_name_to_field f) v x -> let e := Entry (audit_name_to_field f) op x in
      effect (Field t fl) 0 (View es ks m) (View (es ++ [e]) ks (elf_after e m))
  | comparison_added t fl f op v c es ks m : splits comp_ops t f op v ->
      compare_fields (audit_name_to_field f) (audit_name_to_field v) = Some c ->
      effect (Compare t fl) 0 (View es ks m) (View (es ++ [Entry AUDIT_FIELD_COMPARE op (Number c)]) ks m)
  | every_call es ks m : effect (Syscall "all") 0 (View es ks m) (View es every m)
  | call_added name k es ks m : name <> "all" -> call_named m name k -> 0 <= k < 2048 ->
      effect (Syscall name) 0 (View es ks m) (View es ({[k]} ∪ ks) m)
  | number_added n es ks m : 0 <= n < 2048 -> effect (SyscallNumber n) 0 (View es ks m) (View es ({[n]} ∪ ks) m)
  | perms_changed p es ks m : has_perm es = true -> effect (Perms p) 0 (View es ks m) (View (set_perm p <$> es) ks m)
  | perms_added p es ks m : es <> [] -> has_perm es = false ->
      effect (Perms p) 0 (View es ks m) (View (es ++ [Entry AUDIT_PERM AUDIT_EQUAL (Number (u32 p))]) ks m)
  | watch_made type path ks m : type = AUDIT_WATCH \/ type = AUDIT_DIR ->
      effect (Watch type path) 0 (View [] ks m)
        (View [Entry type AUDIT_EQUAL (Text (chars_of path)); Entry AUDIT_PERM AUDIT_EQUAL (Number 15)] every m).

(** The effects of a sequence of calls, one after the other. *)
Inductive effects : list call -> list Z -> view -> view -> Prop :=
  | effects_nil s : effects [] [] s s
  | effects_cons c cs rc rcs s s1 s2 : effect c rc s s1 -> effects cs rcs s1 s2 -> effects (c :: cs) (rc :: rcs) s s2.

(** ** The calls have their effects *)

Lemma elem_of_syscalls r k : k ∈ syscalls r <-> has_syscall r k = true /\ 0 <= k < 2048.
Proof. unfold syscalls. rewrite elem_of_list_to_set, list_elem_of_filter, elem_of_seqZ. done. Qed.

Lemma syscalls_mask r r' : mask r' = mask r -> syscalls r' = syscalls r.
Proof. intros H. apply set_eq. intros k. rewrite !elem_of_syscalls. unfold has_syscall. by rewrite H. Qed.

Lemma syscalls_add r r' n : 0 <= n < 2048 ->
  (forall k, 0 <= k < 2048 -> has_syscall r' k = (k =? n) || has_syscall r k) -> syscalls r' = {[n]} ∪ syscalls r.
Proof.
  intros Hn H. apply set_eq. intros k. rewrite elem_of_union, elem_of_singleton, !elem_of_syscalls. split.
  - intros [Hk Hr]. rewrite H in Hk by done. apply orb_true_iff in Hk as [->%Z.eqb_eq|]; auto.
  - intros [->|[Hk Hr]]; rewrite H by done; (split; [|done]); apply orb_true_iff; [left; by apply Z.eqb_eq|by right].
Qed.

Lemma syscalls_every r : all_syscalls r -> syscalls r = every.
Proof.
  unfold all_syscalls. intros H. apply set_eq. intros k. rewrite elem_of_syscalls. unfold every.
  rewrite elem_of_list_to_set, elem_of_seqZ. split; [by intros [_ ?]|]. intros Hk. split; [|done].
  unfold has_syscall. rewrite H, lookup_replicate_2 by (pose proof (Z.div_lt_upper_bound k 32 64); lia). cbn.
  change UINT32_MAX with (Z.ones 32). apply Z.ones_spec_low. apply Z.mod_pos_bound. lia.
Qed.

Definition has_effect (c : call) (g : globals) (r : audit_rule_data) : Prop :=
  exists rc g' r', do_call c g r = Some (rc, g', r') /\
  match r' with
  | None => exists n, realloc_ok n = false
  | Some r' => wf r' /\ effect c rc (view_of g r) (view_of g' r')
  end.

(** A call that leaves the fields and the system calls. *)
Lemma refused_effect c rc g g' r r' : rc <> 0 -> entries r' = entries r -> mask r' = mask r ->
  (is_field c = false -> elf g' = elf g) -> effect c rc (view_of g r) (view_of g' r').
Proof. intros Hrc He Hm Hg. unfold view_of. rewrite He, (syscalls_mask r r' Hm). by apply refused. Qed.

Lemma field_effect t fl g r : wf r -> has_effect (Field t fl) g r.
Proof.
  intros Hwf. destruct (fieldpair_called junk t fl g r Hwf) as (rc & g' & r' & Heq & Hc).
  exists rc, g', r'. split; [exact Heq|]. destruct r' as [r'|]; [|by destruct Hc].
  destruct Hc as (Hwf' & Hm & _ & _ & He). split; [done|].
  destruct (Z.eqb_spec rc 0) as [->|Hne]; [|by apply refused_effect].
  destruct He as (e & (f & op & v & old & Hf & Hpos & Herr & Hold & -> & ->) & He).
  unfold view_of. rewrite He, (syscalls_mask r r' Hm), (case_elf _ _ _ _ _ old Herr).
  apply (field_added _ _ f op v); [by apply find_op_splits|done|]. by apply case_gives.
Qed.

Lemma compare_effect t fl g r : wf r -> has_effect (Compare t fl) g r.
Proof.
  intros Hwf. destruct (interfield_called t fl r Hwf) as (rc & r' & Heq & Hc).
  exists rc, g, (Some r'). split; [cbn [do_call]; by rewrite Heq|]. destruct Hc as (Hwf' & Hm & _ & _ & He). split; [done|].
  destruct (Z.eqb_spec rc 0) as [->|Hne]; [|by apply refused_effect].
  destruct He as (e & (f & op & v & c & Hf & Hcmp & ->) & He).
  unfold view_of. rewrite He, (syscalls_mask r r' Hm). apply (comparison_added _ _ f op v); [by apply find_op_splits|done].
Qed.

Lemma call_number_named name g : 0 <= call_number name g -> call_named (elf g) name (call_number name g).
Proof.
  unfold call_number. cbv zeta. set (machine := if elf g =? 0 then _ else _). destruct (Z.ltb_spec machine 0); [lia|].
  destruct (Z.ltb_spec (audit_name_to_syscall name machine) 0) as [Hlt|]; cbn [andb]; [|intros _; by apply (by_name _ _ machine)].
  destruct (isdigit (char_at name)) eqn:Hd; [|lia]. intros _. apply (by_number _ _ machine); try done.
  intros Hn. by apply int_same_word, strtol0_spelled.
Qed.

Lemma syscall_effect name g r : wf r -> has_effect (Syscall name) g r.
Proof.
  intros Hwf. destruct (syscallbyname_spec name g r Hwf) as (rc & r' & Heq & Hwf' & He & _ & _ & Hrc).
  exists rc, g, (Some r'). split; [cbn [do_call]; by rewrite Heq|]. split; [done|].
  destruct (Z.eqb_spec rc 0) as [->|Hne]; [|apply refused_effect; congruence].
  unfold view_of. rewrite He. unfold str_eq in Hrc. destruct (String.eqb_spec name "all") as [->|Hall].
  - rewrite (syscalls_every r') by done. apply every_call.
  - destruct Hrc as [Hk Hadd]. rewrite (syscalls_add r r' _ Hk Hadd). apply call_added; try done.
    apply call_number_named. lia.
Qed.

Lemma number_effect n g r : wf r -> 0 <= n -> has_effect (SyscallNumber n) g r.
Proof.
  intros Hwf Hn. destruct (syscall_data_spec n r Hwf Hn) as (rc & r' & Heq & Hwf' & He & _ & _ & Hrc).
  exists rc, g, (Some r'). split; [cbn [do_call]; by rewrite Heq|]. split; [done|].
  destruct (Z.ltb_spec n 2048); destruct Hrc as [-> Hr]; [|subst; by apply refused_effect].
  unfold view_of. rewrite He, (syscalls_add r r' n); [|lia|done]. apply number_added. lia.
Qed.

Lemma perms_effect p g r : wf r -> has_effect (Perms p) g r.
Proof.
  intros Hwf. destruct (Z.ltb_spec (field_count r) 1) as [Hc|Hc].
  { exists (-1), g, (Some r). cbn. unfold audit_update_watch_perms. rewrite (proj2 (Z.ltb_lt _ _)) by done.
    split; [done|]. split; [done|]. by apply refused_effect. }
  destruct (update_watch_perms_spec p r Hwf Hc) as (rc & r' & Heq & Hwf' & Hm & _ & _ & Hrc).
  exists rc, g, (Some r'). split; [cbn [do_call]; by rewrite Heq|]. split; [done|]. fold (has_perm (entries r)) in Hrc.
  destruct (has_perm (entries r)) eqn:Hp.
  { destruct Hrc as [-> He]. unfold view_of. rewrite He, (syscalls_mask r r' Hm). by apply perms_changed. }
  destruct (_ <? 63); destruct Hrc as [-> He]; [|by apply refused_effect].
  unfold view_of. rewrite He, (syscalls_mask r r' Hm). apply perms_added; [|done].
  intros Hnil. pose proof (entries_fields r Hwf) as Hl. rewrite Hnil in Hl. apply (f_equal length) in Hl.
  rewrite length_take in Hl. destruct (wf_fields _ Hwf) as [H64 _]. pose proof (wf_count _ Hwf). cbn in Hl. lia.
Qed.

Lemma no_fields r : wf r -> field_count r = 0 -> entries r = [].
Proof. intros Hwf Hc. unfold entries, rows. rewrite Hc. by unfold rows_of. Qed.

Lemma watch_effect type path g r : wf r -> Z.of_nat (String.length path) <= PATH_MAX -> has_effect (Watch type path) g r.
Proof.
  intros Hwf Hl.
  assert (Hre : audit_add_watch_dir type path g (Some r) = Some (-1, g, Some r) -> has_effect (Watch type path) g r).
  { intros Heq. exists (-1), g, (Some r). split; [exact Heq|]. split; [done|]. by apply refused_effect. }
  destruct (Z.eqb_spec (field_count r) 0) as [Hc|Hc].
  2:{ apply Hre. unfold audit_add_watch_dir. by rewrite (proj2 (Z.eqb_neq _ _)). }
  destruct (decide (type = AUDIT_WATCH \/ type = AUDIT_DIR)) as [Ht|Ht].
  2:{ apply Hre. unfold audit_add_watch_dir. rewrite Hc, !(proj2 (Z.eqb_neq type _)) by tauto. done. }
  destruct (add_watch_spec type path g (Some r) Ht Hl Hc) as (rc & g' & r' & Heq & H).
  exists rc, g', r'. split; [exact Heq|].
  destruct (realloc_ok _) eqn:Hmem; [|destruct H as (_ & _ & ->); by eexists].
  destruct H as (-> & -> & r1 & -> & Hwf1 & Hall & _ & _ & He). split; [done|].
  unfold view_of. rewrite He, (syscalls_every r1 Hall), (no_fields r Hwf Hc). by apply watch_made.
Qed.

Lemma do_call_spec c g r : wf r -> callable c -> has_effect c g r.
Proof.
  intros Hwf Hc. destruct c; [by apply field_effect|by apply compare_effect|by apply syscall_effect|by apply number_effect|
    by apply perms_effect|by apply watch_effect].
Qed.

Lemma no_syscalls : syscalls audit_rule_init_data = ∅.
Proof. vm_compute. reflexivity. Qed.

Lemma run_calls_spec cs g r : wf r -> Forall callable cs ->
  exists rcs g' r', run cs g r = Some (rcs, g', r') /\
  match r' with
  | None => exists n, realloc_ok n = false
  | Some r' => wf r' /\ effects cs rcs (view_of g r) (view_of g' r')
  end.
Proof.
  intros Hwf Hcs. revert g r Hwf. induction Hcs as [|c cs Hc _ IH]; intros g r Hwf; cbn.
  { eexists _, _, _. split; [done|]. split; [done|constructor]. }
  destruct (do_call_spec c g r Hwf Hc) as (rc & g1 & r1 & -> & H1). cbn.
  destruct r1 as [r1|]; [|by eexists _, _, _]. destruct H1 as [Hwf1 He1].
  destruct (IH g1 r1 Hwf1) as (rcs & g2 & r2 & -> & H2). cbn. eexists _, _, _. split; [done|].
  destruct r2 as [r2|]; [|done]. destruct H2 as [Hwf2 He2]. split; [done|]. by econstructor.
Qed.

(** C12: Whatever fields, comparisons, system calls by name or by a number that is
    not negative, permissions and watches of paths of at most PATH_MAX bytes are
    given to an empty rule, in any order, no call leaves the arrays, the counts,
    the buffer and the mask of the rule stay consistent, and its fields and system
    calls are what the effects of the calls give: a call that fails changes none of
    them; one that returns 0 adds the field that its text divides into, with the
    operator of the text and the value that the text denotes (its string, the 32 low
    bits of its number, the number of its name), or adds the system call, or
    changes the permissions, or makes the watch.  The exception is a session that
    is neither a number nor "unset": its value is what the place held before.  The
    rule is lost only when there is no memory. *)
Theorem rule_holds_accepted cs g : Forall callable cs ->
  exists rcs g' r', run cs g audit_rule_init_data = Some (rcs, g', r') /\
  match r' with
  | None => exists n, realloc_ok n = false
  | Some r' => wf r' /\ effects cs rcs (View [] ∅ (elf g)) (view_of g' r')
  end.
Proof.
  intros Hcs. destruct (run_calls_spec cs g audit_rule_init_data wf_init Hcs) as (rcs & g' & r' & Hrun & H).
  exists rcs, g', r'. split; [done|]. unfold view_of in H at 1. by rewrite no_syscalls in H.
Qed.

End meaning.

End RuleCalls.
