(* ===== verification/RuleFields.v ===== *)
(** * Fields of listed rules are read back

    What auditctl -l prints for a field of a rule is a name, an operator and a
    value; the library reads them back as the same field, for the values that have
    such a text ([number_ok], [text_ok]). *)
From S2P Require Import Prelude CString StrSplit Nvlist Config ConfigFacts Lol Ellist Lookup Rule RuleFacts RuleList RuleText Getopt Auditctl AuditctlFacts.

Local Open Scope audit_scope.

Module RuleFields.
Import Auditctl RuleList RuleText AuditctlFacts.

Local Open Scope string_scope.
Local Open Scope list_scope.
Local Open Scope Z_scope.

(** ** The text of a field *)

Section fields.
Context {tabs : Tables} {mach : Machine}.

(** The names of a table can be printed in a line, and are not taken for numbers. *)
Definition names_ok (conv : string -> string) (tab : table) : Prop :=
  table_ok conv tab /\ Forall (fun row => plain row.2 = true /\ isdigit (char_at row.2) = false /\ 0 < row.1 < 2 ^ 31) tab.

Context (errtab_ok : names_ok upper errtab) (msg_typetab_ok : names_ok upper msg_typetab).

Lemma names_ok_i2s conv tab v s : names_ok conv tab -> i2s tab v = Some s ->
  s2i conv tab s = Some v /\ plain s = true /\ isdigit (char_at s) = false /\ 0 < v < 2 ^ 31.
Proof.
  intros [Hok Hf] Hi. split; [by eapply i2s_s2i|]. unfold i2s in Hi. apply fmap_Some in Hi as ([w t] & Hfind & ->).
  apply find_some in Hfind as [Hin ->%Z.eqb_eq]. apply list_elem_of_In in Hin.
  rewrite Forall_forall in Hf. by apply Hf in Hin.
Qed.

Definition number_text (f v : Z) : string :=
  if f =? AUDIT_MSGTYPE then default (show_d v) (audit_msg_type_to_name (to_int v))
  else if f =? AUDIT_PERM then perm_letters v
  else if f =? AUDIT_INODE then show_u v
  else if (AUDIT_ARG0 <=? f) && (f <=? AUDIT_ARG3) then "0x" ++s show_hex true v
  else if f =? AUDIT_EXIT then
    match audit_errno_to_name (Z.abs (to_int v)) with
    | Some err => if to_int v <? 0 then "-" ++s err else show_d v
    | None => show_d v
    end
  else if f =? AUDIT_FSTYPE then default (show_d v) (audit_fstype_to_name (to_int v))
  else show_d v.

(** The numbers that are read back, on a list and with an operator. *)
Definition number_ok (fl f op v : Z) : bool :=
  if existsb (Z.eqb f) uid_fields then true
  else if existsb (Z.eqb f) gid_fields then v <? 2 ^ 31
  else if f =? AUDIT_EXIT then (fl =? AUDIT_FILTER_EXIT) && negb (v =? 2 ^ 31)
  else if f =? AUDIT_MSGTYPE then ((fl =? AUDIT_FILTER_EXCLUDE) || (fl =? AUDIT_FILTER_USER)) && (v <? 2 ^ 31)
  else if f =? AUDIT_PERM then (fl =? AUDIT_FILTER_EXIT) && (op =? AUDIT_EQUAL) && (0 <? v) && (v <? 16)
  else if f =? AUDIT_FSTYPE then (fl =? AUDIT_FILTER_FS) && eq_or_ne op && (v <? 2 ^ 31)
  else if existsb (Z.eqb f) [AUDIT_ARG0; AUDIT_ARG1; AUDIT_ARG2; AUDIT_ARG3] then true
  else if f =? AUDIT_SESSIONID then
    negb (Z.land audit_get_features AUDIT_FEATURE_BITMAP_SESSIONID_FILTER =? 0) &&
    ((fl =? AUDIT_FILTER_EXCLUDE) || (fl =? AUDIT_FILTER_USER) || (fl =? AUDIT_FILTER_EXIT))
  else if f =? AUDIT_SADDR_FAM then (v <? AF_MAX) && (v <? 2 ^ 31)
  else if f =? AUDIT_INODE then (fl =? AUDIT_FILTER_EXIT) && eq_or_ne op
  else if existsb (Z.eqb f) [AUDIT_DEVMAJOR; AUDIT_DEVMINOR; AUDIT_SUCCESS; AUDIT_PPID]
  then (fl =? AUDIT_FILTER_EXIT) && (v <? 2 ^ 31)
  else existsb (Z.eqb f) [AUDIT_PID; AUDIT_PERS] && (v <? 2 ^ 31).

Definition number_after (f : Z) (g : globals) : globals := if f =? AUDIT_FSTYPE then set_filterfsadded g else g.

(** The value is stored and nothing else happens. *)
Definition reads (f fl op : Z) (t : string) (g : globals) (v : Z) : Prop :=
  plain t = true /\ exists x, field_case f fl op t g = Cased 0 (number_after f g) (Some x) false /\ u32 x = v.

Ltac each_elem H :=
  apply existsb_eqb_elem in H;
  repeat (apply elem_of_cons in H as [->|H]); [..|by apply elem_of_nil in H].

(** Numbers that are shown with [%d] and read as signed or unsigned. *)
Lemma reads_d f fl op g v : word v ->
  (v < 2 ^ 31 -> numeric (show_d v) = true -> exists x, field_case f fl op (show_d v) g = Cased 0 (number_after f g) (Some x) false /\
     (x = (strtoul0 (show_d v)).1 \/ x = strtol0 (show_d v))) ->
  (2 ^ 31 <= v -> numeric (show_d v) = false -> negative (show_d v) = true ->
     field_case f fl op (show_d v) g = Cased 0 (number_after f g) (Some (strtol0 (show_d v))) false) ->
  reads f fl op (show_d v) g v.
Proof.
  intros Hv Hpos Hneg. split; [by apply plain_show_d|].
  destruct (read_d v Hv) as [(Hlt & Hnum & H1 & H2)|(Hge & Hnum & Hn & H)].
  - destruct (Hpos Hlt Hnum) as (x & -> & Hx). exists x. split; [done|].
    destruct Hx as [->| ->]; rewrite ?H1, ?H2; by apply u32_small.
  - rewrite Hneg by done. by eexists.
Qed.

Lemma uid_reads f fl op g v : word v -> existsb (Z.eqb f) uid_fields = true -> reads f fl op (show_d v) g v.
Proof.
  intros Hv Hf. assert (Hc : forall t, field_case f fl op t g = uid_case t g) by (intros; unfold field_case; by rewrite Hf).
  assert (Ha : number_after f g = g) by (by each_elem Hf).
  apply reads_d; [done|..]; rewrite Hc, Ha; unfold uid_case.
  - intros _ ->. eexists. split; [done|by left].
  - intros _ -> ->. done.
Qed.

Lemma gid_reads f fl op g v : word v -> v < 2 ^ 31 -> existsb (Z.eqb f) gid_fields = true -> reads f fl op (show_d v) g v.
Proof.
  intros Hv Hlt Hf. assert (Hc : forall t, field_case f fl op t g = gid_case t g) by (by each_elem Hf).
  assert (Ha : number_after f g = g) by (by each_elem Hf).
  apply reads_d; [done|..|lia]; rewrite Hc, Ha; unfold gid_case.
  intros _ ->. eexists. split; [done|by right].
Qed.

Lemma char_at_append a b : a <> "" -> char_at (a ++s b) = char_at a.
Proof. by destruct a. Qed.

Lemma exit_reads op g v : word v -> v <> 2 ^ 31 ->
  reads AUDIT_EXIT AUDIT_FILTER_EXIT op (number_text AUDIT_EXIT v) g v.
Proof.
  intros Hv Hne. change (number_text AUDIT_EXIT v) with
    (match audit_errno_to_name (Z.abs (to_int v)) with
     | Some err => if to_int v <? 0 then "-" ++s err else show_d v | None => show_d v end).
  assert (Hc : forall t, field_case AUDIT_EXIT AUDIT_FILTER_EXIT op t g = exit_case AUDIT_FILTER_EXIT t g) by done.
  assert (Hd : reads AUDIT_EXIT AUDIT_FILTER_EXIT op (show_d v) g v).
  { apply reads_d; [done|..]; rewrite Hc; unfold exit_case; cbn [negb Z.eqb AUDIT_FILTER_EXIT Pos.eqb].
    - intros _ ->. eexists. split; [done|by right].
    - intros _ -> ->. done. }
  destruct (audit_errno_to_name _) as [err|] eqn:Herr; [|done]. destruct (Z.ltb_spec (to_int v) 0) as [Hneg|]; [|done].
  rewrite int_of_word in * by done. unfold word, two32 in *. destruct (Z.ltb_spec v (2 ^ 31)); [lia|].
  unfold audit_errno_to_name in Herr. rewrite (proj2 (Z.ltb_ge _ 0)) in Herr by lia.
  destruct (names_ok_i2s _ _ _ _ errtab_ok Herr) as (Hs & Hp & Hdig & Hr).
  split; [by apply plain_append|]. rewrite Hc. unfold exit_case. cbn [negb Z.eqb AUDIT_FILTER_EXIT Pos.eqb].
  assert (numeric ("-" ++s err) = false) as -> by done.
  assert (negative ("-" ++s err) = false) as ->.
  { unfold negative. rewrite append_cons, append_nil_l. cbn [skip]. by rewrite Hdig, andb_false_r. }
  cbn [orb].
  assert (audit_name_to_errno ("-" ++s err) = v - 2 ^ 32) as ->.
  { unfold audit_name_to_errno. rewrite append_cons, append_nil_l. cbn. rewrite Hs. cbn. lia. }
  assert (Hu : u32 (v - 2 ^ 32) = v).
  { unfold u32, two32. replace (v - 2 ^ 32) with (v + (-1) * 2 ^ 32) by lia. rewrite Z.mod_add by done. apply Z.mod_small. lia. }
  rewrite Hu, (proj2 (Z.eqb_neq v 0)) by lia. by eexists.
Qed.

Lemma msgtype_reads fl op g v : word v -> v < 2 ^ 31 -> fl = AUDIT_FILTER_EXCLUDE \/ fl = AUDIT_FILTER_USER ->
  reads AUDIT_MSGTYPE fl op (number_text AUDIT_MSGTYPE v) g v.
Proof.
  intros Hv Hlt Hfl. change (number_text AUDIT_MSGTYPE v) with (default (show_d v) (audit_msg_type_to_name (to_int v))).
  assert (Hc : forall t, field_case AUDIT_MSGTYPE fl op t g =
    if numeric t then accept (strtol0 t) g
    else if 0 <? Lol.audit_name_to_msg_type t then accept (Lol.audit_name_to_msg_type t) g else refuse EAU_MSGTYPEUNKNOWN g)
    by (by destruct Hfl as [->| ->]).
  rewrite int_of_word, (proj2 (Z.ltb_lt v _)) by done.
  destruct (audit_msg_type_to_name v) as [s|] eqn:Hs; cbn [from_option id].
  - destruct (names_ok_i2s _ _ _ _ msg_typetab_ok Hs) as (Hs2 & Hp & Hdig & Hr). split; [done|]. rewrite Hc.
    unfold numeric. rewrite Hdig. unfold Lol.audit_name_to_msg_type, Lol.msg_type_s2i, msg_types. rewrite Hs2.
    rewrite (proj2 (Z.ltb_lt 0 v)) by lia. exists v. split; [done|]. by apply u32_small.
  - apply reads_d; [done| |lia]. intros _ Hn. rewrite Hc, Hn. eexists. split; [done|by right].
Qed.

Lemma perm_reads g v : 0 < v < 16 ->
  reads AUDIT_PERM AUDIT_FILTER_EXIT AUDIT_EQUAL (perm_letters v) g v.
Proof.
  intros Hv. destruct (read_perms v Hv) as (Hb & Hp & Hl). split; [done|].
  change (field_case AUDIT_PERM AUDIT_FILTER_EXIT AUDIT_EQUAL (perm_letters v) g)
    with (perm_case AUDIT_FILTER_EXIT AUDIT_EQUAL (perm_letters v) g).
  unfold perm_case. cbn [negb Z.eqb AUDIT_FILTER_EXIT AUDIT_EQUAL Pos.eqb].
  rewrite (proj2 (Z.ltb_ge 4 _)), Hb by lia. exists v. split; [done|]. apply u32_small. unfold two32. lia.
Qed.

Lemma fstype_reads op g v : word v -> v < 2 ^ 31 -> eq_or_ne op = true ->
  reads AUDIT_FSTYPE AUDIT_FILTER_FS op (number_text AUDIT_FSTYPE v) g v.
Proof.
  intros Hv Hlt Hop. change (number_text AUDIT_FSTYPE v) with (default (show_d v) (audit_fstype_to_name (to_int v))).
  assert (Hc : forall t x, to_int x = v -> (if numeric t then (strtoul0 t).1 else audit_name_to_fstype t) = x ->
    field_case AUDIT_FSTYPE AUDIT_FILTER_FS op t g = accept x (set_filterfsadded g)).
  { intros t x Hx Ht. change (field_case AUDIT_FSTYPE AUDIT_FILTER_FS op t g) with (fstype_case AUDIT_FILTER_FS op t g).
    unfold fstype_case. rewrite Hop, Ht. cbn [negb Z.eqb AUDIT_FILTER_FS Pos.eqb].
    rewrite Hx, (proj2 (Z.eqb_neq v _)); [done|]. unfold word in Hv. lia. }
  assert (Hi : to_int v = v) by (rewrite int_of_word by done; by rewrite (proj2 (Z.ltb_lt v _))).
  rewrite Hi. destruct (audit_fstype_to_name v) as [s|] eqn:Hs; cbn [from_option id].
  - assert (Hrow : (v, s) ∈ fstypetab).
    { unfold audit_fstype_to_name, i2s in Hs. apply fmap_Some in Hs as ([w t] & Hfind & ->).
      apply find_some in Hfind as [Hin ->%Z.eqb_eq]. by apply list_elem_of_In. }
    assert (Hall : Forall (fun row => plain row.2 = true /\ numeric row.2 = false /\ audit_name_to_fstype row.2 = row.1) fstypetab)
      by by_decision.
    rewrite Forall_forall in Hall. destruct (Hall _ Hrow) as (Hp & Hn & Hr). cbn [fst snd] in Hp, Hn, Hr. split; [done|].
    rewrite (Hc s v Hi) by (by rewrite Hn). exists v. split; [done|]. by apply u32_small.
  - apply reads_d; [done| |lia]. intros _ Hn. destruct (read_d v Hv) as [(_ & _ & H1 & _)|]; [|lia].
    rewrite (Hc _ v Hi) by (by rewrite Hn). eexists. split; [done|]. by left.
Qed.

Lemma arg_reads f fl op g v : word v -> existsb (Z.eqb f) [AUDIT_ARG0; AUDIT_ARG1; AUDIT_ARG2; AUDIT_ARG3] = true ->
  reads f fl op ("0x" ++s show_hex true v) g v.
Proof.
  intros Hv Hf. split; [by apply plain_hex|]. destruct (read_hex v Hv) as [Hn Hr].
  assert (Hc : field_case f fl op ("0x" ++s show_hex true v) g = arg_case ("0x" ++s show_hex true v) g) by (by each_elem Hf).
  assert (Ha : number_after f g = g) by (by each_elem Hf).
  rewrite Hc, Ha. unfold arg_case. rewrite Hn, Hr. exists v. split; [done|]. by apply u32_small.
Qed.

Lemma sessionid_reads fl op g v : word v ->
  (Z.land audit_get_features AUDIT_FEATURE_BITMAP_SESSIONID_FILTER =? 0) = false ->
  fl = AUDIT_FILTER_EXCLUDE \/ fl = AUDIT_FILTER_USER \/ fl = AUDIT_FILTER_EXIT ->
  reads AUDIT_SESSIONID fl op (show_d v) g v.
Proof.
  intros Hv Hfeat Hfl.
  assert (Hc : forall t, numeric t = true -> field_case AUDIT_SESSIONID fl op t g = accept (strtoul0 t).1 g).
  { intros t Ht. change (field_case AUDIT_SESSIONID fl op t g) with (sessionid_case fl t g). unfold sessionid_case.
    rewrite Hfeat, Ht. by destruct Hfl as [->|[->| ->]]. }
  assert (Hc' : forall t, numeric t = false -> negative t = true -> field_case AUDIT_SESSIONID fl op t g = accept (strtol0 t) g).
  { intros t Ht Ht'. change (field_case AUDIT_SESSIONID fl op t g) with (sessionid_case fl t g). unfold sessionid_case.
    rewrite Hfeat, Ht, Ht'. by destruct Hfl as [->|[->| ->]]. }
  apply reads_d; [done|..].
  - intros _ Hn. rewrite Hc by done. eexists. split; [done|by left].
  - intros _ Hn Hn'. by rewrite Hc'.
Qed.

Lemma saddr_reads fl op g v : word v -> v < AF_MAX -> v < 2 ^ 31 -> reads AUDIT_SADDR_FAM fl op (show_d v) g v.
Proof.
  intros Hv Hlt Hlt'. apply reads_d; [done| |lia]. intros _ Hn. destruct (read_d v Hv) as [(_ & _ & H1 & _)|]; [|lia].
  change (field_case AUDIT_SADDR_FAM fl op (show_d v) g) with (saddr_fam_case (show_d v) g). unfold saddr_fam_case.
  rewrite H1, (u32_small v Hv), (proj2 (Z.leb_gt AF_MAX v)) by done. eexists. split; [done|by left].
Qed.

Lemma show_u_d v : word v -> plain (show_u v) = true /\ numeric (show_u v) = true /\ (strtoul0 (show_u v)).1 = v.
Proof.
  intros Hv. unfold show_u. rewrite (u32_small v Hv). unfold word, two32 in Hv.
  assert (0 <= v < two64) by (unfold two64; lia).
  rewrite strtoul0_decimal, numeric_decimal, plain_decimal by done. done.
Qed.

Lemma inode_reads op g v : word v -> eq_or_ne op = true -> reads AUDIT_INODE AUDIT_FILTER_EXIT op (show_u v) g v.
Proof.
  intros Hv Hop. destruct (show_u_d v Hv) as (Hp & Hn & Hr). split; [done|].
  change (field_case AUDIT_INODE AUDIT_FILTER_EXIT op (show_u v) g) with (default_case AUDIT_INODE AUDIT_FILTER_EXIT op (show_u v) g).
  unfold default_case. rewrite Hop, Hn. cbn -[strtoul0 show_u]. rewrite Hr. exists v. split; [done|]. by apply u32_small.
Qed.

(** The other fields are numbers without a sign. *)
Lemma other_reads f fl op g v : word v -> v < 2 ^ 31 ->
  (fl = AUDIT_FILTER_EXIT /\ existsb (Z.eqb f) [AUDIT_DEVMAJOR; AUDIT_DEVMINOR; AUDIT_SUCCESS; AUDIT_PPID] = true \/
   existsb (Z.eqb f) [AUDIT_PID; AUDIT_PERS] = true) -> reads f fl op (show_d v) g v.
Proof.
  intros Hv Hlt Hf. apply reads_d; [done| |lia]. intros _ Hn.
  exists (strtol0 (show_d v)). split; [|by right].
  assert (Hc : field_case f fl op (show_d v) g = default_case f fl op (show_d v) g)
    by (destruct Hf as [[-> Hf]|Hf]; by each_elem Hf).
  rewrite Hc. unfold default_case. rewrite Hn. destruct Hf as [[-> Hf]|Hf]; by each_elem Hf.
Qed.

Lemma number_reads fl f op v g : word v -> number_ok fl f op v = true -> reads f fl op (number_text f v) g v.
Proof.
  intros Hv. unfold number_ok.
  destruct (existsb _ uid_fields) eqn:E1.
  { intros _. pose proof (uid_reads f fl op g v Hv E1) as H. by each_elem E1. }
  destruct (existsb _ gid_fields) eqn:E2.
  { intros Hlt%Z.ltb_lt. pose proof (gid_reads f fl op g v Hv Hlt E2) as H. by each_elem E2. }
  destruct (Z.eqb_spec f AUDIT_EXIT) as [->|_].
  { intros [->%Z.eqb_eq Hne]%andb_prop. apply exit_reads; [done|]. by apply Z.eqb_neq, negb_true_iff. }
  destruct (Z.eqb_spec f AUDIT_MSGTYPE) as [->|_].
  { intros [Hfl Hlt%Z.ltb_lt]%andb_prop. apply msgtype_reads; [done|done|].
    apply orb_prop in Hfl as [->%Z.eqb_eq| ->%Z.eqb_eq]; auto. }
  destruct (Z.eqb_spec f AUDIT_PERM) as [->|_].
  { intros [[[->%Z.eqb_eq ->%Z.eqb_eq]%andb_prop H1%Z.ltb_lt]%andb_prop H2%Z.ltb_lt]%andb_prop. by apply perm_reads. }
  destruct (Z.eqb_spec f AUDIT_FSTYPE) as [->|_].
  { intros [[->%Z.eqb_eq Hop]%andb_prop Hlt%Z.ltb_lt]%andb_prop. by apply fstype_reads. }
  destruct (existsb _ [AUDIT_ARG0; _; _; _]) eqn:E3.
  { intros _. replace (number_text f v) with ("0x" ++s show_hex true v); [by apply arg_reads|]. by each_elem E3. }
  destruct (Z.eqb_spec f AUDIT_SESSIONID) as [->|_].
  { intros [Hfeat%negb_true_iff Hfl]%andb_prop. apply sessionid_reads; [done|done|].
    apply orb_prop in Hfl as [[->%Z.eqb_eq| ->%Z.eqb_eq]%orb_prop| ->%Z.eqb_eq]; auto. }
  destruct (Z.eqb_spec f AUDIT_SADDR_FAM) as [->|_].
  { intros [H1%Z.ltb_lt H2%Z.ltb_lt]%andb_prop. by apply saddr_reads. }
  destruct (Z.eqb_spec f AUDIT_INODE) as [->|_].
  { intros [->%Z.eqb_eq Hop]%andb_prop. by apply inode_reads. }
  destruct (existsb _ [AUDIT_DEVMAJOR; _; _; _]) eqn:E4.
  { intros [->%Z.eqb_eq Hlt%Z.ltb_lt]%andb_prop.
    pose proof (other_reads f AUDIT_FILTER_EXIT op g v Hv Hlt (or_introl (conj eq_refl E4))) as H. by each_elem E4. }
  intros [E5 Hlt%Z.ltb_lt]%andb_prop.
  pose proof (other_reads f fl op g v Hv Hlt (or_intror E5)) as H. by each_elem E5.
Qed.

(** *** Strings *)

Definition text_ok (fl f op : Z) (s : string) : bool :=
  is_text f && negb (f =? AUDIT_FILTERKEY) && plain s && (Z.of_nat (String.length s) <=? PATH_MAX) &&
  (negb (existsb (Z.eqb f) exit_strings) || (fl =? AUDIT_FILTER_EXIT)) &&
  (negb (existsb (Z.eqb f) [AUDIT_WATCH; AUDIT_DIR; AUDIT_EXE]) || (op =? AUDIT_EQUAL)) &&
  (negb (f =? AUDIT_EXE) || negb (Z.land audit_get_features AUDIT_FEATURE_BITMAP_EXECUTABLE_PATH =? 0)).

Definition text_after (f : Z) (g : globals) : globals :=
  let g := if (f =? AUDIT_WATCH) || (f =? AUDIT_DIR) then set_permadded g else g in
  if f =? AUDIT_EXE then set_exeadded g else g.

Lemma text_reads fl f op s g : text_ok fl f op s = true ->
  field_case f fl op s g = Cased 0 (text_after f g) (Some (Z.of_nat (String.length s))) true.
Proof.
  unfold text_ok. intros [[[[[[Ht Hk%negb_true_iff]%andb_prop _]%andb_prop Hl%Z.leb_le]%andb_prop He]%andb_prop Ho]%andb_prop Hx]%andb_prop.
  rewrite field_case_string by done. unfold string_case, text_after.
  assert (existsb (Z.eqb f) exit_strings && negb (fl =? AUDIT_FILTER_EXIT) = false) as -> by (destruct (existsb _ exit_strings), (fl =? _); done).
  rewrite Hk. cbn [andb].
  assert ((f =? AUDIT_EXE) && (Z.land audit_get_features AUDIT_FEATURE_BITMAP_EXECUTABLE_PATH =? 0) = false) as ->
    by (destruct (f =? AUDIT_EXE), (_ =? 0); done).
  assert ((f =? AUDIT_EXE) && negb (eq_or_ne op) = false) as ->.
  { destruct (Z.eqb_spec f AUDIT_EXE) as [->|]; [|done]. cbn in Ho. apply Z.eqb_eq in Ho as ->. done. }
  rewrite (proj2 (Z.ltb_ge PATH_MAX _)) by done. done.
Qed.

(** *** Fields *)

Definition entry_value (e : entry) : string :=
  match e_operand e with Number v => number_text (e_field e) v | Text s => Ellist.to_string s end.

Definition entry_text (e : entry) : string :=
  show (audit_field_to_name (e_field e)) ++s symbol (e_op e) ++s entry_value e.

Definition entry_ok (fl : Z) (e : entry) : bool :=
  let f := e_field e in
  match audit_field_to_name f with Some _ => true | None => false end &&
  existsb (Z.eqb (e_op e)) field_ops.*2 && (check_filter fl f =? 0) &&
  match e_operand e with
  | Number v => (0 <=? v) && (v <? two32) && number_ok fl f (e_op e) v
  | Text s => text_ok fl f (e_op e) (Ellist.to_string s)
  end.

Definition entry_after (e : entry) (g : globals) : globals :=
  match e_operand e with Number _ => number_after (e_field e) g | Text _ => text_after (e_field e) g end.

Definition name_row_ok (row : Z * string) : Prop :=
  audit_name_to_field row.2 = row.1 /\ row.2 <> "" /\ Forall (fun c => op_char c = false) (chars_of row.2) /\
  (row.1 <> AUDIT_FILTERKEY -> char_at row.2 <> "k"%char) /\ field_of row.1 = row.1 /\ plain row.2 = true /\ 0 <= row.1.

Lemma field_name f n : audit_field_to_name f = Some n -> name_row_ok (f, n).
Proof.
  unfold audit_field_to_name, i2s. intros ([w t] & Hfind & ->)%fmap_Some.
  apply find_some in Hfind as [Hin ->%Z.eqb_eq]. apply list_elem_of_In in Hin. cbn.
  assert (Forall name_row_ok fieldtab) as Hall by by_decision.
  by apply (proj1 (Forall_forall _ _) Hall) in Hin.
Qed.

Lemma op_symbol op : op ∈ field_ops.*2 -> (symbol op, op) ∈ field_ops /\ op_of op = op.
Proof.
  intros Hop. cbn in Hop. repeat (apply elem_of_cons in Hop as [->|Hop]); [..|by apply elem_of_nil in Hop]; by_decision.
Qed.

Lemma to_string_chars s : chars_of (Ellist.to_string s) = s.
Proof. apply String.list_ascii_of_string_of_list_ascii. Qed.

Lemma plain_nonempty s : plain s = true -> s <> "".
Proof. by intros H ->. Qed.

(** What the library makes of the text of a field. *)
Lemma entry_takes fl e g : entry_ok fl e = true ->
  exists n, audit_field_to_name (e_field e) = Some n /\ audit_name_to_field n = e_field e /\
    takes (entry_text e) fl g n (e_op e) (entry_value e) /\
    after (field_case (e_field e) fl (e_op e) (entry_value e) g) = entry_after e g /\
    (forall old, operand_of (e_field e) fl (e_op e) (entry_value e) g old = e_operand e) /\
    plain (entry_value e) = true.
Proof.
  unfold entry_ok. destruct (audit_field_to_name (e_field e)) as [n|] eqn:Hn; [|done]. cbn [andb].
  intros [[Hop Hcf%Z.eqb_eq]%andb_prop Hv]%andb_prop. exists n. split; [done|].
  destruct (field_name _ _ Hn) as (Hf & Hn0 & Hno & _ & _ & _ & H0). cbn [fst snd] in Hf, Hn0, Hno, H0. split; [done|].
  destruct (op_symbol (e_op e)) as [Hsym _]; [by apply existsb_eqb_elem|].
  assert (Hread : plain (entry_value e) = true /\ err (field_case (e_field e) fl (e_op e) (entry_value e) g) = 0 /\
    after (field_case (e_field e) fl (e_op e) (entry_value e) g) = entry_after e g /\
    (forall old, operand_of (e_field e) fl (e_op e) (entry_value e) g old = e_operand e)).
  { unfold operand_of, entry_value, entry_after. destruct (e_operand e) as [v|s].
    - apply andb_prop in Hv as [[H1%Z.leb_le H2%Z.ltb_lt]%andb_prop Hv].
      destruct (number_reads fl (e_field e) (e_op e) v g (conj H1 H2) Hv) as (Hp & x & -> & Hx). cbn. by rewrite Hx.
    - rewrite (text_reads _ _ _ _ _ Hv). cbn. split_and!; try done; [|by rewrite to_string_chars].
      unfold text_ok in Hv. by repeat (apply andb_prop in Hv as [Hv ?]). }
  destruct Hread as (Hp & Herr & Hafter & Hop'). split_and!; try done.
  unfold takes. rewrite Hf. split_and!; try done; [|by apply plain_nonempty].
  unfold entry_text. rewrite Hn. apply find_op_text; [done|by apply plain_no_ops|done].
Qed.

End fields.

End RuleFields.
