(* ===== verification/RulePrint.v ===== *)
(** * Listed rules as options

    auditctl -l prints a rule as the options of a line of a rules file.  Here the
    options of a rule are written down ([rule_opts]), and the listing is shown to
    print them ([rule_printed]). *)
From S2P Require Import Prelude CString StrSplit Nvlist Config ConfigFacts Lol Ellist Lookup Rule RuleFacts RuleList RuleText Getopt Auditctl AuditctlFacts RuleFields.

Local Open Scope audit_scope.

Module RulePrint.
Import Auditctl RuleList RuleText AuditctlFacts RuleFields.

Local Open Scope string_scope.
Local Open Scope list_scope.
Local Open Scope Z_scope.

(** ** Texts *)

Lemma append_assoc a b c : (a ++s b) ++s c = a ++s (b ++s c).
Proof. induction a as [|x a IH]; [done|]. by rewrite !append_cons, IH. Qed.

Lemma append_length a b : String.length (a ++s b) = (String.length a + String.length b)%nat.
Proof. induction a as [|x a IH]; [done|]. rewrite append_cons. cbn. by rewrite IH. Qed.

Lemma concat_all_app l k : concat_all (l ++ k) = concat_all l ++s concat_all k.
Proof.
  unfold concat_all. induction l as [|x l IH]; [done|]. cbn [app List.fold_right]. by rewrite IH, append_assoc.
Qed.

Lemma prefix_of_all n s : (String.length s <= n)%nat -> prefix_of n s = s.
Proof.
  revert n. induction s as [|c s IH]; intros [|n] H; cbn in *; try done; [lia|]. by rewrite IH by lia.
Qed.

(** The words of a text with separators between them. *)
Definition free (sep : ascii) (s : string) : Prop := s <> "" /\ sep ∉ chars_of s.

Lemma tokens_from_word sep acc w s : sep ∉ chars_of w ->
  tokens_from sep acc (w ++s s) = tokens_from sep (acc ++s w) s.
Proof.
  revert acc. induction w as [|c w IH]; intros acc Hw; [by rewrite append_nil|].
  cbn in Hw. apply not_elem_of_cons in Hw as [Hc Hw]. rewrite append_cons. cbn [tokens_from].
  destruct (c =c sep) eqn:E; [apply Ascii.eqb_eq in E; congruence|].
  rewrite IH by done. f_equal. rewrite append_assoc. done.
Qed.

Lemma tokens_of_join sep ws : Forall (free sep) ws -> tokens sep (join (String sep "") ws) = ws.
Proof.
  unfold tokens. induction ws as [|w ws IH]; intros Hws; [done|]. apply Forall_cons in Hws as [[Hne Hw] Hws].
  assert (Hstr : str_eq w "" = false) by (unfold str_eq; by apply String.eqb_neq).
  destruct ws as [|w' ws]; cbn [join].
  - rewrite <-(append_nil w) at 1. rewrite tokens_from_word by done. cbn [tokens_from].
    rewrite append_nil_l, Hstr. done.
  - rewrite tokens_from_word, append_cons, append_nil_l by done. cbn [tokens_from].
    rewrite Ascii.eqb_refl, append_nil_l, Hstr. cbn [app]. f_equal. by apply IH.
Qed.

(** ** The options of a rule *)

Definition o_a : ascii := "a".
Definition o_F : ascii := "F".
Definition o_C : ascii := "C".
Definition o_S : ascii := "S".

(** The text of an option behind the others. *)
Definition opt_text (x : ascii * string) : string := " -" ++s String x.1 "" ++s " " ++s x.2.

(** The machine: the operator and the value. *)
Abbreviation arch := (option (Z * Z)).

Section printing.
Context {tabs : Tables} {mach : Machine} {kernel : Kernel} {itp : Nv.Interp} (junk : ascii).

Definition comparison_text (c op : Z) : string :=
  match case c cmp_names with Some (a, b) => a ++s symbol op ++s b | None => "" end.

(** A field that is not the machine and not the keys. *)
Definition entry_opt (e : entry) : ascii * string :=
  match e_operand e with
  | Number c => if e_field e =? AUDIT_FIELD_COMPARE then (o_C, comparison_text c (e_op e)) else (o_F, entry_text e)
  | Text _ => (o_F, entry_text e)
  end.

Definition compare_ok (fl op c : Z) : bool :=
  (fl =? AUDIT_FILTER_EXIT) && ((op =? AUDIT_EQUAL) || (op =? AUDIT_NOT_EQUAL)) &&
  existsb (fun row => row.1 =? c) cmp_names.

Definition item_ok (fl : Z) (e : entry) : bool :=
  match e_operand e with
  | Number c => if e_field e =? AUDIT_FIELD_COMPARE then compare_ok fl (e_op e) c else entry_ok fl e
  | Text _ => entry_ok fl e
  end.

Definition arch_bits (v : Z) : string := if negb (Z.land AUDIT_ARCH_64BIT v =? 0) then "b64" else "b32".
Definition arch_entries (a : arch) : list entry :=
  match a with Some (op, v) => [Entry AUDIT_ARCH op (Number v)] | None => [] end.
Definition arch_opts (a : arch) : opts :=
  match a with Some (op, v) => [(o_F, "arch" ++s symbol op ++s arch_bits v)] | None => [] end.

(** The processor of this machine, in its width of 64 or 32 bits. *)
Definition arch_ok (fl : Z) (a : arch) : bool :=
  match a with
  | Some (op, v) => eq_or_ne op && (check_filter fl AUDIT_ARCH =? 0) && negb (v =? 0) && (0 <=? audit_elf_to_machine v) &&
      (audit_machine_to_elf (audit_determine_machine (arch_bits v)) =? v)
  | None => true
  end.

Definition key_text (ks : list string) : string := join (String KEY_SEP "") ks.
Definition key_entries (ks : list string) : list entry :=
  match ks with [] => [] | _ => [Entry AUDIT_FILTERKEY AUDIT_EQUAL (Text (chars_of (key_text ks)))] end.
Definition key_opts (ks : list string) : opts := (fun k => (o_F, "key=" ++s k)) <$> ks.

(** The system calls: those of the mask, unless the list has none. *)
Definition syscall_opts (elf : Z) (r : audit_rule_data) : opts :=
  if no_syscalls (flags r) then []
  else if mask_full r then [(o_S, "all")]
  else match mask_syscalls r with [] => [] | scs => [(o_S, join "," (syscall_name elf <$> scs))] end.

Definition elf_of (a : arch) : Z := match a with Some (_, v) => v | None => 0 end.

Definition rule_opts (r : audit_rule_data) (a : arch) (es : list entry) (ks : list string) : opts :=
  (o_a, show (audit_action_to_name (to_int (action r))) ++s "," ++s show (audit_flag_to_name (flags r))) ::
  arch_opts a ++ syscall_opts (elf_of a) r ++ (entry_opt <$> es) ++ key_opts ks.

(** ** Printing *)

Definition items_text (os : opts) : string := concat_all (opt_text <$> os).

Lemma items_text_app os os' : items_text (os ++ os') = items_text os ++s items_text os'.
Proof. unfold items_text. by rewrite fmap_app, concat_all_app. Qed.

(** The fields that have a number and are printed with [-F]. *)
Definition number_fields : list Z :=
  uid_fields ++ gid_fields ++ [AUDIT_EXIT; AUDIT_MSGTYPE; AUDIT_PERM; AUDIT_FSTYPE; AUDIT_ARG0; AUDIT_ARG1; AUDIT_ARG2; AUDIT_ARG3;
    AUDIT_SESSIONID; AUDIT_SADDR_FAM; AUDIT_INODE; AUDIT_DEVMAJOR; AUDIT_DEVMINOR; AUDIT_SUCCESS; AUDIT_PPID; AUDIT_PID; AUDIT_PERS].

Lemma number_field fl f op v : number_ok fl f op v = true -> f ∈ number_fields.
Proof.
  intros H. apply existsb_eqb_elem. revert H. unfold number_ok, number_fields. rewrite !existsb_app.
  destruct (existsb _ uid_fields); [done|]. destruct (existsb _ gid_fields); [done|].
  cbn [existsb orb].
  do 4 (destruct (_ =? _); [by rewrite ?orb_true_r|]).
  do 4 (destruct (_ =? _); [by rewrite ?orb_true_r|]).
  repeat (destruct (f =? _); [by rewrite ?orb_true_r|]). done.
Qed.

Lemma perm_op fl op v : number_ok fl AUDIT_PERM op v = true -> op = AUDIT_EQUAL.
Proof. cbn. by intros [[[_ ->%Z.eqb_eq]%andb_prop _]%andb_prop _]%andb_prop. Qed.

Lemma print_number r count sc mch f op v name st : f ∈ number_fields -> (f = AUDIT_PERM -> op = AUDIT_EQUAL) ->
  audit_field_to_name f = Some name ->
  exists a b, print_named false false r count sc mch f op v name st =
    Some (" -F " ++s name ++s symbol op ++s number_text f v, Printing (boffset st) a b).
Proof.
  intros Hf Hop Hn. destruct st as [off a b]. unfold print_named.
  assert (Hc : (1 <? count) || negb false = true) by apply orb_true_r.
  unfold number_fields in Hf. cbn [uid_fields gid_fields app] in Hf.
  repeat (apply elem_of_cons in Hf as [->|Hf]); [..|by apply elem_of_nil in Hf];
  first [ exists a, b; rewrite ?Hc; reflexivity | exists v, b; rewrite Hc; reflexivity | exists a, v; rewrite Hc; reflexivity | idtac].
  rewrite (Hop eq_refl). exists a, b. by injection Hn as <-.
Qed.

Lemma until_nul_all t : NUL ∉ t -> StrSplit.until_nul t = t.
Proof.
  induction t as [|c t IH]; intros Hn; [done|]. apply not_elem_of_cons in Hn as [Hc Hn].
  cbn. destruct (c =c NUL) eqn:E; [apply char_eq_true in E; congruence|]. by rewrite IH.
Qed.

Lemma text_at_spec r off s rest : drop (Z.to_nat off) (buf r) = s ++ rest -> Z.of_nat (length s) <= PATH_MAX -> NUL ∉ s ->
  text_at r off (Z.of_nat (length s)) = Some (Ellist.to_string s).
Proof.
  intros Hd Hl Hn. unfold text_at. rewrite Hd, Nat2Z.id, take_app_length.
  assert (Hi : to_int (Z.of_nat (length s)) = Z.of_nat (length s)).
  { rewrite int_of_word by (unfold word, two32, PATH_MAX in *; lia).
    rewrite (proj2 (Z.ltb_lt _ _)); [done|]. unfold PATH_MAX in *. lia. }
  rewrite Hi, (proj2 (Z.ltb_ge _ 0)), (proj2 (Z.leb_le 0 _)), Z.eqb_refl by lia. cbn [andb orb].
  by rewrite until_nul_all.
Qed.

Lemma plain_not c s : plain s = true -> plain_char c = false -> c ∉ chars_of s.
Proof.
  unfold plain. intros [_ H]%andb_prop Hc Hin. rewrite forallb_forall in H.
  apply list_elem_of_In, H in Hin. congruence.
Qed.

Lemma print_text r count sc mch fl f op s rest name st : text_ok fl f op (Ellist.to_string s) = true ->
  audit_field_to_name f = Some name -> drop (Z.to_nat (boffset st)) (buf r) = s ++ rest ->
  print_named false false r count sc mch f op (Z.of_nat (length s)) name st =
    Some (" -F " ++s name ++s symbol op ++s Ellist.to_string s,
          Printing (boffset st + Z.of_nat (length s)) (a0 st) (a1 st)).
Proof.
  intros Hok Hn Hd. pose proof Hok as Hok'. unfold text_ok in Hok'.
  destruct (andb_prop _ _ Hok') as [[[[[[Ht Hk%negb_true_iff]%andb_prop Hp]%andb_prop Hl%Z.leb_le]%andb_prop _]%andb_prop Ho]%andb_prop _].
  rewrite string_length_list, to_string_chars in Hl.
  assert (Htext : text_at r (boffset st) (Z.of_nat (length s)) = Some (Ellist.to_string s)).
  { apply (text_at_spec _ _ _ rest); [done..|]. rewrite <-(to_string_chars s). by apply plain_not. }
  unfold print_named. rewrite Htext. clear Hok Hok' Hp Hd Htext.
  unfold is_text in Ht. cbn [exit_strings any_strings app] in Ht. apply existsb_eqb_elem in Ht.
  repeat (apply elem_of_cons in Ht as [->|Ht]); [..|by apply elem_of_nil in Ht]; try reflexivity; try done;
    cbn in Ho; apply Z.eqb_eq in Ho as ->; by injection Hn as <-.
Qed.

(** What the loop over the fields prints for an entry. *)
Definition entry_print (e : entry) : string :=
  if e_field e =? AUDIT_ARCH then ""
  else if e_field e =? AUDIT_FILTERKEY then
    match e_operand e with Text s => items_text (key_opts (tokens KEY_SEP (Ellist.to_string s))) | Number _ => "" end
  else opt_text (entry_opt e).

(** A key has characters that stand for themselves. *)
Definition keys_ok (ks : list string) : bool :=
  forallb plain ks && (Z.of_nat (String.length (key_text ks)) <=? AUDIT_MAX_KEY_LEN).

Inductive listed (fl : Z) : entry -> Prop :=
  | listed_arch op v : listed fl (Entry AUDIT_ARCH op (Number v))
  | listed_item e : item_ok fl e = true -> listed fl e
  | listed_keys ks : keys_ok ks = true -> listed fl (Entry AUDIT_FILTERKEY AUDIT_EQUAL (Text (chars_of (key_text ks)))).

(** The row of the arrays that an entry is read from, with its string in front of [b]. *)
Definition row_of (e : entry) (row : Z * Z * Z) (b : list ascii) : Prop :=
  row.1.1 = e_field e /\ row.1.2 = e_op e /\
  match e_operand e with
  | Number v => row.2 = v /\ is_text (e_field e) = false
  | Text s => row.2 = Z.of_nat (length s) /\ is_text (e_field e) = true /\ exists rest, b = s ++ rest
  end.

Lemma compare_listed fl op c : compare_ok fl op c = true ->
  fl = AUDIT_FILTER_EXIT /\ op_of op = op /\ (symbol op, op) ∈ comp_ops /\
    exists a b, case c cmp_names = Some (a, b) /\ to_int c = c /\ compare_fields (audit_name_to_field a) (audit_name_to_field b) = Some c /\
    plain a = true /\ plain b = true /\ 0 <= audit_name_to_field a /\ 0 <= audit_name_to_field b.
Proof.
  unfold compare_ok. intros [[->%Z.eqb_eq Hop]%andb_prop (row & Hin & <-%Z.eqb_eq)%existsb_exists]%andb_prop.
  split; [done|]. assert (op_of op = op /\ (symbol op, op) ∈ comp_ops) as [H1 H2].
  { apply orb_prop in Hop as [->%Z.eqb_eq| ->%Z.eqb_eq]; by_decision. }
  split_and!; [done..|].
  assert (Forall (fun row => case row.1 cmp_names = Some (row.2.1, row.2.2) /\ to_int row.1 = row.1 /\
    compare_fields (audit_name_to_field row.2.1) (audit_name_to_field row.2.2) = Some row.1 /\
    plain row.2.1 = true /\ plain row.2.2 = true /\ 0 <= audit_name_to_field row.2.1 /\ 0 <= audit_name_to_field row.2.2) cmp_names) as Hall
    by by_decision.
  apply list_elem_of_In, (proj1 (Forall_forall _ _) Hall) in Hin. by exists row.2.1, row.2.2.
Qed.

Lemma entry_ok_name fl e : entry_ok fl e = true -> exists n, audit_field_to_name (e_field e) = Some n /\
    field_of (e_field e) = e_field e /\ op_of (e_op e) = e_op e.
Proof.
  unfold entry_ok. destruct (audit_field_to_name (e_field e)) as [n|] eqn:Hn; [|done]. cbn [andb].
  intros [[Hop _]%andb_prop _]%andb_prop. exists n. destruct (field_name _ _ Hn) as (_ & _ & _ & _ & Hf & _). cbn in Hf.
  apply existsb_eqb_elem, op_symbol in Hop as [_ Hop]. done.
Qed.

Lemma text_field fl f op s : text_ok fl f op s = true -> f <> AUDIT_ARCH /\ f <> AUDIT_FILTERKEY.
Proof.
  unfold text_ok. destruct (Z.eqb_spec f AUDIT_FILTERKEY); [by rewrite andb_false_r|].
  intros H. split; [|done]. by intros ->.
Qed.

Lemma number_not fl f op v : number_ok fl f op v = true -> f <> AUDIT_ARCH /\ f <> AUDIT_FILTERKEY /\ f <> AUDIT_FIELD_COMPARE.
Proof.
  intros Hf%number_field.
  assert (Forall (fun f => f <> AUDIT_ARCH /\ f <> AUDIT_FILTERKEY /\ f <> AUDIT_FIELD_COMPARE) number_fields) as Hall by by_decision.
  by apply (proj1 (Forall_forall _ _) Hall) in Hf.
Qed.

Lemma keys_free ks : keys_ok ks = true -> Forall (free KEY_SEP) ks.
Proof.
  unfold keys_ok. intros [H _]%andb_prop. apply Forall_forall. intros k Hk. apply list_elem_of_In in Hk.
  rewrite forallb_forall in H. specialize (H k Hk). split; [by apply plain_nonempty|by apply plain_not].
Qed.

Lemma keys_chars ks : keys_ok ks = true -> Forall (fun c => plain_char c = true \/ c = KEY_SEP) (chars_of (key_text ks)).
Proof.
  unfold keys_ok, key_text. intros [H _]%andb_prop. induction ks as [|k ks IH]; [constructor|].
  cbn [forallb] in H. apply andb_prop in H as [Hk H].
  assert (Hkc : Forall (fun c => plain_char c = true \/ c = KEY_SEP) (chars_of k)).
  { apply Forall_forall. intros c Hc%list_elem_of_In. left. unfold plain in Hk. apply andb_prop in Hk as [_ Hk].
    rewrite forallb_forall in Hk. auto. }
  cbn [join]. destruct ks as [|k' ks]; [done|]. rewrite !chars_of_append. apply Forall_app. split; [done|].
  constructor; [by right|]. by apply IH.
Qed.

Lemma keys_length ks : keys_ok ks = true -> Z.of_nat (length (chars_of (key_text ks))) <= AUDIT_MAX_KEY_LEN.
Proof. unfold keys_ok. intros [_ H%Z.leb_le]%andb_prop. by rewrite string_length_list in H. Qed.

Lemma key_opts_text ks : items_text (key_opts ks) = concat_all ((fun k => " -F key=" ++s k) <$> ks).
Proof.
  unfold items_text, key_opts. rewrite <-list_fmap_compose. f_equal.
Qed.

Lemma of_keys ks : Ellist.to_string (chars_of (key_text ks)) = key_text ks.
Proof. apply String.string_of_list_ascii_of_string. Qed.

Lemma print_entry r count sc mch fl e row st : listed fl e -> row_of e row (drop (Z.to_nat (boffset st)) (buf r)) ->
  exists a b, print_field false false r count sc mch row st =
    Some (entry_print e, Printing (boffset st + if is_text (e_field e) then row.2 else 0) a b).
Proof.
  destruct row as [[f o] v], st as [off a b]. intros Hl (Hf & Ho & Hv). cbn [fst snd boffset] in *. subst f o.
  unfold print_field. destruct Hl as [op w|e Hi|ks Hk].
  - exists a, b. cbn -[Z.add]. rewrite Z.add_0_r. done.
  - unfold item_ok in Hi. unfold entry_print, entry_opt. destruct (e_operand e) as [c|s] eqn:He.
    + destruct Hv as [-> ->]. rewrite Z.add_0_r. destruct (Z.eqb_spec (e_field e) AUDIT_FIELD_COMPARE) as [->|Hne].
      * destruct (compare_listed _ _ _ Hi) as (_ & Hop & _ & x & y & Hcase & Hint & _). exists a, b.
        change (field_of AUDIT_FIELD_COMPARE) with AUDIT_FIELD_COMPARE. cbn -[print_field_cmp op_of to_int opt_text].
        rewrite Hop, Hint. unfold print_field_cmp, comparison_text, opt_text. rewrite Hcase. done.
      * destruct (entry_ok_name _ _ Hi) as (n & Hn & -> & ->). unfold entry_ok in Hi. rewrite He in Hi.
        cbv beta iota zeta in Hi. apply andb_prop in Hi as [_ Hi]. apply andb_prop in Hi as [_ Hi].
        destruct (number_not _ _ _ _ Hi) as (H1 & H2 & _). rewrite (proj2 (Z.eqb_neq _ AUDIT_ARCH)), Hn by done.
        rewrite (proj2 (Z.eqb_neq _ AUDIT_FILTERKEY)) by done.
        destruct (print_number r count sc mch (e_field e) (e_op e) c n (Printing off a b)) as (a' & b' & ->);
          [by eapply number_field|intros Hp; rewrite Hp in Hi; by eapply perm_op|done|].
        exists a', b'. unfold opt_text, entry_text, entry_value. rewrite He, Hn. done.
    + destruct Hv as (-> & -> & rest & Hd). destruct (entry_ok_name _ _ Hi) as (n & Hn & -> & ->).
      unfold entry_ok in Hi. rewrite He in Hi. apply andb_prop in Hi as [_ Hi].
      destruct (text_field _ _ _ _ Hi) as [H1 H2]. rewrite (proj2 (Z.eqb_neq _ AUDIT_ARCH)), Hn by done.
      rewrite (proj2 (Z.eqb_neq _ AUDIT_FILTERKEY)) by done.
      rewrite (print_text r count sc mch fl _ _ s rest n (Printing off a b)) by done.
      exists a, b. unfold opt_text, entry_text, entry_value. rewrite He, Hn. done.
  - destruct Hv as (-> & Ht & rest & Hd). exists a, b. cbn [e_field e_op].
    change (field_of AUDIT_FILTERKEY) with AUDIT_FILTERKEY. cbn -[text_at Z.add Z.of_nat chars_of is_text].
    rewrite (text_at_spec _ _ _ rest); [|done| |].
    2:{ pose proof (keys_length _ Hk). unfold AUDIT_MAX_KEY_LEN, PATH_MAX in *. lia. }
    2:{ intros Hin. pose proof (keys_chars _ Hk) as Hc. rewrite Forall_forall in Hc. by destruct (Hc _ Hin). }
    cbn [mbind option_bind]. unfold entry_print. cbn [e_field e_operand Z.eqb Pos.eqb AUDIT_ARCH AUDIT_FILTERKEY].
    rewrite key_opts_text. cbn [e_field] in Ht. rewrite Ht. done.
Qed.


Lemma row_of_decode f o v b : 0 <= v -> (is_text f = true -> v <= Z.of_nat (length b)) ->
  match decode [(f, o, v)] b with [e] => row_of e (f, o, v) b /\ e_field e = f | _ => False end.
Proof.
  intros Hv Hl. cbn [decode]. destruct (is_text f) eqn:Ht; cbn; [|done]. unfold row_of. cbn. rewrite length_take.
  specialize (Hl eq_refl). split_and!; try done; [lia|]. exists (drop (Z.to_nat v) b). by rewrite take_drop.
Qed.

Lemma print_entries r count sc mch fl rs st : 0 <= boffset st -> Forall (fun row => 0 <= row.2) rs ->
  text_len rs <= Z.of_nat (length (drop (Z.to_nat (boffset st)) (buf r))) ->
  Forall (listed fl) (decode rs (drop (Z.to_nat (boffset st)) (buf r))) ->
  print_fields false false r count sc mch rs st =
  Some (concat_all (entry_print <$> decode rs (drop (Z.to_nat (boffset st)) (buf r)))).
Proof.
  revert st. induction rs as [|[[f o] v] rs IH]; intros st Hoff Hrs Hlen Hall; [done|].
  apply Forall_cons in Hrs as [Hv Hrs]. cbn [snd] in Hv. cbn [text_len] in Hlen. pose proof (text_len_nonneg _ Hrs) as H0.
  set (b := drop (Z.to_nat (boffset st)) (buf r)) in *.
  assert (Hdec : exists e b', decode ((f, o, v) :: rs) b = e :: decode rs b' /\ row_of e (f, o, v) b /\ e_field e = f /\
    b' = drop (Z.to_nat (boffset st + if is_text f then v else 0)) (buf r)).
  { pose proof (row_of_decode f o v b Hv) as He. cbn [decode] in He |- *.
    destruct (is_text f) eqn:Ht.
    - destruct He as [He Hf]; [intros; lia|]. eexists _, _. split_and!; [done..|]. unfold b. rewrite drop_drop. f_equal. lia.
    - destruct He as [He Hf]; [done|]. eexists _, _. split_and!; [done..|]. unfold b. by rewrite Z.add_0_r. }
  destruct Hdec as (e & b' & Hdec & Hrow & Hf & Hb'). rewrite Hdec in *.
  apply Forall_cons in Hall as [He Hall]. cbn [print_fields].
  destruct (print_entry r count sc mch fl e (f, o, v) st He Hrow) as (x & y & ->). cbn [mbind option_bind snd].
  rewrite Hf. subst b'. rewrite IH; cbn [boffset]; [done|destruct (is_text f); lia|done| |done].
  rewrite length_drop. unfold b in Hlen. rewrite length_drop in Hlen. destruct (is_text f); lia.
Qed.

Lemma print_no_archs rs m elf : Forall (fun row => field_of row.1.1 <> AUDIT_ARCH) rs -> print_archs false rs m elf = (m, elf, "").
Proof.
  revert m elf. induction rs as [|[[f o] v] rs IH]; intros m elf H; [done|]. apply Forall_cons in H as [Hf H].
  cbn [fst snd] in Hf. cbn [print_archs]. rewrite (proj2 (Z.eqb_neq _ _)) by done. by apply IH.
Qed.

Lemma item_not_arch fl e : item_ok fl e = true -> field_of (e_field e) <> AUDIT_ARCH /\ e_field e <> AUDIT_ARCH /\ e_field e <> AUDIT_FILTERKEY.
Proof.
  unfold item_ok. intros Hi. assert ((e_field e = AUDIT_FIELD_COMPARE) \/ entry_ok fl e = true) as [->|Hok]; [|done|].
  { destruct (e_operand e); [|by right]. destruct (Z.eqb_spec (e_field e) AUDIT_FIELD_COMPARE); [by left|by right]. }
  destruct (entry_ok_name _ _ Hok) as (n & Hn & -> & _). unfold entry_ok in Hok. cbv beta zeta in Hok.
  apply andb_prop in Hok as [_ Hok]. destruct (e_operand e).
  - apply andb_prop in Hok as [_ (? & ? & _)%number_not]. done.
  - by apply text_field in Hok as [].
Qed.

Lemma syscall_text elf r sc : exists n k, print_syscall elf r sc = (n, k, items_text (syscall_opts elf r)).
Proof.
  unfold print_syscall, syscall_opts. destruct (no_syscalls _); [by eexists _, _|]. destruct (mask_full r); [by eexists _, _|].
  destruct (mask_syscalls r) as [|k ks] eqn:E; [by eexists _, _|]. cbn [length Nat.eqb]. eexists _, _. f_equal.
  unfold items_text. cbn [fmap list_fmap concat_all List.fold_right]. unfold opt_text. cbn [fst snd]. by rewrite append_nil.
Qed.


(** The rules that are listed as they were made: the entries in the order that
    auditctl makes, with values that have a text. *)
Record rule_ok (r : audit_rule_data) (a : arch) (es : list entry) (ks : list string) : Prop := RuleOk {
  ok_wf : wf r;
  ok_entries : entries r = arch_entries a ++ es ++ key_entries ks;
  ok_arch : arch_ok (flags r) a = true;
  ok_items : Forall (fun e => item_ok (flags r) e = true) es;
  ok_keys : keys_ok ks = true;
}.

Lemma listed_entries r a es ks : rule_ok r a es ks -> Forall (listed (flags r)) (entries r).
Proof.
  intros [_ -> _ Hes Hks]. rewrite !Forall_app. split_and!.
  - destruct a as [[op v]|]; repeat constructor.
  - eapply Forall_impl; [done|]. intros e He. by apply listed_item.
  - unfold key_entries. destruct ks as [|k ks]; constructor; [by apply listed_keys|done].
Qed.

Lemma entries_text fl a es ks : Forall (fun e => item_ok fl e = true) es -> keys_ok ks = true ->
  concat_all (entry_print <$> (arch_entries a ++ es ++ key_entries ks)) = items_text ((entry_opt <$> es) ++ key_opts ks).
Proof.
  intros Hes Hks. rewrite !fmap_app, !concat_all_app, items_text_app.
  assert (concat_all (entry_print <$> arch_entries a) = "") as -> by (by destruct a as [[]|]). rewrite append_nil_l. f_equal.
  - unfold items_text. induction Hes as [|e es He Hes IH]; [done|]. cbn. f_equal; [|done].
    apply item_not_arch in He as (_ & H1 & H2). unfold entry_print. by rewrite !(proj2 (Z.eqb_neq _ _)) by done.
  - unfold key_entries. destruct ks as [|k ks'] eqn:E; [done|]. rewrite <-E in Hks |- *.
    replace (concat_all _) with (items_text (key_opts (tokens KEY_SEP (Ellist.to_string (chars_of (key_text ks))))) ++s "") by (by rewrite E).
    rewrite append_nil, of_keys. unfold key_text. by rewrite tokens_of_join by (by apply keys_free).
Qed.

Lemma rows_fields r : wf r -> (rows r).*1.*1 = e_field <$> entries r.
Proof. intros. unfold entries. by rewrite decode_fields. Qed.

Lemma archs_text r a es ks : rule_ok r a es ks ->
  exists m, print_archs false (rows r) (-1) 0 = (m, elf_of a, items_text (arch_opts a)).
Proof.
  intros [Hwf He Ha Hes Hks].
  assert (Hrest : Forall (fun e => field_of (e_field e) <> AUDIT_ARCH) (es ++ key_entries ks)).
  { apply Forall_app. split; [|unfold key_entries; by destruct ks; repeat constructor].
    eapply Forall_impl; [done|]. intros e H. by apply item_not_arch in H as []. }
  assert (Hrows : forall rs b, decode rs b = es ++ key_entries ks -> Forall (fun row : Z * Z * Z => field_of row.1.1 <> AUDIT_ARCH) rs).
  { intros rs b Hd. rewrite <-Hd in Hrest.
    assert (Forall (fun f => field_of f <> AUDIT_ARCH) (e_field <$> decode rs b)) as Hf by (by apply Forall_fmap).
    rewrite decode_fields in Hf. by rewrite !Forall_fmap in Hf. }
  unfold entries in He. destruct a as [[op v]|]; cbn [arch_entries app arch_opts elf_of] in *.
  - destruct (rows r) as [|[[f o] w] rs]; [done|]. cbn [decode] in He. destruct (is_text f) eqn:Ht; [done|].
    injection He as -> -> -> He. cbn [print_archs]. change (field_of AUDIT_ARCH =? AUDIT_ARCH) with true. cbv iota.
    unfold arch_ok in Ha. apply andb_prop in Ha as [[[[Hop Hcf]%andb_prop Hne]%andb_prop Hm%Z.leb_le]%andb_prop Hd].
    unfold print_arch. rewrite (proj2 (Z.ltb_ge _ 0)) by done. cbn [negb].
    rewrite (print_no_archs rs) by (by eapply Hrows). eexists. f_equal.
    assert (op_of op = op) as ->.
    { unfold eq_or_ne in Hop. apply orb_prop in Hop as [->%Z.eqb_eq| ->%Z.eqb_eq]; done. }
    rewrite append_nil. unfold items_text, opt_text, arch_bits. cbn [fmap list_fmap concat_all List.fold_right fst snd].
    rewrite append_nil. by destruct (negb (Z.land _ _ =? 0)).
  - rewrite print_no_archs by (by eapply Hrows). by eexists.
Qed.

Lemma rule_printed r a es ks : rule_ok r a es ks -> is_watch r = Some false ->
  exists t, print_rule false r 0 = Some (t, elf_of a) /\ String " " t = items_text (rule_opts r a es ks).
Proof.
  intros Hok Hw. pose proof Hok as [Hwf He Ha Hes Hks]. unfold print_rule. rewrite Hw. cbn [mbind option_bind].
  unfold used_rows. rewrite (proj2 (Z.leb_le _ AUDIT_MAX_FIELDS)) by (pose proof (wf_count _ Hwf); unfold AUDIT_MAX_FIELDS; lia).
  cbn [mbind option_bind]. destruct (archs_text r a es ks Hok) as (m & ->).
  destruct (syscall_text (elf_of a) r 0) as (n & k & ->).
  rewrite (print_entries r n k m (flags r)); cbn [boffset]; [|done|by apply Forall_word_rows, Hwf| |].
  2:{ rewrite (wf_text _ Hwf), drop_0, (wf_buflen _ Hwf). lia. }
  2:{ rewrite drop_0. by apply (listed_entries r a es ks). }
  rewrite drop_0. fold (entries r). rewrite He, (entries_text (flags r)) by done. cbn [mbind option_bind].
  eexists. split; [done|]. unfold rule_opts.
  match goal with |- _ = items_text (?x :: ?os) => change (items_text (x :: os)) with (opt_text x ++s items_text os) end.
  rewrite !items_text_app. unfold opt_text. cbn [fst snd]. by rewrite !append_assoc.
Qed.


End printing.

End RulePrint.
