(* ===== verification/RuleReload.v ===== *)
(** * Listed rules are loaded again

    setopt() makes a rule again from the options that the listing prints for it,
    and a line of a rules file with that text sends it to the kernel. *)
From S2P Require Import Prelude CString StrSplit Nvlist Config ConfigFacts Lol Ellist Lookup Rule RuleFacts RuleList RuleText Getopt Auditctl AuditctlFacts RuleFields RulePrint.

Local Open Scope audit_scope.

Module RuleReload.
Import ConfigFacts Auditctl RuleList RuleText AuditctlFacts RuleFields RulePrint.

Local Open Scope string_scope.
Local Open Scope list_scope.
Local Open Scope Z_scope.

Section reload.
Context {tabs : Tables} {mach : Machine} {kernel : Kernel} {itp : Nv.Interp} (junk : ascii).
Context (memory : forall n, realloc_ok n = true).
Context (errtab_ok : names_ok upper errtab) (msg_typetab_ok : names_ok upper msg_typetab).

(** ** One option *)

Lemma entries_count r : wf r -> Z.of_nat (length (entries r)) = field_count r.
Proof.
  intros Hwf. pose proof (entries_fields r Hwf) as H. apply (f_equal length) in H. rewrite length_fmap, length_take in H.
  destruct (wf_fields _ Hwf) as [Hl _]. pose proof (wf_count _ Hwf). lia.
Qed.

(** The variables after a field was added. *)
Definition marked (f : Z) (x : globals) : globals :=
  let x := if f =? AUDIT_PERM then set_permadded x else x in if f =? AUDIT_EXE then set_exeadded x else x.

Definition on (fl : Z) (c : ctl) : Prop := add c = fl /\ Z.land fl AUDIT_FILTER_MASK = fl /\ fl <> AUDIT_FILTER_UNSET.

Lemma on_list_flags fl c unset : on fl c -> list_flags c unset = fl.
Proof. intros (<- & H & Hu). unfold list_flags. by rewrite (proj2 (Z.eqb_neq _ _)) by done. Qed.

Lemma last_entry r e es : wf r -> entries r = es ++ [e] -> last_field r = Some (e_field e).
Proof.
  intros Hwf He. pose proof (entries_count r Hwf) as Hc. pose proof (entries_fields r Hwf) as Hf.
  rewrite He, length_app in Hc. cbn in Hc. rewrite He, fmap_app in Hf. unfold last_field, get.
  rewrite (proj2 (Z.leb_le 0 _)) by lia.
  assert (take (Z.to_nat (field_count r)) (fields r) !! Z.to_nat (field_count r - 1) = Some (e_field e)) as Hl.
  { rewrite <-Hf, lookup_app_r by (rewrite length_fmap; lia). rewrite length_fmap.
    by replace (Z.to_nat (field_count r - 1) - length es)%nat with O by lia. }
  by apply lookup_take_Some in Hl as [Hl _].
Qed.

(** The option -F with a field that is read as [e]. *)
Lemma opt_F_field t fl n op v e retval c r : on fl c -> rule_new c = Some r -> wf r -> field_count r < 63 ->
  starts_with "key=" t = false -> takes t fl (g c) n op v ->
  audit_name_to_field n = e_field e -> op = e_op e -> (forall old, operand_of (e_field e) fl op v (g c) old = e_operand e) ->
  exists r', rule_opt junk o_F t retval c =
      Some (Go retval 0 (set_rule (marked (e_field e) (after (field_case (e_field e) fl op v (g c)))) (Some r') c)) /\
    wf r' /\ entries r' = entries r ++ [e] /\ mask r' = mask r.
Proof.
  intros Hon Hr Hwf Hc Hkey Htakes Hn -> Hop.
  unfold rule_opt, do_short. cbn [o_F Ascii.eqb Bool.eqb]. unfold opt_F.
  assert (negb (add c =? AUDIT_FILTER_UNSET) = true) as -> by (destruct Hon as (-> & _ & Hu); by rewrite (proj2 (Z.eqb_neq _ _))).
  cbn [orb negb andb]. rewrite Hkey, Hr, (on_list_flags fl) by done. cbn [mbind option_bind].
  destruct (fieldpair_takes junk t fl (g c) r n (e_op e) v Hwf Hc Htakes) as (rc & r' & old & -> & Hcalled & Hor).
  cbn [mbind option_bind]. destruct (called_ok memory _ _ _ _ Hcalled) as (r1 & -> & Hwf1).
  destruct Hor as [|Hrc]; [done|]. subst rc. cbn [negb Z.eqb]. destruct Hcalled as (_ & Hm & _ & _ & e' & <- & He).
  rewrite Hn in *. rewrite Hop in He. replace (Entry (e_field e) (e_op e) (e_operand e)) with e in He by (by destruct e).
  cbn [mbind option_bind]. rewrite (last_entry r1 e (entries r)) by done. cbn [mbind option_bind]. by exists r1.
Qed.

Definition item_done (x : globals) (e : entry) : globals :=
  if e_field e =? AUDIT_FIELD_COMPARE then x else marked (e_field e) (entry_after e x).

Lemma item_kind fl e : item_ok fl e = true ->
  (exists c, e = Entry AUDIT_FIELD_COMPARE (e_op e) (Number c) /\ compare_ok fl (e_op e) c = true /\
     entry_opt e = (o_C, comparison_text c (e_op e))) \/
  (entry_ok fl e = true /\ e_field e <> AUDIT_FIELD_COMPARE /\ entry_opt e = (o_F, entry_text e)).
Proof.
  unfold item_ok, entry_opt. destruct e as [f op [c|s]]; cbn [e_field e_op e_operand].
  - destruct (Z.eqb_spec f AUDIT_FIELD_COMPARE) as [->|Hne]; [left; by exists c|by right].
  - intros H. right. split_and!; try done. unfold entry_ok in H. cbv beta zeta in H. apply andb_prop in H as [_ H]. intros ->.
    by vm_compute in H.
Qed.

Lemma not_key fl e : entry_ok fl e = true -> e_field e <> AUDIT_FILTERKEY -> starts_with "key=" (entry_text e) = false.
Proof.
  unfold entry_ok. destruct (audit_field_to_name (e_field e)) as [n|] eqn:Hn; [|done]. intros _ Hk.
  destruct (field_name _ _ Hn) as (_ & Hne & _ & Hh & _). cbn [fst snd] in *. specialize (Hh Hk).
  unfold entry_text. rewrite Hn. destruct n as [|x n]; [done|]. cbn [char_at] in Hh.
  unfold show. cbn [from_option id]. rewrite append_cons, starts_cons.
  by rewrite (proj2 (Ascii.eqb_neq _ _)) by congruence.
Qed.

Lemma item_option fl e retval c r : on fl c -> rule_new c = Some r -> wf r -> field_count r < 63 -> item_ok fl e = true ->
  exists r', rule_opt junk (entry_opt e).1 (entry_opt e).2 retval c = Some (Go retval 0 (set_rule (item_done (g c) e) (Some r') c)) /\
    wf r' /\ entries r' = entries r ++ [e] /\ mask r' = mask r.
Proof.
  intros Hon Hr Hwf Hc Hi. pose proof Hi as (_ & _ & Hnk)%item_not_arch. unfold item_done.
  apply item_kind in Hi as [(k & -> & Hk & Hopt)|(Hok & Hne & ->)].
  - rewrite Hopt. cbn [e_op e_field fst snd] in *. clear Hopt.
    destruct (compare_listed _ _ _ Hk) as (-> & _ & Hsym & a & b & Hcase & _ & Hcmp & Hpa & Hpb & Ha & Hb).
    unfold rule_opt, do_short. cbn [o_C Ascii.eqb Bool.eqb]. unfold opt_C. rewrite Hr, (on_list_flags AUDIT_FILTER_EXIT) by done.
    cbn [mbind option_bind]. unfold comparison_text. rewrite Hcase.
    destruct (interfield_takes (a ++s symbol (e_op e) ++s b) AUDIT_FILTER_EXIT r a (e_op e) b k) as (r' & -> & Hcalled);
      [done|done|apply find_comp_text; [by apply plain_no_ops..|done]|by apply plain_nonempty..|done|done|done|done|].
    cbn [mbind option_bind negb Z.eqb]. destruct Hcalled as (Hwf' & Hm & _ & _ & e' & <- & He).
    rewrite (last_entry r' _ _ Hwf' He). cbn [mbind option_bind e_field]. exists r'. done.
  - rewrite (proj2 (Z.eqb_neq _ _)) by done. cbn [fst snd].
    destruct (entry_takes errtab_ok msg_typetab_ok fl e (g c) Hok) as (n & Hn & Hf & Htakes & Hafter & Hop & _).
    destruct (opt_F_field (entry_text e) fl n (e_op e) (entry_value e) e retval c r) as (r' & -> & H); [done..| | | | | |];
      try done; [by eapply not_key|]. rewrite Hafter. by exists r'.
Qed.

Lemma on_rule fl c x r : on fl c -> on fl (set_rule x r c).
Proof. done. Qed.

Lemma items_step fl es rest retval c r : on fl c -> rule_new c = Some r -> wf r -> 0 <= retval ->
  field_count r + Z.of_nat (length es) <= 63 -> Forall (fun e => item_ok fl e = true) es ->
  exists r', apply_opts junk ((entry_opt <$> es) ++ rest) retval c =
      apply_opts junk rest retval (set_rule (fold_left item_done es (g c)) (Some r') c) /\
    wf r' /\ entries r' = entries r ++ es /\ mask r' = mask r.
Proof.
  revert c r. induction es as [|e es IH]; intros c r Hon Hr Hwf Hret Hlen Hes.
  - exists r. split_and!; try done; [|by rewrite app_nil_r]. cbn. f_equal. destruct c. cbn in *. by subst.
  - apply Forall_cons in Hes as [He Hes]. cbn [length] in Hlen.
    destruct (item_option fl e retval c r) as (r1 & Hopt & Hwf1 & He1 & Hm1); [done|done|done|lia|done|].
    cbn [fmap list_fmap app]. destruct (entry_opt e) as [o t]. cbn [fst snd] in Hopt. cbn [apply_opts].
    rewrite (proj2 (Z.ltb_ge retval 0)), Hopt by done. cbn [mbind option_bind].
    destruct (IH (set_rule (item_done (g c) e) (Some r1) c) r1) as (r2 & -> & Hwf2 & He2 & Hm2); try done.
    { pose proof (entries_count _ Hwf1) as H1. pose proof (entries_count _ Hwf) as H2. rewrite He1, length_app in H1. cbn in H1. lia. }
    exists r2. rewrite He2, He1, <-app_assoc, Hm2, Hm1. done.
Qed.


(** ** The machine *)

Lemma elf_rows : Forall (fun row => word row.2 /\ 0 < row.2 /\ 0 <= row.1 /\ audit_elf_to_machine row.2 = row.1) elftab.
Proof. unfold audit_elf_to_machine, elftab. destruct with_arm, with_aarch64; by_decision. Qed.

Lemma elf_known v : 0 <= audit_elf_to_machine v -> word v.
Proof.
  unfold audit_elf_to_machine. destruct (List.find _ _) as [[m e]|] eqn:E; [|done]. intros _.
  apply find_some in E as [Hin He%Z.eqb_eq]. cbn in He. subst e. apply list_elem_of_In in Hin.
  by apply (proj1 (Forall_forall _ _) elf_rows) in Hin as [Hw _].
Qed.

Lemma machine_of_elf m : audit_machine_to_elf m <> 0 -> audit_elf_to_machine (audit_machine_to_elf m) = m.
Proof.
  unfold audit_machine_to_elf. destruct (List.find _ _) as [[m' e]|] eqn:E; [|done]. intros _.
  apply find_some in E as [Hin He%Z.eqb_eq]. cbn in He |- *. subst m'. apply list_elem_of_In in Hin.
  by apply (proj1 (Forall_forall _ _) elf_rows) in Hin as (_ & _ & _ & ?).
Qed.

Definition arch_done (x : globals) (a : arch) : globals :=
  match a with Some (_, v) => set_archadded (set_elf v x) | None => x end.

Lemma arch_step fl a rest retval c r : on fl c -> rule_new c = Some r -> wf r -> field_count r < 63 -> 0 <= retval ->
  syscalladded (g c) = false -> arch_ok fl a = true ->
  exists r', apply_opts junk (arch_opts a ++ rest) retval c = apply_opts junk rest retval (set_rule (arch_done (g c) a) (Some r') c) /\
    wf r' /\ entries r' = entries r ++ arch_entries a /\ mask r' = mask r.
Proof.
  intros Hon Hr Hwf Hc Hret Hs Ha. destruct a as [[op v]|]; cbn [arch_opts arch_entries arch_done].
  2:{ exists r. split_and!; try done; [|by rewrite app_nil_r]. cbn. f_equal. destruct c. cbn in *. by subst. }
  unfold arch_ok in Ha.
  apply andb_prop in Ha as [[[[Hop Hcf%Z.eqb_eq]%andb_prop Hne%negb_true_iff]%andb_prop Hm%Z.leb_le]%andb_prop Hd%Z.eqb_eq].
  assert (Hcase : field_case AUDIT_ARCH fl op (arch_bits v) (g c) = accept v (set_archadded (set_elf v (g c)))).
  { change (field_case AUDIT_ARCH fl op (arch_bits v) (g c)) with (arch_case op (arch_bits v) (g c)). unfold arch_case.
    rewrite Hs, Hop. assert (numeric (arch_bits v) = false) as -> by (unfold arch_bits; by destruct (negb _)).
    cbv zeta. by rewrite Hd, Hne. }
  destruct (opt_F_field ("arch" ++s symbol op ++s arch_bits v) fl "arch" op (arch_bits v) (Entry AUDIT_ARCH op (Number v)) retval c r)
    as (r' & Hopt & H); try done.
  { unfold takes. change (audit_name_to_field "arch") with AUDIT_ARCH. rewrite Hcase. split_and!; try done.
    - apply find_op_text; [by apply plain_no_ops|apply plain_no_ops; unfold arch_bits; by destruct (negb _)|].
      unfold eq_or_ne in Hop. apply orb_prop in Hop as [->%Z.eqb_eq| ->%Z.eqb_eq]; by_decision.
    - unfold arch_bits. by destruct (negb _). }
  { intros old. unfold operand_of. cbn [e_field]. rewrite Hcase. cbn. by rewrite u32_small by (by apply elf_known). }
  cbn [e_field] in Hopt. rewrite Hcase in Hopt. cbn [app apply_opts]. rewrite (proj2 (Z.ltb_ge retval 0)), Hopt by done.
  cbn [mbind option_bind]. by exists r'.
Qed.


(** ** System calls *)

(** The names can be listed with commas and are not taken for numbers. *)
Definition syscall_names_ok (tab : table) : Prop :=
  table_ok lower tab /\
  Forall (fun row => row.2 <> "all" /\ plain row.2 = true /\ (","%char ∉ chars_of row.2) /\ isdigit (char_at row.2) = false) tab.

Context (syscalls_ok : forall m tab, syscall_table m = Some tab -> syscall_names_ok tab).

Definition machine_of (elf : Z) : Z := if elf =? 0 then audit_detect_machine else audit_elf_to_machine elf.

Lemma digit_not_name tab s : syscall_names_ok tab -> isdigit (char_at s) = true -> s2i lower tab s = None.
Proof.
  intros [_ Hf] Hd. unfold s2i. destruct (List.find _ tab) as [row|] eqn:E; [|done]. exfalso.
  apply find_some in E as [Hin He]. unfold str_eq in He. apply String.eqb_eq in He.
  apply list_elem_of_In, (proj1 (Forall_forall _ _) Hf) in Hin as (_ & _ & _ & Hn).
  rewrite <-He in Hn. destruct s as [|x s]; [done|]. cbn [char_at] in Hd. cbn in Hn.
  assert (Config.tolower x = x) as Hx; [|congruence].
  revert Hd. unfold isdigit, between. destruct x as [b0 b1 b2 b3 b4 b5 b6 b7].
  destruct b0, b1, b2, b3, b4, b5, b6, b7; vm_compute; congruence.
Qed.

Lemma syscall_number_word k : 0 <= k < 2048 -> show_u k = decimal k /\ isdigit (char_at (decimal k)) = true /\ to_int (strtol0 (decimal k)) = k /\
  free "," (decimal k) /\ plain (decimal k) = true.
Proof.
  intros Hk. assert (word k) by (unfold word, two32; lia). unfold show_u. rewrite u32_small by done.
  assert (0 <= k < two64) by (unfold two64; lia).
  rewrite strtol0_decimal by lia. rewrite int_of_word by done.
  rewrite (proj2 (Z.ltb_lt k _)) by lia. split_and!; try done.
  - pose proof (numeric_decimal k) as Hn. unfold numeric in Hn. by apply Hn.
  - split; [by apply plain_nonempty, plain_decimal|].
    intros Hin%list_elem_of_In. pose proof (decimal_digits k ltac:(lia)) as Hd. unfold Config.all_digits in Hd.
    rewrite forallb_forall in Hd. by apply Hd in Hin.
  - by apply plain_decimal.
Qed.

(** A system call by the name it is listed with. *)
Lemma syscall_name_ok elf x k r : machine_of (Rule.elf x) = machine_of elf -> 0 <= machine_of elf -> 0 <= k < 2048 ->
  audit_rule_syscallbyname_data (syscall_name elf k) x r = audit_rule_syscall_data k r /\
  free "," (syscall_name elf k) /\ plain (syscall_name elf k) = true.
Proof.
  intros Hm H0 Hk. unfold syscall_name. fold (machine_of elf). rewrite (proj2 (Z.ltb_ge _ 0)) by done.
  unfold audit_rule_syscallbyname_data. fold (machine_of (Rule.elf x)). rewrite Hm.
  destruct (syscall_number_word k Hk) as (Hu & Hd & Hr & Hfree & Hp).
  unfold audit_syscall_to_name, audit_name_to_syscall. destruct (syscall_table (machine_of elf)) as [tab|] eqn:Htab; cbn [mbind option_bind].
  - pose proof (syscalls_ok _ _ Htab) as Hok. destruct (i2s tab k) as [s|] eqn:Hs; cbn [default from_option id].
    + pose proof Hok as [Ht Hf]. pose proof Hs as Hrow. unfold i2s in Hrow. apply fmap_Some in Hrow as (row & Hfind & ->).
      apply find_some in Hfind as [Hin _]. apply list_elem_of_In, (proj1 (Forall_forall _ _) Hf) in Hin as (Hall & Hpl & Hc & Hn).
      unfold str_eq. rewrite (proj2 (String.eqb_neq _ _)) by done. rewrite (proj2 (Z.ltb_ge _ 0)) by done.
      rewrite (i2s_s2i lower tab k row.2) by done. cbn [default from_option id]. rewrite (proj2 (Z.ltb_ge k 0)) by lia. cbn [andb].
      rewrite (proj2 (Z.leb_le 0 k)) by lia. split_and!; try done. split; [by apply plain_nonempty|done].
    + rewrite Hu, digit_not_name by done. cbn [default from_option id]. rewrite Hd, Hr. rewrite (proj2 (Z.ltb_ge _ 0)) by done.
      cbn [andb Z.ltb Z.compare]. rewrite (proj2 (Z.leb_le 0 k)) by lia.
      assert (str_eq (decimal k) "all" = false) as ->; [|done].
      unfold str_eq. apply String.eqb_neq. intros Heq. by rewrite Heq in Hd.
  - cbn [default from_option id]. rewrite Hu, Hd, Hr. rewrite (proj2 (Z.ltb_ge _ 0)) by done.
    cbn [andb Z.ltb Z.compare]. rewrite (proj2 (Z.leb_le 0 k)) by lia.
    assert (str_eq (decimal k) "all" = false) as ->; [|done].
    unfold str_eq. apply String.eqb_neq. intros Heq. by rewrite Heq in Hd.
Qed.

Lemma syscall_loop_names elf x scs r : machine_of (Rule.elf x) = machine_of elf -> 0 <= machine_of elf ->
  Forall (fun k => 0 <= k < 2048) scs -> wf r ->
  exists r', syscall_loop (syscall_name elf <$> scs) x r = Some (0, r') /\ wf r' /\ entries r' = entries r /\
    forall k, 0 <= k < 2048 -> has_syscall r' k = existsb (Z.eqb k) scs || has_syscall r k.
Proof.
  intros Hm H0. revert r. induction scs as [|n scs IH]; intros r Hscs Hwf; [by exists r|].
  apply Forall_cons in Hscs as [Hn Hscs]. cbn [fmap list_fmap syscall_loop].
  destruct (syscall_name_ok elf x n r Hm H0 Hn) as [-> _].
  destruct (syscall_data_spec n r Hwf) as (rc & r1 & -> & Hwf1 & He1 & _ & _ & Hrc); [lia|].
  rewrite (proj2 (Z.ltb_lt n 2048)) in Hrc by lia. destruct Hrc as [-> Hb]. cbn [mbind option_bind negb Z.eqb].
  destruct (IH r1 Hscs Hwf1) as (r2 & -> & Hwf2 & He2 & Hb2). exists r2. split_and!; try done; [by rewrite He2|].
  intros k Hk. rewrite Hb2, Hb by done. cbn [existsb]. destruct (k =? n), (existsb _ _); done.
Qed.


Lemma word_bits a b : word a -> word b -> (forall i, 0 <= i < 32 -> Z.testbit a i = Z.testbit b i) -> a = b.
Proof.
  intros Ha Hb H. apply Z.bits_inj'. intros i Hi. destruct (Z.ltb_spec i 32); [by apply H|].
  assert (Hhigh : forall w, word w -> Z.testbit w i = false); [|by rewrite !Hhigh].
  intros w [Hw1 Hw2]. destruct (Z.eq_dec w 0) as [->|]; [by rewrite Z.testbit_0_l|].
  apply Z.bits_above_log2; [done|]. apply Z.log2_lt_pow2; [lia|]. unfold two32 in Hw2.
  eapply Z.lt_le_trans; [done|]. apply Z.pow_le_mono_r; lia.
Qed.

(** The mask is known by the system calls in it. *)
Lemma mask_ext r r' : wf r -> wf r' -> (forall k, 0 <= k < 2048 -> has_syscall r k = has_syscall r' k) -> mask r = mask r'.
Proof.
  intros Hwf Hwf' H. pose proof (wf_mask _ Hwf) as Hm. pose proof (wf_mask _ Hwf') as Hm'.
  apply list_eq. intros i. destruct (decide (i < 64)%nat) as [Hi|Hi].
  - destruct (words_lookup (mask r) (Z.of_nat i) Hm) as (w & Hw & Hww); [lia|].
    destruct (words_lookup (mask r') (Z.of_nat i) Hm') as (w' & Hw' & Hww'); [lia|].
    rewrite Nat2Z.id in Hw, Hw'. rewrite Hw, Hw'. f_equal. apply word_bits; [done..|]. intros j Hj.
    specialize (H (32 * Z.of_nat i + j) ltac:(lia)). unfold has_syscall in H.
    replace ((32 * Z.of_nat i + j) / 32) with (Z.of_nat i) in H by (apply (Z.div_unique _ _ _ j); lia).
    replace ((32 * Z.of_nat i + j) mod 32) with j in H by (apply (Z.mod_unique _ _ (Z.of_nat i)); lia).
    rewrite Nat2Z.id, Hw, Hw' in H. done.
  - destruct Hm as [Hl _], Hm' as [Hl' _]. rewrite !lookup_ge_None_2 by lia. done.
Qed.

Lemma size_2048 : Z.of_nat 2048 = 2048.
Proof. by vm_compute. Qed.

Lemma filter_below (f : Z -> bool) n k : 0 <= k < Z.of_nat n -> existsb (Z.eqb k) (List.filter f (Z.of_nat <$> seq 0 n)) = f k.
Proof.
  intros Hk. apply Bool.eq_iff_eq_true. rewrite existsb_exists. split.
  - intros (x & Hin & ->%Z.eqb_eq). by apply filter_In in Hin as [_ Hin].
  - intros H. exists k. split; [|apply Z.eqb_refl]. apply filter_In. split; [|done].
    apply list_elem_of_In, list_elem_of_fmap. exists (Z.to_nat k). split; [lia|]. apply elem_of_seq. lia.
Qed.

Lemma filter_range (f : Z -> bool) n : Forall (fun k => 0 <= k < Z.of_nat n) (List.filter f (Z.of_nat <$> seq 0 n)).
Proof.
  apply Forall_forall. intros k Hk. apply list_elem_of_In, filter_In in Hk as [Hk _].
  apply list_elem_of_In, list_elem_of_fmap in Hk as (m & -> & Hn%elem_of_seq). lia.
Qed.

Lemma mask_syscalls_spec r k : 0 <= k < 2048 -> existsb (Z.eqb k) (mask_syscalls r) = has_syscall r k.
Proof. intros Hk. unfold mask_syscalls. apply filter_below. by rewrite size_2048. Qed.

Lemma mask_syscalls_range r : Forall (fun k => 0 <= k < 2048) (mask_syscalls r).
Proof. unfold mask_syscalls. rewrite <-size_2048. apply filter_range. Qed.

Lemma strchr_free c s : c ∉ chars_of s -> strchr s c = None.
Proof.
  induction s as [|x s IH]; intros Hs; [done|]. cbn in Hs. apply not_elem_of_cons in Hs as [Hx Hs]. cbn [strchr].
  rewrite (proj2 (Ascii.eqb_neq _ _)) by congruence. by apply IH.
Qed.

Lemma strchr_app c s t : strchr (s ++s String c t) c <> None.
Proof.
  induction s as [|x s IH]; [rewrite append_nil_l; cbn; by rewrite Ascii.eqb_refl|].
  rewrite append_cons. cbn [strchr]. by destruct (x =c c).
Qed.

Definition no_bits (r : audit_rule_data) : Prop := forall k, 0 <= k < 2048 -> has_syscall r k = false.

(** Reading the list of names. *)
Lemma parse_names elf scs x r : machine_of (Rule.elf x) = machine_of elf -> 0 <= machine_of elf -> scs <> [] ->
  Forall (fun k => 0 <= k < 2048) scs -> wf r ->
  let names := syscall_name elf <$> scs in
  exists r', (match strchr (join "," names) ","%char with
     | Some _ => syscall_loop (tokens ","%char (join "," names)) x r
     | None => audit_rule_syscallbyname_data (join "," names) x r
     end) = Some (0, r') /\ wf r' /\ entries r' = entries r /\
    forall k, 0 <= k < 2048 -> has_syscall r' k = existsb (Z.eqb k) scs || has_syscall r k.
Proof.
  intros Hm H0 Hne Hscs Hwf names. destruct (syscall_loop_names elf x scs r Hm H0 Hscs Hwf) as (r' & Hloop & H).
  exists r'. split; [|done].
  assert (Hfree : Forall (free ",") names).
  { unfold names. apply Forall_fmap. eapply Forall_impl; [done|]. intros k Hk. cbn. by apply (syscall_name_ok elf x k r). }
  destruct scs as [|n [|n' scs]]; [done|..].
  - unfold names. cbn [fmap list_fmap join]. inversion Hscs as [|? ? Hn _]; subst.
    destruct (syscall_name_ok elf x n r Hm H0 Hn) as (Hname & [_ Hc] & _). rewrite strchr_free by done.
    cbn [fmap list_fmap syscall_loop] in Hloop. rewrite Hname in *.
    destruct (audit_rule_syscall_data n r) as [[rc r1]|]; [|done]. cbn [mbind option_bind] in Hloop.
    destruct (Z.eqb_spec rc 0) as [->|]; cbn [negb] in Hloop; [done|]. injection Hloop as Hrc. destruct (rc =? -1); lia.
  - destruct (strchr _ _) eqn:E.
    + rewrite tokens_of_join by done. done.
    + exfalso. revert E. unfold names. cbn [fmap list_fmap join]. rewrite (append_cons "," ""), append_nil_l. apply strchr_app.
Qed.


(** The machine is known when the rule does not name one. *)
Definition machine_ok (a : arch) : bool :=
  match a with Some _ => true | None => (0 <=? audit_detect_machine) && negb (audit_machine_to_elf audit_detect_machine =? 0) end.

(** The mask is the one that the options make: some system calls on the exit list,
    none on the task list and all on the others. *)
Definition mask_ok (r : audit_rule_data) : bool :=
  if flags r =? AUDIT_FILTER_EXIT then
    if mask_full r then forallb (Z.eqb UINT32_MAX) (mask r) else match mask_syscalls r with [] => false | _ => true end
  else if flags r =? AUDIT_FILTER_TASK then forallb (Z.eqb 0) (mask r)
  else forallb (Z.eqb UINT32_MAX) (mask r).

Definition syscall_done (x : globals) : globals :=
  set_syscalladded (if elf x =? 0 then set_elf (audit_machine_to_elf audit_detect_machine) x else x).

Lemma forallb_replicate x l : words l -> forallb (Z.eqb x) l = true -> l = replicate 64 x.
Proof.
  intros [Hl _] H. rewrite <-Hl. symmetry. apply replicate_as_Forall. split; [done|].
  apply Forall_forall. intros y Hy%list_elem_of_In. rewrite forallb_forall in H. by apply H, Z.eqb_eq in Hy.
Qed.

Lemma detect_step a c : elf (g c) = elf_of a -> (forall op v, a = Some (op, v) -> v <> 0) -> machine_ok a = true ->
  exists c', detect_elf c = Some c' /\ set_g (set_syscalladded (g c')) c' = set_g (syscall_done (g c)) c /\
    rule_new c' = rule_new c /\ machine_of (elf (g c')) = machine_of (elf_of a) /\ set_g (g c') c = c'.
Proof.
  intros He Hv Hm. unfold detect_elf, syscall_done. rewrite He. destruct a as [[op v]|]; cbn [elf_of].
  - rewrite (proj2 (Z.eqb_neq v 0)) by (by eapply Hv). exists c. rewrite He. split_and!; try done. by destruct c.
  - cbn [Z.eqb]. unfold machine_ok in Hm. apply andb_prop in Hm as [H1%Z.leb_le H2%negb_true_iff].
    rewrite (proj2 (Z.ltb_ge _ 0)), H2 by done. eexists. split; [done|]. split_and!; try done.
    unfold machine_of. cbn [g set_g elf set_elf Z.eqb]. rewrite H2. apply machine_of_elf. by apply Z.eqb_neq.
Qed.

Lemma syscalls_step a r rest retval c r0 : add c = AUDIT_FILTER_EXIT -> del c = AUDIT_FILTER_UNSET -> exclude c = false ->
  rule_new c = Some r0 -> wf r0 -> no_bits r0 -> 0 <= retval -> elf (g c) = elf_of a ->
  arch_ok AUDIT_FILTER_EXIT a = true -> machine_ok a = true -> wf r -> flags r = AUDIT_FILTER_EXIT -> mask_ok r = true ->
  exists r', apply_opts junk (syscall_opts (elf_of a) r ++ rest) retval c =
      apply_opts junk rest retval (set_rule (syscall_done (g c)) (Some r') c) /\
    wf r' /\ entries r' = entries r0 /\ mask r' = mask r.
Proof.
  intros Hadd Hdel Hex Hr Hwf0 H0 Hret He Ha Hm Hwf Hfl Hmask.
  assert (Hv : forall op v, a = Some (op, v) -> v <> 0).
  { intros op v ->. unfold arch_ok in Ha. apply andb_prop in Ha as [[[_ H%negb_true_iff]%andb_prop _]%andb_prop _]. by apply Z.eqb_neq. }
  destruct (detect_step a c He Hv Hm) as (c1 & Hdet & Hg & Hr1 & Hmach & Hset). rewrite Hr in Hr1.
  assert (Hpos : 0 <= machine_of (elf_of a)).
  { destruct a as [[op v]|]; cbn [elf_of]; unfold machine_of.
    - rewrite (proj2 (Z.eqb_neq v 0)) by (by eapply Hv). unfold arch_ok in Ha. by apply andb_prop in Ha as [[_ H%Z.leb_le]%andb_prop _].
    - unfold machine_ok in Hm. by apply andb_prop in Hm as [H1%Z.leb_le _]. }
  assert (Hone : forall t r', (match strchr t ","%char with Some _ => syscall_loop (tokens ","%char t) (g c1) r0
      | None => audit_rule_syscallbyname_data t (g c1) r0 end) = Some (0, r') ->
    apply_opts junk ((o_S, t) :: rest) retval c = apply_opts junk rest retval (set_rule (syscall_done (g c)) (Some r') c)).
  { intros t r' Ht. cbn [apply_opts]. rewrite (proj2 (Z.ltb_ge retval 0)) by done.
    unfold rule_opt, do_short. cbn [o_S Ascii.eqb Bool.eqb]. unfold opt_S, on_list. rewrite Hadd, Hdel, Hex.
    change (_ || false) with false. cbv iota. rewrite Hdet. unfold parse_syscall. rewrite Hr1. cbn [mbind option_bind]. rewrite Ht.
    cbn [mbind option_bind Z.eqb].
    change (set_g _ (set_rule (g c1) (Some r') c1)) with (set_rule (set_syscalladded (g c1)) (Some r') c1).
    assert (set_syscalladded (g c1) = syscall_done (g c)) as -> by (by apply (f_equal g) in Hg). by rewrite <-Hset. }
  unfold syscall_opts, mask_ok in *. rewrite Hfl in *. cbn [AUDIT_FILTER_EXIT Z.eqb Pos.eqb] in Hmask.
  change (no_syscalls AUDIT_FILTER_EXIT) with false. cbv iota.
  destruct (mask_full r).
  - exists (set_mask (replicate 64 UINT32_MAX) r0). cbn [app]. split; [by apply Hone|].
    destruct (syscallbyname_spec "all" (g c1) r0 Hwf0) as (rc & r' & Heq & Hwf' & He' & _).
    change (audit_rule_syscallbyname_data "all" (g c1) r0) with (Some (0, set_mask (replicate 64 UINT32_MAX) r0)) in Heq.
    injection Heq as <- <-. split_and!; try done. symmetry. apply forallb_replicate; [apply Hwf|done].
  - destruct (mask_syscalls r) as [|n scs] eqn:E; [done|]. rewrite <-E.
    destruct (parse_names (elf_of a) (mask_syscalls r) (g c1) r0) as (r' & Hp & Hwf' & He' & Hb);
      [done|done|by rewrite E|apply mask_syscalls_range|done|].
    exists r'. cbn [app]. split; [by apply Hone|]. split_and!; try done. apply mask_ext; [done..|]. intros k Hk.
    rewrite Hb, mask_syscalls_spec, H0 by done. by rewrite orb_false_r.
Qed.


(** ** The list and the keys *)

Definition target_ok (r : audit_rule_data) : bool :=
  existsb (Z.eqb (flags r)) [AUDIT_FILTER_TASK; AUDIT_FILTER_EXIT; AUDIT_FILTER_USER; AUDIT_FILTER_EXCLUDE; AUDIT_FILTER_FS] &&
  existsb (Z.eqb (action r)) [AUDIT_NEVER; AUDIT_ALWAYS].

Definition target_text (r : audit_rule_data) : string :=
  show (audit_action_to_name (to_int (action r))) ++s "," ++s show (audit_flag_to_name (flags r)).

(** The variables before the first option of a line. *)
Definition start (c : ctl) : ctl := set_key "" AUDIT_MAX_KEY_LEN (reset_vars c).
Definition started (r : audit_rule_data) (c : ctl) : ctl :=
  set_lists (flags r) AUDIT_FILTER_UNSET (action r) (flags r =? AUDIT_FILTER_EXCLUDE) 1 (start c).

Lemma target_step r c : target_ok r = true -> rule_opt junk o_a (target_text r) 0 (start c) = Some (Go 1 0 (started r c)).
Proof.
  unfold target_ok, target_text, started. generalize (flags r), (action r). intros fl ac [Hf%existsb_eqb_elem Ha%existsb_eqb_elem]%andb_prop.
  repeat (apply elem_of_cons in Hf as [->|Hf]); [..|by apply elem_of_nil in Hf];
    (repeat (apply elem_of_cons in Ha as [->|Ha]); [..|by apply elem_of_nil in Ha]); reflexivity.
Qed.

Lemma target_on r c : target_ok r = true -> on (flags r) (started r c) /\ u32 (action r) = action r.
Proof.
  unfold target_ok, on. intros [Hf%existsb_eqb_elem Ha%existsb_eqb_elem]%andb_prop. split.
  - split; [done|]. repeat (apply elem_of_cons in Hf as [->|Hf]); [..|by apply elem_of_nil in Hf]; done.
  - repeat (apply elem_of_cons in Ha as [->|Ha]); [..|by apply elem_of_nil in Ha]; done.
Qed.

(** The keys one behind the other. *)
Definition add_keys (k : string) (ks : list string) : string :=
  match ks with [] => k | _ => if str_eq k "" then key_text ks else k ++s String KEY_SEP (key_text ks) end.

Lemma add_keys_cons k t ks : t <> "" -> add_keys k (t :: ks) = add_keys (if str_eq k "" then t else k ++s String KEY_SEP t) ks.
Proof.
  intros Ht. assert (Ht' : str_eq t "" = false) by (by apply String.eqb_neq). unfold add_keys. destruct ks as [|t' ks]; [by destruct (str_eq k "")|].
  unfold key_text. cbn [join]. destruct (str_eq k "") eqn:Hk.
  - rewrite Ht'. done.
  - assert (str_eq (k ++s String KEY_SEP t) "" = false) as -> by (by destruct k).
    rewrite append_assoc, append_cons. done.
Qed.

Lemma keys_step fl ks rest retval c : on fl c -> 0 <= retval -> Forall (fun k => plain k = true) ks ->
  keylen c = AUDIT_MAX_KEY_LEN - Z.of_nat (String.length (key c)) ->
  Z.of_nat (String.length (add_keys (key c) ks)) <= AUDIT_MAX_KEY_LEN ->
  exists n, apply_opts junk (key_opts ks ++ rest) retval c = apply_opts junk rest retval (set_key (add_keys (key c) ks) n c).
Proof.
  intros Hon Hret. revert c Hon. induction ks as [|t ks IH]; intros c Hon Hks Hlen Htot.
  { exists (keylen c). cbn. f_equal. by destruct c. }
  apply Forall_cons in Hks as [Ht Hks]. rewrite add_keys_cons in Htot |- * by (by apply plain_nonempty).
  set (k := if str_eq (key c) "" then t else key c ++s String KEY_SEP t) in *.
  assert (Hk : Z.of_nat (String.length k) <= AUDIT_MAX_KEY_LEN).
  { eapply Z.le_trans; [|done]. unfold add_keys. destruct ks; [done|]. destruct (str_eq k "") eqn:Ek.
    - apply String.eqb_eq in Ek as ->. cbn. lia.
    - rewrite append_length. lia. }
  assert (Hopt : rule_opt junk o_F ("key=" ++s t) retval c =
    Some (Go retval 0 (set_key k (AUDIT_MAX_KEY_LEN - Z.of_nat (String.length k)) c))).
  { unfold rule_opt, do_short. cbn [o_F Ascii.eqb Bool.eqb]. unfold opt_F.
    assert (negb (add c =? AUDIT_FILTER_UNSET) = true) as -> by (destruct Hon as (-> & _ & Hu); by rewrite (proj2 (Z.eqb_neq _ _))).
    cbn [orb negb andb]. rewrite !append_cons, append_nil_l, !starts_cons, starts_nil. cbn [Ascii.eqb Bool.eqb andb skip].
    unfold opt_k, process_keys. unfold k in *. destruct (str_eq (key c) "") eqn:Ek.
    - apply String.eqb_eq in Ek. rewrite Ek, append_nil_l in *. cbn [String.length] in Hlen |- *.
      rewrite (proj2 (Z.ltb_ge _ _)) by lia. rewrite prefix_of_all by lia. done.
    - rewrite append_length in Hk. cbn [String.length] in Hk. rewrite (proj2 (Z.ltb_ge _ _)) by lia.
      rewrite prefix_of_all by lia. rewrite append_assoc, append_cons, append_nil_l. done. }
  unfold key_opts. cbn [fmap list_fmap app apply_opts]. rewrite (proj2 (Z.ltb_ge retval 0)), Hopt by done. cbn [mbind option_bind].
  destruct (IH (set_key k (AUDIT_MAX_KEY_LEN - Z.of_nat (String.length k)) c)) as (n & Hn); [done..|].
  exists n. exact Hn.
Qed.


(** The library accepts a key: the rule is on the exit list or watches a program or
    a file system. *)
Definition key_place (r : audit_rule_data) (es : list entry) (ks : list string) : bool :=
  match ks with
  | [] => true
  | _ => (check_filter (flags r) AUDIT_FILTERKEY =? 0) &&
         ((flags r =? AUDIT_FILTER_EXIT) || existsb (fun e => (e_field e =? AUDIT_EXE) || (e_field e =? AUDIT_FSTYPE)) es)
  end.

Definition keyed (x : globals) : bool := syscalladded x || permadded x || exeadded x || filterfsadded x.

Lemma item_keeps x e : syscalladded (item_done x e) = syscalladded x /\ (keyed x = true -> keyed (item_done x e) = true).
Proof.
  unfold item_done, marked, entry_after, number_after, text_after, keyed.
  destruct (_ =? AUDIT_FIELD_COMPARE); [done|]. destruct (e_operand e); repeat case_match; cbn;
    (split; [done|]); intros; rewrite ?orb_true_r; done.
Qed.

Lemma items_keep es x : syscalladded (fold_left item_done es x) = syscalladded x /\ (keyed x = true -> keyed (fold_left item_done es x) = true).
Proof.
  revert x. induction es as [|e es IH]; intros x; [done|]. cbn [fold_left]. destruct (item_keeps x e) as [H1 H2].
  destruct (IH (item_done x e)) as [H3 H4]. split; [congruence|auto].
Qed.

Lemma items_keyed es x : existsb (fun e => (e_field e =? AUDIT_EXE) || (e_field e =? AUDIT_FSTYPE)) es = true ->
  (forall fl, Forall (fun e => item_ok fl e = true) es -> keyed (fold_left item_done es x) = true).
Proof.
  revert x. induction es as [|e es IH]; intros x H fl Hes; [done|]. apply Forall_cons in Hes as [He Hes]. cbn [existsb fold_left] in *.
  apply orb_prop in H as [E|H]; [|by eapply IH]. apply items_keep.
  assert (Hne : e_field e <> AUDIT_FIELD_COMPARE) by (intros Heq; by rewrite Heq in E).
  unfold item_done. rewrite (proj2 (Z.eqb_neq _ _)) by done.
  apply orb_prop in E as [E%Z.eqb_eq|E%Z.eqb_eq]; rewrite E; unfold marked; cbn [AUDIT_EXE AUDIT_FSTYPE AUDIT_PERM Z.eqb Pos.eqb].
  - unfold keyed. cbn. by rewrite ?orb_true_r.
  - unfold entry_after. destruct (e_operand e) eqn:Ho; [rewrite E; unfold keyed; cbn; by rewrite ?orb_true_r|].
    exfalso. unfold item_ok in He. rewrite Ho in He. unfold entry_ok in He. rewrite Ho, E in He. cbv beta zeta iota in He.
    apply andb_prop in He as [_ He]. by vm_compute in He.
Qed.

Lemma key_step fl ks retval c r : on fl c -> rule_new c = Some r -> wf r -> field_count r < 63 -> list_requested c = false ->
  key c = key_text ks -> ks <> [] -> keys_ok ks = true -> check_filter fl AUDIT_FILTERKEY = 0 -> keyed (g c) = true ->
  exists r', add_key junk retval c = Some (retval, set_rule (g c) (Some r') c) /\
    wf r' /\ entries r' = entries r ++ key_entries ks /\ mask r' = mask r.
Proof.
  intros Hon Hr Hwf Hc Hlist Hkey Hne Hok Hcf Hkd. unfold add_key. rewrite Hlist, Hkey, Hr, (on_list_flags fl) by done.
  assert (Hk0 : key_text ks <> "").
  { destruct ks as [|k ks]; [done|]. unfold keys_ok in Hok. cbn [forallb] in Hok. apply andb_prop in Hok as [[Hk _]%andb_prop _].
    unfold key_text. cbn [join]. apply plain_nonempty in Hk. destruct ks; [done|]. by destruct k. }
  unfold str_eq. rewrite (proj2 (String.eqb_neq _ _)) by done. cbn [orb mbind option_bind].
  assert (Hcase : field_case AUDIT_FILTERKEY fl AUDIT_EQUAL (key_text ks) (g c) =
    Cased 0 (g c) (Some (Z.of_nat (String.length (key_text ks)))) true).
  { rewrite field_case_string by done. unfold string_case. cbn [andb]. change (existsb _ exit_strings) with false.
    cbn [AUDIT_FILTERKEY AUDIT_WATCH AUDIT_DIR AUDIT_EXE Z.eqb Pos.eqb orb andb]. fold (keyed (g c)). rewrite Hkd. cbn [negb].
    pose proof (keys_length ks Hok) as Hl. rewrite <-string_length_list in Hl.
    rewrite (proj2 (Z.ltb_ge AUDIT_MAX_KEY_LEN _)) by done.
    rewrite (proj2 (Z.ltb_ge PATH_MAX _)) by (unfold AUDIT_MAX_KEY_LEN, PATH_MAX in *; lia). done. }
  destruct (fieldpair_takes junk ("key=" ++s key_text ks) fl (g c) r "key" AUDIT_EQUAL (key_text ks)) as (rc & r' & old & -> & Hcalled & Hor);
    [done|done| |].
  { unfold takes. change (audit_name_to_field "key") with AUDIT_FILTERKEY. rewrite Hcase. split_and!; try done.
    apply (find_op_text "key" "=" AUDIT_EQUAL); [by apply plain_no_ops| |by_decision].
    eapply Forall_impl; [by apply keys_chars|]. intros x [Hx| ->]; [|done]. unfold plain_char in Hx. by destruct (op_char x). }
  change (audit_name_to_field "key") with AUDIT_FILTERKEY in *. cbn [mbind option_bind].
  destruct (called_ok memory _ _ _ _ Hcalled) as (r1 & -> & Hwf1). destruct Hor as [|Hrc]; [done|]. subst rc.
  destruct Hcalled as (_ & Hm & _ & _ & e' & <- & He). unfold operand_of in He. rewrite Hcase in *. cbn [text negb Z.eqb after] in *.
  exists r1. split_and!; try done. rewrite He. unfold key_entries. by destruct ks.
Qed.


(** ** The whole rule *)

(** What the rule needs besides [rule_ok] to be made again by its options. *)
Record loadable (r : audit_rule_data) (a : arch) (es : list entry) (ks : list string) : Prop := Loadable {
  load_rule : rule_ok r a es ks;
  load_target : target_ok r = true;
  load_mask : mask_ok r = true;
  load_machine : machine_ok a = true;
  load_keys : key_place r es ks = true;
}.

Lemma no_bits_init : no_bits audit_rule_init_data.
Proof.
  intros k Hk. unfold has_syscall. cbn [mask audit_rule_init_data].
  destruct (replicate 64 0 !! Z.to_nat (k / 32)) as [w|] eqn:E; [|apply Z.testbit_0_l].
  apply lookup_replicate in E as [-> _]. apply Z.testbit_0_l.
Qed.

Lemma no_bits_mask r r' : mask r' = mask r -> no_bits r -> no_bits r'.
Proof. intros Hm H k Hk. unfold has_syscall. rewrite Hm. by apply H. Qed.

Lemma keys_plain ks : keys_ok ks = true -> Forall (fun k => plain k = true) ks.
Proof.
  unfold keys_ok. intros [H _]%andb_prop. apply Forall_forall. intros k Hk%list_elem_of_In. rewrite forallb_forall in H. auto.
Qed.

Lemma rule_count r a es ks : rule_ok r a es ks ->
  Z.of_nat (length (arch_entries a)) + Z.of_nat (length es) + Z.of_nat (length (key_entries ks)) <= 63.
Proof.
  intros [Hwf He _ _ _]. pose proof (entries_count r Hwf) as Hc. pose proof (wf_count r Hwf). rewrite He, !length_app in Hc. lia.
Qed.

(** The system calls, or nothing on the lists that have none. *)
Lemma all_syscalls_step r a es ks rest c r0 : loadable r a es ks -> add c = flags r -> del c = AUDIT_FILTER_UNSET ->
  exclude c = (flags r =? AUDIT_FILTER_EXCLUDE) ->
  rule_new c = Some r0 -> wf r0 -> mask r0 = replicate 64 0 -> elf (g c) = elf_of a -> syscalladded (g c) = false ->
  exists x r', apply_opts junk (syscall_opts (elf_of a) r ++ rest) 1 c = apply_opts junk rest 1 (set_rule x (Some r') c) /\
    wf r' /\ entries r' = entries r0 /\ syscalladded x = (flags r =? AUDIT_FILTER_EXIT) /\
    mask r' = if flags r =? AUDIT_FILTER_EXIT then mask r else replicate 64 0.
Proof.
  intros [[Hwf _ Ha _ _] Ht Hm Hmach _] Hadd Hdel Hex Hr Hwf0 Hm0 He Hs.
  destruct (Z.eqb_spec (flags r) AUDIT_FILTER_EXIT) as [Hfl|Hfl].
  - rewrite Hfl in *. destruct (syscalls_step a r rest 1 c r0) as (r' & -> & H1 & H2 & H3); try done.
    { eapply no_bits_mask; [|apply no_bits_init]. by rewrite Hm0. }
    by exists (syscall_done (g c)), r'.
  - assert (no_syscalls (flags r) = true) as Hno.
    { unfold target_ok in Ht. apply andb_prop in Ht as [Hf%existsb_eqb_elem _]. revert Hf Hfl. generalize (flags r). intros fl Hf Hfl.
      repeat (apply elem_of_cons in Hf as [->|Hf]); [..|by apply elem_of_nil in Hf]; done. }
    exists (g c), r0. unfold syscall_opts. rewrite Hno. split_and!; try done. cbn [app]. f_equal. destruct c. cbn in *. by subst.
Qed.

Lemma rule_letters_ok r a es ks : Forall (fun e => item_ok (flags r) e = true) es ->
  Forall (fun x => x.1 ∈ rule_letters) (rule_opts r a es ks).
Proof.
  intros Hes. assert (o_a ∈ rule_letters /\ o_F ∈ rule_letters /\ o_C ∈ rule_letters /\ o_S ∈ rule_letters) as (Ha & HF & HC & HS) by by_decision.
  unfold rule_opts. apply Forall_cons. split; [done|]. rewrite !Forall_app. split_and!.
  - destruct a as [[]|]; by repeat constructor.
  - unfold syscall_opts. destruct (no_syscalls _), (mask_full r), (mask_syscalls r); by repeat constructor.
  - apply Forall_fmap. eapply Forall_impl; [done|]. intros e He. cbn. by apply item_kind in He as [(k & _ & _ & ->)|(_ & _ & ->)].
  - apply Forall_fmap, Forall_forall. intros k _. done.
Qed.

Lemma rule_loaded r a es ks c : loadable r a es ks ->
  exists c' r', setopt junk ("auditctl" :: flatten (rule_opts r a es ks)) (reset_vars c) = Some (1, c') /\
    rule_new c' = Some r' /\ wf r' /\ entries r' = entries r /\ add c' = flags r /\ act c' = action r /\ sent c' = sent c /\
    syscalladded (g c') = (flags r =? AUDIT_FILTER_EXIT) /\
    mask r' = if flags r =? AUDIT_FILTER_EXIT then mask r else replicate 64 0.
Proof.
  intros Hload. pose proof Hload as [Hok Ht Hm Hmach Hkp]. pose proof Hok as [Hwf He Ha Hes Hks].
  pose proof (rule_count _ _ _ _ Hok) as Hcount.
  destruct (target_on r c Ht) as [Hon _].
  rewrite setopt_opts by (done || by apply rule_letters_ok).
  fold (start c). unfold rule_opts. cbn [apply_opts Z.ltb Z.compare]. fold (target_text r). rewrite target_step by done.
  cbn [mbind option_bind].
  destruct (arch_step (flags r) a (syscall_opts (elf_of a) r ++ (entry_opt <$> es) ++ key_opts ks) 1 (started r c) audit_rule_init_data)
    as (r1 & -> & Hwf1 & He1 & Hm1); [done|done|apply wf_init|done|done|done|done|].
  set (c1 := set_rule _ (Some r1) _).
  destruct (all_syscalls_step r a es ks ((entry_opt <$> es) ++ key_opts ks) c1 r1) as (x & r2 & -> & Hwf2 & He2 & Hx & Hm2);
    [done|done|done|done|done|done|done|by destruct a as [[]|]|by destruct a as [[]|]|].
  set (c2 := set_rule x (Some r2) c1).
  pose proof (entries_count _ Hwf1) as Hn1. rewrite He1 in Hn1. cbn [app] in Hn1. change (entries audit_rule_init_data) with (@nil entry) in *.
  pose proof (entries_count _ Hwf2) as Hn2. rewrite He2, He1 in Hn2.
  destruct (items_step (flags r) es (key_opts ks) 1 c2 r2) as (r3 & -> & Hwf3 & He3 & Hm3); [done|done|done|done|cbn in Hn2; lia|done|].
  set (c3 := set_rule _ (Some r3) c2).
  pose proof (entries_count _ Hwf3) as Hn3. rewrite He3, He2, He1, !length_app in Hn3.
  destruct (keys_step (flags r) ks [] 1 c3) as (n & Hkeys); [done|done|by apply keys_plain|done| |].
  { cbn [key c3 c2 c1 set_rule started start set_lists set_key]. unfold add_keys. destruct ks as [|k ks']; [done|].
    unfold keys_ok in Hks. by apply andb_prop in Hks as [_ Hl%Z.leb_le]. }
  rewrite app_nil_r in Hkeys. rewrite Hkeys. cbn [apply_opts mbind option_bind].
  change (key c3) with "". destruct ks as [|k ks'] eqn:Eks.
  - cbn [add_keys]. exists (set_key "" n c3), r3. split; [done|]. split_and!; try done.
    + rewrite He3, He2, He1, He. cbn. by rewrite app_nil_r.
    + cbn. rewrite (proj1 (items_keep es x)). done.
    + by rewrite Hm3.
  - rewrite <-Eks in *. replace (add_keys "" ks) with (key_text ks) by (by rewrite Eks).
    set (c4 := set_key (key_text ks) n c3).
    assert (keyed (g c4) = true /\ check_filter (flags r) AUDIT_FILTERKEY = 0) as [Hkd Hcf].
    { unfold key_place in Hkp. rewrite Eks in Hkp. apply andb_prop in Hkp as [Hcf%Z.eqb_eq Hor]. split; [|done].
      apply orb_prop in Hor as [Hfl|Hex]; [|by eapply items_keyed].
      apply items_keep. unfold keyed. cbn. by rewrite Hx, Hfl. }
    destruct (key_step (flags r) ks 1 c4 r3) as (r4 & -> & Hwf4 & He4 & Hm4); try done; [|by rewrite Eks|].
    { rewrite Eks in Hcount. cbn in Hcount, Hn3. lia. }
    eexists _, r4. split; [done|]. split_and!; try done.
    + rewrite He4, He3, He2, He1, He. cbn. by rewrite <-!app_assoc.
    + cbn. by rewrite (proj1 (items_keep es x)).
    + by rewrite Hm4, Hm3.
Qed.


(** ** Sending *)

(** The same rule, as the kernel reads it. *)
Definition same_rule (r r' : audit_rule_data) : Prop :=
  entries r' = entries r /\ mask r' = mask r /\ flags r' = flags r /\ action r' = action r.

Lemma request_sent c r : rule_new c = Some r -> wf r -> add c <> AUDIT_FILTER_UNSET ->
  let all := negb (Z.land (add c) AUDIT_FILTER_MASK =? AUDIT_FILTER_TASK) && negb (syscalladded (g c)) in
  let r' := set_target (add c) (u32 (act c)) (if all then set_mask (replicate 64 UINT32_MAX) r else r) in
  exists rc c' rest, handle_request 1 c = Some (rc, c') /\ sent c' = sent c ++ AddRule r' :: rest.
Proof.
  intros Hr Hwf Hadd all r'. unfold handle_request. cbn [Z.eqb Z.ltb Z.compare].
  rewrite (proj2 (Z.eqb_neq _ _)) by done. cbn [negb]. unfold send_rule. rewrite Hr. cbn [mbind option_bind]. fold all.
  assert (Hall : (if all then audit_rule_syscallbyname_data "all" (g c) r else Some (0, r)) =
    Some (0, if all then set_mask (replicate 64 UINT32_MAX) r else r)) by (by destruct all).
  rewrite Hall. cbn [mbind option_bind]. fold r'.
  assert (Hf : fields r' = fields r) by (unfold r'; by destruct all).
  destruct (words_lookup (fields r) 0) as (f & Hlook & _); [apply Hwf|lia|].
  destruct (put_words 0 AUDIT_WATCH (fields r)) as (fs & Hput & _); [apply Hwf|lia|by_decision|].
  unfold ask. cbn [mbind option_bind]. unfold get. cbn [Z.leb Z.compare]. rewrite Hf, Hlook. cbn [mbind option_bind].
  destruct (_ && (f =? AUDIT_DIR)); cbn [mbind option_bind].
  - rewrite Hput. cbn [mbind option_bind]. unfold ask. cbn [mbind option_bind fst snd]. eexists _, _, _. split; [reflexivity|]. cbn. by rewrite <-app_assoc.
  - eexists _, _, []. done.
Qed.

Lemma rule_sent r a es ks c : loadable r a es ks ->
  exists c1 rc c2 r' rest, setopt junk ("auditctl" :: flatten (rule_opts r a es ks)) (reset_vars c) = Some (1, c1) /\
    handle_request 1 c1 = Some (rc, c2) /\ sent c2 = sent c ++ AddRule r' :: rest /\ same_rule r r'.
Proof.
  intros Hload. pose proof Hload as [[Hwf _ _ _ _] Ht Hm _ _].
  destruct (rule_loaded r a es ks c Hload) as (c1 & r1 & Hset & Hr1 & Hwf1 & He & Hadd & Hact & Hsent & Hsys & Hmask).
  destruct (target_on r c Ht) as [(_ & Hland & Hu) Hac].
  destruct (request_sent c1 r1 Hr1 Hwf1) as (rc & c2 & rest & Hreq & Hs2); [by rewrite Hadd|].
  rewrite Hadd, Hact, Hac, Hsys, Hland, Hsent in *.
  eexists c1, rc, c2, _, rest. split_and!; [done..|]. unfold same_rule. split_and!; try done; [by destruct (_ && _)|].
  cbn [mask set_target]. unfold mask_ok in Hm.
  destruct (Z.eqb_spec (flags r) AUDIT_FILTER_EXIT) as [Hfl|Hfl]; cbn [negb andb]; [by rewrite andb_false_r|].
  rewrite andb_true_r. destruct (Z.eqb_spec (flags r) AUDIT_FILTER_TASK) as [Hft|Hft]; cbn [negb mask set_mask].
  - rewrite Hmask. symmetry. apply forallb_replicate; [apply Hwf|done].
  - symmetry. apply forallb_replicate; [apply Hwf|done].
Qed.


End reload.

End RuleReload.
