(* ===== verification/RuleLines.v ===== *)
(** * Lines of a rules file

    The line that the listing prints for a rule, read by fileopt(), is split into
    the options of the rule again, and the rule is sent to the kernel. *)
From S2P Require Import Prelude CString StrSplit Nvlist Config ConfigFacts Lol Ellist Lookup Rule RuleFacts RuleList RuleText Getopt Auditctl AuditctlFacts RuleFields RulePrint RuleReload.

Local Open Scope audit_scope.

Module RuleLines.
Import ConfigFacts Auditctl RuleList RuleText AuditctlFacts RuleFields RulePrint RuleReload.

Local Open Scope string_scope.
Local Open Scope list_scope.
Local Open Scope Z_scope.

(** ** Words *)

Definition word_char (c : ascii) : bool := negb (existsb (Ascii.eqb c) [" "%char; LF; NUL; BACKSLASH; chr 7; chr 4]).
Definition word_ok (s : string) : bool := negb (str_eq s "") && forallb word_char (chars_of s).

Lemma word_append a b : word_ok a = true -> forallb word_char (chars_of b) = true -> word_ok (a ++s b) = true.
Proof.
  unfold word_ok. intros [Ha Ha']%andb_prop Hb. rewrite chars_of_append, forallb_app, Ha', Hb. by destruct a.
Qed.

Lemma word_chars s : word_ok s = true -> forallb word_char (chars_of s) = true.
Proof. unfold word_ok. by intros [_ H]%andb_prop. Qed.

Lemma plain_word_char c : plain_char c = true -> word_char c = true.
Proof.
  unfold plain_char, word_char. intros [_ H%negb_true_iff]%andb_prop. apply negb_true_iff.
  revert H. cbn [existsb]. rewrite !orb_false_iff. by intros (? & ? & ? & ? & ? & ? & _).
Qed.

Lemma plain_word s : plain s = true -> word_ok s = true.
Proof.
  unfold plain, word_ok. intros [-> H]%andb_prop. cbn [andb]. rewrite forallb_forall in *. intros c Hc. by apply plain_word_char, H.
Qed.

Lemma word_not c s : forallb word_char s = true -> word_char c = false -> c ∉ s.
Proof. intros H Hc Hin%list_elem_of_In. rewrite forallb_forall in H. apply H in Hin. congruence. Qed.

(** The text of options is split into their words. *)
Lemma words_start w t : w <> [] -> " "%char ∉ w -> (t = [] \/ exists t', t = " "%char :: t') ->
  StrSplit.words (w ++ t) = w :: StrSplit.words t.
Proof.
  intros Hne Hw Ht. unfold StrSplit.words. destruct (StrSplit.words_word [] w (tail t) Hw Hne) as [H1 H2].
  destruct Ht as [->|(t' & ->)]; [by rewrite app_nil_r|]. exact H1.
Qed.

Definition opt_ok (x : ascii * string) : bool := word_char x.1 && word_ok x.2.

Lemma items_start os : chars_of (items_text os) = [] \/ exists t, chars_of (items_text os) = " "%char :: t.
Proof. destruct os as [|[o a] os]; [by left|right]. by eexists. Qed.

Lemma items_words os : forallb opt_ok os = true -> StrSplit.words (chars_of (items_text os)) = chars_of <$> flatten os.
Proof.
  induction os as [|[o a] os IH]; [done|]. cbn [forallb]. intros [[Ho Ha]%andb_prop Hos]%andb_prop. cbn [fst snd] in *.
  change (items_text ((o, a) :: os)) with (opt_text (o, a) ++s items_text os).
  assert (Hc : chars_of (opt_text (o, a) ++s items_text os) =
    " "%char :: ["-"%char; o] ++ " "%char :: chars_of a ++ chars_of (items_text os)) by (by rewrite chars_of_append).
  rewrite Hc. change (StrSplit.words (" "%char :: ?t)) with (StrSplit.words t).
  rewrite words_start; [|done| |right; by eexists].
  2:{ intros Hin. apply elem_of_cons in Hin as [|Hin]; [done|]. apply elem_of_cons in Hin as [<-|Hin]; [done|]. by apply elem_of_nil in Hin. }
  change (StrSplit.words (" "%char :: ?t)) with (StrSplit.words t).
  rewrite words_start; [| | |apply items_start].
  2:{ unfold word_ok in Ha. by destruct a. }
  2:{ apply word_not; [by apply word_chars|done]. }
  cbn [flatten fmap list_fmap]. rewrite IH by done. done.
Qed.

(** ** Marks *)

Lemma preprocess_none b acc : BACKSLASH ∉ b -> preprocess false acc b = rev acc ++ b.
Proof.
  revert acc. induction b as [|c b IH]; intros acc Hb; cbn [preprocess]; [by rewrite app_nil_r|].
  apply not_elem_of_cons in Hb as [Hc Hb]. rewrite (proj2 (Ascii.eqb_neq _ _)) by congruence. cbn [andb].
  rewrite IH by done. cbn [rev]. by rewrite <-app_assoc.
Qed.

Lemma postprocess_none b : chr 7 ∉ b -> chr 4 ∉ b -> postprocess b = Some b.
Proof.
  induction b as [|c b IH]; intros H7 H4; [done|]. apply not_elem_of_cons in H7 as [H7 H7'], H4 as [H4 H4'].
  cbn [postprocess]. rewrite !(proj2 (Ascii.eqb_neq c _)) by congruence. by rewrite IH by done.
Qed.

Lemma postprocess_words ws : Forall (fun w => word_ok w = true) ws -> mapM postprocess (chars_of <$> ws) = Some (chars_of <$> ws).
Proof.
  intros H. apply mapM_Some. apply Forall2_fmap_l, Forall2_fmap_r, Forall_Forall2_diag. eapply Forall_impl; [done|].
  intros w Hw%word_chars. cbn. by apply postprocess_none; apply word_not.
Qed.

(** ** The words of a rule *)

Section lines.
Context {tabs : Tables} {mach : Machine} {kernel : Kernel} {itp : Nv.Interp} (junk : ascii).
Context (memory : forall n, realloc_ok n = true).
Context (errtab_ok : names_ok upper errtab) (msg_typetab_ok : names_ok upper msg_typetab).
Context (syscalls_ok : forall m tab, syscall_table m = Some tab -> syscall_names_ok tab).

(** An argument, and what it counts for the room of fileopt(). *)
Definition long (n : nat) (x : ascii * string) : Prop := opt_ok x = true /\ (n <= String.length x.2)%nat.

Lemma field_text_word n sym op v : (sym, op) ∈ field_ops -> plain n = true -> plain v = true ->
  word_ok (n ++s sym ++s v) = true /\ (2 <= String.length (n ++s sym ++s v))%nat.
Proof.
  intros Hs Hn Hv. split.
  - apply word_append; [by apply plain_word|]. rewrite chars_of_append, forallb_app.
    apply andb_true_intro. split; [|by apply word_chars, plain_word].
    assert (Forall (fun x => forallb word_char (chars_of x.1) = true) field_ops) as Hall by by_decision.
    by apply (proj1 (Forall_forall _ _) Hall) in Hs.
  - rewrite !append_length. apply plain_nonempty in Hn, Hv. destruct n, v; try done. cbn. lia.
Qed.

Lemma comp_in_field sym op : (sym, op) ∈ comp_ops -> (sym, op) ∈ field_ops.
Proof.
  intros H. assert (Forall (fun x => x ∈ field_ops) comp_ops) as Hall by by_decision.
  by apply (proj1 (Forall_forall _ _) Hall) in H.
Qed.

Lemma item_long fl e : item_ok fl e = true -> long 2 (entry_opt e).
Proof.
  intros [(c & -> & Hc & ->)|(Hok & _ & ->)]%item_kind; unfold long, opt_ok; cbn [fst snd].
  - destruct (compare_listed _ _ _ Hc) as (_ & _ & Hsym & a & b & Hcase & _ & _ & Ha & Hb & _).
    unfold comparison_text. cbn [e_op] in *. rewrite Hcase.
    destruct (field_text_word a _ _ b (comp_in_field _ _ Hsym) Ha Hb) as [-> H]. done.
  - destruct (entry_takes errtab_ok msg_typetab_ok fl e no_globals Hok) as (n & Hn & _ & _ & _ & _ & Hp).
    destruct (field_name _ _ Hn) as (_ & _ & _ & _ & _ & Hpn & _). cbn [fst snd] in Hpn.
    assert (Hop : (symbol (e_op e), e_op e) ∈ field_ops).
    { unfold entry_ok in Hok. apply andb_prop in Hok as [[[_ Hop]%andb_prop _]%andb_prop _]. by apply op_symbol, existsb_eqb_elem. }
    unfold entry_text. rewrite Hn. cbn [show default from_option id].
    destruct (field_text_word n _ _ (entry_value e) Hop Hpn Hp) as [-> H]. done.
Qed.

Lemma arch_long fl a : arch_ok fl a = true -> Forall (long 2) (arch_opts a).
Proof.
  destruct a as [[op v]|]; [|constructor]. intros Ha. apply Forall_singleton. unfold long, opt_ok. cbn [fst snd].
  assert (Hop : (symbol op, op) ∈ field_ops).
  { unfold arch_ok in Ha. apply andb_prop in Ha as [[[[Hop _]%andb_prop _]%andb_prop _]%andb_prop _].
    unfold eq_or_ne in Hop. apply orb_prop in Hop as [->%Z.eqb_eq| ->%Z.eqb_eq]; by_decision. }
  destruct (field_text_word "arch" _ _ (arch_bits v) Hop) as [-> H]; [done|unfold arch_bits; by destruct (negb _)|done].
Qed.

Lemma keys_long ks : keys_ok ks = true -> Forall (long 2) (key_opts ks).
Proof.
  intros Hk%keys_plain. apply Forall_fmap. eapply Forall_impl; [done|]. intros k H. unfold long, opt_ok. cbn [fst snd compose].
  split; [|rewrite append_length; cbn; lia]. apply andb_true_intro. split; [done|]. apply word_append; [done|]. by apply word_chars, plain_word.
Qed.

Lemma names_word ns : ns <> [] -> Forall (fun n => plain n = true) ns -> word_ok (join "," ns) = true.
Proof.
  induction ns as [|n ns IH]; intros Hne Hns; [done|]. apply Forall_cons in Hns as [Hn Hns]. cbn [join].
  destruct ns as [|n' ns]; [by apply plain_word|]. apply word_append; [by apply plain_word|].
  rewrite chars_of_append, forallb_app. apply andb_true_intro. split; [done|]. by apply word_chars, IH.
Qed.

Lemma scs_long elf scs : 0 <= machine_of elf -> scs <> [] -> Forall (fun k => 0 <= k < 2048) scs ->
  long 1 (o_S, join "," (syscall_name elf <$> scs)).
Proof.
  intros Hm Hne Hscs. assert (Hw : word_ok (join "," (syscall_name elf <$> scs)) = true).
  { apply names_word; [by destruct scs|]. apply Forall_fmap. eapply Forall_impl; [done|]. intros k Hk.
    by apply (syscall_name_ok syscalls_ok elf (set_elf elf no_globals) k audit_rule_init_data). }
  unfold long, opt_ok. cbn [fst snd]. rewrite Hw. split; [done|]. unfold word_ok in Hw. destruct (join _ _); [done|]. cbn. lia.
Qed.

Lemma syscalls_long a r : (flags r = AUDIT_FILTER_EXIT -> 0 <= machine_of (elf_of a)) -> target_ok r = true ->
  syscall_opts (elf_of a) r = [] \/ exists x, syscall_opts (elf_of a) r = [x] /\ long 1 x.
Proof.
  intros Hm Ht. unfold syscall_opts. destruct (no_syscalls (flags r)) eqn:Hno; [by left|].
  assert (Hfl : flags r = AUDIT_FILTER_EXIT).
  { unfold target_ok in Ht. apply andb_prop in Ht as [Hf%existsb_eqb_elem _]. revert Hf Hno. generalize (flags r). intros fl Hf Hno.
    repeat (apply elem_of_cons in Hf as [->|Hf]); [..|by apply elem_of_nil in Hf]; done. }
  destruct (mask_full r); [right; eexists; split; [done|]; split; [done|cbn; lia]|].
  pose proof (mask_syscalls_range r) as Hrange. revert Hrange. generalize (mask_syscalls r). intros scs Hrange.
  destruct scs as [|n scs]; [by left|right]. eexists. split; [done|]. by apply scs_long; [apply Hm| |].
Qed.

Lemma target_long r : target_ok r = true -> long 2 (o_a, target_text r).
Proof.
  unfold target_ok, target_text, long. generalize (flags r), (action r). intros fl ac [Hf%existsb_eqb_elem Ha%existsb_eqb_elem]%andb_prop.
  repeat (apply elem_of_cons in Hf as [->|Hf]); [..|by apply elem_of_nil in Hf];
    (repeat (apply elem_of_cons in Ha as [->|Ha]); [..|by apply elem_of_nil in Ha]); (split; [done|vm_compute; lia]).
Qed.

(** ** The line *)

Definition total (os : opts) : nat := List.fold_right (fun x n => (String.length x.2 + n)%nat) O os.

Lemma total_app os os' : total (os ++ os') = (total os + total os')%nat.
Proof. unfold total. induction os as [|x os IH]; [done|]. cbn [app List.fold_right]. rewrite IH. lia. Qed.

Lemma total_long os : Forall (long 2) os -> (2 * length os <= total os)%nat.
Proof. unfold total. induction 1 as [|x os [_ H] _ IH]; cbn [length List.fold_right]; lia. Qed.

Lemma items_length os : length (chars_of (items_text os)) = (4 * length os + total os)%nat.
Proof.
  induction os as [|[o a] os IH]; [done|]. change (items_text ((o, a) :: os)) with (opt_text (o, a) ++s items_text os).
  rewrite chars_of_append, length_app, IH, <-string_length_list.
  assert (String.length (opt_text (o, a)) = (4 + String.length a)%nat) as -> by done. unfold total. cbn [length List.fold_right snd]. lia.
Qed.

(** The array of fileopt() has room for the words of the line. *)
Lemma rule_room r a es ks : loadable r a es ks ->
  forallb opt_ok (rule_opts r a es ks) = true /\ (2 * length (rule_opts r a es ks) <= total (rule_opts r a es ks) + 1)%nat.
Proof.
  intros [[Hwf _ Ha Hes Hks] Ht _ Hm _].
  assert (Hitems : Forall (long 2) (entry_opt <$> es)).
  { apply Forall_fmap. eapply Forall_impl; [done|]. intros e He. exact (item_long _ e He). }
  pose proof (arch_long _ _ Ha) as Harch. pose proof (keys_long _ Hks) as Hkeys. pose proof (target_long r Ht) as Htarget.
  assert (Hmach : flags r = AUDIT_FILTER_EXIT -> 0 <= machine_of (elf_of a)).
  { intros _. unfold machine_of. destruct a as [[op v]|]; cbn [elf_of].
    - unfold arch_ok in Ha. apply andb_prop in Ha as [[[_ Hv%negb_true_iff]%andb_prop Hp%Z.leb_le]%andb_prop _]. by rewrite Hv.
    - unfold machine_ok in Hm. by apply andb_prop in Hm as [Hp%Z.leb_le _]. }
  pose proof (syscalls_long a r Hmach Ht) as Hsys.
  assert (Hweak : forall n os, Forall (long n) os -> forallb opt_ok os = true).
  { intros n os H. induction H as [|x os [Hx _] _ IH]; [done|]. cbn. by rewrite Hx, IH. }
  unfold rule_opts. fold (target_text r). split.
  - cbn [forallb]. rewrite (proj1 Htarget), !forallb_app, (Hweak _ _ Harch), (Hweak _ _ Hitems), (Hweak _ _ Hkeys).
    destruct Hsys as [->|(x & -> & Hx & _)]; [done|]. cbn. by rewrite Hx.
  - cbn [length total List.fold_right snd]. fold (total (arch_opts a ++ syscall_opts (elf_of a) r ++ (entry_opt <$> es) ++ key_opts ks)).
    rewrite !total_app, !length_app. apply total_long in Harch, Hitems, Hkeys. destruct Htarget as [_ Htl]. cbn [snd] in Htl.
    destruct Hsys as [->|(x & -> & _ & Hx)]; cbn [length total List.fold_right]; lia.
Qed.

Lemma flatten_words os : forallb opt_ok os = true -> Forall (fun w => word_ok w = true) (flatten os).
Proof.
  induction os as [|[o a] os IH]; [constructor|]. cbn [forallb flatten]. intros [[Ho Ha]%andb_prop Hos]%andb_prop. cbn [fst snd] in *.
  constructor; [unfold word_ok; cbn; by rewrite Ho|]. constructor; [done|]. by apply IH.
Qed.

Lemma of_chars (w : string) : Ellist.to_string (chars_of w) = w.
Proof. apply String.string_of_list_ascii_of_string. Qed.

(** The words of a line of options that has room. *)
Lemma line_words os t : String " " t = items_text os -> forallb opt_ok os = true -> os <> [] ->
  (2 * length os <= total os + 1)%nat -> line_fields (chars_of t) = Some ("auditctl" :: flatten os).
Proof.
  intros Ht Hos Hne Hroom. pose proof (items_words os Hos) as Hw. rewrite <-Ht in Hw. cbn [chars_of String.list_ascii_of_string] in Hw.
  change (StrSplit.words (" "%char :: chars_of t) = chars_of <$> flatten os) with (StrSplit.words (chars_of t) = chars_of <$> flatten os) in Hw.
  pose proof (items_length os) as Hl. rewrite <-Ht in Hl. cbn [String.list_ascii_of_string length] in Hl.
  assert (Hbad : forall c, word_char c = false -> c <> " "%char -> c ∉ chars_of t).
  { intros c Hc Hb Hin. assert (Hin' : c ∈ chars_of (items_text os)) by (rewrite <-Ht; by apply elem_of_cons; right).
    clear -Hin' Hc Hb Hos. induction os as [|[o a] os IH]; [by apply elem_of_nil in Hin'|].
    cbn [forallb] in Hos. apply andb_prop in Hos as [[Ho Ha%word_chars]%andb_prop Hos]. cbn [fst snd] in *.
    change (items_text ((o, a) :: os)) with (opt_text (o, a) ++s items_text os) in Hin'.
    rewrite chars_of_append in Hin'. apply elem_of_app in Hin' as [Hin'|Hin']; [|by apply IH].
    change (chars_of (opt_text (o, a))) with ([" "%char; "-"%char; o; " "%char] ++ chars_of a) in Hin'.
    apply elem_of_app in Hin' as [Hin'|Hin']; [|by eapply word_not].
    repeat (apply elem_of_cons in Hin' as [->|Hin']; [try done; congruence|]). by apply elem_of_nil in Hin'. }
  unfold line_fields. rewrite preprocess_none by (by apply Hbad). cbn [rev app].
  rewrite (StrSplit.split_all_spec _ _ 0 (chars_of t)); [|exists []; split; [done|by apply Hbad]|lia|done].
  cbn [mbind option_bind]. rewrite Hw. destruct os as [|[o a] os]; [done|]. cbn [flatten fmap list_fmap].
  pose proof (flatten_words _ Hos) as Hwords. cbn [flatten] in Hwords. apply Forall_cons in Hwords as [Hw1 Hwords].
  rewrite take_ge.
  2:{ cbn [length] in *. rewrite length_fmap, flatten_length. 
      apply Nat.le_trans with (length (chars_of t) / 3)%nat; [|lia]. apply Nat.div_le_lower_bound; lia. }
  change (chars_of a :: (chars_of <$> flatten os)) with (chars_of <$> (a :: flatten os)).
  rewrite postprocess_words by done. cbn [mbind option_bind]. f_equal. f_equal.
  rewrite of_chars. f_equal. rewrite <-list_fmap_compose. rewrite <-(list_fmap_id (a :: flatten os)) at 2.
  apply list_fmap_ext. intros _ w _. apply of_chars.
Qed.




End lines.


End RuleLines.
