(* ===== verification/RuleSamples.v ===== *)
(** * Sample rules

    A machine with a few system calls and a kernel that accepts every request: the
    theorems about rules at concrete inputs, and lines that auditctl does not treat
    as its manual says. *)
From S2P Require Import Prelude CString StrSplit Nvlist Config ConfigFacts Lol Ellist Lookup Rule RuleFacts RuleList RuleText Getopt Auditctl AuditctlFacts RuleFields RulePrint RuleReload RuleLines RuleCalls.

Local Open Scope audit_scope.

Module RuleSamples.
Import Auditctl RuleList RuleText AuditctlFacts RuleFields RulePrint RuleReload RuleLines.

Local Open Scope string_scope.
Local Open Scope list_scope.
Local Open Scope Z_scope.

#[local] Instance sample_tables : Tables := {|
  i386_syscalltab := [(1, "exit"); (4, "write")]; x86_64_syscalltab := [(0, "read"); (1, "write"); (59, "execve")];
  ppc_syscalltab := []; s390x_syscalltab := []; s390_syscalltab := []; arm_syscalltab := []; aarch64_syscalltab := [];
  errtab := [(1, "EPERM"); (13, "EACCES")]; msg_typetab := [(1300, "SYSCALL")]; with_arm := false; with_aarch64 := false |}.
#[local] Instance sample_machine : Machine := {|
  uts_machine := Some "x86_64"; getpwnam u := if str_eq u "root" then Some 0 else None; Rule.getgrnam _ := None;
  audit_get_features := 127; AF_MAX := 46; realloc_ok _ := true |}.
#[local] Instance sample_kernel : Kernel := {|
  answer _ _ := 1; einval _ _ := false; econnrefused _ := false; is_dir _ := false |}.
#[local] Instance sample_interp : Nv.Interp := {|
  Nv.auparse_interp_adjust_type _ _ _ := 0; Nv.auparse_do_interpretation _ _ _ := None |}.

Lemma sample_memory n : realloc_ok n = true.
Proof. done. Qed.

Lemma sample_errtab : names_ok upper errtab.
Proof. split; [split; by_decision|by_decision]. Qed.

Lemma sample_msg_typetab : names_ok upper msg_typetab.
Proof. split; [split; by_decision|by_decision]. Qed.

Lemma sample_syscalls m tab : syscall_table m = Some tab -> syscall_names_ok tab.
Proof.
  unfold syscall_table. cbn [with_arm with_aarch64 sample_tables andb].
  repeat (destruct (_ =? _)); cbn [orb]; intros [= <-]; (split; [split; by_decision|by_decision]).
Qed.

Definition no_ctl : ctl := Ctl no_globals AUDIT_FILTER_UNSET AUDIT_FILTER_UNSET (-1) false 0 None "" 0 false false false 0 [].

(** The last rule that a line sends. *)
Definition sent_by (line : string) : option audit_rule_data :=
  match do_line NUL (chars_of line) no_ctl with
  | Some (inl (_, c)) | Some (inr c) => match List.last (sent c) RequestStatus with AddRule r => Some r | _ => None end
  | None => None
  end.

(** How a line is listed. *)
Definition listed_by (line : string) : option string := r ← sent_by line; t ← print_rule false r 0; Some t.1.

Definition sample_line : string :=
  "-a always,exit -F arch=b64 -S write,execve -F auid>=1000 -F path=/etc/passwd -F exit=-EACCES -C uid!=euid -F key=one -F key=two".

Definition sample_rule : audit_rule_data := Eval vm_compute in default audit_rule_init_data (sent_by sample_line).
Definition sample_items : list entry := Eval vm_compute in take 4 (drop 1 (entries sample_rule)).

Lemma sample_wf : wf sample_rule.
Proof. split; try by_decision; split; by_decision. Qed.

Lemma sample_loadable : loadable sample_rule (Some (AUDIT_EQUAL, AUDIT_ARCH_X86_64)) sample_items ["one"; "two"].
Proof.
  split; [|vm_compute; reflexivity..].
  split; [exact sample_wf|vm_compute; reflexivity|vm_compute; reflexivity|by_decision|vm_compute; reflexivity].
Qed.


(** The sample line is listed with the system calls and fields it has. *)
Example sample_listed : listed_by sample_line = Some sample_line.
Proof. vm_compute. reflexivity. Qed.

Lemma rule_line_handled_witness :
  Forall (fun x => x.1 ∈ rule_letters) [("w"%char, "/etc/shadow"); ("p"%char, "wa")] /\
  exists rc c' r, setopt NUL ["auditctl"; "-w"; "/etc/shadow"; "-p"; "wa"] (reset_vars no_ctl) = Some (rc, c') /\
    rule_new c' = Some r /\ wf r.
Proof.
  assert (Forall (fun x : ascii * string => x.1 ∈ rule_letters) [("w"%char, "/etc/shadow"); ("p"%char, "wa")]) as H by by_decision.
  split; [exact H|]. exact (rule_line_handled NUL sample_memory _ no_ctl H ltac:(discriminate)).
Defined.

(** ** Lines that are not treated as the manual says *)

(** A rule with the action never and a path is listed as a watch, which is a rule
    with the action always. *)
Example never_listed_as_watch : listed_by "-a never,exit -F path=/x -F perm=wa" = Some "-w /x -p wa".
Proof. vm_compute. reflexivity. Qed.

(** A file type is listed as a number that cannot be read back. *)
Example filetype_listed_as_number :
  listed_by "-a always,exit -S read -F filetype=file" = Some "-a always,exit -S read -F filetype=32768" /\
  sent_by "-a always,exit -S read -F filetype=32768" = None.
Proof. split; vm_compute; reflexivity. Qed.

(** The operator of a program is not listed. *)
Example exe_operator_lost :
  listed_by "-a always,exit -S read -F exe!=/bin/ls" = Some "-a always,exit -S read -F exe=/bin/ls".
Proof. vm_compute. reflexivity. Qed.

(** Words that are short lose the last of them: the key is not in the rule. *)
Example short_words_lost :
  listed_by "-a always,exit -S 2 -S 3 -S 4 -S 5 -S 6 -S 7 -S 8 -S 9 -S 2 -S 3 -S 4 -S 5 -S 6 -S 7 -S 8 -S 9 -k abc" =
  Some "-a always,exit -S 2,3,4,5,6,7,8,9".
Proof. vm_compute. reflexivity. Qed.

(** The option -l behind another one reads past the arguments. *)
Example list_behind_option : setopt NUL ["auditctl"; "-e0"; "-l"] (reset_vars no_ctl) = None.
Proof. vm_compute. reflexivity. Qed.

(** Numbers are cut to 32 bits without an error. *)
Example wide_uid_cut : listed_by "-a always,exit -S read -F uid=4294967296" = Some "-a always,exit -S read -F uid=0".
Proof. vm_compute. reflexivity. Qed.


(** ** Calls of the library *)

Definition sample_calls : list RuleCalls.call := [
  RuleCalls.Watch AUDIT_DIR "/etc"; RuleCalls.Perms 6; RuleCalls.Field "arch=b64" 4; RuleCalls.Syscall "write";
  RuleCalls.SyscallNumber 4000; RuleCalls.Field "uid>=0x3e8" 4; RuleCalls.Field "exit=-EACCES" 4; RuleCalls.Field "colour=1" 4;
  RuleCalls.Compare "uid!=euid" 4; RuleCalls.Field "key=two" 4].

Definition sample_built : option (list Z * list entry) :=
  match RuleCalls.run NUL sample_calls no_globals audit_rule_init_data with
  | Some (rcs, _, Some r) => Some (rcs, entries r)
  | _ => None
  end.

(** What they build: the call with a number that is too large and the one with an
    unknown field are refused, all others are in the rule. *)
Example calls_built : sample_built = Some ([0; 0; 0; 0; -1; 0; 0; -2; 0; 0],
  [Entry AUDIT_DIR AUDIT_EQUAL (Text (chars_of "/etc")); Entry AUDIT_PERM AUDIT_EQUAL (Number 6);
   Entry AUDIT_ARCH AUDIT_EQUAL (Number 0xC000003E); Entry AUDIT_UID AUDIT_GREATER_THAN_OR_EQUAL (Number 1000);
   Entry AUDIT_EXIT AUDIT_EQUAL (Number (2 ^ 32 - 13));
   Entry AUDIT_FIELD_COMPARE AUDIT_NOT_EQUAL (Number AUDIT_COMPARE_UID_TO_EUID);
   Entry AUDIT_FILTERKEY AUDIT_EQUAL (Text (chars_of "two"))]).
Proof. vm_compute. reflexivity. Qed.

Lemma rule_holds_accepted_witness : Forall RuleCalls.callable sample_calls /\
  exists rcs g' r', RuleCalls.run NUL sample_calls no_globals audit_rule_init_data = Some (rcs, g', r') /\
  match r' with
  | None => exists n, realloc_ok n = false
  | Some r' => wf r' /\ RuleCalls.effects sample_calls rcs (RuleCalls.View [] ∅ 0) (RuleCalls.view_of g' r')
  end.
Proof.
  assert (Hc : Forall RuleCalls.callable sample_calls).
  { repeat constructor; by vm_compute. }
  split; [exact Hc|]. exact (RuleCalls.rule_holds_accepted NUL sample_calls no_globals Hc).
Defined.

End RuleSamples.
