(* ===== verification/AuditdEvent.v ===== *)
(** * Log files of the daemon (src/src/auditd-event.c)

    auditd writes events to a log file, rotates it by size, watches the space that
    is left and acts when it is low or when a write fails; it answers events from
    the network.  The static variables, the files below (Os), the answers and the
    programs that were started are the record [state].  [None] is a call of a C
    library function with a null stream, where the C program has no defined
    result.  A closed descriptor is not taken for another file.  Permissions of the
    files and messages to syslog are not modelled, nor are the threads that flush
    and the formatting of enriched events. *)
From S2P Require Import Prelude CString StrSplit Config ConfigFacts AuditdConf Os Lol Ellist Lookup.
From coqutil Require Import Datatypes.RecordSetters.
Import RecordSetters.TriangleBracketNotations.

Local Open Scope audit_scope.
Local Open Scope string_scope.
Local Open Scope list_scope.
Local Open Scope Z_scope.

Module AuditdEvent.
Import Config AuditdConf Lookup.

#[export] Instance size_action_eq_dec : EqDecision size_action.
Proof. solve_decision. Defined.
#[export] Instance node_eq_dec : EqDecision node_t.
Proof. solve_decision. Defined.
#[export] Instance overflow_action_eq_dec : EqDecision overflow_action_t.
Proof. solve_decision. Defined.

Definition EINTR : Z := 4.
Definition ENFILE : Z := 23.

(** ** Events and answers *)

Definition AUDIT_DAEMON_CONFIG : Z := 1203.
Definition AUDIT_DAEMON_RECONFIG : Z := 1204.
Definition AUDIT_DAEMON_ROTATE : Z := 1205.

Definition AUDIT_RMW_TYPE_ACK : Z := 0x40000000.
Definition AUDIT_RMW_TYPE_DISKLOW : Z := 0x50000001.
Definition AUDIT_RMW_TYPE_DISKFULL : Z := 0x60000001.
Definition AUDIT_RMW_TYPE_DISKERROR : Z := 0x60000002.

(** [reply.type], [reply.message], [reply.conf], whether [ack_func] is set, and
    [sequence_id]. *)
Record event := Event {
  e_type : Z;
  e_message : option string;
  e_conf : option daemon_conf;
  from_network : bool;
  sequence_id : Z;
}.

Record ack := Ack { ack_seq : Z; ack_type : Z; ack_msg : string }.

(** What is done outside of the program. *)
Inductive effect := Exec (exe : string) | RunLevel (level : string) | Mail (admin : bool) (acct : option string).

(** [stream] is the [FILE *log_file], which names its inode. *)
Record state := State {
  config : daemon_conf;
  log_fd : Z;
  stream : option Z;
  disk_err_warning : Z;
  fs_space_warning : bool;
  fs_admin_space_warning : bool;
  fs_space_left : bool;
  logging_suspended : bool;
  known_logs : Z;
  log_size : Z;
  last_log : Z;
  count : Z;
  flush_wanted : bool;
  files : Os.os;
  probes : nat;
  acks : list ack;
  effects : list effect;
}.

(** fstatfs() of the log file: [f_bavail] and [f_bsize] at each call. *)
Class Partition := { avail : nat -> option (Z * Z) }.

Section events.
Context {part : Partition} {host : Host} {tabs : Tables}.

Definition background (s : state) : bool := bool_decide (daemonize (config s) = D_BACKGROUND).

(** A call of the system that only succeeds or fails. *)
Definition sys (s : state) : result unit * state :=
  let (r, w) := Os.plain_call (files s) in (r, s<|files := w|>).

Definition send_ack (e : event) (type : Z) (msg : string) (s : state) : state :=
  if from_network e then s<|acks := acks s ++ [Ack (sequence_id e) type msg]|> else s.

(** fclose(log_file). *)
Definition close_log (s : state) : option state :=
  match stream s with None => None | Some _ => Some (s<|stream := None|>) end.

(** ** Actions *)

Definition safe_exec (exe : option string) (s : state) : state :=
  match exe with
  | None => s
  | Some exe => match sys s with
                | (Error _, s) => s
                | (Ok _, s) => s<|effects := effects s ++ [Exec exe]|>
                end
  end.

Definition SINGLE : string := "1".
Definition HALT : string := "0".

Definition change_runlevel (level : string) (s : state) : state :=
  match sys s with
  | (Error _, s) => s
  | (Ok _, s) => s<|effects := effects s ++ [RunLevel level]|>
  end.

(** The file is closed because the program may move it. *)
Definition exec_action (exe : option string) (s : state) : option state :=
  s ← close_log s;
  Some (safe_exec exe (s<|log_fd := -1|><|logging_suspended := true|>)).

Definition do_disk_error_action (s : state) : option state :=
  match disk_error_action (config s) with
  | FA_IGNORE => Some s
  | FA_SYSLOG => Some (if disk_err_warning s <? 5 then s<|disk_err_warning := disk_err_warning s + 1|> else s)
  | FA_EXEC => exec_action (disk_error_exe (config s)) s
  | FA_SUSPEND => Some (s<|logging_suspended := true|>)
  | FA_SINGLE => Some (change_runlevel SINGLE s)
  | FA_HALT => Some (change_runlevel HALT s)
  | FA_ROTATE | FA_EMAIL => Some s
  end.

(** [rotate] is rotate_logs(0, 0). *)
Definition do_disk_full_action (rotate : state -> option state) (s : state) : option state :=
  match disk_full_action (config s) with
  | FA_IGNORE | FA_SYSLOG => Some s
  | FA_ROTATE => if 1 <? num_logs (config s) then rotate s else Some s
  | FA_EXEC => exec_action (disk_full_exe (config s)) s
  | FA_SUSPEND => Some (s<|logging_suspended := true|>)
  | FA_SINGLE => Some (change_runlevel SINGLE s)
  | FA_HALT => Some (change_runlevel HALT s)
  | FA_EMAIL => Some s
  end.

(** ** Opening and rotating *)

(** open() again while the system has no descriptor left. *)
Fixpoint open_retry (fuel : nat) (path : string) (w : Os.os) : option (result Z * Os.os) :=
  match fuel with
  | O => None
  | S fuel =>
      match Os.open path false false w with
      | (Error e, w) => if e =? ENFILE then open_retry fuel path w else Some (Error e, w)
      | x => Some x
      end
  end.

(** The descriptor is made ready: fcntl, fchmod, fchown and fdopen. *)
Definition setup_log (lfd : Z) (s : state) : Z * state :=
  match sys s with
  | (Error _, s) => (1, s)
  | (Ok _, s) =>
      match sys s with
      | (Error _, s) => (1, s)
      | (Ok _, s) =>
          match sys s with
          | (Error _, s) => (1, s)
          | (Ok _, s) =>
              let s := s<|log_fd := lfd|> in
              match sys s with
              | (Error _, s) => (1, s<|stream := None|>)
              | (Ok _, s) => (0, s<|stream := Some lfd|>)
              end
          end
      end
  end.

(** Every turn of the loop takes an outcome of the script. *)
Definition open_fuel (s : state) : nat := S (length (Os.script (files s))).

Definition open_audit_log (s : state) : option (Z * state) :=
  let path := log_file (config s) in
  if write_logs (config s) =? 0 then Some (0, s)
  else
    '(r, w) ← open_retry (open_fuel s) path (files s);
    let s := s<|files := w|> in
    Some (match r with
          | Error e =>
              if e =? ENOENT then
                match Os.open path true true w with
                | (Error _, w) => (1, s<|files := w|>)
                | (Ok _, w) =>
                    let (r, w) := Os.open path false false w in
                    let s := s<|files := w|><|log_size := 0|> in
                    match r with
                    | Error _ => (1, s)
                    | Ok lfd => setup_log lfd s
                    end
                end
              else (1, s)
          | Ok lfd =>
              match Os.fstat lfd w with
              | (Error _, w) => (1, s<|files := w|>)
              | (Ok sz, w) => setup_log lfd (s<|files := w|><|log_size := sz|>)
              end
          end).

(** "%s.%d". *)
Definition log_name (path : string) (i : Z) : string := path +:+ "." +:+ ConfigFacts.decimal i.

(** A rename that failed, but not for a missing file. *)
Definition rotate_error (disk_full : state -> option state) (e : Z) (s : state) : option state :=
  if (e =? ENOSPC) && fs_space_left s then disk_full (s<|fs_space_left := false|>) else do_disk_error_action s.

(** The loop over the old logs from [i] down to 2. *)
Fixpoint rename_loop (n : nat) (disk_full : state -> option state) (i : Z) (s : state) : option state :=
  match n with
  | O => Some s
  | S n =>
      let path := log_file (config s) in
      let (r, w) := Os.rename (log_name path (i - 1)) (log_name path i) (files s) in
      let s := s<|files := w|> in
      s ← (match r with
           | Error e => if e =? ENOENT then Some s else rotate_error disk_full e s
           | Ok _ => Some (if known_logs s =? 0 then s<|known_logs := i + 1|> else s)
           end);
      rename_loop n disk_full (i - 1) s
  end.

(** The current log becomes number 1. *)
Definition rename_current (disk_full : state -> option state) (s : state) : option state :=
  let path := log_file (config s) in
  let (r, w) := Os.rename path (log_name path 1) (files s) in
  let s := s<|files := w|> in
  match r with
  | Error e => if e =? ENOENT then Some s else s ← rotate_error disk_full e s; Some (sys s).2
  | Ok _ => Some s
  end.

Definition reopen (s : state) : option state :=
  '(rc, s) ← open_audit_log s;
  if rc =? 0 then Some s else do_disk_error_action (s<|logging_suspended := true|>).

(** [num_logs] is 0 for the number of the configuration.  Fewer than two logs
    would leave the new name without a value.  A failed allocation suspends
    logging. *)
Fixpoint rotate_logs (fuel : nat) (num : Z) (keep_logs : bool) (s : state) : option state :=
  match fuel with
  | O => None
  | S fuel =>
      if (num_logs (config s) <? 2) && negb keep_logs then Some s
      else
        let s := (sys s).2 in
        let s := (sys s).2 in
        s ← close_log s;
        match sys s with
        | (Error _, s) => Some (s<|logging_suspended := true|>)
        | (Ok _, s) =>
            match sys s with
            | (Error _, s) => Some (s<|logging_suspended := true|>)
            | (Ok _, s) =>
                let num := if num =? 0 then num_logs (config s) else num in
                let disk_full := do_disk_full_action (rotate_logs fuel 0 false) in
                let num := Lol.int_of num in
                if num <? 2 then None
                else
                  s ← rename_loop (Z.to_nat (num - 2)) disk_full (num - 1) (s<|known_logs := 0|>);
                  s ← rename_current disk_full s;
                  reopen s
            end
        end
  end.

(** A rotation inside of a rotation finds no open file, so two are enough. *)
Definition rotate_fuel : nat := 2.
Definition rotate (num : Z) (keep_logs : bool) (s : state) : option state := rotate_logs rotate_fuel num keep_logs s.
Definition disk_full (s : state) : option state := do_disk_full_action (rotate 0 false) s.

(** access(name, R_OK) from a number on: the first that is not there, or 0 when
    the number wraps. *)
Fixpoint first_free (fuel : nat) (path : string) (i : Z) (w : Os.os) : option Z :=
  match fuel with
  | O => None
  | S fuel =>
      if i =? 0 then Some 0
      else match Os.dir w !! log_name path i with
           | None => Some i
           | Some _ => first_free fuel path (i +u 1) w
           end
  end.

(** More names than there are files cannot all be there. *)
Definition free_fuel (s : state) : nat := S (size (Os.dir (files s))).

Definition shift_logs (s : state) : option state :=
  match sys s with
  | (Error _, s) => Some s
  | (Ok _, s) =>
      let path := log_file (config s) in
      num ← first_free (free_fuel s) path (last_log s) (files s);
      let s := s<|known_logs := num|> in
      num ← (if (num <=? last_log s) && (1 <? last_log s) then first_free (free_fuel s) path 1 (files s) else Some num);
      rotate (num +u 1) true (s<|last_log := num|>)
  end.

Definition rotate_logs_now (s : state) : option state :=
  match max_log_size_action (config s) with
  | SZ_KEEP_LOGS => shift_logs s
  | _ => rotate 0 false s
  end.

(** unlink() from a number on until it fails. *)
Fixpoint unlink_loop (fuel : nat) (path : string) (i : Z) (w : Os.os) : option Os.os :=
  match fuel with
  | O => None
  | S fuel => match Os.unlink (log_name path i) w with
              | (Error _, w) => Some w
              | (Ok _, w) => unlink_loop fuel path (i +u 1) w
              end
  end.

Definition check_excess_logs (s : state) : option state :=
  if bool_decide (max_log_size_action (config s) <> SZ_ROTATE) || (num_logs (config s) <? 2) then Some s
  else match sys s with
       | (Error _, s) => Some s
       | (Ok _, s) =>
           w ← unlink_loop (free_fuel s) (log_file (config s)) (num_logs (config s)) (files s);
           Some (s<|files := w|>)
       end.

(** ** Checks *)

Definition check_log_file_size (s : state) : option state :=
  if write_logs (config s) =? 0 then Some s
  else if (max_log_size (config s) <=? log_size s / MEGABYTE) && background s then
    match max_log_size_action (config s) with
    | SZ_IGNORE | SZ_SYSLOG => Some s
    | SZ_SUSPEND => Some (s<|logging_suspended := true|>)
    | SZ_ROTATE => if 1 <? num_logs (config s) then rotate 0 false s else Some s
    | SZ_KEEP_LOGS => shift_logs s
    end
  else Some s.

Definition do_space_left_action (admin : bool) (s : state) : option state :=
  match (if admin then admin_space_left_action (config s) else space_left_action (config s)) with
  | FA_IGNORE | FA_SYSLOG => Some s
  | FA_ROTATE => if 1 <? num_logs (config s) then rotate 0 false s else Some s
  | FA_EMAIL => Some (s<|effects := effects s ++ [Mail admin (action_mail_acct (config s))]|>)
  | FA_EXEC => exec_action (if admin then admin_space_left_exe (config s) else space_left_exe (config s)) s
  | FA_SUSPEND => Some (s<|logging_suspended := true|>)
  | FA_SINGLE => Some (change_runlevel SINGLE s)
  | FA_HALT => Some (change_runlevel HALT s)
  end.

(** One of the two limits: [warned] is its warning and [set_warned] sets it. *)
Definition check_limit (admin : bool) (limit f_bavail f_bsize : Z) (warned : state -> bool)
    (set_warned : bool -> state -> state) (s : state) : option state :=
  let action := if admin then admin_space_left_action (config s) else space_left_action (config s) in
  if f_bavail <? u64 (limit * (MEGABYTE / f_bsize)) then
    if warned s then Some s
    else
      s ← do_space_left_action admin s;
      Some (if bool_decide (action <> FA_ROTATE) then set_warned true s else s)
  else Some (if warned s && bool_decide (action = FA_SYSLOG) then set_warned false s else s).

Definition set_space_warning (b : bool) (s : state) : state := s<|fs_space_warning := b|>.
Definition set_admin_space_warning (b : bool) (s : state) : state := s<|fs_admin_space_warning := b|>.

(** A block size of 0 would be a division by 0. *)
Definition check_space_left (s : state) : option state :=
  match stream s, avail (probes s) with
  | Some _, Some (f_bavail, f_bsize) =>
      let s := s<|probes := S (probes s)|> in
      if f_bavail <? 5 then disk_full (s<|fs_space_left := false|>)
      else if f_bsize =? 0 then None
      else
        s ← check_limit false (space_left (config s)) f_bavail f_bsize fs_space_warning set_space_warning s;
        check_limit true (admin_space_left (config s)) f_bavail f_bsize fs_admin_space_warning set_admin_space_warning s
  | _, _ => Some (s<|probes := S (probes s)|>)
  end.

(** ** Writing *)

(** "%s\n", with the text that printf shows for a null pointer. *)
Definition line_bytes (msg : option string) : bytes :=
  (code <$> String.list_ascii_of_string (default "(null)" msg)) ++ [10].

(** fprintf() to a stream that is flushed at the end of the line.  A short write
    is one after which the disk is full. *)
Definition fprintf (ino : Z) (b : bytes) (w : Os.os) : result Z * Os.os :=
  match Os.pop w with
  | (Os.Err e, w) => (Error e, w)
  | (Os.Short n, w) => (Error ENOSPC, Os.set_contents ino (Os.contents ino w ++ take (Z.to_nat n) b) w)
  | (Os.Good, w) => (Ok (Z.of_nat (length b)), Os.set_contents ino (Os.contents ino w ++ b) w)
  end.

Definition write_error (err : Z) (e : event) (s : state) : option state :=
  if err =? ENOSPC then
    let s := send_ack e AUDIT_RMW_TYPE_DISKFULL "disk full" s in
    if fs_space_left s then disk_full (s<|fs_space_left := false|>) else Some s
  else
    do_disk_error_action (send_ack e AUDIT_RMW_TYPE_DISKERROR "disk write error" s).

Definition write_to_log (e : event) (s : state) : option state :=
  ino ← stream s;
  let (r, w) := fprintf ino (line_bytes (e_message e)) (files s) in
  let s := s<|files := w|> in
  match r with
  | Error err => write_error err e s
  | Ok rc =>
      s ← (if background s then
             s ← check_log_file_size (s<|log_size := log_size s + rc|>);
             if log_size s mod 3 <? 2 then check_space_left s else Some s
           else Some s);
      let s := send_ack e (if fs_space_warning s then AUDIT_RMW_TYPE_DISKLOW else AUDIT_RMW_TYPE_ACK) "" s in
      Some (s<|disk_err_warning := 0|>)
  end.

(** fflush() until it is not interrupted; the result is errno, which a call that
    succeeds leaves as it was. *)
Fixpoint flush_retry (fuel : nat) (errno : Z) (w : Os.os) : option (Z * Os.os) :=
  match fuel with
  | O => None
  | S fuel => match Os.plain_call w with
              | (Ok _, w) => Some (errno, w)
              | (Error e, w) => if e =? EINTR then flush_retry fuel e w else Some (e, w)
              end
  end.

Definition flush_log (s : state) : option state :=
  '(errno, w) ← flush_retry (open_fuel s) 0 (files s);
  let s := s<|files := w|> in
  s ← (if errno =? 0 then Some s
       else if (errno =? ENOSPC) && fs_space_left s then disk_full (s<|fs_space_left := false|>)
       else do_disk_error_action s);
  if background s then
    if bool_decide (flush (config s) = FT_INCREMENTAL) then
      let (r, s) := sys s in
      match r with Ok _ => Some s | Error _ => do_disk_error_action s end
    else Some (s<|flush_wanted := true|>)
  else Some s.

Definition incremental (s : state) : bool :=
  bool_decide (flush (config s) = FT_INCREMENTAL) || bool_decide (flush (config s) = FT_INCREMENTAL_ASYNC).

(** A frequency of 0 would be a division by 0. *)
Definition flush_now (s : state) : option state :=
  if incremental s then
    let s := s<|count := count s +u 1|> in
    if freq (config s) =? 0 then None
    else if count s mod freq (config s) =? 0 then flush_log s else Some s
  else Some s.

(** The end of handle_event, for every event that is to be logged. *)
Definition log_event (e : event) (s : state) : option state :=
  let writes := negb (write_logs (config s) =? 0) in
  if negb (logging_suspended s) && (writes || negb (background s)) then
    s ← write_to_log e s;
    flush_now s
  else if negb writes && background s then Some (send_ack e AUDIT_RMW_TYPE_ACK "" s)
  else if logging_suspended s then Some (send_ack e AUDIT_RMW_TYPE_DISKERROR "remote logging suspended" s)
  else Some s.

Definition resume_logging (s : state) : option state :=
  let s := s<|logging_suspended := false|><|fs_space_left := true|> in
  s ← (match stream s with
       | Some _ => Some s
       | None =>
           '(rc, s) ← open_audit_log s;
           if rc =? 0 then check_log_file_size s else do_disk_error_action (s<|logging_suspended := true|>)
       end);
  Some (s<|disk_err_warning := 0|><|fs_space_warning := false|><|fs_admin_space_warning := false|>).

(** ** Formatting *)

Definition MAX_AUDIT_MESSAGE_LENGTH : Z := 8970.
Definition _POSIX_HOST_NAME_MAX : Z := 255.
Definition FORMAT_BUF_LEN : Z := MAX_AUDIT_MESSAGE_LENGTH + _POSIX_HOST_NAME_MAX.

(** snprintf() to a buffer of [size]: the text in the buffer and the length that
    the whole text has. *)
Definition snprintf (size : Z) (text : string) : string * Z :=
  (prefix_of (Z.to_nat (size - 1)) text, Z.of_nat (String.length text)).

Definition nl_to_blank (c : ascii) : ascii := if c =c LF then " "%char else c.
Definition map_chars (f : ascii -> ascii) (s : string) : string :=
  String.string_of_list_ascii (List.map f (String.list_ascii_of_string s)).

(** [%.*s] of a text without NUL. *)
Definition type_name (t : Z) : string :=
  default ("UNKNOWN[" +:+ (if t <? 0 then "-" +:+ ConfigFacts.decimal (- t) else ConfigFacts.decimal t) +:+ "]")
    (audit_msg_type_to_name t).

(** [len] is [rep->len].  The place behind the text is in the buffer only if the
    whole text fits there; what is behind a text that was cut does not show. *)
Definition format_raw (conf : daemon_conf) (type len : Z) (message : option string) : option string :=
  let msg := match message with None => "lost" | Some m => prefix_of (Z.to_nat len) m end in
  let (buf, nlen) :=
    match node_name_format conf with
    | N_NONE => snprintf (MAX_AUDIT_MESSAGE_LENGTH - 32) ("type=" +:+ type_name type +:+ " msg=" +:+ msg)
    | _ => snprintf (FORMAT_BUF_LEN - 32)
             ("node=" +:+ default "(null)" (node_name conf) +:+ " type=" +:+ type_name type +:+ " msg=" +:+ msg +:+ String LF "")
    end in
  let buf := map_chars nl_to_blank buf in
  if FORMAT_BUF_LEN <=? nlen - 1 then None
  else match String.get (Z.to_nat (nlen - 1)) buf with
       | Some c => Some (if c =c " "%char then prefix_of (Z.to_nat (nlen - 1)) buf else buf)
       | None => Some buf
       end.

(** The message of an event, cut to what the interface carries. *)
Definition replace_event_msg (buf : option string) (e : event) : event :=
  match buf with
  | None => e
  | Some buf =>
      Event (e_type e)
        (Some (if Z.of_nat (String.length buf) <? MAX_AUDIT_MESSAGE_LENGTH - 1 then buf
               else prefix_of (Z.to_nat (MAX_AUDIT_MESSAGE_LENGTH - 1)) buf))
        (e_conf e) (from_network e) (sequence_id e)
  end.

(** [enrich] is what format_enrich appends by the parsing library. *)
Definition format_event (enrich : string -> string) (len : Z) (conf : daemon_conf) (e : event) : option event :=
  match log_format conf with
  | LF_RAW => b ← format_raw conf (e_type e) len (e_message e); Some (replace_event_msg (Some b) e)
  | LF_ENRICHED => b ← format_raw conf (e_type e) len (e_message e); Some (replace_event_msg (Some (enrich b)) e)
  | LF_NOLOG => Some e
  end.

(** Events from the network. *)
Definition create_event (msg : option string) (network : bool) (seq : Z) : event :=
  let e := Event 0 None None network seq in if network then replace_event_msg msg e else e.

(** ** Reconfiguration *)

(** What auditd-listen.c takes from the new configuration; the listener itself is
    not modelled. *)
Definition auditd_tcp_listen_reconfigure (n o : daemon_conf) : daemon_conf :=
  let o := if negb (tcp_client_min_port o =? tcp_client_min_port n) || negb (tcp_client_max_port o =? tcp_client_max_port n) ||
              negb (tcp_max_per_addr o =? tcp_max_per_addr n)
           then o<|tcp_client_min_port := tcp_client_min_port n|><|tcp_client_max_port := tcp_client_max_port n|>
                 <|tcp_max_per_addr := tcp_max_per_addr n|>
           else o in
  let o := if negb (tcp_client_max_idle o =? tcp_client_max_idle n)
           then o<|tcp_client_max_idle := tcp_client_max_idle n|> else o in
  let o := if negb (tcp_listen_port o =? tcp_listen_port n) || negb (tcp_listen_queue o =? tcp_listen_queue n)
           then o<|tcp_listen_port := tcp_listen_port n|><|tcp_listen_queue := tcp_listen_queue n|> else o in
  o<|krb5_principal := krb5_principal n|>.

(** strcmp() of two strings that are both there; [None] otherwise. *)
Definition differ (a b : option string) : option bool :=
  match a, b with Some a, Some b => Some (negb (str_eq a b)) | _, _ => None end.

(** The general parameters, before the log file: the configuration, and whether the
    log must be opened again. *)
Definition reconf_general (n o : daemon_conf) : option (daemon_conf * bool) :=
  let o := o<|disk_error_action := disk_error_action n|><|disk_error_exe := disk_error_exe n|>
            <|num_logs := num_logs n|><|freq := freq n|><|priority_boost := priority_boost n|><|log_format := log_format n|> in
  let writes := negb (write_logs o =? write_logs n) && bool_decide (daemonize o = D_BACKGROUND) in
  let o := if writes then o<|write_logs := write_logs n|> else o in
  let group := negb (log_group o =? log_group n) in
  let o := o<|log_group := log_group n|> in
  _ ← differ (action_mail_acct o) (action_mail_acct n);
  let o := o<|action_mail_acct := action_mail_acct n|> in
  let o := if bool_decide (node_name_format o <> node_name_format n) || default false (differ (node_name o) (node_name n))
           then o<|node_name_format := node_name_format n|><|node_name := node_name n|> else o in
  let o := auditd_tcp_listen_reconfigure n o in
  let o := o<|distribute_network_events := distribute_network_events n|><|q_depth := q_depth n|>
            <|overflow_action := overflow_action n|><|max_restarts := max_restarts n|><|plugin_dir := plugin_dir n|> in
  Some (o, writes || group).

(** A program of an action: whether the space has to be checked again. *)
Definition exe_changed (o n : option string) : bool :=
  match o, n with
  | _, None => false
  | None, Some _ => true
  | Some o, Some n => negb (str_eq o n)
  end.

Definition reconf_space (n o : daemon_conf) : daemon_conf * bool :=
  (o<|space_left := space_left n|><|space_left_percent := space_left_percent n|><|space_left_action := space_left_action n|>
    <|space_left_exe := space_left_exe n|><|admin_space_left := admin_space_left n|>
    <|admin_space_left_percent := admin_space_left_percent n|><|admin_space_left_action := admin_space_left_action n|>
    <|admin_space_left_exe := admin_space_left_exe n|><|disk_full_action := disk_full_action n|><|disk_full_exe := disk_full_exe n|>,
   negb (space_left o =? space_left n) || negb (space_left_percent o =? space_left_percent n) ||
   bool_decide (space_left_action o <> space_left_action n) || exe_changed (space_left_exe o) (space_left_exe n) ||
   negb (admin_space_left o =? admin_space_left n) || negb (admin_space_left_percent o =? admin_space_left_percent n) ||
   bool_decide (admin_space_left_action o <> admin_space_left_action n) ||
   exe_changed (admin_space_left_exe o) (admin_space_left_exe n) ||
   bool_decide (disk_full_action o <> disk_full_action n) || exe_changed (disk_full_exe o) (disk_full_exe n)).

Definition set_config (c : daemon_conf) (s : state) : state := s<|config := c|>.

(** The file is opened again for the new configuration. *)
Definition reconf_reopen (s : state) : option state :=
  s ← close_log s;
  '(rc, s) ← open_audit_log s;
  if rc =? 0 then check_log_file_size (s<|logging_suspended := false|>)
  else do_disk_error_action (s<|logging_suspended := true|>).

Definition reconf_check_space (s : state) : option state :=
  let saved := logging_suspended s in
  let s := set_config (setup_percentages (config s)) s in
  s ← check_excess_logs (s<|fs_space_warning := false|><|fs_admin_space_warning := false|><|fs_space_left := true|>
                          <|logging_suspended := false|>);
  s ← check_space_left s;
  Some (if logging_suspended s then s else s<|logging_suspended := saved|>).

Definition reconfigure (n : daemon_conf) (s : state) : option state :=
  '(o, reopens) ← reconf_general n (config s);
  let s := s<|disk_err_warning := 0|> in
  let size_check := bool_decide (max_log_size_action o <> max_log_size_action n) || negb (max_log_size o =? max_log_size n) in
  let o := o<|max_log_size_action := max_log_size_action n|><|max_log_size := max_log_size n|> in
  s ← (if size_check then check_log_file_size (set_config o s<|logging_suspended := false|>) else Some (set_config o s));
  let reopens := reopens || bool_decide (flush o <> flush n) || negb (str_eq (log_file o) (log_file n)) in
  let moved := negb (str_eq (log_file o) (log_file n)) in
  let o := o<|flush := flush n|><|log_file := log_file n|> in
  s ← (if reopens then reconf_reopen (set_config o s) else Some (set_config o s));
  let (o, space_check) := reconf_space n (config s) in
  let s := set_config o s in
  if moved || space_check then reconf_check_space s else Some s.

(** [date] is what the clock and rand() give. *)
Definition reconfigured (date : string) (n : daemon_conf) (e : event) : event :=
  Event AUDIT_DAEMON_CONFIG
    (Some (prefix_of (Z.to_nat (MAX_AUDIT_MESSAGE_LENGTH - 3)) (date +:+ ": op=reconfigure state=changed auid=" +:+ ConfigFacts.decimal (sender_uid n) +:+ " pid=" +:+
           ConfigFacts.decimal (sender_pid n) +:+ " subj=" +:+ default "(null)" (sender_ctx n) +:+ " res=success")))
    (e_conf e) (from_network e) (sequence_id e).

(** ** The handler *)

Definition handle_event (enrich : string -> string) (date : string) (e : event) (s : state) : option state :=
  if (e_type e =? AUDIT_DAEMON_RECONFIG) && negb (from_network e) then
    n ← e_conf e;
    s ← reconfigure n s;
    if (write_logs (config s) =? 0) && background s then Some s
    else
      let e := reconfigured date n e in
      e ← format_event enrich (Z.of_nat (String.length (default "" (e_message e)))) (config s) e;
      log_event e s
  else if e_type e =? AUDIT_DAEMON_ROTATE then
    s ← rotate_logs_now s;
    if (write_logs (config s) =? 0) && background s then Some s else log_event e s
  else log_event e s.

(** Events of this machine. *)
Definition enqueue_event (enrich : string -> string) (date : string) (e : event) (s : state) : option state :=
  handle_event enrich date (Event (e_type e) (e_message e) (e_conf e) false 0) s.


(** The standard output. *)
Definition STDOUT : Z := 1.

Definition init_event (conf : daemon_conf) (w : Os.os) : option (Z * state) :=
  let s := State conf (-1) None 0 false false true false 0 0 1 0 false w O [] [] in
  if background s then
    '(rc, s) ← open_audit_log s;
    if negb (rc =? 0) then Some (1, s)
    else
      let s := set_config (setup_percentages (config s)) s in
      s ← check_log_file_size s;
      s ← check_excess_logs s;
      s ← check_space_left s;
      match sys s with
      | (Error _, s) => s ← close_log s; Some (1, s)
      | (Ok _, s) => Some (0, s)
      end
  else
    match sys s with
    | (Error _, s) => Some (1, s)
    | (Ok _, s) =>
        match sys (s<|log_fd := STDOUT|><|stream := Some STDOUT|>) with
        | (Error _, s) => s ← close_log s; Some (1, s)
        | (Ok _, s) => Some (0, s)
        end
    end.

End events.

End AuditdEvent.
