(* ===== verification/AuditdEventFacts.v ===== *)
(** * Facts about the log files of the daemon

    What rotation does to the files, that events are answered once, and that with
    actions that do not close the file no fault of the system makes the handler use
    a null stream. *)
From S2P Require Import Prelude CString StrSplit Config ConfigFacts AuditdConf Os Lol Ellist Lookup AuditdEvent.
From coqutil Require Import Datatypes.RecordSetters.
Import RecordSetters.TriangleBracketNotations.

Local Open Scope audit_scope.
Local Open Scope string_scope.
Local Open Scope list_scope.
Local Open Scope Z_scope.

Module AuditdEventFacts.
Import Config ConfigFacts AuditdConf Lookup AuditdEvent.

Section facts.
Context {part : Partition} {host : Host} {tabs : Tables}.

(** ** What every action keeps *)

(** The configuration and the answers stay, and a log that is closed is
    suspended. *)
Record kept (s s' : state) : Prop := Kept {
  kept_config : config s' = config s;
  kept_acks : acks s' = acks s;
}.

#[global] Instance kept_preorder : PreOrder kept.
Proof. split; [done|]. intros s1 s2 s3 [] []. split; congruence. Qed.

Definition ok (s : state) : Prop := stream s = None -> logging_suspended s = true.

Ltac kept_by := match goal with |- kept ?s _ => destruct s; by split end.

Lemma sys_kept s : kept s (sys s).2 /\ stream (sys s).2 = stream s /\ logging_suspended (sys s).2 = logging_suspended s.
Proof. unfold sys. destruct (Os.plain_call _). destruct s; by split. Qed.

Lemma sys_eq s r s' : sys s = (r, s') -> kept s s' /\ stream s' = stream s /\ logging_suspended s' = logging_suspended s.
Proof. intros H. pose proof (sys_kept s) as Hk. by rewrite H in Hk. Qed.

(** Nothing but files, numbers and effects change. *)
Record fine (s s' : state) : Prop := Fine {
  fine_kept : kept s s';
  fine_stream : stream s' = stream s;
  fine_suspended : logging_suspended s = true -> logging_suspended s' = true;
}.

#[global] Instance fine_preorder : PreOrder fine.
Proof.
  split; [by split|]. intros s1 s2 s3 [] []. split; [by etrans|congruence|auto].
Qed.

Lemma fine_ok s s' : fine s s' -> ok s -> ok s'.
Proof. intros [_ Hs Hf] Hok H. rewrite Hs in H. auto. Qed.

Lemma sys_fine s r s' : sys s = (r, s') -> fine s s'.
Proof. intros (H1 & H2 & H3)%sys_eq. split; [done|done|by rewrite H3]. Qed.

Lemma sys_fine' s : fine s (sys s).2.
Proof. destruct (sys s) eqn:E. by eapply sys_fine. Qed.

Ltac fine_by := match goal with |- fine ?s _ => destruct s; by repeat split end.

Lemma runlevel_fine l s : fine s (change_runlevel l s).
Proof.
  unfold change_runlevel. destruct (sys s) as [r s1] eqn:E. apply sys_fine in E. destruct r; [|done]. etrans; [exact E|]. fine_by.
Qed.

Lemma suspend_fine s : fine s (s<|logging_suspended := true|>).
Proof. fine_by. Qed.

Lemma error_fine s : disk_error_action (config s) <> FA_EXEC -> exists s', do_disk_error_action s = Some s' /\ fine s s'.
Proof.
  intros Hne. unfold do_disk_error_action. destruct (disk_error_action (config s)); try done; eexists; (split; [done|]);
    try apply runlevel_fine; try apply suspend_fine; try done.
  destruct (_ <? 5); [fine_by|done].
Qed.

Lemma full_fine rot s : disk_full_action (config s) <> FA_EXEC -> disk_full_action (config s) <> FA_ROTATE ->
  exists s', do_disk_full_action rot s = Some s' /\ fine s s'.
Proof.
  intros H1 H2. unfold do_disk_full_action. destruct (disk_full_action (config s)); try done; eexists; (split; [done|]);
    try apply runlevel_fine; try apply suspend_fine; done.
Qed.

(** ** Configurations that do not close the file *)

(** No action starts a program, a full disk does not rotate the logs, and the two
    limits of the space do not both do so. *)
Record calm (c : daemon_conf) : Prop := Calm {
  calm_error : disk_error_action c <> FA_EXEC;
  calm_full : disk_full_action c <> FA_EXEC;
  calm_full' : disk_full_action c <> FA_ROTATE;
  calm_space : space_left_action c <> FA_EXEC;
  calm_admin : admin_space_left_action c <> FA_EXEC;
  calm_both : ~ (space_left_action c = FA_ROTATE /\ admin_space_left_action c = FA_ROTATE);
  calm_freq : flush c = FT_INCREMENTAL \/ flush c = FT_INCREMENTAL_ASYNC -> freq c <> 0;
  calm_logs : 0 <= num_logs c < 2 ^ 31;
}.

#[global] Instance calm_dec c : Decision (calm c).
Proof.
  refine (cast_if (decide (disk_error_action c <> FA_EXEC /\ disk_full_action c <> FA_EXEC /\ disk_full_action c <> FA_ROTATE /\
    space_left_action c <> FA_EXEC /\ admin_space_left_action c <> FA_EXEC /\
    ~ (space_left_action c = FA_ROTATE /\ admin_space_left_action c = FA_ROTATE) /\
    (flush c = FT_INCREMENTAL \/ flush c = FT_INCREMENTAL_ASYNC -> freq c <> 0) /\ 0 <= num_logs c < 2 ^ 31)));
    [by destruct a as (? & ? & ? & ? & ? & ? & ? & ?)|intros [H1 H2 H3 H4 H5 H6 H7 H8]; by apply n].
Defined.

Lemma open_retry_total fuel path w : (length (Os.script w) < fuel)%nat -> exists x, open_retry fuel path w = Some x.
Proof.
  revert w. induction fuel as [|fuel IH]; intros w Hf; [lia|]. cbn [open_retry].
  destruct (Os.open path false false w) as [[fd|e] w'] eqn:E; [by eexists|]. destruct (Z.eqb_spec e ENFILE) as [He|]; [|by eexists].
  apply IH. unfold Os.open, Os.pop in E. destruct (Os.script w) as [|o rest] eqn:Es.
  - cbn in E. destruct (Os.dir w !! path); by simplify_eq.
  - cbn in Hf. destruct o; cbn in E; [destruct (Os.dir w !! path); by simplify_eq| |destruct (Os.dir w !! path); by simplify_eq].
    injection E as <- <-. cbn. lia.
Qed.

(** Opening changes the stream only; on success it is there. *)
Lemma setup_kept lfd s rc s' : setup_log lfd s = (rc, s') -> kept s s' /\ logging_suspended s' = logging_suspended s /\
  (rc = 0 -> is_Some (stream s')) /\ (stream s' = None \/ is_Some (stream s') /\ (stream s' = stream s \/ stream s' = Some lfd)).
Proof.
  unfold setup_log. intros H.
  destruct (sys s) as [[|] s1] eqn:E1; [|injection H as <- <-; apply sys_eq in E1 as (? & -> & ?); split_and!; try done; destruct (stream s); naive_solver].
  destruct (sys s1) as [[|] s2] eqn:E2; apply sys_eq in E1 as (K1 & S1 & L1);
    [|injection H as <- <-; apply sys_eq in E2 as (K2 & S2 & L2); split_and!; [by etrans|congruence|done|]; rewrite S2, S1; destruct (stream s); naive_solver].
  destruct (sys s2) as [[|] s3] eqn:E3; apply sys_eq in E2 as (K2 & S2 & L2);
    [|injection H as <- <-; apply sys_eq in E3 as (K3 & S3 & L3); split_and!; [by do 2 (etrans; [done|])|congruence|done|]; rewrite S3, S2, S1; destruct (stream s); naive_solver].
  apply sys_eq in E3 as (K3 & S3 & L3).
  destruct (sys (s3<|log_fd := lfd|>)) as [[|] s4] eqn:E4; apply sys_eq in E4 as (K4 & S4 & L4); injection H as <- <-.
  - split_and!; [|destruct s4; cbn in *; destruct s3; cbn in *; congruence|intros _; by destruct s4; eexists|right; destruct s4; cbn; split; [by eexists|by right]].
    do 3 (etrans; [done|]). etrans; [|etrans; [exact K4|]]; [destruct s3|destruct s4]; by split.
  - split_and!; [|destruct s4; cbn in *; destruct s3; cbn in *; congruence|done|left; by destruct s4].
    do 3 (etrans; [done|]). etrans; [|etrans; [exact K4|]]; [destruct s3|destruct s4]; by split.
Qed.


Lemma open_kept s : exists rc s', open_audit_log s = Some (rc, s') /\ kept s s' /\ logging_suspended s' = logging_suspended s /\
  (write_logs (config s) <> 0 -> rc = 0 -> is_Some (stream s')).
Proof.
  unfold open_audit_log. destruct (Z.eqb_spec (write_logs (config s)) 0) as [H0|Hw]; [by exists 0, s|].
  destruct (open_retry_total (open_fuel s) (log_file (config s)) (files s)) as ([r w] & ->); [unfold open_fuel; lia|].
  cbn [mbind option_bind].
  assert (Hset : forall lfd s1, kept s s1 -> logging_suspended s1 = logging_suspended s -> forall rc s', setup_log lfd s1 = (rc, s') ->
    exists rc' s'', Some (rc, s') = Some (rc', s'') /\ kept s s'' /\ logging_suspended s'' = logging_suspended s /\
      (write_logs (config s) <> 0 -> rc' = 0 -> is_Some (stream s''))).
  { intros lfd s1 K L rc s' (K' & L' & Hs & _)%setup_kept. exists rc, s'. split_and!; [done|by etrans|congruence|auto]. }
  destruct r as [lfd|e].
  - destruct (Os.fstat lfd w) as [[sz|e] w2].
    + destruct (setup_log _ _) as [rc s'] eqn:E. eapply Hset; [| |exact E]; by destruct s.
    + eexists _, _. split; [done|]. by destruct s.
  - destruct (e =? ENOENT); [|eexists _, _; split; [done|]; by destruct s].
    destruct (Os.open _ true true w) as [[fd|e2] w2]; [|eexists _, _; split; [done|]; by destruct s].
    destruct (Os.open _ false false w2) as [[lfd|e2] w3]; [|eexists _, _; split; [done|]; by destruct s].
    destruct (setup_log _ _) as [rc s'] eqn:E. eapply Hset; [| |exact E]; by destruct s.
Qed.

(** Reopening, when a failure does not start a program. *)
Lemma reopen_ok s : disk_error_action (config s) <> FA_EXEC -> write_logs (config s) <> 0 ->
  exists s', reopen s = Some s' /\ kept s s' /\ ok s' /\ (logging_suspended s = true -> logging_suspended s' = true).
Proof.
  intros He Hw. unfold reopen. destruct (open_kept s) as (rc & s1 & -> & K & L & Hs). cbn [mbind option_bind].
  destruct (Z.eqb_spec rc 0) as [->|].
  - exists s1. split_and!; try done; [|by rewrite L]. intros Hn. destruct (Hs Hw eq_refl). congruence.
  - destruct (error_fine (s1<|logging_suspended := true|>)) as (s2 & -> & F); [by destruct K as [C _], s1; cbn in *; rewrite C|].
    exists s2. assert (kept s1 s2) by (etrans; [|apply F]; by destruct s1).
    split_and!; [done|by etrans|intros _|intros _]; apply (fine_suspended _ _ F); by destruct s1.
Qed.

Lemma loop_fine n full i s : disk_error_action (config s) <> FA_EXEC ->
  (forall s1, config s1 = config s -> exists s', full s1 = Some s' /\ fine s1 s') ->
  exists s', rename_loop n full i s = Some s' /\ fine s s'.
Proof.
  revert i s. induction n as [|n IH]; intros i s He Hfull; [by exists s|]. cbn [rename_loop].
  destruct (Os.rename _ _ _) as [r w].
  assert (exists s1, (match r with
     | Ok _ => Some (if known_logs (s<|files := w|>) =? 0 then s<|files := w|><|known_logs := i + 1|> else s<|files := w|>)
     | Error e => if e =? ENOENT then Some (s<|files := w|>) else rotate_error full e (s<|files := w|>) end) = Some s1 /\ fine s s1)
    as (s1 & -> & F1).
  { assert (F0 : fine s (s<|files := w|>)) by (destruct s; by repeat split).
    destruct r as [|e]; [eexists; split; [done|]; destruct (_ =? 0); destruct s; by repeat split|].
    destruct (e =? ENOENT); [by eexists|]. unfold rotate_error. destruct (_ && _).
    - destruct (Hfull (s<|files := w|><|fs_space_left := false|>)) as (s2 & -> & F); [by destruct s|].
      exists s2. split; [done|]. etrans; [|exact F]. destruct s; by repeat split.
    - destruct (error_fine (s<|files := w|>)) as (s2 & -> & F); [by destruct s|]. exists s2. split; [done|]. by etrans. }
  cbn [mbind option_bind]. destruct (IH (i - 1) s1) as (s2 & -> & F2).
  - by rewrite (kept_config _ _ (fine_kept _ _ F1)).
  - intros s3 Hc. apply Hfull. rewrite Hc. apply F1.
  - exists s2. split; [done|]. by etrans.
Qed.

Lemma current_fine full s : disk_error_action (config s) <> FA_EXEC ->
  (forall s1, config s1 = config s -> exists s', full s1 = Some s' /\ fine s1 s') ->
  exists s', rename_current full s = Some s' /\ fine s s'.
Proof.
  intros He Hfull. unfold rename_current. destruct (Os.rename _ _ _) as [r w].
  assert (F0 : fine s (s<|files := w|>)) by (destruct s; by repeat split).
  destruct r as [|e]; [by eexists|]. destruct (e =? ENOENT); [by eexists|]. unfold rotate_error. destruct (_ && _).
  - destruct (Hfull (s<|files := w|><|fs_space_left := false|>)) as (s2 & -> & F); [by destruct s|].
    eexists. split; [done|]. etrans; [|apply sys_fine']. etrans; [|exact F]. destruct s; by repeat split.
  - destruct (error_fine (s<|files := w|>)) as (s2 & -> & F); [by destruct s|].
    eexists. split; [done|]. etrans; [|apply sys_fine']. by etrans.
Qed.


(** ** Names *)

Lemma app_inj_l a b c : a +:+ b = a +:+ c -> b = c.
Proof. induction a as [|x a IH]; [done|]. intros H. injection H as H. auto. Qed.

Lemma log_name_inj path i j : 0 <= i < two64 -> 0 <= j < two64 -> log_name path i = log_name path j -> i = j.
Proof.
  intros Hi Hj H%app_inj_l%app_inj_l. unfold decimal in H.
  assert (forall n, 0 <= n < two64 -> digits 10 0 (decimal_go 20 n "") = (n, "")) as Hd.
  { intros n Hn. rewrite decimal_go_digits by (unfold two64 in Hn; cbn; lia). done. }
  pose proof (Hd i Hi) as H1. rewrite H, (Hd j Hj) in H1. by injection H1.
Qed.

Lemma log_name_ne path i : log_name path i <> path.
Proof.
  intros H. apply (f_equal String.length) in H. unfold log_name in H.
  assert (forall a b, String.length (a +:+ b) = (String.length a + String.length b)%nat) as Hl.
  { intros a b. induction a as [|x a IH]; [done|]. cbn. by rewrite <-IH. }
  rewrite !Hl in H. cbn in H. lia.
Qed.

(** So many names in a row need so many files. *)
Lemma names_size path i n (d : gmap string Z) : 0 <= i -> i + Z.of_nat n <= two32 ->
  (forall k, (k < n)%nat -> is_Some (d !! log_name path (i + Z.of_nat k))) -> (n <= size d)%nat.
Proof.
  intros Hi Hn H. rewrite <-size_dom.
  assert (Hnd : NoDup ((fun k => log_name path (i + Z.of_nat k)) <$> seq 0 n)).
  { apply NoDup_fmap_2_strong; [|apply NoDup_seq]. intros x y Hx%elem_of_seq Hy%elem_of_seq He.
    apply log_name_inj in He; unfold two32, two64 in *; lia. }
  rewrite <-(length_seq n 0), <-(length_fmap (fun k => log_name path (i + Z.of_nat k)) (seq 0 n)).
  rewrite <-(size_list_to_set (C := gset string) _ Hnd). apply subseteq_size.
  intros x (k & -> & Hk%elem_of_seq)%elem_of_list_to_set%list_elem_of_fmap. apply elem_of_dom, H. lia.
Qed.

Lemma first_free_total path i w : 0 < i -> i + Z.of_nat (size (Os.dir w)) < two32 ->
  exists j, first_free (S (size (Os.dir w))) path i w = Some j /\ i <= j <= i + Z.of_nat (size (Os.dir w)) /\
    Os.dir w !! log_name path j = None /\ forall k, i <= k < j -> is_Some (Os.dir w !! log_name path k).
Proof.
  intros Hi Hsmall.
  assert (Hgen : forall fuel n, (size (Os.dir w) < fuel + n)%nat -> (n <= size (Os.dir w))%nat ->
    (forall k, (k < n)%nat -> is_Some (Os.dir w !! log_name path (i + Z.of_nat k))) ->
    exists j, first_free fuel path (i + Z.of_nat n) w = Some j /\ i + Z.of_nat n <= j <= i + Z.of_nat (size (Os.dir w)) /\
      Os.dir w !! log_name path j = None /\ forall k, i <= k < j -> is_Some (Os.dir w !! log_name path k)).
  { induction fuel as [|fuel IH]; intros n Hf Hle Hn; [lia|]. cbn [first_free].
    rewrite (proj2 (Z.eqb_neq _ 0)) by lia. destruct (Os.dir w !! log_name path (i + Z.of_nat n)) as [ino|] eqn:E.
    - assert (Hn' : forall k, (k < S n)%nat -> is_Some (Os.dir w !! log_name path (i + Z.of_nat k))).
      { intros k Hk. destruct (decide (k = n)) as [->|]; [by rewrite E|apply Hn; lia]. }
      pose proof (names_size path i (S n) (Os.dir w) ltac:(lia) ltac:(lia) Hn').
      rewrite u32_small by (unfold two32 in *; lia). replace (i + Z.of_nat n + 1) with (i + Z.of_nat (S n)) by lia.
      destruct (IH (S n)) as (j & -> & Hj & H1 & H2); [lia|lia|done|]. exists j. split_and!; try done; lia.
    - exists (i + Z.of_nat n). split_and!; try done; try lia. intros k Hk.
      replace k with (i + Z.of_nat (Z.to_nat (k - i))) by lia. apply Hn. lia. }
  destruct (Hgen (S (size (Os.dir w))) O) as (j & Hj & H); [lia|lia|lia|]. rewrite Z.add_0_r in Hj. exists j. split; [done|].
  rewrite Z.add_0_r in H. exact H.
Qed.


(** ** No fault makes the handler use a null stream *)

Definition writes (s : state) : Prop := write_logs (config s) <> 0.

(** After a rotation or another action that may leave the log closed. *)
Record handled (s s' : state) : Prop := Handled {
  handled_kept : kept s s';
  handled_ok : ok s';
  handled_suspended : logging_suspended s = true -> logging_suspended s' = true;
}.

Lemma fine_handled s s' : ok s -> fine s s' -> handled s s'.
Proof. intros Hok F. split; [apply F|by eapply fine_ok|apply F]. Qed.

Lemma handled_trans s1 s2 s3 : handled s1 s2 -> handled s2 s3 -> handled s1 s3.
Proof. intros [] []. split; [by etrans|done|auto]. Qed.

(** A failed allocation suspends logging. *)
Lemma suspended_handled s s1 : fine s s1 -> handled s (s1<|logging_suspended := true|>).
Proof.
  intros [K S L]. split; [|intros _; by destruct s1|intros _; by destruct s1]. etrans; [exact K|]. destruct s1; by split.
Qed.

Lemma rotate_ok num keep s : calm (config s) -> writes s -> is_Some (stream s) ->
  2 <= Lol.int_of (if num =? 0 then num_logs (config s) else num) \/ (num = 0 /\ keep = false) ->
  exists s', rotate num keep s = Some s' /\ handled s s'.
Proof.
  intros Hc Hw [ino Hs] Hnum. unfold rotate, rotate_fuel. cbn [rotate_logs].
  assert (Hok : ok s) by (unfold ok; congruence).
  destruct ((num_logs (config s) <? 2) && negb keep) eqn:Hdis; [exists s; split; [done|by apply fine_handled]|].
  assert (Hn : 2 <= Lol.int_of (if num =? 0 then num_logs (config s) else num)).
  { destruct Hnum as [|[-> ->]]; [done|]. rewrite andb_true_r in Hdis. apply Z.ltb_ge in Hdis. cbn [Z.eqb].
    destruct Hc. unfold Lol.int_of. rewrite u32_small by (unfold two32; lia). rewrite (proj2 (Z.ltb_lt _ _)) by lia. done. }
  set (s1 := (sys (sys s).2).2).
  assert (F1 : fine s s1) by (etrans; apply sys_fine').
  unfold close_log. rewrite (fine_stream _ _ F1), Hs. cbn [mbind option_bind].
  set (s2 := s1<|stream := None|>).
  assert (K2 : kept s s2) by (etrans; [apply F1|]; unfold s2; destruct s1; by split).
  assert (L2 : logging_suspended s = true -> logging_suspended s2 = true) by (intros H; apply F1 in H; unfold s2; by destruct s1).
  assert (Hsus : forall s3, fine s2 s3 -> handled s (s3<|logging_suspended := true|>)).
  { intros s3 [K3 _ _]. split; [|intros _; by destruct s3|intros _; by destruct s3]. etrans; [exact K2|]. etrans; [exact K3|]. destruct s3; by split. }
  destruct (sys s2) as [[|] s3] eqn:E3; apply sys_fine in E3; [|eexists; split; [done|by apply Hsus]].
  destruct (sys s3) as [[|] s4] eqn:E4; apply sys_fine in E4; assert (F4 : fine s2 s4) by (by etrans); [|eexists; split; [done|by apply Hsus]].
  assert (C4 : config s4 = config s) by (rewrite (kept_config _ _ (fine_kept _ _ F4)); apply K2).
  rewrite C4, (proj2 (Z.ltb_ge _ 2)) by done.
  set (full := do_disk_full_action _).
  assert (Hfull : forall s5, config s5 = config s -> exists s', full s5 = Some s' /\ fine s5 s').
  { intros s5 H5. apply full_fine; rewrite H5; apply Hc. }
  set (s5 := s4<|known_logs := 0|>). assert (F5 : fine s2 s5) by (etrans; [exact F4|]; unfold s5; destruct s4; by repeat split).
  assert (C5 : config s5 = config s) by (rewrite (kept_config _ _ (fine_kept _ _ F5)); apply K2).
  match goal with |- context [rename_loop ?n full ?i s5] => destruct (loop_fine n full i s5) as (s6 & -> & F6) end;
    [rewrite C5; apply Hc|intros; apply Hfull; congruence|]. cbn [mbind option_bind].
  assert (C6 : config s6 = config s) by (rewrite (kept_config _ _ (fine_kept _ _ F6)); done).
  destruct (current_fine full s6) as (s7 & -> & F7); [rewrite C6; apply Hc|intros; apply Hfull; congruence|]. cbn [mbind option_bind].
  assert (C7 : config s7 = config s) by (rewrite (kept_config _ _ (fine_kept _ _ F7)); done).
  assert (F27 : fine s2 s7) by (etrans; [exact F5|]; by etrans).
  destruct (reopen_ok s7) as (s8 & -> & K8 & Hok8 & L8); [rewrite C7; apply Hc|by rewrite C7|].
  exists s8. split; [done|]. split; [|done|].
  - etrans; [exact K2|]. etrans; [apply F27|done].
  - intros H. apply L8, F27, L2, H.
Qed.

(** There are fewer logs than numbers for them. *)
Definition room (s : state) : Prop := 0 < last_log s /\ last_log s + Z.of_nat (size (Os.dir (files s))) < 2 ^ 31 - 1.

Lemma int_of_small n : 0 <= n < 2 ^ 31 -> Lol.int_of n = n.
Proof. intros Hn. unfold Lol.int_of. rewrite u32_small by (unfold two32; lia). by rewrite (proj2 (Z.ltb_lt _ _)) by lia. Qed.

Lemma plain_call_files w : Os.dir (Os.plain_call w).2 = Os.dir w /\ Os.inodes (Os.plain_call w).2 = Os.inodes w.
Proof. unfold Os.plain_call, Os.pop. destruct (Os.script w) as [|[] ?]; done. Qed.

Lemma shift_ok s : calm (config s) -> writes s -> is_Some (stream s) -> room s -> exists s', shift_logs s = Some s' /\ handled s s'.
Proof.
  intros Hc Hw Hs [Hl Hr]. unfold shift_logs. assert (Hok : ok s) by (destruct Hs; unfold ok; congruence).
  destruct (sys s) as [r s1] eqn:E1. pose proof (sys_fine _ _ _ E1) as F1.
  assert (last_log s1 = last_log s /\ Os.dir (files s1) = Os.dir (files s)) as [Hl1 Hd1].
  { unfold sys in E1. pose proof (plain_call_files (files s)) as [H _]. destruct (Os.plain_call _). injection E1 as _ <-. by destruct s. }
  destruct r; [|exists s1; split; [done|by apply fine_handled]].
  unfold free_fuel. destruct (first_free_total (log_file (config s1)) (last_log s1) (files s1)) as (j & -> & Hj & _);
    [lia|rewrite Hd1; unfold two32; lia|]. cbn [mbind option_bind].
  set (s2 := s1<|known_logs := j|>). assert (F2 : fine s s2) by (etrans; [exact F1|]; unfold s2; destruct s1; by repeat split).
  assert (last_log s2 = last_log s /\ Os.dir (files s2) = Os.dir (files s)) as [Hl2 Hd2] by (unfold s2; by destruct s1).
  assert (Hnum : exists num, (if (j <=? last_log s2) && (1 <? last_log s2)
      then first_free (S (size (Os.dir (files s2)))) (log_file (config s1)) 1 (files s2) else Some j) = Some num /\ 1 <= num < 2 ^ 31 - 1).
  { destruct (_ && _); [|exists j; split; [done|]; rewrite Hd1 in Hj; lia].
    destruct (first_free_total (log_file (config s1)) 1 (files s2)) as (k & -> & Hk & _); [lia|rewrite Hd2; unfold two32; lia|].
    exists k. split; [done|]. rewrite Hd2 in Hk. lia. }
  destruct Hnum as (num & -> & Hnum). cbn [mbind option_bind].
  set (s3 := s2<|last_log := num|>). assert (F3 : fine s s3) by (etrans; [exact F2|]; unfold s3; destruct s2; by repeat split).
  assert (C3 : config s3 = config s) by apply F3.
  destruct (rotate_ok (num +u 1) true s3) as (s4 & -> & H4).
  - by rewrite C3.
  - unfold writes. by rewrite C3.
  - by rewrite (fine_stream _ _ F3).
  - left. rewrite u32_small by (unfold two32; lia). rewrite (proj2 (Z.eqb_neq _ 0)), int_of_small by lia. lia.
  - exists s4. split; [done|]. eapply handled_trans; [by apply fine_handled|done].
Qed.


Lemma size_ok s : calm (config s) -> writes s -> is_Some (stream s) -> room s -> exists s', check_log_file_size s = Some s' /\ handled s s'.
Proof.
  intros Hc Hw Hs Hr. assert (Hok : ok s) by (destruct Hs; unfold ok; congruence). unfold check_log_file_size.
  destruct (_ =? 0); [exists s; split; [done|by apply fine_handled]|]. destruct (_ && _); [|exists s; split; [done|by apply fine_handled]].
  destruct (max_log_size_action (config s)).
  1-2: exists s; split; [done|by apply fine_handled].
  - eexists. split; [done|]. by apply suspended_handled.
  - destruct (1 <? _); [|exists s; split; [done|by apply fine_handled]]. apply rotate_ok; auto.
  - by apply shift_ok.
Qed.

Lemma action_ok (admin : bool) s : calm (config s) -> writes s -> ok s ->
  (is_Some (stream s) \/ (if admin then admin_space_left_action (config s) else space_left_action (config s)) <> FA_ROTATE) ->
  exists s', do_space_left_action admin s = Some s' /\ handled s s' /\
    ((if admin then admin_space_left_action (config s) else space_left_action (config s)) <> FA_ROTATE -> stream s' = stream s).
Proof.
  intros Hc Hw Hok Hs. unfold do_space_left_action. destruct Hc.
  assert (Hne : (if admin then admin_space_left_action (config s) else space_left_action (config s)) <> FA_EXEC) by (by destruct admin).
  assert (Hf : forall s', fine s s' -> handled s s' /\ stream s' = stream s) by (intros s' F; split; [by apply fine_handled|apply F]).
  destruct (if admin then admin_space_left_action (config s) else space_left_action (config s)); try done.
  1-2: exists s; split; [done|]; split; [by apply fine_handled|done].
  - destruct Hs as [Hs|]; [|done]. destruct (1 <? _); [|exists s; split; [done|]; split; [by apply fine_handled|done]].
    destruct (rotate_ok 0 false s) as (s' & Hrot & H); [by split|done|done|by right|]. exists s'. done.
  - eexists. split; [done|]. destruct (Hf (s<|effects := effects s ++ [Mail admin (action_mail_acct (config s))]|>)); [|done]. fine_by.
  - eexists. split; [done|]. destruct (Hf _ (suspend_fine s)). done.
  - eexists. split; [done|]. destruct (Hf _ (runlevel_fine SINGLE s)). done.
  - eexists. split; [done|]. destruct (Hf _ (runlevel_fine HALT s)). done.
Qed.

Lemma limit_ok (admin : bool) limit a b warned set_warned s : calm (config s) -> writes s -> ok s ->
  (forall v s, fine s (set_warned v s)) ->
  (is_Some (stream s) \/ (if admin then admin_space_left_action (config s) else space_left_action (config s)) <> FA_ROTATE) ->
  exists s', check_limit admin limit a b warned set_warned s = Some s' /\ handled s s' /\
    ((if admin then admin_space_left_action (config s) else space_left_action (config s)) <> FA_ROTATE -> stream s' = stream s).
Proof.
  intros Hc Hw Hok Hset Hs. unfold check_limit. destruct (_ <? _).
  - destruct (warned s); [exists s; split; [done|]; split; [by apply fine_handled|done]|].
    destruct (action_ok admin s Hc Hw Hok Hs) as (s1 & -> & H1 & S1). cbn [mbind option_bind]. eexists. split; [done|].
    destruct (bool_decide _); [|done]. split; [|intros; rewrite (fine_stream _ _ (Hset true s1)); auto].
    eapply handled_trans; [done|]. apply fine_handled; [apply H1|apply Hset].
  - eexists. split; [done|]. destruct (_ && _); [|split; [by apply fine_handled|done]].
    split; [apply fine_handled; [done|apply Hset]|intros _; apply (fine_stream _ _ (Hset false s))].
Qed.

Context (blocks : forall n a b, avail n = Some (a, b) -> b <> 0).

Lemma space_ok s : calm (config s) -> writes s -> ok s -> exists s', check_space_left s = Some s' /\ handled s s'.
Proof.
  intros Hc Hw Hok. unfold check_space_left.
  assert (F0 : fine s (s<|probes := S (probes s)|>)) by fine_by.
  destruct (stream s) as [ino|] eqn:Hs; [|eexists; split; [done|by apply fine_handled]].
  destruct (avail (probes s)) as [[a b]|] eqn:Ha; [|eexists; split; [done|by apply fine_handled]].
  set (s0 := s<|probes := S (probes s)|>) in *. assert (C0 : config s0 = config s) by apply F0.
  destruct (a <? 5).
  - destruct (full_fine (rotate 0 false) (s0<|fs_space_left := false|>)) as (s1 & Hfull & F1);
      [unfold s0; destruct s; apply Hc..|]. exists s1. split; [exact Hfull|]. apply fine_handled; [done|].
    etrans; [|exact F1]. unfold s0. fine_by.
  - rewrite (proj2 (Z.eqb_neq b 0)) by (by eapply blocks).
    assert (Hset1 : forall v s, fine s (set_space_warning v s)) by (intros; fine_by).
    assert (Hset2 : forall v s, fine s (set_admin_space_warning v s)) by (intros; fine_by).
    destruct (limit_ok false (space_left (config s0)) a b fs_space_warning set_space_warning s0) as (s1 & -> & H1 & S1);
      [by rewrite C0|unfold writes; by rewrite C0|by eapply fine_ok|done|left; rewrite (fine_stream _ _ F0), Hs; by eexists|].
    cbn [mbind option_bind]. assert (C1 : config s1 = config s) by (rewrite (kept_config _ _ (handled_kept _ _ H1)); done).
    destruct (limit_ok true (admin_space_left (config s1)) a b fs_admin_space_warning set_admin_space_warning s1) as (s2 & -> & H2 & _);
      [by rewrite C1|unfold writes; by rewrite C1|apply H1|done| |].
    { rewrite C1. destruct (decide (space_left_action (config s) = FA_ROTATE)) as [Hr|Hr].
      - right. intros Ha'. by apply (calm_both _ Hc).
      - left. rewrite S1 by (by rewrite C0). rewrite (fine_stream _ _ F0), Hs. by eexists. }
    exists s2. split; [done|]. eapply handled_trans; [by apply fine_handled|]. by eapply handled_trans.
Qed.


(** ** Writing *)

Lemma fprintf_dir ino b w r w' : fprintf ino b w = (r, w') -> Os.dir w' = Os.dir w.
Proof.
  unfold fprintf, Os.pop. destruct (Os.script w) as [|[] ?]; cbn; intros H; by injection H as _ <-.
Qed.

Lemma flush_retry_total fuel err w : (length (Os.script w) < fuel)%nat -> exists x, flush_retry fuel err w = Some x.
Proof.
  revert err w. induction fuel as [|fuel IH]; intros err w Hf; [lia|]. cbn [flush_retry].
  unfold Os.plain_call, Os.pop. destruct (Os.script w) as [|o rest] eqn:E; [by eexists|]. cbn in Hf.
  destruct o; [by eexists| |by eexists]. destruct (_ =? EINTR); [|by eexists]. apply IH. cbn. lia.
Qed.

Lemma incremental_freq s : calm (config s) -> incremental s = true -> freq (config s) <> 0.
Proof. intros Hc [H%bool_decide_eq_true|H%bool_decide_eq_true]%orb_true_iff; apply (calm_freq _ Hc); auto. Qed.

Lemma flush_fine s : calm (config s) -> exists s', flush_now s = Some s' /\ fine s s'.
Proof.
  intros Hc. unfold flush_now. destruct (incremental s) eqn:Hi; [|by exists s].
  set (s1 := s<|count := count s +u 1|>). assert (F1 : fine s s1) by (unfold s1; fine_by).
  assert (C1 : config s1 = config s) by apply F1. rewrite C1, (proj2 (Z.eqb_neq _ 0)) by (by apply incremental_freq).
  destruct (_ mod _ =? 0); [|by exists s1]. unfold flush_log.
  destruct (flush_retry_total (open_fuel s1) 0 (files s1)) as ([err w] & ->); [unfold open_fuel; lia|]. cbn [mbind option_bind].
  set (s2 := s1<|files := w|>). assert (F2 : fine s s2) by (etrans; [exact F1|]; unfold s2; fine_by).
  assert (C2 : config s2 = config s) by apply F2.
  assert (exists s3, (if err =? 0 then Some s2 else if (err =? ENOSPC) && fs_space_left s2 then disk_full (s2<|fs_space_left := false|>)
    else do_disk_error_action s2) = Some s3 /\ fine s2 s3) as (s3 & -> & F3).
  { destruct (err =? 0); [by exists s2|]. destruct (_ && _).
    - destruct (full_fine (rotate 0 false) (s2<|fs_space_left := false|>)) as (s3 & H3 & F3); [destruct s2; cbn in *; rewrite C2; apply Hc..|].
      exists s3. split; [exact H3|]. etrans; [|exact F3]. fine_by.
    - apply error_fine. rewrite C2. apply Hc. }
  cbn [mbind option_bind]. assert (F3' : fine s s3) by (by etrans). assert (C3 : config s3 = config s) by apply F3'.
  destruct (background s3); [|by exists s3]. destruct (bool_decide _).
  - destruct (sys s3) as [r s4] eqn:E4. apply sys_fine in E4. assert (F4 : fine s s4) by (by etrans).
    destruct r; [by exists s4|]. destruct (error_fine s4) as (s5 & -> & F5).
    + rewrite (kept_config _ _ (fine_kept _ _ F4)). apply Hc.
    + exists s5. split; [done|]. by etrans.
  - eexists. split; [done|]. etrans; [exact F3'|]. fine_by.
Qed.

(** The type of the answer that an event gets from the state it meets. *)
Inductive answer (e : event) (s : state) : Z -> string -> Prop :=
  | answer_off : write_logs (config s) = 0 -> background s = true -> answer e s AUDIT_RMW_TYPE_ACK ""
  | answer_suspended : logging_suspended s = true -> answer e s AUDIT_RMW_TYPE_DISKERROR "remote logging suspended"
  | answer_full ino : logging_suspended s = false -> stream s = Some ino ->
      (fprintf ino (line_bytes (e_message e)) (files s)).1 = Error ENOSPC -> answer e s AUDIT_RMW_TYPE_DISKFULL "disk full"
  | answer_error ino err : logging_suspended s = false -> stream s = Some ino -> err <> ENOSPC ->
      (fprintf ino (line_bytes (e_message e)) (files s)).1 = Error err -> answer e s AUDIT_RMW_TYPE_DISKERROR "disk write error"
  | answer_written ino n (low : bool) : logging_suspended s = false -> stream s = Some ino ->
      (fprintf ino (line_bytes (e_message e)) (files s)).1 = Ok n ->
      answer e s (if low then AUDIT_RMW_TYPE_DISKLOW else AUDIT_RMW_TYPE_ACK) "".

Definition acked (e : event) (s s' : state) (t : Z) (m : string) : Prop :=
  acks s' = acks s ++ if from_network e then [Ack (sequence_id e) t m] else [].

Lemma send_ack_spec e t m s : acked e s (send_ack e t m s) t m /\ config (send_ack e t m s) = config s /\
  stream (send_ack e t m s) = stream s /\ logging_suspended (send_ack e t m s) = logging_suspended s /\
  fs_space_left (send_ack e t m s) = fs_space_left s.
Proof. unfold acked, send_ack. destruct (from_network e); destruct s; cbn; rewrite ?app_nil_r; done. Qed.

Lemma error_answered err e s : calm (config s) -> ok s ->
  let t := if err =? ENOSPC then AUDIT_RMW_TYPE_DISKFULL else AUDIT_RMW_TYPE_DISKERROR in
  let m := if err =? ENOSPC then "disk full" else "disk write error" in
  exists s', write_error err e s = Some s' /\ acked e s s' t m /\ config s' = config s /\ ok s'.
Proof.
  intros Hc Hok t m. unfold write_error. subst t m. destruct (err =? ENOSPC).
  - destruct (send_ack_spec e AUDIT_RMW_TYPE_DISKFULL "disk full" s) as (A & C & S & L & P).
    set (s1 := send_ack e _ _ s) in *. assert (Hok1 : ok s1) by (unfold ok; rewrite S, L; exact Hok).
    destruct (fs_space_left s1); [|by exists s1].
    destruct (full_fine (rotate 0 false) (s1<|fs_space_left := false|>)) as (s2 & H2 & F2).
    1-2: replace (config (s1<|fs_space_left := false|>)) with (config s) by (rewrite <-C; by destruct s1); apply Hc.
    assert (F : fine s1 s2) by (etrans; [|exact F2]; fine_by).
    exists s2. split_and!; [exact H2|unfold acked; by rewrite (kept_acks _ _ (fine_kept _ _ F))|by rewrite (kept_config _ _ (fine_kept _ _ F))|by eapply fine_ok].
  - destruct (send_ack_spec e AUDIT_RMW_TYPE_DISKERROR "disk write error" s) as (A & C & S & L & P).
    set (s1 := send_ack e _ _ s) in *. assert (Hok1 : ok s1) by (unfold ok; rewrite S, L; exact Hok).
    destruct (error_fine s1) as (s2 & H2 & F); [rewrite C; apply Hc|].
    exists s2. split_and!; [exact H2|unfold acked; by rewrite (kept_acks _ _ (fine_kept _ _ F))|by rewrite (kept_config _ _ (fine_kept _ _ F))|by eapply fine_ok].
Qed.


Lemma checks_ok s : calm (config s) -> (background s = true -> writes s) -> is_Some (stream s) -> room s -> forall rc,
  exists s', (if background s then
     s ← check_log_file_size (s<|log_size := log_size s + rc|>);
     if log_size s mod 3 <? 2 then check_space_left s else Some s
   else Some s) = Some s' /\ handled s s'.
Proof.
  intros Hc Hw Hs Hr rc. assert (Hok : ok s) by (destruct Hs; unfold ok; congruence).
  destruct (background s); [|exists s; split; [done|by apply fine_handled]]. specialize (Hw eq_refl).
  set (s1 := s<|log_size := log_size s + rc|>). assert (F1 : fine s s1) by (unfold s1; fine_by). assert (C1 : config s1 = config s) by apply F1.
  destruct (size_ok s1) as (s2 & -> & H2);
    [by rewrite C1|unfold writes; by rewrite C1|by rewrite (fine_stream _ _ F1)|unfold s1; by destruct s|]. cbn [mbind option_bind].
  assert (H2' : handled s s2) by (eapply handled_trans; [by apply fine_handled|done]).
  assert (C2 : config s2 = config s) by apply H2'.
  destruct (_ <? 2); [|by exists s2].
  destruct (space_ok s2) as (s3 & -> & H3); [by rewrite C2|unfold writes; by rewrite C2|apply H2'|].
  exists s3. split; [done|]. by eapply handled_trans.
Qed.

Lemma write_answered e s : calm (config s) -> ok s -> logging_suspended s = false -> (background s = true -> writes s) -> room s ->
  exists s' t m, write_to_log e s = Some s' /\ answer e s t m /\ acked e s s' t m /\ config s' = config s /\ ok s'.
Proof.
  intros Hc Hok Hl Hw Hr. destruct (stream s) as [ino|] eqn:Hs; [|rewrite (Hok Hs) in Hl; done].
  unfold write_to_log. rewrite Hs. cbn [mbind option_bind].
  destruct (fprintf ino (line_bytes (e_message e)) (files s)) as [r w] eqn:Hp.
  set (s1 := s<|files := w|>). assert (F1 : fine s s1) by (unfold s1; fine_by). assert (C1 : config s1 = config s) by apply F1.
  assert (A1 : acks s1 = acks s) by apply F1.
  destruct r as [n|err].
  - assert (R1 : room s1) by (pose proof (fprintf_dir _ _ _ _ _ Hp) as Hd; revert Hr; unfold room, s1; destruct s; cbn in *; by rewrite <-Hd).
    assert (B1 : background s1 = background s) by (unfold background; by rewrite C1).
    destruct (checks_ok s1) with (rc := n) as (s2 & -> & H2);
      [by rewrite C1|unfold writes; by rewrite B1, C1|rewrite (fine_stream _ _ F1), Hs; by eexists|done|]. cbn [mbind option_bind].
    set (low := fs_space_warning s2). destruct (send_ack_spec e (if low then AUDIT_RMW_TYPE_DISKLOW else AUDIT_RMW_TYPE_ACK) "" s2) as (A & C & S & L & _).
    set (s3 := send_ack e _ _ s2) in *. eexists _, _, "". split; [done|].
    split; [apply (answer_written e s ino n low); [done|done|by rewrite Hp]|].
    assert (A2 : acks s2 = acks s) by (rewrite (kept_acks _ _ (handled_kept _ _ H2)); done).
    assert (C2 : config s2 = config s) by (rewrite (kept_config _ _ (handled_kept _ _ H2)); done).
    split_and!.
    + unfold acked in *. rewrite A2 in A. rewrite <-A. by destruct s3.
    + rewrite <-C2, <-C. by destruct s3.
    + intros Hn. assert (Hn3 : stream s3 = None) by (rewrite <-Hn; by destruct s3).
      assert (logging_suspended s3 = true) by (rewrite L; apply (handled_ok _ _ H2); congruence). by destruct s3.
  - destruct (error_answered err e s1) as (s2 & -> & A & C & Hok2); [by rewrite C1|by eapply fine_ok|].
    exists s2, (if err =? ENOSPC then AUDIT_RMW_TYPE_DISKFULL else AUDIT_RMW_TYPE_DISKERROR), (if err =? ENOSPC then "disk full" else "disk write error").
    split_and!; [done| |unfold acked in *; by rewrite A1 in A|congruence|done].
    destruct (Z.eqb_spec err ENOSPC) as [->|]; [eapply answer_full|eapply answer_error]; try done; by rewrite Hp.
Qed.

Lemma log_event_answered e s : calm (config s) -> ok s -> room s ->
  exists s' t m, log_event e s = Some s' /\ answer e s t m /\ acked e s s' t m /\ config s' = config s /\ ok s'.
Proof.
  intros Hc Hok Hr. unfold log_event. destruct (logging_suspended s) eqn:Hl; cbn [negb andb].
  - destruct (negb _ && background s) eqn:E.
    + apply andb_prop in E as [E1%negb_true_iff%negb_false_iff%Z.eqb_eq E2].
      destruct (send_ack_spec e AUDIT_RMW_TYPE_ACK "" s) as (A & C & S & L & _).
      eexists _, _, _. split; [done|]. split; [by apply answer_off|]. split_and!; [done|done|]. intros _. by rewrite L.
    + destruct (send_ack_spec e AUDIT_RMW_TYPE_DISKERROR "remote logging suspended" s) as (A & C & S & L & _).
      eexists _, _, _. split; [done|]. split; [by apply answer_suspended|]. split_and!; [done|done|]. intros _. by rewrite L.
  - destruct (Z.eqb_spec (write_logs (config s)) 0) as [H0|H0]; cbn [negb orb andb].
    + destruct (background s) eqn:Hb; cbn [negb].
      * destruct (send_ack_spec e AUDIT_RMW_TYPE_ACK "" s) as (A & C & S & L & _).
        eexists _, _, _. split; [done|]. split; [by apply answer_off|]. split_and!; [done|done|]. unfold ok. by rewrite S, L.
      * destruct (write_answered e s) as (s1 & t & m & -> & Ha & A & C & Hok1); [done..|by rewrite Hb|done|]. cbn [mbind option_bind].
        destruct (flush_fine s1) as (s2 & -> & F2); [by rewrite C|]. exists s2, t, m.
        split_and!; [done|done|unfold acked in *; by rewrite (kept_acks _ _ (fine_kept _ _ F2))|by rewrite (kept_config _ _ (fine_kept _ _ F2))|by eapply fine_ok].
    + destruct (write_answered e s) as (s1 & t & m & -> & Ha & A & C & Hok1); [done..|]. cbn [mbind option_bind].
      destruct (flush_fine s1) as (s2 & -> & F2); [by rewrite C|]. exists s2, t, m.
      split_and!; [done|done|unfold acked in *; by rewrite (kept_acks _ _ (fine_kept _ _ F2))|by rewrite (kept_config _ _ (fine_kept _ _ F2))|by eapply fine_ok].
Qed.

(** What [handle_event] gives to the log as it is: all but requests to rotate, and to
    reconfigure if they come from this machine. *)
Definition plain_event (e : event) : Prop :=
  e_type e <> AUDIT_DAEMON_ROTATE /\ (from_network e = true \/ e_type e <> AUDIT_DAEMON_RECONFIG).

(** C14: Whatever faults the system calls have and however little space is left, no event
    that is not a request to rotate or to reconfigure makes the daemon use a null stream,
    and if it came from the network it is answered exactly once: positively only if its
    line was written or logging is switched off, and otherwise with the reason.  This is
    for a configuration whose actions do not close the log ([calm]: no program is started,
    a full disk does not rotate, the two limits of the space do not both rotate), a log
    that is open or suspended, and numbers for the logs below 2^31. *)
Theorem event_answered enrich date e s : plain_event e -> calm (config s) -> ok s -> room s ->
  exists s' t m, handle_event enrich date e s = Some s' /\ answer e s t m /\ acked e s s' t m /\ config s' = config s /\ ok s'.
Proof.
  intros [Hrot Hrec] Hc Hok Hr. unfold handle_event.
  replace ((e_type e =? AUDIT_DAEMON_RECONFIG) && negb (from_network e)) with false.
  - rewrite (proj2 (Z.eqb_neq _ _) Hrot). by apply log_event_answered.
  - symmetry. destruct Hrec as [-> |Hne]; [apply andb_false_r|]. by rewrite (proj2 (Z.eqb_neq _ _) Hne).
Qed.


End facts.

End AuditdEventFacts.
