(* ===== verification/AuditdLogs.v ===== *)
(** * The logs of the daemon as one stream

    While the system calls do not fail, the numbered log files hold a list of
    texts, the newest first.  Rotation is an operation on that list, and with
    keep_logs nothing of it is lost. *)
From S2P Require Import Prelude CString StrSplit Config ConfigFacts AuditdConf Os Lol Ellist Lookup AuditdEvent AuditdEventFacts.
From coqutil Require Import Datatypes.RecordSetters.
Import RecordSetters.TriangleBracketNotations.

Local Open Scope audit_scope.
Local Open Scope string_scope.
Local Open Scope list_scope.
Local Open Scope Z_scope.

Module AuditdLogs.
Import Config ConfigFacts AuditdConf Lookup AuditdEvent AuditdEventFacts.

Section logs.
Context {part : Partition} {host : Host} {tabs : Tables}.

(** ** The files *)

(** The current log is number 0. *)
Definition numbered (path : string) (k : nat) : string := match k with O => path | _ => log_name path (Z.of_nat k) end.

Definition log_at (w : Os.os) (path : string) (k : nat) : option bytes :=
  ino ← Os.dir w !! numbered path k; Some (Os.contents ino w).

(** No two names for a file, and all files exist. *)
Record fs_ok (w : Os.os) : Prop := FsOk {
  fs_inj : forall p q ino, Os.dir w !! p = Some ino -> Os.dir w !! q = Some ino -> p = q;
  fs_dom : forall p ino, Os.dir w !! p = Some ino -> is_Some (Os.inodes w !! ino);
}.

(** So many logs can be numbered. *)
Definition few : Z := 2 ^ 31 - 2.

(** The logs hold the texts [l], and the current one is open. *)
Record holds (s : state) (l : list bytes) : Prop := Holds {
  holds_logs : forall k, Z.of_nat k <= few + 1 -> log_at (files s) (log_file (config s)) k = l !! k;
  holds_fs : fs_ok (files s);
  holds_good : Os.script (files s) = [];
  holds_open : exists ino, stream s = Some ino /\ Os.dir (files s) !! log_file (config s) = Some ino;
  holds_few : Z.of_nat (length l) < few;
  holds_last : 0 < last_log s < 2 ^ 31;
}.

Lemma numbered_inj path i j : Z.of_nat i <= few + 1 -> Z.of_nat j <= few + 1 -> numbered path i = numbered path j -> i = j.
Proof.
  unfold few. intros Hi Hj. destruct i as [|i], j as [|j]; cbn [numbered]; [done|..].
  - intros H. symmetry in H. by apply log_name_ne in H.
  - intros H. by apply log_name_ne in H.
  - intros H%log_name_inj; unfold two64; lia.
Qed.

(** ** Calls that do not fail *)

Lemma sys_good s : Os.script (files s) = [] -> sys s = (Ok tt, s).
Proof. intros H. unfold sys, Os.plain_call, Os.pop. rewrite H. by destruct s as [? ? ? ? ? ? ? ? ? ? ? ? ? [] ? ? ?]. Qed.

Lemma rename_good old new w : Os.script w = [] ->
  Os.rename old new w = match Os.dir w !! old with
    | Some ino => (Ok tt, Os.OS (Os.inodes w) (<[new := ino]> (delete old (Os.dir w))) [])
    | None => (Error ENOENT, w) end.
Proof. intros H. unfold Os.rename, Os.pop. rewrite H. destruct (Os.dir w !! old); [|done]. by rewrite H. Qed.

(** The directory after the loop of renames. *)
Fixpoint shift_dir (n : nat) (path : string) (i : Z) (d : gmap string Z) : gmap string Z :=
  match n with
  | O => d
  | S n => shift_dir n path (i - 1)
      match d !! log_name path (i - 1) with
      | Some ino => <[log_name path i := ino]> (delete (log_name path (i - 1)) d)
      | None => d
      end
  end.

Lemma rename_loop_good n full i s : Os.script (files s) = [] ->
  exists known, rename_loop n full i s =
    Some (s<|files := Os.OS (Os.inodes (files s)) (shift_dir n (log_file (config s)) i (Os.dir (files s))) []|><|known_logs := known|>).
Proof.
  revert i s. induction n as [|n IH]; intros i s Hs; cbn [rename_loop shift_dir].
  { exists (known_logs s). destruct s as [? ? ? ? ? ? ? ? ? ? ? ? ? [] ? ? ?]. cbn in *. by subst. }
  rewrite rename_good by done. destruct (Os.dir (files s) !! _) as [ino|] eqn:E.
  - match goal with |- context [Some (if ?b then ?x else ?y)] => set (s1 := if b then x else y) end.
    assert (Hs1 : config s1 = config s /\ files s1 = Os.OS (Os.inodes (files s))
      (<[log_name (log_file (config s)) i := ino]> (delete (log_name (log_file (config s)) (i - 1)) (Os.dir (files s)))) [])
      by (unfold s1; destruct (_ =? 0); by destruct s).
    destruct Hs1 as [C1 F1]. cbn [mbind option_bind]. destruct (IH (i - 1) s1) as (known & ->); [by rewrite F1|].
    exists known. rewrite C1, F1. cbn [Os.inodes Os.dir]. unfold s1. destruct (_ =? 0); by destruct s.
  - cbn [mbind option_bind Z.eqb ENOENT Pos.eqb]. replace (s<|files := files s|>) with s by (by destruct s). by apply IH.
Qed.

(** What the loop does to a name: [i] is the highest number, [n] the number of
    turns. *)
Lemma shift_dir_spec n path d : Z.of_nat (S n) <= few ->
  let i := Z.of_nat (S n) in
  (forall x, (forall k, 1 <= k <= i -> x <> log_name path k) -> shift_dir n path i d !! x = d !! x) /\
  (n <> O -> shift_dir n path i d !! log_name path 1 = None) /\
  (forall k, 2 <= k < i -> shift_dir n path i d !! log_name path k = d !! log_name path (k - 1)) /\
  (n <> O -> shift_dir n path i d !! log_name path i = match d !! log_name path (i - 1) with Some ino => Some ino | None => d !! log_name path i end).
Proof.
  assert (Hf : few = 2 ^ 31 - 2) by done. revert d. induction n as [|n IH]; intros d Hn i.
  { split_and!; [done|done|intros k Hk; lia|done]. }
  cbn [shift_dir]. replace (i - 1) with (Z.of_nat (S n)) by lia.
  assert (Hinj : forall a b, 0 <= a <= i -> 0 <= b <= i -> log_name path a = log_name path b -> a = b).
  { intros a b Ha Hb H%log_name_inj; unfold two64; lia. }
  set (d1 := match d !! log_name path (Z.of_nat (S n)) with Some ino => _ | None => _ end).
  assert (D1 : forall x, x <> log_name path i -> x <> log_name path (Z.of_nat (S n)) -> d1 !! x = d !! x).
  { intros x H1 H2. unfold d1. destruct (d !! _); [|done]. by rewrite lookup_insert_ne, lookup_delete_ne by congruence. }
  assert (D2 : d1 !! log_name path (Z.of_nat (S n)) = None).
  { unfold d1. destruct (d !! log_name path (Z.of_nat (S n))) eqn:E; [|done].
    rewrite lookup_insert_ne, lookup_delete_eq; [done|]. intros H%Hinj; lia. }
  assert (D3 : d1 !! log_name path i = match d !! log_name path (Z.of_nat (S n)) with Some ino => Some ino | None => d !! log_name path i end).
  { unfold d1. destruct (d !! log_name path (Z.of_nat (S n))) eqn:E; [by rewrite lookup_insert_eq|done]. }
  destruct (IH d1 ltac:(lia)) as (I1 & I2 & I3 & I4). split_and!.
  - intros x Hx. rewrite I1 by (intros k Hk; apply Hx; lia). apply D1; apply Hx; lia.
  - intros _. destruct n as [|n']; [exact D2|]. by apply I2.
  - intros k Hk. destruct (decide (k = Z.of_nat (S n))) as [->|Hne].
    + destruct n as [|n']; [lia|]. rewrite I4 by done. rewrite D2, D1; [by destruct (d !! log_name path (Z.of_nat (S (S n')) - 1))|intros H%Hinj; lia..].
    + rewrite I3 by lia. apply D1; intros H%Hinj; lia.
  - intros _. rewrite I1; [exact D3|]. intros k Hk H%Hinj; lia.
Qed.

(** ** Rotation *)

(** What [fs_ok] says of a directory. *)
Definition dir_ok (i : gmap Z bytes) (d : gmap string Z) : Prop :=
  (forall p q ino, d !! p = Some ino -> d !! q = Some ino -> p = q) /\ (forall p ino, d !! p = Some ino -> is_Some (i !! ino)).

Lemma rename_dir_ok i d old new ino : dir_ok i d -> d !! old = Some ino -> dir_ok i (<[new := ino]> (delete old d)).
Proof.
  intros [Hi Hd] Ho. split.
  - intros p q x. rewrite !lookup_insert_Some, !lookup_delete_Some.
    intros [[<- <-]|(Hp & Hp' & Hpx)] [[<- Hx]|(Hq & Hq' & Hqx)]; [done|..|by eapply Hi].
    + destruct Hq'. by eapply Hi.
    + subst. destruct Hp'. by eapply Hi.
  - intros p x. rewrite lookup_insert_Some, lookup_delete_Some. intros [[<- <-]|(_ & _ & Hx)]; by eapply Hd.
Qed.

Lemma shift_dir_ok n path i j d : dir_ok j d -> dir_ok j (shift_dir n path i d).
Proof.
  revert i d. induction n as [|n IH]; intros i d Hd; [done|]. cbn [shift_dir]. apply IH.
  destruct (d !! _) eqn:E; [by apply rename_dir_ok|done].
Qed.

Lemma create_dir_ok i d path new : dir_ok i d -> i !! new = None -> dir_ok (<[new := []]> i) (<[path := new]> d).
Proof.
  intros [Hi Hd] Hn. assert (Hx : forall p, d !! p <> Some new) by (intros p Hp; apply Hd in Hp as [? Hp]; congruence). split.
  - intros p q x. rewrite !lookup_insert_Some. intros [[<- <-]|[Hp Hpx]] [[<- Hy]|[Hq Hqx]]; [done|by apply Hx in Hqx|subst; by apply Hx in Hpx|by eapply Hi].
  - intros p x. rewrite lookup_insert_Some. intros [[<- <-]|[_ H]]; [rewrite lookup_insert_eq; by eexists|].
    rewrite lookup_insert_ne by (intros ->; by eapply Hx). by eapply Hd.
Qed.

(** The files after a rotation over [n] names. *)
Definition rotated (n : nat) (path : string) (ino : Z) (w : Os.os) : Os.os :=
  let new := fresh (dom (Os.inodes w) : gset Z) in
  Os.OS (<[new := []]> (Os.inodes w))
    (<[path := new]> (<[log_name path 1 := ino]> (delete path (shift_dir (n - 2) path (Z.of_nat n - 1) (Os.dir w))))) [].

(** The texts after a rotation over [n] names: the text of the last name is lost. *)
Definition rotate_texts (n : nat) (l : list bytes) : list bytes := [] :: take (n - 1) l ++ drop n l.

Lemma rotate_texts_length n l : (length (rotate_texts n l) <= S (length l))%nat.
Proof. unfold rotate_texts. cbn. rewrite length_app, length_take, length_drop. lia. Qed.

Lemma rotate_texts_lookup n l k : (2 <= n)%nat -> rotate_texts n l !! k =
  match k with
  | O => Some []
  | S j => if decide (j < n - 2)%nat then l !! j
           else if decide (j = n - 2)%nat then match l !! j with Some b => Some b | None => l !! k end else l !! k
  end.
Proof.
  intros Hn. destruct k as [|j]; [done|]. change (rotate_texts n l !! S j) with ((take (n - 1) l ++ drop n l) !! j).
  destruct (decide (j < n - 1)%nat) as [Hj|Hj].
  - destruct (decide (j < length l)%nat) as [Hl|Hl].
    + rewrite lookup_app_l by (rewrite length_take; lia). rewrite lookup_take_lt by lia.
      destruct (decide _); [done|]. destruct (decide _); [|lia]. by destruct (lookup_lt_is_Some_2 l j) as [b ->].
    + rewrite lookup_ge_None_2 by (rewrite length_app, length_take, length_drop; lia).
      rewrite !(lookup_ge_None_2 l) by lia. by repeat destruct (decide _).
  - destruct (decide _); [lia|]. destruct (decide _); [lia|].
    destruct (decide (n - 1 <= length l)%nat) as [Hl|Hl].
    + rewrite lookup_app_r by (rewrite length_take; lia). rewrite length_take, lookup_drop. f_equal. lia.
    + rewrite !lookup_ge_None_2; [done|lia|rewrite length_app, length_take, length_drop; lia].
Qed.

Lemma rotated_ok n path ino w : fs_ok w -> Os.dir w !! path = Some ino -> (2 <= n)%nat -> Z.of_nat n <= few -> fs_ok (rotated n path ino w).
Proof.
  intros [Hi Hd] Hp Hn Hf. set (d1 := shift_dir (n - 2) path (Z.of_nat n - 1) (Os.dir w)).
  assert (dir_ok (Os.inodes (rotated n path ino w)) (Os.dir (rotated n path ino w))) as [H1 H2]; [|by split].
  unfold rotated. cbn [Os.inodes Os.dir]. apply create_dir_ok; [|apply not_elem_of_dom, is_fresh].
  apply rename_dir_ok; [apply shift_dir_ok; by split|].
  destruct (shift_dir_spec (n - 2) path (Os.dir w)) as (S1 & _); [lia|].
  replace (Z.of_nat n - 1) with (Z.of_nat (S (n - 2))) by lia. rewrite S1; [done|]. intros k _ E. by eapply log_name_ne.
Qed.

Lemma rotated_logs n path ino w l : fs_ok w -> Os.dir w !! path = Some ino -> (2 <= n)%nat -> Z.of_nat n <= few ->
  (forall k, Z.of_nat k <= few + 1 -> log_at w path k = l !! k) ->
  forall k, Z.of_nat k <= few + 1 -> log_at (rotated n path ino w) path k = rotate_texts n l !! k.
Proof.
  intros [Hi Hd] Hp Hn Hf Hl k Hk. assert (Hfew : few = 2 ^ 31 - 2) by done. set (new := fresh (dom (Os.inodes w) : gset Z)).
  assert (Hnew : Os.inodes w !! new = None) by apply not_elem_of_dom, is_fresh.
  assert (Hinj : forall a b, 0 <= a <= few + 1 -> 0 <= b <= few + 1 -> log_name path a = log_name path b -> a = b).
  { intros a b Ha Hb H%log_name_inj; unfold two64; lia. }
  assert (Hat : forall p, (x ← Os.dir w !! p; Some (Os.contents x (rotated n path ino w))) = (x ← Os.dir w !! p; Some (Os.contents x w))).
  { intros p. destruct (Os.dir w !! p) as [x|] eqn:E; [|done]. cbn. f_equal. unfold Os.contents, rotated. cbn.
    rewrite lookup_insert_ne; [done|]. fold new. intros <-. apply Hd in E as [? E]. congruence. }
  assert (HD : Os.dir (rotated n path ino w) =
    <[path := new]> (<[log_name path 1 := ino]> (delete path (shift_dir (n - 2) path (Z.of_nat n - 1) (Os.dir w))))) by done.
  rewrite rotate_texts_lookup by done. unfold log_at in *. rewrite HD. destruct k as [|j]; cbn [numbered].
  { rewrite lookup_insert_eq. cbn. unfold Os.contents, rotated. cbn. by rewrite lookup_insert_eq. }
  rewrite lookup_insert_ne by (intros E; symmetry in E; by eapply log_name_ne).
  destruct (shift_dir_spec (n - 2) path (Os.dir w)) as (S1 & _ & S3 & S4); [lia|].
  replace (Z.of_nat n - 1) with (Z.of_nat (S (n - 2))) by lia. destruct j as [|j'].
  { rewrite lookup_insert_eq. cbn [mbind option_bind].
    pose proof (Hl O ltac:(lia)) as H0. cbn [numbered] in H0. pose proof (Hat path) as Hq. rewrite Hp in Hq, H0. cbn [mbind option_bind] in Hq, H0.
    rewrite Hq, H0. destruct (decide _); [done|]. destruct (decide _); [|lia]. by rewrite <-H0. }
  rewrite lookup_insert_ne by (intros E%Hinj; lia). rewrite lookup_delete_ne by (intros E; symmetry in E; by eapply log_name_ne).
  destruct (decide _) as [H1|H1].
  { rewrite S3 by lia. rewrite <-(Hl (S j')) by lia. rewrite Hat. cbn [numbered]. do 3 f_equal. lia. }
  destruct (decide _) as [H2|H2].
  - replace (Z.of_nat (S (S j'))) with (Z.of_nat (S (n - 2))) by lia. rewrite S4 by lia.
    pose proof (Hl (S j') ltac:(lia)) as Ha. pose proof (Hl (S (S j')) ltac:(lia)) as Hb. cbn [numbered] in Ha, Hb.
    replace (Z.of_nat (S (n - 2)) - 1) with (Z.of_nat (S j')) by lia. replace (Z.of_nat (S (n - 2))) with (Z.of_nat (S (S j'))) by lia.
    rewrite <-Ha. pose proof (Hat (log_name path (Z.of_nat (S j')))) as Hq.
    destruct (Os.dir w !! log_name path (Z.of_nat (S j'))) as [x|]; cbn [mbind option_bind] in *; [done|]. rewrite <-Hb. apply Hat.
  - rewrite S1; [rewrite Hat, <-Hl by lia; done|]. intros m Hm E%Hinj; lia.
Qed.


Lemma open_fresh s : Os.script (files s) = [] -> writes s -> Os.dir (files s) !! log_file (config s) = None ->
  let new := fresh (dom (Os.inodes (files s)) : gset Z) in
  open_audit_log s = Some (0, s<|files := Os.OS (<[new := []]> (Os.inodes (files s))) (<[log_file (config s) := new]> (Os.dir (files s))) []|>
    <|log_size := 0|><|log_fd := new|><|stream := Some new|>).
Proof.
  intros Hs Hw Hd new. unfold open_audit_log. rewrite (proj2 (Z.eqb_neq _ _) Hw).
  assert (Ho : Os.open (log_file (config s)) false false (files s) = (Error ENOENT, files s)) by (unfold Os.open, Os.pop; by rewrite Hs, Hd).
  unfold open_fuel. cbn [open_retry]. rewrite Ho. cbn [Z.eqb ENOENT ENFILE Pos.eqb mbind option_bind].
  set (w := Os.OS (<[new := []]> (Os.inodes (files s))) (<[log_file (config s) := new]> (Os.dir (files s))) []).
  assert (H1 : Os.open (log_file (config s)) true true (files s) = (Ok new, w)) by (unfold Os.open, Os.pop, w; by rewrite Hs, Hd, Hs).
  assert (H2 : Os.open (log_file (config s)) false false w = (Ok new, w)) by (unfold Os.open, Os.pop, w; cbn; by rewrite lookup_insert_eq).
  rewrite H1, H2.
  unfold setup_log. rewrite !sys_good; by destruct s.
Qed.

Lemma rotate_good num keep s l n : holds s l -> writes s -> (num_logs (config s) <? 2) && negb keep = false ->
  (if num =? 0 then num_logs (config s) else num) = Z.of_nat n -> (2 <= n)%nat -> Z.of_nat n <= few ->
  exists known ino, let w := rotated n (log_file (config s)) ino (files s) in let new := fresh (dom (Os.inodes (files s)) : gset Z) in
    Os.dir (files s) !! log_file (config s) = Some ino /\
    rotate num keep s = Some (s<|known_logs := known|><|files := w|><|log_size := 0|><|log_fd := new|><|stream := Some new|>).
Proof.
  intros [Hl Hfs Hs (ino & Ho & Hd) Hf _] Hw Hk Hnum Hn Hnf. assert (Hfew : few = 2 ^ 31 - 2) by done.
  unfold rotate, rotate_fuel. set (m := 1%nat). cbn [rotate_logs].
  rewrite Hk, (sys_good s) by done. cbn [snd]. rewrite (sys_good s) by done. cbn [snd].
  unfold close_log. rewrite Ho. cbn [mbind option_bind].
  set (s1 := s<|stream := None|>). assert (E1 : files s1 = files s /\ config s1 = config s) by (unfold s1; by destruct s). destruct E1 as [F1 C1].
  rewrite (sys_good s1), (sys_good s1), C1 by (by rewrite F1). rewrite Hnum, int_of_small by lia.
  rewrite (proj2 (Z.ltb_ge (Z.of_nat n) 2)) by lia.
  set (s2 := s1<|known_logs := 0|>). assert (E2 : files s2 = files s /\ config s2 = config s) by (unfold s2; destruct s1; cbn in *; by subst). destruct E2 as [F2 C2].
  destruct (rename_loop_good (Z.to_nat (Z.of_nat n - 2)) (do_disk_full_action (rotate_logs m 0 false)) (Z.of_nat n - 1) s2) as (known & ->); [by rewrite F2|].
  cbn [mbind option_bind]. rewrite F2, C2. replace (Z.to_nat (Z.of_nat n - 2)) with (n - 2)%nat by lia.
  match goal with |- context [rename_current _ ?x] => set (s3 := x) end.
  set (d1 := shift_dir _ _ _ _) in *.
  assert (E3 : files s3 = Os.OS (Os.inodes (files s)) d1 [] /\ config s3 = config s) by (unfold s3; destruct s2; cbn in *; by subst). destruct E3 as [F3 C3].
  assert (D1 : d1 !! log_file (config s) = Some ino).
  { unfold d1. replace (Z.of_nat n - 1) with (Z.of_nat (S (n - 2))) by lia.
    destruct (shift_dir_spec (n - 2) (log_file (config s)) (Os.dir (files s))) as (S1 & _); [lia|]. rewrite S1; [done|].
    intros k _ E. by eapply log_name_ne. }
  unfold rename_current. rewrite rename_good, F3, C3 by (by rewrite F3). cbn [Os.dir Os.inodes]. rewrite D1. cbn [mbind option_bind].
  match goal with |- context [reopen ?x] => set (s4 := x) end.
  assert (E4 : files s4 = Os.OS (Os.inodes (files s)) (<[log_name (log_file (config s)) 1 := ino]> (delete (log_file (config s)) d1)) [] /\ config s4 = config s)
    by (unfold s4; destruct s3; cbn in *; by subst). destruct E4 as [F4 C4].
  unfold reopen. rewrite (open_fresh s4); [|by rewrite F4|unfold writes; by rewrite C4|].
  2:{ rewrite F4, C4. cbn [Os.dir]. rewrite lookup_insert_ne, lookup_delete_eq; [done|]. apply log_name_ne. }
  cbn [mbind option_bind Z.eqb]. exists known, ino. split; [done|]. unfold rotated. rewrite F4, C4. cbn [Os.inodes Os.dir]. fold d1.
  unfold s4, s3, s2, s1. by destruct s.
Qed.

(** The texts of a rotated state. *)
Lemma rotate_holds s l n known ino : holds s l -> Os.dir (files s) !! log_file (config s) = Some ino -> (2 <= n)%nat -> Z.of_nat n <= few ->
  Z.of_nat (S (length l)) < few -> let new := fresh (dom (Os.inodes (files s)) : gset Z) in
  holds (s<|known_logs := known|><|files := rotated n (log_file (config s)) ino (files s)|><|log_size := 0|><|log_fd := new|><|stream := Some new|>)
    (rotate_texts n l).
Proof.
  intros [Hl Hfs Hs _ Hf Hla] Hd Hn Hnf Hlen new.
  match goal with |- holds ?x _ => set (s' := x) end.
  assert (E : files s' = rotated n (log_file (config s)) ino (files s) /\ config s' = config s /\ last_log s' = last_log s /\ stream s' = Some new)
    by (unfold s'; by destruct s). destruct E as (F & C & L & S). split; rewrite ?F, ?C, ?L, ?S.
  - by apply rotated_logs.
  - by apply rotated_ok.
  - done.
  - exists new. split; [done|]. unfold rotated. cbn [Os.dir]. apply lookup_insert_eq.
  - pose proof (rotate_texts_length n l). lia.
  - done.
Qed.


(** ** keep_logs *)

Lemma holds_present s l k : holds s l -> (0 < k)%nat -> Z.of_nat k <= few + 1 ->
  (is_Some (Os.dir (files s) !! log_name (log_file (config s)) (Z.of_nat k)) <-> (k < length l)%nat).
Proof.
  intros H Hk Hf. pose proof (holds_logs _ _ H k Hf) as Hl. rewrite <-lookup_lt_is_Some, <-Hl. unfold log_at.
  destruct k as [|k]; [lia|]. cbn [numbered]. destruct (Os.dir (files s) !! _); cbn; (split; intros [? ?]); done || by eexists.
Qed.

Lemma holds_nonempty s l : holds s l -> exists b r ino, l = b :: r /\ stream s = Some ino /\ Os.dir (files s) !! log_file (config s) = Some ino /\
  Os.contents ino (files s) = b.
Proof.
  intros H. destruct (holds_open _ _ H) as (ino & Hs & Hd). pose proof (holds_logs _ _ H O ltac:(done)) as H0.
  unfold log_at in H0. cbn [numbered] in H0. rewrite Hd in H0. cbn in H0. destruct l as [|b r]; [done|]. injection H0 as H0. by exists b, r, ino.
Qed.

Lemma free_good s l i : holds s l -> (0 < i)%nat -> Z.of_nat i <= few + 1 ->
  first_free (free_fuel s) (log_file (config s)) (Z.of_nat i) (files s) = Some (Z.of_nat (i `max` length l)).
Proof.
  intros H Hi Hf. assert (Hfew : few = 2 ^ 31 - 2) by done. pose proof (holds_few _ _ H) as Hlen.
  assert (Hgen : forall fuel k, (length l < fuel + k)%nat -> (i <= k)%nat -> Z.of_nat k <= few + 1 -> (i = k \/ k <= length l)%nat ->
    first_free fuel (log_file (config s)) (Z.of_nat k) (files s) = Some (Z.of_nat (i `max` length l)) \/ fuel = O).
  { induction fuel as [|fuel IH]; intros k Hfu Hk Hkf Hor; [by right|]. left. cbn [first_free]. rewrite (proj2 (Z.eqb_neq _ 0)) by lia.
    pose proof (holds_present _ _ k H ltac:(lia) Hkf) as Hp. destruct (Os.dir (files s) !! _) as [x|].
    - assert (Hk' : (k < length l)%nat) by (apply Hp; by eexists). rewrite u32_small by (unfold two32 in *; lia).
      replace (Z.of_nat k + 1) with (Z.of_nat (S k)) by lia. destruct (IH (S k)) as [-> | ->]; [lia|lia|lia|lia|done|lia].
    - assert (~ (k < length l)%nat) by (intros Hk'%Hp; by destruct Hk'). do 2 f_equal. lia. }
  assert (Hsize : (length l - 1 <= size (Os.dir (files s)))%nat).
  { apply (names_size (log_file (config s)) 1); [lia|unfold two32 in *; lia|]. intros k Hk.
    replace (1 + Z.of_nat k) with (Z.of_nat (S k)) by lia. apply (holds_present s l (S k) H); lia. }
  destruct (Hgen (free_fuel s) i) as [->|Hz]; [unfold free_fuel; lia|lia|lia|by left|done|]. unfold free_fuel in Hz. lia.
Qed.

(** keep_logs puts a new log before the others. *)
Lemma shift_good s l : holds s l -> writes s -> Z.of_nat (S (S (length l))) < few ->
  exists s', shift_logs s = Some s' /\ holds s' ([] :: l) /\ config s' = config s /\ acks s' = acks s /\
    logging_suspended s' = logging_suspended s.
Proof.
  intros H Hw Hlen. assert (Hfew : few = 2 ^ 31 - 2) by done. unfold shift_logs. rewrite sys_good by apply H.
  pose proof (holds_last _ _ H) as Hlast. destruct (holds_nonempty _ _ H) as (b & r & ino & Hl & Hs & Hd & _).
  assert (Hpos : (0 < length l)%nat) by (rewrite Hl; cbn; lia).
  replace (last_log s) with (Z.of_nat (Z.to_nat (last_log s))) by lia. set (ll := Z.to_nat (last_log s)) in *.
  rewrite (free_good s l ll H) by lia. cbn [mbind option_bind].
  set (s1 := s<|known_logs := _|>).
  assert (E1 : last_log s1 = last_log s /\ files s1 = files s /\ config s1 = config s) by (unfold s1; clear; by destruct s).
  destruct E1 as (L1 & F1 & C1). replace (last_log s1) with (Z.of_nat ll) by lia.
  assert (H1 : forall num, holds (s1<|last_log := num|>) l <-> 0 < num < 2 ^ 31).
  { intros num. split; [intros X; pose proof (holds_last _ _ X) as Y; by destruct s1|]. intros Hn.
    destruct H as [A B C D E F]. unfold s1. clear -A B C D E Hn. by split; destruct s. }
  assert (N1 : (if (Z.of_nat (ll `max` length l) <=? Z.of_nat ll) && (1 <? Z.of_nat ll) then first_free (free_fuel s1) (log_file (config s)) 1 (files s1)
    else Some (Z.of_nat (ll `max` length l))) = Some (Z.of_nat (length l))).
  { destruct (Z.leb_spec (Z.of_nat (ll `max` length l)) (Z.of_nat ll)); cbn [andb]; [|f_equal; lia].
    destruct (Z.ltb_spec 1 (Z.of_nat ll)); [|f_equal; lia]. rewrite F1.
    replace (free_fuel s1) with (free_fuel s) by (unfold free_fuel; by rewrite F1). etrans; [exact (free_good s l 1 H ltac:(lia) ltac:(lia))|]. do 2 f_equal. lia. }
  rewrite N1. cbn [mbind option_bind]. rewrite u32_small by (unfold two32 in *; lia).
  set (s2 := s1<|last_log := _|>). assert (H2 : holds s2 l) by (apply H1; lia).
  assert (E2 : config s2 = config s /\ acks s2 = acks s /\ logging_suspended s2 = logging_suspended s /\ files s2 = files s)
    by (unfold s2, s1; clear; by destruct s). destruct E2 as (C2 & A2 & S2 & F2).
  destruct (rotate_good (Z.of_nat (length l) + 1) true s2 l (S (length l))) as (known & ino' & Hd' & ->);
    [done|unfold writes; by rewrite C2|by rewrite andb_false_r|rewrite (proj2 (Z.eqb_neq _ 0)); lia|lia|lia|].
  eexists. split; [done|]. split.
  - assert (Ht : rotate_texts (S (length l)) l = [] :: l).
    { unfold rotate_texts. replace (S (length l) - 1)%nat with (length l) by lia. by rewrite firstn_all, drop_ge, app_nil_r by lia. }
    rewrite <-Ht. apply rotate_holds; [done|done|lia|lia|lia].
  - rewrite <-C2, <-A2, <-S2. by destruct s2.
Qed.



(** ** Steps that leave the logs alone *)

Record quiet (s s' : state) : Prop := Quiet {
  quiet_config : config s' = config s;
  quiet_stream : stream s' = stream s;
  quiet_files : files s' = files s;
  quiet_acks : acks s' = acks s;
  quiet_last : last_log s' = last_log s;
}.

#[local] Instance quiet_preorder : PreOrder quiet.
Proof. split; [by split|]. intros s1 s2 s3 [] []. split; congruence. Qed.

Ltac quiet_by := match goal with |- quiet ?s _ => split; by destruct s end.

Lemma quiet_holds s s' l : quiet s s' -> holds s l -> holds s' l.
Proof. intros [C S F _ L] [A B D E G K]. split; rewrite ?C, ?S, ?F, ?L; done. Qed.

(** Keep all logs: no action rotates over them or closes the log. *)
Record keeping (c : daemon_conf) : Prop := Keeping {
  keep_calm : calm c;
  keep_background : daemonize c = D_BACKGROUND;
  keep_writes : write_logs c <> 0;
  keep_size : max_log_size_action c = SZ_KEEP_LOGS;
  keep_space : space_left_action c <> FA_ROTATE;
  keep_admin : admin_space_left_action c <> FA_ROTATE;
}.

#[global] Instance keeping_dec c : Decision (keeping c).
Proof.
  refine (cast_if (decide (calm c /\ daemonize c = D_BACKGROUND /\ write_logs c <> 0 /\ max_log_size_action c = SZ_KEEP_LOGS /\
    space_left_action c <> FA_ROTATE /\ admin_space_left_action c <> FA_ROTATE)));
    [by destruct a as (? & ? & ? & ? & ? & ?)|intros [H1 H2 H3 H4 H5 H6]; by apply n].
Defined.

Lemma runlevel_quiet v s : Os.script (files s) = [] -> quiet s (change_runlevel v s).
Proof. intros H. unfold change_runlevel. rewrite sys_good by done. quiet_by. Qed.

Lemma full_quiet s : calm (config s) -> Os.script (files s) = [] -> exists s', disk_full s = Some s' /\ quiet s s'.
Proof.
  intros Hc Hs. unfold disk_full, do_disk_full_action. destruct (disk_full_action (config s)) eqn:E;
    try (by destruct (calm_full _ Hc)); try (by destruct (calm_full' _ Hc)); eexists; (split; [done|]);
    first [reflexivity|by apply runlevel_quiet|quiet_by].
Qed.

Lemma action_quiet (admin : bool) s : keeping (config s) -> Os.script (files s) = [] -> exists s', do_space_left_action admin s = Some s' /\ quiet s s'.
Proof.
  intros [Hc _ _ _ H1 H2] Hs. unfold do_space_left_action. pose proof (calm_space _ Hc). pose proof (calm_admin _ Hc).
  destruct admin.
  - destruct (admin_space_left_action (config s)); try done; eexists; (split; [done|]); first [reflexivity|by apply runlevel_quiet|quiet_by].
  - destruct (space_left_action (config s)); try done; eexists; (split; [done|]); first [reflexivity|by apply runlevel_quiet|quiet_by].
Qed.

Lemma limit_quiet (admin : bool) limit a b warned set_warned s : keeping (config s) -> Os.script (files s) = [] ->
  (forall v s, quiet s (set_warned v s)) -> exists s', check_limit admin limit a b warned set_warned s = Some s' /\ quiet s s'.
Proof.
  intros Hc Hs Hset. unfold check_limit. destruct (_ <? _).
  - destruct (warned s); [by exists s|]. destruct (action_quiet admin s Hc Hs) as (s1 & -> & Q). cbn [mbind option_bind].
    eexists. split; [done|]. destruct (bool_decide _); [|done]. etrans; [exact Q|apply Hset].
  - eexists. split; [done|]. destruct (_ && _); [apply Hset|done].
Qed.

Lemma space_quiet s : keeping (config s) -> Os.script (files s) = [] -> (forall n a b, avail n = Some (a, b) -> b <> 0) ->
  exists s', check_space_left s = Some s' /\ quiet s s'.
Proof.
  intros Hc Hs Hb. unfold check_space_left. assert (Q0 : quiet s (s<|probes := S (probes s)|>)) by quiet_by.
  set (s0 := s<|probes := S (probes s)|>) in *. assert (C0 : config s0 = config s) by apply Q0. assert (F0 : files s0 = files s) by apply Q0.
  destruct (stream s); [|by exists s0]. destruct (avail (probes s)) as [[a b]|] eqn:E; [|by exists s0]. destruct (a <? 5).
  - assert (Q1 : quiet s0 (s0<|fs_space_left := false|>)) by quiet_by.
    destruct (full_quiet (s0<|fs_space_left := false|>)) as (s1 & -> & Q);
      [rewrite (quiet_config _ _ Q1), C0; apply Hc|by rewrite (quiet_files _ _ Q1), F0|]. exists s1. split; [done|]. by do 2 (etrans; [done|]).
  - rewrite (proj2 (Z.eqb_neq b 0)) by (by eapply Hb).
    destruct (limit_quiet false (space_left (config s0)) a b fs_space_warning set_space_warning s0) as (s1 & -> & Q1);
      [by rewrite C0|by rewrite F0|intros; quiet_by|]. cbn [mbind option_bind].
    destruct (limit_quiet true (admin_space_left (config s1)) a b fs_admin_space_warning set_admin_space_warning s1) as (s2 & -> & Q2);
      [by rewrite (quiet_config _ _ Q1), C0|by rewrite (quiet_files _ _ Q1), F0|intros; quiet_by|].
    exists s2. split; [done|]. by do 2 (etrans; [done|]).
Qed.

Lemma flush_quiet s : calm (config s) -> Os.script (files s) = [] -> exists s', flush_now s = Some s' /\ quiet s s' /\ logging_suspended s' = logging_suspended s.
Proof.
  intros Hc Hs. unfold flush_now. destruct (incremental s) eqn:Hi; [|by exists s].
  set (s1 := s<|count := count s +u 1|>). assert (Q1 : quiet s s1) by (unfold s1; quiet_by).
  assert (L1 : logging_suspended s1 = logging_suspended s) by (unfold s1; by destruct s).
  rewrite (quiet_config _ _ Q1), (proj2 (Z.eqb_neq _ 0)) by (by apply incremental_freq). destruct (_ mod _ =? 0); [|by exists s1].
  assert (F1 : Os.script (files s1) = []) by (by rewrite (quiet_files _ _ Q1)).
  assert (Hflush : flush_retry (open_fuel s1) 0 (files s1) = Some (0, files s1)) by (unfold open_fuel; cbn [flush_retry]; unfold Os.plain_call, Os.pop; by rewrite F1).
  unfold flush_log. rewrite Hflush. cbn [mbind option_bind Z.eqb]. replace (s1<|files := files s1|>) with s1 by (clear; by destruct s1).
  destruct (background s1); [|by exists s1]. destruct (bool_decide _).
  - rewrite sys_good by done. by exists s1.
  - eexists. split; [done|]. split; [|rewrite <-L1; clear; by destruct s1]. etrans; [exact Q1|]. clearbody s1. quiet_by.
Qed.


(** ** Events *)

(** All that was written, the oldest first. *)
Definition archive (l : list bytes) : bytes := concat (reverse l).

Lemma archive_cons b l : archive (b :: l) = archive l ++ b.
Proof. unfold archive. by rewrite reverse_cons, concat_app, concat_cons, app_nil_r. Qed.

Lemma log_append_holds s b r ino x : holds s (b :: r) -> stream s = Some ino -> Os.contents ino (files s) = b ->
  holds (s<|files := Os.set_contents ino (b ++ x) (files s)|>) ((b ++ x) :: r).
Proof.
  intros [Hl [Hi Hd] Hs (ino' & Ho & Hp) Hf Hla] Hino Hb. rewrite Hino in Ho. injection Ho as <-.
  set (s' := s<|files := _|>).
  assert (E : files s' = Os.set_contents ino (b ++ x) (files s) /\ config s' = config s /\ last_log s' = last_log s /\ stream s' = stream s)
    by (unfold s'; by destruct s). destruct E as (F & C & L & St). split; rewrite ?F, ?C, ?L, ?St; try done.
  - intros k Hk. specialize (Hl k Hk). unfold log_at in *. cbn [Os.set_contents Os.dir]. destruct k as [|k].
    + cbn [numbered]. rewrite Hp. cbn. unfold Os.contents. cbn. by rewrite lookup_insert_eq.
    + change (((b ++ x) :: r) !! S k) with (r !! k). etrans; [|exact Hl].
      destruct (Os.dir (files s) !! numbered _ (S k)) as [j|] eqn:E; [|done]. cbn. f_equal. unfold Os.contents. cbn.
      rewrite lookup_insert_ne; [done|]. intros <-. assert (X : numbered (log_file (config s)) (S k) = log_file (config s)) by (by eapply Hi).
      by apply log_name_ne in X.
  - split; [exact Hi|]. intros p j Hj. cbn. destruct (decide (ino = j)) as [<-|]; [rewrite lookup_insert_eq; by eexists|].
    rewrite lookup_insert_ne by done. by eapply Hd.
  - eexists. by split.
Qed.

Definition positive (t : Z) : Prop := t = AUDIT_RMW_TYPE_ACK \/ t = AUDIT_RMW_TYPE_DISKLOW.

Context (blocks : forall n a b, avail n = Some (a, b) -> b <> 0).

Lemma checks_kept s l rc : keeping (config s) -> holds s l -> Z.of_nat (S (S (length l))) < few ->
  exists s' l', (s1 ← check_log_file_size (s<|log_size := log_size s + rc|>);
    if log_size s1 mod 3 <? 2 then check_space_left s1 else Some s1) = Some s' /\
    holds s' l' /\ config s' = config s /\ acks s' = acks s /\ archive l' = archive l /\ (length l' <= S (length l))%nat.
Proof.
  intros Hc H Hlen. set (s0 := s<|log_size := _|>). assert (Q0 : quiet s s0) by (unfold s0; quiet_by).
  pose proof (quiet_config _ _ Q0) as C0. pose proof (quiet_holds _ _ _ Q0 H) as H0. clearbody s0.
  assert (exists s1 l1, check_log_file_size s0 = Some s1 /\ holds s1 l1 /\ config s1 = config s /\ acks s1 = acks s /\
    archive l1 = archive l /\ (length l1 <= S (length l))%nat) as (s1 & l1 & -> & H1 & C1 & A1 & R1 & L1).
  { unfold check_log_file_size. rewrite C0, (proj2 (Z.eqb_neq _ 0)) by apply Hc. rewrite (keep_size _ Hc).
    destruct (_ && _).
    - destruct (shift_good s0 l) as (s1 & -> & H1 & C1 & A1 & _); [done|unfold writes; rewrite C0; apply Hc|done|].
      exists s1, ([] :: l). split_and!; [done|done|congruence|by rewrite A1, (quiet_acks _ _ Q0)|by rewrite archive_cons, app_nil_r|done].
    - exists s0, l. split_and!; [done|done|done|apply Q0|done|lia]. }
  cbn [mbind option_bind]. destruct (_ <? 2); [|by exists s1, l1].
  destruct (space_quiet s1) as (s2 & -> & Q2); [by rewrite C1|apply H1|exact blocks|]. exists s2, l1.
  rewrite (quiet_config _ _ Q2), (quiet_acks _ _ Q2). split_and!; try done. by eapply quiet_holds.
Qed.

Lemma write_kept e s l : keeping (config s) -> holds s l -> Z.of_nat (S (S (length l))) < few ->
  exists s' l' t, write_to_log e s = Some s' /\ holds s' l' /\ config s' = config s /\ archive l' = archive l ++ line_bytes (e_message e) /\
    (length l' <= S (length l))%nat /\ acked e s s' t "" /\ positive t.
Proof.
  intros Hc H Hlen. destruct (holds_nonempty _ _ H) as (b & r & ino & -> & Hs & Hd & Hb).
  unfold write_to_log. rewrite Hs. cbn [mbind option_bind]. set (x := line_bytes (e_message e)). unfold fprintf, Os.pop.
  rewrite (holds_good _ _ H), Hb. set (s1 := s<|files := _|>). pose proof (log_append_holds s b r ino x H Hs Hb : holds s1 _) as H1.
  assert (C1 : config s1 = config s /\ acks s1 = acks s) by (unfold s1; clear; by destruct s). destruct C1 as [C1 A1]. clearbody s1.
  unfold background at 1. rewrite C1, (keep_background _ Hc), bool_decide_true by done.
  destruct (checks_kept s1 ((b ++ x) :: r) (Z.of_nat (length x))) as (s2 & l' & Hchk & H2 & C2 & A2 & R2 & L2); [by rewrite C1|done|done|].
  cbn [mbind option_bind] in Hchk |- *. rewrite Hchk. cbn [mbind option_bind].
  set (t := if fs_space_warning s2 then _ else _). destruct (send_ack_spec e t "" s2) as (A3 & C3 & S3 & _).
  exists ((send_ack e t "" s2)<|disk_err_warning := 0|>), l', t. split; [done|].
  assert (Q3 : files (send_ack e t "" s2) = files s2 /\ last_log (send_ack e t "" s2) = last_log s2) by (unfold send_ack; destruct (from_network e); clear; by destruct s2).
  destruct Q3 as [F3 L3]. set (s3 := send_ack e t "" s2) in *. clearbody s3. split_and!.
  - destruct H2 as [P1 P2 P3 P4 P5 P6]. split; replace (files (s3<|disk_err_warning := 0|>)) with (files s2) by (rewrite <-F3; clear; by destruct s3);
      replace (config (s3<|disk_err_warning := 0|>)) with (config s2) by (rewrite <-C3; clear; by destruct s3);
      replace (stream (s3<|disk_err_warning := 0|>)) with (stream s2) by (rewrite <-S3; clear; by destruct s3);
      replace (last_log (s3<|disk_err_warning := 0|>)) with (last_log s2) by (rewrite <-L3; clear; by destruct s3); done.
  - rewrite <-C1, <-C2, <-C3. clear; by destruct s3.
  - rewrite R2, !archive_cons. by rewrite app_assoc.
  - exact L2.
  - unfold acked in *. rewrite A2, A1 in A3. rewrite <-A3. clear; by destruct s3.
  - unfold t, positive. destruct (fs_space_warning s2); auto.
Qed.

(** What an event does to the logs: [on] is whether they are written. *)
Record step_kept (on : bool) (e : event) (s : state) (l : list bytes) (s' : state) (l' : list bytes) : Prop := StepKept {
  step_holds : holds s' l';
  step_config : config s' = config s;
  step_archive : archive l' = archive l ++ if on then line_bytes (e_message e) else [];
  step_length : (length l' <= 2 + length l)%nat;
  step_suspended : on = false -> logging_suspended s' = true;
  step_acked : exists t m, acked e s s' t m /\ if on then positive t /\ m = "" else t = AUDIT_RMW_TYPE_DISKERROR /\ m = "remote logging suspended";
}.

Lemma log_kept e s l : keeping (config s) -> holds s l -> Z.of_nat (S (S (length l))) < few ->
  exists s' l', log_event e s = Some s' /\ step_kept (negb (logging_suspended s)) e s l s' l' /\ (length l' <= S (length l))%nat.
Proof.
  intros Hc H Hlen. unfold log_event. unfold background. rewrite (proj2 (Z.eqb_neq (write_logs _) 0)) by apply Hc.
  rewrite (keep_background _ Hc), bool_decide_true by done. destruct (logging_suspended s) eqn:Hsus; cbn [negb andb orb].
  - destruct (send_ack_spec e AUDIT_RMW_TYPE_DISKERROR "remote logging suspended" s) as (A & C & S & L & _).
    exists (send_ack e AUDIT_RMW_TYPE_DISKERROR "remote logging suspended" s), l. split; [done|]. split; [|lia].
    assert (Q : files (send_ack e AUDIT_RMW_TYPE_DISKERROR "remote logging suspended" s) = files s /\
      last_log (send_ack e AUDIT_RMW_TYPE_DISKERROR "remote logging suspended" s) = last_log s) by (unfold send_ack; destruct (from_network e); clear; by destruct s).
    destruct Q as [QF QL]. split; [|done|by rewrite app_nil_r|lia|by rewrite L|by eexists _, _].
    destruct H as [P1 P2 P3 P4 P5 P6]. split; rewrite ?QF, ?QL, ?C, ?S; done.
  - destruct (write_kept e s l Hc H Hlen) as (s1 & l' & t & -> & H1 & C1 & R1 & L1 & A1 & T1). cbn [mbind option_bind].
    destruct (flush_quiet s1) as (s2 & -> & Q2 & _); [rewrite C1; apply Hc|apply H1|]. exists s2, l'. split; [done|]. split; [|done].
    split; [by eapply quiet_holds|by rewrite (quiet_config _ _ Q2)|done|lia|done|]. exists t, "". split; [|done]. unfold acked in *. by rewrite (quiet_acks _ _ Q2).
Qed.

(** All events but a change of the configuration. *)
Definition plain (e : event) : bool := negb ((e_type e =? AUDIT_DAEMON_RECONFIG) && negb (from_network e)).

Lemma handle_kept enrich date e s l : keeping (config s) -> holds s l -> plain e -> Z.of_nat (3 + length l) < few ->
  exists s' l', handle_event enrich date e s = Some s' /\ step_kept (negb (logging_suspended s)) e s l s' l'.
Proof.
  intros Hc H Hp Hlen. unfold handle_event. unfold plain in Hp. destruct (_ && negb _); [done|]. destruct (_ =? _).
  - unfold rotate_logs_now. rewrite (keep_size _ Hc).
    destruct (shift_good s l) as (s1 & -> & H1 & C1 & A1 & S1); [done|unfold writes; apply Hc|lia|]. cbn [mbind option_bind].
    rewrite C1, (proj2 (Z.eqb_neq (write_logs _) 0)) by apply Hc. cbn [andb].
    destruct (log_kept e s1 ([] :: l)) as (s2 & l2 & -> & [P1 P2 P3 P4 P5 P6] & L2); [by rewrite C1|done|cbn; lia|]. exists s2, l2. split; [done|].
    rewrite S1 in *. split; [done|congruence|by rewrite P3, archive_cons, app_nil_r|cbn in *; lia|done|].
    unfold acked in *. by rewrite A1 in P6.
  - destruct (log_kept e s l) as (s2 & l2 & -> & K & _); [done|done|lia|]. by exists s2, l2.
Qed.

(** ** Sequences *)

Fixpoint handle_events (enrich : string -> string) (date : string) (es : list event) (s : state) : option state :=
  match es with [] => Some s | e :: es => s ← handle_event enrich date e s; handle_events enrich date es s end.

(** One answer for each event of the network, of a type with [P]. *)
Definition answers (P : Z -> Prop) (es : list event) (l : list ack) : Prop :=
  ack_seq <$> l = sequence_id <$> filter (fun e => from_network e) es /\ Forall (fun a => P (ack_type a)) l.

Lemma answers_cons (P : Z -> Prop) e es s s' t m l : acked e s s' t m -> P t -> answers P es l ->
  exists l', acks s' ++ l = acks s ++ l' /\ answers P (e :: es) l'.
Proof.
  unfold acked, answers. intros -> Ht [H1 H2]. destruct (from_network e) eqn:E.
  - exists (Ack (sequence_id e) t m :: l). rewrite <-app_assoc. split; [done|]. rewrite filter_cons, E. cbn. by rewrite H1; auto.
  - exists l. rewrite app_nil_r. split; [done|]. by rewrite filter_cons, E.
Qed.

(** C15: While no system call fails and all logs are kept, every event that the daemon
    handles is appended to the numbered logs in order, across any number of rotations
    and rotate requests, until an action for low space suspends logging: the logs,
    oldest first, are the old text and the lines of the first [k] events, and these
    are answered positively, the others with an error. *)
Theorem no_event_lost enrich date es s l : keeping (config s) -> holds s l -> Forall plain es -> Z.of_nat (3 + length l + 2 * length es) < few ->
  exists s' l' k a1 a2, handle_events enrich date es s = Some s' /\ holds s' l' /\ (k <= length es)%nat /\
    archive l' = archive l ++ concat ((fun e => line_bytes (e_message e)) <$> take k es) /\
    acks s' = acks s ++ a1 ++ a2 /\ answers positive (take k es) a1 /\ answers (fun t => t = AUDIT_RMW_TYPE_DISKERROR) (drop k es) a2 /\
    (logging_suspended s' = false -> k = length es) /\ (logging_suspended s = true -> k = O /\ logging_suspended s' = true).
Proof.
  revert s l. induction es as [|e es IH]; intros s l Hc H Hp Hlen.
  { exists s, l, O, [], []. cbn. rewrite !app_nil_r. split_and!; try done. }
  apply Forall_cons in Hp as [Hp Hps]. cbn in Hlen.
  destruct (handle_kept enrich date e s l) as (s1 & l1 & Hh & [P1 P2 P3 P4 P5 (t & m & A & T)]); [done|done|done|lia|].
  destruct (IH s1 l1) as (s2 & l2 & k & a1 & a2 & Hr & H2 & Hk & R & AA & An1 & An2 & Hs & Hz); [by rewrite P2|done|done|lia|].
  cbn [handle_events]. rewrite Hh. cbn [mbind option_bind]. rewrite Hr. destruct (logging_suspended s) eqn:Hsus; cbn [negb] in *.
  - destruct (Hz (P5 eq_refl)) as [-> Hs2]. rewrite take_0 in R, An1. rewrite drop_0 in An2.
    destruct (answers_cons _ _ _ _ _ _ _ _ A (proj1 T) An2) as (a2' & E2 & An2'). destruct An1 as [E1 _]. destruct a1; [|done].
    exists s2, l2, O, [], a2'. rewrite R, P3, AA. cbn in *. rewrite !app_nil_r. split_and!; try done; [lia|congruence].
  - destruct (answers_cons _ _ _ _ _ _ _ _ A (proj1 T) An1) as (a1' & E1 & An1').
    exists s2, l2, (S k), a1', a2. cbn [take drop firstn skipn]. rewrite R, P3, AA, fmap_cons, concat_cons, <-app_assoc, (app_assoc (acks s1)), E1, <-app_assoc.
    split_and!; try done; [cbn; lia|]. intros Hx. cbn. by rewrite (Hs Hx).
Qed.


End logs.

End AuditdLogs.
