(* ===== verification/AuditdSamples.v ===== *)
(** * A sample daemon

    The theorems about the log files at concrete inputs, and events that make the
    daemon of src/src/auditd-event.c use a stream that it has closed. *)
From S2P Require Import Prelude CString StrSplit Config ConfigFacts AuditdConf AuditdConfFacts Os Lol Ellist Lookup AuditdEvent AuditdEventFacts AuditdLogs.
From coqutil Require Import Datatypes.RecordSetters.
Import RecordSetters.TriangleBracketNotations.

Local Open Scope audit_scope.
Local Open Scope string_scope.
Local Open Scope list_scope.
Local Open Scope Z_scope.

Module AuditdSamples.
Import Config ConfigFacts AuditdConf Lookup AuditdEvent AuditdEventFacts AuditdLogs.

#[local] Instance sample_part : Partition := {| avail _ := Some (1000000, 4096) |}.
#[local] Instance sample_host : Host := AuditdConfFacts.demo_host [].
#[local] Instance sample_tabs : Tables := {|
  i386_syscalltab := []; x86_64_syscalltab := []; ppc_syscalltab := []; s390x_syscalltab := []; s390_syscalltab := [];
  arm_syscalltab := []; aarch64_syscalltab := []; errtab := []; msg_typetab := []; with_arm := false; with_aarch64 := false |}.

Lemma sample_blocks n a b : avail n = Some (a, b) -> b <> 0.
Proof. cbn. intros H. injection H as _ <-. done. Qed.

Definition sample_conf : daemon_conf :=
  AuditdConfFacts.demo_before<|log_file := "/l"|><|flush := FT_INCREMENTAL|><|freq := 1|><|num_logs := 3|>
    <|max_log_size := 8|><|max_log_size_action := SZ_KEEP_LOGS|>.

(** The log is open and empty. *)
Definition sample_state (c : daemon_conf) (script : list Os.outcome) : state :=
  State c 7 (Some 7) 0 false false true false 0 0 1 0 false (Os.OS {[7 := []]} {["/l" := 7]} script) 0 [] [].

Definition sample_event (type : Z) (msg : string) (seq : Z) : event := Event type (Some msg) None true seq.

Lemma sample_holds c : log_file c = "/l" -> holds (sample_state c []) [[]].
Proof.
  intros Hc. split; cbn [sample_state config files stream last_log]; rewrite ?Hc; [| |done| |done|done].
  - intros [|k] Hk; [done|]. unfold log_at. cbn [Os.dir numbered]. rewrite lookup_singleton_ne; [done|].
    intros H. symmetry in H. by apply log_name_ne in H.
  - split; cbn [Os.dir Os.inodes].
    + intros p q ino [<- _]%lookup_singleton_Some [<- _]%lookup_singleton_Some. done.
    + intros p ino [_ <-]%lookup_singleton_Some. by eexists.
  - exists 7. by split.
Qed.

(** A write that fails: the disk is full. *)
Lemma event_answered_witness : exists s' t m, handle_event id "" (sample_event 1300 "a" 5) (sample_state sample_conf [Os.Err ENOSPC]) = Some s' /\
  answer (sample_event 1300 "a" 5) (sample_state sample_conf [Os.Err ENOSPC]) t m /\
  acked (sample_event 1300 "a" 5) (sample_state sample_conf [Os.Err ENOSPC]) s' t m /\ config s' = sample_conf /\ ok s'.
Proof.
  apply (event_answered sample_blocks id "" (sample_event 1300 "a" 5) (sample_state sample_conf [Os.Err ENOSPC]));
    [split; [done|by left]|by_decision|done|split; vm_compute; done].
Defined.


Lemma no_event_lost_witness : exists s' l' k, handle_events id "" [sample_event 1300 "a" 5; sample_event AUDIT_DAEMON_ROTATE "b" 6] (sample_state sample_conf []) = Some s' /\
  holds s' l' /\ archive l' = concat ((fun e => line_bytes (e_message e)) <$> take k [sample_event 1300 "a" 5; sample_event AUDIT_DAEMON_ROTATE "b" 6]).
Proof.
  destruct (no_event_lost sample_blocks id "" [sample_event 1300 "a" 5; sample_event AUDIT_DAEMON_ROTATE "b" 6] (sample_state sample_conf []) [[]])
    as (s' & l' & k & a1 & a2 & Hr & Hh & _ & Ha & _); [by_decision|by apply sample_holds|by repeat constructor|by_decision|].
  exists s', l', k. split; [exact Hr|]. split; [exact Hh|]. rewrite Ha. change (archive [[]]) with (@nil Z). exact eq_refl.
Defined.

(** ** Streams that were closed *)

(** A request to rotate (SIGUSR1) while logs are not written. *)
Example rotate_without_log : handle_event id "" (sample_event AUDIT_DAEMON_ROTATE "" 0)
  ((sample_state (sample_conf<|write_logs := 0|>) [])<|stream := None|>) = None.
Proof. reflexivity. Qed.

(** A request to rotate after the program of an action was started. *)
Example rotate_after_exec :
  (s ← exec_action (Some "/bin/a") (sample_state sample_conf []); handle_event id "" (sample_event AUDIT_DAEMON_ROTATE "" 0) s) = None.
Proof. reflexivity. Qed.

(** Both limits of the space start a program: the second closes the log again. *)
Example both_limits_exec :
  let c := sample_conf<|space_left := 75000|><|admin_space_left := 50000|><|space_left_action := FA_EXEC|><|admin_space_left_action := FA_EXEC|> in
  handle_event id "" (sample_event 1300 "ab" 0) (sample_state c []) = None.
Proof. vm_compute. reflexivity. Qed.

(** A new size limit resumes logging to a log that is closed. *)
Example resize_after_exec :
  let n := sample_conf<|max_log_size := 9|> in
  (s ← exec_action (Some "/bin/a") (sample_state sample_conf []);
   handle_event id "" (Event AUDIT_DAEMON_RECONFIG None (Some n) false 0) s) = None.
Proof. vm_compute. reflexivity. Qed.

(** A flush that was interrupted and then succeeded counts as an error of the disk. *)
Example interrupted_flush :
  let c := sample_conf<|disk_error_action := FA_SUSPEND|> in
  logging_suspended <$> handle_event id "" (sample_event 1300 "a" 0) (sample_state c [Os.Good; Os.Err EINTR; Os.Good; Os.Good]) = Some true /\
  logging_suspended <$> handle_event id "" (sample_event 1300 "a" 0) (sample_state c []) = Some false.
Proof. vm_compute. done. Qed.

End AuditdSamples.
