(* ===== verification/Rmw.v ===== *)
(** * The header of remote messages (src/lib/private.h)

    auditd and audisp-remote send each other messages behind a header of 16 bytes:
    a magic number, two versions, the type, the length and a sequence number, with
    the least significant byte first. *)
From S2P Require Import Prelude.

Local Open Scope Z_scope.

Module Rmw.

Definition AUDIT_RMW_HEADER_SIZE : Z := 16.
Definition AUDIT_RMW_MAGIC : Z := 0xff0000fe.
Definition AUDIT_RMW_HEADER_VERSION : Z := 0.
Definition AUDIT_RMW_TYPE_FATALMASK : Z := 0x20000000.
Definition AUDIT_RMW_TYPE_WARNMASK : Z := 0x10000000.
Definition AUDIT_RMW_TYPE_MESSAGE : Z := 0x00000000.
Definition AUDIT_RMW_TYPE_HEARTBEAT : Z := 0x00000001.
Definition AUDIT_RMW_TYPE_ENDING : Z := 0x40000001.

(** A byte of the header. *)
Definition at_ (h : list Z) (i : nat) : Z := default 0 (h !! i).

Definition putn32 (v : Z) : list Z :=
  [Z.land v 255; Z.land (Z.shiftr v 8) 255; Z.land (Z.shiftr v 16) 255; Z.land (Z.shiftr v 24) 255].
Definition putn16 (v : Z) : list Z := [Z.land v 255; Z.land (Z.shiftr v 8) 255].

Definition getn32 (h : list Z) (i : nat) : Z :=
  Z.lor (Z.lor (Z.lor (Z.land (at_ h i) 255) (Z.shiftl (Z.land (at_ h (i + 1)) 255) 8))
    (Z.shiftl (Z.land (at_ h (i + 2)) 255) 16)) (Z.shiftl (Z.land (at_ h (i + 3)) 255) 24).
Definition getn16 (h : list Z) (i : nat) : Z := Z.lor (Z.land (at_ h i) 255) (Z.shiftl (Z.land (at_ h (i + 1)) 255) 8).

Definition pack_header (mver type len seq : Z) : list Z :=
  putn32 AUDIT_RMW_MAGIC ++ [AUDIT_RMW_HEADER_VERSION; Z.land mver 255] ++ putn32 type ++ putn16 len ++ putn32 seq.

Definition is_magic (h : list Z) (length : Z) : bool := (4 <=? length) && (getn32 h 0 =? AUDIT_RMW_MAGIC).

Record header := Header { h_hver : Z; h_mver : Z; h_type : Z; h_len : Z; h_seq : Z }.

Definition unpack_header (h : list Z) : header :=
  Header (at_ h 4) (at_ h 5) (getn32 h 6) (getn16 h 10) (getn32 h 12).

(** ** Facts *)

Lemma testbit_255 n : 0 <= n -> Z.testbit 255 n = (n <? 8).
Proof. intros Hn. change 255 with (Z.ones 8). rewrite Z.testbit_ones by lia. zb; cbn; lia. Qed.

Lemma testbit_high v w n : 0 <= v < 2 ^ w -> w <= n -> Z.testbit v n = false.
Proof.
  intros Hv Hn. destruct (Z.le_gt_cases w 0) as [Hw|Hw].
  - assert (v = 0) as ->; [|apply Z.bits_0]. destruct (decide (w = 0)) as [->|]; [cbn in Hv; lia|]. rewrite Z.pow_neg_r in Hv by lia. lia.
  - destruct (decide (v = 0)) as [->|]; [apply Z.bits_0|]. apply Z.bits_above_log2; [lia|].
    assert (Z.log2 v < w) by (apply Z.log2_lt_pow2; lia). lia.
Qed.

(** The bytes of a number, put together. *)
Lemma byte_bit v k n : 0 <= k -> 0 <= n ->
  Z.testbit (Z.shiftl (Z.land (Z.land (Z.shiftr v k) 255) 255) k) n = (k <=? n) && (n <? k + 8) && Z.testbit v n.
Proof.
  intros Hk Hn. rewrite Z.shiftl_spec by lia. destruct (Z.leb_spec k n).
  - rewrite !Z.land_spec, !testbit_255, Z.shiftr_spec by lia. replace (n - k + k) with n by lia.
    destruct (Z.ltb_spec (n - k) 8), (Z.ltb_spec n (k + 8)); try lia; cbn; by destruct (Z.testbit v n).
  - by rewrite Z.testbit_neg_r by lia.
Qed.

Lemma byte_bit_0 v n : 0 <= n -> Z.testbit (Z.land (Z.land v 255) 255) n = (n <? 8) && Z.testbit v n.
Proof. intros Hn. rewrite !Z.land_spec, !testbit_255 by lia. destruct (n <? 8); cbn; by destruct (Z.testbit v n). Qed.

Lemma bytes32 v : 0 <= v < two32 ->
  Z.lor (Z.lor (Z.lor (Z.land (Z.land v 255) 255) (Z.shiftl (Z.land (Z.land (Z.shiftr v 8) 255) 255) 8))
    (Z.shiftl (Z.land (Z.land (Z.shiftr v 16) 255) 255) 16)) (Z.shiftl (Z.land (Z.land (Z.shiftr v 24) 255) 255) 24) = v.
Proof.
  intros Hv. apply Z.bits_inj'. intros n Hn. rewrite !Z.lor_spec, !byte_bit, byte_bit_0 by lia.
  destruct (Z.ltb_spec n 32).
  - zb; try lia; cbn; by destruct (Z.testbit v n).
  - rewrite (testbit_high v 32 n) by (unfold two32 in *; lia). by rewrite !andb_false_r.
Qed.

Lemma bytes16 v : 0 <= v < 2 ^ 16 -> Z.lor (Z.land (Z.land v 255) 255) (Z.shiftl (Z.land (Z.land (Z.shiftr v 8) 255) 255) 8) = v.
Proof.
  intros Hv. apply Z.bits_inj'. intros n Hn. rewrite !Z.lor_spec, !byte_bit, byte_bit_0 by lia.
  destruct (Z.ltb_spec n 16).
  - zb; try lia; cbn; by destruct (Z.testbit v n).
  - rewrite (testbit_high v 16 n) by lia. by rewrite !andb_false_r.
Qed.

Lemma pack_length mver type len seq : length (pack_header mver type len seq) = 16%nat.
Proof. done. Qed.

(** A packed header is read back, whatever follows it. *)
Lemma unpack_pack mver type len seq rest : 0 <= mver < 256 -> 0 <= type < two32 -> 0 <= len < 2 ^ 16 -> 0 <= seq < two32 ->
  unpack_header (pack_header mver type len seq ++ rest) = Header 0 mver type len seq.
Proof.
  intros Hm Ht Hl Hs. unfold unpack_header. f_equal.
  - transitivity (Z.land mver 255); [done|]. change 255 with (Z.ones 8). rewrite Z.land_ones by lia. by rewrite Z.mod_small.
  - exact (bytes32 type Ht).
  - exact (bytes16 len Hl).
  - exact (bytes32 seq Hs).
Qed.

Lemma magic_pack mver type len seq rest n : 4 <= n -> is_magic (pack_header mver type len seq ++ rest) n = true.
Proof. intros Hn. unfold is_magic. by rewrite (proj2 (Z.leb_le 4 n)) by done. Qed.

(** Only the first bytes count. *)
Lemma at_app a b i : (i < length a)%nat -> at_ (a ++ b) i = at_ a i.
Proof. intros Hi. unfold at_. by rewrite lookup_app_l. Qed.

Lemma magic_app a b n : (4 <= length a)%nat -> is_magic (a ++ b) n = is_magic a n.
Proof. intros Ha. unfold is_magic, getn32. by rewrite !at_app by lia. Qed.

Lemma unpack_app a b : (16 <= length a)%nat -> unpack_header (a ++ b) = unpack_header a.
Proof. intros Ha. unfold unpack_header, getn32, getn16. by rewrite !at_app by lia. Qed.

Lemma getn16_range h i : 0 <= getn16 h i < 2 ^ 16.
Proof.
  unfold getn16. assert (Hb : forall x, 0 <= Z.land x 255 < 2 ^ 8).
  { intros x. change 255 with (Z.ones 8). rewrite Z.land_ones by lia. apply Z.mod_pos_bound. lia. }
  split.
  - apply Z.lor_nonneg. split; [apply Hb|]. apply Z.shiftl_nonneg, Hb.
  - destruct (decide (Z.lor (Z.land (at_ h i) 255) (Z.shiftl (Z.land (at_ h (i + 1)) 255) 8) = 0)) as [->|Hne]; [lia|].
    apply Z.log2_lt_cancel. rewrite Z.log2_pow2 by lia.
    rewrite Z.log2_lor by (try apply Z.shiftl_nonneg; apply Hb). apply Z.max_lub_lt.
    + destruct (decide (Z.land (at_ h i) 255 = 0)) as [->|]; [done|]. pose proof (Hb (at_ h i)). assert (Z.log2 (Z.land (at_ h i) 255) < 8) by (apply Z.log2_lt_pow2; lia). lia.
    + destruct (decide (Z.land (at_ h (i + 1)) 255 = 0)) as [->|]; [done|]. pose proof (Hb (at_ h (i + 1))).
      rewrite Z.log2_shiftl by lia. assert (Z.log2 (Z.land (at_ h (i + 1)) 255) < 8) by (apply Z.log2_lt_pow2; lia). lia.
Qed.

End Rmw.
