(* ===== verification/Listen.v ===== *)
(** * Remote clients of the daemon (src/src/auditd-listen.c)

    auditd takes messages from audisp-remote over TCP.  A client has a buffer; its
    handler reads what the socket has, cuts it into messages and hands them to
    distribute_event (src/src/auditd.c), which logs and answers them.  Without
    Kerberos and libwrap, which are options of the build. *)
From S2P Require Import Prelude CString StrSplit Config ConfigFacts AuditdConf Os Lol Ellist Lookup AuditdEvent Rmw.
From coqutil Require Import Datatypes.RecordSetters.
Import RecordSetters.TriangleBracketNotations.

Local Open Scope audit_scope.
Local Open Scope string_scope.
Local Open Scope list_scope.
Local Open Scope Z_scope.

Module Listen.
Import Config AuditdConf Lookup AuditdEvent Rmw.

(** ** Distribution of events (auditd.c) *)

Definition AUDIT_EOE : Z := 1320.
Definition AUDISP_PROTOCOL_VER : Z := 0.
Definition AUDISP_PROTOCOL_VER2 : Z := 1.

(** The log files and what went to the dispatcher: type, message, protocol. *)
Record daemon := Daemon { logging : state; routed : list (Z * option string * Z) }.

Section listen.
Context {part : Partition} {host : Host} {tabs : Tables} {types : Lol.MsgTypes}.

(** The type that the text of an event names; -1 for a malformed text. *)
Definition extract_type (str : string) : Z :=
  match (if char_at str =c "n"%char then p ← strchr (skip 1 str) " "%char; Some (skip 1 p) else Some str) with
  | None => -1
  | Some ptr =>
      match strchr ptr " "%char, strchr ptr "="%char with
      | Some ptr2, Some eq =>
          if (String.length eq <=? String.length ptr2)%nat then -1
          else Lol.audit_name_to_msg_type (prefix_of (String.length eq - 1 - String.length ptr2) (skip 1 eq))
      | _, _ => -1
      end
  end.

(** [len] is the length of a message of this machine. *)
Definition distribute_event (enrich : string -> string) (date : string) (len : Z) (e : event) (d : daemon) : option daemon :=
  let conf := config (logging d) in
  let proto := if bool_decide (log_format conf = LF_ENRICHED) then AUDISP_PROTOCOL_VER2 else AUDISP_PROTOCOL_VER in
  '(e, route, proto) ←
    (if e_type e =? 0 then
       if distribute_network_events conf =? 0 then Some (e, false, proto)
       else
         m ← e_message e;
         Some (Event (extract_type m) (e_message e) (e_conf e) (from_network e) (sequence_id e), true, AUDISP_PROTOCOL_VER2)
     else if negb (e_type e =? AUDIT_DAEMON_RECONFIG) then
       e ← format_event enrich len conf e;
       Some (e, true, if bool_decide (node_name_format conf <> N_NONE) then AUDISP_PROTOCOL_VER2 else proto)
     else Some (e, false, proto));
  s ← (if negb (e_type e =? AUDIT_EOE) then handle_event enrich date e (logging d) else Some (logging d));
  Some (Daemon s (if (route : bool) then routed d ++ [(e_type e, e_message e, proto)] else routed d)).

(** ** Messages *)

(** The static buffer of a client and how much of it is used. *)
Record io := Io { bufptr : Z; buffer : bytes }.

Definition BUFFER_SIZE : Z := MAX_AUDIT_MESSAGE_LENGTH + 17.

(** The characters before the first NUL, which must be there. *)
Fixpoint c_string (b : bytes) : option string :=
  match b with
  | [] => None
  | x :: b => if x =? 0 then Some "" else s ← c_string b; Some (String (chr (Z.to_nat x)) s)
  end.

Definition client_message (enrich : string -> string) (date : string) (length : Z) (h : bytes) (d : daemon) : option (bytes * daemon) :=
  if is_magic h length then
    let hd := unpack_header h in
    ch ← h !! Z.to_nat length;
    let h := <[Z.to_nat length := 0]> h in
    let h := if (1 <? length) && (at_ h (Z.to_nat (length - 1)) =? 10) then <[Z.to_nat (length - 1) := 0]> h else h in
    d ← (if h_type hd =? AUDIT_RMW_TYPE_HEARTBEAT then
           let s := logging d in
           Some (Daemon (s<|acks := acks s ++ [Ack (h_seq hd) AUDIT_RMW_TYPE_ACK ""]|>) (routed d))
         else
           msg ← c_string (drop (Z.to_nat AUDIT_RMW_HEADER_SIZE) h);
           distribute_event enrich date 0 (create_event (Some msg) true (h_seq hd)) d);
    Some (<[Z.to_nat length := ch]> h, d)
  else Some (h, d).

(** What client_ack writes for an answer. *)
Definition ack_bytes (a : ack) : bytes :=
  pack_header 0 (ack_type a) (Z.of_nat (String.length (ack_msg a))) (ack_seq a) ++
  (code <$> String.list_ascii_of_string (ack_msg a)).

(** ** The handler *)

(** What read() of a socket gives: data, the end of the connection, an error. *)
Inductive rd := Data (b : bytes) | Eof | Fail.

(** The result of read(): [Some []] is 0 and [None] an error.  A socket without
    data gives EAGAIN, which counts as 0. *)
Definition sock_read (asked : nat) (reads : list rd) : option bytes * list rd :=
  match reads with
  | [] => (Some [], [])
  | Eof :: _ => (Some [], reads)
  | Fail :: reads => (None, reads)
  | Data b :: reads' => (Some (take asked b), match drop asked b with [] => reads' | rest => Data rest :: reads' end)
  end.

(** The first LF from [i] on, or the end. *)
Fixpoint find_lf (n : nat) (b : bytes) (i : Z) : Z :=
  match n with
  | O => i
  | S n => if at_ b (Z.to_nat i) =? 10 then i else find_lf n b (i + 1)
  end.

(** What the handler does after the messages of the buffer. *)
Inductive next := Return (c : io) | ReadMore (c : io).

(** memmove() of the bytes behind a message to the front. *)
Definition move_rest (i : Z) (c : io) : io :=
  Io (bufptr c - i) (drop (Z.to_nat i) (take (Z.to_nat (bufptr c)) (buffer c)) ++ drop (Z.to_nat (bufptr c - i)) (buffer c)).

(** The place of the end of the first message of the [bufptr] + [r] bytes, or that it
    is not complete. *)
Definition message_end (c : io) (r : Z) : option Z :=
  let n := bufptr c + r in
  if is_magic (buffer c) n then
    let len := h_len (unpack_header (buffer c)) in
    if n <? AUDIT_RMW_HEADER_SIZE then None
    else if MAX_AUDIT_MESSAGE_LENGTH <? len then None
    else if n <? len + AUDIT_RMW_HEADER_SIZE then None
    else Some (len + AUDIT_RMW_HEADER_SIZE)
  else
    let i := find_lf (Z.to_nat r) (buffer c) (bufptr c) in
    if i =? n then None else Some (i + 1).

Fixpoint more_messages (fuel : nat) (enrich : string -> string) (date : string) (c : io) (r : Z) (d : daemon) : option (next * daemon) :=
  match fuel with
  | O => None
  | S fuel =>
      let n := bufptr c + r in
      match message_end c r with
      | None => Some (Return (Io n (buffer c)), d)
      | Some i =>
          '(b, d) ← client_message enrich date i (buffer c) d;
          let c := move_rest i (Io n b) in
          if 0 <? bufptr c then more_messages fuel enrich date (Io 0 (buffer c)) (bufptr c) d
          else Some (ReadMore c, d)
      end
  end.

(** [Stay] is the client and what its socket still has. *)
Inductive outcome := Stay (c : io) (reads : list rd) | Closed.

(** [total] is [total_this_call]. *)
Fixpoint client_handler (fuel : nat) (enrich : string -> string) (date : string) (c : io) (total : Z) (reads : list rd) (d : daemon)
    : option (outcome * daemon) :=
  match fuel with
  | O => None
  | S fuel =>
      let (got, reads) := sock_read (Z.to_nat (MAX_AUDIT_MESSAGE_LENGTH - bufptr c)) reads in
      match got with
      | Some (x :: b) =>
          let r := Z.of_nat (length (x :: b)) in
          let c := Io (bufptr c) (Os.write_at (buffer c) (Z.to_nat (bufptr c)) (x :: b)) in
          '(nx, d) ← more_messages (S (Z.to_nat (bufptr c + r))) enrich date c r d;
          match nx with
          | Return c => Some (Stay c reads, d)
          | ReadMore c => client_handler fuel enrich date c (total + r) reads d
          end
      | _ =>
          if bool_decide (got = Some []) && (0 <? total) then Some (Stay c reads, d)
          else
            d ← (if bufptr c =? 0 then Some d else '(_, d) ← client_message enrich date (bufptr c) (buffer c) d; Some d);
            Some (Closed, d)
      end
  end.

(** Every read takes a byte from the socket or ends the loop. *)
Definition pending (reads : list rd) : nat := sum_list_with (fun x => match x with Data b => length b | _ => O end) reads.
Definition auditd_tcp_client_handler (enrich : string -> string) (date : string) (c : io) (reads : list rd) (d : daemon)
    : option (outcome * daemon) :=
  client_handler (S (S (pending reads))) enrich date c 0 reads d.

Definition new_client : io := Io 0 (replicate (Z.to_nat BUFFER_SIZE) 0).

(** ** Connections *)

Definition AF_INET : Z := 2.
Definition AF_INET6 : Z := 10.

(** A connection: its descriptor, the bytes of the socket address, and the buffer. *)
Record client := Client { fd : Z; addr : bytes; client_active : bool; data : io }.

Definition ss_family (a : bytes) : Z := at_ a 0 + 256 * at_ a 1.
Definition sockaddr_to_port (a : bytes) : Z :=
  if (ss_family a =? AF_INET) || (ss_family a =? AF_INET6) then 256 * at_ a 2 + at_ a 3 else u32 (-1).

(** memcmp() of the addresses, of the family that the new one has. *)
Definition same_addr (a b : bytes) : bool :=
  if ss_family a =? AF_INET then bool_decide (Os.slice a 4 4 = Os.slice b 4 4)
  else bool_decide (Os.slice a 8 16 = Os.slice b 8 16).

(** Accepted, refused with an operation, closed. *)
Inductive notice := Accept (a : bytes) | Refuse (op : string) (a : bytes) | CloseC (a : bytes).

Record listener := Listener {
  client_chain : list client;
  min_port : Z;
  max_port : Z;
  max_per_addr : Z;
  notices : list notice;
}.

Fixpoint count_loop (num : Z) (max : Z) (a : bytes) (cs : list client) : bool :=
  match cs with
  | [] => false
  | c :: cs =>
      if same_addr a (addr c) then
        if max <=? num + 1 then true else count_loop (num + 1) max a cs
      else count_loop num max a cs
  end.
Definition check_num_connections (l : listener) (a : bytes) : bool := count_loop 0 (max_per_addr l) a (client_chain l).

(** [afd] is what accept() gives, and [alloc] whether memory is left. *)
Definition auditd_tcp_listen_handler (afd : option (Z * bytes)) (alloc : bool) (l : listener) : listener :=
  match afd with
  | None => l
  | Some (afd, a) =>
      let refuse op := l<|notices := notices l ++ [Refuse op a]|> in
      if (sockaddr_to_port a <? min_port l) || (max_port l <? sockaddr_to_port a) then refuse "port"
      else if check_num_connections l a then refuse "dup"
      else if negb alloc then refuse "alloc"
      else l<|client_chain := Client afd a true new_client :: client_chain l|><|notices := notices l ++ [Accept a]|>
  end.

(** The list without the client. *)
Definition release_client (c : client) (l : listener) : listener :=
  l<|client_chain := List.filter (fun x => negb (fd x =? fd c)) (client_chain l)|><|notices := notices l ++ [CloseC (addr c)]|>.

Definition auditd_set_ports (minp maxp max_p_addr : Z) (l : listener) : listener :=
  l<|min_port := minp|><|max_port := maxp|><|max_per_addr := max_p_addr|>.

(** A client that was not active since the last time is closed. *)
Fixpoint idle_loop (cs : list client) (l : listener) : listener :=
  match cs with
  | [] => l
  | c :: cs =>
      let l := l<|client_chain := (fun x => if fd x =? fd c then x<|client_active := false|> else x) <$> client_chain l|> in
      idle_loop cs (if client_active c then l else release_client c l)
  end.
Definition periodic_handler (conf : daemon_conf) (l : listener) : listener :=
  if tcp_client_max_idle conf =? 0 then l else idle_loop (client_chain l) l.

(** Data for the client with descriptor [f]. *)
Definition client_ready (enrich : string -> string) (date : string) (f : Z) (reads : list rd) (l : listener) (d : daemon)
    : option (list rd * listener * daemon) :=
  match List.find (fun c => fd c =? f) (client_chain l) with
  | None => Some (reads, l, d)
  | Some c =>
      '(o, d) ← auditd_tcp_client_handler enrich date (data c) reads d;
      Some (match o with
            | Closed => ([], release_client c l, d)
            | Stay b reads => (reads, l<|client_chain := (fun x => if fd x =? f then x<|client_active := true|><|data := b|> else x) <$> client_chain l|>, d)
            end)
  end.

End listen.

End Listen.
