(* ===== verification/ListenFacts.v ===== *)
(** * Messages of remote clients are neither lost nor cut

    However the bytes of a connection arrive, the handler of auditd-listen.c hands out
    the messages that the client sent, in order, each when its last byte is there. *)
From S2P Require Import Prelude CString StrSplit Config ConfigFacts AuditdConf Os Lol Ellist Lookup AuditdEvent Rmw Listen.
From coqutil Require Import Datatypes.RecordSetters.
Import RecordSetters.TriangleBracketNotations.

Local Open Scope audit_scope.
Local Open Scope string_scope.
Local Open Scope list_scope.
Local Open Scope Z_scope.

Module ListenFacts.
Import Config AuditdConf Lookup AuditdEvent Rmw Listen.

Section facts.
Context {part : Partition} {host : Host} {tabs : Tables} {types : Lol.MsgTypes}.
Context (enrich : string -> string) (date : string).

(** ** Messages *)

Record message := Message { m_type : Z; m_seq : Z; m_text : bytes }.

Definition encode (m : message) : bytes := pack_header 0 (m_type m) (Z.of_nat (length (m_text m))) (m_seq m) ++ m_text m.

Definition fits (m : message) : Prop :=
  0 <= m_type m < two32 /\ 0 <= m_seq m < two32 /\ Z.of_nat (length (m_text m)) + AUDIT_RMW_HEADER_SIZE <= MAX_AUDIT_MESSAGE_LENGTH.

(** The text before a NUL, without a newline at its end. *)
Definition message_text (b : bytes) : string :=
  let b := if at_ b (length b - 1) =? 10 then <[(length b - 1)%nat := 0]> b else b in default "" (c_string (b ++ [0])).

(** What a message makes the daemon do. *)
Definition serve (m : message) (d : daemon) : option daemon :=
  if m_type m =? AUDIT_RMW_TYPE_HEARTBEAT then
    let s := logging d in Some (Daemon (s<|acks := acks s ++ [Ack (m_seq m) AUDIT_RMW_TYPE_ACK ""]|>) (routed d))
  else distribute_event enrich date 0 (create_event (Some (message_text (m_text m))) true (m_seq m)) d.

Fixpoint serve_all (ms : list message) (d : daemon) : option daemon :=
  match ms with [] => Some d | m :: ms => d ← serve m d; serve_all ms d end.

Lemma serve_all_app a b d : serve_all (a ++ b) d = (d ← serve_all a d; serve_all b d).
Proof. revert d. induction a as [|m a IH]; intros d; [done|]. cbn [serve_all app]. destruct (serve m d); [apply IH|done]. Qed.

Lemma wire_length m : length (encode m) = (16 + length (m_text m))%nat.
Proof. unfold encode. by rewrite length_app. Qed.

Lemma encode_unpack m rest : fits m ->
  unpack_header (encode m ++ rest) = Header 0 0 (m_type m) (Z.of_nat (length (m_text m))) (m_seq m).
Proof.
  intros (Ht & Hs & Hl). unfold encode. rewrite <-app_assoc. apply unpack_pack; [lia|done| |done].
  unfold AUDIT_RMW_HEADER_SIZE, MAX_AUDIT_MESSAGE_LENGTH in Hl. lia.
Qed.

Lemma encode_magic m rest n : 4 <= n -> is_magic (encode m ++ rest) n = true.
Proof. intros Hn. unfold encode. rewrite <-app_assoc. by apply magic_pack. Qed.

Lemma c_string_app a b : is_Some (c_string a) -> c_string (a ++ b) = c_string a.
Proof.
  induction a as [|x a IH]; [by intros [? ?]|]. cbn. destruct (x =? 0); [done|]. intros [s Hs].
  destruct (c_string a) as [s'|]; [|done]. by rewrite IH.
Qed.

Lemma c_string_nul a b : is_Some (c_string (a ++ 0 :: b)).
Proof. induction a as [|x a [s IH]]; [by eexists|]. cbn. destruct (x =? 0); [by eexists|]. rewrite IH. by eexists. Qed.

Lemma c_string_end a b : c_string (a ++ 0 :: b) = c_string (a ++ [0]).
Proof. replace (a ++ 0 :: b) with ((a ++ [0]) ++ b) by (by rewrite <-app_assoc). apply c_string_app, c_string_nul. Qed.

Lemma message_serves m x tl d : fits m ->
  exists h', length h' = length (encode m ++ x :: tl) /\ drop (length (encode m)) h' = x :: tl /\
    client_message enrich date (Z.of_nat (length (encode m))) (encode m ++ x :: tl) d = (d' ← serve m d; Some (h', d')).
Proof.
  intros Hm. unfold client_message. pose proof (wire_length m) as Hlen.
  remember (16 + length (m_text m))%nat as n eqn:En. rewrite Hlen.
  rewrite encode_magic by lia. rewrite encode_unpack by done. rewrite Nat2Z.id.
  rewrite lookup_app_r, Hlen, Nat.sub_diag by lia. cbn [lookup list_lookup mbind option_bind h_type h_seq].
  rewrite insert_app_r_alt, Hlen, Nat.sub_diag by lia. cbn [insert list_insert].
  rewrite (proj2 (Z.ltb_lt 1 (Z.of_nat n))) by lia. cbn [andb].
  replace (Z.to_nat (Z.of_nat n - 1)) with (n - 1)%nat by lia.
  set (e := if at_ (encode m ++ 0 :: tl) (n - 1) =? 10 then <[(n - 1)%nat := 0]> (encode m) else encode m).
  assert (He : (if at_ (encode m ++ 0 :: tl) (n - 1) =? 10 then <[(n - 1)%nat := 0]> (encode m ++ 0 :: tl) else encode m ++ 0 :: tl) = e ++ 0 :: tl).
  { unfold e. destruct (_ =? 10); [|done]. by rewrite insert_app_l by lia. }
  assert (Le : length e = n) by (unfold e; destruct (_ =? 10); rewrite ?length_insert; done).
  rewrite He. exists (e ++ x :: tl). split; [rewrite !length_app; cbn; lia|]. split; [rewrite <-Le; apply drop_app_length|].
  assert (Hi : <[n := x]> (e ++ 0 :: tl) = e ++ x :: tl) by (rewrite insert_app_r_alt, Le, Nat.sub_diag by lia; done).
  rewrite Hi. unfold serve. destruct (_ =? AUDIT_RMW_TYPE_HEARTBEAT); [done|].
  assert (Hc : c_string (drop (Z.to_nat AUDIT_RMW_HEADER_SIZE) (e ++ 0 :: tl)) = Some (message_text (m_text m))); [|by rewrite Hc].
  change (Z.to_nat AUDIT_RMW_HEADER_SIZE) with 16%nat. rewrite drop_app_le by lia. rewrite c_string_end.
  assert (Ht : drop 16 e = (if at_ (m_text m) (length (m_text m) - 1) =? 10 then <[(length (m_text m) - 1)%nat := 0]> (m_text m) else m_text m)).
  { assert (Hd : drop 16 (encode m) = m_text m) by done. unfold e.
    destruct (decide (length (m_text m) = O)) as [Hz|Hz].
    - apply nil_length_inv in Hz. rewrite Hz. cbn [length Nat.sub]. change (at_ [] 0 =? 10) with false.
      destruct (_ =? 10); [|by rewrite Hd]. assert (n = 16%nat) as -> by (rewrite Hz in En; done). rewrite drop_insert_lt by lia. by rewrite Hd, Hz.
    - rewrite at_app by lia. assert (Ha : at_ (encode m) (n - 1) = at_ (m_text m) (length (m_text m) - 1)).
      { unfold at_, encode. rewrite lookup_app_r by (rewrite pack_length; lia). rewrite pack_length. do 2 f_equal. lia. }
      rewrite Ha. destruct (at_ (m_text m) (length (m_text m) - 1) =? 10); [|exact Hd]. rewrite drop_insert_ge by lia. rewrite Hd. f_equal. lia. }
  rewrite Ht. unfold message_text. match goal with |- c_string (?x ++ _) = _ => destruct (c_string_nul x []) as [s Hs] end. by rewrite Hs.
Qed.

(** ** The buffer *)

(** The bytes of a client. *)
Definition held (c : io) : bytes := take (Z.to_nat (bufptr c)) (buffer c).

(** The last byte is never written. *)
Definition buffer_ok (b : bytes) : Prop := Z.of_nat (length b) = BUFFER_SIZE /\ last b = Some 0.
Definition sound (c : io) : Prop := 0 <= bufptr c <= MAX_AUDIT_MESSAGE_LENGTH /\ buffer_ok (buffer c).

Lemma held_length c : sound c -> Z.of_nat (length (held c)) = bufptr c.
Proof. intros [Hb [Hl _]]. unfold held. rewrite length_take. unfold BUFFER_SIZE in Hl. lia. Qed.

(** No message is complete. *)
Definition partial (c : io) (ms : list message) : Prop :=
  match ms with [] => bufptr c = 0 | m :: _ => bufptr c < Z.of_nat (length (encode m)) end.

Lemma find_lf_none k b i : 0 <= i -> (forall j, i <= j < i + Z.of_nat k -> at_ b (Z.to_nat j) <> 10) -> find_lf k b i = i + Z.of_nat k.
Proof.
  revert i. induction k as [|k IH]; intros i Hi H; cbn [find_lf]; [lia|]. rewrite (proj2 (Z.eqb_neq _ _)) by (apply H; lia).
  rewrite IH; [lia|lia|]. intros j Hj. apply H. lia.
Qed.

Lemma short_encode m i : (i < 4)%nat -> at_ (encode m) i <> 10.
Proof. intros Hi. destruct i as [|[|[|[|]]]]; [done|done|done|done|lia]. Qed.

Lemma prefix_at (v w x : bytes) i : (i < length v)%nat -> (i < length w)%nat -> forall a b, v ++ a = w ++ b -> at_ (v ++ x) i = at_ w i.
Proof.
  intros Hv Hw a b H. rewrite at_app by done. unfold at_. f_equal. rewrite <-(lookup_app_l v a), H, lookup_app_l by done. done.
Qed.

(** Where the first message ends. *)
Lemma message_end_spec c r m tail rest : 0 <= bufptr c -> 0 < r -> bufptr c + r <= MAX_AUDIT_MESSAGE_LENGTH -> Z.of_nat (length (buffer c)) = BUFFER_SIZE ->
  fits m -> take (Z.to_nat (bufptr c + r)) (buffer c) ++ rest = encode m ++ tail ->
  message_end c r = if bufptr c + r <? Z.of_nat (length (encode m)) then None else Some (Z.of_nat (length (encode m))).
Proof.
  intros Hb Hr Hmax Hl Hm H. unfold message_end. set (n := bufptr c + r) in *. set (v := take (Z.to_nat n) (buffer c)) in *.
  assert (Hv : length v = Z.to_nat n) by (unfold v; rewrite length_take; unfold BUFFER_SIZE in Hl; lia).
  assert (Hbuf : buffer c = v ++ drop (Z.to_nat n) (buffer c)) by (unfold v; by rewrite take_drop).
  pose proof (wire_length m) as He.
  destruct (Z.leb_spec 4 n) as [H4|H4].
  - assert (Hmg : is_magic (buffer c) n = true).
    { rewrite Hbuf, magic_app by lia. rewrite <-(magic_app v rest), H by lia. by apply encode_magic. }
    rewrite Hmg. destruct (Z.ltb_spec n AUDIT_RMW_HEADER_SIZE) as [H16|H16]; unfold AUDIT_RMW_HEADER_SIZE in *.
    { rewrite (proj2 (Z.ltb_lt n _)) by lia. done. }
    assert (Hu : unpack_header (buffer c) = Header 0 0 (m_type m) (Z.of_nat (length (m_text m))) (m_seq m)).
    { rewrite Hbuf, unpack_app by lia. rewrite <-(unpack_app v rest), H by lia. by apply encode_unpack. }
    rewrite Hu. cbn [h_len]. destruct Hm as (_ & _ & Hfit). unfold AUDIT_RMW_HEADER_SIZE in *.
    rewrite (proj2 (Z.ltb_ge MAX_AUDIT_MESSAGE_LENGTH _)) by lia. rewrite He. replace (Z.of_nat (16 + length (m_text m))) with (Z.of_nat (length (m_text m)) + 16) by lia.
    done.
  - assert (Hmg : is_magic (buffer c) n = false) by (unfold is_magic; by rewrite (proj2 (Z.leb_gt 4 n)) by lia). rewrite Hmg.
    rewrite find_lf_none; [|lia|].
    + replace (bufptr c + Z.of_nat (Z.to_nat r)) with n by lia. rewrite Z.eqb_refl. rewrite (proj2 (Z.ltb_lt n _)) by lia. done.
    + intros j Hj. rewrite Hbuf. rewrite (prefix_at v (encode m) _ (Z.to_nat j) ltac:(lia) ltac:(lia) rest tail) by done. apply short_encode. lia.
Qed.

Lemma held_move i n b : 0 <= i <= n -> n <= Z.of_nat (length b) -> held (move_rest i (Io n b)) = drop (Z.to_nat i) (take (Z.to_nat n) b).
Proof.
  intros Hi Hn. unfold held, move_rest. cbn [bufptr buffer]. rewrite take_app_length'; [done|]. rewrite length_drop, length_take. lia.
Qed.

(** What more_messages leaves: it serves [k] messages. *)
Lemma more_serves fuel c r d ms rest : 0 <= bufptr c -> 0 < r -> bufptr c + r <= MAX_AUDIT_MESSAGE_LENGTH -> buffer_ok (buffer c) ->
  Forall fits ms -> take (Z.to_nat (bufptr c + r)) (buffer c) ++ rest = concat (encode <$> ms) -> (Z.to_nat (bufptr c + r) < fuel)%nat ->
  exists k c', (k <= length ms)%nat /\ sound c' /\ held c' ++ rest = concat (encode <$> drop k ms) /\ partial c' (drop k ms) /\
    more_messages fuel enrich date c r d = (d ← serve_all (take k ms) d; Some (if bufptr c' =? 0 then ReadMore c' else Return c', d)).
Proof.
  revert c r d ms. induction fuel as [|fuel IH]; intros c r d ms Hb Hr Hmax Hok Hf H Hfuel; [lia|]. cbn [more_messages].
  pose proof (proj1 Hok) as Hl.
  assert (Hv : length (take (Z.to_nat (bufptr c + r)) (buffer c)) = Z.to_nat (bufptr c + r)) by (rewrite length_take; unfold BUFFER_SIZE in Hl; lia).
  destruct ms as [|m ms].
  { cbn in H. apply app_eq_nil in H as [H _]. rewrite H in Hv. cbn in Hv. lia. }
  apply Forall_cons in Hf as [Hm Hms]. rewrite fmap_cons, concat_cons in H.
  rewrite (message_end_spec c r m (concat (encode <$> ms)) rest) by done.
  destruct (Z.ltb_spec (bufptr c + r) (Z.of_nat (length (encode m)))) as [Hlt|Hge].
  { exists O, (Io (bufptr c + r) (buffer c)). split; [lia|]. split; [split; [cbn; lia|done]|]. split; [done|]. split; [exact Hlt|].
    cbn [take serve_all mbind option_bind bufptr]. by rewrite (proj2 (Z.eqb_neq _ 0)) by lia. }
  set (v := take _ _) in *. set (i := length (encode m)) in *.
  assert (Hsplit : exists v2, v = encode m ++ v2 /\ v2 ++ rest = concat (encode <$> ms)).
  { exists (drop i v). assert (Ht : take i v = encode m).
    { apply (f_equal (take i)) in H. rewrite (take_app_le v) in H by lia. rewrite H. unfold i. by rewrite take_app_length. }
    split; [by rewrite <-Ht, take_drop|]. rewrite <-(take_drop i v), Ht, <-app_assoc in H. by apply app_inv_head in H. }
  destruct Hsplit as (v2 & Hv2 & Hrest).
  assert (Hbuf : buffer c = encode m ++ (v2 ++ drop (Z.to_nat (bufptr c + r)) (buffer c))).
  { rewrite app_assoc, <-Hv2. unfold v. by rewrite take_drop. }
  destruct (v2 ++ drop (Z.to_nat (bufptr c + r)) (buffer c)) as [|x tl] eqn:Etl.
  { apply app_eq_nil in Etl as [_ Etl]. apply (f_equal length) in Etl. rewrite length_drop in Etl. cbn in Etl. unfold BUFFER_SIZE in Hl. lia. }
  destruct (message_serves m x tl d Hm) as (h' & Hh' & Hd' & Hserve). fold i in Hserve, Hd'.
  rewrite <-Hbuf in Hserve, Hh'. rewrite Hserve.
  set (n := bufptr c + r) in *. set (c' := move_rest (Z.of_nat i) (Io n h')).
  match goal with |- context [?x = _] => assert (Hstep : x = (d1 ← serve m d;
    if 0 <? bufptr c' then more_messages fuel enrich date (Io 0 (buffer c')) (bufptr c') d1 else Some (ReadMore c', d1))) by (by destruct (serve m d)) end.
  rewrite Hstep. clear Hstep.
  assert (Hc' : held c' = v2).
  { unfold c'. rewrite held_move by (unfold BUFFER_SIZE in Hl; lia). rewrite Nat2Z.id. rewrite skipn_firstn_comm, Hd', <-Etl.
    apply (f_equal length) in Hv2. rewrite length_app in Hv2. rewrite take_app_length'; [done|]. fold i in Hv2. lia. }
  assert (Hn' : bufptr c' = n - Z.of_nat i) by done.
  assert (Hl' : buffer_ok (buffer c')).
  { unfold c', move_rest. cbn [buffer bufptr]. split; [rewrite length_app, !length_drop, length_take; unfold BUFFER_SIZE in *; lia|].
    assert (Hlast : last h' = Some 0).
    { destruct Hok as [_ Hlast]. rewrite Hbuf in Hlast. rewrite <-(take_drop i h'), Hd'. rewrite last_app_cons in *. done. }
    rewrite <-(take_drop (Z.to_nat (n - Z.of_nat i)) h') in Hlast.
    destruct (drop (Z.to_nat (n - Z.of_nat i)) h') as [|y ys] eqn:Ey.
    { apply (f_equal length) in Ey. rewrite length_drop in Ey. cbn in Ey. unfold BUFFER_SIZE in Hl. lia. }
    rewrite last_app_cons in *. done. }
  destruct (Z.ltb_spec 0 (bufptr c')) as [Hpos|Hzero].
  - assert (Hi16 : (16 <= i)%nat) by (unfold i; rewrite wire_length; lia).
    unfold held in Hc'. destruct (serve m d) as [d1|] eqn:Es; cbn [mbind option_bind].
    + destruct (IH (Io 0 (buffer c')) (bufptr c') d1 ms) as (k & c2 & Hk & Hs & Hrest2 & Hp & ->); cbn [bufptr buffer]; [lia|lia|lia|done|done| |lia|].
      { rewrite Z.add_0_l, Hc'. done. }
      exists (S k), c2. cbn [take drop firstn skipn]. split; [cbn; lia|]. split_and!; try done. cbn [serve_all]. by rewrite Es.
    + destruct (IH (Io 0 (buffer c')) (bufptr c') d ms) as (k & c2 & Hk & Hs & Hrest2 & Hp & _); cbn [bufptr buffer]; [lia|lia|lia|done|done| |lia|].
      { rewrite Z.add_0_l, Hc'. done. }
      exists (S k), c2. cbn [take drop firstn skipn]. split; [cbn; lia|]. split_and!; try done. cbn [serve_all]. by rewrite Es.
  - assert (Hz : bufptr c' = 0) by lia. assert (v2 = []) as ->.
    { rewrite <-Hc'. unfold held. by rewrite Hz. }
    exists 1%nat, c'. cbn [take drop firstn skipn length]. rewrite drop_0. split; [lia|]. split; [split; [lia|done]|]. split; [by rewrite Hc'|].
    split.
    { unfold partial. destruct ms as [|m2 ms2]; [done|]. rewrite Hz. pose proof (wire_length m2). lia. }
    cbn [serve_all]. rewrite Hz. cbn [Z.eqb]. destruct (serve m d); [|done]. cbn [mbind option_bind]. rewrite take_0. done.
Qed.


(** ** The socket *)

Definition stream (reads : list rd) : bytes := concat ((fun x => match x with Data b => b | _ => [] end) <$> reads).

Definition is_data (x : rd) : Prop := match x with Data (_ :: _) => True | _ => False end.

Lemma pending_stream reads : pending reads = length (stream reads).
Proof. unfold stream. induction reads as [|[b| |] reads IH]; cbn; [done|by rewrite length_app, <-IH|done|done]. Qed.

Lemma read_data asked reads : Forall is_data reads -> (0 < asked)%nat -> reads <> [] ->
  exists x b reads', sock_read asked reads = (Some (x :: b), reads') /\ (length (x :: b) <= asked)%nat /\ Forall is_data reads' /\ stream reads = (x :: b) ++ stream reads'.
Proof.
  intros Hd Ha Hne. destruct reads as [|[b| |] reads]; [done| |by apply Forall_cons in Hd as [? _]..].
  apply Forall_cons in Hd as [Hb Hd]. destruct b as [|x b]; [done|]. destruct asked as [|asked]; [lia|]. cbn [sock_read take drop firstn skipn].
  eexists x, (take asked b), _. split; [done|]. split; [cbn; rewrite length_take; lia|].
  assert (Hs : stream (Data (x :: b) :: reads) = x :: take asked b ++ drop asked b ++ stream reads).
  { unfold stream. cbn. by rewrite app_assoc, take_drop. }
  destruct (drop asked b) as [|y rest] eqn:E; [done|]. split; [by constructor|]. by rewrite Hs.
Qed.

Lemma write_at_held c x b : sound c -> bufptr c + Z.of_nat (length (x :: b)) <= MAX_AUDIT_MESSAGE_LENGTH ->
  take (Z.to_nat (bufptr c + Z.of_nat (length (x :: b)))) (Os.write_at (buffer c) (Z.to_nat (bufptr c)) (x :: b)) = held c ++ x :: b /\
  buffer_ok (Os.write_at (buffer c) (Z.to_nat (bufptr c)) (x :: b)).
Proof.
  intros [Hb [Hl Hlast]] Hm. unfold buffer_ok, BUFFER_SIZE in *. unfold Os.write_at. set (y := x :: b) in *.
  replace (Z.to_nat (bufptr c) - length (buffer c))%nat with O by lia. cbn [replicate]. rewrite app_nil_r.
  assert (Ht : length (take (Z.to_nat (bufptr c)) (buffer c)) = Z.to_nat (bufptr c)) by (rewrite length_take; lia). split.
  - rewrite app_assoc. rewrite take_app_length'; [done|]. rewrite length_app, Ht. lia.
  - split; [rewrite !length_app, Ht, length_drop; lia|]. rewrite <-(take_drop (Z.to_nat (bufptr c) + length y) (buffer c)) in Hlast.
    destruct (drop (Z.to_nat (bufptr c) + length y) (buffer c)) as [|z zs] eqn:Ez.
    { apply (f_equal length) in Ez. rewrite length_drop in Ez. cbn [length] in Ez. lia. }
    rewrite app_assoc. rewrite last_app_cons in *. done.
Qed.

Lemma partial_room c ms : sound c -> Forall fits ms -> partial c ms -> bufptr c < MAX_AUDIT_MESSAGE_LENGTH.
Proof.
  intros [Hb _] Hf Hp. destruct ms as [|m ms]; unfold partial in Hp; [rewrite Hp; done|]. apply Forall_cons in Hf as [(_ & _ & Hm) _].
  rewrite wire_length in Hp. unfold AUDIT_RMW_HEADER_SIZE in Hm. lia.
Qed.

(** One call of the handler. *)
Lemma handler_serves fuel c total reads d ms rest : sound c -> Forall fits ms -> partial c ms -> Forall is_data reads -> 0 <= total -> reads <> [] \/ 0 < total ->
  held c ++ stream reads ++ rest = concat (encode <$> ms) -> (pending reads + 1 < fuel)%nat ->
  exists k c' reads', (k <= length ms)%nat /\ sound c' /\ partial c' (drop k ms) /\ Forall is_data reads' /\
    held c' ++ stream reads' ++ rest = concat (encode <$> drop k ms) /\ (pending reads' <= pending reads)%nat /\ (reads <> [] -> (pending reads' < pending reads)%nat) /\
    client_handler fuel enrich date c total reads d = (d ← serve_all (take k ms) d; Some (Stay c' reads', d)).
Proof.
  revert c total reads d ms. induction fuel as [|fuel IH]; intros c total reads d ms Hc Hf Hp Hd Ht Hor H Hfuel; [lia|]. cbn [client_handler].
  destruct (decide (reads = [])) as [->|Hne].
  { destruct Hor as [?|Hpos]; [done|]. exists O, c, []. cbn [sock_read]. rewrite (proj2 (Z.ltb_lt 0 total)) by done. rewrite bool_decide_true by done. split_and!; try done. lia. }
  pose proof (partial_room c ms Hc Hf Hp) as Hroom.
  destruct (read_data (Z.to_nat (MAX_AUDIT_MESSAGE_LENGTH - bufptr c)) reads Hd ltac:(lia) Hne) as (x & b & reads' & -> & Hlen & Hd' & Hs).
  assert (Hb0 : 0 <= bufptr c) by apply Hc.
  assert (Hxb : 0 < Z.of_nat (length (x :: b))) by (cbn; lia).
  destruct (write_at_held c x b Hc ltac:(lia)) as [Hw Hwl]. set (r := Z.of_nat (length (x :: b))) in *.
  set (c1 := Io (bufptr c) (Os.write_at (buffer c) (Z.to_nat (bufptr c)) (x :: b))).
  destruct (more_serves (S (Z.to_nat (bufptr c1 + r))) c1 r d ms (stream reads' ++ rest)) as (k & c2 & Hk & Hc2 & Hrest & Hp2 & Hmore);
    [done|lia|cbn [c1 bufptr]; lia|exact Hwl|done| |lia|].
  { cbn [c1 bufptr buffer]. rewrite Hw. rewrite <-app_assoc. rewrite Hs, <-app_assoc in H. exact H. }
  rewrite Hmore. assert (Hpend : (pending reads' < pending reads)%nat) by (rewrite !pending_stream, Hs, length_app; cbn [length]; lia).
  destruct (Z.eqb_spec (bufptr c2) 0) as [Hz|Hz].
  - destruct (serve_all (take k ms) d) as [d1|] eqn:Es; cbn [mbind option_bind].
    + destruct (IH c2 (total + r) reads' d1 (drop k ms)) as (k2 & c3 & r3 & Hk2 & Hc3 & Hp3 & Hd3 & Hr3 & Hle & _ & ->);
        [done|by apply Forall_drop|done|done|lia|right; lia|done|lia|].
      exists (k + k2)%nat, c3, r3. rewrite length_drop in Hk2. rewrite drop_drop in Hp3, Hr3. split_and!; try done; try lia.
      by rewrite <-take_take_drop, serve_all_app, Es.
    + destruct (IH c2 (total + r) reads' d (drop k ms)) as (k2 & c3 & r3 & Hk2 & Hc3 & Hp3 & Hd3 & Hr3 & Hle & _ & _);
        [done|by apply Forall_drop|done|done|lia|right; lia|done|lia|].
      exists (k + k2)%nat, c3, r3. rewrite length_drop in Hk2. rewrite drop_drop in Hp3, Hr3. split_and!; try done; try lia.
      by rewrite <-take_take_drop, serve_all_app, Es.
  - exists k, c2, reads'. split_and!; try done; [lia|]. by destruct (serve_all (take k ms) d).
Qed.


(** ** A connection *)

(** The event loop calls the handler while the socket has data. *)
Fixpoint serve_burst (fuel : nat) (c : io) (reads : list rd) (d : daemon) : option (outcome * daemon) :=
  match fuel, reads with
  | _, [] => Some (Stay c [], d)
  | O, _ => None
  | S fuel, _ =>
      '(o, d) ← auditd_tcp_client_handler enrich date c reads d;
      match o with Closed => Some (Closed, d) | Stay c reads => serve_burst fuel c reads d end
  end.

(** The data comes in bursts. *)
Fixpoint serve_bursts (c : io) (bursts : list (list rd)) (d : daemon) : option (outcome * daemon) :=
  match bursts with
  | [] => Some (Stay c [], d)
  | reads :: bursts =>
      '(o, d) ← serve_burst (pending reads) c reads d;
      match o with Closed => Some (Closed, d) | Stay c _ => serve_bursts c bursts d end
  end.

Lemma burst_serves fuel c reads d ms rest : sound c -> Forall fits ms -> partial c ms -> Forall is_data reads ->
  held c ++ stream reads ++ rest = concat (encode <$> ms) -> (pending reads <= fuel)%nat ->
  exists k c', (k <= length ms)%nat /\ sound c' /\ partial c' (drop k ms) /\ held c' ++ rest = concat (encode <$> drop k ms) /\
    serve_burst fuel c reads d = (d ← serve_all (take k ms) d; Some (Stay c' [], d)).
Proof.
  revert c reads d ms. induction fuel as [|fuel IH]; intros c reads d ms Hc Hf Hp Hd H Hfuel.
  { destruct reads as [|x reads]; [exists O, c; split_and!; done || lia|]. apply Forall_cons in Hd as [Hx _]. destruct x as [[|y b]| |]; try done. cbn in Hfuel. lia. }
  destruct reads as [|x reads]; [exists O, c; split_and!; done || lia|]. cbn [serve_burst]. set (rs := x :: reads) in *. unfold auditd_tcp_client_handler.
  destruct (handler_serves (S (S (pending rs))) c 0 rs d ms rest) as (k & c1 & r1 & Hk & Hc1 & Hp1 & Hd1 & Hr1 & _ & Hlt & ->);
    [done|done|done|done|lia|by left|done|lia|]. specialize (Hlt ltac:(done)).
  destruct (serve_all (take k ms) d) as [d1|] eqn:Es; cbn [mbind option_bind].
  - destruct (IH c1 r1 d1 (drop k ms)) as (k2 & c2 & Hk2 & Hc2 & Hp2 & Hr2 & ->); [done|by apply Forall_drop|done|done|done|lia|].
    exists (k + k2)%nat, c2. rewrite length_drop in Hk2. rewrite drop_drop in Hp2, Hr2. split_and!; try done; [lia|].
    by rewrite <-take_take_drop, serve_all_app, Es.
  - destruct (IH c1 r1 d (drop k ms)) as (k2 & c2 & Hk2 & Hc2 & Hp2 & Hr2 & _); [done|by apply Forall_drop|done|done|done|lia|].
    exists (k + k2)%nat, c2. rewrite length_drop in Hk2. rewrite drop_drop in Hp2, Hr2. split_and!; try done; [lia|].
    by rewrite <-take_take_drop, serve_all_app, Es.
Qed.

Lemma bursts_serve bursts c d ms rest : sound c -> Forall fits ms -> partial c ms -> Forall (Forall is_data) bursts ->
  held c ++ concat (stream <$> bursts) ++ rest = concat (encode <$> ms) ->
  exists k c', (k <= length ms)%nat /\ sound c' /\ partial c' (drop k ms) /\ held c' ++ rest = concat (encode <$> drop k ms) /\
    serve_bursts c bursts d = (d ← serve_all (take k ms) d; Some (Stay c' [], d)).
Proof.
  revert c d ms. induction bursts as [|reads bursts IH]; intros c d ms Hc Hf Hp Hd H; [exists O, c; split_and!; done || lia|].
  apply Forall_cons in Hd as [Hd Hds]. cbn [serve_bursts]. rewrite fmap_cons, concat_cons, <-app_assoc in H.
  destruct (burst_serves (pending reads) c reads d ms (concat (stream <$> bursts) ++ rest)) as (k & c1 & Hk & Hc1 & Hp1 & Hr1 & ->); [done..|].
  destruct (serve_all (take k ms) d) as [d1|] eqn:Es; cbn [mbind option_bind].
  - destruct (IH c1 d1 (drop k ms)) as (k2 & c2 & Hk2 & Hc2 & Hp2 & Hr2 & ->); [done|by apply Forall_drop|done|done|done|].
    exists (k + k2)%nat, c2. rewrite length_drop in Hk2. rewrite drop_drop in Hp2, Hr2. split_and!; try done; [lia|].
    by rewrite <-take_take_drop, serve_all_app, Es.
  - destruct (IH c1 d (drop k ms)) as (k2 & c2 & Hk2 & Hc2 & Hp2 & Hr2 & _); [done|by apply Forall_drop|done|done|done|].
    exists (k + k2)%nat, c2. rewrite length_drop in Hk2. rewrite drop_drop in Hp2, Hr2. split_and!; try done; [lia|].
    by rewrite <-take_take_drop, serve_all_app, Es.
Qed.

Lemma new_sound : sound new_client.
Proof. split; [done|]. unfold new_client. cbn [buffer]. split; [by rewrite length_replicate|]. vm_compute. reflexivity. Qed.

(** C2: However TCP cuts the bytes of a client into reads and wake-ups, the handler gives
    the daemon exactly the messages that were received completely, in order and with
    their texts and sequence numbers, and holds the bytes of the next one: [rest] is
    what was sent and has not arrived.  This is while data arrives ([is_data]: at the end
    of the stream a part of a message is logged too) and for messages that fit into the
    buffer with their header ([fits]: a text of at most 8954 bytes; a longer one is cut). *)
Theorem client_stream ms bursts rest d : Forall fits ms -> Forall (Forall is_data) bursts ->
  concat (stream <$> bursts) ++ rest = concat (encode <$> ms) ->
  exists k c', (k <= length ms)%nat /\ held c' ++ rest = concat (encode <$> drop k ms) /\
    (forall m ms', drop k ms = m :: ms' -> (length (held c') < length (encode m))%nat) /\
    serve_bursts new_client bursts d = (d ← serve_all (take k ms) d; Some (Stay c' [], d)).
Proof.
  intros Hf Hd H. destruct (bursts_serve bursts new_client d ms rest) as (k & c' & Hk & Hc & Hp & Hr & ->);
    [apply new_sound|done|by destruct ms|done|done|].
  exists k, c'. split_and!; try done. intros m ms' E. rewrite E in Hp. unfold partial in Hp. apply held_length in Hc. lia.
Qed.


(** ** Connections *)

Definition matching (a : bytes) (cs : list client) : Z := Z.of_nat (length (List.filter (fun c => same_addr a (addr c)) cs)).

Lemma count_loop_false num max a cs : count_loop num max a cs = false -> matching a cs = 0 \/ num + matching a cs < max.
Proof.
  revert num. induction cs as [|c cs IH]; intros num; cbn [count_loop]; [by left|]. unfold matching in *. cbn [List.filter].
  destruct (same_addr a (addr c)); [|apply IH]. destruct (Z.leb_spec max (num + 1)); [done|]. intros Hc%IH. right. cbn [length]. lia.
Qed.

(** Every client was within the limit when it came. *)
Fixpoint chain_ok (max : Z) (cs : list client) : Prop :=
  match cs with [] => True | c :: cs => 1 + matching (addr c) cs <= Z.max 1 max /\ chain_ok max cs end.

Lemma matching_filter a f cs : matching a (List.filter f cs) <= matching a cs.
Proof.
  unfold matching. induction cs as [|c cs IH]; cbn [List.filter]; [lia|].
  destruct (f c); cbn [List.filter]; destruct (same_addr a (addr c)); cbn [length]; lia.
Qed.

Lemma chain_filter max f cs : chain_ok max cs -> chain_ok max (List.filter f cs).
Proof.
  induction cs as [|c cs IH]; cbn [chain_ok List.filter]; [done|]. intros [H1 H2]. destruct (f c); [|by apply IH]. cbn [chain_ok].
  split; [|by apply IH]. pose proof (matching_filter (addr c) f cs). lia.
Qed.

Lemma matching_map a g cs : (forall c, addr (g c) = addr c) -> matching a (g <$> cs) = matching a cs.
Proof.
  intros Hg. unfold matching. induction cs as [|c cs IH]; [done|]. rewrite fmap_cons. cbn [List.filter]. rewrite Hg.
  destruct (same_addr a (addr c)); cbn [length]; lia.
Qed.

Lemma chain_map max g cs : (forall c, addr (g c) = addr c) -> chain_ok max cs -> chain_ok max (g <$> cs).
Proof.
  intros Hg. induction cs as [|c cs IH]; [done|]. rewrite fmap_cons. cbn [chain_ok]. intros [H1 H2]. rewrite Hg, matching_map by done. split; [done|by apply IH].
Qed.

Definition listener_ok (max : Z) (l : listener) : Prop := max_per_addr l = max /\ chain_ok max (client_chain l).

Lemma release_ok max c l : listener_ok max l -> listener_ok max (release_client c l).
Proof.
  intros [Hm Hc]. assert (E : max_per_addr (release_client c l) = max_per_addr l /\
    client_chain (release_client c l) = List.filter (fun x => negb (fd x =? fd c)) (client_chain l)) by (by destruct l).
  destruct E as [E1 E2]. split; [congruence|]. rewrite E2. by apply chain_filter.
Qed.

Lemma idle_ok max cs l : listener_ok max l -> listener_ok max (idle_loop cs l).
Proof.
  revert l. induction cs as [|c cs IH]; intros l Hl; [done|]. cbn [idle_loop]. apply IH. set (l1 := l<|client_chain := _|>).
  assert (Hl1 : listener_ok max l1).
  { destruct Hl as [Hm Hc]. assert (E : max_per_addr l1 = max_per_addr l /\
      client_chain l1 = (fun x => if fd x =? fd c then x<|client_active := false|> else x) <$> client_chain l) by (unfold l1; by destruct l).
    destruct E as [E1 E2]. split; [congruence|]. rewrite E2. apply chain_map; [|done]. intros x. destruct (fd x =? fd c); by destruct x. }
  destruct (client_active c); [done|]. by apply release_ok.
Qed.

(** The events of the listener. *)
Inductive lstep : listener -> listener -> Prop :=
  | lstep_accept afd alloc l : lstep l (auditd_tcp_listen_handler afd alloc l)
  | lstep_idle conf l : lstep l (periodic_handler conf l)
  | lstep_data f reads reads' l l' d d' : client_ready enrich date f reads l d = Some (reads', l', d') -> lstep l l'.

Lemma lstep_ok max l l' : lstep l l' -> listener_ok max l -> listener_ok max l'.
Proof.
  intros [afd alloc l0|conf l0|f reads reads' l0 l1 d d' Hr] Hl.
  - destruct afd as [[afd a]|]; [|done]. cbn [auditd_tcp_listen_handler].
    assert (Href : forall op, listener_ok max (l0<|notices := notices l0 ++ [Refuse op a]|>)) by (intros op; destruct Hl; by split; destruct l0).
    destruct (_ || _); [apply Href|]. destruct (check_num_connections l0 a) eqn:Hn; [apply Href|]. destruct (negb alloc); [apply Href|].
    destruct Hl as [Hm Hc]. set (l1 := l0<|client_chain := _|><|notices := _|>).
    assert (E : max_per_addr l1 = max_per_addr l0 /\ client_chain l1 = Client afd a true new_client :: client_chain l0) by (unfold l1; by destruct l0).
    destruct E as [E1 E2]. split; [congruence|]. rewrite E2. cbn [chain_ok addr]. split; [|done].
    apply count_loop_false in Hn. rewrite Hm in Hn. lia.
  - unfold periodic_handler. destruct (_ =? 0); [done|]. by apply idle_ok.
  - unfold client_ready in Hr. destruct (List.find _ _) as [c|]; [|by injection Hr as _ <- _].
    destruct (auditd_tcp_client_handler enrich date (data c) reads d) as [[o d1]|]; [|done]. cbn [mbind option_bind] in Hr.
    destruct o as [b rs|]; injection Hr as _ <- _; [|by apply release_ok].
    destruct Hl as [Hm Hc]. match goal with |- listener_ok _ ?x => set (l2 := x) end.
    assert (E : max_per_addr l2 = max_per_addr l0 /\
      client_chain l2 = (fun x => if fd x =? f then x<|client_active := true|><|data := b|> else x) <$> client_chain l0) by (unfold l2; by destruct l0).
    destruct E as [E1 E2]. split; [congruence|]. rewrite E2. apply chain_map; [|done]. intros x. destruct (fd x =? f); by destruct x.
Qed.

(** The clients with an IPv4 address, or with an IPv6 address. *)
Definition from_addr (family : Z) (a : bytes) (c : client) : bool :=
  (ss_family (addr c) =? family) && if family =? AF_INET then bool_decide (Os.slice (addr c) 4 4 = a) else bool_decide (Os.slice (addr c) 8 16 = a).

Lemma from_addr_bound max family a cs : chain_ok max cs -> Z.of_nat (length (List.filter (from_addr family a) cs)) <= Z.max 1 max.
Proof.
  induction cs as [|c cs IH]; cbn [chain_ok List.filter]; [cbn; lia|]. intros [H1 H2]. destruct (from_addr family a c) eqn:Hc; [|by apply IH].
  cbn [length]. etrans; [|exact H1]. unfold matching. enough (length (List.filter (from_addr family a) cs) <=
    length (List.filter (fun x => same_addr (addr c) (addr x)) cs))%nat by lia.
  clear -Hc. unfold from_addr in Hc. apply andb_prop in Hc as [Hf Hc]. apply Z.eqb_eq in Hf.
  induction cs as [|x cs IH]; cbn [List.filter]; [lia|]. destruct (from_addr family a x) eqn:Hx.
  - assert (same_addr (addr c) (addr x) = true) as ->; [|cbn [length]; lia].
    unfold from_addr in Hx. apply andb_prop in Hx as [_ Hx]. unfold same_addr. rewrite Hf.
    destruct (family =? AF_INET); apply bool_decide_eq_true in Hc, Hx; apply bool_decide_eq_true; congruence.
  - destruct (same_addr _ _); cbn [length]; lia.
Qed.

(** C3: Whatever connections come, send, idle and go, no address has more than
    [tcp_max_per_addr] connections at a time (one, if the setting is 0). *)
Theorem connections_limited minp maxp max l family a : rtc lstep (Listener [] minp maxp max []) l ->
  Z.of_nat (length (List.filter (from_addr family a) (client_chain l))) <= Z.max 1 max.
Proof.
  intros H. apply from_addr_bound. assert (Hok : listener_ok max l); [|apply Hok].
  assert (H0 : listener_ok max (Listener [] minp maxp max [])) by (by split).
  induction H as [|x y z Hs _ IH]; [done|]. apply IH. by eapply lstep_ok.
Qed.


End facts.

End ListenFacts.
