(* ===== verification/Remote.v ===== *)
(** * The remote logging plugin (src/audisp/plugins/remote/audisp-remote.c)

    audisp-remote keeps the events of its machine in a queue and sends them to the
    daemon of another machine; an event leaves the queue when it was answered.  The
    static variables are the record [plugin].  The network is a class: its calls give
    any results, and a call that was interrupted has been repeated.  Signals arrive
    between the operations.  Without Kerberos, an option of the build; messages to
    syslog are left out. *)
From S2P Require Import Prelude CString StrSplit Config RemoteConf Os RemoteQueue Rmw AuditdEvent.
From coqutil Require Import Datatypes.RecordSetters.
Import RecordSetters.TriangleBracketNotations.

Local Open Scope audit_scope.
Local Open Scope string_scope.
Local Open Scope list_scope.
Local Open Scope Z_scope.

(** ** The network *)

Inductive setup := Socket | LocalLookup | Bind | Connect | Fork.

(** poll() and read(): nothing in time, an error, the end (and whether errno is
    still 0), data. *)
Inductive received := RTimeout | RError (e : Z) | REnd (clean : bool) | RData (b : bytes).

Class Net (N : Type) := {
  net_time : N -> Z * N;
  net_resolve : N -> (Z + nat) * N;
  net_setup : setup -> N -> bool * N;
  net_close : N -> N;
  net_write : bytes -> N -> Os.result nat * N;
  net_read : nat -> N -> received * N;
}.

Module Remote.
Import RemoteConf Rmw.

Definition EPIPE : Z := 32.
Definition EAI_NONAME : Z := -2.
Definition EAI_NODATA : Z := -5.
Definition ET_SUCCESS : Z := 0.
Definition ET_PERMANENT : Z := -1.
Definition ET_TEMPORARY : Z := -2.

Definition AUDIT_RMW_TYPE_DISKLOW : Z := AuditdEvent.AUDIT_RMW_TYPE_DISKLOW.
Definition AUDIT_RMW_TYPE_DISKFULL : Z := AuditdEvent.AUDIT_RMW_TYPE_DISKFULL.
Definition AUDIT_RMW_TYPE_DISKERROR : Z := AuditdEvent.AUDIT_RMW_TYPE_DISKERROR.
Definition MAX_AUDIT_MESSAGE_LENGTH : Z := AuditdEvent.MAX_AUDIT_MESSAGE_LENGTH.

(** What is done outside of the program. *)
Inductive effect := Exec (exe : string) (msg : bytes) | RunLevel (level : string).

Section remote.
Context {N : Type} {isnet : Net N}.

(** [sock] is whether there is a socket. *)
Record plugin := Plugin {
  config : remote_conf;
  stop : bool;
  suspend : bool;
  transport_ok : bool;
  sock : bool;
  remote_ended : bool;
  warned : Z;
  sequence_id : Z;
  connected_once : bool;
  net : N;
  effects : list effect;
}.

Implicit Types st : plugin.

(** ** Actions *)

Definition change_runlevel (level : string) st : plugin :=
  let (ok, n) := net_setup Fork (net st) in
  let st := st<|net := n|> in
  if (ok : bool) then st<|effects := effects st ++ [RunLevel level]|> else st.

Definition safe_exec (exe : option string) (msg : bytes) st : plugin :=
  match exe with
  | None => st
  | Some exe =>
      let (ok, n) := net_setup Fork (net st) in
      let st := st<|net := n|> in
      if (ok : bool) then st<|effects := effects st ++ [Exec exe msg]|> else st
  end.

Definition SINGLE : string := "1".
Definition HALT : string := "0".

Definition do_action (msg : bytes) (action : failure_action_t) (exe : option string) st : Z * plugin :=
  match action with
  | FA_IGNORE | FA_SYSLOG => (0, st)
  | FA_EXEC => (0, safe_exec exe msg st)
  | FA_WARN_ONCE_CONT => if Z.testbit (warned st) 0 then (-1, st) else (0, st<|warned := Z.lor (warned st) 1|>)
  | FA_WARN_ONCE => if Z.testbit (warned st) 1 then (-1, st) else (-1, st<|warned := Z.lor (warned st) 2|>)
  | FA_SUSPEND => (-1, st<|suspend := true|>)
  | FA_RECONNECT => (-1, st)
  | FA_SINGLE => (-1, change_runlevel SINGLE st)
  | FA_HALT => (-1, change_runlevel HALT st)
  | FA_STOP => (-1, st<|stop := true|>)
  end.

Definition network_failure_handler msg st := do_action msg (network_failure_action (config st)) (network_failure_exe (config st)) st.
Definition remote_disk_low_handler msg st := do_action msg (disk_low_action (config st)) (disk_low_exe (config st)) st.
Definition remote_disk_full_handler msg st := do_action msg (disk_full_action (config st)) (disk_full_exe (config st)) st.
Definition remote_disk_error_handler msg st := do_action msg (disk_error_action (config st)) (disk_error_exe (config st)) st.
Definition generic_remote_error_handler msg st := do_action msg (generic_error_action (config st)) (generic_error_exe (config st)) st.
Definition generic_remote_warning_handler msg st := do_action msg (generic_warning_action (config st)) (generic_warning_exe (config st)) st.
Definition startup_failure_handler msg st := do_action msg (startup_failure_action (config st)) (startup_failure_exe (config st)) st.
Definition queue_error st : plugin := (do_action [] (queue_error_action (config st)) (queue_error_exe (config st)) st).2.

Definition do_overflow_action st : plugin :=
  match overflow_action (config st) with
  | OA_IGNORE | OA_SYSLOG => st
  | OA_SUSPEND => st<|suspend := true|>
  | OA_SINGLE => change_runlevel SINGLE st
  | OA_HALT => change_runlevel HALT st
  end.

(** ** The transport *)

Definition stop_sock st : plugin :=
  (if sock st then st<|net := net_close (net st)|> else st)<|sock := false|><|transport_ok := false|>.

Definition has_transport st : bool := match transport (config st) with T_TCP | T_KRB5 => true | _ => false end.
Definition stop_transport st : plugin := if has_transport st then stop_sock st else st.

Definition remote_server_ending_handler (msg : bytes) st : Z * plugin :=
  let st := (stop_transport st)<|remote_ended := true|> in
  do_action msg (remote_ending_action (config st)) (remote_ending_exe (config st)) st.

Definition call (c : setup) st : bool * plugin := let (ok, n) := net_setup c (net st) in (ok, st<|net := n|>).

(** The addresses of the server, one after the other. *)
Fixpoint connect_loop (n : nat) st : bool * plugin :=
  match n with
  | O => (false, st)
  | S n =>
      let st := if sock st then st<|net := net_close (net st)|> else st in
      match call Socket st with
      | (false, st) => connect_loop n (st<|sock := false|>)
      | (true, st) =>
          let st := st<|sock := true|> in
          let (ok, st) :=
            if local_port (config st) =? 0 then (true, st)
            else match call LocalLookup st with
                 | (false, st) => (false, stop_sock st)
                 | (true, st) => match call Bind st with
                                 | (false, st) => (false, stop_sock st)
                                 | (true, st) => (true, st)
                                 end
                 end in
          if (ok : bool) then
            match call Connect st with
            | (false, st) => connect_loop n (stop_sock st)
            | (true, st) => (true, st)
            end
          else connect_loop n st
      end
  end.

Definition init_sock st : Z * plugin :=
  if sock st then (ET_SUCCESS, st<|transport_ok := true|>)
  else
    let (r, n) := net_resolve (net st) in
    let st := st<|net := n|> in
    match r with
    | inl rc => (if (rc =? EAI_NONAME) || (rc =? EAI_NODATA) then ET_PERMANENT else ET_TEMPORARY, st)
    | inr k => match connect_loop k st with
               | (false, st) => (ET_PERMANENT, st)
               | (true, st) => (ET_SUCCESS, st<|transport_ok := true|>)
               end
    end.

Definition init_transport st : Z * plugin :=
  if has_transport st then
    let (rc, st) := init_sock st in
    (rc, if rc =? ET_TEMPORARY then st<|remote_ended := true|> else st)
  else (ET_PERMANENT, st).

(** write() until all is written; every turn writes a byte. *)
Fixpoint ar_write_loop (fuel : nat) (buf : bytes) (rc : Z) st : Z * plugin :=
  match fuel, buf with
  | O, _ | _, [] => (rc, st)
  | S fuel, _ =>
      let (r, n) := net_write buf (net st) in
      let st := st<|net := n|> in
      match r with
      | Os.Error e => (-1, if e =? EPIPE then stop_sock st else st)
      | Os.Ok O => (rc, st)
      | Os.Ok w => ar_write_loop fuel (drop w buf) (rc + Z.of_nat (Nat.min w (length buf))) st
      end
  end.
Definition ar_write (buf : bytes) st : Z * plugin := ar_write_loop (length buf) buf 0 st.

(** read() until [len] bytes are there: the result and the bytes. *)
Fixpoint ar_read_loop (fuel : nat) (len : nat) (got : bytes) st : Z * bytes * plugin :=
  match fuel, len with
  | O, _ | _, O => (Z.of_nat (length got), got, st)
  | S fuel, _ =>
      let (r, n) := net_read len (net st) in
      let st := st<|net := n|> in
      match r with
      | RTimeout => (-1, got, st)
      | RError e => (-1, got, if e =? EPIPE then stop_sock st else st)
      | REnd clean => (Z.of_nat (length got), got, if (clean : bool) then (stop_sock st)<|remote_ended := true|> else st)
      | RData b => ar_read_loop fuel (len - length b) (got ++ take len b) st
      end
  end.
Definition ar_read (len : nat) st : Z * bytes * plugin := ar_read_loop len len [] st.

Definition send_msg_tcp (header : bytes) (msg : option bytes) st : Z * plugin :=
  let (rc, st) := ar_write header st in
  if rc <=? 0 then (1, st)
  else match msg with
       | Some m => if 0 <? Z.of_nat (length m) then let (rc, st) := ar_write m st in if rc <=? 0 then (1, st) else (0, st) else (0, st)
       | None => (0, st)
       end.

(** The result, the header and the text.  The result of the second ar_read() is
    compared as an unsigned number. *)
Definition recv_msg_tcp st : Z * bytes * bytes * plugin :=
  let '(rc, h, st) := ar_read (Z.to_nat AUDIT_RMW_HEADER_SIZE) st in
  if rc <? 16 then (-1, h, [], st)
  else if negb (is_magic h AUDIT_RMW_HEADER_SIZE) then (-1, h, [], st)
  else
    let rlen := h_len (unpack_header h) in
    if MAX_AUDIT_MESSAGE_LENGTH <? rlen then (-1, h, [], st)
    else if 0 <? rlen then
      let '(rc, m, st) := ar_read (Z.to_nat rlen) st in
      if u32 rc <? rlen then (-1, h, m, st) else (0, h, m, st)
    else (0, h, [], st).

(** ** Relaying *)

(** What an answer makes the plugin do. *)
Definition handle_answer (type : Z) (msg : bytes) st : Z * plugin :=
  if type =? AUDIT_RMW_TYPE_DISKLOW then remote_disk_low_handler msg st
  else if type =? AUDIT_RMW_TYPE_DISKFULL then remote_disk_full_handler msg (stop_transport st)
  else if type =? AUDIT_RMW_TYPE_DISKERROR then remote_disk_error_handler msg (stop_transport st)
  else if negb (Z.land type AUDIT_RMW_TYPE_FATALMASK =? 0) then generic_remote_error_handler msg st
  else if negb (Z.land type AUDIT_RMW_TYPE_WARNMASK =? 0) then generic_remote_warning_handler msg st
  else (0, st).

(** One try: the result, or that it must be tried again. *)
Definition relay_once (s : option bytes) st : option Z * plugin :=
  let (ok, st) :=
    if transport_ok st then (true, st) else let (rc, st) := init_transport st in (rc =? ET_SUCCESS, st) in
  if negb ok then (None, st)
  else
    let type := match s with Some _ => AUDIT_RMW_TYPE_MESSAGE | None => AUDIT_RMW_TYPE_HEARTBEAT end in
    let header := pack_header 0 type (Z.of_nat (length (default [] s))) (sequence_id st) in
    let (rc, st) := send_msg_tcp header s st in
    if negb (rc =? 0) then (None, stop_transport st)
    else
      let '(rc, h, msg, st) := recv_msg_tcp st in
      if negb (rc =? 0) then (None, stop_transport st)
      else
        let hd := unpack_header h in
        if h_type hd =? AUDIT_RMW_TYPE_ENDING then let (rc, st) := remote_server_ending_handler msg st in (Some rc, st)
        else if negb (h_seq hd =? u32 (sequence_id st)) then (None, stop_transport st)
        else let (rc, st) := handle_answer (h_type hd) msg st in (Some rc, st).

Fixpoint relay_loop (fuel : nat) (s : option bytes) (tries start : Z) st : option (Z * plugin) :=
  match fuel with
  | O => None
  | S fuel =>
      let (now, n) := net_time (net st) in
      let st := st<|net := n|> in
      let start := if start =? 0 then now else start in
      if max_tries_per_record (config st) <? tries then Some (-1, (network_failure_handler [] st).2)
      else if max_time_per_record (config st) <? now - start then Some (-1, (network_failure_handler [] st).2)
      else match relay_once s st with
           | (Some rc, st) => Some (rc, st)
           | (None, st) => relay_loop fuel s (tries + 1) start st
           end
  end.

(** The tries are counted. *)
Definition relay_sock_managed (s : option bytes) st : option (Z * plugin) :=
  relay_loop (Z.to_nat (max_tries_per_record (config st) + 2)) s 0 0 (st<|sequence_id := sequence_id st + 1|>).

Definition relay_sock_ascii (s : option bytes) st : Z * plugin :=
  match s with
  | Some (_ :: _ as s) =>
      let (rc, st) := if transport_ok st then (0, st) else init_transport st in
      if negb (rc =? 0) then (-1, st)
      else
        let (rc, st) := ar_write s st in
        if rc <=? 0 then (-1, stop_transport (st<|stop := true|>)) else (0, st)
  | _ => (0, st)
  end.

Definition relay_sock (s : option bytes) st : option (Z * plugin) :=
  match format (config st) with F_MANAGED => relay_sock_managed s st | F_ASCII => Some (relay_sock_ascii s st) end.

Definition relay_event (s : option bytes) st : option (Z * plugin) :=
  if has_transport st then relay_sock s st else Some (-1, st).

Definition send_heartbeat st : option plugin := '(_, st) ← relay_event None st; Some st.

Definition check_message_managed st : Z * plugin :=
  let '(rc, h, msg, st) := recv_msg_tcp st in
  if negb (rc =? 0) then (-1, stop_transport st)
  else
    let type := h_type (unpack_header h) in
    if type =? AUDIT_RMW_TYPE_ENDING then remote_server_ending_handler msg st
    else if type =? AUDIT_RMW_TYPE_DISKLOW then remote_disk_low_handler msg st
    else if type =? AUDIT_RMW_TYPE_DISKFULL then remote_disk_full_handler msg (stop_transport st)
    else if type =? AUDIT_RMW_TYPE_DISKERROR then remote_disk_error_handler msg (stop_transport st)
    else (0, st).

Definition check_message_ascii st : Z * plugin :=
  let '(rc, _, st) := ar_read 64 st in
  (0, if (rc <? 0) || remote_ended st then st<|stop := true|> else st).

Definition check_message st : Z * plugin :=
  match format (config st) with F_MANAGED => check_message_managed st | F_ASCII => check_message_ascii st end.

(** ** The queue *)

(** The queue, the file system below it and the plugin. *)
Record machine := Machine { queue : RQ.queue; world : Os.os; plug : plugin }.

Definition send_one (m : machine) : option machine :=
  let st := plug m in
  if suspend st || negb (transport_ok st) then Some m
  else
    '(r, q, w) ← RQ.q_peek (queue m) MAX_AUDIT_MESSAGE_LENGTH (world m);
    match r with
    | Os.Error _ => Some (Machine q w (queue_error st))
    | Os.Ok None => Some (Machine q w st)
    | Os.Ok (Some data) =>
        '(rc, st) ← relay_event (Some data) st;
        if (rc : Z) <? 0 then Some (Machine q w st)
        else
          let st := st<|warned := 0|> in
          '(r, q, w) ← RQ.q_drop_head q w;
          Some (Machine q w (match r with Os.Ok _ => st | Os.Error _ => queue_error st end))
    end.

(** Records of the type EOE and malformed ones are not sent. *)
Definition skipped (event : string) : bool :=
  if char_at event =c "t"%char then starts_with "type=EOE" event
  else match strchr event " "%char with
       | Some p => starts_with "type=EOE" (skip 1 p)
       | None => true
       end.

(** A line of input. *)
Definition main_input (event : string) (m : machine) : option machine :=
  let st := plug m in
  let st :=
    if negb (transport_ok st) && remote_ended st &&
       (bool_decide (remote_ending_action (config st) = FA_RECONNECT) || negb (connected_once st))
    then let (rc, st) := init_transport st in
         if rc =? ET_SUCCESS then st<|remote_ended := false|><|connected_once := true|>
         else if negb (connected_once st) then (startup_failure_handler [] st).2 else st
    else st in
  if skipped event then Some (Machine (queue m) (world m) st)
  else
    '(r, q, w) ← RQ.q_append (queue m) (code <$> String.list_ascii_of_string event) (world m);
    Some (Machine q w (match r with
                       | Os.Ok _ => st
                       | Os.Error e => if e =? ENOSPC then do_overflow_action st else queue_error st
                       end)).

(** The loop that sends what is queued, for at most [fuel] turns. *)
Fixpoint drain (fuel : nat) (m : machine) : option machine :=
  match fuel with
  | O => Some m
  | S fuel =>
      if (RQ.q_queue_length (queue m) =? 0) || suspend (plug m) || stop (plug m) || negb (transport_ok (plug m)) then Some m
      else m ← send_one m; drain fuel m
  end.

End remote.

Arguments plugin N : clear implicits.
Arguments machine N : clear implicits.

End Remote.
