(* ===== verification/RemoteLink.v ===== *)
(** * The plugin and the daemon of the server together

    audisp-remote of one machine talks to auditd of another: the network of the plugin
    is a connection to the model of the daemon, which loses connections, cuts
    transfers and is late as a script says.  Without faults of the server, whatever
    happens to the connection, an event leaves the queue only after its line is in the
    logs of the server. *)
From S2P Require Import Prelude CString StrSplit Config ConfigFacts AuditdConf RemoteConf Os RemoteQueue RemoteQueueFacts Lol Ellist Lookup AuditdEvent AuditdEventFacts AuditdLogs Rmw Listen ListenFacts Remote.
From coqutil Require Import Datatypes.RecordSetters.
Import RecordSetters.TriangleBracketNotations.

Local Open Scope audit_scope.
Local Open Scope string_scope.
Local Open Scope list_scope.
Local Open Scope Z_scope.

Module RemoteLink.
Import Lookup Rmw Listen ListenFacts.
Import Config (Host).
Import AuditdEvent (Partition, avail, state, ack, Ack, acks, ack_seq, ack_type, ack_msg, logging_suspended, line_bytes, create_event, handle_event, Event, e_type, e_message, e_conf, from_network, AUDIT_RMW_TYPE_ACK).
Import AuditdEventFacts (acked).
Import AuditdLogs (archive, holds, keeping, few, positive, handle_kept).

Section link.
Context {part : Partition} {host : Host} {tabs : Tables} {types : Lol.MsgTypes}.
Context (enrich : string -> string) (date : string).

(** ** The connection *)

(** A call works, transfers at most so many bytes, is late, or finds the connection
    broken. *)
Inductive fault := Fine | Cut (n : nat) | Late | Lost.

(** The buffer of the server for the connection and the bytes of its answers that the
    plugin has not read. *)
Record peer := Peer {
  faults : list fault;
  conn : option (io * bytes);
  server : daemon;
  ticks : list Z;
}.

Definition pop (p : peer) : fault * peer :=
  match faults p with [] => (Fine, p) | f :: fs => (f, p<|faults := fs|>) end.

Definition new_acks (d d' : daemon) : bytes := concat (ack_bytes <$> drop (length (acks (logging d))) (acks (logging d'))).

(** The server reads what was sent. *)
Definition deliver (b : bytes) (p : peer) : peer :=
  match conn p with
  | None => p
  | Some (c, out) =>
      match serve_burst enrich date (pending [Data b]) c [Data b] (server p) with
      | Some (Stay c' _, d) => p<|conn := Some (c', out ++ new_acks (server p) d)|><|server := d|>
      | Some (Closed, d) => p<|conn := None|><|server := d|>
      | None => p<|conn := None|>
      end
  end.

(** The server sees the end of the connection. *)
Definition hangup (p : peer) : peer :=
  match conn p with
  | None => p
  | Some (c, _) =>
      match auditd_tcp_client_handler enrich date c [Eof] (server p) with
      | Some (_, d) => p<|conn := None|><|server := d|>
      | None => p<|conn := None|>
      end
  end.

Definition peer_write (b : bytes) (p : peer) : Os.result nat * peer :=
  match conn p with
  | None => (Os.Error Remote.EPIPE, p)
  | Some _ =>
      match pop p with
      | (Lost, p) => (Os.Error Remote.EPIPE, hangup p)
      | (Cut n, p) => let k := Nat.min (S n) (length b) in (Os.Ok k, deliver (take k b) p)
      | (_, p) => (Os.Ok (length b), deliver b p)
      end
  end.

Definition peer_read (n : nat) (p : peer) : received * peer :=
  match conn p with
  | None => (RError Remote.EPIPE, p)
  | Some (c, out) =>
      match pop p with
      | (Lost, p) => (RError Remote.EPIPE, hangup p)
      | (Late, p) => (RTimeout, p)
      | (f, p) =>
          let n := match f with Cut k => Nat.min (S k) n | _ => n end in
          match out with
          | [] => (RTimeout, p)
          | _ => (RData (take n out), p<|conn := Some (c, drop n out)|>)
          end
      end
  end.

Definition peer_setup (s : setup) (p : peer) : bool * peer :=
  match pop p with
  | (Lost, p) => (false, p)
  | (_, p) => (true, match s with Connect => (hangup p)<|conn := Some (new_client, [])|> | _ => p end)
  end.

(** EAI_AGAIN. *)
Definition peer_resolve (p : peer) : (Z + nat) * peer :=
  match pop p with (Lost, p) => (inl (-3), p) | (_, p) => (inr 1%nat, p) end.

Definition peer_time (p : peer) : Z * peer :=
  match ticks p with [] => (1, p) | t :: ts => (t, p<|ticks := ts|>) end.

#[local] Instance peer_net : Net peer := {|
  net_time := peer_time;
  net_resolve := peer_resolve;
  net_setup := peer_setup;
  net_close := hangup;
  net_write := peer_write;
  net_read := peer_read;
|}.

(** ** The server *)

Context (blocks : forall n a b, avail n = Some (a, b) -> b <> 0).

(** The server keeps all logs, which hold the texts [l]. *)
Definition srv_ok (d : daemon) (l : list bytes) : Prop := keeping (AuditdEvent.config (logging d)) /\ holds (logging d) l.

(** The logs have grown, by at most [n] files. *)
Definition grows (n : nat) (l l' : list bytes) : Prop := (exists x, archive l' = archive l ++ x) /\ (length l' <= n + length l)%nat.

Lemma grows_refl n l : grows n l l.
Proof. split; [exists []; by rewrite app_nil_r|lia]. Qed.

Lemma grows_trans a b l1 l2 l3 : grows a l1 l2 -> grows b l2 l3 -> grows (a + b) l1 l3.
Proof. intros [[x Hx] H1] [[y Hy] H2]. split; [|lia]. exists (x ++ y). by rewrite Hy, Hx, app_assoc. Qed.

Lemma grows_more a b l l' : (a <= b)%nat -> grows a l l' -> grows b l l'.
Proof. intros H [Hx Hl]. split; [done|lia]. Qed.

Lemma acks_holds s l a : holds s l -> holds (s<|acks := a|>) l.
Proof. intros [A B C D E F]. by split; destruct s. Qed.

Lemma create_message m seq : exists m', create_event (Some m) true seq = Event 0 (Some m') None true seq /\
  (Z.of_nat (String.length m) < AuditdEvent.MAX_AUDIT_MESSAGE_LENGTH - 1 -> m' = m).
Proof.
  unfold create_event, AuditdEvent.replace_event_msg. cbn [e_type e_conf from_network AuditdEvent.sequence_id]. eexists. split; [done|].
  intros H. by rewrite (proj2 (Z.ltb_lt _ _)).
Qed.

(** The type that distribute_event takes for a text of the network. *)
Definition net_type (d : daemon) (m : string) : Z :=
  if AuditdConf.distribute_network_events (AuditdEvent.config (logging d)) =? 0 then 0 else extract_type m.

(** The answer to an event and what it did to the logs. *)
Definition answered (seq : Z) (line : bytes) (a : ack) (l l' : list bytes) : Prop :=
  ack_seq a = seq /\
  ((positive (ack_type a) /\ ack_msg a = "" /\ archive l' = archive l ++ line) \/
   (ack_type a = AuditdEvent.AUDIT_RMW_TYPE_DISKERROR /\ ack_msg a = "remote logging suspended")).

Lemma distribute_kept m seq d l : srv_ok d l -> Z.of_nat (3 + length l) < few ->
  exists d' l', distribute_event enrich date 0 (Event 0 (Some m) None true seq) d = Some d' /\ srv_ok d' l' /\
    AuditdEvent.config (logging d') = AuditdEvent.config (logging d) /\ grows 2 l l' /\
    (net_type d m <> AUDIT_EOE -> exists a, acks (logging d') = acks (logging d) ++ [a] /\ answered seq (line_bytes (Some m)) a l l').
Proof.
  intros [Hk Hh] Hl. unfold distribute_event. cbn [e_type Z.eqb].
  assert (Hev : forall route proto t, t = net_type d m -> exists d' l',
    (s ← (if negb (t =? AUDIT_EOE) then handle_event enrich date (Event t (Some m) None true seq) (logging d) else Some (logging d));
     Some (Daemon s (if (route : bool) then routed d ++ [(t, Some m, proto)] else routed d))) = Some d' /\ srv_ok d' l' /\
    AuditdEvent.config (logging d') = AuditdEvent.config (logging d) /\ grows 2 l l' /\
    (net_type d m <> AUDIT_EOE -> exists a, acks (logging d') = acks (logging d) ++ [a] /\ answered seq (line_bytes (Some m)) a l l')).
  { intros route proto t ->. destruct (Z.eqb_spec (net_type d m) AUDIT_EOE) as [He|He]; cbn [negb mbind option_bind].
    - eexists _, l. split; [done|]. split; [done|]. split; [done|]. split; [apply grows_refl|done].
    - destruct (handle_kept blocks enrich date (Event (net_type d m) (Some m) None true seq) (logging d) l Hk Hh) as (s' & l' & -> & [K1 K2 K3 K4 K5 (t & msg & A & T)]);
        [unfold AuditdLogs.plain; cbn; by rewrite andb_false_r|done|].
      cbn [mbind option_bind]. eexists _, l'. split; [done|]. cbn [logging]. split; [split; cbn [logging]; [by rewrite K2|done]|]. split; [done|].
      split; [split; [by eexists|done]|]. intros _. exists (Ack seq t msg). split; [exact A|]. split; [done|].
      destruct (logging_suspended (logging d)); cbn [negb] in *; [right; by destruct T|left]. destruct T as [T1 T2]. split; [done|]. split; [done|exact K3]. }
  unfold net_type in Hev. destruct (_ =? 0) eqn:E; cbn [mbind option_bind e_message e_conf from_network AuditdEvent.sequence_id].
  - destruct (Hev false 0 0) as (d' & l' & H1 & H2); [done|].
    exists d', l'. split; [exact H1|]. unfold net_type. rewrite E. exact H2.
  - destruct (Hev true AUDISP_PROTOCOL_VER2 (extract_type m)) as (d' & l' & H1 & H2); [done|].
    exists d', l'. split; [exact H1|]. unfold net_type. rewrite E. exact H2.
Qed.


(** ** Records *)

(** A line without NUL that fits into a message. *)
Record record (x : bytes) : Prop := Record {
  rec_line : exists body, x = body ++ [10] /\ Forall (fun b => 0 < b < 256) body;
  rec_fits : Z.of_nat (length x) + AUDIT_RMW_HEADER_SIZE <= AuditdEvent.MAX_AUDIT_MESSAGE_LENGTH;
}.

Lemma code_chr b : 0 <= b < 256 -> code (chr (Z.to_nat b)) = b.
Proof. intros H. unfold code, chr. rewrite nat_ascii_embedding by lia. lia. Qed.

Lemma c_string_bytes body : Forall (fun b => 0 < b < 256) body ->
  exists s, c_string (body ++ [0]) = Some s /\ code <$> String.list_ascii_of_string s = body /\ String.length s = length body.
Proof.
  induction 1 as [|b body Hb _ (s & IH & Hs & Hl)]; [by exists ""|]. cbn [app c_string].
  rewrite (proj2 (Z.eqb_neq b 0)) by lia. rewrite IH. cbn [mbind option_bind]. eexists. split; [done|]. cbn [String.list_ascii_of_string String.length length].
  rewrite fmap_cons, Hs, code_chr by lia. split; [done|lia].
Qed.

Lemma record_text x : record x -> line_bytes (Some (message_text x)) = x /\ Z.of_nat (String.length (message_text x)) < AuditdEvent.MAX_AUDIT_MESSAGE_LENGTH - 1.
Proof.
  intros [(body & -> & Hb) Hf]. unfold message_text. rewrite length_app. cbn [length]. replace (length body + 1 - 1)%nat with (length body) by lia.
  assert (Ha : at_ (body ++ [10]) (length body) = 10) by (unfold at_; by rewrite list_lookup_middle).
  rewrite Ha. cbn [Z.eqb Pos.eqb]. rewrite insert_app_r_alt, Nat.sub_diag by lia. cbn [insert list_insert].
  rewrite <-app_assoc. destruct (c_string_bytes body Hb) as (s & Hs & Hc & Hl). change ([0] ++ [0]) with (0 :: [0]). rewrite c_string_end, Hs. change (default "" (Some s)) with s.
  rewrite length_app in Hf. cbn [length] in Hf. unfold AUDIT_RMW_HEADER_SIZE in Hf. split; [|lia].
  unfold line_bytes. change (default "(null)" (Some s)) with s. by rewrite Hc.
Qed.

(** The message that carries a record. *)
Definition message_of (seq : Z) (x : bytes) : message := Message AUDIT_RMW_TYPE_MESSAGE seq x.

Lemma serve_record seq x d l : srv_ok d l -> Z.of_nat (3 + length l) < few -> record x -> net_type d (message_text x) <> AUDIT_EOE ->
  exists d' l' a, serve enrich date (message_of seq x) d = Some d' /\ srv_ok d' l' /\ AuditdEvent.config (logging d') = AuditdEvent.config (logging d) /\
    grows 2 l l' /\ acks (logging d') = acks (logging d) ++ [a] /\ answered seq x a l l'.
Proof.
  intros Hd Hl Hx Ht. unfold serve. cbn [message_of m_type m_text m_seq AUDIT_RMW_TYPE_MESSAGE AUDIT_RMW_TYPE_HEARTBEAT Z.eqb].
  destruct (record_text x Hx) as [Hline Hlen]. destruct (create_message (message_text x) seq) as (m' & -> & Hm'). rewrite Hm' in * by done.
  destruct (distribute_kept (message_text x) seq d l Hd Hl) as (d' & l' & -> & H1 & H2 & H3 & H4). destruct (H4 Ht) as (a & Ha & Hans).
  rewrite Hline in Hans. by exists d', l', a.
Qed.

Lemma c_string_last b : last b = Some 0 -> is_Some (c_string b).
Proof.
  induction b as [|x b IH]; [done|]. intros H. cbn [c_string]. destruct (Z.eqb_spec x 0); [by eexists|].
  destruct b as [|y b]; [cbn in H; congruence|]. destruct IH as [s Hs]; [exact H|]. rewrite Hs. by eexists.
Qed.

Lemma last_insert (b : bytes) i v : (S i < length b)%nat -> last (<[i := v]> b) = last b.
Proof. intros Hi. rewrite !last_lookup, length_insert. apply list_lookup_insert_ne. lia. Qed.

Lemma last_drop (b : bytes) n : (n < length b)%nat -> last (drop n b) = last b.
Proof. intros Hn. rewrite !last_lookup, lookup_drop, length_drop. f_equal. lia. Qed.

(** The end of the connection: the part of a message that is there is taken for one. *)
Lemma end_kept c d l : sound c -> srv_ok d l -> Z.of_nat (3 + length l) < few ->
  exists d' l', auditd_tcp_client_handler enrich date c [Eof] d = Some (Closed, d') /\ srv_ok d' l' /\
    AuditdEvent.config (logging d') = AuditdEvent.config (logging d) /\ grows 2 l l'.
Proof.
  intros [Hb [Hlen Hlast]] Hd Hl. unfold auditd_tcp_client_handler. cbn [client_handler sock_read]. rewrite andb_false_r.
  destruct (Z.eqb_spec (bufptr c) 0) as [Hz|Hz]; cbn [mbind option_bind].
  { exists d, l. split_and!; try done. apply grows_refl. }
  unfold client_message. destruct (is_magic (buffer c) (bufptr c)); [|cbn [mbind option_bind]; exists d, l; split_and!; try done; apply grows_refl].
  unfold BUFFER_SIZE in Hlen. destruct (lookup_lt_is_Some_2 (buffer c) (Z.to_nat (bufptr c))) as [ch Hch]; [lia|]. rewrite Hch. cbn [mbind option_bind].
  set (h := <[Z.to_nat (bufptr c) := 0]> (buffer c)).
  set (h' := if (1 <? bufptr c) && _ then _ else _).
  assert (Hh' : last h' = Some 0 /\ length h' = length (buffer c)).
  { unfold h', h. destruct (_ && _); rewrite ?last_insert, ?length_insert by (rewrite ?length_insert; lia); done. }
  destruct (_ =? AUDIT_RMW_TYPE_HEARTBEAT).
  { eexists _, l. cbn [mbind option_bind]. split; [done|]. cbn [logging]. split; [|split; [|apply grows_refl]].
    - destruct Hd as [Hk Hh]. split; cbn [logging]; [|by apply acks_holds]. by destruct (logging d).
    - by destruct (logging d). }
  destruct (c_string_last (drop (Z.to_nat AUDIT_RMW_HEADER_SIZE) h')) as [msg ->].
  { rewrite last_drop; [apply Hh'|]. rewrite (proj2 Hh'). unfold AUDIT_RMW_HEADER_SIZE, AuditdEvent.MAX_AUDIT_MESSAGE_LENGTH in *. lia. }
  cbn [mbind option_bind]. destruct (create_message msg (h_seq (unpack_header (buffer c)))) as (m' & -> & _).
  destruct (distribute_kept m' (h_seq (unpack_header (buffer c))) d l Hd Hl) as (d' & l' & -> & H1 & H2 & H3 & _). cbn [mbind option_bind].
  by exists d', l'.
Qed.


(** ** The connection *)

Definition srv_conf (p : peer) : AuditdConf.daemon_conf := AuditdEvent.config (logging (server p)).

(** The server is well and so is the buffer of the connection. *)
Definition peer_ok (p : peer) (l : list bytes) : Prop :=
  srv_ok (server p) l /\ forall c out, conn p = Some (c, out) -> sound c.

(** The same connection and server. *)
Definition same_peer (p p' : peer) : Prop := conn p' = conn p /\ server p' = server p.

Lemma pop_same p f p' : pop p = (f, p') -> same_peer p p'.
Proof. unfold pop. destruct (faults p); intros H; injection H as _ <-; [done|]. by destruct p. Qed.

Lemma same_ok p p' l : same_peer p p' -> peer_ok p l -> peer_ok p' l.
Proof. intros [H1 H2] [H3 H4]. split; [by rewrite H2|]. intros c out. rewrite H1. apply H4. Qed.

Lemma hangup_ok p l : peer_ok p l -> Z.of_nat (3 + length l) < few ->
  exists l', peer_ok (hangup p) l' /\ conn (hangup p) = None /\ grows 2 l l' /\ srv_conf (hangup p) = srv_conf p.
Proof.
  intros [Hs Hc] Hl. unfold hangup. destruct (conn p) as [[c out]|] eqn:E.
  - destruct (end_kept c (server p) l (Hc c out eq_refl) Hs Hl) as (d & l' & -> & H1 & H2 & H3). exists l'.
    assert (X : conn (p<|conn := None|><|server := d|>) = None /\ server (p<|conn := None|><|server := d|>) = d) by (by destruct p).
    destruct X as [X1 X2]. unfold peer_ok, srv_conf. rewrite X1, X2. split_and!; done.
  - exists l. split; [split; [done|]; intros c out; by rewrite E|]. split; [done|]. split; [apply grows_refl|done].
Qed.

(** A piece of a message arrives: [rest] is still to come. *)
Lemma deliver_ok seq x b rest p c l : peer_ok p l -> conn p = Some (c, []) -> b <> [] -> record x -> 0 <= seq < two32 ->
  net_type (server p) (message_text x) <> AUDIT_EOE -> Z.of_nat (3 + length l) < few ->
  held c ++ b ++ rest = encode (message_of seq x) -> partial c [message_of seq x] ->
  exists c' l', sound c' /\ peer_ok (deliver b p) l' /\ srv_conf (deliver b p) = srv_conf p /\ grows 2 l l' /\
    match rest with
    | [] => exists a, conn (deliver b p) = Some (c', ack_bytes a) /\ bufptr c' = 0 /\ answered seq x a l l'
    | _ => conn (deliver b p) = Some (c', []) /\ server (deliver b p) = server p /\ l' = l /\
           held c' ++ rest = encode (message_of seq x) /\ partial c' [message_of seq x]
    end.
Proof.
  intros [Hs Hc] E Hb Hx Hseq Ht Hl H Hp. set (m := message_of seq x) in *.
  assert (Hm : fits m). { split; [done|]. split; [done|apply Hx]. }
  assert (Hd : Forall is_data [Data b]) by (destruct b; [done|by repeat constructor]).
  destruct (burst_serves enrich date (pending [Data b]) c [Data b] (server p) [m] rest) as (k & c' & Hk & Hc' & Hp' & Hr & Hburst);
    [by eapply Hc|by constructor|done|done| |lia|].
  { unfold stream. cbn [fmap list_fmap concat]. rewrite !app_nil_r. exact H. }
  pose proof (app_nil_r (encode m) : concat (encode <$> [m]) = encode m) as Hcc.
  unfold deliver. rewrite E, Hburst. destruct k as [|k]; [|destruct k as [|k]; [|cbn in Hk; lia]].
  - cbn [take drop serve_all mbind option_bind] in *. destruct rest as [|y rest].
    { exfalso. rewrite app_nil_r in Hr. unfold partial in Hp'. apply held_length in Hc'. rewrite Hr, Hcc in Hc'. lia. }
    exists c', l. split; [done|]. set (p' := p<|conn := _|><|server := _|>).
    assert (Hna : new_acks (server p) (server p) = []) by (unfold new_acks; by rewrite drop_all).
    assert (X : conn p' = Some (c', []) /\ server p' = server p) by (unfold p'; rewrite Hna; by destruct p). destruct X as [X1 X2].
    unfold peer_ok, srv_conf. rewrite X1, X2. split; [split; [done|]; intros c0 o0 H0; by injection H0 as <- _|].
    split; [done|]. split; [apply grows_refl|]. split_and!; try done. by rewrite <-Hcc.
  - cbn [take drop] in *. cbn in Hr. apply app_eq_nil in Hr as [Hr ->]. cbn [serve_all].
    destruct (serve_record seq x (server p) l Hs Hl Hx Ht) as (d' & l' & a & Hsv & H1 & H2 & H3 & H4 & H5).
    unfold m. rewrite Hsv. cbn [mbind option_bind]. exists c', l'. split; [done|]. set (p' := p<|conn := _|><|server := _|>).
    assert (Hna : new_acks (server p) d' = ack_bytes a).
    { unfold new_acks. rewrite H4, drop_app_length. cbn. by rewrite app_nil_r. }
    assert (X : conn p' = Some (c', ack_bytes a) /\ server p' = d') by (unfold p'; rewrite Hna; by destruct p). destruct X as [X1 X2].
    unfold peer_ok, srv_conf. rewrite X1, X2. split; [split; [done|]; intros c0 o0 H0; by injection H0 as <- _|].
    split; [done|]. split; [done|]. exists a. split; [done|]. split; [exact Hp'|done].
Qed.


(** ** The plugin *)

Import Remote (config, sock, transport_ok, sequence_id, net, stop_sock, stop_transport, ar_write, ar_write_loop, ar_read, ar_read_loop, send_msg_tcp, recv_msg_tcp, relay_once, relay_loop, init_transport, init_sock, connect_loop, call, do_action, handle_answer).

Abbreviation plugin := (Remote.plugin peer).
Implicit Types st : plugin.

(** Only a socket has a connection. *)
Definition up st (l : list bytes) : Prop := peer_ok (net st) l /\ forall c out, conn (net st) = Some (c, out) -> sock st = true.

(** Between two messages. *)
Definition sync st : Prop := forall c out, conn (net st) = Some (c, out) -> bufptr c = 0 /\ out = [].

(** What never changes while an event is relayed. *)
Definition kept st st' : Prop := config st' = config st /\ sequence_id st' = sequence_id st /\ srv_conf (net st') = srv_conf (net st).

#[local] Instance kept_preorder : PreOrder kept.
Proof. split; [by split|]. intros a b c (? & ? & ?) (? & ? & ?). repeat split; congruence. Qed.

(** A step: the logs have grown from [l] by at most [n] files. *)
Definition moved (n : nat) st l st' l' : Prop := up st' l' /\ kept st st' /\ grows n l l'.

Lemma link_trans a b st1 l1 st2 l2 st3 l3 : moved a st1 l1 st2 l2 -> moved b st2 l2 st3 l3 -> moved (a + b) st1 l1 st3 l3.
Proof. intros (U1 & K1 & G1) (U2 & K2 & G2). split; [done|]. split; [by etrans|by eapply grows_trans]. Qed.

Lemma link_more a b st l st' l' : (a <= b)%nat -> moved a st l st' l' -> moved b st l st' l'.
Proof. intros H (U & K & G). split; [done|]. split; [done|]. by eapply grows_more. Qed.

(** The same but for the script, the clock and what the plugin remembers. *)
Definition same st st' : Prop :=
  config st' = config st /\ sequence_id st' = sequence_id st /\ sock st' = sock st /\ same_peer (net st) (net st').

Lemma same_moved st l st' : same st st' -> up st l -> moved 0 st l st' l.
Proof.
  intros (H1 & H2 & H3 & H4) [Hp Hs]. split; [split; [by eapply same_ok|]|].
  - intros c out. destruct H4 as [-> _]. rewrite H3. apply Hs.
  - split; [|apply grows_refl]. split; [done|]. split; [done|]. unfold srv_conf. by rewrite (proj2 H4).
Qed.

Lemma same_trans a b c : same a b -> same b c -> same a c.
Proof. intros (A1 & A2 & A3 & A4 & A5) (B1 & B2 & B3 & B4 & B5). unfold same, same_peer. split_and!; congruence. Qed.

Lemma same_sync st st' : same st st' -> sync st -> sync st'.
Proof. intros (_ & _ & _ & H & _) Hs c out. rewrite H. apply Hs. Qed.

Lemma no_conn_sync st : conn (net st) = None -> sync st.
Proof. intros H c out. by rewrite H. Qed.

(** The connection is closed. *)
Lemma closed_moved st st' l : up st l -> Z.of_nat (3 + length l) < few -> config st' = config st -> sequence_id st' = sequence_id st ->
  net st' = hangup (net st) -> exists l', moved 2 st l st' l' /\ conn (net st') = None.
Proof.
  intros [Hp Hs] Hl Hc Hq Hn. destruct (hangup_ok (net st) l Hp Hl) as (l' & H1 & H2 & H3 & H4).
  exists l'. unfold moved, up, kept. rewrite Hn, H2, Hc, Hq, H4. split_and!; done.
Qed.

Lemma stop_sock_moved st l : up st l -> Z.of_nat (3 + length l) < few ->
  exists l', moved 2 st l (stop_sock st) l' /\ conn (net (stop_sock st)) = None.
Proof.
  intros Hu Hl. unfold stop_sock. destruct (sock st) eqn:Es.
  - apply closed_moved; [done|done|by destruct st..].
  - assert (Hn : conn (net st) = None).
    { destruct (conn (net st)) as [[c out]|] eqn:E; [|done]. destruct Hu as [_ Hu]. rewrite (Hu c out E) in Es. done. }
    apply closed_moved; [done|done|by destruct st..|]. unfold hangup. rewrite Hn. by destruct st.
Qed.

(** ** Receiving *)

Lemma read_loop_moved fuel len got st l c out : up st l -> Z.of_nat (5 + length l) < few -> conn (net st) = Some (c, out) -> (len <= fuel)%nat ->
  exists r got' st' l', ar_read_loop fuel len got st = (r, got', st') /\ moved 4 st l st' l' /\
    (r < Z.of_nat (length got + len) \/
     (l' = l /\ (len <= length out)%nat /\ got' = got ++ take len out /\ conn (net st') = Some (c, drop len out))).
Proof.
  revert len got st out. induction fuel as [|fuel IH]; intros len got st out Hu Hl E Hf.
  { assert (len = O) as -> by lia. eexists _, got, st, l. split; [done|]. split; [split; [done|]; split; [done|apply grows_refl]|]. right.
    rewrite take_0, app_nil_r. split_and!; done || lia. }
  destruct len as [|len'].
  { eexists _, got, st, l. split; [done|]. split; [split; [done|]; split; [done|apply grows_refl]|]. right. rewrite take_0, app_nil_r. split_and!; done || lia. }
  set (len := S len') in *.
  assert (Hread : exists r p', peer_read len (net st) = (r, p') /\
    ((r = RError Remote.EPIPE /\ exists p0, same_peer (net st) p0 /\ p' = hangup p0) \/ (r = RTimeout /\ same_peer (net st) p') \/
     exists n p0, (0 < n <= len)%nat /\ out <> [] /\ r = RData (take n out) /\ same_peer (net st) p0 /\ p' = p0<|conn := Some (c, drop n out)|>)).
  { unfold peer_read. rewrite E. destruct (pop (net st)) as [f p0] eqn:Ep. apply pop_same in Ep.
    destruct f as [|n| |].
    - destruct out as [|o out']; [eexists _, _; split; [done|]; right; by left|]. eexists _, _. split; [done|]. right. right. exists len, p0. split_and!; done || lia.
    - destruct out as [|o out']; [eexists _, _; split; [done|]; right; by left|]. eexists _, _. split; [done|]. right. right. exists (Nat.min (S n) len), p0. split_and!; done || lia.
    - eexists _, _. split; [done|]. right. by left.
    - eexists _, _. split; [done|]. left. split; [done|]. by exists p0. }
  unfold len at 1. cbn [ar_read_loop]. fold len. change (net_read len (net st)) with (peer_read len (net st)).
  destruct Hread as (r & p' & -> & [[-> (p0 & Hsame & ->)]|[[-> Hsame]|(n & p0 & Hn & Hout & -> & Hsame & ->)]]).
  - assert (Hs0 : same st (st<|net := p0|>)) by (split_and!; by destruct st).
    pose proof (same_moved st l _ Hs0 Hu) as M0.
    destruct (closed_moved (st<|net := p0|>) (st<|net := hangup p0|>) l) as (l1 & M1 & Hn1); [apply M0|lia|by destruct st..|].
    pose proof (link_trans _ _ _ _ _ _ _ _ M0 M1) as M2. pose proof M2 as (U2 & K2 & G2).
    destruct (stop_sock_moved (st<|net := hangup p0|>) l1 U2) as (l2 & M3 & Hn3); [destruct G2; lia|].
    eexists _, got, _, l2. split; [done|]. split; [by apply (link_more (2 + 2)); [lia|]; eapply link_trans|]. left. lia.
  - eexists _, got, _, l. split; [done|]. split; [|left; lia]. apply (link_more 0); [lia|]. apply same_moved; [|done]. split_and!; by destruct st.
  - set (st1 := st<|net := _|>). destruct Hsame as [Hs1 Hs2].
    assert (N1 : conn (net st1) = Some (c, drop n out) /\ server (net st1) = server (net st) /\ config st1 = config st /\ sequence_id st1 = sequence_id st /\ sock st1 = sock st)
      by (unfold st1; rewrite <-Hs2; destruct st, p0; done). destruct N1 as (N1 & N2 & N3 & N4 & N5).
    assert (M1 : moved 0 st l st1 l).
    { destruct Hu as [[Hsv Hc] Hso]. split; [split; [split|]|split; [split; [done|split; [done|]]|apply grows_refl]].
      - by rewrite N2.
      - intros c0 o0. rewrite N1. intros H. injection H as <- _. by eapply Hc.
      - intros c0 o0 _. rewrite N5. by eapply Hso.
      - unfold srv_conf. by rewrite N2. }
    set (t := take n out). assert (Ht : (0 < length t <= len)%nat) by (unfold t; rewrite length_take; destruct out; [done|cbn [length]; lia]).
    rewrite (take_ge t len) by lia.
    destruct (IH (len - length t)%nat (got ++ t) st1 (drop n out)) as (r & got' & st' & l' & Hr & M2 & Hres); [apply M1|done|done|lia|].
    exists r, got', st', l'. split; [exact Hr|]. split; [split; [apply M2|]; split; [etrans; [apply M1|apply M2]|apply M2]|].
    rewrite length_app in Hres. destruct Hres as [Hlt|(-> & Hle & -> & Hconn)]; [left; lia|right].
    rewrite length_drop in Hle. unfold t in *. rewrite length_take in *. split; [done|]. split; [lia|].
    assert (Hmin : Nat.min n (length out) = n) by (destruct (decide (n <= length out)%nat); lia).
    rewrite Hmin in *. split.
    + rewrite <-app_assoc, take_take_drop. do 2 f_equal. lia.
    + rewrite Hconn, drop_drop. do 3 f_equal. lia.
Qed.

(** An answer of the server. *)
Definition ack_ok (a : ack) : Prop :=
  0 <= ack_type a < two32 /\ 0 <= ack_seq a < two32 /\ Z.of_nat (String.length (ack_msg a)) <= AuditdEvent.MAX_AUDIT_MESSAGE_LENGTH.

Lemma recv_moved st l c a : up st l -> Z.of_nat (9 + length l) < few -> conn (net st) = Some (c, ack_bytes a) -> ack_ok a ->
  exists rc h msg st' l', recv_msg_tcp st = (rc, h, msg, st') /\ moved 8 st l st' l' /\
    (rc <> 0 \/ (unpack_header h = Header 0 0 (ack_type a) (Z.of_nat (String.length (ack_msg a))) (ack_seq a) /\
                 (ack_msg a = "" -> conn (net st') = Some (c, []) /\ l' = l))).
Proof.
  intros Hu Hl E (Ha1 & Ha2 & Ha3). unfold recv_msg_tcp, ar_read. change (Z.to_nat AUDIT_RMW_HEADER_SIZE) with 16%nat.
  destruct (read_loop_moved 16 16 [] st l c (ack_bytes a)) as (r & h & st1 & l1 & -> & M1 & Hres); [done|lia|done|lia|].
  assert (M1' : moved 8 st l st1 l1) by (by apply (link_more 4); [lia|]). cbn [length Nat.add] in Hres.
  destruct (Z.ltb_spec r 16) as [Hr|Hr]; [by exists (-1), h, [], st1, l1; split_and!; [done..|left]|].
  destruct Hres as [Hlt|(-> & _ & -> & Hconn)]; [lia|]. rewrite app_nil_l.
  set (hd := pack_header 0 (ack_type a) (Z.of_nat (String.length (ack_msg a))) (ack_seq a)).
  assert (Hh : take 16 (ack_bytes a) = hd) by done. rewrite Hh.
  assert (Hmg : is_magic hd AUDIT_RMW_HEADER_SIZE = true) by (rewrite <-(app_nil_r hd); by apply magic_pack). rewrite Hmg. cbn [negb].
  unfold AuditdEvent.MAX_AUDIT_MESSAGE_LENGTH in Ha3.
  assert (Hun : unpack_header hd = Header 0 0 (ack_type a) (Z.of_nat (String.length (ack_msg a))) (ack_seq a)).
  { rewrite <-(app_nil_r hd). apply unpack_pack; [lia|done|lia|done]. }
  rewrite Hun. cbn [h_len]. unfold Remote.MAX_AUDIT_MESSAGE_LENGTH, AuditdEvent.MAX_AUDIT_MESSAGE_LENGTH.
  rewrite (proj2 (Z.ltb_ge 8970 _)) by lia. destruct (Z.ltb_spec 0 (Z.of_nat (String.length (ack_msg a)))) as [Hpos|Hz].
  - destruct (read_loop_moved (Z.to_nat (Z.of_nat (String.length (ack_msg a)))) (Z.to_nat (Z.of_nat (String.length (ack_msg a)))) [] st1 l c (drop 16 (ack_bytes a)))
      as (r2 & msg & st2 & l2 & -> & M2 & _); [apply M1|lia|done|lia|].
    pose proof (link_trans _ _ _ _ _ _ _ _ M1 M2) as M.
    destruct (_ <? _); [by exists (-1), hd, msg, st2, l2; split_and!; [done..|left]|].
    exists 0, hd, msg, st2, l2. split; [done|]. split; [done|]. right. split; [done|]. intros Hm. rewrite Hm in Hpos. cbn in Hpos. lia.
  - exists 0, hd, [], st1, l. split; [done|]. split; [done|]. right. split; [done|]. intros Hm. split; [|done]. rewrite Hconn. do 2 f_equal.
    unfold ack_bytes. rewrite Hm. done.
Qed.


(** ** Connecting *)

(** No connection, and the same server. *)
Definition bare st st' : Prop :=
  config st' = config st /\ sequence_id st' = sequence_id st /\ server (net st') = server (net st) /\ conn (net st') = None.

Lemma bare_trans a b c : bare a b -> bare b c -> bare a c.
Proof. intros (? & ? & ? & ?) (? & ? & ? & ?). repeat split; congruence. Qed.

Lemma bare_moved st l st' : bare st st' -> up st l -> moved 0 st l st' l /\ sync st'.
Proof.
  intros (H1 & H2 & H3 & H4) [[Hs _] _]. split; [|by apply no_conn_sync].
  split; [split; [split|]|split; [split; [done|split; [done|unfold srv_conf; by rewrite H3]]|apply grows_refl]].
  - by rewrite H3.
  - intros c out. by rewrite H4.
  - intros c out. by rewrite H4.
Qed.

Lemma net_bare st p : conn p = None -> server p = server (net st) -> bare st (st<|net := p|>).
Proof. intros H1 H2. split_and!; by destruct st. Qed.

Lemma stop_bare st : conn (net st) = None -> bare st (stop_sock st).
Proof.
  intros H. unfold stop_sock. destruct (sock st); [|split_and!; by destruct st].
  assert (Hh : net_close (net st) = net st) by (cbn; unfold hangup; by rewrite H). rewrite Hh. split_and!; by destruct st.
Qed.

Lemma call_bare s st : s <> Connect -> conn (net st) = None -> exists ok st', call s st = (ok, st') /\ bare st st'.
Proof.
  intros Hs H. unfold call. cbn [net_setup peer_net]. unfold peer_setup. destruct (pop (net st)) as [f p] eqn:Ep. apply pop_same in Ep as [E1 E2].
  assert (Hb : bare st (st<|net := p|>)) by (apply net_bare; congruence).
  destruct f; eexists _, _; (split; [done|]); destruct s; done.
Qed.

Lemma call_connect st : conn (net st) = None -> exists ok st', call Connect st = (ok, st') /\
  (if ok then config st' = config st /\ sequence_id st' = sequence_id st /\ sock st' = sock st /\ server (net st') = server (net st) /\
              conn (net st') = Some (new_client, [])
   else bare st st').
Proof.
  intros H. unfold call. cbn [net_setup peer_net]. unfold peer_setup. destruct (pop (net st)) as [f p] eqn:Ep. apply pop_same in Ep as [E1 E2].
  assert (Hb : bare st (st<|net := p|>)) by (apply net_bare; congruence).
  assert (Hh : hangup p = p) by (unfold hangup; by rewrite E1, H).
  destruct f; eexists _, _; (split; [done|]); cbn match; try done; rewrite Hh, <-E2; destruct st, p; done.
Qed.

Lemma connect_moved st l : up st l -> conn (net st) = None -> sock st = false ->
  exists ok st', connect_loop 1 st = (ok, st') /\ moved 0 st l st' l /\ sync st'.
Proof.
  intros Hu Hn Hs. cbn [connect_loop]. rewrite Hs.
  assert (Hdone : forall st1, bare st st1 -> exists ok st', (false, st1) = (ok, st') /\ moved 0 st l st' l /\ sync st').
  { intros st1 Hb. exists false, st1. split; [done|]. by apply bare_moved. }
  destruct (call_bare Socket st ltac:(done) Hn) as (ok1 & st1 & -> & B1). destruct ok1; [|apply Hdone; eapply bare_trans; [exact B1|]; destruct B1 as (_ & _ & _ & B1); split_and!; by destruct st1].
  set (st2 := st1<|sock := true|>). assert (B2 : bare st st2) by (eapply bare_trans; [exact B1|]; destruct B1 as (_ & _ & _ & B1); split_and!; by destruct st1).
  assert (S2 : sock st2 = true) by (unfold st2; by destruct st1).
  assert (Hlocal : exists ok st3, (if RemoteConf.local_port (config st2) =? 0 then (true, st2)
            else match call LocalLookup st2 with
                 | (false, st) => (false, stop_sock st)
                 | (true, st) => match call Bind st with (false, st) => (false, stop_sock st) | (true, st) => (true, st) end
                 end) = (ok, st3) /\ bare st st3 /\ (ok = true -> sock st3 = true)).
  { destruct (_ =? 0); [by exists true, st2|].
    assert (Hcall : forall s st4, s <> Connect -> bare st st4 -> sock st4 = true -> exists ok st5, call s st4 = (ok, st5) /\ bare st st5 /\ sock st5 = true).
    { intros s st4 Hne B4 S4. destruct (call_bare s st4 Hne ltac:(apply B4)) as (ok & st5 & Hc & B5). exists ok, st5. split; [done|]. split; [by eapply bare_trans|].
      unfold call in Hc. destruct (net_setup s (net st4)) as [o n]. injection Hc as _ <-. by destruct st4. }
    destruct (Hcall LocalLookup st2 ltac:(done) B2 S2) as (ok3 & st3 & -> & B3 & S3).
    destruct ok3; [|eexists _, _; split; [done|]; split; [eapply bare_trans; [exact B3|apply stop_bare, B3]|done]].
    destruct (Hcall Bind st3 ltac:(done) B3 S3) as (ok4 & st4 & -> & B4 & S4).
    destruct ok4; [by eexists _, _|eexists _, _; split; [done|]; split; [eapply bare_trans; [exact B4|apply stop_bare, B4]|done]]. }
  destruct Hlocal as (ok3 & st3 & -> & B3 & S3). destruct ok3; [|by apply Hdone].
  destruct (call_connect st3 ltac:(apply B3)) as (ok4 & st4 & -> & Hok). destruct ok4; [|apply Hdone; eapply bare_trans; [exact B3|]; eapply bare_trans; [exact Hok|apply stop_bare, Hok]].
  destruct Hok as (C1 & C2 & C3 & C4 & C5). destruct B3 as (D1 & D2 & D3 & D4). exists true, st4. split; [done|]. split.
  - destruct Hu as [[Hsv _] _]. split; [split; [split|]|split; [split; [congruence|split; [congruence|unfold srv_conf; congruence]]|apply grows_refl]].
    + by rewrite C4, D3.
    + intros c out. rewrite C5. intros H. injection H as <- _. apply new_sound.
    + intros c out _. rewrite C3. by apply S3.
  - intros c out. rewrite C5. intros H. injection H as <- <-. done.
Qed.

Lemma init_moved st l : up st l -> sync st -> RemoteConf.transport (config st) = RemoteConf.T_TCP ->
  exists rc st', init_transport st = (rc, st') /\ moved 0 st l st' l /\ sync st'.
Proof.
  intros Hu Hs Ht. unfold init_transport, Remote.has_transport. rewrite Ht.
  assert (Hinit : exists rc st', init_sock st = (rc, st') /\ moved 0 st l st' l /\ sync st').
  { unfold init_sock. destruct (sock st) eqn:Es.
    { eexists _, _. split; [done|]. assert (same st (st<|transport_ok := true|>)) by (split_and!; by destruct st).
      split; [by apply same_moved|by eapply same_sync]. }
    assert (Hn : conn (net st) = None).
    { destruct (conn (net st)) as [[c out]|] eqn:E; [|done]. destruct Hu as [_ Hu]. rewrite (Hu c out E) in Es. done. }
    cbn [net_resolve peer_net]. unfold peer_resolve. destruct (pop (net st)) as [f p] eqn:Ep. apply pop_same in Ep as [E1 E2].
    assert (Hb : bare st (st<|net := p|>)) by (apply net_bare; congruence).
    destruct (bare_moved st l _ Hb Hu) as [M1 Y1].
    assert (Hcon : exists rc st', match connect_loop 1 (st<|net := p|>) with
               | (false, st) => (Remote.ET_PERMANENT, st) | (true, st) => (Remote.ET_SUCCESS, st<|transport_ok := true|>) end = (rc, st') /\ moved 0 st l st' l /\ sync st').
    { destruct (connect_moved (st<|net := p|>) l) as (ok & st1 & -> & M2 & Y2); [apply M1|apply Hb|by destruct st|].
      pose proof (link_trans _ _ _ _ _ _ _ _ M1 M2) as M. destruct ok; eexists _, _; (split; [done|]); [|done].
      assert (Hsm : same st1 (st1<|transport_ok := true|>)) by (split_and!; by destruct st1).
      split; [|by eapply same_sync]. exact (link_trans _ _ _ _ _ _ _ _ M (same_moved _ _ _ Hsm (proj1 M2))). }
    destruct f; try exact Hcon. eexists _, _. split; [done|]. done. }
  destruct Hinit as (rc & st1 & -> & M1 & Y1). eexists _, _. split; [done|]. destruct (_ =? _); [|done].
  assert (Hsm : same st1 (st1<|Remote.remote_ended := true|>)) by (split_and!; by destruct st1).
  split; [|by eapply same_sync]. exact (link_trans _ _ _ _ _ _ _ _ M1 (same_moved _ _ _ Hsm (proj1 M1))).
Qed.


(** ** Sending *)

Section relay.
Context (x : bytes) (conf : AuditdConf.daemon_conf).
Hypothesis is_record : record x.
(** The server does not take the record for the end of an event. *)
Hypothesis not_end : AuditdConf.distribute_network_events conf = 0 \/ extract_type (message_text x) <> AUDIT_EOE.

Lemma not_end_type d : AuditdEvent.config (logging d) = conf -> net_type d (message_text x) <> AUDIT_EOE.
Proof.
  intros Hc. unfold net_type. rewrite Hc. destruct (Z.eqb_spec (AuditdConf.distribute_network_events conf) 0); [done|]. by destruct not_end.
Qed.

(** The message is on its way: [rest] is not sent. *)
Definition sending st (rest : bytes) : Prop :=
  exists c, conn (net st) = Some (c, []) /\ held c ++ rest = encode (message_of (sequence_id st) x) /\ partial c [message_of (sequence_id st) x].

(** The message was received and answered. *)
Definition replied st l l' : Prop :=
  exists c a, conn (net st) = Some (c, ack_bytes a) /\ bufptr c = 0 /\ answered (sequence_id st) x a l l'.

Lemma write_loop_moved fuel b rest rc st l : up st l -> srv_conf (net st) = conf -> 0 <= sequence_id st < two32 -> Z.of_nat (5 + length l) < few ->
  sending st (b ++ rest) -> b <> [] -> (length b <= fuel)%nat ->
  exists r st' l', ar_write_loop fuel b rc st = (r, st') /\ moved 4 st l st' l' /\
    ((r = -1 /\ conn (net st') = None) \/ (r = rc + Z.of_nat (length b) /\ match rest with [] => replied st' l l' | _ => sending st' rest /\ l' = l end)).
Proof.
  revert b rc st. induction fuel as [|fuel IH]; intros b rc st Hu Hconf Hq Hl (c & E & Hheld & Hpart) Hb Hf; [destruct b; [done|cbn in Hf; lia]|].
  assert (Hwrite : exists r p', peer_write b (net st) = (r, p') /\
    ((r = Os.Error Remote.EPIPE /\ exists p0, same_peer (net st) p0 /\ p' = hangup p0) \/
     exists k p0, (0 < k <= length b)%nat /\ r = Os.Ok k /\ same_peer (net st) p0 /\ p' = deliver (take k b) p0)).
  { unfold peer_write. rewrite E. destruct (pop (net st)) as [f p0] eqn:Ep. apply pop_same in Ep.
    assert (Hbl : (0 < length b)%nat) by (destruct b; [done|cbn; lia]).
    destruct f; [|eexists _, _; split; [done|]; right; exists (Nat.min (S n) (length b)), p0; split; [lia|done]| |eexists _, _; split; [done|]; left; split; [done|by exists p0]].
    - eexists _, _. split; [done|]. right. exists (length b), p0. rewrite take_ge by lia. split_and!; try done; lia.
    - eexists _, _. split; [done|]. right. exists (length b), p0. rewrite take_ge by lia. split_and!; try done; lia. }
  destruct b as [|b0 b']; [done|]. set (b := b0 :: b') in *. cbn [ar_write_loop net_write]. change (net_write b (net st)) with (peer_write b (net st)).
  destruct Hwrite as (r & p' & -> & [[-> (p0 & Hsame & ->)]|(k & p0 & Hk & -> & Hsame & ->)]).
  - assert (Hu0 : up (st<|net := p0|>) l) by (apply (same_moved st l); [split_and!; by destruct st|done]).
    destruct (closed_moved (st<|net := p0|>) (st<|net := hangup p0|>) l) as (l1 & M1 & Hn1); [done|lia|by destruct st..|].
    assert (Hs0 : same st (st<|net := p0|>)) by (split_and!; by destruct st).
    pose proof (link_trans _ _ _ _ _ _ _ _ (same_moved st l _ Hs0 Hu) M1) as M2. destruct M2 as (U2 & K2 & G2).
    destruct (stop_sock_moved (st<|net := hangup p0|>) l1 U2) as (l2 & M3 & Hn3); [destruct G2; lia|].
    eexists _, _, l2. split; [done|]. split; [|by left]. apply (link_more (2 + 2)); [lia|]. by eapply link_trans; [split; [exact U2|done]|].
  - destruct k as [|k']; [lia|]. remember (S k') as k eqn:Ek.
    assert (Hs0 : same st (st<|net := p0|>)) by (split_and!; by destruct st).
    pose proof (same_moved st l _ Hs0 Hu) as (U0 & K0 & _).
    assert (Hnet : net (st<|net := p0|>) = p0) by (by destruct st).
    destruct Hsame as [Hs1 Hs2].
    destruct (deliver_ok (sequence_id st) x (take k b) (drop k b ++ rest) p0 c l) as (c' & l1 & Hc' & Hp1 & Hcf & Hg1 & Hres).
    { rewrite <-Hnet. apply U0. }
    { by rewrite Hs1. }
    { intros Hnil. apply (f_equal length) in Hnil. rewrite length_take in Hnil. cbn [length] in Hnil. lia. }
    { done. } { done. }
    { apply not_end_type. rewrite Hs2. exact Hconf. }
    { lia. }
    { by rewrite (app_assoc (take k b)), take_drop. }
    { done. }
    set (st1 := st<|net := deliver (take k b) p0|>).
    assert (N1 : net st1 = deliver (take k b) p0 /\ config st1 = config st /\ sequence_id st1 = sequence_id st /\ sock st1 = sock st) by (unfold st1; by destruct st).
    destruct N1 as (N1 & N2 & N3 & N4).
    assert (M1 : moved 2 st l st1 l1).
    { split; [split|split]; [by rewrite N1| |split; [done|split; [done|]]|done].
      - intros c1 o1 _. rewrite N4. destruct Hu as [_ Hu]. by eapply Hu.
      - rewrite N1, Hcf. unfold srv_conf. by rewrite Hs2. }
    rewrite Ek. cbn [ar_write_loop]. rewrite <-Ek. destruct (drop k b) as [|y b2] eqn:Eb2.
    + assert (Hrc : Z.of_nat (Nat.min k (length b)) = Z.of_nat (length b)).
      { apply (f_equal length) in Eb2. rewrite length_drop in Eb2. cbn [length] in Eb2. lia. }
      eexists _, st1, l1. rewrite Hrc. split; [by destruct fuel|]. split; [by apply (link_more 2); [lia|]|]. right. split; [done|].
      cbn [app] in Hres. destruct rest as [|z rest].
      * destruct Hres as (a & Ha1 & Ha2 & Ha3). exists c', a. rewrite N1, N3. done.
      * destruct Hres as (Ha1 & Ha2 & -> & Ha3 & Ha4). split; [|done]. exists c'. rewrite N1, N3. done.
    + cbn [app] in Hres. destruct Hres as (Ha1 & Ha2 & -> & Ha3 & Ha4).
      destruct (IH (y :: b2) (rc + Z.of_nat (Nat.min k (length b))) st1) as (r & st' & l' & Hw & M2 & Hr).
      * apply M1.
      * rewrite <-Hconf. apply M1.
      * by rewrite N3.
      * done.
      * exists c'. rewrite N1, N3. done.
      * done.
      * apply (f_equal length) in Eb2. rewrite length_drop in Eb2. lia.
      * exists r, st', l'. split; [exact Hw|]. split; [split; [apply M2|]; split; [etrans; [apply M1|apply M2]|apply M2]|].
        destruct Hr as [Hr|[-> Hr]]; [by left|right]. split; [|done].
        apply (f_equal length) in Eb2. rewrite length_drop in Eb2. lia.
Qed.

Lemma send_moved st l : up st l -> srv_conf (net st) = conf -> 0 <= sequence_id st < two32 -> Z.of_nat (5 + length l) < few ->
  sync st -> is_Some (conn (net st)) ->
  exists r st' l', send_msg_tcp (pack_header 0 AUDIT_RMW_TYPE_MESSAGE (Z.of_nat (length x)) (sequence_id st)) (Some x) st = (r, st') /\
    moved 4 st l st' l' /\ ((r <> 0 /\ conn (net st') = None) \/ (r = 0 /\ replied st' l l')).
Proof.
  intros Hu Hconf Hq Hl Hs [[c out] E]. destruct (Hs c out E) as [Hb ->].
  set (h := pack_header 0 AUDIT_RMW_TYPE_MESSAGE (Z.of_nat (length x)) (sequence_id st)).
  assert (Hx : x <> []) by (destruct is_record as [(body & -> & _) _]; by destruct body).
  assert (Hsend : sending st (h ++ x)).
  { exists c. split; [done|]. unfold held. rewrite Hb. cbn [Z.to_nat take app]. split; [done|]. cbn. lia. }
  unfold send_msg_tcp, ar_write.
  destruct (write_loop_moved (length h) h x 0 st l) as (r1 & st1 & l1 & -> & M1 & Hr1); [done|done|done|done|done|done|lia|].
  destruct Hr1 as [[-> Hn]|[-> Hr1]]; [exists 1, st1, l1; split_and!; try done; by left|].
  assert (Hlen : 0 + Z.of_nat (length h) = 16) by (unfold h; by rewrite pack_length). rewrite Hlen. cbn [Z.leb Z.compare].
  assert (Hpos : 0 < Z.of_nat (length x)) by (destruct x; [done|cbn [length]; lia]). rewrite (proj2 (Z.ltb_lt _ _) Hpos).
  assert (Hr1' : sending st1 x /\ l1 = l) by (by destruct x). clear Hr1. destruct Hr1' as [Hr1 ->].
  pose proof M1 as (U1 & (K1 & K2 & K3) & G1).
  destruct (write_loop_moved (length x) x [] 0 st1 l) as (r2 & st2 & l2 & -> & M2 & Hr2).
  { done. } { by rewrite K3. } { by rewrite K2. } { done. } { by rewrite app_nil_r. } { done. } { lia. }
  assert (M : moved 4 st l st2 l2) by (split; [apply M2|]; split; [etrans; [apply M1|apply M2]|apply M2]).
  destruct Hr2 as [[-> Hn]|[-> Hr2]].
  - exists 1, st2, l2. split_and!; try done. by left.
  - rewrite (proj2 (Z.leb_gt (0 + Z.of_nat (length x)) 0)) by lia. exists 0, st2, l2. split_and!; try done. by right.
Qed.


(** ** Relaying *)

(** Actions after which an event stays in the queue. *)
Definition strict (a : RemoteConf.failure_action_t) : bool :=
  match a with
  | RemoteConf.FA_IGNORE | RemoteConf.FA_SYSLOG | RemoteConf.FA_EXEC | RemoteConf.FA_WARN_ONCE_CONT => false
  | _ => true
  end.

Lemma runlevel_same v st : same st (Remote.change_runlevel v st).
Proof.
  unfold Remote.change_runlevel. cbn [net_setup peer_net]. unfold peer_setup. destruct (pop (net st)) as [f p] eqn:Ep. apply pop_same in Ep.
  destruct f; split_and!; by destruct st.
Qed.

Lemma exec_same exe msg st : same st (Remote.safe_exec exe msg st).
Proof.
  unfold Remote.safe_exec. destruct exe; [|by split_and!]. cbn [net_setup peer_net]. unfold peer_setup. destruct (pop (net st)) as [f p] eqn:Ep. apply pop_same in Ep.
  destruct f; split_and!; by destruct st.
Qed.

Lemma action_same msg a exe st : exists rc st', do_action msg a exe st = (rc, st') /\ same st st' /\ (strict a = true -> rc = -1).
Proof.
  unfold do_action. destruct a; try (destruct (Z.testbit _ _)); eexists _, _; (split; [done|]); (split; [|done]);
    first [apply runlevel_same|apply exec_same|split_and!; by destruct st].
Qed.

Lemma stop_transport_moved st l : up st l -> RemoteConf.transport (config st) = RemoteConf.T_TCP -> Z.of_nat (3 + length l) < few ->
  exists l', moved 2 st l (stop_transport st) l' /\ sync (stop_transport st).
Proof.
  intros Hu Ht Hl. unfold stop_transport, Remote.has_transport. rewrite Ht. destruct (stop_sock_moved st l Hu Hl) as (l' & M & Hn).
  exists l'. split; [done|]. by apply no_conn_sync.
Qed.

(** A broken connection is found by the first write. *)
Lemma send_broken h s st l : up st l -> conn (net st) = None -> h <> [] ->
  exists st', send_msg_tcp h s st = (1, st') /\ moved 0 st l st' l.
Proof.
  intros Hu Hn Hh. unfold send_msg_tcp, ar_write. destruct h as [|h0 h]; [done|]. cbn [length ar_write_loop net_write peer_net].
  unfold peer_write. rewrite Hn. cbn [Remote.EPIPE Z.eqb Pos.eqb]. eexists. split; [done|]. replace (st<|net := net st|>) with st by (by destruct st).
  exact (proj1 (bare_moved st l _ (stop_bare st Hn) Hu)).
Qed.

(** The record is in the new text of the logs. *)
Definition logged l l' : Prop := exists y z, archive l' = archive l ++ y ++ x ++ z.

Lemma logged_grows l1 l2 l3 n : logged l1 l2 -> grows n l2 l3 -> logged l1 l3.
Proof. intros (y & z & H) [[w Hw] _]. exists y, (z ++ w). rewrite Hw, H. by rewrite <-!app_assoc. Qed.

Lemma grows_logged l1 l2 l3 n : grows n l1 l2 -> logged l2 l3 -> logged l1 l3.
Proof. intros [[w Hw] _] (y & z & H). exists (w ++ y), z. rewrite H, Hw. by rewrite <-!app_assoc. Qed.

Lemma answer_moved msg st l c a l0 : up st l -> RemoteConf.transport (config st) = RemoteConf.T_TCP ->
  strict (RemoteConf.disk_error_action (config st)) = true -> Z.of_nat (3 + length l) < few -> bufptr c = 0 ->
  (positive (ack_type a) /\ conn (net st) = Some (c, []) /\ logged l0 l) \/ ack_type a = AuditdEvent.AUDIT_RMW_TYPE_DISKERROR ->
  exists rc st' l', handle_answer (ack_type a) msg st = (rc, st') /\ moved 2 st l st' l' /\ sync st' /\ (0 <= rc -> logged l0 l').
Proof.
  intros Hu Ht Hst Hl Hb [([Ha|Ha] & E & Hlog)|Ha]; rewrite Ha; unfold handle_answer.
  - change (AUDIT_RMW_TYPE_ACK =? Remote.AUDIT_RMW_TYPE_DISKLOW) with false. change (AUDIT_RMW_TYPE_ACK =? Remote.AUDIT_RMW_TYPE_DISKFULL) with false.
    change (AUDIT_RMW_TYPE_ACK =? Remote.AUDIT_RMW_TYPE_DISKERROR) with false. cbn match.
    change (Z.land AUDIT_RMW_TYPE_ACK AUDIT_RMW_TYPE_FATALMASK =? 0) with true. change (Z.land AUDIT_RMW_TYPE_ACK AUDIT_RMW_TYPE_WARNMASK =? 0) with true. cbn [negb].
    exists 0, st, l. split; [done|]. split; [split; [done|]; split; [done|apply grows_refl]|]. split; [|done].
    intros c0 out0. rewrite E. intros H. by injection H as <- <-.
  - change (AuditdEvent.AUDIT_RMW_TYPE_DISKLOW =? Remote.AUDIT_RMW_TYPE_DISKLOW) with true. cbn match. unfold Remote.remote_disk_low_handler.
    destruct (action_same msg (RemoteConf.disk_low_action (config st)) (RemoteConf.disk_low_exe (config st)) st) as (rc & st' & -> & Hs & _).
    exists rc, st', l. split; [done|]. split; [by apply (link_more 0); [lia|]; apply same_moved|]. split; [|done].
    eapply same_sync; [exact Hs|]. intros c0 out0. rewrite E. intros H. by injection H as <- <-.
  - change (AuditdEvent.AUDIT_RMW_TYPE_DISKERROR =? Remote.AUDIT_RMW_TYPE_DISKLOW) with false. change (AuditdEvent.AUDIT_RMW_TYPE_DISKERROR =? Remote.AUDIT_RMW_TYPE_DISKFULL) with false.
    change (AuditdEvent.AUDIT_RMW_TYPE_DISKERROR =? Remote.AUDIT_RMW_TYPE_DISKERROR) with true. cbn match. unfold Remote.remote_disk_error_handler.
    destruct (stop_transport_moved st l Hu Ht Hl) as (l' & M & Hy). set (st1 := stop_transport st) in *. pose proof M as (_ & (C & _) & _). rewrite C.
    destruct (action_same msg (RemoteConf.disk_error_action (config st)) (RemoteConf.disk_error_exe (config st)) st1) as (rc & st' & -> & Hs & Hrc).
    exists rc, st', l'. split; [done|]. split; [exact (link_trans _ _ _ _ _ _ _ _ M (same_moved _ _ _ Hs (proj1 M)))|]. split; [by eapply same_sync|].
    rewrite Hrc by done. lia.
Qed.

(** One try. *)
Lemma once_moved st l : up st l -> sync st -> srv_conf (net st) = conf -> 0 <= sequence_id st < two32 ->
  RemoteConf.transport (config st) = RemoteConf.T_TCP -> strict (RemoteConf.disk_error_action (config st)) = true -> Z.of_nat (20 + length l) < few ->
  exists r st' l', relay_once (Some x) st = (r, st') /\ moved 14 st l st' l' /\ sync st' /\ (forall rc, r = Some rc -> 0 <= rc -> logged l l').
Proof.
  intros Hu Hy Hconf Hq Ht Hst Hl. unfold relay_once.
  assert (Hinit : exists ok st1, (if transport_ok st then (true, st) else let (rc, st) := init_transport st in (rc =? Remote.ET_SUCCESS, st)) = (ok, st1) /\
    moved 0 st l st1 l /\ sync st1).
  { destruct (transport_ok st); [exists true, st; split; [done|]; split; [split; [done|]; split; [done|apply grows_refl]|done]|].
    destruct (init_moved st l Hu Hy Ht) as (rc & st1 & -> & M & Y). by eexists _, _. }
  destruct Hinit as (ok & st1 & -> & M1 & Y1). pose proof M1 as (U1 & (C1 & Q1 & V1) & _).
  destruct ok; cbn [negb]; [|exists None, st1, l; split; [done|]; split; [by apply (link_more 0); [lia|]|]; done].
  assert (Hagain : forall n st2 l2, moved n st1 l st2 l2 -> (n <= 12)%nat -> exists r st' l', (@None Z, stop_transport st2) = (r, st') /\ moved 14 st l st' l' /\ sync st' /\
    (forall rc, r = Some rc -> 0 <= rc -> logged l l')).
  { intros n st2 l2 M2 Hn. pose proof M2 as (U2 & (C2 & _) & [_ G2]).
    destruct (stop_transport_moved st2 l2 U2) as (l3 & M3 & Y3); [by rewrite C2, C1|lia|].
    exists None, (stop_transport st2), l3. split; [done|]. split; [|done]. apply (link_more (0 + n + 2)); [lia|]. by eapply link_trans; [eapply link_trans|]. }
  change (default [] (Some x)) with x. destruct (conn (net st1)) as [[c0 out0]|] eqn:E1.
  2:{ destruct (send_broken (pack_header 0 AUDIT_RMW_TYPE_MESSAGE (Z.of_nat (length x)) (sequence_id st1)) (Some x) st1 l U1 E1 ltac:(done)) as (st2 & -> & M2).
      cbn [Z.eqb negb]. eapply Hagain; [exact M2|lia]. }
  destruct (send_moved st1 l) as (r & st2 & l2 & -> & M2 & Hr); [done|by rewrite V1|by rewrite Q1|lia|done|by rewrite E1|].
  destruct Hr as [[Hr Hn]|[-> (c & a & E2 & Hb & Hans)]].
  { rewrite (proj2 (Z.eqb_neq r 0) Hr). cbn [negb]. eapply Hagain; [exact M2|lia]. }
  cbn [Z.eqb negb]. pose proof M2 as (U2 & (C2 & Q2 & V2) & G2). rewrite Q2, Q1 in Hans.
  assert (Hack : ack_ok a).
  { destruct Hans as (Hsq & [([Hp|Hp] & Hm & _)|[Hp Hm]]); split_and!; rewrite ?Hp, ?Hsq, ?Hm; try done; lia. }
  destruct (recv_moved st2 l2 c a U2) as (rc & h & msg & st3 & l3 & -> & M3 & Hres); [destruct G2; lia|done|done|].
  destruct (Z.eqb_spec rc 0) as [->|Hrc]; cbn [negb]; [|eapply (Hagain (4 + 8)%nat); [by eapply link_trans|lia]].
  destruct Hres as [?|[-> Hconn]]; [done|]. cbn [h_type h_seq]. pose proof M3 as (U3 & (C3 & Q3 & V3) & G3).
  assert (Hend : (ack_type a =? AUDIT_RMW_TYPE_ENDING) = false) by (destruct Hans as (_ & [([Hp|Hp] & _)|[Hp _]]); by rewrite Hp). rewrite Hend.
  assert (Hseq : (ack_seq a =? u32 (sequence_id st3)) = true).
  { apply Z.eqb_eq. destruct Hans as [-> _]. rewrite Q3, Q2, Q1, u32_small; done. }
  rewrite Hseq. cbn [negb].
  destruct (answer_moved msg st3 l3 c a l) as (rc & st4 & l4 & -> & M4 & Y4 & Hlog).
  { done. } { by rewrite C3, C2, C1. } { by rewrite C3, C2, C1. } { destruct G2, G3; lia. } { done. }
  { destruct Hans as (_ & [(Hp & Hm & Harch)|[Hp _]]); [left|by right]. destruct (Hconn Hm) as [Hc ->]. split; [done|]. split; [done|].
    exists [], []. by rewrite app_nil_l, app_nil_r. }
  exists (Some rc), st4, l4. split; [done|]. split; [|split; [done|]].
  - apply (link_more (0 + 4 + 8 + 2)); [lia|]. eapply link_trans; [eapply link_trans; [eapply link_trans|]|]; done.
  - intros rc0 H. injection H as <-. done.
Qed.

Lemma loop_moved fuel tries start st l : up st l -> sync st -> srv_conf (net st) = conf -> 0 <= sequence_id st < two32 ->
  RemoteConf.transport (config st) = RemoteConf.T_TCP -> strict (RemoteConf.disk_error_action (config st)) = true -> 0 <= tries ->
  Z.to_nat (RemoteConf.max_tries_per_record (config st) + 2 - tries) = fuel -> tries <= RemoteConf.max_tries_per_record (config st) + 1 ->
  Z.of_nat (6 + 14 * fuel + length l) < few ->
  exists rc st' l', relay_loop fuel (Some x) tries start st = Some (rc, st') /\ moved (14 * fuel) st l st' l' /\ sync st' /\ (0 <= rc -> logged l l').
Proof.
  revert tries start st l. induction fuel as [|fuel IH]; intros tries start st l Hu Hy Hconf Hq Ht Hst Htr Hf Hle Hl; [lia|].
  cbn [relay_loop net_time peer_net]. destruct (peer_time (net st)) as [now p] eqn:Ep.
  assert (Hs0 : same st (st<|net := p|>)).
  { assert (Hp : same_peer (net st) p) by (unfold peer_time in Ep; destruct (ticks (net st)); injection Ep as _ <-; [done|]; split; by destruct (net st)).
    split_and!; destruct st; try done; apply Hp. }
  set (st0 := st<|net := p|>) in *. pose proof (same_moved st l _ Hs0 Hu) as M0. pose proof M0 as (U0 & (C0 & Q0 & V0) & _). pose proof (same_sync _ _ Hs0 Hy) as Y0. clearbody st0.
  assert (Hfail : exists rc st' l', Some (-1, (Remote.network_failure_handler [] st0).2) = Some (rc, st') /\ moved (14 * S fuel) st l st' l' /\ sync st' /\ (0 <= rc -> logged l l')).
  { unfold Remote.network_failure_handler. match goal with |- context [do_action ?m ?a ?e ?s] => destruct (action_same m a e s) as (rc & st' & -> & Hs & _) end.
    exists (-1), st', l. split; [done|]. split; [|split; [by eapply same_sync|lia]]. apply (link_more (0 + 0)); [lia|]. exact (link_trans _ _ _ _ _ _ _ _ M0 (same_moved _ _ _ Hs U0)). }
  rewrite C0. destruct (Z.ltb_spec (RemoteConf.max_tries_per_record (config st)) tries) as [_|Hmore]; [done|]. destruct (_ <? _); [done|].
  destruct (once_moved st0 l) as (r & st1 & l1 & -> & M1 & Y1 & Hr); [done|done|by rewrite V0|by rewrite Q0|by rewrite C0|by rewrite C0|lia|].
  destruct r as [rc|].
  - exists rc, st1, l1. split; [done|]. split; [|split; [done|by apply Hr]]. apply (link_more (0 + 14)); [lia|]. by eapply link_trans.
  - pose proof M1 as (U1 & (C1 & Q1 & V1) & [_ G1]).
    destruct (IH (tries + 1) (if start =? 0 then now else start) st1 l1) as (rc & st2 & l2 & -> & M2 & Y2 & Hrc);
      rewrite ?C1, ?C0, ?V1, ?V0, ?Q1, ?Q0; try done; try lia.
    exists rc, st2, l2. split; [done|]. split; [|split; [done|]].
    + apply (link_more (0 + 14 + 14 * fuel)); [lia|]. by eapply link_trans; [eapply link_trans|].
    + intros H. eapply grows_logged; [|by apply Hrc]. apply M1.
Qed.


End relay.


(** ** The queue *)

Import RQFacts (rep, header_known).
Import Remote (Machine, queue, world, plug).

(** A plugin that keeps an event which the server could not write. *)
Record forwarding (c : RemoteConf.remote_conf) : Prop := Forwarding {
  fwd_format : RemoteConf.format c = RemoteConf.F_MANAGED;
  fwd_transport : RemoteConf.transport c = RemoteConf.T_TCP;
  fwd_strict : strict (RemoteConf.disk_error_action c) = true;
  fwd_tries : 0 <= RemoteConf.max_tries_per_record c;
}.

Lemma event_moved x st l : forwarding (config st) -> up st l -> sync st -> record x ->
  AuditdConf.distribute_network_events (srv_conf (net st)) = 0 \/ extract_type (message_text x) <> AUDIT_EOE ->
  0 <= sequence_id st + 1 < two32 -> Z.of_nat (6 + 14 * Z.to_nat (RemoteConf.max_tries_per_record (config st) + 2) + length l) < few ->
  exists rc st' l', Remote.relay_event (Some x) st = Some (rc, st') /\ up st' l' /\ sync st' /\ config st' = config st /\
    (exists n, grows n l l') /\ (0 <= rc -> logged x l l').
Proof.
  intros Hf Hu Hy Hx He Hq Hl. unfold Remote.relay_event, Remote.has_transport, Remote.relay_sock, Remote.relay_sock_managed.
  rewrite (fwd_transport _ Hf), (fwd_format _ Hf). set (st1 := st<|sequence_id := _|>).
  assert (E1 : config st1 = config st /\ net st1 = net st /\ sock st1 = sock st /\ sequence_id st1 = sequence_id st + 1) by (unfold st1; by destruct st).
  destruct E1 as (E1 & E2 & E3 & E4).
  destruct (loop_moved x (srv_conf (net st)) Hx He (Z.to_nat (RemoteConf.max_tries_per_record (config st) + 2)) 0 0 st1 l)
    as (rc & st' & l' & -> & (U & (C & _) & G) & Y & Hrc); rewrite ?E1, ?E2, ?E4; try done; try apply Hf; try (f_equal; lia); try (pose proof (fwd_tries _ Hf); lia).
  exists rc, st', l'. split_and!; try done. by eexists.
Qed.

Lemma queue_error_same st : same st (Remote.queue_error st).
Proof. unfold Remote.queue_error. match goal with |- context [do_action ?m ?a ?e ?s] => by destruct (action_same m a e s) as (rc & st' & -> & Hs & _) end. Qed.

Lemma shape_header q q' w w' : RQFacts.same_shape q q' -> Os.inodes w' = Os.inodes w -> header_known q w -> header_known q' w'.
Proof.
  intros (H1 & H2 & H3 & H4) Hi Hk. unfold header_known in *. rewrite H2, H3, H4. intros d Hd. unfold Os.contents. rewrite Hi. by apply Hk.
Qed.



End link.

End RemoteLink.
