(* ===== verification/RemoteSamples.v ===== *)
(** * A sample connection

    The theorems about remote logging at concrete inputs, and messages that the daemon
    does not treat as it should. *)
From S2P Require Import Prelude CString StrSplit Config ConfigFacts AuditdConf RemoteConf Os RemoteQueue RemoteQueueFacts Lol Ellist Lookup AuditdEvent AuditdEventFacts AuditdLogs AuditdSamples Rmw Listen ListenFacts Remote RemoteLink.
From coqutil Require Import Datatypes.RecordSetters.
Import RecordSetters.TriangleBracketNotations.

Local Open Scope audit_scope.
Local Open Scope string_scope.
Local Open Scope list_scope.
Local Open Scope Z_scope.

Module RemoteSamples.
Import Listen ListenFacts RemoteLink AuditdSamples.

#[local] Existing Instances sample_part sample_host sample_tabs.
#[local] Instance sample_types : Lol.MsgTypes := fun s => if str_eq s "DAEMON_ROTATE" then Some AuditdEvent.AUDIT_DAEMON_ROTATE else None.

Definition text (s : string) : bytes := code <$> String.list_ascii_of_string s.
Definition sample_daemon (c : AuditdConf.daemon_conf) : daemon := Daemon (sample_state c []) [].
Definition sample_message (seq : Z) (s : string) : message := Message Rmw.AUDIT_RMW_TYPE_MESSAGE seq (text s).

(** Two messages, the second of which is not complete. *)
Definition sample_stream : bytes := encode (sample_message 5 "ab") ++ encode (sample_message 6 "cd").

Lemma client_stream_witness : exists k c', (k <= 2)%nat /\ held c' ++ text "d" = concat (encode <$> drop k [sample_message 5 "ab"; sample_message 6 "cd"]) /\
  serve_bursts id "" new_client [[Data (take 20 sample_stream)]; [Data (drop 20 (take 35 sample_stream))]] (sample_daemon sample_conf) =
    (d ← serve_all id "" (take k [sample_message 5 "ab"; sample_message 6 "cd"]) (sample_daemon sample_conf); Some (Stay c' [], d)).
Proof.
  destruct (client_stream id "" [sample_message 5 "ab"; sample_message 6 "cd"] [[Data (take 20 sample_stream)]; [Data (drop 20 (take 35 sample_stream))]]
    (text "d") (sample_daemon sample_conf)) as (k & c' & Hk & Hheld & _ & Hserve).
  - repeat constructor; by_decision.
  - by repeat constructor.
  - vm_compute. reflexivity.
  - exists k, c'. split; [exact Hk|]. split; [exact Hheld|exact Hserve].
Defined.

(** An address of the family AF_INET. *)
Definition sample_addr : bytes := [2; 0; 0; 60; 10; 0; 0; 1].

Lemma connections_limited_witness :
  Z.of_nat (length (List.filter (from_addr AF_INET [10; 0; 0; 1])
    (client_chain (auditd_tcp_listen_handler (Some (8, sample_addr)) true (auditd_tcp_listen_handler (Some (7, sample_addr)) true (Listener [] 0 1000 1 [])))))) <= Z.max 1 1.
Proof.
  apply (connections_limited id "" 0 1000 1). eapply rtc_l; [apply lstep_accept|]. eapply rtc_l; [apply lstep_accept|]. apply rtc_refl.
Defined.

(** A plugin that is connected, with one record in its queue. *)
Definition sample_record : bytes := text "type=A msg=b" ++ [10].
Definition sample_queue : RQ.queue := RQ.Queue 1 None (Some [Some sample_record; None]) 2 12288 0 1.
Definition sample_world : Os.os := Os.OS ∅ ∅ [].
Definition sample_remote : RemoteConf.remote_conf := RemoteConf.clear_config<|RemoteConf.disk_error_action := RemoteConf.FA_SUSPEND|>.

Definition sample_peer (c : AuditdConf.daemon_conf) (faults : list fault) : peer := Peer faults (Some (new_client, [])) (sample_daemon c) [].
Definition sample_plugin (r : RemoteConf.remote_conf) (p : peer) : Remote.plugin peer := Remote.Plugin r false false true true false 0 1 true p [].

Lemma sample_rep : RQFacts.rep sample_queue sample_world [sample_record].
Proof.
  split; [by split|done|done|done| |..].
  - constructor; [split; [by repeat constructor|done]|constructor].
  - intros m H. injection H as <-. split; [done|]. intros [|[|i]] s Hs; [injection Hs as <-; by exists O|done|done].
  - done.
  - intros _. eexists. split; [done|]. intros [|k] s Hs; [by injection Hs as <-|done].
Qed.

Lemma sample_up r faults : up (sample_plugin r (sample_peer sample_conf faults)) [[]].
Proof.
  split; [|done]. split; [split; [by_decision|by apply sample_holds]|]. intros c out H. injection H as <- _. apply new_sound.
Qed.


(** ** What goes wrong *)

(** The texts of the log. *)
Definition log_text (d : daemon) : option (list Z) := AuditdLogs.log_at (AuditdEvent.files (logging d)) "/l" 0.

(** A connection that ends inside of a message: the part of the message that is there is
    logged as an event. *)
Example part_is_logged :
  (fun x => log_text x.2) <$> serve_bursts id "" new_client [[Data (take 17 (encode (sample_message 5 "ab"))); Eof]; [Eof]] (sample_daemon sample_conf) =
  Some (Some (text "a" ++ [10])).
Proof. vm_compute. reflexivity. Qed.

(** A message of more than MAX_AUDIT_MESSAGE_LENGTH - 16 bytes never fits: it is logged
    without its end, answered positively, and the connection is closed. *)
Definition big_message : message := Message Rmw.AUDIT_RMW_TYPE_MESSAGE 5 (replicate 8960 65).
Example big_message_cut :
  (fun x => (x.1, length <$> log_text x.2, AuditdEvent.ack_type <$> AuditdEvent.acks (logging x.2))) <$>
    serve_bursts id "" new_client [[Data (encode big_message)]] (sample_daemon sample_conf) =
  Some (Closed, Some (Z.to_nat (8970 - 16 + 1)), [AuditdEvent.AUDIT_RMW_TYPE_ACK]).
Proof. vm_compute. reflexivity. Qed.

(** With distribute_network_events an event that reports the rotation of the logs of a
    client rotates the logs of the server. *)
Example client_rotates :
  (fun d => AuditdLogs.log_at (AuditdEvent.files (logging d)) "/l" 1) <$>
    serve id "" (sample_message 5 "type=DAEMON_ROTATE msg=a") (sample_daemon (sample_conf<|AuditdConf.distribute_network_events := 1|>)) =
  Some (Some []).
Proof. vm_compute. reflexivity. Qed.

(** disk_low_action warn_once: while the server is low on space every try sends the
    event again, so that the server logs it again and again. *)
Example sent_again_and_again :
  let c := sample_conf<|AuditdConf.space_left := 75000|><|AuditdConf.space_left_action := AuditdConf.FA_SYSLOG|> in
  let r := sample_remote<|RemoteConf.disk_low_action := RemoteConf.FA_WARN_ONCE|> in
  (fun m => (RQ.q_queue_length (Remote.queue m), length <$> log_text (server (Remote.net (Remote.plug m))))) <$>
    @Remote.drain peer (peer_net id "") 4 (Remote.Machine sample_queue sample_world (sample_plugin r (sample_peer c []))) =
  Some (1, Some (4 * length sample_record)%nat).
Proof. vm_compute. reflexivity. Qed.


End RemoteSamples.
