(* ===== verification/SearchParse.v ===== *)
(** * The items of an event (src/src/ausearch-parse.c)

    ausearch takes from each record of an event what its options ask for.  The
    parsers look for names in the text of the record, end a value by writing a NUL
    behind it, and put the character back; a parser that gives up in between leaves
    the text cut.  A record is the block of its characters with the NUL at the end,
    a pointer is an index.  [None] is an access outside of the block.  (Behind the
    text of an enriched record lie its interpretations in the same block; reading
    beyond the NUL is a bad access here all the same.)  Memory can be had. *)
From S2P Require Import Prelude CString CList StrSplit HitList Avc Llist Nvlist Escape Ellist Interpret AuSearch Match.
From coqutil Require Import Datatypes.RecordSetters.
Import RecordSetters.TriangleBracketNotations.

Local Open Scope audit_scope.
Local Open Scope string_scope.
Local Open Scope Z_scope.

Module SearchParse.
Import Llist.
Import (hints) Match.

Abbreviation chars := (list ascii).
Abbreviation options := Match.options.
Abbreviation to_int := AuSearch.to_int.

(** ** Numbers and words *)

(** strtoul() and strtoull() with base 16: the digits may follow 0x. *)
Definition hex_digits (s : string) : string :=
  match s with
  | String z (String x s') =>
      if (z =c "0"%char) && ((x =c "x"%char) || (x =c "X"%char)) && Escape.isxdigit (char_at s') then s' else s
  | _ => s
  end.
Definition strtoul_hex (s : string) : Z * bool :=
  let (neg, s) := scan_sign s in
  let (v, _) := digits 16 0 (hex_digits s) in
  if SIZE_MAX <? v then (SIZE_MAX, true)
  else (if neg then u64 (- v) else v, false).

(** strtoll() with base 0: the text tells the base. *)
Definition strtoll_any (s : string) : Z * bool :=
  let (neg, s) := scan_sign s in
  let v := if str_eq (hex_digits s) s
           then fst (digits (if char_at s =c "0"%char then 8 else 10) 0 s)
           else fst (digits 16 0 (hex_digits s)) in
  if neg then (if v <=? 2 ^ 63 then (- v, false) else (- 2 ^ 63, true))
  else (if v <? 2 ^ 63 then (v, false) else (2 ^ 63 - 1, true)).

(** strstr(): where the needle begins. *)
Fixpoint begins (p s : chars) : bool :=
  match p, s with
  | [], _ => true
  | c :: p, d :: s => (c =c d) && begins p s
  | _, [] => false
  end.
Fixpoint find_sub (needle s : chars) : option nat :=
  if begins needle s then Some O
  else match s with [] => None | _ :: s => S <$> find_sub needle s end.

(** The words strtok_r() gives for one separator. *)
Fixpoint tokens_from (sep : ascii) (word s : chars) : list chars :=
  match s with
  | [] => match word with [] => [] | _ => [word] end
  | c :: s => if c =c sep
              then match word with [] => [] | _ => [word] end ++ tokens_from sep [] s
              else tokens_from sep (word ++ [c]) s
  end%list.
Definition tokens (sep : ascii) (s : chars) : list chars := tokens_from sep [] s.

Definition AUDIT_KEY_SEPARATOR : ascii := chr 1.
Definition NAME_OFFSET : nat := 28.
Definition PATH_MAX : nat := Z.to_nat 4096.

(** ** What the parsers share *)

(** The nodes of src/ausearch-nvpair.c: names of users by number. *)
Record uid_node := UidNode { uid_name : string; uid_val : Z }.

(** The interpretations that were loaded (static in interpret.c, [loaded] in
    ausearch-report.c) and the names that were looked up; [None]: the list is not
    created yet. *)
Record world := World {
  il : Nv.nvlist;
  loaded : bool;
  uid_nvl : option (clist uid_node);
}.

(** [nvlist_append] and [nvlist_find_val] of ausearch-nvpair.c. *)
Definition uid_append (n : uid_node) (l : clist uid_node) : option (clist uid_node) :=
  match nodes l with
  | [] => Some (cl_link_head n l)
  | _ => _ ← cur l; cl_link_cur n (cl_last l)
  end.
Definition uid_find_val (val : Z) (l : clist uid_node) : bool * clist uid_node :=
  cl_find (fun n => uid_val n =? val) (cl_head l) l.

(** The record, the items, the vector of an AVC record, and the world. *)
Record pstate := PState {
  msg : chars;
  pa0 : Z;
  pa1 : Z;
  it : search_items;
  an : Avc.anode;
  wd : world;
}.

(** A parser goes on or returns a code. *)
Inductive outcome (A : Type) := Ok (a : A) | Ret (rc : Z).
Arguments Ok {A} _.
Arguments Ret {A} _.

Definition M (A : Type) : Type := pstate -> option (outcome A * pstate).
#[global] Instance M_ret : MRet M := fun A a st => Some (Ok a, st).
#[global] Instance M_bind : MBind M := fun A B k m st =>
  match m st with
  | None => None
  | Some (Ok a, st) => k a st
  | Some (Ret rc, st) => Some (Ret rc, st)
  end.

Definition fail {A} : M A := fun _ => None.
Definition ret {A} (rc : Z) : M A := fun st => Some (Ret rc, st).

(** A call: what it returns, 0 at its end. *)
Definition call (m : M unit) : M Z := fun st =>
  match m st with
  | None => None
  | Some (Ok _, st) => Some (Ok 0, st)
  | Some (Ret rc, st) => Some (Ok rc, st)
  end.

Definition lift {A} (x : option A) : M A := fun st => x ← x; Some (Ok x, st).
Definition modify (f : pstate -> pstate) : M unit := fun st => Some (Ok tt, f st).
Definition get {A} (f : pstate -> A) : M A := fun st => Some (Ok (f st), st).
Definition items {A} (f : search_items -> A) : M A := get (fun st => f (it st)).
Definition upd (f : search_items -> search_items) : M unit := modify (fun st => st<|it := f (it st)|>).
Definition upd_an (f : Avc.anode -> Avc.anode) : M unit := modify (fun st => st<|an := f (an st)|>).

(** The string at a pointer; the characters there. *)
Definition text (p : nat) : M chars := fun st =>
  if decide (p < length (msg st))%nat then Some (Ok (StrSplit.c_string (msg st) p), st) else None.
Definition peek (p : nat) : M ascii := fun st => c ← msg st !! p; Some (Ok c, st).
Definition before (p : nat) : M ascii := match p with O => fail | S q => peek q end.
Definition poke (p : nat) (c : ascii) : M unit := fun st =>
  if decide (p < length (msg st))%nat then Some (Ok tt, st<|msg := <[p := c]> (msg st)|>) else None.

Definition strstr (p : nat) (needle : string) : M (option nat) :=
  t ← text p; mret (Nat.add p <$> find_sub (Ellist.to_chars needle) t).
Definition strchr (p : nat) (c : ascii) : M (option nat) :=
  t ← text p; mret ((fun x => p + x.1)%nat <$> list_find (fun d => d = c) t).

(** [p++] while the character at [p] is one of these. *)
Fixpoint scan (fuel : nat) (f : ascii -> bool) (p : nat) : M nat :=
  match fuel with
  | O => fail
  | S fuel => c ← peek p; if f c then scan fuel f (S p) else mret p
  end.
Definition scan_while (f : ascii -> bool) (p : nat) : M nat :=
  n ← get (fun st => length (msg st)); scan (S n) f p.

(** The next [c], or return [rc]. *)
Definition end_at (c : ascii) (p : nat) (rc : Z) : M nat :=
  t ← strchr p c; match t with None => ret rc | Some t => mret t end.

(** [*term = 0], use the string, put [c] back; the conversion may fail with the
    code [rc]. *)
Definition convert {A} (f : string -> A * bool) (ptr term : nat) (c : ascii) (rc : Z) : M A :=
  _ ← poke term NUL;
  t ← text ptr;
  let (v, errno) := f (Ellist.to_string t) in
  if errno then ret rc else _ ← poke term c; mret v.
Definition dup (ptr term : nat) (c : ascii) : M string :=
  _ ← poke term NUL; t ← text ptr; _ ← poke term c; mret (Ellist.to_string t).

(** The same where [term] may be NULL. *)
Definition convert_to {A} (f : string -> A * bool) (ptr : nat) (term : option nat) (rc : Z) : M A :=
  match term with
  | Some term => convert f ptr term " "%char rc
  | None => t ← text ptr; let (v, errno) := f (Ellist.to_string t) in if errno then ret rc else mret v
  end.
Definition dup_to (ptr : nat) (term : option nat) : M string :=
  match term with
  | Some term => dup ptr term " "%char
  | None => t ← text ptr; mret (Ellist.to_string t)
  end.

(** ** Fields *)

Abbreviation setter := (Z -> search_items -> search_items).

(** A number that ends at a blank, at [ptr] or behind [name]; the result is where
    it ends. *)
Definition num_at (ptr : nat) (no_end bad : Z) (set : setter) : M nat :=
  term ← end_at " "%char ptr no_end;
  v ← convert (strtoul 10) ptr term " "%char bad;
  _ ← upd (set v); mret term.
Definition num_field (term : nat) (name : string) (skip : nat) (no_end bad : Z) (set : setter)
    (missing : M nat) : M nat :=
  str ← strstr term name;
  match str with None => missing | Some str => num_at (str + skip) no_end bad set end.

(** A number that may be the last of the record. *)
Definition last_num (ptr : nat) (bad : Z) (set : setter) : M (option nat) :=
  term ← strchr ptr " "%char;
  v ← convert_to (strtoul 10) ptr term bad;
  _ ← upd (set v); mret term.

(** A number in base 16, or another one that is stored in an int. *)
Definition int_field (f : string -> Z * bool) (term : nat) (name : string) (skip : nat)
    (missing : M nat) (no_end bad : Z) (set : setter) : M nat :=
  str ← strstr term name;
  match str with
  | None => missing
  | Some str =>
      let ptr := (str + skip)%nat in
      term ← end_at " "%char ptr no_end;
      v ← convert f ptr term " "%char bad;
      _ ← upd (set (to_int v)); mret term
  end.

(** [audit_avc_init] and [alist_append]. *)
Definition add_avc (n : Avc.anode) : M unit := fun st =>
  a ← Avc.alist_append n (default Avc.alist_create (avc (it st)));
  Some (Ok tt, st<|it := (it st)<|avc := Some a|>|>).

Definition subject (t : string) : Avc.anode := Avc.anode_init<|Avc.scontext := Some t|>.
Definition object (t : string) : Avc.anode := Avc.anode_init<|Avc.tcontext := Some t|>.

(** A context that ends at a blank. *)
Definition context_at (str : nat) (no_end : Z) (mk : string -> Avc.anode) : M nat :=
  term ← end_at " "%char str no_end;
  t ← dup str term " "%char;
  _ ← add_avc (mk t); mret term.
Definition context_field (term : nat) (name : string) (skip : nat) (no_end : Z)
    (mk : string -> Avc.anode) : M nat :=
  str ← strstr term name;
  match str with None => mret term | Some str => context_at (str + skip) no_end mk end.

(** A context that may be the last field. *)
Definition last_context (term : nat) (name : string) (skip : nat) (mk : string -> Avc.anode)
    : M (option (nat * option nat)) :=
  str ← strstr term name;
  match str with
  | None => mret None
  | Some str =>
      let str := (str + skip)%nat in
      term ← strchr str " "%char;
      t ← dup_to str term;
      _ ← add_avc (mk t); mret (Some (str, term))
  end.

(** [unescape] of ausearch-lookup.c: NULL or the block. *)
Definition unescape (buf : chars) : option (option chars) :=
  match Escape.name_end buf with
  | None => Some None
  | Some ptr =>
      let str := (take ptr buf ++ [NUL])%list in
      match buf with
      | "("%char :: _ => Some (Some str)
      | _ =>
          if decide (ptr < 2)%nat then Some None
          else '(p, str) ← Escape.x2c_loop (S ptr) 0 0 ptr str; Some (Some (<[p := NUL]> str))
      end
  end.
Definition unescape_at (p : nat) : M (option chars) :=
  t ← text p; lift (unescape t).
Definition unescaped (p : nat) : M (option string) :=
  blk ← unescape_at p; mret (Interpret.text_of <$> blk).

(** A text in quotes, or one that is encoded, which does not move [term]. *)
Definition text_value (term str : nat) (no_end : Z) (set : option string -> search_items -> search_items)
    : M nat :=
  c ← peek str;
  if c =c DQUOTE then
    term ← end_at DQUOTE (S str) no_end;
    t ← dup (S str) term DQUOTE;
    _ ← upd (set (Some t)); mret term
  else v ← unescaped str; _ ← upd (set v); mret term.
Definition text_field (from term : nat) (name : string) (skip : nat) (no_end : Z)
    (set : option string -> search_items -> search_items) (missing : M nat) : M nat :=
  str ← strstr from name;
  match str with None => missing | Some str => text_value term (str + skip) no_end set end.

(** ** The parsers *)

(** The database of users, the names of hosts, and memory. *)
Class Env := {
  getpwuid : Z -> option string;
  (** getnameinfo() with NI_NUMERICHOST of these bytes, [None] when it fails. *)
  getnameinfo : chars -> option string;
  smalloc : gmap HitList.addr (HitList.node HitList.snode) -> HitList.addr;
  junk : ascii;
}.

Section parsers.
Context `{Env}.
Context (o : options) (report_format : Z).

Definition RPT_DEFAULT : Z := 1.

Definition is_set {A} (x : option A) : bool := match x with Some _ => true | None => false end.
Definition want_uid : bool := negb (Match.event_uid o =? u32 (-1)) || is_set (Match.event_tuid o).
Definition want_euid : bool := negb (Match.event_euid o =? u32 (-1)) || is_set (Match.event_teuid o).
Definition want_auid : bool := negb (Match.event_loginuid o =? u32 (-2)) || is_set (Match.event_tauid o).
Definition want_gid : bool := negb (Match.event_gid o =? u32 (-1)).
Definition want_egid : bool := negb (Match.event_egid o =? u32 (-1)).
Definition want_ppid : bool := negb (Match.event_ppid o =? -1).
Definition want_pid : bool := negb (Match.event_pid o =? -1).
Definition want_ses : bool := negb (Match.event_session_id o =? u32 (-2)).
Definition want_success : bool := negb (Match.event_success o =? S_UNSET).

(** The part of a parser that an option asks for. *)
Definition when (b : bool) (term : nat) (m : nat -> M nat) : M nat := if b then m term else mret term.

Definition set_ppid : setter := fun v i => i<|ppid := to_int v|>.
Definition set_pid : setter := fun v i => i<|pid := to_int v|>.
Definition set_uid : setter := fun v i => i<|uid := u32 v|>.
Definition set_euid : setter := fun v i => i<|euid := u32 v|>.
Definition set_auid : setter := fun v i => i<|loginuid := u32 v|>.
Definition set_gid : setter := fun v i => i<|gid := u32 v|>.
Definition set_egid : setter := fun v i => i<|egid := u32 v|>.
Definition set_ses : setter := fun v i => i<|session_id := u32 v|>.
Definition set_success : setter := fun v i => i<|success := to_int v|>.
Definition set_arch : setter := fun v i => i<|arch := v|>.
Definition set_syscall : setter := fun v i => i<|syscall := v|>.
Definition set_comm (v : option string) (i : search_items) : search_items := i<|comm := v|>.
Definition set_exe (v : option string) (i : search_items) : search_items := i<|exe := v|>.
Definition set_vmname (v : option string) (i : search_items) : search_items := i<|vmname := v|>.
Definition set_cwd (v : option string) (i : search_items) : search_items := i<|cwd := v|>.

(** The name of a user: as logged with the record, or from the database, through the
    list of names. *)
Definition lookup_uid (field : string) (u : Z) : M (option string) := fun st =>
  let w := wd st in
  value ← Interpret.auparse_lookup_interpretation junk (il w) field;
  match value with
  | Some v => Some (Ok (Some v), st)
  | None =>
      if u =? 0 then Some (Ok (Some "root"), st)
      else if u =? u32 (-1) then Some (Ok (Some "unset"), st)
      else
        let l := default cl_create (uid_nvl w) in
        let '(found, l) := uid_find_val u l in
        if found then n ← cl_get_cur l; Some (Ok (Some (uid_name n)), st<|wd := w<|uid_nvl := Some l|>|>)
        else
          match getpwuid u with
          | Some name =>
              l ← uid_append (UidNode name u) l;
              Some (Ok (Some name), st<|wd := w<|uid_nvl := Some l|>|>)
          | None => Some (Ok None, st<|wd := w<|uid_nvl := Some l|>|>)
          end
  end.

Definition lookup_uid_destroy_list (w : world) : world := w<|uid_nvl := None|>.

Definition name_uid : M unit :=
  u ← items uid; t ← lookup_uid "uid" u; upd (fun i => i<|tuid := t|>).
Definition name_euid : M unit :=
  u ← items euid; t ← lookup_uid "euid" u; upd (fun i => i<|teuid := t|>).
Definition name_auid : M unit :=
  u ← items loginuid; t ← lookup_uid "auid" u; upd (fun i => i<|tauid := t|>).

(** auid= or, in older records, loginuid=: where the number is. *)
Definition find_auid (term : nat) : M (option nat) :=
  str ← strstr term "auid=";
  match str with
  | Some str => mret (Some (str + 5)%nat)
  | None => str ← strstr term "loginuid="; mret ((fun p => p + 9)%nat <$> str)
  end.

(** The label [try_again]: uid= that is not part of auid=, and where the search got
    to. *)
Fixpoint try_again (fuel term : nat) : M (option nat * nat) :=
  match fuel with
  | O => fail
  | S fuel =>
      str ← strstr term "uid=";
      match str with
      | None => mret (None, term)
      | Some str => c ← before str; if c =c "a"%char then try_again fuel (S str) else mret (Some str, term)
      end
  end.
Definition find_uid (term : nat) : M (option nat * nat) :=
  n ← get (fun st => length (msg st)); try_again (S n) term.

(** *** Tasks *)

Definition task_auid (term : nat) (none no_end bad : Z) : M nat :=
  ptr ← find_auid term;
  match ptr with
  | None => ret none
  | Some ptr => term ← num_at ptr no_end bad set_auid; _ ← name_auid; mret term
  end.

Definition task_uid (term : nat) : M nat :=
  '(str, _) ← find_uid term;
  match str with
  | None => ret 22
  | Some str => term ← num_at (str + 4) 23 24 set_uid; _ ← name_uid; mret term
  end.

(** A number that must be there. *)
Definition must (rc : Z) : M nat := ret rc.

Definition task_ids (term : nat) : M nat :=
  term ← when want_ppid term (fun term => num_field term "ppid=" 5 14 15 set_ppid (mret term));
  term ← when want_pid term (fun term => num_field term " pid=" 5 17 18 set_pid (must 16));
  term ← when want_auid term (fun term => task_auid term 19 20 21);
  term ← when want_uid term task_uid;
  term ← when want_gid term (fun term => num_field term "gid=" 4 26 27 set_gid (must 25));
  term ← when want_euid term (fun term =>
    term ← num_field term "euid=" 5 29 30 set_euid (must 28); _ ← name_euid; mret term);
  when want_egid term (fun term => num_field term "egid=" 5 32 33 set_egid (must 31)).

(** tty= to the next blank. *)
Definition tty_field (term : nat) (no_end : Z) (missing : M nat) : M nat :=
  str ← strstr term "tty=";
  match str with
  | None => missing
  | Some str =>
      let str := (str + 4)%nat in
      term ← end_at " "%char str no_end;
      t ← dup str term " "%char;
      _ ← upd (fun i => i<|terminal := Some t|>); mret term
  end.

(** comm= replaces what a record before set, even when there is no end. *)
Definition task_comm (term : nat) : M nat :=
  text_field term term "comm=" 5 37 set_comm (ret 38).

(** exe= is looked for from the beginning. *)
Definition task_exe (term : nat) : M nat :=
  text_field 0 term "exe=" 4 39 set_exe (ret 40).

(** res= as a number, perhaps at the end. *)
Definition res_number (term : nat) (bad : Z) (missing : M unit) : M unit :=
  str ← strstr term "res=";
  match str with
  | None => missing
  | Some str => _ ← last_num (str + 4) bad set_success; mret tt
  end.

Definition parse_task_info : M unit :=
  term ← task_ids 0;
  term ← when (is_set (Match.event_terminal o)) term (fun term => tty_field term 34 (mret term));
  term ← when want_ses term (fun term => num_field term "ses=" 4 35 36 set_ses (mret term));
  term ← when (is_set (Match.event_comm o)) term task_comm;
  term ← when (is_set (Match.event_exe o)) term task_exe;
  term ← when (is_set (Match.event_subject o)) term (fun term => context_field term "subj=" 5 41 subject);
  if want_success then res_number term 43 (mret tt) else mret tt.

(** *** System calls *)

Definition yes_no (term : nat) : M nat :=
  str ← strstr term "success=";
  match str with
  | None => mret term
  | Some str =>
      let ptr := (str + 8)%nat in
      term ← end_at " "%char ptr 7;
      t ← dup ptr term " "%char;
      _ ← upd (fun i => i<|success := if str_eq t "yes" then S_SUCCESS else S_FAILED|>); mret term
  end.

Definition exit_field (term : nat) : M nat :=
  str ← strstr term "exit=";
  match str with
  | None => ret 8
  | Some str =>
      let ptr := (str + 5)%nat in
      term ← end_at " "%char ptr 9;
      v ← convert strtoll_any ptr term " "%char 10;
      _ ← upd (fun i => i<|exit := v|><|exit_is_set := true|>); mret term
  end.

(** An argument, stored in the record. *)
Definition set_a0 (v : Z) (st : pstate) : pstate := st<|pa0 := v|>.
Definition set_a1 (v : Z) (st : pstate) : pstate := st<|pa1 := v|>.
Definition arg_field (term : nat) (name : string) (set : Z -> pstate -> pstate) : M nat :=
  str ← strstr term name;
  match str with
  | None => ret 11
  | Some str =>
      let ptr := (str + 3)%nat in
      term ← end_at " "%char ptr 12;
      v ← convert strtoul_hex ptr term " "%char 13;
      _ ← modify (set v); mret term
  end.

(** [slist_append] to the keys or the names of files. *)
Definition add_key (t : string) : M unit := fun st =>
  l ← HitList.slist_append smalloc (HitList.SNode (Some t) None 1)
        (default HitList.slist_create (key (it st)));
  Some (Ok tt, st<|it := (it st)<|key := Some l|>|>).
Fixpoint add_keys (ts : list chars) : M unit :=
  match ts with [] => mret tt | t :: ts => _ ← add_key (Ellist.to_string t); add_keys ts end.

(** The list is created even if nothing is added. *)
Definition create_key (i : search_items) : search_items :=
  i<|key := Some (default HitList.slist_create (key i))|>.

(** key=, with several keys when it is encoded. *)
Definition key_field (term : nat) (no_end bad : Z) : M nat :=
  str ← strstr term "key=";
  match str with
  | None => mret term
  | Some str =>
      _ ← upd create_key;
      let str := (str + 4)%nat in
      c ← peek str;
      if c =c DQUOTE then
        term ← end_at DQUOTE (S str) no_end;
        t ← dup (S str) term DQUOTE;
        _ ← add_key t; mret term
      else
        keyptr ← unescape_at str;
        match keyptr with
        | None => ret bad
        | Some blk => _ ← add_keys (tokens AUDIT_KEY_SEPARATOR (StrSplit.until_nul blk)); mret term
        end
  end.

Definition parse_syscall : M unit :=
  term ← when ((RPT_DEFAULT <? report_format) || negb (Match.event_machine o =? -1)) 0 (fun term =>
    int_field strtoul_hex term "arch=" 5 (ret 1) 2 3 set_arch);
  term ← int_field (strtoul 10) term "syscall=" 8 (ret 4) 5 6 set_syscall;
  term ← when want_success term yes_no;
  term ← when (Match.event_exit_is_set o) term exit_field;
  term ← arg_field term "a0=" set_a0;
  term ← arg_field term "a1=" set_a1;
  rc ← call parse_task_info;
  if negb (rc =? 0) then ret rc else
  _ ← when (is_set (Match.event_key o)) term (fun term => key_field term 44 45);
  mret tt.

(** *** Names of files *)

Definition parse_dir : M unit :=
  if is_set (Match.event_filename o) then
    str ← strstr NAME_OFFSET " cwd=";
    match str with
    | None => mret tt
    | Some str =>
        let str := (str + 5)%nat in
        c ← peek str;
        have ← items cwd;
        if c =c DQUOTE then
          term ← end_at DQUOTE (S str) 1;
          t ← dup (S str) term DQUOTE;
          if is_set have then mret tt else upd (set_cwd (Some t))
        else if is_set have then mret tt
        else v ← unescaped str; upd (set_cwd v)
    end
  else mret tt.

(** A relative name behind the working directory, cut to PATH_MAX. *)
Definition from_cwd (dir : option string) (t : string) : string :=
  match dir, t with
  | Some d, String c1 (String c2 _) =>
      if (c1 =c "."%char) && ((c2 =c "."%char) || (c2 =c "/"%char))
      then prefix_of (PATH_MAX - 1) (String.append d (String.append "/" t)) else t
  | _, _ => t
  end.

Definition add_file (t : string) : M unit := fun st =>
  l ← HitList.slist_append smalloc (HitList.SNode (Some t) None 1)
        (default HitList.slist_create (filename (it st)));
  Some (Ok tt, st<|it := (it st)<|filename := Some l|>|>).
Definition create_filename (i : search_items) : search_items :=
  i<|filename := Some (default HitList.slist_create (filename i))|>.

Definition common_path_parser (path : nat) : M unit :=
  _ ← upd create_filename;
  c ← peek path;
  dir ← items cwd;
  if c =c DQUOTE then
    term ← end_at DQUOTE (S path) 2;
    t ← dup (S path) term DQUOTE;
    add_file (from_cwd dir t)
  else
    t ← text path;
    if begins (Ellist.to_chars "(null)") t then add_file "(null)"
    else if negb (Escape.isxdigit c) then ret 4
    else
      v ← (if begins (Ellist.to_chars "00") t then unescaped (path + 2)
           else
             term ← end_at " "%char path 5;
             _ ← poke term NUL; v ← unescaped path; _ ← poke term " "%char; mret v);
      match v with
      | None => ret 7
      | Some v => add_file (from_cwd dir v)
      end.

Definition avc_parse_path : M unit :=
  if is_set (Match.event_filename o) then
    str ← strstr 0 " path=";
    match str with Some str => common_path_parser (str + 6) | None => ret 1 end
  else mret tt.

(** [s->filename->cur->key]: what follows type=. *)
Definition set_file_key (t : string) : M unit := fun st =>
  l ← filename (it st);
  a ← HitList.cur l;
  l ← HitList.update a (fun d => HitList.SNode (HitList.str d) (Some t) (HitList.shits d)) l;
  Some (Ok tt, st<|it := (it st)<|filename := Some l|>|>).

Definition path_name (term : nat) : M nat :=
  str ← strstr term " name=";
  match str with
  | None => mret term
  | Some str =>
      let term := (str + 6)%nat in
      _ ← common_path_parser term;
      str ← strstr term "type=";
      match str with
      | None => mret term
      | Some str => t ← text (str + 5); _ ← set_file_key (Ellist.to_string t); mret term
      end
  end.

Definition parse_path : M unit :=
  term ← when (is_set (Match.event_filename o)) NAME_OFFSET path_name;
  if is_set (Match.event_object o) then _ ← last_context term "obj=" 4 object; mret tt else mret tt.

Definition parse_obj : M unit :=
  if is_set (Match.event_object o) then _ ← last_context 0 "obj=" 4 object; mret tt else mret tt.

(** *** Messages of programs *)

(** A number with the name of the user. *)
Definition id_field (from : nat) (name : string) (skip : nat) (no_end bad : Z) (set : setter)
    (naming : M unit) (missing : M nat) : M nat :=
  str ← strstr from name;
  match str with
  | None => missing
  | Some str => term ← num_at (str + skip) no_end bad set; _ ← naming; mret term
  end.

Definition user_ids (term : nat) : M nat :=
  term ← when want_pid term (fun term => num_field term "pid=" 4 2 3 set_pid (must 1));
  term ← when want_uid term (fun term => id_field term "uid=" 4 5 6 set_uid name_uid (must 4));
  term ← when want_auid term (fun term => task_auid term 7 8 9);
  when want_ses term (fun term => num_field term "ses=" 4 10 11 set_ses (mret term)).

(** The part of a field of an AVC: [term] moves to it in any case. *)
Definition avc_part (term : nat) (name : string) (skip : nat) (set : string -> Avc.anode -> Avc.anode) : M nat :=
  str ← strstr term name;
  match str with
  | None => mret term
  | Some str =>
      let str := (str + skip)%nat in
      term ← strchr str " "%char;
      match term with
      | Some term => t ← dup str term " "%char; _ ← upd_an (set t); mret term
      | None => mret str
      end
  end.

Definition set_scontext (t : string) (n : Avc.anode) : Avc.anode := n<|Avc.scontext := Some t|>.
Definition set_tcontext (t : string) (n : Avc.anode) : Avc.anode := n<|Avc.tcontext := Some t|>.
Definition set_class (t : string) (n : Avc.anode) : Avc.anode := n<|Avc.avc_class := Some t|>.

(** [avc]: the contexts go to the vector of the caller. *)
Definition user_contexts (avc : bool) (term : nat) : M nat :=
  term ← when (is_set (Match.event_subject o)) term (fun term =>
    if avc then
      str ← strstr term "subj=";
      match str with
      | None => mret term
      | Some str =>
          term ← end_at " "%char (str + 5) 12;
          t ← dup (str + 5) term " "%char;
          _ ← upd_an (set_scontext t); mret term
      end
    else context_field term "subj=" 5 12 subject);
  when (avc && is_set (Match.event_object o)) term (fun term =>
    term ← avc_part term "tcontext=" 9 set_tcontext;
    avc_part term "tclass=" 7 set_class).

Definition AUDIT_VIRT_RESOURCE : Z := 2501.
Definition AUDIT_VIRT_MACHINE_ID : Z := 2502.

Definition user_group (ntype : Z) (term : nat) : M nat :=
  if (ntype =? Interpret.AUDIT_ADD_GROUP) || (ntype =? Interpret.AUDIT_DEL_GROUP)
     || (ntype =? Interpret.AUDIT_GRP_MGMT) then
    str ← strstr term " id=";
    str ← match str with
          | None => if ntype =? Interpret.AUDIT_GRP_MGMT then strstr term "gid=" else mret None
          | _ => mret str
          end;
    match str with None => mret term | Some str => num_at (str + 4) 31 32 set_gid end
  else mret term.

Definition user_uuid (term : nat) : M nat :=
  str ← strstr term "uuid=";
  match str with
  | None => mret term
  | Some str =>
      let str := (str + 5)%nat in
      term ← scan_while (fun c => negb (c =c " "%char) && negb (c =c ":"%char)) str;
      if decide (term = str) then ret 24 else
      saved ← peek term;
      t ← dup str term saved;
      _ ← upd (fun i => i<|uuid := Some t|>); mret term
  end.

Definition user_virt (ntype : Z) (term : nat) : M nat :=
  if ntype =? AUDIT_VIRT_MACHINE_ID then
    term ← when (is_set (Match.event_subject o)) term (fun term => context_field term "vm-ctx=" 7 27 subject);
    when (is_set (Match.event_object o)) term (fun term => context_field term "img-ctx=" 8 29 object)
  else if (ntype =? AUDIT_VIRT_RESOURCE) && is_set (Match.event_filename o) then
    str ← strstr term " path=";
    str ← match str with
          | Some p => mret (Some (p + 6)%nat)
          | None => q ← strstr term " new-disk="; mret ((fun p => p + 10)%nat <$> q)
          end;
    match str with
    | None => mret term
    | Some str => _ ← common_path_parser str; mret str
    end
  else mret term.

(** A second uid=, which some records have. *)
Definition user_second_uid (term : nat) : M nat :=
  '(str, term) ← find_uid term;
  match str with
  | None => mret term
  | Some str =>
      c ← before str;
      if (c =c "s"%char) || (c =c "u"%char) then mret term
      else if negb ((c =c "'"%char) || (c =c " "%char)) then ret 25
      else
        let ptr := (str + 4)%nat in
        term ← scan_while isdigit ptr;
        if decide (term = ptr) then ret 14 else
        saved ← peek term;
        v ← convert (strtoul 10) ptr term saved 15;
        _ ← upd (set_uid v); _ ← name_uid; mret term
  end.

(** A value without quotes: encoded, or a text of older programs; [stop] ends it. *)
Definition legacy_value (str : nat) (stop : ascii -> bool)
    (set : option string -> search_items -> search_items) : M nat :=
  term ← scan_while (fun c => negb (stop c)) str;
  saved ← peek term;
  t ← dup str term saved;
  v ← (if forallb Escape.isxdigit (Ellist.to_chars t) then unescaped str else mret (Some t));
  _ ← upd (set v); mret term.

Definition user_acct (mptr term : nat) : M nat :=
  str ← strstr mptr "acct=";
  match str with
  | None => mret term
  | Some str =>
      let ptr := (str + 5)%nat in
      c ← peek ptr;
      if c =c DQUOTE then
        term ← scan_while (fun c => negb (c =c DQUOTE) && negb (c =c NUL)) (S ptr);
        saved ← peek term;
        t ← dup (S ptr) term saved;
        _ ← upd (fun i => i<|acct := Some t|>); mret term
      else legacy_value ptr (fun c => (c =c " "%char) || (c =c NUL)) (fun v i => i<|acct := v|>)
  end.

(** The next [c], else the next blank, else return [rc]. *)
Definition end_at2 (c d : ascii) (p : nat) (rc : Z) : M nat :=
  t ← strchr p c; match t with Some t => mret t | None => end_at d p rc end.

Definition user_hostname (mptr : nat) : M unit :=
  str ← strstr mptr "hostname=";
  match str with
  | None => mret tt
  | Some str =>
      let str := (str + 9)%nat in
      term ← end_at2 ","%char " "%char str 17;
      saved ← peek term;
      t ← dup str term saved;
      _ ← upd (fun i => i<|hostname := Some t|>);
      if str_eq t "?" then
        str ← strstr (S term) "addr=";
        match str with
        | None => mret tt
        | Some str =>
            let str := (str + 5)%nat in
            term ← end_at2 ","%char " "%char str 18;
            saved ← peek term;
            t ← dup str term saved;
            upd (fun i => i<|hostname := Some t|>)
        end
      else mret tt
  end.

(** cwd= and exe=: a value without quotes ends at a blank only. *)
Definition user_text (mptr : nat) (name : string) (no_end : Z)
    (set : option string -> search_items -> search_items) : M unit :=
  str ← strstr mptr name;
  match str with
  | None => mret tt
  | Some str =>
      let str := (str + 4)%nat in
      c ← peek str;
      if c =c DQUOTE then
        term ← end_at DQUOTE (S str) no_end;
        t ← dup (S str) term DQUOTE;
        upd (set (Some t))
      else _ ← legacy_value str (fun c => c =c " "%char) set; mret tt
  end.

(** The terminal may end at a ')', in place of which a blank is left. *)
Definition user_terminal (mptr : nat) : M unit :=
  str ← strstr mptr "terminal=";
  match str with
  | None => mret tt
  | Some str =>
      let str := (str + 9)%nat in
      term ← end_at2 " "%char ")"%char str 19;
      t ← dup str term " "%char;
      upd (fun i => i<|terminal := Some t|>)
  end.

Definition strcasecmp0 (a b : string) : bool :=
  bool_decide (map Interpret.tolower (Ellist.to_chars a) = map Interpret.tolower (Ellist.to_chars b)).

Definition user_success (mptr : nat) : M unit :=
  str ← strstr mptr "res=";
  match str with
  | Some str =>
      let ptr := (str + 4)%nat in
      term ← end_at "'"%char ptr 21;
      t ← dup ptr term "'"%char;
      upd (fun i => i<|success := if starts_with "failed" t then S_FAILED else S_SUCCESS|>)
  | None =>
      str ← strstr mptr "result=";
      match str with
      | None => mret tt
      | Some str =>
          let ptr := (str + 7)%nat in
          term ← end_at ")"%char ptr 22;
          t ← dup ptr term ")"%char;
          upd (fun i => i<|success := if strcasecmp0 t "success" then S_SUCCESS else S_FAILED|>)
      end
  end.

Definition if_set {A} (x : option A) (m : M unit) : M unit := if is_set x then m else mret tt.

(** What follows the subject of the message. *)
Definition user_tail (term : nat) : M unit :=
  let mptr := S term in
  term ← when (is_set (Match.event_comm o)) term (fun term =>
    text_field mptr term "comm=" 5 16 set_comm (mret term));
  term ← user_acct mptr term;
  let mptr := S term in
  _ ← if_set (Match.event_hostname o) (user_hostname mptr);
  _ ← if_set (Match.event_filename o) (user_text mptr "cwd=" 20 set_cwd);
  _ ← if_set (Match.event_terminal o) (user_terminal mptr);
  _ ← if_set (Match.event_exe o) (user_text mptr "exe=" 26 set_exe);
  if want_success then user_success mptr else mret tt.

Definition parse_user (ntype : Z) (avc : bool) : M unit :=
  term ← user_ids 0;
  term ← user_contexts avc term;
  term ← when want_gid term (user_group ntype);
  term ← when (is_set (Match.event_vmname o)) term (fun term =>
    text_field term term "vm=" 3 23 set_vmname (mret term));
  term ← when (is_set (Match.event_uuid o)) term user_uuid;
  term ← user_virt ntype term;
  term ← when want_uid term user_second_uid;
  user_tail term.


(** *** Logins *)

(** The first of these names that is there, and the end of it. *)
Fixpoint first_of (term : nat) (names : list string) : M (option nat) :=
  match names with
  | [] => mret None
  | name :: names =>
      str ← strstr term name;
      match str with
      | Some str => mret (Some (str + String.length name)%nat)
      | None => first_of term names
      end
  end.

(** The subject is copied from the name on. *)
Definition login_subject (term : nat) : M nat :=
  str ← strstr term "subj=";
  match str with
  | None => mret term
  | Some str =>
      term ← end_at " "%char (str + 5) 12;
      t ← dup str term " "%char;
      _ ← add_avc (subject t); mret term
  end.

Definition login_auid (term : nat) : M (option nat) :=
  ptr ← first_of term ["new auid="; " auid="; "new loginuid="];
  match ptr with
  | None => ret 7
  | Some ptr => term ← last_num ptr 8 set_auid; _ ← name_auid; mret term
  end.

Definition login_success (term : option nat) : M (option nat) :=
  let term := default O term in
  str ← strstr term "res=";
  match str with
  | Some str => last_num (str + 4) 9 set_success
  | None => _ ← upd (fun i => i<|success := S_SUCCESS|>); mret (Some term)
  end.

Definition login_session (term : option nat) : M (option nat) :=
  ptr ← first_of (default O term) ["new ses="; " ses="];
  match ptr with None => ret 14 | Some ptr => last_num ptr 11 set_ses end.

Definition parse_login : M unit :=
  term ← when want_pid 0 (fun term => num_field term "pid=" 4 2 3 set_pid (must 1));
  term ← when want_uid term (fun term => id_field term "uid=" 4 5 6 set_uid name_uid (must 4));
  term ← when (is_set (Match.event_subject o)) term login_subject;
  term ← (if want_auid then login_auid term else mret (Some term));
  term ← (if want_success then login_success term else mret term);
  _ ← (if want_ses then login_session term else mret term);
  mret tt.

(** *** Messages of the daemon *)

Definition isalpha (c : ascii) : bool := between 65 90 c || between 97 122 c.

(** res= as a word. *)
Definition res_word (from : nat) (none : Z) : M unit :=
  str ← strstr from "res=";
  match str with
  | None => mret tt
  | Some str =>
      let ptr := (str + 4)%nat in
      term ← scan_while isalpha ptr;
      if decide (term = ptr) then ret none else
      saved ← peek term;
      t ← dup ptr term saved;
      upd (fun i => i<|success := if starts_with "failed" t then S_FAILED else S_SUCCESS|>)
  end.

Definition parse_daemon1 : M unit :=
  mptr ← strchr 0 ")"%char;
  let mptr := default O mptr in
  term ← when want_auid mptr (fun term => id_field term "auid=" 5 2 3 set_auid name_auid (must 1));
  term ← when want_pid term (fun term => num_field term "pid=" 4 5 6 set_pid (must 4));
  term ← when (negb (Match.event_uid o =? u32 (-1))) term (fun term =>
    num_field term " uid=" 5 7 8 set_uid (mret term));
  term ← when want_ses term (fun term => num_field term "ses=" 4 9 10 set_ses (mret term));
  _ ← if_set (Match.event_subject o) (_ ← last_context term "subj=" 5 subject; mret tt);
  if want_success then res_word mptr 12 else mret tt.

Definition daemon_addr (term : nat) : M nat :=
  str ← strstr term "addr=";
  match str with
  | None => mret term
  | Some str =>
      let str := (str + 5)%nat in
      term ← end_at2 ":"%char " "%char str 1;
      saved ← peek term;
      t ← dup str term saved;
      _ ← upd (fun i => i<|hostname := Some t|>); mret term
  end.

Definition parse_daemon2 : M unit :=
  term ← when (is_set (Match.event_hostname o)) 0 daemon_addr;
  if want_success then res_word term 2 else mret tt.

(** *** Addresses *)

Definition AF_UNIX : Z := 1.
Definition AF_INET : Z := 2.
Definition AF_INET6 : Z := 10.

(** [saddr->sa_family], and the string at a place of the structure. *)
Definition sa_family (blk : chars) : option Z :=
  c0 ← blk !! 0%nat; c1 ← blk !! 1%nat; Some (code c0 + 256 * code c1).
Definition string_in (blk : chars) (p : nat) : option string :=
  if decide (p < length blk)%nat then Some (Ellist.to_string (StrSplit.c_string blk p)) else None.

Definition set_hostname (v : option string) : M unit := upd (fun i => i<|hostname := v|>).

Definition unix_path (blk : chars) : M string :=
  c ← lift (blk !! 2%nat);
  lift (string_in blk (if c =c NUL then 3%nat else 2%nat)).

Definition inet_name (blk : chars) (len : nat) : M unit :=
  if is_set (Match.event_hostname o) then
    if decide (len <= length blk)%nat then set_hostname (getnameinfo (take len blk)) else fail
  else set_hostname None.

Definition parse_sockaddr : M unit :=
  if is_set (Match.event_hostname o) || is_set (Match.event_filename o) then
    str ← strstr 0 "saddr=";
    match str with
    | None => mret tt
    | Some str =>
        t ← text (str + 6);
        let len := (length t / 2)%nat in
        blk ← unescape_at (str + 6);
        _ ← set_hostname (Interpret.text_of <$> blk);
        match blk with
        | None => ret 4
        | Some blk =>
            family ← lift (sa_family blk);
            if family =? AF_INET then
              if decide (len < 16)%nat then ret 1 else inet_name blk 16
            else if family =? AF_INET6 then
              if decide (len < 28)%nat then ret 2 else inet_name blk 28
            else if family =? AF_UNIX then
              path ← unix_path blk;
              if str_eq path "" then ret 3 else
              _ ← if_set (Match.event_filename o) (add_file path);
              set_hostname None
            else set_hostname None
        end
    end
  else mret tt.

(** *** Integrity *)

(** A number from the fifth character of the name on, which is its '='. *)
Definition parse_integrity : M unit :=
  term ← num_field 0 "pid=" 4 1 2 set_pid (mret O);
  term ← when want_uid term (fun term => id_field term " uid=" 4 3 4 set_uid name_uid (mret term));
  term ← when want_auid term (fun term => id_field 0 "auid=" 5 5 6 set_auid name_auid (mret term));
  term ← when want_ses term (fun term => num_field term "ses=" 4 10 11 set_ses (mret term));
  term ← when (is_set (Match.event_subject o)) term (fun term => context_field term "subj=" 5 12 subject);
  term ← when (is_set (Match.event_comm o)) term (fun term =>
    text_field term term "comm=" 5 7 set_comm (mret term));
  _ ← if_set (Match.event_filename o)
        (str ← strstr term " name=";
         match str with
         | None => mret tt
         | Some str => rc ← call (common_path_parser (str + 6)); if rc =? 0 then mret tt else ret 8
         end);
  if want_success then res_number term 9 (mret tt) else mret tt.

(** *** Access vectors *)

Definition AUDIT_USER_AVC : Z := 1107.

(** Back over the blanks before a pointer. *)
Fixpoint back_blanks (p : nat) : M nat :=
  match p with
  | O => fail
  | S q => c ← peek q; if c =c " "%char then back_blanks q else mret p
  end.

Definition set_result (r : Avc.avc_t) (n : Avc.anode) : Avc.anode := n<|Avc.avc_result := r|>.
Definition set_perm (t : string) (n : Avc.anode) : Avc.anode := n<|Avc.avc_perm := Some t|>.

(** The result before the '{' and the permissions behind it. *)
Definition avc_info : M nat :=
  str ← strstr 0 "avc: ";
  match str with
  | None => mret O
  | Some str =>
      let str := (str + 5)%nat in
      term ← strchr str "{"%char;
      match term with
      | None => mret O
      | Some term =>
          _ ← (if want_success then
                 t ← dup str term "{"%char;
                 if CString.strstr t "denied"
                 then _ ← upd (fun i => i<|success := S_FAILED|>); upd_an (set_result Avc.AVC_DENIED)
                 else _ ← upd (fun i => i<|success := S_SUCCESS|>); upd_an (set_result Avc.AVC_GRANTED)
               else mret tt);
          str ← scan_while (fun c => c =c " "%char) (S term);
          term ← end_at "}"%char str 2;
          term ← back_blanks term;
          t ← dup str term " "%char;
          _ ← upd_an (set_perm t); mret term
      end
  end.

Definition avc_comm (term : nat) : M nat :=
  str ← strstr term "comm=";
  match str with
  | None => ret 5
  | Some str =>
      let str := (str + 5)%nat in
      c ← peek str;
      if c =c DQUOTE then text_value term str 6 set_comm
      else v ← unescaped str; _ ← upd (set_comm v); mret (str + 6)%nat
  end.

Definition avc_path (term : nat) : M nat :=
  ptr ← first_of term [" path="; " name="];
  match ptr with
  | None => mret term
  | Some ptr => _ ← common_path_parser ptr; mret (term + 7)%nat
  end.

Definition avc_context (term : nat) (name : string) (no_end : Z) (set : string -> Avc.anode -> Avc.anode)
    : M nat :=
  str ← strstr term name;
  match str with
  | None => mret term
  | Some str =>
      let str := (str + 9)%nat in
      term ← end_at " "%char str no_end;
      t ← dup str term " "%char;
      _ ← upd_an (set t); mret term
  end.

Definition avc_class (term : nat) : M unit :=
  str ← strstr term "tclass=";
  match str with
  | None => ret 9
  | Some str =>
      term ← strchr (str + 7) " "%char;
      t ← dup_to (str + 7) term;
      upd_an (set_class t)
  end.

Definition parse_avc (ntype : Z) : M unit :=
  _ ← upd_an (fun _ => Avc.anode_init);
  term ← avc_info;
  if ntype =? AUDIT_USER_AVC then
    rc ← call (parse_user ntype true);
    n ← get an;
    _ ← add_avc n;
    ret (if 20 <? rc then 0 else rc)
  else
    term ← when want_pid term (fun term => num_field term "pid=" 4 3 4 set_pid (mret term));
    have ← items comm;
    term ← when (is_set (Match.event_comm o) && negb (is_set have)) term avc_comm;
    term ← when (is_set (Match.event_filename o)) term avc_path;
    term ← when (is_set (Match.event_subject o)) term (fun term => avc_context term "scontext=" 7 set_scontext);
    term ← when (is_set (Match.event_object o)) term (fun term => avc_context term "tcontext=" 8 set_tcontext);
    _ ← avc_class term;
    n ← get an;
    add_avc n.

(** *** Messages of the kernel *)

Definition AUDIT_ANOM_PROMISCUOUS : Z := 1700.
Definition AUDIT_ANOM_ABEND : Z := 1701.
Definition AUDIT_SECCOMP : Z := 1326.
Definition AUDIT_CONFIG_CHANGE : Z := 1305.

(** A number that may be last; [term] is then at the number. *)
Definition num_or_last (ptr : nat) (bad : Z) (set : setter) : M nat :=
  term ← last_num ptr bad set; mret (default ptr term).

Definition anom_auid (term : nat) (none bad : Z) : M nat :=
  str ← strstr term "auid=";
  match str with
  | None => ret none
  | Some str => term ← num_or_last (str + 5) bad set_auid; _ ← name_auid; mret term
  end.
Definition last_ses (term : nat) (bad : Z) : M nat :=
  str ← strstr term "ses=";
  match str with None => mret term | Some str => num_or_last (str + 4) bad set_ses end.

Definition anom_subject (ntype : Z) (term : nat) : M nat :=
  term ← when (is_set (Match.event_subject o)) term (fun term => context_field term "subj=" 5 8 subject);
  term ← when want_pid term (fun term => num_field term "pid=" 4 10 11 set_pid (mret term));
  term ← when (is_set (Match.event_comm o)) term (fun term =>
    text_field term term "comm=" 5 12 set_comm (mret term));
  when (is_set (Match.event_exe o)) term (fun term =>
    text_field term term "exe=" 4 13 set_exe
      (if negb (ntype =? AUDIT_ANOM_ABEND) then ret 14 else mret term)).

Definition parse_kernel_anom (ntype : Z) : M unit :=
  term ← when want_auid 0 (fun term => anom_auid term 1 2);
  term ← when want_uid term (fun term => id_field term "uid=" 4 3 4 set_uid name_uid (mret term));
  term ← when want_gid term (fun term => num_field term "gid=" 4 5 6 set_gid (mret term));
  term ← when want_ses term (fun term => last_ses term 7);
  if ntype =? AUDIT_ANOM_PROMISCUOUS then ret 0 else
  term ← anom_subject ntype term;
  if ntype =? AUDIT_SECCOMP then
    term ← int_field strtoul_hex term "arch=" 5 (ret 0) 15 16 set_arch;
    _ ← int_field (strtoul 10) term "syscall=" 8 (ret 17) 18 19 set_syscall;
    mret tt
  else mret tt.

Definition parse_simple_message (ntype : Z) : M unit :=
  term ← when want_auid 0 (fun term =>
    str ← strstr term "auid=";
    match str with
    | None => if negb (ntype =? AUDIT_CONFIG_CHANGE) then ret 1 else mret term
    | Some str => term ← num_or_last (str + 5) 2 set_auid; _ ← name_auid; mret term
    end);
  term ← when want_ses term (fun term => last_ses term 3);
  term ← when (is_set (Match.event_subject o)) term (fun term =>
    r ← last_context term "subj=" 5 subject;
    mret (match r with None => term | Some (str, t) => default str t end));
  term ← when (is_set (Match.event_key o)) term (fun term => key_field term 6 8);
  _ ← (if ntype =? AUDIT_CONFIG_CHANGE then upd (fun i => i<|success := S_SUCCESS|>) else mret tt);
  if want_success then res_number term 7 (mret tt) else mret tt.

Definition parse_tty : M unit :=
  term ← when want_pid 0 (fun term => num_field 0 "pid=" 4 1 2 set_pid (mret term));
  term ← when want_uid term (fun term => id_field term " uid=" 4 3 4 set_uid name_uid (mret term));
  term ← when want_auid term (fun term => anom_auid term 5 6);
  term ← when want_ses term (fun term => num_field term "ses=" 4 7 8 set_ses (mret term));
  _ ← when (is_set (Match.event_comm o)) term (fun term =>
    text_field term term "comm=" 5 11 set_comm (mret term));
  mret tt.

Definition parse_pkt : M unit :=
  term ← when (is_set (Match.event_hostname o)) 0 (fun term =>
    str ← strstr 0 "saddr=";
    match str with
    | None => mret term
    | Some str =>
        term ← end_at " "%char (str + 6) 1;
        t ← dup (str + 6) term " "%char;
        _ ← set_hostname (Some t); mret term
    end);
  if is_set (Match.event_object o) then _ ← last_context term "obj=" 4 object; mret tt else mret tt.

(** Only what no record before has set. *)
Definition kernel_ids (term : nat) : M nat :=
  p ← items pid;
  term ← when (want_pid && (p =? -1)) term (fun term => num_field term " pid=" 5 52 53 set_pid (must 54));
  u ← items uid; tu ← items tuid;
  term ← when ((u =? u32 (-1)) && negb (is_set tu) && want_uid) term (fun term =>
    term ← num_field term "uid=" 4 55 56 set_uid (_ ← upd (set_uid 0); mret term);
    _ ← name_uid; mret term);
  a ← items loginuid; ta ← items tauid;
  when ((a =? u32 (-2)) && negb (is_set ta) && want_auid) term (fun term =>
    term ← num_field term "auid=" 5 57 58 set_auid (_ ← upd (set_auid (-1)); mret term);
    _ ← name_auid; mret term).

Definition parse_kernel : M unit :=
  term ← kernel_ids 0;
  t ← items terminal;
  term ← when (negb (is_set t) && is_set (Match.event_terminal o)) term (fun term =>
    tty_field term 59 (_ ← upd (fun i => i<|terminal := Some "(none)"|>); mret term));
  ses ← items session_id;
  term ← when ((ses =? u32 (-2)) && want_ses) term (fun term =>
    num_field term "ses=" 4 60 61 set_ses (_ ← upd (set_ses (-1)); mret term));
  a ← items avc;
  term ← when (negb (is_set a) && is_set (Match.event_subject o)) term (fun term =>
    str ← strstr term "subj=";
    match str with None => ret 64 | Some str => context_at (str + 5) 62 subject end);
  c ← items comm;
  term ← when (negb (is_set c) && is_set (Match.event_comm o)) term (fun term =>
    text_field term term "comm=" 5 65 set_comm (ret 66));
  e ← items exe;
  _ ← when (negb (is_set e) && is_set (Match.event_exe o)) term (fun term =>
    text_field 0 term "exe=" 4 67 set_exe (_ ← upd (set_exe (Some "(null)")); mret term));
  mret tt.

(** ** The records of an event *)

Definition in_range (a b t : Z) : bool := (a <=? t) && (t <=? b).

(** The switch of [extract_search_items]. *)
Definition parse_record (t : Z) : M unit :=
  if t =? 1300 then parse_syscall
  else if t =? 1307 then parse_dir
  else if t =? 1402 then avc_parse_path
  else if t =? 1302 then parse_path
  else if (t =? 1005) || in_range 1100 1106 t || in_range 1108 1199 t || in_range 2100 2999 t
  then parse_user t false
  else if t =? 1306 then parse_sockaddr
  else if t =? 1006 then parse_login
  else if (t =? 1303) || (t =? 1318) then parse_obj
  else if in_range 1200 1203 t || in_range 1205 1206 t then parse_daemon1
  else if in_range 1207 1208 t then parse_daemon2
  else if t =? AUDIT_CONFIG_CHANGE then
    rc ← call (parse_simple_message t); _ ← call avc_parse_path; ret rc
  else if (t =? 1400) || (t =? AUDIT_USER_AVC) then parse_avc t
  else if t =? 1324 then parse_pkt
  else if (t =? 1328) || (t =? 1702) then parse_task_info
  else if (t =? AUDIT_SECCOMP) || (t =? AUDIT_ANOM_PROMISCUOUS) || (t =? AUDIT_ANOM_ABEND)
  then parse_kernel_anom t
  else if in_range 1403 1417 t then parse_simple_message t
  else if in_range 1800 1805 t then parse_integrity
  else if (t =? 1325) || (t =? 1335) then parse_kernel
  else if t =? 1319 then parse_tty
  else mret tt.

(** One record: its text and arguments, the items and the world. *)
Definition parse_node (n : lnode) (i : search_items) (w : world) : option (Z * lnode * search_items * world) :=
  '(rc, st) ← call (parse_record (ntype n))
      (PState (Ellist.to_chars (message n) ++ [NUL])%list (a0 n) (a1 n) i Avc.anode_init w);
  match rc with
  | Ok rc =>
      let n := n<|message := Interpret.text_of (msg st)|><|a0 := pa0 st|><|a1 := pa1 st|> in
      Some (rc, n, it st, wd st)
  | Ret _ => None
  end.

(** The record under the cursor is changed. *)
Definition set_node (k : nat) (n : lnode) (i : search_items) (l : llist) : llist :=
  LList (CList (<[k := n]> (nodes (records l))) (cur (records l)) (cnt (records l))) (e l) i (fmt l).

Fixpoint extract_loop (fuel : nat) (l : llist) (w : world) : option (Z * llist * world) :=
  match fuel with
  | O => None
  | S fuel =>
      k ← cur (records l);
      n ← list_get_cur l;
      '(rc, n, i, w) ← parse_node n (s l) w;
      let '(next, l) := list_next (set_node k n i l) in
      match next with
      | Some _ => if rc =? 0 then extract_loop fuel l w else Some (rc, l, w)
      | None => Some (rc, l, w)
      end
  end.

Definition extract_search_items (l : llist) (w : world) : option (Z * llist * world) :=
  let l := list_first l in
  match list_get_cur l with
  | None => Some (0, l, w)
  | Some _ => extract_loop (S (length (nodes (records l)))) l w
  end.

(** [ausearch_load_interpretations] and [ausearch_free_interpretations] of
    ausearch-report.c. *)
Definition ausearch_load_interpretations (n : lnode) (w : world) : option world :=
  if loaded w then Some w
  else '(_, l) ← Interpret.load_interpretation_list (interp n) (il w); Some (w<|il := l|><|loaded := true|>).
Definition ausearch_free_interpretations (w : world) : world :=
  if loaded w then w<|il := Interpret.free_interpretation_list (il w)|><|loaded := false|> else w.


End parsers.
End SearchParse.
