(* ===== verification/SearchParseFacts.v ===== *)
(** * The items of an event: searching the words of a record

    A record is a line of words NAME=value.  strstr() for a name with its '=' finds
    the first word whose name ends so, and the operations of the parsers put back
    every character they replace. *)
From S2P Require Import Prelude CString CList StrSplit HitList HitListFacts Avc Llist Nvlist Escape EscapeFacts Ellist Interpret AuSearch Match SearchParse.
From coqutil Require Import Datatypes.RecordSetters.
Import RecordSetters.TriangleBracketNotations.

Local Open Scope audit_scope.
Local Open Scope Z_scope.
Local Open Scope list_scope.

Module SearchParseFacts.
Import Llist SearchParse.

Abbreviation EQ := ("="%char).
Abbreviation SP := (" "%char).

(** ** strstr() for a name *)

Lemma begins_name a u v :
  EQ ∉ a -> EQ ∉ u -> begins (a ++ [EQ]) (u ++ EQ :: v) = bool_decide (a = u).
Proof.
  revert u. induction a as [|c a IH]; intros [|d u] Ha Hu; cbn.
  - done.
  - destruct d as [[] [] [] [] [] [] [] []]; try done. by destruct Hu; left.
  - rewrite bool_decide_eq_false_2 by done.
    destruct (c =c EQ) eqn:E; [|done]. apply char_eq_true in E as ->. by destruct Ha; left.
  - apply not_elem_of_cons in Ha as [_ Ha], Hu as [_ Hu]. rewrite (IH u Ha Hu).
    destruct (c =c d) eqn:E; cbn.
    + apply char_eq_true in E as ->. apply bool_decide_ext. naive_solver.
    + symmetry. apply bool_decide_eq_false_2. intros [= Hc _]. subst. by rewrite Ascii.eqb_refl in E.
Qed.

Lemma begins_short a u : EQ ∉ u -> begins (a ++ [EQ]) u = false.
Proof.
  revert u. induction a as [|c a IH]; intros [|d u] Hu; cbn; try done.
  - destruct d as [[] [] [] [] [] [] [] []]; try done. by destruct Hu; left.
  - apply not_elem_of_cons in Hu as [_ Hu]. by rewrite IH, andb_false_r.
Qed.

Lemma find_no_eq a u : EQ ∉ u -> find_sub (a ++ [EQ]) u = None.
Proof.
  intros Hu. induction u as [|d u IH].
  - cbn. by rewrite begins_short.
  - cbn [find_sub]. rewrite begins_short by done. apply not_elem_of_cons in Hu as [_ Hu].
    by rewrite IH.
Qed.

Lemma suffix_step (a : chars) c u : a `suffix_of` c :: u -> a = c :: u \/ a `suffix_of` u.
Proof.
  destruct a as [|d a]; [right; apply suffix_nil|]. by intros ?%suffix_cons_inv.
Qed.

(** The name ends at the first '=', or the search goes on behind it. *)
Lemma find_name a u v :
  EQ ∉ a -> EQ ∉ u ->
  find_sub (a ++ [EQ]) (u ++ EQ :: v)
  = if decide (a `suffix_of` u) then Some (length u - length a)%nat
    else Nat.add (S (length u)) <$> find_sub (a ++ [EQ]) v.
Proof.
  intros Ha. induction u as [|c u IH]; intros Hu.
  - cbn [app find_sub]. pose proof (begins_name a [] v Ha Hu) as E. cbn [app] in E. rewrite E.
    case_bool_decide as Hd.
    + subst. by rewrite decide_True by done.
    + rewrite decide_False by (intros ?%suffix_nil_inv; done). done.
  - pose proof (begins_name a (c :: u) v Ha Hu) as E. cbn [app find_sub] in E |- *. rewrite E.
    case_bool_decide as Hd.
    + subst. rewrite decide_True by done. by rewrite Nat.sub_diag.
    + apply not_elem_of_cons in Hu as [_ Hu]. rewrite IH by done.
      destruct (decide (a `suffix_of` u)) as [Hs|Hs].
      * rewrite decide_True by by apply suffix_cons_r. cbn. f_equal.
        apply suffix_length in Hs. lia.
      * rewrite decide_False by (by intros [?|?]%suffix_step). cbn.
        rewrite <-option_fmap_compose. done.
Qed.

(** ** Words *)

Abbreviation field := (chars * chars)%type.

Definition words (fs : list field) : chars := fs ≫= (fun f => SP :: f.1 ++ EQ :: f.2).

(** Whether a search for [a] and a '=' stops at a word of this name. *)
Definition stops (a nm : chars) : bool := bool_decide (a `suffix_of` SP :: nm).

(** The first such word, and the words behind it. *)
Fixpoint seek (a : chars) (fs : list field) : option (field * list field) :=
  match fs with
  | [] => None
  | (nm, v) :: fs => if stops a nm then Some ((nm, v), fs) else seek a fs
  end.

(** A name that is looked for has a blank at most in front. *)
Definition plain_name (a : chars) : Prop := (EQ ∉ a) /\ (SP ∉ tail a).

Definition field_ok (f : field) : Prop := (EQ ∉ f.1) /\ (SP ∉ f.1) /\ (EQ ∉ f.2).

Lemma suffix_word a u nm :
  SP ∉ tail a -> SP ∉ nm -> a `suffix_of` (u ++ SP :: nm) <-> a `suffix_of` (SP :: nm).
Proof.
  intros Ha Hn. split; [|by intros; apply suffix_app_r].
  induction u as [|c u IH]; [done|]. intros [->|Hs]%suffix_step; [|by apply IH].
  destruct Ha. cbn. apply elem_of_app. right. left.
Qed.

Lemma words_cons nm v fs : words ((nm, v) :: fs) = SP :: nm ++ EQ :: v ++ words fs.
Proof. unfold words. cbn. by rewrite <-app_assoc. Qed.

Lemma words_app fs gs : words (fs ++ gs) = words fs ++ words gs.
Proof. apply bind_app. Qed.

(** The search over a text that has no '=' and then words. *)
Lemma find_words a u fs :
  plain_name a -> EQ ∉ u -> Forall field_ok fs ->
  match seek a fs with
  | None => find_sub (a ++ [EQ]) (u ++ words fs) = None
  | Some ((nm, v), rest) => exists p pre, find_sub (a ++ [EQ]) (u ++ words fs) = Some p /\
      fs = pre ++ (nm, v) :: rest /\ stops a nm = true /\
      (p + length a = length u + length (words pre) + S (length nm))%nat
  end.
Proof.
  intros [Ha Hs] Hu Hf. revert u Hu. induction Hf as [|[nm v] fs (Hn & Hsp & Hv) Hf IH]; intros u Hu.
  { cbn. rewrite app_nil_r. by apply find_no_eq. }
  cbn [seek]. cbn in Hn, Hsp, Hv.
  replace (u ++ words ((nm, v) :: fs)) with ((u ++ SP :: nm) ++ EQ :: v ++ words fs)
    by (by rewrite words_cons, <-app_assoc).
  rewrite find_name; [|done|rewrite elem_of_app; set_solver].
  pose proof (suffix_word a u nm Hs Hsp) as Hw. destruct (stops a nm) eqn:E.
  - apply bool_decide_eq_true in E. rewrite decide_True by by apply Hw.
    eexists _, []. split; [done|]. split; [done|]. split; [by apply bool_decide_eq_true|].
    apply suffix_length in E. rewrite length_app. cbn in *. lia.
  - apply bool_decide_eq_false in E. rewrite decide_False by by rewrite Hw.
    specialize (IH v Hv). destruct (seek a fs) as [[[nm' v'] rest]|]; [|by rewrite IH].
    destruct IH as (p & pre & -> & -> & Hst & Hp).
    eexists _, ((nm, v) :: pre). split; [done|]. split; [done|]. split; [done|].
    rewrite words_cons, !length_app. cbn. rewrite !length_app. cbn. rewrite length_app. lia.
Qed.

(** ** Texts that programs choose *)

(** In quotes, or encoded. *)
Inductive logged_text (s : chars) : chars -> Prop :=
  | LQuoted : DQUOTE ∉ s -> logged_text s (DQUOTE :: s ++ [DQUOTE])
  | LEncoded : s <> [] -> NUL ∉ s -> logged_text s (Escape.encode s).

Lemma name_end_digits s t :
  (match t with [] => True | c :: _ => Escape.isxdigit c = false end) -> s <> [] ->
  Escape.name_end (Escape.encode s ++ t) = Some (length (Escape.encode s)).
Proof.
  intros Ht Hne. pose proof (EscapeFacts.encode_xdigit s) as Hx. unfold Escape.name_end.
  assert (match list_find (fun c => Escape.isxdigit c = false) (Escape.encode s ++ t) with
          | Some (i, _) => i | None => length (Escape.encode s ++ t) end = length (Escape.encode s)) as E.
  { rewrite list_find_app_r.
    2: { apply list_find_None. eapply Forall_impl; [exact Hx|]. cbn. congruence. }
    destruct t as [|c t]; cbn; [by rewrite app_nil_r|]. rewrite decide_True by done. cbn. lia. }
  destruct s as [|c s]; [done|]. rewrite EscapeFacts.encode_cons in *. cbn [app] in *.
  apply Forall_cons in Hx as [Hx _]. rewrite E.
  destruct (EscapeFacts.xdigit_plain _ Hx) as (_ & Hp & _). clear -Hp.
  by destruct (Escape.upper c) as [[] [] [] [] [] [] [] []].
Qed.

Lemma unescape_logged s t :
  s <> [] -> NUL ∉ s -> (match t with [] => True | c :: _ => Escape.isxdigit c = false end) ->
  exists blk, unescape (Escape.encode s ++ t) = Some (Some blk) /\ StrSplit.until_nul blk = s.
Proof.
  intros Hne Hs Ht. unfold unescape. rewrite name_end_digits by done. rewrite take_app_length.
  assert (exists c u, Escape.encode s ++ t = c :: u /\ c <> "("%char) as (c & u & E & Hc).
  { pose proof (EscapeFacts.encode_xdigit s) as Hx. destruct s as [|c s]; [done|].
    rewrite EscapeFacts.encode_cons in *. apply Forall_cons in Hx as [Hx _].
    eexists _, _. split; [done|]. by apply EscapeFacts.xdigit_plain. }
  rewrite E.
  assert (forall (A : Type) (a b : A), match c with "("%char => a | _ => b end = b) as Hm.
  { intros A a b. clear -Hc. by destruct c as [[] [] [] [] [] [] [] []]. }
  rewrite Hm. rewrite EscapeFacts.encode_length.
  assert (length s <> 0)%nat by (by destruct s). rewrite decide_False by lia.
  destruct (EscapeFacts.x2c_loop_spec s [] (Escape.encode s ++ [NUL]) (S (2 * length s)) [NUL])
    as (blk & El & Htk & Hl); [lia|done|done|].
  cbn [length] in El, Htk. rewrite Nat.mul_0_r, Nat.add_0_l in El. rewrite El. cbn [mbind option_bind].
  eexists. split; [done|]. rewrite Nat.add_0_l in Htk. cbn [app] in Htk.
  rewrite length_app, EscapeFacts.encode_length in Hl. cbn [length] in Hl.
  apply (EscapeFacts.until_nul_take s (S (length s))); [done|].
  erewrite take_S_r by (apply list_lookup_insert_eq; lia). by rewrite take_insert_ge, Htk by lia.
Qed.


(** The keys of a rule: none, one in quotes, or some that are encoded together. *)
Definition join_keys (ks : list chars) : chars :=
  match ks with
  | [] => []
  | k :: ks => k ++ (ks ≫= (fun k => AUDIT_KEY_SEPARATOR :: k))
  end.
Definition key_ok (k : chars) : Prop := k <> [] /\ (AUDIT_KEY_SEPARATOR ∉ k) /\ (NUL ∉ k).
Inductive logged_keys : list chars -> chars -> Prop :=
  | LNone : logged_keys [] (Ellist.to_chars "(null)")
  | LOne k : DQUOTE ∉ k -> logged_keys [k] (DQUOTE :: k ++ [DQUOTE])
  | LMany ks : ks <> [] -> Forall key_ok ks -> logged_keys ks (Escape.encode (join_keys ks)).

(** The keys that the search sees. *)
Definition shown_keys (ks : list chars) : list chars :=
  match ks with [] => [Ellist.to_chars "(null)"] | _ => ks end.
Definition key_nodes (ks : list chars) : list HitList.snode :=
  (fun k => HitList.SNode (Some (Ellist.to_string k)) None 1) <$> ks.

Lemma word_tokens sep w k s :
  sep ∉ k -> tokens_from sep w (k ++ s) = tokens_from sep (w ++ k) s.
Proof.
  revert w. induction k as [|c k IH]; intros w Hk; cbn; [by rewrite app_nil_r|].
  apply not_elem_of_cons in Hk as [Hc Hk]. destruct (c =c sep) eqn:E.
  - apply char_eq_true in E. congruence.
  - rewrite IH by done. by rewrite <-app_assoc.
Qed.

Lemma tokens_rest w ks :
  w <> [] -> Forall key_ok ks ->
  tokens_from AUDIT_KEY_SEPARATOR w (ks ≫= (fun k => AUDIT_KEY_SEPARATOR :: k)) = w :: ks.
Proof.
  intros Hw Hk. revert w Hw. induction Hk as [|k ks (Hne & Hs & _) Hk IH]; intros w Hw.
  - cbn. by destruct w.
  - change ((k :: ks) ≫= (fun k => AUDIT_KEY_SEPARATOR :: k))
      with (AUDIT_KEY_SEPARATOR :: k ++ (ks ≫= (fun k => AUDIT_KEY_SEPARATOR :: k))).
    cbn [tokens_from]. rewrite Ascii.eqb_refl, word_tokens by done. cbn [app]. rewrite IH by done.
    by destruct w.
Qed.

Lemma words_tokens ks :
  Forall key_ok ks -> tokens AUDIT_KEY_SEPARATOR (join_keys ks) = ks.
Proof.
  intros Hk. destruct Hk as [|k ks (Hne & Hs & _) Hk]; [done|]. unfold tokens, join_keys.
  rewrite word_tokens by done. by apply tokens_rest.
Qed.

Lemma joined_no_nul ks : Forall key_ok ks -> NUL ∉ join_keys ks.
Proof.
  intros Hk. destruct Hk as [|k ks (_ & _ & Hn) Hk]; [apply not_elem_of_nil|]. cbn. rewrite elem_of_app.
  intros [?|Hin]; [done|]. apply list_elem_of_bind in Hin as (k' & Hin & Hk').
  rewrite Forall_forall in Hk. apply elem_of_cons in Hin as [?|Hin]; [done|].
  by destruct (Hk k' Hk') as (_ & _ & []).
Qed.

(** ** Operations on a record *)

Lemma notin_drop {A} (x : A) n l : x ∉ l -> x ∉ drop n l.
Proof. intros H Hin. apply H. rewrite <-(take_drop n l). apply elem_of_app. by right. Qed.

Lemma notin_prefix {A} (x : A) n l : x ∉ l -> x ∉ take n l.
Proof. intros H Hin. apply H. rewrite <-(take_drop n l). apply elem_of_app. by left. Qed.

Section record.
Context (body : chars) (body_ok : NUL ∉ body).

Definition here (st : pstate) : Prop := msg st = body ++ [NUL].

Lemma until_nul_skip p : StrSplit.c_string (body ++ [NUL]) p = drop p body.
Proof.
  unfold StrSplit.c_string. destruct (decide (p <= length body)%nat) as [Hp|Hp].
  - rewrite drop_app_le by lia. by apply StrSplit.until_nul_text, notin_drop.
  - rewrite !drop_ge; [done|lia|]. rewrite length_app. cbn. lia.
Qed.

Lemma text_at p st : here st -> (p <= length body)%nat -> text p st = Some (Ok (drop p body), st).
Proof.
  intros Hm Hp. unfold text. rewrite Hm, decide_True, until_nul_skip; [done|].
  rewrite length_app. cbn. lia.
Qed.

Lemma strstr_at p name st :
  here st -> (p <= length body)%nat ->
  strstr p name st = Some (Ok (Nat.add p <$> find_sub (Ellist.to_chars name) (drop p body)), st).
Proof. intros Hm Hp. unfold strstr, mbind, M_bind. by rewrite text_at. Qed.

Lemma strchr_at p c st :
  here st -> (p <= length body)%nat ->
  strchr p c st = Some (Ok ((fun x => p + x.1)%nat <$> list_find (fun d => d = c) (drop p body)), st).
Proof. intros Hm Hp. unfold strchr, mbind, M_bind. by rewrite text_at. Qed.

Lemma peek_at p c st : here st -> body !! p = Some c -> peek p st = Some (Ok c, st).
Proof.
  intros Hm Hp. unfold peek. rewrite Hm, lookup_app_l by by eapply lookup_lt_Some. by rewrite Hp.
Qed.

Lemma msg_set st m : msg (st<|msg := m|>) = m.
Proof. by destruct st. Qed.

(** A text that is ended by a NUL for a while. *)
Lemma cut_text st ptr term :
  here st -> (ptr <= term)%nat -> (term < length body)%nat ->
  text ptr (st<|msg := <[term := NUL]> (msg st)|>)
  = Some (Ok (take (term - ptr) (drop ptr body)), st<|msg := <[term := NUL]> (msg st)|>).
Proof.
  intros Hm Hp Ht. unfold text. rewrite msg_set, Hm, length_insert, length_app, decide_True by (cbn; lia).
  do 3 f_equal. rewrite insert_app_l by done. rewrite insert_take_drop by done.
  unfold StrSplit.c_string. rewrite <-!app_assoc, drop_app_le by (rewrite length_take; lia). cbn [app].
  rewrite take_drop_commute. replace (ptr + (term - ptr))%nat with term by lia.
  by apply StrSplit.until_nul_text, notin_drop, notin_prefix.
Qed.

Lemma put_back st term c :
  here st -> body !! term = Some c ->
  poke term c (st<|msg := <[term := NUL]> (msg st)|>) = Some (Ok tt, st).
Proof.
  intros Hm Hc. pose proof (lookup_lt_Some _ _ _ Hc). unfold poke. rewrite msg_set, Hm, length_insert, length_app, decide_True by (cbn; lia).
  rewrite list_insert_insert_eq, list_insert_id; [|by rewrite lookup_app_l].
  rewrite <-Hm. by destruct st.
Qed.

Lemma poke_nul st term :
  here st -> (term < length body)%nat ->
  poke term NUL st = Some (Ok tt, st<|msg := <[term := NUL]> (msg st)|>).
Proof.
  intros Hm Hc. unfold poke. rewrite Hm, length_app, decide_True by (cbn; lia). by rewrite <-Hm.
Qed.

Lemma dup_at st ptr term c :
  here st -> (ptr <= term)%nat -> body !! term = Some c ->
  dup ptr term c st = Some (Ok (Ellist.to_string (take (term - ptr) (drop ptr body))), st).
Proof.
  intros Hm Hp Hc. pose proof (lookup_lt_Some _ _ _ Hc). unfold dup, mbind, M_bind.
  rewrite poke_nul, cut_text, (put_back _ _ _ Hm Hc) by done. done.
Qed.

Lemma convert_at {A} (f : string -> A * bool) st ptr term c rc v :
  here st -> (ptr <= term)%nat -> body !! term = Some c ->
  f (Ellist.to_string (take (term - ptr) (drop ptr body))) = (v, false) ->
  convert f ptr term c rc st = Some (Ok v, st).
Proof.
  intros Hm Hp Hc Hf. pose proof (lookup_lt_Some _ _ _ Hc). unfold convert, mbind, M_bind.
  rewrite poke_nul, cut_text by done. rewrite Hf. by rewrite (put_back _ _ _ Hm Hc).
Qed.

Lemma bind_ok {A B} (m : M A) (k : A -> M B) st a st' :
  m st = Some (Ok a, st') -> (a ← m; k a) st = k a st'.
Proof. intros E. unfold mbind, M_bind. by rewrite E. Qed.

(** *** Where a parser is *)

Context (needles : list chars) (needles_ok : Forall plain_name needles).

(** A text in which none of the names is found. *)
Definition quiet (x : chars) : Prop := forall a t, a ∈ needles ->
  find_sub (a ++ [EQ]) (x ++ t) = Nat.add (length x) <$> find_sub (a ++ [EQ]) t.

Lemma quiet_nil : quiet [].
Proof. intros a t _. cbn. by destruct (find_sub _ t). Qed.

Lemma quiet_name n0 :
  (EQ ∉ n0) -> Forall (fun a => ~ a `suffix_of` n0) needles -> quiet (n0 ++ [EQ]).
Proof.
  intros Hn Hs a t Ha. rewrite Forall_forall in Hs, needles_ok. rewrite <-app_assoc. cbn [app].
  rewrite find_name, decide_False; [|by apply Hs|by apply needles_ok|done].
  rewrite length_app. cbn. by rewrite Nat.add_1_r.
Qed.

(** The words [fs] follow, behind a text without a name. *)
Definition before_words (p : nat) (fs : list field) : Prop :=
  exists x u, drop p body = x ++ u ++ words fs /\ quiet x /\ (EQ ∉ u) /\ (p <= length body)%nat.

(** A value is at [ptr], and the words [rest] behind it. *)
Definition value_at (ptr : nat) (v : chars) (rest : list field) : Prop :=
  drop ptr body = v ++ words rest /\ (ptr <= length body)%nat.

Context (fields : list field) (fields_ok : Forall field_ok fields).

Lemma tail_ok fs : fs `suffix_of` fields -> Forall field_ok fs.
Proof. intros [pre E]. rewrite E in fields_ok. by apply Forall_app in fields_ok as [_ ?]. Qed.

Lemma drop_plus p q (l t : chars) : drop p l = t -> drop (p + q) l = drop q t.
Proof. intros <-. by rewrite drop_drop. Qed.

Lemma strstr_seek st p fs a name :
  here st -> before_words p fs -> fs `suffix_of` fields -> a ∈ needles ->
  Ellist.to_chars name = a ++ [EQ] ->
  match seek a fs with
  | None => strstr p name st = Some (Ok None, st)
  | Some ((nm, v), rest) => exists q, strstr p name st = Some (Ok (Some q), st) /\
      value_at (q + S (length a)) v rest /\
      (forall b, nm = b ++ a -> exists r, q = S r /\ body !! r = last (SP :: b) /\
         drop q body = a ++ EQ :: v ++ words rest)
  end.
Proof.
  intros Hm (x & u & Hd & Hx & Hu & Hp) Hf Ha Hn. rewrite strstr_at, Hn, Hd, Hx by done.
  assert (plain_name a) as Hpa by (rewrite Forall_forall in needles_ok; by apply needles_ok).
  pose proof (find_words a u fs Hpa Hu (tail_ok _ Hf)) as Hfind.
  destruct (seek a fs) as [[[nm v] rest]|]; [|by rewrite Hfind].
  destruct Hfind as (q & pre & -> & -> & Hst & Hq).
  cbn [fmap option_fmap option_map]. eexists. split; [done|].
  assert (drop (p + (length x + (length u + length (words pre)))) body
          = SP :: nm ++ EQ :: v ++ words rest) as Hw.
  { erewrite drop_plus by exact Hd. rewrite words_app, words_cons, !app_assoc, drop_app_le, drop_ge.
    - done.
    - rewrite !length_app. lia.
    - rewrite !length_app. lia. }
  pose proof (f_equal length Hw) as Hl. rewrite length_drop in Hl. cbn in Hl.
  rewrite length_app in Hl. cbn in Hl. rewrite length_app in Hl. split; [split|].
  - replace (p + (length x + q) + S (length a))%nat
      with (p + (length x + (length u + length (words pre))) + S (S (length nm)))%nat by lia.
    erewrite drop_plus by exact Hw. cbn [drop].
    rewrite drop_app_ge by lia. by replace (S (length nm) - length nm)%nat with 1%nat by lia.
  - lia.
  - intros b ->. rewrite !length_app in Hq. cbn in Hq.
    exists (p + (length x + (length u + length (words pre))) + length b)%nat. split; [lia|].
    rewrite <-lookup_drop, Hw, <-!app_assoc. rewrite app_comm_cons, lookup_app_l by (cbn; lia).
    rewrite last_lookup. split; [done|].
    replace (p + (length x + q))%nat
      with (p + (length x + (length u + length (words pre))) + S (length b))%nat by lia.
    erewrite drop_plus by exact Hw. cbn [drop]. by rewrite <-app_assoc, drop_app_length.
Qed.

(** The end of a value that has words behind it. *)
Lemma value_end ptr v rest :
  value_at ptr v rest -> rest <> [] ->
  body !! (ptr + length v)%nat = Some SP /\ before_words (ptr + length v) rest /\
  take (ptr + length v - ptr) (drop ptr body) = v.
Proof.
  intros [Hd Hp] Hr. pose proof (drop_plus ptr (length v) _ _ Hd) as Hd'. rewrite drop_app_length in Hd'.
  assert (ptr + length v <= length body)%nat.
  { apply (f_equal length) in Hd. rewrite length_drop, length_app in Hd. lia. }
  split; [|split].
  - rewrite <-(Nat.add_0_r (ptr + _)), <-lookup_drop, Hd'. destruct rest as [|[nm w] rest]; [done|].
    by rewrite words_cons.
  - exists [], []. split_and!; [done|apply quiet_nil|set_solver|done].
  - rewrite Hd. replace (ptr + length v - ptr)%nat with (length v) by lia. by rewrite take_app_length.
Qed.

Lemma find_end ptr v rest st rc c :
  here st -> value_at ptr v rest -> rest <> [] -> (c ∉ v) -> c = SP ->
  end_at c ptr rc st = Some (Ok (ptr + length v)%nat, st).
Proof.
  intros Hm [Hd Hp] Hr Hc ->. unfold end_at, mbind, M_bind. rewrite strchr_at by done. rewrite Hd.
  destruct rest as [|[nm w] rest]; [done|]. rewrite words_cons.
  rewrite list_find_app_r.
  2: { apply list_find_None. apply Forall_forall. intros d Hin ->. done. }
  cbn. rewrite decide_True by done. done.
Qed.

(** A number and what reading it changes. *)
Lemma num_at_value st ptr v rest no_end bad set n :
  here st -> value_at ptr v rest -> rest <> [] -> (SP ∉ v) ->
  strtoul 10 (Ellist.to_string v) = (n, false) ->
  num_at ptr no_end bad set st = Some (Ok (ptr + length v)%nat, st<|it := set n (it st)|>).
Proof.
  intros Hm Hv Hr Hs Hn. destruct (value_end _ _ _ Hv Hr) as (Hc & _ & Ht).
  unfold num_at, mbind, M_bind. rewrite (find_end _ _ _ _ _ _ Hm Hv Hr Hs eq_refl).
  erewrite convert_at; [|done|lia|done|rewrite Ht; exact Hn]. done.
Qed.


(** *** Steps of a parser *)

Context `{Env}.

(** What the names of users are: [logged] are the interpretations of the record. *)
Context (logged : string -> option string).
Definition user_name (f : string) (u : Z) : option string :=
  match logged f with
  | Some v => Some v
  | None => if u =? 0 then Some "root"%string
            else if u =? u32 (-1) then Some "unset"%string else getpwuid u
  end.

Record cache_ok (l : clist uid_node) : Prop := CacheOk {
  c_wf : wf l;
  c_cur : nodes l <> [] -> is_Some (cur l);
  c_names : Forall (fun n => getpwuid (uid_val n) = Some (uid_name n)) (nodes l);
}.

(** The interpretations are those of the record, the list of names agrees with the
    database. *)
Record world_ok (w : world) : Prop := WorldOk {
  w_logged : forall f, Interpret.auparse_lookup_interpretation junk (il w) f = Some (logged f);
  w_cache : match uid_nvl w with None => True | Some l => cache_ok l end;
}.

Lemma cache_create : cache_ok cl_create.
Proof. by repeat constructor. Qed.

Lemma cache_found l u b l' :
  cache_ok l -> uid_find_val u l = (b, l') ->
  cache_ok l' /\ (b = true -> exists n, cl_get_cur l' = Some n /\ getpwuid u = Some (uid_name n)).
Proof.
  intros [Hw Hc Hn] E. destruct (wf_find _ _ _ _ _ Hw E) as [Hw' Hl]. revert E.
  unfold uid_find_val, cl_find, cl_head. destruct (nodes l) as [|n ns] eqn:El.
  { intros [= <- <-]. split; [|done]. constructor; rewrite ?El; done. }
  rewrite <-El in *. destruct (find_from _ (nodes l) 0) as [j|] eqn:Ej; intros [= <- <-].
  - split; [constructor; cbn; [done|by eexists|by rewrite El in *]|]. intros _.
    apply find_from_spec in Ej as (_ & (m & Hm & Hv%Z.eqb_eq) & _). exists m. split; [done|].
    rewrite Forall_forall in Hn. rewrite <-Hv. apply Hn. by eapply list_elem_of_lookup_2.
  - split; [|done]. by constructor; rewrite ?El in *.
Qed.

Lemma cache_append l u name :
  cache_ok l -> getpwuid u = Some name ->
  exists l', uid_append (UidNode name u) l = Some l' /\ cache_ok l'.
Proof.
  intros [Hw Hc Hn] Hu. unfold uid_append. destruct (nodes l) as [|n ns] eqn:El.
  - eexists. split; [done|]. constructor; [by apply wf_link_head|by eexists|]. by repeat constructor.
  - destruct (Hc ltac:(done)) as [c ->]. cbn [mbind option_bind].
    unfold cl_last. rewrite El. set (l1 := CList _ _ _).
    assert (wf l1) as Hw1 by (pose proof (wf_last _ Hw) as H1; unfold cl_last in H1; by rewrite El in H1).
    destruct (cl_link_cur (UidNode name u) l1) as [l'|] eqn:E; [|done]. exists l'. split; [done|].
    destruct (link_cur_last _ _ _ Hw1 eq_refl ltac:(done) E) as (Hl & Hcur & Hw').
    constructor; [done|by rewrite Hcur|]. rewrite Hl. apply Forall_app. split; [done|]. by repeat constructor.
Qed.

(** A name is looked up as if there were no list. *)
Lemma lookup_uid_spec f u st :
  world_ok (wd st) ->
  exists w, lookup_uid f u st = Some (Ok (user_name f u), st<|wd := w|>) /\ world_ok w /\
    loaded w = loaded (wd st).
Proof.
  intros [Hl Hc]. unfold lookup_uid, user_name. rewrite Hl. cbn [mbind option_bind].
  assert (forall x : option string, exists w, Some (Ok x, st) = Some (Ok x, st<|wd := w|>) /\ world_ok w /\
            loaded w = loaded (wd st)) as Hsame.
  { intros x. exists (wd st). split; [by destruct st|done]. }
  destruct (logged f) as [v|]; [apply Hsame|]. destruct (u =? 0); [apply Hsame|].
  destruct (u =? u32 (-1)); [apply Hsame|].
  assert (cache_ok (default cl_create (uid_nvl (wd st)))) as Hc'.
  { destruct (uid_nvl (wd st)); [done|apply cache_create]. }
  destruct (uid_find_val u _) as [b l] eqn:E. destruct (cache_found _ _ _ _ Hc' E) as [Hcl Hb].
  assert (forall l', cache_ok l' -> world_ok ((wd st)<|uid_nvl := Some l'|>) /\
            loaded ((wd st)<|uid_nvl := Some l'|>) = loaded (wd st)) as Hw.
  { intros l' Hl'. split; [|by destruct (wd st)]. constructor; by destruct (wd st). }
  destruct b.
  - destruct (Hb eq_refl) as (n & -> & ->). cbn. eexists. split; [done|]. by apply Hw.
  - destruct (getpwuid u) as [name|] eqn:Eu.
    + destruct (cache_append l u name Hcl Eu) as (l' & -> & Hl'). cbn. eexists. split; [done|]. by apply Hw.
    + eexists. split; [done|]. by apply Hw.
Qed.


(** The parser is before word [k] or a later one, and has found the items [i] and
    the arguments [x] and [y]. *)
Record at_step (k p : nat) (i : search_items) (x y : Z) (ld : bool) (st : pstate) : Prop := AtStep {
  s_here : here st;
  s_pos : before_words p (drop k fields);
  s_it : it st = i;
  s_a0 : pa0 st = x;
  s_a1 : pa1 st = y;
  s_world : world_ok (wd st);
  s_loaded : loaded (wd st) = ld;
}.

(** From any place up to word [a], [m] gets to one up to word [b] and makes [i'] of
    the items [i]. *)
Definition steps (a b : nat) (m : nat -> M nat) (i i' : search_items) : Prop :=
  forall k p x y ld st, (k <= a)%nat -> at_step k p i x y ld st ->
  exists k' p' st', m p st = Some (Ok p', st') /\ (k' <= b)%nat /\ at_step k' p' i' x y ld st'.

Lemma steps_when a b (c : bool) m i i' :
  (a <= b)%nat -> (c = true -> steps a b m i i') ->
  steps a b (fun t => when c t m) i (if c then i' else i).
Proof.
  intros Hab Hm k p x y ld st Hk Hs. destruct c; [by apply (Hm eq_refl k)|]. exists k, p, st. split; [done|].
  split; [lia|done].
Qed.

Lemma steps_bind a b b' c m1 m2 i i1 i2 :
  (b <= b')%nat -> steps a b m1 i i1 -> steps b' c m2 i1 i2 ->
  steps a c (fun t => t ← m1 t; m2 t) i i2.
Proof.
  intros Hb H1 H2 k p x y ld st Hk Hs. destruct (H1 _ _ _ _ _ _ Hk Hs) as (k1 & p1 & st1 & E & Hk1 & Hs1).
  unfold mbind, M_bind. rewrite E. apply (H2 k1 p1 x y ld st1); [lia|done].
Qed.

(** Any place up to a word is also up to a later one. *)
Lemma steps_weaken a a' b b' m i i' :
  (a' <= a)%nat -> (b <= b')%nat -> steps a b m i i' -> steps a' b' m i i'.
Proof.
  intros Ha Hb H1 k p x y ld st Hk Hs. destruct (H1 k p x y ld st ltac:(lia) Hs) as (k' & p' & st' & E & Hk' & Hs').
  exists k', p', st'. split_and!; [done|lia|done].
Qed.

(** The search for the name [a] stops at word [j], wherever it begins from word [from] on. *)
Definition found (a : chars) (from j : nat) (nm v : chars) : Prop :=
  forall k, (from <= k <= j)%nat -> seek a (drop k fields) = Some ((nm, v), drop (S j) fields).

Definition more (j : nat) : Prop := (S j < length fields)%nat.

Lemma more_words j : more j -> drop (S j) fields <> [].
Proof. intros Hm E%(f_equal length). rewrite length_drop in E. unfold more in Hm. cbn in E. lia. Qed.

Lemma search_found st k p j a nm v name from i x y ld :
  at_step k p i x y ld st -> found a from j nm v -> (from <= k <= j)%nat -> a ∈ needles ->
  Ellist.to_chars name = a ++ [EQ] ->
  exists q, strstr p name st = Some (Ok (Some q), st) /\
    value_at (q + S (length a)) v (drop (S j) fields) /\
    (forall b, nm = b ++ a -> exists r, q = S r /\ body !! r = last (SP :: b) /\
       drop q body = a ++ EQ :: v ++ words (drop (S j) fields)).
Proof.
  intros Hs Hf Hk Ha Hn.
  pose proof (strstr_seek st p (drop k fields) a name (s_here _ _ _ _ _ _ _ Hs) (s_pos _ _ _ _ _ _ _ Hs)) as H1.
  rewrite (Hf k Hk) in H1. apply H1; [by eexists; symmetry; apply take_drop|done|done].
Qed.

(** The items are changed, the rest stays. *)
Lemma at_step_set k p i x y ld st k' p' f :
  at_step k p i x y ld st -> before_words p' (drop k' fields) ->
  at_step k' p' (f i) x y ld (st<|it := f (it st)|>).
Proof. intros [Hh Hp Hi Hx Hy Hw Hl] Hb. destruct st; cbn in *. by constructor; cbn; subst. Qed.

Lemma steps_number ptr v j n no_end bad set st k p i x y ld :
  at_step k p i x y ld st -> value_at ptr v (drop (S j) fields) -> more j -> (SP ∉ v) ->
  strtoul 10 (Ellist.to_string v) = (n, false) ->
  exists p', num_at ptr no_end bad set st = Some (Ok p', st<|it := set n (it st)|>) /\
    at_step (S j) p' (set n i) x y ld (st<|it := set n (it st)|>).
Proof.
  intros Hs Hv Hm Hsp Hn. eexists.
  rewrite (num_at_value _ _ _ _ _ _ _ _ (s_here _ _ _ _ _ _ _ Hs) Hv (more_words _ Hm) Hsp Hn).
  split; [done|]. eapply at_step_set; [done|]. by apply value_end; [|apply more_words].
Qed.

Lemma steps_num j a nm v n name skip no_end bad set missing i :
  found a 0 j nm v -> a ∈ needles -> Ellist.to_chars name = a ++ [EQ] -> skip = S (length a) ->
  more j -> (SP ∉ v) -> strtoul 10 (Ellist.to_string v) = (n, false) ->
  steps j (S j) (fun t => num_field t name skip no_end bad set (missing t)) i (set n i).
Proof.
  intros Hf Ha Hn -> Hm Hsp Hv k p x y ld st Hk Hs.
  destruct (search_found _ _ _ _ _ _ _ _ _ _ _ _ _ Hs Hf ltac:(lia) Ha Hn) as (q & E & Hval & _).
  unfold num_field, mbind, M_bind. rewrite E.
  destruct (steps_number _ _ _ _ no_end bad set _ _ _ _ _ _ _ Hs Hval Hm Hsp Hv) as (p' & E' & Hs').
  by exists (S j), p', (st<|it := set n (it st)|>).
Qed.

(** The name of the user that was read. *)
Lemma naming_ok f (get_ : search_items -> Z) (set : option string -> search_items -> search_items)
    k p i x y ld st :
  at_step k p i x y ld st ->
  exists st', (u ← items get_; t ← lookup_uid f u; upd (set t)) st = Some (Ok tt, st') /\
    at_step k p (set (user_name f (get_ i)) i) x y ld st'.
Proof.
  intros [Hh Hp Hi Hx Hy Hw Hl]. destruct (lookup_uid_spec f (get_ i) st Hw) as (w & E & Hw' & Hl').
  unfold mbind, M_bind, items, get. rewrite Hi, E. eexists. split; [done|].
  destruct st; cbn in *. by constructor; cbn; subst.
Qed.


(** A number with a name. *)
Lemma steps_named ptr v j n no_end bad setn f (get_ : search_items -> Z)
    (set : option string -> search_items -> search_items) st k p i x y ld :
  at_step k p i x y ld st -> value_at ptr v (drop (S j) fields) -> more j -> (SP ∉ v) ->
  strtoul 10 (Ellist.to_string v) = (n, false) ->
  exists p' st', (term ← num_at ptr no_end bad setn;
                  _ ← (u ← items get_; t ← lookup_uid f u; upd (set t)); mret term) st
                 = Some (Ok p', st') /\
    at_step (S j) p' (set (user_name f (get_ (setn n i))) (setn n i)) x y ld st'.
Proof.
  intros Hs Hv Hm Hsp Hn.
  destruct (steps_number _ _ _ _ no_end bad setn _ _ _ _ _ _ _ Hs Hv Hm Hsp Hn) as (p' & E & Hs').
  destruct (naming_ok f get_ set _ _ _ _ _ _ _ Hs') as (st' & E' & Hs2).
  exists p', st'. split; [|done]. unfold mbind, M_bind in *. rewrite E. by rewrite E'.
Qed.

Definition named (f : string) (n : Z) (setn : setter) (get_ : search_items -> Z)
    (set : option string -> search_items -> search_items) (i : search_items) : search_items :=
  set (user_name f (get_ (setn n i))) (setn n i).

Lemma steps_auid j nm v n none no_end bad i :
  let a := Ellist.to_chars "auid" in
  found a 0 j nm v -> a ∈ needles -> more j -> (SP ∉ v) -> strtoul 10 (Ellist.to_string v) = (n, false) ->
  steps j (S j) (fun t => task_auid t none no_end bad) i
    (named "auid" n set_auid loginuid (fun t i => i<|tauid := t|>) i).
Proof.
  intros a Hf Ha Hm Hsp Hn k p x y ld st Hk Hs.
  destruct (search_found _ _ _ _ _ _ _ "auid=" _ _ _ _ _ Hs Hf ltac:(lia) Ha eq_refl) as (q & E & Hval & _).
  assert (find_auid p st = Some (Ok (Some (q + 5)%nat), st)) as E1
    by (unfold find_auid; by rewrite (bind_ok _ _ _ _ _ E)).
  destruct (steps_named _ _ _ _ no_end bad set_auid "auid" loginuid (fun t i => i<|tauid := t|>)
    _ _ _ _ _ _ _ Hs Hval Hm Hsp Hn) as (p' & st' & E' & Hs').
  exists (S j), p', st'. split; [|done]. unfold task_auid. by rewrite (bind_ok _ _ _ _ _ E1).
Qed.

Lemma steps_euid j nm v n no_end bad missing i :
  let a := Ellist.to_chars "euid" in
  found a 0 j nm v -> a ∈ needles -> more j -> (SP ∉ v) -> strtoul 10 (Ellist.to_string v) = (n, false) ->
  steps j (S j) (fun t => term ← num_field t "euid=" 5 no_end bad set_euid missing; _ ← name_euid; mret term) i
    (named "euid" n set_euid euid (fun t i => i<|teuid := t|>) i).
Proof.
  intros a Hf Ha Hm Hsp Hn k p x y ld st Hk Hs.
  destruct (search_found _ _ _ _ _ _ _ "euid=" _ _ _ _ _ Hs Hf ltac:(lia) Ha eq_refl) as (q & E & Hval & _).
  destruct (steps_named _ _ _ _ no_end bad set_euid "euid" euid (fun t i => i<|teuid := t|>)
    _ _ _ _ _ _ _ Hs Hval Hm Hsp Hn) as (p' & st' & E' & Hs').
  exists (S j), p', st'. split; [|done]. rewrite <-E'. unfold num_field, mbind, M_bind. by rewrite E.
Qed.

(** uid= after auid=, which the search meets first. *)
Lemma before_at q r c st : here st -> q = S r -> body !! r = Some c -> before q st = Some (Ok c, st).
Proof. intros Hm -> Hc. by apply peek_at. Qed.

Lemma steps_uid ja j va v n i :
  let a := Ellist.to_chars "uid" in
  found a 0 ja (Ellist.to_chars "auid") va -> found a (S ja) j a v -> (ja < j)%nat -> a ∈ needles ->
  Forall (fun a => ~ a `suffix_of` Ellist.to_chars "id") needles -> (EQ ∉ va) ->
  more j -> (SP ∉ v) -> strtoul 10 (Ellist.to_string v) = (n, false) ->
  steps j (S j) task_uid i (named "uid" n set_uid uid (fun t i => i<|tuid := t|>) i).
Proof.
  intros a Hfa Hf Hja Ha Hid Hva Hm Hsp Hn k p x y ld st Hk Hs.
  assert (forall k p fuel, at_step k p i x y ld st -> (S ja <= k <= j)%nat ->
    exists q, try_again (S fuel) p st = Some (Ok (Some q, p), st) /\
      value_at (q + 4) v (drop (S j) fields)) as Hlast.
  { intros k1 p1 fuel Hs1 Hk1.
    destruct (search_found _ _ _ _ _ _ _ "uid=" _ _ _ _ _ Hs1 Hf Hk1 Ha eq_refl) as (q & E & Hval & Hb).
    destruct (Hb [] eq_refl) as (r & Hr & Hc & _). exists q. split; [|done].
    cbn [try_again]. unfold mbind, M_bind. rewrite E.
    by rewrite (before_at q r SP st (s_here _ _ _ _ _ _ _ Hs) Hr Hc). }
  assert (exists q t, find_uid p st = Some (Ok (Some q, t), st) /\
    value_at (q + 4) v (drop (S j) fields)) as (q & t & E & Hval).
  { unfold find_uid, mbind at 1, M_bind at 1, get.
    assert (length (msg st) = S (length body)) as -> by
      (rewrite (s_here _ _ _ _ _ _ _ Hs), length_app; cbn; lia).
    destruct (decide (S ja <= k)%nat) as [Hlt|Hlt].
    { destruct (Hlast k p (S (length body)) Hs ltac:(lia)) as (q & E & Hv). by exists q, p. }
    destruct (search_found _ _ _ _ _ _ _ "uid=" _ _ _ _ _ Hs Hfa ltac:(lia) Ha eq_refl) as (q & E & [Hd Hl] & Hb).
    destruct (Hb ["a"%char] eq_refl) as (r & Hr & Hc & Hq).
    assert (at_step (S ja) (S q) i x y ld st) as Hs2.
    { destruct Hs as [Hh _ Hi Hx Hy Hw Hld]. constructor; try done.
      exists (Ellist.to_chars "id" ++ [EQ]), va. pose proof (drop_plus _ 1 _ _ Hq) as Hq1.
      rewrite Nat.add_1_r in Hq1.
      split_and!; [by rewrite Hq1|by apply quiet_name; [set_solver|]|done|].
      apply (f_equal length) in Hq. rewrite length_drop in Hq. cbn in Hq. lia. }
    destruct (Hlast _ _ (length body) Hs2 ltac:(lia)) as (q2 & E2 & Hv2). exists q2, (S q). split; [|done].
    remember (S (length body)) as f. cbn [try_again]. unfold mbind, M_bind. rewrite E.
    rewrite (before_at q r "a"%char st (s_here _ _ _ _ _ _ _ Hs) Hr Hc). subst f. exact E2. }
  destruct (steps_named _ _ _ _ 23 24 set_uid "uid" uid (fun t i => i<|tuid := t|>)
    _ _ _ _ _ _ _ Hs Hval Hm Hsp Hn) as (p' & st' & E' & Hs').
  exists (S j), p', st'. split; [|done]. rewrite <-E'. unfold task_uid, mbind at 1, M_bind at 1. by rewrite E.
Qed.


(** Everything about a word that is found and has words behind it. *)
Lemma word_found st k p j a nm v name i x y ld :
  at_step k p i x y ld st -> found a 0 j nm v -> (k <= j)%nat -> a ∈ needles ->
  Ellist.to_chars name = a ++ [EQ] -> more j -> (SP ∉ v) ->
  exists q t, strstr p name st = Some (Ok (Some q), st) /\
    (forall rc, end_at SP (q + S (length a)) rc st = Some (Ok t, st)) /\
    dup (q + S (length a)) t SP st = Some (Ok (Ellist.to_string v), st) /\
    (forall A (f : string -> A * bool) n rc, f (Ellist.to_string v) = (n, false) ->
       convert f (q + S (length a)) t SP rc st = Some (Ok n, st)) /\
    before_words t (drop (S j) fields).
Proof.
  intros Hs Hf Hk Ha Hn Hm Hsp. pose proof (s_here _ _ _ _ _ _ _ Hs) as Hh.
  destruct (search_found _ _ _ _ _ _ _ _ _ _ _ _ _ Hs Hf ltac:(lia) Ha Hn) as (q & E & Hval & _).
  destruct (value_end _ _ _ Hval (more_words _ Hm)) as (Hc & Hb & Ht).
  exists q, (q + S (length a) + length v)%nat. split; [done|]. split.
  { intros rc. by apply (find_end _ _ _ _ _ _ Hh Hval (more_words _ Hm)). }
  split; [rewrite (dup_at st _ _ SP Hh (Nat.le_add_r _ _) Hc); by rewrite Ht|].
  split; [|done]. intros A f n rc Hf'. eapply convert_at; [done|lia|done|by rewrite Ht].
Qed.

Lemma steps_int f j a nm v n name skip no_end bad missing set i :
  found a 0 j nm v -> a ∈ needles -> Ellist.to_chars name = a ++ [EQ] -> skip = S (length a) ->
  more j -> (SP ∉ v) -> f (Ellist.to_string v) = (n, false) ->
  steps j (S j) (fun t => int_field f t name skip missing no_end bad set) i (set (to_int n) i).
Proof.
  intros Hf Ha Hn -> Hm Hsp Hv k p x y ld st Hk Hs.
  destruct (word_found _ _ _ _ _ _ _ _ _ _ _ _ Hs Hf Hk Ha Hn Hm Hsp) as (q & t & E1 & E2 & _ & E3 & Hb).
  exists (S j), t, (st<|it := set (to_int n) (it st)|>). split; [|split; [done|by eapply at_step_set]].
  unfold int_field. rewrite (bind_ok _ _ _ _ _ E1), (bind_ok _ _ _ _ _ (E2 no_end)),
    (bind_ok _ _ _ _ _ (E3 _ f n bad Hv)). done.
Qed.

Lemma steps_tty j nm v no_end missing i :
  let a := Ellist.to_chars "tty" in
  found a 0 j nm v -> a ∈ needles -> more j -> (SP ∉ v) ->
  steps j (S j) (fun t => tty_field t no_end (missing t)) i (i<|terminal := Some (Ellist.to_string v)|>).
Proof.
  intros a Hf Ha Hm Hsp k p x y ld st Hk Hs.
  destruct (word_found _ _ _ _ _ _ _ "tty=" _ _ _ _ Hs Hf Hk Ha eq_refl Hm Hsp)
    as (q & t & E1 & E2 & E3 & _ & Hb).
  eexists (S j), t, _. split.
  - unfold tty_field. rewrite (bind_ok _ _ _ _ _ E1), (bind_ok _ _ _ _ _ (E2 no_end)),
      (bind_ok _ _ _ _ _ E3). done.
  - split; [done|]. by apply (at_step_set _ _ _ _ _ _ _ _ _ (fun i => i<|terminal := Some (Ellist.to_string v)|>) Hs).
Qed.

Lemma steps_yes_no j nm v i :
  let a := Ellist.to_chars "success" in
  found a 0 j nm v -> a ∈ needles -> more j -> (SP ∉ v) ->
  steps j (S j) yes_no i
    (i<|success := if str_eq (Ellist.to_string v) "yes" then S_SUCCESS else S_FAILED|>).
Proof.
  intros a Hf Ha Hm Hsp k p x y ld st Hk Hs.
  destruct (word_found _ _ _ _ _ _ _ "success=" _ _ _ _ Hs Hf Hk Ha eq_refl Hm Hsp)
    as (q & t & E1 & E2 & E3 & _ & Hb).
  eexists (S j), t, _. split.
  - unfold yes_no. rewrite (bind_ok _ _ _ _ _ E1), (bind_ok _ _ _ _ _ (E2 7)),
      (bind_ok _ _ _ _ _ E3). done.
  - split; [done|]. by apply (at_step_set _ _ _ _ _ _ _ _ _
      (fun i => i<|success := if str_eq (Ellist.to_string v) "yes" then S_SUCCESS else S_FAILED|>) Hs).
Qed.

Lemma steps_exit j nm v n i :
  let a := Ellist.to_chars "exit" in
  found a 0 j nm v -> a ∈ needles -> more j -> (SP ∉ v) ->
  strtoll_any (Ellist.to_string v) = (n, false) ->
  steps j (S j) exit_field i (i<|exit := n|><|exit_is_set := true|>).
Proof.
  intros a Hf Ha Hm Hsp Hv k p x y ld st Hk Hs.
  destruct (word_found _ _ _ _ _ _ _ "exit=" _ _ _ _ Hs Hf Hk Ha eq_refl Hm Hsp)
    as (q & t & E1 & E2 & _ & E3 & Hb).
  eexists (S j), t, _. split.
  - unfold exit_field. rewrite (bind_ok _ _ _ _ _ E1), (bind_ok _ _ _ _ _ (E2 9)),
      (bind_ok _ _ _ _ _ (E3 _ _ _ 10 Hv)). done.
  - split; [done|]. by apply (at_step_set _ _ _ _ _ _ _ _ _ (fun i => i<|exit := n|><|exit_is_set := true|>) Hs).
Qed.

Lemma steps_context j a nm v name skip no_end mk i :
  found a 0 j nm v -> a ∈ needles -> Ellist.to_chars name = a ++ [EQ] -> skip = S (length a) ->
  more j -> (SP ∉ v) -> avc i = None ->
  steps j (S j) (fun t => context_field t name skip no_end mk) i
    (i<|avc := Some (CList [mk (Ellist.to_string v)] (Some 0%nat) 1)|>).
Proof.
  intros Hf Ha Hn -> Hm Hsp Hi k p x y ld st Hk Hs.
  destruct (word_found _ _ _ _ _ _ _ _ _ _ _ _ Hs Hf Hk Ha Hn Hm Hsp) as (q & t & E1 & E2 & E3 & _ & Hb).
  eexists (S j), t, _. split.
  - unfold context_field, context_at. rewrite (bind_ok _ _ _ _ _ E1), (bind_ok _ _ _ _ _ (E2 no_end)),
      (bind_ok _ _ _ _ _ E3). unfold mbind at 1, M_bind at 1, add_avc. rewrite (s_it _ _ _ _ _ _ _ Hs), Hi.
    done.
  - split; [done|]. pose proof (at_step_set _ _ _ _ _ _ _ _ _
      (fun i => i<|avc := Some (CList [mk (Ellist.to_string v)] (Some 0%nat) 1)|>) Hs Hb) as H1.
    cbn in H1. by rewrite (s_it _ _ _ _ _ _ _ Hs) in H1.
Qed.

(** The arguments are kept in the record. *)
Lemma arg_found j a nm v n name set k p i x y ld st x' y' :
  at_step k p i x y ld st -> found a 0 j nm v -> (k <= j)%nat -> a ∈ needles ->
  Ellist.to_chars name = a ++ [EQ] -> length a = 2%nat -> more j -> (SP ∉ v) ->
  strtoul_hex (Ellist.to_string v) = (n, false) ->
  (forall t, at_step (S j) t i x y ld st -> at_step (S j) t i x' y' ld (set n st)) ->
  exists p', arg_field p name set st = Some (Ok p', set n st) /\ at_step (S j) p' i x' y' ld (set n st).
Proof.
  intros Hs Hf Hk Ha Hn Hl Hm Hsp Hv Hset.
  destruct (word_found _ _ _ _ _ _ _ _ _ _ _ _ Hs Hf Hk Ha Hn Hm Hsp) as (q & t & E1 & E2 & _ & E3 & Hb).
  rewrite Hl in E2, E3. exists t. split.
  - unfold arg_field. rewrite (bind_ok _ _ _ _ _ E1), (bind_ok _ _ _ _ _ (E2 12)),
      (bind_ok _ _ _ _ _ (E3 _ _ _ 13 Hv)). done.
  - apply Hset. destruct Hs. by constructor.
Qed.


Lemma words_head fs : match words fs with [] => True | c :: _ => Escape.isxdigit c = false end.
Proof. destruct fs as [|[nm v] fs]; [done|]. by rewrite words_cons. Qed.

Lemma value_head ptr v c w rest : value_at ptr v rest -> v = c :: w -> body !! ptr = Some c.
Proof.
  intros [Hd _] ->. rewrite <-(Nat.add_0_r ptr), <-lookup_drop, Hd. done.
Qed.

(** A quoted text. *)
Lemma quoted_found ptr s rest st :
  here st -> value_at ptr (DQUOTE :: s ++ [DQUOTE]) rest -> DQUOTE ∉ s ->
  let t := (S ptr + length s)%nat in
  peek ptr st = Some (Ok DQUOTE, st) /\
  (forall rc, end_at DQUOTE (S ptr) rc st = Some (Ok t, st)) /\
  dup (S ptr) t DQUOTE st = Some (Ok (Ellist.to_string s), st) /\ before_words t rest.
Proof.
  intros Hh Hv Hq t. pose proof (value_head _ _ _ _ _ Hv eq_refl) as Hc. destruct Hv as [Hd Hl].
  pose proof (drop_plus ptr 1 _ _ Hd) as Hd1. rewrite Nat.add_1_r in Hd1. cbn [drop app] in Hd1.
  rewrite drop_0, <-app_assoc in Hd1.
  pose proof (drop_plus _ (length s) _ _ Hd1) as Hd2. rewrite drop_app_length in Hd2. cbn [app] in Hd2.
  assert (body !! t = Some DQUOTE) as Ht.
  { rewrite <-(Nat.add_0_r t), <-lookup_drop. unfold t. by rewrite Hd2. }
  pose proof (lookup_lt_Some _ _ _ Ht). split; [by apply peek_at|]. split; [|split].
  - intros rc. unfold end_at. erewrite bind_ok by (apply strchr_at; [done|unfold t in *; lia]).
    rewrite Hd1, list_find_app_r.
    2: { apply list_find_None. apply Forall_forall. intros d Hin ->. done. }
    cbn. rewrite decide_True by done. done.
  - rewrite (dup_at st _ _ DQUOTE Hh) by (done || unfold t; lia). do 4 f_equal. rewrite Hd1.
    unfold t. replace (S ptr + length s - S ptr)%nat with (length s) by lia. by rewrite take_app_length.
  - exists [], [DQUOTE]. split_and!; [unfold t; by rewrite Hd2|apply quiet_nil|set_solver|lia].
Qed.

Lemma encoded_found ptr s rest st :
  here st -> value_at ptr (Escape.encode s) rest -> s <> [] -> NUL ∉ s ->
  exists c blk, peek ptr st = Some (Ok c, st) /\ (c =c DQUOTE) = false /\
    unescape_at ptr st = Some (Ok (Some blk), st) /\ StrSplit.until_nul blk = s.
Proof.
  intros Hh Hv Hne Hs. destruct (unescape_logged s (words rest) Hne Hs (words_head rest)) as (blk & E & Hb).
  pose proof (EscapeFacts.encode_xdigit s) as Hx. destruct s as [|c0 s]; [done|].
  rewrite EscapeFacts.encode_cons in *. exists (Escape.upper c0), blk. split_and!.
  - apply peek_at; [done|]. by eapply value_head.
  - apply Forall_cons in Hx as [Hx _]. destruct (EscapeFacts.xdigit_plain _ Hx) as (Hq & _).
    destruct (_ =c _) eqn:Eq; [by apply char_eq_true in Eq|done].
  - destruct Hv as [Hd Hl]. unfold unescape_at. rewrite (bind_ok _ _ _ _ _ (text_at ptr st Hh Hl)).
    unfold lift. rewrite Hd, E. done.
  - done.
Qed.

(** A text of a program, wherever the search began. *)
Lemma text_value_found term ptr v s j no_end set k i x y ld st :
  at_step k term i x y ld st -> (k <= S j)%nat -> value_at ptr v (drop (S j) fields) -> logged_text s v ->
  exists k' p' st', text_value term ptr no_end set st = Some (Ok p', st') /\ (k' <= S j)%nat /\
    at_step k' p' (set (Some (Ellist.to_string s)) i) x y ld st'.
Proof.
  intros Hs Hk Hv Hl. pose proof (s_here _ _ _ _ _ _ _ Hs) as Hh. destruct Hl as [Hq|Hne Hnul].
  - destruct (quoted_found _ _ _ _ Hh Hv Hq) as (E1 & E2 & E3 & Hb).
    eexists (S j), _, _. split; [|split; [done|by apply (at_step_set _ _ _ _ _ _ _ _ _ (set (Some (Ellist.to_string s))) Hs)]].
    unfold text_value. rewrite (bind_ok _ _ _ _ _ E1). cbn [Ascii.eqb].
    rewrite Ascii.eqb_refl, (bind_ok _ _ _ _ _ (E2 no_end)), (bind_ok _ _ _ _ _ E3). done.
  - destruct (encoded_found _ _ _ _ Hh Hv Hne Hnul) as (c & blk & E1 & Hc & E2 & Hblk).
    eexists k, term, _. split; [|split; [done|by apply (at_step_set _ _ _ _ _ _ _ _ _ (set (Some (Ellist.to_string s))) Hs), Hs]].
    unfold text_value. rewrite (bind_ok _ _ _ _ _ E1), Hc. unfold unescaped.
    unfold mbind at 1, M_bind at 1. rewrite (bind_ok _ _ _ _ _ E2). unfold mret, M_ret. cbn.
    unfold Interpret.text_of. rewrite Hblk. done.
Qed.

Lemma steps_text j a nm v s name skip no_end set missing i :
  found a 0 j nm v -> a ∈ needles -> Ellist.to_chars name = a ++ [EQ] -> skip = S (length a) ->
  logged_text s v ->
  steps j (S j) (fun t => text_field t t name skip no_end set (missing t)) i (set (Some (Ellist.to_string s)) i).
Proof.
  intros Hf Ha Hn -> Hl k p x y ld st Hk Hs.
  destruct (search_found _ _ _ _ _ _ _ _ _ _ _ _ _ Hs Hf ltac:(lia) Ha Hn) as (q & E & Hval & _).
  unfold text_field. rewrite (bind_ok _ _ _ _ _ E). eapply text_value_found with (j := j); [exact Hs|lia|exact Hval|exact Hl].
Qed.

(** The same from the beginning of the record. *)
Lemma steps_text_0 j a nm v s name skip no_end set missing i :
  before_words 0 fields ->
  found a 0 j nm v -> a ∈ needles -> Ellist.to_chars name = a ++ [EQ] -> skip = S (length a) ->
  logged_text s v ->
  steps j (S j) (fun t => text_field 0 t name skip no_end set (missing t)) i (set (Some (Ellist.to_string s)) i).
Proof.
  intros H0 Hf Ha Hn -> Hl k p x y ld st Hk Hs.
  assert (at_step 0 0 i x y ld st) as Hs0 by (destruct Hs; by constructor).
  destruct (search_found _ _ _ _ _ _ _ _ _ _ _ _ _ Hs0 Hf ltac:(lia) Ha Hn) as (q & E & Hval & _).
  unfold text_field. rewrite (bind_ok _ _ _ _ _ E). eapply text_value_found with (j := j); [exact Hs|lia|exact Hval|exact Hl].
Qed.

(** A name that no word has. *)
Lemma res_missing k p i x y ld st bad :
  at_step k p i x y ld st -> seek (Ellist.to_chars "res") (drop k fields) = None ->
  Ellist.to_chars "res" ∈ needles -> res_number p bad (mret tt) st = Some (Ok tt, st).
Proof.
  intros Hs Hk Ha. pose proof (strstr_seek st p (drop k fields) (Ellist.to_chars "res") "res="
    (s_here _ _ _ _ _ _ _ Hs) (s_pos _ _ _ _ _ _ _ Hs)) as H1.
  rewrite Hk in H1. unfold res_number. rewrite (bind_ok _ _ st None st); [done|].
  apply H1; [by eexists; symmetry; apply take_drop|done|done].
Qed.


(** *** Keys *)

Context (smalloc_fresh : forall h, h !! smalloc h = None).

Definition keys_are (o : option HitList.slist) (ds : list HitList.snode) : Prop :=
  exists l xs, o = Some l /\ HitListFacts.rep l xs /\ HitListFacts.cur_ok l xs /\ xs.*2 = ds.

Lemma key_list_ok t st ds :
  keys_are (Some (default HitList.slist_create (key (it st)))) ds -> Z.of_nat (length ds) + 1 < two32 ->
  exists o, add_key t st = Some (Ok tt, st<|it := (it st)<|key := o|>|>) /\
    keys_are o (ds ++ [HitList.SNode (Some t) None 1]).
Proof.
  intros (l & xs & [= El] & Hr & Hc & Hd) Hlen.
  destruct (HitListFacts.slist_append_spec smalloc smalloc_fresh (HitList.SNode (Some t) None 1) l xs Hr Hc)
    as (l' & a & E & Hr' & Hcur).
  { by rewrite <-(length_fmap snd xs), Hd. }
  exists (Some l'). split; [unfold add_key; by rewrite El, E|].
  exists l', (xs ++ [(a, HitList.SNode (Some t) None 1)]). split_and!; [done|done| |].
  - intros c Hcc. rewrite Hcur in Hcc. injection Hcc as <-. rewrite fmap_app. apply elem_of_app. right. by left.
  - by rewrite fmap_app, Hd.
Qed.

Lemma add_keys_ok ts : forall st ds,
  keys_are (Some (default HitList.slist_create (key (it st)))) ds ->
  Z.of_nat (length ds + length ts) < two32 ->
  exists o, add_keys ts st = Some (Ok tt, st<|it := (it st)<|key := o|>|>) /\
    (keys_are o (ds ++ key_nodes ts) \/ ts = [] /\ o = key (it st)).
Proof.
  induction ts as [|t ts IH]; intros st ds Hk Hlen.
  - exists (key (it st)). split; [|by right]. cbn. destruct st as [m x y i n w]. by destruct i.
  - destruct (key_list_ok (Ellist.to_string t) st ds Hk) as (o & E & Ho); [cbn in Hlen; lia|].
    cbn [add_keys]. rewrite (bind_ok _ _ _ _ _ E). pose proof Ho as (l & xs & -> & Hl).
    destruct (IH (st<|it := (it st)<|key := Some l|>|>) (ds ++ [HitList.SNode (Some (Ellist.to_string t)) None 1]))
      as (o & E' & Ho').
    + destruct st as [m x y i n w]. by destruct i.
    + rewrite length_app. cbn in *. lia.
    + exists o. split; [rewrite E'; destruct st as [m x y i n w]; by destruct i|]. left.
      change (key_nodes (t :: ts)) with ([HitList.SNode (Some (Ellist.to_string t)) None 1] ++ key_nodes ts).
      rewrite app_assoc. destruct Ho' as [?|[-> ->]]; [done|]. rewrite app_nil_r.
      destruct st as [m x y i n w]. by destruct i.
Qed.

Lemma keys_create : keys_are (Some HitList.slist_create) [].
Proof.
  exists HitList.slist_create, []. split_and!; [done|apply HitListFacts.rep_create|done|done].
Qed.

Lemma key_found j nm v ks no_end bad k p i x y ld st :
  let a := Ellist.to_chars "key" in
  at_step k p i x y ld st -> found a 0 j nm v -> (k <= j)%nat -> a ∈ needles -> key i = None ->
  logged_keys ks v -> Z.of_nat (length (shown_keys ks)) < two32 ->
  exists p' o, key_field p no_end bad st = Some (Ok p', st<|it := i<|key := o|>|>) /\
    keys_are o (key_nodes (shown_keys ks)).
Proof.
  intros a Hs Hf Hk Ha Hi Hl Hlen.
  destruct (search_found _ _ _ _ _ _ _ "key=" _ _ _ _ _ Hs Hf ltac:(lia) Ha eq_refl) as (q & E & Hval & _).
  change (q + S (length a))%nat with (q + 4)%nat in Hval. pose proof (s_it _ _ _ _ _ _ _ Hs) as Hit.
  set (st1 := st<|it := create_key (it st)|>).
  assert (it st1 = create_key i /\ here st1 /\ key (create_key i) = Some HitList.slist_create) as (Hi1 & Hh & Hc1).
  { unfold st1. rewrite Hit. destruct Hs as [Hh _ _ _ _ _ _]. unfold create_key. rewrite Hi.
    destruct st; cbn in *. done. }
  assert (keys_are (Some (default HitList.slist_create (key (it st1)))) []) as Hc.
  { rewrite Hi1, Hc1. apply keys_create. }
  assert (forall o, st1<|it := (it st1)<|key := o|>|> = st<|it := i<|key := o|>|>) as Hset.
  { intros o. rewrite Hi1. unfold st1. destruct st as [m x0 y0 i0 n w]. by destruct i. }
  unfold key_field. rewrite (bind_ok _ _ _ _ _ E). cbv zeta.
  erewrite (bind_ok _ _ st tt st1) by done.
  assert (forall c blk, peek (q + 4) st1 = Some (Ok c, st1) -> (c =c DQUOTE) = false ->
    unescape_at (q + 4) st1 = Some (Ok (Some blk), st1) ->
    tokens AUDIT_KEY_SEPARATOR (StrSplit.until_nul blk) = shown_keys ks -> shown_keys ks <> [] ->
    exists p' o, (c ← peek (q + 4);
      if c =c DQUOTE then term ← end_at DQUOTE (S (q + 4)) no_end; t ← dup (S (q + 4)) term DQUOTE;
                          _ ← add_key t; mret term
      else keyptr ← unescape_at (q + 4);
           match keyptr with
           | Some blk => _ ← add_keys (tokens AUDIT_KEY_SEPARATOR (StrSplit.until_nul blk)); mret p
           | None => ret bad
           end) st1 = Some (Ok p', st<|it := i<|key := o|>|>) /\ keys_are o (key_nodes (shown_keys ks))) as Henc.
  { intros c blk E1 Eq E2 Et Hne. rewrite (bind_ok _ _ _ _ _ E1), Eq, (bind_ok _ _ _ _ _ E2), Et.
    destruct (add_keys_ok (shown_keys ks) st1 [] Hc) as (o & E3 & Ho); [done|].
    exists p, o. rewrite (bind_ok _ _ _ _ _ E3), Hset. split; [done|].
    by destruct Ho as [?|[? _]]. }
  destruct Hl as [|k0 Hq|ks Hne Hks].
  - apply (Henc "("%char (Ellist.to_chars "(null)" ++ [NUL])); [|done| |done|done].
    + apply peek_at; [done|]. by eapply value_head.
    + destruct Hval as [Hd Hlb]. unfold unescape_at. rewrite (bind_ok _ _ _ _ _ (text_at _ _ Hh Hlb)).
      rewrite Hd. done.
  - destruct (quoted_found _ _ _ _ Hh Hval Hq) as (E1 & E2 & E3 & _).
    rewrite (bind_ok _ _ _ _ _ E1), Ascii.eqb_refl, (bind_ok _ _ _ _ _ (E2 no_end)), (bind_ok _ _ _ _ _ E3).
    destruct (key_list_ok (Ellist.to_string k0) st1 [] Hc) as (o & E4 & Ho); [done|].
    eexists _, o. rewrite (bind_ok _ _ _ _ _ E4), Hset. done.
  - assert (join_keys ks <> []) as Hj.
    { destruct Hks as [|k1 ks' (Hk1 & _) _]; [done|]. by destruct k1. }
    destruct (encoded_found _ _ _ _ Hh Hval Hj (joined_no_nul _ Hks)) as (c & blk & E1 & Eq & E2 & Hb).
    assert (shown_keys ks = ks) as Hsk by (by destruct ks). rewrite Hsk in *.
    apply (Henc c blk); [done..| |done]. by rewrite Hb, words_tokens.
Qed.


End record.

End SearchParseFacts.
