(* ===== verification/SearchSyscall.v ===== *)
(** * System call records are read as the kernel wrote them

    The record that the kernel writes for a system call, and the items that ausearch
    takes from it. *)
From S2P Require Import Prelude CString CList StrSplit Config ConfigFacts HitList HitListFacts Avc Llist Nvlist Escape EscapeFacts Ellist Interpret AuSearch Match RuleList RuleText SearchParse SearchParseFacts.
From coqutil Require Import Datatypes.RecordSetters.
Import RecordSetters.TriangleBracketNotations.

Local Open Scope audit_scope.
Local Open Scope Z_scope.
Local Open Scope list_scope.

Module SearchSyscall.
Import Llist SearchParse SearchParseFacts.

(** ** The record *)

Record sysrec := SysRec {
  k_stamp : chars;        (* audit(time:serial): *)
  k_arch : Z;
  k_syscall : Z;
  k_success : bool;
  k_exit : Z;
  k_a0 : Z;
  k_a1 : Z;
  k_a2 : Z;
  k_a3 : Z;
  k_items : Z;
  k_ppid : Z;
  k_pid : Z;
  k_auid : Z;
  k_uid : Z;
  k_gid : Z;
  k_euid : Z;
  k_suid : Z;
  k_fsuid : Z;
  k_egid : Z;
  k_sgid : Z;
  k_fsgid : Z;
  k_tty : chars;
  k_ses : Z;
  k_comm : chars;
  k_exe : chars;
  k_subj : chars;
  k_keys : list chars;
}.

Definition txt (s : string) : chars := Ellist.to_chars s.

Definition dec (n : Z) : chars := txt (ConfigFacts.decimal n).
Definition sdec (n : Z) : chars := if n <? 0 then "-"%char :: dec (- n) else dec n.
Definition hex (digits : nat) (n : Z) : chars := txt (RuleList.hex_go false digits n "").

(** Names of programs and keys: in quotes, or encoded when there is a character that
    would end the quotes or the word. *)
Definition control (c : ascii) : bool := (c =c DQUOTE) || (code c <? 33) || (126 <? code c).
Definition untrusted (s : chars) : chars :=
  if existsb control s then Escape.encode s else DQUOTE :: s ++ [DQUOTE].
Definition keys_text (ks : list chars) : chars :=
  match ks with [] => txt "(null)" | _ => untrusted (join_keys ks) end.

Definition fields (r : sysrec) : list field := [
  (txt "msg", k_stamp r); (txt "arch", hex 8 (k_arch r)); (txt "syscall", dec (k_syscall r));
  (txt "success", txt (if k_success r then "yes" else "no")); (txt "exit", sdec (k_exit r));
  (txt "a0", hex 16 (k_a0 r)); (txt "a1", hex 16 (k_a1 r)); (txt "a2", hex 16 (k_a2 r)); (txt "a3", hex 16 (k_a3 r));
  (txt "items", dec (k_items r)); (txt "ppid", dec (k_ppid r)); (txt "pid", dec (k_pid r));
  (txt "auid", dec (k_auid r)); (txt "uid", dec (k_uid r)); (txt "gid", dec (k_gid r));
  (txt "euid", dec (k_euid r)); (txt "suid", dec (k_suid r)); (txt "fsuid", dec (k_fsuid r));
  (txt "egid", dec (k_egid r)); (txt "sgid", dec (k_sgid r)); (txt "fsgid", dec (k_fsgid r));
  (txt "tty", k_tty r); (txt "ses", dec (k_ses r)); (txt "comm", untrusted (k_comm r));
  (txt "exe", untrusted (k_exe r)); (txt "subj", k_subj r); (txt "key", keys_text (k_keys r))].

Definition line (r : sysrec) : chars := txt "type" ++ [EQ] ++ txt "SYSCALL" ++ words (fields r).

(** What the kernel guarantees, and that no value has a '='. *)
Definition word_ok (s : chars) : Prop := (EQ ∉ s) /\ (SP ∉ s) /\ (NUL ∉ s).
Definition name_ok (s : chars) : Prop := (EQ ∉ untrusted s) /\ (NUL ∉ s).
Record ok (r : sysrec) : Prop := Ok_ {
  ok_words : Forall word_ok [k_stamp r; k_tty r; k_subj r];
  ok_names : Forall name_ok [k_comm r; k_exe r];
  ok_keys : Forall key_ok (k_keys r) /\ (EQ ∉ keys_text (k_keys r)) /\ Z.of_nat (length (k_keys r)) < two32;
  ok_u32 : Forall (fun n => 0 <= n < two32)
    [k_arch r; k_items r; k_auid r; k_uid r; k_gid r; k_euid r; k_suid r; k_fsuid r; k_egid r; k_sgid r; k_fsgid r; k_ses r];
  ok_int : Forall (fun n => 0 <= n < 2 ^ 31) [k_syscall r; k_ppid r; k_pid r];
  ok_long : Forall (fun n => 0 <= n < two64) [k_a0 r; k_a1 r; k_a2 r; k_a3 r];
  ok_exit : - 2 ^ 63 <= k_exit r < 2 ^ 63;
}.

(** The names the parser looks for. *)
Definition needles : list chars :=
  txt <$> ["arch"; "syscall"; "success"; "exit"; "a0"; "a1"; "ppid"; " pid"; "auid"; "uid"; "gid"; "euid"; "egid";
           "tty"; "ses"; "comm"; "exe"; "subj"; "res"; "key"]%string.

Ltac find_it :=
  let w := fresh "w" in let Hw := fresh "Hw" in
  intros w Hw; do 28 (destruct w as [|w]; [first [reflexivity | exfalso; lia]|]); exfalso; lia.

(** ** The values are words and are read back *)

Lemma to_string_txt s : Ellist.to_string (txt s) = s.
Proof. apply String.string_of_list_ascii_of_string. Qed.

Lemma name_word s : Forall (fun c => RuleText.plain_char c = true) s -> word_ok s.
Proof.
  intros H. rewrite Forall_forall in H. split_and!; intros Hin; by apply H in Hin.
Qed.

Lemma dec_ok n : 0 <= n < two64 -> word_ok (dec n) /\ strtoul 10 (Ellist.to_string (dec n)) = (n, false).
Proof.
  intros Hn. unfold dec. rewrite to_string_txt. split; [|by apply ConfigFacts.strtoul_decimal].
  apply name_word. pose proof (RuleText.plain_decimal n Hn) as Hp. apply andb_prop in Hp as [_ Hp].
  apply Forall_forall. intros c Hc. rewrite forallb_forall in Hp. apply Hp.
  by apply list_elem_of_In.
Qed.

Lemma u32_dec n : 0 <= n < two32 -> word_ok (dec n) /\ strtoul 10 (Ellist.to_string (dec n)) = (n, false).
Proof. intros Hn. apply dec_ok. unfold two32, two64 in *. lia. Qed.

(** Characters of numbers in base 16. *)
Lemma low_digit c : digit_value c < 16 ->
  isspace c = false /\ (c =c "-"%char) = false /\ (c =c "+"%char) = false /\
  (c =c "x"%char) = false /\ (c =c "X"%char) = false.
Proof. destruct c as [[] [] [] [] [] [] [] []]; vm_compute; naive_solver. Qed.

Definition low_digits (s : string) : Prop := Forall (fun c => digit_value c < 16) (txt s).

Lemma hex_go_low fuel n s : 0 <= n -> low_digits s -> low_digits (RuleList.hex_go false fuel n s).
Proof.
  revert n s. induction fuel as [|fuel IH]; intros n s Hn Hs; [done|]. cbn [RuleList.hex_go].
  assert (0 <= n mod 16 < 16) as Hm by (apply Z.mod_pos_bound; lia).
  assert (low_digits (String (RuleList.hex_digit false (n mod 16)) s)).
  { constructor; [|done]. destruct (RuleText.hex_digit_value false _ Hm) as [-> _]. lia. }
  destruct (n <? 16); [done|]. apply IH; [apply Z.div_pos; lia|done].
Qed.

Lemma scan_sign_low s : low_digits s -> scan_sign s = (false, s) /\ hex_digits s = s.
Proof.
  intros H. destruct s as [|c s]; [done|]. apply Forall_cons in H as [Hc H].
  destruct (low_digit c Hc) as (H1 & H2 & H3 & _). split.
  - unfold scan_sign. cbn [span]. rewrite H1. cbn [snd char_at]. by rewrite H2, H3.
  - destruct s as [|d s]; [done|]. apply Forall_cons in H as [Hd _].
    destruct (low_digit d Hd) as (_ & _ & _ & H4 & H5). cbn [hex_digits]. rewrite H4, H5. cbn [orb].
    by rewrite andb_false_r.
Qed.

Lemma hex_ok digits n : 0 <= n < 16 ^ Z.of_nat digits -> 16 ^ Z.of_nat digits <= two64 ->
  word_ok (hex digits n) /\ strtoul_hex (Ellist.to_string (hex digits n)) = (n, false).
Proof.
  intros Hn Hd. unfold hex. rewrite to_string_txt.
  destruct (RuleText.hex_go_spec false digits n "" Hn) as [Hv Hp]. split; [by apply name_word, Hp|].
  destruct (scan_sign_low (RuleList.hex_go false digits n "")) as [E1 E2]; [apply hex_go_low; [lia|constructor]|].
  unfold strtoul_hex. rewrite E1, E2, Hv. cbn [CString.digits].
  destruct (Z.ltb_spec SIZE_MAX n); [unfold SIZE_MAX in *; lia|done].
Qed.

Lemma digit_low c : isdigit c = true -> digit_value c < 16.
Proof. destruct c as [[] [] [] [] [] [] [] []]; vm_compute; naive_solver. Qed.

Lemma decimal_low n : 0 <= n -> low_digits (ConfigFacts.decimal n).
Proof.
  intros Hn. pose proof (ConfigFacts.decimal_digits n Hn) as Hd. apply Forall_forall. intros c Hc.
  unfold Config.all_digits in Hd. rewrite forallb_forall in Hd. apply digit_low, Hd.
  by apply list_elem_of_In.
Qed.

Lemma printed_decimal n : 0 <= n < two64 ->
  (if str_eq (hex_digits (ConfigFacts.decimal n)) (ConfigFacts.decimal n)
   then fst (digits (if char_at (ConfigFacts.decimal n) =c "0"%char then 8 else 10) 0 (ConfigFacts.decimal n))
   else fst (digits 16 0 (hex_digits (ConfigFacts.decimal n)))) = n.
Proof.
  intros Hn. destruct (scan_sign_low _ (decimal_low n ltac:(lia))) as [_ ->]. rewrite str_eq_refl.
  destruct (RuleText.decimal_head n Hn) as [[-> ->]|(c & t & Hd & _ & Hc)]; [done|].
  replace (char_at (ConfigFacts.decimal n) =c "0"%char) with false.
  - unfold ConfigFacts.decimal. rewrite ConfigFacts.decimal_go_digits by (unfold two64 in Hn; cbn; lia). done.
  - rewrite Hd. cbn [char_at]. symmetry. by apply Ascii.eqb_neq.
Qed.

Lemma sdec_ok n : - 2 ^ 63 <= n < 2 ^ 63 ->
  word_ok (sdec n) /\ strtoll_any (Ellist.to_string (sdec n)) = (n, false).
Proof.
  intros Hn. unfold sdec. destruct (Z.ltb_spec n 0).
  - destruct (dec_ok (- n)) as [(H1 & H2 & H3) _]; [unfold two64; lia|]. split.
    { split_and!; apply not_elem_of_cons; done. }
    change (Ellist.to_string ("-"%char :: dec (- n))) with (String "-" (Ellist.to_string (dec (- n)))).
    unfold dec. rewrite to_string_txt. unfold strtoll_any.
    change (scan_sign (String "-" (ConfigFacts.decimal (- n)))) with (true, ConfigFacts.decimal (- n)).
    cbv beta iota zeta. rewrite printed_decimal by (unfold two64; lia).
    destruct (Z.leb_spec (- n) (2 ^ 63)); [|lia]. by rewrite Z.opp_involutive.
  - destruct (dec_ok n) as [H1 _]; [unfold two64; lia|]. split; [done|].
    unfold dec. rewrite to_string_txt. unfold strtoll_any.
    destruct (scan_sign_low _ (decimal_low n ltac:(lia))) as [-> _]. cbv beta iota zeta.
    rewrite printed_decimal by (unfold two64; lia). destruct (Z.ltb_spec n (2 ^ 63)); [done|lia].
Qed.

Lemma untrusted_text s : NUL ∉ s -> logged_text s (untrusted s).
Proof.
  intros Hs. unfold untrusted. destruct (existsb control s) eqn:E.
  - apply LEncoded; [|done]. by intros ->.
  - apply LQuoted. intros Hin. by apply (EscapeFacts.existsb_elem control DQUOTE s Hin) in E.
Qed.

Lemma keys_logged ks : Forall key_ok ks -> logged_keys ks (keys_text ks).
Proof.
  intros Hk. destruct ks as [|k ks]; [constructor|]. cbn [keys_text]. unfold untrusted.
  destruct (existsb control (join_keys (k :: ks))) eqn:E; [by apply LMany|].
  destruct ks as [|k2 ks].
  - cbn [join_keys mbind list_bind]. rewrite app_nil_r. apply LOne. cbn [join_keys mbind list_bind] in E.
    rewrite app_nil_r in E. intros Hin. by apply (EscapeFacts.existsb_elem control DQUOTE k Hin) in E.
  - exfalso. apply (EscapeFacts.existsb_elem control AUDIT_KEY_SEPARATOR) in E; [done|].
    cbn. apply elem_of_app. right. left.
Qed.

(** ** The line as words *)

Ltac by_computing := apply (bool_decide_unpack _); vm_compute; exact I.

Lemma needles_ok : Forall plain_name needles.
Proof. unfold plain_name. by_computing. Qed.

Lemma start_silent : Forall (fun a => ~ a `suffix_of` txt "type") needles.
Proof. by_computing. Qed.

Lemma id_silent : Forall (fun a => ~ a `suffix_of` txt "id") needles.
Proof. by_computing. Qed.

Lemma untrusted_no_nul s : NUL ∉ s -> NUL ∉ untrusted s.
Proof.
  intros Hs. unfold untrusted. destruct (existsb _ _); [apply EscapeFacts.encode_no_nul|]. set_solver.
Qed.

Lemma keys_no_nul ks : Forall key_ok ks -> NUL ∉ keys_text ks.
Proof.
  intros Hk. destruct ks; [by_computing|]. by apply untrusted_no_nul, joined_no_nul.
Qed.

(** Names and values without what would mislead the search. *)
Definition clean (f : field) : Prop := field_ok f /\ (NUL ∉ f.1) /\ (NUL ∉ f.2).

Lemma clean_value nm v : bool_decide (word_ok nm) = true -> (EQ ∉ v) -> (NUL ∉ v) -> clean (nm, v).
Proof. by intros (H1 & H2 & H3)%bool_decide_eq_true H4 H5. Qed.

Lemma ok_word nm v : bool_decide (word_ok nm) = true -> word_ok v -> clean (nm, v).
Proof. intros H1 (H2 & _ & H3). by apply clean_value. Qed.

Lemma yes_no_word (b : bool) : word_ok (txt (if b then "yes" else "no")).
Proof. by destruct b; split_and!; by_computing. Qed.

Lemma fields_clean r : ok r -> Forall clean (fields r).
Proof.
  intros [Hw Hn (Hk & Hke & _) H32 Hi Hl He].
  assert (forall n, 0 <= n < two32 -> word_ok (dec n)) as Hdec by (intros; by apply u32_dec).
  assert (forall n, 0 <= n < 2 ^ 31 -> word_ok (dec n)) as Hint
    by (intros; apply u32_dec; unfold two32; lia).
  assert (forall n, 0 <= n < two64 -> word_ok (hex 16 n)) as Hhex by (intros; by apply hex_ok).
  assert (forall n, 0 <= n < two32 -> word_ok (hex 8 n)) as Hhex8 by (intros; by apply hex_ok).
  assert (forall nm s, bool_decide (word_ok nm) = true -> name_ok s -> clean (nm, untrusted s)) as Hname.
  { intros nm s H1 [H4 H5]. by apply clean_value; [..|apply untrusted_no_nul]. }
  rewrite !Forall_cons in Hw. rewrite !Forall_cons in Hn. rewrite !Forall_cons in H32.
  rewrite !Forall_cons in Hi. rewrite !Forall_cons in Hl.
  destruct Hw as (? & ? & ? & _), Hn as (? & ? & _), H32 as (? & ? & ? & ? & ? & ? & ? & ? & ? & ? & ? & ? & _),
    Hi as (? & ? & ? & _), Hl as (? & ? & ? & ? & _).
  unfold fields. repeat apply Forall_cons_2; [..|apply Forall_nil_2];
    first [apply ok_word; [reflexivity|solve [auto using yes_no_word]] | apply Hname; [reflexivity|done] | idtac].
  - apply ok_word; [reflexivity|by apply sdec_ok].
  - by apply clean_value; [..|apply keys_no_nul].
Qed.


Lemma fields_are_ok r : ok r -> Forall field_ok (fields r).
Proof. intros H. eapply Forall_impl; [by apply fields_clean|]. by intros f []. Qed.

Lemma record_no_nul fs : Forall clean fs -> NUL ∉ words fs.
Proof.
  induction 1 as [|[nm v] fs (_ & Hn & Hv) _ IH]; [apply not_elem_of_nil|].
  rewrite words_cons. cbn in *. set_solver.
Qed.

Lemma line_no_nul r : ok r -> NUL ∉ line r.
Proof.
  intros H. pose proof (record_no_nul _ (fields_clean r H)) as Hw. unfold line. rewrite !elem_of_app.
  intros [Hin|[Hin|[Hin|Hin]]]; [..|done]; revert Hin; by_computing.
Qed.

Lemma line_start r : before_words (line r) needles 0 (fields r).
Proof.
  exists (txt "type" ++ [EQ]), (txt "SYSCALL"). split_and!.
  - done.
  - apply quiet_name; [exact needles_ok|by_computing|exact start_silent].
  - by_computing.
  - lia.
Qed.

(** ** The items *)

Definition set_yes (b : bool) (i : search_items) : search_items :=
  i<|success := if b then S_SUCCESS else S_FAILED|>.
Definition set_exit (v : Z) (i : search_items) : search_items := i<|exit := v|><|exit_is_set := true|>.
Definition set_terminal (v : string) (i : search_items) : search_items := i<|terminal := Some v|>.
Definition set_subject (v : string) (i : search_items) : search_items :=
  i<|avc := Some (CList [subject v] (Some 0%nat) 1)|>.
Definition set_tauid (t : option string) (i : search_items) : search_items := i<|tauid := t|>.
Definition set_tuid (t : option string) (i : search_items) : search_items := i<|tuid := t|>.
Definition set_teuid (t : option string) (i : search_items) : search_items := i<|teuid := t|>.

Lemma set_yes_text b i : set_yes b i
  = i<|success := if str_eq (Ellist.to_string (txt (if b then "yes" else "no"))) "yes" then S_SUCCESS else S_FAILED|>.
Proof. by destruct b. Qed.

Definition set_key (k : option HitList.slist) (i : search_items) : search_items := i<|key := k|>.

Definition set_args (x y : Z) (n : lnode) : lnode := n<|a0 := x|><|a1 := y|>.

(** The arguments are found. *)
Lemma stands_a0 `{Env} body nd fs lg k p i x y ld st n :
  at_step body nd fs lg k p i x y ld st -> at_step body nd fs lg k p i n y ld (set_a0 n st).
Proof. intros []. destruct st. by constructor. Qed.

Lemma stands_a1 `{Env} body nd fs lg k p i x y ld st n :
  at_step body nd fs lg k p i x y ld st -> at_step body nd fs lg k p i x n ld (set_a1 n st).
Proof. intros []. destruct st. by constructor. Qed.

Section spec.
Context `{Env} (smalloc_fresh : forall h, h !! smalloc h = None).
Context (o : options) (report_format : Z) (logged : string -> option string).
Context (r : sysrec) (r_ok : ok r).

Definition want_arch : bool := (RPT_DEFAULT <? report_format) || negb (Match.event_machine o =? -1).

(** An item that is asked for. *)
Definition opt (c : bool) (f : search_items -> search_items) (i : search_items) : search_items :=
  if c then f i else i.

(** The system call, and the process. *)
Definition call_items (i : search_items) : search_items :=
  let i := opt want_arch (set_arch (to_int (k_arch r))) i in
  let i := set_syscall (to_int (k_syscall r)) i in
  let i := opt (want_success o) (set_yes (k_success r)) i in
  opt (Match.event_exit_is_set o) (set_exit (k_exit r)) i.

Definition id_items (i : search_items) : search_items :=
  let i := opt (want_ppid o) (set_ppid (k_ppid r)) i in
  let i := opt (want_pid o) (set_pid (k_pid r)) i in
  let i := opt (want_auid o) (named logged "auid" (k_auid r) set_auid loginuid set_tauid) i in
  let i := opt (want_uid o) (named logged "uid" (k_uid r) set_uid uid set_tuid) i in
  let i := opt (want_gid o) (set_gid (k_gid r)) i in
  let i := opt (want_euid o) (named logged "euid" (k_euid r) set_euid euid set_teuid) i in
  opt (want_egid o) (set_egid (k_egid r)) i.

Definition task_items (i : search_items) : search_items :=
  let i := id_items i in
  let i := opt (is_set (Match.event_terminal o)) (set_terminal (Ellist.to_string (k_tty r))) i in
  let i := opt (want_ses o) (set_ses (k_ses r)) i in
  let i := opt (is_set (Match.event_comm o)) (set_comm (Some (Ellist.to_string (k_comm r)))) i in
  let i := opt (is_set (Match.event_exe o)) (set_exe (Some (Ellist.to_string (k_exe r)))) i in
  opt (is_set (Match.event_subject o))
    (set_subject (Ellist.to_string (k_subj r))) i.

Abbreviation stepping := (steps (line r) needles (fields r) logged).

Ltac steps_ok :=
  first [exact (line_no_nul r r_ok) | exact needles_ok | exact (fields_are_ok r r_ok) | find_it
        | by_computing | reflexivity | unfold more; cbn; lia].

Lemma r_u32 : Forall (fun n => word_ok (dec n) /\ strtoul 10 (Ellist.to_string (dec n)) = (n, false))
  [k_auid r; k_uid r; k_gid r; k_euid r; k_egid r; k_ses r; k_syscall r; k_ppid r; k_pid r].
Proof.
  destruct r_ok as [_ _ _ H32 Hi _ _]. rewrite !Forall_cons in H32. rewrite !Forall_cons in Hi.
  destruct H32 as (? & ? & ? & ? & ? & ? & ? & ? & ? & ? & ? & ? & _), Hi as (? & ? & ? & _).
  repeat apply Forall_cons_2; [..|apply Forall_nil_2]; apply u32_dec; unfold two32 in *; lia.
Qed.

Lemma r_dec n :
  n ∈ [k_auid r; k_uid r; k_gid r; k_euid r; k_egid r; k_ses r; k_syscall r; k_ppid r; k_pid r] ->
  (SP ∉ dec n) /\ strtoul 10 (Ellist.to_string (dec n)) = (n, false).
Proof.
  intros Hn. pose proof r_u32 as H1. rewrite Forall_forall in H1. by destruct (H1 n Hn) as [(_ & H2 & _) H3].
Qed.

Ltac member := solve [repeat first [apply list_elem_of_here | apply list_elem_of_further]].

Ltac dec_ok_of n :=
  let Hs := fresh "Hs" in let Hv := fresh "Hv" in
  assert ((SP ∉ dec n) /\ strtoul 10 (Ellist.to_string (dec n)) = (n, false)) as [Hs Hv]
    by (apply r_dec; member).

(** A number of the record is at word [j]. *)
Ltac number w name val :=
  dec_ok_of val; eapply steps_num with (j := w) (a := txt name) (v := dec val); [steps_ok..|eassumption|eassumption].

(** The option [c] asks for word [j]; the rest of the parser follows. *)
Ltac asked w tac :=
  eapply steps_bind with (b := S w); [|eapply steps_when with (a := w); [lia|intros _; tac]|].

Lemma ids_found i : stepping 10 19 (task_ids o) i (id_items i).
Proof.
  unfold task_ids, id_items, opt. cbv zeta.
  asked 10%nat ltac:(number 10%nat "ppid"%string (k_ppid r)); [reflexivity|].
  asked 11%nat ltac:(number 11%nat " pid"%string (k_pid r)); [reflexivity|].
  asked 12%nat ltac:(dec_ok_of (k_auid r); eapply steps_auid with (v := dec (k_auid r)); [steps_ok..|eassumption|eassumption]);
    [reflexivity|].
  assert (EQ ∉ dec (k_auid r)) as Hauid.
  { pose proof r_u32 as H1. rewrite Forall_cons in H1. by destruct H1 as [[(? & _) _] _]. }
  asked 13%nat ltac:(dec_ok_of (k_uid r);
    eapply steps_uid with (ja := 12%nat) (va := dec (k_auid r)) (v := dec (k_uid r));
      [steps_ok..|exact Hauid|steps_ok|eassumption|eassumption]); [reflexivity|].
  asked 14%nat ltac:(number 14%nat "gid"%string (k_gid r)); [reflexivity|].
  asked 15%nat ltac:(dec_ok_of (k_euid r); eapply steps_euid with (v := dec (k_euid r)); [steps_ok..|eassumption|eassumption]);
    [reflexivity|].
  eapply steps_weaken with (a := 18%nat) (b := 19%nat); [lia|lia|].
  eapply steps_when; [lia|]. intros _. number 18%nat "egid"%string (k_egid r).
Qed.

Lemma r_word v : v ∈ [k_tty r; k_subj r] -> SP ∉ v.
Proof.
  intros Hv. destruct r_ok as [Hw _ _ _ _ _ _]. rewrite Forall_forall in Hw.
  destruct (Hw v) as (_ & ? & _); [set_solver|done].
Qed.

Lemma r_name s : s ∈ [k_comm r; k_exe r] -> logged_text s (untrusted s).
Proof.
  intros Hv. destruct r_ok as [_ Hn _ _ _ _ _]. rewrite Forall_forall in Hn.
  apply untrusted_text. by destruct (Hn s Hv).
Qed.

Lemma opt_keep {A} (g : search_items -> A) c f i : (forall i, g (f i) = g i) -> g (opt c f i) = g i.
Proof. intros Hf. by destruct c; cbn. Qed.

Ltac peel := repeat (etransitivity; [apply opt_keep; by intros []|]).

Abbreviation stands := (at_step (line r) needles (fields r) logged).

Lemma step_tty i : stepping 21 22
  (fun t => when (is_set (Match.event_terminal o)) t (fun term => tty_field term 34 (mret term))) i
  (opt (is_set (Match.event_terminal o)) (set_terminal (Ellist.to_string (k_tty r))) i).
Proof.
  eapply steps_when; [lia|]. intros _. eapply steps_tty with (v := k_tty r); [steps_ok..|apply r_word; member].
Qed.

Lemma step_ses i : stepping 22 23
  (fun t => when (want_ses o) t (fun term => num_field term "ses=" 4 35 36 set_ses (mret term))) i
  (opt (want_ses o) (set_ses (k_ses r)) i).
Proof. eapply steps_when; [lia|]. intros _. number 22%nat "ses"%string (k_ses r). Qed.

Lemma step_comm i : stepping 23 24 (fun t => when (is_set (Match.event_comm o)) t task_comm) i
  (opt (is_set (Match.event_comm o)) (set_comm (Some (Ellist.to_string (k_comm r)))) i).
Proof.
  eapply steps_when; [lia|]. intros _.
  eapply steps_text with (a := txt "comm") (v := untrusted (k_comm r)) (missing := fun _ => ret 38);
    [steps_ok..|apply r_name; member].
Qed.

Lemma step_exe i : stepping 24 25 (fun t => when (is_set (Match.event_exe o)) t task_exe) i
  (opt (is_set (Match.event_exe o)) (set_exe (Some (Ellist.to_string (k_exe r)))) i).
Proof.
  eapply steps_when; [lia|]. intros _.
  eapply steps_text_0 with (a := txt "exe") (v := untrusted (k_exe r)) (missing := fun _ => ret 40);
    first [apply line_start | apply r_name; member | steps_ok].
Qed.

Lemma step_subject i : avc i = None -> stepping 25 26
  (fun t => when (is_set (Match.event_subject o)) t (fun term => context_field term "subj=" 5 41 subject)) i
  (opt (is_set (Match.event_subject o)) (set_subject (Ellist.to_string (k_subj r))) i).
Proof.
  intros Hi. eapply steps_when; [lia|]. intros _.
  eapply steps_context with (a := txt "subj") (v := k_subj r); [steps_ok..|apply r_word; member|done].
Qed.

Lemma res_nowhere k : seek (txt "res") (drop k (fields r)) = None.
Proof. do 28 (destruct k as [|k]; [reflexivity|]). reflexivity. Qed.

(** Make a step of the parser. *)
Ltac go H :=
  match goal with
  | Hs : stands ?k ?p ?i ?x ?y ?ld ?st |- _ =>
      let k' := fresh "k" in let p' := fresh "p" in let st' := fresh "st" in
      let E := fresh "E" in let Hs' := fresh "Hs" in
      destruct (H k p x y ld st ltac:(lia) Hs) as (k' & p' & st' & E & ? & Hs');
      rewrite (bind_ok _ _ _ _ _ E); clear E Hs
  end.

Lemma task_found i x y ld st :
  stands 0%nat 0%nat i x y ld st -> avc i = None ->
  exists k p st', parse_task_info o st = Some (Ok tt, st') /\ stands k p (task_items i) x y ld st'.
Proof.
  intros Hs Hi. unfold parse_task_info, task_items. cbv zeta.
  go (ids_found i). go (step_tty (id_items i)).
  go (step_ses (opt (is_set (Match.event_terminal o)) (set_terminal (Ellist.to_string (k_tty r))) (id_items i))).
  match goal with Hs : stands _ _ ?i1 _ _ _ _ |- _ => go (step_comm i1) end.
  match goal with Hs : stands _ _ ?i1 _ _ _ _ |- _ => go (step_exe i1) end.
  match goal with Hs : stands _ _ ?i1 _ _ _ _ |- _ => assert (avc i1 = None) as Hi1 by (peel; exact Hi); go (step_subject i1 Hi1) end.
  match goal with Hs : stands ?k ?p ?i1 _ _ _ ?st1 |- _ => exists k, p, st1; split; [|exact Hs] end.
  destruct (want_success o); [|done]. eapply res_missing; [steps_ok..|done|apply res_nowhere|by_computing].
Qed.

Lemma r_hex n : n ∈ [k_a0 r; k_a1 r] ->
  (SP ∉ hex 16 n) /\ strtoul_hex (Ellist.to_string (hex 16 n)) = (n, false).
Proof.
  intros Hn. destruct r_ok as [_ _ _ _ _ Hl _]. rewrite Forall_forall in Hl.
  assert (0 <= n < two64) as Hn' by (apply Hl; set_solver).
  by destruct (hex_ok 16 n Hn') as [(_ & ? & _) ?].
Qed.

Lemma r_arch : (SP ∉ hex 8 (k_arch r)) /\ strtoul_hex (Ellist.to_string (hex 8 (k_arch r))) = (k_arch r, false).
Proof.
  destruct r_ok as [_ _ _ H32 _ _ _]. apply Forall_cons in H32 as [Ha _].
  by destruct (hex_ok 8 (k_arch r) Ha) as [(_ & ? & _) ?].
Qed.

Lemma step_arch i : stepping 1 2
  (fun t => when want_arch t (fun term => int_field strtoul_hex term "arch=" 5 (ret 1) 2 3 set_arch)) i
  (opt want_arch (set_arch (to_int (k_arch r))) i).
Proof.
  destruct r_arch as [Hs Hv]. eapply steps_when; [lia|]. intros _.
  eapply steps_int with (a := txt "arch") (v := hex 8 (k_arch r)); [steps_ok..|exact Hs|exact Hv].
Qed.

Lemma step_syscall i : stepping 2 3
  (fun t => int_field (strtoul 10) t "syscall=" 8 (ret 4) 5 6 set_syscall) i
  (set_syscall (to_int (k_syscall r)) i).
Proof.
  dec_ok_of (k_syscall r).
  eapply steps_int with (a := txt "syscall") (v := dec (k_syscall r)); [steps_ok..|exact Hs|exact Hv].
Qed.

Lemma step_success i : stepping 3 4 (fun t => when (want_success o) t yes_no) i
  (opt (want_success o) (set_yes (k_success r)) i).
Proof.
  eapply steps_when; [lia|]. intros _.
  rewrite set_yes_text.
  eapply steps_yes_no; [steps_ok..|]. by destruct (yes_no_word (k_success r)) as (_ & ? & _).
Qed.

Lemma step_exit i : stepping 4 5 (fun t => when (Match.event_exit_is_set o) t exit_field) i
  (opt (Match.event_exit_is_set o) (set_exit (k_exit r)) i).
Proof.
  eapply steps_when; [lia|]. intros _. destruct r_ok as [_ _ _ _ _ _ He].
  destruct (sdec_ok _ He) as [(_ & Hs & _) Hv]. eapply steps_exit; [steps_ok..|exact Hs|exact Hv].
Qed.


Lemma syscall_args k p i x y ld st :
  stands k p i x y ld st -> (k <= 5)%nat ->
  exists k' p' st', (term ← arg_field p "a0=" set_a0;
      arg_field term "a1=" set_a1) st = Some (Ok p', st') /\ (k' <= 7)%nat /\
    stands k' p' i (k_a0 r) (k_a1 r) ld st'.
Proof.
  intros Hs Hk.
  assert (k_a0 r ∈ [k_a0 r; k_a1 r]) as A0 by member. assert (k_a1 r ∈ [k_a0 r; k_a1 r]) as A1 by member.
  destruct (r_hex (k_a0 r) A0) as [Hs0 Hv0]. destruct (r_hex (k_a1 r) A1) as [Hs1 Hv1].
  destruct (arg_found (line r) (line_no_nul r r_ok) needles needles_ok (fields r) (fields_are_ok r r_ok) logged
    5 (txt "a0") (txt "a0") (hex 16 (k_a0 r)) (k_a0 r) "a0=" set_a0 k p i x y ld st (k_a0 r) y)
    as (p1 & E1 & Hs1'); [done|steps_ok|lia|steps_ok..|exact Hs0|exact Hv0|intros t; apply stands_a0|].
  destruct (arg_found (line r) (line_no_nul r r_ok) needles needles_ok (fields r) (fields_are_ok r r_ok) logged
    6 (txt "a1") (txt "a1") (hex 16 (k_a1 r)) (k_a1 r) "a1=" set_a1 6 p1 i (k_a0 r) y ld
    (set_a0 (k_a0 r) st) (k_a0 r) (k_a1 r))
    as (p2 & E2 & Hs2'); [done|steps_ok|lia|steps_ok..|exact Hs1|exact Hv1|intros t; apply stands_a1|].
  exists 7%nat, p2. eexists. rewrite (bind_ok _ _ _ _ _ E1). split; [exact E2|]. split; [lia|done].
Qed.

Lemma keys_count : Z.of_nat (length (shown_keys (k_keys r))) < two32.
Proof. destruct r_ok as [_ _ (_ & _ & Hl) _ _ _ _]. by destruct (k_keys r). Qed.

Lemma bind_assoc {A B C} (m : M A) (f : A -> M B) (g : B -> M C) st :
  (a ← m; b ← f a; g b) st = (b ← (a ← m; f a); g b) st.
Proof. unfold mbind, M_bind. by destruct (m st) as [[[]]|]. Qed.

Lemma call_ok (m : M unit) st st' : m st = Some (Ok tt, st') -> call m st = Some (Ok 0, st').
Proof. intros E. unfold call. by rewrite E. Qed.

Lemma syscall_keeps v i : key (set_syscall v i) = key i /\ avc (set_syscall v i) = avc i.
Proof. by destruct i. Qed.

Lemma key_kept i : key i = None -> avc i = None ->
  key (task_items (call_items i)) = None /\ avc (call_items i) = None.
Proof.
  intros Hk Ha. unfold task_items, id_items, call_items. cbv zeta. split.
  - peel. rewrite (proj1 (syscall_keeps _ _)). by peel.
  - peel. rewrite (proj2 (syscall_keeps _ _)). by peel.
Qed.

(** What was read of the record. *)
Record read_as (i : search_items) (ld : bool) (st : pstate) : Prop := ReadAs {
  ra_text : here (line r) st;
  ra_args : pa0 st = k_a0 r /\ pa1 st = k_a1 r;
  ra_world : world_ok logged (wd st) /\ loaded (wd st) = ld;
  ra_items : exists kl, it st = set_key kl (task_items (call_items i)) /\
    if is_set (Match.event_key o) then keys_are kl (key_nodes (shown_keys (k_keys r))) else kl = None;
}.

Lemma set_key_none i : key i = None -> set_key None i = i.
Proof. by destruct i; cbn; intros ->. Qed.

Lemma syscall_found i x y ld st :
  stands 0%nat 0%nat i x y ld st -> key i = None -> avc i = None ->
  exists st', parse_syscall o report_format st = Some (Ok tt, st') /\ read_as i ld st'.
Proof.
  intros Hs Hk Ha. destruct (key_kept i Hk Ha) as [Hk' Ha']. unfold parse_syscall.
  go (step_arch i). go (step_syscall (opt want_arch (set_arch (to_int (k_arch r))) i)).
  match goal with Hs : stands _ _ ?i1 _ _ _ _ |- _ => go (step_success i1) end.
  match goal with Hs : stands _ _ ?i1 _ _ _ _ |- _ => go (step_exit i1) end.
  match goal with Hs : stands _ _ ?i1 _ _ _ _ |- _ => change i1 with (call_items i) in Hs end.
  match goal with Hs : stands ?k ?p ?i1 _ _ _ _ |- _ =>
    destruct (syscall_args k p i1 x y ld _ Hs ltac:(lia)) as (k5 & p5 & st5 & E5 & Hk5 & Hs5) end.
  rewrite bind_assoc, (bind_ok _ _ _ _ _ E5).
  assert (stands 0%nat 0%nat (call_items i) (k_a0 r) (k_a1 r) ld st5) as Hs0.
  { destruct Hs5. constructor; try done. apply line_start. }
  destruct (task_found _ _ _ _ _ Hs0 Ha') as (k6 & p6 & st6 & E6 & Hs6).
  rewrite (bind_ok _ _ _ _ _ (call_ok _ _ _ E6)). cbn [negb Z.eqb].
  assert (stands k5 p5 (task_items (call_items i)) (k_a0 r) (k_a1 r) ld st6) as Hs7.
  { destruct Hs6, Hs5. by constructor. }
  destruct (is_set (Match.event_key o)) eqn:Eo; unfold when.
  - destruct (key_found (line r) (line_no_nul r r_ok) needles needles_ok (fields r) (fields_are_ok r r_ok)
      logged smalloc_fresh 26 (txt "key") (keys_text (k_keys r)) (k_keys r) 44 45 _ _ _ _ _ _ _ Hs7)
      as (p8 & kl & E8 & Hkl); [steps_ok|lia|steps_ok|done|apply keys_logged, r_ok|apply keys_count|].
    eexists. rewrite (bind_ok _ _ _ _ _ E8). split; [done|]. destruct Hs7.
    constructor; [by destruct st6|by destruct st6|by destruct st6|]. exists kl. rewrite Eo. by destruct st6.
  - exists st6. split; [done|]. destruct Hs7. constructor; try done. exists None. rewrite Eo.
    by rewrite set_key_none.
Qed.

(** The items of a lone record. *)
Definition items_of : search_items := task_items (call_items no_items).

Lemma text_of_line : Interpret.text_of (line r ++ [NUL]) = Ellist.to_string (line r).
Proof.
  unfold Interpret.text_of. by rewrite (StrSplit.until_nul_text (line r) []) by by apply line_no_nul.
Qed.

Lemma node_found n w :
  ntype n = 1300 -> message n = Ellist.to_string (line r) -> world_ok logged w ->
  exists kl w', parse_node o report_format n no_items w
      = Some (0, set_args (k_a0 r) (k_a1 r) n, set_key kl items_of, w') /\
    (if is_set (Match.event_key o) then keys_are kl (key_nodes (shown_keys (k_keys r))) else kl = None) /\
    world_ok logged w' /\ loaded w' = loaded w.
Proof.
  intros Ht Hm Hw. unfold parse_node. rewrite Ht, Hm.
  assert (Ellist.to_chars (Ellist.to_string (line r)) = line r) as -> by apply String.list_ascii_of_string_of_list_ascii.
  set (st0 := PState _ _ _ _ _ _).
  assert (stands 0%nat 0%nat no_items (a0 n) (a1 n) (loaded w) st0) as Hs.
  { constructor; try done. apply line_start. }
  destruct (syscall_found _ _ _ _ _ Hs eq_refl eq_refl) as (st' & E & [Hh [Ha0 Ha1] [Hw' Hl] (kl & Hi & Hkl)]).
  change (parse_record o report_format 1300) with (parse_syscall o report_format).
  rewrite (call_ok _ _ _ E). cbn [mbind option_bind]. exists kl, (wd st'). split; [|done].
  rewrite Hh, text_of_line, Ha0, Ha1, Hi. do 4 f_equal. destruct n; cbn in *. by subst.
Qed.

End spec.


End SearchSyscall.
