(* ===== verification/SearchMatch.v ===== *)
(** * ausearch finds a system call by what its record says

    [match] of src/src/ausearch-match.c above the parsers of src/src/ausearch-parse.c:
    for the event of a system call the answer is that of the values in the record,
    though the parsers take only what the options ask for. *)
From S2P Require Import Prelude CString CList StrSplit HitList HitListFacts Avc Llist Nvlist Escape Ellist Interpret AuSearch Match MatchFacts SearchParse SearchParseFacts SearchSyscall.
From coqutil Require Import Datatypes.RecordSetters.
Import RecordSetters.TriangleBracketNotations.

Local Open Scope audit_scope.
Local Open Scope Z_scope.
Local Open Scope list_scope.

Module SearchMatch.
Import Llist SearchParse SearchParseFacts SearchSyscall.

(** The parsers are what [match] calls. *)
Definition search_parse `{Env} (o : options) (report_format : Z) (elf : Z -> Z) : Match.Parse := {|
  Match.world := world;
  Match.ausearch_load_interpretations := ausearch_load_interpretations;
  Match.extract_search_items := extract_search_items o report_format;
  Match.audit_elf_to_machine := elf;
|}.

(** An event of one record. *)
Definition lone (n : lnode) (ev : event) (fm : Z) : llist := LList (CList [n] (Some 0%nat) 1) ev no_items fm.

(** -ua and -ga look for the user or group in all places. *)
Definition all_asked (o : options) : Prop :=
  (Match.event_ua o = true -> want_uid o = true /\ want_euid o = true /\ want_auid o = true) /\
  (Match.event_ga o = true -> want_gid o = true /\ want_egid o = true).

(** ** Items that agree where it matters *)

Record agree (o : options) (i j : search_items) : Prop := Agree {
  g_ppid : want_ppid o = true -> ppid i = ppid j;
  g_pid : want_pid o = true -> pid i = pid j;
  g_uid : want_uid o = true -> uid i = uid j /\ tuid i = tuid j;
  g_euid : want_euid o = true -> euid i = euid j /\ teuid i = teuid j;
  g_auid : want_auid o = true -> loginuid i = loginuid j /\ tauid i = tauid j;
  g_gid : want_gid o = true -> gid i = gid j;
  g_egid : want_egid o = true -> egid i = egid j;
  g_arch : negb (Match.event_machine o =? -1) = true -> arch i = arch j;
  g_syscall : syscall i = syscall j;
  g_ses : want_ses o = true -> session_id i = session_id j;
  g_exit : Match.event_exit_is_set o = true -> exit i = exit j /\ exit_is_set i = exit_is_set j;
  g_success : want_success o = true -> success i = success j;
}.

Lemma unset_or (x u a b : Z) : (negb (x =? u) = true -> a = b) -> (x =? u) || (x =? a) = (x =? u) || (x =? b).
Proof. intros Hab. destruct (x =? u); [done|]. by rewrite Hab. Qed.

Lemma group_agree o i j : all_asked o -> agree o i j -> Match.group_match o i = Match.group_match o j.
Proof.
  intros [_ Hga] []. unfold Match.group_match. destruct (Match.event_ga o) eqn:E.
  - destruct (Hga eq_refl). by rewrite g_gid0, g_egid0.
  - by rewrite (unset_or _ _ _ _ g_gid0), (unset_or _ _ _ _ g_egid0).
Qed.

Lemma numbers_agree `{Match.Parse} o i j : agree o i j -> Match.number_tests o i = Match.number_tests o j.
Proof.
  intros []. unfold Match.number_tests.
  rewrite (unset_or _ _ _ _ g_ppid0), (unset_or _ _ _ _ g_pid0), (unset_or _ _ _ _ g_ses0), g_syscall0.
  rewrite (unset_or _ _ _ _ g_success0).
  assert ((Match.event_machine o =? -1) || (Match.event_machine o =? Match.audit_elf_to_machine (arch i))
    = (Match.event_machine o =? -1) || (Match.event_machine o =? Match.audit_elf_to_machine (arch j))) as ->.
  { apply unset_or. intros. by rewrite g_arch0. }
  destruct (Match.event_exit_is_set o); [|done]. by destruct (g_exit0 eq_refl) as [-> ->].
Qed.

Lemma users_agree o i j : all_asked o -> agree o i j -> Match.user_match o i = Match.user_match o j.
Proof.
  intros [Hua _] []. unfold Match.user_match. destruct (Match.event_ua o) eqn:E.
  - destruct (Hua eq_refl) as (H1 & H2 & H3). destruct (g_uid0 H1) as [-> ->], (g_euid0 H2) as [-> ->].
    by destruct (g_auid0 H3) as [-> ->].
  - unfold want_uid, want_euid, want_auid in *. case_bool_decide as Hn.
    + destruct Hn as (H1 & H2 & H3). rewrite H1, orb_false_r in g_uid0. rewrite H2, orb_false_r in g_euid0.
      rewrite H3, orb_false_r in g_auid0.
      rewrite (unset_or (Match.event_uid o) (u32 (-1)) (uid i) (uid j)) by (intros; by apply g_uid0).
      rewrite (unset_or (Match.event_euid o) (u32 (-1)) (euid i) (euid j)) by (intros; by apply g_euid0).
      by rewrite (unset_or (Match.event_loginuid o) (u32 (-2)) (loginuid i) (loginuid j)) by (intros; by apply g_auid0).
    + f_equal. f_equal; [f_equal|].
      * destruct (Match.event_tuid o); [|done]. destruct g_uid0 as [_ ->]; [by rewrite orb_true_r|done].
      * destruct (Match.event_teuid o); [|done]. destruct g_euid0 as [_ ->]; [by rewrite orb_true_r|done].
      * destruct (Match.event_tauid o); [|done]. destruct g_auid0 as [_ ->]; [by rewrite orb_true_r|done].
Qed.

Lemma users_same o l1 l2 : all_asked o -> MatchFacts.ua_complete o -> agree o (s l1) (s l2) ->
  MatchFacts.user_ok o l1 = MatchFacts.user_ok o l2.
Proof.
  intros Hall Hua Ha. pose proof (users_agree o _ _ Hall Ha) as E. rewrite !MatchFacts.user_match_ok in E by done. congruence.
Qed.

(** ** The record itself *)

Section event.
Context `{Env} (smalloc_fresh : forall h, h !! smalloc h = None).
Context (o : options) (report_format : Z) (elf : Z -> Z) (logged : string -> option string).
Context (r : sysrec) (r_ok : ok r).

(** All that the record says. *)
Definition full : search_items :=
  SearchItems (k_ppid r) (k_pid r) (k_uid r) (k_euid r) (k_auid r) (k_gid r) (k_egid r)
    (if k_success r then S_SUCCESS else S_FAILED) (to_int (k_arch r)) (k_syscall r) (k_ses r)
    (k_exit r) true None None None (Some (Ellist.to_string (k_exe r))) None
    (Some (Ellist.to_string (k_tty r))) (Some (Ellist.to_string (k_comm r)))
    (Some (CList [subject (Ellist.to_string (k_subj r))] (Some 0%nat) 1)) None None None
    (user_name logged "uid" (k_uid r)) (user_name logged "euid" (k_euid r)) (user_name logged "auid" (k_auid r)).

Abbreviation found_items := (items_of o report_format logged r).

Lemma layer {A} (g : search_items -> A) f i : (forall i, g (f i) = g i) -> g (f i) = g i.
Proof. done. Qed.

(** Items that the outer setters do not touch. *)
Ltac strip := repeat first
  [etransitivity; [apply opt_keep; by intros []|]
  |etransitivity; [apply (layer _ (set_key _)); by intros []|]
  |etransitivity; [apply (layer _ (set_syscall _)); by intros []|]].
Ltac item := unfold items_of, task_items, id_items, call_items; cbv zeta; strip.

Lemma to_int_small n : 0 <= n < 2 ^ 31 -> to_int n = n.
Proof. intros Hn. unfold AuSearch.to_int. rewrite Z.mod_small; lia. Qed.

Lemma numbers_small : Forall (fun n => to_int n = n) [k_syscall r; k_ppid r; k_pid r] /\
  Forall (fun n => u32 n = n) [k_auid r; k_uid r; k_gid r; k_euid r; k_egid r; k_ses r].
Proof.
  destruct r_ok as [_ _ _ H32 Hi _ _]. rewrite Forall_forall in H32. split.
  - eapply Forall_impl; [exact Hi|]. apply to_int_small.
  - apply Forall_forall. intros n Hn. apply u32_small, H32. set_solver.
Qed.

Lemma asked_item {A} (c : bool) (g : search_items -> A) f i v :
  c = true -> g (f i) = v -> g (opt c f i) = v.
Proof. by intros ->. Qed.

Ltac setting :=
  match goal with |- _ (_ ?i) = _ => generalize i end; intros []; unfold named;
  cbn -[u32 user_name to_int];
  repeat match goal with Hn : u32 ?n = ?n |- context [u32 ?n] => rewrite Hn end; first [assumption | done].
Ltac asked := apply asked_item; [done|]; setting.

Lemma items_agree kl : agree o (set_key kl found_items) full.
Proof.
  destruct numbers_small as [Hi H32]. rewrite !Forall_cons in Hi. rewrite !Forall_cons in H32.
  destruct Hi as (Hsys & Hppid & Hpid & _), H32 as (Hauid & Huid & Hgid & Heuid & Hegid & Hses & _).
  constructor; try intros Hc.
  - item. asked.
  - item. asked.
  - split; item; asked.
  - split; item; asked.
  - split; item; asked.
  - item. asked.
  - item. asked.
  - item. apply asked_item; [unfold want_arch; by rewrite Hc, orb_true_r|]. setting.
  - item. setting.
  - item. asked.
  - split; item; asked.
  - item. asked.
Qed.

Lemma texts_found kl : let i := set_key kl found_items in
  MatchFacts.string_ok o (Match.event_terminal o) (terminal i) = MatchFacts.string_ok o (Match.event_terminal o) (terminal full) /\
  MatchFacts.string_ok o (Match.event_exe o) (exe i) = MatchFacts.string_ok o (Match.event_exe o) (exe full) /\
  MatchFacts.string_ok o (Match.event_comm o) (comm i) = MatchFacts.string_ok o (Match.event_comm o) (comm full).
Proof.
  cbv zeta. split_and!.
  - destruct (Match.event_terminal o) eqn:E; [|done]. f_equal. item. rewrite E. asked.
  - destruct (Match.event_exe o) eqn:E; [|done]. f_equal. item. rewrite E. asked.
  - destruct (Match.event_comm o) eqn:E; [|done]. f_equal. item. rewrite E. asked.
Qed.

Lemma nothing_else kl : let i := set_key kl found_items in
  hostname i = None /\ filename i = None /\ cwd i = None /\ vmname i = None /\ uuid i = None /\ key i = kl.
Proof. cbv zeta. split_and!; [by item..|]. setting. Qed.

Lemma avc_found kl : nodes <$> avc (set_key kl found_items)
  = if is_set (Match.event_subject o) then Some [subject (Ellist.to_string (k_subj r))] else None.
Proof.
  assert (avc (set_key kl found_items)
    = if is_set (Match.event_subject o)
      then Some (CList [subject (Ellist.to_string (k_subj r))] (Some 0%nat) 1) else None) as ->
    by (destruct (is_set (Match.event_subject o)) eqn:E;
        item; rewrite ?E; unfold opt at 1; [setting|by strip]).
  by destruct (is_set _).
Qed.

Lemma extract_lone n ev fm w :
  ntype n = 1300 -> message n = Ellist.to_string (line r) -> world_ok logged w ->
  exists kl w' l1, extract_search_items o report_format (lone n ev fm) w = Some (0, l1, w') /\
    e l1 = ev /\ s l1 = set_key kl found_items /\ nodes (records l1) = [set_args (k_a0 r) (k_a1 r) n] /\
    (if is_set (Match.event_key o) then keys_are kl (key_nodes (shown_keys (k_keys r))) else kl = None).
Proof.
  intros Ht Hm Hw. destruct (node_found smalloc_fresh o report_format logged r r_ok n w Ht Hm Hw)
    as (kl & w' & E & Hkl & _ & _).
  exists kl, w'. eexists. split; [|split_and!; [..|exact Hkl]].
  - unfold extract_search_items. cbn -[parse_node no_items].
    rewrite E. cbn. done.
  - done.
  - done.
  - done.
Qed.


(** What the search is for, judged by the record. *)
Definition by_record (vn : option (list HitList.snode)) (vt : option (list HitList.int_node))
    (n : lnode) (ev : event) : bool :=
  forallb id (@MatchFacts.criteria (search_parse o report_format elf) o
    (LList (CList [n] (Some 0%nat) 1) ev full 0)
    (MatchFacts.View vn vt None (Some (key_nodes (shown_keys (k_keys r))))
      (Some [subject (Ellist.to_string (k_subj r))]))).

Lemma keys_some ks : MatchFacts.some_strings (Some (key_nodes (shown_keys ks))).
Proof.
  split; [by destruct ks|]. apply Forall_fmap, Forall_true. intros k. by eexists.
Qed.

Lemma criteria_agree l1 vn vt n ev kl :
  all_asked o -> MatchFacts.ua_complete o -> e l1 = ev -> s l1 = set_key kl found_items -> nodes (records l1) = [set_args (k_a0 r) (k_a1 r) n] ->
  forallb id (@MatchFacts.criteria (search_parse o report_format elf) o l1
    (MatchFacts.View vn vt None (if is_set (Match.event_key o) then Some (key_nodes (shown_keys (k_keys r))) else None)
      (if is_set (Match.event_subject o) then Some [subject (Ellist.to_string (k_subj r))] else None)))
  = by_record vn vt n ev.
Proof.
  intros Hall Hua He Hs Hn. unfold by_record. f_equal. unfold MatchFacts.criteria.
  rewrite (users_same _ l1 (LList (CList [n] (Some 0%nat) 1) ev full 0) Hall Hua) by (rewrite Hs; apply items_agree). rewrite Hs.
  destruct (texts_found kl) as (-> & -> & ->), (nothing_else kl) as (-> & _ & Hcwd & -> & -> & _).
  rewrite (group_agree o _ full Hall (items_agree kl)), (numbers_agree o _ full (items_agree kl)).
  set (v1 := MatchFacts.View vn vt None (if is_set (Match.event_key o) then _ else _) _).
  set (v2 := MatchFacts.View vn vt None (Some _) _). set (l2 := LList _ ev full 0).
  assert (MatchFacts.node_ok l1 v1 = MatchFacts.node_ok l2 v2) as -> by (unfold MatchFacts.node_ok; cbn; by rewrite He).
  assert (MatchFacts.type_ok l1 v1 = MatchFacts.type_ok l2 v2) as -> by (unfold MatchFacts.type_ok; cbn; by rewrite Hn).
  assert (MatchFacts.filename_ok o l1 v1 = MatchFacts.filename_ok o l2 v2) as ->
    by (unfold MatchFacts.filename_ok; cbn; by rewrite Hs, Hcwd).
  assert (MatchFacts.key_ok o v1 = MatchFacts.key_ok o v2) as ->
    by (unfold MatchFacts.key_ok; cbn; by destruct (Match.event_key o)).
  assert (MatchFacts.context_ok o v1 = MatchFacts.context_ok o v2) as ->; [|done].
  unfold MatchFacts.context_ok, MatchFacts.context_in. cbn.
  unfold MatchFacts.context_is. by destruct (Match.event_se o), (Match.event_subject o), (Match.event_object o).
Qed.

(** C29: ausearch finds a system call by what the kernel wrote.  Let an event have one
    SYSCALL record with numbers in the ranges of their types and names and keys, in
    quotes or encoded, of which none that is not encoded has a '=' and no key is empty
    ([ok]; [name_hides_executable] shows what a '=' can do).  Then [match] over the
    parsers of ausearch-parse.c answers whether the event is in the window of time and
    the values of the record meet the options: the parsers, which take only what is
    asked for, neither miss a value nor take one for another, and no access is out of
    bounds.  The options are as ausearch sets them, with -ua and -ga for all places, and
    do not have both a subject and an object. *)
Theorem syscall_matched (st st0 : @Match.state (search_parse o report_format elf)) n ev fm vn vt :
  all_asked o -> MatchFacts.ua_complete o -> MatchFacts.one_context o ->
  ntype n = 1300 -> message n = Ellist.to_string (line r) ->
  Match.l st = lone n ev fm ->
  @Match.load_interpretations (search_parse o report_format elf) o st = Some (true, st0) ->
  world_ok logged (Match.wd st0) ->
  MatchFacts.holds (Match.event_node_list st) vn -> MatchFacts.holds (Match.event_type st) vt -> vt <> Some [] ->
  exists st', @Match.match_ (search_parse o report_format elf) o st
    = Some (Match.in_window o ev && by_record vn vt n ev, st').
Proof.
  intros Hall Hua Hone Ht Hm Hl Hli Hw Hvn Hvt Hne.
  assert (Match.l st0 = lone n ev fm /\ Match.event_node_list st0 = Match.event_node_list st /\
          Match.event_type st0 = Match.event_type st) as (Hl0 & Hn0 & Ht0).
  { revert Hli. unfold Match.load_interpretations. rewrite Hl. cbn. case_bool_decide; [by intros [= <-]|].
    destruct (ausearch_load_interpretations n _); [|done]. by intros [= <-]. }
  destruct (extract_lone n ev fm (Match.wd st0) Ht Hm Hw) as (kl & w' & l1 & E & He & Hs & Hr & Hkl).
  set (v := MatchFacts.View vn vt None
    (if is_set (Match.event_key o) then Some (key_nodes (shown_keys (k_keys r))) else None)
    (if is_set (Match.event_subject o) then Some [subject (Ellist.to_string (k_subj r))] else None)).
  destruct (nothing_else kl) as (_ & Hfile & _ & _ & _ & Hkey).
  destruct (@MatchFacts.match_spec (search_parse o report_format elf) o l1 v st st0 0 w' Hli) as (st' & Em).
  - rewrite Hl0. exact E.
  - constructor; cbn; rewrite ?Hn0, ?Ht0, ?Hs; try done.
    + by rewrite Hfile.
    + rewrite Hkey. destruct (is_set (Match.event_key o)); [|by subst].
      destruct Hkl as (x & xs & -> & Hrep & _ & Hd). by exists xs.
    + apply avc_found.
  - split_and!; [by rewrite Hr|done|done|]. cbn. destruct (is_set (Match.event_key o)); [apply keys_some|done].
  - done.
  - done.
  - exists st'. rewrite Em, Hl. cbn [e lone]. rewrite andb_true_r. do 3 f_equal. by eapply criteria_agree.
Qed.


End event.


End SearchMatch.
