(* ===== verification/SearchSafe.v ===== *)
(** * The parsers of ausearch on any text

    Whatever the text of a record is, the parsers of src/src/ausearch-parse.c for the
    records of the kernel and of the daemon stay within it, and leave it as it was
    unless they give up. *)
From S2P Require Import Prelude CString CList StrSplit HitList HitListFacts Avc Llist Nvlist Escape Ellist Interpret AuSearch Match SearchParse SearchParseFacts.
From coqutil Require Import Datatypes.RecordSetters.
Import RecordSetters.TriangleBracketNotations.

Local Open Scope audit_scope.
Local Open Scope Z_scope.
Local Open Scope list_scope.

Module SearchSafe.
Import Llist SearchParse SearchParseFacts.

(** ** Blocks and items *)

(** A block ends with a NUL. *)
Definition ends (m : chars) : Prop := last m = Some NUL.

Definition slist_ok (n : nat) (x : option HitList.slist) : Prop :=
  match x with
  | None => True
  | Some l => exists xs, HitListFacts.rep l xs /\ HitListFacts.cur_ok l xs /\ (length xs <= n)%nat
  end.

(** The lists of the items are well formed, with at most [n] nodes. *)
Record lists_ok (n : nat) (i : search_items) : Prop := ListsOk {
  l_key : slist_ok n (key i);
  l_file : slist_ok n (filename i);
  l_avc : match avc i with None => True | Some a => wf a end;
}.

Lemma slist_more n m x : (n <= m)%nat -> slist_ok n x -> slist_ok m x.
Proof. intros Hn. destruct x as [l|]; [|done]. intros (xs & ? & ? & ?). exists xs. split_and!; [done..|lia]. Qed.

Lemma lists_more n m i : (n <= m)%nat -> lists_ok n i -> lists_ok m i.
Proof. intros Hn []. constructor; eauto using slist_more. Qed.

Lemma slist_created n : slist_ok n (Some HitList.slist_create).
Proof. exists []. split_and!; [apply HitListFacts.rep_create|done|cbn; lia]. Qed.

Lemma text_length t : length (Ellist.to_chars t) = String.length t.
Proof. induction t as [|c t IH]; cbn; [done|]. by rewrite <-IH. Qed.

Create HintDb search.

Section safe.
Context `{Env} (smalloc_fresh : forall h, h !! smalloc h = None).
Context (logged : string -> option string) (o : options) (report_format : Z).
Context (m0 : chars) (m0_ends : ends m0).
(** A strict parser does not leave the text cut even if it gives up. *)
Context (strict : bool) (lax : strict = false).

Record inv (n : nat) (st : pstate) : Prop := Inv {
  i_msg : msg st = m0;
  i_world : world_ok logged (wd st);
  i_lists : lists_ok n (it st);
}.

(** The parser gave up, perhaps with the text cut. *)
Record given_up (n : nat) (rc : Z) (st : pstate) : Prop := GivenUp {
  u_length : length (msg st) = length m0;
  u_ends : ends (msg st);
  u_world : world_ok logged (wd st);
  u_lists : lists_ok n (it st);
  u_same : strict = true \/ rc = 0 -> msg st = m0;
}.

Definition safe {A} (n n' : nat) (m : M A) (Q : A -> Prop) : Prop := forall st, inv n st ->
  exists out st', m st = Some (out, st') /\
    match out with Ok a => inv n' st' /\ Q a | Ret rc => given_up n' rc st' end.

Lemma inv_up n rc st : inv n st -> given_up n rc st.
Proof. intros []. constructor; try done; [by rewrite i_msg0|by rewrite i_msg0]. Qed.

Lemma inv_more n n' st : (n <= n')%nat -> inv n st -> inv n' st.
Proof. intros Hn []. constructor; eauto using lists_more. Qed.
Lemma up_more n n' rc st : (n <= n')%nat -> given_up n rc st -> given_up n' rc st.
Proof. intros Hn []. constructor; eauto using lists_more. Qed.

Lemma safe_ret {A} n n' (a : A) (Q : A -> Prop) : (n <= n')%nat -> Q a -> safe n n' (mret a) Q.
Proof. intros Hn Hq st Hi. eexists _, st. split; [done|]. split; [by eapply inv_more|done]. Qed.

Lemma safe_give {A} n n' rc (Q : A -> Prop) : (n <= n')%nat -> safe n n' (ret rc) Q.
Proof. intros Hn st Hi. eexists _, st. split; [done|]. by eapply up_more, inv_up. Qed.

Lemma safe_weaken {A} n n' n2 (m : M A) (Q R : A -> Prop) :
  safe n n' m Q -> (n' <= n2)%nat -> (forall a, Q a -> R a) -> safe n n2 m R.
Proof.
  intros Hm Hn HQ st Hi. destruct (Hm st Hi) as (out & st' & E & Ho). exists out, st'. split; [done|].
  destruct out as [a|rc]; [|by eapply up_more]. destruct Ho. split; [by eapply inv_more|by apply HQ].
Qed.

Lemma safe_bind {A B} n n1 n' (m : M A) (k : A -> M B) Q R :
  safe n n1 m Q -> (n1 <= n')%nat -> (forall a, Q a -> safe n1 n' (k a) R) -> safe n n' (a ← m; k a) R.
Proof.
  intros Hm Hn Hk st Hi. destruct (Hm st Hi) as (out & st' & E & Ho). unfold mbind, M_bind. rewrite E.
  destruct out as [a|rc]; [|exists (Ret rc), st'; split; [done|by eapply up_more]].
  destruct Ho as [Hi' Hq]. by apply (Hk a Hq).
Qed.

(** ** Reading *)

Definition inside (p : nat) : Prop := (p < length m0)%nat.

Lemma ends_pos : (0 < length m0)%nat.
Proof. unfold ends in m0_ends. destruct m0; [done|cbn; lia]. Qed.

Lemma cstring_short p : (p < length m0)%nat -> (p + length (StrSplit.c_string m0 p) < length m0)%nat.
Proof.
  intros Hp. unfold ends in m0_ends. apply last_Some in m0_ends as [x ->]. rewrite length_app in *. cbn in *.
  unfold StrSplit.c_string. rewrite drop_app_le by lia.
  assert (forall s : chars, (length (StrSplit.until_nul (s ++ [NUL])) <= length s)%nat) as Hl.
  { intros t. induction t as [|c t IH]; [by vm_compute; lia|]. cbn. destruct (c =c NUL); cbn; lia. }
  specialize (Hl (drop p x)). rewrite length_drop in Hl. lia.
Qed.

Lemma cstring_char p k c : StrSplit.c_string m0 p !! k = Some c -> m0 !! (p + k)%nat = Some c.
Proof.
  unfold StrSplit.c_string. rewrite <-lookup_drop. generalize (drop p m0) as s. revert k. clear.
  intros k s. revert k. induction s as [|d s IH]; intros k; cbn; [done|]. destruct (d =c NUL); [done|].
  destruct k; cbn; [done|]. apply IH.
Qed.

Lemma safe_text n p : (p < length m0)%nat -> safe n n (text p) (fun t => t = StrSplit.c_string m0 p).
Proof.
  intros Hp st Hi. unfold text. rewrite (i_msg _ _ Hi), decide_True by done. by eexists _, st.
Qed.

Lemma find_sub_bound a s q : find_sub a s = Some q -> (q + length a <= length s)%nat /\ begins a (drop q s) = true.
Proof.
  assert (forall s, begins a s = true -> (length a <= length s)%nat) as Hb.
  { clear. induction a as [|c a IH]; intros [|d s]; cbn; intros E; try lia; try done. apply andb_prop in E as [_ Hs].
    apply IH in Hs. lia. }
  revert q. induction s as [|c s IH]; intros q; cbn [find_sub]; destruct (begins a _) eqn:E; try done.
  - intros [= <-]. split; [by apply Hb in E|done].
  - intros [= <-]. split; [by apply Hb in E; cbn in *; lia|done].
  - intros (q' & E' & ->)%fmap_Some. apply IH in E' as [? ?]. cbn. split; [lia|done].
Qed.

(** Where a name is found, there is all of it, and a character behind. *)
Definition name_at (p : nat) (name : string) (x : option nat) : Prop :=
  match x with
  | None => True
  | Some q => (p <= q)%nat /\ (q + String.length name < length m0)%nat /\
      begins (Ellist.to_chars name) (drop q m0) = true
  end.

Lemma begins_cstring a s : begins a (StrSplit.until_nul s) = true -> begins a s = true.
Proof.
  revert s. induction a as [|c a IH]; intros [|d s]; cbn; try done. destruct (d =c NUL); [done|].
  cbn. intros [-> Hs]%andb_prop. cbn. by apply IH.
Qed.

Lemma until_nul_dropped q s : (q <= length (StrSplit.until_nul s))%nat ->
  drop q (StrSplit.until_nul s) = StrSplit.until_nul (drop q s).
Proof.
  revert s. induction q as [|q IH]; intros s; [done|]. destruct s as [|d s]; cbn; [done|].
  destruct (d =c NUL); cbn; [lia|]. intros. apply IH. lia.
Qed.

Lemma safe_strstr n p name : (p < length m0)%nat -> safe n n (strstr p name) (name_at p name).
Proof.
  intros Hp. unfold strstr. eapply safe_bind; [by apply safe_text|done|]. intros t ->. apply safe_ret; [done|].
  destruct (find_sub _ _) as [q|] eqn:E; [|done]. cbn. apply find_sub_bound in E as [Hq Hb].
  pose proof (cstring_short p Hp). rewrite text_length in Hq. split_and!; [lia|lia|].
  unfold StrSplit.c_string in Hb. rewrite until_nul_dropped in Hb by (unfold StrSplit.c_string in *; lia).
  apply begins_cstring in Hb. by rewrite drop_drop in Hb.
Qed.

(** A character at or behind [p]. *)
Definition char_from (p : nat) (c : ascii) (q : nat) : Prop := (p <= q < length m0)%nat /\ m0 !! q = Some c.

Lemma safe_strchr n p c : (p < length m0)%nat ->
  safe n n (strchr p c) (fun x => match x with None => True | Some q => char_from p c q end).
Proof.
  intros Hp. unfold strchr. eapply safe_bind; [by apply safe_text|done|]. intros t ->. apply safe_ret; [done|].
  destruct (list_find _ _) as [[k d]|] eqn:E; [|done]. apply list_find_Some in E as (Hk & -> & _).
  apply cstring_char in Hk. pose proof (lookup_lt_Some _ _ _ Hk).
  split; cbn; [lia|done].
Qed.

Lemma safe_peek n p : (p < length m0)%nat -> safe n n (peek p) (fun c => m0 !! p = Some c).
Proof.
  intros Hp st Hi. unfold peek. rewrite (i_msg _ _ Hi). destruct (m0 !! p) as [c|] eqn:E.
  - cbn. by eexists _, st.
  - apply lookup_ge_None in E. lia.
Qed.

Lemma found_inside p c : m0 !! p = Some c -> (p < length m0)%nat.
Proof. apply lookup_lt_Some. Qed.

Lemma next_inside p c : m0 !! p = Some c -> c <> NUL -> (S p < length m0)%nat.
Proof.
  intros Hp Hc. pose proof (found_inside _ _ Hp) as Hl. destruct (decide (S p = length m0)) as [E|]; [|lia].
  unfold ends in m0_ends. rewrite last_lookup, <-E in m0_ends. cbn in m0_ends. congruence.
Qed.

Lemma safe_end_at n p c rc : (p < length m0)%nat ->
  safe n n (end_at c p rc) (char_from p c).
Proof.
  intros Hp. unfold end_at. eapply safe_bind; [by apply safe_strchr|done|].
  intros [q|] Hq; [by apply safe_ret|by apply safe_give].
Qed.

(** ** Cutting the text *)

Lemma cut_ends p : ends (<[p := NUL]> m0).
Proof.
  pose proof ends_pos. unfold ends in *. rewrite last_lookup in *. rewrite length_insert.
  destruct (decide (p = pred (length m0))) as [->|Hn].
  - apply list_lookup_insert_eq. lia.
  - by rewrite list_lookup_insert_ne.
Qed.

Lemma uncut p c : m0 !! p = Some c -> <[p := c]> (<[p := NUL]> m0) = m0.
Proof. intros Hp. rewrite list_insert_insert_eq. by apply list_insert_id. Qed.

Lemma poke_eq p c m x y i a w : (p < length m)%nat ->
  poke p c (PState m x y i a w) = Some (Ok tt, PState (<[p := c]> m) x y i a w).
Proof. intros Hp. unfold poke. by rewrite decide_True. Qed.
Lemma text_eq p m x y i a w : (p < length m)%nat ->
  text p (PState m x y i a w) = Some (Ok (StrSplit.c_string m p), PState m x y i a w).
Proof. intros Hp. unfold text. by rewrite decide_True. Qed.

(** The text is cut at [term] and used; then the character is put back, or the parser
    gives up. *)
Lemma safe_convert {A} n (f : string -> A * bool) ptr term c rc :
  rc <> 0 -> (ptr < length m0)%nat -> m0 !! term = Some c -> safe n n (convert f ptr term c rc) (fun _ => True).
Proof.
  intros Hrc Hp Ht [m x y i a w] [Hm Hw Hls]. cbn in Hm, Hw, Hls. subst m. pose proof (found_inside _ _ Ht) as Hl.
  unfold convert, mbind, M_bind. rewrite poke_eq, text_eq by (by rewrite ?length_insert).
  destruct (f _) as [v errno]. destruct errno.
  - eexists _, _. split; [reflexivity|]. constructor; cbn; [apply length_insert|apply cut_ends|done..|].
    rewrite lax. by intros [].
  - rewrite poke_eq by (by rewrite length_insert). eexists _, _. split; [reflexivity|].
    split; [|done]. constructor; cbn; [by apply uncut|done..].
Qed.

Lemma safe_dup n ptr term c : (ptr < length m0)%nat -> m0 !! term = Some c ->
  safe n n (dup ptr term c) (fun _ => True).
Proof.
  intros Hp Ht [m x y i a w] [Hm Hw Hls]. cbn in Hm, Hw, Hls. subst m. pose proof (found_inside _ _ Ht) as Hl.
  unfold dup, mbind, M_bind. rewrite poke_eq, text_eq, poke_eq by (by rewrite ?length_insert).
  eexists _, _. split; [reflexivity|]. cbn. split; [|done]. constructor; cbn; [by apply uncut|done..].
Qed.

Lemma safe_convert_to {A} n (f : string -> A * bool) ptr term rc : rc <> 0 -> (ptr < length m0)%nat ->
  (forall q, term = Some q -> m0 !! q = Some " "%char) -> safe n n (convert_to f ptr term rc) (fun _ => True).
Proof.
  intros Hrc Hp Ht. destruct term as [q|]; cbn; [by apply safe_convert; auto|].
  eapply safe_bind; [by apply safe_text|done|]. intros t _. destruct (f _) as [v [|]]; [by apply safe_give|by apply safe_ret].
Qed.

Lemma safe_dup_to n ptr term : (ptr < length m0)%nat ->
  (forall q, term = Some q -> m0 !! q = Some " "%char) -> safe n n (dup_to ptr term) (fun _ => True).
Proof.
  intros Hp Ht. destruct term as [q|]; cbn; [by apply safe_dup; auto|].
  eapply safe_bind; [by apply safe_text|done|]. intros t _. by apply safe_ret.
Qed.

(** ** The items *)

Definition keeps (f : search_items -> search_items) : Prop :=
  forall i, key (f i) = key i /\ filename (f i) = filename i /\ avc (f i) = avc i.

Lemma keeps_lists n f i : keeps f -> lists_ok n i -> lists_ok n (f i).
Proof. intros Hf []. destruct (Hf i) as (E1 & E2 & E3). by constructor; rewrite ?E1, ?E2, ?E3. Qed.

Lemma safe_upd_lists n f : (forall i, lists_ok n i -> lists_ok n (f i)) -> safe n n (upd f) (fun _ => True).
Proof.
  intros Hf [m x y i a w] [Hm Hw Hls]. eexists _, _. split; [reflexivity|]. cbn in *.
  split; [|done]. by constructor; cbn; [..|apply Hf].
Qed.

Lemma safe_upd n f : keeps f -> safe n n (upd f) (fun _ => True).
Proof. intros Hf. apply safe_upd_lists. intros i. by apply keeps_lists. Qed.

Lemma safe_get {A} n (f : pstate -> A) : safe n n (get f) (fun _ => True).
Proof. intros st Hi. by eexists _, st. Qed.

Lemma safe_items {A} n (f : search_items -> A) : safe n n (items f) (fun _ => True).
Proof. apply safe_get. Qed.

Lemma safe_lookup_uid n f u : safe n n (lookup_uid f u) (fun _ => True).
Proof.
  intros st [Hm Hw Hls]. destruct (lookup_uid_spec logged f u st Hw) as (w & -> & Hw' & _).
  eexists _, _. split; [reflexivity|]. split; [|done]. destruct st. by constructor.
Qed.

Lemma safe_add_avc n a : safe n n (add_avc a) (fun _ => True).
Proof.
  intros [m x y i v w] [Hm Hw [Hk Hf Ha]]. unfold add_avc. cbn in *.
  destruct (Avc.alist_append_spec a (default Avc.alist_create (avc i))) as (l & -> & _ & Hl).
  { destruct (avc i); [done|apply wf_create]. }
  eexists _, _. split; [reflexivity|]. split; [|done]. constructor; [done..|]. by destruct i.
Qed.

(** A string more in a list. *)
Lemma slist_append_ok n t x : slist_ok n x -> Z.of_nat n + 1 < two32 ->
  exists l, HitList.slist_append smalloc t (default HitList.slist_create x) = Some l /\ slist_ok (S n) (Some l) /\
    is_Some (HitList.cur l).
Proof.
  intros Hx Hn. assert (slist_ok n (Some (default HitList.slist_create x))) as (xs & Hr & Hc & Hl).
  { destruct x; [done|apply slist_created]. }
  destruct (HitListFacts.slist_append_spec smalloc smalloc_fresh t _ xs Hr Hc) as (l & a & E & Hr' & Hcur); [lia|].
  exists l. split_and!; [done| |by rewrite Hcur]. exists (xs ++ [(a, t)]). split_and!; [done| |].
  - intros c Hcc. rewrite Hcur in Hcc. injection Hcc as <-. rewrite fmap_app. apply elem_of_app. right. by left.
  - rewrite length_app. cbn. lia.
Qed.

Lemma safe_add_key n t : Z.of_nat n + 1 < two32 -> safe n (S n) (add_key t) (fun _ => True).
Proof.
  intros Hn [m x y i v w] [Hm Hw [Hk Hf Ha]]. unfold add_key. cbn [it wd] in *.
  destruct (slist_append_ok n (HitList.SNode (Some t) None 1) _ Hk Hn) as (l & -> & Hl & _).
  eexists _, _. split; [reflexivity|]. split; [|done]. constructor; [done..|].
  destruct i. constructor; [done|by eapply slist_more; [|exact Hf]; lia|done].
Qed.

Lemma safe_add_file n t : Z.of_nat n + 1 < two32 -> safe n (S n) (add_file t) (fun _ => True).
Proof.
  intros Hn [m x y i v w] [Hm Hw [Hk Hf Ha]]. unfold add_file. cbn [it wd] in *.
  destruct (slist_append_ok n (HitList.SNode (Some t) None 1) _ Hf Hn) as (l & -> & Hl & _).
  eexists _, _. split; [reflexivity|]. split; [|done]. constructor; [done..|].
  destruct i. constructor; [by eapply slist_more; [|exact Hk]; lia|done|done].
Qed.

Lemma safe_add_keys ts : forall n, Z.of_nat (n + length ts) < two32 ->
  safe n (n + length ts) (add_keys ts) (fun _ => True).
Proof.
  induction ts as [|t ts IH]; intros n Hn; cbn in *; [apply safe_ret; [lia|done]|].
  eapply safe_bind; [apply safe_add_key; lia|lia|]. intros _ _. rewrite <-Nat.add_succ_comm. apply IH. lia.
Qed.

(** ** Decoding and scanning *)

Lemma x2c_total len fuel : forall i ptr str, length str = S len -> (len - i < fuel)%nat ->
  exists p str', Escape.x2c_loop fuel i ptr len str = Some (p, str') /\ length str' = S len.
Proof.
  induction fuel as [|fuel IH]; intros i ptr str Hs Hf; [lia|]. cbn. case_decide as Hi; [|by eexists _, _].
  destruct (lookup_lt_is_Some_2 str i) as [c0 ->]; [lia|]. destruct (lookup_lt_is_Some_2 str (S i)) as [c1 ->]; [lia|].
  cbn. apply IH; [by rewrite length_insert|lia].
Qed.

Lemma find_fits (P : ascii -> Prop) `{!forall c, Decision (P c)} t x : list_find P t = Some x -> (S x.1 <= length t)%nat.
Proof. destruct x as [k d]. intros [Hk _]%list_find_Some. apply lookup_lt_Some in Hk. cbn. lia. Qed.

(** A case for the parenthesis and one for all other characters. *)
Lemma paren_case {A} (P : A -> Prop) (c : ascii) (x y : A) :
  P x -> P y -> P (match c with "("%char => x | _ => y end).
Proof. intros Hx Hy. destruct c as [[] [] [] [] [] [] [] []]; assumption. Qed.

Lemma name_end_fits t q : Escape.name_end t = Some q -> (q <= length t)%nat.
Proof.
  assert (forall k, match list_find (fun c => Escape.isxdigit c = false) t with
            | Some (i, _) => i | None => length t end = k -> (k <= length t)%nat) as Hd.
  { intros k <-. destruct (list_find _ _) as [[j d]|] eqn:E; [apply find_fits in E; cbn in E; lia|lia]. }
  assert (forall k, (fun x : nat * ascii => S x.1) <$> list_find (fun c => c = ")"%char) t = Some k ->
            (k <= length t)%nat) as Hp.
  { intros k ([j d] & E & ->)%fmap_Some. by apply find_fits in E. }
  unfold Escape.name_end. destruct t as [|c t]; [intros [= <-]; cbn; lia|].
  apply (paren_case (fun x => x = Some q -> (q <= length (c :: t))%nat)); [apply Hp|].
  intros E. injection E. apply Hd.
Qed.

Lemma unescape_total t : exists r, unescape t = Some r /\
  match r with None => True | Some blk => (length blk <= S (length t))%nat end.
Proof.
  unfold unescape. destruct (Escape.name_end t) as [q|] eqn:E; [|by exists None]. apply name_end_fits in E.
  assert (length (take q t ++ [NUL]) = S q) as Hl by (rewrite length_app, length_take; cbn; lia).
  set (str := take q t ++ [NUL]) in *.
  assert (exists r, (if decide (q < 2)%nat then Some None
      else '(p, str) ← Escape.x2c_loop (S q) 0 0 q str; Some (Some (<[p:=NUL]> str))) = Some r /\
    match r with None => True | Some blk => (length blk <= S (length t))%nat end) as Hx.
  { case_decide; [by exists None|]. destruct (x2c_total q (S q) 0 0 str Hl ltac:(lia)) as (p & s' & -> & Hs).
    eexists. split; [reflexivity|]. cbn. rewrite length_insert. lia. }
  destruct t as [|c t']; [done|].
  apply (paren_case (fun x => exists r, x = Some r /\
    match r with None => True | Some blk => (length blk <= S (length (c :: t')))%nat end)); [|exact Hx].
  exists (Some str). split; [done|lia].
Qed.

Lemma safe_unescape_at n p : (p < length m0)%nat ->
  safe n n (unescape_at p) (fun r => match r with None => True | Some blk => (length blk <= length m0)%nat end).
Proof.
  intros Hp. unfold unescape_at. eapply safe_bind; [by apply safe_text|done|]. intros t ->.
  destruct (unescape_total (StrSplit.c_string m0 p)) as (r & -> & Hr). pose proof (cstring_short p Hp).
  intros st Hi. eexists _, st. split; [reflexivity|]. split; [done|]. destruct r; [lia|done].
Qed.

Lemma safe_unescaped n p : (p < length m0)%nat -> safe n n (unescaped p) (fun _ => True).
Proof. intros Hp. eapply safe_bind; [by apply safe_unescape_at|done|]. intros r _. by apply safe_ret. Qed.

Lemma safe_scan n f fuel : f NUL = false -> forall p, (p < length m0)%nat -> (length m0 - p < fuel)%nat ->
  safe n n (scan fuel f p) (fun q => (p <= q < length m0)%nat).
Proof.
  intros Hf. induction fuel as [|fuel IH]; intros p Hp Hl; [lia|]. cbn.
  eapply safe_bind; [by apply safe_peek|done|]. intros c Hc. destruct (f c) eqn:E; [|by apply safe_ret].
  eapply safe_weaken; [apply IH|done|cbn; lia]; [|lia]. apply (next_inside _ _ Hc). intros ->. congruence.
Qed.

Lemma safe_scan_while n f p : f NUL = false -> (p < length m0)%nat ->
  safe n n (scan_while f p) (fun q => (p <= q < length m0)%nat).
Proof.
  intros Hf Hp st Hi. unfold scan_while, mbind, M_bind, get. rewrite (i_msg _ _ Hi). apply safe_scan; [done..|lia|done].
Qed.

Lemma safe_when n n' (b : bool) p m (Q : nat -> Prop) :
  (b = true -> safe n n' (m p) Q) -> (n <= n')%nat -> Q p -> safe n n' (when b p m) Q.
Proof. intros Hm Hn Hq. unfold when. destruct b; [by apply Hm|by apply safe_ret]. Qed.

(** ** Fields *)

Lemma safe_modify n (f : pstate -> pstate) :
  (forall st, msg (f st) = msg st /\ it (f st) = it st /\ wd (f st) = wd st) -> safe n n (modify f) (fun _ => True).
Proof.
  intros Hf st [Hm Hw Hl]. destruct (Hf st) as (E1 & E2 & E3). eexists _, (f st). split; [reflexivity|].
  split; [|done]. constructor; congruence.
Qed.

Lemma find_bound p name q : name_at p name (Some q) -> (p <= q)%nat /\ (q + String.length name < length m0)%nat.
Proof. by intros (? & ? & _). Qed.

Lemma char_bound p c q : char_from p c q -> (p <= q < length m0)%nat.
Proof. by intros []. Qed.

Lemma char_is p c q : char_from p c q -> m0 !! q = Some c.
Proof. by intros []. Qed.

Lemma first_inside : inside 0.
Proof. exact ends_pos. Qed.

Lemma quote_next p c : m0 !! p = Some c -> (c =c DQUOTE) = true -> (S p < length m0)%nat.
Proof. intros Hp ->%char_eq_true. by apply (next_inside _ _ Hp). Qed.

Ltac facts :=
  repeat match goal with
  | Hx : name_at _ _ (Some _) |- _ => apply find_bound in Hx; cbn [String.length] in Hx
  | Hx : inside _ |- _ => unfold inside in Hx
  | Hx : char_from _ _ _ |- (_ < _)%nat => apply char_bound in Hx
  | Hx : char_from _ _ _ |- (_ <= _)%nat => apply char_bound in Hx
  end.
Ltac side :=
  first
  [ done
  | exact first_inside
  | lia
  | match goal with
    | |- keeps _ => by intros []
    | |- forall v st, _ => by intros ? []
    | |- forall v, keeps _ => by intros ? []
    | Hx : char_from _ _ ?q |- m0 !! ?q = Some _ => exact (char_is _ _ _ Hx)
    | Hx : m0 !! ?q = Some ?c, Hq : (?c =c DQUOTE) = true |- (S ?q < _)%nat => exact (quote_next _ _ Hx Hq)
    end
  | unfold inside; facts; cbn [String.length] in *; lia
  | apply safe_ret; side
  | apply safe_give; side ].

(** One step of a parser after the other. *)
Ltac leaf := solve [eauto 3 with search nocore].
Ltac run :=
  lazymatch goal with
  | |- safe ?n ?n' (mbind _ (when _ _ _)) _ =>
      apply (safe_bind n n n' _ _ inside); [run|side|intros ? ?; cbv beta in *; run]
  | |- safe _ _ (mbind _ _) _ =>
      tryif eapply safe_bind; [leaf|side|] then (intros ? ?; cbv beta in *; run) else idtac
  | |- safe _ _ (when _ _ _) _ => apply safe_when; [intros _; run|side|side]
  | |- safe _ _ (mret _) _ => apply safe_ret; side
  | |- safe _ _ (ret _) _ => apply safe_give; side
  | |- safe _ _ (match ?x with _ => _ end) _ => destruct x eqn:?; run
  | |- safe _ _ _ _ => first [leaf | eapply safe_weaken; [leaf|side|intros; side] | idtac]
  end.

#[local] Hint Resolve safe_strstr safe_strchr safe_peek safe_end_at safe_convert safe_dup safe_convert_to safe_dup_to
  safe_upd safe_items safe_get safe_lookup_uid safe_add_avc safe_unescape_at safe_unescaped safe_scan_while safe_text
  : search.
#[local] Hint Extern 6 => side : search.

Lemma safe_num_at n ptr no_end bad set :
  bad <> 0 -> (forall v, keeps (set v)) -> (ptr < length m0)%nat -> safe n n (num_at ptr no_end bad set) inside.
Proof. intros Hb Hs Hp. unfold num_at. run. Qed.
#[local] Hint Resolve safe_num_at : search.

Lemma safe_num_field n term name skip no_end bad set missing :
  bad <> 0 -> (forall v, keeps (set v)) -> (skip <= String.length name)%nat -> inside term -> safe n n missing inside ->
  safe n n (num_field term name skip no_end bad set missing) inside.
Proof. intros Hb Hs Hk Hp Hm. unfold num_field. run. Qed.
#[local] Hint Resolve safe_num_field : search.

(** Where the search goes on. *)
Definition maybe_inside (x : option nat) : Prop := match x with None => True | Some q => inside q end.

Lemma safe_last_num n ptr bad set :
  bad <> 0 -> (forall v, keeps (set v)) -> (ptr < length m0)%nat -> safe n n (last_num ptr bad set) maybe_inside.
Proof.
  intros Hb Hs Hp. unfold last_num. eapply safe_bind; [leaf|side|]. intros q Hq.
  eapply safe_bind; [apply safe_convert_to; [done..|intros ? ->; apply (char_is _ _ _ Hq)]|done|]. intros v _.
  eapply safe_bind; [leaf|side|]. intros _ _. apply safe_ret; [done|]. destruct q; [cbn; side|done].
Qed.
#[local] Hint Resolve safe_last_num : search.

Lemma safe_int_field n f term name skip no_end bad set missing :
  bad <> 0 -> (forall v, keeps (set v)) -> (skip <= String.length name)%nat -> inside term -> safe n n missing inside ->
  safe n n (int_field f term name skip missing no_end bad set) inside.
Proof. intros Hb Hs Hk Hp Hm. unfold int_field. run. Qed.

Lemma safe_context_at n str no_end mk : (str < length m0)%nat -> safe n n (context_at str no_end mk) inside.
Proof. intros Hp. unfold context_at. run. Qed.
#[local] Hint Resolve safe_int_field safe_context_at : search.

Lemma safe_context_field n term name skip no_end mk : (skip <= String.length name)%nat -> inside term ->
  safe n n (context_field term name skip no_end mk) inside.
Proof. intros Hk Hp. unfold context_field. run. Qed.

Lemma safe_last_context n term name skip mk : (skip <= String.length name)%nat -> inside term ->
  safe n n (last_context term name skip mk)
    (fun x => match x with None => True | Some (str, t) => inside str /\ maybe_inside t end).
Proof.
  intros Hk Hp. unfold last_context. eapply safe_bind; [leaf|side|]. intros [str|] Hq; [|run].
  eapply safe_bind; [leaf|side|]. intros q Hs.
  eapply safe_bind; [apply safe_dup_to; [side|intros ? ->; apply (char_is _ _ _ Hs)]|done|]. intros t _.
  eapply safe_bind; [leaf|side|]. intros _ _. apply safe_ret; [done|]. split; [side|]. destruct q; [cbn; side|done].
Qed.

Lemma safe_text_value n term str no_end set : (forall v, keeps (set v)) -> inside term -> (str < length m0)%nat ->
  safe n n (text_value term str no_end set) inside.
Proof. intros Hs Ht Hp. unfold text_value. run. Qed.
#[local] Hint Resolve safe_context_field safe_last_context safe_text_value : search.

Lemma safe_text_field n from term name skip no_end set missing :
  (forall v, keeps (set v)) -> (skip <= String.length name)%nat -> inside from -> inside term -> safe n n missing inside ->
  safe n n (text_field from term name skip no_end set missing) inside.
Proof. intros Hs Hk Hf Ht Hm. unfold text_field. run. Qed.

Lemma safe_name_uid n : safe n n name_uid (fun _ => True).
Proof. unfold name_uid. run. Qed.
Lemma safe_name_euid n : safe n n name_euid (fun _ => True).
Proof. unfold name_euid. run. Qed.
Lemma safe_name_auid n : safe n n name_auid (fun _ => True).
Proof. unfold name_auid. run. Qed.
#[local] Hint Resolve safe_text_field safe_name_uid safe_name_euid safe_name_auid : search.

Lemma safe_find_auid n term : inside term -> safe n n (find_auid term) maybe_inside.
Proof.
  intros Hp. unfold find_auid. eapply safe_bind; [leaf|side|]. intros [q|] Hq; [apply safe_ret; [done|cbn; side]|].
  eapply safe_bind; [leaf|side|]. intros [r|] Hr; (apply safe_ret; [done|cbn; side]).
Qed.
#[local] Hint Resolve safe_find_auid : search.

Lemma safe_task_auid n term none no_end bad : bad <> 0 -> inside term -> safe n n (task_auid term none no_end bad) inside.
Proof.
  intros Hb Hp. unfold task_auid. eapply safe_bind; [leaf|side|]. intros [q|] Hq; [|run].
  cbn in Hq. run.
Qed.

Lemma safe_id_field n from name skip no_end bad set naming missing :
  bad <> 0 -> (forall v, keeps (set v)) -> (skip <= String.length name)%nat -> inside from ->
  safe n n naming (fun _ => True) -> safe n n missing inside ->
  safe n n (id_field from name skip no_end bad set naming missing) inside.
Proof. intros Hb Hs Hk Hp Hn Hm. unfold id_field. run. Qed.

Lemma safe_tty_field n term no_end missing : inside term -> safe n n missing inside ->
  safe n n (tty_field term no_end missing) inside.
Proof. intros Hp Hm. unfold tty_field. run. Qed.

Lemma safe_must n rc : safe n n (must rc) inside.
Proof. unfold must. run. Qed.
#[local] Hint Resolve safe_task_auid safe_id_field safe_tty_field safe_must : search.

(** *** Tasks and system calls *)

Context (m0_start : begins (Ellist.to_chars "uid=") m0 = false).

Lemma safe_try_again n fuel : forall term, inside term -> (length m0 - term < fuel)%nat ->
  safe n n (try_again fuel term) (fun x => maybe_inside (Nat.add 4 <$> x.1) /\ inside x.2).
Proof.
  induction fuel as [|fuel IH]; intros term Hp Hf; [lia|]. cbn [try_again].
  eapply safe_bind; [leaf|side|]. intros [[|q]|] Hq; [|destruct Hq as (? & Hq & _)|by apply safe_ret].
  - destruct Hq as (_ & _ & Hq). rewrite drop_0 in Hq. congruence.
  - cbn [String.length] in Hq. cbn [before]. eapply safe_bind; [apply safe_peek; lia|done|]. intros c _.
    destruct (c =c "a"%char); [|apply safe_ret; [done|split; [cbn; unfold inside; lia|done]]].
    unfold inside in *. apply IH; unfold inside; lia.
Qed.

Lemma safe_find_uid n term : inside term ->
  safe n n (find_uid term) (fun x => maybe_inside (Nat.add 4 <$> x.1) /\ inside x.2).
Proof.
  intros Hp st Hi. unfold find_uid, mbind, M_bind, get. rewrite (i_msg _ _ Hi). apply safe_try_again; [done|lia|done].
Qed.
#[local] Hint Resolve safe_find_uid : search.

Lemma safe_task_uid n term : inside term -> safe n n (task_uid term) inside.
Proof.
  intros Hp. unfold task_uid. eapply safe_bind; [leaf|side|]. intros [[q|] r] [Hq _]; [|run]. cbn in Hq.
  unfold inside in Hq. run.
Qed.
#[local] Hint Resolve safe_task_uid : search.

Lemma safe_task_ids n term : inside term -> safe n n (task_ids o term) inside.
Proof. intros Hp. unfold task_ids. run. Qed.

Lemma safe_res_number n term bad missing : bad <> 0 -> inside term -> safe n n missing (fun _ => True) ->
  safe n n (res_number term bad missing) (fun _ => True).
Proof. intros Hb Hp Hm. unfold res_number. run. Qed.
#[local] Hint Resolve safe_task_ids safe_res_number : search.

Lemma safe_task_info n : safe n n (parse_task_info o) (fun _ => True).
Proof. unfold parse_task_info, task_comm, task_exe. run. Qed.

Lemma safe_yes_no n term : inside term -> safe n n (yes_no term) inside.
Proof. intros Hp. unfold yes_no. run. Qed.
Lemma safe_exit_field n term : inside term -> safe n n (exit_field term) inside.
Proof. intros Hp. unfold exit_field. run. Qed.
Lemma safe_arg_field n term name set : (3 <= String.length name)%nat -> inside term ->
  (forall v st, msg (set v st) = msg st /\ it (set v st) = it st /\ wd (set v st) = wd st) ->
  safe n n (arg_field term name set) inside.
Proof.
  intros Hk Hp Hs. unfold arg_field. pose proof (fun v => safe_modify n (set v) (Hs v)) as Hm. run.
Qed.
#[local] Hint Resolve safe_task_info safe_yes_no safe_exit_field safe_arg_field : search.

Lemma tokens_bound sep s : forall w, (length (tokens_from sep w s) <= length w + length s)%nat.
Proof.
  induction s as [|c s IH]; intros w; cbn [tokens_from].
  - destruct w; cbn; lia.
  - pose proof (IH []) as H0. pose proof (IH (w ++ [c])) as H1. rewrite length_app in H1. cbn in *.
    destruct (c =c sep); [|lia]. rewrite length_app. destruct w; cbn in *; lia.
Qed.

Lemma until_nul_short s : (length (StrSplit.until_nul s) <= length s)%nat.
Proof. induction s as [|c s IH]; cbn; [lia|]. destruct (c =c NUL); cbn; lia. Qed.

(** There is room for the words of a record. *)
Definition room (n : nat) : Prop := Z.of_nat (n + length m0) < two32.

Lemma slist_default n x : slist_ok n x -> slist_ok n (Some (default HitList.slist_create x)).
Proof. destruct x; [done|]. intros _. apply slist_created. Qed.

Lemma created_key n i : lists_ok n i -> lists_ok n (create_key i).
Proof. intros [Hk Hf Ha]. constructor; [|by destruct i..]. by apply slist_default in Hk. Qed.

Lemma created_filename n i : lists_ok n i -> lists_ok n (create_filename i).
Proof. intros [Hk Hf Ha]. constructor; [by destruct i| |by destruct i]. by apply slist_default in Hf. Qed.

Lemma safe_key_field n term no_end bad : room n -> inside term ->
  safe n (n + length m0) (key_field term no_end bad) inside.
Proof.
  intros Hr Hp. unfold room in Hr. pose proof first_inside as Hz. unfold inside in Hz. unfold key_field.
  eapply safe_bind; [leaf|lia|]. intros [str|] Hs; [|apply safe_ret; [lia|done]].
  eapply safe_bind; [apply safe_upd_lists, created_key|lia|]. intros _ _. eapply safe_bind; [leaf|lia|]. intros c Hc. cbv beta in Hc. destruct (c =c DQUOTE) eqn:Eq.
  - eapply safe_bind; [leaf|lia|]. intros q Hq. eapply safe_bind; [leaf|lia|]. intros t _.
    eapply safe_bind; [apply safe_add_key; lia|lia|]. intros _ _. apply safe_ret; [lia|side].
  - eapply safe_bind; [leaf|lia|]. intros [blk|] Hb; [|apply safe_give; lia]. cbv beta iota in Hb.
    pose proof (tokens_bound AUDIT_KEY_SEPARATOR (StrSplit.until_nul blk) []) as Ht.
    pose proof (until_nul_short blk). cbn [length] in Ht.
    eapply safe_bind; [apply safe_add_keys; unfold tokens; lia|unfold tokens; lia|]. intros _ _.
    apply safe_ret; [unfold tokens; lia|done].
Qed.

(** A call whose error is returned. *)
Lemma safe_call {B} n n1 n' m (k : M B) (e : Z -> Z) Q :
  safe n n1 m (fun _ => True) -> (n1 <= n')%nat -> (forall rc, rc <> 0 -> e rc <> 0) -> safe n1 n' k Q ->
  safe n n' (rc ← call m; if negb (rc =? 0) then ret (e rc) else k) Q.
Proof.
  intros Hm Hn He Hk st Hi. destruct (Hm st Hi) as (out & st' & E & Ho). unfold mbind, M_bind, call. rewrite E.
  destruct out as [u|rc]; [by apply Hk; destruct Ho|]. destruct (Z.eqb_spec rc 0) as [->|Hne]; cbn.
  - apply Hk. destruct Ho. constructor; [auto|done..].
  - eexists _, _. split; [reflexivity|]. apply (up_more n1); [done|]. destruct Ho. constructor; [done..|].
    rewrite lax. intros [|E0]; [done|]. by apply He in E0.
Qed.

Lemma safe_syscall n : room n -> safe n (n + length m0) (parse_syscall o report_format) (fun _ => True).
Proof.
  intros Hr. unfold parse_syscall. run.
  apply (safe_call n n _ _ _ id); [leaf|lia|done|].
  apply (safe_bind n (n + length m0) _ _ _ inside); [|done|intros; run].
  apply safe_when; [intros _; by apply safe_key_field|lia|done].
Qed.

(** *** Names of files *)

Lemma safe_dir n : (NAME_OFFSET < length m0)%nat -> safe n n (parse_dir o) (fun _ => True).
Proof. intros Hn. unfold parse_dir. run. Qed.

(** The text is cut while it is decoded. *)
Lemma safe_cut_unescaped n path term c : (path < length m0)%nat -> m0 !! term = Some c ->
  safe n n (_ ← poke term NUL; v ← unescaped path; _ ← poke term c; mret v) (fun _ => True).
Proof.
  intros Hp Ht [m x y i a w] [Hm Hw Hls]. cbn in Hm, Hw, Hls. subst m. pose proof (found_inside _ _ Ht) as Hl.
  unfold unescaped, unescape_at, mbind, M_bind. rewrite poke_eq, text_eq by (by rewrite ?length_insert).
  destruct (unescape_total (StrSplit.c_string (<[term := NUL]> m0) path)) as (r & -> & _). cbn.
  rewrite poke_eq by (by rewrite length_insert). eexists _, _. split; [reflexivity|]. split; [|done].
  constructor; cbn; [by apply uncut|done..].
Qed.
#[local] Hint Resolve safe_cut_unescaped safe_add_file : search.

Lemma begins_length a s : begins a s = true -> (length a <= length s)%nat.
Proof.
  revert s. induction a as [|c a IH]; intros [|d s]; cbn; intros E; try lia; try done.
  apply andb_prop in E as [_ Hs]. apply IH in Hs. lia.
Qed.

Lemma safe_common_path n path : Z.of_nat n + 1 < two32 -> (path < length m0)%nat ->
  safe n (S n) (common_path_parser path) (fun _ => True).
Proof.
  intros Hr Hp. unfold common_path_parser.
  eapply safe_bind; [apply safe_upd_lists, created_filename|lia|]. intros _ _.
  eapply safe_bind; [leaf|lia|]. intros c Hc. cbv beta in Hc. eapply safe_bind; [leaf|lia|]. intros dir _.
  destruct (c =c DQUOTE) eqn:Eq; [run|].
  eapply safe_bind; [leaf|lia|]. intros t ->.
  destruct (begins (Ellist.to_chars "(null)") _) eqn:E0; [run|]. destruct (negb (Escape.isxdigit c)); [run|].
  eapply (safe_bind n n _ _ _ (fun _ => True)); [|lia|intros [v|] _; run].
  destruct (begins (Ellist.to_chars "00") _) eqn:E2.
  - apply begins_length in E2. cbn in E2. pose proof (cstring_short path Hp). run.
  - eapply safe_bind; [leaf|lia|]. intros term Ht. by apply safe_cut_unescaped, (char_is _ _ _ Ht).
Qed.
#[local] Hint Resolve safe_common_path : search.

Lemma safe_avc_parse_path n : Z.of_nat n + 1 < two32 -> safe n (S n) (avc_parse_path o) (fun _ => True).
Proof. intros Hr. unfold avc_parse_path. run. Qed.

Lemma safe_obj n : safe n n (parse_obj o) (fun _ => True).
Proof. unfold parse_obj. run. Qed.

(** *** Logins and the daemon *)

Lemma safe_first_of n names : forall term, inside term -> safe n n (first_of term names) maybe_inside.
Proof.
  induction names as [|name names IH]; intros term Hp; cbn [first_of]; [run|].
  eapply safe_bind; [leaf|side|]. intros [q|] Hq; [apply safe_ret; [done|cbn; side]|by apply IH].
Qed.
#[local] Hint Resolve safe_first_of : search.

Lemma safe_login_subject n term : inside term -> safe n n (login_subject term) inside.
Proof. intros Hp. unfold login_subject. run. Qed.

Lemma default_inside q x : inside q -> maybe_inside x -> inside (default q x).
Proof. destruct x; cbn; auto. Qed.
#[local] Hint Resolve safe_login_subject : search.

Lemma safe_login_auid n term : inside term -> safe n n (login_auid term) maybe_inside.
Proof.
  intros Hp. unfold login_auid. eapply safe_bind; [leaf|side|]. intros [q|] Hq; cbn in Hq; run.
Qed.

Lemma safe_login_success n term : maybe_inside term -> safe n n (login_success term) maybe_inside.
Proof.
  intros Hp. unfold login_success. pose proof (default_inside 0 term first_inside Hp) as Hd.
  set (d := default 0%nat term) in *. run.
Qed.

Lemma safe_login_session n term : maybe_inside term -> safe n n (login_session term) maybe_inside.
Proof.
  intros Hp. unfold login_session. pose proof (default_inside 0 term first_inside Hp) as Hd.
  eapply safe_bind; [leaf|side|]. intros [q|] Hq; cbn in Hq; run.
Qed.

Lemma safe_login n : safe n n (parse_login o) (fun _ => True).
Proof.
  unfold parse_login. run.
  apply (safe_bind n n n _ _ maybe_inside); [destruct (want_auid o); [by apply safe_login_auid|by apply safe_ret]|done|].
  intros x Hx. apply (safe_bind n n n _ _ maybe_inside); [destruct (want_success o); [by apply safe_login_success|by apply safe_ret]|done|].
  intros y Hy. apply (safe_bind n n n _ _ maybe_inside); [destruct (want_ses o); [by apply safe_login_session|by apply safe_ret]|done|].
  intros; run.
Qed.

Lemma safe_res_word n from none : inside from -> safe n n (res_word from none) (fun _ => True).
Proof. intros Hp. unfold res_word. run. Qed.
#[local] Hint Resolve safe_res_word : search.

Lemma safe_if_set {A} n n' (x : option A) m : (n <= n')%nat -> safe n n' m (fun _ => True) ->
  safe n n' (if_set x m) (fun _ => True).
Proof. intros Hn Hm. unfold if_set. destruct (is_set x); [done|by apply safe_ret]. Qed.

Lemma safe_end_at2 n c d p rc : (p < length m0)%nat -> c <> NUL -> d <> NUL ->
  safe n n (end_at2 c d p rc) (fun q => (p <= q)%nat /\ exists x, m0 !! q = Some x).
Proof.
  intros Hp Hc Hd. unfold end_at2. eapply safe_bind; [leaf|side|].
  intros [q|] Hq; [apply safe_ret; [done|]|eapply safe_weaken; [leaf|done|]].
  - destruct Hq as [? Hq]. split; [lia|by eexists].
  - intros q' [? Hq']. split; [lia|by eexists].
Qed.

Lemma safe_daemon1 n : safe n n (parse_daemon1 o) (fun _ => True).
Proof.
  unfold parse_daemon1. eapply safe_bind; [leaf|side|]. intros q Hq. cbv beta in Hq.
  assert (inside (default 0%nat q)) as Hd by (destruct q; [apply (char_bound _ _ _ Hq)|exact first_inside]).
  set (d := default 0%nat q) in *. run.
  eapply safe_bind; [apply safe_if_set; [done|run]|done|]. intros _ _. run.
Qed.

Lemma safe_daemon_addr n term : inside term -> safe n n (daemon_addr term) inside.
Proof.
  intros Hp. unfold daemon_addr. eapply safe_bind; [leaf|side|]. intros [str|] Hs; [|run].
  eapply safe_bind; [apply safe_end_at2; [side|done..]|done|]. intros q [Hq [x Hx]].
  pose proof (found_inside _ _ Hx). eapply safe_bind; [leaf|done|]. intros c Hc. cbv beta in Hc. run.
Qed.
#[local] Hint Resolve safe_daemon_addr : search.

Lemma safe_daemon2 n : safe n n (parse_daemon2 o) (fun _ => True).
Proof. unfold parse_daemon2. run. Qed.

(** *** Messages of the kernel *)

Lemma safe_integrity n : Z.of_nat n + 1 < two32 -> safe n (S n) (parse_integrity o) (fun _ => True).
Proof.
  intros Hr. unfold parse_integrity. run.
  eapply (safe_bind n (S n)); [apply safe_if_set; [lia|]|done|intros _ _; run].
  eapply safe_bind; [leaf|lia|]. intros [str|] Hs; [|run].
  pose proof (safe_call n (S n) (S n) (common_path_parser (str + 6)) (mret tt) (fun _ => 8) (fun _ => True)) as Hc.
  intros st Hi. destruct (Hc ltac:(apply safe_common_path; side) ltac:(done) ltac:(done) ltac:(run) st Hi)
    as (out & st' & E & Ho).
  exists out, st'. split; [|done]. rewrite <-E. unfold mbind, M_bind. destruct (call _ st) as [[[rc|rc] st1]|]; [|done..].
  by destruct (rc =? 0).
Qed.

Lemma safe_num_or_last n ptr bad set :
  bad <> 0 -> (forall v, keeps (set v)) -> (ptr < length m0)%nat -> safe n n (num_or_last ptr bad set) inside.
Proof.
  intros Hb Hs Hp. unfold num_or_last. eapply safe_bind; [leaf|side|]. intros x Hx. apply safe_ret; [done|].
  by apply default_inside.
Qed.
#[local] Hint Resolve safe_num_or_last : search.

Lemma safe_anom_auid n term none bad : bad <> 0 -> inside term -> safe n n (anom_auid term none bad) inside.
Proof. intros Hb Hp. unfold anom_auid. run. Qed.
Lemma safe_last_ses n term bad : bad <> 0 -> inside term -> safe n n (last_ses term bad) inside.
Proof. intros Hb Hp. unfold last_ses. run. Qed.
Lemma safe_anom_subject n t term : inside term -> safe n n (anom_subject o t term) inside.
Proof.
  intros Hp. unfold anom_subject. run.
  apply safe_text_field; [side..|]. destruct (negb _); run.
Qed.
#[local] Hint Resolve safe_anom_auid safe_last_ses safe_anom_subject : search.

Lemma safe_kernel_anom n t : safe n n (parse_kernel_anom o t) (fun _ => True).
Proof. unfold parse_kernel_anom. run. Qed.

Lemma safe_tty n : safe n n (parse_tty o) (fun _ => True).
Proof. unfold parse_tty. run. Qed.

Lemma safe_pkt n : safe n n (parse_pkt o) (fun _ => True).
Proof. unfold parse_pkt, set_hostname. run. Qed.

Lemma safe_upd_then n f term : keeps f -> inside term -> safe n n (_ ← upd f; mret term) inside.
Proof. intros Hf Hp. run. Qed.
#[local] Hint Resolve safe_upd_then : search.

Lemma safe_kernel_ids n term : inside term -> safe n n (kernel_ids o term) inside.
Proof. intros Hp. unfold kernel_ids. run. Qed.
#[local] Hint Resolve safe_kernel_ids : search.

Lemma safe_kernel n : safe n n (parse_kernel o) (fun _ => True).
Proof. unfold parse_kernel. run. Qed.

Lemma safe_simple_message n t : room n -> safe n (n + length m0) (parse_simple_message o t) (fun _ => True).
Proof.
  intros Hr. unfold parse_simple_message.
  apply (safe_bind n n _ _ _ inside); [run|lia|]. intros t1 H1.
  apply (safe_bind n n _ _ _ inside); [run|lia|]. intros t2 H2.
  apply (safe_bind n n _ _ _ inside); [|lia|].
  { apply safe_when; [intros _|done|done]. eapply safe_bind; [leaf|done|]. intros r Hx. apply safe_ret; [done|].
    destruct r as [[str x]|]; [|done]. destruct Hx. by apply default_inside. }
  intros t3 H3. apply (safe_bind n (n + length m0) _ _ _ inside); [|lia|].
  { apply safe_when; [intros _; by apply safe_key_field|lia|done]. }
  intros t4 H4. apply (safe_bind _ (n + length m0) _ _ _ (fun _ => True)); [destruct (t =? _); run|done|].
  intros _ _. run.
Qed.

(** *** The type of a name *)

Definition leads {A} (m : M A) (P : pstate -> Prop) : Prop := forall st a st', m st = Some (Ok a, st') -> P st'.

Lemma leads_bind {A B} (m : M A) (k : A -> M B) P : (forall a, leads (k a) P) -> leads (a ← m; k a) P.
Proof.
  intros Hk st b st'. unfold mbind, M_bind. destruct (m st) as [[[a|rc] st1]|]; [apply Hk|done|done].
Qed.

Lemma leads_give {A} rc P : leads (A := A) (ret rc) P.
Proof. intros st a st'. unfold ret. discriminate. Qed.

(** A name has been added. *)
Definition has_name (st : pstate) : Prop := exists l, filename (it st) = Some l /\ is_Some (HitList.cur l).

Lemma add_file_leads t : leads (add_file t) has_name.
Proof.
  intros [m x y i a w] u st'. unfold add_file. destruct (HitList.slist_append _ _ _) as [l|] eqn:E; [|done].
  intros [= <- <-]. exists l. destruct i. split; [done|]. revert E.
  unfold HitList.slist_append, HitList.append_last. destruct (HitList.new_node _ _ _) as [b l1].
  destruct (HitList.last_ l1) as [l2|]; [|done]. cbn. unfold HitList.link_new.
  destruct (HitList.head l2).
  - cbn. destruct (HitList.cur l2); [|done]. cbn. destruct (HitList.set_next _ _ _); [|done]. by intros [= <-].
  - by intros [= <-].
Qed.

Lemma common_path_leads path : leads (common_path_parser path) has_name.
Proof.
  unfold common_path_parser.
  repeat first
  [ apply add_file_leads
  | apply leads_give
  | apply leads_bind; intros ?
  | match goal with |- leads (match ?x with _ => _ end) _ => destruct x end ].
Qed.

Lemma set_file_key_ok n t st : inv n st -> has_name st ->
  exists st', set_file_key t st = Some (Ok tt, st') /\ inv n st'.
Proof.
  intros [Hm Hw [Hk Hf Ha]] (l & El & [c Ec]). rewrite El in Hf. destruct Hf as (xs & Hr & Hc & Hl).
  pose proof (Hc c Ec) as Hin. apply list_elem_of_fmap in Hin as ([b d] & -> & (pre & post & ->)%list_elem_of_split).
  cbn in Ec. set (f d := HitList.SNode (HitList.str d) (Some t) (HitList.shits d)).
  destruct (HitListFacts.update_spec f l pre b d post Hr) as (l' & E & Hr').
  subst f. cbv beta in Hr'. unfold set_file_key. rewrite El. cbn [mbind option_bind]. rewrite Ec. cbn [mbind option_bind]. rewrite E.
  eexists. split; [reflexivity|]. destruct st as [m x y i a w]. constructor; [done..|]. destruct i.
  constructor; [done| |done]. eexists. split_and!; [exact Hr'| |].
  - intros c. assert (HitList.cur l' = HitList.cur l) as ->.
    { revert E. unfold HitList.update. destruct (HitList.heap l !! b); [|done]. by intros [= <-]. }
    rewrite Ec. intros [= <-]. rewrite fmap_app. apply elem_of_app. right. by left.
  - rewrite length_app in *. cbn in *. lia.
Qed.

Lemma safe_path_name n term : Z.of_nat n + 1 < two32 -> inside term -> safe n (S n) (path_name term) inside.
Proof.
  intros Hr Hp. unfold path_name. eapply safe_bind; [leaf|lia|]. intros [str|] Hs; [|run].
  intros st Hi. destruct (safe_common_path n (str + 6) Hr ltac:(side) st Hi) as (out & st1 & E & Ho).
  pose proof (common_path_leads (str + 6) st) as Hn. unfold mbind at 1, M_bind at 1. rewrite E in Hn |- *.
  destruct out as [u|rc]; [|by eexists _, st1]. destruct Ho as [Hi1 _]. specialize (Hn u st1 eq_refl).
  destruct (safe_strstr (S n) (str + 6) "type=" ltac:(side) st1 Hi1) as (out & st2 & E2 & Ho2).
  assert (st2 = st1) as ->.
  { revert E2. unfold strstr, text, mbind, M_bind. case_decide; [|done]. by intros [= <- <-]. }
  unfold mbind, M_bind. rewrite E2. destruct out as [[q|]|rc]; [| |by eexists _, st1].
  - destruct Ho2 as [_ Hq]. unfold text. rewrite (i_msg _ _ Hi1), decide_True by side.
    destruct (set_file_key_ok (S n) (Ellist.to_string (StrSplit.c_string m0 (q + 5))) st1 Hi1 Hn) as (st3 & -> & Hi3).
    eexists _, st3. split; [reflexivity|]. split; [done|side].
  - eexists _, st1. split; [reflexivity|]. split; [done|side].
Qed.

Lemma safe_path n : Z.of_nat n + 1 < two32 -> (NAME_OFFSET < length m0)%nat ->
  safe n (S n) (parse_path o) (fun _ => True).
Proof.
  intros Hr Hn. unfold parse_path. apply (safe_bind n (S n) _ _ _ inside); [|done|intros ? ?; run].
  apply safe_when; [intros _; by apply safe_path_name|lia|done].
Qed.

End safe.

(** ** Records and events *)

Section extract.
Context `{Env} (smalloc_fresh : forall h, h !! smalloc h = None).
Context (logged : string -> option string) (o : options) (report_format : Z).

(** All types but the messages of programs, addresses and access vectors. *)
Definition bounded (t : Z) : bool :=
  negb ((t =? 1005) || in_range 1100 1199 t || in_range 2100 2999 t || (t =? 1306) || (t =? 1400)).

(** What PATH and CWD records skip. *)
Definition skips_name (t : Z) : bool := (t =? 1302) || (t =? 1307).

Section text.
Context (m0 : chars) (m0_ends : ends m0) (m0_start : begins (Ellist.to_chars "uid=") m0 = false).
Abbreviation safe' := (safe logged m0 false).

(** The code of the message; that of the path is ignored. *)
Lemma safe_config n t : Z.of_nat (n + S (length m0)) < two32 ->
  safe' n (n + S (length m0)) (rc ← call (parse_simple_message o t); _ ← call (avc_parse_path o); ret rc) (fun _ : unit => True).
Proof.
  intros Hr st Hi. destruct (safe_simple_message smalloc_fresh logged o m0 m0_ends false eq_refl n t) with (1 := ltac:(unfold room; lia) : room m0 n) (2 := Hi)
    as (out & st1 & E & Ho).
  assert (exists rc, call (parse_simple_message o t) st = Some (Ok rc, st1) /\
    given_up logged m0 false (n + length m0) rc st1) as (rc & E1 & [Hl He Hw Hls Hs]).
  { unfold call. rewrite E. destruct out as [u|rc]; eexists; (split; [done|]); [|done].
    destruct Ho. by apply inv_up. }
  assert (inv logged (msg st1) (n + length m0) st1) as Hi1 by by constructor.
  destruct (safe_avc_parse_path smalloc_fresh logged o (msg st1) He true (n + length m0) ltac:(lia) st1 Hi1)
    as (out2 & st2 & E2 & Ho2).
  assert (exists rc2, call (avc_parse_path o) st1 = Some (Ok rc2, st2) /\
    given_up logged (msg st1) true (n + S (length m0)) rc2 st2) as (rc2 & E3 & [Hl2 He2 Hw2 Hls2 Hs2]).
  { unfold call. rewrite E2. replace (n + S (length m0))%nat with (S (n + length m0)) by lia.
    destruct out2 as [u|rc2]; eexists; (split; [done|]); [|done]. destruct Ho2. by apply inv_up. }
  unfold mbind, M_bind. rewrite E1, E3. eexists _, st2. split; [reflexivity|]. constructor; [congruence|done..|].
  intros Hz. rewrite Hs2 by (by left). by apply Hs.
Qed.

Lemma safe_record n t : bounded t = true -> Z.of_nat (n + S (length m0)) < two32 ->
  (skips_name t = true -> (NAME_OFFSET < length m0)%nat) ->
  safe' n (n + S (length m0)) (parse_record o report_format t) (fun _ => True).
Proof.
  intros Hb Hr Hn. pose proof (fun n n' m Hm Hle => safe_weaken logged m0 false n n' (n + S (length m0)) m (fun _ => True)
    (fun _ : unit => True) Hm Hle (fun _ _ => I)) as weaken.
  assert (safe' n (n + S (length m0)) (mret tt) (fun _ => True)) as Hnone by (apply safe_ret; [lia|done]).
  unfold parse_record.
  repeat match goal with |- safe _ _ _ _ _ (if ?b then _ else _) _ => destruct b eqn:? end.
  all: first
  [ exact Hnone
  | exfalso; unfold bounded, in_range, AUDIT_USER_AVC in *; lia
  | by apply safe_config
  | eapply weaken; [by apply safe_syscall; [..|unfold room; lia]|lia]
  | eapply weaken; [apply safe_dir; [done..|apply Hn; unfold skips_name; lia]|lia]
  | eapply weaken; [apply safe_path; [done..|lia|apply Hn; unfold skips_name; lia]|lia]
  | eapply weaken; [apply safe_avc_parse_path; [done..|lia]|lia]
  | eapply weaken; [apply safe_integrity; [done..|lia]|lia]
  | eapply weaken; [apply safe_simple_message; [done..|unfold room; lia]|lia]
  | eapply weaken; [first [by apply safe_login | by apply safe_obj | by apply safe_daemon1 | by apply safe_daemon2
      | by apply safe_pkt | by apply safe_task_info | by apply safe_kernel_anom | by apply safe_kernel | by apply safe_tty]|lia] ].
Qed.

End text.

(** *** Events *)

Record node_ok (n : lnode) : Prop := NodeOk {
  n_type : bounded (ntype n) = true;
  n_text : NUL ∉ Ellist.to_chars (message n);
  n_start : starts_with "uid=" (message n) = false;
  n_long : skips_name (ntype n) = true -> (NAME_OFFSET <= String.length (message n))%nat;
}.

(** What a record may add to the lists. *)
Definition weight (n : lnode) : nat := (String.length (message n) + 2)%nat.

Lemma starts_begins p s : starts_with p s = false -> begins (Ellist.to_chars p) (Ellist.to_chars s ++ [NUL]) = true ->
  exists q, p = String.append s (String NUL q).
Proof.
  revert s. induction p as [|c p IH]; intros [|d s]; cbn; try done.
  - intros _. destruct (Ascii.eqb_spec c NUL) as [->|]; [|done]. intros _. by exists p.
  - destruct (Ascii.eqb_spec c d) as [->|]; [|done]. cbn. intros Hs Hb. destruct (IH _ Hs Hb) as (q & ->). by exists q.
Qed.

Lemma text_back m : NUL ∉ Ellist.to_chars m -> Interpret.text_of (Ellist.to_chars m ++ [NUL]) = m.
Proof.
  intros Hm. unfold Interpret.text_of. rewrite (StrSplit.until_nul_text _ [] Hm).
  apply String.string_of_list_ascii_of_string.
Qed.

Lemma node_read k n i w : node_ok n -> lists_ok k i -> world_ok logged w -> Z.of_nat (k + weight n) < two32 ->
  exists rc n' i' w', parse_node o report_format n i w = Some (rc, n', i', w') /\
    lists_ok (k + weight n) i' /\ world_ok logged w' /\ (rc = 0 -> message n' = message n).
Proof.
  intros [Ht Hm Hs Hlong] Hi Hw Hk. unfold weight in *.
  assert (length (Ellist.to_chars (message n) ++ [NUL]) = S (String.length (message n))) as Hl.
  { rewrite length_app, text_length. cbn. lia. }
  assert (ends (Ellist.to_chars (message n) ++ [NUL])) as He by (unfold ends; by rewrite last_snoc).
  assert (begins (Ellist.to_chars "uid=") (Ellist.to_chars (message n) ++ [NUL]) = false) as Hb.
  { destruct (begins _ _) eqn:E; [|done]. apply starts_begins in E as (q & E); [|done]. exfalso.
    revert E. generalize (message n). intros [|? [|? [|? [|? [|? ?]]]]]; discriminate. }
  destruct (safe_record _ He Hb k (ntype n) Ht) with (3 := Inv logged _ k
    (PState (Ellist.to_chars (message n) ++ [NUL]) (a0 n) (a1 n) i Avc.anode_init w) eq_refl Hw Hi)
    as (out & st & E & Ho); [lia|intros Hsk; specialize (Hlong Hsk); lia|].
  assert (exists rc, call (parse_record o report_format (ntype n))
      (PState (Ellist.to_chars (message n) ++ [NUL]) (a0 n) (a1 n) i Avc.anode_init w) = Some (Ok rc, st) /\
      given_up logged (Ellist.to_chars (message n) ++ [NUL]) false (k + weight n) rc st) as (rc & Ec & [_ _ Hw' Hi' Hsame]).
  { unfold call. rewrite E. unfold weight. rewrite Hl in Ho.
    replace (k + (String.length (message n) + 2))%nat with (k + S (S (String.length (message n))))%nat by lia.
    destruct out as [u|rc]; eexists; (split; [done|]); [|done]. destruct Ho. by apply inv_up. }
  unfold parse_node. rewrite Ec. cbn. eexists _, _, _, _. split; [reflexivity|]. split_and!; [done..|].
  intros ->. destruct n. cbn in *. rewrite Hsame by (by right). by apply text_back.
Qed.

Definition weights (ns : list lnode) : nat := sum_list (weight <$> ns).

(** The loop over the records from the cursor on. *)
Lemma extract_loop_safe rest : forall fuel done l w k,
  nodes (records l) = done ++ rest -> cur (records l) = Some (length done) -> rest <> [] ->
  (length rest <= fuel)%nat -> Forall node_ok rest -> lists_ok k (s l) -> world_ok logged w ->
  Z.of_nat (k + weights rest) < two32 ->
  exists rc l' w', extract_loop o report_format fuel l w = Some (rc, l', w') /\
    lists_ok (k + weights rest) (s l') /\ world_ok logged w' /\
    (rc = 0 -> message <$> nodes (records l') = message <$> nodes (records l)).
Proof.
  induction rest as [|n rest IH]; [done|]. intros fuel done l w k Hn Hc _ Hf [Hn1 Hrest]%Forall_cons Hi Hw Hk.
  destruct fuel as [|fuel]; [cbn in Hf; lia|]. unfold weights in *. cbn in Hk, Hf |- *.
  assert (nodes (records l) !! length done = Some n) as Hlk by (by rewrite Hn, list_lookup_middle).
  destruct (node_read k n (s l) w Hn1 Hi Hw ltac:(lia)) as (rc & n' & i' & w' & E & Hi' & Hw' & Hsame).
  rewrite Hc. cbn. unfold list_get_cur, cl_get_cur. rewrite Hc, Hlk. cbn. rewrite E. cbn.
  set (l1 := set_records _ (set_node _ _ _ _)).
  assert (nodes (records l1) = (done ++ [n']) ++ rest) as Hn'.
  { cbn. by rewrite Hn, insert_app_r_alt, Nat.sub_diag, <-app_assoc by lia. }
  assert (rc = 0 -> message <$> nodes (records l1) = message <$> nodes (records l)) as Hs1.
  { intros Hz. rewrite Hn', Hn, !fmap_app. cbn. by rewrite Hsame, <-app_assoc by done. }
  assert (lists_ok (k + (weight n + sum_list (weight <$> rest))) i') as Hi2 by (eapply lists_more; [|exact Hi']; lia).
  assert (exists rc' l' w'', Some (rc, l1, w') = Some (rc', l', w'') /\
    lists_ok (k + (weight n + sum_list (weight <$> rest))) (s l') /\ world_ok logged w'' /\
    (rc' = 0 -> message <$> nodes (records l') = message <$> nodes (records l))) as Hstop by by eexists _, _, _.
  assert (length (nodes (records l1)) = (S (length done) + length rest)%nat) as Hlen.
  { rewrite Hn', !length_app. cbn. lia. }
  change (<[length done := n']> (nodes (records l))) with (nodes (records l1)).
  destruct (succ_of _ _) as [j|] eqn:Es; [|done]. unfold succ_of in Es. cbn [nodes] in Es. case_decide as Hj; [|done].
  injection Es as <-. change (<[length done := n']> (nodes (records l))) with (nodes (records l1)) in Hj.
  destruct (nodes (records l1) !! _); [|done]. destruct (Z.eqb_spec rc 0) as [Hz|]; [|done].
  destruct (IH fuel (done ++ [n']) l1 w' (k + weight n)%nat) as (rc' & l' & w'' & E' & H1 & H2 & H3); try done.
  - cbn. unfold succ_of. cbn [nodes]. rewrite decide_True by done. by rewrite length_app, Nat.add_1_r.
  - intros ->. rewrite Hlen in Hj. cbn in Hj. lia.
  - lia.
  - lia.
  - exists rc', l', w''. split; [done|]. split_and!; [by rewrite Nat.add_assoc|done|].
    intros Hz'. rewrite H3 by done. by apply Hs1.
Qed.

(** C30: Whatever the texts of its records are, taking the search items from an event of
    kernel and daemon records ends without an access outside of a record or through a
    null pointer, and leaves well-formed lists; if it succeeds, the records read as
    before, although the parsers wrote to them.  (Excluded are the types whose parsers
    do read beyond the record, a record that begins with uid=, and PATH and CWD records
    shorter than what is skipped.) *)
Theorem extraction_safe l w k :
  Forall node_ok (nodes (records l)) -> lists_ok k (s l) -> world_ok logged w ->
  Z.of_nat (k + weights (nodes (records l))) < two32 ->
  exists rc l' w', extract_search_items o report_format l w = Some (rc, l', w') /\
    lists_ok (k + weights (nodes (records l))) (s l') /\ world_ok logged w' /\
    (rc = 0 -> message <$> nodes (records l') = message <$> nodes (records l)).
Proof.
  intros Hn Hi Hw Hk. unfold extract_search_items. destruct (list_get_cur (list_first l)) as [n|] eqn:E.
  - assert (nodes (records l) <> [] /\ cur (records (list_first l)) = Some 0%nat) as [Hne Hc].
    { revert E. unfold list_get_cur, list_first, cl_get_cur, cl_first, cl_head. cbn.
      by destruct (nodes (records l)). }
    refine (extract_loop_safe (nodes (records l)) _ [] (list_first l) w k eq_refl Hc Hne _ Hn Hi Hw Hk). cbn. lia.
  - eexists _, _, _. split; [reflexivity|]. split_and!; [|done|done]. eapply lists_more; [|exact Hi]. lia.
Qed.

End extract.
End SearchSafe.
