(* ===== verification/SearchSamples.v ===== *)
(** * Sample records

    The theorem about system calls at a concrete record, and records from which
    src/src/ausearch-parse.c takes what they do not say. *)
From S2P Require Import Prelude CString CList StrSplit HitList HitListFacts Avc Llist Nvlist Escape Ellist Interpret AuSearch Match MatchFacts SearchParse SearchParseFacts SearchSyscall SearchMatch SearchSafe.
From coqutil Require Import Datatypes.RecordSetters.
Import RecordSetters.TriangleBracketNotations.

Local Open Scope audit_scope.
Local Open Scope list_scope.
Local Open Scope string_scope.
Local Open Scope Z_scope.

Module SearchSamples.
Import Llist SearchParse SearchParseFacts SearchSyscall SearchMatch SearchSafe.

(** A machine with one user. *)
Definition sample_env : Env := {|
  getpwuid u := if u =? 1000 then Some "bob" else None;
  getnameinfo _ := None;
  smalloc h := fresh (dom h : gset nat);
  junk := "x"%char;
|}.
#[local] Existing Instance sample_env.

Lemma sample_fresh h : h !! smalloc h = None.
Proof. apply (not_elem_of_dom (D := gset nat)). apply (is_fresh (dom h : gset nat)). Qed.

Definition no_world : world := World Nv.nvlist_create false None.

Lemma no_world_ok : world_ok (fun _ => None) no_world.
Proof. by constructor. Qed.

(** ** A system call *)

Definition cat_rec : sysrec := {|
  k_stamp := txt "audit(1600000000.123:7):"; k_arch := 3221225534; k_syscall := 257; k_success := true;
  k_exit := -13; k_a0 := 4294967196; k_a1 := 140723412345; k_a2 := 0; k_a3 := 0; k_items := 1; k_ppid := 2100;
  k_pid := 2102; k_auid := 1000; k_uid := 1000; k_gid := 100; k_euid := 0; k_suid := 0; k_fsuid := 0; k_egid := 100;
  k_sgid := 100; k_fsgid := 100; k_tty := txt "pts0"; k_ses := 3; k_comm := txt "a b"; k_exe := txt "/usr/bin/cat";
  k_subj := txt "user_u:user_r:user_t:s0"; k_keys := [txt "etc"; txt "access"] |}.

Lemma cat_ok : ok cat_rec.
Proof. constructor; by_computing. Qed.

(** -p 2102 -ui bob -c "a b" -k access --success yes *)
Definition cat_options : options :=
  MatchFacts.no_options<|Match.event_pid := 2102|><|Match.event_tuid := Some "bob"|><|Match.event_comm := Some "a b"|>
    <|Match.event_key := Some "access"|><|Match.event_success := S_SUCCESS|>.

Definition record_of (t : Z) (m : string) : lnode := LNode m None 0 0 t 0 0 0.
Definition cat_node : lnode := record_of 1300 (Ellist.to_string (line cat_rec)).
Definition cat_event : event := Event 1600000000 123 7 None 1300.
Definition cat_parse : Match.Parse := search_parse cat_options 1 id.
Definition cat_state : @Match.state cat_parse := @Match.State cat_parse no_world (lone cat_node cat_event 0) None None.

Lemma cat_wanted : Match.in_window cat_options cat_event
  && by_record cat_options 1 id (fun _ => None) cat_rec None None cat_node cat_event = true.
Proof. vm_compute. reflexivity. Qed.

Lemma syscall_matched_witness : exists st', @Match.match_ cat_parse cat_options cat_state = Some (true, st').
Proof.
  destruct (syscall_matched sample_fresh cat_options 1 id (fun _ => None) cat_rec cat_ok cat_state
    (@Match.State cat_parse (World Nv.nvlist_create true None) (lone cat_node cat_event 0) None None)
    cat_node cat_event 0 None None) as (st' & E).
  - split; discriminate.
  - discriminate.
  - right. left. reflexivity.
  - reflexivity.
  - reflexivity.
  - reflexivity.
  - reflexivity.
  - constructor; [reflexivity|exact I].
  - exact I.
  - exact I.
  - discriminate.
  - exists st'. exact (eq_trans E (f_equal (fun b : bool => Some (b, st')) cat_wanted)).
Defined.

(** ** Any text *)

(** A number too large, a name that does not end, and a blank where none is. *)
Definition odd_node : lnode :=
  record_of 1300 ("type=SYSCALL msg=audit(1.2:3): arch=zz syscall= uid=auid= a0=x a1=99999999999999999999 comm=" ++ String DQUOTE "").
Definition path_node : lnode :=
  record_of 1302 ("type=PATH msg=audit(1.2:3): item=0 name=" ++ String DQUOTE "" ++ "/etc/passwd" ++ String DQUOTE "" ++ " nametype=").

Lemma odd_ok : SearchSafe.node_ok odd_node.
Proof. constructor; by_computing. Qed.
Lemma path_ok : SearchSafe.node_ok path_node.
Proof. constructor; [by_computing..|]. intros _. vm_compute. lia. Qed.

Definition odd_event : llist := LList (CList [path_node; odd_node] None 2) cat_event no_items 0.
Definition name_options : options := MatchFacts.no_options<|Match.event_filename := Some "passwd"|>.

Lemma extraction_safe_witness : exists rc l' w',
  extract_search_items name_options 1 odd_event no_world = Some (rc, l', w') /\
  world_ok (fun _ => None) w' /\ length (nodes (records odd_event)) = 2%nat.
Proof.
  destruct (SearchSafe.extraction_safe sample_fresh (fun _ => None) name_options 1 odd_event no_world 0)
    as (rc & l' & w' & E & _ & Hw & _).
  - apply List.Forall_cons; [exact path_ok|]. apply List.Forall_cons; [exact odd_ok|apply List.Forall_nil].
  - constructor; exact I.
  - exact no_world_ok.
  - vm_compute. reflexivity.
  - exists rc, l', w'. split; [exact E|split; [exact Hw|reflexivity]].
Defined.

(** ** Records that are read wrong *)

Definition read (o : options) (t : Z) (m : string) : option (Z * lnode * search_items * world) :=
  parse_node o 1 (record_of t m) no_items no_world.
Definition item_read {A} (f : search_items -> A) (o : options) (t : Z) (m : string) : option (Z * A) :=
  '(rc, _, i, _) ← read o t m; Some (rc, f i).

Definition quoted (s : string) : string := String DQUOTE (String.append s (String DQUOTE "")).

(** The user of TTY and INTEGRITY records is always taken for root: the number is read
    from the '=' on. *)
Example tty_user_is_root :
  item_read (fun i => (uid i, tuid i)) (MatchFacts.no_options<|Match.event_uid := 1000|>) 1319
    "type=TTY msg=audit(1.2:3): tty pid=2 uid=1000 auid=1000 ses=1 comm=6261" = Some (0, (0, Some "root")).
Proof. vm_compute. reflexivity. Qed.

Example integrity_user_is_root :
  item_read uid (MatchFacts.no_options<|Match.event_uid := 1000|>) 1800
    "type=INTEGRITY_DATA msg=audit(1.2:3): pid=2 uid=1000 auid=1000 ses=1 res=0" = Some (0, 0).
Proof. vm_compute. reflexivity. Qed.

(** The subject of a LOGIN record is taken with the name of the field, so that no
    exact search finds it. *)
Example login_subject_with_name :
  item_read (fun i => option_map (fun a => map Avc.scontext (nodes a)) (avc i))
    (MatchFacts.no_options<|Match.event_subject := Some "s0"|>) 1006
    "type=LOGIN msg=audit(1.2:3): pid=2 uid=0 subj=u:r:t:s0 old-auid=1 auid=2" = Some (0, Some [Some "subj=u:r:t:s0"]).
Proof. vm_compute. reflexivity. Qed.

(** A program that calls itself exe=... is not found by its executable, which is
    looked for from the beginning of the record. *)
Example name_hides_executable :
  item_read exe (MatchFacts.no_options<|Match.event_exe := Some "/tmp/evil"|>) 1328
    ("type=FEATURE_CHANGE msg=audit(1.2:3): ppid=1 pid=2 comm=" ++ quoted "exe=x" ++ " exe=" ++ quoted "/tmp/evil")%string
  = Some (0, None).
Proof. vm_compute. reflexivity. Qed.

(** The brace of an AVC record that follows a permission at once is replaced by a
    blank in the record that is shown. *)
Example brace_lost :
  (fun x => message x.1.1.2) <$> read MatchFacts.no_options 1400
    "type=AVC msg=audit(1.2:3): avc:  denied  {read} for pid=2 tclass=file"
  = Some "type=AVC msg=audit(1.2:3): avc:  denied  {read  for pid=2 tclass=file".
Proof. vm_compute. reflexivity. Qed.

(** A number that is too large leaves the record cut. *)
Example record_left_cut :
  (fun x => (x.1.1.1, message x.1.1.2)) <$> read (MatchFacts.no_options<|Match.event_pid := 2|>) 1319
    "type=TTY msg=audit(1.2:3): tty pid=99999999999999999999 uid=0"
  = Some (2, "type=TTY msg=audit(1.2:3): tty pid=99999999999999999999").
Proof. vm_compute. reflexivity. Qed.

(** A record of a program that ends with its account is read beyond its end, and so is
    one whose directory is the last word and not quoted. *)
Example account_at_end :
  read (MatchFacts.no_options<|Match.event_hostname := Some "h"|>) 1112
    "type=USER_LOGIN msg=audit(1.2:3): pid=2 acct=bob" = None.
Proof. vm_compute. reflexivity. Qed.

Example directory_at_end :
  read (MatchFacts.no_options<|Match.event_filename := Some "f"|>) 1123
    "type=USER_CMD msg=audit(1.2:3): pid=2 cwd=2F" = None.
Proof. vm_compute. reflexivity. Qed.

(** An address that is cut short passes the test of its length when words follow, and
    the name of the host is read from beyond the copy. *)
Example short_address :
  read (MatchFacts.no_options<|Match.event_hostname := Some "h"|>) 1306
    "type=SOCKADDR msg=audit(1.2:3): saddr=0200 and more words of this line" = None.
Proof. vm_compute. reflexivity. Qed.

(** A key of separators only gives a list without a node, whose first node [match] then
    reads. *)
Definition key_options : options := MatchFacts.no_options<|Match.event_key := Some "access"|>.
Definition key_node : lnode :=
  record_of 1305 "type=CONFIG_CHANGE msg=audit(1.2:3): auid=1 ses=2 op=add_rule key=01 list=4 res=1".

Definition key_matched : option bool :=
  fst <$> @Match.match_ (search_parse key_options 1 id) key_options
    (@Match.State (search_parse key_options 1 id) no_world (lone key_node cat_event 0) None None).

Example key_of_separators : key_matched = None.
Proof. vm_compute. reflexivity. Qed.

End SearchSamples.
